(* ===== verification/_CoqProject ===== *)
-Q . S2P
Prelude.v
Bits.v
Varint.v
Double.v
Value.v
Codes.v
Record.v
Strings.v
Buffer.v
Session.v
Recorder.v
Tracking.v
SelectSql.v
Changeset.v
Generate.v
Scenario.v
SessionCorrect.v
Iterator.v
IteratorSpec.v
IteratorCorrect.v
Invert.v
RecordCorrect.v
Noria.v
NoriaSql.v
Cdc.v
InvertCorrect.v
CdcMachine.v
CdcCorrect.v
NoriaSqlCorrect.v
Bind.v
Js.v
Binder.v
BinderCorrect.v
JsCorrect.v
StmtText.v
NoriaJs.v
Addon.v
StatementOps.v
DatabaseOps.v
AddonInv.v
AddonSafe.v
AddonMethods.v
AddonMachine.v
AddonCorrect.v
AddonDemo.v
AddonProps.v
CustomFunction.v
CustomTable.v
TableCorrect.v
DataType.v
EngineState.v
EngineOps.v
Executor.v
EngineGraph.v
EngineSql.v
EngineCorrect.v
EngineAggregate.v
EngineNode.v
EngineViews.v
EngineProps.v
EngineBuild.v
EngineSqlCorrect.v
EngineFfi.v
EngineFfiCorrect.v
Savepoint.v
SavepointCorrect.v
SavepointWrite.v
SavepointProps.v
JsTransaction.v
Pager.v
PagerJournal.v
PagerOps.v
PagerRun.v
PagerRecovery.v
PagerCrash.v
PagerTxn.v
PagerInv.v
PagerCommit.v
PagerActive.v
PagerAtomic.v
