(* ===== verification/Prelude.v ===== *)
(** * Noria-SQLite: verification library

    ** The program

    noria-better-sqlite3 is a Node.js addon that puts an incremental cache, the
    Noria dataflow engine, in front of SQLite.  JavaScript calls the addon's
    objects (Database, Statement, StatementIterator, Backup); these call SQLite;
    a C++ object, [class Noria], registers SELECT statements as views of the
    engine and answers [get()] from it; SQLite's session extension records
    every row change, and after a write the recorded changeset is decoded and
    sent to the engine, so that its views follow the database.

    ** Files and the code they model

    Paths are under src/noria-better-sqlite3/; sqlite3.c is in deps/sqlite3/,
    the C++ files in src/objects/ and src/util/.

    Foundations.
    - Prelude: machine integers with their wraps, buffers, shared lemmas; Bits:
      integers as lists of binary digits; Double: doubles as IEEE 754 patterns.
    - Value: SQL values and their accessors (vdbeapi.c, vdbemem.c in sqlite3.c).
    - Strings: string helpers of SQLite.  Varint: variable-length integers.
    - Codes: result codes (sqlite3.h) and their names (constants.cpp).

    The session extension (sqlite3session.c, in sqlite3.c).
    - Record: the record format, serialisation, hashing, comparison, merging.
    - Buffer: the growable output buffer.
    - Session: session objects, table information, and the pre-update callback
      [xPreUpdate] that records changes in hash tables.
    - SelectSql, Changeset: [sqlite3session_changeset].
    - Iterator: [sqlite3changeset_start], [_next], the accessors, [_finalize].
    - Invert: [sqlite3changeset_invert]; InvertCorrect: its theorems.
    - Recorder, Tracking, Generate, IteratorSpec: their correctness proofs;
      Tracking defines a database of tables and a machine of row changes,
      savepoints and rollbacks in which the session runs.
    - Scenario: a concrete database used by the witnesses.
    - SessionCorrect, IteratorCorrect, RecordCorrect: the theorems.

    The cache connection (noria.cpp, noria.h).
    - Noria: the state of [class Noria], its session, [ProcessSessionChangeset];
      the engine behind noria.h is the type class [NoriaFfi], what is assumed
      of it the class [NoriaFfiLaws].
    - NoriaSql: the scan for table names, view registration, upqueries.
    - Cdc, CdcMachine: the calls the engine receives, and a machine of database,
      session and engine, which remembers the database of the last notification
      that was delivered ([y_told]).
    - CdcCorrect, NoriaSqlCorrect: the rows as signed counts, and the theorems.

    The addon.
    - Bind: parameters of a prepared statement (vdbeapi.c, util.c).
    - Js: JavaScript values and their conversion (data.cpp, row-builder.cpp).
    - Binder: arguments to parameters (binder.cpp, bind-map.cpp); BinderCorrect
      and JsCorrect: the theorems.
    - StmtText: the texts [Statement::JS_new] and [DetectStatementType] scan.
    - NoriaJs: cache keys and rows as JavaScript values (statement.cpp, noria.cpp).
    - Addon: the objects' state as one record [World], the guards of macros.cpp
      and the frame of a call of query-macros.cpp; StatementOps: the methods of
      statement.cpp and statement-iterator.cpp; DatabaseOps: those of
      database.cpp, backup.cpp and addon.cpp.
    - AddonInv, AddonSafe, AddonMethods, AddonMachine: the invariant of
      a connection, its preservation by each method, and programs of calls in
      which user code calls back; AddonCorrect, AddonDemo, AddonProps: the
      theorems and the objects of their witnesses.
    - CustomFunction: custom-function.cpp and custom-aggregate.cpp;
      CustomTable, TableCorrect: custom-table.cpp.

    Transactions.
    - Savepoint: the opcodes for transactions and savepoints and the end of a
      statement (vdbe.c, vdbeaux.c, main.c, build.c in sqlite3.c) over a class
      [Storage] of the B-tree calls; SavepointCorrect, SavepointWrite: its laws,
      abstract transactions, and the simulation; SavepointProps: the theorem,
      and a storage of snapshots.
    - JsTransaction: transaction functions (lib/methods/transaction.js).

    The pager (pager.c, pcache.c in sqlite3.c).
    - Pager: the state of a [Pager] with its files, and a monad of programs whose
      system calls take their results from [PagerEnv]; PagerJournal: journal headers
      and records, playback; PagerOps: locks, writing, spilling, commit, rollback,
      savepoints, the recovery of a hot journal.
    - PagerRun, PagerTxn: journals and contents as data, and the results of the
      operations in a system without errors; PagerRecovery: recovery of a journal.
    - PagerCrash: what a crash leaves on the disk, and the end of a journal.
    - PagerInv, PagerCommit, PagerActive: the invariant of a write transaction, its
      operations and its commit; PagerAtomic: crashes during recovery, the theorems.

    The engine (Rust; paths under src/).
    - DataType: values (noria/src/data.rs) and their conversions from and to
      the C interface (noria-better-sqlite3/noria-ffi/src/lib.rs).
    - EngineState, EngineOps, Executor, EngineSql: state.rs, ops.rs, executor.rs
      and sql.rs of noria-sqlite/src/dataflow/: indexed states, operators, the
      graph with [propagate], the conversion of a SELECT to a graph.
    - EngineGraph, EngineCorrect, EngineAggregate, EngineNode, EngineViews:
      acyclicity, operators as incremental queries, columns and one edge,
      all of the graph; EngineBuild: building the graph.
    - EngineProps: the meaning of the operators in SQL, apart from the code, and the
      theorems; EngineSqlCorrect: the converter, and limits of the engine.
    - EngineFfi: the C interface (noria-ffi/src/lib.rs), an instance of [NoriaFfi];
      EngineFfiCorrect: its theorems.

    ** Conventions

    A definition keeps the name of the function it models.  Integers are [Z]
    with every wrap written out; a string or blob is the list of its bytes; a
    pointer is an option.  A result [None] of the option monad is undefined
    behaviour, a failed assertion or a panic: a read or write outside a buffer, use of
    freed memory, signed overflow, a loop that never ends.  Theorems that say a
    function equals [Some ...] therefore say that it is free of these.  What
    lies outside the modelled code (the results of SQLite calls, allocations,
    user code) is an argument: records named [...Env] and functions in them.

    ** What the theorems show

    - Capture: in every reachable state the changeset of a session is the
      encoding of the exact difference of the database since the session
      started ([changeset_exact_difference], from [session_records_originals]);
      the iterator reads it back ([iterator_reads_back]) and its inverse is the
      difference back ([invert_undoes_session]); a notification outside a
      transaction whose changeset can be made ([extracted]) tells the engine the
      difference since the last one delivered ([notify_up_to_date],
      [calls_count_difference]), and [run()] of an INSERT, UPDATE or DELETE ends in
      one ([run_propagates]); none of it is undefined as long as the iterator gets
      its memory ([preupdate_safe], [notify_safe]).  Only tables with a primary key
      are recorded.
    - The record layer: varints, records, hashes, comparisons, merges, growth
      of the hash table and the allocation of column arrays.
    - Views: registration starts a session ([register_view_tracks]), the table
      scan finds tables whose names end at a space, a parenthesis or the end of the
      text ([from_table_found], [join_table_found]), values and rows survive the trip
      through the engine, reals to nine decimals and without blobs ([value_trip],
      [cached_row_same]).
    - The addon: binding ([bind_assigns_parameters]), conversions
      ([bound_value_reads_back], [integer_column_exact]), row objects, the same for
      all versions of Node but for a column named [__proto__] ([rows_agree]), the
      safety of programs that respect what the code does not check
      ([programs_are_safe], [busy_connection_quiet]), closing
      ([connection_can_always_be_closed]), user-defined aggregates and tables
      ([aggregate_computes_fold], [virtual_table_query]).
    - Transactions: the machine's transactions and savepoints are stacks of saved
      contents, through every error path ([scripts_refine]); transaction functions
      that leave no iterator open are atomic and nest ([transaction_atomic]); with an
      open iterator the transaction stays open ([open_iterator_keeps_transaction]).
    - The pager: a committed transaction acts as on a list of pages and is atomic under
      crashes ([pager_transaction_atomic]); before a page changes in the database file
      its original is in the synced journal ([journal_holds_originals]).
      After a crash each sector of a file holds the writes to it up to some point after
      the last sync, chosen sector by sector; size changes keep their order; a deleted
      journal stays deleted if the directory was synced.  The theorems need full
      syncs, a journal that is deleted or truncated, pages not smaller than sectors,
      a journal whose last bytes are not the mark of a super-journal name,
      and a system whose calls succeed until the crash.
    - The engine: after a write every view has the rows its query has in SQL over the
      new tables ([views_follow_writes]), for filters, projections, inner joins, COUNT
      and SUM, when comparisons are between values of one kind, no node is reached
      twice and the states hold all their rows; propagation terminates ([propagation_terminates]); the converter
      builds graphs whose operators fit ([convert_select_well_typed]) and keys
      that survive projection ([projection_keeps_keys]).  [write_fills_hole],
      [join_resets_view], [other_case_not_reached], [min_is_zero],
      [null_is_greater] and [left_join_keeps_padding] show where views go wrong:
      partial states, shared base nodes, names, aggregates and outer joins.
    - The interface: it keeps the law assumed of it ([engine_laws]); a lookup that
      misses returns and stores what SQLite returns ([lookup_reads_through]); a
      change event brings the views up to date under the same conditions, as lookups
      of keys that have rows show ([event_updates_views]).
      [literals_collide], [upquery_of_projection_panics] and
      [table_registered_again] are its defects.
    - Defects: [update_sends_null], [failed_session_is_final],
      [header_scan_diverges], [finalize_after_nomem_faults],
      [getter_can_close_connection], [unsafe_mode_after_close_faults] and the
      theorems [key_flag_wraps], [scan_is_textual], [write_not_notified],
      [keys_ignore_bindings], [semicolon_kept], [lost_nomem], [truncated_record_faults] and
      [negative_size_spins] state what the code does wrong.

    ** Bounds and fuel

    Recursion that is not structural takes fuel computed from its input (the
    bytes left in a changeset, the parameters left, the length of the SQL text);
    running out of it is [None], so the theorems that a routine returns show
    that the fuel is enough; [invert_loop] takes it from its caller, and its theorem
    holds for any number of rounds above the length of the input; [propagate] takes one more than the number of
    nodes, which bounds every path.  The machines of Tracking and CdcMachine count
    their steps; theorems on them hold below 2^24 steps, which keeps every size
    below the 2 GB limits of the code, where the int arithmetic would overflow.

    ** Not modelled

    - SQLite's parser, code generator, other opcodes, B-tree and VFS:
      the modelled code calls them through prepare, step, bind, column and
      pre-update functions, whose results are arguments, and through [Storage].
    - Of the pager: write-ahead logs, super-journals, memory mapping, temporary and
      read-only files, backups.  Rollback is modelled but has no theorem of its own.
    - Changeset concatenation, application, rebasing and session diff: the addon
      does not call them.  Streams: [sqlite3changeset_next] and
      [sqlite3changeset_invert_strm] are modelled on streamed input, the theorems
      are about changesets in memory.
    - Registration of classes with V8, property interning and handle scopes;
      the limits [Database::JS_new] configures; [TryNoriaAll], which nothing
      calls; [V8ToNoriaValue], which returns a dangling pointer.
    - The parser sqlite3-parser, an argument of [convert_select]; the front end of
      the executor for Rust programs (engine.rs, adapter.rs, session.rs).
    - The rest of the JavaScript wrapper (lib/) and the distributed server (src/server,
      src/noria except data.rs), which the addon does not link. *)
From stdpp Require Export prelude countable list list_numbers.
From Stdlib Require Export ZArith Lia.

#[global] Open Scope Z_scope.

(** ** C integers

    Machine integers are values of [Z]; every C conversion or arithmetic
    operation that can wrap is written with one of the functions below. *)

Definition u8 (x : Z) : Z := x mod 2 ^ 8.
Definition u16 (x : Z) : Z := x mod 2 ^ 16.
Definition u32 (x : Z) : Z := x mod 2 ^ 32.
Definition u64 (x : Z) : Z := x mod 2 ^ 64.

(** Conversion to a signed [w]-bit integer (two's complement). *)
Definition signed (w x : Z) : Z :=
  let y := x mod 2 ^ w in if y <? 2 ^ (w - 1) then y else y - 2 ^ w.

Definition i32 (x : Z) : Z := signed 32 x.
Definition i64 (x : Z) : Z := signed 64 x.

(** Truth value of a C expression, and the C integer of a truth value. *)
Definition truth (x : Z) : bool := negb (x =? 0).

(** A byte is an integer in [[0,256)]; a buffer is a list of them. *)
Definition is_byte (b : Z) : Prop := 0 <= b < 256.
Definition is_i64 (x : Z) : Prop := - 2 ^ 63 <= x < 2 ^ 63.
Definition is_u64 (x : Z) : Prop := 0 <= x < 2 ^ 64.
Definition is_i32 (x : Z) : Prop := - 2 ^ 31 <= x < 2 ^ 31.

Definition bytes_ok (l : list Z) : Prop := Forall is_byte l.

(** Length of a buffer as a C integer. *)
Definition Zlen {A} (l : list A) : Z := Z.of_nat (length l).

(** The result of a signed [int] computation: an overflow is undefined. *)
Definition int_ok (x : Z) : option Z :=
  if (- 2 ^ 31 <=? x) && (x <? 2 ^ 31) then Some x else None.

(** A pointer into a buffer is the list of the bytes from there to the end of
    the buffer.  Pointer arithmetic past the end and reads past the end are
    undefined, i.e. [None]. *)
Definition advance {A} (n : Z) (a : list A) : option (list A) :=
  if (0 <=? n) && (n <=? Zlen a) then Some (drop (Z.to_nat n) a) else None.

(** The [n] elements at [a]. *)
Definition read_n {A} (n : Z) (a : list A) : option (list A) :=
  if (0 <=? n) && (n <=? Zlen a) then Some (take (Z.to_nat n) a) else None.

(** Array access with a C index. *)
Definition at_ {A} (a : list A) (i : Z) : option A :=
  if 0 <=? i then a !! Z.to_nat i else None.

(** [memcpy(&buf[off], bs, n)], growing the initialised part of [buf]; a write
    that would leave a gap of uninitialised bytes has no meaning here. *)
Definition poke (off : Z) (bs buf : list Z) : option (list Z) :=
  if (0 <=? off) && (off <=? Zlen buf)
  then Some (take (Z.to_nat off) buf ++ bs ++ drop (Z.to_nat (off + Zlen bs)) buf)
  else None.

(** ** Lemmas on machine integers *)

Create HintDb noria discriminated.

Lemma signed_small w x : 0 < w -> - 2 ^ (w - 1) <= x < 2 ^ (w - 1) -> signed w x = x.
Proof.
  intros Hw Hx. unfold signed.
  assert (2 ^ w = 2 * 2 ^ (w - 1)) as Hp
    by (rewrite <- Z.pow_succ_r by lia; f_equal; lia).
  destruct (Z.ltb_spec (x mod 2 ^ w) (2 ^ (w - 1))).
  - destruct (Z_lt_le_dec x 0); [| apply Z.mod_small; lia].
    rewrite <- (Z_mod_plus_full x 1 (2 ^ w)) in H.
    rewrite Z.mod_small in H; lia.
  - destruct (Z_lt_le_dec x 0).
    + rewrite <- (Z_mod_plus_full x 1 (2 ^ w)), Z.mod_small; lia.
    + rewrite Z.mod_small in H; lia.
Qed.

Lemma i64_id x : is_i64 x -> i64 x = x.
Proof. intros H. apply (signed_small 64 x); [lia | exact H]. Qed.

Lemma i32_id x : is_i32 x -> i32 x = x.
Proof. intros H. apply (signed_small 32 x); [lia | exact H]. Qed.

Lemma signed_mod w x : 0 < w -> signed w (x mod 2 ^ w) = signed w x.
Proof.
  intros Hw. unfold signed. rewrite Zmod_mod. reflexivity.
Qed.

Lemma signed_range w x : 0 < w -> - 2 ^ (w - 1) <= signed w x < 2 ^ (w - 1).
Proof.
  intros Hw. unfold signed.
  assert (2 ^ w = 2 * 2 ^ (w - 1)) as Hp
    by (rewrite <- Z.pow_succ_r by lia; f_equal; lia).
  pose proof (Z.mod_pos_bound x (2 ^ w) ltac:(lia)).
  destruct (Z.ltb_spec (x mod 2 ^ w) (2 ^ (w - 1))); lia.
Qed.

Lemma i64_range x : is_i64 (i64 x).
Proof. apply (signed_range 64 x). lia. Qed.

Lemma i64_u64 x : i64 (u64 x) = i64 x.
Proof. apply (signed_mod 64 x). lia. Qed.

Lemma u64_range x : is_u64 (u64 x).
Proof. apply Z.mod_pos_bound. lia. Qed.

Lemma u64_id x : is_u64 x -> u64 x = x.
Proof. intros H. apply Z.mod_small, H. Qed.

#[export] Hint Resolve i64_range u64_range : noria.

(** ** Lemmas on buffers *)

Lemma Zlen_nil {A} : Zlen (@nil A) = 0.
Proof. reflexivity. Qed.

Lemma Zlen_cons {A} (x : A) l : Zlen (x :: l) = 1 + Zlen l.
Proof. unfold Zlen. cbn [length]. lia. Qed.

Lemma Zlen_app {A} (l m : list A) : Zlen (l ++ m) = Zlen l + Zlen m.
Proof. unfold Zlen. rewrite length_app. lia. Qed.

Lemma Zlen_nonneg {A} (l : list A) : 0 <= Zlen l.
Proof. unfold Zlen. lia. Qed.

Lemma Zlen_to_nat {A} (l : list A) : Z.to_nat (Zlen l) = length l.
Proof. apply Nat2Z.id. Qed.

(** Lengths do not depend on the order: buckets are rewritten up to permutation. *)
#[export] Instance Zlen_Permutation {A} : Proper ((≡ₚ) ==> (=)) (@Zlen A).
Proof. intros l m H. unfold Zlen. rewrite H. reflexivity. Qed.

#[export] Hint Resolve Zlen_nonneg : noria.

Create Rewrite HintDb zlen.
#[export] Hint Rewrite @Zlen_nil @Zlen_cons @Zlen_app @Zlen_to_nat : zlen.

Lemma take_Zlen_app {A} (l m : list A) : take (Z.to_nat (Zlen l)) (l ++ m) = l.
Proof. rewrite Zlen_to_nat. apply take_app_length. Qed.

Lemma drop_Zlen_app {A} (l m : list A) : drop (Z.to_nat (Zlen l)) (l ++ m) = m.
Proof. rewrite Zlen_to_nat. apply drop_app_length. Qed.

Lemma bytes_ok_app l m : bytes_ok (l ++ m) <-> bytes_ok l /\ bytes_ok m.
Proof. apply Forall_app. Qed.

Lemma bytes_ok_cons b l : bytes_ok (b :: l) <-> is_byte b /\ bytes_ok l.
Proof. apply Forall_cons. Qed.

Lemma bytes_ok_nil : bytes_ok [].
Proof. constructor. Qed.

#[export] Hint Resolve bytes_ok_nil : noria.

Lemma int_ok_id x : is_i32 x -> int_ok x = Some x.
Proof.
  unfold is_i32, int_ok. intros H.
  rewrite (proj2 (Z.leb_le _ _)), (proj2 (Z.ltb_lt _ _)) by lia. reflexivity.
Qed.

Lemma advance_app {A} (l m : list A) : advance (Zlen l) (l ++ m) = Some m.
Proof.
  unfold advance. rewrite Zlen_app, drop_Zlen_app.
  pose proof (Zlen_nonneg l). pose proof (Zlen_nonneg m).
  rewrite !(proj2 (Z.leb_le _ _)) by lia. reflexivity.
Qed.

Lemma read_n_app {A} (l m : list A) : read_n (Zlen l) (l ++ m) = Some l.
Proof.
  unfold read_n. rewrite Zlen_app, take_Zlen_app.
  pose proof (Zlen_nonneg l). pose proof (Zlen_nonneg m).
  rewrite !(proj2 (Z.leb_le _ _)) by lia. reflexivity.
Qed.

Lemma read_n_all {A} (l : list A) : read_n (Zlen l) l = Some l.
Proof. rewrite <- (app_nil_r l) at 2. apply read_n_app. Qed.

Lemma advance_app' {A} n (l m : list A) : n = Zlen l -> advance n (l ++ m) = Some m.
Proof. intros ->. apply advance_app. Qed.

Lemma read_n_app' {A} n (l m : list A) : n = Zlen l -> read_n n (l ++ m) = Some l.
Proof. intros ->. apply read_n_app. Qed.

Lemma poke_end bs buf : poke (Zlen buf) bs buf = Some (buf ++ bs).
Proof.
  unfold poke. pose proof (Zlen_nonneg buf). rewrite !(proj2 (Z.leb_le _ _)) by lia.
  cbn. rewrite Zlen_to_nat, take_ge, drop_ge by (unfold Zlen; lia).
  rewrite app_nil_r. reflexivity.
Qed.

Lemma at_lookup {A} (l : list A) (i : nat) : at_ l (Z.of_nat i) = l !! i.
Proof.
  unfold at_. rewrite (proj2 (Z.leb_le _ _)) by lia. rewrite Nat2Z.id. reflexivity.
Qed.

Lemma elem_of_concat {A} (x : A) ls : x ∈ concat ls <-> exists l, x ∈ l /\ l ∈ ls.
Proof.
  induction ls as [|l ls IH]; cbn.
  - split; [intros H; inversion H|intros (l & _ & H); inversion H].
  - rewrite elem_of_app, IH. split.
    + intros [H|(m & H & Hm)]; [exists l|exists m]; split; auto; constructor; auto.
    + intros (m & H & [->|Hm]%elem_of_cons); eauto.
Qed.

Lemma elem_of_concat_lookup {A} (x : A) ls i l : ls !! i = Some l -> x ∈ l -> x ∈ concat ls.
Proof. intros Hi Hx. apply elem_of_concat. eauto using list_elem_of_lookup_2. Qed.

(** [zlia] is [lia] after normalising buffer lengths. *)
Ltac zlen_facts :=
  repeat match goal with
         | |- context [Zlen ?l] =>
             lazymatch goal with
             | _ : 0 <= Zlen l |- _ => fail
             | _ => pose proof (Zlen_nonneg l)
             end
         | _ : context [Zlen ?l] |- _ =>
             lazymatch goal with
             | _ : 0 <= Zlen l |- _ => fail
             | _ => pose proof (Zlen_nonneg l)
             end
         end.
Ltac zlia := autorewrite with zlen in *; zlen_facts; lia.
