(* ===== verification/Bits.v ===== *)
(** * Bit vectors as lists of booleans

    [Zb l] is the integer whose binary digits, least significant first, are
    [l].  Every bit operation on such integers is an operation on the list of
    digits that computes, so that an equation between bit expressions over
    bytes reduces to an equation between lists of boolean expressions. *)
From S2P Require Import Prelude.

Fixpoint Zb (l : list bool) : Z :=
  match l with
  | [] => 0
  | b :: r => Z.b2z b + 2 * Zb r
  end.

(** Pointwise disjunction, padding the shorter list with zeros. *)
Fixpoint bor (l m : list bool) : list bool :=
  match l, m with
  | [], _ => m
  | _, [] => l
  | a :: l', b :: m' => (if a then true else b) :: bor l' m'
  end.

(** Pointwise conjunction; the second list is the mask. *)
Fixpoint band (l m : list bool) : list bool :=
  match l, m with
  | a :: l', b :: m' => (if b then a else false) :: band l' m'
  | _, _ => []
  end.

(** Pads with zeros to length [n]. *)
Fixpoint bpad (n : nat) (l : list bool) : list bool :=
  match n with
  | O => l
  | S n' => match l with [] => false :: bpad n' [] | b :: r => b :: bpad n' r end
  end.

Lemma Zb_cons b l : Zb (b :: l) = Z.b2z b + 2 * Zb l.
Proof. reflexivity. Qed.

Lemma Zb_nonneg l : 0 <= Zb l.
Proof. induction l as [|[] l IH]; cbn [Zb Z.b2z]; lia. Qed.

Lemma Zb_bound l : Zb l < 2 ^ Zlen l.
Proof.
  induction l as [|b l IH]; [reflexivity|].
  rewrite Zlen_cons, Z.pow_add_r by zlia. destruct b; cbn [Zb Z.b2z]; lia.
Qed.

Lemma Zb_app l m : Zb (l ++ m) = Zb l + 2 ^ Zlen l * Zb m.
Proof.
  induction l as [|b l IH].
  - change (Zlen []) with 0. cbn [app Zb]. lia.
  - cbn [app]. rewrite !Zb_cons, Zlen_cons, IH, Z.pow_add_r by zlia. lia.
Qed.

Lemma testbit_Zb_0 b l : Z.testbit (Zb (b :: l)) 0 = b.
Proof. rewrite Zb_cons, Z.add_b2z_double_bit0. reflexivity. Qed.

Lemma testbit_Zb_S b l n :
  0 <= n -> Z.testbit (Zb (b :: l)) (Z.succ n) = Z.testbit (Zb l) n.
Proof.
  intros H. rewrite <- Z.div2_bits by exact H. f_equal.
  rewrite Zb_cons. apply Z.add_b2z_double_div2.
Qed.

(** Equality of integers from their digits. *)
Lemma Zb_ext_cons x y b l :
  Z.testbit x 0 = b -> Z.testbit y 0 = b ->
  Z.shiftr x 1 = l -> Z.shiftr y 1 = l -> x = y.
Proof.
  intros Hx Hy Hl Hm. apply Z.bits_inj'. intros n Hn.
  destruct (Z.eq_dec n 0) as [->|]; [congruence|].
  replace n with (Z.pred n + 1) by lia.
  rewrite <- !Z.shiftr_spec by lia. congruence.
Qed.

Lemma shiftr_Zb_1 b l : Z.shiftr (Zb (b :: l)) 1 = Zb l.
Proof.
  apply Z.bits_inj'. intros n Hn.
  rewrite Z.shiftr_spec by lia. apply (testbit_Zb_S b l n Hn).
Qed.

Lemma Zb_lor l m : Z.lor (Zb l) (Zb m) = Zb (bor l m).
Proof.
  revert m. induction l as [|a l IH]; intros m; [reflexivity|].
  destruct m as [|b m]; [apply Z.lor_0_r|].
  apply (Zb_ext_cons _ _ (a || b) (Zb (bor l m))).
  - rewrite Z.lor_spec, !testbit_Zb_0. reflexivity.
  - cbn [bor]. rewrite testbit_Zb_0. reflexivity.
  - rewrite Z.shiftr_lor, !shiftr_Zb_1. apply IH.
  - cbn [bor]. apply shiftr_Zb_1.
Qed.

Lemma Zb_land l m : Z.land (Zb l) (Zb m) = Zb (band l m).
Proof.
  revert m. induction l as [|a l IH]; intros m; [reflexivity|].
  destruct m as [|b m]; [apply Z.land_0_r|].
  apply (Zb_ext_cons _ _ (a && b) (Zb (band l m))).
  - rewrite Z.land_spec, !testbit_Zb_0. reflexivity.
  - cbn [band]. rewrite testbit_Zb_0. destruct a, b; reflexivity.
  - rewrite Z.shiftr_land, !shiftr_Zb_1. apply IH.
  - cbn [band]. apply shiftr_Zb_1.
Qed.

Lemma Zb_replicate n l : Zb (replicate n false ++ l) = 2 ^ Z.of_nat n * Zb l.
Proof.
  rewrite Zb_app. unfold Zlen. rewrite length_replicate.
  replace (Zb (replicate n false)) with 0; [reflexivity|].
  induction n; cbn [replicate Zb Z.b2z]; lia.
Qed.

Lemma Zb_shiftl l n :
  0 <= n -> Z.shiftl (Zb l) n = Zb (replicate (Z.to_nat n) false ++ l).
Proof.
  intros H. rewrite Z.shiftl_mul_pow2 by lia.
  rewrite Zb_replicate, Z2Nat.id by lia. lia.
Qed.

Lemma Zb_take_drop n l :
  Zb l = Zb (take n l) + 2 ^ Z.of_nat n * Zb (drop n l).
Proof.
  destruct (Nat.le_gt_cases (length l) n) as [H|H].
  - rewrite take_ge, drop_ge by lia. cbn [Zb]. lia.
  - rewrite <- (take_drop n l) at 1. rewrite Zb_app. unfold Zlen.
    rewrite length_take, Nat.min_l by lia. reflexivity.
Qed.

Lemma Zb_take_bound n l : 0 <= Zb (take n l) < 2 ^ Z.of_nat n.
Proof.
  pose proof (Zb_nonneg (take n l)). pose proof (Zb_bound (take n l)) as Hb.
  unfold Zlen in Hb. rewrite length_take in Hb.
  split; [lia|]. eapply Z.lt_le_trans; [exact Hb|].
  apply Z.pow_le_mono_r; lia.
Qed.

Lemma Zb_mod l n : 0 <= n -> Zb l mod 2 ^ n = Zb (take (Z.to_nat n) l).
Proof.
  intros H. rewrite (Zb_take_drop (Z.to_nat n) l) at 1.
  rewrite Z2Nat.id by lia.
  rewrite Z.mul_comm, Z_mod_plus_full. apply Z.mod_small.
  pose proof (Zb_take_bound (Z.to_nat n) l). rewrite Z2Nat.id in H0 by lia. lia.
Qed.

Lemma Zb_shiftr l n : 0 <= n -> Z.shiftr (Zb l) n = Zb (drop (Z.to_nat n) l).
Proof.
  intros H. rewrite Z.shiftr_div_pow2 by lia.
  rewrite (Zb_take_drop (Z.to_nat n) l) at 1.
  pose proof (Zb_take_bound (Z.to_nat n) l) as Hb. rewrite Z2Nat.id in * by lia.
  rewrite Z.add_comm, Z.mul_comm, Z.div_add_l by lia.
  rewrite Z.div_small by lia. lia.
Qed.

Lemma Zb_pad n l : Zb (bpad n l) = Zb l.
Proof.
  revert l. induction n as [|n IH]; intros l; [reflexivity|].
  destruct l as [|b l]; cbn [bpad]; rewrite Zb_cons, IH; reflexivity.
Qed.

(** Arithmetic composition of digit groups. *)
Lemma Zb_concat l m k :
  k = 2 ^ Zlen m -> Zb l * k + Zb m = Zb (m ++ l).
Proof. intros ->. rewrite Zb_app. lia. Qed.

(** Digits of an integer. *)
Fixpoint digits (n : nat) (x : Z) : list bool :=
  match n with
  | O => []
  | S n' => Z.testbit x 0 :: digits n' (Z.shiftr x 1)
  end.

Lemma Zb_digits n x : Zb (digits n x) = x mod 2 ^ Z.of_nat n.
Proof.
  revert x. induction n as [|n IH]; intros x.
  - cbn. rewrite Z.mod_1_r. reflexivity.
  - cbn [digits]. rewrite Zb_cons, IH.
    rewrite Z.shiftr_div_pow2 by lia. change (2 ^ 1) with 2.
    rewrite Z.bit0_mod, Nat2Z.inj_succ, Z.pow_succ_r by lia.
    rewrite Z.rem_mul_r by lia. lia.
Qed.

Lemma length_digits n x : length (digits n x) = n.
Proof. revert x. induction n; intros x; cbn; auto. Qed.

Lemma digits_spec n x : 0 <= x < 2 ^ Z.of_nat n -> x = Zb (digits n x).
Proof. intros H. rewrite Zb_digits, Z.mod_small; auto. Qed.

(** A byte is eight digits. *)
Lemma byte_digits b : is_byte b ->
  exists b0 b1 b2 b3 b4 b5 b6 b7, b = Zb [b0; b1; b2; b3; b4; b5; b6; b7].
Proof. intros H. rewrite (digits_spec 8 b H). cbn [digits]. eauto 10. Qed.

Lemma byte_high b0 b1 b2 b3 b4 b5 b6 b7 :
  (Zb [b0; b1; b2; b3; b4; b5; b6; b7] <? 128) = negb b7.
Proof. destruct b0, b1, b2, b3, b4, b5, b6, b7; reflexivity. Qed.

(** ** Automation

    [blast_consts] writes the integer constants of masks as digit lists;
    [blast] pushes every operation into the lists and compares digits. *)

Ltac Zb_const c :=
  let n := eval vm_compute in (Z.to_nat (Z.succ (Z.log2 c))) in
  let l := eval vm_compute in (digits n c) in
  change c with (Zb l).

Create Rewrite HintDb zb.
#[export] Hint Rewrite Zb_lor Zb_land : zb.
#[export] Hint Rewrite Zb_shiftl Zb_shiftr Zb_mod using lia : zb.

(** Compares two digit lists of the same length. *)
Ltac digits_eq := repeat (f_equal; []); repeat f_equal; try reflexivity;
  repeat match goal with
         | |- context [if ?b then _ else _] => destruct b
         end; reflexivity.
