(* ===== verification/Varint.v ===== *)
(** * Variable-length integers of SQLite

    Models the varint routines of [deps/sqlite3/sqlite3.c] (file [util.c] of
    the amalgamation) that the session extension uses to encode lengths and
    column counts: [putVarint64], [sqlite3PutVarint], [sqlite3GetVarint],
    [sqlite3GetVarint32], [sqlite3VarintLen] and the macros [getVarint32] and
    [putVarint32].

    A pointer into a buffer is the list of the bytes that follow it; a read
    past the end of the buffer, which C leaves undefined, is [None].  A
    routine that writes at a pointer returns the bytes it writes with the
    count it returns. *)
From S2P Require Import Prelude Bits.

Definition SLOT_2_0 : Z := 0x001fc07f.
Definition SLOT_4_2_0 : Z := 0xf01fc07f.
Definition SQLITE_MAX_U32 : Z := 2 ^ 32 - 1.

(** ** Writing *)

(** The loop [for(i=7; i>=0; i--)] of [putVarint64]: [acc] holds the bytes
    already written after position [i]. *)
Fixpoint put9_loop (i : nat) (v : Z) (acc : list Z) : list Z :=
  match i with
  | O => acc
  | S i' => put9_loop i' (Z.shiftr v 7) (u8 (Z.lor (Z.land v 0x7f) 0x80) :: acc)
  end.

(** The [do ... while( v!=0 )] loop of [putVarint64]: the bytes stored in
    [buf], lowest group first; [room] is the space left in [buf]. *)
Fixpoint put_loop (room : nat) (v : Z) : option (list Z) :=
  match room with
  | O => None
  | S room' =>
      let c := u8 (Z.lor (Z.land v 0x7f) 0x80) in
      let v' := Z.shiftr v 7 in
      if negb (v' =? 0) then
        match put_loop room' v' with
        | Some buf => Some (c :: buf)
        | None => None
        end
      else Some [c]
  end.

Definition putVarint64 (v : Z) : option (list Z * Z) :=
  if truth (Z.land v (Z.shiftl 0xff000000 32)) then
    Some (put9_loop 8 (Z.shiftr v 8) [u8 v], 9)
  else
    match put_loop 10 v with
    | Some (b0 :: buf) =>
        let buf' := Z.land b0 0x7f :: buf in
        Some (rev buf', Zlen buf')
    | _ => None
    end.

Definition sqlite3PutVarint (v : Z) : option (list Z * Z) :=
  if v <=? 0x7f then Some ([Z.land v 0x7f], 1)
  else if v <=? 0x3fff then
    Some ([Z.lor (Z.land (Z.shiftr v 7) 0x7f) 0x80; Z.land v 0x7f], 2)
  else putVarint64 v.

(** [putVarint32(A,B)] for an [int] argument [B]: the guard compares its
    32-bit unsigned value, the call converts it to [u64] (sign extension). *)
Definition putVarint32 (b : Z) : option (list Z * Z) :=
  if u32 b <? 0x80 then Some ([u8 b], 1)
  else sqlite3PutVarint (u64 b).

(** ** Reading *)

(** [sqlite3GetVarint(p, &v)]: the pair of the decoded value and of the
    number of bytes read.  [a], [b] and [s] are the 32-bit locals of the
    source; a shift of one of them is truncated to 32 bits. *)
Definition sqlite3GetVarint (p : list Z) : option (Z * Z) :=
  p0 ← p !! 0%nat;
  if p0 <? 0x80 then Some (p0, 1) else
  p1 ← p !! 1%nat;
  if p1 <? 0x80 then Some (Z.lor (u32 (Z.shiftl (Z.land p0 0x7f) 7)) p1, 2) else
  let a := u32 (Z.shiftl p0 14) in
  let b := p1 in
  p2 ← p !! 2%nat;
  let a := Z.lor a p2 in
  if negb (truth (Z.land a 0x80)) then
    let a := Z.land a SLOT_2_0 in
    let b := Z.land b 0x7f in
    let b := u32 (Z.shiftl b 7) in
    let a := Z.lor a b in
    Some (a, 3)
  else
  let a := Z.land a SLOT_2_0 in
  p3 ← p !! 3%nat;
  let b := u32 (Z.shiftl b 14) in
  let b := Z.lor b p3 in
  if negb (truth (Z.land b 0x80)) then
    let b := Z.land b SLOT_2_0 in
    let a := u32 (Z.shiftl a 7) in
    let a := Z.lor a b in
    Some (a, 4)
  else
  let b := Z.land b SLOT_2_0 in
  let s := a in
  p4 ← p !! 4%nat;
  let a := u32 (Z.shiftl a 14) in
  let a := Z.lor a p4 in
  if negb (truth (Z.land a 0x80)) then
    let b := u32 (Z.shiftl b 7) in
    let a := Z.lor a b in
    let s := Z.shiftr s 18 in
    Some (Z.lor (u64 (Z.shiftl s 32)) a, 5)
  else
  let s := u32 (Z.shiftl s 7) in
  let s := Z.lor s b in
  p5 ← p !! 5%nat;
  let b := u32 (Z.shiftl b 14) in
  let b := Z.lor b p5 in
  if negb (truth (Z.land b 0x80)) then
    let a := Z.land a SLOT_2_0 in
    let a := u32 (Z.shiftl a 7) in
    let a := Z.lor a b in
    let s := Z.shiftr s 18 in
    Some (Z.lor (u64 (Z.shiftl s 32)) a, 6)
  else
  p6 ← p !! 6%nat;
  let a := u32 (Z.shiftl a 14) in
  let a := Z.lor a p6 in
  if negb (truth (Z.land a 0x80)) then
    let a := Z.land a SLOT_4_2_0 in
    let b := Z.land b SLOT_2_0 in
    let b := u32 (Z.shiftl b 7) in
    let a := Z.lor a b in
    let s := Z.shiftr s 11 in
    Some (Z.lor (u64 (Z.shiftl s 32)) a, 7)
  else
  let a := Z.land a SLOT_2_0 in
  p7 ← p !! 7%nat;
  let b := u32 (Z.shiftl b 14) in
  let b := Z.lor b p7 in
  if negb (truth (Z.land b 0x80)) then
    let b := Z.land b SLOT_4_2_0 in
    let a := u32 (Z.shiftl a 7) in
    let a := Z.lor a b in
    let s := Z.shiftr s 4 in
    Some (Z.lor (u64 (Z.shiftl s 32)) a, 8)
  else
  p8 ← p !! 8%nat;
  let a := u32 (Z.shiftl a 15) in
  let a := Z.lor a p8 in
  let b := Z.land b SLOT_2_0 in
  let b := u32 (Z.shiftl b 8) in
  let a := Z.lor a b in
  let s := u32 (Z.shiftl s 4) in
  let b := p4 in
  let b := Z.land b 0x7f in
  let b := Z.shiftr b 3 in
  let s := Z.lor s b in
  Some (Z.lor (u64 (Z.shiftl s 32)) a, 9).

(** [sqlite3GetVarint32(p, &v)]; the single-byte case is handled by the
    macro [getVarint32]. *)
Definition sqlite3GetVarint32 (p : list Z) : option (Z * Z) :=
  p0 ← p !! 0%nat;
  p1 ← p !! 1%nat;
  if Z.land p1 0x80 =? 0 then
    Some (Z.lor (Z.shiftl (Z.land p0 0x7f) 7) p1, 2)
  else
  p2 ← p !! 2%nat;
  if Z.land p2 0x80 =? 0 then
    Some (Z.lor (Z.lor (Z.shiftl (Z.land p0 0x7f) 14)
                       (Z.shiftl (Z.land p1 0x7f) 7)) p2, 3)
  else
  '(v64, n) ← sqlite3GetVarint p;
  if negb (Z.land v64 SQLITE_MAX_U32 =? v64) then Some (0xffffffff, n)
  else Some (u32 v64, n).

Definition getVarint32 (p : list Z) : option (Z * Z) :=
  p0 ← p !! 0%nat;
  if p0 <? 0x80 then Some (p0, 1) else sqlite3GetVarint32 p.

(** [for(i=1; (v >>= 7)!=0; i++)]: at most ten rounds for a 64-bit [v]. *)
Fixpoint varintLen_loop (fuel : nat) (i v : Z) : Z :=
  match fuel with
  | O => i
  | S fuel' =>
      let v' := Z.shiftr v 7 in
      if negb (v' =? 0) then varintLen_loop fuel' (i + 1) v' else i
  end.

Definition sqlite3VarintLen (v : Z) : Z := varintLen_loop 10 1 v.

(** ** Reference decoder

    Seven bits per byte, most significant group first, while the high bit is
    set; the ninth byte contributes all its eight bits. *)

Fixpoint varint_groups (left : nat) (i acc : Z) (p : list Z) : option (Z * Z) :=
  match p with
  | [] => None
  | b :: r =>
      match left with
      | O => Some (acc * 256 + b, i + 1)
      | S left' =>
          if b <? 128 then Some (acc * 128 + b, i + 1)
          else varint_groups left' (i + 1) (acc * 128 + (b - 128)) r
      end
  end.

Definition varint_decode (p : list Z) : option (Z * Z) := varint_groups 8 0 0 p.

(** ** Correctness of the reader *)

Lemma groups_more left i l b0 b1 b2 b3 b4 b5 b6 r :
  varint_groups (S left) i (Zb l) (Zb [b0; b1; b2; b3; b4; b5; b6; true] :: r)
  = varint_groups left (i + 1) (Zb ([b0; b1; b2; b3; b4; b5; b6] ++ l)) r.
Proof.
  cbn [varint_groups]. rewrite byte_high. cbn [negb]. f_equal.
  rewrite <- (Zb_concat l _ 128) by reflexivity. f_equal.
  cbn [Zb Z.b2z]. lia.
Qed.

Lemma groups_last left i l b0 b1 b2 b3 b4 b5 b6 r :
  varint_groups (S left) i (Zb l) (Zb [b0; b1; b2; b3; b4; b5; b6; false] :: r)
  = Some (Zb ([b0; b1; b2; b3; b4; b5; b6] ++ l), i + 1).
Proof.
  cbn [varint_groups]. rewrite byte_high. cbn [negb]. do 2 f_equal.
  rewrite <- (Zb_concat l _ 128) by reflexivity. f_equal.
Qed.

Lemma groups_ninth i l b0 b1 b2 b3 b4 b5 b6 b7 r :
  varint_groups 0 i (Zb l) (Zb [b0; b1; b2; b3; b4; b5; b6; b7] :: r)
  = Some (Zb ([b0; b1; b2; b3; b4; b5; b6; b7] ++ l), i + 1).
Proof.
  cbn [varint_groups]. do 2 f_equal. apply Zb_concat. reflexivity.
Qed.

(** Splits off the next byte of the buffer as eight digits. *)
Ltac next_byte p H :=
  let b := fresh "b" in
  destruct p as [|b p]; [reflexivity|];
  let Hb := fresh "Hb" in
  apply bytes_ok_cons in H; destruct H as [Hb H];
  apply byte_digits in Hb;
  destruct Hb as (?b0 & ?b1 & ?b2 & ?b3 & ?b4 & ?b5 & ?b6 & ?h & ->).

Ltac masks :=
  unfold u32, u64, SLOT_2_0, SLOT_4_2_0;
  Zb_const 0x7f; Zb_const 0x80; Zb_const 0x1fc07f; Zb_const 0xf01fc07f.

Ltac eval_bits := autorewrite with zb;
  cbv beta iota zeta delta [bor band take drop replicate app Z.to_nat Pos.to_nat Pos.iter_op Nat.add Init.Nat.add lookup list_lookup mbind option_bind].


Lemma truth_Zb_mask l : truth (Zb l) = existsb id l.
Proof.
  unfold truth. induction l as [|b l IH]; [reflexivity|].
  cbn [Zb existsb id]. pose proof (Zb_nonneg l). destruct b; cbn [Z.b2z orb].
  - destruct (Z.eqb_spec (1 + 2 * Zb l) 0); [lia|reflexivity].
  - rewrite <- IH. destruct (Z.eqb_spec (0 + 2 * Zb l) 0), (Z.eqb_spec (Zb l) 0); try lia; reflexivity.
Qed.

Ltac step p H :=
  next_byte p H; cbn [lookup list_lookup mbind option_bind];
  eval_bits; rewrite ?truth_Zb_mask; cbn [existsb id orb negb].

Ltac digits64 := do 2 f_equal;
  rewrite <- (Zb_pad 64); symmetry; rewrite <- (Zb_pad 64); symmetry; f_equal; cbn [bpad app]; 
  repeat match goal with |- context [if ?b then true else false] => replace (if b then true else false) with b by (destruct b; reflexivity) end; reflexivity.

Ltac fin := rewrite groups_last; digits64.

Lemma getVarint_decode (p : list Z) : bytes_ok p -> sqlite3GetVarint p = varint_decode p.
Proof.
  intros H. unfold sqlite3GetVarint, varint_decode. masks.
  change (varint_groups 8 0 0 p) with (varint_groups 8 0 (Zb []) p).
  next_byte p H. cbn [lookup list_lookup mbind option_bind].
  change (Zb [false; false; false; false; false; false; false; true]) with 128 at 1.
  rewrite byte_high. destruct h; cbn [negb]; [rewrite groups_more|rewrite groups_last; reflexivity].
  next_byte p H. cbn [lookup list_lookup mbind option_bind].
  change (Zb [false; false; false; false; false; false; false; true]) with 128 at 1.
  rewrite byte_high. destruct h; cbn [negb]; [rewrite groups_more|eval_bits; fin].
  do 6 (step p H; destruct h; cbn [orb negb]; [rewrite groups_more|fin]).
  step p H. rewrite groups_ninth. digits64.
Qed.

(** ** Correctness of the writer *)

(** A continuation byte: the group [v mod 128] with the high bit set. *)
Lemma lor_cont v : Z.lor (Z.land v 0x7f) 0x80 = v mod 128 + 128.
Proof.
  change 0x7f with (Z.ones 7). rewrite Z.land_ones by lia.
  change (2 ^ 7) with 128.
  replace (v mod 128) with (Zb (digits 7 v)) by exact (Zb_digits 7 v).
  pose proof (length_digits 7 v) as Hl.
  destruct (digits 7 v) as [|b0 [|b1 [|b2 [|b3 [|b4 [|b5 [|b6 [|]]]]]]]]; try discriminate.
  destruct b0, b1, b2, b3, b4, b5, b6; reflexivity.
Qed.

Lemma cont_byte v : u8 (Z.lor (Z.land v 0x7f) 0x80) = v mod 128 + 128.
Proof.
  rewrite lor_cont. apply Z.mod_small.
  pose proof (Z.mod_pos_bound v 128 ltac:(lia)). lia.
Qed.

Lemma low7 v : Z.land v 0x7f = v mod 128.
Proof. change 0x7f with (Z.ones 7). apply Z.land_ones. lia. Qed.

(** Value of a list of continuation bytes, lowest group first. *)
Fixpoint groups_val (buf : list Z) : Z :=
  match buf with [] => 0 | c :: r => (c - 128) + 128 * groups_val r end.

Definition cont (c : Z) : Prop := 128 <= c < 256.

Lemma groups_rev buf left i acc tail :
  Forall cont buf -> (length buf <= left)%nat ->
  varint_groups left i acc (rev buf ++ tail)
  = varint_groups (left - length buf) (i + Zlen buf)
      (acc * 128 ^ Zlen buf + groups_val buf) tail.
Proof.
  revert left i acc tail.
  induction buf as [|c buf IH]; intros left i acc tail Hc Hl.
  - cbn [rev app length groups_val]. f_equal; zlia.
  - apply Forall_cons in Hc as [Hc Hb]. cbn [length] in Hl. cbn [rev].
    rewrite <- app_assoc, IH by (auto; lia).
    replace (left - length buf)%nat with (S (left - S (length buf))) by lia.
    cbn [app varint_groups length groups_val].
    destruct (Z.ltb_spec c 128); [unfold cont in Hc; lia|].
    rewrite Zlen_cons, Z.pow_add_r by zlia.
    change (128 ^ 1) with 128. f_equal; [lia|ring].
Qed.


Lemma pow_groups k : 2 ^ (7 * Z.of_nat (S k)) = 128 * 2 ^ (7 * Z.of_nat k).
Proof.
  replace (7 * Z.of_nat (S k)) with (7 + 7 * Z.of_nat k) by lia.
  rewrite Z.pow_add_r by lia. reflexivity.
Qed.

Lemma shiftr7 v : Z.shiftr v 7 = v / 128.
Proof. apply Z.shiftr_div_pow2. lia. Qed.

Lemma put_loop_spec room v :
  0 <= v < 2 ^ (7 * Z.of_nat room) -> (0 < room)%nat ->
  exists c buf, put_loop room v = Some (c :: buf) /\ Forall cont (c :: buf) /\
    groups_val (c :: buf) = v /\ (length (c :: buf) <= room)%nat.
Proof.
  revert v. induction room as [|room IH]; intros v Hv Hr; [lia|].
  cbn [put_loop]. rewrite cont_byte, shiftr7.
  pose proof (Z.mod_pos_bound v 128 ltac:(lia)).
  pose proof (Z.div_mod v 128 ltac:(lia)).
  assert (cont (v mod 128 + 128)) by (unfold cont; lia).
  destruct (Z.eqb_spec (v / 128) 0) as [E|E]; cbn [negb].
  - exists (v mod 128 + 128), []. split_and!; auto; cbn [groups_val length]; lia.
  - rewrite pow_groups in Hv.
    assert (0 <= v / 128 < 2 ^ (7 * Z.of_nat room)) as Hd.
    { split; [apply Z.div_pos; lia|]. apply Z.div_lt_upper_bound; lia. }
    destruct room as [|room]; [change (2 ^ (7 * Z.of_nat 0)) with 1 in Hd; lia|].
    destruct (IH _ Hd ltac:(lia)) as (c & buf & -> & Hf & Hg & Hl).
    exists (v mod 128 + 128), (c :: buf). split_and!; auto.
    + cbn [groups_val] in *. lia.
    + cbn [length] in *. lia.
Qed.

Lemma varintLen_put_loop room fuel i v buf :
  put_loop room v = Some buf -> (room <= fuel)%nat ->
  varintLen_loop fuel i v = i - 1 + Zlen buf.
Proof.
  revert fuel i v buf. induction room as [|room IH]; intros fuel i v buf Hp Hf; [discriminate|].
  destruct fuel as [|fuel]; [lia|]. cbn [put_loop varintLen_loop] in *.
  destruct (negb _).
  - destruct (put_loop room _) as [buf'|] eqn:E; [|discriminate].
    injection Hp as <-. rewrite (IH _ _ _ _ E) by lia. zlia.
  - injection Hp as <-. zlia.
Qed.

Lemma put9_loop_spec i v acc :
  exists buf, put9_loop i v acc = rev buf ++ acc /\ length buf = i /\
    Forall cont buf /\ groups_val buf = v mod 2 ^ (7 * Z.of_nat i).
Proof.
  revert v acc. induction i as [|i IH]; intros v acc.
  - exists []. rewrite Z.mod_1_r. auto.
  - cbn [put9_loop]. rewrite cont_byte, shiftr7.
    destruct (IH (v / 128) ((v mod 128 + 128) :: acc)) as (buf & -> & Hl & Hf & Hg).
    pose proof (Z.mod_pos_bound v 128 ltac:(lia)).
    exists ((v mod 128 + 128) :: buf). split_and!.
    + cbn [rev]. rewrite <- app_assoc. reflexivity.
    + cbn [length]. lia.
    + constructor; [unfold cont; lia|assumption].
    + cbn [groups_val]. rewrite Hg, pow_groups, Z.rem_mul_r by lia. lia.
Qed.

Lemma big_mask v : is_u64 v ->
  truth (Z.land v (Z.shiftl 0xff000000 32)) = negb (v <? 2 ^ 56).
Proof.
  intros Hv. unfold truth, is_u64 in *. f_equal.
  change (Z.shiftl 0xff000000 32) with (Z.shiftl (Z.ones 8) 56).
  assert (Z.land v (Z.shiftl (Z.ones 8) 56) = Z.shiftl (Z.shiftr v 56) 56) as ->.
  { apply Z.bits_inj'. intros n Hn. rewrite Z.land_spec.
    destruct (Z_lt_le_dec n 56).
    - rewrite !Z.shiftl_spec_low by lia. apply andb_false_r.
    - rewrite !Z.shiftl_spec, Z.shiftr_spec by lia.
      replace (n - 56 + 56) with n by lia.
      destruct (Z_lt_le_dec n 64).
      + rewrite Z.ones_spec_low by lia. apply andb_true_r.
      + replace v with (v mod 2 ^ 64) by (apply Z.mod_small; lia).
        rewrite Z.mod_pow2_bits_high by lia. reflexivity. }
  rewrite Z.shiftl_mul_pow2, Z.shiftr_div_pow2 by lia.
  destruct (Z.ltb_spec v (2 ^ 56)).
  - rewrite Z.div_small by lia. reflexivity.
  - assert (1 <= v / 2 ^ 56) by (apply Z.div_le_lower_bound; lia).
    apply Z.eqb_neq. lia.
Qed.

Lemma put_loop_mono room k v buf :
  put_loop room v = Some buf -> put_loop (room + k) v = Some buf.
Proof.
  revert v buf. induction room as [|room IH]; intros v buf H; [discriminate|].
  cbn [put_loop Nat.add] in *. destruct (negb _); [|assumption].
  destruct (put_loop room _) as [b|] eqn:E; [|discriminate].
  rewrite (IH _ _ E). assumption.
Qed.

Lemma groups_val_bound buf :
  Forall cont buf -> 0 <= groups_val buf < 128 ^ Zlen buf.
Proof.
  induction 1 as [|c buf Hc _ IH]; [split; reflexivity|].
  cbn [groups_val]. rewrite Zlen_cons, Z.pow_add_r by zlia.
  unfold cont in Hc. lia.
Qed.

Lemma cont_byte_ok buf : Forall cont buf -> bytes_ok buf.
Proof. intros H. eapply Forall_impl; [exact H|]. unfold cont, is_byte. lia. Qed.

Lemma decode_rev buf b rest v :
  Forall cont buf -> (length buf < 8)%nat -> 0 <= b < 128 ->
  v = groups_val buf * 128 + b ->
  varint_decode (rev (b :: buf) ++ rest) = Some (v, Zlen (b :: buf)).
Proof.
  intros Hf Hl Hb ->. unfold varint_decode. cbn [rev].
  rewrite <- app_assoc, groups_rev by (auto; lia).
  replace (8 - length buf)%nat with (S (7 - length buf)) by lia.
  cbn [app varint_groups]. destruct (Z.ltb_spec b 128); [|lia].
  do 2 f_equal; zlia.
Qed.

Lemma varintLen_spec room v c buf :
  put_loop room v = Some (c :: buf) -> (room <= 10)%nat ->
  sqlite3VarintLen v = Zlen (c :: buf).
Proof.
  intros H Hr. unfold sqlite3VarintLen.
  rewrite (varintLen_put_loop _ _ _ _ _ H Hr). lia.
Qed.

(** The specification of a writer's result [r] for the value [v]. *)
Definition writes (v : Z) (r : option (list Z * Z)) : Prop :=
  exists bs n, r = Some (bs, n) /\ n = Zlen bs /\ 1 <= n <= 9 /\ bytes_ok bs /\
    (forall rest, varint_decode (bs ++ rest) = Some (v, n)) /\
    (v < 2 ^ 63 -> sqlite3VarintLen v = n).

Lemma putVarint64_small v : 0 <= v < 2 ^ 56 -> writes v (putVarint64 v).
Proof.
  intros Hv. unfold putVarint64.
  rewrite big_mask by (unfold is_u64; lia).
  destruct (Z.ltb_spec v (2 ^ 56)); [cbn [negb]|lia].
  destruct (put_loop_spec 8 v Hv ltac:(lia)) as (c & buf & Hp & Hf & Hg & Hl).
  change 10%nat with (8 + 2)%nat. rewrite (put_loop_mono _ _ _ _ Hp).
  apply Forall_cons in Hf as [Hc Hf]. unfold cont in Hc.
  rewrite low7. cbn [groups_val length] in Hg, Hl.
  assert (c mod 128 = c - 128) as ->
    by (rewrite <- (Z_mod_plus_full c (-1) 128); apply Z.mod_small; lia).
  eexists _, _. split_and!; [reflexivity|..].
  - cbn [rev]. zlia || (unfold Zlen; rewrite length_app, length_rev; cbn; lia).
  - zlia.
  - unfold Zlen. cbn [length]. lia.
  - apply Forall_rev, Forall_cons. split; [unfold is_byte; lia|apply cont_byte_ok, Hf].
  - intros rest. apply decode_rev; auto; lia.
  - intros _. rewrite (varintLen_spec _ _ _ _ Hp) by lia. reflexivity.
Qed.

Lemma putVarint64_large v : 2 ^ 56 <= v < 2 ^ 64 -> writes v (putVarint64 v).
Proof.
  intros Hv. unfold putVarint64.
  rewrite big_mask by (unfold is_u64; lia).
  destruct (Z.ltb_spec v (2 ^ 56)); [lia|cbn [negb]].
  destruct (put9_loop_spec 8 (Z.shiftr v 8) [u8 v]) as (buf & -> & Hl & Hf & Hg).
  rewrite Z.shiftr_div_pow2 in Hg by lia.
  assert (0 <= v / 2 ^ 8 < 2 ^ 56)
    by (split; [apply Z.div_pos; lia | apply Z.div_lt_upper_bound; lia]).
  rewrite Z.mod_small in Hg by assumption.
  eexists _, _. split_and!; [reflexivity|..]; try lia.
  - unfold Zlen. rewrite length_app, length_rev. cbn [length]. lia.
  - apply bytes_ok_app. split; [apply Forall_rev, cont_byte_ok, Hf|].
    constructor; [apply Z.mod_pos_bound; lia|constructor].
  - intros rest. unfold varint_decode.
    rewrite <- app_assoc, groups_rev by (auto; lia).
    rewrite Hl. cbn [app varint_groups Nat.sub].
    unfold Zlen. rewrite Hl, Hg. unfold u8. do 2 f_equal.
    pose proof (Z.div_mod v (2 ^ 8) ltac:(lia)). lia.
  - intros H63. destruct (put_loop_spec 9 v ltac:(split; [lia|exact H63]) ltac:(lia))
      as (c & buf' & Hp & Hf' & Hg' & Hl').
    rewrite (varintLen_spec _ _ _ _ Hp) by lia.
    pose proof (groups_val_bound _ Hf') as Hb. rewrite Hg' in Hb.
    unfold Zlen in *.
    destruct (Nat.le_gt_cases (length (c :: buf')) 8) as [Hle|]; [|lia].
    assert (128 ^ Z.of_nat (length (c :: buf')) <= 128 ^ 8)
      by (apply Z.pow_le_mono_r; lia).
    change (128 ^ 8) with (2 ^ 56) in *. lia.
Qed.

Lemma putVarint_spec v : is_u64 v -> writes v (sqlite3PutVarint v).
Proof.
  unfold is_u64. intros Hv. unfold sqlite3PutVarint.
  destruct (Z.leb_spec v 0x7f).
  { rewrite low7, Z.mod_small by lia. eexists _, _. split_and!; [reflexivity|..]; try reflexivity; try lia.
    - constructor; [unfold is_byte; lia|constructor].
    - intros rest. apply (decode_rev [] v rest v); auto; cbn [length groups_val]; lia.
    - intros _. unfold sqlite3VarintLen. cbn [varintLen_loop].
      rewrite shiftr7, Z.div_small by lia. reflexivity. }
  destruct (Z.leb_spec v 0x3fff).
  2: { destruct (Z_lt_le_dec v (2 ^ 56)); [apply putVarint64_small|apply putVarint64_large]; lia. }
  assert (1 <= v / 128 < 128)
    by (split; [apply Z.div_le_lower_bound; lia | apply Z.div_lt_upper_bound; lia]).
  pose proof (Z.div_mod v 128 ltac:(lia)).
  pose proof (Z.mod_pos_bound v 128 ltac:(lia)).
  rewrite lor_cont, low7, shiftr7, (Z.mod_small (v / 128)) by lia.
  eexists _, _. split_and!; [reflexivity|..]; try reflexivity; try lia.
  - repeat constructor; unfold is_byte; lia.
  - intros rest. apply (decode_rev [v / 128 + 128] (v mod 128) rest v);
      cbn [length groups_val]; try lia.
    repeat constructor; unfold cont; lia.
  - intros _. unfold sqlite3VarintLen. cbn [varintLen_loop].
    rewrite !shiftr7, (Z.div_small (v / 128)) by lia.
    destruct (Z.eqb_spec (v / 128) 0); [lia|reflexivity].
Qed.

Lemma putVarint32_spec v : 0 <= v < 2 ^ 31 -> writes v (putVarint32 v).
Proof.
  intros Hv. unfold putVarint32, u32. rewrite (Z.mod_small v (2 ^ 32)) by lia.
  rewrite u64_id by (unfold is_u64; lia).
  destruct (Z.ltb_spec v 0x80); [|apply putVarint_spec; unfold is_u64; lia].
  replace (Some ([u8 v], 1)) with (sqlite3PutVarint v);
    [apply putVarint_spec; unfold is_u64; lia|].
  unfold sqlite3PutVarint. destruct (Z.leb_spec v 0x7f); [|lia].
  rewrite low7. unfold u8. rewrite !Z.mod_small by lia. reflexivity.
Qed.

(** The 32-bit reader: the value of the reference decoder, saturated. *)
Definition saturate (r : option (Z * Z)) : option (Z * Z) :=
  '(v, n) ← r; Some (if v <? 2 ^ 32 then v else 0xffffffff, n).

Lemma groups_nonneg left i acc p v n :
  bytes_ok p -> 0 <= acc -> varint_groups left i acc p = Some (v, n) -> 0 <= v.
Proof.
  revert i acc p. induction left as [|left IH]; intros i acc [|b p] Hp Ha H;
    cbn [varint_groups] in H; try discriminate;
    apply bytes_ok_cons in Hp as [Hb Hp]; unfold is_byte in Hb.
  - injection H as <- <-. lia.
  - destruct (Z.ltb_spec b 128); [injection H as <- <-; lia|].
    eapply IH; [..|exact H]; [assumption|lia].
Qed.

Lemma max_u32_test v : 0 <= v -> (Z.land v SQLITE_MAX_U32 =? v) = (v <? 2 ^ 32).
Proof.
  intros Hv. unfold SQLITE_MAX_U32. change (2 ^ 32 - 1) with (Z.ones 32).
  rewrite Z.land_ones by lia. pose proof (Z.mod_pos_bound v (2 ^ 32) ltac:(lia)).
  destruct (Z.ltb_spec v (2 ^ 32)).
  - rewrite Z.mod_small by lia. apply Z.eqb_refl.
  - apply Z.eqb_neq. lia.
Qed.

Lemma saturate_wide p : bytes_ok p ->
  ('(v64, n) ← sqlite3GetVarint p;
   if negb (Z.land v64 SQLITE_MAX_U32 =? v64) then Some (0xffffffff, n)
   else Some (u32 v64, n)) = saturate (varint_decode p).
Proof.
  intros H. rewrite getVarint_decode by assumption. unfold saturate.
  destruct (varint_decode p) as [[v n]|] eqn:E; [|reflexivity].
  pose proof (groups_nonneg _ _ _ _ _ _ H (Z.le_refl 0) E) as Hv.
  cbn [mbind option_bind]. rewrite max_u32_test by assumption.
  destruct (Z.ltb_spec v (2 ^ 32)); cbn [negb]; [|reflexivity].
  unfold u32. rewrite Z.mod_small by lia. reflexivity.
Qed.

Lemma land_high b0 b1 b2 b3 b4 b5 b6 b7 :
  (Z.land (Zb [b0; b1; b2; b3; b4; b5; b6; b7]) 0x80 =? 0) = negb b7.
Proof. destruct b0, b1, b2, b3, b4, b5, b6, b7; reflexivity. Qed.

Lemma saturate_small l n :
  (length l <= 32)%nat -> saturate (Some (Zb l, n)) = Some (Zb l, n).
Proof.
  intros H. unfold saturate. cbn [mbind option_bind].
  pose proof (Zb_bound l). unfold Zlen in *.
  assert (2 ^ Z.of_nat (length l) <= 2 ^ 32) by (apply Z.pow_le_mono_r; lia).
  destruct (Z.ltb_spec (Zb l) (2 ^ 32)); [reflexivity|lia].
Qed.

Lemma getVarint32_decode p :
  bytes_ok p -> getVarint32 p = saturate (varint_decode p).
Proof.
  intros H0. pose proof H0 as H. pose proof (saturate_wide p H0) as Hw.
  unfold getVarint32, sqlite3GetVarint32. revert Hw.
  unfold varint_decode. change (varint_groups 8 0 0 p) with (varint_groups 8 0 (Zb []) p).
  next_byte p H. cbn [lookup list_lookup mbind option_bind]. rewrite byte_high.
  destruct h; cbn [negb]; intros Hw; [rewrite groups_more in *|rewrite groups_last, saturate_small by (cbn; lia); reflexivity].
  next_byte p H. cbn [lookup list_lookup mbind option_bind] in *. rewrite land_high.
  destruct h; cbn [negb]; [rewrite groups_more in *|].
  2: { rewrite groups_last, saturate_small by (cbn; lia). Zb_const 0x7f. eval_bits. digits64. }
  next_byte p H. cbn [lookup list_lookup mbind option_bind] in *. rewrite land_high.
  destruct h; cbn [negb]; [exact Hw|].
  rewrite groups_last, saturate_small by (cbn; lia). Zb_const 0x7f. eval_bits. digits64.
Qed.

(** The loop of [sqlite3VarintLen] counts one round per further group. *)
Lemma varintLen_skip k fuel i v : 2 ^ (7 * Z.of_nat k) <= v ->
  varintLen_loop (k + fuel) i v
  = varintLen_loop fuel (i + Z.of_nat k) (Z.shiftr v (7 * Z.of_nat k)).
Proof.
  revert i v. induction k as [|k IH]; intros i v Hv.
  { cbn. rewrite Z.add_0_r, Z.shiftr_0_r. reflexivity. }
  rewrite pow_groups in Hv. cbn [Nat.add varintLen_loop].
  assert (2 ^ (7 * Z.of_nat k) <= Z.shiftr v 7) as Hs.
  { rewrite shiftr7. apply Z.div_le_lower_bound; lia. }
  pose proof (Z.pow_pos_nonneg 2 (7 * Z.of_nat k)).
  destruct (Z.eqb_spec (Z.shiftr v 7) 0); [lia|]. cbn [negb].
  rewrite IH by exact Hs. rewrite Z.shiftr_shiftr by lia.
  replace (7 + 7 * Z.of_nat k) with (7 * Z.of_nat (S k)) by lia.
  replace (i + 1 + Z.of_nat k) with (i + Z.of_nat (S k)) by lia. reflexivity.
Qed.

Lemma varintLen_top v : 2 ^ 63 <= v < 2 ^ 64 -> sqlite3VarintLen v = 10.
Proof.
  intros Hv. unfold sqlite3VarintLen. rewrite (varintLen_skip 9 1) by (cbn; lia).
  change (7 * Z.of_nat 9) with 63. cbn [varintLen_loop]. rewrite !Z.shiftr_div_pow2 by lia.
  replace (v / 2 ^ 63) with 1 by (apply (Z.div_unique v (2 ^ 63) 1 (v - 2 ^ 63)); lia).
  reflexivity.
Qed.

(** ** Properties *)

(** C23: what [sqlite3PutVarint] writes is one to nine bytes long and, whatever
    bytes follow it in memory, [sqlite3GetVarint] reads back the same 64-bit
    value and consumes exactly those bytes. *)
Theorem varint_roundtrip (v : Z) (rest : list Z) : is_u64 v -> bytes_ok rest ->
  exists bs, sqlite3PutVarint v = Some (bs, Zlen bs) /\ 1 <= Zlen bs <= 9 /\
    sqlite3GetVarint (bs ++ rest) = Some (v, Zlen bs).
Proof.
  intros Hv Hr. destruct (putVarint_spec v Hv) as (bs & n & -> & -> & Hn & Hb & Hd & _).
  exists bs. split_and!; auto; try lia.
  rewrite getVarint_decode by (apply bytes_ok_app; auto). apply Hd.
Qed.

Lemma varint_roundtrip_witness :
  exists bs, sqlite3PutVarint (2 ^ 63 + 5) = Some (bs, Zlen bs) /\ 1 <= Zlen bs <= 9 /\
    sqlite3GetVarint (bs ++ [7]) = Some (2 ^ 63 + 5, Zlen bs).
Proof.
  apply (varint_roundtrip (2 ^ 63 + 5) [7]).
  - unfold is_u64. lia.
  - repeat constructor; unfold is_byte; lia.
Defined.

(** C24: the unrolled reader [sqlite3GetVarint] computes the value of the
    seven-bit groups of the reference decoder on every buffer, including
    buffers that end before the varint does; the 32-bit reader behind
    [getVarint32] returns the same value saturated at 2^32-1 and the same
    length. *)
Theorem varint_readers_agree (p : list Z) : bytes_ok p ->
  sqlite3GetVarint p = varint_decode p /\
  getVarint32 p = ('(v, n) ← sqlite3GetVarint p; Some (Z.min v 0xffffffff, n)).
Proof.
  intros Hp. split; [apply getVarint_decode, Hp|].
  rewrite getVarint32_decode, getVarint_decode by exact Hp. unfold saturate.
  destruct (varint_decode p) as [[v n]|]; [|reflexivity]. cbn. do 2 f_equal.
  destruct (Z.ltb_spec v (2 ^ 32)); lia.
Qed.

Lemma varint_readers_agree_witness :
  sqlite3GetVarint [0x81; 0x82; 0x83; 0x84; 0x85; 0x06] = varint_decode [0x81; 0x82; 0x83; 0x84; 0x85; 0x06] /\
  getVarint32 [0x81; 0x82; 0x83; 0x84; 0x85; 0x06] = Some (0xffffffff, 6).
Proof.
  destruct (varint_readers_agree [0x81; 0x82; 0x83; 0x84; 0x85; 0x06]) as [H1 H2].
  - repeat constructor; unfold is_byte; lia.
  - split; [exact H1|]. rewrite H2. vm_compute. reflexivity.
Defined.

(** [sqlite3VarintLen] is the number of bytes [sqlite3PutVarint] writes for
    every value below 2^63, but it answers 10 for a value with the top bit set
    although the encoding has 9 bytes. *)
Theorem varintLen_exact_below_2_63 (v : Z) : is_u64 v ->
  exists bs, sqlite3PutVarint v = Some (bs, Zlen bs) /\
    (v < 2 ^ 63 -> sqlite3VarintLen v = Zlen bs) /\
    (2 ^ 63 <= v -> Zlen bs <= 9 /\ sqlite3VarintLen v = 10).
Proof.
  intros Hv. destruct (putVarint_spec v Hv) as (bs & n & -> & -> & Hn & _ & _ & Hl).
  exists bs. split_and!; auto. intros Hbig. split; [lia|]. apply varintLen_top. split; [exact Hbig|apply Hv].
Qed.

Lemma varintLen_exact_below_2_63_witness :
  exists bs, sqlite3PutVarint (2 ^ 63) = Some (bs, Zlen bs) /\ Zlen bs <= 9 /\
    sqlite3VarintLen (2 ^ 63) = 10.
Proof.
  destruct (varintLen_exact_below_2_63 (2 ^ 63)) as (bs & E & _ & H).
  - unfold is_u64. lia.
  - exists bs. split; [exact E|]. apply H. lia.
Defined.
