(* ===== verification/Double.v ===== *)
(** * Conversions between integers and doubles

    A [double] is its IEEE 754 bit pattern.  The conversion of an integer
    rounds to nearest, ties to even; the conversion to [int64_t] truncates and
    is undefined outside its range. *)
From S2P Require Import Prelude.

Local Open Scope Z_scope.

Definition d_sign (r : Z) : bool := 2 ^ 63 <=? r.
Definition d_exp (r : Z) : Z := (r / 2 ^ 52) mod 2 ^ 11.
Definition d_man (r : Z) : Z := r mod 2 ^ 52.

(** Infinities and NaNs. *)
Definition d_finite (r : Z) : bool := negb (d_exp r =? 2047).

(** The absolute value of [r], truncated. *)
Definition d_trunc_abs (r : Z) : Z :=
  if d_exp r =? 0 then 0
  else if 1075 <=? d_exp r then (2 ^ 52 + d_man r) * 2 ^ (d_exp r - 1075)
  else (2 ^ 52 + d_man r) / 2 ^ (1075 - d_exp r).

(** [static_cast<int64_t>(d)]. *)
Definition int_of_double (r : Z) : option Z :=
  if negb (d_finite r) then None
  else
    let i := if d_sign r then - d_trunc_abs r else d_trunc_abs r in
    if (- 2 ^ 63 <=? i) && (i <? 2 ^ 63) then Some i else None.

(** [n / 2^s] rounded to nearest, ties to even. *)
Definition round_shift (n s : Z) : Z :=
  let q := n / 2 ^ s in
  let r := n mod 2 ^ s in
  if (2 ^ s <? 2 * r) || ((2 * r =? 2 ^ s) && Z.odd q) then q + 1 else q.

(** The pattern of a positive integer: the significand is rounded to 53 bits,
    and a carry moves into the exponent. *)
Definition double_of_pos (n : Z) : Z :=
  let k := Z.log2 n in
  if k <=? 52 then (k + 1022) * 2 ^ 52 + n * 2 ^ (52 - k)
  else (k + 1022) * 2 ^ 52 + round_shift n (k - 52).

(** [static_cast<double>(i)] for a 64-bit integer. *)
Definition double_of_int (i : Z) : Z :=
  if i =? 0 then 0
  else if i <? 0 then 2 ^ 63 + double_of_pos (- i)
  else double_of_pos i.

(** ** Exact conversions *)

Lemma pattern_fields (s : bool) e m : 0 <= e < 2047 -> 0 <= m < 2 ^ 52 ->
  let r := (if s then 2 ^ 63 else 0) + e * 2 ^ 52 + m in
  d_sign r = s /\ d_exp r = e /\ d_man r = m.
Proof.
  intros He Hm r. unfold d_sign, d_exp, d_man, r.
  assert (2 ^ 63 = 2 ^ 11 * 2 ^ 52) as E by reflexivity.
  split_and!.
  - destruct s; [apply Z.leb_le; lia|apply Z.leb_gt]. lia.
  - replace ((if s then 2 ^ 63 else 0) + e * 2 ^ 52 + m) with (((if s then 2 ^ 11 else 0) + e) * 2 ^ 52 + m)
      by (destruct s; lia).
    rewrite Z.div_add_l, (Z.div_small m) by lia. rewrite Z.add_0_r.
    destruct s; [rewrite Z.add_comm, <- (Z.mul_1_l (2 ^ 11)), Z.mod_add by lia|]; apply Z.mod_small; lia.
  - replace ((if s then 2 ^ 63 else 0) + e * 2 ^ 52 + m) with (m + ((if s then 2 ^ 11 else 0) + e) * 2 ^ 52)
      by (destruct s; lia).
    rewrite Z.mod_add by lia. apply Z.mod_small, Hm.
Qed.

Lemma trunc_exact n : 0 < n < 2 ^ 53 -> forall s : bool,
  let r := (if s then 2 ^ 63 else 0) + double_of_pos n in
  d_sign r = s /\ d_finite r = true /\ d_trunc_abs r = n.
Proof.
  intros Hn s r. destruct (Z.log2_spec n) as [Hlo Hhi]; [lia|]. pose proof (Z.log2_nonneg n) as Hk.
  set (k := Z.log2 n) in *.
  assert (k <= 52) as Hk52.
  { destruct (Z.le_gt_cases k 52); [assumption|]. assert (2 ^ 53 <= 2 ^ k) by (apply Z.pow_le_mono_r; lia). lia. }
  assert (2 ^ k * 2 ^ (52 - k) = 2 ^ 52) as E1 by (rewrite <- Z.pow_add_r by lia; f_equal; lia).
  assert (2 ^ Z.succ k * 2 ^ (52 - k) = 2 ^ 53) as E2 by (rewrite <- Z.pow_add_r by lia; f_equal; lia).
  assert (0 < 2 ^ (52 - k)) as Hp by (apply Z.pow_pos_nonneg; lia).
  assert (2 ^ 52 <= n * 2 ^ (52 - k) < 2 ^ 53) as Hm by (split; nia).
  assert (r = (if s then 2 ^ 63 else 0) + (k + 1023) * 2 ^ 52 + (n * 2 ^ (52 - k) - 2 ^ 52)) as ->.
  { unfold r, double_of_pos. fold k. rewrite (proj2 (Z.leb_le k 52)) by lia. lia. }
  destruct (pattern_fields s (k + 1023) (n * 2 ^ (52 - k) - 2 ^ 52)) as (-> & Ee & Em); [lia|lia|].
  unfold d_finite, d_trunc_abs. rewrite Ee, Em.
  rewrite (proj2 (Z.eqb_neq _ _)), (proj2 (Z.eqb_neq (k + 1023) 0)) by lia.
  split_and!; [reflexivity|reflexivity|].
  replace (2 ^ 52 + (n * 2 ^ (52 - k) - 2 ^ 52)) with (n * 2 ^ (52 - k)) by lia.
  destruct (Z.leb_spec 1075 (k + 1023)) as [H|H].
  - replace k with 52 by lia. cbn. lia.
  - replace (1075 - (k + 1023)) with (52 - k) by lia. apply Z.div_mul. lia.
Qed.

(** Integers up to [2^53] in absolute value survive the trip. *)
Lemma int_double_exact i : - 2 ^ 53 < i < 2 ^ 53 -> int_of_double (double_of_int i) = Some i.
Proof.
  intros Hi. unfold double_of_int. destruct (Z.eqb_spec i 0) as [->|N]; [reflexivity|].
  assert (exists s n, 0 < n < 2 ^ 53 /\ i = (if s : bool then - n else n) /\
    (if i <? 0 then 2 ^ 63 + double_of_pos (- i) else double_of_pos i)
    = (if s then 2 ^ 63 else 0) + double_of_pos n) as (s & n & Hn & -> & ->).
  { destruct (Z.ltb_spec i 0); [exists true, (- i)|exists false, i]; split_and!; lia. }
  destruct (trunc_exact n Hn s) as (Es & Ef & Et). unfold int_of_double. rewrite Es, Ef, Et. cbn [negb].
  replace ((- 2 ^ 63 <=? (if s then - n else n)) && ((if s then - n else n) <? 2 ^ 63)) with true; [reflexivity|].
  symmetry. apply andb_true_iff. rewrite Z.leb_le, Z.ltb_lt. destruct s; lia.
Qed.
