(* ===== verification/Value.v ===== *)
(** * SQL values

    The [sqlite3_value] objects the session extension and the Noria bindings
    exchange, with the accessors of [vdbeapi.c] restricted to the calls the
    modelled code makes (an accessor is only called on a value of the
    matching storage class).  A double is its 64-bit IEEE 754 pattern. *)
From S2P Require Import Prelude Double.

(** ** Result codes and storage classes (sqlite3.h) *)

Definition SQLITE_OK : Z := 0.
Definition SQLITE_ERROR : Z := 1.
Definition SQLITE_NOMEM : Z := 7.
Definition SQLITE_CORRUPT : Z := 11.
Definition SQLITE_SCHEMA : Z := 17.
Definition SQLITE_MISUSE : Z := 21.
Definition SQLITE_RANGE : Z := 25.
Definition SQLITE_ROW : Z := 100.
Definition SQLITE_DONE : Z := 101.

Definition SQLITE_INTEGER : Z := 1.
Definition SQLITE_FLOAT : Z := 2.
Definition SQLITE_TEXT : Z := 3.
Definition SQLITE_BLOB : Z := 4.
Definition SQLITE_NULL : Z := 5.

Definition SQLITE_DELETE : Z := 9.
Definition SQLITE_INSERT : Z := 18.
Definition SQLITE_UPDATE : Z := 23.

(** ** Values *)

Inductive sqlite3_value :=
  | VNull
  | VInt (i : Z)
  | VReal (bits : Z)
  | VText (z : list Z)
  | VBlob (z : list Z).

#[export] Instance sqlite3_value_eq_dec : EqDecision sqlite3_value.
Proof. solve_decision. Defined.

#[export] Instance sqlite3_value_countable : Countable sqlite3_value.
Proof.
  refine (inj_countable'
    (fun v => match v with
              | VNull => inl ()
              | VInt i => inr (inl i)
              | VReal r => inr (inr (inl r))
              | VText z => inr (inr (inr (inl z)))
              | VBlob z => inr (inr (inr (inr z)))
              end)
    (fun x => match x with
              | inl () => VNull
              | inr (inl i) => VInt i
              | inr (inr (inl r)) => VReal r
              | inr (inr (inr (inl z))) => VText z
              | inr (inr (inr (inr z))) => VBlob z
              end) _).
  intros []; reflexivity.
Defined.

Definition sqlite3_value_type (v : sqlite3_value) : Z :=
  match v with
  | VNull => SQLITE_NULL
  | VInt _ => SQLITE_INTEGER
  | VReal _ => SQLITE_FLOAT
  | VText _ => SQLITE_TEXT
  | VBlob _ => SQLITE_BLOB
  end.

Definition sqlite3_value_int64 (v : sqlite3_value) : Z :=
  match v with VInt i => i | _ => 0 end.

(** The bit pattern of [sqlite3_value_double(v)], for a numeric value. *)
Definition sqlite3_value_double (v : sqlite3_value) : Z :=
  match v with VReal r => r | VInt i => double_of_int i | _ => 0 end.

Definition sqlite3_value_bytes (v : sqlite3_value) : Z :=
  match v with VText z | VBlob z => Zlen z | _ => 0 end.

(** Pointers to the content: [None] is the null pointer. *)
Definition sqlite3_value_text (v : sqlite3_value) : option (list Z) :=
  match v with VText z => Some z | _ => None end.

Definition sqlite3_value_blob (v : sqlite3_value) : option (list Z) :=
  match v with
  | VText z | VBlob z => if truth (Zlen z) then Some z else None
  | _ => None
  end.

(** ** Doubles *)

Definition EXP754 : Z := Z.shiftl 0x7ff 52.
Definition MAN754 : Z := Z.shiftl 1 52 - 1.
Definition NEG_ZERO : Z := 2 ^ 63.

(** [IsNaN] on a bit pattern. *)
Definition IsNaN (x : Z) : bool :=
  (Z.land x EXP754 =? EXP754) && negb (Z.land x MAN754 =? 0).

(** The C comparison [x == y] of two doubles. *)
Definition double_eq (x y : Z) : bool :=
  if IsNaN x || IsNaN y then false
  else (x =? y) || (((x =? 0) || (x =? NEG_ZERO)) && ((y =? 0) || (y =? NEG_ZERO))).

(** [sqlite3VdbeMemSetInt64] and [sqlite3VdbeMemSetDouble] on a fresh value. *)
Definition sqlite3VdbeMemSetInt64 (v : Z) : sqlite3_value := VInt v.
Definition sqlite3VdbeMemSetDouble (r : Z) : sqlite3_value :=
  if negb (IsNaN r) then VReal r else VNull.

(** ** Well-formed values

    The values SQLite stores: a NaN is stored as NULL and a negative zero as
    zero; a string or blob is shorter than [SQLITE_MAX_LENGTH]. *)

Definition SQLITE_MAX_LENGTH : Z := 1000000000.

Definition value_ok (v : sqlite3_value) : Prop :=
  match v with
  | VNull => True
  | VInt i => is_i64 i
  | VReal r => is_u64 r /\ IsNaN r = false /\ r <> NEG_ZERO
  | VText z | VBlob z => bytes_ok z /\ Zlen z <= SQLITE_MAX_LENGTH
  end.

#[export] Instance value_ok_dec v : Decision (value_ok v).
Proof.
  destruct v; cbn; unfold bytes_ok, is_byte, is_i64, is_u64;
    repeat first [apply _ | apply and_dec | apply Forall_dec; intros ?].
Defined.

Lemma double_eq_ok x y :
  IsNaN x = false -> IsNaN y = false -> x <> NEG_ZERO -> y <> NEG_ZERO ->
  double_eq x y = (x =? y).
Proof.
  intros Hx Hy Nx Ny. unfold double_eq. rewrite Hx, Hy. cbn [orb].
  destruct (Z.eqb_spec x y); [reflexivity|]. cbn [orb].
  apply Z.eqb_neq in Nx, Ny. rewrite Nx, Ny, !orb_false_r.
  destruct (Z.eqb_spec x 0), (Z.eqb_spec y 0); (reflexivity || congruence).
Qed.
