(* ===== verification/Codes.v ===== *)
(** * Result codes (sqlite3.h) and their names (constants.cpp)

    The result codes of SQLite and the string the addon puts in the [code] of
    an error. *)
From stdpp Require Import strings pretty.
From S2P Require Import Prelude Value.

Local Open Scope Z_scope.

(** ** The definitions of sqlite3.h *)

Definition SQLITE_BUSY : Z := 5.
Definition SQLITE_TOOBIG : Z := 18.
Definition SQLITE_CONSTRAINT : Z := 19.

Definition primary_codes : list (string * Z) := (
  [("SQLITE_OK", 0); ("SQLITE_ERROR", 1); ("SQLITE_INTERNAL", 2); ("SQLITE_PERM", 3);
   ("SQLITE_ABORT", 4); ("SQLITE_BUSY", 5); ("SQLITE_LOCKED", 6); ("SQLITE_NOMEM", 7);
   ("SQLITE_READONLY", 8); ("SQLITE_INTERRUPT", 9); ("SQLITE_IOERR", 10); ("SQLITE_CORRUPT", 11);
   ("SQLITE_NOTFOUND", 12); ("SQLITE_FULL", 13); ("SQLITE_CANTOPEN", 14); ("SQLITE_PROTOCOL", 15);
   ("SQLITE_EMPTY", 16); ("SQLITE_SCHEMA", 17); ("SQLITE_TOOBIG", 18); ("SQLITE_CONSTRAINT", 19);
   ("SQLITE_MISMATCH", 20); ("SQLITE_MISUSE", 21); ("SQLITE_NOLFS", 22); ("SQLITE_AUTH", 23);
   ("SQLITE_FORMAT", 24); ("SQLITE_RANGE", 25); ("SQLITE_NOTADB", 26); ("SQLITE_NOTICE", 27);
   ("SQLITE_WARNING", 28); ("SQLITE_ROW", 100); ("SQLITE_DONE", 101)])%string.

(** The low byte of an extended code is its primary code, the rest a number. *)
Definition extended_codes : list (string * (string * Z)) := (
  [("SQLITE_ERROR_MISSING_COLLSEQ", ("SQLITE_ERROR", 1));
   ("SQLITE_ERROR_RETRY", ("SQLITE_ERROR", 2)); ("SQLITE_ERROR_SNAPSHOT", ("SQLITE_ERROR", 3));
   ("SQLITE_ERROR_RESERVESIZE", ("SQLITE_ERROR", 4)); ("SQLITE_ERROR_KEY", ("SQLITE_ERROR", 5));
   ("SQLITE_ERROR_UNABLE", ("SQLITE_ERROR", 6)); ("SQLITE_IOERR_READ", ("SQLITE_IOERR", 1));
   ("SQLITE_IOERR_SHORT_READ", ("SQLITE_IOERR", 2)); ("SQLITE_IOERR_WRITE", ("SQLITE_IOERR", 3));
   ("SQLITE_IOERR_FSYNC", ("SQLITE_IOERR", 4)); ("SQLITE_IOERR_DIR_FSYNC", ("SQLITE_IOERR", 5));
   ("SQLITE_IOERR_TRUNCATE", ("SQLITE_IOERR", 6)); ("SQLITE_IOERR_FSTAT", ("SQLITE_IOERR", 7));
   ("SQLITE_IOERR_UNLOCK", ("SQLITE_IOERR", 8)); ("SQLITE_IOERR_RDLOCK", ("SQLITE_IOERR", 9));
   ("SQLITE_IOERR_DELETE", ("SQLITE_IOERR", 10)); ("SQLITE_IOERR_BLOCKED", ("SQLITE_IOERR", 11));
   ("SQLITE_IOERR_NOMEM", ("SQLITE_IOERR", 12)); ("SQLITE_IOERR_ACCESS", ("SQLITE_IOERR", 13));
   ("SQLITE_IOERR_CHECKRESERVEDLOCK", ("SQLITE_IOERR", 14));
   ("SQLITE_IOERR_LOCK", ("SQLITE_IOERR", 15)); ("SQLITE_IOERR_CLOSE", ("SQLITE_IOERR", 16));
   ("SQLITE_IOERR_DIR_CLOSE", ("SQLITE_IOERR", 17));
   ("SQLITE_IOERR_SHMOPEN", ("SQLITE_IOERR", 18)); ("SQLITE_IOERR_SHMSIZE", ("SQLITE_IOERR", 19));
   ("SQLITE_IOERR_SHMLOCK", ("SQLITE_IOERR", 20)); ("SQLITE_IOERR_SHMMAP", ("SQLITE_IOERR", 21));
   ("SQLITE_IOERR_SEEK", ("SQLITE_IOERR", 22));
   ("SQLITE_IOERR_DELETE_NOENT", ("SQLITE_IOERR", 23));
   ("SQLITE_IOERR_MMAP", ("SQLITE_IOERR", 24)); ("SQLITE_IOERR_GETTEMPPATH", ("SQLITE_IOERR", 25));
   ("SQLITE_IOERR_CONVPATH", ("SQLITE_IOERR", 26)); ("SQLITE_IOERR_VNODE", ("SQLITE_IOERR", 27));
   ("SQLITE_IOERR_AUTH", ("SQLITE_IOERR", 28));
   ("SQLITE_IOERR_BEGIN_ATOMIC", ("SQLITE_IOERR", 29));
   ("SQLITE_IOERR_COMMIT_ATOMIC", ("SQLITE_IOERR", 30));
   ("SQLITE_IOERR_ROLLBACK_ATOMIC", ("SQLITE_IOERR", 31));
   ("SQLITE_IOERR_DATA", ("SQLITE_IOERR", 32)); ("SQLITE_IOERR_CORRUPTFS", ("SQLITE_IOERR", 33));
   ("SQLITE_IOERR_IN_PAGE", ("SQLITE_IOERR", 34)); ("SQLITE_IOERR_BADKEY", ("SQLITE_IOERR", 35));
   ("SQLITE_IOERR_CODEC", ("SQLITE_IOERR", 36));
   ("SQLITE_LOCKED_SHAREDCACHE", ("SQLITE_LOCKED", 1));
   ("SQLITE_LOCKED_VTAB", ("SQLITE_LOCKED", 2)); ("SQLITE_BUSY_RECOVERY", ("SQLITE_BUSY", 1));
   ("SQLITE_BUSY_SNAPSHOT", ("SQLITE_BUSY", 2)); ("SQLITE_BUSY_TIMEOUT", ("SQLITE_BUSY", 3));
   ("SQLITE_CANTOPEN_NOTEMPDIR", ("SQLITE_CANTOPEN", 1));
   ("SQLITE_CANTOPEN_ISDIR", ("SQLITE_CANTOPEN", 2));
   ("SQLITE_CANTOPEN_FULLPATH", ("SQLITE_CANTOPEN", 3));
   ("SQLITE_CANTOPEN_CONVPATH", ("SQLITE_CANTOPEN", 4));
   ("SQLITE_CANTOPEN_DIRTYWAL", ("SQLITE_CANTOPEN", 5));
   ("SQLITE_CANTOPEN_SYMLINK", ("SQLITE_CANTOPEN", 6));
   ("SQLITE_CORRUPT_VTAB", ("SQLITE_CORRUPT", 1));
   ("SQLITE_CORRUPT_SEQUENCE", ("SQLITE_CORRUPT", 2));
   ("SQLITE_CORRUPT_INDEX", ("SQLITE_CORRUPT", 3));
   ("SQLITE_READONLY_RECOVERY", ("SQLITE_READONLY", 1));
   ("SQLITE_READONLY_CANTLOCK", ("SQLITE_READONLY", 2));
   ("SQLITE_READONLY_ROLLBACK", ("SQLITE_READONLY", 3));
   ("SQLITE_READONLY_DBMOVED", ("SQLITE_READONLY", 4));
   ("SQLITE_READONLY_CANTINIT", ("SQLITE_READONLY", 5));
   ("SQLITE_READONLY_DIRECTORY", ("SQLITE_READONLY", 6));
   ("SQLITE_ABORT_ROLLBACK", ("SQLITE_ABORT", 2));
   ("SQLITE_CONSTRAINT_CHECK", ("SQLITE_CONSTRAINT", 1));
   ("SQLITE_CONSTRAINT_COMMITHOOK", ("SQLITE_CONSTRAINT", 2));
   ("SQLITE_CONSTRAINT_FOREIGNKEY", ("SQLITE_CONSTRAINT", 3));
   ("SQLITE_CONSTRAINT_FUNCTION", ("SQLITE_CONSTRAINT", 4));
   ("SQLITE_CONSTRAINT_NOTNULL", ("SQLITE_CONSTRAINT", 5));
   ("SQLITE_CONSTRAINT_PRIMARYKEY", ("SQLITE_CONSTRAINT", 6));
   ("SQLITE_CONSTRAINT_TRIGGER", ("SQLITE_CONSTRAINT", 7));
   ("SQLITE_CONSTRAINT_UNIQUE", ("SQLITE_CONSTRAINT", 8));
   ("SQLITE_CONSTRAINT_VTAB", ("SQLITE_CONSTRAINT", 9));
   ("SQLITE_CONSTRAINT_ROWID", ("SQLITE_CONSTRAINT", 10));
   ("SQLITE_CONSTRAINT_PINNED", ("SQLITE_CONSTRAINT", 11));
   ("SQLITE_CONSTRAINT_DATATYPE", ("SQLITE_CONSTRAINT", 12));
   ("SQLITE_NOTICE_RECOVER_WAL", ("SQLITE_NOTICE", 1));
   ("SQLITE_NOTICE_RECOVER_ROLLBACK", ("SQLITE_NOTICE", 2));
   ("SQLITE_NOTICE_RBU", ("SQLITE_NOTICE", 3));
   ("SQLITE_WARNING_AUTOINDEX", ("SQLITE_WARNING", 1)); ("SQLITE_AUTH_USER", ("SQLITE_AUTH", 1));
   ("SQLITE_OK_LOAD_PERMANENTLY", ("SQLITE_OK", 1)); ("SQLITE_OK_SYMLINK", ("SQLITE_OK", 2))])%string.

Definition entry_of_name {A} (name : string) (l : list (string * A)) : option A := (fun p => p.2.2) <$> list_find (fun p => p.1 = name) l.

(** The value of a defined name. *)
Definition defined_code (name : string) : option Z :=
  match entry_of_name name primary_codes with
  | Some c => Some c
  | None => '(primary, n) ← entry_of_name name extended_codes; c ← entry_of_name primary primary_codes; Some (Z.lor c (Z.shiftl n 8))
  end.

(** The constants the other files use. *)
Lemma constants_defined :
  defined_code <$> (
  ["SQLITE_OK"; "SQLITE_ERROR"; "SQLITE_NOMEM"; "SQLITE_CORRUPT"; "SQLITE_SCHEMA"; "SQLITE_MISUSE";
   "SQLITE_RANGE"; "SQLITE_ROW"; "SQLITE_DONE"; "SQLITE_BUSY"; "SQLITE_TOOBIG"; "SQLITE_CONSTRAINT"])%string
  = Some <$>
  [SQLITE_OK; SQLITE_ERROR; SQLITE_NOMEM; SQLITE_CORRUPT; SQLITE_SCHEMA; SQLITE_MISUSE;
   SQLITE_RANGE; SQLITE_ROW; SQLITE_DONE; SQLITE_BUSY; SQLITE_TOOBIG; SQLITE_CONSTRAINT].
Proof. vm_compute. reflexivity. Qed.

(** ** The table of [CS] *)

Definition cs_names : list string := (
  ["SQLITE_OK"; "SQLITE_ERROR"; "SQLITE_INTERNAL"; "SQLITE_PERM"; "SQLITE_ABORT"; "SQLITE_BUSY";
   "SQLITE_LOCKED"; "SQLITE_NOMEM"; "SQLITE_READONLY"; "SQLITE_INTERRUPT"; "SQLITE_IOERR";
   "SQLITE_CORRUPT"; "SQLITE_NOTFOUND"; "SQLITE_FULL"; "SQLITE_CANTOPEN"; "SQLITE_PROTOCOL";
   "SQLITE_EMPTY"; "SQLITE_SCHEMA"; "SQLITE_TOOBIG"; "SQLITE_CONSTRAINT"; "SQLITE_MISMATCH";
   "SQLITE_MISUSE"; "SQLITE_NOLFS"; "SQLITE_AUTH"; "SQLITE_FORMAT"; "SQLITE_RANGE";
   "SQLITE_NOTADB"; "SQLITE_NOTICE"; "SQLITE_WARNING"; "SQLITE_ROW"; "SQLITE_DONE";
   "SQLITE_ERROR_MISSING_COLLSEQ"; "SQLITE_ERROR_RETRY"; "SQLITE_ERROR_SNAPSHOT";
   "SQLITE_IOERR_READ"; "SQLITE_IOERR_SHORT_READ"; "SQLITE_IOERR_WRITE"; "SQLITE_IOERR_FSYNC";
   "SQLITE_IOERR_DIR_FSYNC"; "SQLITE_IOERR_TRUNCATE"; "SQLITE_IOERR_FSTAT"; "SQLITE_IOERR_UNLOCK";
   "SQLITE_IOERR_RDLOCK"; "SQLITE_IOERR_DELETE"; "SQLITE_IOERR_BLOCKED"; "SQLITE_IOERR_NOMEM";
   "SQLITE_IOERR_ACCESS"; "SQLITE_IOERR_CHECKRESERVEDLOCK"; "SQLITE_IOERR_LOCK";
   "SQLITE_IOERR_CLOSE"; "SQLITE_IOERR_DIR_CLOSE"; "SQLITE_IOERR_SHMOPEN"; "SQLITE_IOERR_SHMSIZE";
   "SQLITE_IOERR_SHMLOCK"; "SQLITE_IOERR_SHMMAP"; "SQLITE_IOERR_SEEK"; "SQLITE_IOERR_DELETE_NOENT";
   "SQLITE_IOERR_MMAP"; "SQLITE_IOERR_GETTEMPPATH"; "SQLITE_IOERR_CONVPATH"; "SQLITE_IOERR_VNODE";
   "SQLITE_IOERR_AUTH"; "SQLITE_IOERR_BEGIN_ATOMIC"; "SQLITE_IOERR_COMMIT_ATOMIC";
   "SQLITE_IOERR_ROLLBACK_ATOMIC"; "SQLITE_IOERR_DATA"; "SQLITE_IOERR_CORRUPTFS";
   "SQLITE_IOERR_IN_PAGE"; "SQLITE_LOCKED_SHAREDCACHE"; "SQLITE_LOCKED_VTAB";
   "SQLITE_BUSY_RECOVERY"; "SQLITE_BUSY_SNAPSHOT"; "SQLITE_CANTOPEN_NOTEMPDIR";
   "SQLITE_CANTOPEN_ISDIR"; "SQLITE_CANTOPEN_FULLPATH"; "SQLITE_CANTOPEN_CONVPATH";
   "SQLITE_CANTOPEN_DIRTYWAL"; "SQLITE_CANTOPEN_SYMLINK"; "SQLITE_CORRUPT_VTAB";
   "SQLITE_CORRUPT_SEQUENCE"; "SQLITE_CORRUPT_INDEX"; "SQLITE_READONLY_RECOVERY";
   "SQLITE_READONLY_CANTLOCK"; "SQLITE_READONLY_ROLLBACK"; "SQLITE_READONLY_DBMOVED";
   "SQLITE_READONLY_CANTINIT"; "SQLITE_READONLY_DIRECTORY"; "SQLITE_ABORT_ROLLBACK";
   "SQLITE_CONSTRAINT_CHECK"; "SQLITE_CONSTRAINT_COMMITHOOK"; "SQLITE_CONSTRAINT_FOREIGNKEY";
   "SQLITE_CONSTRAINT_FUNCTION"; "SQLITE_CONSTRAINT_NOTNULL"; "SQLITE_CONSTRAINT_PRIMARYKEY";
   "SQLITE_CONSTRAINT_TRIGGER"; "SQLITE_CONSTRAINT_UNIQUE"; "SQLITE_CONSTRAINT_VTAB";
   "SQLITE_CONSTRAINT_ROWID"; "SQLITE_CONSTRAINT_PINNED"; "SQLITE_CONSTRAINT_DATATYPE";
   "SQLITE_NOTICE_RECOVER_WAL"; "SQLITE_NOTICE_RECOVER_ROLLBACK"; "SQLITE_NOTICE_RBU";
   "SQLITE_WARNING_AUTOINDEX"; "SQLITE_AUTH_USER"; "SQLITE_OK_LOAD_PERMANENTLY";
   "SQLITE_OK_SYMLINK"])%string.

Definition codes : list (Z * string) := omap (fun name => (fun c => (c, name)) <$> defined_code name) cs_names.

Lemma codes_complete : codes.*2 = cs_names.
Proof. vm_compute. reflexivity. Qed.

(** [emplace] keeps the first entry of a key; [CS::Code] looks it up. *)
Definition Code (code : Z) : string :=
  match list_find (fun p => p.1 = code) codes with
  | Some (_, (_, name)) => name
  | None => String.append "UNKNOWN_SQLITE_ERROR_" (pretty code)
  end.

(** ** The names identify the codes *)

Lemma named_code c k name c' : list_find (fun p => p.1 = c) codes = Some (k, (c', name)) -> (c, name) ∈ codes.
Proof. intros E. apply list_find_Some in E as (E & <- & _). exact (list_elem_of_lookup_2 _ _ _ E). Qed.

Lemma codes_names : NoDup (codes.*2) /\ Forall (fun p => String.prefix "UNKNOWN" p.2 = false) codes.
Proof. split; apply (bool_decide_unpack _); vm_compute; exact I. Qed.

(** The [code] of an error identifies the result code of SQLite, known to the
    table or not; the name of a known code begins with the name of its primary
    code. *)
Theorem codes_identify : (forall c c', Code c = Code c' -> c = c') /\
  Forall (fun p => String.prefix (Code (Z.land p.1 0xff)) (Code p.1) = true) codes.
Proof.
  split; [|apply (bool_decide_unpack _); vm_compute; exact I]. destruct codes_names as [Nd Un]. rewrite Forall_forall in Un. intros c c'. unfold Code.
  destruct (list_find _ codes) as [[k [x n]]|] eqn:E, (list_find (fun p => p.1 = c') codes) as [[k' [x' n']]|] eqn:E'.
  - intros <-. apply named_code in E, E'. apply list_elem_of_lookup in E as [i Ei], E' as [j Ej].
    assert (i = j); [|congruence]. apply (NoDup_lookup _ _ _ n Nd); rewrite list_lookup_fmap; [rewrite Ei|rewrite Ej]; reflexivity.
  - intros ->. apply named_code, Un in E. discriminate.
  - intros <-. apply named_code, Un in E'. discriminate.
  - intros Eq. cbn in Eq. injection Eq as Eq. exact (inj pretty c c' Eq).
Qed.
