(* ===== verification/Record.v ===== *)
(** * The session extension's record format

    Serialisation of SQL values into change records, the walkers over such
    records, and the two hash functions on primary keys ([sqlite3session.c],
    as amalgamated in [sqlite3.c]).  The reference encoding [enc_fields] is the
    RECORD FORMAT comment of the source; every routine of this file is shown
    to agree with it. *)
From S2P Require Import Prelude Bits Varint Value.

(** ** Integers *)

Definition sessionVarintPut (iVal : Z) : option (list Z * Z) := putVarint32 iVal.

Definition sessionVarintLen (iVal : Z) : Z := sqlite3VarintLen (u64 iVal).

(** The value read and the number of bytes read. *)
Definition sessionVarintGet (aBuf : list Z) : option (Z * Z) :=
  '(v, n) ← getVarint32 aBuf; Some (i32 v, n).

Definition SESSION_UINT32 (x : list Z) : option Z :=
  x0 ← x !! 0%nat; x1 ← x !! 1%nat; x2 ← x !! 2%nat; x3 ← x !! 3%nat;
  Some (Z.lor (Z.lor (Z.lor (u32 (Z.shiftl x0 24)) (Z.shiftl x1 16)) (Z.shiftl x2 8)) x3).

Definition sessionGetI64 (aRec : list Z) : option Z :=
  x ← SESSION_UINT32 aRec;
  y ← SESSION_UINT32 (drop 4 aRec);
  let x := u64 (u64 (Z.shiftl x 32) + y) in
  Some (i64 x).

(** The eight bytes written to [aBuf]. *)
Definition sessionPutI64 (i : Z) : list Z :=
  [ Z.land (Z.shiftr i 56) 0xFF; Z.land (Z.shiftr i 48) 0xFF;
    Z.land (Z.shiftr i 40) 0xFF; Z.land (Z.shiftr i 32) 0xFF;
    Z.land (Z.shiftr i 24) 0xFF; Z.land (Z.shiftr i 16) 0xFF;
    Z.land (Z.shiftr i 8) 0xFF; Z.land (Z.shiftr i 0) 0xFF ].

(** ** Serialisation *)

(** [sessionSerializeValue(aBuf, pValue, pnWrite)]: the result code, the bytes
    left at [aBuf] (none when [aBuf] is null) and the increment of [*pnWrite].
    [pValue = None] is the null pointer; [utf8_oom] says whether the
    conversion inside [sqlite3_value_text] runs out of memory. *)
Definition sessionSerializeValue (aBuf : bool) (utf8_oom : bool)
    (pValue : option sqlite3_value) : option (Z * list Z * Z) :=
  match pValue with
  | Some v =>
      let eType := sqlite3_value_type v in
      let w0 := if aBuf then [eType] else [] in
      if eType =? SQLITE_NULL then Some (SQLITE_OK, w0, 1)
      else if (eType =? SQLITE_INTEGER) || (eType =? SQLITE_FLOAT) then
        if aBuf then
          let i := if eType =? SQLITE_INTEGER then u64 (sqlite3_value_int64 v)
                   else sqlite3_value_double v in
          w ← poke 1 (sessionPutI64 (i64 i)) w0;
          Some (SQLITE_OK, w, 9)
        else Some (SQLITE_OK, w0, 9)
      else
        let z := if eType =? SQLITE_TEXT
                 then (if utf8_oom then None else sqlite3_value_text v)
                 else sqlite3_value_blob v in
        let n := sqlite3_value_bytes v in
        if bool_decide (z = None) && (negb (eType =? SQLITE_BLOB) || (0 <? n))
        then Some (SQLITE_NOMEM, w0, 0)
        else
          let nVarint := sessionVarintLen n in
          w ← (if aBuf then
                 '(bs, _) ← sessionVarintPut n;
                 w1 ← poke 1 bs w0;
                 if 0 <? n then
                   zz ← z; zn ← read_n n zz; poke (nVarint + 1) zn w1
                 else Some w1
               else Some w0);
          nByte ← int_ok (1 + nVarint + n);
          Some (SQLITE_OK, w, nByte)
  | None => Some (SQLITE_OK, if aBuf then [0] else [], 1)
  end.

(** Number of bytes of the serialised value at [a], type byte included. *)
Definition sessionSerialLen (a : list Z) : option Z :=
  e ← a !! 0%nat;
  if (e =? 0) || (e =? 0xFF) then Some 1
  else if e =? SQLITE_NULL then Some 1
  else if (e =? SQLITE_INTEGER) || (e =? SQLITE_FLOAT) then Some 9
  else '(n, k) ← sessionVarintGet (drop 1 a); int_ok (k + 1 + n).

(** ** Hashing of primary keys *)

Definition HASH_APPEND (hash add : Z) : Z :=
  Z.lxor (Z.lxor (u32 (Z.shiftl hash 3)) hash) (u32 add).

Definition sessionHashAppendI64 (h i : Z) : Z :=
  let h := HASH_APPEND h (Z.land i 0xFFFFFFFF) in
  HASH_APPEND h (Z.land (Z.shiftr i 32) 0xFFFFFFFF).

(** The loop over the [n] bytes at [z]. *)
Definition sessionHashAppendBlob (h : Z) (z : list Z) : Z :=
  fold_left HASH_APPEND z h.

Definition sessionHashAppendType (h eType : Z) : Z := HASH_APPEND h eType.

(** The loop of [sessionChangeHash] over the columns, [pks] being the
    remaining part of [abPK]. *)
Fixpoint sessionChangeHash_loop (bPkOnly : bool) (pks : list Z) (h : Z) (a : list Z)
    : option Z :=
  match pks with
  | [] => Some h
  | isPK :: pks =>
      eType ← a !! 0%nat;
      if bPkOnly && negb (truth isPK) then sessionChangeHash_loop bPkOnly pks h a
      else if truth isPK then
        let a := drop 1 a in
        let h := sessionHashAppendType h eType in
        if (eType =? SQLITE_INTEGER) || (eType =? SQLITE_FLOAT) then
          i ← sessionGetI64 a;
          a ← advance 8 a;
          sessionChangeHash_loop bPkOnly pks (sessionHashAppendI64 h i) a
        else
          '(n, k) ← sessionVarintGet a;
          a ← advance k a;
          z ← read_n (Z.max 0 n) a;
          a ← advance n a;
          sessionChangeHash_loop bPkOnly pks (sessionHashAppendBlob h z) a
      else
        k ← sessionSerialLen a;
        a ← advance k a;
        sessionChangeHash_loop bPkOnly pks h a
  end.

Definition sessionChangeHash (nCol : Z) (abPK : list Z) (bPkOnly : bool)
    (aRecord : list Z) (nBucket : Z) : option Z :=
  pks ← read_n nCol abPK;
  h ← sessionChangeHash_loop bPkOnly pks 0 aRecord;
  if nBucket =? 0 then None else Some (h mod u32 nBucket).

(** ** Comparison and merging of records *)

Fixpoint sessionChangeEqual_loop (pks : list Z) (bLeftPkOnly bRightPkOnly : bool)
    (a1 a2 : list Z) : option bool :=
  match pks with
  | [] => Some true
  | pk :: pks =>
      if truth pk then
        n1 ← sessionSerialLen a1;
        n2 ← sessionSerialLen a2;
        if negb (n1 =? n2) then Some false else
        m1 ← read_n n1 a1;
        m2 ← read_n n1 a2;
        if negb (bool_decide (m1 = m2)) then Some false else
        a1 ← advance n1 a1;
        a2 ← advance n2 a2;
        sessionChangeEqual_loop pks bLeftPkOnly bRightPkOnly a1 a2
      else
        a1 ← (if bLeftPkOnly then Some a1 else n ← sessionSerialLen a1; advance n a1);
        a2 ← (if bRightPkOnly then Some a2 else n ← sessionSerialLen a2; advance n a2);
        sessionChangeEqual_loop pks bLeftPkOnly bRightPkOnly a1 a2
  end.

Definition sessionChangeEqual (nCol : Z) (abPK : list Z) (bLeftPkOnly : bool)
    (aLeft : list Z) (bRightPkOnly : bool) (aRight : list Z) : option bool :=
  pks ← read_n nCol abPK;
  sessionChangeEqual_loop pks bLeftPkOnly bRightPkOnly aLeft aRight.

(** The bytes written to [*paOut]. *)
Fixpoint sessionMergeRecord (nCol : nat) (a1 a2 : list Z) : option (list Z) :=
  match nCol with
  | O => Some []
  | S nCol =>
      n1 ← sessionSerialLen a1;
      n2 ← sessionSerialLen a2;
      t2 ← a2 !! 0%nat;
      out ← (if truth t2 then read_n n2 a2 else read_n n1 a1);
      a1 ← advance n1 a1;
      a2 ← advance n2 a2;
      rest ← sessionMergeRecord nCol a1 a2;
      Some (out ++ rest)
  end.

(** [sessionMergeValue(&aOne, &aTwo, &nVal)]: the bytes of the value chosen and
    the two advanced pointers; [aTwo] may be null. *)
Definition sessionMergeValue (a1 : list Z) (a2 : option (list Z))
    : option (list Z * list Z * option (list Z)) :=
  '(pRet, paTwo) ←
    match a2 with
    | Some a2 =>
        n2 ← sessionSerialLen a2;
        t2 ← a2 !! 0%nat;
        v2 ← (if truth t2 then v ← read_n n2 a2; Some (Some v) else Some None);
        a2' ← advance n2 a2;
        Some (v2, Some a2')
    | None => Some (None, None)
    end;
  n1 ← sessionSerialLen a1;
  v ← (match pRet with Some v => Some v | None => read_n n1 a1 end);
  paOne ← advance n1 a1;
  Some (v, paOne, paTwo).

(** First loop of [sessionMergeUpdate]: the old.* vector and [bRequired]. *)
Fixpoint sessionMergeUpdate_old (pks : list Z) (aOld1 : list Z) (aOld2 : option (list Z))
    (aNew1 : list Z) (aNew2 : option (list Z)) (bRequired : bool)
    : option (list Z * bool) :=
  match pks with
  | [] => Some ([], bRequired)
  | pk :: pks =>
      '(old, aOld1, aOld2) ← sessionMergeValue aOld1 aOld2;
      '(new, aNew1, aNew2) ← sessionMergeValue aNew1 aNew2;
      let keep := truth pk || negb (Zlen old =? Zlen new) || negb (bool_decide (old = new)) in
      let bRequired := if keep && negb (truth pk) then true else bRequired in
      '(rest, bRequired) ← sessionMergeUpdate_old pks aOld1 aOld2 aNew1 aNew2 bRequired;
      Some ((if keep then old else [0]) ++ rest, bRequired)
  end.

(** Second loop of [sessionMergeUpdate]: the new.* vector. *)
Fixpoint sessionMergeUpdate_new (pks : list Z) (bPatchset : bool) (aOld1 : list Z)
    (aOld2 : option (list Z)) (aNew1 : list Z) (aNew2 : option (list Z))
    : option (list Z) :=
  match pks with
  | [] => Some []
  | pk :: pks =>
      '(old, aOld1, aOld2) ← sessionMergeValue aOld1 aOld2;
      '(new, aNew1, aNew2) ← sessionMergeValue aNew1 aNew2;
      rest ← sessionMergeUpdate_new pks bPatchset aOld1 aOld2 aNew1 aNew2;
      Some ((if negb bPatchset && (truth pk || ((Zlen old =? Zlen new) && bool_decide (old = new)))
             then [0] else new) ++ rest)
  end.

(** [sessionMergeUpdate]: the return value and the bytes [*paOut] has moved
    over (on a zero return [*paOut] is not moved). *)
Definition sessionMergeUpdate (nCol : Z) (abPK : list Z) (bPatchset : bool)
    (aOldRecord1 : list Z) (aOldRecord2 : option (list Z))
    (aNewRecord1 : list Z) (aNewRecord2 : option (list Z)) : option (Z * list Z) :=
  pks ← read_n nCol abPK;
  if negb bPatchset then
    '(w, bRequired) ←
      sessionMergeUpdate_old pks aOldRecord1 aOldRecord2 aNewRecord1 aNewRecord2 false;
    if negb bRequired then Some (0, []) else
    w' ← sessionMergeUpdate_new pks bPatchset aOldRecord1 aOldRecord2 aNewRecord1 aNewRecord2;
    Some (1, w ++ w')
  else
    w' ← sessionMergeUpdate_new pks bPatchset aOldRecord1 aOldRecord2 aNewRecord1 aNewRecord2;
    Some (1, w').

(** ** Reference encoding (RECORD FORMAT)

    A field is a value, or [None] for the 0x00 byte of an undefined value. *)

Definition varint (n : Z) : list Z :=
  match putVarint32 n with Some (bs, _) => bs | None => [] end.

Definition enc_value (v : sqlite3_value) : list Z :=
  match v with
  | VNull => [SQLITE_NULL]
  | VInt i => SQLITE_INTEGER :: sessionPutI64 i
  | VReal r => SQLITE_FLOAT :: sessionPutI64 r
  | VText z => SQLITE_TEXT :: varint (Zlen z) ++ z
  | VBlob z => SQLITE_BLOB :: varint (Zlen z) ++ z
  end.

Definition enc_field (f : option sqlite3_value) : list Z :=
  match f with Some v => enc_value v | None => [0] end.

Definition enc_fields (fs : list (option sqlite3_value)) : list Z := concat (enc_field <$> fs).

Definition field_ok (f : option sqlite3_value) : Prop :=
  match f with Some v => value_ok v | None => True end.

Definition fields_ok (fs : list (option sqlite3_value)) : Prop := Forall field_ok fs.

#[export] Instance field_ok_dec f : Decision (field_ok f).
Proof. destruct f; apply _. Defined.

#[export] Instance fields_ok_dec fs : Decision (fields_ok fs).
Proof. unfold fields_ok. apply _. Defined.

(** ** Integers *)

Lemma varint_spec n : 0 <= n < 2 ^ 31 ->
  sessionVarintPut n = Some (varint n, Zlen (varint n)) /\
  sessionVarintLen n = Zlen (varint n) /\ 1 <= Zlen (varint n) <= 9 /\
  bytes_ok (varint n) /\
  forall rest, varint_decode (varint n ++ rest) = Some (n, Zlen (varint n)).
Proof.
  intros Hn. destruct (putVarint32_spec n Hn) as (bs & k & E & -> & Hk & Hb & Hd & Hl).
  unfold sessionVarintPut, sessionVarintLen, varint. rewrite E.
  rewrite u64_id by (unfold is_u64; lia). split_and!; auto; lia.
Qed.

Lemma varint_put n : 0 <= n < 2 ^ 31 ->
  sessionVarintPut n = Some (varint n, Zlen (varint n)).
Proof. apply varint_spec. Qed.

Lemma varint_len n : 0 <= n < 2 ^ 31 -> sessionVarintLen n = Zlen (varint n).
Proof. apply varint_spec. Qed.

Lemma varint_bounds n : 0 <= n < 2 ^ 31 -> 1 <= Zlen (varint n) <= 9.
Proof. apply varint_spec. Qed.

Lemma varint_bytes n : 0 <= n < 2 ^ 31 -> bytes_ok (varint n).
Proof. apply varint_spec. Qed.

(** A varint is read back whatever follows it. *)
Lemma varint_get n rest : 0 <= n < 2 ^ 31 -> bytes_ok rest ->
  sessionVarintGet (varint n ++ rest) = Some (n, Zlen (varint n)).
Proof.
  intros Hn Hr. unfold sessionVarintGet.
  destruct (varint_spec n Hn) as (_ & _ & _ & Hb & Hd).
  rewrite getVarint32_decode by (apply bytes_ok_app; auto).
  rewrite Hd. cbn. rewrite (proj2 (Z.ltb_lt _ _)) by lia.
  rewrite i32_id by (unfold is_i32; lia). reflexivity.
Qed.

Lemma putI64_len i : Zlen (sessionPutI64 i) = 8.
Proof. reflexivity. Qed.

Lemma land_byte x : is_byte (Z.land x 0xFF).
Proof.
  change 0xFF with (Z.ones 8). rewrite Z.land_ones by lia.
  unfold is_byte. apply Z.mod_pos_bound. lia.
Qed.

#[export] Hint Resolve land_byte : noria.

Lemma putI64_bytes i : bytes_ok (sessionPutI64 i).
Proof. unfold sessionPutI64, bytes_ok. repeat constructor; apply land_byte. Qed.

Lemma byte_u64 i k : 0 <= k <= 56 ->
  Z.land (Z.shiftr (u64 i) k) 0xFF = Z.land (Z.shiftr i k) 0xFF.
Proof.
  intros Hk. apply Z.bits_inj'. intros j Hj. rewrite !Z.land_spec.
  change 0xFF with (Z.ones 8). rewrite Z.testbit_ones_nonneg by lia.
  destruct (Z.ltb_spec j 8); [|rewrite !andb_false_r; reflexivity].
  rewrite !Z.shiftr_spec by lia. unfold u64. rewrite Z.mod_pow2_bits_low by lia. reflexivity.
Qed.

Lemma putI64_u64 i : sessionPutI64 (u64 i) = sessionPutI64 i.
Proof. unfold sessionPutI64. rewrite !byte_u64 by lia. reflexivity. Qed.

Lemma i64_add_pow x : exists k, i64 x = u64 x + k * 2 ^ 64.
Proof.
  unfold i64, signed, u64. destruct (_ <? _); [exists 0 | exists (-1)]; lia.
Qed.

Lemma u64_i64 x : u64 (i64 x) = u64 x.
Proof.
  destruct (i64_add_pow x) as [k ->]. unfold u64.
  rewrite Z_mod_plus_full, Zmod_mod. reflexivity.
Qed.

Lemma putI64_i64 i : sessionPutI64 (i64 i) = sessionPutI64 i.
Proof. rewrite <- putI64_u64, u64_i64, putI64_u64. reflexivity. Qed.

Ltac simplify_digits :=
  repeat match goal with
         | |- context [if ?b then true else false] =>
             replace (if b then true else false) with b by (destruct b; reflexivity)
         end.

Lemma getI64_putI64 i rest : sessionGetI64 (sessionPutI64 i ++ rest) = Some (i64 i).
Proof.
  rewrite <- putI64_u64, <- (i64_u64 i).
  rewrite (digits_spec 64 (u64 i)) by apply u64_range.
  set (l := digits 64 (u64 i)). pose proof (length_digits 64 (u64 i)) as Hl. fold l in Hl.
  clearbody l. do 64 (destruct l as [|? l]; [discriminate Hl|]).
  destruct l; [clear Hl|discriminate Hl].
  unfold sessionPutI64, sessionGetI64, SESSION_UINT32, u32. Zb_const 0xFF.
  eval_bits. rewrite i64_u64. do 2 f_equal. unfold u64. eval_bits.
  simplify_digits.
  match goal with |- Zb ?l + Zb ?m = _ =>
    change (Zb l) with (Zb (replicate 32 false ++ drop 32 l)) end.
  rewrite Zb_replicate. cbn [drop].
  match goal with |- 2 ^ Z.of_nat 32 * Zb ?l + Zb ?m = _ =>
    rewrite Z.add_comm; etransitivity; [symmetry; exact (Zb_app m l)|reflexivity] end.
Qed.

(** ** One value *)

Lemma zlen_small z : Zlen z <= SQLITE_MAX_LENGTH -> 0 <= Zlen (A:=Z) z < 2 ^ 31.
Proof. unfold SQLITE_MAX_LENGTH. pose proof (Zlen_nonneg z). lia. Qed.

Lemma truth_len {A} (z : list A) : truth (Zlen z) = true \/ z = [].
Proof.
  unfold truth. destruct z; [auto|]. left. rewrite Zlen_cons.
  pose proof (Zlen_nonneg z). destruct (Z.eqb_spec (1 + Zlen z) 0); [lia|reflexivity].
Qed.

Lemma enc_field_bytes f : field_ok f -> bytes_ok (enc_field f).
Proof.
  assert (forall z : list Z, bytes_ok z /\ Zlen z <= SQLITE_MAX_LENGTH -> bytes_ok (varint (Zlen z) ++ z)).
  { intros z [Hz Hl]. apply bytes_ok_app. split; [apply varint_bytes, zlen_small|]; auto. }
  destruct f as [[| | | |]|]; cbn; intros Hf; rewrite ?bytes_ok_cons; unfold is_byte;
    try split; auto using putI64_bytes with noria; unfold SQLITE_NULL, SQLITE_INTEGER,
    SQLITE_FLOAT, SQLITE_TEXT, SQLITE_BLOB; lia.
Qed.

Lemma enc_fields_cons f fs : enc_fields (f :: fs) = enc_field f ++ enc_fields fs.
Proof. reflexivity. Qed.

Lemma enc_fields_app fs gs : enc_fields (fs ++ gs) = enc_fields fs ++ enc_fields gs.
Proof. unfold enc_fields. rewrite fmap_app, concat_app. reflexivity. Qed.

Lemma enc_fields_bytes fs : fields_ok fs -> bytes_ok (enc_fields fs).
Proof.
  induction 1; [constructor|]. rewrite enc_fields_cons. apply bytes_ok_app.
  auto using enc_field_bytes.
Qed.

Lemma enc_field_head f : exists t r, enc_field f = t :: r /\
  t = match f with Some v => sqlite3_value_type v | None => 0 end.
Proof. destruct f as [[| | | |]|]; cbn; eauto. Qed.

Lemma enc_field_pos f : 1 <= Zlen (enc_field f).
Proof. destruct (enc_field_head f) as (t & r & -> & _). zlia. Qed.

#[export] Hint Resolve enc_field_bytes enc_fields_bytes putI64_bytes zlen_small : noria.

Lemma enc_text_len (z : list Z) : Zlen z <= SQLITE_MAX_LENGTH ->
  is_i32 (1 + Zlen (varint (Zlen z)) + Zlen z).
Proof.
  intros H. pose proof (varint_bounds (Zlen z) (zlen_small z H)).
  unfold is_i32, SQLITE_MAX_LENGTH in *. zlia.
Qed.

Lemma enc_field_small f : field_ok f -> Zlen (enc_field f) <= SQLITE_MAX_LENGTH + 10.
Proof.
  assert (forall z : list Z, Zlen z <= SQLITE_MAX_LENGTH ->
    1 + Zlen (varint (Zlen z) ++ z) <= SQLITE_MAX_LENGTH + 10) as Hz.
  { intros z Hl. pose proof (varint_bounds (Zlen z) (zlen_small z Hl)). zlia. }
  destruct f as [[| | |z|z]|]; cbn [field_ok value_ok enc_field enc_value]; intros Hf;
    rewrite Zlen_cons, ?putI64_len, ?Zlen_nil; try (unfold SQLITE_MAX_LENGTH; lia); apply Hz, Hf.
Qed.

Lemma serialLen_enc f rest : field_ok f -> bytes_ok rest ->
  sessionSerialLen (enc_field f ++ rest) = Some (Zlen (enc_field f)).
Proof.
  intros Hf Hr.
  assert (forall z : list Z, bytes_ok z /\ Zlen z <= SQLITE_MAX_LENGTH ->
    ('(n, k) ← sessionVarintGet ((varint (Zlen z) ++ z) ++ rest); int_ok (k + 1 + n))
    = Some (1 + Zlen (varint (Zlen z) ++ z))) as Hz.
  { intros z [Hz Hl]. rewrite <- app_assoc, varint_get; auto using zlen_small.
    - cbn. rewrite int_ok_id; [f_equal; zlia|].
      pose proof (enc_text_len z Hl). replace (Zlen (varint (Zlen z)) + 1 + Zlen z)
        with (1 + Zlen (varint (Zlen z)) + Zlen z) by lia. assumption.
    - apply bytes_ok_app; auto. }
  destruct f as [[| | | |]|]; cbn [enc_field enc_value app]; try reflexivity;
    unfold sessionSerialLen; cbn [lookup list_lookup mbind option_bind drop];
    rewrite Zlen_cons; apply Hz, Hf.
Qed.

(** The bytes [sessionSerializeValue] stores for a string or blob at [z]. *)
Definition write_text (t : Z) (z : option (list Z)) (n : Z) : option (list Z) :=
  '(bs, _) ← sessionVarintPut n;
  w1 ← poke 1 bs [t];
  if 0 <? n then
    zz ← z; zn ← read_n n zz; poke (sessionVarintLen n + 1) zn w1
  else Some w1.

Lemma write_text_enc t (z : list Z) (oz : option (list Z)) :
  Zlen z <= SQLITE_MAX_LENGTH -> oz = Some z \/ (oz = None /\ z = []) ->
  write_text t oz (Zlen z) = Some (t :: varint (Zlen z) ++ z).
Proof.
  intros Hl Hoz. pose proof (zlen_small z Hl) as Hs. unfold write_text.
  rewrite varint_put, varint_len by auto. cbn [mbind option_bind].
  rewrite (poke_end _ [t]). cbn [mbind option_bind app].
  destruct z as [|b z].
  - cbn [Zlen length Z.of_nat Z.ltb Z.compare]. rewrite app_nil_r. reflexivity.
  - destruct Hoz as [-> | [_ ?]]; [|discriminate]. cbn [mbind option_bind].
    rewrite (proj2 (Z.ltb_lt _ _)) by zlia.
    rewrite read_n_all. cbn [mbind option_bind].
    replace (Zlen (varint (Zlen (b :: z))) + 1) with (Zlen (t :: varint (Zlen (b :: z)))) by zlia.
    rewrite poke_end. reflexivity.
Qed.

(** The sizing call and the writing call agree, and the bytes written are the
    reference encoding. *)
Lemma serialize_enc aBuf f : field_ok f ->
  sessionSerializeValue aBuf false f
  = Some (SQLITE_OK, if aBuf then enc_field f else [], Zlen (enc_field f)).
Proof.
  assert (forall t (z : list Z), Zlen z <= SQLITE_MAX_LENGTH ->
    (nByte ← int_ok (1 + sessionVarintLen (Zlen z) + Zlen z);
     Some (SQLITE_OK, if aBuf then t :: varint (Zlen z) ++ z else [], nByte))
    = Some (SQLITE_OK, if aBuf then t :: varint (Zlen z) ++ z else [],
            Zlen (t :: varint (Zlen z) ++ z))) as Hn.
  { intros t z Hl. rewrite varint_len, int_ok_id by eauto using enc_text_len with noria.
    cbn. do 2 f_equal. zlia. }
  intros Hf. destruct f as [v|]; [|destruct aBuf; reflexivity].
  destruct v as [|i|r|z|z]; try (destruct aBuf; reflexivity).
  - destruct aBuf; [|reflexivity]. cbn. rewrite i64_u64, <- (putI64_i64 i). reflexivity.
  - destruct aBuf; [|reflexivity]. cbn. rewrite putI64_i64. reflexivity.
  - destruct Hf as [Hz Hl]. cbn [enc_field enc_value]. rewrite <- (Hn SQLITE_TEXT z Hl). destruct aBuf; [|reflexivity].
    change (sessionSerializeValue true false (Some (VText z))) with
      (w ← write_text SQLITE_TEXT (Some z) (Zlen z);
       nByte ← int_ok (1 + sessionVarintLen (Zlen z) + Zlen z); Some (SQLITE_OK, w, nByte)).
    rewrite write_text_enc by auto. reflexivity.
  - destruct Hf as [Hz Hl]. cbn [enc_field enc_value]. rewrite <- (Hn SQLITE_BLOB z Hl).
    assert (sqlite3_value_blob (VBlob z) = Some z \/ sqlite3_value_blob (VBlob z) = None /\ z = []) as Hb.
    { cbn. destruct (truth_len z) as [-> | ->]; auto. }
    assert (sessionSerializeValue aBuf false (Some (VBlob z)) =
      (w ← (if aBuf then write_text SQLITE_BLOB (sqlite3_value_blob (VBlob z)) (Zlen z)
            else Some []);
       nByte ← int_ok (1 + sessionVarintLen (Zlen z) + Zlen z); Some (SQLITE_OK, w, nByte)))
      as ->.
    { destruct Hb as [Hb | [_ ->]]; [|destruct aBuf; reflexivity].
      unfold sessionSerializeValue. cbn [sqlite3_value_type]. rewrite Hb.
      destruct aBuf; reflexivity. }
    rewrite (write_text_enc SQLITE_BLOB z _ Hl Hb). destruct aBuf; reflexivity.
Qed.

(** ** Decoding is inverse to encoding *)

Definition dec_field (a : list Z) : option (option sqlite3_value * list Z) :=
  e ← a !! 0%nat;
  let a := drop 1 a in
  if e =? 0 then Some (None, a)
  else if e =? SQLITE_NULL then Some (Some VNull, a)
  else if e =? SQLITE_INTEGER then
    i ← sessionGetI64 a; a ← advance 8 a; Some (Some (VInt i), a)
  else if e =? SQLITE_FLOAT then
    i ← sessionGetI64 a; a ← advance 8 a; Some (Some (VReal (u64 i)), a)
  else
    '(n, k) ← sessionVarintGet a; a ← advance k a; z ← read_n n a; a ← advance n a;
    if e =? SQLITE_TEXT then Some (Some (VText z), a)
    else if e =? SQLITE_BLOB then Some (Some (VBlob z), a) else None.

Lemma text_get (z rest : list Z) : bytes_ok z /\ Zlen z <= SQLITE_MAX_LENGTH -> bytes_ok rest ->
  sessionVarintGet ((varint (Zlen z) ++ z) ++ rest) = Some (Zlen z, Zlen (varint (Zlen z))) /\
  advance (Zlen (varint (Zlen z))) ((varint (Zlen z) ++ z) ++ rest) = Some (z ++ rest).
Proof.
  intros [Hz Hl] Hr. rewrite <- app_assoc. split; [|apply advance_app].
  apply varint_get; auto with noria. apply bytes_ok_app; auto.
Qed.

Lemma i64_get (i : Z) rest :
  sessionGetI64 (sessionPutI64 i ++ rest) = Some (i64 i) /\
  advance 8 (sessionPutI64 i ++ rest) = Some rest.
Proof. split; [apply getI64_putI64|]. apply (advance_app (sessionPutI64 i)). Qed.

(** Rewrites the reads of the value whose encoding starts the buffer. *)
Ltac read_value :=
  first
    [ rewrite (proj1 (i64_get _ _)), (proj2 (i64_get _ _)); cbn [mbind option_bind]
    | match goal with
      | H : bytes_ok ?z /\ Zlen ?z <= SQLITE_MAX_LENGTH |- context [(varint (Zlen ?z) ++ ?z) ++ ?r] =>
          let G := fresh in let A := fresh in
          destruct (text_get z r H ltac:(assumption)) as [G A];
          rewrite G; cbn [mbind option_bind]; rewrite A; clear G A;
          cbn [mbind option_bind]
      end ].

Lemma u64_i64_id r : is_u64 r -> u64 (i64 r) = r.
Proof. intros H. rewrite u64_i64. apply u64_id, H. Qed.

Lemma dec_enc_field f rest : field_ok f -> bytes_ok rest ->
  dec_field (enc_field f ++ rest) = Some (f, rest).
Proof.
  intros Hf Hr. destruct f as [[|i|r|z|z]|]; cbn [field_ok value_ok] in Hf; try reflexivity;
    cbn [enc_field enc_value app]; unfold dec_field;
    cbn [lookup list_lookup mbind option_bind drop];
    cbn [Z.eqb Pos.eqb SQLITE_INTEGER SQLITE_FLOAT SQLITE_NULL SQLITE_TEXT SQLITE_BLOB];
    rewrite drop_0; read_value; rewrite ?read_n_app, ?advance_app; cbn [mbind option_bind].
  - rewrite i64_id by exact Hf. reflexivity.
  - rewrite u64_i64_id by apply Hf. reflexivity.
  - reflexivity.
  - reflexivity.
Qed.

Lemma enc_field_inj f g r s : field_ok f -> field_ok g -> bytes_ok r -> bytes_ok s ->
  enc_field f ++ r = enc_field g ++ s -> f = g /\ r = s.
Proof.
  intros Hf Hg Hr Hs E. pose proof (dec_enc_field f r Hf Hr) as D.
  rewrite E, dec_enc_field in D by auto. injection D as -> ->. auto.
Qed.

Lemma enc_field_eq f g : field_ok f -> field_ok g -> enc_field f = enc_field g <-> f = g.
Proof.
  intros Hf Hg. split; [intros E|intros ->; reflexivity].
  apply (enc_field_inj f g [] []); auto with noria. rewrite !app_nil_r. exact E.
Qed.

(** ** Walking over a record *)

Lemma fields_ok_cons f fs : fields_ok (f :: fs) <-> field_ok f /\ fields_ok fs.
Proof. apply Forall_cons. Qed.

Lemma enc_fields_step f fs rest : enc_fields (f :: fs) ++ rest = enc_field f ++ (enc_fields fs ++ rest).
Proof. rewrite enc_fields_cons, app_assoc. reflexivity. Qed.

Lemma bytes_ok_rest fs rest : fields_ok fs -> bytes_ok rest -> bytes_ok (enc_fields fs ++ rest).
Proof. intros. apply bytes_ok_app; auto with noria. Qed.

#[export] Hint Resolve bytes_ok_rest : noria.

(** The reference hash of a value and of the key columns of a record. *)
Definition hash_value (h : Z) (v : sqlite3_value) : Z :=
  let h := sessionHashAppendType h (sqlite3_value_type v) in
  match v with
  | VInt i => sessionHashAppendI64 h i
  | VReal r => sessionHashAppendI64 h (i64 r)
  | VText z | VBlob z => sessionHashAppendBlob h z
  | VNull => h
  end.

(** Selects the entries of the key columns. *)
Fixpoint pk_part {A} (pks : list Z) (l : list A) : list A :=
  match pks, l with
  | pk :: pks, x :: l => if truth pk then x :: pk_part pks l else pk_part pks l
  | _, _ => []
  end.

Definition key_ok (v : sqlite3_value) : Prop := value_ok v /\ v <> VNull.

Definition hash_key (h : Z) (key : list sqlite3_value) : Z := fold_left hash_value key h.

(** A record whose key columns hold [key]. *)
Definition has_key (pks : list Z) (fs : list (option sqlite3_value)) (key : list sqlite3_value) : Prop :=
  pk_part pks fs = Some <$> key.

Lemma changeHash_loop_enc pks fs key h rest :
  length pks = length fs -> fields_ok fs -> bytes_ok rest ->
  has_key pks fs key -> Forall key_ok key ->
  sessionChangeHash_loop false pks h (enc_fields fs ++ rest) = Some (hash_key h key).
Proof.
  unfold has_key. revert fs key h.
  induction pks as [|pk pks IH]; intros [|f fs] key h Hlen Hfs Hr Hk Hok; try discriminate.
  { destruct key; [reflexivity|discriminate]. }
  apply fields_ok_cons in Hfs as [Hf Hfs]. injection Hlen as Hlen.
  rewrite enc_fields_step. cbn [sessionChangeHash_loop pk_part] in *.
  destruct (enc_field_head f) as (t & tl & Et & Ht). rewrite Et. cbn [app lookup list_lookup mbind option_bind andb].
  destruct (truth pk).
  - destruct key as [|v key]; [discriminate|]. injection Hk as -> Hk.
    apply Forall_cons in Hok as [[Hv Hn] Hok].
    destruct v as [|i|r|z|z]; [congruence|..]; cbn [enc_field enc_value] in Et; cbn [field_ok value_ok] in Hf; injection Et as <- <-; cbn in Ht;
      cbn [drop app]; rewrite drop_0; cbn [Z.eqb Pos.eqb SQLITE_INTEGER SQLITE_FLOAT SQLITE_NULL SQLITE_TEXT SQLITE_BLOB orb].
    1,2: rewrite (proj1 (i64_get _ _)), (proj2 (i64_get _ _)); cbn [mbind option_bind]; rewrite IH with (key := key) by auto; cbn; rewrite ?i64_id by exact Hf; reflexivity.
    all: destruct (text_get z (enc_fields fs ++ rest) Hf ltac:(auto with noria)) as [G A];
      rewrite G; cbn [mbind option_bind]; rewrite A; cbn [mbind option_bind];
      rewrite Z.max_r by apply Zlen_nonneg; rewrite read_n_app, advance_app; cbn [mbind option_bind];
      rewrite IH with (key := key) by auto; reflexivity.
  - rewrite app_comm_cons, <- Et, serialLen_enc by auto with noria. cbn [mbind option_bind].
    rewrite advance_app. cbn [mbind option_bind]. apply IH; auto.
Qed.

(** ** Comparison and merging on encoded records *)

Lemma changeEqual_loop_enc pks fs gs r s :
  length pks = length fs -> length pks = length gs ->
  fields_ok fs -> fields_ok gs -> bytes_ok r -> bytes_ok s ->
  sessionChangeEqual_loop pks false false (enc_fields fs ++ r) (enc_fields gs ++ s)
  = Some (bool_decide (pk_part pks fs = pk_part pks gs)).
Proof.
  revert fs gs. induction pks as [|pk pks IH]; intros [|f fs] [|g gs] L1 L2 Hfs Hgs Hr Hs;
    try discriminate; [reflexivity|].
  injection L1 as L1. injection L2 as L2.
  apply fields_ok_cons in Hfs as [Hf Hfs]. apply fields_ok_cons in Hgs as [Hg Hgs].
  rewrite !enc_fields_step. cbn [sessionChangeEqual_loop pk_part].
  rewrite !serialLen_enc by auto with noria. cbn [mbind option_bind].
  destruct (truth pk); [|rewrite !advance_app; cbn [mbind option_bind]; apply IH; auto].
  destruct (Z.eqb_spec (Zlen (enc_field f)) (Zlen (enc_field g))) as [E|E]; cbn [negb].
  - rewrite read_n_app, (read_n_app' _ (enc_field g)) by auto. cbn [mbind option_bind].
    destruct (bool_decide_reflect (enc_field f = enc_field g)) as [->%enc_field_eq|N]; auto; cbn [negb].
    + rewrite !advance_app. cbn [mbind option_bind]. rewrite IH by auto.
      f_equal. apply bool_decide_ext. split; [intros ->; reflexivity|congruence].
    + rewrite bool_decide_false; [reflexivity|]. congruence.
  - rewrite bool_decide_false; [reflexivity|]. congruence.
Qed.

(** Later values win; [None] leaves the earlier one. *)
Definition merge_field (f g : option sqlite3_value) : option sqlite3_value :=
  match g with Some v => Some v | None => f end.

Lemma enc_field_truth f rest :
  exists t, (enc_field f ++ rest) !! 0%nat = Some t /\
  truth t = match f with Some _ => true | None => false end.
Proof.
  destruct (enc_field_head f) as (t & tl & E & Ht). exists t. rewrite E.
  split; [reflexivity|]. rewrite Ht. destruct f as [[]|]; reflexivity.
Qed.

Lemma mergeRecord_enc fs gs r s :
  length fs = length gs -> fields_ok fs -> fields_ok gs -> bytes_ok r -> bytes_ok s ->
  sessionMergeRecord (length fs) (enc_fields fs ++ r) (enc_fields gs ++ s)
  = Some (enc_fields (zip_with merge_field fs gs)).
Proof.
  revert gs. induction fs as [|f fs IH]; intros [|g gs] L Hfs Hgs Hr Hs; try discriminate; [reflexivity|].
  injection L as L. apply fields_ok_cons in Hfs as [Hf Hfs]. apply fields_ok_cons in Hgs as [Hg Hgs].
  rewrite !enc_fields_step. cbn [length sessionMergeRecord].
  rewrite !serialLen_enc by auto with noria. cbn [mbind option_bind].
  destruct (enc_field_truth g (enc_fields gs ++ s)) as (t & -> & Ht). cbn [mbind option_bind].
  rewrite Ht, !read_n_app, !advance_app. destruct g; cbn [mbind option_bind];
    rewrite IH by auto; reflexivity.
Qed.

(** The second operand of [sessionMergeValue] is a record or the null pointer. *)
Definition opt_enc (fs : option (list (option sqlite3_value))) (rest : list Z) : option (list Z) :=
  fs ← fs; Some (enc_fields fs ++ rest).

Definition opt_ok (n : nat) (fs : option (list (option sqlite3_value))) : Prop :=
  match fs with Some fs => length fs = n /\ fields_ok fs | None => True end.

Definition opt_head (fs : option (list (option sqlite3_value))) : option sqlite3_value :=
  match fs with Some (f :: _) => f | _ => None end.

Definition opt_tail (fs : option (list (option sqlite3_value))) : option (list (option sqlite3_value)) :=
  match fs with Some (_ :: fs) => Some fs | _ => None end.

Lemma opt_ok_step n fs : opt_ok (S n) fs -> field_ok (opt_head fs) /\ opt_ok n (opt_tail fs).
Proof.
  destruct fs as [[|f fs]|]; cbn; [intros [? _]; discriminate| |auto].
  intros [L H]. apply fields_ok_cons in H as [Hf Hfs]. auto.
Qed.

Lemma mergeValue_enc n f fs gs r s :
  field_ok f -> fields_ok fs -> opt_ok (S n) gs -> bytes_ok r -> bytes_ok s ->
  sessionMergeValue (enc_fields (f :: fs) ++ r) (opt_enc gs s)
  = Some (enc_field (merge_field f (opt_head gs)), enc_fields fs ++ r, opt_enc (opt_tail gs) s).
Proof.
  intros Hf Hfs Hgs Hr Hs. unfold sessionMergeValue. rewrite enc_fields_step.
  destruct gs as [[|g gs]|]; cbn [opt_enc mbind option_bind opt_head opt_tail];
    [destruct Hgs; discriminate| |].
  - destruct Hgs as [_ Hgs]. apply fields_ok_cons in Hgs as [Hg Hgs].
    rewrite enc_fields_step, !serialLen_enc by auto with noria. cbn [mbind option_bind].
    destruct (enc_field_truth g (enc_fields gs ++ s)) as (t & -> & Ht). cbn [mbind option_bind].
    rewrite Ht, read_n_app, advance_app. destruct g; cbn [mbind option_bind];
      rewrite ?serialLen_enc by auto with noria; cbn [mbind option_bind];
      rewrite ?read_n_app, advance_app; reflexivity.
  - rewrite serialLen_enc by auto with noria. cbn [mbind option_bind].
    rewrite read_n_app, advance_app. reflexivity.
Qed.

(** Reference result of merging two UPDATEs of one row: the merged old and new
    values, reduced to the key and to the columns that differ. *)
Fixpoint merged (fs : list (option sqlite3_value)) (gs : option (list (option sqlite3_value))) : list (option sqlite3_value) :=
  match fs with
  | [] => []
  | f :: fs => merge_field f (opt_head gs) :: merged fs (opt_tail gs)
  end.

Fixpoint diff_old (pks : list Z) (os ns : list (option sqlite3_value)) : list (option sqlite3_value) :=
  match pks, os, ns with
  | pk :: pks, o :: os, n :: ns =>
      (if truth pk || negb (bool_decide (o = n)) then o else None) :: diff_old pks os ns
  | _, _, _ => []
  end.

Fixpoint diff_new (pks : list Z) (os ns : list (option sqlite3_value)) : list (option sqlite3_value) :=
  match pks, os, ns with
  | pk :: pks, o :: os, n :: ns =>
      (if truth pk || bool_decide (o = n) then None else n) :: diff_new pks os ns
  | _, _, _ => []
  end.

(** Some column outside the key differs. *)
Fixpoint differs (pks : list Z) (os ns : list (option sqlite3_value)) : bool :=
  match pks, os, ns with
  | pk :: pks, o :: os, n :: ns =>
      (negb (truth pk) && negb (bool_decide (o = n))) || differs pks os ns
  | _, _, _ => false
  end.

Lemma merge_field_ok f g : field_ok f -> field_ok g -> field_ok (merge_field f g).
Proof. destruct g; auto. Qed.

#[export] Hint Resolve merge_field_ok : noria.

Lemma enc_neq f g : field_ok f -> field_ok g ->
  negb (Zlen (enc_field f) =? Zlen (enc_field g)) || negb (bool_decide (enc_field f = enc_field g))
  = negb (bool_decide (f = g)).
Proof.
  intros Hf Hg. rewrite <- negb_andb. f_equal.
  rewrite (bool_decide_ext _ _ (enc_field_eq f g Hf Hg)).
  destruct (bool_decide_reflect (f = g)) as [->|]; [|apply andb_false_r].
  rewrite Z.eqb_refl. reflexivity.
Qed.

Lemma mergeUpdate_old_enc pks os os2 ns ns2 ro ro2 rn rn2 b :
  length os = length pks -> length ns = length pks ->
  opt_ok (length pks) os2 -> opt_ok (length pks) ns2 -> fields_ok os -> fields_ok ns ->
  bytes_ok ro -> bytes_ok ro2 -> bytes_ok rn -> bytes_ok rn2 ->
  sessionMergeUpdate_old pks (enc_fields os ++ ro) (opt_enc os2 ro2)
    (enc_fields ns ++ rn) (opt_enc ns2 rn2) b
  = Some (enc_fields (diff_old pks (merged os os2) (merged ns ns2)),
          b || differs pks (merged os os2) (merged ns ns2)).
Proof.
  revert os os2 ns ns2 b.
  induction pks as [|pk pks IH]; intros [|o os] os2 [|n ns] ns2 b L1 L2 Ho2 Hn2 Ho Hn R1 R2 R3 R4;
    try discriminate; cbn [sessionMergeUpdate_old merged diff_old differs].
  { rewrite orb_false_r. reflexivity. }
  injection L1 as L1. injection L2 as L2.
  apply fields_ok_cons in Ho as [Ho Hos]. apply fields_ok_cons in Hn as [Hn Hns].
  apply opt_ok_step in Ho2 as Ho2', Hn2 as Hn2'. destruct Ho2' as [? ?], Hn2' as [? ?].
  rewrite (mergeValue_enc (length pks)) by auto. cbn [mbind option_bind].
  rewrite (mergeValue_enc (length pks)) by auto. cbn [mbind option_bind].
  rewrite <- orb_assoc, enc_neq, IH by auto with noria. cbn [mbind option_bind].
  destruct (truth pk), (bool_decide_reflect (merge_field o (opt_head os2) = merge_field n (opt_head ns2)));
    cbn [orb andb negb]; rewrite ?orb_true_r; reflexivity.
Qed.

Lemma mergeUpdate_new_enc pks os os2 ns ns2 ro ro2 rn rn2 :
  length os = length pks -> length ns = length pks ->
  opt_ok (length pks) os2 -> opt_ok (length pks) ns2 -> fields_ok os -> fields_ok ns ->
  bytes_ok ro -> bytes_ok ro2 -> bytes_ok rn -> bytes_ok rn2 ->
  sessionMergeUpdate_new pks false (enc_fields os ++ ro) (opt_enc os2 ro2)
    (enc_fields ns ++ rn) (opt_enc ns2 rn2)
  = Some (enc_fields (diff_new pks (merged os os2) (merged ns ns2))).
Proof.
  revert os os2 ns ns2.
  induction pks as [|pk pks IH]; intros [|o os] os2 [|n ns] ns2 L1 L2 Ho2 Hn2 Ho Hn R1 R2 R3 R4;
    try discriminate; cbn [sessionMergeUpdate_new merged diff_new]; [reflexivity|].
  injection L1 as L1. injection L2 as L2.
  apply fields_ok_cons in Ho as [Ho Hos]. apply fields_ok_cons in Hn as [Hn Hns].
  apply opt_ok_step in Ho2 as Ho2', Hn2 as Hn2'. destruct Ho2' as [? ?], Hn2' as [? ?].
  rewrite (mergeValue_enc (length pks)) by auto. cbn [mbind option_bind].
  rewrite (mergeValue_enc (length pks)) by auto. cbn [mbind option_bind].
  rewrite IH by auto. cbn [mbind option_bind negb andb].
  pose proof (enc_neq (merge_field o (opt_head os2)) (merge_field n (opt_head ns2))
    ltac:(auto with noria) ltac:(auto with noria)) as E.
  rewrite <- negb_andb in E. apply negb_sym in E. rewrite negb_involutive in E.
  rewrite <- E. destruct (truth pk), (bool_decide _); reflexivity.
Qed.
