(* ===== verification/Strings.v ===== *)
(** * C strings

    The string helpers of SQLite the session extension uses on names.  A
    nul-terminated string is the list of its bytes before the terminator. *)
From S2P Require Import Prelude.
From stdpp Require Import strings.

Local Open Scope Z_scope.

(** Bytes of a literal. *)
Definition str (s : string) : list Z :=
  (fun c => Z.of_nat (Ascii.nat_of_ascii c)) <$> String.list_ascii_of_string s.

Arguments str s%_string.

Definition cstring (z : list Z) : Prop := Forall (fun c => 0 < c < 256) z.

(** The byte at the start of a string, the terminator included. *)
Definition first (z : list Z) : Z := match z with [] => 0 | c :: _ => c end.

Definition sqlite3Strlen30 (z : list Z) : Z := Z.land 0x3fffffff (i32 (Zlen z)).

(** The table [sqlite3UpperToLower] (ASCII). *)
Definition sqlite3UpperToLower (c : Z) : Z :=
  if (65 <=? c) && (c <=? 90) then c + 32 else c.

Fixpoint sqlite3StrICmp (a b : list Z) : Z :=
  match a with
  | [] => sqlite3UpperToLower 0 - sqlite3UpperToLower (first b)
  | c :: a' =>
      let x := first b in
      if c =? x then sqlite3StrICmp a' (tail b)
      else let d := sqlite3UpperToLower c - sqlite3UpperToLower x in
           if truth d then d else sqlite3StrICmp a' (tail b)
  end.

(** [sqlite3_strnicmp] on non-null pointers. *)
Fixpoint sqlite3_strnicmp (a b : list Z) (N : nat) : Z :=
  match N with
  | O => 0
  | S N =>
      match a with
      | [] => sqlite3UpperToLower 0 - sqlite3UpperToLower (first b)
      | c :: a' =>
          if sqlite3UpperToLower c =? sqlite3UpperToLower (first b)
          then sqlite3_strnicmp a' (tail b) N
          else sqlite3UpperToLower c - sqlite3UpperToLower (first b)
      end
  end.

(** Decimal text of a non-negative integer (conversion [%d]). *)
Fixpoint decimal_loop (fuel : nat) (n : Z) (acc : list Z) : list Z :=
  match fuel with
  | O => acc
  | S fuel =>
      let acc := (48 + n mod 10) :: acc in
      if n / 10 =? 0 then acc else decimal_loop fuel (n / 10) acc
  end.

Definition decimal (n : Z) : list Z := decimal_loop 20 n [].

(** Conversions [%w] and [%Q] of [sqlite3_mprintf]: the text with the quote
    character doubled, for [%Q] between single quotes. *)
Definition double_quote (q : Z) (z : list Z) : list Z :=
  concat ((fun c => if c =? q then [q; q] else [c]) <$> z).

Definition fmt_w (z : list Z) : list Z := double_quote 34 z.
Definition fmt_Q (z : list Z) : list Z := [39] ++ double_quote 39 z ++ [39].

(** ** Comparison is equality up to ASCII case *)

Definition lower (z : list Z) : list Z := sqlite3UpperToLower <$> z.

Lemma lower_pos c : 0 < c -> 0 < sqlite3UpperToLower c.
Proof. unfold sqlite3UpperToLower. destruct (_ && _); lia. Qed.

Lemma lower_zero : sqlite3UpperToLower 0 = 0.
Proof. reflexivity. Qed.

Lemma cstring_cons c z : cstring (c :: z) <-> 0 < c < 256 /\ cstring z.
Proof. split; [inversion 1; auto|intros []; constructor; auto]. Qed.

Lemma stricmp_spec a b : cstring a -> cstring b ->
  sqlite3StrICmp a b = 0 <-> lower a = lower b.
Proof.
  revert b. induction a as [|c a IH]; intros [|x b] Ha Hb; cbn [sqlite3StrICmp first tail lower].
  - done.
  - apply cstring_cons in Hb as [Hx _]. pose proof (lower_pos x ltac:(lia)).
    rewrite lower_zero. cbn. split; [lia|discriminate].
  - apply cstring_cons in Ha as [Hc _]. pose proof (lower_pos c ltac:(lia)).
    destruct (Z.eqb_spec c 0); [lia|]. rewrite lower_zero. unfold truth.
    destruct (Z.eqb_spec (sqlite3UpperToLower c - 0) 0); cbn; split; (lia || discriminate).
  - apply cstring_cons in Ha as [Hc Ha]. apply cstring_cons in Hb as [Hx Hb].
    specialize (IH b Ha Hb). cbn. unfold lower in IH. unfold truth.
    destruct (Z.eqb_spec c x) as [->|N].
    { rewrite IH. split; [intros ->; done|congruence]. }
    destruct (Z.eqb_spec (sqlite3UpperToLower c - sqlite3UpperToLower x) 0); cbn [negb].
    + rewrite IH. split; [intros ->; f_equal; lia|congruence].
    + split; [lia|intros E; exfalso; injection E; lia].
Qed.

(** Comparing one byte more than the length of [b] compares the terminators. *)
Lemma strnicmp_spec a b : cstring a -> cstring b ->
  sqlite3_strnicmp a b (S (length b)) = 0 <-> lower a = lower b.
Proof.
  revert b. induction a as [|c a IH]; intros [|x b] Ha Hb; cbn [sqlite3_strnicmp first tail lower length].
  - done.
  - apply cstring_cons in Hb as [Hx _]. pose proof (lower_pos x ltac:(lia)).
    rewrite lower_zero. cbn. split; [lia|discriminate].
  - apply cstring_cons in Ha as [Hc _]. pose proof (lower_pos c ltac:(lia)).
    rewrite lower_zero. destruct (Z.eqb_spec (sqlite3UpperToLower c) 0); [lia|].
    split; [lia|discriminate].
  - apply cstring_cons in Ha as [Hc Ha]. apply cstring_cons in Hb as [Hx Hb].
    destruct (Z.eqb_spec (sqlite3UpperToLower c) (sqlite3UpperToLower x)) as [E|N].
    + rewrite (IH b Ha Hb). cbn. rewrite E. unfold lower. split; [intros ->; done|congruence].
    + split; [lia|intros E; exfalso; injection E; lia].
Qed.
