(* ===== verification/Buffer.v ===== *)
(** * Growable output buffers ([SessionBuffer])

    A buffer is its written part [aBuf] (so [nBuf] is its length) and the size
    of the allocation.  A store outside the allocation is undefined ([None]);
    [realloc] is the allocator: whether a reallocation to a given size
    succeeds.  The error code [*pRc] is threaded through. *)
From S2P Require Import Prelude Bits Varint Value Record Strings.

Record SessionBuffer := mkBuffer { aBuf : list Z; nAlloc : Z }.

Definition nBuf (p : SessionBuffer) : Z := Zlen (aBuf p).

Definition empty_buffer : SessionBuffer := mkBuffer [] 0.

Definition SESSION_MAX_BUFFER_SZ : Z := 0x7FFFFF00 - 1.

(** Stores [bs] at [&p->aBuf[p->nBuf]], followed by [extra] bytes that stay
    outside the written part (a nul terminator). *)
Definition store (p : SessionBuffer) (bs : list Z) (extra : Z) : option SessionBuffer :=
  if nBuf p + Zlen bs + extra <=? nAlloc p
  then Some (mkBuffer (aBuf p ++ bs) (nAlloc p)) else None.

(** [do { nNew = nNew*2; } while( nNew<nReq )] *)
Fixpoint grow_loop (fuel : nat) (nNew nReq : Z) : option Z :=
  match fuel with
  | O => None
  | S fuel =>
      let nNew := nNew * 2 in
      if nNew <? nReq then grow_loop fuel nNew nReq else Some nNew
  end.

(** [sessionBufferGrow]: the buffer and the new value of [*pRc]; the return
    value of the function is [*pRc!=SQLITE_OK]. *)
Definition sessionBufferGrow (realloc : Z -> bool) (p : SessionBuffer) (nByte rc : Z)
    : option (SessionBuffer * Z) :=
  let nReq := nBuf p + nByte in
  if (rc =? SQLITE_OK) && (nAlloc p <? nReq) then
    nNew ← grow_loop 64 (if truth (nAlloc p) then nAlloc p else 128) nReq;
    let big := SESSION_MAX_BUFFER_SZ <? nNew in
    let nNew := if big then SESSION_MAX_BUFFER_SZ else nNew in
    if big && (nNew <? nReq) then Some (p, SQLITE_NOMEM)
    else if realloc nNew then Some (mkBuffer (aBuf p) nNew, rc)
    else Some (p, SQLITE_NOMEM)
  else Some (p, rc).

Definition sessionAppendStr (realloc : Z -> bool) (p : SessionBuffer) (zStr : list Z) (rc : Z)
    : option (SessionBuffer * Z) :=
  let nStr := sqlite3Strlen30 zStr in
  '(p, rc) ← sessionBufferGrow realloc p (nStr + 1) rc;
  if rc =? SQLITE_OK then
    zs ← read_n nStr zStr; p ← store p zs 1; Some (p, rc)
  else Some (p, rc).

(** [sessionAppendPrintf] on the formatted text; [fmt] says whether
    [sqlite3_vmprintf] can allocate it. *)
Definition sessionAppendPrintf (realloc : Z -> bool) (fmt : list Z -> bool) (p : SessionBuffer)
    (zApp : list Z) (rc : Z) : option (SessionBuffer * Z) :=
  if rc =? SQLITE_OK then
    if negb (fmt zApp) then Some (p, SQLITE_NOMEM)
    else sessionAppendStr realloc p zApp rc
  else Some (p, rc).

Definition sessionAppendByte (realloc : Z -> bool) (p : SessionBuffer) (v rc : Z)
    : option (SessionBuffer * Z) :=
  '(p, rc) ← sessionBufferGrow realloc p 1 rc;
  if rc =? SQLITE_OK then p ← store p [u8 v] 0; Some (p, rc) else Some (p, rc).

Definition sessionAppendVarint (realloc : Z -> bool) (p : SessionBuffer) (v rc : Z)
    : option (SessionBuffer * Z) :=
  '(p, rc) ← sessionBufferGrow realloc p 9 rc;
  if rc =? SQLITE_OK then
    '(bs, _) ← sessionVarintPut v; p ← store p bs 0; Some (p, rc)
  else Some (p, rc).

(** [aBlob] may be null when [nBlob] is zero. *)
Definition sessionAppendBlob (realloc : Z -> bool) (p : SessionBuffer)
    (aBlob : option (list Z)) (nBlob rc : Z) : option (SessionBuffer * Z) :=
  if 0 <? nBlob then
    '(p, rc) ← sessionBufferGrow realloc p nBlob rc;
    if rc =? SQLITE_OK then
      z ← aBlob; bs ← read_n nBlob z; p ← store p bs 0; Some (p, rc)
    else Some (p, rc)
  else Some (p, rc).

(** [sessionAppendValue]; [utf8_oom] as in [sessionSerializeValue]. *)
Definition sessionAppendValue (realloc : Z -> bool) (p : SessionBuffer)
    (pVal : option sqlite3_value) (utf8_oom : bool) (pRc : Z) : option (SessionBuffer * Z) :=
  if pRc =? SQLITE_OK then
    '(rc, _, nByte) ← sessionSerializeValue false utf8_oom pVal;
    '(p, rc) ← sessionBufferGrow realloc p nByte rc;
    if rc =? SQLITE_OK then
      '(_, bs, _) ← sessionSerializeValue true utf8_oom pVal;
      p ← store p bs 0; Some (p, pRc)
    else Some (p, rc)
  else Some (p, pRc).

(** The two loops of [sessionAppendIdent] on the characters of the name. *)
Definition quote_body (zIn : list Z) : list Z :=
  concat ((fun c => if c =? 34 then [34; 34] else [c]) <$> zIn).

Definition sessionAppendIdent (realloc : Z -> bool) (p : SessionBuffer) (zStr : list Z) (rc : Z)
    : option (SessionBuffer * Z) :=
  nStr ← int_ok (sqlite3Strlen30 zStr * 2 + 2 + 2);
  '(p, rc) ← sessionBufferGrow realloc p nStr rc;
  if rc =? SQLITE_OK then
    p ← store p ([34] ++ quote_body zStr ++ [34]) 1; Some (p, rc)
  else Some (p, rc).

(** [sessionAppendCol] on the value [v] of the current row. *)
Definition sessionAppendCol (realloc : Z -> bool) (p : SessionBuffer) (v : sqlite3_value)
    (utf8_oom : bool) (rc : Z) : option (SessionBuffer * Z) :=
  if rc =? SQLITE_OK then
    let eType := sqlite3_value_type v in
    '(p, rc) ← sessionAppendByte realloc p eType rc;
    '(p, rc) ←
      (if (eType =? SQLITE_INTEGER) || (eType =? SQLITE_FLOAT) then
         let i := if eType =? SQLITE_INTEGER then sqlite3_value_int64 v
                  else i64 (sqlite3_value_double v) in
         sessionAppendBlob realloc p (Some (sessionPutI64 i)) 8 rc
       else Some (p, rc));
    if (eType =? SQLITE_BLOB) || (eType =? SQLITE_TEXT) then
      let z := if eType =? SQLITE_BLOB then sqlite3_value_blob v
               else if utf8_oom then None else sqlite3_value_text v in
      let nByte := sqlite3_value_bytes v in
      if bool_decide (is_Some z) || ((eType =? SQLITE_BLOB) && (nByte =? 0)) then
        '(p, rc) ← sessionAppendVarint realloc p nByte rc;
        sessionAppendBlob realloc p z nByte rc
      else Some (p, SQLITE_NOMEM)
    else Some (p, rc)
  else Some (p, rc).

(** ** Specification

    [appends] says what every routine above does to the buffer: no store is
    out of bounds; on success exactly [bs] has been added; an error leaves
    what was there; and it succeeds when memory is available and the result
    is at most [SESSION_MAX_BUFFER_SZ] (with the slack of one varint). *)

Record buffer_ok (p : SessionBuffer) : Prop := {
  ok_alloc : nBuf p <= nAlloc p;
  ok_max : nAlloc p <= SESSION_MAX_BUFFER_SZ
}.

Definition fits (p : SessionBuffer) (n : Z) : Prop := nBuf p + n + 16 <= SESSION_MAX_BUFFER_SZ.

Definition appends (realloc : Z -> bool) (p : SessionBuffer) (rc : Z) (bs : list Z)
    (r : option (SessionBuffer * Z)) : Prop :=
  exists p' rc', r = Some (p', rc') /\ buffer_ok p' /\ aBuf p `prefix_of` aBuf p' /\
    (rc' = SQLITE_OK -> rc = SQLITE_OK /\ aBuf p' = aBuf p ++ bs) /\
    (rc = SQLITE_OK -> (forall n, realloc n = true) -> fits p (Zlen bs) -> rc' = SQLITE_OK).

Lemma empty_buffer_ok : buffer_ok empty_buffer.
Proof. split; vm_compute; discriminate. Qed.

#[export] Hint Resolve empty_buffer_ok : noria.

Lemma grow_loop_spec fuel n req :
  1 <= n -> req < n * 2 ^ Z.of_nat fuel -> (fuel <> 0)%nat ->
  exists m, grow_loop fuel n req = Some m /\ req <= m /\ 2 * n <= m.
Proof.
  revert n. induction fuel as [|fuel IH]; intros n Hn Hr Hf; [done|].
  cbn [grow_loop]. destruct (Z.ltb_spec (n * 2) req); [|exists (n * 2); split_and!; auto; lia].
  rewrite Nat2Z.inj_succ, Z.pow_succ_r in Hr by lia.
  destruct fuel; [cbn in Hr; lia|].
  destruct (IH (n * 2)) as (m & -> & ? & ?); [lia|lia|done|].
  exists m. split_and!; auto; lia.
Qed.

(** What [sessionBufferGrow] promises to the routines that store. *)
Lemma bufferGrow_spec realloc p nByte rc :
  buffer_ok p -> 0 <= nByte < 2 ^ 32 ->
  exists p' rc', sessionBufferGrow realloc p nByte rc = Some (p', rc') /\
    buffer_ok p' /\ aBuf p' = aBuf p /\
    (rc' = SQLITE_OK -> rc = SQLITE_OK /\ nBuf p + nByte <= nAlloc p') /\
    (rc = SQLITE_OK -> (forall n, realloc n = true) -> nBuf p + nByte <= SESSION_MAX_BUFFER_SZ -> rc' = SQLITE_OK).
Proof.
  intros Hp Hn. pose proof (ok_alloc _ Hp) as Ha. pose proof (ok_max _ Hp) as Hm.
  pose proof (Zlen_nonneg (aBuf p)) as Hb. fold (nBuf p) in Hb.
  unfold SESSION_MAX_BUFFER_SZ in *.
  unfold sessionBufferGrow. destruct (Z.eqb_spec rc SQLITE_OK) as [->|Hrc]; cbn [andb].
  2: { exists p, rc. split_and!; auto; intros; congruence. }
  destruct (Z.ltb_spec (nAlloc p) (nBuf p + nByte)).
  2: { exists p, SQLITE_OK. split_and!; auto. }
  destruct (grow_loop_spec 64 (if truth (nAlloc p) then nAlloc p else 128) (nBuf p + nByte))
    as (m & -> & Hm1 & Hm2); try done.
  { unfold truth. destruct (Z.eqb_spec (nAlloc p) 0); cbn; lia. }
  { unfold truth. destruct (Z.eqb_spec (nAlloc p) 0); cbn; lia. }
  cbn [mbind option_bind]. unfold SESSION_MAX_BUFFER_SZ.
  set (big := _ <? m). set (n := if big then _ else m).
  assert (n <= 0x7FFFFF00 - 1 /\ (big = false -> nBuf p + nByte <= n) /\ (big = true -> n = 0x7FFFFF00 - 1)) as (Hn1 & Hn2 & Hn3).
  { unfold n, big. destruct (Z.ltb_spec (0x7FFFFF00 - 1) m); split_and!; intros; try discriminate; lia. }
  destruct (Z.ltb_spec n (nBuf p + nByte)); destruct big; cbn [andb];
    [exists p, SQLITE_NOMEM; split_and!; auto; (discriminate || lia) | lia | ..];
    (destruct (realloc n) eqn:Hre; [exists (mkBuffer (aBuf p) n), SQLITE_OK | exists p, SQLITE_NOMEM]);
    split_and!; auto; try discriminate; try (split; unfold nBuf, SESSION_MAX_BUFFER_SZ in *; cbn; lia);
    try (intros _ Hall _; rewrite Hall in Hre; discriminate);
    intros _; split; auto; cbn; lia.
Qed.

(** Growing by [n] and storing at most [n] bytes appends. *)
Lemma grow_store realloc p n rc bs extra k :
  buffer_ok p -> 0 <= extra -> Zlen bs + extra <= n < 2 ^ 32 -> n <= Zlen bs + 16 ->
  (forall p' rc', aBuf p' = aBuf p ->
     k p' rc' = if rc' =? SQLITE_OK then p' ← store p' bs extra; Some (p', rc') else Some (p', rc')) ->
  appends realloc p rc bs ('(p', rc') ← sessionBufferGrow realloc p n rc; k p' rc').
Proof.
  intros Hp He Hn Hs Hk. pose proof (Zlen_nonneg bs).
  destruct (bufferGrow_spec realloc p n rc Hp ltac:(lia)) as (p1 & rc1 & -> & Hp1 & E1 & Hok & Hsuc).
  cbn [mbind option_bind]. rewrite Hk by exact E1.
  destruct (Z.eqb_spec rc1 SQLITE_OK) as [->|N].
  - destruct (Hok eq_refl) as [-> Hroom]. unfold store, nBuf in *. rewrite E1.
    rewrite (proj2 (Z.leb_le _ _)) by lia. cbn [mbind option_bind].
    eexists _, _. split; [reflexivity|]. cbn. split_and!; auto.
    + split; unfold nBuf; cbn; [rewrite Zlen_app; lia|apply Hp1].
    + exists bs. reflexivity.
  - exists p1, rc1. split_and!; auto.
    + rewrite E1. reflexivity.
    + congruence.
    + intros -> Hall Hfit. apply Hsuc; auto. unfold fits in Hfit. lia.
Qed.

Lemma appends_ret realloc p rc : buffer_ok p -> appends realloc p rc [] (Some (p, rc)).
Proof.
  intros Hp. exists p, rc. rewrite app_nil_r. split_and!; auto.
Qed.

Lemma appends_err realloc p rc rc' bs : buffer_ok p -> rc' <> SQLITE_OK -> rc <> SQLITE_OK ->
  appends realloc p rc bs (Some (p, rc')).
Proof. intros Hp N N'. exists p, rc'. split_and!; auto; intros; congruence. Qed.

Lemma appends_bind realloc p rc bs bs' r (k : SessionBuffer -> Z -> option (SessionBuffer * Z)) :
  appends realloc p rc bs r ->
  (forall p' rc', buffer_ok p' -> appends realloc p' rc' bs' (k p' rc')) ->
  appends realloc p rc (bs ++ bs') ('(p', rc') ← r; k p' rc').
Proof.
  intros (p1 & rc1 & -> & Hp1 & Pre1 & Hok1 & Hs1) Hk. cbn [mbind option_bind].
  destruct (Hk p1 rc1 Hp1) as (p2 & rc2 & -> & Hp2 & Pre2 & Hok2 & Hs2).
  exists p2, rc2. split_and!; auto.
  - etransitivity; eauto.
  - intros ->. destruct (Hok2 eq_refl) as [-> E2]. destruct (Hok1 eq_refl) as [-> E1].
    rewrite E2, E1, app_assoc. auto.
  - intros -> Hall Hfit. unfold fits in *. rewrite Zlen_app in Hfit.
    pose proof (Zlen_nonneg bs). pose proof (Zlen_nonneg bs').
    assert (rc1 = SQLITE_OK) as -> by (apply Hs1; auto; lia).
    apply Hs2; auto. destruct (Hok1 eq_refl) as [_ E1]. unfold nBuf. rewrite E1, Zlen_app.
    unfold nBuf in Hfit. lia.
Qed.

Lemma appendByte_spec realloc p v rc : buffer_ok p -> is_byte v ->
  appends realloc p rc [v] (sessionAppendByte realloc p v rc).
Proof.
  intros Hp Hv. unfold sessionAppendByte. apply grow_store with (extra := 0); auto; try zlia.
  intros p' rc' _. unfold u8. rewrite Z.mod_small by exact Hv. reflexivity.
Qed.

Lemma appendVarint_spec realloc p v rc : buffer_ok p -> 0 <= v < 2 ^ 31 ->
  appends realloc p rc (varint v) (sessionAppendVarint realloc p v rc).
Proof.
  intros Hp Hv. pose proof (varint_bounds v Hv). unfold sessionAppendVarint.
  apply grow_store with (extra := 0); auto; try lia.
  intros p' rc' _. rewrite varint_put by auto. reflexivity.
Qed.

Lemma appendBlob_spec realloc p oz z rest n rc : buffer_ok p -> n = Zlen z -> Zlen z < 2 ^ 31 ->
  oz = Some (z ++ rest) \/ z = [] ->
  appends realloc p rc z (sessionAppendBlob realloc p oz n rc).
Proof.
  intros Hp -> Hz Ho. unfold sessionAppendBlob. destruct z as [|b z].
  { cbn. apply appends_ret, Hp. }
  destruct Ho as [-> |]; [|discriminate].
  rewrite (proj2 (Z.ltb_lt _ _)) by zlia.
  apply grow_store with (extra := 0); auto; try lia.
  intros p' rc' _. cbn [mbind option_bind]. rewrite read_n_app. reflexivity.
Qed.

Lemma appendValue_spec realloc p f rc : buffer_ok p -> field_ok f ->
  appends realloc p rc (enc_field f) (sessionAppendValue realloc p f false rc).
Proof.
  intros Hp Hf. unfold sessionAppendValue. rewrite !serialize_enc by auto.
  destruct (Z.eqb_spec rc SQLITE_OK) as [->|N]; [|apply appends_err; auto].
  pose proof (enc_field_small f Hf). unfold SQLITE_MAX_LENGTH in *.
  cbn [mbind option_bind]. apply grow_store with (extra := 0); auto; try lia.
  intros p' rc' _. destruct (Z.eqb_spec rc' SQLITE_OK) as [->|]; reflexivity.
Qed.

(** The tail of [sessionAppendCol] for a string or blob. *)
Lemma append_text realloc p oz (z : list Z) rc : buffer_ok p ->
  bytes_ok z /\ Zlen z <= SQLITE_MAX_LENGTH -> oz = Some z \/ z = [] ->
  appends realloc p rc (varint (Zlen z) ++ z)
    ('(p, rc) ← sessionAppendVarint realloc p (Zlen z) rc;
     sessionAppendBlob realloc p oz (Zlen z) rc).
Proof.
  intros Hp [Hz Hl] Ho. pose proof (zlen_small z Hl). apply appends_bind.
  - apply appendVarint_spec; auto.
  - intros p' rc' Hp'. apply appendBlob_spec with (rest := []); auto; try lia.
    rewrite app_nil_r. exact Ho.
Qed.

Lemma appendCol_spec realloc p v rc : buffer_ok p -> value_ok v ->
  appends realloc p rc (enc_value v) (sessionAppendCol realloc p v false rc).
Proof.
  intros Hp Hv. unfold sessionAppendCol.
  destruct (Z.eqb_spec rc SQLITE_OK) as [->|N]; [|apply appends_err; auto].
  assert (forall tl k, is_byte (sqlite3_value_type v) ->
    (forall p' rc', buffer_ok p' -> appends realloc p' rc' tl (k p' rc')) ->
    appends realloc p SQLITE_OK (sqlite3_value_type v :: tl)
      ('(p, rc) ← sessionAppendByte realloc p (sqlite3_value_type v) SQLITE_OK; k p rc)) as Hb.
  { intros tl k Ht Hk. apply (appends_bind realloc p SQLITE_OK [sqlite3_value_type v] tl); auto.
    apply appendByte_spec; auto. }
  destruct v as [|i|r|z|z]; (apply Hb; [split; vm_compute; (reflexivity || discriminate)|]); clear Hb Hp p;
    intros p rc Hp; cbn [sqlite3_value_type Z.eqb Pos.eqb orb SQLITE_INTEGER SQLITE_FLOAT
      SQLITE_NULL SQLITE_TEXT SQLITE_BLOB sqlite3_value_bytes mbind option_bind].
  - apply appends_ret, Hp.
  - rewrite <- (app_nil_r (sessionPutI64 i)). apply appends_bind; [|intros; apply appends_ret; auto].
    apply appendBlob_spec with (rest := []); rewrite ?app_nil_r; auto; rewrite putI64_len; lia.
  - cbn [sqlite3_value_double]. rewrite putI64_i64.
    rewrite <- (app_nil_r (sessionPutI64 r)). apply appends_bind; [|intros; apply appends_ret; auto].
    apply appendBlob_spec with (rest := []); rewrite ?app_nil_r; auto; rewrite putI64_len; lia.
  - cbn [sqlite3_value_text]. rewrite bool_decide_true by eauto. apply append_text; auto.
  - cbn [sqlite3_value_blob]. destruct (truth_len z) as [Et|Ez].
    + rewrite Et. rewrite bool_decide_true by eauto. apply append_text; auto.
    + rewrite Ez. apply (append_text realloc p None []); auto. rewrite Ez in Hv. exact Hv.
Qed.

(** ** Identifiers *)

Lemma quote_body_len z : Zlen z <= Zlen (quote_body z) <= 2 * Zlen z.
Proof.
  unfold quote_body. induction z as [|c z IH]; [vm_compute; split; discriminate|].
  cbn [fmap list_fmap concat]. rewrite Zlen_app, Zlen_cons.
  destruct (c =? 34); rewrite ?Zlen_cons, Zlen_nil; lia.
Qed.

Lemma strlen30_small (z : list Z) : Zlen z < 2 ^ 30 -> sqlite3Strlen30 z = Zlen z.
Proof.
  intros Hz. pose proof (Zlen_nonneg z). unfold sqlite3Strlen30.
  rewrite i32_id by (unfold is_i32; lia). rewrite Z.land_comm.
  change 0x3fffffff with (Z.ones 30). rewrite Z.land_ones by lia. apply Z.mod_small. lia.
Qed.

(** ** Appending with scratch space

    [appends_within n] is [appends] for a routine that may use up to [n]
    bytes before it settles on its result (an UPDATE that turns out to change
    nothing is taken back). *)

Definition appends_within (realloc : Z -> bool) (p : SessionBuffer) (rc : Z) (bs : list Z) (n : Z)
    (r : option (SessionBuffer * Z)) : Prop :=
  exists p' rc', r = Some (p', rc') /\ buffer_ok p' /\ aBuf p `prefix_of` aBuf p' /\ Zlen bs <= n /\
    (rc' = SQLITE_OK -> rc = SQLITE_OK /\ aBuf p' = aBuf p ++ bs) /\
    (rc = SQLITE_OK -> (forall n, realloc n = true) -> fits p n -> rc' = SQLITE_OK).

Lemma appends_to_within realloc p rc bs r :
  appends realloc p rc bs r -> appends_within realloc p rc bs (Zlen bs) r.
Proof.
  intros (p' & rc' & -> & Hp & Pre & Hok & Hs). exists p', rc'. split_and!; auto. lia.
Qed.

Lemma within_bind realloc p rc bs bs' n n' r (k : SessionBuffer -> Z -> option (SessionBuffer * Z)) :
  appends_within realloc p rc bs n r ->
  (forall p' rc', buffer_ok p' -> appends_within realloc p' rc' bs' n' (k p' rc')) ->
  appends_within realloc p rc (bs ++ bs') (n + n') ('(p', rc') ← r; k p' rc').
Proof.
  intros (p1 & rc1 & -> & Hp1 & Pre1 & L1 & Hok1 & Hs1) Hk. cbn [mbind option_bind].
  destruct (Hk p1 rc1 Hp1) as (p2 & rc2 & -> & Hp2 & Pre2 & L2 & Hok2 & Hs2).
  pose proof (Zlen_nonneg bs'). exists p2, rc2. split_and!; auto.
  - etransitivity; eauto.
  - rewrite Zlen_app. lia.
  - intros ->. destruct (Hok2 eq_refl) as [-> E2]. destruct (Hok1 eq_refl) as [-> E1].
    rewrite E2, E1, app_assoc. auto.
  - intros -> Hall Hfit. unfold fits in *.
    assert (rc1 = SQLITE_OK) as -> by (apply Hs1; auto; lia).
    apply Hs2; auto. destruct (Hok1 eq_refl) as [_ E1]. unfold nBuf in *. rewrite E1, Zlen_app. lia.
Qed.

Lemma within_weaken realloc p rc bs n n' r : n <= n' ->
  appends_within realloc p rc bs n r -> appends_within realloc p rc bs n' r.
Proof.
  intros Hn (p' & rc' & -> & Hp & Pre & L & Hok & Hs). exists p', rc'. split_and!; auto; [lia|].
  intros H Hall Hf. apply Hs; auto. unfold fits in *. lia.
Qed.

(** ** Text *)

(** The weaker contract of the routines that build SQL text. *)
Definition adds (p : SessionBuffer) (rc : Z) (bs : list Z) (r : option (SessionBuffer * Z)) : Prop :=
  exists p' rc', r = Some (p', rc') /\ buffer_ok p' /\
    (rc' = SQLITE_OK -> rc = SQLITE_OK /\ aBuf p' = aBuf p ++ bs).

Lemma appendStr_adds realloc p z rc : buffer_ok p -> Zlen z < 2 ^ 30 ->
  adds p rc z (sessionAppendStr realloc p z rc).
Proof.
  intros Hp Hz. pose proof (Zlen_nonneg z). unfold sessionAppendStr. rewrite strlen30_small by exact Hz.
  destruct (grow_store realloc p (Zlen z + 1) rc z 1
    (fun p rc => if rc =? SQLITE_OK
                 then zs ← read_n (Zlen z) z; p ← store p zs 1; Some (p, rc) else Some (p, rc)))
    as (p' & rc' & E & Hp' & _ & Hok & _); auto; try lia.
  - intros p' rc' _. rewrite read_n_all. reflexivity.
  - exists p', rc'. auto.
Qed.

Lemma appendPrintf_adds realloc fmt p z rc : buffer_ok p -> Zlen z < 2 ^ 30 ->
  adds p rc z (sessionAppendPrintf realloc fmt p z rc).
Proof.
  intros Hp Hz. unfold sessionAppendPrintf. destruct (Z.eqb_spec rc SQLITE_OK) as [->|N].
  - destruct (fmt z); cbn [negb]; [apply appendStr_adds; auto|].
    exists p, SQLITE_NOMEM. split_and!; auto; discriminate.
  - exists p, rc. split_and!; auto; contradiction.
Qed.

(** The allocation [2*strlen+4] covers the quoted name and its terminator. *)
Lemma appendIdent_adds realloc p z rc : buffer_ok p -> Zlen z < 2 ^ 30 - 2 ->
  adds p rc ([34] ++ quote_body z ++ [34]) (sessionAppendIdent realloc p z rc).
Proof.
  intros Hp Hz. unfold sessionAppendIdent. rewrite strlen30_small by lia.
  pose proof (Zlen_nonneg z). pose proof (quote_body_len z).
  rewrite int_ok_id by (unfold is_i32; lia). cbn [mbind option_bind].
  destruct (bufferGrow_spec realloc p (Zlen z * 2 + 2 + 2) rc Hp ltac:(lia))
    as (p1 & rc1 & -> & Hp1 & E1 & Hok & _).
  cbn [mbind option_bind]. destruct (Z.eqb_spec rc1 SQLITE_OK) as [->|N].
  - destruct (Hok eq_refl) as [-> Hroom]. unfold store, nBuf in *. rewrite E1.
    rewrite (proj2 (Z.leb_le _ _)) by zlia. cbn [mbind option_bind].
    eexists _, _. split; [reflexivity|]. split_and!; auto.
    split; unfold nBuf; cbn [aBuf nAlloc]; [zlia|apply Hp1].
  - exists p1, rc1. split_and!; auto. contradiction.
Qed.
