(* ===== verification/Session.v ===== *)
(** * The change recorder of the session extension

    [sqlite3_session] objects, their per-table hash tables of changed rows and
    the pre-update hook that fills them.  The engine below (the values the
    pre-update hook exposes, [PRAGMA table_xinfo], statement execution, the
    allocator) is described by the records [SessionHook], [TableEnv] and
    [Env], which are arguments of every operation. *)
From stdpp Require Import strings.
From S2P Require Import Prelude Bits Varint Value Record Strings Buffer.

Local Open Scope Z_scope.

(** ** Objects *)

Record SessionChange := mkChange {
  c_op : Z;
  c_bIndirect : Z;
  c_nRecordField : Z;
  c_nMaxSize : Z;
  c_nRecord : Z;
  c_aRecord : list Z
}.

(** [t_abPK = None] is the null pointer; a bucket is the list of its chain. *)
Record SessionTable := mkTable {
  t_zName : list Z;
  t_nCol : Z;
  t_nTotalCol : Z;
  t_bStat1 : bool;
  t_bRowid : bool;
  t_azCol : list (list Z);
  t_azDflt : list (option (list Z));
  t_aiIdx : list Z;
  t_abPK : option (list Z);
  t_nEntry : Z;
  t_nChange : Z;
  t_apChange : list (list SessionChange)
}.

(** The four methods of [SessionHook]; a null [*ppVal] is [None]. *)
Record SessionHook := mkHook {
  xOld : Z -> Z * option sqlite3_value;
  xNew : Z -> Z * option sqlite3_value;
  xCount : Z;
  xDepth : Z
}.

Record sqlite3_session := mkSession {
  s_zDb : list Z;
  s_bEnableSize : bool;
  s_bEnable : Z;
  s_bIndirect : Z;
  s_bAutoAttach : bool;
  s_bImplicitPK : bool;
  s_rc : Z;
  s_xTableFilter : option (list Z -> bool);
  s_nMaxChangesetSize : Z;
  s_pZeroBlob : option sqlite3_value;
  s_pTable : list SessionTable
}.

(** Assignments to single members. *)

Definition set_rc (s : sqlite3_session) (rc : Z) : sqlite3_session :=
  mkSession (s_zDb s) (s_bEnableSize s) (s_bEnable s) (s_bIndirect s) (s_bAutoAttach s)
    (s_bImplicitPK s) rc (s_xTableFilter s) (s_nMaxChangesetSize s) (s_pZeroBlob s) (s_pTable s).

Definition set_max (s : sqlite3_session) (n : Z) : sqlite3_session :=
  mkSession (s_zDb s) (s_bEnableSize s) (s_bEnable s) (s_bIndirect s) (s_bAutoAttach s)
    (s_bImplicitPK s) (s_rc s) (s_xTableFilter s) n (s_pZeroBlob s) (s_pTable s).

Definition set_zero (s : sqlite3_session) (v : option sqlite3_value) : sqlite3_session :=
  mkSession (s_zDb s) (s_bEnableSize s) (s_bEnable s) (s_bIndirect s) (s_bAutoAttach s)
    (s_bImplicitPK s) (s_rc s) (s_xTableFilter s) (s_nMaxChangesetSize s) v (s_pTable s).

Definition set_tables (s : sqlite3_session) (ts : list SessionTable) : sqlite3_session :=
  mkSession (s_zDb s) (s_bEnableSize s) (s_bEnable s) (s_bIndirect s) (s_bAutoAttach s)
    (s_bImplicitPK s) (s_rc s) (s_xTableFilter s) (s_nMaxChangesetSize s) (s_pZeroBlob s) ts.

Definition set_changes (t : SessionTable) (nEntry nChange : Z)
    (apChange : list (list SessionChange)) : SessionTable :=
  mkTable (t_zName t) (t_nCol t) (t_nTotalCol t) (t_bStat1 t) (t_bRowid t) (t_azCol t)
    (t_azDflt t) (t_aiIdx t) (t_abPK t) nEntry nChange apChange.

Definition set_bIndirect (c : SessionChange) (b : Z) : SessionChange :=
  mkChange (c_op c) b (c_nRecordField c) (c_nMaxSize c) (c_nRecord c) (c_aRecord c).

Definition set_nMaxSize (c : SessionChange) (n : Z) : SessionChange :=
  mkChange (c_op c) (c_bIndirect c) (c_nRecordField c) n (c_nRecord c) (c_aRecord c).

(** ** Schema lookup *)

(** A row of [PRAGMA table_xinfo]: cid, name, dflt_value, pk, hidden. *)
Record xinfo := mkXinfo {
  xi_cid : Z;
  xi_name : option (list Z);
  xi_dflt : option (list Z);
  xi_pk : Z;
  xi_hidden : Z
}.

(** Outcome of the engine calls one [sessionTableInfo] makes. *)
Record TableEnv := mkTableEnv {
  te_stat1 : Z;                       (* sqlite3_table_column_metadata *)
  te_mprintf : bool;
  te_prepare : Z;
  te_rows : list xinfo;               (* rows of the prepared PRAGMA *)
  te_reset1 : Z;
  te_malloc : bool;
  te_reset2 : Z
}.

Record TableInfo := mkTableInfo {
  ti_rc : Z;
  ti_nCol : Z;
  ti_nTotalCol : Z;
  ti_azCol : list (list Z);
  ti_azDflt : list (option (list Z));
  ti_aiIdx : list Z;
  ti_abPK : option (list Z);
  ti_bRowid : option bool;            (* None: not written *)
  ti_nByte : Z;                       (* size of the allocation *)
  ti_used : Z                         (* offset of pAlloc at the end *)
}.

Definition SESSIONS_ROWID : list Z := str "_rowid_".

Definition opt_len (z : option (list Z)) : Z :=
  match z with Some z => Zlen z | None => 0 end.

(** The rows of the query used for [sqlite_stat1]. *)
Definition stat1_rows : list xinfo :=
  [ mkXinfo 0 (Some (str "tbl")) (Some []) 1 0;
    mkXinfo 1 (Some (str "idx")) (Some []) 2 0;
    mkXinfo 2 (Some (str "stat")) (Some []) 0 0 ].

(** First pass: [nByte], [nDbCol] and [bRowid]. *)
Fixpoint tableInfo_count (rows : list xinfo) (nByte nDbCol : Z) (bRowid : bool)
    : Z * Z * bool :=
  match rows with
  | [] => (nByte, nDbCol, bRowid)
  | r :: rows =>
      let nByte := nByte + opt_len (xi_name r) in
      let nByte := nByte + opt_len (xi_dflt r) in
      let nDbCol := if xi_hidden r =? 0 then nDbCol + 1 else nDbCol in
      let bRowid := if truth (xi_pk r) then false else bRowid in
      tableInfo_count rows nByte nDbCol bRowid
  end.

(** The columns written by the second pass. *)
Record Columns := mkColumns {
  co_azCol : list (list Z);
  co_azDflt : list (option (list Z));
  co_aiIdx : list Z;
  co_abPK : list Z;
  co_used : Z
}.

Definition add_column (co : Columns) (zName : list Z) (zDflt : option (list Z)) (idx pk : Z)
    : Columns :=
  mkColumns (co_azCol co ++ [zName]) (co_azDflt co ++ [zDflt]) (co_aiIdx co ++ [idx])
    (co_abPK co ++ [u8 pk])
    (co_used co + (Zlen zName + 1) + match zDflt with Some z => Zlen z + 1 | None => 0 end).

(** Second pass: the columns and [*pnTotalCol].  The arrays hold the columns
    written; the loop stops at a name that could not be converted. *)
Fixpoint tableInfo_fill (rows : list xinfo) (co : Columns) (nTotalCol : Z) : Columns * Z :=
  match rows with
  | [] => (co, nTotalCol)
  | r :: rows =>
      if xi_hidden r =? 0 then
        match xi_name r with
        | None => (co, nTotalCol)
        | Some zName =>
            tableInfo_fill rows (add_column co zName (xi_dflt r) (xi_cid r) (xi_pk r))
              (nTotalCol + 1)
        end
      else tableInfo_fill rows co (nTotalCol + 1)
  end.

Definition failed_info (rc : Z) (bRowid : option bool) (nTotalCol : Z) : TableInfo :=
  mkTableInfo rc 0 nTotalCol [] [] [] None bRowid 0 0.

(** Everything from [nByte = nThis + 1] on, on the rows of the query. *)
Definition sessionTableInfo_rows (e : TableEnv) (rows : list xinfo) (nThis : Z)
    (pzTab pbRowid : bool) : TableInfo :=
  let '(nByte, nDbCol, bRowid) := tableInfo_count rows (nThis + 1) 0 pbRowid in
  let bRowid := if nDbCol =? 0 then false else bRowid in
  let nDbCol := nDbCol + Z.b2z bRowid in
  let outRowid := if pbRowid then Some bRowid else None in
  let nByte := nByte + Zlen SESSIONS_ROWID in
  if negb (te_reset1 e =? SQLITE_OK) then failed_info (te_reset1 e) outRowid 0
  else
    let nByte := nByte + nDbCol * (8 * 2 + 4 + 1 + 1 + 1) in
    if negb (te_malloc e) then failed_info SQLITE_NOMEM outRowid 0
    else
      let used := nDbCol * (8 * 2 + 4 + 1) + (if pzTab then nThis + 1 else 0) in
      let co := mkColumns [] [] [] [] used in
      let co := if bRowid then add_column co SESSIONS_ROWID None (-1) 1 else co in
      let '(co, nTotalCol) := tableInfo_fill rows co 0 in
      if te_reset2 e =? SQLITE_OK then
        mkTableInfo SQLITE_OK nDbCol nTotalCol (co_azCol co) (co_azDflt co) (co_aiIdx co)
          (Some (co_abPK co)) outRowid nByte (co_used co)
      else failed_info (te_reset2 e) outRowid nTotalCol.

Definition sessionTableInfo (e : TableEnv) (zThis : list Z) (pzTab pbRowid : bool) : TableInfo :=
  let nThis := sqlite3Strlen30 zThis in
  if (nThis =? 12) && (sqlite3StrICmp (str "sqlite_stat1") zThis =? 0) then
    if te_stat1 e =? SQLITE_OK then
      if negb (te_mprintf e) then failed_info SQLITE_NOMEM None 0
      else if negb (te_prepare e =? SQLITE_OK) then failed_info (te_prepare e) None 0
      else sessionTableInfo_rows e stat1_rows nThis pzTab pbRowid
    else if te_stat1 e =? SQLITE_ERROR then
      if negb (te_mprintf e) then failed_info SQLITE_NOMEM None 0
      else if negb (te_prepare e =? SQLITE_OK) then failed_info (te_prepare e) None 0
      else sessionTableInfo_rows e [] nThis pzTab pbRowid
    else failed_info (te_stat1 e) None 0
  else
    if negb (te_mprintf e) then failed_info SQLITE_NOMEM None 0
    else if negb (te_prepare e =? SQLITE_OK) then failed_info (te_prepare e) None 0
    else sessionTableInfo_rows e (te_rows e) nThis pzTab pbRowid.

(** [sessionInitTable(pSession, pTab, ...)] with a session: the new objects
    and the value returned. *)
Definition sessionInitTable (e : TableEnv) (s : sqlite3_session) (t : SessionTable)
    : sqlite3_session * SessionTable * bool :=
  if t_nCol t =? 0 then
    let ti := sessionTableInfo e (t_zName t) false (s_bImplicitPK s) in
    let bRowid := default (t_bRowid t) (ti_bRowid ti) in
    let ok := ti_rc ti =? SQLITE_OK in
    let abPK := if ok && existsb truth (default [] (ti_abPK ti)) then ti_abPK ti else None in
    let bStat1 := if ok && (sqlite3StrICmp (str "sqlite_stat1") (t_zName t) =? 0)
                  then true else t_bStat1 t in
    let t := mkTable (t_zName t) (ti_nCol ti) (ti_nTotalCol ti) bStat1 bRowid (ti_azCol ti)
               (ti_azDflt ti) (ti_aiIdx ti) abPK (t_nEntry t) (t_nChange t) (t_apChange t) in
    let s := if ok && s_bEnableSize s
             then set_max s (s_nMaxChangesetSize s
                    + (1 + sessionVarintLen (t_nCol t) + t_nCol t + Zlen (t_zName t) + 1))
             else s in
    let s := set_rc s (ti_rc ti) in
    (s, t, truth (ti_rc ti) || bool_decide (t_abPK t = None))
  else
    let s := set_rc s SQLITE_OK in
    (s, t, bool_decide (t_abPK t = None)).

(** The comparison loop of [sessionReinitTable]. *)
Fixpoint reinit_same (old new : list Z) : bool :=
  match old, new with
  | o :: old, n :: new => (o =? n) && reinit_same old new
  | _, _ => negb (existsb truth new)
  end.

(** [pTab->abPK] is not null here: the caller has checked it. *)
Definition sessionReinitTable (e : TableEnv) (s : sqlite3_session) (t : SessionTable)
    : sqlite3_session * SessionTable * Z :=
  let ti := sessionTableInfo e (t_zName t) false (s_bImplicitPK s) in
  let bRowid := default false (ti_bRowid ti) in
  if negb (ti_rc ti =? SQLITE_OK) then (set_rc s (ti_rc ti), t, ti_rc ti)
  else if (ti_nCol ti <? t_nCol t) || negb (Bool.eqb (t_bRowid t) bRowid)
  then (set_rc s SQLITE_SCHEMA, t, SQLITE_SCHEMA)
  else
    let same := reinit_same (take (Z.to_nat (t_nCol t)) (default [] (t_abPK t)))
                  (default [] (ti_abPK ti)) in
    let rc := if same then SQLITE_OK else SQLITE_SCHEMA in
    let t' := if same
              then mkTable (t_zName t) (ti_nCol ti) (ti_nTotalCol ti) (t_bStat1 t) (t_bRowid t)
                     (ti_azCol ti) (ti_azDflt ti) (ti_aiIdx ti) (ti_abPK ti)
                     (t_nEntry t) (t_nChange t) (t_apChange t)
              else t in
    let s := if s_bEnableSize s
             then set_max s (s_nMaxChangesetSize s + (ti_nCol ti - t_nCol t)
                    + sessionVarintLen (ti_nCol ti) - sessionVarintLen (t_nCol t))
             else s in
    (set_rc s rc, t', rc).

(** ** Default values for columns added by ALTER TABLE *)

(** Outcome of the engine calls one pre-update callback makes. *)
Record Env := mkEnv {
  e_init : TableEnv;                        (* sessionTableInfo in sessionInitTable *)
  e_reinit : TableEnv;                      (* the same in sessionReinitTable *)
  e_realloc : Z -> bool;                    (* growth of the SQL text buffer *)
  e_fmt : list Z -> bool;                   (* allocation of formatted text *)
  e_prepare : list Z -> Z * Z * list sqlite3_value;
                                            (* prepare_v2, step and row of a SELECT *)
  e_finalize : Z;
  e_malloc_update : SessionChange -> Z -> bool;
  e_malloc_hash : bool;
  e_value_new : bool;
  e_malloc_change : bool;
  e_utf8_oom : Z -> bool;                   (* UTF-8 conversion of column i *)
  e_blobwrite : Z                           (* sqlite3_preupdate_blobwrite *)
}.

(** The loop of [sessionPrepareDfltStmt]. *)
Fixpoint dflt_loop (realloc : Z -> bool) (fmt : list Z -> bool) (dflts : list (option (list Z))) (zSep : list Z)
    (sql : SessionBuffer) (rc : Z) : option (SessionBuffer * Z) :=
  match dflts with
  | [] => Some (sql, rc)
  | d :: dflts =>
      let zDflt := default (str "NULL") d in
      '(sql, rc) ← sessionAppendPrintf realloc fmt sql (zSep ++ zDflt) rc;
      dflt_loop realloc fmt dflts (str ", ") sql rc
  end.

(** [sessionPrepareDfltStmt]: the result code and the statement prepared, i.e.
    what stepping it gives. *)
Definition sessionPrepareDfltStmt (e : Env) (t : SessionTable)
    : option (Z * (Z * list sqlite3_value)) :=
  '(sql, rc) ← sessionAppendPrintf (e_realloc e) (e_fmt e) empty_buffer (str "SELECT") SQLITE_OK;
  dflts ← read_n (t_nCol t) (t_azDflt t);
  '(sql, rc) ← dflt_loop (e_realloc e) (e_fmt e) dflts (str " ") sql rc;
  if rc =? SQLITE_OK then
    let '(rc, step, row) := e_prepare e (aBuf sql) in Some (rc, (step, row))
  else Some (rc, (SQLITE_MISUSE, [])).

Definition SIZEOF_SessionChange : Z := 32.

(** The bytes added to the record for one default value, after the type byte. *)
Definition dflt_body (v : sqlite3_value) : option (list Z) :=
  let eType := sqlite3_value_type v in
  if eType =? SQLITE_INTEGER then Some (sessionPutI64 (sqlite3_value_int64 v))
  else if eType =? SQLITE_FLOAT then Some (sessionPutI64 (i64 (sqlite3_value_double v)))
  else if (eType =? SQLITE_TEXT) || (eType =? SQLITE_BLOB) then
    let n := sqlite3_value_bytes v in
    let z := if eType =? SQLITE_TEXT then sqlite3_value_text v else sqlite3_value_blob v in
    '(bs, _) ← sessionVarintPut n;
    zs ← (if n =? 0 then Some [] else z ← z; read_n n z);
    Some (bs ++ zs)
  else Some [].

(** [sessionUpdateOneChange]: the change object, [*pRc] and the increment of
    [nMaxChangesetSize]; [fuel] bounds the rounds, one per missing field. *)
Fixpoint sessionUpdateOneChange (fuel : nat) (malloc : SessionChange -> Z -> bool) (rc : Z)
    (pOld : SessionChange) (nCol : Z) (pDflt : list sqlite3_value) (nMax : Z)
    : option (SessionChange * Z * Z) :=
  if c_nRecordField pOld <? nCol then
    match fuel with
    | O => None
    | S fuel =>
        v ← at_ pDflt (c_nRecordField pOld);
        let eType := sqlite3_value_type v in
        let n := sqlite3_value_bytes v in
        let nIncr := if eType =? SQLITE_NULL then 1
                     else if (eType =? SQLITE_INTEGER) || (eType =? SQLITE_FLOAT) then 9
                     else 1 + sessionVarintLen n + n in
        nByte ← int_ok (nIncr + (SIZEOF_SessionChange + c_nRecord pOld));
        if negb (malloc pOld nByte) then Some (pOld, SQLITE_NOMEM, nMax)
        else
          old ← read_n (c_nRecord pOld) (c_aRecord pOld);
          body ← dflt_body v;
          let rec := old ++ [eType] ++ body in
          if nByte <? SIZEOF_SessionChange + Zlen rec then None else
          let pNew := mkChange (c_op pOld) (c_bIndirect pOld) (u16 (c_nRecordField pOld + 1))
                        (c_nMaxSize pOld + nIncr) (Zlen rec) rec in
          sessionUpdateOneChange fuel malloc rc pNew nCol pDflt (nMax + nIncr)
    end
  else Some (pOld, rc, nMax).

(** The two nested loops of [sessionUpdateChanges]. *)
Fixpoint update_chain (e : Env) (nCol : Z) (pDflt : list sqlite3_value)
    (chain : list SessionChange) (rc nMax : Z) : option (list SessionChange * Z * Z) :=
  match chain with
  | [] => Some ([], rc, nMax)
  | c :: chain =>
      '(c, rc, nMax) ←
        (if negb (c_nRecordField c =? nCol)
         then sessionUpdateOneChange (Z.to_nat nCol) (e_malloc_update e) rc c nCol pDflt nMax
         else Some (c, rc, nMax));
      '(chain, rc, nMax) ← update_chain e nCol pDflt chain rc nMax;
      Some (c :: chain, rc, nMax)
  end.

Fixpoint update_buckets (e : Env) (nCol : Z) (pDflt : list sqlite3_value)
    (bs : list (list SessionChange)) (rc nMax : Z)
    : option (list (list SessionChange) * Z * Z) :=
  match bs with
  | [] => Some ([], rc, nMax)
  | b :: bs =>
      '(b, rc, nMax) ← update_chain e nCol pDflt b rc nMax;
      '(bs, rc, nMax) ← update_buckets e nCol pDflt bs rc nMax;
      Some (b :: bs, rc, nMax)
  end.

Definition sessionUpdateChanges (e : Env) (s : sqlite3_session) (t : SessionTable)
    : option (sqlite3_session * SessionTable * Z) :=
  '(rc, (step, row)) ← sessionPrepareDfltStmt e t;
  '(bs, rc, nMax) ←
    (if (rc =? SQLITE_OK) && (step =? SQLITE_ROW)
     then update_buckets e (t_nCol t) row (t_apChange t) rc (s_nMaxChangesetSize s)
     else Some (t_apChange t, rc, s_nMaxChangesetSize s));
  let rc := if rc =? SQLITE_OK then e_finalize e else rc in
  Some (set_rc (set_max s nMax) rc, set_changes t (t_nEntry t) (t_nChange t) bs, rc).

(** ** The hash table *)

(** The loop of [sessionPreupdateHash]: a result code other than SQLITE_OK,
    or the hash and [*pbNullPK]. *)
Fixpoint preupdateHash_loop (get : Z -> Z * option sqlite3_value) (utf8_oom : Z -> bool)
    (pks aiIdx : list Z) (h : Z) (bNullPK : bool) : option (Z * Z * bool) :=
  match pks, aiIdx with
  | [], _ => Some (SQLITE_OK, h, bNullPK)
  | _ :: _, [] => None
  | pk :: pks, iIdx :: aiIdx =>
      if truth pk then
        let '(rc, pVal) := get iIdx in
        if negb (rc =? SQLITE_OK) then Some (rc, h, bNullPK) else
        v ← pVal;
        let eType := sqlite3_value_type v in
        let h := sessionHashAppendType h eType in
        if (eType =? SQLITE_INTEGER) || (eType =? SQLITE_FLOAT) then
          let iVal := if eType =? SQLITE_INTEGER then sqlite3_value_int64 v
                      else i64 (sqlite3_value_double v) in
          preupdateHash_loop get utf8_oom pks aiIdx (sessionHashAppendI64 h iVal) bNullPK
        else if (eType =? SQLITE_TEXT) || (eType =? SQLITE_BLOB) then
          let z := if eType =? SQLITE_TEXT
                   then (if utf8_oom iIdx then None else sqlite3_value_text v)
                   else sqlite3_value_blob v in
          let n := sqlite3_value_bytes v in
          if bool_decide (z = None) && (negb (eType =? SQLITE_BLOB) || (0 <? n))
          then Some (SQLITE_NOMEM, h, bNullPK)
          else
            zs ← (if n =? 0 then Some [] else z ← z; read_n n z);
            preupdateHash_loop get utf8_oom pks aiIdx (sessionHashAppendBlob h zs) bNullPK
        else preupdateHash_loop get utf8_oom pks aiIdx h true
      else preupdateHash_loop get utf8_oom pks aiIdx h bNullPK
  end.

Definition sessionPreupdateHash (hook : SessionHook) (utf8_oom : Z -> bool) (iRowid : Z)
    (t : SessionTable) (bNew : bool) (bNullPK : bool) : option (Z * Z * bool) :=
  '(rc, h, bNullPK) ←
    (if t_bRowid t then Some (SQLITE_OK, sessionHashAppendI64 0 iRowid, bNullPK)
     else
       abPK ← t_abPK t;
       pks ← read_n (t_nCol t) abPK;
       preupdateHash_loop (if bNew then xNew hook else xOld hook) utf8_oom pks (t_aiIdx t) 0 bNullPK);
  if negb (rc =? SQLITE_OK) then Some (rc, 0, bNullPK) else
  if t_nChange t =? 0 then None else
  Some (SQLITE_OK, i32 (h mod u32 (t_nChange t)), bNullPK).

(** The loop of [sessionPreupdateEqual]; [get] is [xNew] for an INSERT and
    [xOld] otherwise. *)
Fixpoint preupdateEqual_loop (get : Z -> Z * option sqlite3_value) (pks aiIdx : list Z)
    (a : list Z) : option bool :=
  match pks, aiIdx with
  | [], _ => Some true
  | _ :: _, [] => None
  | pk :: pks, iIdx :: aiIdx =>
      if negb (truth pk) then
        n ← sessionSerialLen a; a ← advance n a; preupdateEqual_loop get pks aiIdx a
      else
        eType ← a !! 0%nat;
        let a := drop 1 a in
        v ← snd (get iIdx);
        if negb (sqlite3_value_type v =? eType) then Some false
        else if (eType =? SQLITE_INTEGER) || (eType =? SQLITE_FLOAT) then
          iVal ← sessionGetI64 a;
          a ← advance 8 a;
          if eType =? SQLITE_INTEGER then
            if negb (sqlite3_value_int64 v =? iVal) then Some false
            else preupdateEqual_loop get pks aiIdx a
          else
            if negb (double_eq (sqlite3_value_double v) (u64 iVal)) then Some false
            else preupdateEqual_loop get pks aiIdx a
        else
          '(n, k) ← sessionVarintGet a;
          a ← advance k a;
          if negb (sqlite3_value_bytes v =? n) then Some false else
          let z := if eType =? SQLITE_TEXT then sqlite3_value_text v else sqlite3_value_blob v in
          differ ← (if 0 <? n then
                      an ← read_n n a; z ← z; zn ← read_n n z;
                      Some (negb (bool_decide (an = zn)))
                    else Some false) : option bool;
          if (differ : bool) then Some false
          else a ← advance n a; preupdateEqual_loop get pks aiIdx a
  end.

Definition sessionPreupdateEqual (hook : SessionHook) (iRowid : Z) (t : SessionTable)
    (c : SessionChange) (op : Z) : option bool :=
  let a := c_aRecord c in
  if t_bRowid t then
    a0 ← a !! 0%nat;
    if negb (a0 =? SQLITE_INTEGER) then Some false
    else i ← sessionGetI64 (drop 1 a); Some (i =? iRowid)
  else
    abPK ← t_abPK t;
    pks ← read_n (t_nCol t) abPK;
    preupdateEqual_loop (if op =? SQLITE_INSERT then xNew hook else xOld hook) pks (t_aiIdx t) a.

(** [apNew[iHash]] becomes [p] followed by its previous chain. *)
Definition push_bucket (bs : list (list SessionChange)) (iHash : Z) (p : SessionChange)
    : option (list (list SessionChange)) :=
  chain ← at_ bs iHash; Some (<[Z.to_nat iHash := p :: chain]> bs).

(** The rehash loops of [sessionGrowHash], over the chains in order. *)
Fixpoint rehash (nCol : Z) (abPK : list Z) (bPatchset : bool) (nNew : Z)
    (ps : list SessionChange) (apNew : list (list SessionChange))
    : option (list (list SessionChange)) :=
  match ps with
  | [] => Some apNew
  | p :: ps =>
      let bPkOnly := (c_op p =? SQLITE_DELETE) && bPatchset in
      iHash ← sessionChangeHash nCol abPK bPkOnly (c_aRecord p) nNew;
      apNew ← push_bucket apNew iHash p;
      rehash nCol abPK bPatchset nNew ps apNew
  end.

Definition sessionGrowHash (malloc : bool) (bPatchset : bool) (t : SessionTable)
    : option (SessionTable * Z) :=
  if (t_nChange t =? 0) || (t_nChange t `quot` 2 <=? t_nEntry t) then
    let nNew := 2 * (if truth (t_nChange t) then t_nChange t else 128) in
    if negb malloc then
      Some (t, if t_nChange t =? 0 then SQLITE_ERROR else SQLITE_OK)
    else
      old ← read_n (t_nChange t) (t_apChange t);
      apNew ← rehash (t_nCol t) (default [] (t_abPK t)) bPatchset nNew (concat old)
                (replicate (Z.to_nat nNew) []);
      Some (set_changes t (t_nEntry t) (i32 nNew) apNew, SQLITE_OK)
  else Some (t, SQLITE_OK).

(** ** Changeset size accounting *)

(** Loop of the INSERT branch of [sessionUpdateMaxSize]. *)
Fixpoint maxSize_new (hook : SessionHook) (aiIdx : list Z) (nNew : Z) : option Z :=
  match aiIdx with
  | [] => Some nNew
  | iIdx :: aiIdx =>
      '(_, _, n) ← sessionSerializeValue false false (snd (xNew hook iIdx));
      maxSize_new hook aiIdx (nNew + n)
  end.

(** Loop of the UPDATE branch: [inl rc] is an early return, [inr nNew] the
    total ([break] included). *)
Fixpoint maxSize_update (hook : SessionHook) (nRecord : Z) (pks aiIdx : list Z)
    (pCsr : list Z) (nNew : Z) : option (Z + Z) :=
  match pks, aiIdx with
  | [], _ => Some (inr nNew)
  | _ :: _, [] => None
  | pk :: pks, iIdx :: aiIdx =>
      match snd (xNew hook iIdx) with
      | None => Some (inl SQLITE_NOMEM)
      | Some p =>
          eType ← pCsr !! 0%nat;
          let pCsr := drop 1 pCsr in
          '(bChanged, nOld, pCsr) ←
            (if eType =? SQLITE_NULL then
               Some (negb (sqlite3_value_type p =? SQLITE_NULL), 0, pCsr)
             else if (eType =? SQLITE_FLOAT) || (eType =? SQLITE_INTEGER) then
               iVal ← sessionGetI64 pCsr;
               pCsr' ← advance 8 pCsr;
               let bChanged :=
                 if eType =? sqlite3_value_type p then
                   if eType =? SQLITE_INTEGER then negb (iVal =? sqlite3_value_int64 p)
                   else negb (double_eq (u64 iVal) (sqlite3_value_double p))
                 else true in
               Some (bChanged, 8, pCsr')
             else
               '(nByte, k) ← sessionVarintGet pCsr;
               pCsr ← advance k pCsr;
               same ← (if (eType =? sqlite3_value_type p) && (nByte =? sqlite3_value_bytes p)
                       then if nByte =? 0 then Some true
                            else a ← read_n nByte pCsr; z ← sqlite3_value_blob p;
                                 zn ← read_n nByte z; Some (bool_decide (a = zn))
                       else Some false);
               pCsr ← advance nByte pCsr;
               Some (negb (same : bool), k + nByte, pCsr));
          if (bChanged : bool) && truth pk then Some (inr (nRecord + 2))
          else if (bChanged : bool) then
            '(_, _, n) ← sessionSerializeValue false false (Some p);
            maxSize_update hook nRecord pks aiIdx pCsr (nNew + (1 + nOld) + n)
          else if truth pk then
            maxSize_update hook nRecord pks aiIdx pCsr (nNew + 2 + nOld)
          else maxSize_update hook nRecord pks aiIdx pCsr (nNew + 2)
      end
  end.

(** [sessionUpdateMaxSize]: the result code, the change object and the new
    [nMaxChangesetSize]. *)
Definition sessionUpdateMaxSize (hook : SessionHook) (blobwrite : Z) (op : Z)
    (t : SessionTable) (c : SessionChange) (nMax : Z) : option (Z * SessionChange * Z) :=
  aiIdx ← read_n (t_nCol t) (t_aiIdx t);
  r ←
    (if c_op c =? SQLITE_INSERT then
       let nNew := 2 + (if t_bRowid t then 9 else 0) in
       if negb (op =? SQLITE_DELETE) then
         n ← maxSize_new hook aiIdx nNew; Some (inr n)
       else Some (inr nNew)
     else if op =? SQLITE_DELETE then
       Some (inr (2 + c_nRecord c + (if 0 <=? blobwrite then c_nRecord c else 0)))
     else
       abPK ← t_abPK t;
       pks ← read_n (t_nCol t) abPK;
       let skip := if t_bRowid t then 1 else 0 in
       pCsr ← (if t_bRowid t then advance 9 (c_aRecord c) else Some (c_aRecord c));
       maxSize_update hook (c_nRecord c) (drop (Z.to_nat skip) pks)
         (drop (Z.to_nat skip) aiIdx) pCsr (2 + (if t_bRowid t then 10 else 0)));
  match (r : Z + Z) with
  | inl rc => Some (rc, c, nMax)
  | inr nNew =>
      if c_nMaxSize c <? nNew
      then Some (SQLITE_OK, set_nMaxSize c (i32 nNew), nMax + i32 (nNew - c_nMaxSize c))
      else Some (SQLITE_OK, c, nMax)
  end.

(** ** Recording one change *)

(** [sessionStat1Old] and [sessionStat1New]. *)
Definition stat1_get (zero : option sqlite3_value) (get : Z -> Z * option sqlite3_value)
    (iCol : Z) : Z * option sqlite3_value :=
  let '(rc, pVal) := get iCol in
  if (rc =? SQLITE_OK) && (iCol =? 1)
     && match pVal with Some v => sqlite3_value_type v =? SQLITE_NULL | None => false end
  then (rc, zero) else (rc, pVal).

Definition stat1_hook (zero : option sqlite3_value) (hook : SessionHook) : SessionHook :=
  mkHook (stat1_get zero (xOld hook)) (stat1_get zero (xNew hook)) (xCount hook) (xDepth hook).

(** The value of column [i] to be recorded: the old.* value, or for an INSERT
    the new.* value of a key column. *)
Definition record_get (hook : SessionHook) (op pk iIdx : Z) : Z * option sqlite3_value :=
  if negb (op =? SQLITE_INSERT) then xOld hook iIdx
  else if truth pk then (SQLITE_OK, snd (xNew hook iIdx))
  else (SQLITE_OK, None).

(** Sizing loop: a result code and the size so far. *)
Fixpoint record_size (hook : SessionHook) (utf8_oom : Z -> bool) (op : Z)
    (pks aiIdx : list Z) (nByte : Z) : option (Z * Z) :=
  match pks, aiIdx with
  | [], _ => Some (SQLITE_OK, nByte)
  | _ :: _, [] => None
  | pk :: pks, iIdx :: aiIdx =>
      let '(rc, p) := record_get hook op pk iIdx in
      if negb (rc =? SQLITE_OK) then Some (rc, nByte) else
      '(rc, _, n) ← sessionSerializeValue false (utf8_oom iIdx) p;
      if negb (rc =? SQLITE_OK) then Some (rc, nByte + n)
      else record_size hook utf8_oom op pks aiIdx (nByte + n)
  end.

(** Writing loop: the record so far and [nByte]. *)
Fixpoint record_write (hook : SessionHook) (op : Z) (pks aiIdx : list Z)
    (rec : list Z) (nByte : Z) : option (list Z * Z) :=
  match pks, aiIdx with
  | [], _ => Some (rec, nByte)
  | _ :: _, [] => None
  | pk :: pks, iIdx :: aiIdx =>
      '(_, w, n) ← sessionSerializeValue true false (snd (record_get hook op pk iIdx));
      rec ← poke nByte w rec;
      record_write hook op pks aiIdx rec (nByte + n)
  end.

(** The search of a chain for the row of the callback; the position found. *)
Fixpoint find_change (hook : SessionHook) (iRowid : Z) (t : SessionTable) (op : Z)
    (chain : list SessionChange) : option (option nat) :=
  match chain with
  | [] => Some None
  | c :: chain =>
      b ← sessionPreupdateEqual hook iRowid t c op;
      if (b : bool) then Some (Some O)
      else r ← find_change hook iRowid t op chain; Some (option_map S r)
  end.

(** The branch of [sessionPreupdateOneChange] that creates a change object:
    the result code, the table and whether the object was added. *)
Definition create_change (e : Env) (hook : SessionHook) (op iRowid : Z) (bIndirect : Z)
    (t : SessionTable) (iHash : Z) : option (Z * SessionTable) :=
  abPK ← t_abPK t;
  pks ← read_n (t_nCol t) abPK;
  let skip := Z.to_nat (Z.b2z (t_bRowid t)) in
  let t := set_changes t (t_nEntry t + 1) (t_nChange t) (t_apChange t) in
  '(rc, nByte) ← record_size hook (e_utf8_oom e) op (drop skip pks) (drop skip (t_aiIdx t))
                   SIZEOF_SessionChange;
  if negb (rc =? SQLITE_OK) then Some (rc, t) else
  let nAlloc := if t_bRowid t then nByte + 9 else nByte in
  if negb (e_malloc_change e) then Some (SQLITE_NOMEM, t) else
  let '(rec, nByte) := if t_bRowid t then (SQLITE_INTEGER :: sessionPutI64 iRowid, 9) else ([], 0) in
  '(rec, nByte) ← record_write hook op (drop skip pks) (drop skip (t_aiIdx t)) rec nByte;
  if nAlloc <? SIZEOF_SessionChange + Zlen rec then None else
  let c := mkChange op (if truth bIndirect || truth (xDepth hook) then 1 else 0)
             (u16 (t_nCol t)) 0 (i32 nByte) rec in
  apChange ← push_bucket (t_apChange t) iHash c;
  Some (SQLITE_OK, set_changes t (t_nEntry t) (t_nChange t) apChange).

(** The part of [sessionPreupdateOneChange] after the hash has been computed,
    for a key without NULLs: the result code, the table and the new
    [nMaxChangesetSize]. *)
Definition record_change (e : Env) (hook : SessionHook) (op iRowid : Z)
    (s : sqlite3_session) (t : SessionTable) (iHash : Z) : option (Z * SessionTable * Z) :=
  chain ← at_ (t_apChange t) iHash;
  found ← find_change hook iRowid t op chain;
  '(rc, t, pos) ←
    match found with
    | None =>
        '(rc, t) ← create_change e hook op iRowid (s_bIndirect s) t iHash;
        Some (rc, t, O)
    | Some pos =>
        c ← chain !! pos;
        let c := if truth (c_bIndirect c) && (xDepth hook =? 0) && (s_bIndirect s =? 0)
                 then set_bIndirect c 0 else c in
        Some (SQLITE_OK,
              set_changes t (t_nEntry t) (t_nChange t)
                (<[Z.to_nat iHash := <[pos := c]> chain]> (t_apChange t)), pos)
    end;
  if (rc =? SQLITE_OK) && s_bEnableSize s then
    chain ← at_ (t_apChange t) iHash;
    c ← chain !! (pos : nat);
    '(rc, c, nMax) ← sessionUpdateMaxSize hook (e_blobwrite e) op t c (s_nMaxChangesetSize s);
    Some (rc, set_changes t (t_nEntry t) (t_nChange t)
                (<[Z.to_nat iHash := <[pos := c]> chain]> (t_apChange t)), nMax)
  else Some (rc, t, s_nMaxChangesetSize s).

(** The body after the hash table has been grown (up to [error_out]). *)
Definition hash_and_record (e : Env) (hook : SessionHook) (op iRowid : Z)
    (s : sqlite3_session) (t : SessionTable) : option (Z * SessionTable * Z) :=
  '(rc, iHash, bNull) ←
    sessionPreupdateHash hook (e_utf8_oom e) iRowid t (op =? SQLITE_INSERT) false;
  if negb (rc =? SQLITE_OK) then Some (rc, t, s_nMaxChangesetSize s)
  else if (bNull : bool) then Some (SQLITE_OK, t, s_nMaxChangesetSize s)
  else record_change e hook op iRowid s t iHash.

Definition sessionPreupdateOneChange (e : Env) (hook : SessionHook) (op iRowid : Z)
    (s : sqlite3_session) (t : SessionTable) : option (sqlite3_session * SessionTable) :=
  if truth (s_rc s) then Some (s, t) else
  let '(s, t, bad) := sessionInitTable (e_init e) s t in
  if (bad : bool) then Some (s, t) else
  let nExpect := xCount hook in
  '(s, t, bad) ←
    (if t_nTotalCol t <? nExpect then
       let '(s, t, rc) := sessionReinitTable (e_reinit e) s t in
       if truth rc then Some (s, t, true)
       else '(s, t, rc) ← sessionUpdateChanges e s t; Some (s, t, truth rc)
     else Some (s, t, false));
  if (bad : bool) then Some (s, t) else
  if negb (t_nTotalCol t =? nExpect) then Some (set_rc s SQLITE_SCHEMA, t) else
  '(t, grc) ← sessionGrowHash (e_malloc_hash e) false t;
  if truth grc then Some (set_rc s SQLITE_NOMEM, t) else
  if t_bStat1 t && bool_decide (s_pZeroBlob s = None) && negb (e_value_new e)
  then Some (set_rc s SQLITE_NOMEM, t)
  else
    let s := if t_bStat1 t && bool_decide (s_pZeroBlob s = None)
             then set_zero s (Some (VBlob [])) else s in
    let hook := if t_bStat1 t then stat1_hook (s_pZeroBlob s) hook else hook in
    '(rc, t, nMax) ← hash_and_record e hook op iRowid s t;
    let s := set_max s nMax in
    Some (if negb (rc =? SQLITE_OK) then set_rc s rc else s, t).

(** ** Tables of a session *)

Definition new_table (zName : list Z) : SessionTable :=
  mkTable zName 0 0 false false [] [] [] None 0 0 [].

Definition same_name (zName : list Z) (t : SessionTable) : bool :=
  sqlite3_strnicmp (t_zName t) zName (S (Z.to_nat (sqlite3Strlen30 zName))) =? 0.

(** [zName = None] is the null pointer. *)
Definition sqlite3session_attach (malloc : bool) (s : sqlite3_session) (zName : option (list Z))
    : Z * sqlite3_session :=
  match zName with
  | None =>
      (SQLITE_OK,
       mkSession (s_zDb s) (s_bEnableSize s) (s_bEnable s) (s_bIndirect s) true
         (s_bImplicitPK s) (s_rc s) (s_xTableFilter s) (s_nMaxChangesetSize s)
         (s_pZeroBlob s) (s_pTable s))
  | Some zName =>
      if existsb (same_name zName) (s_pTable s) then (SQLITE_OK, s)
      else if negb malloc then (SQLITE_NOMEM, s)
      else (SQLITE_OK, set_tables s (s_pTable s ++ [new_table zName]))
  end.

(** Index of the first table with the name. *)
Fixpoint find_table (zName : list Z) (ts : list SessionTable) : option nat :=
  match ts with
  | [] => None
  | t :: ts => if same_name zName t then Some O else option_map S (find_table zName ts)
  end.

(** The result code, the session and the index of [*ppTab]. *)
Definition sessionFindTable (malloc : bool) (s : sqlite3_session) (zName : list Z)
    : Z * sqlite3_session * option nat :=
  match find_table zName (s_pTable s) with
  | Some i => (SQLITE_OK, s, Some i)
  | None =>
      if s_bAutoAttach s
         && match s_xTableFilter s with None => true | Some f => f zName end
      then
        let '(rc, s) := sqlite3session_attach malloc s (Some zName) in
        if rc =? SQLITE_OK then (rc, s, Some (length (s_pTable s) - 1)%nat)
        else (rc, s, None)
      else (SQLITE_OK, s, None)
  end.

Definition sqlite3session_table_filter (s : sqlite3_session) (xFilter : option (list Z -> bool))
    : sqlite3_session :=
  mkSession (s_zDb s) (s_bEnableSize s) (s_bEnable s) (s_bIndirect s) true
    (s_bImplicitPK s) (s_rc s) xFilter (s_nMaxChangesetSize s) (s_pZeroBlob s) (s_pTable s).

Definition sqlite3session_enable (s : sqlite3_session) (bEnable : Z) : sqlite3_session * Z :=
  let s := if 0 <=? bEnable
           then mkSession (s_zDb s) (s_bEnableSize s) bEnable (s_bIndirect s) (s_bAutoAttach s)
                  (s_bImplicitPK s) (s_rc s) (s_xTableFilter s) (s_nMaxChangesetSize s)
                  (s_pZeroBlob s) (s_pTable s)
           else s in
  (s, s_bEnable s).

Definition sqlite3session_indirect (s : sqlite3_session) (bIndirect : Z) : sqlite3_session * Z :=
  let s := if 0 <=? bIndirect
           then mkSession (s_zDb s) (s_bEnableSize s) (s_bEnable s) bIndirect (s_bAutoAttach s)
                  (s_bImplicitPK s) (s_rc s) (s_xTableFilter s) (s_nMaxChangesetSize s)
                  (s_pZeroBlob s) (s_pTable s)
           else s in
  (s, s_bIndirect s).

Definition sqlite3session_isempty (s : sqlite3_session) : bool :=
  negb (existsb (fun t => 0 <? t_nEntry t) (s_pTable s)).

(** ** The pre-update hook *)

(** Engine outcomes for one session during one callback: the attach
    allocation and the two [sessionPreupdateOneChange] calls. *)
Record HookEnv := mkHookEnv {
  he_attach : bool;
  he_first : Env;
  he_second : Env
}.

(** One round of the loop of [xPreUpdate]. *)
Definition xPreUpdate_session (he : HookEnv) (hook : SessionHook) (op : Z)
    (zDb zName : list Z) (iKey1 iKey2 : Z) (s : sqlite3_session) : option sqlite3_session :=
  if s_bEnable s =? 0 then Some s
  else if truth (s_rc s) then Some s
  else if truth (sqlite3_strnicmp zDb (s_zDb s) (S (Z.to_nat (sqlite3Strlen30 zDb)))) then Some s
  else
    let '(rc, s, pTab) := sessionFindTable (he_attach he) s zName in
    let s := set_rc s rc in
    match pTab with
    | None => Some s
    | Some i =>
        t ← s_pTable s !! i;
        '(s, t) ← sessionPreupdateOneChange (he_first he) hook op iKey1 s t;
        '(s, t) ←
          (if op =? SQLITE_UPDATE
           then sessionPreupdateOneChange (he_second he) hook SQLITE_INSERT iKey2 s t
           else Some (s, t));
        Some (set_tables s (<[i := t]> (s_pTable s)))
    end.

Fixpoint xPreUpdate (hes : list HookEnv) (hook : SessionHook) (op : Z) (zDb zName : list Z)
    (iKey1 iKey2 : Z) (ss : list sqlite3_session) : option (list sqlite3_session) :=
  match ss with
  | [] => Some []
  | s :: ss =>
      he ← head hes;
      s ← xPreUpdate_session he hook op zDb zName iKey1 iKey2 s;
      ss ← xPreUpdate (tail hes) hook op zDb zName iKey1 iKey2 ss;
      Some (s :: ss)
  end.

(** ** Creation and deletion

    The sessions of a connection, most recent first: the list that
    [pPreUpdateArg] points to. Sessions are named by their address. *)

Definition Chain : Type := list (Z * sqlite3_session).

(** [sqlite3_preupdate_hook(db, xCallback, pArg)] for the callbacks the
    session module installs: the previous list is returned. *)
Definition sqlite3_preupdate_hook (db pArg : Chain) : Chain * Chain := (pArg, db).

Definition new_session (zDb : list Z) : sqlite3_session :=
  mkSession zDb false 1 0 false false SQLITE_OK None 0 None [].

(** [sqlite3session_create(db, zDb, &pNew)]: [malloc] is the address of the
    new object, or [None]. *)
Definition sqlite3session_create (malloc : option Z) (db : Chain) (zDb : list Z)
    : Z * Chain * option Z :=
  match malloc with
  | None => (SQLITE_NOMEM, db, None)
  | Some p =>
      let '(_, pOld) := sqlite3_preupdate_hook db [] in
      let '(db, _) := sqlite3_preupdate_hook db ((p, new_session zDb) :: pOld) in
      (SQLITE_OK, db, Some p)
  end.

(** The search of [sqlite3session_delete]: the list without the session. *)
Fixpoint unlink (p : Z) (db : Chain) : option Chain :=
  match db with
  | [] => None
  | (q, s) :: db => if q =? p then Some db else c ← unlink p db; Some ((q, s) :: c)
  end.

(** A session that is not on the list leaves the hook cleared. *)
Definition sqlite3session_delete (db : Chain) (p : Z) : Chain :=
  let '(db, pHead) := sqlite3_preupdate_hook db [] in
  match unlink p pHead with
  | Some pHead => fst (sqlite3_preupdate_hook db pHead)
  | None => db
  end.
