(* ===== verification/Recorder.v ===== *)
(** * Correctness of the change recorder

    The hash table of a [SessionTable] is related to the list of the rows it
    records ([rep]); the pre-update callback is shown to add exactly the rows
    that were not recorded yet, with the contents they had when they were
    first touched. *)
From stdpp Require Import strings.
From S2P Require Import Prelude Bits Varint Value Record Strings Buffer Session.

Local Open Scope Z_scope.

(** ** Abstract view *)

(** What is recorded for a row: it did not exist, or its old contents. *)
Inductive entry :=
  | EInsert
  | EOld (row : list sqlite3_value).

#[export] Instance entry_eq_dec : EqDecision entry.
Proof. solve_decision. Defined.

(** The fields of a record that holds only key columns. *)
Fixpoint spread (pks : list Z) (k : list sqlite3_value) : list (option sqlite3_value) :=
  match pks with
  | [] => []
  | pk :: pks =>
      if truth pk
      then match k with v :: k => Some v :: spread pks k | [] => None :: spread pks [] end
      else None :: spread pks k
  end.

Definition entry_fields (pks : list Z) (k : list sqlite3_value) (e : entry) : list (option sqlite3_value) :=
  match e with EInsert => spread pks k | EOld row => Some <$> row end.

Definition row_ok (pks : list Z) (row : list sqlite3_value) : Prop :=
  length row = length pks /\ Forall value_ok row.

Definition entry_ok (pks : list Z) (k : list sqlite3_value) (e : entry) : Prop :=
  Forall key_ok k /\
  match e with
  | EInsert => exists row, row_ok pks row /\ pk_part pks row = k
  | EOld row => row_ok pks row /\ pk_part pks row = k
  end.

Definition change_rep (pks : list Z) (c : SessionChange) (p : list sqlite3_value * entry) : Prop :=
  c_aRecord c = enc_fields (entry_fields pks p.1 p.2) /\
  c_nRecord c = Zlen (c_aRecord c) /\ Zlen (c_aRecord c) < 2 ^ 31 /\
  c_nRecordField c = Zlen pks /\
  (c_bIndirect c = 0 \/ c_bIndirect c = 1) /\
  match p.2 with
  | EInsert => c_op c = SQLITE_INSERT
  | EOld _ => c_op c = SQLITE_UPDATE \/ c_op c = SQLITE_DELETE
  end.

(** ** Keys of rows and records *)

Lemma pk_part_spread pks row : length row = length pks ->
  pk_part pks (spread pks (pk_part pks row)) = Some <$> pk_part pks row.
Proof.
  revert row. induction pks as [|pk pks IH]; intros [|v row] L; try discriminate; [reflexivity|].
  injection L as L. cbn [pk_part spread]. destruct (truth pk) eqn:E; cbn [pk_part spread]; rewrite ?E.
  - cbn. f_equal. apply IH, L.
  - apply IH, L.
Qed.

Lemma pk_part_fmap {A B} (f : A -> B) pks l : pk_part pks (f <$> l) = f <$> pk_part pks l.
Proof.
  revert l. induction pks as [|pk pks IH]; intros [|x l]; try reflexivity.
  cbn. destruct (truth pk); cbn; [f_equal|]; apply IH.
Qed.

Lemma pk_part_Forall {A} (P : A -> Prop) pks l : Forall P l -> Forall P (pk_part pks l).
Proof.
  intros H. revert pks. induction H; intros [|pk pks]; cbn; auto. destruct (truth pk); auto.
Qed.

Lemma spread_ok pks k : Forall value_ok k -> fields_ok (spread pks k).
Proof.
  revert k. induction pks as [|pk pks IH]; intros k H; cbn [spread]; [constructor|].
  destruct (truth pk); [destruct H|]; (constructor; cbn; [auto|]); apply IH; auto.
Qed.

Lemma spread_length pks k : length (spread pks k) = length pks.
Proof.
  revert k. induction pks as [|pk pks IH]; intros k; cbn [spread]; [reflexivity|].
  destruct (truth pk); [destruct k|]; cbn; f_equal; apply IH.
Qed.

Lemma key_ok_value k : Forall key_ok k -> Forall value_ok k.
Proof. intros H. eapply Forall_impl; [exact H|]. intros v []; auto. Qed.

Lemma entry_row pks k e : entry_ok pks k e -> exists row, row_ok pks row /\ pk_part pks row = k.
Proof. intros [_ He]. destruct e as [|row]; [exact He|]. exists row. exact He. Qed.

Lemma entry_fields_ok pks k e : entry_ok pks k e ->
  fields_ok (entry_fields pks k e) /\ length (entry_fields pks k e) = length pks /\
  has_key pks (entry_fields pks k e) k.
Proof.
  unfold has_key. intros [Hk He]. destruct e as [|row]; cbn in *.
  - destruct He as (row & [L Hr] & <-). split_and!.
    + apply spread_ok, key_ok_value, Hk.
    + apply spread_length.
    + apply pk_part_spread, L.
  - destruct He as ([L Hr] & <-). split_and!.
    + apply Forall_fmap. exact Hr.
    + rewrite length_fmap. exact L.
    + apply pk_part_fmap.
Qed.

(** ** The values the hook delivers *)

(** [get] returns the row, column by column. *)
Definition delivers (get : Z -> Z * option sqlite3_value) (idx : list Z)
    (row : list sqlite3_value) : Prop :=
  Forall2 (fun i v => get i = (SQLITE_OK, Some v)) idx row.

Definition is_null (v : sqlite3_value) : bool :=
  match v with VNull => true | _ => false end.

Lemma blob_content (z : list Z) :
  (if Zlen z =? 0 then Some [] else x ← sqlite3_value_blob (VBlob z); read_n (Zlen z) x) = Some z.
Proof.
  cbn. unfold truth. destruct (Z.eqb_spec (Zlen z) 0) as [E|E]; cbn.
  - destruct z as [|? z]; [reflexivity|]. zlia.
  - apply read_n_all.
Qed.

Lemma text_content (z : list Z) :
  (if Zlen z =? 0 then Some [] else x ← Some z; read_n (Zlen z) x) = Some z.
Proof.
  destruct (Z.eqb_spec (Zlen z) 0) as [E|E]; cbn.
  - destruct z as [|? z]; [reflexivity|]. zlia.
  - apply read_n_all.
Qed.

Lemma blob_nonnull (z : list Z) :
  bool_decide (sqlite3_value_blob (VBlob z) = None) && (negb (SQLITE_BLOB =? SQLITE_BLOB) || (0 <? Zlen z))
  = false.
Proof.
  cbn. unfold truth. destruct (Z.eqb_spec (Zlen z) 0) as [->|E]; reflexivity.
Qed.

Lemma preupdateHash_loop_spec get oom pks idx row h b :
  length row = length pks -> delivers get idx row -> Forall value_ok row ->
  (exists rc h' b' i, preupdateHash_loop get oom pks idx h b = Some (rc, h', b') /\
     rc <> SQLITE_OK /\ oom i = true) \/
  preupdateHash_loop get oom pks idx h b
  = Some (SQLITE_OK, hash_key h (pk_part pks row), b || existsb is_null (pk_part pks row)).
Proof.
  intros L D. revert pks h b L. induction D as [|i v idx row Hi D IH]; intros [|pk pks] h b L Hv; try discriminate.
  { right. cbn. rewrite orb_false_r. reflexivity. }
  injection L as L. apply Forall_cons in Hv as [Hv Hrow].
  cbn [preupdateHash_loop pk_part]. destruct (truth pk); [|apply IH; auto].
  rewrite Hi. cbn [negb Z.eqb SQLITE_OK mbind option_bind existsb hash_key fold_left].
  destruct v as [|n|r|z|z]; cbn [sqlite3_value_type Z.eqb Pos.eqb orb SQLITE_INTEGER SQLITE_FLOAT
    SQLITE_NULL SQLITE_TEXT SQLITE_BLOB sqlite3_value_int64 sqlite3_value_double sqlite3_value_bytes is_null].
  - rewrite orb_true_r. apply IH; auto.
  - apply IH; auto.
  - apply IH; auto.
  - destruct (oom i) eqn:Ho; [left; cbn; eauto 10|].
    cbn [sqlite3_value_text]. rewrite bool_decide_false by discriminate. cbn [andb].
    rewrite text_content. cbn [mbind option_bind]. apply IH; auto.
  - rewrite blob_nonnull, blob_content. cbn [mbind option_bind]. apply IH; auto.
Qed.

(** Equality of two reals that are neither NaN nor negative zero. *)
Lemma double_eq_bits x y : value_ok (VReal x) -> value_ok (VReal y) ->
  double_eq y (u64 (i64 x)) = bool_decide (x = y).
Proof.
  intros (Hx & Nx & Zx) (Hy & Ny & Zy). rewrite u64_i64_id, double_eq_ok by auto.
  destruct (Z.eqb_spec y x), (bool_decide_reflect (x = y)); congruence.
Qed.

Lemma if_decided (P Q : Prop) `{Decision P, Decision Q} (b : bool) (x : option bool) :
  b = bool_decide P -> (P -> x = Some (bool_decide Q)) -> (Q -> P) ->
  (if negb b then Some false else x) = Some (bool_decide Q).
Proof.
  intros -> Hx HQ. destruct (bool_decide_reflect P) as [HP|HP]; cbn [negb]; [auto|].
  rewrite bool_decide_false; auto.
Qed.

(** The byte comparison of two strings or blobs of the same storage class. *)
Lemma compare_bytes (z y rest : list Z) (oy : option (list Z)) x (Q : Prop) `{Decision Q} :
  oy = Some y \/ y = [] -> (Q -> z = y) -> (z = y -> x = Some (bool_decide Q)) ->
  (if negb (Zlen y =? Zlen z) then Some false else
   differ ← (if 0 <? Zlen z then
               an ← read_n (Zlen z) (z ++ rest); y ← oy; zn ← read_n (Zlen z) y;
               Some (negb (bool_decide (an = zn)))
             else Some false) : option bool;
   if (differ : bool) then Some false else x) = Some (bool_decide Q).
Proof.
  intros Ho HQ Hx. destruct (Z.eqb_spec (Zlen y) (Zlen z)) as [E|E]; cbn [negb].
  2: { rewrite bool_decide_false; [reflexivity|]. intros Hq. apply E. rewrite (HQ Hq). reflexivity. }
  rewrite read_n_app. cbn [mbind option_bind]. destruct (Z.ltb_spec 0 (Zlen z)) as [Hz|Hz].
  - destruct Ho as [-> | ->]; [|rewrite Zlen_nil in E; lia]. cbn [mbind option_bind].
    rewrite <- E, read_n_all. cbn [mbind option_bind].
    destruct (bool_decide_reflect (z = y)) as [Ez|N]; cbn [negb]; [auto|].
    rewrite bool_decide_false; auto.
  - cbn [mbind option_bind]. destruct z as [|? z]; [|zlia].
    destruct y as [|? y]; [auto|]. zlia.
Qed.

(** The comparison of a recorded key with the key of the callback's row. *)
Lemma preupdateEqual_loop_spec get pks idx row fs k rest :
  length row = length pks -> delivers get idx row -> Forall value_ok row ->
  length fs = length pks -> fields_ok fs -> has_key pks fs k -> Forall key_ok k -> bytes_ok rest ->
  preupdateEqual_loop get pks idx (enc_fields fs ++ rest)
  = Some (bool_decide (k = pk_part pks row)).
Proof.
  unfold has_key. intros L D. revert pks fs k L.
  induction D as [|i v idx row Hi D IH]; intros [|pk pks] [|f fs] k L Hv Lf Hfs Hk Hok Hr; try discriminate.
  { destruct k; [reflexivity|discriminate]. }
  injection L as L. injection Lf as Lf. apply Forall_cons in Hv as [Hv Hrow].
  apply fields_ok_cons in Hfs as [Hf Hfs]. rewrite enc_fields_step.
  cbn [preupdateEqual_loop pk_part] in *. destruct (truth pk); cbn [negb].
  2: { rewrite serialLen_enc by auto with noria. cbn [mbind option_bind].
       rewrite advance_app. cbn [mbind option_bind]. apply IH; auto. }
  destruct k as [|w k]; [discriminate|]. injection Hk as -> Hk.
  apply Forall_cons in Hok as [[Hw Nw] Hok]. rewrite Hi. cbn [snd].
  specialize (IH pks fs k L Hrow Lf Hfs Hk Hok Hr).
  assert (w = v -> Some (bool_decide (k = pk_part pks row))
    = Some (bool_decide (w :: k = v :: pk_part pks row))) as Hcons.
  { intros ->. f_equal. apply bool_decide_ext. split; congruence. }
  assert (w :: k = v :: pk_part pks row -> w = v) as Hhead by congruence.
  destruct w as [|x|x|z|z]; [congruence|..]; cbn [enc_field enc_value app lookup list_lookup mbind option_bind drop];
    rewrite drop_0; cbn [mbind option_bind];
    match goal with |- context [sqlite3_value_type ?v =? ?t] =>
         destruct (Z.eqb_spec (sqlite3_value_type v) t) as [Ht|Ht]; cbn [negb];
         [|rewrite bool_decide_false; [reflexivity|intros E; apply Ht; rewrite <- (Hhead E); reflexivity]] end;
    destruct v as [|y|y|y|y]; try discriminate Ht; clear Ht;
    cbn [Z.eqb Pos.eqb orb SQLITE_INTEGER SQLITE_FLOAT SQLITE_NULL SQLITE_TEXT SQLITE_BLOB
      sqlite3_value_int64 sqlite3_value_double sqlite3_value_bytes].
  1,2: rewrite (proj1 (i64_get _ _)), (proj2 (i64_get _ _)); cbn [mbind option_bind]; rewrite IH.
  - apply (if_decided (y = x) (VInt x :: k = VInt y :: pk_part pks row)); [|intros ->; auto|intros E; apply Hhead in E; congruence].
    rewrite i64_id by exact Hw. destruct (Z.eqb_spec y x), (bool_decide_reflect (y = x)); congruence.
  - apply (if_decided (x = y) (VReal x :: k = VReal y :: pk_part pks row)); [apply double_eq_bits; auto|intros ->; auto|intros E; apply Hhead in E; congruence].
  - destruct (text_get z (enc_fields fs ++ rest) Hw ltac:(auto with noria)) as [G A].
    rewrite G; cbn [mbind option_bind]; rewrite A; cbn [mbind option_bind].
    apply compare_bytes; [cbn; auto|intros E; apply Hhead in E; congruence|].
    intros ->. rewrite advance_app. cbn [mbind option_bind]. rewrite IH. auto.
  - destruct (text_get z (enc_fields fs ++ rest) Hw ltac:(auto with noria)) as [G A].
    rewrite G; cbn [mbind option_bind]; rewrite A; cbn [mbind option_bind].
    apply compare_bytes; [|intros E; apply Hhead in E; congruence|].
    + cbn. destruct (truth_len y) as [-> | ->]; auto.
    + intros ->. rewrite advance_app. cbn [mbind option_bind]. rewrite IH. auto.
Qed.

(** ** Building the record *)

(** The fields recorded for a row: all old values, or the key of an INSERT. *)
Fixpoint record_fields (op : Z) (pks : list Z) (row : list sqlite3_value) : list (option sqlite3_value) :=
  match pks, row with
  | pk :: pks, v :: row =>
      (if negb (op =? SQLITE_INSERT) || truth pk then Some v else None)
      :: record_fields op pks row
  | _, _ => []
  end.

Definition entry_of (op : Z) (row : list sqlite3_value) : entry :=
  if op =? SQLITE_INSERT then EInsert else EOld row.

Lemma record_fields_entry op pks row : length row = length pks ->
  record_fields op pks row = entry_fields pks (pk_part pks row) (entry_of op row).
Proof.
  intros L. unfold entry_of. revert row L.
  induction pks as [|pk pks IH]; intros [|v row] L; try discriminate.
  { destruct (op =? _); reflexivity. }
  injection L as L. specialize (IH row L). cbn [record_fields pk_part].
  destruct (op =? SQLITE_INSERT); cbn [negb orb entry_fields spread fmap list_fmap] in *.
  - destruct (truth pk); rewrite IH; reflexivity.
  - rewrite IH. reflexivity.
Qed.

(** The accessor the callback uses for the row of a given operation. *)
Definition hook_get (hook : SessionHook) (op : Z) : Z -> Z * option sqlite3_value :=
  if op =? SQLITE_INSERT then xNew hook else xOld hook.

Lemma record_get_spec hook op pk i v : hook_get hook op i = (SQLITE_OK, Some v) ->
  record_get hook op pk i
  = (SQLITE_OK, if negb (op =? SQLITE_INSERT) || truth pk then Some v else None).
Proof.
  unfold hook_get, record_get. destruct (op =? SQLITE_INSERT); cbn [negb orb]; intros ->;
    [destruct (truth pk)|]; reflexivity.
Qed.

Lemma field_of_value_ok op pk v : value_ok v ->
  field_ok (if negb (op =? SQLITE_INSERT) || truth pk then Some v else None).
Proof. destruct (_ || _); cbn; auto. Qed.

Lemma serialize_size oom f : field_ok f ->
  exists rc n, sessionSerializeValue false oom f = Some (rc, [], n) /\
    (rc <> SQLITE_OK /\ oom = true \/ rc = SQLITE_OK /\ n = Zlen (enc_field f)).
Proof.
  intros Hf. destruct oom; [|rewrite serialize_enc by auto; eauto 10].
  destruct f as [[| | |z|z]|];
    try (exists SQLITE_OK; eexists; split; [reflexivity|right; split; reflexivity]).
  - cbn. exists SQLITE_NOMEM, 0. split; [reflexivity|]. left. split; [discriminate|reflexivity].
  - exists SQLITE_OK, (Zlen (enc_field (Some (VBlob z)))). split; [|auto].
    etransitivity; [|exact (serialize_enc false _ Hf)]. reflexivity.
Qed.

Lemma record_size_spec hook oom op pks idx row n :
  length row = length pks -> delivers (hook_get hook op) idx row -> Forall value_ok row ->
  (exists rc m i, record_size hook oom op pks idx n = Some (rc, m) /\ rc <> SQLITE_OK /\ oom i = true) \/
  record_size hook oom op pks idx n
  = Some (SQLITE_OK, n + Zlen (enc_fields (record_fields op pks row))).
Proof.
  intros L D. revert pks n L. induction D as [|i v idx row Hi D IH]; intros [|pk pks] n L Hv; try discriminate.
  { right. cbn [record_size record_fields]. change (enc_fields []) with (@nil Z).
    rewrite (@Zlen_nil Z), Z.add_0_r. reflexivity. }
  injection L as L. apply Forall_cons in Hv as [Hv Hrow]. cbn [record_size record_fields].
  rewrite (record_get_spec hook op pk i v Hi).
  change (negb (SQLITE_OK =? SQLITE_OK)) with false. cbv iota beta.
  destruct (serialize_size (oom i) _ (field_of_value_ok op pk v Hv)) as (rc & m & -> & [[N Ho]|[-> ->]]);
    cbn [mbind option_bind].
  - left. destruct (Z.eqb_spec rc SQLITE_OK); [contradiction|]. cbn [negb]. eauto 10.
  - change (negb (SQLITE_OK =? SQLITE_OK)) with false. cbv iota. rewrite enc_fields_cons, Zlen_app, Z.add_assoc. apply IH; auto.
Qed.

Lemma record_write_spec hook op pks idx row rec :
  length row = length pks -> delivers (hook_get hook op) idx row -> Forall value_ok row ->
  record_write hook op pks idx rec (Zlen rec)
  = Some (rec ++ enc_fields (record_fields op pks row),
          Zlen rec + Zlen (enc_fields (record_fields op pks row))).
Proof.
  intros L D. revert pks rec L. induction D as [|i v idx row Hi D IH]; intros [|pk pks] rec L Hv; try discriminate.
  { cbn [record_write record_fields]. change (enc_fields []) with (@nil Z).
    rewrite app_nil_r, (@Zlen_nil Z), Z.add_0_r. reflexivity. }
  injection L as L. apply Forall_cons in Hv as [Hv Hrow]. cbn [record_write record_fields].
  rewrite (record_get_spec hook op pk i v Hi). cbn [snd].
  rewrite serialize_enc by (apply field_of_value_ok, Hv). cbn [mbind option_bind].
  rewrite poke_end. cbn [mbind option_bind].
  rewrite <- Zlen_app, IH by auto. rewrite enc_fields_cons, app_assoc. do 2 f_equal. zlia.
Qed.

(** ** The hash table as a set of recorded rows *)

Definition bucket_of (n : Z) (k : list sqlite3_value) : Z := hash_key 0 k mod n.

(** Every entry is in the bucket of its key. *)
Definition placed (B : list (list (list sqlite3_value * entry))) : Prop :=
  forall (i : nat) b, B !! i = Some b ->
    Forall (fun p => bucket_of (Zlen B) p.1 = Z.of_nat i) b.

(** [B] lists, bucket by bucket, the keys and entries of the hash table. *)
Record rep (pks : list Z) (t : SessionTable) (B : list (list (list sqlite3_value * entry))) : Prop := {
  rep_changes : Forall2 (Forall2 (change_rep pks)) (t_apChange t) B;
  rep_size : t_nChange t = Zlen B;
  rep_place : placed B;
  rep_nodup : NoDup (concat B).*1;
  rep_entries : Forall (fun p => entry_ok pks p.1 p.2) (concat B);
  rep_count : Zlen (concat B) <= t_nEntry t;
  rep_load : t_nChange t <= 256 + 4 * t_nEntry t
}.

(** The part of a table object the recorder does not modify. *)
Record columns_ready (pks idx : list Z) (t : SessionTable) : Prop := {
  cr_nCol : t_nCol t = Zlen pks;
  cr_small : 0 < Zlen pks < 2 ^ 15;
  cr_abPK : t_abPK t = Some pks;
  cr_aiIdx : t_aiIdx t = idx;
  cr_rowid : t_bRowid t = false;
  cr_stat1 : t_bStat1 t = false
}.

Lemma set_changes_ready pks idx t a b c :
  columns_ready pks idx t -> columns_ready pks idx (set_changes t a b c).
Proof. intros []. split; auto. Qed.

#[export] Hint Resolve set_changes_ready : noria.

Lemma find_change_spec hook iRowid op pks idx row t chain b :
  columns_ready pks idx t -> row_ok pks row -> delivers (hook_get hook op) idx row ->
  Forall2 (change_rep pks) chain b -> Forall (fun p => entry_ok pks p.1 p.2) b ->
  exists r, find_change hook iRowid t op chain = Some r /\
    match r with
    | None => pk_part pks row ∉ b.*1
    | Some i => exists e, b !! i = Some (pk_part pks row, e)
    end.
Proof.
  intros Hc [L Hrow] D Hch. induction Hch as [|c [k e] chain b Hce Hch IH]; intros Hok.
  { exists None. split; [reflexivity|]. apply not_elem_of_nil. }
  apply Forall_cons in Hok as [Hke Hok]. destruct (IH Hok) as (r & Hr & Hspec).
  cbn [find_change]. unfold sessionPreupdateEqual.
  rewrite (cr_rowid _ _ _ Hc), (cr_abPK _ _ _ Hc), (cr_nCol _ _ _ Hc), (cr_aiIdx _ _ _ Hc).
  cbn [mbind option_bind]. rewrite read_n_all. cbn [mbind option_bind].
  destruct (entry_fields_ok pks k e Hke) as (Hf & Lf & Hkey).
  fold (hook_get hook op). destruct Hce as (-> & _). cbn [fst snd].
  rewrite <- (app_nil_r (enc_fields _)).
  rewrite (preupdateEqual_loop_spec _ pks idx row _ k []) by (auto with noria; apply Hke).
  cbn [mbind option_bind]. destruct (bool_decide_reflect (k = pk_part pks row)) as [->|N].
  - exists (Some O). split; [reflexivity|]. exists e. reflexivity.
  - rewrite Hr. cbn [mbind option_bind]. eexists. split; [reflexivity|].
    destruct r as [i|]; cbn [option_map]; [exact Hspec|].
    cbn. rewrite not_elem_of_cons. auto.
Qed.

Lemma concat_insert {A} (B : list (list A)) i b p : B !! i = Some b ->
  concat (<[i := p :: b]> B) ≡ₚ p :: concat B.
Proof.
  revert i. induction B as [|c B IH]; intros [|i] H; try discriminate.
  - injection H as ->. reflexivity.
  - cbn [insert list_insert concat]. rewrite (IH i H). symmetry. apply Permutation_middle.
Qed.

Lemma Zlen_insert {A} i (x : A) l : Zlen (<[i := x]> l) = Zlen l.
Proof. unfold Zlen. rewrite length_insert. reflexivity. Qed.

(** Adding a change to the chain of its bucket. *)
Lemma push_bucket_spec pks AP B c p :
  Forall2 (Forall2 (change_rep pks)) AP B -> placed B -> change_rep pks c p -> 0 < Zlen B ->
  exists AP' B', push_bucket AP (bucket_of (Zlen B) p.1) c = Some AP' /\
    Forall2 (Forall2 (change_rep pks)) AP' B' /\ placed B' /\ Zlen B' = Zlen B /\
    concat B' ≡ₚ p :: concat B.
Proof.
  intros HF HP Hc Hn. set (h := bucket_of (Zlen B) p.1).
  assert (0 <= h < Zlen B) as Hh by (apply Z.mod_pos_bound; exact Hn).
  destruct (lookup_lt_is_Some_2 B (Z.to_nat h)) as [b Hb]; [unfold Zlen in *; lia|].
  destruct (Forall2_lookup_r _ _ _ _ _ HF Hb) as (ch & Hch & Hrep).
  exists (<[Z.to_nat h := c :: ch]> AP), (<[Z.to_nat h := p :: b]> B).
  unfold push_bucket, at_. rewrite (proj2 (Z.leb_le _ _)) by lia. rewrite Hch.
  split_and!; [reflexivity| | |apply Zlen_insert|apply concat_insert, Hb].
  - apply Forall2_insert; auto.
  - intros j b' Hj. rewrite Zlen_insert.
    destruct (decide (j = Z.to_nat h)) as [->|N].
    + rewrite list_lookup_insert_eq in Hj by (apply lookup_lt_Some in Hb; auto).
      injection Hj as <-. constructor; [|apply HP, Hb]. fold h. lia.
    + rewrite list_lookup_insert_ne in Hj by auto. apply HP, Hj.
Qed.

Lemma placed_empty (n : nat) : placed (replicate n []).
Proof. intros i b Hi. apply lookup_replicate in Hi as [-> _]. constructor. Qed.

Lemma changeHash_entry pks k e n : entry_ok pks k e -> 0 < n < 2 ^ 32 ->
  sessionChangeHash (Zlen pks) pks false (enc_fields (entry_fields pks k e)) n = Some (bucket_of n k).
Proof.
  intros He Hn. unfold sessionChangeHash. rewrite read_n_all. cbn [mbind option_bind].
  destruct (entry_fields_ok _ _ _ He) as (Hf & Lf & Hk).
  rewrite <- (app_nil_r (enc_fields _)).
  rewrite (changeHash_loop_enc pks _ k) by (auto with noria; apply He).
  cbn [mbind option_bind]. destruct (Z.eqb_spec n 0); [lia|].
  unfold bucket_of, u32. rewrite (Z.mod_small n) by lia. reflexivity.
Qed.

Lemma changeHash_rep pks c p n : entry_ok pks p.1 p.2 -> change_rep pks c p -> 0 < n < 2 ^ 32 ->
  0 < Zlen pks ->
  sessionChangeHash (Zlen pks) pks false (c_aRecord c) n = Some (bucket_of n p.1).
Proof. intros He (-> & _) Hn _. apply changeHash_entry; auto. Qed.

(** Rehashing keeps the recorded rows. *)
Lemma rehash_spec pks n ps l AP B :
  Forall2 (change_rep pks) ps l -> Forall (fun p => entry_ok pks p.1 p.2) l ->
  Forall2 (Forall2 (change_rep pks)) AP B -> placed B -> Zlen B = n -> 0 < n < 2 ^ 32 ->
  0 < Zlen pks ->
  exists AP' B', rehash (Zlen pks) pks false n ps AP = Some AP' /\
    Forall2 (Forall2 (change_rep pks)) AP' B' /\ placed B' /\ Zlen B' = n /\
    concat B' ≡ₚ l ++ concat B.
Proof.
  intros HF. revert AP B. induction HF as [|c p ps l Hc HF IH]; intros AP B Hok HB HP HZ Hn Hpk.
  { exists AP, B. split_and!; auto. }
  apply Forall_cons in Hok as [Hp Hok]. cbn [rehash]. rewrite andb_false_r.
  rewrite (changeHash_rep pks c p n) by auto. cbn [mbind option_bind].
  destruct (push_bucket_spec pks AP B c p HB HP Hc ltac:(lia)) as (AP1 & B1 & E & HB1 & HP1 & HZ1 & HC1).
  rewrite HZ in E. rewrite E. cbn [mbind option_bind].
  destruct (IH AP1 B1 Hok HB1 HP1 ltac:(lia) Hn Hpk) as (AP2 & B2 & -> & HB2 & HP2 & HZ2 & HC2).
  exists AP2, B2. split_and!; auto. rewrite HC2, HC1. symmetry. apply Permutation_middle.
Qed.

Lemma concat_rep {A B} (R : A -> B -> Prop) l m : Forall2 (Forall2 R) l m -> Forall2 R (concat l) (concat m).
Proof. induction 1; cbn; [constructor|]. apply Forall2_app; auto. Qed.

(** [sessionGrowHash]: failing to grow an existing table is harmless. *)
Lemma growHash_spec malloc pks idx t B :
  columns_ready pks idx t -> rep pks t B -> t_nEntry t < 2 ^ 26 ->
  exists t' rc B', sessionGrowHash malloc false t = Some (t', rc) /\
    columns_ready pks idx t' /\ t_nTotalCol t' = t_nTotalCol t /\ t_zName t' = t_zName t /\
    t_nEntry t' = t_nEntry t /\ rep pks t' B' /\ concat B' ≡ₚ concat B /\
    (rc = SQLITE_OK -> 0 < t_nChange t') /\ (malloc = true -> rc = SQLITE_OK).
Proof.
  intros Hc HR Hsmall. destruct HR as [HB HZ HP HN HE HC HL]. unfold sessionGrowHash.
  pose proof (Zlen_nonneg B) as Hpos. rewrite <- HZ in Hpos.
  assert (Zlen (t_apChange t) = t_nChange t) as Hap.
  { rewrite HZ. unfold Zlen. f_equal. eapply Forall2_length, HB. }
  destruct ((t_nChange t =? 0) || (t_nChange t ÷ 2 <=? t_nEntry t)) eqn:Hgrow.
  2: { exists t, SQLITE_OK, B. apply orb_false_iff in Hgrow as [E0 _]. apply Z.eqb_neq in E0.
       split_and!; auto; [split; auto|lia]. }
  destruct malloc; cbn [negb].
  2: { exists t, (if t_nChange t =? 0 then SQLITE_ERROR else SQLITE_OK), B.
       split_and!; auto; [split; auto| |discriminate].
       destruct (Z.eqb_spec (t_nChange t) 0); [discriminate|lia]. }
  rewrite <- Hap, read_n_all, Hap. cbn [mbind option_bind].
  set (n := 2 * _).
  assert (n <= 256 + 4 * t_nEntry t /\ 0 < n) as [Hn1 Hn2].
  { unfold n, truth. destruct (Z.eqb_spec (t_nChange t) 0) as [E|E]; cbn [negb].
    - pose proof (Zlen_nonneg (concat B)). lia.
    - cbn [orb] in Hgrow. apply Z.leb_le in Hgrow.
      pose proof (Z.quot_rem' (t_nChange t) 2). pose proof (Z.rem_bound_pos (t_nChange t) 2). lia. }
  rewrite (cr_nCol _ _ _ Hc), (cr_abPK _ _ _ Hc). change (default [] (Some pks)) with pks.
  pose proof (cr_small _ _ _ Hc).
  assert (Zlen (replicate (Z.to_nat n) ([] : list (list sqlite3_value * entry))) = n) as Hrep
    by (unfold Zlen; rewrite length_replicate; lia).
  destruct (rehash_spec pks n (concat (t_apChange t)) (concat B) (replicate (Z.to_nat n) [])
    (replicate (Z.to_nat n) [])) as (AP & B' & -> & HB' & HP' & HZ' & HC'); auto using placed_empty; try lia.
  { apply concat_rep, HB. }
  { apply Forall2_replicate. constructor. }
  assert (concat B' ≡ₚ concat B) as Hperm.
  { rewrite HC'. clear. induction (Z.to_nat n); cbn; [rewrite app_nil_r|]; auto. }
  cbn [mbind option_bind]. rewrite i32_id by (unfold is_i32; lia).
  eexists _, SQLITE_OK, B'. split; [reflexivity|]. split_and!; auto with noria.
  split; cbn; auto; try lia; rewrite ?Hperm; auto.
Qed.

(** ** Recording one row *)

(** The rows recorded after a callback for key [k]. *)
Definition recorded (l : list (list sqlite3_value * entry)) (k : list sqlite3_value) (e : entry)
    (l' : list (list sqlite3_value * entry)) : Prop :=
  if decide (k ∈ l.*1) then l' ≡ₚ l else l' ≡ₚ (k, e) :: l.

Definition op_ok (op : Z) : Prop :=
  op = SQLITE_INSERT \/ op = SQLITE_UPDATE \/ op = SQLITE_DELETE.

Lemma entry_of_ok op pks row : row_ok pks row -> Forall key_ok (pk_part pks row) ->
  entry_ok pks (pk_part pks row) (entry_of op row).
Proof.
  intros Hrow Hk. split; [exact Hk|]. unfold entry_of. destruct (op =? _); eauto.
Qed.

(** The memory of an [Env] suffices: no allocation of the callback fails. *)
Definition env_ample (e : Env) : Prop :=
  e_malloc_hash e = true /\ e_malloc_change e = true /\ forall i, e_utf8_oom e i = false.

(** A record fits in an [int] number of bytes. *)
Definition row_fits (row : list sqlite3_value) : Prop := Zlen (enc_fields (Some <$> row)) < 2 ^ 31.

Lemma record_fields_len op pks row :
  Zlen (enc_fields (record_fields op pks row)) <= Zlen (enc_fields (Some <$> row)).
Proof.
  revert row. induction pks as [|pk pks IH]; intros [|v row]; cbn [record_fields];
    try (change (enc_fields []) with (@nil Z); rewrite (@Zlen_nil Z); (apply Zlen_nonneg || lia)).
  specialize (IH row). rewrite fmap_cons, !enc_fields_cons, !Zlen_app.
  pose proof (enc_field_pos (Some v)).
  destruct (_ || _); [lia|]. change (Zlen (enc_field None)) with 1. lia.
Qed.

Lemma create_change_spec e hook op iRowid bInd pks idx row t B :
  columns_ready pks idx t -> rep pks t B -> row_ok pks row -> row_fits row -> op_ok op ->
  delivers (hook_get hook op) idx row -> Forall key_ok (pk_part pks row) ->
  0 < t_nChange t -> pk_part pks row ∉ (concat B).*1 ->
  exists rc t' B',
    create_change e hook op iRowid bInd t (bucket_of (t_nChange t) (pk_part pks row)) = Some (rc, t') /\
    columns_ready pks idx t' /\ t_nTotalCol t' = t_nTotalCol t /\ t_zName t' = t_zName t /\
    t_nEntry t' = t_nEntry t + 1 /\ rep pks t' B' /\
    (rc = SQLITE_OK -> concat B' ≡ₚ (pk_part pks row, entry_of op row) :: concat B) /\
    (rc <> SQLITE_OK -> B' = B) /\ (env_ample e -> rc = SQLITE_OK).
Proof.
  intros Hc HR [L Hrow] Hfit Hop D Hk Hn Hnew. pose proof HR as [HB HZ HP HN HE HC HL].
  unfold create_change. rewrite (cr_abPK _ _ _ Hc), (cr_nCol _ _ _ Hc). cbn [mbind option_bind].
  rewrite read_n_all. cbn [mbind option_bind set_changes t_bRowid t_aiIdx].
  rewrite (cr_rowid _ _ _ Hc). cbn [Z.b2z Z.to_nat]. rewrite !drop_0, (cr_aiIdx _ _ _ Hc).
  assert (rep pks (set_changes t (t_nEntry t + 1) (t_nChange t) (t_apChange t)) B) as HR1
    by (split; cbn; auto; lia).
  destruct (record_size_spec hook (e_utf8_oom e) op pks idx row SIZEOF_SessionChange L D Hrow)
    as [(rc & m & i & -> & Nrc & Ho)| ->]; cbn [mbind option_bind].
  { destruct (Z.eqb_spec rc SQLITE_OK); [contradiction|]. cbn [negb].
    eexists rc, _, B. split; [reflexivity|]. split_and!; auto with noria; [contradiction|].
    intros (_ & _ & Hn0). rewrite Hn0 in Ho. discriminate. }
  change (negb (SQLITE_OK =? SQLITE_OK)) with false. cbv iota.
  destruct (e_malloc_change e) eqn:Em; cbn [negb].
  2: { eexists SQLITE_NOMEM, _, B. split; [reflexivity|]. split_and!; auto with noria; [discriminate|].
       intros (_ & Hm & _). congruence. }
  pose proof (record_write_spec hook op pks idx row [] L D Hrow) as Hw.
  rewrite (@Zlen_nil Z), Z.add_0_l in Hw. rewrite Hw. clear Hw. cbn [mbind option_bind app].
  pose proof (record_fields_len op pks row) as Hlen. unfold row_fits in Hfit.
  pose proof (Zlen_nonneg (enc_fields (record_fields op pks row))).
  rewrite (proj2 (Z.ltb_ge _ _)) by lia.
  rewrite i32_id by (unfold is_i32; lia).
  set (c := mkChange _ _ _ _ _ _).
  assert (change_rep pks c (pk_part pks row, entry_of op row)) as Hcr.
  { unfold change_rep, c. cbn [c_aRecord c_nRecord c_nRecordField c_bIndirect c_op fst snd t_nCol set_changes].
    rewrite <- record_fields_entry by auto. split_and!; auto; try lia.
    - rewrite (cr_nCol _ _ _ Hc). unfold u16. apply Z.mod_small.
      pose proof (cr_small _ _ _ Hc). lia.
    - destruct (_ || _); auto.
    - unfold entry_of. destruct Hop as [-> | [-> | ->]]; cbn; auto. }
  cbn [t_apChange set_changes]. rewrite HZ in Hn |- *.
  destruct (push_bucket_spec pks _ B c _ HB HP Hcr Hn) as (AP & B' & Epush & HB' & HP' & HZ' & HC').
  cbn [fst] in Epush. rewrite Epush. cbn [mbind option_bind].
  eexists SQLITE_OK, _, B'. split; [reflexivity|]. split_and!; auto with noria; [|done].
  split; cbn [set_changes t_apChange t_nChange t_nEntry]; auto; try lia.
  - rewrite HC'. cbn. constructor; auto.
  - rewrite HC'. constructor; [|exact HE]. apply entry_of_ok; [split|]; auto.
  - rewrite HC', Zlen_cons. lia.
Qed.

Lemma set_bIndirect_rep pks c p b : b = 0 -> change_rep pks c p -> change_rep pks (set_bIndirect c b) p.
Proof. intros -> (? & ? & ? & ? & ? & ?). split_and!; auto. Qed.

(** What a callback does to a table whose columns are loaded. *)
Definition records (pks idx : list Z) (t : SessionTable) (B : list (list (list sqlite3_value * entry)))
    (k : list sqlite3_value) (en : entry) (e : Env) (rc : Z) (t' : SessionTable) : Prop :=
  columns_ready pks idx t' /\ t_nTotalCol t' = t_nTotalCol t /\ t_zName t' = t_zName t /\
  t_nEntry t <= t_nEntry t' <= t_nEntry t + 1 /\
  (exists B', rep pks t' B' /\ (rc = SQLITE_OK -> recorded (concat B) k en (concat B'))) /\
  (env_ample e -> rc = SQLITE_OK).

Lemma bucket_chain pks t B k : rep pks t B -> 0 < t_nChange t ->
  exists chain b, at_ (t_apChange t) (bucket_of (t_nChange t) k) = Some chain /\
    t_apChange t !! Z.to_nat (bucket_of (t_nChange t) k) = Some chain /\
    B !! Z.to_nat (bucket_of (t_nChange t) k) = Some b /\
    Forall2 (change_rep pks) chain b /\ Forall (fun p => entry_ok pks p.1 p.2) b /\
    (k ∈ b.*1 <-> k ∈ (concat B).*1).
Proof.
  intros [HB HZ HP HN HE HC HL] Hn. rewrite HZ in *. set (h := bucket_of (Zlen B) k).
  assert (0 <= h < Zlen B) as Hh by (apply Z.mod_pos_bound; exact Hn).
  destruct (lookup_lt_is_Some_2 B (Z.to_nat h)) as [b Hb]; [unfold Zlen in *; lia|].
  destruct (Forall2_lookup_r _ _ _ _ _ HB Hb) as (ch & Hch & Hrep).
  exists ch, b. unfold at_. rewrite (proj2 (Z.leb_le _ _)) by lia. split_and!; auto.
  - apply Forall_forall. intros p Hp. rewrite Forall_forall in HE. apply HE.
    eapply elem_of_concat_lookup; eauto.
  - rewrite !list_elem_of_fmap. split.
    + intros (p & -> & Hp). eauto using elem_of_concat_lookup.
    + intros (p & -> & Hp). exists p. split; [reflexivity|].
      apply elem_of_concat in Hp as (b' & Hin & Hb').
      apply list_elem_of_lookup_1 in Hb' as (j & Hj).
      specialize (HP j b' Hj). rewrite Forall_forall in HP. specialize (HP p Hin).
      assert (j = Z.to_nat h) as -> by (unfold h; cbn in HP |- *; lia). congruence.
Qed.

(** Replacing a change object by one that records the same row. *)
Lemma rep_update pks t B i pos chain b c c' p :
  rep pks t B -> t_apChange t !! i = Some chain -> B !! i = Some b ->
  chain !! pos = Some c -> b !! pos = Some p -> change_rep pks c' p ->
  rep pks (set_changes t (t_nEntry t) (t_nChange t)
             (<[i := <[pos := c']> chain]> (t_apChange t))) B.
Proof.
  intros [HB HZ HP HN HE HC HL] Hi Hb Hpos Hbp Hc'. split; auto. cbn [t_apChange set_changes].
  rewrite <- (list_insert_id B i b Hb), <- (list_insert_id b pos p Hbp).
  apply Forall2_insert; auto. apply Forall2_insert; auto.
  destruct (Forall2_lookup_r _ _ _ _ _ HB Hb) as (ch & Hch & H). congruence.
Qed.

Lemma recorded_old l k e : k ∈ l.*1 -> recorded l k e l.
Proof. intros H. unfold recorded. rewrite decide_True by exact H. reflexivity. Qed.

Lemma recorded_new l k e l' : k ∉ l.*1 -> l' ≡ₚ (k, e) :: l -> recorded l k e l'.
Proof. intros H Hl. unfold recorded. rewrite decide_False by exact H. exact Hl. Qed.

Lemma record_change_spec e hook op iRowid s pks idx row t B :
  s_bEnableSize s = false -> columns_ready pks idx t -> rep pks t B -> row_ok pks row ->
  row_fits row -> op_ok op -> delivers (hook_get hook op) idx row ->
  Forall key_ok (pk_part pks row) -> 0 < t_nChange t ->
  exists rc t', record_change e hook op iRowid s t (bucket_of (t_nChange t) (pk_part pks row))
      = Some (rc, t', s_nMaxChangesetSize s) /\
    records pks idx t B (pk_part pks row) (entry_of op row) e rc t'.
Proof.
  intros Hsz Hc HR Hrow Hfit Hop D Hk Hn. unfold record_change. rewrite Hsz.
  destruct (bucket_chain pks t B (pk_part pks row) HR Hn)
    as (chain & b & -> & Hlk & Hb & Hch & Hok & Hmem).
  cbn [mbind option_bind].
  destruct (find_change_spec hook iRowid op pks idx row t chain b Hc Hrow D Hch Hok) as (r & -> & Hr).
  cbn [mbind option_bind]. unfold records. destruct r as [pos|].
  - destruct Hr as (en & Hpos).
    destruct (Forall2_lookup_r _ _ _ _ _ Hch Hpos) as (c & Hcp & Hce). rewrite Hcp.
    cbn [mbind option_bind]. rewrite andb_false_r. eexists _, _. split; [reflexivity|].
    assert (pk_part pks row ∈ (concat B).*1) as Hin.
    { apply Hmem, list_elem_of_fmap. exists (pk_part pks row, en). split; [reflexivity|].
      eapply list_elem_of_lookup_2, Hpos. }
    split_and!; auto with noria; try (cbn; lia). exists B. split; [|auto using recorded_old].
    eapply rep_update; eauto. destruct (_ && _); auto using set_bIndirect_rep.
  - rewrite Hmem in Hr.
    destruct (create_change_spec e hook op iRowid (s_bIndirect s) pks idx row t B
      Hc HR Hrow Hfit Hop D Hk Hn Hr) as (rc & t' & B' & -> & Hc' & Ht & Hz & Hne & HR' & Hok' & _ & Ha).
    cbn [mbind option_bind]. rewrite andb_false_r. exists rc, t'. split; [reflexivity|].
    split_and!; auto; try lia. exists B'. split; [exact HR'|]. intros E.
    apply recorded_new; auto.
Qed.

Lemma no_null_keys k : Forall value_ok k -> existsb is_null k = false -> Forall key_ok k.
Proof.
  induction 1 as [|v k Hv Hk IH]; cbn; [constructor|]. intros E. apply orb_false_iff in E as [E1 E2].
  constructor; [split; [exact Hv|intros ->; discriminate]|auto].
Qed.

Lemma key_no_nulls k : Forall key_ok k -> existsb is_null k = false.
Proof. induction 1 as [|v k [_ Hv] _ IH]; cbn; [reflexivity|]. rewrite IH. destruct v; [contradiction|reflexivity..]. Qed.

(** From the hash on: rows with a NULL in their key are ignored. *)
Lemma hash_and_record_spec e hook op iRowid s pks idx row t B :
  s_bEnableSize s = false -> columns_ready pks idx t -> rep pks t B -> row_ok pks row ->
  row_fits row -> op_ok op -> delivers (hook_get hook op) idx row -> 0 < t_nChange t < 2 ^ 31 ->
  exists rc t', hash_and_record e hook op iRowid s t = Some (rc, t', s_nMaxChangesetSize s) /\
    if existsb is_null (pk_part pks row)
    then t' = t /\ (env_ample e -> rc = SQLITE_OK)
    else records pks idx t B (pk_part pks row) (entry_of op row) e rc t'.
Proof.
  intros Hsz Hc HR Hrow Hfit Hop D Hn. unfold hash_and_record, sessionPreupdateHash.
  rewrite (cr_rowid _ _ _ Hc), (cr_abPK _ _ _ Hc), (cr_nCol _ _ _ Hc), (cr_aiIdx _ _ _ Hc).
  cbn [mbind option_bind]. rewrite read_n_all. cbn [mbind option_bind]. fold (hook_get hook op).
  pose proof Hrow as [L Hv].
  destruct (preupdateHash_loop_spec (hook_get hook op) (e_utf8_oom e) pks idx row 0 false L D Hv)
    as [(rc & h & b & i & -> & Nrc & Ho)| ->]; cbn [mbind option_bind].
  - destruct (Z.eqb_spec rc SQLITE_OK) as [|N]; [contradiction|]. cbn [negb mbind option_bind].
    apply Z.eqb_neq in N. rewrite N. cbn [negb]. exists rc, t. split; [reflexivity|].
    assert (env_ample e -> rc = SQLITE_OK) by (intros (_ & _ & H); rewrite H in Ho; discriminate).
    destruct (existsb _ _); [auto|]. unfold records. split_and!; auto; try lia.
    exists B. split; [exact HR|]. contradiction.
  - change (negb (SQLITE_OK =? SQLITE_OK)) with false. cbv iota.
    destruct (Z.eqb_spec (t_nChange t) 0); [lia|]. cbn [orb mbind option_bind].
    change (negb (SQLITE_OK =? SQLITE_OK)) with false. cbv iota.
    destruct (existsb is_null (pk_part pks row)) eqn:En.
    { exists SQLITE_OK, t. auto. }
    rewrite i32_id.
    2: { unfold is_i32, u32. rewrite (Z.mod_small (t_nChange t)) by lia.
         pose proof (Z.mod_pos_bound (hash_key 0 (pk_part pks row)) (t_nChange t)). lia. }
    unfold u32. rewrite (Z.mod_small (t_nChange t)) by lia.
    apply record_change_spec; auto; [|lia]. apply no_null_keys; auto. apply pk_part_Forall, Hv.
Qed.

(** ** The callback *)

Lemma recorded_perm l l1 k e l' : l1 ≡ₚ l -> recorded l1 k e l' -> recorded l k e l'.
Proof.
  intros Hp. unfold recorded. destruct (decide (k ∈ l1.*1)) as [H|H], (decide (k ∈ l.*1)) as [H'|H'];
    rewrite ?Hp in *; tauto.
Qed.

(** What is recorded for the row of a callback: rows with a NULL key are not. *)
Definition recorded_row (pks : list Z) (op : Z) (row : list sqlite3_value)
    (l l' : list (list sqlite3_value * entry)) : Prop :=
  if existsb is_null (pk_part pks row) then l' ≡ₚ l
  else recorded l (pk_part pks row) (entry_of op row) l'.

(** A table object ready to record, holding the rows [l]. *)
Definition holds (pks idx : list Z) (nTotal : Z) (t : SessionTable)
    (l : list (list sqlite3_value * entry)) : Prop :=
  columns_ready pks idx t /\ t_nTotalCol t = nTotal /\ exists B, rep pks t B /\ concat B ≡ₚ l.

Lemma set_rc_id s rc : s_rc s = rc -> set_rc s rc = s.
Proof. destruct s; cbn. intros ->. reflexivity. Qed.

Lemma set_max_id s : set_max s (s_nMaxChangesetSize s) = s.
Proof. destruct s; reflexivity. Qed.

Lemma holds_perm pks idx n t l l' : l ≡ₚ l' -> holds pks idx n t l -> holds pks idx n t l'.
Proof. intros E (Hc & Ht & B & HR & HB). split_and!; auto. exists B. rewrite HB. auto. Qed.

Lemma oneChange_spec e hook op iRowid s pks idx row t l :
  s_rc s = SQLITE_OK -> s_bEnableSize s = false ->
  holds pks idx (xCount hook) t l -> t_nEntry t < 2 ^ 26 ->
  row_ok pks row -> row_fits row -> op_ok op -> delivers (hook_get hook op) idx row ->
  exists rc t' l', sessionPreupdateOneChange e hook op iRowid s t = Some (set_rc s rc, t') /\
    holds pks idx (xCount hook) t' l' /\ t_zName t' = t_zName t /\
    t_nEntry t <= t_nEntry t' <= t_nEntry t + 1 /\
    (rc = SQLITE_OK -> recorded_row pks op row l l') /\ (env_ample e -> rc = SQLITE_OK).
Proof.
  intros Hrc Hsz (Hc & Ht & B & HR & HBl) Hsmall Hrow Hfit Hop D.
  unfold sessionPreupdateOneChange, sessionInitTable. rewrite Hrc. change (truth SQLITE_OK) with false. cbv iota.
  pose proof (cr_small _ _ _ Hc). rewrite (cr_nCol _ _ _ Hc).
  destruct (Z.eqb_spec (Zlen pks) 0); [lia|].
  rewrite (cr_abPK _ _ _ Hc), bool_decide_false by discriminate. rewrite Ht, Z.ltb_irrefl. cbn [mbind option_bind].
  rewrite Ht, Z.eqb_refl. cbn [negb]. rewrite (set_rc_id s) by auto.
  destruct (growHash_spec (e_malloc_hash e) pks idx t B Hc HR Hsmall)
    as (t1 & grc & B1 & -> & Hc1 & Ht1 & Hz1 & Hn1 & HR1 & HB1 & Hpos & Hm).
  cbn [mbind option_bind]. unfold truth. destruct (Z.eqb_spec grc 0) as [->|Ng]; cbn [negb].
  2: { exists SQLITE_NOMEM, t1, l. split; [reflexivity|]. split_and!; auto; try lia; try discriminate.
       - split_and!; [auto|congruence|]. exists B1. split; [auto|]. rewrite HB1. exact HBl.
       - intros (Hh & _). apply Hm in Hh. contradiction. }
  rewrite (cr_stat1 _ _ _ Hc1). cbn [andb]. cbv iota.
  assert (0 < t_nChange t1 < 2 ^ 31) as Hch.
  { pose proof (rep_load _ _ _ HR1). specialize (Hpos eq_refl). lia. }
  destruct (hash_and_record_spec e hook op iRowid s pks idx row t1 B1 Hsz Hc1 HR1 Hrow Hfit Hop D Hch)
    as (rc & t2 & -> & Hspec).
  cbn [mbind option_bind]. rewrite set_max_id. unfold recorded_row.
  assert (forall x, (if negb (rc =? SQLITE_OK) then set_rc s rc else s) = x -> x = set_rc s rc) as Hx.
  { intros x <-. destruct (Z.eqb_spec rc SQLITE_OK) as [->|]; cbn; [|reflexivity].
    symmetry. apply set_rc_id, Hrc. }
  rewrite (Hx _ eq_refl). destruct (existsb is_null (pk_part pks row)).
  - destruct Hspec as [-> Ha]. exists rc, t1, l. split; [reflexivity|]. split_and!; auto; try lia.
    split_and!; [auto|congruence|]. exists B1. split; [auto|]. rewrite HB1. exact HBl.
  - destruct Hspec as (Hc2 & Ht2 & Hz2 & Hn2 & (B2 & HR2 & Hrec) & Ha).
    exists rc, t2, (concat B2). split; [reflexivity|]. split_and!; auto; try lia; try congruence.
    + split_and!; [auto|congruence|]. exists B2. auto.
    + intros ->. eapply recorded_perm; [|apply Hrec; reflexivity]. rewrite HB1. exact HBl.
Qed.
