(* ===== verification/Tracking.v ===== *)
(** * A session against a changing database

    The database is a set of tables, each a map from primary keys to rows.
    Row changes fire the pre-update hook of the session; transactions can be
    opened, committed and rolled back.  [Reach] is the reachability relation
    of this machine; its invariant relates what the session has recorded to
    the difference between the contents at the start and now. *)
From stdpp Require Import gmap strings.
From S2P Require Import Prelude Bits Varint Value Record Strings Buffer Session Recorder.

Local Open Scope Z_scope.

(** ** Databases *)

Notation contents := (gmap (list sqlite3_value) (list sqlite3_value)).

(** A table with its key flags, hook indexes and number of columns, or a
    table the session ignores because it has no declared primary key. *)
Inductive tkind :=
  | Keyed (pks idx : list Z) (nTotal : Z)
  | Keyless.

Inductive change :=
  | CInsert (new : list sqlite3_value)
  | CDelete (old : list sqlite3_value)
  | CUpdate (old new : list sqlite3_value).

Definition change_op (c : change) : Z :=
  match c with
  | CInsert _ => SQLITE_INSERT
  | CDelete _ => SQLITE_DELETE
  | CUpdate _ _ => SQLITE_UPDATE
  end.

(** Rows with a NULL in their key are outside the model of a table. *)
Definition keyed_row (pks : list Z) (r : list sqlite3_value) : bool :=
  negb (existsb is_null (pk_part pks r)).

Definition put_row (pks : list Z) (r : list sqlite3_value) (T : contents) : contents :=
  if keyed_row pks r then <[pk_part pks r := r]> T else T.

Definition remove_row (pks : list Z) (r : list sqlite3_value) (T : contents) : contents :=
  if keyed_row pks r then delete (pk_part pks r) T else T.

Definition apply_change (pks : list Z) (c : change) (T : contents) : contents :=
  match c with
  | CInsert new => put_row pks new T
  | CDelete old => remove_row pks old T
  | CUpdate old new => put_row pks new (remove_row pks old T)
  end.

(** The row is there, or its key is free. *)
Definition present (pks : list Z) (r : list sqlite3_value) (T : contents) : Prop :=
  keyed_row pks r = true -> T !! pk_part pks r = Some r.

Definition absent (pks : list Z) (r : list sqlite3_value) (T : contents) : Prop :=
  keyed_row pks r = true -> T !! pk_part pks r = None.

Definition enabled (pks : list Z) (c : change) (T : contents) : Prop :=
  match c with
  | CInsert new => absent pks new T
  | CDelete old => present pks old T
  | CUpdate old new => present pks old T /\ absent pks new (remove_row pks old T)
  end.

(** ** What the recorded rows mean *)

Record tracks_diff (T0 T1 : contents) (l : list (list sqlite3_value * entry)) : Prop := {
  td_nodup : NoDup l.*1;
  td_same : forall k, k ∉ l.*1 -> T1 !! k = T0 !! k;
  td_entry : forall k e, (k, e) ∈ l ->
    match e with EInsert => T0 !! k = None | EOld r => T0 !! k = Some r end
}.

Lemma tracks_diff_perm T0 T1 l l' : l ≡ₚ l' -> tracks_diff T0 T1 l -> tracks_diff T0 T1 l'.
Proof.
  intros E [H1 H2 H3]. split.
  - rewrite <- E. exact H1.
  - intros k Hk. apply H2. rewrite E. exact Hk.
  - intros k e He. apply H3. rewrite E. exact He.
Qed.

(** The order of the recorded rows is irrelevant. *)
#[export] Instance tracks_diff_Proper T0 T1 : Proper ((≡ₚ) ==> iff) (tracks_diff T0 T1).
Proof. intros l l' E. split; apply tracks_diff_perm; [exact E|symmetry; exact E]. Qed.

Lemma tracks_diff_nil T : tracks_diff T T [].
Proof. split; [constructor|auto|]. intros k e H. inversion H. Qed.

(** Recording the row at [k] allows its contents to change. *)
Lemma tracks_diff_record T0 T1 l k e l' : tracks_diff T0 T1 l -> recorded l k e l' ->
  (match e with EInsert => T1 !! k = None | EOld r => T1 !! k = Some r end) ->
  tracks_diff T0 T1 l' /\ k ∈ l'.*1.
Proof.
  intros HT HR He. pose proof HT as [H1 H2 H3]. unfold recorded in HR. destruct (decide (k ∈ l.*1)) as [Hk|Hk].
  - rewrite HR. auto.
  - rewrite HR. split; [|cbn; constructor]. split.
    + cbn. constructor; auto.
    + intros k' Hk'. cbn in Hk'. apply not_elem_of_cons in Hk' as [_ Hk']. auto.
    + intros k' e' H. apply elem_of_cons in H as [E|H]; [|exact (H3 _ _ H)]. injection E as -> ->.
      rewrite <- (H2 k Hk). exact He.
Qed.

(** A recorded row may take any contents. *)
Lemma tracks_diff_touch T0 T1 T2 l k : tracks_diff T0 T1 l -> k ∈ l.*1 ->
  (forall k', k' <> k -> T2 !! k' = T1 !! k') -> tracks_diff T0 T2 l.
Proof.
  intros [H1 H2 H3] Hk HT. split; auto. intros k' Hk'. rewrite <- (H2 k' Hk'). apply HT.
  intros ->. contradiction.
Qed.

Lemma put_row_ne pks r T k : k <> pk_part pks r -> put_row pks r T !! k = T !! k.
Proof.
  intros N. unfold put_row. destruct (keyed_row pks r); [|reflexivity].
  apply lookup_insert_ne. congruence.
Qed.

Lemma remove_row_ne pks r T k : k <> pk_part pks r -> remove_row pks r T !! k = T !! k.
Proof.
  intros N. unfold remove_row. destruct (keyed_row pks r); [|reflexivity].
  apply lookup_delete_ne. congruence.
Qed.

Lemma not_keyed_same pks r T : keyed_row pks r = false ->
  put_row pks r T = T /\ remove_row pks r T = T.
Proof. unfold put_row, remove_row. intros ->. auto. Qed.

(** ** One change of one row *)

(** Recording the old row and then changing or deleting it. *)
Lemma track_old T0 T1 T2 pks op r l l' :
  tracks_diff T0 T1 l -> op <> SQLITE_INSERT -> present pks r T1 ->
  (forall k, k <> pk_part pks r -> T2 !! k = T1 !! k) ->
  (keyed_row pks r = false -> T2 = T1) ->
  recorded_row pks op r l l' -> tracks_diff T0 T2 l'.
Proof.
  unfold present, recorded_row, keyed_row. intros HT Hop Hp Hne Hk HR.
  destruct (existsb is_null (pk_part pks r)); cbn [negb] in *.
  - rewrite (Hk eq_refl), HR. exact HT.
  - assert (entry_of op r = EOld r) as He.
    { unfold entry_of. destruct (Z.eqb_spec op SQLITE_INSERT); [contradiction|reflexivity]. }
    rewrite He in HR. destruct (tracks_diff_record T0 T1 l _ (EOld r) l' HT HR) as [HT' Hin]; [auto|].
    eapply tracks_diff_touch; eauto.
Qed.

(** Recording the key of a new row and then inserting it. *)
Lemma track_new T0 T1 pks r l l' :
  tracks_diff T0 T1 l -> absent pks r T1 \/ (pk_part pks r ∈ l.*1) ->
  recorded_row pks SQLITE_INSERT r l l' -> tracks_diff T0 (put_row pks r T1) l'.
Proof.
  unfold absent, recorded_row. intros HT Ha HR.
  destruct (existsb is_null (pk_part pks r)) eqn:En.
  - rewrite (proj1 (not_keyed_same pks r T1 ltac:(unfold keyed_row; rewrite En; reflexivity))).
    rewrite HR. exact HT.
  - change (entry_of SQLITE_INSERT r) with EInsert in HR.
    assert (tracks_diff T0 T1 l' /\ pk_part pks r ∈ l'.*1) as [HT' Hin].
    { destruct Ha as [Ha|Hin].
      - apply (tracks_diff_record T0 T1 l _ EInsert l' HT HR). apply Ha.
        unfold keyed_row. rewrite En. reflexivity.
      - unfold recorded in HR. rewrite decide_True in HR by exact Hin. rewrite HR. auto. }
    eapply tracks_diff_touch; eauto. intros. apply put_row_ne. auto.
Qed.

(** A state the database may return to (a savepoint) stays covered when more
    rows are recorded. *)
Lemma recorded_row_incl pks op r l l' : recorded_row pks op r l l' -> l ⊆ l'.
Proof.
  unfold recorded_row, recorded. intros H x Hx.
  destruct (existsb _ _); [rewrite H; exact Hx|].
  destruct (decide _); rewrite H; [exact Hx|constructor; exact Hx].
Qed.

Lemma tracks_diff_saves T0 T1 Ts l l' : tracks_diff T0 T1 l' ->
  Forall (fun T => tracks_diff T0 T l) Ts -> l ⊆ l' -> Forall (fun T => tracks_diff T0 T l') Ts.
Proof.
  intros [H1 _ H3] HTs Hi. eapply Forall_impl; [exact HTs|]. intros T [_ H2 _]. split; auto.
  intros k Hk. apply H2. intros Hin. apply Hk. apply list_elem_of_fmap in Hin as (p & -> & Hp).
  apply list_elem_of_fmap_2, Hi, Hp.
Qed.

(** ** Loading a table *)

(** The schema query, if it succeeds, reports the columns of [kind]. *)
Definition reports (te : TableEnv) (zName : list Z) (kind : tkind) : Prop :=
  let ti := sessionTableInfo te zName false false in
  ti_rc ti = SQLITE_OK ->
  match kind with
  | Keyed pks idx n =>
      ti_nCol ti = Zlen pks /\ ti_nTotalCol ti = n /\ ti_aiIdx ti = idx /\
      ti_abPK ti = Some pks /\ ti_bRowid ti = None
  | Keyless =>
      ti_nCol ti <> 0 /\ existsb truth (default [] (ti_abPK ti)) = false
  end.

Definition kind_ok (kind : tkind) : Prop :=
  match kind with
  | Keyed pks idx n => existsb truth pks = true /\ 0 < Zlen pks < 2 ^ 15
  | Keyless => True
  end.

(** The table object of a keyed table, loaded or not. *)
Definition tracks (pks idx : list Z) (n : Z) (zName : list Z) (t : SessionTable)
    (l : list (list sqlite3_value * entry)) : Prop :=
  t_zName t = zName /\ (holds pks idx n t l \/ t = new_table zName /\ l = []).

Lemma new_table_rep pks zName nCol nTotal az ad idx abPK b :
  rep pks (mkTable zName nCol nTotal b false az ad idx abPK 0 0 []) [].
Proof.
  split; [constructor|reflexivity|intros i b' H; discriminate|constructor|constructor|cbn; zlia|cbn; lia].
Qed.

(** Sessions as Noria configures them. *)
Record plain_session (s : sqlite3_session) : Prop := {
  ps_size : s_bEnableSize s = false;
  ps_rowid : s_bImplicitPK s = false
}.

Lemma plain_set_rc s rc : plain_session s -> plain_session (set_rc s rc).
Proof. intros []. split; auto. Qed.

Lemma initTable_keyed te s zName pks idx n :
  plain_session s -> reports te zName (Keyed pks idx n) -> kind_ok (Keyed pks idx n) ->
  sqlite3StrICmp (str "sqlite_stat1") zName <> 0 ->
  (exists rc t, sessionInitTable te s (new_table zName) = (set_rc s rc, t, true) /\
     rc <> SQLITE_OK /\ t_zName t = zName /\
     rc = ti_rc (sessionTableInfo te zName false false)) \/
  (exists t, sessionInitTable te s (new_table zName) = (set_rc s SQLITE_OK, t, false) /\
     holds pks idx n t [] /\ t_zName t = zName /\ t_nEntry t = 0 /\
     ti_rc (sessionTableInfo te zName false false) = SQLITE_OK).
Proof.
  intros [Hsz Hid] Hrep [Hpk Hlen] Hstat. unfold sessionInitTable. cbn [t_nCol new_table Z.eqb t_zName].
  rewrite Hid, Hsz. unfold reports in Hrep. set (ti := sessionTableInfo te zName false false) in *.
  apply Z.eqb_neq in Hstat. rewrite Hstat, !andb_false_r.
  destruct (Z.eqb_spec (ti_rc ti) SQLITE_OK) as [E|N].
  - right. destruct (Hrep E) as (H1 & H2 & H3 & H4 & H5).
    rewrite E, H1, H2, H3, H4, H5. cbn [default andb id new_table t_bStat1 t_bRowid t_nEntry t_nChange t_apChange].
    rewrite Hpk. change (truth SQLITE_OK) with false. cbn [t_abPK orb].
    rewrite bool_decide_false by discriminate. eexists. split; [reflexivity|]. split_and!; auto.
    split_and!; [split; auto|reflexivity|]. exists []. split; [apply new_table_rep|reflexivity].
  - left. cbn [andb]. eexists (ti_rc ti), _. split; [|split; [exact N|]].
    { unfold truth. destruct (Z.eqb_spec (ti_rc ti) 0); [contradiction|]. reflexivity. }
    split; reflexivity.
Qed.

Lemma oneChange_init e hook op iRowid s zName s1 t1 :
  s_rc s = SQLITE_OK -> sessionInitTable (e_init e) s (new_table zName) = (set_rc s SQLITE_OK, t1, false) ->
  t_nCol t1 <> 0 -> t_abPK t1 <> None -> s1 = s ->
  sessionPreupdateOneChange e hook op iRowid s (new_table zName)
  = sessionPreupdateOneChange e hook op iRowid s1 t1.
Proof.
  intros Hrc Hi Hn Hp ->. unfold sessionPreupdateOneChange. rewrite Hrc, Hi.
  change (truth SQLITE_OK) with false. cbv iota.
  unfold sessionInitTable. apply Z.eqb_neq in Hn. rewrite Hn, bool_decide_false by exact Hp. reflexivity.
Qed.

(** One call of [sessionPreupdateOneChange] on a tracked table. *)
Lemma oneChange_tracked e hook op iRowid s pks idx zName r t l :
  s_rc s = SQLITE_OK -> plain_session s -> tracks pks idx (xCount hook) zName t l ->
  reports (e_init e) zName (Keyed pks idx (xCount hook)) -> kind_ok (Keyed pks idx (xCount hook)) ->
  sqlite3StrICmp (str "sqlite_stat1") zName <> 0 ->
  t_nEntry t < 2 ^ 26 -> row_ok pks r -> row_fits r -> op_ok op ->
  delivers (hook_get hook op) idx r ->
  exists rc t', sessionPreupdateOneChange e hook op iRowid s t = Some (set_rc s rc, t') /\
    t_zName t' = zName /\
    (rc = SQLITE_OK -> t_nEntry t' <= t_nEntry t + 1 /\
       exists l', holds pks idx (xCount hook) t' l' /\ recorded_row pks op r l l') /\
    (env_ample e -> ti_rc (sessionTableInfo (e_init e) zName false false) = SQLITE_OK -> rc = SQLITE_OK).
Proof.
  intros Hrc Hps [Hz Ht] Hrep Hkind Hstat Hsmall Hrow Hfit Hop D.
  assert (forall t0, sessionPreupdateOneChange e hook op iRowid s t
      = sessionPreupdateOneChange e hook op iRowid s t0 -> holds pks idx (xCount hook) t0 l ->
      t_zName t0 = zName -> t_nEntry t0 = t_nEntry t ->
      exists rc t', sessionPreupdateOneChange e hook op iRowid s t = Some (set_rc s rc, t') /\
      t_zName t' = zName /\ (rc = SQLITE_OK -> t_nEntry t' <= t_nEntry t + 1 /\
       exists l', holds pks idx (xCount hook) t' l' /\ recorded_row pks op r l l') /\
      (env_ample e -> rc = SQLITE_OK)) as Hmain.
  { intros t0 -> Hh Hz0 Hn0.
    destruct (oneChange_spec e hook op iRowid s pks idx r t0 l Hrc (ps_size _ Hps) Hh ltac:(lia)
      Hrow Hfit Hop D) as (rc & t' & l' & -> & Hh' & Hz' & Hn' & Hr' & Ha').
    exists rc, t'. split_and!; auto; [congruence|]. intros ->. split; [lia|]. exists l'. auto. }
  destruct Ht as [Hh|[-> ->]].
  - destruct (Hmain t) as (rc & t' & ? & ? & ? & ?); auto. exists rc, t'. auto.
  - destruct (initTable_keyed (e_init e) s zName pks idx (xCount hook) Hps Hrep Hkind Hstat)
      as [(rc & t1 & Hi & N & Hz1 & Eti)|(t1 & Hi & Hh & Hz1 & Hn1 & Hok)].
    + exists rc, t1. unfold sessionPreupdateOneChange. rewrite Hrc, Hi.
      change (truth SQLITE_OK) with false. cbv iota. split_and!; auto; [contradiction|].
      intros _ Hti. congruence.
    + destruct (Hmain t1) as (rc & t' & ? & ? & ? & ?); auto; [|exists rc, t'; auto].
      destruct Hh as (Hc & _). eapply oneChange_init; eauto.
      * rewrite (cr_nCol _ _ _ Hc). destruct Hkind. lia.
      * rewrite (cr_abPK _ _ _ Hc). discriminate.
Qed.

(** The table object of a table without primary key: nothing is recorded. *)
Definition ignores (zName : list Z) (t : SessionTable) : Prop :=
  t_zName t = zName /\ t_nEntry t = 0 /\ t_nChange t = 0 /\ t_apChange t = [] /\
  t_abPK t = None /\ t_bStat1 t = false /\ (t_nCol t <> 0 \/ t = new_table zName).

Lemma oneChange_keyless e hook op iRowid s zName t :
  s_rc s = SQLITE_OK -> plain_session s -> ignores zName t ->
  reports (e_init e) zName Keyless -> sqlite3StrICmp (str "sqlite_stat1") zName <> 0 ->
  exists rc t', sessionPreupdateOneChange e hook op iRowid s t = Some (set_rc s rc, t') /\
    t_zName t' = zName /\ (rc = SQLITE_OK -> ignores zName t') /\
    (ti_rc (sessionTableInfo (e_init e) zName false false) = SQLITE_OK -> rc = SQLITE_OK).
Proof.
  intros Hrc [Hsz Hid] (Hz & Hn & Hc & Ha & Hp & Hb & Hcol) Hrep Hstat.
  unfold sessionPreupdateOneChange, sessionInitTable. rewrite Hrc. change (truth SQLITE_OK) with false. cbv iota.
  destruct (Z.eqb_spec (t_nCol t) 0) as [E0|N0].
  - destruct Hcol as [|Ht]; [contradiction|]. rewrite Hid, Hsz, Hz.
    unfold reports in Hrep. set (ti := sessionTableInfo (e_init e) zName false false) in *.
    apply Z.eqb_neq in Hstat. rewrite Hstat, !andb_false_r.
    destruct (Z.eqb_spec (ti_rc ti) SQLITE_OK) as [E|N]; cbn [andb].
    + destruct (Hrep E) as [H1 H2]. rewrite H2. cbn [t_abPK]. rewrite bool_decide_true, orb_true_r by reflexivity.
      eexists _, _. split; [reflexivity|]. split_and!; auto. intros _. split_and!; auto.
    + eexists _, _. cbn [t_abPK]. rewrite bool_decide_true, orb_true_r by reflexivity.
      split; [reflexivity|]. split_and!; auto. intros E. contradiction.
  - rewrite Hp, bool_decide_true by reflexivity. exists SQLITE_OK, t. split_and!; auto.
    intros _. split_and!; auto.
Qed.

(** ** Names *)

Section Machine.

(** The tables of the database, and their kinds. *)
Context (names : list (list Z)) (schema : list Z -> tkind) (zDb : list Z).

Record schema_ok : Prop := {
  so_cstring : forall n, n ∈ names -> cstring n /\ Zlen n < 2 ^ 30;
  so_inj : forall n m, n ∈ names -> m ∈ names -> lower n = lower m -> n = m;
  so_stat1 : forall n, n ∈ names -> sqlite3StrICmp (str "sqlite_stat1") n <> 0;
  so_kind : forall n, n ∈ names -> kind_ok (schema n);
  so_flags : forall n, n ∈ names -> match schema n with Keyed pks _ _ => bytes_ok pks | Keyless => True end;
  so_db : cstring zDb /\ Zlen zDb < 2 ^ 30
}.

Context (Hschema : schema_ok).

Lemma strnicmp_refl a N : cstring a -> sqlite3_strnicmp a a N = 0.
Proof.
  intros Ha. revert N. induction Ha as [|c a Hc Ha IH]; intros [|N]; cbn [sqlite3_strnicmp first tail];
    try reflexivity. rewrite Z.eqb_refl. apply IH.
Qed.

Lemma same_name_spec n t : n ∈ names -> t_zName t ∈ names ->
  same_name n t = bool_decide (t_zName t = n).
Proof.
  intros Hn Ht. destruct (so_cstring Hschema n Hn) as [Cn Ln].
  destruct (so_cstring Hschema _ Ht) as [Ct Lt]. unfold same_name.
  rewrite strlen30_small, Zlen_to_nat by exact Ln.
  pose proof (strnicmp_spec (t_zName t) n Ct Cn) as Hs.
  destruct (Z.eqb_spec (sqlite3_strnicmp (t_zName t) n (S (length n))) 0) as [E|N];
    destruct (bool_decide_reflect (t_zName t = n)) as [E'|N']; try reflexivity.
  - exfalso. apply N', (so_inj Hschema); auto. apply Hs, E.
  - exfalso. apply N, Hs. rewrite E'. reflexivity.
Qed.

Lemma find_table_spec n ts : n ∈ names -> Forall (fun t => t_zName t ∈ names) ts ->
  match find_table n ts with
  | Some i => exists t, ts !! i = Some t /\ t_zName t = n
  | None => n ∉ t_zName <$> ts
  end.
Proof.
  intros Hn. induction 1 as [|t ts Ht Hts IH]; cbn [find_table].
  - apply not_elem_of_nil.
  - rewrite same_name_spec by auto. destruct (bool_decide_reflect (t_zName t = n)) as [E|N].
    + exists t. auto.
    + destruct (find_table n ts) as [i|]; cbn [option_map].
      * destruct IH as (t' & Hi & E). exists t'. auto.
      * cbn. apply not_elem_of_cons. auto.
Qed.

Lemma attach_search n ts : n ∈ names -> Forall (fun t => t_zName t ∈ names) ts ->
  n ∉ t_zName <$> ts -> existsb (same_name n) ts = false.
Proof.
  intros Hn. induction 1 as [|t ts Ht Hts IH]; cbn; [reflexivity|].
  intros N. apply not_elem_of_cons in N as [N1 N2].
  rewrite same_name_spec, bool_decide_false by (auto; congruence). apply IH, N2.
Qed.

(** ** Events *)

Record event := mkEvent {
  ev_name : list Z;
  ev_change : change;
  ev_key1 : Z;
  ev_key2 : Z;
  ev_hook : SessionHook;
  ev_env : HookEnv
}.

(** A row the engine can hold, and that the accessor [get] delivers. *)
Definition row_delivered (pks idx : list Z) (get : Z -> Z * option sqlite3_value)
    (r : list sqlite3_value) : Prop :=
  row_ok pks r /\ row_fits r /\ delivers get idx r.

Definition change_delivered (pks idx : list Z) (hook : SessionHook) (c : change) : Prop :=
  match c with
  | CInsert new => row_delivered pks idx (xNew hook) new
  | CDelete old => row_delivered pks idx (xOld hook) old
  | CUpdate old new => row_delivered pks idx (xOld hook) old /\ row_delivered pks idx (xNew hook) new
  end.

(** The two calls [xPreUpdate] makes for a session and a table. *)
Definition change_calls (he : HookEnv) (hook : SessionHook) (op k1 k2 : Z)
    (s : sqlite3_session) (t : SessionTable) : option (sqlite3_session * SessionTable) :=
  '(s, t) ← sessionPreupdateOneChange (he_first he) hook op k1 s t;
  if op =? SQLITE_UPDATE
  then sessionPreupdateOneChange (he_second he) hook SQLITE_INSERT k2 s t
  else Some (s, t).

Definition env_good (he : HookEnv) (zName : list Z) : Prop :=
  env_ample (he_first he) /\ env_ample (he_second he) /\
  ti_rc (sessionTableInfo (e_init (he_first he)) zName false false) = SQLITE_OK.

Lemma set_rc_rc s a b : set_rc (set_rc s a) b = set_rc s b.
Proof. reflexivity. Qed.

Lemma change_calls_keyed he hook c k1 k2 s pks idx zName t l T0 T1 Ts :
  s_rc s = SQLITE_OK -> plain_session s -> tracks pks idx (xCount hook) zName t l ->
  tracks_diff T0 T1 l -> Forall (fun T => tracks_diff T0 T l) Ts ->
  enabled pks c T1 -> change_delivered pks idx hook c ->
  reports (e_init (he_first he)) zName (Keyed pks idx (xCount hook)) ->
  kind_ok (Keyed pks idx (xCount hook)) ->
  sqlite3StrICmp (str "sqlite_stat1") zName <> 0 -> t_nEntry t + 1 < 2 ^ 26 ->
  exists rc t', change_calls he hook (change_op c) k1 k2 s t = Some (set_rc s rc, t') /\
    t_zName t' = zName /\
    (rc = SQLITE_OK -> t_nEntry t' <= t_nEntry t + 2 /\
       exists l', tracks pks idx (xCount hook) zName t' l' /\
                  tracks_diff T0 (apply_change pks c T1) l' /\
                  Forall (fun T => tracks_diff T0 T l') Ts) /\
    (env_good he zName -> rc = SQLITE_OK).
Proof.
  intros Hrc Hps Ht HT HTs Hen HD Hrep Hk Hst Hsm. unfold change_calls.
  assert (op_ok SQLITE_INSERT /\ op_ok SQLITE_DELETE /\ op_ok SQLITE_UPDATE) as (O1 & O2 & O3)
    by (unfold op_ok; auto).
  destruct c as [new|old|old new]; cbn [change_op enabled change_delivered apply_change] in *.
  - destruct HD as (Hr & Hf & D).
    destruct (oneChange_tracked (he_first he) hook SQLITE_INSERT k1 s pks idx zName new t l)
      as (rc & t' & -> & Hz & Hspec & Ha); auto; try lia.
    cbn [mbind option_bind]. change (SQLITE_INSERT =? SQLITE_UPDATE) with false. cbv iota.
    exists rc, t'. split_and!; auto.
    + intros E. destruct (Hspec E) as (Hn & l' & Hh & HR). split; [lia|]. exists l'.
      assert (tracks_diff T0 (put_row pks new T1) l') by (eapply track_new; eauto).
      split_and!; [split; auto|auto|]. eapply tracks_diff_saves; eauto using recorded_row_incl.
    + intros (H1 & H2 & H3). auto.
  - destruct HD as (Hr & Hf & D).
    destruct (oneChange_tracked (he_first he) hook SQLITE_DELETE k1 s pks idx zName old t l)
      as (rc & t' & -> & Hz & Hspec & Ha); auto; try lia.
    cbn [mbind option_bind]. change (SQLITE_DELETE =? SQLITE_UPDATE) with false. cbv iota.
    exists rc, t'. split_and!; auto.
    + intros E. destruct (Hspec E) as (Hn & l' & Hh & HR). split; [lia|]. exists l'.
      assert (tracks_diff T0 (remove_row pks old T1) l').
      { apply (track_old T0 T1 _ pks SQLITE_DELETE old l l'); auto.
        * intros k N. apply remove_row_ne, N.
        * intros E'. apply not_keyed_same, E'. }
      split_and!; [split; auto|auto|]. eapply tracks_diff_saves; eauto using recorded_row_incl.
    + intros (H1 & H2 & H3). auto.
  - destruct HD as [(Hr & Hf & D) (Hr' & Hf' & D')]. destruct Hen as [Hp Hab].
    destruct (oneChange_tracked (he_first he) hook SQLITE_UPDATE k1 s pks idx zName old t l)
      as (rc & t1 & -> & Hz & Hspec & Ha); auto; try lia.
    cbn [mbind option_bind]. rewrite Z.eqb_refl.
    destruct (decide (rc = SQLITE_OK)) as [->|N].
    2: { unfold sessionPreupdateOneChange. cbn [s_rc set_rc]. unfold truth.
         destruct (Z.eqb_spec rc 0); [contradiction|]. cbn [negb].
         exists rc, t1. split_and!; auto; [contradiction|]. intros (H1 & H2 & H3). auto. }
    destruct (Hspec eq_refl) as (Hn & l1 & Hh1 & HR1). rewrite (set_rc_id s) by auto.
    assert (tracks_diff T0 (remove_row pks old T1) l1) as HT1.
    { apply (track_old T0 T1 _ pks SQLITE_UPDATE old l l1); auto.
      * intros k N. apply remove_row_ne, N.
      * intros E'. apply not_keyed_same, E'. }
    destruct (oneChange_spec (he_second he) hook SQLITE_INSERT k2 s pks idx new t1 l1)
      as (rc & t2 & l2 & -> & Hh2 & Hz2 & Hn2 & HR2 & Ha2); auto; try lia; [apply Hps|].
    exists rc, t2. split_and!; auto; [congruence| |].
    + intros E. split; [lia|]. exists l2.
      assert (tracks_diff T0 (put_row pks new (remove_row pks old T1)) l2) by (eapply track_new; eauto).
      split_and!; [split; [congruence|auto]|auto|].
      apply (tracks_diff_saves T0 _ Ts l1 l2 ltac:(eassumption)).
      * apply (tracks_diff_saves T0 _ Ts l l1 HT1 HTs). eapply recorded_row_incl, HR1.
      * eapply recorded_row_incl, HR2, E.
    + intros (H1 & H2 & H3). auto.
Qed.

(** ** The invariant of a session *)

Definition database : Type := list Z -> contents.

Definition db_apply (n : list Z) (c : change) (D : database) : database :=
  match schema n with
  | Keyed pks _ _ => fun m => if decide (m = n) then apply_change pks c (D n) else D m
  | Keyless => D
  end.

Definition table_inv (N : Z) (T0 : contents) (Ts : list contents) (t : SessionTable) : Prop :=
  match schema (t_zName t) with
  | Keyed pks idx n =>
      t_nEntry t <= N /\
      exists l, tracks pks idx n (t_zName t) t l /\ Forall (fun T => tracks_diff T0 T l) Ts
  | Keyless => ignores (t_zName t) t
  end.

(** [D0] is the database when recording started and [Ds] the current one and
    the savepoints; [N] bounds the number of entries. The conditions on the recorded rows
    hold as long as the session has not failed. *)
Record session_inv (D0 : database) (Ds : list database) (N : Z) (s : sqlite3_session) : Prop := {
  si_enable : s_bEnable s <> 0;
  si_attach : s_bAutoAttach s = true;
  si_filter : s_xTableFilter s = None;
  si_zDb : s_zDb s = zDb;
  si_plain : plain_session s;
  si_names : Forall (fun t => t_zName t ∈ names) (s_pTable s);
  si_nodup : NoDup (t_zName <$> s_pTable s);
  si_tables : s_rc s = SQLITE_OK ->
    Forall (fun t => table_inv N (D0 (t_zName t)) ((fun D => D (t_zName t)) <$> Ds) t) (s_pTable s);
  si_rest : s_rc s = SQLITE_OK ->
    forall n D, n ∈ names -> D ∈ Ds -> n ∉ t_zName <$> s_pTable s -> D n = D0 n
}.

Definition event_ok (D : database) (ev : event) : Prop :=
  ev_name ev ∈ names /\
  reports (e_init (he_first (ev_env ev))) (ev_name ev) (schema (ev_name ev)) /\
  match schema (ev_name ev) with
  | Keyed pks idx n =>
      xCount (ev_hook ev) = n /\ enabled pks (ev_change ev) (D (ev_name ev)) /\
      change_delivered pks idx (ev_hook ev) (ev_change ev)
  | Keyless =>
      reports (e_init (he_second (ev_env ev))) (ev_name ev) Keyless
  end.

Lemma table_inv_weaken N N' T0 Ts t : N <= N' -> table_inv N T0 Ts t -> table_inv N' T0 Ts t.
Proof.
  intros HN. unfold table_inv. destruct (schema (t_zName t)); [|auto].
  intros [H1 H2]. split; [lia|auto].
Qed.

Lemma new_table_inv N n T Ts : n ∈ names -> 0 <= N -> Forall (fun T' => T' = T) Ts ->
  table_inv N T Ts (new_table n).
Proof.
  intros Hn HN HTs. unfold table_inv. cbn [t_zName new_table]. destruct (schema n).
  - split; [cbn; lia|]. exists []. split; [split; auto|].
    eapply Forall_impl; [exact HTs|]. intros T' ->. apply tracks_diff_nil.
  - split_and!; auto.
Qed.

(** Looking a table up attaches it if it is new. *)
Lemma findTable_spec malloc D0 Ds N s n :
  session_inv D0 Ds N s -> s_rc s = SQLITE_OK -> n ∈ names -> 0 <= N ->
  exists rc s1 o, sessionFindTable malloc s n = (rc, s1, o) /\
    ((rc <> SQLITE_OK /\ o = None /\ s1 = s /\ malloc = false) \/
     (rc = SQLITE_OK /\ s_rc s1 = SQLITE_OK /\ session_inv D0 Ds N s1 /\
      exists i t, o = Some i /\ s_pTable s1 !! i = Some t /\ t_zName t = n)).
Proof.
  intros HI Hrc Hn HN. destruct HI as [He Hat Hfi Hdb Hpl Hna Hnd Hta Hre]. unfold sessionFindTable.
  pose proof (find_table_spec n (s_pTable s) Hn Hna) as Hf.
  destruct (find_table n (s_pTable s)) as [i|].
  { destruct Hf as (t & Hi & E). eexists SQLITE_OK, s, _. split; [reflexivity|]. right.
    split_and!; auto; [split; auto|eauto]. }
  rewrite Hat, Hfi. cbn [andb]. unfold sqlite3session_attach.
  rewrite attach_search by auto. destruct malloc; cbn [negb].
  2: { eexists _, _, _. split; [reflexivity|]. left. split_and!; auto. }
  rewrite Z.eqb_refl. eexists _, _, _. split; [reflexivity|]. right. split_and!; auto.
  - split; cbn [s_bEnable s_bAutoAttach s_xTableFilter s_zDb s_pTable s_rc set_tables]; auto.
    + destruct Hpl; split; auto.
    + apply Forall_app. split; auto.
    + rewrite fmap_app. apply NoDup_app. split_and!; auto; [|apply NoDup_singleton].
      intros m Hm Hm'. cbn in Hm'. apply list_elem_of_singleton in Hm' as ->. contradiction.
    + intros _. apply Forall_app. split; [auto|]. constructor; [|constructor]. cbn [t_zName new_table].
      apply new_table_inv; auto. apply Forall_fmap, Forall_forall. intros D HD. apply Hre; auto.
    + intros _ m D Hm HD Hm'. rewrite fmap_app, elem_of_app in Hm'. apply Hre; auto.
  - exists (length (s_pTable s)), (new_table n). cbn [s_pTable set_tables].
    rewrite length_app, list_lookup_middle by reflexivity. split_and!; auto.
    f_equal. cbn. lia.
Qed.

(** The two calls on the table found. *)
Lemma change_calls_inv ev D0 D1 Ts N s t :
  event_ok D1 ev -> s_rc s = SQLITE_OK -> plain_session s -> t_zName t = ev_name ev ->
  table_inv N (D0 (ev_name ev)) (D1 (ev_name ev) :: Ts) t -> 0 <= N < 2 ^ 25 ->
  exists rc t', change_calls (ev_env ev) (ev_hook ev) (change_op (ev_change ev)) (ev_key1 ev) (ev_key2 ev) s t
      = Some (set_rc s rc, t') /\ t_zName t' = ev_name ev /\
    (rc = SQLITE_OK -> table_inv (N + 2) (D0 (ev_name ev))
       (db_apply (ev_name ev) (ev_change ev) D1 (ev_name ev) :: Ts) t') /\
    (env_good (ev_env ev) (ev_name ev) ->
     ti_rc (sessionTableInfo (e_init (he_second (ev_env ev))) (ev_name ev) false false) = SQLITE_OK ->
     rc = SQLITE_OK).
Proof.
  intros (Hn & Hrep & Hev) Hrc Hpl Hz Hti HN. unfold table_inv, db_apply in *. rewrite Hz in Hti.
  pose proof (so_kind Hschema _ Hn) as Hkind. pose proof (so_stat1 Hschema _ Hn) as Hst.
  destruct (schema (ev_name ev)) as [pks idx n|] eqn:Esc.
  - destruct Hev as (Hcount & Hen & HD). destruct Hti as (Hle & l & Ht & HT). subst n.
    apply Forall_cons in HT as [HT HTs].
    destruct (change_calls_keyed (ev_env ev) (ev_hook ev) (ev_change ev) (ev_key1 ev) (ev_key2 ev) s
      pks idx (ev_name ev) t l _ _ Ts Hrc Hpl Ht HT HTs Hen HD Hrep Hkind Hst ltac:(lia))
      as (rc & t' & -> & Hz' & Hspec & Ha).
    exists rc, t'. split_and!; auto. intros E. destruct (Hspec E) as (Hle' & l' & Ht' & HT' & HTs').
    rewrite Hz', Esc. split; [lia|]. exists l'. rewrite decide_True by reflexivity. auto.
  - unfold change_calls.
    destruct (oneChange_keyless (he_first (ev_env ev)) (ev_hook ev) (change_op (ev_change ev)) (ev_key1 ev)
      s (ev_name ev) t Hrc Hpl Hti Hrep Hst) as (rc & t1 & -> & Hz1 & Hspec & Ha).
    cbn [mbind option_bind]. destruct (change_op (ev_change ev) =? SQLITE_UPDATE).
    2: { exists rc, t1. split_and!; auto; [intros E; rewrite Hz1, Esc; auto|].
         intros (_ & _ & H) _. auto. }
    destruct (decide (rc = SQLITE_OK)) as [->|N'].
    + rewrite (set_rc_id s) by auto.
      destruct (oneChange_keyless (he_second (ev_env ev)) (ev_hook ev) SQLITE_INSERT (ev_key2 ev)
        s (ev_name ev) t1 Hrc Hpl (Hspec eq_refl) Hev Hst) as (rc & t2 & -> & Hz2 & Hspec2 & Ha2).
      exists rc, t2. split_and!; auto. intros E. rewrite Hz2, Esc. auto.
    + unfold sessionPreupdateOneChange. cbn [s_rc set_rc]. unfold truth.
      destruct (Z.eqb_spec rc 0); [contradiction|]. cbn [negb].
      exists rc, t1. split_and!; auto; [contradiction|]. intros (_ & _ & H) _. auto.
Qed.

Lemma db_apply_other n c D m : m <> n -> db_apply n c D m = D m.
Proof.
  intros N. unfold db_apply. destruct (schema n); [|reflexivity]. rewrite decide_False; auto.
Qed.

(** The hook on a session that has failed does nothing. *)
Lemma session_inv_failed D0 Ds Ds' N N' s : s_rc s <> SQLITE_OK ->
  session_inv D0 Ds N s -> session_inv D0 Ds' N' s.
Proof. intros Hrc [? ? ? ? ? ? ? ? ?]. split; auto; intros; contradiction. Qed.

(** No allocation or schema query of the callback fails. *)
Definition event_ample (ev : event) : Prop :=
  he_attach (ev_env ev) = true /\ env_good (ev_env ev) (ev_name ev) /\
  ti_rc (sessionTableInfo (e_init (he_second (ev_env ev))) (ev_name ev) false false) = SQLITE_OK.

Definition fire (ev : event) (s : sqlite3_session) : option sqlite3_session :=
  xPreUpdate_session (ev_env ev) (ev_hook ev) (change_op (ev_change ev)) zDb (ev_name ev)
    (ev_key1 ev) (ev_key2 ev) s.

Lemma insert_same_names (ts : list SessionTable) i t t' : ts !! i = Some t ->
  t_zName t' = t_zName t -> t_zName <$> <[i := t']> ts = t_zName <$> ts.
Proof.
  intros Hi E. rewrite list_fmap_insert, E. apply list_insert_id.
  rewrite list_lookup_fmap, Hi. reflexivity.
Qed.

(** The hook preserves the invariant and is always defined. *)
Lemma fire_inv ev D0 D1 Ds N s :
  session_inv D0 (D1 :: Ds) N s -> event_ok D1 ev -> 0 <= N < 2 ^ 25 ->
  exists s', fire ev s = Some s' /\
    session_inv D0 (db_apply (ev_name ev) (ev_change ev) D1 :: Ds) (N + 2) s' /\
    (s_rc s = SQLITE_OK -> event_ample ev -> s_rc s' = SQLITE_OK).
Proof.
  intros HI Hev HN. unfold fire, xPreUpdate_session.
  destruct (Z.eqb_spec (s_bEnable s) 0) as [E|_]; [destruct (si_enable _ _ _ _ HI E)|].
  destruct (decide (s_rc s = SQLITE_OK)) as [Hrc|Nrc].
  2: { unfold truth. destruct (Z.eqb_spec (s_rc s) 0); [contradiction|]. cbn [negb].
       exists s. split_and!; auto. eapply session_inv_failed; eauto. }
  rewrite Hrc. change (truth SQLITE_OK) with false. cbv iota.
  rewrite (si_zDb _ _ _ _ HI). destruct (so_db Hschema) as [Cdb Ldb].
  rewrite (strnicmp_refl zDb _ Cdb). change (truth 0) with false. cbv iota.
  pose proof Hev as (Hn & _).
  destruct (findTable_spec (he_attach (ev_env ev)) _ _ _ s (ev_name ev) HI Hrc Hn ltac:(lia))
    as (rc & s1 & o & -> & [(Nrc & -> & -> & Hm)|(-> & Hrc1 & HI1 & i & t & -> & Hi & Hz)]).
  { eexists. split; [reflexivity|]. split.
    - eapply session_inv_failed with (Ds := D1 :: Ds) (N := N); [exact Nrc|].
      destruct HI as [? ? ? ? ? ? ? ? ?]. split; auto using plain_set_rc; intros; contradiction.
    - intros _ (Ha & _). congruence. }
  rewrite (set_rc_id s1) by exact Hrc1. rewrite Hi. cbn [mbind option_bind].
  destruct HI1 as [He Hat Hfi Hdb Hpl Hna Hnd Hta Hre].
  pose proof (Forall_lookup_1 _ _ _ _ (Hta Hrc1) Hi) as Hti. cbn in Hti. rewrite Hz in Hti.
  destruct (change_calls_inv ev D0 D1 _ N s1 t Hev Hrc1 Hpl Hz Hti HN) as (rc & t' & Hcalls & Hz' & Hspec & Ha).
  unfold change_calls in Hcalls.
  destruct (sessionPreupdateOneChange (he_first (ev_env ev)) (ev_hook ev) _ _ s1 t) as [[s2 t2]|]; [|discriminate].
  cbn [mbind option_bind] in Hcalls |- *. rewrite Hcalls. cbn [mbind option_bind].
  eexists. split; [reflexivity|]. split.
  2: { intros _ (_ & H1 & H2). cbn. auto. }
  pose proof (insert_same_names _ i t t' Hi ltac:(congruence)) as Hnames.
  split; cbn [s_bEnable s_bAutoAttach s_xTableFilter s_zDb s_pTable s_rc set_tables set_rc]; auto.
  - destruct Hpl; split; auto.
  - apply Forall_insert; auto. rewrite Hz'. exact Hn.
  - rewrite Hnames. exact Hnd.
  - intros ->. apply Forall_lookup_2. intros j u Hj.
    destruct (decide (j = i)) as [->|Nj].
    + rewrite list_lookup_insert_eq in Hj by (apply lookup_lt_Some in Hi; auto).
      injection Hj as <-. rewrite Hz'. apply Hspec. reflexivity.
    + rewrite list_lookup_insert_ne in Hj by auto.
      pose proof (Forall_lookup_1 _ _ _ _ (Hta Hrc1) Hj) as Hu. cbn in Hu |- *.
      rewrite db_apply_other; [eapply table_inv_weaken; [|exact Hu]; lia|].
      intros E. apply Nj. eapply NoDup_lookup; [exact Hnd|..]; rewrite list_lookup_fmap;
        [rewrite Hj|rewrite Hi]; cbn; f_equal; congruence.
  - intros -> n D Hn' HD Hnin. rewrite Hnames in Hnin.
    apply elem_of_cons in HD as [->|HD]; [|apply Hre; auto; constructor; exact HD].
    rewrite db_apply_other; [apply Hre; auto; constructor|].
    intros ->. apply Hnin. rewrite <- Hz. eapply list_elem_of_fmap_2, list_elem_of_lookup_2, Hi.
Qed.

(** ** The machine *)

Record state := mkState {
  st_db : database;
  st_saves : list database;
  st_session : sqlite3_session
}.

Inductive step : state -> state -> Prop :=
  | step_row st ev s' :
      event_ok (st_db st) ev -> fire ev (st_session st) = Some s' ->
      step st (mkState (db_apply (ev_name ev) (ev_change ev) (st_db st)) (st_saves st) s')
  | step_savepoint st :
      step st (mkState (st_db st) (st_db st :: st_saves st) (st_session st))
  | step_release st D saves :
      st_saves st = D :: saves -> step st (mkState (st_db st) saves (st_session st))
  | step_rollback st D saves :
      st_saves st = D :: saves -> step st (mkState D saves (st_session st)).

(** The session Noria creates: attached to all tables. *)
Definition start_session : sqlite3_session :=
  snd (sqlite3session_attach true (new_session zDb) None).

(** States reachable in [k] steps from the start of the session. *)
Inductive reach (D0 : database) : nat -> state -> Prop :=
  | reach_start : reach D0 O (mkState D0 [] start_session)
  | reach_step k st st' : reach D0 k st -> step st st' -> reach D0 (S k) st'.

Lemma start_inv D0 : session_inv D0 [D0] 0 start_session.
Proof.
  split; cbn; try done; try constructor; try reflexivity.
  intros _ n D Hn HD _. apply list_elem_of_singleton in HD as ->. reflexivity.
Qed.

Lemma session_inv_incl D0 Ds Ds' N N' s : Ds' ⊆ Ds -> N <= N' ->
  session_inv D0 Ds N s -> session_inv D0 Ds' N' s.
Proof.
  intros Hi HN [H1 H2 H3 H4 H5 H6 H7 H8 H9]. split; auto.
  - intros Hrc. eapply Forall_impl; [exact (H8 Hrc)|]. intros t Ht. cbn in Ht |- *.
    eapply table_inv_weaken; [exact HN|]. unfold table_inv in *. destruct (schema (t_zName t)); [|exact Ht].
    destruct Ht as (Hle & l & Htr & HT). split; [exact Hle|]. exists l. split; [exact Htr|].
    rewrite Forall_fmap, Forall_forall in HT |- *. intros D HD. apply HT, Hi, HD.
Qed.

Lemma reach_inv D0 k st : reach D0 k st -> Z.of_nat k < 2 ^ 24 ->
  session_inv D0 (st_db st :: st_saves st) (2 * Z.of_nat k) (st_session st).
Proof.
  induction 1 as [|k st st' Hr IH Hs]; intros Hk; [exact (start_inv D0)|].
  assert (Z.of_nat k < 2 ^ 24) as Hk' by lia. specialize (IH Hk').
  destruct Hs as [st ev s' Hev Hf|st|st D saves Hs|st D saves Hs]; cbn [st_db st_saves st_session] in *.
  - destruct (fire_inv ev D0 _ _ _ _ IH Hev ltac:(lia)) as (s1 & Hf' & HI & _).
    rewrite Hf in Hf'. injection Hf' as <-.
    eapply session_inv_incl; [|  |exact HI]; [reflexivity|lia].
  - eapply session_inv_incl; [|  |exact IH]; [|lia]. intros D HD.
    apply elem_of_cons in HD as [->|HD]; [constructor|exact HD].
  - rewrite Hs in IH. eapply session_inv_incl; [|  |exact IH]; [|lia]. intros D' HD.
    apply elem_of_cons in HD as [->|HD]; repeat constructor; exact HD.
  - rewrite Hs in IH. eapply session_inv_incl; [|  |exact IH]; [|lia]. intros D' HD.
    apply elem_of_cons in HD as [->|HD]; repeat constructor; exact HD.
Qed.

(** What the session holds for the table [n]. *)
Definition session_rows (s : sqlite3_session) (n : list Z)
    (l : list (list sqlite3_value * entry)) : Prop :=
  match schema n with
  | Keyed pks idx nt =>
      (exists i t, s_pTable s !! i = Some t /\ tracks pks idx nt n t l) \/
      (l = [] /\ n ∉ t_zName <$> s_pTable s)
  | Keyless => l = []
  end.

Lemma inv_rows D0 D Ds N s n pks idx nt :
  session_inv D0 (D :: Ds) N s -> s_rc s = SQLITE_OK -> n ∈ names -> schema n = Keyed pks idx nt ->
  exists l, session_rows s n l /\ tracks_diff (D0 n) (D n) l.
Proof.
  intros HI Hrc Hn Hs. unfold session_rows. rewrite Hs.
  pose proof (find_table_spec n (s_pTable s) Hn (si_names _ _ _ _ HI)) as Hf.
  destruct (find_table n (s_pTable s)) as [i|].
  - destruct Hf as (t & Hi & E).
    pose proof (Forall_lookup_1 _ _ _ _ (si_tables _ _ _ _ HI Hrc) Hi) as Ht. cbn in Ht.
    unfold table_inv in Ht. rewrite E, Hs in Ht. destruct Ht as (_ & l & Htr & HT).
    apply Forall_cons in HT as [HT _]. exists l. split; [left; eauto|exact HT].
  - exists []. split; [right; auto|].
    rewrite (si_rest _ _ _ _ HI Hrc n D Hn ltac:(constructor) Hf). apply tracks_diff_nil.
Qed.

End Machine.
