(* ===== verification/SelectSql.v ===== *)
(** * The SELECT by primary key

    [sessionSelectStmt] builds the statement that looks a recorded row up by
    its key and [sessionSelectBind] binds the key to it.  The text is shown to
    be the reference SQL, and the bound parameters to be the recorded key.
    A prepared statement is the parameter [Select]. *)
From stdpp Require Import strings.
From S2P Require Import Prelude Bits Varint Value Record Strings Buffer Session Recorder.

Local Open Scope Z_scope.

(** ** Statements *)

(** A prepared SELECT: the row found for the bound parameters, if any, and the
    result of [sqlite3_reset] afterwards. *)
Definition Select : Type := list (Z * sqlite3_value) -> option (list sqlite3_value) * Z.

(** Outcome of the engine calls made while a changeset is generated. *)
Record GenEnv := mkGenEnv {
  g_savepoint : Z;                        (* sqlite3_exec "SAVEPOINT changeset" *)
  g_table : list Z -> TableEnv;           (* schema query, per table *)
  g_update : list Z -> Env;               (* sessionUpdateChanges, per table *)
  g_realloc : Z -> bool;
  g_fmt : list Z -> bool;
  g_prepare : list Z -> Z * Select;       (* sqlite3_prepare_v2 on a SQL text *)
  g_bind : list (Z * sqlite3_value) -> Z  (* sqlite3_bind_* *)
}.

(** The four text buffers of [sessionSelectStmt], [zSep] and [rc]. *)
Record SelText := mkSelText {
  q_cols : SessionBuffer;
  q_noop : SessionBuffer;
  q_pkfield : SessionBuffer;
  q_pkvar : SessionBuffer;
  q_sep : list Z;
  q_rc : Z
}.

(** One round of the column loop of [sessionSelectStmt]. *)
Definition selectStmt_column (g : GenEnv) (zTab : list Z) (nCol i : Z) (zCol : list Z) (pk : Z)
    (q : SelText) : option SelText :=
  '(cols, rc) ← (if truth (nBuf (q_cols q))
                 then sessionAppendStr (g_realloc g) (q_cols q) (str ", ") (q_rc q)
                 else Some (q_cols q, q_rc q));
  '(cols, rc) ← sessionAppendIdent (g_realloc g) cols zCol rc;
  if truth pk then
    '(pkfield, rc) ← sessionAppendStr (g_realloc g) (q_pkfield q) (q_sep q) rc;
    '(pkvar, rc) ← sessionAppendStr (g_realloc g) (q_pkvar q) (q_sep q) rc;
    '(pkfield, rc) ← sessionAppendIdent (g_realloc g) pkfield zCol rc;
    '(pkvar, rc) ← sessionAppendPrintf (g_realloc g) (g_fmt g) pkvar (str "?" ++ decimal (i + 1)) rc;
    Some (mkSelText cols (q_noop q) pkfield pkvar (str ", ") rc)
  else
    '(noop, rc) ← sessionAppendPrintf (g_realloc g) (g_fmt g) (q_noop q)
                    (str " AND (?" ++ decimal (i + 1 + nCol) ++ str " OR ?" ++ decimal (i + 1)
                     ++ str " IS " ++ fmt_w zTab ++ str "." ++ fmt_w zCol ++ str ")") rc;
    Some (mkSelText cols noop (q_pkfield q) (q_pkvar q) (q_sep q) rc).

Fixpoint selectStmt_loop (g : GenEnv) (zTab : list Z) (nCol i : Z) (azCol : list (list Z))
    (pks : list Z) (q : SelText) : option SelText :=
  match pks, azCol with
  | [], _ => Some q
  | _ :: _, [] => None
  | pk :: pks, zCol :: azCol =>
      q ← selectStmt_column g zTab nCol i zCol pk q;
      selectStmt_loop g zTab nCol (i + 1) azCol pks q
  end.

(** [sessionSelectStmt]: the result code and the statement. *)
Definition sessionSelectStmt (g : GenEnv) (bIgnoreNoop : bool) (zDb zTab : list Z) (nCol : Z)
    (azCol : list (list Z)) (abPK : list Z) : option (Z * option Select) :=
  '(noop, rc) ← sessionAppendStr (g_realloc g) empty_buffer (str ", 1") SQLITE_OK;
  q ←
    (if sqlite3StrICmp (str "sqlite_stat1") zTab =? 0 then
       '(noop, rc) ← sessionAppendStr (g_realloc g) noop (str " AND (?6 OR ?3 IS stat)") rc;
       '(pkfield, rc) ← sessionAppendStr (g_realloc g) empty_buffer (str "tbl, idx") rc;
       '(pkvar, rc) ← sessionAppendStr (g_realloc g) empty_buffer
                        (str "?1, (CASE WHEN ?2=X'' THEN NULL ELSE ?2 END)") rc;
       '(cols, rc) ← sessionAppendStr (g_realloc g) empty_buffer (str "tbl, ?2, stat") rc;
       Some (mkSelText cols noop pkfield pkvar [] rc)
     else
       pks ← read_n nCol abPK;
       selectStmt_loop g zTab nCol 0 azCol pks
         (mkSelText empty_buffer noop empty_buffer empty_buffer [] rc));
  if q_rc q =? SQLITE_OK then
    let zSql := str "SELECT " ++ aBuf (q_cols q)
                ++ (if bIgnoreNoop then aBuf (q_noop q) else [])
                ++ str " FROM " ++ fmt_Q zDb ++ str "." ++ fmt_Q zTab
                ++ str " WHERE (" ++ aBuf (q_pkfield q) ++ str ") IS (" ++ aBuf (q_pkvar q) ++ str ")" in
    if negb (g_fmt g zSql) then Some (SQLITE_NOMEM, None)
    else let '(rc, sel) := g_prepare g zSql in
         Some (rc, if rc =? SQLITE_OK then Some sel else None)
  else Some (q_rc q, None).

(** One field of [sessionSelectBind]: the value to bind, for a key column, and
    the pointer after the field. *)
Definition bind_field (pk : Z) (a : list Z) : option (option sqlite3_value * list Z) :=
  eType ← a !! 0%nat;
  let a := drop 1 a in
  if (eType =? 0) || (eType =? SQLITE_NULL) then Some (None, a)
  else if eType =? SQLITE_INTEGER then
    v ← (if truth pk then iVal ← sessionGetI64 a; Some (Some (VInt iVal)) else Some None);
    a ← advance 8 a; Some (v, a)
  else if eType =? SQLITE_FLOAT then
    v ← (if truth pk then iVal ← sessionGetI64 a; Some (Some (sqlite3VdbeMemSetDouble (u64 iVal)))
         else Some None);
    a ← advance 8 a; Some (v, a)
  else
    '(n, k) ← sessionVarintGet a;
    a ← advance k a;
    z ← read_n n a;
    a ← advance n a;
    Some (if truth pk
          then Some (if eType =? SQLITE_TEXT then VText z else VBlob z) else None, a).

(** The loop of [sessionSelectBind]: the parameters bound, in order. The loop
    stops at the first failing bind; [g_bind] gives the result of binding the
    last element of its argument. *)
Fixpoint selectBind_loop (g : GenEnv) (pks : list Z) (i : Z) (a : list Z)
    (bound : list (Z * sqlite3_value)) : option (Z * list (Z * sqlite3_value)) :=
  match pks with
  | [] => Some (SQLITE_OK, bound)
  | pk :: pks =>
      '(v, a) ← bind_field pk a;
      match (v : option sqlite3_value) with
      | Some v =>
          let bound := bound ++ [(i + 1, v)] in
          if g_bind g bound =? SQLITE_OK then selectBind_loop g pks (i + 1) a bound
          else Some (g_bind g bound, bound)
      | None => selectBind_loop g pks (i + 1) a bound
      end
  end.

Definition sessionSelectBind (g : GenEnv) (nCol : Z) (abPK : list Z) (c : SessionChange)
    : option (Z * list (Z * sqlite3_value)) :=
  pks ← read_n nCol abPK;
  selectBind_loop g pks 0 (c_aRecord c) [].

(** ** Looking a recorded row up *)

(** The parameters bound for the key [k]. *)
Fixpoint bind_list (pks : list Z) (i : Z) (k : list sqlite3_value) : list (Z * sqlite3_value) :=
  match pks with
  | [] => []
  | pk :: pks =>
      if truth pk
      then match k with v :: k => (i + 1, v) :: bind_list pks (i + 1) k | [] => [] end
      else bind_list pks (i + 1) k
  end.

Lemma bind_field_spec pk f rest : field_ok f -> bytes_ok rest ->
  (truth pk = true -> exists w, f = Some w /\ w <> VNull) ->
  bind_field pk (enc_field f ++ rest) = Some (if truth pk then f else None, rest).
Proof.
  intros Hf Hr Hpk. unfold bind_field.
  destruct f as [[|x|x|z|z]|]; cbn [field_ok value_ok] in Hf;
    cbn [enc_field enc_value app lookup list_lookup mbind option_bind];
    cbn [Z.eqb Pos.eqb orb SQLITE_INTEGER SQLITE_FLOAT SQLITE_NULL SQLITE_TEXT SQLITE_BLOB drop]; rewrite drop_0.
  1,6: destruct (truth pk); [destruct (Hpk eq_refl) as (w & E & N); congruence|reflexivity].
  - destruct (i64_get x rest) as [-> ->]. destruct (truth pk); cbn [mbind option_bind]; [|reflexivity].
    rewrite i64_id by exact Hf. reflexivity.
  - destruct (i64_get x rest) as [-> ->]. destruct (truth pk); cbn [mbind option_bind]; [|reflexivity].
    destruct Hf as (H1 & H2 & H3). rewrite u64_i64_id by exact H1.
    unfold sqlite3VdbeMemSetDouble. rewrite H2. reflexivity.
  - destruct (text_get z rest Hf Hr) as [G A]. rewrite G. cbn [mbind option_bind]. rewrite A.
    cbn [mbind option_bind]. rewrite read_n_app, advance_app. reflexivity.
  - destruct (text_get z rest Hf Hr) as [G A]. rewrite G. cbn [mbind option_bind]. rewrite A.
    cbn [mbind option_bind]. rewrite read_n_app, advance_app. reflexivity.
Qed.

Lemma selectBind_loop_spec g pks fs k i rest bound :
  length fs = length pks -> fields_ok fs -> has_key pks fs k -> Forall key_ok k -> bytes_ok rest ->
  (exists rc b, selectBind_loop g pks i (enc_fields fs ++ rest) bound = Some (rc, b) /\
     rc <> SQLITE_OK /\ g_bind g b <> SQLITE_OK) \/
  selectBind_loop g pks i (enc_fields fs ++ rest) bound
  = Some (SQLITE_OK, bound ++ bind_list pks i k).
Proof.
  unfold has_key. revert fs k i bound.
  induction pks as [|pk pks IH]; intros [|f fs] k i bound L Hfs Hk Hok Hr; try discriminate.
  { right. cbn. rewrite app_nil_r. reflexivity. }
  injection L as L. apply fields_ok_cons in Hfs as [Hf Hfs]. rewrite enc_fields_step.
  cbn [selectBind_loop pk_part bind_list] in *. rewrite bind_field_spec; auto with noria.
  2: { intros E. rewrite E in Hk. destruct k as [|w k]; [discriminate|]. injection Hk as -> _.
       apply Forall_cons in Hok as [[_ Nw] _]. eauto. }
  cbn [mbind option_bind]. destruct (truth pk); [|apply IH; auto].
  destruct k as [|w k]; [discriminate|]. injection Hk as -> Hk.
  apply Forall_cons in Hok as [_ Hok].
  destruct (Z.eqb_spec (g_bind g (bound ++ [(i + 1, w)])) SQLITE_OK) as [E|N].
  - destruct (IH fs k (i + 1) (bound ++ [(i + 1, w)]) L Hfs Hk Hok Hr) as [? | ->]; [left; auto|].
    right. rewrite <- app_assoc. reflexivity.
  - left. eauto.
Qed.

(** ** The text of the statement *)

Definition ident (z : list Z) : list Z := [34] ++ quote_body z ++ [34].

(** [x1 ++ sep ++ x2 ++ ...] *)
Definition sep_concat (sep : list Z) (xs : list (list Z)) : list Z :=
  match xs with
  | [] => []
  | x :: xs => x ++ concat ((fun y => sep ++ y) <$> xs)
  end.

Fixpoint key_vars (pks : list Z) (i : Z) : list (list Z) :=
  match pks with
  | [] => []
  | pk :: pks =>
      if truth pk then (str "?" ++ decimal (i + 1)) :: key_vars pks (i + 1)
      else key_vars pks (i + 1)
  end.

(** The reference text of the SELECT for a table. *)
Definition select_sql (zDb zTab : list Z) (azCol : list (list Z)) (pks : list Z) : list Z :=
  str "SELECT " ++ sep_concat (str ", ") (ident <$> azCol)
  ++ str " FROM " ++ fmt_Q zDb ++ str "." ++ fmt_Q zTab
  ++ str " WHERE (" ++ sep_concat (str ", ") (ident <$> pk_part pks azCol)
  ++ str ") IS (" ++ sep_concat (str ", ") (key_vars pks 0) ++ str ")".

Lemma sep_concat_snoc sep xs x :
  sep_concat sep (xs ++ [x]) = sep_concat sep xs ++ (if bool_decide (xs = []) then [] else sep) ++ x.
Proof.
  destruct xs as [|y xs]; cbn [sep_concat app].
  - rewrite bool_decide_true by reflexivity. cbn. rewrite !app_nil_r. reflexivity.
  - rewrite bool_decide_false by discriminate. rewrite fmap_app, concat_app. cbn [fmap list_fmap concat].
    rewrite app_nil_r, <- !app_assoc. reflexivity.
Qed.

Lemma sep_concat_empty sep xs : Forall (fun x => x <> []) xs ->
  truth (Zlen (sep_concat sep xs)) = negb (bool_decide (xs = [])).
Proof.
  intros H. destruct H as [|x xs Hx H]; [reflexivity|]. cbn [sep_concat].
  rewrite bool_decide_false by discriminate. destruct x; [contradiction|]. cbn [app negb].
  unfold truth. rewrite Zlen_cons. destruct (Z.eqb_spec (1 + Zlen (x ++ concat ((fun y => sep ++ y) <$> xs))) 0);
    [zlia|reflexivity].
Qed.

(** State of the column loop after the columns [cs] with flags [ps]. *)
Record sel_inv (q : SelText) (cs fs vs : list (list Z)) : Prop := {
  sv_cols : buffer_ok (q_cols q);
  sv_noop : buffer_ok (q_noop q);
  sv_pkfield : buffer_ok (q_pkfield q);
  sv_pkvar : buffer_ok (q_pkvar q);
  sv_sep : q_sep q = if bool_decide (fs = []) then [] else str ", ";
  sv_len : length fs = length vs;
  sv_text : q_rc q = SQLITE_OK ->
    aBuf (q_cols q) = sep_concat (str ", ") cs /\
    aBuf (q_pkfield q) = sep_concat (str ", ") fs /\
    aBuf (q_pkvar q) = sep_concat (str ", ") vs
}.

(** Names short enough for [sqlite3Strlen30]. *)
Definition short (z : list Z) : Prop := Zlen z < 2 ^ 20.

Lemma decimal_loop_len fuel n acc : Zlen (decimal_loop fuel n acc) <= Z.of_nat fuel + Zlen acc.
Proof.
  revert n acc. induction fuel as [|fuel IH]; intros n acc; cbn [decimal_loop]; [lia|].
  destruct (_ =? 0); [zlia|]. specialize (IH (n / 10) ((48 + n mod 10) :: acc)). zlia.
Qed.

Lemma decimal_len n : Zlen (decimal n) <= 20.
Proof. pose proof (decimal_loop_len 20 n []). unfold decimal. zlia. Qed.

Lemma double_quote_len q z : Zlen (double_quote q z) <= 2 * Zlen z.
Proof.
  unfold double_quote. induction z as [|c z IH]; [cbn; zlia|].
  cbn [fmap list_fmap concat]. destruct (c =? q); zlia.
Qed.

Lemma ident_nonempty z : ident z <> [].
Proof. discriminate. Qed.

(** The column name goes to the column list. *)
Lemma add_col g q cs fs vs zCol : sel_inv q cs fs vs -> short zCol ->
  Forall (fun x => x <> []) cs ->
  exists cols rc,
    ('(cols, rc) ← (if truth (nBuf (q_cols q))
                    then sessionAppendStr (g_realloc g) (q_cols q) (str ", ") (q_rc q)
                    else Some (q_cols q, q_rc q));
     sessionAppendIdent (g_realloc g) cols zCol rc) = Some (cols, rc) /\
    buffer_ok cols /\
    (rc = SQLITE_OK -> q_rc q = SQLITE_OK /\ aBuf cols = sep_concat (str ", ") (cs ++ [ident zCol])).
Proof.
  intros [H1 H2 H3 H4 Hs Hl Ht] Hz Hne. unfold short in Hz.
  assert (exists cols rc, (if truth (nBuf (q_cols q))
      then sessionAppendStr (g_realloc g) (q_cols q) (str ", ") (q_rc q)
      else Some (q_cols q, q_rc q)) = Some (cols, rc) /\ buffer_ok cols /\
      (rc = SQLITE_OK -> q_rc q = SQLITE_OK /\
         aBuf cols = sep_concat (str ", ") cs ++ (if bool_decide (cs = []) then [] else str ", ")))
    as (c1 & rc1 & -> & Hc1 & Ok1).
  { destruct (truth (nBuf (q_cols q))) eqn:En.
    - destruct (appendStr_adds (g_realloc g) (q_cols q) (str ", ") (q_rc q) H1 ltac:(vm_compute; reflexivity))
        as (c & rc & -> & Hc & Ok). exists c, rc. split_and!; auto. intros E.
      destruct (Ok E) as [Eq Ec]. split; [exact Eq|]. destruct (Ht Eq) as [Et _]. rewrite Ec, Et.
      unfold nBuf in En. rewrite Et, sep_concat_empty in En by exact Hne.
      destruct (bool_decide (cs = [])); [discriminate|reflexivity].
    - eexists _, _. split_and!; auto. intros E. split; [exact E|]. destruct (Ht E) as [Et _]. rewrite Et.
      unfold nBuf in En. rewrite Et, sep_concat_empty in En by exact Hne.
      destruct (bool_decide (cs = [])); [rewrite app_nil_r; reflexivity|discriminate]. }
  cbn [mbind option_bind].
  destruct (appendIdent_adds (g_realloc g) c1 zCol rc1 Hc1 ltac:(lia)) as (c2 & rc2 & -> & Hc2 & Ok2).
  exists c2, rc2. split_and!; auto. intros E. destruct (Ok2 E) as [E1 E2]. destruct (Ok1 E1) as [E3 E4].
  split; [exact E3|]. rewrite E2, E4, sep_concat_snoc, <- app_assoc. reflexivity.
Qed.

Lemma selectStmt_column_spec g zTab nCol i zCol pk q cs fs vs :
  sel_inv q cs fs vs -> short zCol -> short zTab -> Forall (fun x => x <> []) cs ->
  exists q', selectStmt_column g zTab nCol i zCol pk q = Some q' /\
    (q_rc q' = SQLITE_OK -> q_rc q = SQLITE_OK) /\
    sel_inv q' (cs ++ [ident zCol])
      (if truth pk then fs ++ [ident zCol] else fs)
      (if truth pk then vs ++ [str "?" ++ decimal (i + 1)] else vs).
Proof.
  intros Hq Hz Ht Hne. unfold selectStmt_column.
  destruct (add_col g q cs fs vs zCol Hq Hz Hne) as (cols & rc & E & Hcols & Okc).
  pose proof (decimal_len (i + 1)) as D1. pose proof (decimal_len (i + 1 + nCol)) as D2.
  destruct (if truth (nBuf (q_cols q)) then _ else _) as [[c0 rc0]|]; [|discriminate].
  cbn [mbind option_bind] in E |- *. rewrite E. clear E. cbn [mbind option_bind].
  pose proof Hq as [H1 H2 H3 H4 Hs Hl Htx]. unfold short in *. destruct (truth pk).
  - assert (Zlen (q_sep q) < 2 ^ 30) as Hsep by (rewrite Hs; destruct (bool_decide _); vm_compute; reflexivity).
    destruct (appendStr_adds (g_realloc g) (q_pkfield q) (q_sep q) rc H3 Hsep) as (f1 & rc1 & -> & Hf1 & Ok1).
    cbn [mbind option_bind].
    destruct (appendStr_adds (g_realloc g) (q_pkvar q) (q_sep q) rc1 H4 Hsep) as (v1 & rc2 & -> & Hv1 & Ok2).
    cbn [mbind option_bind].
    destruct (appendIdent_adds (g_realloc g) f1 zCol rc2 Hf1 ltac:(lia)) as (f2 & rc3 & -> & Hf2 & Ok3).
    cbn [mbind option_bind].
    destruct (appendPrintf_adds (g_realloc g) (g_fmt g) v1 (str "?" ++ decimal (i + 1)) rc3 Hv1)
      as (v2 & rc4 & -> & Hv2 & Ok4); [rewrite Zlen_app; change (Zlen (str "?")) with 1; lia|].
    cbn [mbind option_bind]. eexists. split; [reflexivity|]. cbn [q_rc].
    assert (rc4 = SQLITE_OK -> q_rc q = SQLITE_OK) as Hrc.
    { intros E. apply Okc, Ok1, Ok2, Ok3, Ok4, E. }
    split; [exact Hrc|]. split; cbn [q_cols q_noop q_pkfield q_pkvar q_sep q_rc]; auto.
    + rewrite bool_decide_false by (destruct fs; discriminate). reflexivity.
    + rewrite !length_app, Hl. reflexivity.
    + intros E. destruct (Htx (Hrc E)) as (T1 & T2 & T3).
      destruct (Ok4 E) as [E3 A4]. destruct (Ok3 E3) as [E2 A3]. destruct (Ok2 E2) as [E1 A2].
      destruct (Ok1 E1) as [E0 A1]. destruct (Okc E0) as [_ A0].
      rewrite !sep_concat_snoc in *. rewrite A4, A3, A2, A1, A0, T2, T3, Hs.
      replace (bool_decide (vs = [])) with (bool_decide (fs = [])).
      2: { apply bool_decide_ext. split; intros ->; [destruct vs|destruct fs]; done. }
      rewrite <- !app_assoc. auto.
  - match goal with |- context [sessionAppendPrintf _ _ _ ?z _] =>
      destruct (appendPrintf_adds (g_realloc g) (g_fmt g) (q_noop q) z rc H2) as (n1 & rc1 & -> & Hn1 & Ok1) end.
    { pose proof (double_quote_len 34 zTab). pose proof (double_quote_len 34 zCol). unfold fmt_w.
      rewrite !Zlen_app. change (Zlen (str " AND (?")) with 7. change (Zlen (str " OR ?")) with 5.
      change (Zlen (str " IS ")) with 4. change (Zlen (str ".")) with 1. change (Zlen (str ")")) with 1. lia. }
    cbn [mbind option_bind]. eexists. split; [reflexivity|]. cbn [q_rc].
    assert (rc1 = SQLITE_OK -> q_rc q = SQLITE_OK) as Hrc by (intros E; apply Okc, Ok1, E).
    split; [exact Hrc|]. split; cbn [q_cols q_noop q_pkfield q_pkvar q_sep q_rc]; auto.
    intros E. destruct (Htx (Hrc E)) as (T1 & T2 & T3). destruct (Ok1 E) as [E0 _].
    destruct (Okc E0) as [_ A0]. auto.
Qed.

Lemma selectStmt_loop_spec g zTab nCol i azCol pks q cs fs vs :
  length azCol = length pks -> Forall short azCol -> short zTab ->
  sel_inv q cs fs vs -> Forall (fun x => x <> []) cs ->
  exists q', selectStmt_loop g zTab nCol i azCol pks q = Some q' /\
    sel_inv q' (cs ++ (ident <$> azCol)) (fs ++ (ident <$> pk_part pks azCol)) (vs ++ key_vars pks i).
Proof.
  revert i azCol q cs fs vs.
  induction pks as [|pk pks IH]; intros i [|z azCol] q cs fs vs L Hs Ht Hq Hne; try discriminate.
  { exists q. cbn. rewrite !app_nil_r. auto. }
  injection L as L. apply Forall_cons in Hs as [Hz Hs].
  cbn [selectStmt_loop pk_part key_vars].
  destruct (selectStmt_column_spec g zTab nCol i z pk q cs fs vs Hq Hz Ht Hne) as (q1 & -> & _ & Hq1).
  cbn [mbind option_bind].
  destruct (IH (i + 1) azCol q1 _ _ _ L Hs Ht Hq1) as (q2 & -> & Hq2).
  { apply Forall_app. split; [exact Hne|]. repeat constructor. apply ident_nonempty. }
  exists q2. split; [reflexivity|]. rewrite fmap_cons. rewrite <- app_assoc in Hq2.
  destruct (truth pk); [|exact Hq2]. rewrite fmap_cons. rewrite <- !app_assoc in Hq2. exact Hq2.
Qed.

(** The statement prepared is the reference SELECT. *)
Lemma selectStmt_spec g zDb zTab azCol pks :
  length azCol = length pks -> Forall short azCol -> short zTab ->
  sqlite3StrICmp (str "sqlite_stat1") zTab <> 0 ->
  exists rc sel, sessionSelectStmt g false zDb zTab (Zlen pks) azCol pks = Some (rc, sel) /\
    (rc = SQLITE_OK ->
       exists s, g_prepare g (select_sql zDb zTab azCol pks) = (SQLITE_OK, s) /\ sel = Some s).
Proof.
  intros L Hs Ht Hst. unfold sessionSelectStmt.
  destruct (appendStr_adds (g_realloc g) empty_buffer (str ", 1") SQLITE_OK ltac:(auto with noria)
    ltac:(vm_compute; reflexivity)) as (b & rc & -> & Hb & _). cbn [mbind option_bind].
  apply Z.eqb_neq in Hst. rewrite Hst, read_n_all. cbn [mbind option_bind].
  destruct (selectStmt_loop_spec g zTab (Zlen pks) 0 azCol pks
    (mkSelText empty_buffer b empty_buffer empty_buffer [] rc) [] [] [] L Hs Ht) as (q & -> & Hq); auto.
  { split; cbn; auto with noria. }
  cbn [mbind option_bind app] in *. destruct (Z.eqb_spec (q_rc q) SQLITE_OK) as [E|N].
  - destruct (sv_text _ _ _ _ Hq E) as (-> & -> & ->). cbn [app].
    change (str "SELECT " ++ _) with (select_sql zDb zTab azCol pks).
    destruct (g_fmt g _); cbn [negb]; [|exists SQLITE_NOMEM, None; split; [reflexivity|discriminate]].
    destruct (g_prepare g (select_sql zDb zTab azCol pks)) as [prc s] eqn:Ep.
    eexists _, _. split; [reflexivity|]. intros ->. exists s. rewrite Z.eqb_refl. auto.
  - eexists _, _. split; [reflexivity|]. contradiction.
Qed.
