(* ===== verification/Changeset.v ===== *)
(** * Generating changesets

    [sqlite3session_changeset] turns the recorded rows into a changeset by
    looking each of them up in the database.  The routine is shown to produce the reference encoding of the net changes. *)
From stdpp Require Import gmap strings.
From S2P Require Import Prelude Bits Varint Value Record Strings Buffer Session Recorder Tracking SelectSql.

Local Open Scope Z_scope.

(** ** Writing changes *)

(** The comparison of the old field at [pCsr] with the new value [v]:
    [bChanged] and [nAdvance]. *)
Definition update_compare (pCsr : list Z) (v : sqlite3_value) : option (bool * Z) :=
  eType ← pCsr !! 0%nat;
  if eType =? SQLITE_NULL then
    Some (negb (sqlite3_value_type v =? SQLITE_NULL), 1)
  else if (eType =? SQLITE_FLOAT) || (eType =? SQLITE_INTEGER) then
    if eType =? sqlite3_value_type v then
      iVal ← sessionGetI64 (drop 1 pCsr);
      if eType =? SQLITE_INTEGER then Some (negb (iVal =? sqlite3_value_int64 v), 9)
      else Some (negb (double_eq (u64 iVal) (sqlite3_value_double v)), 9)
    else Some (true, 9)
  else
    '(n, k) ← sessionVarintGet (drop 1 pCsr);
    let nHdr := 1 + k in
    nAdvance ← int_ok (nHdr + n);
    same ← (if (eType =? sqlite3_value_type v) && (n =? sqlite3_value_bytes v) then
              if n =? 0 then Some true
              else a ← advance nHdr pCsr; an ← read_n n a; z ← sqlite3_value_blob v;
                   zn ← read_n n z; Some (bool_decide (an = zn))
            else Some false);
    Some (negb (same : bool), nAdvance).

(** The column loop of [sessionAppendUpdate]: both buffers, [bNoop] and [rc]. *)
Fixpoint appendUpdate_loop (realloc : Z -> bool) (bPatchset : bool)
    (row : list sqlite3_value) (pks : list Z) (pCsr : list Z)
    (pBuf buf2 : SessionBuffer) (bNoop : bool) (rc : Z)
    : option (SessionBuffer * SessionBuffer * bool * Z) :=
  match row with
  | [] => Some (pBuf, buf2, bNoop, rc)
  | v :: row =>
      pk ← head pks;
      '(bChanged, nAdvance) ← update_compare pCsr v;
      let bNoop := if (bChanged : bool) then false else bNoop in
      '(pBuf, rc) ←
        (if negb bPatchset then
           if (bChanged : bool) || truth pk
           then sessionAppendBlob realloc pBuf (Some pCsr) nAdvance rc
           else sessionAppendByte realloc pBuf 0 rc
         else Some (pBuf, rc));
      '(buf2, rc) ←
        (if (bChanged : bool) || (bPatchset && truth pk)
         then sessionAppendCol realloc buf2 v false rc
         else sessionAppendByte realloc buf2 0 rc);
      pCsr ← advance nAdvance pCsr;
      appendUpdate_loop realloc bPatchset row (tail pks) pCsr pBuf buf2 bNoop rc
  end.

(** [pBuf->nBuf = n] for an [n] that is at most [nBuf]. *)
Definition rewind (p : SessionBuffer) (n : Z) : SessionBuffer :=
  mkBuffer (take (Z.to_nat n) (aBuf p)) (nAlloc p).

Definition sessionAppendUpdate (realloc : Z -> bool) (pBuf : SessionBuffer) (bPatchset : bool)
    (row : list sqlite3_value) (c : SessionChange) (abPK : list Z)
    : option (SessionBuffer * Z) :=
  let nRewind := nBuf pBuf in
  '(pBuf, rc) ← sessionAppendByte realloc pBuf SQLITE_UPDATE SQLITE_OK;
  '(pBuf, rc) ← sessionAppendByte realloc pBuf (c_bIndirect c) rc;
  '(pBuf, buf2, bNoop, rc) ←
    appendUpdate_loop realloc bPatchset row abPK (c_aRecord c) pBuf empty_buffer true rc;
  if (bNoop : bool) then Some (rewind pBuf nRewind, rc)
  else sessionAppendBlob realloc pBuf (Some (aBuf buf2)) (nBuf buf2) rc.

(** The column loop of the patchset branch of [sessionAppendDelete]. *)
Fixpoint appendDelete_loop (realloc : Z -> bool) (pks : list Z) (a : list Z)
    (pBuf : SessionBuffer) (rc : Z) : option (SessionBuffer * Z) :=
  match pks with
  | [] => Some (pBuf, rc)
  | pk :: pks =>
      eType ← a !! 0%nat;
      n ← (if (eType =? 0) || (eType =? SQLITE_NULL) then Some 1
           else if (eType =? SQLITE_FLOAT) || (eType =? SQLITE_INTEGER) then Some 9
           else '(n, k) ← sessionVarintGet (drop 1 a); Some (1 + k + n));
      '(pBuf, rc) ← (if truth pk then sessionAppendBlob realloc pBuf (Some a) n rc
                     else Some (pBuf, rc));
      a ← advance n a;
      appendDelete_loop realloc pks a pBuf rc
  end.

Definition sessionAppendDelete (realloc : Z -> bool) (pBuf : SessionBuffer) (bPatchset : bool)
    (c : SessionChange) (nCol : Z) (abPK : list Z) : option (SessionBuffer * Z) :=
  '(pBuf, rc) ← sessionAppendByte realloc pBuf SQLITE_DELETE SQLITE_OK;
  '(pBuf, rc) ← sessionAppendByte realloc pBuf (c_bIndirect c) rc;
  if negb bPatchset then
    sessionAppendBlob realloc pBuf (Some (c_aRecord c)) (c_nRecord c) rc
  else
    pks ← read_n nCol abPK;
    appendDelete_loop realloc pks (c_aRecord c) pBuf rc.

Definition sessionAppendTableHdr (realloc : Z -> bool) (pBuf : SessionBuffer) (bPatchset : bool)
    (t : SessionTable) (rc : Z) : option (SessionBuffer * Z) :=
  '(pBuf, rc) ← sessionAppendByte realloc pBuf (if bPatchset then 80 else 84) rc;
  '(pBuf, rc) ← sessionAppendVarint realloc pBuf (t_nCol t) rc;
  '(pBuf, rc) ← sessionAppendBlob realloc pBuf (t_abPK t) (t_nCol t) rc;
  sessionAppendBlob realloc pBuf (Some (t_zName t ++ [0])) (i32 (Zlen (t_zName t)) + 1) rc.

(** The loop of the INSERT branch of [sessionGenerateChangeset]. *)
Fixpoint appendCols (realloc : Z -> bool) (pBuf : SessionBuffer) (row : list sqlite3_value)
    (rc : Z) : option (SessionBuffer * Z) :=
  match row with
  | [] => Some (pBuf, rc)
  | v :: row =>
      '(pBuf, rc) ← sessionAppendCol realloc pBuf v false rc;
      appendCols realloc pBuf row rc
  end.

(** Where the generated bytes go: [xOutput] is null, or a callback and the
    chunk size; [o_sent] collects what the callback received. *)
Record Output := mkOutput {
  o_xOutput : option (list Z -> Z);
  o_chunk : Z;
  o_sent : list (list Z)
}.

(** One round of the loop over the recorded changes: the buffer, [nNoop], the
    output and [rc]. *)
Definition generate_change (g : GenEnv) (bPatchset : bool) (t : SessionTable) (abPK : list Z)
    (sel : Select) (c : SessionChange) (buf : SessionBuffer) (nNoop : Z) (out : Output)
    : option (SessionBuffer * Z * Output * Z) :=
  '(rc, bound) ← sessionSelectBind g (t_nCol t) abPK c;
  if negb (rc =? SQLITE_OK) then Some (buf, nNoop, out, rc) else
  let '(found, reset) := sel bound in
  '(buf, rc) ←
    match found with
    | Some row =>
        if c_op c =? SQLITE_INSERT then
          '(buf, rc) ← sessionAppendByte (g_realloc g) buf SQLITE_INSERT rc;
          '(buf, rc) ← sessionAppendByte (g_realloc g) buf (c_bIndirect c) rc;
          cols ← read_n (t_nCol t) row;
          appendCols (g_realloc g) buf cols rc
        else sessionAppendUpdate (g_realloc g) buf bPatchset row c abPK
    | None =>
        if negb (c_op c =? SQLITE_INSERT)
        then sessionAppendDelete (g_realloc g) buf bPatchset c (t_nCol t) abPK
        else Some (buf, rc)
    end;
  let rc := if rc =? SQLITE_OK then reset else rc in
  match o_xOutput out with
  | Some xOutput =>
      if (rc =? SQLITE_OK) && (nNoop <? nBuf buf) && (o_chunk out <? nBuf buf)
      then Some (rewind buf 0, -1,
                 mkOutput (Some xOutput) (o_chunk out) (o_sent out ++ [aBuf buf]),
                 xOutput (aBuf buf))
      else Some (buf, nNoop, out, rc)
  | None => Some (buf, nNoop, out, rc)
  end.

(** The loops over the buckets and their chains, until [rc] is an error. *)
Fixpoint generate_changes (g : GenEnv) (bPatchset : bool) (t : SessionTable) (abPK : list Z)
    (sel : Select) (cs : list SessionChange) (buf : SessionBuffer) (nNoop : Z) (out : Output) (rc : Z)
    : option (SessionBuffer * Z * Output * Z) :=
  if negb (rc =? SQLITE_OK) then Some (buf, nNoop, out, rc) else
  match cs with
  | [] => Some (buf, nNoop, out, rc)
  | c :: cs =>
      '(buf, nNoop, out, rc) ← generate_change g bPatchset t abPK sel c buf nNoop out;
      generate_changes g bPatchset t abPK sel cs buf nNoop out rc
  end.

(** The body of the table loop for a table with entries. *)
Definition generate_table (g : GenEnv) (bPatchset : bool) (s : sqlite3_session) (t : SessionTable)
    (buf : SessionBuffer) (out : Output)
    : option (sqlite3_session * SessionTable * SessionBuffer * Output * Z) :=
  let nRewind := nBuf buf in
  let nOldCol := t_nCol t in
  let '(s, t, rc) := sessionReinitTable (g_table g (t_zName t)) s t in
  '(s, t, rc) ← (if (rc =? SQLITE_OK) && negb (t_nCol t =? nOldCol)
                 then sessionUpdateChanges (g_update g (t_zName t)) s t
                 else Some (s, t, rc));
  '(buf, rc) ← sessionAppendTableHdr (g_realloc g) buf bPatchset t rc;
  '(rc, pSel) ← (if rc =? SQLITE_OK then
                   abPK ← t_abPK t;
                   sessionSelectStmt g false (s_zDb s) (t_zName t) (t_nCol t) (t_azCol t) abPK
                 else Some (rc, None));
  let nNoop := nBuf buf in
  '(buf, nNoop, out, rc) ←
    (if rc =? SQLITE_OK then
       sel ← pSel;
       abPK ← t_abPK t;
       bs ← read_n (t_nChange t) (t_apChange t);
       generate_changes g bPatchset t abPK sel (concat bs) buf nNoop out rc
     else Some (buf, nNoop, out, rc));
  let buf := if nBuf buf =? nNoop then rewind buf nRewind else buf in
  Some (s, t, buf, out, rc).

(** The table loop; [done] holds the tables already visited. *)
Fixpoint generate_tables (g : GenEnv) (bPatchset : bool) (s : sqlite3_session)
    (done ts : list SessionTable) (buf : SessionBuffer) (out : Output) (rc : Z)
    : option (sqlite3_session * SessionBuffer * Output * Z) :=
  match ts with
  | [] => Some (set_tables s done, buf, out, rc)
  | t :: ts' =>
      if negb (rc =? SQLITE_OK) then Some (set_tables s (done ++ ts), buf, out, rc)
      else if truth (t_nEntry t) then
        '(s, t, buf, out, rc) ← generate_table g bPatchset s t buf out;
        generate_tables g bPatchset s (done ++ [t]) ts' buf out rc
      else generate_tables g bPatchset s (done ++ [t]) ts' buf out rc
  end.

(** [sessionGenerateChangeset]: the result code, the session, the changeset in
    [*ppChangeset] (empty on error) and the output. *)
Definition sessionGenerateChangeset (g : GenEnv) (s : sqlite3_session) (bPatchset : bool)
    (out : Output) : option (Z * sqlite3_session * list Z * Output) :=
  if truth (s_rc s) then Some (s_rc s, s, [], out)
  else if negb (g_savepoint g =? SQLITE_OK) then Some (g_savepoint g, s, [], out)
  else
    '(s, buf, out, rc) ←
      generate_tables g bPatchset s [] (s_pTable s) empty_buffer out SQLITE_OK;
    if rc =? SQLITE_OK then
      match o_xOutput out with
      | None => Some (rc, s, aBuf buf, out)
      | Some xOutput =>
          if 0 <? nBuf buf
          then Some (xOutput (aBuf buf), s, [],
                     mkOutput (Some xOutput) (o_chunk out) (o_sent out ++ [aBuf buf]))
          else Some (rc, s, [], out)
      end
    else Some (rc, s, [], out).

(** [sqlite3session_changeset] with non-null output pointers. *)
Definition sqlite3session_changeset (g : GenEnv) (s : sqlite3_session)
    : option (Z * sqlite3_session * list Z) :=
  '(rc, s, cs, _) ← sessionGenerateChangeset g s false (mkOutput None 0 []);
  Some (rc, s, cs).

(** ** Reference encoding of changes (CHANGESET FORMAT) *)

(** A net change of one row; the flag is [bIndirect]. *)
Inductive delta :=
  | DInsert (ind : Z) (new : list sqlite3_value)
  | DDelete (ind : Z) (old : list sqlite3_value)
  | DUpdate (ind : Z) (old new : list sqlite3_value).

#[export] Instance delta_eq_dec : EqDecision delta.
Proof. solve_decision. Defined.

(** The old.* fields of an UPDATE: the key and the columns that change. *)
Fixpoint upd_old (pks : list Z) (old new : list sqlite3_value) : list (option sqlite3_value) :=
  match pks, old, new with
  | pk :: pks, o :: old, n :: new =>
      (if negb (bool_decide (o = n)) || truth pk then Some o else None) :: upd_old pks old new
  | _, _, _ => []
  end.

(** The new.* fields of an UPDATE: the columns that change. *)
Fixpoint upd_new (old new : list sqlite3_value) : list (option sqlite3_value) :=
  match old, new with
  | o :: old, n :: new =>
      (if negb (bool_decide (o = n)) then Some n else None) :: upd_new old new
  | _, _ => []
  end.

Definition enc_delta (pks : list Z) (d : delta) : list Z :=
  match d with
  | DInsert ind new => [SQLITE_INSERT; ind] ++ enc_fields (Some <$> new)
  | DDelete ind old => [SQLITE_DELETE; ind] ++ enc_fields (Some <$> old)
  | DUpdate ind old new =>
      [SQLITE_UPDATE; ind] ++ enc_fields (upd_old pks old new) ++ enc_fields (upd_new old new)
  end.

Definition enc_header (pks zName : list Z) : list Z :=
  [84] ++ varint (Zlen pks) ++ pks ++ zName ++ [0].

(** A table section is left out when it has no change. *)
Definition enc_table (pks zName : list Z) (ds : list delta) : list Z :=
  match ds with
  | [] => []
  | _ => enc_header pks zName ++ concat (enc_delta pks <$> ds)
  end.

(** ** Comparison of old and new values *)

Lemma compare_text (t m : Z) (z y rest : list Z) (oy : option (list Z)) (b : bool) :
  bytes_ok z /\ Zlen z <= SQLITE_MAX_LENGTH -> bytes_ok rest ->
  (b = true -> m = Zlen y /\ (oy = Some y \/ y = [])) ->
  ('(n, k) ← sessionVarintGet ((varint (Zlen z) ++ z) ++ rest);
   nAdvance ← int_ok (1 + k + n);
   same ← (if b && (n =? m) then
             if n =? 0 then Some true
             else a ← advance (1 + k) (t :: (varint (Zlen z) ++ z) ++ rest); an ← read_n n a;
                  z ← oy; zn ← read_n n z; Some (bool_decide (an = zn))
           else Some false);
   Some (negb (same : bool), nAdvance))
  = Some (negb (b && bool_decide (z = y)), Zlen (t :: varint (Zlen z) ++ z)).
Proof.
  intros Hz Hr Hb. destruct (text_get z rest Hz Hr) as [-> _]. cbn [mbind option_bind].
  rewrite int_ok_id by (apply enc_text_len, Hz). cbn [mbind option_bind].
  replace (1 + Zlen (varint (Zlen z)) + Zlen z) with (Zlen (t :: varint (Zlen z) ++ z)) by zlia.
  assert (advance (1 + Zlen (varint (Zlen z))) (t :: (varint (Zlen z) ++ z) ++ rest) = Some (z ++ rest)) as ->.
  { rewrite <- app_assoc, app_comm_cons. apply advance_app'. zlia. }
  cbn [mbind option_bind]. rewrite read_n_app. cbn [mbind option_bind].
  destruct b; [|reflexivity]. destruct (Hb eq_refl) as [-> Ho]. cbn [andb].
  destruct (Z.eqb_spec (Zlen z) (Zlen y)) as [E|N].
  - destruct (Z.eqb_spec (Zlen z) 0) as [E0|N0].
    + destruct z as [|? z]; [|zlia]. destruct y as [|? y]; [reflexivity|zlia].
    + destruct Ho as [-> | ->]; [|zlia]. cbn [mbind option_bind]. rewrite E, read_n_all. reflexivity.
  - rewrite bool_decide_false by congruence. reflexivity.
Qed.

(** The content of a value, for the storage classes that have one. *)
Definition payload (v : sqlite3_value) : list Z :=
  match v with VText z | VBlob z => z | _ => [] end.

Lemma blob_payload v : sqlite3_value_type v = SQLITE_TEXT \/ sqlite3_value_type v = SQLITE_BLOB ->
  sqlite3_value_bytes v = Zlen (payload v) /\
  (sqlite3_value_blob v = Some (payload v) \/ payload v = []).
Proof.
  intros H. destruct v as [| | |z|z]; try (destruct H as [H|H]; discriminate H); cbn;
    split; auto; destruct (truth_len z) as [-> | ->]; auto.
Qed.

Lemma update_compare_spec o v rest : value_ok o -> value_ok v -> bytes_ok rest ->
  update_compare (enc_value o ++ rest) v = Some (negb (bool_decide (o = v)), Zlen (enc_value o)).
Proof.
  intros Ho Hv Hr. unfold update_compare.
  destruct o as [|x|x|z|z]; cbn [enc_value app lookup list_lookup mbind option_bind];
    cbn [Z.eqb Pos.eqb orb SQLITE_INTEGER SQLITE_FLOAT SQLITE_NULL SQLITE_TEXT SQLITE_BLOB];
    try (cbn [drop]; rewrite drop_0).
  - destruct v; reflexivity.
  - destruct v as [|y|y|y|y]; try reflexivity. cbn [sqlite3_value_type SQLITE_INTEGER Z.eqb Pos.eqb].
    rewrite (proj1 (i64_get _ _)). cbn [mbind option_bind sqlite3_value_int64]. rewrite i64_id by exact Ho.
    rewrite Zlen_cons, putI64_len. do 3 f_equal.
    destruct (Z.eqb_spec x y), (bool_decide_reflect (VInt x = VInt y)); congruence.
  - destruct v as [|y|y|y|y]; try reflexivity. cbn [sqlite3_value_type SQLITE_FLOAT Z.eqb Pos.eqb].
    rewrite (proj1 (i64_get _ _)). cbn [mbind option_bind sqlite3_value_double].
    rewrite Zlen_cons, putI64_len. do 3 f_equal. destruct Ho as (H1 & H2 & H3), Hv as (H4 & H5 & H6).
    rewrite u64_i64_id, double_eq_ok by auto.
    destruct (Z.eqb_spec x y), (bool_decide_reflect (VReal x = VReal y)); congruence.
  - etransitivity; [apply (compare_text SQLITE_TEXT (sqlite3_value_bytes v) z (payload v) rest
      (sqlite3_value_blob v) (SQLITE_TEXT =? sqlite3_value_type v) Ho Hr)|].
    + intros E. apply Z.eqb_eq in E. apply blob_payload. auto.
    + do 3 f_equal. destruct v as [|y|y|y|y]; cbn; try reflexivity. apply bool_decide_ext. split; congruence.
  - etransitivity; [apply (compare_text SQLITE_BLOB (sqlite3_value_bytes v) z (payload v) rest
      (sqlite3_value_blob v) (SQLITE_BLOB =? sqlite3_value_type v) Ho Hr)|].
    + intros E. apply Z.eqb_eq in E. apply blob_payload. auto.
    + do 3 f_equal. destruct v as [|y|y|y|y]; cbn; try reflexivity. apply bool_decide_ext. split; congruence.
Qed.

(** ** Writing an UPDATE *)

Lemma values_bytes vs rest : Forall value_ok vs -> bytes_ok rest ->
  bytes_ok (enc_fields (Some <$> vs) ++ rest).
Proof.
  intros Hv Hr. apply bytes_ok_rest; auto. apply Forall_fmap. exact Hv.
Qed.

#[export] Hint Resolve values_bytes : noria.

(** One column: what goes to the old.* record and to the new.* record. *)
Lemma update_column realloc o v pk rest pBuf buf2 rc :
  value_ok o -> value_ok v -> bytes_ok rest -> buffer_ok pBuf -> buffer_ok buf2 ->
  let ch := negb (bool_decide (o = v)) in
  appends realloc pBuf rc (enc_field (if ch || truth pk then Some o else None))
    (if ch || truth pk
     then sessionAppendBlob realloc pBuf (Some (enc_value o ++ rest)) (Zlen (enc_value o)) rc
     else sessionAppendByte realloc pBuf 0 rc) /\
  forall rc', appends realloc buf2 rc' (enc_field (if ch then Some v else None))
    (if ch || (false && truth pk)
     then sessionAppendCol realloc buf2 v false rc'
     else sessionAppendByte realloc buf2 0 rc').
Proof.
  intros Ho Hv Hr Hp H2 ch.
  pose proof (enc_field_small (Some o) Ho) as Hs. cbn [enc_field] in Hs. unfold SQLITE_MAX_LENGTH in Hs.
  assert (is_byte 0) as H0 by (unfold is_byte; lia).
  split.
  - destruct (ch || truth pk); [|apply appendByte_spec; auto].
    apply (appendBlob_spec realloc pBuf _ (enc_value o) rest); auto. lia.
  - intros rc'. cbn [andb]. rewrite orb_false_r. destruct ch; [apply appendCol_spec|apply appendByte_spec]; auto.
Qed.

(** Two buffers written in turn. *)
Definition appends2 (realloc : Z -> bool) (p q : SessionBuffer) (rc : Z) (bs cs : list Z)
    (p' q' : SessionBuffer) (rc' : Z) : Prop :=
  buffer_ok p' /\ buffer_ok q' /\ aBuf p `prefix_of` aBuf p' /\
  (rc' = SQLITE_OK -> rc = SQLITE_OK /\ aBuf p' = aBuf p ++ bs /\ aBuf q' = aBuf q ++ cs) /\
  (rc = SQLITE_OK -> (forall n, realloc n = true) -> fits p (Zlen bs) -> fits q (Zlen cs) ->
   rc' = SQLITE_OK).

Lemma appendUpdate_loop_spec realloc pks old new rest pBuf buf2 noop rc :
  length old = length pks -> length new = length pks -> Forall value_ok old -> Forall value_ok new ->
  bytes_ok rest -> buffer_ok pBuf -> buffer_ok buf2 ->
  exists pBuf' buf2' rc',
    appendUpdate_loop realloc false new pks (enc_fields (Some <$> old) ++ rest) pBuf buf2 noop rc
      = Some (pBuf', buf2', noop && bool_decide (old = new), rc') /\
    appends2 realloc pBuf buf2 rc (enc_fields (upd_old pks old new)) (enc_fields (upd_new old new))
      pBuf' buf2' rc'.
Proof.
  revert old new pBuf buf2 noop rc.
  induction pks as [|pk pks IH]; intros [|o old] [|v new] pBuf buf2 noop rc Lo Ln Ho Hv Hr Hp H2;
    try discriminate.
  { exists pBuf, buf2, rc. cbn [appendUpdate_loop]. rewrite bool_decide_true, andb_true_r by reflexivity.
    split; [reflexivity|]. cbn. unfold appends2. rewrite !app_nil_r. split_and!; auto. }
  injection Lo as Lo. injection Ln as Ln.
  apply Forall_cons in Ho as [Ho Hos]. apply Forall_cons in Hv as [Hv Hvs].
  rewrite fmap_cons, enc_fields_step. cbn [appendUpdate_loop head mbind option_bind tail enc_field].
  rewrite update_compare_spec by auto with noria. cbn [mbind option_bind negb].
  destruct (update_column realloc o v pk (enc_fields (Some <$> old) ++ rest) pBuf buf2 rc)
    as [(p1 & rc1 & -> & Hp1 & Pre1 & Ok1 & S1) A2]; auto with noria. cbn [mbind option_bind].
  destruct (A2 rc1) as (q1 & rc2 & -> & Hq1 & Pre2 & Ok2 & S2). cbn [mbind option_bind].
  rewrite advance_app. cbn [mbind option_bind].
  destruct (IH old new p1 q1 (if negb (bool_decide (o = v)) then false else noop) rc2)
    as (p' & q' & rc' & -> & Hp' & Hq' & Pre' & Ok' & S'); auto.
  exists p', q', rc'. split.
  { do 3 f_equal. destruct (bool_decide_reflect (o = v)) as [->|N]; cbn [negb].
    - f_equal. apply bool_decide_ext. split; congruence.
    - rewrite (bool_decide_false (o :: old = v :: new)) by congruence. rewrite andb_false_r. reflexivity. }
  cbn [upd_old upd_new]. rewrite !enc_fields_cons. unfold appends2. split_and!; auto.
  - etransitivity; eauto.
  - intros ->. destruct (Ok' eq_refl) as (-> & E1 & E2). destruct (Ok2 eq_refl) as [-> E3].
    destruct (Ok1 eq_refl) as [-> E4]. rewrite E1, E2, E3, E4, !app_assoc. auto.
  - intros -> Hall F1 F2. unfold fits in *. rewrite Zlen_app in F1, F2.
    pose proof (Zlen_nonneg (enc_fields (upd_old pks old new))).
    pose proof (Zlen_nonneg (enc_fields (upd_new old new))).
    assert (rc1 = SQLITE_OK) as -> by (apply S1; auto; lia).
    assert (rc2 = SQLITE_OK) as -> by (apply S2; auto; lia).
    destruct (Ok1 eq_refl) as [_ E1]. destruct (Ok2 eq_refl) as [_ E2].
    apply S'; auto; unfold nBuf in *; rewrite ?E1, ?E2, Zlen_app; lia.
Qed.

Lemma rewind_prefix p p' : aBuf p `prefix_of` aBuf p' -> buffer_ok p' ->
  aBuf (rewind p' (nBuf p)) = aBuf p /\ buffer_ok (rewind p' (nBuf p)).
Proof.
  intros [k E] [H1 H2]. unfold rewind, nBuf in *. cbn [aBuf nAlloc]. rewrite E, take_Zlen_app in *.
  split; [reflexivity|]. split; unfold nBuf; cbn [aBuf nAlloc]; [|exact H2].
  rewrite Zlen_app in H1. pose proof (Zlen_nonneg k). lia.
Qed.

Lemma appendUpdate_spec realloc p c pks old new :
  buffer_ok p -> row_ok pks old -> row_ok pks new -> is_byte (c_bIndirect c) ->
  c_aRecord c = enc_fields (Some <$> old) ->
  appends_within realloc p SQLITE_OK
    (if decide (old = new) then [] else enc_delta pks (DUpdate (c_bIndirect c) old new))
    (Zlen (enc_delta pks (DUpdate (c_bIndirect c) old new)))
    (sessionAppendUpdate realloc p false new c pks).
Proof.
  intros Hp [Lo Ho] [Ln Hn] Hi Hrec. unfold sessionAppendUpdate. rewrite Hrec.
  assert (is_byte SQLITE_UPDATE) as Hb by (unfold is_byte, SQLITE_UPDATE; lia).
  destruct (appends_bind realloc p SQLITE_OK [SQLITE_UPDATE] [c_bIndirect c] _
    (fun p rc => sessionAppendByte realloc p (c_bIndirect c) rc)
    (appendByte_spec realloc p SQLITE_UPDATE SQLITE_OK Hp Hb)
    (fun p rc H => appendByte_spec realloc p (c_bIndirect c) rc H Hi))
    as (p1 & rc1 & E1 & Hp1 & Pre1 & Ok1 & S1).
  destruct (sessionAppendByte realloc p SQLITE_UPDATE SQLITE_OK) as [[p0 rc0]|]; [|discriminate].
  cbn [mbind option_bind] in E1 |- *. rewrite E1. cbn [mbind option_bind].
  rewrite <- (app_nil_r (enc_fields _)).
  destruct (appendUpdate_loop_spec realloc pks old new [] p1 empty_buffer true rc1)
    as (p2 & q & rc2 & -> & Hp2 & Hq & Pre2 & Ok2 & S2); auto with noria.
  cbn [mbind option_bind andb].
  set (U := upd_old pks old new) in *. set (W := upd_new old new) in *.
  assert (Zlen (enc_delta pks (DUpdate (c_bIndirect c) old new)) = 2 + Zlen (enc_fields U) + Zlen (enc_fields W)) as Hlen.
  { cbn [enc_delta]. fold U W. rewrite !Zlen_app, !Zlen_cons, Zlen_nil. lia. }
  pose proof (Zlen_nonneg (enc_fields U)). pose proof (Zlen_nonneg (enc_fields W)).
  assert (rc1 = SQLITE_OK -> (forall n, realloc n = true) -> fits p1 (Zlen (enc_fields U)) ->
          fits p (2 + Zlen (enc_fields U) + Zlen (enc_fields W)) -> rc2 = SQLITE_OK) as S2'.
  { intros E Hall F F'. apply S2; auto. unfold fits, nBuf in *. cbn [aBuf empty_buffer].
    rewrite (@Zlen_nil Z). pose proof (Zlen_nonneg (aBuf p)). lia. }
  assert (rc1 = SQLITE_OK -> Zlen (aBuf p1) = Zlen (aBuf p) + 2) as Hl1.
  { intros E. destruct (Ok1 E) as [_ E']. rewrite E', Zlen_app. reflexivity. }
  destruct (decide (old = new)) as [->|Nod].
  - rewrite bool_decide_true by reflexivity.
    destruct (rewind_prefix p p2) as [Ep Hpr]; [etransitivity; eauto|auto|].
    exists (rewind p2 (nBuf p)), rc2. split_and!; auto; rewrite ?Ep, ?app_nil_r; auto.
    + rewrite (@Zlen_nil Z). lia.
    + intros _ Hall F. rewrite Hlen in F. unfold fits, nBuf in F.
      assert (rc1 = SQLITE_OK) as E by (apply S1; auto; unfold fits, nBuf; cbn [app]; zlia).
      apply S2'; auto. unfold fits, nBuf. rewrite Hl1 by auto. lia.
  - rewrite bool_decide_false by auto. cbv iota.
    destruct (appendBlob_spec realloc p2 (Some (aBuf q)) (aBuf q) [] (nBuf q) rc2)
      as (p3 & rc3 & -> & Hp3 & Pre3 & Ok3 & S3); auto.
    { pose proof (ok_alloc _ Hq). pose proof (ok_max _ Hq). unfold nBuf, SESSION_MAX_BUFFER_SZ in *. lia. }
    { left. rewrite app_nil_r. reflexivity. }
    exists p3, rc3. split_and!; auto.
    + etransitivity; [|exact Pre3]. etransitivity; eauto.
    + lia.
    + intros ->. destruct (Ok3 eq_refl) as [-> E3]. destruct (Ok2 eq_refl) as (-> & E2 & Eq).
      destruct (Ok1 eq_refl) as [_ E0]. split; [reflexivity|]. cbn [aBuf empty_buffer app] in Eq.
      rewrite E3, Eq, E2, E0. cbn [enc_delta]. rewrite <- !app_assoc. reflexivity.
    + intros _ Hall F. rewrite Hlen in F. unfold fits, nBuf in F.
      assert (rc1 = SQLITE_OK) as E by (apply S1; auto; unfold fits, nBuf; cbn [app]; zlia).
      assert (rc2 = SQLITE_OK) as -> by (apply S2'; auto; unfold fits, nBuf; rewrite Hl1 by auto; lia).
      destruct (Ok2 eq_refl) as (_ & E2 & Eq). cbn [aBuf empty_buffer app] in Eq.
      apply S3; auto. unfold fits, nBuf. rewrite E2, Eq, Zlen_app, Hl1 by auto. lia.
Qed.

(** ** Writing an INSERT or a DELETE *)

Lemma two_bytes realloc p rc a b : buffer_ok p -> is_byte a -> is_byte b ->
  appends realloc p rc [a; b]
    ('(p, rc) ← sessionAppendByte realloc p a rc; sessionAppendByte realloc p b rc).
Proof.
  intros Hp Ha Hb. apply (appends_bind realloc p rc [a] [b]).
  - apply appendByte_spec; auto.
  - intros. apply appendByte_spec; auto.
Qed.

Lemma bind_assoc {A B C} (m : option A) (f : A -> option B) (g : B -> option C) :
  (m ≫= f) ≫= g = m ≫= (fun x => f x ≫= g).
Proof. destruct m; reflexivity. Qed.

Lemma appendDelete_spec realloc p c pks old nCol :
  buffer_ok p -> is_byte (c_bIndirect c) -> c_aRecord c = enc_fields (Some <$> old) ->
  c_nRecord c = Zlen (c_aRecord c) -> Zlen (c_aRecord c) < 2 ^ 31 ->
  appends realloc p SQLITE_OK (enc_delta pks (DDelete (c_bIndirect c) old))
    (sessionAppendDelete realloc p false c nCol pks).
Proof.
  intros Hp Hi Hrec Hn Hsz. unfold sessionAppendDelete. cbn [enc_delta negb].
  assert (is_byte SQLITE_DELETE) as Hb by (unfold is_byte, SQLITE_DELETE; lia).
  pose proof (appends_bind realloc p SQLITE_OK [SQLITE_DELETE; c_bIndirect c] (c_aRecord c) _
    (fun p rc => sessionAppendBlob realloc p (Some (c_aRecord c)) (c_nRecord c) rc)
    (two_bytes realloc p SQLITE_OK SQLITE_DELETE (c_bIndirect c) Hp Hb Hi)) as H.
  rewrite <- Hrec.
  destruct (sessionAppendByte realloc p SQLITE_DELETE SQLITE_OK) as [[p1 rc1]|]; apply H;
    intros; apply (appendBlob_spec _ _ _ (c_aRecord c) []); rewrite ?app_nil_r; auto.
Qed.

Lemma appendCols_spec realloc p row rc : buffer_ok p -> Forall value_ok row ->
  appends realloc p rc (enc_fields (Some <$> row)) (appendCols realloc p row rc).
Proof.
  intros Hp Hv. revert p rc Hp. induction Hv as [|v row Hv Hrow IH]; intros p rc Hp; cbn [appendCols].
  - apply appends_ret, Hp.
  - rewrite fmap_cons, enc_fields_cons. apply appends_bind; [apply appendCol_spec; auto|].
    intros p' rc' Hp'. apply IH, Hp'.
Qed.

(** ** One recorded row *)

(** The net change of a recorded row, given the current contents. *)
Definition delta_of (T : contents) (ind : Z) (p : list sqlite3_value * entry) : option delta :=
  match p.2, T !! p.1 with
  | EInsert, Some r => Some (DInsert ind r)
  | EInsert, None => None
  | EOld o, Some r => if decide (o = r) then None else Some (DUpdate ind o r)
  | EOld o, None => Some (DDelete ind o)
  end.

Definition delta_bytes (pks : list Z) (d : option delta) : list Z :=
  match d with Some d => enc_delta pks d | None => [] end.

(** Space used while the row is processed. *)
Definition delta_room (pks : list Z) (T : contents) (p : list sqlite3_value * entry) : Z :=
  match p.2, T !! p.1 with
  | EInsert, Some r => Zlen (enc_delta pks (DInsert 0 r))
  | EInsert, None => 0
  | EOld o, Some r => Zlen (enc_delta pks (DUpdate 0 o r))
  | EOld o, None => Zlen (enc_delta pks (DDelete 0 o))
  end.

Record contents_ok (pks : list Z) (T : contents) : Prop := {
  co_rows : forall k r, T !! k = Some r -> row_ok pks r /\ row_fits r /\ pk_part pks r = k;
  co_keys : forall k r, T !! k = Some r -> Forall key_ok k
}.

(** The SELECT finds the row with exactly the bound key; if stepping it fails
    instead, the reset reports the error. *)
Definition select_ok (pks : list Z) (T : contents) (sel : Select) : Prop :=
  forall row k, row_ok pks row -> k = pk_part pks row -> Forall key_ok k ->
    fst (sel (bind_list pks 0 k)) = T !! k \/
    (fst (sel (bind_list pks 0 k)) = None /\ snd (sel (bind_list pks 0 k)) <> SQLITE_OK).

(** Memory is available and no statement call fails. *)
Definition engine_ample (g : GenEnv) (sel : Select) : Prop :=
  (forall n, g_realloc g n = true) /\ (forall b, g_bind g b = SQLITE_OK) /\
  (forall b, snd (sel b) = SQLITE_OK).

(** A failed reset discards whatever was written. *)
Definition settles (g : GenEnv) (sel : Select) (buf : SessionBuffer) (bs : list Z) (n : Z)
    (buf' : SessionBuffer) (rc' : Z) : Prop :=
  buffer_ok buf' /\ aBuf buf `prefix_of` aBuf buf' /\ Zlen bs <= n /\
  (rc' = SQLITE_OK -> aBuf buf' = aBuf buf ++ bs) /\
  (engine_ample g sel -> fits buf n -> rc' = SQLITE_OK).

Lemma enc_delta_len pks T ind p : Zlen (delta_bytes pks (delta_of T ind p)) <= delta_room pks T p.
Proof.
  unfold delta_of, delta_room. destruct p as [k e]. cbn [fst snd].
  destruct e as [|o], (T !! k) as [r|]; cbn [delta_bytes]; try reflexivity.
  destruct (decide (o = r)); cbn [delta_bytes]; [rewrite (@Zlen_nil Z); apply Zlen_nonneg|].
  cbn [enc_delta]. rewrite !Zlen_app. reflexivity.
Qed.

(** The write of one change settles. *)
Lemma settles_within g sel buf bs n buf1 rc1 reset :
  appends_within (g_realloc g) buf SQLITE_OK bs n (Some (buf1, rc1)) ->
  (engine_ample g sel -> reset = SQLITE_OK) ->
  settles g sel buf bs n buf1 (if rc1 =? SQLITE_OK then reset else rc1).
Proof.
  intros (p' & rc' & E & Hp & Pre & L & Hok & Hs) Hr. injection E as <- <-.
  split_and!; auto.
  - destruct (Z.eqb_spec rc1 SQLITE_OK) as [->|N]; [intros _; apply Hok; reflexivity|].
    intros E. contradiction.
  - intros He Hf. rewrite (Hs eq_refl (proj1 He) Hf), Z.eqb_refl. auto.
Qed.

(** The part of [generate_change] that writes, for a row found or not. *)
Definition write_change (realloc : Z -> bool) (t : SessionTable) (abPK : list Z) (c : SessionChange)
    (found : option (list sqlite3_value)) (buf : SessionBuffer) : option (SessionBuffer * Z) :=
  match found with
  | Some row =>
      if c_op c =? SQLITE_INSERT then
        '(buf, rc) ← sessionAppendByte realloc buf SQLITE_INSERT SQLITE_OK;
        '(buf, rc) ← sessionAppendByte realloc buf (c_bIndirect c) rc;
        cols ← read_n (t_nCol t) row;
        appendCols realloc buf cols rc
      else sessionAppendUpdate realloc buf false row c abPK
  | None =>
      if negb (c_op c =? SQLITE_INSERT)
      then sessionAppendDelete realloc buf false c (t_nCol t) abPK
      else Some (buf, SQLITE_OK)
  end.

Lemma appendInsert_spec realloc p ind pks row : buffer_ok p -> is_byte ind -> row_ok pks row ->
  appends realloc p SQLITE_OK (enc_delta pks (DInsert ind row))
    ('(p, rc) ← sessionAppendByte realloc p SQLITE_INSERT SQLITE_OK;
     '(p, rc) ← sessionAppendByte realloc p ind rc;
     cols ← read_n (Zlen pks) row; appendCols realloc p cols rc).
Proof.
  intros Hp Hi [L Hv]. assert (is_byte SQLITE_INSERT) as Hb by (unfold is_byte, SQLITE_INSERT; lia).
  assert (read_n (Zlen pks) row = Some row) as ->.
  { unfold Zlen. rewrite <- L. apply read_n_all. }
  pose proof (appends_bind realloc p SQLITE_OK [SQLITE_INSERT; ind] (enc_fields (Some <$> row)) _
    (fun p rc => appendCols realloc p row rc)
    (two_bytes realloc p SQLITE_OK SQLITE_INSERT ind Hp Hb Hi)) as H.
  destruct (sessionAppendByte realloc p SQLITE_INSERT SQLITE_OK) as [[p1 rc1]|]; apply H;
    intros; apply appendCols_spec; auto.
Qed.

Lemma bIndirect_byte pks c p : change_rep pks c p -> is_byte (c_bIndirect c).
Proof. intros (_ & _ & _ & _ & [-> | ->] & _); unfold is_byte; lia. Qed.

Lemma write_change_spec realloc t pks idx T c p buf :
  columns_ready pks idx t -> change_rep pks c p -> entry_ok pks p.1 p.2 -> contents_ok pks T ->
  buffer_ok buf ->
  appends_within realloc buf SQLITE_OK (delta_bytes pks (delta_of T (c_bIndirect c) p))
    (delta_room pks T p) (write_change realloc t pks c (T !! p.1) buf).
Proof.
  intros Hc Hrep He HT Hbuf. pose proof (bIndirect_byte _ _ _ Hrep) as Hi.
  destruct Hrep as (Hrec & Hnr & Hsmall & _ & _ & Hop). destruct p as [k e]. cbn [fst snd] in *.
  unfold write_change, delta_of, delta_room. cbn [fst snd]. rewrite (cr_nCol _ _ _ Hc).
  destruct (T !! k) as [r|] eqn:ET.
  - destruct (co_rows _ _ HT k r ET) as (Hr & Hfit & Hkr). destruct e as [|o].
    + rewrite Hop, Z.eqb_refl. eapply within_weaken; [|apply appends_to_within, appendInsert_spec; auto].
      cbn [delta_bytes enc_delta]. rewrite !Zlen_app. reflexivity.
    + destruct He as [_ [Ho Hko]].
      destruct (Z.eqb_spec (c_op c) SQLITE_INSERT) as [E|_]; [rewrite E in Hop; destruct Hop; discriminate|].
      pose proof (appendUpdate_spec realloc buf c pks o r Hbuf Ho Hr Hi Hrec) as H.
      eapply within_weaken; [|destruct (decide (o = r)); exact H].
      cbn [enc_delta]. rewrite !Zlen_app. reflexivity.
  - destruct e as [|o].
    + rewrite Hop, Z.eqb_refl. apply (appends_to_within _ _ _ []), appends_ret, Hbuf.
    + destruct (Z.eqb_spec (c_op c) SQLITE_INSERT) as [E|_]; [rewrite E in Hop; destruct Hop; discriminate|].
      eapply within_weaken; [|apply appends_to_within, appendDelete_spec; auto].
      cbn [delta_bytes enc_delta]. rewrite !Zlen_app. reflexivity.
Qed.

(** Writing a DELETE when the lookup failed: defined, and discarded later. *)
Lemma write_change_none realloc t pks idx c p buf :
  columns_ready pks idx t -> change_rep pks c p -> buffer_ok buf ->
  exists bs, appends realloc buf SQLITE_OK bs (write_change realloc t pks c None buf).
Proof.
  intros Hc Hrep Hbuf. pose proof (bIndirect_byte _ _ _ Hrep) as Hi.
  destruct Hrep as (Hrec & Hnr & Hsmall & _ & _ & Hop). destruct p as [k e]. cbn [fst snd] in *.
  unfold write_change. destruct e as [|o].
  - rewrite Hop, Z.eqb_refl. exists []. apply appends_ret, Hbuf.
  - destruct (Z.eqb_spec (c_op c) SQLITE_INSERT) as [E|_]; [rewrite E in Hop; destruct Hop; discriminate|].
    eexists. apply appendDelete_spec; eauto.
Qed.

Lemma generate_change_spec g t pks idx sel T c p buf nNoop ch sent :
  columns_ready pks idx t -> change_rep pks c p -> entry_ok pks p.1 p.2 -> contents_ok pks T ->
  select_ok pks T sel -> buffer_ok buf ->
  exists buf' rc',
    generate_change g false t pks sel c buf nNoop (mkOutput None ch sent)
      = Some (buf', nNoop, mkOutput None ch sent, rc') /\
    settles g sel buf (delta_bytes pks (delta_of T (c_bIndirect c) p)) (delta_room pks T p) buf' rc'.
Proof.
  intros Hc Hrep He HT Hsel Hbuf. unfold generate_change, sessionSelectBind.
  pose proof (proj1 Hrep) as Hrec. pose proof (enc_delta_len pks T (c_bIndirect c) p) as Hlen.
  rewrite (cr_nCol _ _ _ Hc), read_n_all. cbn [mbind option_bind].
  destruct (entry_fields_ok pks _ _ He) as (Hf & Lf & Hk).
  rewrite Hrec, <- (app_nil_r (enc_fields _)).
  destruct (selectBind_loop_spec g pks _ p.1 0 [] [] Lf Hf Hk (proj1 He) ltac:(auto with noria))
    as [(rc & b & -> & Nrc & Hb)| ->]; cbn [mbind option_bind].
  { apply Z.eqb_neq in Nrc as Erc. rewrite Erc. cbn [negb]. exists buf, rc. split; [reflexivity|].
    split_and!; auto; [contradiction|]. intros (_ & H & _). rewrite H in Hb. contradiction. }
  change (negb (SQLITE_OK =? SQLITE_OK)) with false. cbv iota. cbn [app].
  destruct (entry_row _ _ _ He) as (row & Hrow & Ekey). pose proof (Hsel row p.1 Hrow (eq_sym Ekey) (proj1 He)) as Hfound.
  destruct (sel (bind_list pks 0 p.1)) as [found reset] eqn:Esel. cbn [fst snd] in Hfound.
  assert (engine_ample g sel -> reset = SQLITE_OK) as Hreset.
  { intros (_ & _ & H). specialize (H (bind_list pks 0 p.1)). rewrite Esel in H. exact H. }
  rewrite <- (cr_nCol _ _ _ Hc). fold (write_change (g_realloc g) t pks c found buf).
  cbn [o_xOutput]. destruct Hfound as [-> | [-> Nres]].
  - pose proof (write_change_spec (g_realloc g) t pks idx T c p buf Hc Hrep He HT Hbuf) as Hw.
    destruct (write_change (g_realloc g) t pks c (T !! p.1) buf) as [[buf1 rc1]|];
      [|destruct Hw as (? & ? & ? & _); discriminate]. cbn [mbind option_bind].
    eexists _, _. split; [reflexivity|]. apply settles_within; auto.
  - destruct (write_change_none (g_realloc g) t pks idx c p buf Hc Hrep Hbuf)
      as (bs & buf1 & rc1 & -> & Hb1 & Pre & _). cbn [mbind option_bind].
    eexists _, _. split; [reflexivity|]. split_and!; auto.
    + destruct (Z.eqb_spec rc1 SQLITE_OK); contradiction.
    + intros Ha _. destruct (Nres (Hreset Ha)).
Qed.

(** ** All recorded rows of a table *)

Definition deltas_of (T : contents) (inds : list Z) (ps : list (list sqlite3_value * entry))
    : list delta :=
  omap (fun ip => delta_of T ip.1 ip.2) (zip inds ps).

Definition rooms (pks : list Z) (T : contents) (ps : list (list sqlite3_value * entry)) : Z :=
  foldr (fun p n => delta_room pks T p + n) 0 ps.

Lemma deltas_of_cons T i inds p ps :
  deltas_of T (i :: inds) (p :: ps)
  = match delta_of T i p with Some d => d :: deltas_of T inds ps | None => deltas_of T inds ps end.
Proof. reflexivity. Qed.

Lemma deltas_bytes_cons pks T i inds p ps :
  concat (enc_delta pks <$> deltas_of T (i :: inds) (p :: ps))
  = delta_bytes pks (delta_of T i p) ++ concat (enc_delta pks <$> deltas_of T inds ps).
Proof. rewrite deltas_of_cons. destruct (delta_of T i p); reflexivity. Qed.

Lemma generate_changes_spec g t pks idx sel T cs ps buf nNoop ch sent :
  columns_ready pks idx t -> Forall2 (change_rep pks) cs ps ->
  Forall (fun p => entry_ok pks p.1 p.2) ps -> contents_ok pks T ->
  select_ok pks T sel -> buffer_ok buf ->
  exists buf' rc',
    generate_changes g false t pks sel cs buf nNoop (mkOutput None ch sent) SQLITE_OK
      = Some (buf', nNoop, mkOutput None ch sent, rc') /\
    settles g sel buf (concat (enc_delta pks <$> deltas_of T (c_bIndirect <$> cs) ps))
      (rooms pks T ps) buf' rc'.
Proof.
  intros Hc HF. revert buf. induction HF as [|c p cs ps Hcp HF IH]; intros buf Hok HT Hsel Hbuf.
  { exists buf, SQLITE_OK. split; [reflexivity|]. split_and!; auto; cbn; rewrite ?app_nil_r; auto; zlia. }
  apply Forall_cons in Hok as [Hp Hok]. cbn [generate_changes rooms foldr].
  change (negb (SQLITE_OK =? SQLITE_OK)) with false. cbv iota.
  destruct (generate_change_spec g t pks idx sel T c p buf nNoop ch sent Hc Hcp Hp HT Hsel Hbuf)
    as (b1 & rc1 & -> & Hb1 & Pre1 & L1 & Ok1 & S1). cbn [mbind option_bind].
  rewrite fmap_cons, deltas_bytes_cons. fold (rooms pks T ps).
  destruct (IH b1 Hok HT Hsel Hb1) as (b2 & rc2 & E2 & Hb2 & Pre2 & L2 & Ok2 & S2).
  destruct (decide (rc1 = SQLITE_OK)) as [->|N].
  - rewrite E2. exists b2, rc2. split; [reflexivity|]. split_and!; auto.
    + etransitivity; eauto.
    + rewrite Zlen_app. lia.
    + intros E. rewrite (Ok2 E), (Ok1 eq_refl), app_assoc. reflexivity.
    + intros Ha Hf. apply S2; auto. unfold fits, nBuf in *. rewrite (Ok1 eq_refl), Zlen_app. lia.
  - assert (generate_changes g false t pks sel cs b1 nNoop (mkOutput None ch sent) rc1
      = Some (b1, nNoop, mkOutput None ch sent, rc1)) as ->.
    { apply Z.eqb_neq in N. destruct cs; cbn [generate_changes]; rewrite N; reflexivity. }
    exists b1, rc1. split; [reflexivity|]. split_and!; auto; [|contradiction|].
    + rewrite Zlen_app. lia.
    + intros Ha Hf. apply S1; auto. unfold fits in *.
      pose proof (Zlen_nonneg (concat (enc_delta pks <$> deltas_of T (c_bIndirect <$> cs) ps))). lia.
Qed.

(** ** A table *)

Lemma appendTableHdr_spec realloc p t pks idx : buffer_ok p -> columns_ready pks idx t ->
  Zlen (t_zName t) < 2 ^ 30 ->
  appends realloc p SQLITE_OK (enc_header pks (t_zName t))
    (sessionAppendTableHdr realloc p false t SQLITE_OK).
Proof.
  intros Hp Hc Hz. pose proof (cr_small _ _ _ Hc). pose proof (Zlen_nonneg (t_zName t)).
  unfold sessionAppendTableHdr, enc_header. rewrite (cr_nCol _ _ _ Hc), (cr_abPK _ _ _ Hc).
  apply appends_bind; [apply appendByte_spec; auto; unfold is_byte; lia|]. intros p1 rc1 Hp1.
  apply appends_bind; [apply appendVarint_spec; auto; lia|]. intros p2 rc2 Hp2.
  apply appends_bind.
  - apply (appendBlob_spec realloc p2 _ pks []); rewrite ?app_nil_r; auto. lia.
  - intros p3 rc3 Hp3. rewrite i32_id by (unfold is_i32; lia).
    apply (appendBlob_spec realloc p3 _ (t_zName t ++ [0]) []); rewrite ?app_nil_r; auto;
      rewrite Zlen_app; change (Zlen [0]) with 1; lia.
Qed.

Lemma reinit_same_refl l : reinit_same l l = true.
Proof. induction l as [|x l IH]; cbn; [reflexivity|]. rewrite Z.eqb_refl. exact IH. Qed.

(** The schema query of [te] also reports the column names [azCol]. *)
Definition reports_columns (te : TableEnv) (zName : list Z) (azCol : list (list Z)) : Prop :=
  ti_rc (sessionTableInfo te zName false false) = SQLITE_OK ->
  ti_azCol (sessionTableInfo te zName false false) = azCol.

(** Re-reading an unchanged schema changes nothing that matters. *)
Lemma reinit_spec te s t pks idx n azCol l :
  plain_session s -> holds pks idx n t l ->
  reports te (t_zName t) (Keyed pks idx n) -> reports_columns te (t_zName t) azCol ->
  exists t' rc, sessionReinitTable te s t = (set_rc s rc, t', rc) /\ t_zName t' = t_zName t /\
    rc = ti_rc (sessionTableInfo te (t_zName t) false false) /\
    (rc = SQLITE_OK -> holds pks idx n t' l /\ t_azCol t' = azCol /\ t_nEntry t' = t_nEntry t).
Proof.
  intros [Hsz Hid] (Hc & Hn & B & HR & HB) Hrep Hcol. unfold sessionReinitTable. rewrite Hid, Hsz.
  unfold reports in Hrep. unfold reports_columns in Hcol.
  set (ti := sessionTableInfo te (t_zName t) false false) in *.
  destruct (Z.eqb_spec (ti_rc ti) SQLITE_OK) as [E|N]; cbn [negb].
  - destruct (Hrep E) as (H1 & H2 & H3 & H4 & H5). rewrite H1, H2, H3, H4, H5, (Hcol E).
    rewrite (cr_nCol _ _ _ Hc), Z.ltb_irrefl, (cr_rowid _ _ _ Hc), (cr_abPK _ _ _ Hc).
    cbn [default id orb negb Bool.eqb]. rewrite Zlen_to_nat, take_ge by lia.
    rewrite reinit_same_refl. eexists _, _. split; [reflexivity|]. split_and!; auto. intros _.
    split_and!; auto. split_and!; auto.
    + destruct Hc. split; auto.
    + exists B. split; [|exact HB]. destruct HR. split; auto.
  - eexists _, _. split; [reflexivity|]. split_and!; auto. contradiction.
Qed.

(** What generating a changeset relies on for one table: the schema has not
    changed, and the SELECT finds rows of the current contents [T] by key. *)
Record table_engine (g : GenEnv) (zDb zName : list Z) (pks idx : list Z) (n : Z)
    (azCol : list (list Z)) (T : contents) : Prop := {
  eg_reports : reports (g_table g zName) zName (Keyed pks idx n);
  eg_columns : reports_columns (g_table g zName) zName azCol;
  eg_length : length azCol = length pks;
  eg_short : Forall short azCol;
  eg_name : short zName;
  eg_stat1 : sqlite3StrICmp (str "sqlite_stat1") zName <> 0;
  eg_select : forall sel, g_prepare g (select_sql zDb zName azCol pks) = (SQLITE_OK, sel) ->
    select_ok pks T sel
}.

(** No call fails for the table. *)
Definition table_ample (g : GenEnv) (zDb zName : list Z) (pks : list Z) (azCol : list (list Z)) : Prop :=
  ti_rc (sessionTableInfo (g_table g zName) zName false false) = SQLITE_OK /\
  (forall n, g_realloc g n = true) /\
  exists sel, sessionSelectStmt g false zDb zName (Zlen pks) azCol pks = Some (SQLITE_OK, Some sel) /\
    engine_ample g sel.

(** The changes written for a table that records [l]. *)
Definition net_changes (T : contents) (l : list (list sqlite3_value * entry)) (ds : list delta) : Prop :=
  exists inds ps, ps ≡ₚ l /\ length inds = length ps /\
    Forall (fun i => i = 0 \/ i = 1) inds /\ ds = deltas_of T inds ps.

#[export] Instance rooms_Proper pks T : Proper ((≡ₚ) ==> (=)) (rooms pks T).
Proof.
  intros l l' H. unfold rooms. induction H; cbn; auto; lia.
Qed.

Lemma enc_header_nonempty pks zName : 0 < Zlen (enc_header pks zName).
Proof. unfold enc_header. cbn [app]. zlia. Qed.

Lemma enc_delta_nonempty pks d : 0 < Zlen (enc_delta pks d).
Proof. destruct d; cbn [enc_delta app]; zlia. Qed.

Lemma deltas_empty pks ds : Zlen (concat (enc_delta pks <$> ds)) = 0 -> ds = [].
Proof.
  destruct ds as [|d ds]; [auto|]. rewrite fmap_cons. cbn [concat]. rewrite Zlen_app.
  pose proof (enc_delta_nonempty pks d). pose proof (Zlen_nonneg (concat (enc_delta pks <$> ds))). lia.
Qed.

Lemma enc_table_cons pks zName ds : ds <> [] ->
  enc_table pks zName ds = enc_header pks zName ++ concat (enc_delta pks <$> ds).
Proof. destruct ds; [contradiction|reflexivity]. Qed.

(** The end of the table loop: an empty section is taken back. *)
Lemma table_rewind g sel pks zName p p1 p2 ds n rc :
  aBuf p1 = aBuf p ++ enc_header pks zName ->
  settles g sel p1 (concat (enc_delta pks <$> ds)) n p2 rc ->
  let p3 := if nBuf p2 =? nBuf p1 then rewind p2 (nBuf p) else p2 in
  buffer_ok p3 /\ aBuf p `prefix_of` aBuf p3 /\
  (rc = SQLITE_OK -> aBuf p3 = aBuf p ++ enc_table pks zName ds).
Proof.
  intros E1 (Hp2 & Pre2 & _ & Ok2 & _) p3.
  assert (aBuf p `prefix_of` aBuf p2) as Pre by (etransitivity; [eexists; exact E1|exact Pre2]).
  unfold p3. destruct (Z.eqb_spec (nBuf p2) (nBuf p1)) as [E|N].
  - destruct (rewind_prefix p p2 Pre Hp2) as [Er Hr]. split_and!; auto; [rewrite Er; reflexivity|].
    intros Hrc. rewrite Er. pose proof (Ok2 Hrc) as Eb. unfold nBuf in E. rewrite Eb, Zlen_app in E.
    rewrite (deltas_empty pks ds) by lia. cbn. rewrite app_nil_r. reflexivity.
  - split_and!; auto. intros Hrc. rewrite (Ok2 Hrc), E1, <- app_assoc.
    rewrite enc_table_cons; [reflexivity|]. intros ->. apply N. unfold nBuf. rewrite (Ok2 Hrc).
    cbn. rewrite app_nil_r. reflexivity.
Qed.

(** With an error pending the header is not written. *)
Lemma appendTableHdr_err realloc p t rc : rc <> SQLITE_OK ->
  sessionAppendTableHdr realloc p false t rc = Some (p, rc).
Proof.
  intros N. apply Z.eqb_neq in N.
  assert (forall n, sessionBufferGrow realloc p n rc = Some (p, rc)) as G
    by (intros n; unfold sessionBufferGrow; rewrite N; reflexivity).
  unfold sessionAppendTableHdr, sessionAppendByte, sessionAppendVarint, sessionAppendBlob.
  rewrite !G. cbn [mbind option_bind]. rewrite N. cbn [mbind option_bind]. rewrite G.
  cbn [mbind option_bind]. rewrite N. cbn [mbind option_bind].
  destruct (0 <? t_nCol t); [rewrite G; cbn [mbind option_bind]; rewrite N; cbn [mbind option_bind]|];
    cbn [mbind option_bind]; (destruct (0 <? _); [|reflexivity]); rewrite G; cbn [mbind option_bind];
    rewrite N; reflexivity.
Qed.

Lemma rewind_self p : rewind p (nBuf p) = p.
Proof.
  destruct p as [b n]. unfold rewind, nBuf. cbn [aBuf nAlloc].
  rewrite Zlen_to_nat, take_ge by lia. reflexivity.
Qed.

Lemma rep_read pks t B : rep pks t B -> read_n (t_nChange t) (t_apChange t) = Some (t_apChange t).
Proof.
  intros HR. rewrite (rep_size _ _ _ HR). unfold Zlen.
  rewrite <- (Forall2_length _ _ _ (rep_changes _ _ _ HR)). apply read_n_all.
Qed.

(** From the header on, for a table whose schema has been re-read. *)
Lemma table_body g s t pks idx n azCol T l buf ch sent :
  holds pks idx n t l -> contents_ok pks T -> t_azCol t = azCol ->
  table_engine g (s_zDb s) (t_zName t) pks idx n azCol T -> buffer_ok buf ->
  exists buf' rc',
    ('(buf1, rc) ← sessionAppendTableHdr (g_realloc g) buf false t SQLITE_OK;
     '(rc, pSel) ← (if rc =? SQLITE_OK then
                      abPK ← t_abPK t;
                      sessionSelectStmt g false (s_zDb s) (t_zName t) (t_nCol t) (t_azCol t) abPK
                    else Some (rc, None));
     let nNoop := nBuf buf1 in
     '(buf2, nNoop, out, rc) ←
       (if rc =? SQLITE_OK then
          sel ← pSel;
          abPK ← t_abPK t;
          bs ← read_n (t_nChange t) (t_apChange t);
          generate_changes g false t abPK sel (concat bs) buf1 nNoop (mkOutput None ch sent) rc
        else Some (buf1, nNoop, mkOutput None ch sent, rc));
     Some (if nBuf buf2 =? nNoop then rewind buf2 (nBuf buf) else buf2, out, rc))
    = Some (buf', mkOutput None ch sent, rc') /\
    buffer_ok buf' /\ aBuf buf `prefix_of` aBuf buf' /\
    (rc' = SQLITE_OK -> exists ds, net_changes T l ds /\ aBuf buf' = aBuf buf ++ enc_table pks (t_zName t) ds) /\
    (table_ample g (s_zDb s) (t_zName t) pks azCol ->
     fits buf (Zlen (enc_header pks (t_zName t)) + rooms pks T l) -> rc' = SQLITE_OK).
Proof.
  intros (Hc & Hn & B & HR & HB) HT Haz [_ _ Hlen Hsh Hnm Hst Hsel] Hbuf.
  assert (Zlen (t_zName t) < 2 ^ 30) as Hzn by (unfold short in Hnm; lia).
  destruct (appendTableHdr_spec (g_realloc g) buf t pks idx Hbuf Hc Hzn) as (b1 & rc1 & -> & Hb1 & Pre1 & Ok1 & S1).
  cbn [mbind option_bind]. pose proof (Zlen_nonneg (enc_header pks (t_zName t))) as Hh0.
  assert (0 <= rooms pks T l) as Hr0.
  { clear. unfold rooms. induction l as [|p l IH]; cbn; [lia|]. pose proof (Zlen_nonneg (delta_bytes pks (delta_of T 0 p))).
    pose proof (enc_delta_len pks T 0 p). lia. }
  destruct (Z.eqb_spec rc1 SQLITE_OK) as [->|N1].
  2: { cbn [mbind option_bind]. apply Z.eqb_neq in N1 as E1. rewrite E1. cbn [mbind option_bind].
       rewrite Z.eqb_refl. destruct (rewind_prefix buf b1 Pre1 Hb1) as [Er Hr].
       eexists _, _. split; [reflexivity|]. rewrite Er. split_and!; auto; [contradiction|].
       intros (_ & Hall & _) Hf. apply S1; auto. unfold fits in *. lia. }
  rewrite (cr_abPK _ _ _ Hc), (cr_nCol _ _ _ Hc), Haz. cbn [mbind option_bind].
  destruct (selectStmt_spec g (s_zDb s) (t_zName t) azCol pks Hlen Hsh Hnm Hst) as (rc2 & osel & Esel & Hprep).
  rewrite Esel. cbn [mbind option_bind].
  destruct (Z.eqb_spec rc2 SQLITE_OK) as [->|N2].
  2: { cbn [mbind option_bind]. rewrite Z.eqb_refl. destruct (rewind_prefix buf b1 Pre1 Hb1) as [Er Hr].
       eexists _, _. split; [reflexivity|]. rewrite Er. split_and!; auto; [contradiction|].
       intros (_ & _ & sel & E & _) _. rewrite E in Esel. congruence. }
  destruct (Hprep eq_refl) as (sel & Ep & ->). cbn [mbind option_bind].
  rewrite (rep_read pks t B HR). cbn [mbind option_bind].
  destruct (generate_changes_spec g t pks idx sel T (concat (t_apChange t)) (concat B) b1 (nBuf b1) ch sent Hc)
    as (b2 & rc & -> & Hset); auto.
  { apply concat_rep, (rep_changes _ _ _ HR). }
  { apply (rep_entries _ _ _ HR). }
  cbn [mbind option_bind]. destruct (Ok1 eq_refl) as [_ E1].
  destruct (table_rewind g sel pks (t_zName t) buf b1 b2 _ _ rc E1 Hset) as (Hb3 & Pre3 & Ok3).
  eexists _, _. split; [reflexivity|]. split_and!; auto.
  - intros E. eexists. split; [|apply Ok3, E]. exists (c_bIndirect <$> concat (t_apChange t)), (concat B).
    pose proof (concat_rep _ _ _ (rep_changes _ _ _ HR)) as HF.
    split_and!; auto; [rewrite length_fmap; eapply Forall2_length, HF|].
    apply Forall_fmap. clear -HF. induction HF as [|c p cs ps (_ & _ & _ & _ & Hi & _) HF IH]; constructor; auto.
  - intros (_ & Hall & sel' & E & Ha) Hf. rewrite E in Esel. injection Esel as <-.
    destruct Hset as (_ & _ & _ & _ & S). apply S; auto. unfold fits, nBuf in *. rewrite E1, Zlen_app, HB. lia.
Qed.

Lemma generate_table_spec g s t pks idx n azCol T l buf ch sent :
  plain_session s -> holds pks idx n t l -> contents_ok pks T ->
  table_engine g (s_zDb s) (t_zName t) pks idx n azCol T -> buffer_ok buf ->
  exists t' buf' rc0 rc',
    generate_table g false s t buf (mkOutput None ch sent)
      = Some (set_rc s rc0, t', buf', mkOutput None ch sent, rc') /\
    sessionReinitTable (g_table g (t_zName t)) s t = (set_rc s rc0, t', rc0) /\
    t_zName t' = t_zName t /\ buffer_ok buf' /\ aBuf buf `prefix_of` aBuf buf' /\
    (rc' = SQLITE_OK -> rc0 = SQLITE_OK /\ holds pks idx n t' l /\
       exists ds, net_changes T l ds /\ aBuf buf' = aBuf buf ++ enc_table pks (t_zName t) ds) /\
    (table_ample g (s_zDb s) (t_zName t) pks azCol ->
     fits buf (Zlen (enc_header pks (t_zName t)) + rooms pks T l) -> rc' = SQLITE_OK).
Proof.
  intros Hps Hh HT Heng Hbuf. unfold generate_table. pose proof Heng as [Hrep Hcol _ _ _ _ _].
  destruct (reinit_spec (g_table g (t_zName t)) s t pks idx n azCol l Hps Hh Hrep Hcol)
    as (t1 & rc1 & -> & Hz1 & Eti & Hok1).
  destruct (Z.eqb_spec rc1 SQLITE_OK) as [->|N]; cbn [andb].
  - destruct (Hok1 eq_refl) as (Hh1 & Haz & _). pose proof (cr_nCol _ _ _ (proj1 Hh)) as C0.
    pose proof (cr_nCol _ _ _ (proj1 Hh1)) as C1. rewrite C0, C1, Z.eqb_refl. cbn [negb mbind option_bind].
    rewrite <- C1, <- Hz1 in *.
    destruct (table_body g s t1 pks idx n azCol T l buf ch sent Hh1 HT Haz Heng Hbuf)
      as (buf' & rc' & Ebody & Hb & Pre & Ok & S).
    change (s_zDb (set_rc s SQLITE_OK)) with (s_zDb s).
    destruct (sessionAppendTableHdr _ buf false t1 SQLITE_OK) as [[b1 rc1]|]; [|discriminate].
    cbn [mbind option_bind] in Ebody |- *.
    destruct (if rc1 =? SQLITE_OK then _ else _) as [[rc2 osel]|]; [|discriminate].
    cbn [mbind option_bind] in Ebody |- *.
    destruct (if rc2 =? SQLITE_OK then _ else _) as [[[[b2 nn] out] rc3]|]; [|discriminate].
    cbn [mbind option_bind] in Ebody |- *. injection Ebody as <- -> ->.
    eexists t1, _, SQLITE_OK, rc'. split; [reflexivity|]. split_and!; auto.
  - cbn [mbind option_bind]. rewrite appendTableHdr_err by exact N. cbn [mbind option_bind].
    apply Z.eqb_neq in N as E. rewrite E. cbn [mbind option_bind]. rewrite E. cbn [mbind option_bind].
    rewrite Z.eqb_refl, rewind_self. eexists _, _, _, _. split; [reflexivity|]. split_and!; auto; [contradiction|].
    intros (Hti & _) _. congruence.
Qed.

(** ** The net difference of two states of a table *)

Definition delta_flag (d : delta) : Z := match d with DInsert i _ | DDelete i _ | DUpdate i _ _ => i end.

Definition delta_key (pks : list Z) (d : delta) : list sqlite3_value :=
  match d with DInsert _ r | DDelete _ r | DUpdate _ r _ => pk_part pks r end.

(** [ds] is exactly the difference between [T0] and [T1]: every change is
    real, every differing row has a change, and no row has two. *)
Record net_diff (pks : list Z) (T0 T1 : contents) (ds : list delta) : Prop := {
  nd_sound : forall d, d ∈ ds ->
    match d with
    | DInsert _ r => T0 !! pk_part pks r = None /\ T1 !! pk_part pks r = Some r
    | DDelete _ o => T0 !! pk_part pks o = Some o /\ T1 !! pk_part pks o = None
    | DUpdate _ o r => T0 !! pk_part pks o = Some o /\ T1 !! pk_part pks o = Some r /\ o <> r
    end;
  nd_complete : forall k, T0 !! k <> T1 !! k -> exists d, d ∈ ds /\ delta_key pks d = k;
  nd_unique : NoDup (delta_key pks <$> ds);
  nd_flag : Forall (fun d => delta_flag d = 0 \/ delta_flag d = 1) ds
}.

Lemma delta_of_key pks T0 T1 i p d : contents_ok pks T0 -> contents_ok pks T1 ->
  match p.2 with EInsert => T0 !! p.1 = None | EOld o => T0 !! p.1 = Some o end ->
  delta_of T1 i p = Some d ->
  delta_key pks d = p.1 /\
  match d with
  | DInsert _ r => T0 !! pk_part pks r = None /\ T1 !! pk_part pks r = Some r
  | DDelete _ o => T0 !! pk_part pks o = Some o /\ T1 !! pk_part pks o = None
  | DUpdate _ o r => T0 !! pk_part pks o = Some o /\ T1 !! pk_part pks o = Some r /\ o <> r
  end.
Proof.
  intros H0 H1 He Hd. destruct p as [k e]. unfold delta_of in Hd. cbn [fst snd] in *.
  destruct e as [|o], (T1 !! k) as [r|] eqn:E1; try discriminate.
  - injection Hd as <-. cbn. destruct (co_rows _ _ H1 k r E1) as (_ & _ & ->). auto.
  - destruct (decide (o = r)) as [|N]; [discriminate|]. injection Hd as <-. cbn.
    destruct (co_rows _ _ H0 k o He) as (_ & _ & ->). auto.
  - injection Hd as <-. cbn. destruct (co_rows _ _ H0 k o He) as (_ & _ & ->). auto.
Qed.

(** The recorded row [p] is what the table [T0] holds. *)
Definition recorded_in (T0 : contents) (p : list sqlite3_value * entry) : Prop :=
  match p.2 with EInsert => T0 !! p.1 = None | EOld o => T0 !! p.1 = Some o end.

Lemma deltas_elem T inds ps d : d ∈ deltas_of T inds ps ->
  exists i p, i ∈ inds /\ p ∈ ps /\ delta_of T i p = Some d.
Proof.
  intros Hd. unfold deltas_of in Hd. apply list_elem_of_omap in Hd as ([i p] & Hz & Hd). exists i, p.
  split_and!; [eapply elem_of_zip_l, Hz|eapply elem_of_zip_r, Hz|exact Hd].
Qed.

Lemma delta_of_ind T i p d : delta_of T i p = Some d -> delta_flag d = i.
Proof.
  unfold delta_of. destruct (p.2), (T !! p.1); try discriminate; [intros [= <-]; reflexivity| |intros [= <-]; reflexivity].
  destruct (decide _); [discriminate|]. intros [= <-]. reflexivity.
Qed.

Lemma deltas_complete pks T0 T1 inds ps p : contents_ok pks T0 -> contents_ok pks T1 -> length inds = length ps ->
  p ∈ ps -> recorded_in T0 p -> T0 !! p.1 <> T1 !! p.1 ->
  exists d, d ∈ deltas_of T1 inds ps /\ delta_key pks d = p.1.
Proof.
  intros H0 H1 HL Hp He Hk. apply list_elem_of_lookup_1 in Hp as (j & Hj).
  destruct (lookup_lt_is_Some_2 inds j) as [i Hi]; [rewrite HL; eapply lookup_lt_Some, Hj|].
  assert (is_Some (delta_of T1 i p)) as [d Hd].
  { unfold delta_of, recorded_in in *. destruct p as [k [|o]]; cbn in *.
    - destruct (T1 !! k); [eauto|congruence].
    - destruct (T1 !! k) as [r|]; [|eauto]. destruct (decide (o = r)); [congruence|eauto]. }
  exists d. split; [|apply (delta_of_key pks T0 T1 i p d H0 H1 He Hd)].
  unfold deltas_of. apply list_elem_of_omap. exists (i, p). split; [|exact Hd].
  apply list_elem_of_lookup_2 with j. apply lookup_zip_Some. auto.
Qed.

Lemma deltas_unique pks T0 T1 inds ps : contents_ok pks T0 -> contents_ok pks T1 -> length inds = length ps ->
  NoDup ps.*1 -> Forall (recorded_in T0) ps -> NoDup (delta_key pks <$> deltas_of T1 inds ps).
Proof.
  intros H0 H1. revert inds. induction ps as [|p ps IH]; intros [|i inds] HL Hnd He; try discriminate; [constructor|].
  rewrite deltas_of_cons. cbn in Hnd. apply NoDup_cons in Hnd as [Hn Hnd]. apply Forall_cons in He as [Hp He].
  injection HL as HL. pose proof (IH inds HL Hnd He) as IH'.
  destruct (delta_of T1 i p) as [d|] eqn:Ed; [|exact IH']. rewrite fmap_cons. constructor; [|exact IH'].
  destruct (delta_of_key pks T0 T1 i p d H0 H1 Hp Ed) as [-> _].
  intros Hbad. apply Hn. apply list_elem_of_fmap in Hbad as (d' & Ek & Hd').
  apply deltas_elem in Hd' as (i' & p' & _ & Hp' & Hd'). rewrite Forall_forall in He.
  destruct (delta_of_key pks T0 T1 i' p' d' H0 H1 (He p' Hp') Hd') as [E' _].
  rewrite Ek, E'. apply list_elem_of_fmap_2, Hp'.
Qed.

Lemma net_changes_diff pks T0 T1 l ds : contents_ok pks T0 -> contents_ok pks T1 ->
  tracks_diff T0 T1 l -> net_changes T1 l ds -> net_diff pks T0 T1 ds.
Proof.
  intros H0 H1 HT (inds & ps & HP & HL & Hf & ->). rewrite <- HP in HT. clear l HP.
  destruct HT as [Hnd Hsame Hent].
  assert (Forall (recorded_in T0) ps) as He.
  { apply Forall_forall. intros [k e] Hin. exact (Hent k e Hin). }
  pose proof (proj1 (Forall_forall _ _) He) as He'. split.
  - intros d Hd. destruct (deltas_elem _ _ _ _ Hd) as (i & p & _ & Hp & Ed).
    exact (proj2 (delta_of_key pks T0 T1 i p d H0 H1 (He' p Hp) Ed)).
  - intros k Hk. destruct (decide (k ∈ ps.*1)) as [Hkp|N]; [|destruct (Hk (eq_sym (Hsame k N)))].
    apply list_elem_of_fmap in Hkp as (p & -> & Hp). exact (deltas_complete pks T0 T1 inds ps p H0 H1 HL Hp (He' p Hp) Hk).
  - exact (deltas_unique pks T0 T1 inds ps H0 H1 HL Hnd He).
  - apply Forall_forall. intros d Hd. destruct (deltas_elem _ _ _ _ Hd) as (i & p & Hi & _ & Ed).
    rewrite (delta_of_ind _ _ _ _ Ed). rewrite Forall_forall in Hf. apply Hf, Hi.
Qed.
