(* ===== verification/Generate.v ===== *)
(** * The changeset of a session is the net difference

    The table loop of [sqlite3session_changeset], combined with the invariant
    of the recorder: in every reachable state the changeset is the encoding of
    the exact difference between the database when the session started and
    the database now. *)
From stdpp Require Import gmap strings.
From S2P Require Import Prelude Bits Varint Value Record Strings Buffer Session Recorder Tracking SelectSql Changeset.

Local Open Scope Z_scope.

(** ** Rows stay well formed *)

Lemma keyed_row_ok pks r : row_ok pks r -> keyed_row pks r = true -> Forall key_ok (pk_part pks r).
Proof.
  intros [_ Hv] Hk. apply no_null_keys; [apply pk_part_Forall, Hv|].
  unfold keyed_row in Hk. destruct (existsb _ _); [discriminate|reflexivity].
Qed.

Lemma put_row_contents pks r T : row_ok pks r -> row_fits r -> contents_ok pks T ->
  contents_ok pks (put_row pks r T).
Proof.
  intros Hr Hf [H1 H2]. unfold put_row. destruct (keyed_row pks r) eqn:Ek; [|split; auto].
  split; intros k x; (destruct (decide (k = pk_part pks r)) as [->|N];
    intros E; [|rewrite lookup_insert_ne in E by congruence; eauto]).
  - rewrite lookup_insert_eq in E. injection E as <-. auto.
  - apply keyed_row_ok; auto.
Qed.

Lemma remove_row_contents pks r T : contents_ok pks T -> contents_ok pks (remove_row pks r T).
Proof.
  intros [H1 H2]. unfold remove_row. destruct (keyed_row pks r); [|split; auto].
  split; intros k x E; apply lookup_delete_Some in E as [_ E]; eauto.
Qed.

Lemma apply_change_contents pks idx hook c T : change_delivered pks idx hook c ->
  contents_ok pks T -> contents_ok pks (apply_change pks c T).
Proof.
  destruct c as [new|old|old new]; cbn.
  - intros (Hr & Hf & _). apply put_row_contents; auto.
  - intros _. apply remove_row_contents.
  - intros [_ (Hr & Hf & _)] HT. apply put_row_contents; auto using remove_row_contents.
Qed.

Section Session.

Context (names : list (list Z)) (schema : list Z -> tkind) (columns : list Z -> list (list Z)).
Context (zDb : list Z) (Hschema : schema_ok names schema zDb).

(** All rows of all keyed tables are well formed. *)
Definition database_ok (D : database) : Prop :=
  forall n, n ∈ names ->
    match schema n with Keyed pks _ _ => contents_ok pks (D n) | Keyless => True end.

Lemma db_apply_ok D ev : event_ok names schema D ev -> database_ok D ->
  database_ok (db_apply schema (ev_name ev) (ev_change ev) D).
Proof.
  intros (Hn & _ & Hev) HD n Hn'. specialize (HD n Hn'). unfold db_apply.
  destruct (decide (n = ev_name ev)) as [->|N].
  - destruct (schema (ev_name ev)) as [pks idx nt|]; [|exact I]. rewrite decide_True by reflexivity.
    destruct Hev as (_ & _ & Hd). eapply apply_change_contents; eauto.
  - destruct (schema n); [|exact I]. destruct (schema (ev_name ev)); [|exact HD].
    rewrite decide_False by exact N. exact HD.
Qed.

Lemma reach_ok D0 k st : database_ok D0 -> reach names schema zDb D0 k st ->
  database_ok (st_db st) /\ Forall database_ok (st_saves st).
Proof.
  intros H0. induction 1 as [|k st st' Hr [IH1 IH2] Hs]; [auto|].
  destruct Hs as [st ev s' Hev Hf|st|st D saves E|st D saves E]; cbn [st_db st_saves] in *; auto.
  - split; [apply db_apply_ok; auto|auto].
  - rewrite E in IH2. apply Forall_cons in IH2 as [_ ?]. auto.
  - rewrite E in IH2. apply Forall_cons in IH2 as [? ?]. auto.
Qed.

(** ** The table loop *)

Definition sections : Type := list (list Z * list delta).

Definition enc_section (sec : list Z * list delta) : list Z :=
  match schema sec.1 with
  | Keyed pks _ _ => enc_table pks sec.1 sec.2
  | Keyless => []
  end.

(** The section written for the table object [t]: the difference between the
    contents [D0] and [D]. *)
Definition section_of (D0 D : database) (t : SessionTable) (sec : list Z * list delta) : Prop :=
  sec.1 = t_zName t /\
  match schema (t_zName t) with
  | Keyed pks idx n => net_diff pks (D0 (t_zName t)) (D (t_zName t)) sec.2
  | Keyless => sec.2 = []
  end.

(** The engine gives access to the current contents [D] of the tables. *)
Definition engine_ok (g : GenEnv) (D : database) : Prop :=
  forall n, n ∈ names ->
    match schema n with
    | Keyed pks idx nt => table_engine g zDb n pks idx nt (columns n) (D n)
    | Keyless => True
    end.

(** The part of [table_inv] the loop needs: [l] is what [t] records. *)
Definition table_tracked (D0 D : database) (t : SessionTable)
    (l : list (list sqlite3_value * entry)) : Prop :=
  t_zName t ∈ names /\
  match schema (t_zName t) with
  | Keyed pks idx n =>
      tracks pks idx n (t_zName t) t l /\ tracks_diff (D0 (t_zName t)) (D (t_zName t)) l
  | Keyless => ignores (t_zName t) t /\ l = []
  end.

(** Bytes that are enough for the section of [t]. *)
Definition table_room (D : database) (t : SessionTable) (l : list (list sqlite3_value * entry)) : Z :=
  match schema (t_zName t) with
  | Keyed pks _ _ => Zlen (enc_header pks (t_zName t)) + rooms pks (D (t_zName t)) l
  | Keyless => 0
  end.

Fixpoint tables_room (D : database) (ts : list SessionTable)
    (ls : list (list (list sqlite3_value * entry))) : Z :=
  match ts, ls with
  | t :: ts, l :: ls => table_room D t l + tables_room D ts ls
  | _, _ => 0
  end.

(** No call fails while the changeset is generated. *)
Definition engine_ready (g : GenEnv) : Prop :=
  forall n, n ∈ names ->
    match schema n with
    | Keyed pks _ _ => table_ample g zDb n pks (columns n)
    | Keyless => True
    end.

Lemma rooms_nonneg pks T l : 0 <= rooms pks T l.
Proof.
  induction l as [|p l IH]; cbn [rooms foldr]; [lia|].
  change (foldr _ _ _) with (rooms pks T l). pose proof (enc_delta_len pks T 0 p).
  pose proof (Zlen_nonneg (delta_bytes pks (delta_of T 0 p))). lia.
Qed.

Lemma deltas_room pks T inds ps : length inds = length ps ->
  Zlen (concat (enc_delta pks <$> deltas_of T inds ps)) <= rooms pks T ps.
Proof.
  revert ps. induction inds as [|i inds IH]; intros [|p ps] E; try discriminate.
  injection E as E. rewrite deltas_bytes_cons, Zlen_app. cbn [rooms foldr].
  change (foldr _ _ _) with (rooms pks T ps). pose proof (enc_delta_len pks T i p). specialize (IH _ E). lia.
Qed.

Lemma net_changes_room pks zName T l ds : net_changes T l ds ->
  Zlen (enc_table pks zName ds) <= Zlen (enc_header pks zName) + rooms pks T l.
Proof.
  intros (inds & ps & Hp & Hl & _ & ->). pose proof (deltas_room pks T inds ps Hl) as H.
  assert (rooms pks T ps = rooms pks T l) as Er by (rewrite Hp; reflexivity).
  pose proof (enc_header_nonempty pks zName). pose proof (rooms_nonneg pks T l).
  unfold enc_table. destruct (deltas_of T inds ps); [rewrite Zlen_nil; lia|]. rewrite Zlen_app. lia.
Qed.

Lemma tables_room_nonneg D ts ls : 0 <= tables_room D ts ls.
Proof.
  revert ls. induction ts as [|t ts IH]; intros [|l ls]; cbn [tables_room]; try lia. specialize (IH ls).
  unfold table_room. destruct (schema (t_zName t)) as [pks ? ?|]; [|lia].
  pose proof (enc_header_nonempty pks (t_zName t)). pose proof (rooms_nonneg pks (D (t_zName t)) l). lia.
Qed.

Lemma no_entries pks idx n zName t l : tracks pks idx n zName t l -> t_nEntry t = 0 -> l = [].
Proof.
  intros [_ [(_ & _ & B & HR & HB)|[_ ->]]] E; [|reflexivity].
  pose proof (rep_count _ _ _ HR) as Hc. rewrite HB, E in Hc.
  destruct l; [reflexivity|]. zlia.
Qed.

Lemma net_changes_nil T : net_changes T [] [].
Proof. exists [], []. split_and!; auto. Qed.

Lemma generate_tables_err g s done ts buf out rc : rc <> SQLITE_OK ->
  generate_tables g false s done ts buf out rc = Some (set_tables s (done ++ ts), buf, out, rc).
Proof.
  intros N. apply Z.eqb_neq in N.
  destruct ts as [|t ts]; cbn [generate_tables]; rewrite ?N, ?app_nil_r; reflexivity.
Qed.

(** A table object with recorded rows is loaded. *)
Lemma tracked_holds pks idx n zName t l : tracks pks idx n zName t l -> t_nEntry t <> 0 -> holds pks idx n t l.
Proof. intros [_ [Hh|[-> _]]] N; [exact Hh|]. cbn in N. contradiction. Qed.

(** Generating a changeset re-reads the schema of a table and keeps what it
    has recorded. *)
Definition kept (t t' : SessionTable) : Prop :=
  t_zName t' = t_zName t /\ forall N T0 Ts, table_inv schema N T0 Ts t -> table_inv schema N T0 Ts t'.

Lemma kept_refl t : kept t t.
Proof. split; auto. Qed.

Lemma reinit_name e s t : t_zName (sessionReinitTable e s t).1.2 = t_zName t.
Proof.
  unfold sessionReinitTable. destruct (negb _); [reflexivity|]. destruct (_ || _); [reflexivity|].
  destruct (reinit_same _ _); reflexivity.
Qed.

Lemma kept_all ts : Forall2 kept ts ts.
Proof. induction ts; constructor; auto using kept_refl. Qed.

Lemma reinit_kept g D s t t' : plain_session s -> t_zName t ∈ names -> engine_ok g D -> t_nEntry t <> 0 ->
  sessionReinitTable (g_table g (t_zName t)) s t = (set_rc s SQLITE_OK, t', SQLITE_OK) -> kept t t'.
Proof.
  intros Hps Hn Heng N0 E. specialize (Heng _ Hn).
  assert (forall pks idx n l, schema (t_zName t) = Keyed pks idx n -> holds pks idx n t l ->
    t_zName t' = t_zName t /\ holds pks idx n t' l /\ t_nEntry t' = t_nEntry t) as Hre.
  { intros pks idx n l Hs Hh. rewrite Hs in Heng. destruct Heng as [Hrep Hcol _ _ _ _ _].
    destruct (reinit_spec _ s t pks idx n _ l Hps Hh Hrep Hcol) as (t1 & rc & E1 & Hz & _ & Hok).
    rewrite E in E1.
    assert (rc = SQLITE_OK) as -> by congruence. assert (t1 = t') as -> by congruence. destruct (Hok eq_refl) as (Hh' & _ & Hn'). auto. }
  assert (t_zName t' = t_zName t) as Hz.
  { pose proof (reinit_name (g_table g (t_zName t)) s t) as Hz. rewrite E in Hz. exact Hz. }
  split; [exact Hz|]. intros N T0 Ts Hinv. unfold table_inv in *. rewrite Hz.
  destruct (schema (t_zName t)) as [pks idx n|] eqn:Es.
  - destruct Hinv as (Hle & l & Hl & HT). destruct (Hre pks idx n l eq_refl (tracked_holds _ _ _ _ _ _ Hl N0)) as (_ & Hh & En).
    split; [lia|]. exists l. split; [|exact HT]. split; [exact Hz|left; exact Hh].
  - destruct Hinv as (_ & Hz0 & _). contradiction.
Qed.

(** One table that has entries. *)
Lemma generate_tracked g D0 D s t l buf ch sent :
  plain_session s -> s_zDb s = zDb -> engine_ok g D -> database_ok D0 -> database_ok D ->
  table_tracked D0 D t l -> t_nEntry t <> 0 -> buffer_ok buf ->
  exists t' buf' rc0 rc' sec,
    generate_table g false s t buf (mkOutput None ch sent)
      = Some (set_rc s rc0, t', buf', mkOutput None ch sent, rc') /\
    buffer_ok buf' /\ t_zName t' = t_zName t /\ (rc0 = SQLITE_OK -> kept t t') /\
    (rc' = SQLITE_OK -> rc0 = SQLITE_OK /\ section_of D0 D t sec /\
       aBuf buf' = aBuf buf ++ enc_section sec /\ Zlen (enc_section sec) <= table_room D t l) /\
    (engine_ready g -> fits buf (table_room D t l) -> rc' = SQLITE_OK).
Proof.
  intros Hps Hdb Heng HD0 HD [Hn Ht] N0 Hbuf. pose proof (fun t' => reinit_kept g D s t t' Hps Hn Heng N0) as Hkept.
  specialize (Heng _ Hn). specialize (HD _ Hn). specialize (HD0 _ Hn).
  unfold section_of, table_room, engine_ready, enc_section. pose proof (fun H : engine_ready g => H _ Hn) as Hr.
  destruct (schema (t_zName t)) as [pks idx n|] eqn:Es.
  2: { destruct Ht as ((_ & Hz & _) & _). contradiction. }
  destruct Ht as [Hl HT]. rewrite <- Hdb in Heng, Hr.
  destruct (generate_table_spec g s t pks idx n (columns (t_zName t)) (D (t_zName t)) l buf ch sent
    Hps (tracked_holds _ _ _ _ _ _ Hl N0) HD Heng Hbuf) as (t' & b1 & rc0 & rc1 & E & Er & Hz1 & Hb1 & _ & Hok1 & Ha).
  assert (rc0 = SQLITE_OK -> kept t t') as Hk by (intros ->; apply Hkept, Er).
  destruct (decide (rc1 = SQLITE_OK)) as [->|N1].
  - destruct (Hok1 eq_refl) as (E0 & _ & ds & Hds & Eb1). exists t', b1, rc0, SQLITE_OK, (t_zName t, ds).
    cbn [fst snd]. rewrite Es. split_and!; auto. intros _. split_and!; auto.
    + eapply net_changes_diff; eauto.
    + apply net_changes_room, Hds.
  - exists t', b1, rc0, rc1, (t_zName t, []). split_and!; auto. contradiction.
Qed.

(** A table without entries has not changed. *)
Lemma skipped_section D0 D t l : database_ok D0 -> database_ok D -> table_tracked D0 D t l ->
  t_nEntry t = 0 -> section_of D0 D t (t_zName t, []) /\ enc_section (t_zName t, []) = [].
Proof.
  intros HD0 HD [Hn Ht] E0. unfold section_of, enc_section. cbn [fst snd].
  specialize (HD0 _ Hn). specialize (HD _ Hn). destruct (schema (t_zName t)); [|auto].
  destruct Ht as [Hl HT]. rewrite (no_entries _ _ _ _ _ _ Hl E0) in HT. split_and!; auto.
  eapply net_changes_diff; eauto using net_changes_nil.
Qed.

Lemma generate_tables_spec g D0 D s done ts ls buf ch sent :
  plain_session s -> s_zDb s = zDb -> s_rc s = SQLITE_OK -> engine_ok g D -> database_ok D0 ->
  database_ok D -> Forall2 (table_tracked D0 D) ts ls -> buffer_ok buf ->
  exists s' buf' rc',
    generate_tables g false s done ts buf (mkOutput None ch sent) SQLITE_OK
      = Some (s', buf', mkOutput None ch sent, rc') /\ buffer_ok buf' /\
    (exists rc0 ts', s' = set_tables (set_rc s rc0) (done ++ ts') /\ t_zName <$> ts' = t_zName <$> ts /\
       (rc0 = SQLITE_OK -> Forall2 kept ts ts') /\ (rc' = SQLITE_OK -> rc0 = SQLITE_OK)) /\
    (rc' = SQLITE_OK -> exists secs, Forall2 (section_of D0 D) ts secs /\
       aBuf buf' = aBuf buf ++ concat (enc_section <$> secs)) /\
    (engine_ready g -> fits buf (tables_room D ts ls) -> rc' = SQLITE_OK).
Proof.
  intros Hps Hdb Hrc Heng HD0 HD Hts. revert s done buf Hps Hdb Hrc.
  induction Hts as [|t l ts ls Ht Hts IH]; intros s done buf Hps Hdb Hrc Hbuf; cbn [generate_tables tables_room].
  { eexists _, _, _. split; [reflexivity|]. split_and!; auto.
    - exists SQLITE_OK, []. rewrite app_nil_r, (set_rc_id s) by exact Hrc. split_and!; auto.
    - intros _. exists []. split; [constructor|]. cbn. rewrite app_nil_r. reflexivity. }
  change (negb (SQLITE_OK =? SQLITE_OK)) with false. cbv iota. pose proof (tables_room_nonneg D ts ls) as Hp.
  unfold truth. destruct (Z.eqb_spec (t_nEntry t) 0) as [E0|N0]; cbn [negb].
  - destruct (IH s (done ++ [t]) buf Hps Hdb Hrc Hbuf) as (s' & b' & rc' & -> & Hb' & (rc0 & ts' & -> & Ez & Hk & Hrc0) & Hok & Ha).
    destruct (skipped_section D0 D t l HD0 HD Ht E0) as [Hsec Eenc].
    eexists _, _, _. split; [reflexivity|]. split_and!; auto.
    + exists rc0, (t :: ts'). rewrite <- app_assoc, !fmap_cons, Ez. split_and!; auto.
      intros E. constructor; auto using kept_refl.
    + intros E. destruct (Hok E) as (secs & HF & Eb). exists ((t_zName t, []) :: secs).
      split; [constructor; auto|]. rewrite fmap_cons. cbn [concat]. rewrite Eenc. exact Eb.
    + intros Hr Hf. apply Ha; auto. unfold fits in *. pose proof (tables_room_nonneg D [t] [l]) as H.
      cbn [tables_room] in H. lia.
  - destruct (generate_tracked g D0 D s t l buf ch sent Hps Hdb Heng HD0 HD Ht N0 Hbuf)
      as (t' & b1 & rc0 & rc1 & sec & -> & Hb1 & Hz1 & Hk1 & Hok1 & Ha1). cbn [mbind option_bind].
    destruct (decide (rc1 = SQLITE_OK)) as [->|N1].
    + destruct (Hok1 eq_refl) as (-> & Hsec & Eb1 & Hlen).
      destruct (IH (set_rc s SQLITE_OK) (done ++ [t']) b1) as (s' & b' & rc' & -> & Hb' & (rc2 & ts' & -> & Ez & Hk & Hrc0) & Hok & Ha);
        auto using plain_set_rc.
      eexists _, _, _. split; [reflexivity|]. split_and!; auto.
      * exists rc2, (t' :: ts'). rewrite <- app_assoc, !fmap_cons, Ez, Hz1. split_and!; auto.
      * intros E. destruct (Hok E) as (secs & HF & Eb). exists (sec :: secs). split; [constructor; auto|].
        rewrite Eb, Eb1, <- app_assoc. reflexivity.
      * intros Hr Hf. apply Ha; auto. unfold fits in *. unfold nBuf in *. rewrite Eb1, Zlen_app. lia.
    + rewrite generate_tables_err by exact N1.
      eexists _, _, _. split; [reflexivity|]. split_and!; auto; [|contradiction|].
      { exists rc0, (t' :: ts). rewrite <- app_assoc, !fmap_cons, Hz1. split_and!; auto; [|contradiction].
        intros E. constructor; auto using kept_all. }
      intros Hr Hf. apply Ha1; auto. unfold fits in *. lia.
Qed.

(** [secs] lists, table by table, exactly what changed from [D0] to [D]. *)
Definition exact_difference (D0 D : database) (secs : sections) : Prop :=
  NoDup secs.*1 /\
  (forall n ds, (n, ds) ∈ secs -> n ∈ names /\ (schema n = Keyless -> ds = [])) /\
  forall n pks idx nt, n ∈ names -> schema n = Keyed pks idx nt ->
    (exists ds, (n, ds) ∈ secs /\ net_diff pks (D0 n) (D n) ds) \/ (D0 n = D n /\ n ∉ secs.*1).

(** What the session records, table by table. *)
Lemma session_tracked D0 D Ds N s : session_inv names schema zDb D0 (D :: Ds) N s -> s_rc s = SQLITE_OK ->
  exists ls, Forall2 (table_tracked D0 D) (s_pTable s) ls.
Proof.
  intros HI Hrc. pose proof (si_tables _ _ _ _ _ _ _ HI Hrc) as Ht. pose proof (si_names _ _ _ _ _ _ _ HI) as Hn.
  revert Ht Hn. induction (s_pTable s) as [|t ts IH]; intros Ht Hn; [exists []; constructor|].
  apply Forall_cons in Ht as [Ht Hts], Hn as [Hn Hns]. destruct (IH Hts Hns) as [ls Hls].
  unfold table_inv in Ht. unfold table_tracked. destruct (schema (t_zName t)) as [pks idx n|] eqn:Es.
  - destruct Ht as (_ & l & Hl & HT). rewrite fmap_cons in HT. apply Forall_cons in HT as [HT _].
    exists (l :: ls). constructor; auto. split; [exact Hn|]. rewrite Es. auto.
  - exists ([] :: ls). constructor; auto. split; [exact Hn|]. rewrite Es. auto.
Qed.

Lemma sections_exact D0 D Ds N s secs : session_inv names schema zDb D0 (D :: Ds) N s -> s_rc s = SQLITE_OK ->
  Forall2 (section_of D0 D) (s_pTable s) secs -> exact_difference D0 D secs.
Proof.
  intros HI Hrc HF. assert (secs.*1 = t_zName <$> s_pTable s) as En.
  { clear -HF. induction HF as [|t sec ts secs [E _] HF IH]; cbn; [reflexivity|]. rewrite E. f_equal. exact IH. }
  split; [rewrite En; apply (si_nodup _ _ _ _ _ _ _ HI)|]. split.
  { intros n ds Hin. apply list_elem_of_lookup_1 in Hin as (i & Hi).
    destruct (Forall2_lookup_r _ _ _ _ _ HF Hi) as (t & Ht & [E Hsec]). cbn [fst snd] in *. subst n. split.
    - pose proof (si_names _ _ _ _ _ _ _ HI) as Hn. rewrite Forall_forall in Hn. eapply Hn, list_elem_of_lookup_2, Ht.
    - intros Hk. rewrite Hk in Hsec. exact Hsec. }
  intros n pks idx nt Hn Hs.
  destruct (decide (n ∈ secs.*1)) as [Hin|Hnin].
  - left. apply list_elem_of_fmap in Hin as ([n' ds] & -> & Hin). exists ds. split; [exact Hin|].
    apply list_elem_of_lookup_1 in Hin as (i & Hi).
    destruct (Forall2_lookup_r _ _ _ _ _ HF Hi) as (t & _ & [E Hsec]). cbn [fst snd] in *.
    rewrite <- E, Hs in Hsec. exact Hsec.
  - right. split; [|exact Hnin]. symmetry. apply (si_rest _ _ _ _ _ _ _ HI Hrc); auto; [constructor|].
    rewrite <- En. exact Hnin.
Qed.

(** Tables that are kept preserve the invariant of the session. *)
Lemma kept_session D0 Ds N s rc0 ts' : session_inv names schema zDb D0 Ds N s -> s_rc s = SQLITE_OK ->
  t_zName <$> ts' = t_zName <$> s_pTable s -> (rc0 = SQLITE_OK -> Forall2 kept (s_pTable s) ts') ->
  session_inv names schema zDb D0 Ds N (set_tables (set_rc s rc0) ts').
Proof.
  intros HI Hrc Hz Hk. destruct HI as [H1 H2 H3 H4 H5 H6 H7 H8 H9].
  split; cbn [s_bEnable s_bAutoAttach s_xTableFilter s_zDb s_pTable s_rc set_tables set_rc]; auto.
  - destruct H5. split; auto.
  - rewrite Forall_forall in H6 |- *. intros t Ht.
    assert (t_zName t ∈ t_zName <$> s_pTable s) as Hin by (rewrite <- Hz; apply list_elem_of_fmap_2, Ht).
    apply list_elem_of_fmap in Hin as (u & -> & Hu). auto.
  - rewrite Hz. exact H7.
  - intros E. specialize (Hk E). specialize (H8 Hrc). clear -Hk H8.
    induction Hk as [|t t' ts ts' [Hz Hk] Hks IH]; constructor; apply Forall_cons in H8 as [Ht Hts]; auto.
    rewrite Hz. apply Hk, Ht.
  - intros E n D Hn HD Hnin. rewrite Hz in Hnin. auto.
Qed.

(** The outcome of [sqlite3session_changeset]: a failed call returns no bytes,
    a successful one the exact difference, and a call on a session that has
    not failed succeeds if the engine does and the changeset is small enough
    for a buffer. *)
Definition changeset_result (g : GenEnv) (D0 D : database) (s : sqlite3_session) (rc : Z) (cs : list Z) : Prop :=
  (rc <> SQLITE_OK -> cs = []) /\
  (rc = SQLITE_OK -> exists secs, cs = concat (enc_section <$> secs) /\ exact_difference D0 D secs) /\
  (s_rc s = SQLITE_OK -> exists ls, Forall2 (table_tracked D0 D) (s_pTable s) ls /\
     (g_savepoint g = SQLITE_OK -> engine_ready g ->
      tables_room D (s_pTable s) ls + 16 <= SESSION_MAX_BUFFER_SZ -> rc = SQLITE_OK)).

Lemma changeset_spec g D0 D Ds N s :
  session_inv names schema zDb D0 (D :: Ds) N s -> engine_ok g D -> database_ok D0 -> database_ok D ->
  exists rc s' cs, sqlite3session_changeset g s = Some (rc, s', cs) /\
    changeset_result g D0 D s rc cs /\ session_inv names schema zDb D0 (D :: Ds) N s'.
Proof.
  intros HI Heng HD0 HD. unfold changeset_result, sqlite3session_changeset, sessionGenerateChangeset.
  destruct (decide (s_rc s = SQLITE_OK)) as [Hrc|N0].
  2: { unfold truth. destruct (Z.eqb_spec (s_rc s) 0); [contradiction|]. cbn [negb mbind option_bind].
       eexists _, _, _. split; [reflexivity|]. split_and!; auto; contradiction. }
  destruct (session_tracked _ _ _ _ _ HI Hrc) as [ls Hls].
  rewrite Hrc. change (truth SQLITE_OK) with false. cbv iota.
  destruct (Z.eqb_spec (g_savepoint g) SQLITE_OK) as [Eg|Ng]; cbn [negb].
  2: { cbn [mbind option_bind]. eexists _, _, _. split; [reflexivity|]. split_and!; auto; [contradiction|].
       intros _. exists ls. split; [exact Hls|]. contradiction. }
  destruct (generate_tables_spec g D0 D s [] (s_pTable s) ls empty_buffer 0 [] (si_plain _ _ _ _ _ _ _ HI)
    (si_zDb _ _ _ _ _ _ _ HI) Hrc Heng HD0 HD Hls ltac:(auto with noria))
    as (s' & b & rc & -> & Hb & (rc0 & ts' & -> & Hz & Hk & _) & Hok & Ha).
  cbn [mbind option_bind o_xOutput app].
  pose proof (kept_session _ _ _ _ rc0 ts' HI Hrc Hz Hk) as HI'.
  assert (forall P : Prop, (rc = SQLITE_OK -> P) -> s_rc s = SQLITE_OK -> exists ls0,
    Forall2 (table_tracked D0 D) (s_pTable s) ls0 /\ (g_savepoint g = SQLITE_OK -> engine_ready g ->
      tables_room D (s_pTable s) ls0 + 16 <= SESSION_MAX_BUFFER_SZ -> P)) as Hprog.
  { intros P HP _. exists ls. split; [exact Hls|]. intros _ Hr Hroom. apply HP, Ha; auto. }
  destruct (Z.eqb_spec rc SQLITE_OK) as [->|Nrc]; cbn [mbind option_bind];
    (eexists _, _, _; split; [reflexivity|]); split_and!; auto; try contradiction.
  intros _. destruct (Hok eq_refl) as (secs & HF & Eb). exists secs. split; [exact Eb|].
  exact (sections_exact D0 D Ds N s secs HI Hrc HF).
Qed.

End Session.
