(* ===== verification/Scenario.v ===== *)
(** * A concrete database

    One table [t(id INTEGER PRIMARY KEY, v TEXT)] in the database [main],
    with an engine that never fails, and a short run of a session on it: a row
    is inserted, another updated inside a savepoint.  The instances of the
    general theorems are taken here. *)
From stdpp Require Import gmap strings.
From S2P Require Import Prelude Bits Varint Value Record Strings Buffer Session Recorder Tracking SelectSql Changeset Generate.

Local Open Scope Z_scope.

(** Closed decidable goals are evaluated. *)
Ltac evaluate := apply (bool_decide_unpack _); vm_compute; exact I.

Definition demo_db : list Z := str "main".
Definition demo_t : list Z := str "t".
Definition demo_names : list (list Z) := [demo_t].
Definition demo_pks : list Z := [1; 0].
Definition demo_idx : list Z := [0; 1].
Definition demo_schema (n : list Z) : tkind := Keyed demo_pks demo_idx 2.
Definition demo_columns (n : list Z) : list (list Z) := [str "id"; str "v"].

Definition demo_rows : list xinfo :=
  [mkXinfo 0 (Some (str "id")) None 1 0; mkXinfo 1 (Some (str "v")) None 0 0].

Definition demo_table : TableEnv :=
  mkTableEnv SQLITE_OK true SQLITE_OK demo_rows SQLITE_OK true SQLITE_OK.

Definition demo_env : Env :=
  mkEnv demo_table demo_table (fun _ => true) (fun _ => true) (fun _ => (SQLITE_OK, SQLITE_OK, []))
    SQLITE_OK (fun _ _ => true) true true true (fun _ => false) (-1).

Definition demo_hook (old new : list sqlite3_value) : SessionHook :=
  mkHook (fun i => (SQLITE_OK, old !! Z.to_nat i)) (fun i => (SQLITE_OK, new !! Z.to_nat i)) 2 0.

Definition demo_row (i : Z) (v : string) : list sqlite3_value := [VInt i; VText (str v)].

Definition demo_insert (r : list sqlite3_value) : event :=
  mkEvent demo_t (CInsert r) 0 0 (demo_hook [] r) (mkHookEnv true demo_env demo_env).

Definition demo_update (o r : list sqlite3_value) : event :=
  mkEvent demo_t (CUpdate o r) 0 0 (demo_hook o r) (mkHookEnv true demo_env demo_env).

(** The SELECT by key on the contents [T]. *)
Definition demo_select (T : contents) : Select :=
  fun b => (T !! (b.*2), SQLITE_OK).

Definition demo_gen (T : contents) : GenEnv :=
  mkGenEnv SQLITE_OK (fun _ => demo_table) (fun _ => demo_env) (fun _ => true) (fun _ => true)
    (fun _ => (SQLITE_OK, demo_select T)) (fun _ => SQLITE_OK).

(** The database at the start, and after the two changes. *)
Definition demo_T0 : contents := {[ [VInt 3] := demo_row 3 "x" ]}.
Definition demo_D0 : database := fun _ => demo_T0.

Lemma demo_schema_ok : schema_ok demo_names demo_schema demo_db.
Proof.
  split.
  - intros n Hn. apply list_elem_of_singleton in Hn as ->. split; [|vm_compute; reflexivity].
    repeat constructor; vm_compute; intuition discriminate.
  - intros n m Hn Hm _. apply list_elem_of_singleton in Hn as ->, Hm as ->. reflexivity.
  - intros n Hn. apply list_elem_of_singleton in Hn as ->. vm_compute. discriminate.
  - intros n _. split; [reflexivity|]. vm_compute. auto.
  - intros n _. repeat constructor; vm_compute; intuition discriminate.
  - split; [|vm_compute; reflexivity]. repeat constructor; vm_compute; intuition discriminate.
Qed.

Lemma demo_reports n : reports demo_table demo_t (demo_schema n).
Proof. intros _. vm_compute. auto. Qed.

Lemma demo_row_ok i v : is_i64 i -> bytes_ok (str v) -> Zlen (str v) <= SQLITE_MAX_LENGTH ->
  row_ok demo_pks (demo_row i v).
Proof. intros. split; [reflexivity|]. repeat constructor; cbn; auto; apply H. Qed.

Lemma demo_contents : contents_ok demo_pks demo_T0.
Proof.
  split; intros k r H; unfold demo_T0 in H; apply lookup_singleton_Some in H as [<- <-].
  - split_and!; [|reflexivity|reflexivity]. split; [reflexivity|]. evaluate.
  - repeat constructor; [evaluate|discriminate].
Qed.

Lemma demo_database_ok : database_ok demo_names demo_schema demo_D0.
Proof. intros n _. exact demo_contents. Qed.

(** ** The run *)

Definition demo_fire (ev : event) (s : sqlite3_session) : sqlite3_session := default s (fire demo_db ev s).

Definition demo_ev1 : event := demo_insert (demo_row 1 "a").
Definition demo_ev2 : event := demo_update (demo_row 3 "x") (demo_row 3 "y").

Definition demo_st0 : state := mkState demo_D0 [] (start_session demo_db).
Definition demo_after (ev : event) (st : state) : state :=
  mkState (db_apply demo_schema (ev_name ev) (ev_change ev) (st_db st)) (st_saves st)
    (demo_fire ev (st_session st)).
Definition demo_st1 : state := demo_after demo_ev1 demo_st0.
Definition demo_st2 : state := mkState (st_db demo_st1) [st_db demo_st1] (st_session demo_st1).
Definition demo_st3 : state := demo_after demo_ev2 demo_st2.

Lemma demo_ev1_ok : event_ok demo_names demo_schema demo_D0 demo_ev1.
Proof.
  split; [constructor|]. split; [exact (demo_reports demo_t)|]. split; [reflexivity|]. split.
  { intros _. vm_compute. reflexivity. }
  split; [split; [reflexivity|evaluate]|]. split; [vm_compute; reflexivity|]. repeat constructor.
Qed.

Lemma demo_ev2_ok : event_ok demo_names demo_schema (st_db demo_st2) demo_ev2.
Proof.
  split; [constructor|]. split; [exact (demo_reports demo_t)|]. split; [reflexivity|]. split.
  { split; intros _; vm_compute; reflexivity. }
  split; (split; [split; [reflexivity|evaluate]|]); (split; [vm_compute; reflexivity|]); repeat constructor.
Qed.

Lemma demo_reach2 : reach demo_names demo_schema demo_db demo_D0 2 demo_st2.
Proof.
  apply (reach_step _ _ _ _ 1 demo_st1); [|apply (step_savepoint _ _ _ demo_st1)].
  apply (reach_step _ _ _ _ 0 demo_st0); [constructor|].
  apply (step_row _ _ _ demo_st0 demo_ev1 _ demo_ev1_ok). vm_compute. reflexivity.
Qed.

Lemma demo_reach : reach demo_names demo_schema demo_db demo_D0 3 demo_st3.
Proof.
  apply (reach_step _ _ _ _ 2 demo_st2 demo_st3 demo_reach2).
  apply (step_row _ _ _ demo_st2 demo_ev2 _ demo_ev2_ok). vm_compute. reflexivity.
Qed.

Lemma demo_select_ok T : select_ok demo_pks T (demo_select T).
Proof.
  intros row k [L _] -> _. left. destruct row as [|a [|b [|]]]; try discriminate. reflexivity.
Qed.

Lemma demo_engine_ok D n : n ∈ demo_names ->
  table_engine (demo_gen (D demo_t)) demo_db n demo_pks demo_idx 2 (demo_columns n) (D n).
Proof.
  intros Hn. apply list_elem_of_singleton in Hn as ->. split.
  - exact (demo_reports demo_t).
  - intros _. reflexivity.
  - reflexivity.
  - repeat constructor.
  - reflexivity.
  - vm_compute. discriminate.
  - intros sel E. injection E as <-. apply demo_select_ok.
Qed.
