(* ===== verification/SessionCorrect.v ===== *)
(** * Correctness of session recording

    The theorems on the machine of [Tracking]: rows change, transactions roll
    back, and the session records; each is taken at the run of [Scenario]. *)
From stdpp Require Import gmap strings.
From S2P Require Import Prelude Bits Varint Value Record Strings Buffer Session Recorder Tracking SelectSql Changeset Generate Scenario.

Local Open Scope Z_scope.

(** After any sequence of row changes, savepoints, releases and rollbacks
    (fewer than 2^24), [sqlite3session_changeset] makes no out-of-bounds access
    or integer overflow, returns no bytes if it fails, and otherwise returns
    the encoding of exactly the rows that differ between the database when the
    session started and the database now, each once, as an INSERT, UPDATE or
    DELETE with its old and new values; and it does succeed when the session
    has not failed, the engine calls succeed and the result fits a buffer. *)
Theorem changeset_exact_difference names schema columns zDb D0 k st g :
  schema_ok names schema zDb -> database_ok names schema D0 ->
  reach names schema zDb D0 k st -> Z.of_nat k < 2 ^ 24 ->
  engine_ok names schema columns zDb g (st_db st) ->
  exists rc s' cs, sqlite3session_changeset g (st_session st) = Some (rc, s', cs) /\
    changeset_result names schema columns zDb g D0 (st_db st) (st_session st) rc cs.
Proof.
  intros Hs HD0 Hr Hk He. destruct (reach_ok names schema zDb D0 k st HD0 Hr) as [HD _].
  destruct (changeset_spec names schema columns zDb g D0 (st_db st) (st_saves st) (2 * Z.of_nat k) (st_session st))
    as (rc & s' & cs & E & Hres & _); eauto using reach_inv.
Qed.

Lemma changeset_exact_difference_witness :
  (exists rc s' cs, sqlite3session_changeset (demo_gen (st_db demo_st3 demo_t)) (st_session demo_st3) = Some (rc, s', cs) /\
     changeset_result demo_names demo_schema demo_columns demo_db (demo_gen (st_db demo_st3 demo_t)) demo_D0
       (st_db demo_st3) (st_session demo_st3) rc cs) /\
  (fun r => (fst (fst r), snd r)) <$> sqlite3session_changeset (demo_gen (st_db demo_st3 demo_t)) (st_session demo_st3)
    = Some (SQLITE_OK,
        enc_table demo_pks demo_t [DInsert 0 (demo_row 1 "a"); DUpdate 0 (demo_row 3 "x") (demo_row 3 "y")]).
Proof.
  split; [|vm_compute; reflexivity].
  apply (changeset_exact_difference demo_names demo_schema demo_columns demo_db demo_D0 3 demo_st3).
  - exact demo_schema_ok.
  - exact demo_database_ok.
  - exact demo_reach.
  - reflexivity.
  - intros n Hn. exact (demo_engine_ok (st_db demo_st3) n Hn).
Defined.

(** The pre-update callback of a session is safe in every reachable state:
    whatever allocations and engine calls fail, it makes no out-of-bounds
    access and no integer overflows, and with enough memory the session does
    not fail. *)
Theorem preupdate_safe names schema zDb D0 k st ev :
  schema_ok names schema zDb -> reach names schema zDb D0 k st -> Z.of_nat k < 2 ^ 24 ->
  event_ok names schema (st_db st) ev ->
  exists s', fire zDb ev (st_session st) = Some s' /\
    (s_rc (st_session st) = SQLITE_OK -> event_ample ev -> s_rc s' = SQLITE_OK).
Proof.
  intros Hs Hr Hk Hev.
  destruct (fire_inv names schema zDb Hs ev D0 (st_db st) (st_saves st) (2 * Z.of_nat k) (st_session st))
    as (s' & E & _ & Ha); eauto using reach_inv; lia.
Qed.

Lemma preupdate_safe_witness :
  exists s', fire demo_db demo_ev2 (st_session demo_st2) = Some s' /\
    (s_rc (st_session demo_st2) = SQLITE_OK -> event_ample demo_ev2 -> s_rc s' = SQLITE_OK).
Proof.
  apply (preupdate_safe demo_names demo_schema demo_db demo_D0 2 demo_st2).
  - exact demo_schema_ok.
  - exact demo_reach2.
  - reflexivity.
  - exact demo_ev2_ok.
Defined.

(** In every reachable state of a session that has not failed, the recorded
    changes of a table describe its original contents: each key is recorded at
    most once, with the row the table held at the start (or as an insert if it
    held none), and every row that is not recorded is unchanged. *)
Theorem session_records_originals names schema zDb D0 k st n pks idx nt :
  schema_ok names schema zDb -> reach names schema zDb D0 k st -> Z.of_nat k < 2 ^ 24 ->
  s_rc (st_session st) = SQLITE_OK -> n ∈ names -> schema n = Keyed pks idx nt ->
  exists l, session_rows schema (st_session st) n l /\ tracks_diff (D0 n) (st_db st n) l.
Proof. intros Hs Hr Hk Hrc Hn Hsc. eapply inv_rows; eauto using reach_inv. Qed.

Lemma session_records_originals_witness :
  exists l, session_rows demo_schema (st_session demo_st3) demo_t l /\
    tracks_diff demo_T0 (st_db demo_st3 demo_t) l.
Proof.
  apply (session_records_originals demo_names demo_schema demo_db demo_D0 3 demo_st3 demo_t demo_pks demo_idx 2).
  - exact demo_schema_ok.
  - exact demo_reach.
  - reflexivity.
  - vm_compute. reflexivity.
  - constructor.
  - reflexivity.
Defined.
