(* ===== verification/Iterator.v ===== *)
(** * Reading changesets ([sqlite3_changeset_iter])

    The input abstraction of the session extension, in memory or streamed,
    the deserialisation of records and table headers, and the iterator. *)
From stdpp Require Import gmap strings.
From S2P Require Import Prelude Bits Varint Value Record Strings Buffer.

Local Open Scope Z_scope.

(** ** Input *)

Definition sessions_strm_chunk_size : Z := 1024.

(** [in_aData] holds the [nData] bytes at [aData]; for a stream, [in_xInput]
    lists the results of the calls of [xInput] still to come, after which
    [xInput] reports the end of the data. *)
Record SessionInput := mkInput {
  in_bNoDiscard : bool;
  in_iCurrent : Z;
  in_iNext : Z;
  in_aData : list Z;
  in_buf : SessionBuffer;
  in_xInput : option (list (Z * list Z));
  in_bEof : bool
}.

Definition in_nData (i : SessionInput) : Z := Zlen (in_aData i).

Definition set_iNext (i : SessionInput) (n : Z) : SessionInput :=
  mkInput (in_bNoDiscard i) (in_iCurrent i) n (in_aData i) (in_buf i) (in_xInput i) (in_bEof i).
Definition set_iCurrent (i : SessionInput) (n : Z) : SessionInput :=
  mkInput (in_bNoDiscard i) n (in_iNext i) (in_aData i) (in_buf i) (in_xInput i) (in_bEof i).

Definition sessionDiscardData (i : SessionInput) : option SessionInput :=
  if negb (bool_decide (in_xInput i = None)) && (sessions_strm_chunk_size <=? in_iCurrent i) then
    moved ← advance (in_iCurrent i) (aBuf (in_buf i));
    Some (mkInput (in_bNoDiscard i) 0 (in_iNext i - in_iCurrent i) moved
            (mkBuffer moved (nAlloc (in_buf i))) (in_xInput i) (in_bEof i))
  else Some i.

(** The result of one call of [xInput] with room for [nNew] bytes. *)
Definition xInput_call (calls : list (Z * list Z)) : option (Z * list Z) :=
  match calls with
  | [] => Some (SQLITE_OK, [])
  | (rc, bytes) :: _ =>
      if Zlen bytes <=? sessions_strm_chunk_size then Some (rc, bytes) else None
  end.

(** The loop of [sessionInputBuffer]; [calls] is the value of [in_xInput]. *)
Fixpoint inputBuffer_loop (realloc : Z -> bool) (calls : list (Z * list Z)) (i : SessionInput)
    (nByte rc : Z) : option (SessionInput * Z) :=
  need ← int_ok (in_iNext i + nByte);
  if negb (in_bEof i) && (in_nData i <=? need) && (rc =? SQLITE_OK) then
    i ← (if in_bNoDiscard i then Some i else sessionDiscardData i);
    '(b, rc) ← sessionBufferGrow realloc (in_buf i) sessions_strm_chunk_size rc;
    if rc =? SQLITE_OK then
      '(rc, bytes) ← xInput_call calls;
      let b := mkBuffer (aBuf b ++ bytes) (nAlloc b) in
      let eof := if Zlen bytes =? 0 then true else in_bEof i in
      match calls with
      | [] => Some (mkInput (in_bNoDiscard i) (in_iCurrent i) (in_iNext i) (aBuf b) b (Some []) eof, rc)
      | _ :: calls =>
          inputBuffer_loop realloc calls
            (mkInput (in_bNoDiscard i) (in_iCurrent i) (in_iNext i) (aBuf b) b (Some calls) eof) nByte rc
      end
    else
      Some (mkInput (in_bNoDiscard i) (in_iCurrent i) (in_iNext i) (aBuf b) b (in_xInput i) (in_bEof i), rc)
  else Some (i, rc).

Definition sessionInputBuffer (realloc : Z -> bool) (i : SessionInput) (nByte : Z)
    : option (SessionInput * Z) :=
  match in_xInput i with
  | None => Some (i, SQLITE_OK)
  | Some calls => inputBuffer_loop realloc calls i nByte SQLITE_OK
  end.

(** Pointer [&pIn->aData[off]]. *)
Definition in_at (i : SessionInput) (off : Z) : option (list Z) := advance off (in_aData i).

(** ** Records *)

Fixpoint sessionSkipRecord (nCol : nat) (aRec : list Z) : option (list Z) :=
  match nCol with
  | O => Some aRec
  | S nCol =>
      eType ← aRec !! 0%nat;
      let aRec := drop 1 aRec in
      if (eType =? SQLITE_TEXT) || (eType =? SQLITE_BLOB) then
        '(nByte, k) ← sessionVarintGet aRec;
        aRec ← advance k aRec; aRec ← advance nByte aRec; sessionSkipRecord nCol aRec
      else if (eType =? SQLITE_INTEGER) || (eType =? SQLITE_FLOAT) then
        aRec ← advance 8 aRec; sessionSkipRecord nCol aRec
      else sessionSkipRecord nCol aRec
  end.

(** Outcome of the allocations of an iterator; a call is identified by the
    input offset at which it is made. *)
Record IterEnv := mkIterEnv {
  ie_realloc : Z -> bool;
  ie_value_new : Z -> bool;
  ie_malloc : Z -> bool
}.

Definition sessionValueSetStr (malloc : bool) (aData : list Z) (nData : Z) (utf8 : bool)
    : option (Z * sqlite3_value) :=
  if negb malloc then Some (SQLITE_NOMEM, VNull)
  else z ← read_n nData aData; Some (SQLITE_OK, if utf8 then VText z else VBlob z).

(** The body of the loop of [sessionReadRecord] for a field that is read: the
    value stored in [apOut[i]], [*pbEmpty] and [rc]. *)
Definition readRecord_value (e : IterEnv) (i : SessionInput) (bEmpty : bool)
    : option (SessionInput * option sqlite3_value * bool * Z) :=
  '(i, rc) ← sessionInputBuffer (ie_realloc e) i 9;
  if negb (rc =? SQLITE_OK) then Some (i, None, bEmpty, rc)
  else if in_nData i <=? in_iNext i then Some (i, None, bEmpty, SQLITE_CORRUPT)
  else
    eType ← at_ (in_aData i) (in_iNext i);
    let new := ie_value_new e (in_iNext i) in
    let i := set_iNext i (in_iNext i + 1) in
    let bEmpty := if truth eType then false else bEmpty in
    if truth eType && negb new then Some (i, None, bEmpty, SQLITE_NOMEM)
    else
      let v := if truth eType then Some VNull else None in
      aVal ← in_at i (in_iNext i);
      if (eType =? SQLITE_TEXT) || (eType =? SQLITE_BLOB) then
        '(nByte, k) ← sessionVarintGet aVal;
        let i := set_iNext i (in_iNext i + k) in
        '(i, rc) ← sessionInputBuffer (ie_realloc e) i nByte;
        if negb (rc =? SQLITE_OK) then Some (i, v, bEmpty, rc)
        else if (nByte <? 0) || (in_nData i - in_iNext i <? nByte) then
          Some (i, v, bEmpty, SQLITE_CORRUPT)
        else
          a ← in_at i (in_iNext i);
          '(rc, w) ← sessionValueSetStr (ie_malloc e (in_iNext i)) a nByte (eType =? SQLITE_TEXT);
          Some (set_iNext i (in_iNext i + nByte), Some w, bEmpty, rc)
      else if (eType =? SQLITE_INTEGER) || (eType =? SQLITE_FLOAT) then
        if in_nData i - in_iNext i <? 8 then Some (i, v, bEmpty, SQLITE_CORRUPT)
        else
          x ← sessionGetI64 aVal;
          let w := if eType =? SQLITE_INTEGER then sqlite3VdbeMemSetInt64 x
                   else sqlite3VdbeMemSetDouble (u64 x) in
          Some (set_iNext i (in_iNext i + 8), Some w, bEmpty, SQLITE_OK)
      else Some (i, v, bEmpty, SQLITE_OK).

(** [n] columns from column [col] on; [abPK] is null for a full record. *)
Fixpoint readRecord_loop (e : IterEnv) (n : nat) (col : Z) (abPK : option (list Z))
    (i : SessionInput) (bEmpty : bool)
    : option (SessionInput * list (option sqlite3_value) * bool * Z) :=
  match n with
  | O => Some (i, [], bEmpty, SQLITE_OK)
  | S n =>
      skip ← match abPK with None => Some false | Some a => pk ← at_ a col; Some (pk =? 0) end;
      if (skip : bool) then
        '(i, out, bEmpty, rc) ← readRecord_loop e n (col + 1) abPK i bEmpty;
        Some (i, None :: out, bEmpty, rc)
      else
        '(i, v, bEmpty, rc) ← readRecord_value e i bEmpty;
        if rc =? SQLITE_OK then
          '(i, out, bEmpty, rc) ← readRecord_loop e n (col + 1) abPK i bEmpty;
          Some (i, v :: out, bEmpty, rc)
        else Some (i, v :: replicate n None, bEmpty, rc)
  end.

Definition sessionReadRecord (e : IterEnv) (i : SessionInput) (nCol : Z) (abPK : option (list Z))
    : option (SessionInput * list (option sqlite3_value) * bool * Z) :=
  readRecord_loop e (Z.to_nat nCol) 0 abPK i true.

(** ** Table headers *)

(** Number of bytes before the first nul byte, at most the length. *)
Fixpoint nonzero_run (l : list Z) : Z :=
  match l with
  | [] => 0
  | c :: l => if truth c then 1 + nonzero_run l else 0
  end.

(** The search for the end of the table name.  Without a nul byte it only
    ends if more input arrives; [fuel] bounds the number of rounds. *)
Fixpoint bufferTblhdr_loop (fuel : nat) (realloc : Z -> bool) (i : SessionInput) (nRead : Z)
    : option (SessionInput * Z * Z) :=
  match fuel with
  | O => None
  | S fuel =>
      let nRead := nRead + nonzero_run (drop (Z.to_nat (in_iNext i + nRead)) (in_aData i)) in
      if in_iNext i + nRead <? in_nData i then Some (i, nRead, SQLITE_OK)
      else
        '(i, rc) ← sessionInputBuffer realloc i (nRead + 100);
        if rc =? SQLITE_OK then bufferTblhdr_loop fuel realloc i nRead else Some (i, nRead, rc)
  end.

(** Rounds in which input can still arrive, one at its end and the last. *)
Definition tblhdr_fuel (i : SessionInput) : nat := S (S (S (length (default [] (in_xInput i))))).

(** The input, [*pnByte] and the result. *)
Definition sessionChangesetBufferTblhdr (realloc : Z -> bool) (i : SessionInput)
    : option (SessionInput * Z * Z) :=
  '(i, rc) ← sessionInputBuffer realloc i 9;
  if negb (rc =? SQLITE_OK) then Some (i, 1, rc)
  else
    a ← in_at i (in_iNext i);
    '(nCol, nRead) ← sessionVarintGet a;
    if (nCol <? 0) || (65536 <? nCol) then Some (i, nRead + 1, SQLITE_CORRUPT)
    else
      '(i, rc) ← sessionInputBuffer realloc i (nRead + nCol + 100);
      let nRead := nRead + nCol in
      if negb (rc =? SQLITE_OK) then Some (i, nRead + 1, rc)
      else
        '(i, nRead, rc) ← bufferTblhdr_loop (tblhdr_fuel i) realloc i nRead;
        Some (i, nRead + 1, rc).

(** The input, [*pnByte] and the result. *)
Fixpoint bufferRecord_loop (realloc : Z -> bool) (nCol : nat) (i : SessionInput) (nByte : Z)
    : option (SessionInput * Z * Z) :=
  match nCol with
  | O => Some (i, nByte, SQLITE_OK)
  | S nCol =>
      '(i, rc) ← sessionInputBuffer realloc i (nByte + 10);
      if negb (rc =? SQLITE_OK) then Some (i, nByte, rc)
      else
        eType ← at_ (in_aData i) (in_iNext i + nByte);
        let nByte := nByte + 1 in
        if (eType =? SQLITE_TEXT) || (eType =? SQLITE_BLOB) then
          a ← in_at i (in_iNext i + nByte);
          '(n, k) ← sessionVarintGet a;
          nByte ← int_ok (nByte + k + n);
          '(i, rc) ← sessionInputBuffer realloc i nByte;
          if rc =? SQLITE_OK then bufferRecord_loop realloc nCol i nByte else Some (i, nByte, rc)
        else if (eType =? SQLITE_INTEGER) || (eType =? SQLITE_FLOAT) then
          bufferRecord_loop realloc nCol i (nByte + 8)
        else bufferRecord_loop realloc nCol i nByte
  end.

Definition sessionChangesetBufferRecord (realloc : Z -> bool) (i : SessionInput) (nCol : Z)
    : option (SessionInput * Z * Z) :=
  bufferRecord_loop realloc (Z.to_nat nCol) i 0.

(** ** The iterator

    [it_tblhdr] is the allocation of the header buffer, which holds the
    [2*nCol] value pointers [it_apValue], then [it_abPK] and [it_zTab].  A
    pointer into memory of unknown contents is [Some []]. *)

Record changeset_iter := mkIter {
  it_in : SessionInput;
  it_tblhdr : SessionBuffer;
  it_bPatchset : bool;
  it_bInvert : bool;
  it_bSkipEmpty : bool;
  it_rc : Z;
  it_zTab : option (list Z);
  it_nCol : Z;
  it_op : Z;
  it_bIndirect : Z;
  it_abPK : option (list Z);
  it_apValue : option (list (option sqlite3_value))
}.

Definition sessionChangesetStart (malloc : bool) (xInput : option (list (Z * list Z)))
    (pChangeset : list Z) (bInvert bSkipEmpty : bool) : Z * option changeset_iter :=
  if negb malloc then (SQLITE_NOMEM, None)
  else
    (SQLITE_OK,
     Some (mkIter (mkInput false 0 0 pChangeset empty_buffer xInput (bool_decide (xInput = None)))
             empty_buffer false bInvert bSkipEmpty SQLITE_OK None 0 0 0 None None)).

Definition sqlite3changeset_start (malloc : bool) (pChangeset : list Z) : Z * option changeset_iter :=
  sessionChangesetStart malloc None pChangeset false false.

Definition SQLITE_CHANGESETSTART_INVERT : Z := 2.

Definition sqlite3changeset_start_v2 (malloc : bool) (pChangeset : list Z) (flags : Z)
    : Z * option changeset_iter :=
  sessionChangesetStart malloc None pChangeset
    (truth (Z.land flags SQLITE_CHANGESETSTART_INVERT)) false.

Definition sqlite3changeset_start_strm (malloc : bool) (xInput : list (Z * list Z))
    : Z * option changeset_iter :=
  sessionChangesetStart malloc (Some xInput) [] false false.

Definition sqlite3changeset_start_v2_strm (malloc : bool) (xInput : list (Z * list Z)) (flags : Z)
    : Z * option changeset_iter :=
  sessionChangesetStart malloc (Some xInput) []
    (truth (Z.land flags SQLITE_CHANGESETSTART_INVERT)) false.

Definition set_in (p : changeset_iter) (i : SessionInput) : changeset_iter :=
  mkIter i (it_tblhdr p) (it_bPatchset p) (it_bInvert p) (it_bSkipEmpty p) (it_rc p) (it_zTab p)
    (it_nCol p) (it_op p) (it_bIndirect p) (it_abPK p) (it_apValue p).
Definition set_itrc (p : changeset_iter) (rc : Z) : changeset_iter :=
  mkIter (it_in p) (it_tblhdr p) (it_bPatchset p) (it_bInvert p) (it_bSkipEmpty p) rc (it_zTab p)
    (it_nCol p) (it_op p) (it_bIndirect p) (it_abPK p) (it_apValue p).
Definition set_patchset (p : changeset_iter) (b : bool) : changeset_iter :=
  mkIter (it_in p) (it_tblhdr p) b (it_bInvert p) (it_bSkipEmpty p) (it_rc p) (it_zTab p)
    (it_nCol p) (it_op p) (it_bIndirect p) (it_abPK p) (it_apValue p).
Definition set_op (p : changeset_iter) (op ind : Z) : changeset_iter :=
  mkIter (it_in p) (it_tblhdr p) (it_bPatchset p) (it_bInvert p) (it_bSkipEmpty p) (it_rc p) (it_zTab p)
    (it_nCol p) op ind (it_abPK p) (it_apValue p).
Definition set_values (p : changeset_iter) (vs : list (option sqlite3_value)) : changeset_iter :=
  mkIter (it_in p) (it_tblhdr p) (it_bPatchset p) (it_bInvert p) (it_bSkipEmpty p) (it_rc p) (it_zTab p)
    (it_nCol p) (it_op p) (it_bIndirect p) (it_abPK p) (Some vs).

(** The state [sessionChangesetReadTblhdr] leaves after an error: the pointers
    are recomputed from the old buffer with the new [nCol]. *)
Definition tblhdr_failed (p : changeset_iter) (nCol rc : Z) : changeset_iter :=
  let dangling := (fun _ => []) <$> it_apValue p in
  mkIter (it_in p) (it_tblhdr p) (it_bPatchset p) (it_bInvert p) (it_bSkipEmpty p) rc dangling
    nCol (it_op p) (it_bIndirect p) dangling (it_apValue p).

Definition sessionChangesetReadTblhdr (e : IterEnv) (p : changeset_iter)
    : option (changeset_iter * Z) :=
  '(i, nCopy, rc) ← sessionChangesetBufferTblhdr (ie_realloc e) (it_in p);
  let p := set_in p i in
  if negb (rc =? SQLITE_OK) then Some (tblhdr_failed p (it_nCol p) rc, rc)
  else
    a ← in_at i (in_iNext i);
    '(nCol, nVarint) ← sessionVarintGet a;
    if 0 <? nCol then
      let nCopy := nCopy - nVarint in
      let i := set_iNext i (in_iNext i + nVarint) in
      let nByte := nCol * 8 * 2 + nCopy in
      '(b, rc) ← sessionBufferGrow (ie_realloc e) (mkBuffer [] (nAlloc (it_tblhdr p))) nByte rc;
      let p := set_in p i in
      if negb (rc =? SQLITE_OK) then Some (tblhdr_failed p nCol rc, rc)
      else
        a ← in_at i (in_iNext i);
        hdr ← read_n nCopy a;
        abPK ← read_n nCol hdr; name ← advance nCol hdr;
        if nByte <=? nAlloc b then
          let p :=
            mkIter (set_iNext i (in_iNext i + nCopy)) b (it_bPatchset p) (it_bInvert p) (it_bSkipEmpty p)
              rc (Some (take (Z.to_nat (nonzero_run name)) name)) nCol (it_op p) (it_bIndirect p)
              (Some abPK) (Some (replicate (Z.to_nat (nCol * 2)) None)) in
          Some (p, rc)
        else None
    else Some (tblhdr_failed p nCol SQLITE_CORRUPT, SQLITE_CORRUPT).

(** Freeing (and clearing) the first [2*nCol] entries of [apValue]. *)
Definition clear_values (p : changeset_iter) : option changeset_iter :=
  match it_apValue p with
  | None => Some p
  | Some vs =>
      if it_nCol p * 2 <=? Zlen vs
      then Some (set_values p (replicate (Z.to_nat (it_nCol p * 2)) None ++ drop (Z.to_nat (it_nCol p * 2)) vs))
      else None
  end.

(** Bytes the iterator has not read yet, a bound on the number of headers. *)
Definition in_pending (i : SessionInput) : nat :=
  S (length (in_aData i) + length (concat ((default [] (in_xInput i)).*2))).

(** The loop over table headers, from the byte [op] on: either the value to
    return, or the first byte of a change; and whether a header was read. *)
Fixpoint skip_headers (fuel : nat) (e : IterEnv) (p : changeset_iter) (op : Z) (bNew : bool)
    : option (changeset_iter * bool * (Z + Z)) :=
  match fuel with
  | O => None
  | S fuel =>
      if (op =? 84) || (op =? 80) then
        '(p, rc) ← sessionChangesetReadTblhdr e (set_patchset p (op =? 80));
        if truth rc then Some (p, true, inl rc)
        else
          '(i, rc) ← sessionInputBuffer (ie_realloc e) (it_in p) 2;
          let p := set_itrc (set_in p i) rc in
          if truth rc then Some (p, true, inl rc)
          else
            let i := set_iCurrent i (in_iNext i) in
            let p := set_in p i in
            if in_nData i <=? in_iNext i then Some (p, true, inl SQLITE_DONE)
            else
              op ← at_ (in_aData i) (in_iNext i);
              skip_headers fuel e (set_in p (set_iNext i (in_iNext i + 1))) op true
      else Some (p, bNew, inr op)
  end.

(** [sessionChangesetNextOne] up to the record of the change. *)
Definition next_change (e : IterEnv) (p : changeset_iter)
    : option (changeset_iter * bool * (Z + Z)) :=
  if negb (it_rc p =? SQLITE_OK) then Some (p, false, inl (it_rc p))
  else
    p ← clear_values p;
    '(i, rc) ← sessionInputBuffer (ie_realloc e) (it_in p) 2;
    let p := set_itrc (set_in p i) rc in
    if negb (rc =? SQLITE_OK) then Some (p, false, inl rc)
    else
      i ← sessionDiscardData (set_iCurrent i (in_iNext i));
      let p := set_in p i in
      if in_nData i <=? in_iNext i then Some (p, false, inl SQLITE_DONE)
      else
        op ← at_ (in_aData i) (in_iNext i);
        '(p, bNew, r) ← skip_headers (in_pending i) e (set_in p (set_iNext i (in_iNext i + 1))) op false;
        match r with
        | inl rc => Some (p, bNew, inl rc)
        | inr op =>
            if bool_decide (it_zTab p = None) || (it_bPatchset p && it_bInvert p)
            then Some (set_itrc p SQLITE_CORRUPT, bNew, inl SQLITE_CORRUPT)
            else
              ind ← at_ (in_aData (it_in p)) (in_iNext (it_in p));
              let p := set_in (set_op p op ind) (set_iNext (it_in p) (in_iNext (it_in p) + 1)) in
              if negb (op =? SQLITE_UPDATE) && negb (op =? SQLITE_DELETE) && negb (op =? SQLITE_INSERT)
              then Some (set_itrc p SQLITE_CORRUPT, bNew, inl SQLITE_CORRUPT)
              else Some (p, bNew, inr op)
        end.

(** The fields of the record at [off] in [apValue]. *)
Definition put_values (vs : list (option sqlite3_value)) (off : Z) (out : list (option sqlite3_value))
    : option (list (option sqlite3_value)) :=
  if off + Zlen out <=? Zlen vs
  then Some (take (Z.to_nat off) vs ++ out ++ drop (Z.to_nat (off + Zlen out)) vs) else None.

(** Reads a record into [apValue] from index [off] on. *)
Definition read_values (e : IterEnv) (p : changeset_iter) (abPK : option (list Z)) (off : Z)
    : option (changeset_iter * bool * Z) :=
  '(i, out, bEmpty, rc) ← sessionReadRecord e (it_in p) (it_nCol p) abPK;
  vs ← it_apValue p; vs ← put_values vs off out;
  Some (set_itrc (set_values (set_in p i) vs) rc, bEmpty, rc).

(** The PK fields of new.* move to old.*: [None] in the first result if one
    is missing.  [olds] and [news] are the two halves of [apValue]. *)
Fixpoint shift_keys (pks : list Z) (olds news : list (option sqlite3_value))
    : option (bool * list (option sqlite3_value) * list (option sqlite3_value)) :=
  match pks, olds, news with
  | [], [], [] => Some (true, [], [])
  | pk :: pks, o :: olds, n :: news =>
      if truth pk then
        if bool_decide (n = None) then Some (false, n :: olds, n :: news)
        else '(ok, os, ns) ← shift_keys pks olds news; Some (ok, n :: os, None :: ns)
      else '(ok, os, ns) ← shift_keys pks olds news; Some (ok, o :: os, n :: ns)
  | _, _, _ => None
  end.

(** Drops the fields of old.* of non-key columns that new.* lacks. *)
Fixpoint drop_spurious (pks : list Z) (olds news : list (option sqlite3_value))
    : option (list (option sqlite3_value)) :=
  match pks, olds, news with
  | [], [], [] => Some []
  | pk :: pks, o :: olds, n :: news =>
      os ← drop_spurious pks olds news;
      Some ((if (pk =? 0) && bool_decide (n = None) then None else o) :: os)
  | _, _, _ => None
  end.

(** The adjustments made after both records of a change have been read. *)
Definition settle_values (p : changeset_iter) : option (changeset_iter * Z) :=
  vs ← it_apValue p; abPK ← it_abPK p;
  olds ← read_n (it_nCol p) vs; news ← advance (it_nCol p) vs; pks ← read_n (it_nCol p) abPK;
  '(p, ok, olds, news) ←
    (if (it_bPatchset p || it_bInvert p) && (it_op p =? SQLITE_UPDATE) then
       '(ok, os, ns) ← shift_keys pks olds news;
       Some (set_values p (os ++ ns), ok, os, ns)
     else if it_bInvert p then
       let op := if it_op p =? SQLITE_INSERT then SQLITE_DELETE
                 else if it_op p =? SQLITE_DELETE then SQLITE_INSERT else it_op p in
       Some (set_op p op (it_bIndirect p), true, olds, news)
     else Some (p, true, olds, news));
  if negb ok then Some (set_itrc p SQLITE_CORRUPT, SQLITE_CORRUPT)
  else if negb (it_bPatchset p) && (it_op p =? SQLITE_UPDATE) then
    olds ← drop_spurious pks olds news;
    Some (set_values p (olds ++ news), SQLITE_ROW)
  else Some (p, SQLITE_ROW).

(** [sessionChangesetNextOne(p, 0, 0, pbNew, pbEmpty)]: the result and
    [*pbEmpty]. *)
Definition sessionChangesetNextOne (e : IterEnv) (p : changeset_iter)
    : option (changeset_iter * bool * Z) :=
  '(p, bNew, r) ← next_change e p;
  match r with
  | inl rc => Some (p, false, rc)
  | inr op =>
      let apOld := if it_bInvert p then it_nCol p else 0 in
      let apNew := if it_bInvert p then 0 else it_nCol p in
      '(p, rc) ←
        (if negb (op =? SQLITE_INSERT) && (negb (it_bPatchset p) || (op =? SQLITE_DELETE)) then
           '(p, _, rc) ← read_values e p (if it_bPatchset p then it_abPK p else None) apOld;
           Some (p, rc)
         else Some (p, SQLITE_OK));
      if negb (rc =? SQLITE_OK) then Some (p, false, rc)
      else
        '(p, bEmpty, rc) ←
          (if negb (op =? SQLITE_DELETE) then read_values e p None apNew else Some (p, false, SQLITE_OK));
        if negb (rc =? SQLITE_OK) then Some (p, bEmpty, rc)
        else '(p, rc) ← settle_values p; Some (p, bEmpty, rc)
  end.

(** The number of fields of the current change in the input. *)
Definition record_width (p : changeset_iter) (op : Z) : option Z :=
  if negb (it_bPatchset p) && (op =? SQLITE_UPDATE) then Some (it_nCol p * 2)
  else if it_bPatchset p && (op =? SQLITE_DELETE) then
    abPK ← it_abPK p; pks ← read_n (it_nCol p) abPK; Some (Zlen (filter (fun pk => truth pk = true) pks))
  else Some (it_nCol p).

(** [sessionChangesetNextOne(p, &aRec, &nRec, &bNew, 0)]: the record, whether
    a table header was read, and the result. *)
Definition sessionChangesetNextRecord (e : IterEnv) (p : changeset_iter)
    : option (changeset_iter * list Z * bool * Z) :=
  '(p, bNew, r) ← next_change e p;
  match r with
  | inl rc => Some (p, [], bNew, rc)
  | inr op =>
      nVal ← record_width p op;
      '(i, nRec, rc) ← sessionChangesetBufferRecord (ie_realloc e) (it_in p) nVal;
      let p := set_itrc (set_in p i) rc in
      if negb (rc =? SQLITE_OK) then Some (p, [], bNew, rc)
      else
        a ← in_at i (in_iNext i); aRec ← read_n nRec a;
        Some (set_in p (set_iNext i (in_iNext i + nRec)), aRec, bNew, SQLITE_ROW)
  end.

(** [sessionChangesetNext(p, 0, 0, 0)]. *)
Fixpoint sessionChangesetNext (fuel : nat) (e : IterEnv) (p : changeset_iter)
    : option (changeset_iter * Z) :=
  match fuel with
  | O => None
  | S fuel =>
      '(p, bEmpty, rc) ← sessionChangesetNextOne e p;
      if (rc =? SQLITE_ROW) && it_bSkipEmpty p && bEmpty
      then sessionChangesetNext fuel e p else Some (p, rc)
  end.

Definition sqlite3changeset_next (e : IterEnv) (p : changeset_iter) : option (changeset_iter * Z) :=
  sessionChangesetNext (in_pending (it_in p)) e p.

(** [*pzTab], [*pnCol], [*pOp] and [*pbIndirect]. *)
Definition sqlite3changeset_op (p : changeset_iter) : option (list Z) * Z * Z * Z :=
  (it_zTab p, it_nCol p, it_op p, it_bIndirect p).

Definition sqlite3changeset_pk (p : changeset_iter) : option (list Z) * Z := (it_abPK p, it_nCol p).

(** The result and [*ppValue], where it is written. *)
Definition sqlite3changeset_old (p : changeset_iter) (iVal : Z)
    : option (Z * option (option sqlite3_value)) :=
  if negb (it_op p =? SQLITE_UPDATE) && negb (it_op p =? SQLITE_DELETE) then Some (SQLITE_MISUSE, None)
  else if (iVal <? 0) || (it_nCol p <=? iVal) then Some (SQLITE_RANGE, None)
  else vs ← it_apValue p; v ← at_ vs iVal; Some (SQLITE_OK, Some v).

Definition sqlite3changeset_new (p : changeset_iter) (iVal : Z)
    : option (Z * option (option sqlite3_value)) :=
  if negb (it_op p =? SQLITE_UPDATE) && negb (it_op p =? SQLITE_INSERT) then Some (SQLITE_MISUSE, None)
  else if (iVal <? 0) || (it_nCol p <=? iVal) then Some (SQLITE_RANGE, None)
  else vs ← it_apValue p; v ← at_ vs (it_nCol p + iVal); Some (SQLITE_OK, Some v).

Definition sqlite3changeset_finalize (p : option changeset_iter) : option Z :=
  match p with
  | None => Some SQLITE_OK
  | Some p => _ ← clear_values p; Some (it_rc p)
  end.
