(* ===== verification/IteratorSpec.v ===== *)
(** * The iterator reads back what the session wrote

    On an in-memory changeset made of encoded table sections, the iterator
    delivers the changes one by one, in order, with their old and new fields. *)
From stdpp Require Import gmap strings.
From S2P Require Import Prelude Bits Varint Value Record Strings Buffer Session Recorder Tracking SelectSql Changeset Iterator.

Local Open Scope Z_scope.

(** ** Positions *)

(** An in-memory input that has read [pre] and has [rest] to read. *)
Definition positioned (i : SessionInput) (pre rest : list Z) : Prop :=
  in_aData i = pre ++ rest /\ in_iNext i = Zlen pre /\ in_xInput i = None.

Lemma positioned_at i pre rest : positioned i pre rest -> in_at i (in_iNext i) = Some rest.
Proof. intros (E & En & _). unfold in_at. rewrite E, En. apply advance_app. Qed.

Lemma positioned_byte i pre b rest : positioned i pre (b :: rest) -> at_ (in_aData i) (in_iNext i) = Some b.
Proof.
  intros (-> & -> & _). unfold Zlen. rewrite at_lookup, lookup_app_r, Nat.sub_diag by lia. reflexivity.
Qed.

Lemma positioned_left i pre rest : positioned i pre rest -> in_nData i - in_iNext i = Zlen rest.
Proof. intros (E & En & _). unfold in_nData. rewrite E, En. zlia. Qed.

Lemma positioned_end i pre : positioned i pre [] -> (in_nData i <=? in_iNext i) = true.
Proof. intros H. apply positioned_left in H. apply Z.leb_le. zlia. Qed.

Lemma positioned_more i pre b rest : positioned i pre (b :: rest) -> (in_nData i <=? in_iNext i) = false.
Proof. intros H. apply positioned_left in H. apply Z.leb_gt. zlia. Qed.

Lemma positioned_next i pre bs rest n : positioned i pre (bs ++ rest) -> n = in_iNext i + Zlen bs ->
  positioned (set_iNext i n) (pre ++ bs) rest.
Proof.
  intros (E & En & Ex) ->. split_and!; cbn; [rewrite E, app_assoc; reflexivity|rewrite En; zlia|exact Ex].
Qed.

Lemma positioned_step i pre b rest : positioned i pre (b :: rest) ->
  positioned (set_iNext i (in_iNext i + 1)) (pre ++ [b]) rest.
Proof. intros H. eapply (positioned_next i pre [b]); [exact H|reflexivity]. Qed.

Lemma inputBuffer_memory realloc i n pre rest : positioned i pre rest ->
  sessionInputBuffer realloc i n = Some (i, SQLITE_OK).
Proof. intros (_ & _ & E). unfold sessionInputBuffer. rewrite E. reflexivity. Qed.

Lemma set_iNext_twice i n m : set_iNext (set_iNext i n) m = set_iNext i m.
Proof. reflexivity. Qed.

(** ** Records *)

Definition iter_ample (e : IterEnv) : Prop :=
  (forall n, ie_realloc e n = true) /\ (forall n, ie_value_new e n = true) /\ (forall n, ie_malloc e n = true).

Definition absent_field (f : option sqlite3_value) : bool := bool_decide (f = None).

(** What reading [bs] with the expected outcome [x] gives. *)
Definition reads {A} (e : IterEnv) (i : SessionInput) (pre bs rest : list Z) (x : A * bool)
    (r : option (SessionInput * A * bool * Z)) : Prop :=
  exists i' v b rc, r = Some (i', v, b, rc) /\ (rc = SQLITE_OK \/ rc = SQLITE_NOMEM) /\
    (rc = SQLITE_OK -> i' = set_iNext i (in_iNext i + Zlen bs) /\ (v, b) = x) /\
    (iter_ample e -> rc = SQLITE_OK).

Lemma text_value e i i0 pre z rest (t : bool) v b :
  bytes_ok z /\ Zlen z <= SQLITE_MAX_LENGTH -> bytes_ok rest -> positioned i pre ((varint (Zlen z) ++ z) ++ rest) ->
  i = set_iNext i0 (in_iNext i0 + 1) ->
  reads e i0 pre (0 :: varint (Zlen z) ++ z) rest (Some (if t then VText z else VBlob z), b)
    (aVal ← in_at i (in_iNext i);
     '(nByte, k) ← sessionVarintGet aVal;
     '(i1, rc) ← sessionInputBuffer (ie_realloc e) (set_iNext i (in_iNext i + k)) nByte;
     if negb (rc =? SQLITE_OK) then Some (i1, v, b, rc)
     else if (nByte <? 0) || (in_nData i1 - in_iNext i1 <? nByte) then Some (i1, v, b, SQLITE_CORRUPT)
     else a ← in_at i1 (in_iNext i1);
          '(rc, w) ← sessionValueSetStr (ie_malloc e (in_iNext i1)) a nByte t;
          Some (set_iNext i1 (in_iNext i1 + nByte), Some w, b, rc)).
Proof.
  intros Hz Hr Hi E0. rewrite (positioned_at _ _ _ Hi). cbn [mbind option_bind].
  destruct (text_get z rest Hz Hr) as [-> _]. cbn [mbind option_bind].
  rewrite <- app_assoc in Hi.
  assert (positioned (set_iNext i (in_iNext i + Zlen (varint (Zlen z)))) (pre ++ varint (Zlen z)) (z ++ rest)) as H1
    by (eapply positioned_next; eauto).
  rewrite (inputBuffer_memory _ _ _ _ _ H1). cbn [mbind option_bind].
  change (negb (SQLITE_OK =? SQLITE_OK)) with false. cbv iota.
  rewrite (positioned_left _ _ _ H1), Zlen_app.
  pose proof (Zlen_nonneg z). pose proof (Zlen_nonneg rest).
  rewrite (proj2 (Z.ltb_ge _ _)), (proj2 (Z.ltb_ge _ _)) by lia. cbn [orb].
  rewrite (positioned_at _ _ _ H1). cbn [mbind option_bind]. unfold sessionValueSetStr. rewrite read_n_app.
  destruct (ie_malloc e _) eqn:Em; cbn [negb mbind option_bind].
  - eexists _, _, _, _. split; [reflexivity|]. split_and!; auto. intros _. rewrite E0. split; [|reflexivity].
    unfold set_iNext. cbn [in_bNoDiscard in_iCurrent in_iNext in_aData in_buf in_xInput in_bEof]. f_equal. zlia.
  - eexists _, _, _, _. split; [reflexivity|]. split_and!; auto; [discriminate|].
    intros (_ & _ & H3). rewrite H3 in Em. discriminate.
Qed.

(** A value that [sqlite3ValueNew] could not allocate. *)
Lemma reads_nomem {A} e i i' pre bs rest (x : A * bool) v b :
  (iter_ample e -> False) -> reads e i pre bs rest x (Some (i', v, b, SQLITE_NOMEM)).
Proof.
  intros H. eexists _, _, _, _. split; [reflexivity|]. split_and!; auto; [discriminate|]. intros Ha. destruct (H Ha).
Qed.

Lemma reads_ok {A} e i i' pre bs rest (v : A) b n :
  i' = set_iNext i n -> n = in_iNext i + Zlen bs -> reads e i pre bs rest (v, b) (Some (i', v, b, SQLITE_OK)).
Proof. intros -> ->. eexists _, _, _, _. split; [reflexivity|]. split_and!; auto. Qed.

(** A serialised 8-byte number. *)
Lemma number_value e i i0 pre x rest (t : bool) (v w : option sqlite3_value) b :
  positioned i pre (sessionPutI64 x ++ rest) -> i = set_iNext i0 (in_iNext i0 + 1) ->
  w = Some (if t then sqlite3VdbeMemSetInt64 (i64 x) else sqlite3VdbeMemSetDouble (u64 (i64 x))) ->
  reads e i0 pre (0 :: sessionPutI64 x) rest (w, b)
    (aVal ← in_at i (in_iNext i);
     if in_nData i - in_iNext i <? 8 then Some (i, v, b, SQLITE_CORRUPT)
     else x ← sessionGetI64 aVal;
          Some (set_iNext i (in_iNext i + 8),
            Some (if t then sqlite3VdbeMemSetInt64 x else sqlite3VdbeMemSetDouble (u64 x)), b, SQLITE_OK)).
Proof.
  intros Hi E0 ->. rewrite (positioned_at _ _ _ Hi). cbn [mbind option_bind].
  rewrite (positioned_left _ _ _ Hi), Zlen_app, putI64_len.
  pose proof (Zlen_nonneg rest). rewrite (proj2 (Z.ltb_ge _ _)) by lia.
  rewrite getI64_putI64. cbn [mbind option_bind]. rewrite E0, set_iNext_twice. eapply reads_ok; [reflexivity|].
  cbn [set_iNext in_iNext]. rewrite Zlen_cons, putI64_len. lia.
Qed.

(** The encoding's first byte does not matter for its length. *)
Lemma reads_head {A} e i pre c d bs rest (x : A * bool) r :
  reads e i pre (c :: bs) rest x r -> reads e i pre (d :: bs) rest x r.
Proof. unfold reads. rewrite !Zlen_cons. auto. Qed.

Lemma readRecord_value_enc e i b f pre rest : field_ok f -> bytes_ok rest ->
  positioned i pre (enc_field f ++ rest) ->
  reads e i pre (enc_field f) rest (f, b && absent_field f) (readRecord_value e i b).
Proof.
  intros Hf Hr Hi. unfold readRecord_value. rewrite (inputBuffer_memory _ _ _ _ _ Hi). cbn [mbind option_bind].
  change (negb (SQLITE_OK =? SQLITE_OK)) with false. cbv iota.
  assert (exists t r, enc_field f ++ rest = t :: r ++ rest /\ enc_field f = t :: r /\
    t = match f with Some v => sqlite3_value_type v | None => 0 end) as (t & r & Ef & Ef' & Et).
  { destruct (enc_field_head f) as (t & r & -> & Et). exists t, r. auto. }
  rewrite Ef in Hi. rewrite (positioned_more _ _ _ _ Hi), (positioned_byte _ _ _ _ Hi). cbn [mbind option_bind].
  pose proof (positioned_step _ _ _ _ Hi) as H1.
  destruct (truth t && negb (ie_value_new e (in_iNext i))) eqn:En.
  { apply reads_nomem. intros (_ & H2 & _). rewrite H2, andb_false_r in En. discriminate. }
  rewrite Ef'. destruct f as [[|x|x|z|z]|]; cbn [field_ok value_ok] in Hf; rewrite Et in *; clear Et Ef;
    injection Ef' as <-; cbn [absent_field]; rewrite ?andb_false_r, ?andb_true_r.
  - rewrite (positioned_at _ _ _ H1). eapply reads_ok; reflexivity.
  - refine (reads_head _ _ _ 0 _ _ _ _ _ (number_value e _ i (pre ++ [1]) x rest true _ _ _ H1 eq_refl _)).
    rewrite i64_id by exact Hf. reflexivity.
  - refine (reads_head _ _ _ 0 _ _ _ _ _ (number_value e _ i (pre ++ [2]) x rest false _ _ _ H1 eq_refl _)).
    rewrite u64_i64_id by apply Hf. unfold sqlite3VdbeMemSetDouble. destruct Hf as (_ & -> & _). reflexivity.
  - refine (reads_head _ _ _ 0 _ _ _ _ _ (text_value e _ i (pre ++ [3]) z rest true _ _ Hf Hr H1 eq_refl)).
  - refine (reads_head _ _ _ 0 _ _ _ _ _ (text_value e _ i (pre ++ [4]) z rest false _ _ Hf Hr H1 eq_refl)).
  - rewrite (positioned_at _ _ _ H1). eapply reads_ok; reflexivity.
Qed.

(** [bEmpty] after a record: no field is present. *)
Definition all_absent (fs : list (option sqlite3_value)) : bool := forallb absent_field fs.

Lemma readRecord_loop_enc e fs col i b pre rest : fields_ok fs -> bytes_ok rest ->
  positioned i pre (enc_fields fs ++ rest) ->
  reads e i pre (enc_fields fs) rest (fs, b && all_absent fs) (readRecord_loop e (length fs) col None i b).
Proof.
  revert col i b pre. induction fs as [|f fs IH]; intros col i b pre Hfs Hr Hi; cbn [length readRecord_loop].
  { rewrite andb_true_r. eapply reads_ok with (n := in_iNext i); [|change (enc_fields []) with (@nil Z); rewrite Zlen_nil; lia]. destruct i; reflexivity. }
  apply fields_ok_cons in Hfs as [Hf Hfs]. rewrite enc_fields_step in Hi.
  destruct (readRecord_value_enc e i b f pre (enc_fields fs ++ rest) Hf) as (i1 & v & b1 & rc & -> & Hrc & Hok & Ha);
    auto; [apply bytes_ok_rest; auto|]. cbn [mbind option_bind].
  destruct Hrc as [->| ->]; cbn [Z.eqb SQLITE_OK SQLITE_NOMEM Pos.eqb].
  2: { eexists _, _, _, _. split; [reflexivity|]. split_and!; auto; discriminate. }
  destruct (Hok eq_refl) as [-> [= -> ->]].
  destruct (IH (col + 1) (set_iNext i (in_iNext i + Zlen (enc_field f))) (b && absent_field f) (pre ++ enc_field f)
    Hfs Hr) as (i2 & out & b2 & rc & -> & Hrc & Hok2 & Ha2); [eapply positioned_next; eauto|].
  cbn [mbind option_bind]. eexists _, _, _, _. split; [reflexivity|]. split_and!; auto.
  intros E. destruct (Hok2 E) as [-> [= -> ->]]. split.
  - rewrite set_iNext_twice, enc_fields_cons, Zlen_app, Z.add_assoc. reflexivity.
  - cbn [all_absent forallb]. rewrite andb_assoc. reflexivity.
Qed.

Lemma readRecord_enc e fs i nCol pre rest : fields_ok fs -> bytes_ok rest ->
  positioned i pre (enc_fields fs ++ rest) -> nCol = Zlen fs ->
  reads e i pre (enc_fields fs) rest (fs, all_absent fs) (sessionReadRecord e i nCol None).
Proof. intros Hf Hr Hi ->. unfold sessionReadRecord. rewrite Zlen_to_nat. eapply readRecord_loop_enc; eauto. Qed.

(** A record always fills one entry per column. *)
Lemma readRecord_length e n col abPK i b i' out b' rc :
  readRecord_loop e n col abPK i b = Some (i', out, b', rc) -> length out = n.
Proof.
  revert col i b i' out b' rc. induction n as [|n IH]; intros col i b i' out b' rc; cbn [readRecord_loop].
  { intros [= _ <- _ _]. reflexivity. }
  destruct (match abPK with Some a => _ | None => _ end) as [[]|]; [| |discriminate]; cbn [mbind option_bind].
  - destruct (readRecord_loop e n _ _ _ _) as [[[[i1 out1] b1] rc1]|] eqn:E; [|discriminate].
    intros [= _ <- _ _]. cbn [length]. f_equal. eauto.
  - destruct (readRecord_value e i b) as [[[[i1 v] b1] rc1]|]; [|discriminate]. cbn [mbind option_bind].
    destruct (rc1 =? SQLITE_OK); [|intros [= _ <- _ _]; cbn; rewrite length_replicate; reflexivity].
    destruct (readRecord_loop e n _ _ _ _) as [[[[i2 out2] b2] rc2]|] eqn:E; [|discriminate].
    intros [= _ <- _ _]. cbn [length]. f_equal. eauto.
Qed.

(** ** Table headers *)

(** What the iterator can read as a table: the limits of the file format. *)
Record table_ok (pks zName : list Z) : Prop := {
  tk_cols : 0 < Zlen pks <= 65536;
  tk_pks : bytes_ok pks;
  tk_name : cstring zName;
  tk_short : Zlen zName < 2 ^ 30
}.

Lemma cstring_bytes z : cstring z -> bytes_ok z.
Proof. intros H. eapply Forall_impl; [exact H|]. unfold is_byte. lia. Qed.

Lemma nonzero_run_name z rest : cstring z -> nonzero_run (z ++ 0 :: rest) = Zlen z.
Proof.
  induction 1 as [|c z Hc Hz IH]; cbn [app nonzero_run]; [reflexivity|]. unfold truth.
  destruct (Z.eqb_spec c 0); [lia|]. cbn [negb]. rewrite IH, Zlen_cons. reflexivity.
Qed.

Definition header_tail (pks zName : list Z) : list Z := varint (Zlen pks) ++ pks ++ zName ++ [0].

Lemma header_tail_bytes pks zName : table_ok pks zName -> bytes_ok (header_tail pks zName).
Proof.
  intros [Hc Hp Hn Hs]. unfold header_tail. rewrite !bytes_ok_app. split_and!; auto using cstring_bytes.
  - apply varint_bytes. lia.
  - apply bytes_ok_cons. split; [unfold is_byte; lia|constructor].
Qed.

Lemma header_get pks zName rest : table_ok pks zName -> bytes_ok rest ->
  sessionVarintGet (header_tail pks zName ++ rest) = Some (Zlen pks, Zlen (varint (Zlen pks))).
Proof.
  intros Ht Hr. pose proof (header_tail_bytes _ _ Ht) as Hb. destruct Ht as [Hc Hp Hn Hs].
  unfold header_tail in *. rewrite <- app_assoc. apply bytes_ok_app in Hb as [_ Hb].
  apply varint_get; [lia|]. apply bytes_ok_app. auto.
Qed.

Lemma bufferTblhdr_enc realloc i pre pks zName rest : table_ok pks zName -> bytes_ok rest ->
  positioned i pre (header_tail pks zName ++ rest) ->
  sessionChangesetBufferTblhdr realloc i = Some (i, Zlen (header_tail pks zName), SQLITE_OK).
Proof.
  intros Ht Hr Hi. unfold sessionChangesetBufferTblhdr. rewrite !(inputBuffer_memory _ _ _ _ _ Hi).
  cbn [mbind option_bind]. change (negb (SQLITE_OK =? SQLITE_OK)) with false. cbv iota.
  rewrite (positioned_at _ _ _ Hi). cbn [mbind option_bind]. rewrite header_get by auto. cbn [mbind option_bind].
  pose proof (tk_cols _ _ Ht) as Hc.
  rewrite (proj2 (Z.ltb_ge _ _)), (proj2 (Z.ltb_ge _ _)) by lia. cbn [orb].
  rewrite (inputBuffer_memory _ _ _ _ _ Hi). cbn [mbind option_bind].
  change (negb (SQLITE_OK =? SQLITE_OK)) with false. cbv iota.
  unfold tblhdr_fuel. cbn [bufferTblhdr_loop]. destruct Hi as (E & En & Ex).
  assert (in_iNext i + (Zlen (varint (Zlen pks)) + Zlen pks) = Zlen (pre ++ varint (Zlen pks) ++ pks)) as -> by zlia.
  unfold in_nData. rewrite E. unfold header_tail.
  replace (pre ++ (varint (Zlen pks) ++ pks ++ zName ++ [0]) ++ rest)
    with ((pre ++ varint (Zlen pks) ++ pks) ++ zName ++ 0 :: rest) by (rewrite <- !app_assoc; reflexivity).
  rewrite drop_Zlen_app, nonzero_run_name by apply Ht.
  rewrite (proj2 (Z.ltb_lt _ _)) by zlia. cbn [mbind option_bind]. f_equal. f_equal. f_equal. zlia.
Qed.

(** ** The state of the iterator *)

(** An iterator over an in-memory changeset, at a position. *)
Record iter_at (p : changeset_iter) (pre rest : list Z) : Prop := {
  ia_pos : positioned (it_in p) pre rest;
  ia_rc : it_rc p = SQLITE_OK;
  ia_patchset : it_bPatchset p = false;
  ia_invert : it_bInvert p = false;
  ia_skip : it_bSkipEmpty p = false;
  ia_alloc : 0 <= nAlloc (it_tblhdr p) <= SESSION_MAX_BUFFER_SZ
}.

(** The iterator is in the table [zName]; [vs] are the current values. *)
Record in_table (p : changeset_iter) (pks zName : list Z) (vs : list (option sqlite3_value)) : Prop := {
  tb_zTab : it_zTab p = Some zName;
  tb_nCol : it_nCol p = Zlen pks;
  tb_abPK : it_abPK p = Some pks;
  tb_values : it_apValue p = Some vs;
  tb_length : length vs = (2 * length pks)%nat
}.

(** Before the first header, or in a table. *)
Definition settled (p : changeset_iter) : Prop :=
  (it_zTab p = None /\ it_apValue p = None) \/ exists pks zName vs, in_table p pks zName vs.

Definition no_values (pks : list Z) : list (option sqlite3_value) := replicate (length pks) None.

Lemma no_values_twice (pks : list Z) : replicate (Z.to_nat (Zlen pks * 2)) None = no_values pks ++ no_values pks.
Proof.
  unfold no_values. rewrite <- replicate_add. f_equal. unfold Zlen. lia.
Qed.

Lemma clear_values_spec p : settled p ->
  exists p', clear_values p = Some p' /\ settled p' /\ it_in p' = it_in p /\
    (forall pre rest, iter_at p pre rest -> iter_at p' pre rest) /\
    (forall pks zName vs, in_table p pks zName vs -> in_table p' pks zName (no_values pks ++ no_values pks)).
Proof.
  unfold clear_values. intros [[Hz Hv]|(pks & zName & vs & Ht)].
  - rewrite Hv. exists p. split_and!; auto; [left; auto|]. intros pks zName vs []. congruence.
  - pose proof Ht as [H1 H2 H3 H4 H5]. rewrite H4, H2.
    rewrite (proj2 (Z.leb_le _ _)) by (unfold Zlen; lia). rewrite no_values_twice, drop_ge, app_nil_r.
    2: { unfold Zlen. lia. }
    eexists. split; [reflexivity|]. split_and!.
    + right. exists pks, zName, (no_values pks ++ no_values pks). split; cbn; auto.
      unfold no_values. rewrite length_app, !length_replicate. lia.
    + reflexivity.
    + intros pre rest []. split; auto.
    + intros pks' zName' vs' [G1 G2 G3 G4 G5]. assert (pks' = pks) as -> by congruence. split; cbn; auto.
      unfold no_values. rewrite length_app, !length_replicate. lia.
Qed.

Lemma bufferGrow_rc realloc b n rc b' rc' : sessionBufferGrow realloc b n rc = Some (b', rc') ->
  rc' = rc \/ rc' = SQLITE_NOMEM.
Proof.
  unfold sessionBufferGrow. destruct (_ && _); [|intros [= _ <-]; auto].
  destruct (grow_loop _ _ _); [|discriminate]. cbn [mbind option_bind].
  destruct (_ && _); [intros [= _ <-]; auto|]. destruct (realloc _); intros [= _ <-]; auto.
Qed.

Lemma take_name (zName : list Z) : cstring zName ->
  take (Z.to_nat (nonzero_run (zName ++ [0]))) (zName ++ [0]) = zName.
Proof. intros H. rewrite nonzero_run_name by exact H. apply take_Zlen_app. Qed.

(** Allocation failed: the iterator is in the error state. *)
Definition iter_failed (p : changeset_iter) (rc : Z) : Prop := rc = SQLITE_NOMEM /\ it_rc p = SQLITE_NOMEM.

Lemma iter_at_forward p pre bs rest n : iter_at p pre (bs ++ rest) -> n = in_iNext (it_in p) + Zlen bs ->
  iter_at (set_in p (set_iNext (it_in p) n)) (pre ++ bs) rest.
Proof. intros [] Hn. split; cbn; auto. eapply positioned_next; eauto. Qed.

Lemma readTblhdr_enc e p pre pks zName rest : table_ok pks zName -> bytes_ok rest ->
  iter_at p pre (header_tail pks zName ++ rest) ->
  exists p' rc, sessionChangesetReadTblhdr e p = Some (p', rc) /\
    (rc = SQLITE_OK -> iter_at p' (pre ++ header_tail pks zName) rest /\
       in_table p' pks zName (no_values pks ++ no_values pks)) /\
    (rc <> SQLITE_OK -> iter_failed p' rc) /\ (iter_ample e -> rc = SQLITE_OK).
Proof.
  intros Ht Hr Hp. pose proof (ia_pos _ _ _ Hp) as Hi. unfold sessionChangesetReadTblhdr.
  rewrite (bufferTblhdr_enc _ _ pre pks zName rest) by auto. cbn [mbind option_bind].
  change (negb (SQLITE_OK =? SQLITE_OK)) with false. cbv iota.
  rewrite (positioned_at _ _ _ Hi). cbn [mbind option_bind]. rewrite header_get by auto. cbn [mbind option_bind].
  pose proof (tk_cols _ _ Ht) as Hc. pose proof (tk_short _ _ Ht) as Hs. pose proof (ia_alloc _ _ _ Hp) as Hal.
  rewrite (proj2 (Z.ltb_lt _ _)) by lia.
  assert (Zlen (header_tail pks zName) - Zlen (varint (Zlen pks)) = Zlen (pks ++ zName ++ [0])) as -> by (unfold header_tail; zlia).
  assert (Zlen (pks ++ zName ++ [0]) = Zlen pks + Zlen zName + 1) as El by zlia. pose proof (Zlen_nonneg zName) as Hz.
  destruct (bufferGrow_spec (ie_realloc e) (mkBuffer [] (nAlloc (it_tblhdr p))) (Zlen pks * 8 * 2 + Zlen (pks ++ zName ++ [0]))
    SQLITE_OK) as (b & rc & Eg & Hb & Ea & Hok & Hsuc); [split; unfold nBuf; cbn [nAlloc aBuf]; rewrite ?Zlen_nil; apply Hal|rewrite El; lia|].
  cbn [it_tblhdr set_in]. rewrite Eg. cbn [mbind option_bind].
  destruct (bufferGrow_rc _ _ _ _ _ _ Eg) as [->| ->].
  2: { eexists _, _. split; [reflexivity|]. split_and!; [discriminate|split; reflexivity|].
       intros (Ha & _). apply Hsuc; auto. change (nBuf (mkBuffer [] _)) with 0. unfold SESSION_MAX_BUFFER_SZ. lia. }
  change (negb (SQLITE_OK =? SQLITE_OK)) with false. cbv iota. destruct (Hok eq_refl) as [_ Hroom].
  unfold header_tail in Hp, Hi. rewrite <- app_assoc in Hp, Hi.
  pose proof (positioned_next _ _ _ _ _ Hi eq_refl) as H1.
  rewrite (positioned_at _ _ _ H1). cbn [mbind option_bind]. rewrite read_n_app. cbn [mbind option_bind].
  rewrite read_n_app, advance_app. cbn [mbind option_bind]. change (nBuf (mkBuffer [] _)) with 0 in Hroom.
  rewrite (proj2 (Z.leb_le _ _)) by lia. rewrite take_name, no_values_twice by apply Ht.
  eexists _, _. split; [reflexivity|]. split_and!; [|intros H; contradiction|auto]. intros _. destruct Hp. split.
  - unfold header_tail. rewrite (app_assoc pre). split; cbn; auto.
    + eapply (positioned_next _ _ _ _ _ H1). reflexivity.
    + destruct Hb as [Hb1 Hb2]. unfold nBuf in Hb1. pose proof (Zlen_nonneg (aBuf b)). lia.
  - split; cbn; auto. unfold no_values. rewrite length_app, !length_replicate. lia.
Qed.

(** ** One change *)

Definition delta_op (d : delta) : Z :=
  match d with DInsert _ _ => SQLITE_INSERT | DDelete _ _ => SQLITE_DELETE | DUpdate _ _ _ => SQLITE_UPDATE end.

(** The old.* and new.* fields a change delivers. *)
Definition delta_olds (pks : list Z) (d : delta) : list (option sqlite3_value) :=
  match d with
  | DInsert _ _ => no_values pks
  | DDelete _ old => Some <$> old
  | DUpdate _ old new => upd_old pks old new
  end.

Definition delta_news (pks : list Z) (d : delta) : list (option sqlite3_value) :=
  match d with
  | DInsert _ new => Some <$> new
  | DDelete _ _ => no_values pks
  | DUpdate _ old new => upd_new old new
  end.

Definition delta_ok (pks : list Z) (d : delta) : Prop :=
  is_byte (delta_flag d) /\
  match d with
  | DInsert _ r | DDelete _ r => row_ok pks r
  | DUpdate _ old new => row_ok pks old /\ row_ok pks new
  end.

(** The record of a change, without its two first bytes. *)
Definition delta_record (pks : list Z) (d : delta) : list Z :=
  match d with
  | DInsert _ new => enc_fields (Some <$> new)
  | DDelete _ old => enc_fields (Some <$> old)
  | DUpdate _ old new => enc_fields (upd_old pks old new) ++ enc_fields (upd_new old new)
  end.

Lemma enc_delta_split pks d : enc_delta pks d = delta_op d :: delta_flag d :: delta_record pks d.
Proof. destruct d; reflexivity. Qed.

Lemma upd_fields pks old new : row_ok pks old -> row_ok pks new ->
  fields_ok (upd_old pks old new) /\ length (upd_old pks old new) = length pks /\
  fields_ok (upd_new old new) /\ length (upd_new old new) = length pks.
Proof.
  intros [L1 V1] [L2 V2]. revert old new L1 V1 L2 V2. induction pks as [|pk pks IH]; intros [|o old] [|n new];
    try discriminate; cbn [upd_old upd_new length]; intros L1 V1 L2 V2; [repeat split; constructor|].
  apply Forall_cons in V1 as [Vo V1], V2 as [Vn V2]. injection L1 as L1. injection L2 as L2.
  destruct (IH old new L1 V1 L2 V2) as (H1 & H2 & H3 & H4).
  rewrite !fields_ok_cons. split_and!; auto; (destruct (_ || _) || destruct (negb _)); cbn; auto.
Qed.

Lemma row_fields pks r : row_ok pks r -> fields_ok (Some <$> r) /\ length (Some <$> r) = length pks.
Proof. intros [L V]. split; [apply Forall_fmap; exact V|rewrite length_fmap; exact L]. Qed.

Lemma delta_record_bytes pks d : delta_ok pks d -> bytes_ok (delta_record pks d).
Proof.
  intros [_ H]. destruct d; cbn in *; [apply enc_fields_bytes; eapply row_fields; eauto..|].
  destruct H as [H1 H2]. destruct (upd_fields _ _ _ H1 H2) as (? & _ & ? & _).
  apply bytes_ok_app. split; apply enc_fields_bytes; auto.
Qed.

Definition is_change (op : Z) : Prop := op = SQLITE_INSERT \/ op = SQLITE_DELETE \/ op = SQLITE_UPDATE.

(** The operation of a change has been read; its record is next. *)
Record at_record (p : changeset_iter) (pks zName pre rest : list Z) (op ind : Z) : Prop := {
  ar_at : iter_at p pre rest;
  ar_table : in_table p pks zName (no_values pks ++ no_values pks);
  ar_op : it_op p = op;
  ar_ind : it_bIndirect p = ind
}.

(** The setters do not touch the table. *)
Lemma in_table_set_in p i pks zName vs : in_table p pks zName vs -> in_table (set_in p i) pks zName vs.
Proof. intros []. split; auto. Qed.

Lemma in_table_set_itrc p rc pks zName vs : in_table p pks zName vs -> in_table (set_itrc p rc) pks zName vs.
Proof. intros []. split; auto. Qed.

Lemma iter_at_set_in p i pre rest pre' rest' : iter_at p pre rest -> positioned i pre' rest' ->
  iter_at (set_in p i) pre' rest'.
Proof. intros [] Hi. split; auto. Qed.

Lemma iter_at_set_itrc p pre rest : iter_at p pre rest -> iter_at (set_itrc p SQLITE_OK) pre rest.
Proof. intros []. split; auto. Qed.

Lemma positioned_current i pre rest n : positioned i pre rest -> positioned (set_iCurrent i n) pre rest.
Proof. intros (? & ? & ?). split_and!; auto. Qed.

Lemma discard_memory i pre rest : positioned i pre rest -> sessionDiscardData i = Some i.
Proof.
  intros (_ & _ & E). unfold sessionDiscardData. rewrite bool_decide_true by exact E. reflexivity.
Qed.

Create HintDb iter discriminated.
#[export] Hint Resolve in_table_set_in in_table_set_itrc iter_at_set_itrc positioned_current positioned_step : iter.

(** From the first byte of a change on. *)
Definition finish_change (p : changeset_iter) (bNew : bool) (r : Z + Z)
    : option (changeset_iter * bool * (Z + Z)) :=
  match r with
  | inl rc => Some (p, bNew, inl rc)
  | inr op =>
      if bool_decide (it_zTab p = None) || (it_bPatchset p && it_bInvert p)
      then Some (set_itrc p SQLITE_CORRUPT, bNew, inl SQLITE_CORRUPT)
      else
        ind ← at_ (in_aData (it_in p)) (in_iNext (it_in p));
        let p := set_in (set_op p op ind) (set_iNext (it_in p) (in_iNext (it_in p) + 1)) in
        if negb (op =? SQLITE_UPDATE) && negb (op =? SQLITE_DELETE) && negb (op =? SQLITE_INSERT)
        then Some (set_itrc p SQLITE_CORRUPT, bNew, inl SQLITE_CORRUPT)
        else Some (p, bNew, inr op)
  end.

Lemma finish_change_spec p bNew op ind pks zName pre rest : is_change op ->
  iter_at p pre (ind :: rest) -> in_table p pks zName (no_values pks ++ no_values pks) ->
  exists p', finish_change p bNew (inr op) = Some (p', bNew, inr op) /\
    at_record p' pks zName (pre ++ [ind]) rest op ind.
Proof.
  intros Hop Hp Ht. unfold finish_change. rewrite bool_decide_false by (rewrite (tb_zTab _ _ _ _ Ht); discriminate).
  rewrite (ia_patchset _ _ _ Hp). cbn [andb orb]. rewrite (positioned_byte _ _ _ _ (ia_pos _ _ _ Hp)).
  cbn [mbind option_bind].
  assert (negb (op =? SQLITE_UPDATE) && negb (op =? SQLITE_DELETE) && negb (op =? SQLITE_INSERT) = false) as ->
    by (destruct Hop as [->|[->| ->]]; reflexivity).
  eexists. split; [reflexivity|]. split; try reflexivity.
  - destruct Hp. split; cbn; auto with iter.
  - destruct Ht. split; cbn; auto.
Qed.

Lemma skip_headers_change fuel e p op b : is_change op -> skip_headers (S fuel) e p op b = Some (p, b, inr op).
Proof. intros [->|[->| ->]]; reflexivity. Qed.

(** [next_change] up to the first byte. *)
Lemma next_change_start e p c rest pre : settled p -> iter_at p pre (c :: rest) ->
  exists p1 fuel, settled p1 /\ iter_at p1 (pre ++ [c]) rest /\
    (forall pks zName vs, in_table p pks zName vs -> in_table p1 pks zName (no_values pks ++ no_values pks)) /\
    next_change e p = '(p, bNew, r) ← skip_headers (S (S fuel)) e p1 c false; finish_change p bNew r.
Proof.
  intros Hs Hp. unfold next_change. rewrite (ia_rc _ _ _ Hp). change (negb (SQLITE_OK =? SQLITE_OK)) with false. cbv iota.
  destruct (clear_values_spec p Hs) as (p0 & -> & Hs0 & Ei & Hat & Htb). cbn [mbind option_bind].
  specialize (Hat _ _ Hp). pose proof (ia_pos _ _ _ Hat) as Hi.
  rewrite (inputBuffer_memory _ _ _ _ _ Hi). cbn [mbind option_bind].
  change (negb (SQLITE_OK =? SQLITE_OK)) with false. cbv iota.
  pose proof (positioned_current _ _ _ (in_iNext (it_in p0)) Hi) as Hc.
  rewrite (discard_memory _ _ _ Hc). cbn [mbind option_bind].
  rewrite (positioned_more _ _ _ _ Hc), (positioned_byte _ _ _ _ Hc). cbn [mbind option_bind].
  set (i := set_iCurrent (it_in p0) (in_iNext (it_in p0))) in *.
  exists (set_in (set_in (set_itrc (set_in p0 (it_in p0)) SQLITE_OK) i) (set_iNext i (in_iNext i + 1))).
  exists (length (in_aData i) - 1 + length (concat ((default [] (in_xInput i)).*2)))%nat. split_and!.
  - destruct Hs0 as [[H1 H2]|(pks & z & vs & H)]; [left; auto|right]. exists pks, z, vs. auto 6 with iter.
  - eapply iter_at_set_in; [|apply positioned_step, Hc].
    eapply iter_at_set_in; [|exact Hc]. apply iter_at_set_itrc. eapply iter_at_set_in; eauto.
  - intros pks z vs H. apply Htb in H. auto 6 with iter.
  - assert (in_pending i = S (S (length (in_aData i) - 1 + length (concat ((default [] (in_xInput i)).*2))))) as ->.
    { unfold in_pending. destruct Hc as (E & _). rewrite E, length_app. cbn [length]. lia. }
    reflexivity.
Qed.

Lemma next_change_end e p pre : settled p -> iter_at p pre [] ->
  exists p', next_change e p = Some (p', false, inl SQLITE_DONE) /\ settled p' /\ iter_at p' pre [].
Proof.
  intros Hs Hp. unfold next_change. rewrite (ia_rc _ _ _ Hp). change (negb (SQLITE_OK =? SQLITE_OK)) with false. cbv iota.
  destruct (clear_values_spec p Hs) as (p0 & -> & Hs0 & Ei & Hat & Htb). cbn [mbind option_bind].
  specialize (Hat _ _ Hp). pose proof (ia_pos _ _ _ Hat) as Hi.
  rewrite (inputBuffer_memory _ _ _ _ _ Hi). cbn [mbind option_bind].
  change (negb (SQLITE_OK =? SQLITE_OK)) with false. cbv iota.
  pose proof (positioned_current _ _ _ (in_iNext (it_in p0)) Hi) as Hc.
  rewrite (discard_memory _ _ _ Hc). cbn [mbind option_bind]. rewrite (positioned_end _ _ Hc).
  eexists. split; [reflexivity|]. split.
  - destruct Hs0 as [[H1 H2]|(pks & z & vs & H)]; [left; auto|right]. exists pks, z, vs. auto 6 with iter.
  - eapply iter_at_set_in; [|exact Hc]. apply iter_at_set_itrc. eapply iter_at_set_in; eauto.
Qed.

(** A change of the current table. *)
Lemma next_change_same e p op ind pks zName vs pre rest : is_change op ->
  in_table p pks zName vs -> iter_at p pre (op :: ind :: rest) ->
  exists p', next_change e p = Some (p', false, inr op) /\
    at_record p' pks zName (pre ++ [op; ind]) rest op ind.
Proof.
  intros Hop Ht Hp. destruct (next_change_start e p op (ind :: rest) pre) as (p1 & fuel & Hs1 & Hp1 & Htb & ->);
    [right; eauto|exact Hp|].
  rewrite skip_headers_change by exact Hop. cbn [mbind option_bind].
  destruct (finish_change_spec p1 false op ind pks zName (pre ++ [op]) rest Hop Hp1) as (p' & -> & H); [eauto|].
  exists p'. split; [reflexivity|]. rewrite <- app_assoc in H. exact H.
Qed.

(** The first change of a table. *)
Lemma next_change_header e p op ind pks zName pre rest : is_change op -> table_ok pks zName ->
  bytes_ok (op :: ind :: rest) -> settled p -> iter_at p pre (enc_header pks zName ++ op :: ind :: rest) ->
  exists p' r, next_change e p = Some (p', true, r) /\
    ((r = inr op /\ at_record p' pks zName (pre ++ enc_header pks zName ++ [op; ind]) rest op ind) \/
     (r = inl SQLITE_NOMEM /\ it_rc p' = SQLITE_NOMEM /\ ~ iter_ample e)).
Proof.
  intros Hop Ht Hb Hs Hp. change (enc_header pks zName) with (84 :: header_tail pks zName) in *. cbn [app] in Hp.
  destruct (next_change_start e p 84 _ pre Hs Hp) as (p1 & fuel & Hs1 & Hp1 & _ & ->).
  remember (S fuel) as fuel1 eqn:Ef. cbn [skip_headers]. subst fuel1.
  change ((84 =? 84) || (84 =? 80)) with true. cbv iota. change (84 =? 80) with false.
  assert (iter_at (set_patchset p1 false) (pre ++ [84]) (header_tail pks zName ++ op :: ind :: rest)) as Hp2
    by (destruct Hp1; split; auto).
  destruct (readTblhdr_enc e _ _ _ _ _ Ht Hb Hp2) as (p2 & rc & -> & Hok & Hf & Ha). cbn [mbind option_bind].
  destruct (decide (rc = SQLITE_OK)) as [->|N].
  2: { destruct (Hf N) as [-> Hrc]. change (truth SQLITE_NOMEM) with true. cbv iota. cbn [mbind option_bind finish_change].
       eexists _, _. split; [reflexivity|]. right. split_and!; auto. }
  change (truth SQLITE_OK) with false. cbv iota. destruct (Hok eq_refl) as [Hp3 Ht3].
  rewrite (inputBuffer_memory _ _ _ _ _ (ia_pos _ _ _ Hp3)). cbn [mbind option_bind].
  change (truth SQLITE_OK) with false. cbv iota.
  pose proof (positioned_current _ _ _ (in_iNext (it_in p2)) (ia_pos _ _ _ Hp3)) as Hc.
  rewrite (positioned_more _ _ _ _ Hc), (positioned_byte _ _ _ _ Hc). cbn [mbind option_bind].
  rewrite skip_headers_change by exact Hop. cbn [mbind option_bind].
  match goal with |- context [finish_change ?q true _] =>
    assert (iter_at q (((pre ++ [84]) ++ header_tail pks zName) ++ [op]) (ind :: rest)) as Hq end.
  { eapply iter_at_set_in; [|apply positioned_step, Hc]. eapply iter_at_set_in; [|exact Hc].
    apply iter_at_set_itrc. eapply iter_at_set_in; [exact Hp3|exact (ia_pos _ _ _ Hp3)]. }
  destruct (finish_change_spec _ true op ind pks zName _ rest Hop Hq) as (p' & -> & H); [auto 6 with iter|].
  eexists _, _. split; [reflexivity|]. left. split; [reflexivity|].
  rewrite <- !app_assoc in H. exact H.
Qed.

(** ** The record of a change *)

Lemma put_old a b out : length out = length a -> put_values (a ++ b) 0 out = Some (out ++ b).
Proof.
  intros L. unfold put_values. rewrite (proj2 (Z.leb_le _ _)) by (unfold Zlen; rewrite length_app; lia).
  change (Z.to_nat 0) with 0%nat. rewrite Z.add_0_l, Zlen_to_nat, L, drop_app_length. reflexivity.
Qed.

Lemma put_new a b out : length out = length b -> put_values (a ++ b) (Zlen a) out = Some (a ++ out).
Proof.
  intros L. unfold put_values. rewrite (proj2 (Z.leb_le _ _)) by (unfold Zlen; rewrite length_app; lia).
  rewrite take_Zlen_app, drop_ge, app_nil_r; [reflexivity|]. unfold Zlen. rewrite length_app. lia.
Qed.

(** One record read into one half of [apValue]. *)
Lemma read_values_enc e p pre fs rest pks zName vs off vs' : iter_at p pre (enc_fields fs ++ rest) ->
  in_table p pks zName vs -> fields_ok fs -> length fs = length pks -> bytes_ok rest ->
  (forall out, length out = length pks -> exists w, put_values vs off out = Some w) ->
  put_values vs off fs = Some vs' -> length vs' = length vs ->
  exists p' b rc, read_values e p None off = Some (p', b, rc) /\
    ((rc = SQLITE_OK /\ iter_at p' (pre ++ enc_fields fs) rest /\ in_table p' pks zName vs' /\
      it_op p' = it_op p /\ it_bIndirect p' = it_bIndirect p /\ b = all_absent fs) \/
     (rc = SQLITE_NOMEM /\ it_rc p' = SQLITE_NOMEM /\ ~ iter_ample e)).
Proof.
  intros Hp Ht Hf L Hr Hput Ev Lv. unfold read_values.
  destruct (readRecord_enc e fs (it_in p) (it_nCol p) pre rest Hf Hr (ia_pos _ _ _ Hp))
    as (i & out & b & rc & E & Hrc & Hok & Ha); [rewrite (tb_nCol _ _ _ _ Ht); unfold Zlen; lia|].
  assert (length out = length pks) as Lo.
  { unfold sessionReadRecord in E. rewrite (tb_nCol _ _ _ _ Ht), Zlen_to_nat in E. eapply readRecord_length; eauto. }
  rewrite E. cbn [mbind option_bind]. rewrite (tb_values _ _ _ _ Ht). cbn [mbind option_bind].
  destruct Hrc as [->| ->].
  - destruct (Hok eq_refl) as [-> [= -> ->]]. rewrite Ev. cbn [mbind option_bind].
    eexists _, _, _. split; [reflexivity|]. left. split_and!; auto.
    + destruct Hp. split; cbn; auto. eapply positioned_next; eauto.
    + destruct Ht as [H1 H2 H3 H4 H5]. split; auto. rewrite Lv. exact H5.
  - destruct (Hput out Lo) as [w ->]. cbn [mbind option_bind]. eexists _, _, _. split; [reflexivity|]. right.
    split_and!; auto. intros H. specialize (Ha H). discriminate.
Qed.

(** Reading the record after the operation: the rest of [sessionChangesetNextOne]. *)
Definition read_change (e : IterEnv) (p : changeset_iter) (op : Z) : option (changeset_iter * bool * Z) :=
  let apOld := if it_bInvert p then it_nCol p else 0 in
  let apNew := if it_bInvert p then 0 else it_nCol p in
  '(p, rc) ←
    (if negb (op =? SQLITE_INSERT) && (negb (it_bPatchset p) || (op =? SQLITE_DELETE)) then
       '(p, _, rc) ← read_values e p (if it_bPatchset p then it_abPK p else None) apOld;
       Some (p, rc)
     else Some (p, SQLITE_OK));
  if negb (rc =? SQLITE_OK) then Some (p, false, rc)
  else
    '(p, bEmpty, rc) ←
      (if negb (op =? SQLITE_DELETE) then read_values e p None apNew else Some (p, false, SQLITE_OK));
    if negb (rc =? SQLITE_OK) then Some (p, bEmpty, rc)
    else '(p, rc) ← settle_values p; Some (p, bEmpty, rc).

Lemma nextOne_read e p : sessionChangesetNextOne e p =
  '(p, bNew, r) ← next_change e p;
  match r with inl rc => Some (p, false, rc) | inr op => read_change e p op end.
Proof. reflexivity. Qed.

(** The iterator is on the change [d] of the table [zName]. *)
Record shows (p : changeset_iter) (pks zName : list Z) (d : delta) (pre rest : list Z) : Prop := {
  sh_at : iter_at p pre rest;
  sh_table : in_table p pks zName (delta_olds pks d ++ delta_news pks d);
  sh_op : it_op p = delta_op d;
  sh_ind : it_bIndirect p = delta_flag d
}.

Lemma drop_spurious_upd pks old new : length old = length pks -> length new = length pks ->
  drop_spurious pks (upd_old pks old new) (upd_new old new) = Some (upd_old pks old new).
Proof.
  revert old new. induction pks as [|pk pks IH]; intros [|o old] [|n new] L1 L2; try discriminate; [reflexivity|].
  injection L1 as L1. injection L2 as L2. cbn [upd_old upd_new drop_spurious]. rewrite IH by auto.
  cbn [mbind option_bind]. f_equal. f_equal. unfold truth.
  destruct (bool_decide (o = n)), (pk =? 0); cbn [negb orb andb]; reflexivity.
Qed.

Lemma settle_values_spec p pks zName d pre rest : delta_ok pks d ->
  iter_at p pre rest -> in_table p pks zName (delta_olds pks d ++ delta_news pks d) ->
  it_op p = delta_op d -> it_bIndirect p = delta_flag d ->
  exists p', settle_values p = Some (p', SQLITE_ROW) /\ shows p' pks zName d pre rest.
Proof.
  intros [_ Hd] Hp Ht Hop Hind. unfold settle_values.
  rewrite (tb_values _ _ _ _ Ht), (tb_abPK _ _ _ _ Ht), (tb_nCol _ _ _ _ Ht). cbn [mbind option_bind].
  assert (length (delta_olds pks d) = length pks) as Lo.
  { destruct d; cbn in *; [apply length_replicate|apply (row_fields _ _ Hd)|].
    destruct Hd as [H1 H2]. apply (upd_fields _ _ _ H1 H2). }
  assert (Zlen pks = Zlen (delta_olds pks d)) as El by (unfold Zlen; lia).
  rewrite read_n_app' by exact El. cbn [mbind option_bind]. rewrite advance_app' by exact El. cbn [mbind option_bind].
  rewrite read_n_all. cbn [mbind option_bind].
  rewrite (ia_patchset _ _ _ Hp), (ia_invert _ _ _ Hp). cbn [orb andb mbind option_bind negb].
  rewrite (ia_patchset _ _ _ Hp). cbn [negb andb]. rewrite Hop.
  destruct d as [ind r|ind r|ind o r]; cbn [delta_op Z.eqb Pos.eqb SQLITE_INSERT SQLITE_DELETE SQLITE_UPDATE].
  1,2: eexists; split; [reflexivity|]; split; auto.
  destruct Hd as [[L1 _] [L2 _]]. cbn [delta_olds delta_news]. rewrite drop_spurious_upd by auto. cbn [mbind option_bind].
  eexists. split; [reflexivity|]. split; auto.
  - destruct Hp. split; auto.
  - destruct Ht as [H1 H2 H3 H4 H5]. split; auto.
Qed.

(** The outcome of advancing to the change [d]. *)
Definition advanced (e : IterEnv) (pks zName : list Z) (d : delta) (pre rest : list Z)
    (r : option (changeset_iter * bool * Z)) : Prop :=
  exists p' b rc, r = Some (p', b, rc) /\
    ((rc = SQLITE_ROW /\ shows p' pks zName d pre rest) \/
     (rc = SQLITE_NOMEM /\ it_rc p' = SQLITE_NOMEM /\ ~ iter_ample e)).

Lemma no_values_length pks : length (no_values pks) = length pks.
Proof. apply length_replicate. Qed.

(** The last record of a change. *)
Lemma read_last e p pks zName d fs pre rest off vs :
  delta_ok pks d -> fields_ok fs -> length fs = length pks -> iter_at p pre (enc_fields fs ++ rest) ->
  in_table p pks zName vs -> it_op p = delta_op d -> it_bIndirect p = delta_flag d -> bytes_ok rest ->
  (forall out, length out = length pks -> exists w, put_values vs off out = Some w) ->
  put_values vs off fs = Some (delta_olds pks d ++ delta_news pks d) ->
  length (delta_olds pks d ++ delta_news pks d) = length vs ->
  advanced e pks zName d (pre ++ enc_fields fs) rest
    ('(p, b, rc) ← read_values e p None off;
     if negb (rc =? SQLITE_OK) then Some (p, b, rc)
     else '(p, rc) ← settle_values p; Some (p, b, rc)).
Proof.
  intros Hd Hf L Hp Ht Hop Hind Hr Hput Ev Lv.
  destruct (read_values_enc e p pre fs rest pks zName _ off _ Hp Ht Hf L Hr Hput Ev Lv)
    as (p1 & b & rc & -> & [(-> & Hp1 & Ht1 & Ho1 & Hi1 & _)|(-> & Hrc & Ha)]); cbn [mbind option_bind].
  - change (negb (SQLITE_OK =? SQLITE_OK)) with false. cbv iota.
    destruct (settle_values_spec p1 pks zName d _ _ Hd Hp1 Ht1) as (p2 & -> & Hs); [congruence..|].
    cbn [mbind option_bind]. eexists _, _, _. split; [reflexivity|]. left. auto.
  - change (negb (SQLITE_NOMEM =? SQLITE_OK)) with true. cbv iota. eexists _, _, _. split; [reflexivity|]. right. auto.
Qed.

Lemma read_change_spec e p pks zName d pre rest : delta_ok pks d -> bytes_ok rest ->
  at_record p pks zName pre (delta_record pks d ++ rest) (delta_op d) (delta_flag d) ->
  advanced e pks zName d (pre ++ delta_record pks d) rest (read_change e p (delta_op d)).
Proof.
  intros Hd Hr Har. pose proof Har as [Hp Ht Hop Hind]. unfold read_change.
  rewrite (ia_patchset _ _ _ Hp), (ia_invert _ _ _ Hp), (tb_nCol _ _ _ _ Ht).
  pose proof (no_values_length pks) as Ln. pose proof Hd as [_ Hrow].
  assert (Zlen pks = Zlen (no_values pks)) as El by (unfold Zlen; lia).
  destruct d as [ind r|ind r|ind o r]; cbn [delta_op delta_record Z.eqb Pos.eqb SQLITE_INSERT SQLITE_DELETE SQLITE_UPDATE
    negb andb orb mbind option_bind] in *.
  - destruct (row_fields _ _ Hrow) as [Hf L]. change (negb (SQLITE_OK =? SQLITE_OK)) with false. cbv iota. rewrite El.
    eapply read_last; eauto; cbn [delta_olds delta_news].
    + intros out Lo. rewrite put_new by lia. eauto.
    + apply put_new. lia.
    + rewrite !length_app. lia.
  - destruct (row_fields _ _ Hrow) as [Hf L].
    destruct (read_last e p pks zName (DDelete ind r) (Some <$> r) pre rest 0 (no_values pks ++ no_values pks))
      as (p' & b & rc & E & H); auto; cbn [delta_olds delta_news].
    + intros out Lo. rewrite put_old by lia. eauto.
    + apply put_old. lia.
    + rewrite !length_app. lia.
    + destruct (read_values e p None 0) as [[[p1 b1] rc1]|]; [|discriminate]. cbn [mbind option_bind] in E |- *.
      destruct (negb (rc1 =? SQLITE_OK)) eqn:En.
      * injection E as -> -> ->. eexists _, _, _. split; [reflexivity|exact H].
      * cbn [mbind option_bind]. change (negb (SQLITE_OK =? SQLITE_OK)) with false. cbv iota.
        destruct (settle_values p1) as [[p2 rc2]|]; [|discriminate]. cbn [mbind option_bind] in E |- *.
        injection E as -> -> ->. eexists _, _, _. split; [reflexivity|exact H].
  - destruct Hrow as [Ho Hn]. destruct (upd_fields _ _ _ Ho Hn) as (Hf1 & L1 & Hf2 & L2). rewrite <- app_assoc in Hp.
    destruct (read_values_enc e p pre (upd_old pks o r) (enc_fields (upd_new o r) ++ rest) pks zName _ 0
      (upd_old pks o r ++ no_values pks) Hp Ht Hf1 L1)
      as (p1 & b & rc & -> & [(-> & Hp1 & Ht1 & Ho1 & Hi1 & _)|(-> & Hrc & Ha)]); cbn [mbind option_bind].
    + apply bytes_ok_rest; auto.
    + intros out Lo. rewrite put_old by lia. eauto.
    + apply put_old. lia.
    + rewrite !length_app. lia.
    + change (negb (SQLITE_OK =? SQLITE_OK)) with false. cbv iota. rewrite app_assoc.
      assert (Zlen pks = Zlen (upd_old pks o r)) as -> by (unfold Zlen; lia).
      eapply read_last; eauto; cbn [delta_olds delta_news]; [rewrite Ho1; exact Hop|rewrite Hi1; exact Hind| | |].
      * intros out Lo. rewrite put_new by lia. eauto.
      * apply put_new. lia.
      * rewrite !length_app. lia.
    + change (negb (SQLITE_NOMEM =? SQLITE_OK)) with true. cbv iota. eexists _, _, _. split; [reflexivity|]. right. auto.
Qed.

(** ** A whole changeset *)

Definition item : Type := list Z * list Z * delta.

(** [bs] encodes the changes [items] for an iterator in the table [cur]. *)
Inductive stream : option (list Z * list Z) -> list Z -> list item -> Prop :=
  | stream_nil cur : stream cur [] []
  | stream_same pks zName d bs items :
      delta_ok pks d -> stream (Some (pks, zName)) bs items ->
      stream (Some (pks, zName)) (enc_delta pks d ++ bs) ((pks, zName, d) :: items)
  | stream_table cur pks zName d bs items :
      table_ok pks zName -> delta_ok pks d -> stream (Some (pks, zName)) bs items ->
      stream cur (enc_header pks zName ++ enc_delta pks d ++ bs) ((pks, zName, d) :: items).

Lemma delta_op_byte d : is_byte (delta_op d).
Proof. destruct d; unfold is_byte; cbn; unfold SQLITE_INSERT, SQLITE_DELETE, SQLITE_UPDATE; lia. Qed.

Lemma delta_op_change d : is_change (delta_op d).
Proof. destruct d; unfold is_change; auto. Qed.

Lemma enc_delta_bytes pks d : delta_ok pks d -> bytes_ok (enc_delta pks d).
Proof.
  intros H. rewrite enc_delta_split, !bytes_ok_cons. split_and!; [apply delta_op_byte|apply H|].
  apply delta_record_bytes, H.
Qed.

Lemma stream_bytes cur bs items : stream cur bs items -> bytes_ok bs.
Proof.
  induction 1 as [|pks z d bs items Hd _ IH|cur pks z d bs items Ht Hd _ IH]; [auto with noria|..].
  - apply bytes_ok_app. auto using enc_delta_bytes.
  - rewrite !bytes_ok_app. split_and!; auto using enc_delta_bytes.
    change (enc_header pks z) with (84 :: header_tail pks z). apply bytes_ok_cons.
    split; [unfold is_byte; lia|]. apply header_tail_bytes, Ht.
Qed.

(** The iterator has the changes [items] before it. *)
Definition at_stream (p : changeset_iter) (items : list item) : Prop :=
  exists cur pre bs, iter_at p pre bs /\ stream cur bs items /\ settled p /\
    match cur with Some (pks, zName) => exists vs, in_table p pks zName vs | None => True end.

Lemma shows_settled p pks zName d pre rest : shows p pks zName d pre rest -> settled p.
Proof. intros [_ H _ _]. right. eauto. Qed.

Lemma next_nextOne e p p' b rc : sessionChangesetNextOne e p = Some (p', b, rc) ->
  rc = SQLITE_ROW /\ it_bSkipEmpty p' = false \/ rc <> SQLITE_ROW ->
  sqlite3changeset_next e p = Some (p', rc).
Proof.
  intros E H. unfold sqlite3changeset_next, in_pending. cbn [sessionChangesetNext]. rewrite E. cbn [mbind option_bind].
  destruct H as [[-> H]|H]; [rewrite H; reflexivity|]. apply Z.eqb_neq in H. rewrite H. reflexivity.
Qed.

(** The iterator stands on the change [it], with [items] still to come. *)
Definition on_item (p : changeset_iter) (it : item) (items : list item) : Prop :=
  let '(pks, zName, d) := it in
  (exists pre rest, shows p pks zName d pre rest) /\ at_stream p items.

Lemma next_record e p1 p pks zName d pre bs items bNew : delta_ok pks d -> stream (Some (pks, zName)) bs items ->
  next_change e p = Some (p1, bNew, inr (delta_op d)) ->
  at_record p1 pks zName pre (delta_record pks d ++ bs) (delta_op d) (delta_flag d) ->
  exists p' rc, sqlite3changeset_next e p = Some (p', rc) /\
    ((rc = SQLITE_ROW /\ on_item p' (pks, zName, d) items) \/ (rc = SQLITE_NOMEM /\ ~ iter_ample e)).
Proof.
  intros Hd Hst En Har. pose proof (nextOne_read e p) as E. rewrite En in E. cbn [mbind option_bind] in E.
  destruct (read_change_spec e p1 pks zName d pre bs Hd (stream_bytes _ _ _ Hst) Har)
    as (p' & b & rc & E2 & [[-> Hs]|(-> & _ & Ha)]); rewrite E2 in E.
  - exists p', SQLITE_ROW. split.
    + eapply next_nextOne; [exact E|]. left. split; [reflexivity|]. apply (ia_skip _ _ _ (sh_at _ _ _ _ _ _ Hs)).
    + left. split; [reflexivity|]. split; [eauto|].
      exists (Some (pks, zName)), (pre ++ delta_record pks d), bs.
      split_and!; [apply Hs|exact Hst|eapply shows_settled; eauto|]. eexists. apply Hs.
  - exists p', SQLITE_NOMEM. split; [|right; auto]. eapply next_nextOne; [exact E|]. right. discriminate.
Qed.

Lemma next_stream e p it items : at_stream p (it :: items) ->
  exists p' rc, sqlite3changeset_next e p = Some (p', rc) /\
    ((rc = SQLITE_ROW /\ on_item p' it items) \/ (rc = SQLITE_NOMEM /\ ~ iter_ample e)).
Proof.
  intros (cur & pre & bs & Hp & Hst & Hs & Hcur). inversion Hst as [|pks z d bs' items' Hd Hst'|cur' pks z d bs' items' Ht Hd Hst']; subst.
  - destruct Hcur as [vs Ht]. rewrite enc_delta_split in Hp. cbn [app] in Hp.
    destruct (next_change_same e p _ _ _ _ _ _ _ (delta_op_change d) Ht Hp) as (p1 & En & Har).
    eapply next_record; eauto.
  - pose proof (stream_bytes _ _ _ Hst') as Hb. pose proof (enc_delta_bytes _ _ Hd) as Hb'.
    rewrite enc_delta_split in Hp, Hb'. cbn [app] in Hp.
    assert (bytes_ok (delta_op d :: delta_flag d :: delta_record pks d ++ bs')) as Hb2.
    { apply bytes_ok_cons in Hb' as [? Hb']. apply bytes_ok_cons in Hb' as [? Hb'].
      rewrite !bytes_ok_cons, bytes_ok_app. auto. }
    destruct (next_change_header e p _ _ _ _ _ _ (delta_op_change d) Ht Hb2 Hs Hp)
      as (p1 & r & En & [[-> Har]|(-> & Hrc & Ha)]).
    + eapply next_record; eauto.
    + exists p1, SQLITE_NOMEM. split; [|right; auto].
      eapply (next_nextOne e p p1 false); [|right; discriminate]. rewrite nextOne_read, En. reflexivity.
Qed.

Lemma next_stream_end e p : at_stream p [] ->
  exists p', sqlite3changeset_next e p = Some (p', SQLITE_DONE) /\ at_stream p' [].
Proof.
  intros (cur & pre & bs & Hp & Hst & Hs & _). inversion Hst; subst.
  destruct (next_change_end e p pre Hs Hp) as (p' & En & Hs' & Hp').
  exists p'. split.
  - eapply (next_nextOne e p p' false); [|right; discriminate]. rewrite nextOne_read, En. reflexivity.
  - exists None, pre, []. split_and!; auto. constructor.
Qed.

(** ** The accessors *)

(** What the accessors report on column [c] of the change [d]. *)
Definition old_answer (pks : list Z) (d : delta) (c : nat) : option (Z * option (option sqlite3_value)) :=
  match d with
  | DInsert _ _ => Some (SQLITE_MISUSE, None)
  | _ => Some (SQLITE_OK, delta_olds pks d !! c)
  end.

Definition new_answer (pks : list Z) (d : delta) (c : nat) : option (Z * option (option sqlite3_value)) :=
  match d with
  | DDelete _ _ => Some (SQLITE_MISUSE, None)
  | _ => Some (SQLITE_OK, delta_news pks d !! c)
  end.

Lemma delta_lengths pks d : delta_ok pks d ->
  length (delta_olds pks d) = length pks /\ length (delta_news pks d) = length pks.
Proof.
  intros [_ H]. destruct d; cbn in *; rewrite ?no_values_length; auto.
  - split; [reflexivity|apply (row_fields _ _ H)].
  - split; [apply (row_fields _ _ H)|reflexivity].
  - destruct H as [H1 H2]. destruct (upd_fields _ _ _ H1 H2) as (_ & ? & _ & ?). auto.
Qed.

Lemma column_in_range (pks : list Z) c : (c < length pks)%nat -> (Z.of_nat c <? 0) || (Zlen pks <=? Z.of_nat c) = false.
Proof.
  intros H. rewrite (proj2 (Z.ltb_ge _ _)), (proj2 (Z.leb_gt _ _)) by (unfold Zlen; lia). reflexivity.
Qed.

Lemma changeset_old_shows p pks zName d pre rest c : shows p pks zName d pre rest -> delta_ok pks d ->
  (c < length pks)%nat -> sqlite3changeset_old p (Z.of_nat c) = old_answer pks d c.
Proof.
  intros [_ Ht Hop _] Hd Hc. destruct (delta_lengths _ _ Hd) as [Lo Ln]. unfold sqlite3changeset_old.
  rewrite Hop, (tb_nCol _ _ _ _ Ht), column_in_range, (tb_values _ _ _ _ Ht) by exact Hc. cbn [mbind option_bind].
  rewrite at_lookup, lookup_app_l by lia. unfold old_answer.
  destruct (lookup_lt_is_Some_2 (delta_olds pks d) c ltac:(lia)) as [v Hv]. rewrite Hv. destruct d; reflexivity.
Qed.

Lemma changeset_new_shows p pks zName d pre rest c : shows p pks zName d pre rest -> delta_ok pks d ->
  (c < length pks)%nat -> sqlite3changeset_new p (Z.of_nat c) = new_answer pks d c.
Proof.
  intros [_ Ht Hop _] Hd Hc. destruct (delta_lengths _ _ Hd) as [Lo Ln]. unfold sqlite3changeset_new.
  rewrite Hop, (tb_nCol _ _ _ _ Ht), column_in_range, (tb_values _ _ _ _ Ht) by exact Hc. cbn [mbind option_bind].
  assert (Zlen pks + Z.of_nat c = Z.of_nat (length (delta_olds pks d) + c)) as -> by (unfold Zlen; lia).
  rewrite at_lookup, lookup_app_r by lia. unfold new_answer.
  replace (length (delta_olds pks d) + c - length (delta_olds pks d))%nat with c by lia.
  destruct (lookup_lt_is_Some_2 (delta_news pks d) c ltac:(lia)) as [v Hv]. rewrite Hv. destruct d; reflexivity.
Qed.

(** ** Sections *)

Definition changes_of (sec : list Z * list Z * list delta) : list item :=
  let '(pks, zName, ds) := sec in (fun d => (pks, zName, d)) <$> ds.

Definition enc_changes (sec : list Z * list Z * list delta) : list Z :=
  let '(pks, zName, ds) := sec in enc_table pks zName ds.

Definition section_ok (sec : list Z * list Z * list delta) : Prop :=
  let '(pks, zName, ds) := sec in table_ok pks zName /\ Forall (delta_ok pks) ds.

Lemma deltas_stream pks zName ds bs items : Forall (delta_ok pks) ds -> stream (Some (pks, zName)) bs items ->
  stream (Some (pks, zName)) (concat (enc_delta pks <$> ds) ++ bs) (((fun d => (pks, zName, d)) <$> ds) ++ items).
Proof.
  intros Hds Hst. induction Hds as [|d ds Hd Hds IH]; cbn; [exact Hst|].
  rewrite <- app_assoc. constructor; auto.
Qed.

Lemma sections_stream cur secs : Forall section_ok secs ->
  stream cur (concat (enc_changes <$> secs)) (concat (changes_of <$> secs)).
Proof.
  intros H. revert cur. induction H as [|[[pks z] ds] secs [Ht Hd] Hs IH]; intros cur; cbn; [constructor|].
  destruct ds as [|d ds]; cbn [enc_table changes_of fmap list_fmap app]; [apply IH|].
  apply Forall_cons in Hd as [Hd Hds]. cbn [fmap list_fmap concat]. rewrite <- !app_assoc.
  constructor; auto. apply deltas_stream; auto.
Qed.

Lemma start_stream bs secs : bs = concat (enc_changes <$> secs) -> Forall section_ok secs ->
  exists p, sqlite3changeset_start true bs = (SQLITE_OK, Some p) /\ at_stream p (concat (changes_of <$> secs)).
Proof.
  intros -> H. eexists. split; [reflexivity|]. exists None, [], (concat (enc_changes <$> secs)). split_and!; auto.
  - split; cbn; auto; [split_and!; reflexivity|]. unfold SESSION_MAX_BUFFER_SZ. lia.
  - apply sections_stream, H.
  - left. auto.
Qed.

Lemma finalize_stream p items : at_stream p items -> sqlite3changeset_finalize (Some p) = Some SQLITE_OK.
Proof.
  intros (cur & pre & bs & Hp & _ & Hs & _). cbn. destruct (clear_values_spec p Hs) as (p' & -> & _).
  cbn. rewrite (ia_rc _ _ _ Hp). reflexivity.
Qed.
