(* ===== verification/IteratorCorrect.v ===== *)
(** * Correctness of the changeset iterator

    The theorems on [sqlite3changeset_next] and its accessors, and two faults
    of the header reader. *)
From stdpp Require Import gmap strings.
From S2P Require Import Prelude Bits Varint Value Record Strings Buffer Session Recorder Tracking SelectSql Changeset Iterator IteratorSpec Scenario.

Local Open Scope Z_scope.

(** Everything the accessors say about the current change. *)
Definition api_view (p : changeset_iter) :=
  (sqlite3changeset_op p, sqlite3changeset_pk p,
   sqlite3changeset_old p <$> seqZ 0 (it_nCol p), sqlite3changeset_new p <$> seqZ 0 (it_nCol p)).

Definition item_view (it : item) :=
  let '(pks, zName, d) := it in
  ((Some zName, Zlen pks, delta_op d, delta_flag d), (Some pks, Zlen pks),
   old_answer pks d <$> seq 0 (length pks), new_answer pks d <$> seq 0 (length pks)).

(** A client that reads a changeset to its end and finalises the iterator. *)
Fixpoint walk (fuel : nat) (e : IterEnv) (p : changeset_iter) :=
  match fuel with
  | O => None
  | S fuel =>
      '(p, rc) ← sqlite3changeset_next e p;
      if rc =? SQLITE_ROW then '(vs, rc) ← walk fuel e p; Some (api_view p :: vs, rc)
      else rc ← sqlite3changeset_finalize (Some p); Some ([], rc)
  end.

Lemma api_view_shows p pks zName d pre rest : shows p pks zName d pre rest -> delta_ok pks d ->
  api_view p = item_view (pks, zName, d).
Proof.
  intros Hs Hd. unfold api_view, item_view, sqlite3changeset_op, sqlite3changeset_pk.
  pose proof (sh_table _ _ _ _ _ _ Hs) as Ht.
  rewrite (tb_zTab _ _ _ _ Ht), (tb_abPK _ _ _ _ Ht), (tb_nCol _ _ _ _ Ht), (sh_op _ _ _ _ _ _ Hs), (sh_ind _ _ _ _ _ _ Hs).
  unfold seqZ. rewrite Zlen_to_nat. f_equal; [f_equal|]; rewrite <- list_fmap_compose; apply list_fmap_ext;
    intros i c Hc%lookup_seq; cbn; rewrite Z.add_0_r;
    [eapply changeset_old_shows|eapply changeset_new_shows]; eauto; lia.
Qed.

Lemma item_ok cur bs pks zName d items : stream cur bs ((pks, zName, d) :: items) -> delta_ok pks d.
Proof. inversion 1; auto. Qed.

Lemma walk_stream e p items : iter_ample e -> at_stream p items ->
  walk (S (length items)) e p = Some (item_view <$> items, SQLITE_OK).
Proof.
  intros He. revert p. induction items as [|it items IH]; intros p Hp.
  - destruct (next_stream_end e p Hp) as (p' & E & Hp'). cbn [walk length]. rewrite E. cbn [mbind option_bind].
    change (SQLITE_DONE =? SQLITE_ROW) with false. cbv iota. rewrite (finalize_stream _ _ Hp'). reflexivity.
  - destruct (next_stream e p it items Hp) as (p' & rc & E & [[-> Hit]|[_ Ha]]); [|contradiction].
    destruct it as [[pks z] d]. destruct Hit as [(pre & rest & Hs) Hst].
    destruct Hp as (cur & pre0 & bs & _ & Hstr & _). apply item_ok in Hstr.
    cbn [length]. remember (S (length items)) as n eqn:En. cbn [walk]. rewrite E. cbn [mbind option_bind]. rewrite Z.eqb_refl.
    rewrite IH by exact Hst. cbn [mbind option_bind]. rewrite fmap_cons, (api_view_shows _ _ _ _ _ _ Hs Hstr). reflexivity.
Qed.

(** Reading an encoded changeset with [sqlite3changeset_start] and
    [sqlite3changeset_next] delivers every change exactly once, in order, with
    its table name, key flags, operation, indirect flag and the old and new
    fields, then ends and finalises without error. *)
Theorem iterator_reads_back e secs : Forall section_ok secs -> iter_ample e ->
  exists p, sqlite3changeset_start true (concat (enc_changes <$> secs)) = (SQLITE_OK, Some p) /\
    walk (S (length (concat (changes_of <$> secs)))) e p
    = Some (item_view <$> concat (changes_of <$> secs), SQLITE_OK).
Proof.
  intros Hs He. destruct (start_stream _ secs eq_refl Hs) as (p & E & Hp). exists p.
  split; [exact E|]. apply walk_stream; auto.
Qed.

Definition demo_iter : IterEnv := mkIterEnv (fun _ => true) (fun _ => true) (fun _ => true).

Definition demo_secs : list (list Z * list Z * list delta) :=
  [(demo_pks, demo_t,
    [DInsert 0 (demo_row 1 "a"); DUpdate 0 (demo_row 3 "x") (demo_row 3 "y"); DDelete 1 (demo_row 4 "z")]);
   (demo_pks, str "u", []); (demo_pks, str "w", [DDelete 0 (demo_row 9 "q")])].

Lemma demo_table_ok zName : cstring zName -> Zlen zName < 2 ^ 30 -> table_ok demo_pks zName.
Proof. intros. split; auto; [vm_compute; intuition discriminate|repeat constructor; vm_compute; intuition discriminate]. Qed.

Lemma demo_secs_ok : Forall section_ok demo_secs.
Proof.
  unfold demo_secs.
  repeat (apply Forall_cons; split; [split; [apply demo_table_ok; [repeat constructor; vm_compute; intuition discriminate|vm_compute; reflexivity]|
    repeat (apply Forall_cons; split; [split; [vm_compute; intuition discriminate|]|]); try apply Forall_nil; auto]|]);
    try apply Forall_nil; auto; cbn; repeat split; evaluate.
Qed.

Lemma iterator_reads_back_witness :
  exists p, sqlite3changeset_start true (concat (enc_changes <$> demo_secs)) = (SQLITE_OK, Some p) /\
    walk (S (length (concat (changes_of <$> demo_secs)))) demo_iter p
    = Some (item_view <$> concat (changes_of <$> demo_secs), SQLITE_OK).
Proof. apply (iterator_reads_back demo_iter demo_secs); [exact demo_secs_ok|]. split_and!; reflexivity. Defined.

(** ** Malformed input *)

Lemma nonzero_run_all l : Forall (fun c => c <> 0) l -> nonzero_run l = Zlen l.
Proof.
  induction 1 as [|c l Hc Hl IH]; [reflexivity|]. cbn [nonzero_run]. unfold truth.
  destruct (Z.eqb_spec c 0); [contradiction|]. cbn [negb]. rewrite IH, Zlen_cons. reflexivity.
Qed.

(** The search for the end of a table name never ends on an in-memory
    changeset that stops inside the name: no number of rounds is enough. *)
Theorem header_scan_diverges fuel realloc i nRead :
  in_xInput i = None -> 0 <= in_iNext i -> 0 <= nRead ->
  Forall (fun c => c <> 0) (drop (Z.to_nat (in_iNext i + nRead)) (in_aData i)) ->
  bufferTblhdr_loop fuel realloc i nRead = None.
Proof.
  intros Hx Hn. revert nRead. induction fuel as [|fuel IH]; intros nRead Hr Hf; cbn [bufferTblhdr_loop]; [reflexivity|].
  rewrite nonzero_run_all by exact Hf. unfold in_nData, Zlen. rewrite length_drop.
  rewrite (proj2 (Z.ltb_ge _ _)) by lia. unfold sessionInputBuffer. rewrite Hx. cbn [mbind option_bind].
  rewrite Z.eqb_refl. apply IH; [lia|]. rewrite drop_ge by lia. constructor.
Qed.

(** The three-column header of a table [t] whose name lacks its terminator. *)
Definition unterminated : list Z := [84; 3; 1; 0; 0; 116].

Lemma header_scan_diverges_witness :
  bufferTblhdr_loop 1000 (fun _ => true) (mkInput false 0 1 unterminated empty_buffer None true) 4 = None.
Proof.
  apply (header_scan_diverges 1000 (fun _ => true) (mkInput false 0 1 unterminated empty_buffer None true) 4);
    [reflexivity|discriminate|discriminate|]. vm_compute. repeat constructor; discriminate.
Defined.

(** A changeset with a narrow and a wide table, for an engine that cannot
    allocate more than 256 bytes. *)
Definition wide_row : list sqlite3_value := VInt 1 :: replicate 29 VNull.
Definition wide_pks : list Z := 1 :: replicate 29 0.
Definition wide_changeset : list Z :=
  enc_table demo_pks demo_t [DDelete 0 (demo_row 1 "a")] ++ enc_table wide_pks (str "w") [DDelete 0 wide_row].
Definition tight_iter : IterEnv := mkIterEnv (fun n => n <=? 256) (fun _ => true) (fun _ => true).

(** When the memory for the header of a wider table cannot be allocated,
    [sqlite3changeset_next] returns SQLITE_NOMEM and leaves the new column count
    with the old buffer, so that [sqlite3changeset_finalize] reads value
    pointers outside it. *)
Theorem finalize_after_nomem_faults :
  exists p, sqlite3changeset_start true wide_changeset = (SQLITE_OK, Some p) /\
    ('(p, rc1) ← sqlite3changeset_next tight_iter p;
     '(p, rc2) ← sqlite3changeset_next tight_iter p;
     Some (rc1, rc2, sqlite3changeset_finalize (Some p))) = Some (SQLITE_ROW, SQLITE_NOMEM, None).
Proof. eexists. split; [reflexivity|]. vm_compute. reflexivity. Qed.
