(* ===== verification/Invert.v ===== *)
(** * Inverting changesets ([sqlite3changeset_invert])

    The loop that rewrites a changeset into the one that undoes it, the
    reference inverse of a list of changes, and the proof that they agree. *)
From stdpp Require Import gmap strings.
From S2P Require Import Prelude Bits Varint Value Record Strings Buffer Session Recorder Tracking SelectSql Changeset Iterator IteratorSpec IteratorCorrect.

Local Open Scope Z_scope.

(** ** The code *)

(** Allocations: those of reading, and whether [sqlite3_value_text] runs out of
    memory when the output has a given size. *)
Record InvertEnv := mkInvertEnv {
  ive_iter : IterEnv;
  ive_utf8_oom : Z -> bool
}.

(** The local variables of [sessionChangesetInvert]; [iv_apVal] says whether
    [apVal] is allocated, [abPK] is the contents of [iv_sPK]. *)
Record Invert := mkInvert {
  iv_in : SessionInput;
  iv_nCol : Z;
  iv_sPK : SessionBuffer;
  iv_apVal : bool;
  iv_sOut : SessionBuffer
}.

(** The case ['T']. *)
Definition invert_table (e : IterEnv) (s : Invert) (eType : Z) : option (Invert * Z) :=
  let i := set_iNext (iv_in s) (in_iNext (iv_in s) + 1) in
  '(i, nByte, rc) ← sessionChangesetBufferTblhdr (ie_realloc e) i;
  if negb (rc =? SQLITE_OK) then
    Some (mkInvert i (iv_nCol s) (iv_sPK s) (iv_apVal s) (iv_sOut s), rc)
  else
    a ← in_at i (in_iNext i);
    '(nCol, nVar) ← sessionVarintGet a;
    '(sPK, rc) ← sessionAppendBlob (ie_realloc e) (mkBuffer [] (nAlloc (iv_sPK s)))
                   (in_at i (in_iNext i + nVar)) nCol rc;
    '(sOut, rc) ← sessionAppendByte (ie_realloc e) (iv_sOut s) eType rc;
    '(sOut, rc) ← sessionAppendBlob (ie_realloc e) sOut (in_at i (in_iNext i)) nByte rc;
    if negb (rc =? SQLITE_OK) then Some (mkInvert i nCol sPK (iv_apVal s) sOut, rc)
    else Some (mkInvert (set_iNext i (in_iNext i + nByte)) nCol sPK false sOut, rc).

(** The cases [SQLITE_INSERT] and [SQLITE_DELETE]. *)
Definition invert_row (e : IterEnv) (s : Invert) (eType : Z) : option (Invert * Z) :=
  bIndirect ← at_ (in_aData (iv_in s)) (in_iNext (iv_in s) + 1);
  let eType2 := if eType =? SQLITE_DELETE then SQLITE_INSERT else SQLITE_DELETE in
  let i := set_iNext (iv_in s) (in_iNext (iv_in s) + 2) in
  '(i, nByte, rc) ← sessionChangesetBufferRecord (ie_realloc e) i (iv_nCol s);
  '(sOut, rc) ← sessionAppendByte (ie_realloc e) (iv_sOut s) eType2 rc;
  '(sOut, rc) ← sessionAppendByte (ie_realloc e) sOut bIndirect rc;
  '(sOut, rc) ← sessionAppendBlob (ie_realloc e) sOut (in_at i (in_iNext i)) nByte rc;
  Some (mkInvert (set_iNext i (in_iNext i + nByte)) (iv_nCol s) (iv_sPK s) (iv_apVal s) sOut, rc).

(** The loops over [iCol] that write a record; [pick] is the expression that
    chooses [pVal]. *)
Fixpoint append_values (e : InvertEnv) (pick : Z -> option (option sqlite3_value)) (n : nat) (iCol : Z)
    (sOut : SessionBuffer) (rc : Z) : option (SessionBuffer * Z) :=
  match n with
  | O => Some (sOut, rc)
  | S n =>
      pVal ← pick iCol;
      '(sOut, rc) ← sessionAppendValue (ie_realloc (ive_iter e)) sOut pVal (ive_utf8_oom e (nBuf sOut)) rc;
      append_values e pick n (iCol + 1) sOut rc
  end.

(** [apVal[iCol + (abPK[iCol] ? 0 : nCol)]] *)
Definition pick_old (abPK : list Z) (apVal : list (option sqlite3_value)) (nCol iCol : Z)
    : option (option sqlite3_value) :=
  pk ← at_ abPK iCol; at_ apVal (iCol + (if truth pk then 0 else nCol)).

(** [abPK[iCol] ? 0 : apVal[iCol]] *)
Definition pick_new (abPK : list Z) (apVal : list (option sqlite3_value)) (iCol : Z)
    : option (option sqlite3_value) :=
  pk ← at_ abPK iCol; if truth pk then Some None else at_ apVal iCol.

(** The case [SQLITE_UPDATE]; the result of reading the old.* record replaces
    the result of the two [sessionAppendByte]. *)
Definition invert_update (e : InvertEnv) (s : Invert) (eType : Z) : option (Invert * Z) :=
  let realloc := ie_realloc (ive_iter e) in
  let i := iv_in s in
  let nCol := iv_nCol s in
  if negb (iv_apVal s) && ((nCol =? 0) || negb (ie_malloc (ive_iter e) (in_iNext i)))
  then Some (s, SQLITE_NOMEM)
  else
    '(sOut, rc) ← sessionAppendByte realloc (iv_sOut s) eType SQLITE_OK;
    bIndirect ← at_ (in_aData i) (in_iNext i + 1);
    '(sOut, rc) ← sessionAppendByte realloc sOut bIndirect rc;
    let i := set_iNext i (in_iNext i + 2) in
    '(i, olds, _, rc) ← sessionReadRecord (ive_iter e) i nCol None;
    '(i, news, rc) ←
      (if rc =? SQLITE_OK then
         '(i, news, _, rc) ← sessionReadRecord (ive_iter e) i nCol None; Some (i, news, rc)
       else Some (i, replicate (Z.to_nat nCol) None, rc));
    let apVal := olds ++ news in
    let abPK := aBuf (iv_sPK s) in
    '(sOut, rc) ← append_values e (pick_old abPK apVal nCol) (Z.to_nat nCol) 0 sOut rc;
    '(sOut, rc) ← append_values e (pick_new abPK apVal) (Z.to_nat nCol) 0 sOut rc;
    Some (mkInvert i nCol (iv_sPK s) true sOut, rc).

(** The switch on the type of the next entry. *)
Definition invert_entry (e : InvertEnv) (s : Invert) (eType : Z) : option (Invert * Z) :=
  if eType =? 84 then invert_table (ive_iter e) s eType
  else if (eType =? SQLITE_INSERT) || (eType =? SQLITE_DELETE) then invert_row (ive_iter e) s eType
  else if eType =? SQLITE_UPDATE then invert_update e s eType
  else Some (s, SQLITE_CORRUPT).

(** A full chunk is handed to [xOutput]. *)
Definition invert_flush (s : Invert) (out : Output) : Invert * Output * Z :=
  match o_xOutput out with
  | Some xOutput =>
      if o_chunk out <=? nBuf (iv_sOut s)
      then (mkInvert (iv_in s) (iv_nCol s) (iv_sPK s) (iv_apVal s) (rewind (iv_sOut s) 0),
            mkOutput (Some xOutput) (o_chunk out) (o_sent out ++ [aBuf (iv_sOut s)]),
            xOutput (aBuf (iv_sOut s)))
      else (s, out, SQLITE_OK)
  | None => (s, out, SQLITE_OK)
  end.

(** The loop, for at most [fuel] rounds. *)
Fixpoint invert_loop (fuel : nat) (e : InvertEnv) (s : Invert) (out : Output)
    : option (Invert * Output * Z) :=
  match fuel with
  | O => None
  | S fuel =>
      '(i, rc) ← sessionInputBuffer (ie_realloc (ive_iter e)) (iv_in s) 2;
      let s := mkInvert i (iv_nCol s) (iv_sPK s) (iv_apVal s) (iv_sOut s) in
      if negb (rc =? SQLITE_OK) then Some (s, out, rc)
      else if in_nData i <=? in_iNext i then Some (s, out, SQLITE_OK)
      else
        eType ← at_ (in_aData i) (in_iNext i);
        '(s, rc) ← invert_entry e s eType;
        if negb (rc =? SQLITE_OK) then Some (s, out, rc)
        else
          let '(s, out, rc) := invert_flush s out in
          if negb (rc =? SQLITE_OK) then Some (s, out, rc) else invert_loop fuel e s out
  end.

(** The result code, the inverse in [*ppInverted] (empty on error and for a
    stream) and the output. *)
Definition sessionChangesetInvert (fuel : nat) (e : InvertEnv) (i : SessionInput) (out : Output)
    : option (Z * list Z * Output) :=
  '(s, out, rc) ← invert_loop fuel e (mkInvert i 0 empty_buffer false empty_buffer) out;
  if negb (rc =? SQLITE_OK) then Some (rc, [], out)
  else
    match o_xOutput out with
    | None => Some (rc, aBuf (iv_sOut s), out)
    | Some xOutput =>
        if 0 <? nBuf (iv_sOut s)
        then Some (xOutput (aBuf (iv_sOut s)), [],
                   mkOutput (Some xOutput) (o_chunk out) (o_sent out ++ [aBuf (iv_sOut s)]))
        else Some (rc, [], out)
    end.

Definition sqlite3changeset_invert (fuel : nat) (e : InvertEnv) (pChangeset : list Z) : option (Z * list Z) :=
  '(rc, pInverted, _) ←
    sessionChangesetInvert fuel e (mkInput false 0 0 pChangeset empty_buffer None false) (mkOutput None 0 []);
  Some (rc, pInverted).

(** The result code and the chunks given to [xOutput]. *)
Definition sqlite3changeset_invert_strm (fuel : nat) (e : InvertEnv) (xInput : list (Z * list Z))
    (xOutput : list Z -> Z) : option (Z * list (list Z)) :=
  '(rc, _, out) ←
    sessionChangesetInvert fuel e (mkInput false 0 0 [] empty_buffer (Some xInput) false)
      (mkOutput (Some xOutput) sessions_strm_chunk_size []);
  Some (rc, o_sent out).

(** ** The inverse of a list of changes *)

Definition invert_delta (d : delta) : delta :=
  match d with
  | DInsert ind r => DDelete ind r
  | DDelete ind r => DInsert ind r
  | DUpdate ind old new => DUpdate ind new old
  end.

Definition invert_section (sec : list Z * list Z * list delta) : list Z * list Z * list delta :=
  let '(pks, zName, ds) := sec in (pks, zName, invert_delta <$> ds).

(** An UPDATE does not change the key. *)
Definition keeps_key (pks : list Z) (d : delta) : Prop :=
  match d with DUpdate _ old new => pk_part pks old = pk_part pks new | _ => True end.

Definition section_keeps (sec : list Z * list Z * list delta) : Prop :=
  let '(pks, _, ds) := sec in Forall (keeps_key pks) ds.

Lemma invert_delta_twice d : invert_delta (invert_delta d) = d.
Proof. destruct d; reflexivity. Qed.

Lemma fmap_twice {A} (f : A -> A) (l : list A) : (forall x, f (f x) = x) -> f <$> (f <$> l) = l.
Proof. intros H. induction l as [|x l IH]; cbn; [reflexivity|]. rewrite H. f_equal. exact IH. Qed.

Lemma invert_section_twice sec : invert_section (invert_section sec) = sec.
Proof. destruct sec as [[pks z] ds]. cbn. rewrite (fmap_twice _ _ invert_delta_twice). reflexivity. Qed.

Lemma invert_delta_ok pks d : delta_ok pks d -> delta_ok pks (invert_delta d).
Proof. destruct d; cbn; intros [Hf H]; split; tauto. Qed.

Lemma invert_keeps pks d : keeps_key pks d -> keeps_key pks (invert_delta d).
Proof. destruct d; cbn; auto. Qed.

Lemma invert_section_ok secs : Forall section_ok secs -> Forall section_keeps secs ->
  Forall section_ok (invert_section <$> secs) /\ Forall section_keeps (invert_section <$> secs).
Proof.
  intros H1 H2. split; apply Forall_fmap.
  - eapply Forall_impl; [exact H1|]. intros [[pks z] ds] [Ht Hd]. split; [exact Ht|].
    apply Forall_fmap. eapply Forall_impl; [exact Hd|]. apply invert_delta_ok.
  - eapply Forall_impl; [exact H2|]. intros [[pks z] ds] Hd. cbn in *.
    apply Forall_fmap. eapply Forall_impl; [exact Hd|]. apply invert_keeps.
Qed.

(** ** The records of an inverted UPDATE *)

Fixpoint mix (pks : list Z) (olds news : list (option sqlite3_value)) : list (option sqlite3_value) :=
  match pks, olds, news with
  | pk :: pks, o :: olds, n :: news => (if truth pk then o else n) :: mix pks olds news
  | _, _, _ => []
  end.

Fixpoint blank (pks : list Z) (olds : list (option sqlite3_value)) : list (option sqlite3_value) :=
  match pks, olds with
  | pk :: pks, o :: olds => (if truth pk then None else o) :: blank pks olds
  | _, _ => []
  end.

Lemma upd_flip pks old new : length old = length pks -> length new = length pks ->
  pk_part pks old = pk_part pks new ->
  mix pks (upd_old pks old new) (upd_new old new) = upd_old pks new old /\
  blank pks (upd_old pks old new) = upd_new new old /\
  Zlen (enc_fields (upd_old pks new old)) + Zlen (enc_fields (upd_new new old))
  = Zlen (enc_fields (upd_old pks old new)) + Zlen (enc_fields (upd_new old new)).
Proof.
  revert old new. induction pks as [|pk pks IH]; intros [|o old] [|n new]; try discriminate; [auto|].
  cbn [length upd_old upd_new mix blank pk_part]. intros [= L1] [= L2] Hk.
  destruct (truth pk).
  - injection Hk as <- Hk. destruct (IH old new L1 L2 Hk) as (-> & -> & E).
    rewrite bool_decide_true by reflexivity. cbn [negb orb]. rewrite !enc_fields_cons, !Zlen_app.
    split_and!; [reflexivity..|lia].
  - destruct (IH old new L1 L2 Hk) as (-> & -> & E).
    assert (bool_decide (n = o) = bool_decide (o = n)) as -> by (apply bool_decide_ext; split; congruence).
    rewrite !orb_false_r, !enc_fields_cons, !Zlen_app. split_and!; [reflexivity..|]. destruct (negb _); lia.
Qed.

Lemma enc_invert_len pks d : delta_ok pks d -> keeps_key pks d ->
  Zlen (enc_delta pks (invert_delta d)) = Zlen (enc_delta pks d).
Proof.
  intros [_ Hd] Hk. destruct d; cbn [invert_delta enc_delta]; rewrite !Zlen_app; [reflexivity..|].
  destruct Hd as [[L1 _] [L2 _]]. destruct (upd_flip pks old new L1 L2 Hk) as (_ & _ & E). unfold Zlen in *. cbn in *. lia.
Qed.

Lemma mix_lookup pks olds news j f : length olds = length pks -> length news = length pks ->
  mix pks olds news !! j = Some f -> pick_old pks (olds ++ news) (Zlen pks) (Z.of_nat j) = Some f.
Proof.
  intros L1 L2 Hj. unfold pick_old. rewrite at_lookup.
  assert (exists pk, pks !! j = Some pk /\ (if truth pk then olds else news) !! j = Some f) as (pk & -> & Hf).
  { revert olds news j L1 L2 Hj. induction pks as [|pk pks IH]; intros [|o olds] [|n news] [|j]; try discriminate; cbn.
    - intros _ _ [= <-]. exists pk. destruct (truth pk); auto.
    - intros [= L1] [= L2] Hj. destruct (IH _ _ _ L1 L2 Hj) as (pk' & E & H). exists pk'. destruct (truth pk'); auto. }
  cbn [mbind option_bind]. destruct (truth pk).
  - rewrite Z.add_0_r, at_lookup. apply lookup_app_l_Some, Hf.
  - unfold Zlen. rewrite <- Nat2Z.inj_add, at_lookup, lookup_app_r by lia. rewrite <- Hf. f_equal. lia.
Qed.

Lemma blank_lookup pks olds news j f : length olds = length pks ->
  blank pks olds !! j = Some f -> pick_new pks (olds ++ news) (Z.of_nat j) = Some f.
Proof.
  intros L1 Hj. unfold pick_new. rewrite !at_lookup.
  assert (exists pk o, pks !! j = Some pk /\ olds !! j = Some o /\ f = if truth pk then None else o) as (pk & o & -> & Ho & ->).
  { revert olds j L1 Hj. induction pks as [|pk pks IH]; intros [|o olds] [|j]; try discriminate; cbn.
    - intros _ [= <-]. eauto.
    - intros [= L1] Hj. eauto. }
  cbn [mbind option_bind]. destruct (truth pk); [reflexivity|]. apply lookup_app_l_Some, Ho.
Qed.

(** ** Reading *)

Definition invert_ample (e : InvertEnv) : Prop :=
  iter_ample (ive_iter e) /\ forall n, ive_utf8_oom e n = false.

(** The text or blob [z] with its type byte, after [done]. *)
Lemma text_size i pre done t z rest : bytes_ok z /\ Zlen z <= SQLITE_MAX_LENGTH -> bytes_ok rest ->
  positioned i pre (done ++ (t :: varint (Zlen z) ++ z) ++ rest) ->
  exists a, in_at i (in_iNext i + (Zlen done + 1)) = Some a /\
    sessionVarintGet a = Some (Zlen z, Zlen (varint (Zlen z))).
Proof.
  intros Hz Hr Hi. pose proof (positioned_next i pre done _ _ Hi eq_refl) as H1.
  pose proof (positioned_at _ _ _ (positioned_step _ _ _ _ H1)) as H2. exists ((varint (Zlen z) ++ z) ++ rest).
  rewrite Z.add_assoc. split; [exact H2|]. apply (text_get z rest Hz Hr).
Qed.

(** [sessionChangesetBufferRecord] measures an encoded record. *)
Lemma bufferRecord_loop_enc realloc fs i pre done rest : fields_ok fs -> bytes_ok rest ->
  positioned i pre (done ++ enc_fields fs ++ rest) -> Zlen done + Zlen (enc_fields fs) < 2 ^ 31 ->
  bufferRecord_loop realloc (length fs) i (Zlen done) = Some (i, Zlen done + Zlen (enc_fields fs), SQLITE_OK).
Proof.
  revert done. induction fs as [|f fs IH]; intros done Hfs Hr Hi Hlen; cbn [length bufferRecord_loop].
  { change (Zlen (enc_fields [])) with 0. rewrite Z.add_0_r. reflexivity. }
  apply fields_ok_cons in Hfs as [Hf Hfs]. rewrite enc_fields_cons in Hi, Hlen |- *. rewrite Zlen_app in Hlen |- *. rewrite <- app_assoc in Hi.
  pose proof (Zlen_nonneg done). pose proof (Zlen_nonneg (enc_fields fs)).
  assert (positioned i pre ((done ++ enc_field f) ++ enc_fields fs ++ rest)) as Hn by (rewrite <- app_assoc; exact Hi).
  specialize (IH (done ++ enc_field f) Hfs Hr Hn). rewrite Zlen_app in IH. specialize (IH ltac:(lia)).
  rewrite Z.add_assoc, <- IH. clear IH Hn.
  rewrite (inputBuffer_memory _ _ _ _ _ Hi). cbn [mbind option_bind]. change (negb (SQLITE_OK =? SQLITE_OK)) with false. cbv iota.
  pose proof (positioned_next i pre done _ _ Hi eq_refl) as H1.
  destruct (enc_field_head f) as (t & r & Ef & Et). rewrite Ef in H1. cbn [app] in H1.
  rewrite (positioned_byte _ _ _ _ H1 : at_ (in_aData i) (in_iNext i + Zlen done) = Some t). cbn [mbind option_bind].
  assert (bytes_ok (enc_fields fs ++ rest)) as Hr' by auto with noria.
  remember f as g eqn:Eg in Hf, Et, Hi |- *. destruct g as [[|x|x|z|z]|]; cbn [field_ok value_ok] in Hf; rewrite Et in *; clear Et Ef H1;
    cbn [sqlite3_value_type]; cbn [Z.eqb Pos.eqb orb SQLITE_TEXT SQLITE_BLOB SQLITE_INTEGER SQLITE_FLOAT SQLITE_NULL];
    [rewrite <- ?Z.add_assoc; reflexivity..| | |reflexivity];
    destruct (text_size _ _ _ _ _ _ Hf Hr' Hi) as (a & -> & Ea); cbn [mbind option_bind]; rewrite Ea; cbn [mbind option_bind];
    pose proof (Zlen_nonneg z); pose proof (Zlen_nonneg (varint (Zlen z)));
    subst f; match goal with |- _ = bufferRecord_loop _ _ _ (_ + ?n) =>
      assert (n = 1 + Zlen (varint (Zlen z)) + Zlen z) as El by (cbn; rewrite Zlen_cons, Zlen_app; lia) end;
    rewrite El in Hlen |- *; (rewrite int_ok_id by (unfold is_i32; lia));
    cbn [mbind option_bind]; rewrite (inputBuffer_memory _ _ _ _ _ Hi); cbn [mbind option_bind]; rewrite Z.eqb_refl;
    f_equal; lia.
Qed.

(** ** Writing *)

Lemma appends_done realloc p bs r : appends realloc p SQLITE_OK bs r -> (forall n, realloc n = true) ->
  nBuf p + Zlen bs + 16 <= SESSION_MAX_BUFFER_SZ ->
  exists p', r = Some (p', SQLITE_OK) /\ buffer_ok p' /\ aBuf p' = aBuf p ++ bs.
Proof.
  intros (p' & rc & -> & Hp & _ & Hok & Hs) Ha Hf. assert (rc = SQLITE_OK) as -> by (apply Hs; auto).
  exists p'. split_and!; auto. apply Hok. reflexivity.
Qed.

Lemma append_values_spec e pick fs col p rc : (forall n, ive_utf8_oom e n = false) -> fields_ok fs ->
  (forall j f, fs !! j = Some f -> pick (col + Z.of_nat j) = Some f) -> buffer_ok p ->
  appends (ie_realloc (ive_iter e)) p rc (enc_fields fs) (append_values e pick (length fs) col p rc).
Proof.
  intros Ho Hfs. revert col p rc. induction Hfs as [|f fs Hf Hfs IH]; intros col p rc Hpick Hp; cbn [length append_values].
  { apply appends_ret, Hp. }
  assert (pick col = Some f) as -> by (rewrite <- (Hpick 0%nat f eq_refl); f_equal; lia). cbn [mbind option_bind].
  rewrite Ho, enc_fields_cons. apply appends_bind; [apply appendValue_spec; auto|].
  intros p' rc' Hp'. apply IH; [|exact Hp']. intros j g Hj. rewrite <- (Hpick (S j) g Hj). f_equal. lia.
Qed.

(** The loop has read [pre], has [rest] before it and has written [done]; [cur]
    are the key flags of the current table. *)
Record inverting (s : Invert) (cur : option (list Z)) (pre rest done : list Z) : Prop := {
  ig_pos : positioned (iv_in s) pre rest;
  ig_out : buffer_ok (iv_sOut s);
  ig_done : aBuf (iv_sOut s) = done;
  ig_same : Zlen done = Zlen pre;
  ig_fits : Zlen pre + Zlen rest + 16 <= SESSION_MAX_BUFFER_SZ;
  ig_pk : 0 <= nAlloc (iv_sPK s) <= SESSION_MAX_BUFFER_SZ;
  ig_table : match cur with
             | Some pks => iv_nCol s = Zlen pks /\ aBuf (iv_sPK s) = pks /\ 0 < Zlen pks
             | None => True
             end
}.

(** One append of the loop succeeds. *)
Ltac append H :=
  let p := fresh "p" in let Hp := fresh "Hp" in let Ep := fresh "Ep" in
  destruct (appends_done _ _ _ _ H) as (p & -> & Hp & Ep);
  [assumption|unfold nBuf in *; repeat match goal with E : aBuf _ = _ |- _ => rewrite E in * end; zlia|];
  cbn [mbind option_bind].

Lemma invert_table_enc e s cur pks zName pre rest done : invert_ample e -> table_ok pks zName -> bytes_ok rest ->
  inverting s cur pre (enc_header pks zName ++ rest) done ->
  exists s', invert_entry e s 84 = Some (s', SQLITE_OK) /\
    inverting s' (Some pks) (pre ++ enc_header pks zName) rest (done ++ enc_header pks zName).
Proof.
  intros [(Hre & _) _] Ht Hr [Hi Ho Hd Hs Hf Hpk _]. change (invert_entry e s 84) with (invert_table (ive_iter e) s 84).
  change (enc_header pks zName) with (84 :: header_tail pks zName) in *. cbn [app] in *.
  pose proof (positioned_step _ _ _ _ Hi) as H1. unfold invert_table. set (i := set_iNext _ _) in *.
  rewrite (bufferTblhdr_enc _ _ _ _ _ _ Ht Hr H1). cbn [mbind option_bind].
  change (negb (SQLITE_OK =? SQLITE_OK)) with false. cbv iota.
  rewrite (positioned_at _ _ _ H1). cbn [mbind option_bind]. rewrite header_get by auto. cbn [mbind option_bind].
  assert (exists r, in_at i (in_iNext i + Zlen (varint (Zlen pks))) = Some (pks ++ r)) as (r & ->).
  { unfold header_tail in H1. rewrite <- !app_assoc in H1.
    pose proof (positioned_at _ _ _ (positioned_next _ _ _ _ _ H1 eq_refl)) as E. eexists. exact E. }
  pose proof (tk_cols _ _ Ht) as Hc. rewrite Zlen_cons, Zlen_app in Hf. pose proof (Zlen_nonneg rest).
  pose proof (Zlen_nonneg pre). assert (Zlen pks <= Zlen (header_tail pks zName)) by (unfold header_tail; zlia).
  assert (SESSION_MAX_BUFFER_SZ < 2 ^ 31) by reflexivity.
  append (appendBlob_spec (ie_realloc (ive_iter e)) (mkBuffer [] (nAlloc (iv_sPK s))) (Some (pks ++ r)) pks r (Zlen pks)
    SQLITE_OK ltac:(split; unfold nBuf; cbn; rewrite ?Zlen_nil; lia) eq_refl ltac:(lia) (or_introl eq_refl)).
  append (appendByte_spec (ie_realloc (ive_iter e)) (iv_sOut s) 84 SQLITE_OK Ho ltac:(unfold is_byte; lia)).
  append (appendBlob_spec (ie_realloc (ive_iter e)) p0 (Some (header_tail pks zName ++ rest)) (header_tail pks zName) rest _
    SQLITE_OK Hp0 eq_refl ltac:(lia) (or_introl eq_refl)).
  change (negb (SQLITE_OK =? SQLITE_OK)) with false. cbv iota. eexists. split; [reflexivity|].
  split; cbn [iv_in iv_sOut iv_sPK iv_nCol]; auto.
  - rewrite (app_assoc pre [84] _ : pre ++ 84 :: _ = _). eapply positioned_next; [exact H1|reflexivity].
  - rewrite Ep1, Ep0, Hd, <- app_assoc. reflexivity.
  - zlia.
  - zlia.
  - pose proof (ok_max _ Hp). pose proof (ok_alloc _ Hp). unfold nBuf in *. pose proof (Zlen_nonneg (aBuf p)). lia.
  - split_and!; [reflexivity|exact Ep|lia].
Qed.

(** The encoded inverse of a change is as long as the change. *)
Lemma inverting_next s s' pks d pre rest done : delta_ok pks d -> keeps_key pks d ->
  inverting s (Some pks) pre (enc_delta pks d ++ rest) done ->
  iv_in s' = set_iNext (iv_in s) (in_iNext (iv_in s) + Zlen (enc_delta pks d)) ->
  iv_nCol s' = iv_nCol s -> iv_sPK s' = iv_sPK s -> buffer_ok (iv_sOut s') ->
  aBuf (iv_sOut s') = aBuf (iv_sOut s) ++ enc_delta pks (invert_delta d) ->
  inverting s' (Some pks) (pre ++ enc_delta pks d) rest (done ++ enc_delta pks (invert_delta d)).
Proof.
  intros Hok Hk [Hi Ho Hd Hs Hf Hpk Ht] Ei En Ep Hb Eo. pose proof (enc_invert_len _ _ Hok Hk) as El.
  split; rewrite ?Ei, ?En, ?Ep; auto.
  - eapply positioned_next; [exact Hi|reflexivity].
  - rewrite Eo, Hd. reflexivity.
  - rewrite !Zlen_app. lia.
  - rewrite Zlen_app in *. lia.
Qed.

(** The operation and the flag of a change. *)
Lemma positioned_two i pre op ind rest : positioned i pre (op :: ind :: rest) ->
  at_ (in_aData i) (in_iNext i + 1) = Some ind /\
  positioned (set_iNext i (in_iNext i + 2)) (pre ++ [op; ind]) rest.
Proof.
  intros Hi. split.
  - exact (positioned_byte _ _ _ _ (positioned_step _ _ _ _ Hi)).
  - exact (positioned_next i pre [op; ind] rest _ Hi eq_refl).
Qed.

(** An INSERT or DELETE: the record is copied under the other operation. *)
Lemma invert_row_enc e s pks op op2 ind row pre rest done : invert_ample e -> row_ok pks row -> is_byte ind -> bytes_ok rest ->
  op = SQLITE_INSERT /\ op2 = SQLITE_DELETE \/ op = SQLITE_DELETE /\ op2 = SQLITE_INSERT ->
  inverting s (Some pks) pre ((op :: ind :: enc_fields (Some <$> row)) ++ rest) done ->
  exists sOut, invert_entry e s op = Some (mkInvert
      (set_iNext (iv_in s) (in_iNext (iv_in s) + Zlen (op :: ind :: enc_fields (Some <$> row))))
      (iv_nCol s) (iv_sPK s) (iv_apVal s) sOut, SQLITE_OK) /\
    buffer_ok sOut /\ aBuf sOut = aBuf (iv_sOut s) ++ op2 :: ind :: enc_fields (Some <$> row).
Proof.
  intros [(Hre & _) _] Hrow Hind Hr Hop [Hi Ho Hd Hs Hf Hpk (Hn & _ & _)].
  assert (invert_entry e s op = invert_row (ive_iter e) s op /\ is_byte op2 /\
    (if op =? SQLITE_DELETE then SQLITE_INSERT else SQLITE_DELETE) = op2) as (-> & Hop2 & E2)
    by (destruct Hop as [[-> ->]|[-> ->]]; repeat split; try reflexivity; vm_compute; discriminate).
  unfold invert_row. rewrite E2. cbn [app] in Hi.
  destruct (positioned_two _ _ _ _ _ Hi) as [-> H2]. cbn [mbind option_bind].
  destruct (row_fields _ _ Hrow) as [Hfs Hl]. set (fs := Some <$> row) in *.
  assert (SESSION_MAX_BUFFER_SZ < 2 ^ 31) by reflexivity. cbn [app] in Hf. rewrite !Zlen_cons, Zlen_app in Hf.
  pose proof (Zlen_nonneg rest). pose proof (Zlen_nonneg pre).
  unfold sessionChangesetBufferRecord. rewrite Hn, Zlen_to_nat, <- Hl.
  rewrite (bufferRecord_loop_enc _ fs _ _ [] rest Hfs Hr H2 ltac:(rewrite Zlen_nil; lia)
    : bufferRecord_loop _ _ _ 0 = _). cbn [mbind option_bind].
  append (appendByte_spec (ie_realloc (ive_iter e)) (iv_sOut s) op2 SQLITE_OK Ho Hop2).
  append (appendByte_spec (ie_realloc (ive_iter e)) p ind SQLITE_OK Hp Hind).
  rewrite (positioned_at _ _ _ H2), Zlen_nil, Z.add_0_l.
  append (appendBlob_spec (ie_realloc (ive_iter e)) p0 (Some (enc_fields fs ++ rest)) (enc_fields fs) rest _
    SQLITE_OK Hp0 eq_refl ltac:(lia) (or_introl eq_refl)).
  exists p1. rewrite set_iNext_twice. cbn [set_iNext in_iNext]. rewrite !Zlen_cons. split_and!; [|exact Hp1|].
  - f_equal. f_equal. f_equal. unfold set_iNext. f_equal. lia.
  - rewrite Ep1, Ep0, Ep, <- !app_assoc. reflexivity.
Qed.

Lemma readRecord_done e fs i nCol pre rest : iter_ample e -> fields_ok fs -> bytes_ok rest ->
  positioned i pre (enc_fields fs ++ rest) -> nCol = Zlen fs ->
  sessionReadRecord e i nCol None
  = Some (set_iNext i (in_iNext i + Zlen (enc_fields fs)), fs, all_absent fs, SQLITE_OK).
Proof.
  intros Ha Hf Hr Hi Hn. destruct (readRecord_enc e fs i nCol pre rest Hf Hr Hi Hn) as (i' & v & b & rc & -> & _ & Hok & Hs).
  rewrite (Hs Ha) in *. destruct (Hok eq_refl) as [-> [= -> ->]]. reflexivity.
Qed.

(** Both records of an UPDATE are read. *)
Lemma read_update e i pks old new pre rest : iter_ample e -> row_ok pks old -> row_ok pks new -> bytes_ok rest ->
  positioned i pre (enc_fields (upd_old pks old new) ++ enc_fields (upd_new old new) ++ rest) ->
  exists i1 b1 b2, sessionReadRecord e i (Zlen pks) None = Some (i1, upd_old pks old new, b1, SQLITE_OK) /\
    sessionReadRecord e i1 (Zlen pks) None
    = Some (set_iNext i (in_iNext i + Zlen (enc_fields (upd_old pks old new) ++ enc_fields (upd_new old new))),
            upd_new old new, b2, SQLITE_OK).
Proof.
  intros Ha Ho Hn Hr Hi. destruct (upd_fields _ _ _ Ho Hn) as (F1 & L1 & F2 & L2).
  pose proof (positioned_next _ _ _ _ _ Hi eq_refl) as H1. eexists _, _, _. split.
  - eapply readRecord_done; [exact Ha|exact F1| |exact Hi|unfold Zlen; rewrite L1; reflexivity]. auto with noria.
  - rewrite (readRecord_done e _ _ _ _ _ Ha F2 Hr H1) by (unfold Zlen; rewrite L2; reflexivity).
    rewrite set_iNext_twice, Zlen_app, Z.add_assoc. reflexivity.
Qed.

Lemma invert_update_enc e s pks ind old new pre rest done : invert_ample e -> row_ok pks old -> row_ok pks new ->
  is_byte ind -> bytes_ok rest -> pk_part pks old = pk_part pks new ->
  inverting s (Some pks) pre (enc_delta pks (DUpdate ind old new) ++ rest) done ->
  exists sOut, invert_entry e s SQLITE_UPDATE = Some (mkInvert
      (set_iNext (iv_in s) (in_iNext (iv_in s) + Zlen (enc_delta pks (DUpdate ind old new))))
      (iv_nCol s) (iv_sPK s) true sOut, SQLITE_OK) /\
    buffer_ok sOut /\ aBuf sOut = aBuf (iv_sOut s) ++ enc_delta pks (DUpdate ind new old).
Proof.
  intros [He Hoom] Hold Hnew Hind Hr Hk [Hi Ho Hd Hs Hf Hpk (Hn & Epk & Hpos)].
  pose proof (proj1 He) as Hre. pose proof (proj1 Hold) as Lo. pose proof (proj1 Hnew) as Ln.
  change (invert_entry e s SQLITE_UPDATE) with (invert_update e s SQLITE_UPDATE). unfold invert_update.
  rewrite (proj2 (proj2 He)), Hn, (proj2 (Z.eqb_neq _ _)) by lia. cbn [negb orb]. rewrite andb_false_r.
  destruct (upd_flip _ _ _ Lo Ln Hk) as (Em & Eb & El). destruct (upd_fields _ _ _ Hold Hnew) as (_ & L1 & _ & L2).
  destruct (upd_fields _ _ _ Hnew Hold) as (F1 & L3 & F2 & L4).
  cbn [enc_delta app] in *. rewrite <- app_assoc in Hi. rewrite !Zlen_cons, !Zlen_app in Hf.
  pose proof (Zlen_nonneg rest). pose proof (Zlen_nonneg pre).
  pose proof (Zlen_nonneg (enc_fields (upd_old pks new old))). pose proof (Zlen_nonneg (enc_fields (upd_new new old))).
  append (appendByte_spec (ie_realloc (ive_iter e)) (iv_sOut s) SQLITE_UPDATE SQLITE_OK Ho ltac:(vm_compute; intuition discriminate)).
  destruct (positioned_two _ _ _ _ _ Hi) as [-> K2]. cbn [mbind option_bind].
  append (appendByte_spec (ie_realloc (ive_iter e)) p ind SQLITE_OK Hp Hind).
  destruct (read_update _ _ _ _ _ _ _ He Hold Hnew Hr K2) as (i1 & b1 & b2 & -> & E2). cbn [mbind option_bind].
  rewrite Z.eqb_refl, E2. cbn [mbind option_bind]. rewrite Zlen_to_nat, Epk.
  pose proof (append_values_spec e (pick_old pks (upd_old pks old new ++ upd_new old new) (Zlen pks)) _ 0 p0 SQLITE_OK Hoom F1
    ltac:(rewrite <- Em; intros j f Hj; apply (mix_lookup pks _ _ j f L1 L2 Hj)) Hp0) as HA. rewrite L3 in HA. append HA.
  pose proof (append_values_spec e (pick_new pks (upd_old pks old new ++ upd_new old new)) _ 0 p1 SQLITE_OK Hoom F2
    ltac:(rewrite <- Eb; intros j f Hj; apply (blank_lookup pks _ _ j f L1 Hj)) Hp1) as HB. rewrite L4 in HB. append HB.
  exists p2. rewrite set_iNext_twice. cbn [set_iNext in_iNext]. rewrite !Zlen_cons. split_and!; [|exact Hp2|].
  - f_equal. f_equal. f_equal. unfold set_iNext. f_equal. lia.
  - rewrite Ep2, Ep1, Ep0, Ep, <- !app_assoc. reflexivity.
Qed.

(** ** The loop *)

Definition in_memory : Output := mkOutput None 0 [].

Lemma invert_round fuel e s s' pre b rest : positioned (iv_in s) pre (b :: rest) ->
  invert_entry e s b = Some (s', SQLITE_OK) ->
  invert_loop (S fuel) e s in_memory = invert_loop fuel e s' in_memory.
Proof.
  intros Hi He. cbn [invert_loop]. rewrite (inputBuffer_memory _ _ _ _ _ Hi). cbn [mbind option_bind].
  change (negb (SQLITE_OK =? SQLITE_OK)) with false. cbv iota.
  rewrite (positioned_more _ _ _ _ Hi), (positioned_byte _ _ _ _ Hi). cbn [mbind option_bind].
  destruct s. cbn [iv_in iv_nCol iv_sPK iv_apVal iv_sOut] in *. rewrite He. reflexivity.
Qed.

Lemma invert_change fuel e s pks d pre rest done : invert_ample e -> delta_ok pks d -> keeps_key pks d -> bytes_ok rest ->
  inverting s (Some pks) pre (enc_delta pks d ++ rest) done ->
  exists s', invert_loop (S fuel) e s in_memory = invert_loop fuel e s' in_memory /\
    inverting s' (Some pks) (pre ++ enc_delta pks d) rest (done ++ enc_delta pks (invert_delta d)).
Proof.
  intros He Hd Hk Hr Hs. pose proof (ig_pos _ _ _ _ _ Hs) as Hi. pose proof Hd as [Hflag Hrow].
  rewrite enc_delta_split in Hi. cbn [app] in Hi.
  assert (exists apVal sOut, invert_entry e s (delta_op d) = Some (mkInvert
      (set_iNext (iv_in s) (in_iNext (iv_in s) + Zlen (enc_delta pks d))) (iv_nCol s) (iv_sPK s) apVal sOut, SQLITE_OK) /\
    buffer_ok sOut /\ aBuf sOut = aBuf (iv_sOut s) ++ enc_delta pks (invert_delta d)) as (apVal & sOut & E & Hb & Eo).
  { destruct d as [ind r|ind r|ind old new]; cbn [delta_op invert_delta delta_flag] in *; eexists.
    - apply (invert_row_enc e s pks SQLITE_INSERT SQLITE_DELETE ind r pre rest done); auto.
    - apply (invert_row_enc e s pks SQLITE_DELETE SQLITE_INSERT ind r pre rest done); auto.
    - destruct Hrow. apply (invert_update_enc e s pks ind old new pre rest done); auto. }
  eexists. split; [eapply invert_round; eauto|]. eapply inverting_next; eauto.
Qed.

Lemma enc_deltas_bytes pks ds : Forall (delta_ok pks) ds -> bytes_ok (concat (enc_delta pks <$> ds)).
Proof. induction 1; cbn [fmap list_fmap concat]; [constructor|]. apply bytes_ok_app. auto using enc_delta_bytes. Qed.

Lemma invert_changes fuel e s pks ds pre rest done : invert_ample e -> Forall (delta_ok pks) ds ->
  Forall (keeps_key pks) ds -> bytes_ok rest ->
  inverting s (Some pks) pre (concat (enc_delta pks <$> ds) ++ rest) done ->
  exists s', invert_loop (length ds + fuel) e s in_memory = invert_loop fuel e s' in_memory /\
    inverting s' (Some pks) (pre ++ concat (enc_delta pks <$> ds)) rest
      (done ++ concat (enc_delta pks <$> (invert_delta <$> ds))).
Proof.
  intros He Hds. revert s pre done. induction Hds as [|d ds Hd Hds IH]; intros s pre done Hks Hr Hs; cbn [fmap list_fmap concat] in *.
  { exists s. rewrite !app_nil_r. auto. }
  apply Forall_cons in Hks as [Hk Hks]. rewrite <- app_assoc in Hs.
  assert (bytes_ok (concat (enc_delta pks <$> ds) ++ rest)) as Hb by (apply bytes_ok_app; auto using enc_deltas_bytes).
  destruct (invert_change (length ds + fuel) e s pks d pre _ done He Hd Hk Hb Hs) as (s1 & E1 & H1).
  destruct (IH s1 _ _ Hks Hr H1) as (s2 & E2 & H2). exists s2. cbn [length Nat.add]. rewrite E1, E2.
  split; [reflexivity|]. rewrite <- !app_assoc in H2. exact H2.
Qed.

(** Rounds for a changeset: one per change and one per header. *)
Definition rounds (secs : list (list Z * list Z * list delta)) : nat :=
  sum_list ((fun sec => match sec.2 with [] => O | _ => S (length sec.2) end) <$> secs).

Lemma invert_sections fuel e s cur secs pre done : invert_ample e -> Forall section_ok secs -> Forall section_keeps secs ->
  inverting s cur pre (concat (enc_changes <$> secs)) done ->
  exists s' cur' pre', invert_loop (rounds secs + fuel) e s in_memory = invert_loop fuel e s' in_memory /\
    inverting s' cur' pre' [] (done ++ concat (enc_changes <$> (invert_section <$> secs))).
Proof.
  intros He Hok. revert s cur pre done.
  induction Hok as [|[[pks z] ds] secs [Ht Hd] Hok IH]; intros s cur pre done Hks Hs; cbn [fmap list_fmap concat rounds sum_list] in *.
  { exists s, cur, pre. rewrite app_nil_r. auto. }
  apply Forall_cons in Hks as [Hk Hks]. fold (rounds secs). cbn [section_keeps] in Hk.
  pose proof (stream_bytes None _ _ (sections_stream None secs Hok)) as Hb.
  destruct (decide (ds = [])) as [->|N]; [exact (IH s cur pre done Hks Hs)|].
  cbn [invert_section enc_changes] in *. rewrite enc_table_cons in Hs by exact N.
  rewrite enc_table_cons by (destruct ds; [contradiction|discriminate]). rewrite <- app_assoc in Hs.
  assert (bytes_ok (concat (enc_delta pks <$> ds) ++ concat (enc_changes <$> secs))) as Hb'
    by (apply bytes_ok_app; auto using enc_deltas_bytes).
  destruct (invert_table_enc e s cur pks z pre _ done He Ht Hb' Hs) as (s1 & E1 & H1).
  destruct (invert_changes (rounds secs + fuel) e s1 pks ds _ _ _ He Hd Hk Hb H1) as (s2 & E2 & H2).
  destruct (IH s2 _ _ _ Hks H2) as (s3 & cur3 & pre3 & E3 & H3). exists s3, cur3, pre3.
  assert (match ds with [] => O | _ => S (length ds) end = S (length ds)) as El by (destruct ds; [contradiction|reflexivity]).
  cbn [snd]. rewrite El. split; [|rewrite <- !app_assoc in H3; rewrite <- !app_assoc; exact H3].
  rewrite <- E3, <- E2, <- Nat.add_assoc. cbn [Nat.add].
  pose proof (ig_pos _ _ _ _ _ Hs) as Hi. apply (invert_round _ _ _ _ _ _ _ Hi E1).
Qed.

(** Whatever the number of rounds beyond the needed ones. *)
Lemma invert_encodes fuel e secs : invert_ample e -> Forall section_ok secs -> Forall section_keeps secs ->
  Zlen (concat (enc_changes <$> secs)) + 16 <= SESSION_MAX_BUFFER_SZ -> (rounds secs < fuel)%nat ->
  sqlite3changeset_invert fuel e (concat (enc_changes <$> secs))
  = Some (SQLITE_OK, concat (enc_changes <$> (invert_section <$> secs))).
Proof.
  intros He Hok Hk Hlen Hf. unfold sqlite3changeset_invert, sessionChangesetInvert. fold in_memory.
  destruct (invert_sections (S (fuel - rounds secs - 1)) e
    (mkInvert (mkInput false 0 0 (concat (enc_changes <$> secs)) empty_buffer None false) 0 empty_buffer false empty_buffer)
    None secs [] [] He Hok Hk) as (s & cur & pre & E & H).
  { split; cbn [iv_in iv_sOut iv_sPK]; [split_and!; reflexivity|apply empty_buffer_ok|reflexivity|reflexivity| | |exact I].
    - rewrite Zlen_nil. lia.
    - unfold SESSION_MAX_BUFFER_SZ. cbn. lia. }
  replace fuel with (rounds secs + S (fuel - rounds secs - 1))%nat by lia. rewrite E. cbn [invert_loop].
  pose proof (ig_pos _ _ _ _ _ H) as Hi. rewrite (inputBuffer_memory _ _ _ _ _ Hi). cbn [mbind option_bind].
  change (negb (SQLITE_OK =? SQLITE_OK)) with false. cbv iota. rewrite (positioned_end _ _ Hi). cbn [mbind option_bind].
  change (negb (SQLITE_OK =? SQLITE_OK)) with false. cbv iota. cbn [in_memory o_xOutput iv_sOut mbind option_bind].
  rewrite (ig_done _ _ _ _ _ H). reflexivity.
Qed.

(** ** What the inverse means *)

(** The inverse of a net difference leads back. *)
Lemma net_diff_inverse pks T0 T1 ds : contents_ok pks T0 -> contents_ok pks T1 -> net_diff pks T0 T1 ds ->
  net_diff pks T1 T0 (invert_delta <$> ds).
Proof.
  intros H0 H1 [Hs Hc Hu Hf].
  assert (forall d, d ∈ ds -> delta_key pks (invert_delta d) = delta_key pks d) as Hkey.
  { intros d Hd. specialize (Hs d Hd). destruct d as [| |ind o r]; [reflexivity..|]. destruct Hs as (_ & E & _).
    apply (co_rows _ _ H1 _ _ E). }
  assert (delta_key pks <$> (invert_delta <$> ds) = delta_key pks <$> ds) as Ek.
  { rewrite <- list_fmap_compose. apply list_fmap_ext. intros j d Hj. apply Hkey, (list_elem_of_lookup_2 _ _ _ Hj). }
  split.
  - intros d' Hd'. apply list_elem_of_fmap in Hd' as (d & -> & Hd). specialize (Hs d Hd). specialize (Hkey d Hd).
    destruct d as [ind r|ind o|ind o r]; cbn in *; [tauto..|]. rewrite Hkey. naive_solver.
  - intros k Hk. destruct (Hc k (not_eq_sym Hk)) as (d & Hd & E). exists (invert_delta d).
    split; [apply list_elem_of_fmap_2, Hd|]. rewrite Hkey by exact Hd. exact E.
  - rewrite Ek. exact Hu.
  - apply Forall_fmap. eapply Forall_impl; [exact Hf|]. intros []; auto.
Qed.

(** A net difference keeps the keys. *)
Lemma net_diff_keeps pks T0 T1 ds : contents_ok pks T0 -> contents_ok pks T1 -> net_diff pks T0 T1 ds ->
  Forall (keeps_key pks) ds.
Proof.
  intros H0 H1 [Hs _ _ _]. apply Forall_forall. intros d Hd. specialize (Hs d Hd).
  destruct d as [| |ind o r]; cbn; auto. destruct Hs as (_ & E & _). symmetry. apply (co_rows _ _ H1 _ _ E).
Qed.
