(* ===== verification/RecordCorrect.v ===== *)
(** * Correctness of the record layer

    Serialised records are read back; the hash and the comparisons of a
    recorded row agree with those of the row in a callback; merging two
    records is the reference difference; growing the hash table keeps its
    rows; the arrays of a table's columns fit their allocation. *)
From stdpp Require Import gmap strings.
From S2P Require Import Prelude Bits Varint Value Record Strings Buffer Session Recorder Tracking SelectSql Changeset Scenario Iterator IteratorSpec.

Local Open Scope Z_scope.

(** ** Reading back a record *)

(** The bytes [sessionSerializeValue] writes for each field, and the sizes it
    computes without a buffer. *)
Definition written (fs : list (option sqlite3_value)) : option (list (list Z)) :=
  mapM (fun f => '(_, w, _) ← sessionSerializeValue true false f; Some w) fs.

Definition sized (fs : list (option sqlite3_value)) : option (list Z) :=
  mapM (fun f => '(_, _, n) ← sessionSerializeValue false false f; Some n) fs.

Lemma written_enc fs : fields_ok fs -> written fs = Some (enc_field <$> fs).
Proof.
  induction fs as [|f fs IH]; intros H; [reflexivity|]. apply fields_ok_cons in H as [Hf Hfs].
  specialize (IH Hfs). unfold written in *. cbn [mapM]. rewrite serialize_enc by exact Hf. cbn [mbind option_bind].
  rewrite IH. reflexivity.
Qed.

Lemma sized_enc fs : fields_ok fs -> sized fs = Some (Zlen <$> (enc_field <$> fs)).
Proof.
  induction fs as [|f fs IH]; intros H; [reflexivity|]. apply fields_ok_cons in H as [Hf Hfs].
  specialize (IH Hfs). unfold sized in *. cbn [mapM]. rewrite serialize_enc by exact Hf. cbn [mbind option_bind].
  rewrite IH. reflexivity.
Qed.

(** A record of any fields (undefined ones included), serialised field by
    field, has the size computed beforehand, and [sessionReadRecord] reads
    exactly the same fields back, whatever surrounds the record in the
    changeset, leaving the input just after it. *)
Theorem record_roundtrip e fs i pre rest : fields_ok fs -> bytes_ok rest -> iter_ample e ->
  exists ws, written fs = Some ws /\ sized fs = Some (Zlen <$> ws) /\
    (positioned i pre (concat ws ++ rest) ->
     exists i' b, sessionReadRecord e i (Zlen fs) None = Some (i', fs, b, SQLITE_OK) /\
       positioned i' (pre ++ concat ws) rest).
Proof.
  intros Hf Hr He. exists (enc_field <$> fs). rewrite written_enc, sized_enc by exact Hf.
  split_and!; [reflexivity|reflexivity|]. fold (enc_fields fs). intros Hi.
  destruct (readRecord_enc e fs i (Zlen fs) pre rest Hf Hr Hi eq_refl) as (i' & v & b & rc & E & _ & Hok & Ha).
  destruct (Hok (Ha He)) as [-> [= -> ->]]. rewrite (Ha He) in E. eexists _, _. split; [exact E|].
  eapply positioned_next; [exact Hi|reflexivity].
Qed.

Definition trip_fields : list (option sqlite3_value) :=
  [Some (VInt (-2)); None; Some (VText [104; 105]); Some VNull; Some (VBlob [])].

Definition trip_env : IterEnv := mkIterEnv (fun _ => true) (fun _ => true) (fun _ => true).

Definition trip_input : SessionInput :=
  mkInput false 0 1 [7; 1;255;255;255;255;255;255;255;254; 0; 3;2;104;105; 5; 4;0; 9] empty_buffer None true.

Lemma record_roundtrip_witness :
  exists i' b, sessionReadRecord trip_env trip_input 5 None = Some (i', trip_fields, b, SQLITE_OK) /\
    positioned i' [7; 1;255;255;255;255;255;255;255;254; 0; 3;2;104;105; 5; 4;0] [9].
Proof.
  destruct (record_roundtrip trip_env trip_fields trip_input [7] [9]) as (ws & E & _ & H).
  - evaluate.
  - evaluate.
  - split_and!; reflexivity.
  - assert (ws = [[1;255;255;255;255;255;255;255;254]; [0]; [3;2;104;105]; [5]; [4;0]]) as ->.
    { apply (inj Some). rewrite <- E. vm_compute. reflexivity. }
    apply H. split_and!; reflexivity.
Defined.

(** ** Hashing and comparing keys *)

(** The bucket computed for a row in a pre-update callback is a valid
    index of the hash table and the same as the one [sessionGrowHash] computes
    later from the record written for that row. *)
Theorem hash_of_record hook op iRowid oom pks idx t row :
  columns_ready pks idx t -> row_ok pks row -> delivers (hook_get hook op) idx row ->
  Forall key_ok (pk_part pks row) -> 0 < t_nChange t < 2 ^ 31 -> (forall i, oom i = false) ->
  exists rec h, record_write hook op pks idx [] 0 = Some (rec, Zlen rec) /\
    sessionPreupdateHash hook oom iRowid t (op =? SQLITE_INSERT) false = Some (SQLITE_OK, h, false) /\
    sessionChangeHash (t_nCol t) pks false rec (t_nChange t) = Some h /\ 0 <= h < t_nChange t.
Proof.
  intros Hc [L Hv] D Hk Hn Ho. exists (enc_fields (record_fields op pks row)), (bucket_of (t_nChange t) (pk_part pks row)).
  assert (0 <= bucket_of (t_nChange t) (pk_part pks row) < t_nChange t) as Hb by (apply Z.mod_pos_bound; lia).
  assert (entry_ok pks (pk_part pks row) (entry_of op row)) as He by (apply entry_of_ok; [split|]; auto).
  split_and!; try apply Hb.
  - exact (record_write_spec hook op pks idx row [] L D Hv).
  - unfold sessionPreupdateHash. rewrite (cr_rowid _ _ _ Hc), (cr_abPK _ _ _ Hc), (cr_nCol _ _ _ Hc), (cr_aiIdx _ _ _ Hc).
    cbn [mbind option_bind]. rewrite read_n_all. cbn [mbind option_bind]. fold (hook_get hook op).
    destruct (preupdateHash_loop_spec (hook_get hook op) oom pks idx row 0 false L D Hv)
      as [(rc & h & b & i & _ & _ & E)| ->]; [rewrite Ho in E; discriminate|]. cbn [mbind option_bind negb Z.eqb SQLITE_OK].
    rewrite (proj2 (Z.eqb_neq _ _)) by lia. rewrite key_no_nulls by exact Hk.
    unfold u32. rewrite (Z.mod_small (t_nChange t)) by lia. rewrite i32_id by (unfold is_i32, bucket_of in *; lia). reflexivity.
  - rewrite (cr_nCol _ _ _ Hc), record_fields_entry by exact L.
    apply changeHash_entry; [exact He|lia].
Qed.

(** The table of [Scenario] with [n] buckets holding [chains]. *)
Definition demo_tab (n : Z) (chains : list (list SessionChange)) : SessionTable :=
  mkTable demo_t 2 2 false false (demo_columns demo_t) [None; None] demo_idx (Some demo_pks) 1 n chains.

Lemma demo_tab_ready n chains : columns_ready demo_pks demo_idx (demo_tab n chains).
Proof. split; reflexivity || (vm_compute; auto). Qed.

Lemma demo_row3_ok : row_ok demo_pks (demo_row 3 "x").
Proof. split; [reflexivity|]. evaluate. Qed.

Lemma demo_key_ok i : is_i64 i -> Forall key_ok [VInt i].
Proof. intros Hi. repeat constructor; [apply Hi..|discriminate]. Qed.

Lemma demo_key3_ok : Forall key_ok (pk_part demo_pks (demo_row 3 "x")).
Proof. apply demo_key_ok. evaluate. Qed.

Lemma demo_delivers old new : length old = 2%nat -> delivers (hook_get (demo_hook old new) SQLITE_DELETE) demo_idx old.
Proof. destruct old as [|a [|b [|]]]; try discriminate. intros _. repeat constructor. Qed.

Lemma hash_of_record_witness :
  exists rec h, record_write (demo_hook (demo_row 3 "x") []) SQLITE_DELETE demo_pks demo_idx [] 0 = Some (rec, Zlen rec) /\
    sessionPreupdateHash (demo_hook (demo_row 3 "x") []) (fun _ => false) 3 (demo_tab 256 []) (SQLITE_DELETE =? SQLITE_INSERT) false
    = Some (SQLITE_OK, h, false) /\
    sessionChangeHash 2 demo_pks false rec 256 = Some h /\ 0 <= h < 256.
Proof.
  apply (hash_of_record _ _ _ _ demo_pks demo_idx (demo_tab 256 []) (demo_row 3 "x"));
    [apply demo_tab_ready|apply demo_row3_ok|apply demo_delivers; reflexivity|apply demo_key3_ok|split; reflexivity|reflexivity].
Defined.

(** The two comparisons of rows decide equality of primary keys and
    nothing else: [sessionPreupdateEqual] for a recorded change and the row of
    a callback, [sessionChangeEqual] for two recorded changes. *)
Theorem comparison_decides_key hook op iRowid pks idx t row c p c' p' :
  columns_ready pks idx t -> row_ok pks row -> delivers (hook_get hook op) idx row ->
  change_rep pks c p -> entry_ok pks p.1 p.2 -> change_rep pks c' p' -> entry_ok pks p'.1 p'.2 ->
  sessionPreupdateEqual hook iRowid t c op = Some (bool_decide (p.1 = pk_part pks row)) /\
  sessionChangeEqual (t_nCol t) pks false (c_aRecord c) false (c_aRecord c') = Some (bool_decide (p.1 = p'.1)).
Proof.
  intros Hc [L Hv] D (Ec & _) He (Ec' & _) He'.
  destruct (entry_fields_ok _ _ _ He) as (Hf & Lf & Hk). destruct (entry_fields_ok _ _ _ He') as (Hf' & Lf' & Hk').
  split.
  - unfold sessionPreupdateEqual.
    rewrite (cr_rowid _ _ _ Hc), (cr_abPK _ _ _ Hc), (cr_nCol _ _ _ Hc), (cr_aiIdx _ _ _ Hc), Ec.
    cbn [mbind option_bind]. rewrite read_n_all. cbn [mbind option_bind]. rewrite <- (app_nil_r (enc_fields _)).
    apply preupdateEqual_loop_spec; auto with noria. apply He.
  - unfold sessionChangeEqual. rewrite (cr_nCol _ _ _ Hc), read_n_all, Ec, Ec'. cbn [mbind option_bind].
    rewrite <- (app_nil_r (enc_fields (entry_fields pks p.1 p.2))), <- (app_nil_r (enc_fields (entry_fields pks p'.1 p'.2))).
    rewrite changeEqual_loop_enc by auto with noria. f_equal. apply bool_decide_ext.
    unfold has_key in Hk, Hk'. rewrite Hk, Hk'. split; [apply (inj _)|congruence].
Qed.

Definition demo_change (op : Z) (fs : list (option sqlite3_value)) : SessionChange :=
  mkChange op 0 2 0 (Zlen (enc_fields fs)) (enc_fields fs).

Definition demo_c3 : SessionChange := demo_change SQLITE_DELETE (Some <$> demo_row 3 "x").
Definition demo_c4 : SessionChange := demo_change SQLITE_INSERT [Some (VInt 4); None].

Lemma demo_c3_rep : change_rep demo_pks demo_c3 ([VInt 3], EOld (demo_row 3 "x")).
Proof. split_and!; try reflexivity; vm_compute; auto. Qed.

Lemma demo_c3_ok : entry_ok demo_pks [VInt 3] (EOld (demo_row 3 "x")).
Proof. split; [apply demo_key3_ok|]. split; [apply demo_row3_ok|reflexivity]. Qed.

Lemma comparison_decides_key_witness :
  sessionPreupdateEqual (demo_hook (demo_row 3 "z") []) 3 (demo_tab 256 []) demo_c3 SQLITE_DELETE = Some true /\
  sessionChangeEqual 2 demo_pks false (c_aRecord demo_c3) false (c_aRecord demo_c4) = Some false.
Proof.
  apply (comparison_decides_key (demo_hook (demo_row 3 "z") []) SQLITE_DELETE 3 demo_pks demo_idx (demo_tab 256 [])
    (demo_row 3 "z") demo_c3 ([VInt 3], EOld (demo_row 3 "x")) demo_c4 ([VInt 4], EInsert)).
  - apply demo_tab_ready.
  - split; [reflexivity|evaluate].
  - apply demo_delivers. reflexivity.
  - apply demo_c3_rep.
  - apply demo_c3_ok.
  - split_and!; try reflexivity; vm_compute; auto.
  - split; [apply demo_key_ok; evaluate|]. exists (demo_row 4 "w"). split; [split; [reflexivity|evaluate]|reflexivity].
Defined.

(** ** The hash table *)

(** [sessionGrowHash] never loses, duplicates or misplaces a recorded row:
    the table afterwards represents the same rows, every row in the bucket of
    its key, and its columns are untouched; it fails only if there is no table
    at all and none can be allocated. *)
Theorem grow_keeps_rows malloc pks idx t B :
  columns_ready pks idx t -> rep pks t B -> t_nEntry t < 2 ^ 26 ->
  exists t' rc B', sessionGrowHash malloc false t = Some (t', rc) /\
    rep pks t' B' /\ concat B' ≡ₚ concat B /\ columns_ready pks idx t' /\ t_nEntry t' = t_nEntry t /\
    (rc = SQLITE_OK -> 0 < t_nChange t') /\ (malloc = true -> rc = SQLITE_OK).
Proof.
  intros Hc HR Hn. destruct (growHash_spec malloc pks idx t B Hc HR Hn)
    as (t' & rc & B' & E & Hc' & _ & _ & He & HR' & HP & H1 & H2).
  exists t', rc, B'. split_and!; auto.
Qed.

Lemma grow_keeps_rows_witness :
  exists t' rc B', sessionGrowHash true false (demo_tab 1 [[demo_c3]]) = Some (t', rc) /\
    rep demo_pks t' B' /\ concat B' ≡ₚ [([VInt 3], EOld (demo_row 3 "x"))] /\ columns_ready demo_pks demo_idx t' /\
    t_nEntry t' = 1 /\ (rc = SQLITE_OK -> 0 < t_nChange t') /\ (true = true -> rc = SQLITE_OK).
Proof.
  apply (grow_keeps_rows true demo_pks demo_idx (demo_tab 1 [[demo_c3]]) [[([VInt 3], EOld (demo_row 3 "x"))]]);
    [apply demo_tab_ready| |reflexivity].
  split.
  - constructor; [constructor; [apply demo_c3_rep|constructor]|constructor].
  - reflexivity.
  - intros [|i] b Hb; [|discriminate]. injection Hb as <-. repeat constructor.
  - apply (bool_decide_unpack _). vm_compute. exact I.
  - constructor; [apply demo_c3_ok|constructor].
  - vm_compute. discriminate.
  - vm_compute. discriminate.
Defined.

(** ** Merging updates *)

(** [sessionMergeUpdate] on complete records writes the reference
    difference of the merged old and the merged new row: the old record keeps
    the key and the changed fields, the new record the changed non-key fields,
    and nothing is written exactly when no non-key field differs. *)
Theorem merge_is_difference pks os os2 ns ns2 :
  length os = length pks -> length ns = length pks -> opt_ok (length pks) os2 -> opt_ok (length pks) ns2 ->
  fields_ok os -> fields_ok ns ->
  sessionMergeUpdate (Zlen pks) pks false (enc_fields os) (opt_enc os2 []) (enc_fields ns) (opt_enc ns2 [])
  = Some (if differs pks (merged os os2) (merged ns ns2)
          then (1, enc_fields (diff_old pks (merged os os2) (merged ns ns2)
                               ++ diff_new pks (merged os os2) (merged ns ns2)))
          else (0, [])).
Proof.
  intros L1 L2 O1 O2 Ho Hn. unfold sessionMergeUpdate. rewrite read_n_all. cbn [mbind option_bind negb].
  rewrite <- (app_nil_r (enc_fields os)), <- (app_nil_r (enc_fields ns)).
  rewrite mergeUpdate_old_enc, mergeUpdate_new_enc by auto with noria. cbn [mbind option_bind orb].
  destruct (differs pks _ _); cbn [negb]; rewrite ?enc_fields_app; reflexivity.
Qed.

Lemma merge_is_difference_witness :
  sessionMergeUpdate 3 [1; 0; 0] false
    (enc_fields [Some (VInt 1); Some (VInt 10); Some (VInt 20)]) None
    (enc_fields [Some (VInt 1); Some (VInt 11); None]) (opt_enc (Some [None; None; Some (VInt 20)]) [])
  = Some (1, enc_fields ([Some (VInt 1); Some (VInt 10); None] ++ [None; Some (VInt 11); None])).
Proof.
  apply (merge_is_difference [1; 0; 0] [Some (VInt 1); Some (VInt 10); Some (VInt 20)] None
    [Some (VInt 1); Some (VInt 11); None] (Some [None; None; Some (VInt 20)]));
    reflexivity || evaluate.
Defined.

(** ** Columns of a table *)

Lemma tableInfo_count_spec rows nByte nDbCol b nByte' nDbCol' b' :
  tableInfo_count rows nByte nDbCol b = (nByte', nDbCol', b') ->
  forall co n co' n', tableInfo_fill rows co n = (co', n') ->
  co_used co' - co_used co <= (nByte' - nByte) + 2 * (nDbCol' - nDbCol) /\ nByte <= nByte' /\ nDbCol <= nDbCol' /\
  Zlen (co_azCol co') - Zlen (co_azCol co) <= nDbCol' - nDbCol.
Proof.
  revert nByte nDbCol b. induction rows as [|r rows IH]; intros nByte nDbCol b; cbn [tableInfo_count tableInfo_fill].
  { intros [= <- <- <-] co n co' n' [= <- <-]. lia. }
  intros E co n co' n'. specialize (IH _ _ _ E).
  assert (0 <= opt_len (xi_name r) /\ 0 <= opt_len (xi_dflt r)) as [P1 P2].
  { unfold opt_len. destruct (xi_name r), (xi_dflt r); zlia. }
  assert (0 <= nDbCol' - (if xi_hidden r =? 0 then nDbCol + 1 else nDbCol) /\
          nByte + opt_len (xi_name r) + opt_len (xi_dflt r) <= nByte') as [P3 P4].
  { destruct (tableInfo_fill rows co n) as [co1 n1] eqn:E1. specialize (IH _ _ _ _ E1). lia. }
  destruct (xi_hidden r =? 0).
  - destruct (xi_name r) as [z|] eqn:Ez.
    + intros E1. specialize (IH _ _ _ _ E1). cbn [add_column co_used co_azCol opt_len] in *.
      rewrite Zlen_app in IH. cbn [Zlen length] in *. destruct (xi_dflt r); cbn [opt_len] in *; zlia.
    + intros [= <- <-]. lia.
  - intros E1. specialize (IH _ _ _ _ E1). lia.
Qed.

Lemma columns_fit_rows e rows nThis pzTab pbRowid : 0 <= nThis ->
  ti_used (sessionTableInfo_rows e rows nThis pzTab pbRowid)
  <= ti_nByte (sessionTableInfo_rows e rows nThis pzTab pbRowid) /\
  Zlen (ti_azCol (sessionTableInfo_rows e rows nThis pzTab pbRowid))
  <= ti_nCol (sessionTableInfo_rows e rows nThis pzTab pbRowid).
Proof.
  intros Hn. unfold sessionTableInfo_rows.
  destruct (tableInfo_count rows (nThis + 1) 0 pbRowid) as [[nByte nDbCol] b] eqn:Ec.
  set (bRowid := if nDbCol =? 0 then false else b).
  destruct (te_reset1 e =? SQLITE_OK), (te_malloc e); cbn [negb]; try (split; vm_compute; discriminate).
  set (co := if bRowid then _ else _). destruct (tableInfo_fill rows co 0) as [co' n'] eqn:Ef.
  destruct (tableInfo_count_spec _ _ _ _ _ _ _ Ec _ _ _ _ Ef) as (Hu & _ & Hd & Hl).
  destruct (te_reset2 e =? SQLITE_OK); [|split; vm_compute; discriminate].
  cbn [ti_used ti_nByte ti_azCol ti_nCol]. change (Zlen SESSIONS_ROWID) with 7.
  destruct bRowid; subst co; cbn [add_column co_used co_azCol Z.b2z] in *;
    [change (Zlen SESSIONS_ROWID) with 7 in Hu; change (Zlen ([] ++ [SESSIONS_ROWID])) with 1 in Hl
    |change (Zlen []) with 0 in Hl]; destruct pzTab; lia.
Qed.

Lemma strlen30_nonneg z : 0 <= sqlite3Strlen30 z.
Proof. unfold sqlite3Strlen30. apply Z.land_nonneg. left. lia. Qed.

(** Whatever columns the schema query reports, hidden, unnamed and with or
    without defaults, [sessionTableInfo] writes its names, defaults, indexes
    and key flags inside the block it has allocated, and never more columns
    than the arrays have entries. *)
Theorem columns_fit_allocation e zThis pzTab pbRowid :
  ti_used (sessionTableInfo e zThis pzTab pbRowid) <= ti_nByte (sessionTableInfo e zThis pzTab pbRowid) /\
  Zlen (ti_azCol (sessionTableInfo e zThis pzTab pbRowid)) <= ti_nCol (sessionTableInfo e zThis pzTab pbRowid).
Proof.
  pose proof (strlen30_nonneg zThis). unfold sessionTableInfo.
  repeat case_match; try (apply columns_fit_rows; assumption); split; vm_compute; discriminate.
Qed.

(** A table whose primary key has the columns 1 to [n], in order. *)
Definition wide_key (n : nat) : TableEnv :=
  mkTableEnv SQLITE_OK true SQLITE_OK
    ((fun i => mkXinfo (i - 1) (Some (str "c" ++ decimal i)) None i 0) <$> seqZ 1 (Z.of_nat n))
    SQLITE_OK true SQLITE_OK.

(** The position of a column in the primary key is stored in a byte, so
    the 256th column of a key is recorded as a column outside the key. *)
Theorem key_flag_wraps :
  exists pks, ti_abPK (sessionTableInfo (wide_key 300) demo_t false false) = Some pks /\
    Zlen pks = 300 /\ pks !! 254%nat = Some 255 /\ pks !! 255%nat = Some 0 /\ pks !! 256%nat = Some 1.
Proof.
  exists ((fun i => u8 i) <$> seqZ 1 300). vm_compute. auto.
Qed.
