(* ===== verification/Noria.v ===== *)
(** * The Noria wrapper ([class Noria], noria.cpp)

    The C++ object that connects a SQLite connection to the dataflow engine:
    its state, the session it owns, and the extraction of changes.  The engine
    behind the C interface of noria.h is a type class. *)
From stdpp Require Import gmap strings.
From S2P Require Import Prelude Bits Varint Value Record Strings Buffer Session SelectSql Changeset Iterator.

Local Open Scope Z_scope.

(** ** Values (noria.h) *)

Definition NORIA_NULL : Z := 0.
Definition NORIA_INTEGER : Z := 1.
Definition NORIA_FLOAT : Z := 2.
Definition NORIA_TEXT : Z := 3.
Definition NORIA_BLOB : Z := 4.

(** A pointer is the bytes it points to, or [None] for null; a [double] is
    its bit pattern. *)
Record NoriaValue := mkNV {
  nv_type : Z;
  nv_int : Z;
  nv_float : Z;
  nv_text : option (list Z);
  nv_text_len : Z;
  nv_blob : option (list Z);
  nv_blob_len : Z
}.

#[export] Instance NoriaValue_eq_dec : EqDecision NoriaValue.
Proof. solve_decision. Defined.

(** A zeroed structure: [memset], or an element of a new [std::vector]. *)
Definition nv_zero : NoriaValue := mkNV NORIA_NULL 0 0 None 0 None 0.

Definition nv_integer (i : Z) : NoriaValue := mkNV NORIA_INTEGER i 0 None 0 None 0.
Definition nv_real (r : Z) : NoriaValue := mkNV NORIA_FLOAT 0 r None 0 None 0.

(** [SqliteValueToNoria(val)]; [None] is the null pointer. *)
Definition SqliteValueToNoria (val : option sqlite3_value) : NoriaValue :=
  match val with
  | None => nv_zero
  | Some v =>
      let type := sqlite3_value_type v in
      if type =? SQLITE_NULL then nv_zero
      else if type =? SQLITE_INTEGER then nv_integer (sqlite3_value_int64 v)
      else if type =? SQLITE_FLOAT then nv_real (sqlite3_value_double v)
      else if type =? SQLITE_TEXT then
        mkNV NORIA_TEXT 0 0 (sqlite3_value_text v) (sqlite3_value_bytes v) None 0
      else if type =? SQLITE_BLOB then
        mkNV NORIA_BLOB 0 0 None 0 (sqlite3_value_blob v) (sqlite3_value_bytes v)
      else nv_zero
  end.

(** [SqliteColumnToNoriaValue(stmt, col)] on the value of the column. *)
Definition SqliteColumnToNoriaValue (v : sqlite3_value) : NoriaValue :=
  let type := sqlite3_value_type v in
  if type =? SQLITE_NULL then nv_zero
  else if type =? SQLITE_INTEGER then nv_integer (sqlite3_value_int64 v)
  else if type =? SQLITE_FLOAT then nv_real (sqlite3_value_double v)
  else if type =? SQLITE_TEXT then
    mkNV NORIA_TEXT 0 0 (sqlite3_value_text v) (sqlite3_value_bytes v) None 0
  else if type =? SQLITE_BLOB then
    mkNV NORIA_BLOB 0 0 None 0 (sqlite3_value_blob v) (sqlite3_value_bytes v)
  else nv_zero.

(** The value [BindNoriaValue] binds; an unknown type binds nothing.  Binding
    [n] bytes of a null pointer binds NULL. *)
Definition BindNoriaValue (nv : NoriaValue) : option (option sqlite3_value) :=
  let bytes (p : option (list Z)) (n : Z) (f : list Z -> sqlite3_value) :=
    match p with
    | None => Some (Some VNull)
    | Some z => z ← read_n n z; Some (Some (f z))
    end in
  if nv_type nv =? NORIA_NULL then Some (Some VNull)
  else if nv_type nv =? NORIA_INTEGER then Some (Some (VInt (nv_int nv)))
  else if nv_type nv =? NORIA_FLOAT then Some (Some (sqlite3VdbeMemSetDouble (nv_float nv)))
  else if nv_type nv =? NORIA_TEXT then bytes (nv_text nv) (nv_text_len nv) VText
  else if nv_type nv =? NORIA_BLOB then bytes (nv_blob nv) (nv_blob_len nv) VBlob
  else Some None.

(** ** The engine *)

(** The calls of noria.h that propagate changes. *)
Inductive cdc_call :=
  | ApplyInsert (table : list Z) (values : list NoriaValue)
  | ApplyDelete (table : list Z) (old_values : list NoriaValue)
  | ApplyUpdate (table : list Z) (old_values new_values : list NoriaValue).

Record NoriaLookupResult := mkLookup {
  lr_found : Z;
  lr_row_count : Z;
  lr_rows : option (list (list NoriaValue))
}.

Record NoriaCacheStats := mkStats {
  st_cache_hits : Z;
  st_cache_misses : Z;
  st_total_rows : Z;
  st_view_count : Z;
  st_node_count : Z;
  st_memory_bytes : Z;
  st_max_memory_bytes : Z;
  st_eviction_count : Z;
  st_bytes_evicted : Z
}.

(** What an engine handle offers; each operation returns the new handle. *)
Class NoriaFfi (H : Type) := {
  noria_register_table_schema : H -> list Z -> list (list Z) -> H;
  noria_register_view : H -> list Z -> H * Z;
  noria_has_view : H -> list Z -> Z;
  noria_table_has_views : H -> list Z -> Z;
  noria_get_table_id : H -> list Z -> Z;
  noria_queue_invalidate_by_id : H -> Z -> H * Z;
  noria_lookup : H -> Z -> list NoriaValue -> H * NoriaLookupResult;
  noria_lookup_or_upquery : H -> Z -> list NoriaValue -> H * NoriaLookupResult;
  noria_apply : H -> cdc_call -> H * Z;
  noria_queue : H -> cdc_call -> H * Z;
  noria_flush : H -> H * Z;
  noria_get_stats : H -> NoriaCacheStats
}.

(** ** The object *)

Record BufferedOldRow := mkOldRow {
  bo_table_name : list Z;
  bo_rowid : Z;
  bo_op : Z;
  bo_values : list NoriaValue
}.

Section Object.

Context {H : Type} `{NoriaFfi H}.

(** [n_session] is the address of the session, an object of the connection's
    list [n_chain]. *)
Record Noria := mkNoria {
  n_handle : option H;
  n_db : bool;
  n_session : option Z;
  n_enabled : bool;
  n_has_any_views : bool;
  n_buffered : gmap (list Z * Z) BufferedOldRow;
  n_chain : Chain
}.

Definition set_handle (n : Noria) (h : option H) : Noria :=
  mkNoria h (n_db n) (n_session n) (n_enabled n) (n_has_any_views n) (n_buffered n) (n_chain n).
Definition set_session (n : Noria) (s : option Z) (c : Chain) : Noria :=
  mkNoria (n_handle n) (n_db n) s (n_enabled n) (n_has_any_views n) (n_buffered n) c.
Definition set_enabled (n : Noria) (b : bool) : Noria :=
  mkNoria (n_handle n) (n_db n) (n_session n) b (n_has_any_views n) (n_buffered n) (n_chain n).
Definition set_views (n : Noria) (b : bool) : Noria :=
  mkNoria (n_handle n) (n_db n) (n_session n) (n_enabled n) b (n_buffered n) (n_chain n).
Definition set_buffered (n : Noria) (b : gmap (list Z * Z) BufferedOldRow) : Noria :=
  mkNoria (n_handle n) (n_db n) (n_session n) (n_enabled n) (n_has_any_views n) b (n_chain n).

(** The constructor; [create] is the result of [noria_create]. *)
Definition Noria_new (create : option H) (db : bool) (chain : Chain) : Noria :=
  mkNoria create db None (bool_decide (is_Some create)) false ∅ chain.

Definition IsEnabled (n : Noria) : bool := n_enabled n && bool_decide (is_Some (n_handle n)).
Definition HasAnyViews (n : Noria) : bool := n_has_any_views n.
Definition Disable (n : Noria) : Noria := set_enabled n false.
Definition Enable (n : Noria) : Noria := set_enabled n (bool_decide (is_Some (n_handle n))).

Definition ClearBufferedOldRows (n : Noria) : Noria := set_buffered n ∅.

Definition GetBufferedOldRow (n : Noria) (table_name : list Z) (rowid : Z) : option BufferedOldRow :=
  n_buffered n !! (table_name, rowid).

(** The value [CaptureOldRow] stores for a column. *)
Definition capture_value (r : Z * option sqlite3_value) : NoriaValue :=
  match r with
  | (rc, Some v) => if rc =? SQLITE_OK then SqliteValueToNoria (Some v) else nv_zero
  | (_, None) => nv_zero
  end.

(** [CaptureOldRow]: [n_cols] and [old] are [sqlite3_preupdate_count] and
    [sqlite3_preupdate_old]. *)
Definition CaptureOldRow (n : Noria) (n_cols : Z) (old : Z -> Z * option sqlite3_value)
    (table_name : option (list Z)) (rowid op : Z) : Noria :=
  match table_name, n_handle n with
  | Some table_name, Some h =>
      if negb (n_db n) || negb (n_has_any_views n) then n
      else if negb (op =? SQLITE_DELETE) && negb (op =? SQLITE_UPDATE) then n
      else if noria_table_has_views h table_name =? 0 then n
      else if n_cols <=? 0 then n
      else
        let row := mkOldRow table_name rowid op ((fun i => capture_value (old i)) <$> seqZ 0 n_cols) in
        set_buffered n (<[(table_name, rowid) := row]> (n_buffered n))
  | _, _ => n
  end.

(** [PreUpdateHookCallback], for a non-null [user_data]. *)
Definition PreUpdateHookCallback (n : Noria) (n_cols : Z) (old : Z -> Z * option sqlite3_value)
    (op : Z) (table_name : option (list Z)) (rowid1 : Z) : Noria :=
  if (op =? SQLITE_DELETE) || (op =? SQLITE_UPDATE)
  then CaptureOldRow n n_cols old table_name rowid1 op else n.

(** [EnsureSession]; [malloc] is the outcome of the allocation. *)
Definition main_db : list Z := str "main".

Definition attach_all (chain : Chain) (p : Z) : Chain :=
  (fun e => if e.1 =? p then (e.1, snd (sqlite3session_attach true e.2 None)) else e) <$> chain.

Definition EnsureSession (malloc : option Z) (n : Noria) : Noria :=
  match n_session n with
  | Some _ => n
  | None =>
      if n_db n then
        match sqlite3session_create malloc (n_chain n) main_db with
        | (rc, chain, Some p) =>
            if rc =? SQLITE_OK then set_session n (Some p) (attach_all chain p) else set_session n None chain
        | (_, chain, None) => set_session n None chain
        end
      else n
  end.

(** ** Extracting changes *)

(** Outcome of the calls [ProcessSessionChangeset] makes. *)
Record CdcEnv := mkCdcEnv {
  ce_autocommit : bool;         (* sqlite3_get_autocommit *)
  ce_gen : GenEnv;              (* sqlite3session_changeset *)
  ce_start : bool;              (* allocation of the iterator *)
  ce_iter : IterEnv;            (* sqlite3changeset_next *)
  ce_session : option Z         (* allocation of the next session *)
}.

(** [SqliteValueToNoria] of a field the iterator delivers, NULL if it does not. *)
Definition field_value (r : option (Z * option (option sqlite3_value))) : option NoriaValue :=
  '(rc, v) ← r;
  match v with
  | Some (Some v) => Some (if rc =? SQLITE_OK then SqliteValueToNoria (Some v) else nv_zero)
  | _ => Some nv_zero
  end.

(** The loop over the [n] columns from column [i] on. *)
Fixpoint field_values (get : Z -> option (Z * option (option sqlite3_value))) (n : nat) (i : Z)
    : option (list NoriaValue) :=
  match n with
  | O => Some []
  | S n => v ← field_value (get i); vs ← field_values get n (i + 1); Some (v :: vs)
  end.

(** The loop that fills [new_values] of an UPDATE. *)
Fixpoint update_values (get : Z -> option (Z * option (option sqlite3_value))) (i : Z)
    (old_values : list NoriaValue) : option (list NoriaValue) :=
  match old_values with
  | [] => Some []
  | old :: old_values =>
      '(rc, v) ← get i;
      vs ← update_values get (i + 1) old_values;
      Some (match v with
            | Some (Some v) => if rc =? SQLITE_OK then SqliteValueToNoria (Some v) else old
            | _ => old
            end :: vs)
  end.

(** The [rowid] used as key of the buffered rows. *)
Definition change_rowid (p : changeset_iter) : option Z :=
  '(rc, v) ← sqlite3changeset_old p 0;
  Some (match v with
        | Some (Some v) =>
            if (rc =? SQLITE_OK) && (sqlite3_value_type v =? SQLITE_INTEGER) then sqlite3_value_int64 v else 0
        | _ => 0
        end).

(** The buffered row, if it has the right number of columns. *)
Definition buffered_row (n : Noria) (p : changeset_iter) (table_name : list Z) (n_cols : Z)
    : option (option BufferedOldRow) :=
  rowid ← change_rowid p;
  Some (b ← GetBufferedOldRow n table_name rowid; if Zlen (bo_values b) =? n_cols then Some b else None).

(** The [switch] on the operation: the call made for the current change. *)
Definition row_call (n : Noria) (p : changeset_iter) (table_name : list Z) (n_cols op : Z)
    : option (option cdc_call) :=
  if op =? SQLITE_INSERT then
    new_values ← field_values (sqlite3changeset_new p) (Z.to_nat n_cols) 0;
    Some (Some (ApplyInsert table_name new_values))
  else if op =? SQLITE_DELETE then
    buffered ← buffered_row n p table_name n_cols;
    match buffered with
    | Some b => Some (Some (ApplyDelete table_name (bo_values b)))
    | None =>
        old_values ← field_values (sqlite3changeset_old p) (Z.to_nat n_cols) 0;
        Some (Some (ApplyDelete table_name old_values))
    end
  else if op =? SQLITE_UPDATE then
    buffered ← buffered_row n p table_name n_cols;
    old_values ←
      match buffered with
      | Some b => Some (bo_values b)
      | None => field_values (sqlite3changeset_old p) (Z.to_nat n_cols) 0
      end;
    new_values ← update_values (sqlite3changeset_new p) 0 old_values;
    Some (Some (ApplyUpdate table_name old_values new_values))
  else Some None.

(** The body of the loop: the calls made for the current change. *)
Definition row_calls (n : Noria) (h : H) (p : changeset_iter) : option (list cdc_call) :=
  let '(zTab, n_cols, op, _) := sqlite3changeset_op p in
  match zTab with
  | None => Some []
  | Some table_name =>
      if n_cols <=? 0 then Some []
      else if noria_table_has_views h table_name =? 0 then Some []
      else c ← row_call n p table_name n_cols op; Some (match c with Some c => [c] | None => [] end)
  end.

Definition apply_calls (h : H) (cs : list cdc_call) : H :=
  fold_left (fun h c => fst (noria_apply h c)) cs h.

(** The loop over the changeset, up to and with [sqlite3changeset_finalize]. *)
Fixpoint process_changes (fuel : nat) (e : IterEnv) (n : Noria) (h : H) (p : changeset_iter) : option H :=
  match fuel with
  | O => None
  | S fuel =>
      '(p, rc) ← sqlite3changeset_next e p;
      if rc =? SQLITE_ROW then
        cs ← row_calls n h p; process_changes fuel e n (apply_calls h cs) p
      else _ ← sqlite3changeset_finalize (Some p); Some h
  end.

(** The session object at an address of the connection's list. *)
Fixpoint find_session (p : Z) (c : Chain) : option sqlite3_session :=
  match c with
  | [] => None
  | (q, s) :: c => if q =? p then Some s else find_session p c
  end.

Definition store_session (p : Z) (s : sqlite3_session) (c : Chain) : Chain :=
  (fun e => if e.1 =? p then (e.1, s) else e) <$> c.

(** The end of [ProcessSessionChangeset]: the session is replaced. *)
Definition renew_session (malloc : option Z) (n : Noria) (p : Z) : Noria :=
  let chain := sqlite3session_delete (n_chain n) p in
  match sqlite3session_create malloc chain main_db with
  | (rc, chain, q) =>
      set_session n q
        (match q with
         | Some q => if rc =? SQLITE_OK then attach_all chain q else chain
         | None => chain
         end)
  end.

Definition ProcessSessionChangeset (e : CdcEnv) (n : Noria) : option Noria :=
  match n_session n with
  | None => Some n
  | Some p =>
      if negb (n_has_any_views n) then Some n
      else if negb (ce_autocommit e) then Some n
      else
        s ← find_session p (n_chain n);
        '(rc, s, changeset) ← sqlite3session_changeset (ce_gen e) s;
        let n := set_session n (Some p) (store_session p s (n_chain n)) in
        if negb (rc =? SQLITE_OK) then Some (ClearBufferedOldRows n)
        else if Zlen changeset =? 0 then Some (ClearBufferedOldRows n)
        else
          match sqlite3changeset_start (ce_start e) changeset with
          | (rc, None) => Some (ClearBufferedOldRows n)
          | (rc, Some iter) =>
              h ← n_handle n;
              h ← process_changes (in_pending (it_in iter)) (ce_iter e) n h iter;
              Some (renew_session (ce_session e) (ClearBufferedOldRows (set_handle n (Some h))) p)
          end
  end.

(** ** The other methods *)

Definition HasView (n : Noria) (sql : list Z) : bool :=
  match n_handle n with
  | Some h => n_enabled n && negb (noria_has_view h sql =? 0)
  | None => false
  end.

Definition TableHasViews (n : Noria) (table : list Z) : bool :=
  match n_handle n with
  | Some h => n_enabled n && n_has_any_views n && negb (noria_table_has_views h table =? 0)
  | None => false
  end.

Definition GetTableId (n : Noria) (table : list Z) : Z :=
  match n_handle n with
  | Some h => if n_enabled n && n_has_any_views n then noria_get_table_id h table else -1
  | None => -1
  end.

Definition QueueInvalidateById (n : Noria) (table_id : Z) : Noria * Z :=
  match n_handle n with
  | Some h =>
      if n_enabled n && (0 <=? table_id)
      then let '(h, rc) := noria_queue_invalidate_by_id h table_id in (set_handle n (Some h), rc)
      else (n, -1)
  | None => (n, -1)
  end.

Definition not_found : NoriaLookupResult := mkLookup 0 0 None.

Definition Lookup (n : Noria) (view_id : Z) (keys : list NoriaValue) : Noria * NoriaLookupResult :=
  match n_handle n with
  | Some h =>
      if n_enabled n
      then let '(h, r) := noria_lookup h view_id keys in (set_handle n (Some h), r)
      else (n, not_found)
  | None => (n, not_found)
  end.

Definition LookupOrUpquery (n : Noria) (view_id : Z) (keys : list NoriaValue)
    : Noria * NoriaLookupResult :=
  match n_handle n with
  | Some h =>
      if n_enabled n
      then let '(h, r) := noria_lookup_or_upquery h view_id keys in (set_handle n (Some h), r)
      else (n, not_found)
  | None => (n, not_found)
  end.

Definition GetStats (n : Noria) : NoriaCacheStats :=
  match n_handle n with
  | Some h => if n_enabled n then noria_get_stats h else mkStats 0 0 0 0 0 0 0 0 0
  | None => mkStats 0 0 0 0 0 0 0 0 0
  end.

(** [QueueInsert], [QueueDelete] and [QueueUpdate]. *)
Definition Queue (n : Noria) (c : cdc_call) : Noria * Z :=
  match n_handle n with
  | Some h =>
      if n_enabled n
      then let '(h, rc) := noria_queue h c in (set_handle n (Some h), rc)
      else (n, -1)
  | None => (n, -1)
  end.

Definition Flush (e : CdcEnv) (n : Noria) : option (Noria * Z) :=
  if negb (IsEnabled n) then Some (n, 0)
  else
    n ← ProcessSessionChangeset e n;
    h ← n_handle n;
    let '(h, rc) := noria_flush h in
    Some (set_handle n (Some h), rc).

Definition NotifyChange (e : CdcEnv) (n : Noria) : option Noria := ProcessSessionChangeset e n.

(** The destructor: the list of sessions it leaves. *)
Definition Noria_destroy (n : Noria) : Chain :=
  match n_session n with
  | None => n_chain n
  | Some p =>
      let chain := if n_db n then fst (sqlite3_preupdate_hook (n_chain n) []) else n_chain n in
      sqlite3session_delete chain p
  end.

End Object.

Arguments Noria : clear implicits.
