(* ===== verification/NoriaSql.v ===== *)
(** * Registering views ([class Noria], noria.cpp)

    The scan of a SELECT for the names of its tables, the registration of
    their schemas and of the view, and the queries the engine asks the
    connection to run on a cache miss. *)
From stdpp Require Import gmap strings.
From S2P Require Import Prelude Bits Varint Value Record Strings Buffer Session SelectSql Changeset Iterator Noria.

Local Open Scope Z_scope.

(** ** Text *)

(** [toupper] and [isspace] in the C locale. *)
Definition toupper (c : Z) : Z := if (97 <=? c) && (c <=? 122) then c - 32 else c.

Definition isspace (c : Z) : bool := (c =? 32) || ((9 <=? c) && (c <=? 13)).

(** Whether [s] starts with [kw]. *)
Fixpoint starts_with (kw s : list Z) : bool :=
  match kw, s with
  | [], _ => true
  | k :: kw, c :: s => (k =? c) && starts_with kw s
  | _ :: _, [] => false
  end.

(** [s.find(kw)]: the first position, [None] for [npos]. *)
Fixpoint find_text (kw s : list Z) : option nat :=
  if starts_with kw s then Some O
  else match s with [] => None | _ :: s => S <$> find_text kw s end.

(** [s.find(kw, pos)]. *)
Definition find_at (kw s : list Z) (pos : nat) : option nat :=
  if (length s <? pos)%nat then None else Nat.add pos <$> find_text kw (drop pos s).

(** Number of characters satisfying [f] at the head of [s]. *)
Fixpoint run (f : Z -> bool) (s : list Z) : nat :=
  match s with
  | c :: s => if f c then S (run f s) else O
  | [] => O
  end.

(** ** Table names *)

Definition ends_from (c : Z) : bool := isspace c || (c =? 44) || (c =? 40) || (c =? 41).
Definition ends_join (c : Z) : bool := isspace c || (c =? 40) || (c =? 41).

(** The name after position [pos], up to a character [stop]: the names found
    (none if it is empty) and the position after it. *)
Definition name_after (stop : Z -> bool) (sql sql_upper : list Z) (pos : nat) : list (list Z) * nat :=
  let start := (pos + run isspace (drop pos sql_upper))%nat in
  let len := run (fun c => negb (stop c)) (drop start sql_upper) in
  ((if (0 <? len)%nat then [take len (drop start sql)] else []), (start + len)%nat).

Definition from_tables (sql sql_upper : list Z) : list (list Z) :=
  match find_text (str "FROM") sql_upper with
  | None => []
  | Some p => fst (name_after ends_from sql sql_upper (p + 4))
  end.

(** The loop over the occurrences of one keyword, from [pos] on. *)
Fixpoint join_tables (fuel : nat) (kw sql sql_upper : list Z) (pos : nat) : list (list Z) :=
  match fuel with
  | O => []
  | S fuel =>
      match find_at kw sql_upper pos with
      | None => []
      | Some p =>
          let '(names, pos) := name_after ends_join sql sql_upper (p + length kw) in
          names ++ join_tables fuel kw sql sql_upper pos
      end
  end.

Definition join_keywords : list (list Z) :=
  [str "JOIN"; str "INNER JOIN"; str "LEFT JOIN"; str "RIGHT JOIN"; str "CROSS JOIN"].

(** The names [RegisterTablesFromSql] collects; every round of a loop moves
    the position forward, so [length sql] rounds are enough. *)
Definition sql_tables (sql : list Z) : list (list Z) :=
  let sql_upper := toupper <$> sql in
  from_tables sql sql_upper
  ++ concat ((fun kw => join_tables (S (length sql)) kw sql sql_upper 0) <$> join_keywords).

(** ** Schemas and views *)

(** What the connection answers: the result of preparing a PRAGMA, and the
    names in the rows it then returns. *)
Record SchemaEnv := mkSchemaEnv {
  sc_prepare : list Z -> Z;
  sc_names : list Z -> list (option (list Z))
}.

(** [snprintf(pragma_sql, 256, "PRAGMA table_info(%s)", table_name)]. *)
Definition pragma_sql (table_name : list Z) : list Z :=
  take 255 (str "PRAGMA table_info(" ++ table_name ++ str ")").

Section Views.

Context {H : Type} `{NoriaFfi H}.

Definition RegisterTableSchema (e : SchemaEnv) (n : Noria H) (table_name : list Z) : Noria H :=
  match n_handle n with
  | Some h =>
      if negb (IsEnabled n) || negb (n_db n) then n
      else if negb (sc_prepare e (pragma_sql table_name) =? SQLITE_OK) then n
      else
        let column_names := omap id (sc_names e (pragma_sql table_name)) in
        match column_names with
        | [] => n
        | _ => set_handle n (Some (noria_register_table_schema h table_name column_names))
        end
  | None => n
  end.

Definition RegisterTablesFromSql (e : SchemaEnv) (n : Noria H) (sql : list Z) : Noria H :=
  fold_left (RegisterTableSchema e) (sql_tables sql) n.

(** [RegisterView(sql)]; [malloc] is the allocation of the session. *)
Definition RegisterView (e : SchemaEnv) (malloc : option Z) (n : Noria H) (sql : list Z) : Noria H * Z :=
  if negb (IsEnabled n) then (n, -1)
  else
    let n := RegisterTablesFromSql e n sql in
    match n_handle n with
    | None => (n, -1)
    | Some h =>
        let '(h, result) := noria_register_view h sql in
        let n := set_handle n (Some h) in
        if 0 <=? result then (EnsureSession malloc (set_views n true), result) else (n, result)
    end.

End Views.

(** ** Upqueries *)

(** What the connection answers to an upquery: the result of preparing it,
    whether the container could be created, the rows for given parameters and
    the code that ends them. *)
Record UpqueryEnv := mkUpqueryEnv {
  uq_prepare : list Z -> Z;
  uq_rows_create : bool;
  uq_step : list Z -> list (Z * sqlite3_value) -> list (list sqlite3_value) * Z
}.

(** The parameters bound by the loop, from index [i + 1] on. *)
Fixpoint bind_params (i : Z) (params : list NoriaValue) : option (list (Z * sqlite3_value)) :=
  match params with
  | [] => Some []
  | nv :: params =>
      v ← BindNoriaValue nv;
      bs ← bind_params (i + 1) params;
      Some (match v with Some v => (i + 1, v) :: bs | None => bs end)
  end.

(** [ExecuteUpquery]: the result, [*out_rows] and [*out_row_count]. *)
Definition ExecuteUpquery (e : UpqueryEnv) (db : bool) (sql : option (list Z)) (params : list NoriaValue)
    : option (Z * option (list (list NoriaValue) * Z)) :=
  match sql with
  | None => Some (-1, None)
  | Some sql =>
      if negb db then Some (-1, None)
      else if negb (uq_prepare e sql =? SQLITE_OK) then Some (-1, None)
      else
        bound ← bind_params 0 params;
        if negb (uq_rows_create e) then Some (-1, None)
        else
          let rows := fst (uq_step e sql bound) in
          row_count ← int_ok (Zlen rows);
          Some (0, Some (map (map SqliteColumnToNoriaValue) rows, row_count))
  end.
