(* ===== verification/Cdc.v ===== *)
(** * Change data capture

    [ProcessSessionChangeset] against the session and the iterator: the calls
    it makes on the engine are those of the net difference of the database
    since the session started, table by table. *)
From stdpp Require Import gmap strings.
From S2P Require Import Prelude Bits Varint Value Record Strings Buffer Session Recorder Tracking SelectSql Changeset Generate Iterator IteratorSpec Noria.

Local Open Scope Z_scope.

(** Propagating a change does not register or drop a view. *)
Class NoriaFfiLaws (H : Type) `{NoriaFfi H} := {
  has_views_apply : forall h c t, noria_table_has_views (fst (noria_apply h c)) t = noria_table_has_views h t
}.

(** ** What a change sends *)

Definition nv_field (f : option sqlite3_value) : NoriaValue := SqliteValueToNoria f.

Definition nv_row (r : list sqlite3_value) : list NoriaValue := (fun v => SqliteValueToNoria (Some v)) <$> r.

(** [new_values] of an UPDATE: an absent field copies the old one. *)
Fixpoint sent_new (olds news : list (option sqlite3_value)) : list NoriaValue :=
  match olds, news with
  | o :: olds, n :: news => nv_field (match n with Some v => Some v | None => o end) :: sent_new olds news
  | _, _ => []
  end.

(** The call for a change. *)
Definition item_call (it : item) : cdc_call :=
  let '(pks, zName, d) := it in
  match d with
  | DInsert _ new => ApplyInsert zName (nv_row new)
  | DDelete _ old => ApplyDelete zName (nv_row old)
  | DUpdate _ old new =>
      ApplyUpdate zName (nv_field <$> upd_old pks old new) (sent_new (upd_old pks old new) (upd_new old new))
  end.

Lemma field_value_ok f : field_value (Some (SQLITE_OK, Some f)) = Some (nv_field f).
Proof. destruct f; reflexivity. Qed.

Lemma field_values_spec get fs i : (forall c f, fs !! c = Some f -> get (i + Z.of_nat c) = Some (SQLITE_OK, Some f)) ->
  field_values get (length fs) i = Some (nv_field <$> fs).
Proof.
  revert i. induction fs as [|f fs IH]; intros i Hg; cbn [length field_values]; [reflexivity|].
  pose proof (Hg 0%nat f eq_refl) as H0. rewrite Z.add_0_r in H0. rewrite H0, field_value_ok. cbn [mbind option_bind].
  rewrite IH; [reflexivity|]. intros c g Hc. rewrite <- (Hg (S c) g Hc). f_equal. lia.
Qed.

Lemma update_values_spec get olds news i : length news = length olds ->
  (forall c f, news !! c = Some f -> get (i + Z.of_nat c) = Some (SQLITE_OK, Some f)) ->
  update_values get i (nv_field <$> olds) = Some (sent_new olds news).
Proof.
  revert news i. induction olds as [|o olds IH]; intros [|f news] i L Hg; try discriminate; [reflexivity|].
  injection L as L. rewrite fmap_cons. cbn [update_values sent_new].
  pose proof (Hg 0%nat f eq_refl) as H0. rewrite Z.add_0_r in H0. rewrite H0. cbn [mbind option_bind].
  rewrite (IH news); [|exact L|intros c g Hc; rewrite <- (Hg (S c) g Hc); f_equal; lia].
  cbn [mbind option_bind]. destruct f; reflexivity.
Qed.

Section Process.

Context {H : Type} `{NoriaFfiLaws H}.

Lemma buffered_none (n : Noria H) p z nc rowid : n_buffered n = ∅ -> change_rowid p = Some rowid ->
  buffered_row n p z nc = Some None.
Proof.
  intros Hb E. unfold buffered_row. rewrite E. cbn [mbind option_bind]. unfold GetBufferedOldRow.
  rewrite Hb, lookup_empty. reflexivity.
Qed.

Lemma change_rowid_defined p pks zName d pre rest : shows p pks zName d pre rest -> delta_ok pks d ->
  0 < Zlen pks -> exists r, change_rowid p = Some r.
Proof.
  intros Hs Hd Hp. unfold change_rowid. change 0 with (Z.of_nat 0).
  rewrite (changeset_old_shows _ _ _ _ _ _ 0 Hs Hd) by (unfold Zlen in Hp; lia).
  unfold old_answer. destruct d; cbn [mbind option_bind]; eauto.
Qed.

Lemma answers_new p pks zName d pre rest c f : shows p pks zName d pre rest -> delta_ok pks d ->
  (forall i r, d <> DDelete i r) -> delta_news pks d !! c = Some f ->
  sqlite3changeset_new p (0 + Z.of_nat c) = Some (SQLITE_OK, Some f).
Proof.
  intros Hs Hd N Hc. pose proof (lookup_lt_Some _ _ _ Hc) as Hl. destruct (delta_lengths _ _ Hd) as [_ Ln].
  rewrite Z.add_0_l, (changeset_new_shows _ _ _ _ _ _ c Hs Hd) by lia. unfold new_answer. rewrite Hc.
  destruct d; try reflexivity. destruct (N ind old eq_refl).
Qed.

Lemma answers_old p pks zName d pre rest c f : shows p pks zName d pre rest -> delta_ok pks d ->
  (forall i r, d <> DInsert i r) -> delta_olds pks d !! c = Some f ->
  sqlite3changeset_old p (0 + Z.of_nat c) = Some (SQLITE_OK, Some f).
Proof.
  intros Hs Hd N Hc. pose proof (lookup_lt_Some _ _ _ Hc) as Hl. destruct (delta_lengths _ _ Hd) as [Lo _].
  rewrite Z.add_0_l, (changeset_old_shows _ _ _ _ _ _ c Hs Hd) by lia. unfold old_answer. rewrite Hc.
  destruct d; try reflexivity. destruct (N ind new eq_refl).
Qed.

Lemma nv_row_fields r : nv_field <$> (Some <$> r) = nv_row r.
Proof. rewrite <- list_fmap_compose. reflexivity. Qed.

Lemma row_call_spec (n : Noria H) p pks zName d pre rest : n_buffered n = ∅ -> 0 < Zlen pks ->
  shows p pks zName d pre rest -> delta_ok pks d ->
  row_call n p zName (Zlen pks) (delta_op d) = Some (Some (item_call (pks, zName, d))).
Proof.
  intros Hb Hp Hs Hd. destruct (delta_lengths _ _ Hd) as [Lo Ln].
  destruct (change_rowid_defined _ _ _ _ _ _ Hs Hd Hp) as [rowid Er].
  pose proof (buffered_none n p zName (Zlen pks) rowid Hb Er) as Ebuf. unfold row_call. rewrite Zlen_to_nat.
  destruct d as [ind r|ind r|ind o r];
    cbn [delta_op Z.eqb Pos.eqb SQLITE_INSERT SQLITE_DELETE SQLITE_UPDATE]; rewrite ?Ebuf; cbn [mbind option_bind].
  - rewrite <- Ln, field_values_spec by (intros; eapply answers_new; eauto; discriminate).
    cbn [mbind option_bind delta_news]. rewrite nv_row_fields. reflexivity.
  - rewrite <- Lo, field_values_spec by (intros; eapply answers_old; eauto; discriminate).
    cbn [mbind option_bind delta_olds]. rewrite nv_row_fields. reflexivity.
  - rewrite <- Lo, field_values_spec by (intros; eapply answers_old; eauto; discriminate). cbn [mbind option_bind].
    rewrite update_values_spec with (news := delta_news pks (DUpdate ind o r));
      [reflexivity|congruence|intros; eapply answers_new; eauto; discriminate].
Qed.

(** The calls for a list of changes, on tables that have views. *)
Definition item_calls (h : H) (items : list item) : list cdc_call :=
  item_call <$> filter (fun it => negb (noria_table_has_views h it.1.2 =? 0) = true) items.

Lemma row_calls_spec (n : Noria H) h p pks zName d pre rest : n_buffered n = ∅ -> 0 < Zlen pks ->
  shows p pks zName d pre rest -> delta_ok pks d ->
  row_calls n h p = Some (item_calls h [(pks, zName, d)]).
Proof.
  intros Hb Hp Hs Hd. unfold row_calls, sqlite3changeset_op. pose proof (sh_table _ _ _ _ _ _ Hs) as Ht.
  rewrite (tb_zTab _ _ _ _ Ht), (tb_nCol _ _ _ _ Ht), (sh_op _ _ _ _ _ _ Hs). rewrite (proj2 (Z.leb_gt _ _)) by exact Hp.
  unfold item_calls. rewrite filter_cons. cbn [fst snd].
  destruct (noria_table_has_views h zName =? 0) eqn:E; cbn [negb].
  - rewrite decide_False by discriminate. reflexivity.
  - rewrite decide_True by reflexivity. rewrite row_call_spec with (d := d) (pre := pre) (rest := rest) by auto. reflexivity.
Qed.

Lemma has_views_calls h cs t : noria_table_has_views (apply_calls h cs) t = noria_table_has_views h t.
Proof. revert h. induction cs as [|c cs IH]; intros h; [reflexivity|].
  change (apply_calls h (c :: cs)) with (apply_calls (fst (noria_apply h c)) cs). rewrite IH. apply has_views_apply.
Qed.

Lemma item_calls_same h cs items : item_calls (apply_calls h cs) items = item_calls h items.
Proof.
  unfold item_calls. f_equal. apply list_filter_iff. intros it. rewrite has_views_calls. reflexivity.
Qed.

Definition item_fine (it : item) : Prop := let '(pks, zName, d) := it in 0 < Zlen pks /\ delta_ok pks d.

Lemma item_calls_cons h it items : item_calls h (it :: items) = item_calls h [it] ++ item_calls h items.
Proof. unfold item_calls. rewrite <- fmap_app, <- filter_app. reflexivity. Qed.

Lemma apply_calls_app h cs ds : apply_calls h (cs ++ ds) = apply_calls (apply_calls h cs) ds.
Proof. unfold apply_calls. apply fold_left_app. Qed.

(** The loop over the changeset. *)
Lemma process_changes_spec e (n : Noria H) items fuel h p : iter_ample e -> n_buffered n = ∅ ->
  Forall item_fine items -> at_stream p items -> (length items < fuel)%nat ->
  process_changes fuel e n h p = Some (apply_calls h (item_calls h items)).
Proof.
  intros He Hb Hit. revert fuel h p. induction Hit as [|it items Hfine Hit IH]; intros [|fuel] h p Hp Hf;
    cbn [length] in Hf; try lia; cbn [process_changes].
  - destruct (next_stream_end e p Hp) as (p' & -> & Hp'). cbn [mbind option_bind].
    change (SQLITE_DONE =? SQLITE_ROW) with false. cbv iota. rewrite (finalize_stream _ _ Hp'). reflexivity.
  - destruct (next_stream e p it items Hp) as (p' & rc & -> & [[-> Hon]|[_ Ha]]); [|contradiction].
    cbn [mbind option_bind]. rewrite Z.eqb_refl. destruct it as [[pks z] d]. destruct Hfine as [Hpk Hd].
    destruct Hon as [(pre & rest & Hs) Hst].
    rewrite row_calls_spec with (d := d) (pks := pks) (zName := z) (pre := pre) (rest := rest) by auto.
    cbn [mbind option_bind]. rewrite IH by (auto; lia).
    rewrite item_calls_same, (item_calls_cons h _ items), apply_calls_app. reflexivity.
Qed.

(** ** The session of the object *)

Lemma find_session_one p s : find_session p [(p, s)] = Some s.
Proof. cbn. rewrite Z.eqb_refl. reflexivity. Qed.

Lemma store_session_one p s s' : store_session p s' [(p, s)] = [(p, s')].
Proof. unfold store_session. cbn. rewrite Z.eqb_refl. reflexivity. Qed.

Lemma renew_session_one (n : Noria H) p q s : n_chain n = [(p, s)] ->
  renew_session (Some q) n p = set_session n (Some q) [(q, start_session main_db)].
Proof.
  intros E. unfold renew_session, sqlite3session_delete, sqlite3_preupdate_hook. rewrite E. cbn [unlink].
  rewrite Z.eqb_refl. cbn. rewrite Z.eqb_refl. reflexivity.
Qed.

(** ** From the database to the engine *)

Section Database.

Context (names : list (list Z)) (schema : list Z -> tkind) (columns : list Z -> list (list Z)).
Context (Hschema : schema_ok names schema main_db).

(** The sections of the session as the iterator sees them. *)
Definition iter_section (sec : list Z * list delta) : option (list Z * list Z * list delta) :=
  match schema sec.1 with Keyed pks _ _ => Some (pks, sec.1, sec.2) | Keyless => None end.

Definition section_items (secs : sections) : list item := concat (changes_of <$> omap iter_section secs).

(** The calls for a difference. *)
Definition difference_calls (h : H) (secs : sections) : list cdc_call := item_calls h (section_items secs).

Lemma enc_iter_sections (secs : sections) : (forall n ds, (n, ds) ∈ secs -> schema n = Keyless -> ds = []) ->
  concat (enc_section schema <$> secs) = concat (enc_changes <$> omap iter_section secs).
Proof.
  induction secs as [|[n ds] secs IH]; intros Hk; [reflexivity|]. rewrite fmap_cons. cbn [concat].
  rewrite IH by (intros; eapply Hk; [constructor 2|]; eauto). cbn [omap list_omap].
  unfold enc_section at 1. destruct (iter_section (n, ds)) as [[[pks z] ds']|] eqn:E; unfold iter_section in E;
    cbn [fst snd] in *; destruct (schema n) as [pks' idx nt|] eqn:Es; try discriminate; [|reflexivity].
  injection E as -> -> ->. reflexivity.
Qed.

(** A section is the difference of its table. *)
Lemma difference_section D0 D secs n ds pks idx nt : exact_difference names schema D0 D secs ->
  (n, ds) ∈ secs -> schema n = Keyed pks idx nt -> net_diff pks (D0 n) (D n) ds.
Proof.
  intros (Hnd & Hin & Hex) Hsec Hs. destruct (Hin n ds Hsec) as [Hn _].
  destruct (Hex n pks idx nt Hn Hs) as [(ds' & Hds' & ND)|[_ N]].
  2: { destruct N. apply list_elem_of_fmap. exists (n, ds). auto. }
  assert (ds' = ds) as <-; [|exact ND].
  apply list_elem_of_lookup_1 in Hsec as (i & Hi), Hds' as (j & Hj).
  assert (i = j) as ->; [|congruence].
  eapply NoDup_lookup; [exact Hnd|..]; rewrite list_lookup_fmap; [rewrite Hi|rewrite Hj]; reflexivity.
Qed.

Lemma difference_delta D0 D secs n ds pks idx nt d : exact_difference names schema D0 D secs ->
  database_ok names schema D0 -> database_ok names schema D ->
  (n, ds) ∈ secs -> schema n = Keyed pks idx nt -> d ∈ ds -> delta_ok pks d.
Proof.
  intros HE HD0 HD Hsec Hs Hd. destruct (proj1 (proj2 HE) n ds Hsec) as [Hn _].
  specialize (HD0 n Hn). specialize (HD n Hn). rewrite Hs in HD0, HD.
  pose proof (difference_section _ _ _ _ _ _ _ _ HE Hsec Hs) as ND.
  split.
  - pose proof (proj1 (Forall_forall _ _) (nd_flag _ _ _ _ ND) d Hd) as Hf. unfold is_byte. cbn in Hf. lia.
  - pose proof (nd_sound _ _ _ _ ND d Hd) as Hs'. destruct d as [i r|i r|i o r].
    + apply (co_rows _ _ HD _ _ (proj2 Hs')).
    + apply (co_rows _ _ HD0 _ _ (proj1 Hs')).
    + destruct Hs' as (Ho & Hr & _). split; [apply (co_rows _ _ HD0 _ _ Ho)|apply (co_rows _ _ HD _ _ Hr)].
Qed.

Lemma iter_sections_ok D0 D secs : exact_difference names schema D0 D secs ->
  database_ok names schema D0 -> database_ok names schema D -> Forall section_ok (omap iter_section secs).
Proof.
  intros Hex HD0 HD. apply Forall_forall. intros [[pks z] ds] Hin.
  apply list_elem_of_omap in Hin as ([n ds'] & Hsec & E). unfold iter_section in E. cbn [fst snd] in E.
  destruct (schema n) as [pks' idx nt|] eqn:Es; [|discriminate]. injection E as -> -> ->.
  destruct (proj1 (proj2 Hex) z ds Hsec) as [Hn _]. pose proof (so_kind _ _ _ Hschema z Hn) as Hk.
  pose proof (so_flags _ _ _ Hschema z Hn) as Hf. rewrite Es in Hk, Hf. destruct Hk as [_ Hlen].
  destruct (so_cstring _ _ _ Hschema z Hn) as [Hc Hl]. split.
  - split; auto. lia.
  - apply Forall_forall. intros d Hd. eapply difference_delta; eauto.
Qed.

Lemma section_items_fine secs : Forall section_ok (omap iter_section secs) -> Forall item_fine (section_items secs).
Proof.
  unfold section_items. induction 1 as [|[[pks z] ds] l [Ht Hd] _ IH]; cbn; [constructor|].
  apply Forall_app. split; [|exact IH]. apply Forall_fmap. eapply Forall_impl; [exact Hd|].
  intros d Hok. split; [apply Ht|exact Hok].
Qed.

Lemma stream_length cur bs items : stream cur bs items -> (length items <= length bs)%nat.
Proof.
  induction 1 as [|pks z d bs items Hd _ IH|cur pks z d bs items Ht Hd _ IH]; cbn [length]; [lia|..];
    rewrite !length_app, enc_delta_split; cbn [length]; lia.
Qed.

Lemma no_bytes_no_items (secs : list (list Z * list Z * list delta)) :
  concat (enc_changes <$> secs) = [] -> concat (changes_of <$> secs) = [].
Proof.
  induction secs as [|[[pks z] ds] secs IH]; [reflexivity|]. rewrite !fmap_cons. cbn [concat enc_changes changes_of].
  intros E. apply app_eq_nil in E as [E1 E2]. rewrite (IH E2), app_nil_r. destruct ds as [|d ds]; [reflexivity|].
  apply (f_equal (@length Z)) in E1. discriminate.
Qed.

(** A changeset read by the loop. *)
Lemma process_changeset e (n : Noria H) h iter D0 D secs cs : iter_ample e -> n_buffered n = ∅ ->
  exact_difference names schema D0 D secs -> database_ok names schema D0 -> database_ok names schema D ->
  cs = concat (enc_section schema <$> secs) -> sqlite3changeset_start true cs = (SQLITE_OK, Some iter) ->
  process_changes (in_pending (it_in iter)) e n h iter = Some (apply_calls h (difference_calls h secs)).
Proof.
  intros He Hb Hex HD0 HD -> Es. pose proof (iter_sections_ok _ _ _ Hex HD0 HD) as Hok.
  rewrite enc_iter_sections in Es by (intros n' ds Hin; apply (proj1 (proj2 Hex)); exact Hin).
  destruct (start_stream _ _ eq_refl Hok) as (p & Es' & Hp). rewrite Es in Es'. injection Es' as <-.
  apply process_changes_spec; auto; [apply section_items_fine, Hok|].
  destruct Hp as (cur & pre & bs & Hat & Hst & _). apply stream_length in Hst. unfold in_pending.
  destruct (ia_pos _ _ _ Hat) as (-> & _ & _). rewrite length_app. fold (section_items secs) in Hst. lia.
Qed.

(** What the session answers to a notification: the status and the changeset. *)
Definition changeset_of (e : CdcEnv) (n : Noria H) : option (Z * list Z) :=
  p ← n_session n; s ← find_session p (n_chain n);
  '(rc, _, cs) ← sqlite3session_changeset (ce_gen e) s; Some (rc, cs).

(** The changeset could be made, and an iterator on it. *)
Definition extracted (e : CdcEnv) (n : Noria H) : bool :=
  ce_start e && match changeset_of e n with Some (rc, _) => rc =? SQLITE_OK | None => false end.

(** The notification makes the calls for a changeset that is not empty. *)
Definition delivers (e : CdcEnv) (n : Noria H) : bool :=
  ce_autocommit e && extracted e n && match changeset_of e n with Some (_, cs) => negb (Zlen cs =? 0) | None => false end.

(** The object owns the session [s] at [p] and has nothing buffered. *)
Record owns (n : Noria H) (p : Z) (s : sqlite3_session) (h : H) : Prop := {
  ow_session : n_session n = Some p;
  ow_chain : n_chain n = [(p, s)];
  ow_views : n_has_any_views n = true;
  ow_buffered : n_buffered n = ∅;
  ow_handle : n_handle n = Some h
}.

(** Nothing was told to the engine. *)
Definition unchanged (e : CdcEnv) (n : Noria H) (D0 D : database) (Ds : list database) (N : Z) (n' : Noria H) (p : Z) (h : H) : Prop :=
  exists s', owns n' p s' h /\ session_inv names schema main_db D0 (D :: Ds) N s' /\
    (extracted e n = true -> exists secs, exact_difference names schema D0 D secs /\ section_items secs = []).

(** The difference was told, and recording restarts. *)
Definition told_difference (D0 D : database) (n' : Noria H) (q : Z) (h : H) : Prop :=
  exists secs, exact_difference names schema D0 D secs /\ section_items secs <> [] /\
    owns n' q (start_session main_db) (apply_calls h (difference_calls h secs)).

Lemma no_items_no_bytes (secs : list (list Z * list Z * list delta)) : Forall section_ok secs ->
  concat (changes_of <$> secs) = [] -> concat (enc_changes <$> secs) = [].
Proof.
  induction 1 as [|[[pks z] ds] secs _ _ IH]; [reflexivity|]. rewrite !fmap_cons. cbn [concat enc_changes changes_of].
  intros E. apply app_eq_nil in E as [E1 E2]. rewrite (IH E2), app_nil_r. destruct ds; [reflexivity|discriminate].
Qed.

Lemma process_spec e (n : Noria H) p s h q D0 D Ds N : owns n p s h ->
  session_inv names schema main_db D0 (D :: Ds) N s -> engine_ok names schema columns main_db (ce_gen e) D ->
  database_ok names schema D0 -> database_ok names schema D ->
  ce_autocommit e = true -> iter_ample (ce_iter e) -> ce_session e = Some q ->
  exists n', ProcessSessionChangeset e n = Some n' /\
    if delivers e n then told_difference D0 D n' q h else unchanged e n D0 D Ds N n' p h.
Proof.
  intros [O1 O2 O3 O4 O5] HI Heng HD0 HD Hauto Hit Hq. unfold unchanged, delivers, extracted, changeset_of, ProcessSessionChangeset.
  rewrite O1, O3, Hauto, O2. cbn [mbind option_bind]. rewrite find_session_one. cbn [negb mbind option_bind andb].
  destruct (changeset_spec names schema columns main_db (ce_gen e) D0 D Ds N s HI Heng HD0 HD)
    as (rc & s' & cs & -> & (_ & Hok & _) & HI'). cbn [mbind option_bind].
  rewrite store_session_one.
  destruct (Z.eqb_spec rc SQLITE_OK) as [->|Nrc]; cbn [negb].
  2: { rewrite andb_false_r. cbn [andb]. eexists. split; [reflexivity|]. exists s'. split_and!; auto; [split; auto|discriminate]. }
  rewrite andb_true_r. destruct (Hok eq_refl) as (secs & Ecs & Hex).
  rewrite enc_iter_sections in Ecs by (intros n' ds Hin; apply (proj1 (proj2 Hex)); exact Hin).
  destruct (Z.eqb_spec (Zlen cs) 0) as [E0|N0]; cbn [negb].
  { rewrite andb_false_r. eexists. split; [reflexivity|]. exists s'. split_and!; auto; [split; auto|]. intros _. exists secs. split; [exact Hex|].
    apply no_bytes_no_items. rewrite <- Ecs. destruct cs; [reflexivity|]. zlia. }
  destruct (ce_start e) eqn:Est; cbn [andb].
  2: { eexists. split; [reflexivity|]. exists s'. split_and!; auto; [split; auto|discriminate]. }
  destruct (sqlite3changeset_start true cs) as [rc [iter|]] eqn:Es; [|discriminate].
  assert (rc = SQLITE_OK) as -> by (injection Es; congruence).
  cbn [n_handle set_session]. rewrite O5. cbn [mbind option_bind].
  rewrite (process_changeset _ _ h iter D0 D secs cs) by (auto; rewrite enc_iter_sections by (intros n' ds Hin; apply (proj1 (proj2 Hex)); exact Hin); exact Ecs).
  cbn [mbind option_bind]. rewrite Hq. eexists. split; [reflexivity|]. exists secs. split; [exact Hex|]. split.
  - intros Ei. apply N0. rewrite Ecs, (no_items_no_bytes _ (iter_sections_ok _ _ _ Hex HD0 HD) Ei). reflexivity.
  - rewrite renew_session_one with (s := s') by reflexivity. split; auto.
Qed.

(** Whether there is a new session does not matter for the rest. *)
Lemma process_defined e (n : Noria H) q :
  is_Some (ProcessSessionChangeset (mkCdcEnv (ce_autocommit e) (ce_gen e) (ce_start e) (ce_iter e) (Some q)) n) -> is_Some (ProcessSessionChangeset e n).
Proof.
  unfold ProcessSessionChangeset. destruct (n_session n) as [p|]; [|eauto]. destruct (n_has_any_views n); [|eauto].
  cbn [ce_autocommit ce_gen ce_start ce_iter ce_session]. destruct (ce_autocommit e); [|eauto]. cbn [negb].
  destruct (find_session p (n_chain n)) as [s|]; [|auto]. cbn [mbind option_bind].
  destruct (sqlite3session_changeset (ce_gen e) s) as [[[rc s'] cs]|]; [|auto]. cbn [mbind option_bind].
  destruct (negb (rc =? SQLITE_OK)); [eauto|]. destruct (Zlen cs =? 0); [eauto|].
  destruct (sqlite3changeset_start (ce_start e) cs) as [? [iter|]]; [|eauto]. cbn [set_session n_handle].
  destruct (n_handle n) as [h|]; [|auto]. cbn [mbind option_bind].
  match goal with |- context [process_changes ?f ?e ?n ?h ?i] => destruct (process_changes f e n h i) end; [eauto|auto].
Qed.

End Database.

End Process.
