(* ===== verification/InvertCorrect.v ===== *)
(** * The inverse of a session's changeset undoes the session

    [sqlite3changeset_invert] applied to what [sqlite3session_changeset]
    returns, and what it does with other input. *)
From stdpp Require Import gmap strings.
From S2P Require Import Prelude Bits Varint Value Record Strings Buffer Session Recorder Tracking SelectSql Changeset Generate Scenario Iterator IteratorSpec IteratorCorrect Noria Cdc Invert.

Local Open Scope Z_scope.

(** ** Sections of a session *)

Definition invert_sec (sec : list Z * list delta) : list Z * list delta := (sec.1, invert_delta <$> sec.2).

Lemma iter_invert_sections schema (secs : sections) :
  omap (iter_section schema) (invert_sec <$> secs) = invert_section <$> omap (iter_section schema) secs.
Proof.
  induction secs as [|[n ds] secs IH]; [reflexivity|]. cbn [fmap list_fmap omap list_omap].
  change (omap (iter_section schema) (list_fmap _ _ invert_sec secs)) with (omap (iter_section schema) (invert_sec <$> secs)).
  rewrite IH. unfold iter_section, invert_sec. cbn [fst snd]. destruct (schema n); reflexivity.
Qed.

Lemma deltas_length pks ds : (length ds <= length (concat (enc_delta pks <$> ds)))%nat.
Proof.
  induction ds as [|d ds IH]; [reflexivity|]. rewrite fmap_cons. cbn [concat length]. rewrite enc_delta_split, length_app.
  cbn [length]. lia.
Qed.

Lemma rounds_bound secs : (rounds secs <= length (concat (enc_changes <$> secs)))%nat.
Proof.
  induction secs as [|[[pks z] ds] secs IH]; [reflexivity|]. rewrite fmap_cons. cbn [concat]. rewrite length_app.
  change (rounds ((pks, z, ds) :: secs)) with (match ds with [] => O | _ => S (length ds) end + rounds secs)%nat.
  cbn [enc_changes]. destruct (decide (ds = [])) as [->|N]; [exact IH|]. rewrite enc_table_cons, length_app by exact N.
  pose proof (deltas_length pks ds). assert (1 <= length (enc_header pks z))%nat by (unfold enc_header; rewrite length_app; cbn; lia).
  assert (match ds with [] => O | _ => S (length ds) end <= S (length ds))%nat by (destruct ds; lia). lia.
Qed.

Lemma enc_deltas_len pks ds : Forall (delta_ok pks) ds -> Forall (keeps_key pks) ds ->
  length (concat (enc_delta pks <$> (invert_delta <$> ds))) = length (concat (enc_delta pks <$> ds)).
Proof.
  induction 1 as [|d ds Hd _ IH]; intros Hk; [reflexivity|]. apply Forall_cons in Hk as [Hk Hks].
  rewrite !fmap_cons. cbn [concat]. rewrite !length_app, IH by exact Hks.
  pose proof (enc_invert_len _ _ Hd Hk). unfold Zlen in *. lia.
Qed.

Lemma enc_sections_len secs : Forall section_ok secs -> Forall section_keeps secs ->
  length (concat (enc_changes <$> (invert_section <$> secs))) = length (concat (enc_changes <$> secs)).
Proof.
  induction 1 as [|[[pks z] ds] secs [_ Hd] _ IH]; intros Hk; [reflexivity|]. apply Forall_cons in Hk as [Hk Hks].
  rewrite !fmap_cons. cbn [concat]. rewrite !length_app, IH by exact Hks. f_equal. cbn [invert_section enc_changes].
  destruct (decide (ds = [])) as [->|N]; [reflexivity|].
  rewrite !enc_table_cons, !length_app, enc_deltas_len; auto. destruct ds; [contradiction|discriminate].
Qed.

Section Database.

Context (names : list (list Z)) (schema : list Z -> tkind).
Context (Hschema : schema_ok names schema main_db).
Context (D0 D : database) (H0 : database_ok names schema D0) (H1 : database_ok names schema D).

Lemma keyed_contents n pks idx nt : n ∈ names -> schema n = Keyed pks idx nt ->
  contents_ok pks (D0 n) /\ contents_ok pks (D n).
Proof. intros Hn Hs. specialize (H0 n Hn). specialize (H1 n Hn). rewrite Hs in *. auto. Qed.

Lemma difference_keeps secs : exact_difference names schema D0 D secs ->
  Forall section_keeps (omap (iter_section schema) secs).
Proof.
  intros HE. apply Forall_forall. intros [[pks z] ds] Hin. apply list_elem_of_omap in Hin as ([n ds'] & Hsec & E).
  unfold iter_section in E. cbn [fst snd] in E. destruct (schema n) as [pks' idx nt|] eqn:Es; [|discriminate].
  injection E as -> -> ->. destruct (proj1 (proj2 HE) z ds Hsec) as [Hn _].
  destruct (keyed_contents _ _ _ _ Hn Es) as [HC0 HC]. cbn [section_keeps].
  eapply net_diff_keeps; [exact HC0|exact HC|]. eapply difference_section; eauto.
Qed.

(** The inverted sections are the difference the other way round. *)
Lemma difference_inverse secs : exact_difference names schema D0 D secs ->
  exact_difference names schema D D0 (invert_sec <$> secs).
Proof.
  intros HE. assert ((invert_sec <$> secs).*1 = secs.*1) as En by (rewrite <- list_fmap_compose; reflexivity).
  pose proof HE as (Hnd & Hin & Hex). split; [rewrite En; exact Hnd|]. split.
  - intros n ds Hsec. apply list_elem_of_fmap in Hsec as ([n' ds'] & [= -> ->] & Hsec).
    destruct (Hin _ _ Hsec) as [Hn Hk]. split; [exact Hn|]. intros E. cbn. rewrite (Hk E). reflexivity.
  - intros n pks idx nt Hn Hs. rewrite En. destruct (Hex n pks idx nt Hn Hs) as [(ds & Hsec & ND)|[E N]]; [left|right; auto].
    exists (invert_delta <$> ds). split; [apply list_elem_of_fmap; exists (n, ds); auto|].
    destruct (keyed_contents _ _ _ _ Hn Hs). apply net_diff_inverse; auto.
Qed.

Lemma invert_difference fuel e secs : exact_difference names schema D0 D secs -> invert_ample e ->
  Zlen (concat (enc_section schema <$> secs)) + 16 <= SESSION_MAX_BUFFER_SZ ->
  (length (concat (enc_section schema <$> secs)) < fuel)%nat ->
  sqlite3changeset_invert fuel e (concat (enc_section schema <$> secs))
  = Some (SQLITE_OK, concat (enc_section schema <$> (invert_sec <$> secs))).
Proof.
  intros HE He Hlen Hf. pose proof (difference_inverse _ HE) as HE'.
  pose proof (enc_iter_sections schema secs (fun n ds Hin => proj2 (proj1 (proj2 HE) n ds Hin))) as E.
  rewrite (enc_iter_sections schema (invert_sec <$> secs) (fun n ds Hin => proj2 (proj1 (proj2 HE') n ds Hin))).
  rewrite E in *. rewrite iter_invert_sections. apply invert_encodes; auto.
  - eapply iter_sections_ok; eauto.
  - apply difference_keeps, HE.
  - pose proof (rounds_bound (omap (iter_section schema) secs)). lia.
Qed.

(** The inverse has the length of the changeset. *)
Lemma invert_difference_len secs : exact_difference names schema D0 D secs ->
  length (concat (enc_section schema <$> (invert_sec <$> secs))) = length (concat (enc_section schema <$> secs)).
Proof.
  intros HE. pose proof (difference_inverse _ HE) as HE'.
  rewrite (enc_iter_sections schema (invert_sec <$> secs) (fun n ds Hin => proj2 (proj1 (proj2 HE') n ds Hin))).
  rewrite (enc_iter_sections schema secs (fun n ds Hin => proj2 (proj1 (proj2 HE) n ds Hin))).
  rewrite iter_invert_sections. apply enc_sections_len; [eapply iter_sections_ok; eauto|apply difference_keeps, HE].
Qed.

End Database.

(** The changeset of a session, inverted: if [sqlite3session_changeset]
    succeeds in any reachable state, memory is available and the changeset fits
    a buffer, [sqlite3changeset_invert] ends without error and returns the
    encoding of exactly the difference from the database now back to the
    database at the start of the session; inverting that again gives back the
    session's changeset, byte for byte. *)
Theorem invert_undoes_session names schema columns D0 k st g s' cs fuel e :
  schema_ok names schema main_db -> database_ok names schema D0 ->
  reach names schema main_db D0 k st -> Z.of_nat k < 2 ^ 24 ->
  engine_ok names schema columns main_db g (st_db st) ->
  sqlite3session_changeset g (st_session st) = Some (SQLITE_OK, s', cs) ->
  invert_ample e -> Zlen cs + 16 <= SESSION_MAX_BUFFER_SZ -> (length cs < fuel)%nat ->
  exists secs, let back := concat (enc_section schema <$> secs) in
    exact_difference names schema (st_db st) D0 secs /\
    sqlite3changeset_invert fuel e cs = Some (SQLITE_OK, back) /\
    sqlite3changeset_invert fuel e back = Some (SQLITE_OK, cs).
Proof.
  intros Hs HD0 Hr Hk He Ecs Ha Hlen Hf. destruct (reach_ok names schema main_db D0 k st HD0 Hr) as [HD _].
  destruct (changeset_spec names schema columns main_db g D0 (st_db st) (st_saves st) (2 * Z.of_nat k) (st_session st))
    as (rc & s1 & cs1 & E & (_ & Hok & _) & _); eauto using reach_inv.
  rewrite Ecs in E. injection E as <- <- <-. destruct (Hok eq_refl) as (secs & -> & HE).
  exists (invert_sec <$> secs). cbv zeta. pose proof (difference_inverse names schema D0 (st_db st) HD0 HD secs HE) as HE'.
  pose proof (invert_difference names schema Hs D0 (st_db st) HD0 HD fuel e secs HE Ha Hlen Hf) as E1.
  assert (invert_sec <$> (invert_sec <$> secs) = secs) as E2.
  { apply fmap_twice. intros [n ds]. unfold invert_sec. cbn. rewrite (fmap_twice _ _ invert_delta_twice). reflexivity. }
  split_and!; [exact HE'|exact E1|]. rewrite <- E2 at 2.
  pose proof (invert_difference_len names schema Hs D0 (st_db st) HD0 HD secs HE) as El.
  apply (invert_difference names schema Hs (st_db st) D0 HD HD0); auto; unfold Zlen in *; lia.
Qed.

Definition demo_invert : InvertEnv := mkInvertEnv demo_iter (fun _ => false).

Definition demo_undone : sqlite3_session * list Z :=
  match sqlite3session_changeset (demo_gen (st_db demo_st3 demo_t)) (st_session demo_st3) with
  | Some (_, s, cs) => (s, cs)
  | None => (st_session demo_st3, [])
  end.

Lemma invert_undoes_session_witness :
  (exists secs, let back := concat (enc_section demo_schema <$> secs) in
    exact_difference demo_names demo_schema (st_db demo_st3) demo_D0 secs /\
    sqlite3changeset_invert 200 demo_invert demo_undone.2 = Some (SQLITE_OK, back) /\
    sqlite3changeset_invert 200 demo_invert back = Some (SQLITE_OK, demo_undone.2)) /\
  sqlite3changeset_invert 200 demo_invert demo_undone.2
  = Some (SQLITE_OK, enc_table demo_pks demo_t [DDelete 0 (demo_row 1 "a"); DUpdate 0 (demo_row 3 "y") (demo_row 3 "x")]).
Proof.
  split; [|vm_compute; reflexivity].
  apply (invert_undoes_session demo_names demo_schema demo_columns demo_D0 3 demo_st3 (demo_gen (st_db demo_st3 demo_t)) demo_undone.1).
  - exact demo_schema_ok.
  - exact demo_database_ok.
  - exact demo_reach.
  - reflexivity.
  - intros n Hn. exact (demo_engine_ok (st_db demo_st3) n Hn).
  - vm_compute. reflexivity.
  - split; [split_and!; reflexivity|reflexivity].
  - vm_compute. discriminate.
  - vm_compute. lia.
Defined.

(** ** Other input *)

(** The size in the record of a truncated changeset is not compared with the
    input: the copy reads past its end. *)
Lemma truncated_record_faults :
  sqlite3changeset_invert 10 demo_invert ([84; 1; 1; 116; 0] ++ [SQLITE_INSERT; 0; SQLITE_TEXT; 100; 97]) = None.
Proof. reflexivity. Qed.

(** A negative size moves the input back. *)
Definition stuck_entry : list Z := [SQLITE_INSERT; 0; SQLITE_TEXT; 0x8f; 0xff; 0xff; 0xff; 0x78].
Definition stuck_changeset : list Z := [84; 1; 1; 116; 0] ++ stuck_entry.

Definition stuck_input : SessionInput := mkInput false 0 5 stuck_changeset empty_buffer None false.

Lemma stuck_round e s : (forall n, ie_realloc (ive_iter e) n = true) -> iv_in s = stuck_input -> iv_nCol s = 1 ->
  buffer_ok (iv_sOut s) -> nBuf (iv_sOut s) + 18 <= SESSION_MAX_BUFFER_SZ ->
  exists s', invert_entry e s SQLITE_INSERT = Some (s', SQLITE_OK) /\ iv_in s' = stuck_input /\ iv_nCol s' = 1 /\
    buffer_ok (iv_sOut s') /\ nBuf (iv_sOut s') = nBuf (iv_sOut s) + 2.
Proof.
  intros Ha Ei En Hb Hf. change (invert_entry e s SQLITE_INSERT) with (invert_row (ive_iter e) s SQLITE_INSERT).
  unfold invert_row. rewrite Ei, En.
  change (at_ (in_aData stuck_input) (in_iNext stuck_input + 1)) with (Some 0). cbn [mbind option_bind].
  change (sessionChangesetBufferRecord (ie_realloc (ive_iter e)) (set_iNext stuck_input (in_iNext stuck_input + 2)) 1)
    with (Some (set_iNext stuck_input 7, -2, SQLITE_OK)). cbn [mbind option_bind].
  change (if SQLITE_INSERT =? SQLITE_DELETE then SQLITE_INSERT else SQLITE_DELETE) with SQLITE_DELETE.
  append (appendByte_spec (ie_realloc (ive_iter e)) (iv_sOut s) SQLITE_DELETE SQLITE_OK Hb ltac:(vm_compute; intuition discriminate)).
  append (appendByte_spec (ie_realloc (ive_iter e)) p 0 SQLITE_OK Hp ltac:(unfold is_byte; lia)).
  eexists. split; [reflexivity|]. cbn [iv_in iv_nCol iv_sOut]. split_and!; auto. unfold nBuf. rewrite Ep0, Ep. zlia.
Qed.

(** A changeset of 13 bytes keeps the loop running for 2^30 rounds, writing two
    bytes each, instead of being reported as corrupt. *)
Lemma negative_size_spins fuel : Z.of_nat fuel < 2 ^ 30 - 200 -> sqlite3changeset_invert fuel demo_invert stuck_changeset = None.
Proof.
  intros Hf.
  assert (forall fuel s, iv_in s = stuck_input -> iv_nCol s = 1 -> buffer_ok (iv_sOut s) ->
    nBuf (iv_sOut s) + 2 * Z.of_nat fuel + 16 <= SESSION_MAX_BUFFER_SZ -> invert_loop fuel demo_invert s in_memory = None) as Hloop.
  { clear. intros fuel. induction fuel as [|fuel IH]; intros s Ei En Hb Hf; [reflexivity|].
    destruct (stuck_round demo_invert s) as (s' & E & Ei' & En' & Hb' & Eb'); auto; [lia|].
    rewrite (invert_round fuel _ _ s' [84; 1; 1; 116; 0] SQLITE_INSERT (drop 1 stuck_entry)); [|rewrite Ei; split_and!; reflexivity|exact E].
    apply IH; auto. lia. }
  destruct fuel as [|fuel]; [reflexivity|]. unfold sqlite3changeset_invert, sessionChangesetInvert. fold in_memory.
  set (s0 := mkInvert _ _ _ _ _).
  rewrite (invert_round fuel _ s0 (mkInvert stuck_input 1 (mkBuffer [1] 256) false (mkBuffer [84; 1; 1; 116; 0] 256))
    [] 84 (drop 1 stuck_changeset)); [|split_and!; reflexivity|reflexivity].
  rewrite Hloop; [reflexivity..| |].
  - split; vm_compute; discriminate.
  - unfold nBuf, SESSION_MAX_BUFFER_SZ. change (Zlen _) with 5 at 1. lia.
Qed.

(** ** A lost error *)

(** A table with a text key; the inverse of the INSERT fills the output buffer,
    so that the UPDATE has to grow it. *)
Definition lost_secs : list (list Z * list Z * list delta) :=
  [([1; 0], str "t",
    [DInsert 0 [VText (replicate 244 97); VNull];
     DUpdate 0 [VText (replicate 300 98); VInt 1] [VText (replicate 300 98); VInt 2]])].

(** Reading the old record discards the error of writing the operation: when
    growing the buffer to 512 bytes fails and to 1024 bytes succeeds, the call
    returns [SQLITE_OK] and an output without the two first bytes of the
    UPDATE. *)
Lemma lost_nomem :
  let e := mkInvertEnv (mkIterEnv (fun n => negb (n =? 512)) (fun _ => true) (fun _ => true)) (fun _ => false) in
  match sqlite3changeset_invert 10 e (concat (enc_changes <$> lost_secs)) with
  | Some (rc, out) => rc = SQLITE_OK /\
      exists a b, concat (enc_changes <$> (invert_section <$> lost_secs)) = a ++ [SQLITE_UPDATE; 0] ++ b /\ out = a ++ b
  | None => False
  end.
Proof.
  vm_compute. split; [reflexivity|].
  exists (take 256 (concat (enc_changes <$> (invert_section <$> lost_secs)))),
    (drop 258 (concat (enc_changes <$> (invert_section <$> lost_secs)))). vm_compute. auto.
Qed.
