(* ===== verification/CdcMachine.v ===== *)
(** * The connection, its session and the engine

    A machine with the three parties: the database changes row by row inside
    and outside transactions, the pre-update hook records, and Noria is
    notified.  Its invariant says which state of the database the engine has
    been told about. *)
From stdpp Require Import gmap strings.
From S2P Require Import Prelude Bits Varint Value Record Strings Buffer Session Recorder Tracking SelectSql Changeset Generate Iterator IteratorSpec Noria Cdc.

Local Open Scope Z_scope.

Section System.

Context {H : Type} `{NoriaFfiLaws H}.
Context (names : list (list Z)) (schema : list Z -> tkind) (columns : list Z -> list (list Z)).
Context (Hschema : schema_ok names schema main_db).

(** [y_told] is the database at the last notification that delivered a
    changeset, or at the start. *)
Record sys := mkSys {
  y_db : database;
  y_saves : list database;
  y_noria : Noria H;
  y_told : database
}.

(** What the environment grants a notification: the engine calls see the
    current database, the iterator has memory, and [sqlite3_get_autocommit]
    is true exactly outside transactions. *)
Record notify_ok (e : CdcEnv) (y : sys) : Prop := {
  no_engine : engine_ok names schema columns main_db (ce_gen e) (y_db y);
  no_auto : ce_autocommit e = bool_decide (y_saves y = []);
  no_iter : iter_ample (ce_iter e)
}.

Inductive sys_step : sys -> sys -> Prop :=
  | sys_row y p s h ev s' :
      owns (y_noria y) p s h -> event_ok names schema (y_db y) ev -> fire main_db ev s = Some s' ->
      sys_step y (mkSys (db_apply schema (ev_name ev) (ev_change ev) (y_db y)) (y_saves y)
                    (set_session (y_noria y) (Some p) [(p, s')]) (y_told y))
  | sys_savepoint y : sys_step y (mkSys (y_db y) (y_db y :: y_saves y) (y_noria y) (y_told y))
  | sys_release y D saves : y_saves y = D :: saves -> sys_step y (mkSys (y_db y) saves (y_noria y) (y_told y))
  | sys_rollback y D saves : y_saves y = D :: saves -> sys_step y (mkSys D saves (y_noria y) (y_told y))
  | sys_notify y e n' :
      notify_ok e y -> is_Some (ce_session e) -> NotifyChange e (y_noria y) = Some n' ->
      sys_step y (mkSys (y_db y) (y_saves y) n' (if delivers e (y_noria y) then y_db y else y_told y)).

(** States reachable in [k] steps from an object with a fresh session. *)
Inductive sys_reach (D0 : database) (h0 : H) : nat -> sys -> Prop :=
  | sys_start n p : owns n p (start_session main_db) h0 -> sys_reach D0 h0 O (mkSys D0 [] n D0)
  | sys_more k y y' : sys_reach D0 h0 k y -> sys_step y y' -> sys_reach D0 h0 (S k) y'.

(** The engine [h] has been brought from [D0] to [D], one difference after
    the other. *)
Inductive told (D0 : database) (h0 : H) : database -> H -> Prop :=
  | told_start : told D0 h0 D0 h0
  | told_more D h D' secs :
      told D0 h0 D h -> exact_difference names schema D D' secs ->
      told D0 h0 D' (apply_calls h (difference_calls schema h secs)).

Definition sys_inv (D0 : database) (h0 : H) (N : Z) (y : sys) : Prop :=
  exists p s h, told D0 h0 (y_told y) h /\ owns (y_noria y) p s h /\
    session_inv names schema main_db (y_told y) (y_db y :: y_saves y) N s /\
    database_ok names schema (y_told y) /\ database_ok names schema (y_db y) /\
    Forall (database_ok names schema) (y_saves y).

Lemma not_delivers_inside e (n : Noria H) : ce_autocommit e = false -> delivers e n = false.
Proof. intros E. unfold delivers. rewrite E. reflexivity. Qed.

(** Every notification is defined; outside a transaction it tells the
    difference, unless there is none or a call failed. *)
Lemma notify_spec e D0 h0 N y : sys_inv D0 h0 N y -> notify_ok e y -> is_Some (ce_session e) -> 0 <= N ->
  exists n', NotifyChange e (y_noria y) = Some n' /\
    sys_inv D0 h0 N (mkSys (y_db y) (y_saves y) n' (if delivers e (y_noria y) then y_db y else y_told y)).
Proof.
  intros (p & s & h & Ht & Ho & HI & HD1 & HD & HDs) [He Ha Hi] [q Hq] HN. unfold NotifyChange.
  destruct (bool_decide_reflect (y_saves y = [])) as [Es|Ns].
  - destruct (process_spec names schema columns Hschema e (y_noria y) p s h q (y_told y) (y_db y) (y_saves y) N) as (n' & E & K); auto.
    exists n'. split; [exact E|]. destruct (delivers e (y_noria y)).
    + destruct K as (secs & Hex & _ & Ho'). eexists q, _, _. cbn [y_db y_saves y_noria y_told]. split; [eapply told_more; eauto|]. split; [exact Ho'|].
      rewrite Es. split_and!; auto. eapply session_inv_incl; [reflexivity| |apply start_inv]. exact HN.
    + destruct K as (s' & Ho' & HI' & _). exists p, s', h. split_and!; auto.
  - exists (y_noria y). split.
    + destruct Ho as [O1 O2 O3 O4 O5]. unfold ProcessSessionChangeset. rewrite O1, O3, Ha. reflexivity.
    + rewrite not_delivers_inside by exact Ha. exists p, s, h. split_and!; auto.
Qed.

Lemma sys_step_inv D0 h0 N y y' : sys_inv D0 h0 N y -> sys_step y y' -> 0 <= N < 2 ^ 25 ->
  sys_inv D0 h0 (N + 2) y'.
Proof.
  intros HI Hs HN. pose proof HI as (p & s & h & Ht & Ho & HS & HD1 & HD & HDs).
  destruct Hs as [y p' s0 h' ev s' Ho' Hev Hf|y|y D saves E|y D saves E|y e n' Hno Hq E]; cbn [y_db y_saves y_noria y_told] in *.
  - assert (p' = p /\ s0 = s /\ h' = h) as (-> & -> & ->).
    { destruct Ho as [A1 A2 _ _ A5], Ho' as [B1 B2 _ _ B5]. split_and!; congruence. }
    destruct (fire_inv names schema main_db Hschema ev (y_told y) (y_db y) (y_saves y) N s HS Hev HN) as (s1 & E1 & HS1 & _).
    rewrite Hf in E1. injection E1 as <-. exists p, s', h. split_and!; auto.
    + destruct Ho. split; auto.
    + apply db_apply_ok; auto.
  - exists p, s, h. cbn [y_db y_saves y_noria y_told]. split_and!; auto. eapply session_inv_incl; [|  |exact HS]; [|lia].
    intros D HD'. apply elem_of_cons in HD' as [->|HD']; [constructor|exact HD'].
  - rewrite E in *. apply Forall_cons in HDs as [_ HDs]. exists p, s, h. cbn [y_db y_saves y_noria y_told]. split_and!; auto.
    eapply session_inv_incl; [|  |exact HS]; [|lia].
    intros D' HD'. apply elem_of_cons in HD' as [->|HD']; repeat constructor; exact HD'.
  - rewrite E in *. apply Forall_cons in HDs as [HDD HDs]. exists p, s, h. cbn [y_db y_saves y_noria y_told]. split_and!; auto.
    eapply session_inv_incl; [|  |exact HS]; [|lia].
    intros D' HD'. apply elem_of_cons in HD' as [->|HD']; repeat constructor; exact HD'.
  - destruct (notify_spec e D0 h0 N y HI Hno Hq ltac:(lia)) as (n1 & E1 & (p2 & s2 & h2 & T2 & O2 & S2 & R2)).
    rewrite E in E1. injection E1 as <-. exists p2, s2, h2. split_and!; try apply R2; auto.
    eapply session_inv_incl; [reflexivity|  |exact S2]. lia.
Qed.

Lemma sys_reach_inv D0 h0 k y : database_ok names schema D0 -> sys_reach D0 h0 k y -> Z.of_nat k < 2 ^ 24 ->
  sys_inv D0 h0 (2 * Z.of_nat k) y.
Proof.
  intros HD0. induction 1 as [n p Ho|k y y' Hr IH Hs]; intros Hk.
  - exists p, (start_session main_db), h0. cbn [y_db y_saves y_noria y_told]. split_and!; auto; [constructor|].
    eapply session_inv_incl; [reflexivity|  |apply start_inv]. lia.
  - specialize (IH ltac:(lia)). replace (2 * Z.of_nat (S k)) with (2 * Z.of_nat k + 2) by lia.
    eapply sys_step_inv; eauto. lia.
Qed.

(** ** Up to date *)

(** A notification outside a transaction whose changeset could be made: the
    engine gets the calls of the difference and is told about the current
    database; recording restarts unless there is no difference. *)
Lemma notify_current e D0 h0 N y q : sys_inv D0 h0 N y -> y_saves y = [] -> notify_ok e y -> ce_session e = Some q ->
  extracted e (y_noria y) = true ->
  exists p s h secs n', owns (y_noria y) p s h /\ told D0 h0 (y_told y) h /\ exact_difference names schema (y_told y) (y_db y) secs /\
    database_ok names schema (y_told y) /\ database_ok names schema (y_db y) /\ NotifyChange e (y_noria y) = Some n' /\
    let h' := apply_calls h (difference_calls schema h secs) in
    told D0 h0 (y_db y) h' /\
    if delivers e (y_noria y) then section_items schema secs <> [] /\ owns n' q (start_session main_db) h'
    else section_items schema secs = [] /\ exists s', owns n' p s' h'.
Proof.
  intros (p & s & h & Ht & Ho & HI & HD1 & HD & HDs) Es [He Ha Hi] Hq Hx. rewrite Es in Ha.
  destruct (process_spec names schema columns Hschema e (y_noria y) p s h q (y_told y) (y_db y) (y_saves y) N) as (n' & E & K); auto.
  unfold NotifyChange. destruct (delivers e (y_noria y)).
  - destruct K as (secs & Hex & Hne & Ho'). exists p, s, h, secs, n'. split_and!; auto. eapply told_more; eauto.
  - destruct K as (s' & Ho' & _ & Hs). destruct (Hs Hx) as (secs & Hex & E0). exists p, s, h, secs, n'. split_and!; auto.
    + eapply told_more; eauto.
    + exists s'. unfold difference_calls. rewrite E0. exact Ho'.
Qed.

End System.
