(* ===== verification/CdcCorrect.v ===== *)
(** * Correctness of change data capture

    What the engine receives, as signed rows: the engine turns each call into signed
    records (noria-ffi: an INSERT is a positive row, a DELETE a negative one, an UPDATE
    both); counted with their sign, the rows of the calls for a difference are the rows
    gained minus the rows lost, as long as no UPDATE leaves a non-key column unchanged.
    Then the theorems on [ProcessSessionChangeset] in the machine of [CdcMachine], and
    the two ways in which the engine can miss changes. *)
From stdpp Require Import gmap strings.
From S2P Require Import Prelude Bits Varint Value Record Strings Buffer Session Recorder Tracking SelectSql Changeset Generate Scenario Iterator IteratorSpec IteratorCorrect Noria Cdc CdcMachine.

Local Open Scope Z_scope.

(** ** Signed counts *)

Definition indicator (P : Prop) `{Decision P} : Z := if decide P then 1 else 0.

(** How often a call adds [row] to [table]. *)
Definition call_count (table : list Z) (row : list NoriaValue) (c : cdc_call) : Z :=
  match c with
  | ApplyInsert t v => indicator (t = table /\ v = row)
  | ApplyDelete t v => - indicator (t = table /\ v = row)
  | ApplyUpdate t o v => indicator (t = table /\ v = row) - indicator (t = table /\ o = row)
  end.

Definition net_count (table : list Z) (row : list NoriaValue) (cs : list cdc_call) : Z :=
  foldr (fun c n => call_count table row c + n) 0 cs.

Definition holds_row (pks : list Z) (T : contents) (r : list sqlite3_value) : Z :=
  indicator (T !! pk_part pks r = Some r).

Lemma net_count_app table row cs ds : net_count table row (cs ++ ds) = net_count table row cs + net_count table row ds.
Proof.
  induction cs as [|c cs IH]; [reflexivity|]. change (net_count table row ((c :: cs) ++ ds))
    with (call_count table row c + net_count table row (cs ++ ds)).
  rewrite IH. change (net_count table row (c :: cs)) with (call_count table row c + net_count table row cs). lia.
Qed.

(** ** Values are told apart *)

Lemma nv_inj v w : SqliteValueToNoria (Some v) = SqliteValueToNoria (Some w) -> v = w.
Proof.
  intros E. pose proof (f_equal nv_type E) as Et. pose proof (f_equal nv_int E) as Ei.
  pose proof (f_equal nv_float E) as Ef. pose proof (f_equal nv_text E) as Ex. pose proof (f_equal nv_blob E) as Eb.
  destruct v as [|i|r|z|z], w as [|j|s|y|y]; cbn in Et, Ei, Ef, Ex; try discriminate; try congruence.
  destruct z as [|c z], y as [|d y]; cbn in Eb; try discriminate; [reflexivity|]. injection Eb as -> ->. reflexivity.
Qed.

#[export] Instance nv_Inj : Inj (=) (=) (fun v => SqliteValueToNoria (Some v)).
Proof. exact nv_inj. Qed.

Lemma nv_row_inj r s : nv_row r = nv_row s -> r = s.
Proof. exact (inj (fmap (M := list) (fun v => SqliteValueToNoria (Some v))) r s). Qed.

Lemma indicator_row (z z' : list Z) r s : indicator (z = z' /\ nv_row r = nv_row s) = indicator (z = z' /\ r = s).
Proof.
  unfold indicator. destruct (decide (z = z' /\ r = s)) as [[-> ->]|N].
  - rewrite decide_True; auto.
  - rewrite decide_False; [reflexivity|]. intros [-> E]. apply N. split; [reflexivity|]. apply nv_row_inj, E.
Qed.

(** ** Updates that change every non-key column *)

Fixpoint full_update (pks : list Z) (old new : list sqlite3_value) : Prop :=
  match pks, old, new with
  | pk :: pks, o :: old, n :: new => (if truth pk then o = n else o <> n) /\ full_update pks old new
  | _, _, _ => True
  end.

Lemma full_update_sent pks old new : length old = length pks -> length new = length pks -> full_update pks old new ->
  nv_field <$> upd_old pks old new = nv_row old /\ sent_new (upd_old pks old new) (upd_new old new) = nv_row new.
Proof.
  revert old new. induction pks as [|pk pks IH]; intros [|o old] [|n new] L1 L2 Hf; try discriminate; [auto|].
  injection L1 as L1. injection L2 as L2. destruct Hf as [Hh Hf]. destruct (IH old new L1 L2 Hf) as [E1 E2].
  cbn [upd_old upd_new fmap list_fmap sent_new]. unfold nv_row in *. cbn [fmap list_fmap].
  change (list_fmap ?A ?B ?f ?l) with (fmap (M := list) f l).
  destruct (bool_decide_reflect (o = n)) as [->|N]; cbn [negb orb].
  - destruct (truth pk); [|contradiction]. split; f_equal; auto.
  - split; f_equal; auto.
Qed.

(** ** One table *)

(** The contribution of one change to the count of [r]. *)
Definition delta_count (r : list sqlite3_value) (d : delta) : Z :=
  match d with
  | DInsert _ n => indicator (n = r)
  | DDelete _ o => - indicator (o = r)
  | DUpdate _ o n => indicator (n = r) - indicator (o = r)
  end.

Definition deltas_count (r : list sqlite3_value) (ds : list delta) : Z :=
  foldr (fun d n => delta_count r d + n) 0 ds.

Lemma indicator_ne (a b : list sqlite3_value) : a <> b -> indicator (a = b) = 0.
Proof. intros N. unfold indicator. rewrite decide_False by exact N. reflexivity. Qed.

(** Only the change with the key of [r] counts. *)
Lemma delta_count_other pks T0 T1 ds r d : contents_ok pks T1 -> net_diff pks T0 T1 ds -> d ∈ ds ->
  delta_key pks d <> pk_part pks r -> delta_count r d = 0.
Proof.
  intros H1 ND Hd Hk. pose proof (nd_sound _ _ _ _ ND d Hd) as Hs. destruct d as [i n|i o|i o n]; cbn in *.
  - apply indicator_ne. congruence.
  - rewrite indicator_ne by congruence. reflexivity.
  - destruct Hs as (_ & Hn & _). destruct (co_rows _ _ H1 _ _ Hn) as (_ & _ & Ek).
    rewrite !indicator_ne; [reflexivity|congruence|]. intros ->. congruence.
Qed.

Lemma deltas_count_none r ds : (forall d, d ∈ ds -> delta_count r d = 0) -> deltas_count r ds = 0.
Proof.
  induction ds as [|d ds IH]; intros Hz; [reflexivity|]. cbn. rewrite (Hz d) by constructor.
  apply IH. intros d' Hd'. apply Hz. constructor. exact Hd'.
Qed.

Lemma deltas_count_one pks r ds d : NoDup (delta_key pks <$> ds) -> d ∈ ds ->
  (forall d', d' ∈ ds -> delta_key pks d' <> delta_key pks d -> delta_count r d' = 0) ->
  deltas_count r ds = delta_count r d.
Proof.
  induction ds as [|d' ds IH]; intros Hnd Hin Hz; [inversion Hin|]. rewrite fmap_cons in Hnd.
  apply NoDup_cons in Hnd as [Hn Hnd]. change (deltas_count r (d' :: ds)) with (delta_count r d' + deltas_count r ds).
  apply elem_of_cons in Hin as [->|Hin].
  - rewrite deltas_count_none; [lia|]. intros d'' Hd''. apply Hz; [constructor; exact Hd''|].
    intros E. apply Hn. rewrite <- E. apply list_elem_of_fmap_2, Hd''.
  - rewrite IH; auto; [|intros; apply Hz; auto; constructor; auto].
    rewrite (Hz d'); [lia|constructor|]. intros E. apply Hn. rewrite E. apply list_elem_of_fmap_2, Hin.
Qed.

(** The changes of a table count the rows gained and lost. *)
Lemma deltas_count_diff pks T0 T1 ds r : contents_ok pks T0 -> contents_ok pks T1 -> net_diff pks T0 T1 ds ->
  deltas_count r ds = holds_row pks T1 r - holds_row pks T0 r.
Proof.
  intros H0 H1 ND. unfold holds_row. set (k := pk_part pks r).
  destruct (decide (k ∈ delta_key pks <$> ds)) as [Hin|Nin].
  - apply list_elem_of_fmap in Hin as (d & Hk & Hd). rewrite (deltas_count_one pks r ds d (nd_unique _ _ _ _ ND) Hd).
    2: { intros d' Hd' Nk. eapply delta_count_other; eauto. intros E. apply Nk. rewrite E. exact Hk. }
    pose proof (nd_sound _ _ _ _ ND d Hd) as Hs. unfold indicator. destruct d as [i n|i o|i o n]; cbn in *; unfold indicator.
    + destruct Hs as [E0 E1]. rewrite Hk, E0, E1. rewrite (decide_False (P := None = Some r)) by discriminate.
      destruct (decide (n = r)), (decide (Some n = Some r)); try congruence; lia.
    + destruct Hs as [E0 E1]. rewrite Hk, E0, E1. rewrite (decide_False (P := None = Some r)) by discriminate.
      destruct (decide (o = r)), (decide (Some o = Some r)); try congruence; lia.
    + destruct Hs as (E0 & E1 & _). rewrite Hk, E0, E1.
      destruct (decide (o = r)), (decide (Some o = Some r)), (decide (n = r)), (decide (Some n = Some r)); try congruence; lia.
  - assert (T0 !! k = T1 !! k) as ->.
    { destruct (decide (T0 !! k = T1 !! k)) as [|N]; [assumption|]. destruct (nd_complete _ _ _ _ ND k N) as (d & Hd & E).
      exfalso. apply Nin. rewrite <- E. apply list_elem_of_fmap_2, Hd. }
    rewrite deltas_count_none; [lia|]. intros d Hd. eapply delta_count_other; eauto.
    intros E. apply Nin. unfold k. rewrite <- E. apply list_elem_of_fmap_2, Hd.
Qed.

(** ** All tables *)

(** Every UPDATE of the change changes all non-key columns. *)
Definition full_delta (pks : list Z) (d : delta) : Prop :=
  match d with DUpdate _ o n => full_update pks o n | _ => True end.

Lemma call_count_other z z' pks d row : z' <> z -> call_count z row (item_call (pks, z', d)) = 0.
Proof.
  intros N. assert (forall v, indicator (z' = z /\ v = row) = 0) as Hi.
  { intros v. unfold indicator. rewrite decide_False; [reflexivity|]. intros [E _]. contradiction. }
  destruct d; cbn; rewrite !Hi; reflexivity.
Qed.

Lemma indicator_table (z : list Z) (r s : list sqlite3_value) : indicator (z = z /\ r = s) = indicator (r = s).
Proof.
  unfold indicator. destruct (decide (r = s)); [rewrite decide_True|rewrite decide_False]; tauto.
Qed.

Lemma call_count_same z pks d r : delta_ok pks d -> full_delta pks d ->
  call_count z (nv_row r) (item_call (pks, z, d)) = delta_count r d.
Proof.
  intros [_ Hd] Hf. destruct d as [i n|i o|i o n]; cbn in *.
  - rewrite indicator_row. apply indicator_table.
  - rewrite indicator_row, indicator_table. reflexivity.
  - destruct Hd as [[L1 _] [L2 _]]. destruct (full_update_sent pks o n L1 L2 Hf) as [-> ->].
    rewrite !indicator_row, !indicator_table. reflexivity.
Qed.

Section Tables.

Context {H : Type} `{NoriaFfi H} (schema : list Z -> tkind).

Lemma item_calls_all (h : H) pks z ds : noria_table_has_views h z <> 0 ->
  item_calls h ((fun d => (pks, z, d)) <$> ds) = (fun d => item_call (pks, z, d)) <$> ds.
Proof.
  intros Hv. unfold item_calls. induction ds as [|d ds IH]; [reflexivity|]. rewrite !fmap_cons, filter_cons.
  rewrite decide_True; [rewrite fmap_cons; f_equal; exact IH|]. cbn. apply Z.eqb_neq in Hv. rewrite Hv. reflexivity.
Qed.

Lemma section_count (h : H) pks z ds r : noria_table_has_views h z <> 0 ->
  Forall (delta_ok pks) ds -> Forall (full_delta pks) ds ->
  net_count z (nv_row r) (item_calls h ((fun d => (pks, z, d)) <$> ds)) = deltas_count r ds.
Proof.
  intros Hv Hd Hf. rewrite item_calls_all by exact Hv. induction ds as [|d ds IH]; [reflexivity|].
  apply Forall_cons in Hd as [Hd Hds], Hf as [Hf Hfs]. rewrite fmap_cons.
  change (net_count z (nv_row r) (item_call (pks, z, d) :: ?l))
    with (call_count z (nv_row r) (item_call (pks, z, d)) + net_count z (nv_row r) l).
  rewrite IH, call_count_same by auto. reflexivity.
Qed.

Lemma other_section_count (h : H) pks z z' ds row : z' <> z ->
  net_count z row (item_calls h ((fun d => (pks, z', d)) <$> ds)) = 0.
Proof.
  intros N. unfold item_calls. induction ds as [|d ds IH]; [reflexivity|]. rewrite fmap_cons, filter_cons.
  destruct (decide _); [|exact IH]. rewrite fmap_cons.
  change (net_count z row (item_call (pks, z', d) :: ?l)) with (call_count z row (item_call (pks, z', d)) + net_count z row l).
  rewrite call_count_other by exact N. exact IH.
Qed.

Lemma difference_calls_cons (h : H) sec secs : difference_calls schema h (sec :: secs)
  = match iter_section schema sec with
    | Some s => item_calls h (changes_of s) ++ difference_calls schema h secs
    | None => difference_calls schema h secs
    end.
Proof.
  unfold difference_calls, section_items. cbn [omap list_omap]. destruct (iter_section schema sec); [|reflexivity].
  rewrite fmap_cons. cbn [concat]. unfold item_calls. rewrite <- fmap_app, <- filter_app. reflexivity.
Qed.

Lemma other_sections_count (h : H) z secs row : z ∉ secs.*1 -> net_count z row (difference_calls schema h secs) = 0.
Proof.
  induction secs as [|[z' ds] secs IH]; intros Hn; [reflexivity|]. cbn in Hn. apply not_elem_of_cons in Hn as [N Hn].
  rewrite difference_calls_cons. unfold iter_section. cbn [fst snd]. destruct (schema z'); [|auto].
  rewrite net_count_app, IH by exact Hn. cbn [changes_of]. rewrite other_section_count by congruence. reflexivity.
Qed.

Lemma table_sections_count (h : H) z pks idx nt ds secs r : NoDup secs.*1 -> (z, ds) ∈ secs ->
  schema z = Keyed pks idx nt -> noria_table_has_views h z <> 0 ->
  Forall (delta_ok pks) ds -> Forall (full_delta pks) ds ->
  net_count z (nv_row r) (difference_calls schema h secs) = deltas_count r ds.
Proof.
  intros Hnd Hin Hs Hv Hd Hf. induction secs as [|[z' ds'] secs IH]; [inversion Hin|].
  cbn in Hnd. apply NoDup_cons in Hnd as [Hn Hnd]. rewrite difference_calls_cons. unfold iter_section. cbn [fst snd].
  apply elem_of_cons in Hin as [E|Hin].
  - injection E as <- <-. rewrite Hs, net_count_app. cbn [changes_of].
    rewrite section_count, other_sections_count by auto. lia.
  - assert (z' <> z) as N by (intros ->; apply Hn; apply list_elem_of_fmap; exists (z, ds); auto).
    destruct (schema z'); [|auto]. rewrite net_count_app. cbn [changes_of].
    rewrite other_section_count, IH by auto. reflexivity.
Qed.

End Tables.

(** ** An engine that writes down its calls *)

Definition Transcript : Type := list cdc_call.

#[export] Instance Transcript_ffi : NoriaFfi Transcript := {
  noria_register_table_schema h _ _ := h;
  noria_register_view h _ := (h, 0);
  noria_has_view _ _ := 0;
  noria_table_has_views _ _ := 1;
  noria_get_table_id _ _ := -1;
  noria_queue_invalidate_by_id h _ := (h, 0);
  noria_lookup h _ _ := (h, not_found);
  noria_lookup_or_upquery h _ _ := (h, not_found);
  noria_apply h c := (h ++ [c], 0);
  noria_queue h _ := (h, 0);
  noria_flush h := (h, 0);
  noria_get_stats _ := mkStats 0 0 0 0 0 0 0 0 0
}.

#[export] Instance Transcript_laws : NoriaFfiLaws Transcript.
Proof. split. reflexivity. Qed.

(** ** The run of [Scenario], with its notification *)

Definition demo_noria (s : sqlite3_session) : Noria Transcript :=
  mkNoria (Some []) true (Some 7) true true ∅ [(7, s)].

Definition demo_cdc (D : database) : CdcEnv := mkCdcEnv true (demo_gen (D demo_t)) true demo_iter (Some 8).

Definition demo_y0 : sys := mkSys demo_D0 [] (demo_noria (start_session main_db)) demo_D0.
Definition demo_y1 : sys := mkSys (st_db demo_st1) [] (demo_noria (st_session demo_st1)) demo_D0.

Lemma demo_owns s : owns (demo_noria s) 7 s [].
Proof. split; reflexivity. Qed.

Lemma demo_sys_reach : sys_reach demo_names demo_schema demo_columns demo_D0 [] 1 demo_y1.
Proof.
  apply (sys_more _ _ _ _ _ 0 demo_y0); [exact (sys_start _ _ _ demo_D0 [] _ 7 (demo_owns _))|].
  apply (sys_row _ _ _ demo_y0 7 (start_session main_db) [] demo_ev1 (st_session demo_st1) (demo_owns _) demo_ev1_ok).
  vm_compute. reflexivity.
Qed.

Lemma demo_notify_ok : notify_ok demo_names demo_schema demo_columns (demo_cdc (st_db demo_st1)) demo_y1.
Proof.
  split; [|reflexivity|split_and!; reflexivity].
  intros n Hn. exact (demo_engine_ok (st_db demo_st1) n Hn).
Qed.

(** C19: notifications are safe.  In every state the connection, the session and
    Noria reach in fewer than 2^24 steps on tables and rows within SQLite's limits,
    [NotifyChange] is defined: no memory is read or written out of bounds and no
    integer overflows, whichever allocations and engine calls of the session fail,
    and whether or not a new session can be created.  The allocations of the
    changeset iterator must succeed. *)
Theorem notify_safe {H} `{NoriaFfiLaws H} names schema columns D0 (h0 : H) k y e :
  schema_ok names schema main_db -> database_ok names schema D0 ->
  sys_reach names schema columns D0 h0 k y -> Z.of_nat k < 2 ^ 24 ->
  notify_ok names schema columns e y -> exists n', NotifyChange e (y_noria y) = Some n'.
Proof.
  intros Hs HD Hr Hk [N1 N2 N3]. pose proof (sys_reach_inv names schema columns Hs D0 h0 k y HD Hr Hk) as HI.
  apply (process_defined e (y_noria y) 0).
  edestruct (notify_spec names schema columns Hs (mkCdcEnv (ce_autocommit e) (ce_gen e) (ce_start e) (ce_iter e) (Some 0)) D0 h0 _ y HI) as (n' & E & _);
    [split; assumption|eauto|lia|]. exists n'. exact E.
Qed.

Lemma notify_safe_witness : exists n', NotifyChange (demo_cdc (st_db demo_st1)) (y_noria demo_y1) = Some n'.
Proof.
  apply (notify_safe demo_names demo_schema demo_columns demo_D0 [] 1 demo_y1).
  - exact demo_schema_ok.
  - exact demo_database_ok.
  - exact demo_sys_reach.
  - reflexivity.
  - exact demo_notify_ok.
Defined.



(** ** The rows the engine ends up with *)

Lemma difference_count {H} `{NoriaFfi H} names schema D0 D secs (h : H) n pks idx nt r :
  exact_difference names schema D0 D secs -> database_ok names schema D0 -> database_ok names schema D ->
  n ∈ names -> schema n = Keyed pks idx nt -> noria_table_has_views h n <> 0 ->
  (forall ds d, (n, ds) ∈ secs -> d ∈ ds -> full_delta pks d) ->
  net_count n (nv_row r) (difference_calls schema h secs) = holds_row pks (D n) r - holds_row pks (D0 n) r.
Proof.
  intros Hex HD0 HD Hn Hs Hv Hfull. pose proof (HD0 n Hn) as C0. pose proof (HD n Hn) as C1. rewrite Hs in C0, C1.
  destruct (proj2 (proj2 Hex) n pks idx nt Hn Hs) as [(ds & Hin & ND)|[Heq Hnin]].
  - rewrite (table_sections_count schema h n pks idx nt ds secs r (proj1 Hex) Hin Hs Hv).
    + apply deltas_count_diff; auto.
    + apply Forall_forall. intros d Hd. eapply difference_delta; eauto.
    + apply Forall_forall. intros d Hd. eapply Hfull; eauto.
  - rewrite other_sections_count by exact Hnin. rewrite Heq. lia.
Qed.

(** An UPDATE of the difference is a row changed under its key. *)
Lemma full_changes {H} `{NoriaFfi H} names schema D0 D secs n pks idx nt :
  exact_difference names schema D0 D secs -> schema n = Keyed pks idx nt ->
  (forall key o w, D0 n !! key = Some o -> D n !! key = Some w -> o <> w -> full_update pks o w) ->
  forall ds d, (n, ds) ∈ secs -> d ∈ ds -> full_delta pks d.
Proof.
  intros Hex Hs Hf ds d Hin Hd. pose proof (difference_section names schema D0 D secs n ds pks idx nt Hex Hin Hs) as ND.
  pose proof (nd_sound _ _ _ _ ND d Hd) as Hd'. destruct d as [| |i o w]; [exact I|exact I|]. destruct Hd' as (A & B & C). exact (Hf _ o w A B C).
Qed.

Lemma transcript_calls (h : Transcript) cs : apply_calls h cs = h ++ cs.
Proof.
  revert h. induction cs as [|c cs IH]; intros h; [symmetry; apply app_nil_r|].
  change (apply_calls h (c :: cs)) with (apply_calls (h ++ [c]) cs). rewrite IH, <- app_assoc. reflexivity.
Qed.



(** ** Missed changes *)

Lemma sent_unchanged pks old new c v : pks !! c = Some 0 -> old !! c = Some v -> new !! c = Some v ->
  (nv_field <$> upd_old pks old new) !! c = Some nv_zero /\ sent_new (upd_old pks old new) (upd_new old new) !! c = Some nv_zero.
Proof.
  revert pks old new. induction c as [|c IH]; intros [|pk pks] [|o old] [|n new] Hp Ho Hn; try discriminate.
  - injection Hp as ->. injection Ho as ->. injection Hn as ->. cbn [upd_old upd_new sent_new].
    rewrite bool_decide_true by reflexivity. split; reflexivity.
  - cbn in Hp, Ho, Hn. cbn [upd_old upd_new sent_new lookup list_lookup fmap list_fmap]. apply (IH pks old new Hp Ho Hn).
Qed.

(** C32: for an UPDATE that leaves a non-key column unchanged, both the old and the
    new row sent to the engine have NULL in that column, whatever the value is. *)
Theorem update_sends_null {H} `{NoriaFfi H} (n : Noria H) p pks zName ind old new pre rest c v :
  n_buffered n = ∅ -> 0 < Zlen pks -> shows p pks zName (DUpdate ind old new) pre rest ->
  delta_ok pks (DUpdate ind old new) ->
  pks !! c = Some 0 -> old !! c = Some v -> new !! c = Some v ->
  exists olds news, row_call n p zName (Zlen pks) SQLITE_UPDATE = Some (Some (ApplyUpdate zName olds news)) /\
    olds !! c = Some nv_zero /\ news !! c = Some nv_zero.
Proof.
  intros Hb Hp Hs Hd Hpk Ho Hn. eexists _, _. split; [exact (row_call_spec n p pks zName _ pre rest Hb Hp Hs Hd)|].
  eapply sent_unchanged; eauto.
Qed.

(** An iterator on the update of the second column of a three-column row. *)
Definition lossy_pks : list Z := [1; 0; 0].
Definition lossy_old : list sqlite3_value := [VInt 1; VText (str "a"); VText (str "b")].
Definition lossy_new : list sqlite3_value := [VInt 1; VText (str "a"); VText (str "c")].
Definition lossy_bytes : list Z := enc_table lossy_pks demo_t [DUpdate 0 lossy_old lossy_new].

Definition lossy_start : option changeset_iter := snd (sqlite3changeset_start true lossy_bytes).

Definition lossy_iter : changeset_iter :=
  default (mkIter (mkInput false 0 0 [] empty_buffer None true) empty_buffer false false false 0 None 0 0 0 None None)
    (p ← lossy_start; fst <$> sqlite3changeset_next demo_iter p).

Lemma lossy_shows : shows lossy_iter lossy_pks demo_t (DUpdate 0 lossy_old lossy_new) lossy_bytes [].
Proof.
  split; [|split; vm_compute; reflexivity|vm_compute; reflexivity|vm_compute; reflexivity].
  split; try (vm_compute; reflexivity).
  - split_and!; vm_compute; reflexivity.
  - vm_compute. intuition discriminate.
Qed.

Lemma update_sends_null_witness :
  exists olds news, row_call (demo_noria (start_session main_db)) lossy_iter demo_t (Zlen lossy_pks) SQLITE_UPDATE
    = Some (Some (ApplyUpdate demo_t olds news)) /\ olds !! 1%nat = Some nv_zero /\ news !! 1%nat = Some nv_zero.
Proof.
  apply (update_sends_null (demo_noria (start_session main_db)) lossy_iter lossy_pks demo_t 0 lossy_old lossy_new
    lossy_bytes [] 1 (VText (str "a"))).
  - reflexivity.
  - reflexivity.
  - exact lossy_shows.
  - split; [vm_compute; intuition discriminate|]. split; (split; [reflexivity|evaluate]).
  - reflexivity.
  - reflexivity.
  - reflexivity.
Defined.

(** C33: once a session has failed (an allocation or schema query during one
    pre-update callback), it records nothing more and no notification ever
    replaces it: the engine is told nothing from then on. *)
Theorem failed_session_is_final {H} `{NoriaFfi H} (n : Noria H) p s h :
  owns n p s h -> s_rc s <> SQLITE_OK ->
  (forall zDb ev, fire zDb ev s = Some s) /\
  (forall e, exists n', NotifyChange e n = Some n' /\ owns n' p s h).
Proof.
  intros [O1 O2 O3 O4 O5] Hrc. assert (truth (s_rc s) = true) as Ht.
  { unfold truth. destruct (Z.eqb_spec (s_rc s) 0); [contradiction|reflexivity]. }
  split.
  - intros zDb ev. unfold fire, xPreUpdate_session. destruct (s_bEnable s =? 0); [reflexivity|]. rewrite Ht. reflexivity.
  - intros e. unfold NotifyChange, ProcessSessionChangeset. rewrite O1, O3, O2. cbn [negb].
    destruct (ce_autocommit e); cbn [negb].
    + rewrite find_session_one. cbn [mbind option_bind].
      unfold sqlite3session_changeset, sessionGenerateChangeset. rewrite Ht. cbn [mbind option_bind].
      rewrite store_session_one. apply Z.eqb_neq in Hrc. rewrite Hrc. cbn [negb].
      eexists. split; [reflexivity|]. split; auto.
    + exists n. split; [reflexivity|]. split; auto.
Qed.

Definition failed_session : sqlite3_session := set_rc (start_session main_db) SQLITE_NOMEM.

Lemma failed_session_is_final_witness :
  (forall zDb ev, fire zDb ev failed_session = Some failed_session) /\
  (forall e, exists n', NotifyChange e (demo_noria failed_session) = Some n' /\ owns n' 7 failed_session []).
Proof.
  apply (failed_session_is_final (demo_noria failed_session) 7 failed_session []); [exact (demo_owns _)|discriminate].
Defined.
