(* ===== verification/NoriaSqlCorrect.v ===== *)
(** * Correctness of view registration

    A registered view starts the recording of changes; the table scan finds
    the names it is meant to find; values survive the trip to the engine and
    back. *)
From stdpp Require Import gmap strings.
From S2P Require Import Prelude Bits Varint Value Record Strings Buffer Session Recorder Tracking SelectSql Changeset Generate Scenario Iterator IteratorSpec IteratorCorrect Noria NoriaSql Cdc CdcMachine CdcCorrect.

Local Open Scope Z_scope.

(** ** Registration and recording *)

Section Registration.

Context {H : Type} `{NoriaFfi H}.

(** The engine handle aside, the state of the object. *)
Definition same_but_handle (n n' : Noria H) : Prop :=
  n_db n' = n_db n /\ n_session n' = n_session n /\ n_enabled n' = n_enabled n /\
  n_has_any_views n' = n_has_any_views n /\ n_buffered n' = n_buffered n /\ n_chain n' = n_chain n /\
  (is_Some (n_handle n) -> is_Some (n_handle n')).

Lemma same_refl n : same_but_handle n n.
Proof. split_and!; auto. Qed.

Lemma same_trans n n' n'' : same_but_handle n n' -> same_but_handle n' n'' -> same_but_handle n n''.
Proof. unfold same_but_handle. intros (? & ? & ? & ? & ? & ? & ?) (? & ? & ? & ? & ? & ? & ?). split_and!; try congruence; auto. Qed.

Lemma register_schema_same e n t : same_but_handle n (RegisterTableSchema e n t).
Proof.
  unfold RegisterTableSchema. destruct (n_handle n) eqn:E; [|apply same_refl].
  repeat case_match; try apply same_refl. split_and!; try reflexivity. eauto.
Qed.

Lemma register_tables_same e sql n : same_but_handle n (RegisterTablesFromSql e n sql).
Proof.
  unfold RegisterTablesFromSql. revert n. induction (sql_tables sql) as [|t ts IH]; intros n; [apply same_refl|].
  cbn [fold_left]. eapply same_trans; [apply register_schema_same|apply IH].
Qed.

(** What a successful registration leaves: the schemas and the view are in the
    engine, and the session exists. *)
Lemma register_view_success e malloc n sql n' result : n_handle n <> None ->
  RegisterView e malloc n sql = (n', result) -> 0 <= result ->
  exists m h, same_but_handle n m /\ n_handle m = Some h /\ n' = EnsureSession malloc (set_views m true).
Proof.
  intros Hh E Hr. unfold RegisterView in E. destruct (IsEnabled n); cbn [negb] in E; [|injection E as _ <-; lia].
  pose proof (register_tables_same e sql n) as S. destruct (n_handle (RegisterTablesFromSql e n sql)) as [h|] eqn:Eh.
  - destruct (noria_register_view h sql) as [h' r] eqn:Er. destruct (Z.leb_spec 0 r); [|injection E as _ <-; lia].
    injection E as <- <-. exists (set_handle (RegisterTablesFromSql e n sql) (Some h')), h'.
    split_and!; [|reflexivity|reflexivity]. destruct S as (? & ? & ? & ? & ? & ? & ?). split_and!; auto.
  - destruct S as (_ & _ & _ & _ & _ & _ & S). destruct (n_handle n); [|contradiction].
    destruct (S ltac:(eexists; reflexivity)) as [x Ex]. congruence.
Qed.

End Registration.

(** C21: the first view registered on a connection without sessions leaves the
    object in a start state of the change-propagation machine: a fresh session
    on [main] attached to all tables and nothing buffered; and registering
    another view later keeps the session and what it has recorded. *)
Theorem register_view_tracks {H} `{NoriaFfi H} names schema columns D0 e p n sql n' result :
  RegisterView e (Some p) n sql = (n', result) -> 0 <= result ->
  n_handle n <> None -> n_db n = true -> n_buffered n = ∅ ->
  (n_session n = None -> n_chain n = [] ->
     exists h, sys_reach names schema columns D0 h 0 (mkSys D0 [] n' D0)) /\
  (forall q s h, owns n q s h -> exists h', owns n' q s h').
Proof.
  intros E Hr Hh Hdb Hb. destruct (register_view_success e (Some p) n sql n' result Hh E Hr)
    as (m & h & (E1 & E2 & _ & _ & E5 & E6 & _) & Eh & ->). unfold EnsureSession. cbn [set_views n_session n_db].
  rewrite E2. split.
  - intros Es Ec. rewrite Es, E1, Hdb. cbn [n_chain set_views]. rewrite E6, Ec.
    change (sqlite3session_create (Some p) [] main_db) with (SQLITE_OK, [(p, new_session main_db)], Some p).
    cbn [Z.eqb SQLITE_OK]. exists h. apply sys_start with p. split; try reflexivity.
    + unfold attach_all. cbn. rewrite Z.eqb_refl. reflexivity.
    + cbn. congruence.
    + exact Eh.
  - intros q s h' [Os Oc Ov Ob Oh]. rewrite Os. exists h. split; cbn; congruence.
Qed.

Definition demo_schema_env : SchemaEnv := mkSchemaEnv (fun _ => SQLITE_OK) (fun _ => [Some (str "id"); Some (str "v")]).
Definition demo_sql : list Z := str "SELECT * FROM t WHERE id = ?".
Definition demo_registered : Noria Transcript := fst (RegisterView demo_schema_env (Some 7) (Noria_new (Some []) true []) demo_sql).

Lemma register_view_tracks_witness :
  exists h, sys_reach demo_names demo_schema demo_columns demo_D0 h 0 (mkSys demo_D0 [] demo_registered demo_D0).
Proof.
  destruct (register_view_tracks demo_names demo_schema demo_columns demo_D0 demo_schema_env 7 (Noria_new (Some []) true [])
    demo_sql demo_registered 0) as [Hs _]; try reflexivity; [discriminate|]. apply Hs; reflexivity.
Defined.

(** ** The scan for table names *)

Lemma isspace_upper c : isspace (toupper c) = isspace c.
Proof. unfold toupper. destruct (_ && _) eqn:E; [|reflexivity]. unfold isspace. lia. Qed.

Lemma ends_from_upper c : ends_from (toupper c) = ends_from c.
Proof. unfold ends_from. rewrite isspace_upper. unfold toupper. destruct (_ && _) eqn:E; [|reflexivity]. destruct (isspace c); lia. Qed.

Lemma ends_join_upper c : ends_join (toupper c) = ends_join c.
Proof. unfold ends_join. rewrite isspace_upper. unfold toupper. destruct (_ && _) eqn:E; [|reflexivity]. destruct (isspace c); lia. Qed.

Lemma run_app f s t : Forall (fun c => f c = true) s -> head t = None \/ (exists c, head t = Some c /\ f c = false) ->
  run f (s ++ t) = length s.
Proof.
  induction 1 as [|c s Hc Hs IH]; intros Ht; cbn [app run length].
  - destruct t as [|c t]; [reflexivity|]. destruct Ht as [|(d & [= <-] & Hd)]; [discriminate|]. cbn. rewrite Hd. reflexivity.
  - rewrite Hc, IH; auto.
Qed.

(** A name after [pre] and spaces, followed by the end or a stop character. *)
Lemma name_after_spec stop pre sp name rest :
  (forall c, stop (toupper c) = stop c) -> (forall c, isspace c = true -> stop c = true) ->
  Forall (fun c => isspace c = true) sp -> Forall (fun c => stop c = false) name -> name <> [] ->
  head rest = None \/ (exists c, head rest = Some c /\ stop c = true) ->
  name_after stop (pre ++ sp ++ name ++ rest) (toupper <$> (pre ++ sp ++ name ++ rest)) (length pre)
  = ([name], length (pre ++ sp ++ name)).
Proof.
  intros Hup Hstop Hsp Hname Hne Hrest. unfold name_after. rewrite !fmap_app.
  rewrite (drop_app_length' (toupper <$> pre) _ (length pre)) by (rewrite length_fmap; reflexivity).
  rewrite (run_app isspace).
  2: { apply Forall_fmap. eapply Forall_impl; [exact Hsp|]. intros c Hc. cbn. rewrite isspace_upper. exact Hc. }
  2: { right. destruct name as [|c name]; [contradiction|]. cbn. eexists. split; [reflexivity|].
       apply Forall_cons in Hname as [Hc _]. rewrite isspace_upper. destruct (isspace c) eqn:E; [|reflexivity].
       rewrite (Hstop c E) in Hc. discriminate. }
  rewrite length_fmap, !(app_assoc (_ <$> pre)), !(app_assoc pre).
  rewrite (drop_app_length' ((toupper <$> pre) ++ (toupper <$> sp))) by (rewrite length_app, !length_fmap; reflexivity).
  rewrite (run_app (fun c => negb (stop c))).
  2: { apply Forall_fmap. eapply Forall_impl; [exact Hname|]. intros c Hc. cbn. rewrite Hup, Hc. reflexivity. }
  2: { destruct rest as [|c rest]; [left; reflexivity|]. right. destruct Hrest as [|(d & [= <-] & Hd)]; [discriminate|].
       cbn. eexists. split; [reflexivity|]. rewrite Hup, Hd. reflexivity. }
  rewrite length_fmap. replace (0 <? length name)%nat with true by (destruct name; [contradiction|reflexivity]).
  rewrite drop_app_length' by (rewrite length_app; reflexivity). rewrite take_app_length. f_equal.
  rewrite !length_app. lia.
Qed.

Lemma starts_with_app kw s t : starts_with kw s = true -> starts_with kw (s ++ t) = true.
Proof.
  revert s. induction kw as [|k kw IH]; intros [|c s]; cbn; auto; [discriminate|].
  intros H. apply andb_true_iff in H as [-> H]. cbn. auto.
Qed.

Lemma starts_with_short kw s t : starts_with kw (s ++ t) = true -> (length kw <= length s)%nat -> starts_with kw s = true.
Proof.
  revert s. induction kw as [|k kw IH]; intros [|c s]; cbn; auto; [lia|].
  intros H L. apply andb_true_iff in H as [-> H]. cbn. apply IH; [exact H|lia].
Qed.

Lemma find_text_bound kw s p : find_text kw s = Some p -> (p + length kw <= length s)%nat.
Proof.
  revert p. induction s as [|c s IH]; intros p; cbn [find_text].
  - destruct kw; cbn; [intros [= <-]; lia|discriminate].
  - destruct (starts_with kw (c :: s)) eqn:E.
    + intros [= <-]. clear IH. revert E. generalize (c :: s). induction kw as [|k kw IH]; intros [|d l]; cbn; [lia|lia|discriminate|].
      intros E. apply andb_true_iff in E as [_ E]. apply IH in E. lia.
    + destruct (find_text kw s) as [q|]; [|discriminate]. intros [= <-]. specialize (IH q eq_refl). cbn. lia.
Qed.

(** Text after the first occurrence does not matter. *)
Lemma find_text_app kw s t p : find_text kw s = Some p -> find_text kw (s ++ t) = Some p.
Proof.
  revert p. induction s as [|c s IH]; intros p.
  - cbn [find_text]. destruct kw; [|discriminate]. intros [= <-]. destruct t; reflexivity.
  - intros Hf. pose proof (find_text_bound _ _ _ Hf) as B. revert Hf. cbn [find_text app].
    destruct (starts_with kw (c :: s)) eqn:E.
    + pose proof (starts_with_app kw (c :: s) t E) as E'. cbn [app] in E'. rewrite E'. auto.
    + destruct (find_text kw s) as [q|] eqn:Eq; [|discriminate]. intros [= <-].
      destruct (starts_with kw (c :: s ++ t)) eqn:E'.
      * rewrite (starts_with_short kw (c :: s) t E') in E; [discriminate|]. lia.
      * rewrite (IH q eq_refl). reflexivity.
Qed.

(** The table after the first FROM of a statement (in any case) is found,
    whatever precedes the keyword and however it is spaced, when its name is
    ended by a space, a comma, a parenthesis or the end of the text. *)
Theorem from_table_found pre kw sp name rest :
  toupper <$> kw = str "FROM" ->
  find_text (str "FROM") (toupper <$> (pre ++ kw)) = Some (length pre) ->
  Forall (fun c => isspace c = true) sp -> Forall (fun c => ends_from c = false) name -> name <> [] ->
  head rest = None \/ (exists c, head rest = Some c /\ ends_from c = true) ->
  head (sql_tables (pre ++ kw ++ sp ++ name ++ rest)) = Some name.
Proof.
  intros Hkw Hf Hsp Hname Hne Hrest. unfold sql_tables, from_tables.
  assert (length kw = 4%nat) as Lkw by (apply (f_equal length) in Hkw; rewrite length_fmap in Hkw; exact Hkw).
  rewrite (app_assoc pre kw), (fmap_app _ (pre ++ kw)), (find_text_app _ _ _ _ Hf), <- fmap_app.
  replace (length pre + 4)%nat with (length (pre ++ kw)) by (rewrite length_app; lia).
  rewrite (name_after_spec ends_from (pre ++ kw) sp name rest); auto using ends_from_upper.
  intros c Hc. unfold ends_from. rewrite Hc. reflexivity.
Qed.

Lemma from_table_found_witness :
  head (sql_tables (str "select a, b from users, orders")) = Some (str "users").
Proof.
  apply (from_table_found (str "select a, b ") (str "from") (str " ") (str "users") (str ", orders"));
    reflexivity || evaluate || (right; exists 44; split; reflexivity).
Defined.

Lemma find_text_le kw s p : (p <= length s)%nat -> starts_with kw (drop p s) = true ->
  exists q, find_text kw s = Some q /\ (q <= p)%nat /\ starts_with kw (drop q s) = true.
Proof.
  revert p. induction s as [|c s IH]; intros p Hp Hs.
  - cbn in Hp. replace p with O in Hs by lia. cbn [drop] in Hs. exists O. cbn [find_text]. rewrite Hs. auto with lia.
  - cbn [find_text]. destruct (starts_with kw (c :: s)) eqn:E; [exists O; split_and!; [reflexivity|lia|exact E]|].
    destruct p as [|p]; [cbn in Hs; congruence|]. destruct (IH p ltac:(cbn in Hp; lia) Hs) as (q & -> & Hq & Hqs).
    exists (S q). split_and!; [reflexivity|lia|exact Hqs].
Qed.

Lemma find_at_le kw s pos p : (pos <= p <= length s)%nat -> starts_with kw (drop p s) = true ->
  exists q, find_at kw s pos = Some q /\ (pos <= q <= p)%nat /\ starts_with kw (drop q s) = true.
Proof.
  intros Hp Hs. unfold find_at. replace (length s <? pos)%nat with false by (symmetry; apply Nat.ltb_ge; lia).
  destruct (find_text_le kw (drop pos s) (p - pos)) as (q & -> & Hq & Hqs).
  - rewrite length_drop. lia.
  - rewrite drop_drop. replace (pos + (p - pos))%nat with p by lia. exact Hs.
  - exists (pos + q)%nat. rewrite drop_drop in Hqs. split_and!; [reflexivity|lia|lia|exact Hqs].
Qed.

Lemma name_after_pos stop sql up pos : (pos <= snd (name_after stop sql up pos))%nat.
Proof. unfold name_after. cbn. lia. Qed.

(** The loop reaches an occurrence that no earlier name runs over. *)
Lemma join_loop_finds kw sql up p name fuel pos :
  (length kw <> 0)%nat -> (p <= length up)%nat -> starts_with kw (drop p up) = true ->
  fst (name_after ends_join sql up (p + length kw)) = [name] ->
  (forall q, (q < p)%nat -> starts_with kw (drop q up) = true ->
     (snd (name_after ends_join sql up (q + length kw)) <= p)%nat) ->
  (pos <= p)%nat -> (p - pos < fuel)%nat -> name ∈ join_tables fuel kw sql up pos.
Proof.
  intros Hkw Hp Hs Hn Hover. revert pos. induction fuel as [|fuel IH]; intros pos Hpos Hfuel; [lia|].
  cbn [join_tables]. destruct (find_at_le kw up pos p ltac:(lia) Hs) as (q & -> & Hq & Hqs).
  destruct (name_after ends_join sql up (q + length kw)) as [names pos'] eqn:E.
  destruct (decide (q = p)) as [->|Nq].
  - rewrite E in Hn. cbn in Hn. subst names. left.
  - apply elem_of_app. right. pose proof (Hover q ltac:(lia) Hqs) as Ho. pose proof (name_after_pos ends_join sql up (q + length kw)) as Hm.
    rewrite E in Ho, Hm. cbn in Ho, Hm. apply IH; lia.
Qed.

(** C22: every table after a JOIN (in any case, of any kind) is found, when its
    name is ended by a space, a parenthesis or the end of the text and the
    keyword is not itself read as the name of an earlier JOIN. *)
Theorem join_table_found pre kw sp name rest :
  toupper <$> kw = str "JOIN" ->
  Forall (fun c => isspace c = true) sp -> Forall (fun c => ends_join c = false) name -> name <> [] ->
  head rest = None \/ (exists c, head rest = Some c /\ ends_join c = true) ->
  Forall (fun q => starts_with (str "JOIN") (drop q (toupper <$> (pre ++ kw ++ sp ++ name ++ rest))) = true ->
    (snd (name_after ends_join (pre ++ kw ++ sp ++ name ++ rest) (toupper <$> (pre ++ kw ++ sp ++ name ++ rest)) (q + 4))
     <= length pre)%nat) (seq 0 (length pre)) ->
  name ∈ sql_tables (pre ++ kw ++ sp ++ name ++ rest).
Proof.
  intros Hkw Hsp Hname Hne Hrest Hover. unfold sql_tables. apply elem_of_app. right.
  apply elem_of_concat. eexists. split; [|cbn [join_keywords fmap list_fmap]; left].
  set (sql := pre ++ kw ++ sp ++ name ++ rest) in *.
  assert (length kw = 4%nat) as Lkw by (apply (f_equal length) in Hkw; rewrite length_fmap in Hkw; exact Hkw).
  apply (join_loop_finds _ _ _ (length pre)).
  - discriminate.
  - unfold sql. rewrite length_fmap, length_app. lia.
  - unfold sql. rewrite fmap_app, drop_app_length' by (rewrite length_fmap; reflexivity).
    rewrite fmap_app, Hkw. reflexivity.
  - change (length (str "JOIN")) with 4%nat. unfold sql. rewrite (app_assoc pre kw).
    replace (length pre + 4)%nat with (length (pre ++ kw)) by (rewrite length_app; lia).
    rewrite (name_after_spec ends_join (pre ++ kw) sp name rest); auto using ends_join_upper.
    intros c Hc. unfold ends_join. rewrite Hc. reflexivity.
  - intros q Hq. rewrite Forall_forall in Hover. apply Hover, elem_of_seq. lia.
  - lia.
  - unfold sql. rewrite length_app. lia.
Qed.

Lemma join_table_found_witness :
  str "c" ∈ sql_tables (str "SELECT * FROM a JOIN b ON x left join c(y)").
Proof.
  apply (join_table_found (str "SELECT * FROM a JOIN b ON x left ") (str "join") (str " ") (str "c") (str "(y)"));
    try reflexivity; try evaluate; try (right; exists 40; split; reflexivity).
Defined.

(** What the scan gets wrong: the letters FROM inside a column name are
    taken for the keyword and the real table is missed, the second table of a
    comma join is missed, and the table of an INNER JOIN is registered twice. *)
Theorem scan_is_textual :
  sql_tables (str "SELECT from_id FROM t") = [str "_id"] /\
  sql_tables (str "SELECT * FROM a, b") = [str "a"] /\
  sql_tables (str "SELECT * FROM a INNER JOIN b") = [str "a"; str "b"; str "b"].
Proof. split_and!; reflexivity. Qed.

(** The name after a JOIN ends only at a space or a parenthesis. *)
Lemma semicolon_kept : sql_tables (str "SELECT * FROM a JOIN b;") = [str "a"; str "b;"].
Proof. reflexivity. Qed.

(** ** Values across the interface *)

Lemma double_stored r : value_ok (VReal r) -> sqlite3VdbeMemSetDouble r = VReal r.
Proof. intros (_ & Hn & _). unfold sqlite3VdbeMemSetDouble. rewrite Hn. reflexivity. Qed.

Lemma conversion_trip v : value_ok v ->
  BindNoriaValue (SqliteColumnToNoriaValue v) = Some (Some (if bool_decide (v = VBlob []) then VNull else v)) /\
  SqliteValueToNoria (Some v) = SqliteColumnToNoriaValue v.
Proof.
  intros Hv. split; [|reflexivity]. destruct v as [|i|r|z|z]; try reflexivity.
  - cbn. f_equal. f_equal. apply double_stored, Hv.
  - cbn [SqliteColumnToNoriaValue]. unfold BindNoriaValue. cbn. rewrite read_n_all. reflexivity.
  - destruct z as [|c z]; [reflexivity|]. rewrite bool_decide_false by discriminate.
    change (BindNoriaValue _) with (z0 ← read_n (Zlen (c :: z)) (c :: z); Some (Some (VBlob z0))).
    rewrite read_n_all. reflexivity.
Qed.

(** C27: a column value converted for the engine and bound again as a parameter
    is the same value, except that an empty blob becomes NULL; and reading a
    value from a changeset or from a column gives the same structure. *)
Theorem value_trip v : value_ok v ->
  BindNoriaValue (SqliteColumnToNoriaValue v) = Some (Some (if bool_decide (v = VBlob []) then VNull else v)) /\
  SqliteValueToNoria (Some v) = SqliteColumnToNoriaValue v.
Proof. apply conversion_trip. Qed.

Lemma value_trip_witness :
  BindNoriaValue (SqliteColumnToNoriaValue (VText [104; 105])) = Some (Some (VText [104; 105])) /\
  BindNoriaValue (SqliteColumnToNoriaValue (VBlob [])) = Some (Some VNull).
Proof. split; [apply (value_trip (VText [104; 105]))|apply (value_trip (VBlob []))]; evaluate. Defined.

(** ** Upqueries *)

Lemma bind_params_trip i vs : Forall value_ok vs -> Forall (fun v => v <> VBlob []) vs ->
  bind_params i (SqliteColumnToNoriaValue <$> vs) = Some (zip (seqZ (i + 1) (Zlen vs)) vs).
Proof.
  revert i. induction vs as [|v vs IH]; intros i Hv Hb; [reflexivity|].
  apply Forall_cons in Hv as [Hv Hvs]. apply Forall_cons in Hb as [Hb Hbs].
  cbn [fmap list_fmap bind_params]. rewrite (proj1 (conversion_trip v Hv)), bool_decide_false by exact Hb.
  cbn [mbind option_bind]. rewrite IH by auto. cbn [mbind option_bind].
  rewrite (seqZ_cons (i + 1)) by zlia. cbn [zip zip_with]. do 4 f_equal; zlia.
Qed.

(** An upquery runs the statement with the given parameters in order. *)
Lemma upquery_rows e sql vs rows rc :
  uq_prepare e sql = SQLITE_OK -> uq_rows_create e = true ->
  Forall value_ok vs -> Forall (fun v => v <> VBlob []) vs ->
  uq_step e sql (zip (seqZ 1 (Zlen vs)) vs) = (rows, rc) -> Zlen rows < 2 ^ 31 ->
  ExecuteUpquery e true (Some sql) (SqliteColumnToNoriaValue <$> vs)
  = Some (0, Some (map (map SqliteColumnToNoriaValue) rows, Zlen rows)).
Proof.
  intros Hp Hc Hv Hb Hs Hl. unfold ExecuteUpquery. rewrite Hp, Hc. cbn [negb Z.eqb SQLITE_OK].
  rewrite bind_params_trip by auto. cbn [mbind option_bind]. change (0 + 1) with 1. rewrite Hs. cbn [fst].
  rewrite int_ok_id by (unfold is_i32; zlia). reflexivity.
Qed.

(** C31: an upquery runs the statement with the given parameters in order and
    returns all its rows converted, but it does so whatever code ended the
    stepping: an error after some rows is reported as a complete result. *)
Theorem upquery_returns_rows e sql vs rows rc :
  uq_prepare e sql = SQLITE_OK -> uq_rows_create e = true ->
  Forall value_ok vs -> Forall (fun v => v <> VBlob []) vs ->
  uq_step e sql (zip (seqZ 1 (Zlen vs)) vs) = (rows, rc) -> Zlen rows < 2 ^ 31 ->
  ExecuteUpquery e true (Some sql) (SqliteColumnToNoriaValue <$> vs)
  = Some (0, Some (map (map SqliteColumnToNoriaValue) rows, Zlen rows)).
Proof. apply upquery_rows. Qed.

Definition broken_upquery : UpqueryEnv :=
  mkUpqueryEnv (fun _ => SQLITE_OK) true (fun _ _ => ([[VInt 1]], SQLITE_CORRUPT)).

Lemma upquery_returns_rows_witness :
  ExecuteUpquery broken_upquery true (Some demo_sql) (SqliteColumnToNoriaValue <$> [VInt 5])
  = Some (0, Some ([[nv_integer 1]], 1)).
Proof.
  apply (upquery_returns_rows broken_upquery demo_sql [VInt 5] [[VInt 1]] SQLITE_CORRUPT); reflexivity || evaluate.
Defined.
