(* ===== verification/Bind.v ===== *)
(** * Bound parameters of a prepared statement (vdbeapi.c, util.c)

    The list of parameter names, the array of bound values, and the functions
    that bind, clear and transfer them. *)
From stdpp Require Import strings.
From S2P Require Import Prelude Value Codes Strings.

Local Open Scope Z_scope.


(** ** Parameter names

    A [VList] is an array that packs numbers and names; here it is the list of
    its entries, in order, and [None] is the null pointer. *)

Definition VList := option (list (Z * list Z)).

(** [sqlite3VListAdd]; a failed growth returns the old list. *)
Definition sqlite3VListAdd (realloc : bool) (pIn : VList) (zName : list Z) (iVal : Z) : VList :=
  if realloc then Some (default [] pIn ++ [(iVal, zName)]) else pIn.

Fixpoint vlist_name (l : list (Z * list Z)) (iVal : Z) : option (list Z) :=
  match l with
  | [] => None
  | (i, z) :: l => if i =? iVal then Some z else vlist_name l iVal
  end.

Definition sqlite3VListNumToName (pIn : VList) (iVal : Z) : option (list Z) :=
  l ← pIn; vlist_name l iVal.

Fixpoint vlist_num (l : list (Z * list Z)) (zName : list Z) : Z :=
  match l with
  | [] => 0
  | (i, z) :: l => if bool_decide (z = zName) then i else vlist_num l zName
  end.

(** [nName] is the length of [zName]. *)
Definition sqlite3VListNameToNum (pIn : VList) (zName : list Z) : Z :=
  match pIn with None => 0 | Some l => vlist_num l zName end.

(** ** The statement *)

(** [vd_db] is false after [sqlite3_finalize]; [vd_ready] is
    [eVdbeState==VDBE_READY_STATE]. *)
Record Vdbe := mkVdbe {
  vd_db : bool;
  vd_ready : bool;
  vd_nVar : Z;
  vd_aVar : list sqlite3_value;
  vd_pVList : VList;
  vd_expmask : Z;
  vd_expired : bool
}.

Definition set_aVar (p : Vdbe) (a : list sqlite3_value) : Vdbe :=
  mkVdbe (vd_db p) (vd_ready p) (vd_nVar p) a (vd_pVList p) (vd_expmask p) (vd_expired p).
Definition set_expired (p : Vdbe) (b : bool) : Vdbe :=
  mkVdbe (vd_db p) (vd_ready p) (vd_nVar p) (vd_aVar p) (vd_pVList p) (vd_expmask p) b.

(** [pVar = &p->aVar[i]] and a store there. *)
Definition put_var (p : Vdbe) (i : Z) (v : sqlite3_value) : option Vdbe :=
  _ ← at_ (vd_aVar p) i;
  Some (set_aVar p (<[Z.to_nat i := v]> (vd_aVar p))).

Definition vdbeUnbind (p : Vdbe) (i : Z) : option (Vdbe * Z) :=
  if negb (vd_db p) then Some (p, SQLITE_MISUSE)
  else if negb (vd_ready p) then Some (p, SQLITE_MISUSE)
  else if vd_nVar p <=? i then Some (p, SQLITE_RANGE)
  else
    p ← put_var p i VNull;
    let bit := if 31 <=? i then 0x80000000 else Z.shiftl 1 i in
    let p := if truth (vd_expmask p) && truth (Z.land (vd_expmask p) bit) then set_expired p true else p in
    Some (p, SQLITE_OK).

(** The bytes of a C string. *)
Fixpoint upto_nul (z : list Z) : option (list Z) :=
  match z with
  | [] => None
  | c :: z => if c =? 0 then Some [] else s ← upto_nul z; Some (c :: s)
  end.

(** [sqlite3VdbeMemSetStr(pMem, z, n, enc, SQLITE_TRANSIENT)] for UTF-8 text
    or a blob ([enc == 0]): the result and the value left in [pMem].
    [malloc] is the outcome of the allocation of the copy. *)
Definition sqlite3VdbeMemSetStr (malloc : bool) (iLimit : Z) (z : option (list Z)) (n : Z) (blob : bool)
    : option (Z * sqlite3_value) :=
  match z with
  | None => Some (SQLITE_OK, VNull)
  | Some z =>
      nByte ← (if n <? 0 then if blob then None else Zlen <$> upto_nul z else Some n);
      if iLimit <? nByte then Some (SQLITE_TOOBIG, VNull)
      else if negb malloc then Some (SQLITE_NOMEM, VNull)
      else bytes ← read_n nByte z; Some (SQLITE_OK, if blob then VBlob bytes else VText bytes)
  end.

(** [bindText] with [SQLITE_TRANSIENT], on a database encoded in UTF-8. *)
Definition bindText (malloc : bool) (iLimit : Z) (p : Vdbe) (i : Z) (zData : option (list Z)) (nData : Z)
    (blob : bool) : option (Vdbe * Z) :=
  '(p, rc) ← vdbeUnbind p (u32 (i - 1));
  if negb (rc =? SQLITE_OK) then Some (p, rc)
  else match zData with
       | None => Some (p, SQLITE_OK)
       | Some _ =>
           '(rc, v) ← sqlite3VdbeMemSetStr malloc iLimit zData nData blob;
           p ← put_var p (i - 1) v;
           Some (p, rc)
       end.

Definition sqlite3_bind_blob (malloc : bool) (iLimit : Z) (p : Vdbe) (i : Z) (zData : option (list Z)) (nData : Z)
    : option (Vdbe * Z) := bindText malloc iLimit p i zData nData true.

Definition sqlite3_bind_text (malloc : bool) (iLimit : Z) (p : Vdbe) (i : Z) (zData : option (list Z)) (nData : Z)
    : option (Vdbe * Z) := bindText malloc iLimit p i zData nData false.

Definition sqlite3_bind_double (p : Vdbe) (i rValue : Z) : option (Vdbe * Z) :=
  '(p, rc) ← vdbeUnbind p (u32 (i - 1));
  if negb (rc =? SQLITE_OK) then Some (p, rc)
  else p ← put_var p (i - 1) (sqlite3VdbeMemSetDouble rValue); Some (p, rc).

Definition sqlite3_bind_int64 (p : Vdbe) (i iValue : Z) : option (Vdbe * Z) :=
  '(p, rc) ← vdbeUnbind p (u32 (i - 1));
  if negb (rc =? SQLITE_OK) then Some (p, rc)
  else p ← put_var p (i - 1) (sqlite3VdbeMemSetInt64 iValue); Some (p, rc).

Definition sqlite3_bind_null (p : Vdbe) (i : Z) : option (Vdbe * Z) := vdbeUnbind p (u32 (i - 1)).

Definition sqlite3_bind_parameter_count (p : option Vdbe) : Z :=
  match p with Some p => vd_nVar p | None => 0 end.

Definition sqlite3_bind_parameter_name (p : option Vdbe) (i : Z) : option (list Z) :=
  p ← p; sqlite3VListNumToName (vd_pVList p) i.

Definition sqlite3VdbeParameterIndex (p : option Vdbe) (zName : option (list Z)) : Z :=
  match p, zName with
  | Some p, Some zName => sqlite3VListNameToNum (vd_pVList p) zName
  | _, _ => 0
  end.

Definition sqlite3_bind_parameter_index (p : option Vdbe) (zName : option (list Z)) : Z :=
  sqlite3VdbeParameterIndex p zName.

Definition sqlite3_clear_bindings (p : Vdbe) : Vdbe :=
  let p := set_aVar p ((fun _ => VNull) <$> vd_aVar p) in
  if truth (vd_expmask p) then set_expired p true else p.

(** [sqlite3TransferBindings(pFrom, pTo)]: the two statements; the values move. *)
Definition sqlite3TransferBindings (pFrom pTo : Vdbe) : Vdbe * Vdbe :=
  (set_aVar pFrom ((fun _ => VNull) <$> vd_aVar pFrom), set_aVar pTo (vd_aVar pFrom)).

(** ** Laws *)

(** A statement as [sqlite3_prepare] returns it, or reset, with its array. *)
Record vdbe_ok (p : Vdbe) : Prop := {
  vk_db : vd_db p = true;
  vk_ready : vd_ready p = true;
  vk_nVar : vd_nVar p = Zlen (vd_aVar p);
  vk_small : vd_nVar p < 2 ^ 31
}.

(** What binding leaves alone. *)
Definition binds (p p' : Vdbe) (i : Z) (v : sqlite3_value) : Prop :=
  vd_aVar p' = <[Z.to_nat (i - 1) := v]> (vd_aVar p) /\
  vd_db p' = vd_db p /\ vd_ready p' = vd_ready p /\ vd_nVar p' = vd_nVar p /\ vd_pVList p' = vd_pVList p.

Lemma binds_ok p p' i v : vdbe_ok p -> binds p p' i v -> vdbe_ok p'.
Proof.
  intros [H1 H2 H3 H4] (E1 & E2 & E3 & E4 & E5). split; [congruence|congruence| |lia].
  rewrite E4, E1, H3. unfold Zlen. rewrite length_insert. reflexivity.
Qed.

Lemma put_var_spec p i v : 0 <= i < Zlen (vd_aVar p) -> put_var p i v = Some (set_aVar p (<[Z.to_nat i := v]> (vd_aVar p))).
Proof.
  intros Hi. unfold put_var. unfold Zlen in Hi. destruct (lookup_lt_is_Some_2 (vd_aVar p) (Z.to_nat i)) as [x Hx]; [lia|].
  rewrite <- (Z2Nat.id i) at 1 by lia. rewrite at_lookup, Hx. reflexivity.
Qed.

Lemma unbind_out p i : vdbe_ok p -> i < 1 \/ vd_nVar p < i -> is_i32 i -> vdbeUnbind p (u32 (i - 1)) = Some (p, SQLITE_RANGE).
Proof.
  intros [H1 H2 H3 H4] Hi Hi32. unfold vdbeUnbind, is_i32 in *. rewrite H1, H2. cbn [negb].
  rewrite (proj2 (Z.leb_le _ _)); [reflexivity|]. pose proof (Zlen_nonneg (vd_aVar p)). unfold u32.
  destruct (Z.le_gt_cases 1 i).
  - rewrite Z.mod_small by lia. lia.
  - rewrite <- (Z.mod_add _ 1) by lia. rewrite Z.mod_small by lia. lia.
Qed.

Lemma unbind_in p i : vdbe_ok p -> 1 <= i <= vd_nVar p ->
  exists p', vdbeUnbind p (u32 (i - 1)) = Some (p', SQLITE_OK) /\ binds p p' i VNull.
Proof.
  intros [H1 H2 H3 H4] Hi. unfold vdbeUnbind. rewrite H1, H2. cbn [negb].
  unfold u32. rewrite Z.mod_small by lia. rewrite (proj2 (Z.leb_gt _ _)) by lia.
  rewrite put_var_spec by lia. cbn [mbind option_bind]. eexists. split; [reflexivity|].
  destruct (_ && _); split_and!; reflexivity.
Qed.

(** Storing a value over the NULL an unbind has left. *)
Lemma unbind_then p p' i v : vdbe_ok p -> 1 <= i <= vd_nVar p -> binds p p' i VNull ->
  exists p'', put_var p' (i - 1) v = Some p'' /\ binds p p'' i v.
Proof.
  intros Hp Hi Hb. pose proof (binds_ok _ _ _ _ Hp Hb) as [_ _ H3 _]. destruct Hb as (E1 & E2 & E3 & E4 & E5).
  rewrite put_var_spec by lia. eexists. split; [reflexivity|]. split_and!; try assumption.
  cbn. rewrite E1. apply list_insert_insert_eq.
Qed.

#[export] Hint Resolve binds_ok : noria.
