(* ===== verification/Js.v ===== *)
(** * JavaScript values and their conversion (data.cpp, row-builder.cpp)

    The values the addon exchanges with JavaScript, and the conversions in
    both directions. *)
From stdpp Require Import strings.
From S2P Require Import Prelude Double Value Codes Strings Bind.

Local Open Scope Z_scope.

(** ** Values

    A number is the pattern of its double and a string its UTF-8 bytes.  Reading
    an element of an array or a property of an object can throw: the value is
    then [None].  [JObject false] is any object that is neither plain nor an
    array nor a buffer.  [JHeir] is a row whose prototype a column named
    [__proto__] has replaced: the new prototype, the own properties the row had
    then, and what was set on it afterwards, in order, where the effect of each
    depends on the prototype.  Arguments are never [JHeir]. *)
Inductive js_value :=
  | JUndefined
  | JNull
  | JBoolean (b : bool)
  | JNumber (r : Z)
  | JBigInt (i : Z)
  | JString (z : list Z)
  | JBuffer (z : list Z)
  | JArray (l : list (option js_value))
  | JObject (plain : bool) (props : list (list Z * option js_value))
  | JHeir (proto : js_value) (props later : list (list Z * option js_value)).

Definition IsArray (v : js_value) : bool := match v with JArray _ => true | _ => false end.
Definition IsBuffer (v : js_value) : bool := match v with JBuffer _ => true | _ => false end.
Definition IsObject (v : js_value) : bool :=
  match v with JArray _ | JObject _ _ | JBuffer _ | JHeir _ _ _ => true | _ => false end.
Definition IsNull (v : js_value) : bool := match v with JNull => true | _ => false end.

(** The exceptions the addon throws; [UserError] is one that user code has
    thrown, and [MissingNamed key] the range error that names a parameter. *)
Inductive js_error :=
  | TypeError (message : string)
  | RangeError (message : string)
  | PlainError (message : string)
  | MissingNamed (key : list Z)
  | SqliteError (code : Z)
  | UserError.

#[export] Instance js_error_eq_dec : EqDecision js_error.
Proof. solve_decision. Defined.

(** [HasOwnProperty] followed by [Get]: [None] if there is no such property. *)
Fixpoint own_property (props : list (list Z * option js_value)) (key : list Z) : option (option js_value) :=
  match props with
  | [] => None
  | (k, v) :: props => if bool_decide (k = key) then Some v else own_property props key
  end.

(** An own property defined, or its value replaced. *)
Fixpoint define_property (props : list (list Z * option js_value)) (key : list Z) (v : js_value)
    : list (list Z * option js_value) :=
  match props with
  | [] => [(key, Some v)]
  | (k, w) :: props => if bool_decide (k = key) then (k, Some v) :: props else (k, w) :: define_property props key v
  end.

Definition proto_key : list Z := str "__proto__".

(** The setter [__proto__] of [Object.prototype]: null and objects replace the
    prototype, other values are ignored. *)
Definition set_proto (props : list (list Z * option js_value)) (v : js_value) : js_value :=
  if IsNull v || IsObject v then JHeir v props [] else JObject true props.

(** [obj->Set(ctx, key, value)] on an object made by [Object::New]: an own
    property is replaced; otherwise the setter of [Object.prototype] runs for
    its one accessor, and any other key becomes an own property. *)
Definition set_property (obj : js_value) (key : list Z) (v : js_value) : js_value :=
  match obj with
  | JObject plain props =>
      if bool_decide (key = proto_key) && negb (bool_decide (is_Some (own_property props key)))
      then set_proto props v else JObject plain (define_property props key v)
  | JHeir proto props later => JHeir proto props (later ++ [(key, Some v)])
  | _ => obj
  end.

(** ** From JavaScript to SQLite *)

(** What an allocation and the length limit of the connection allow. *)
Record BindEnv := mkBindEnv {
  be_malloc : Z -> bool;        (* copying a text or blob to parameter i *)
  be_limit : Z                  (* SQLITE_LIMIT_LENGTH *)
}.

(** [BigInt::Int64Value(&lossless)]. *)
Definition Int64Value (i : Z) : Z * bool := (i64 i, (- 2 ^ 63 <=? i) && (i <? 2 ^ 63)).

(** [Data::BindValueFromJS]: the new statement and the status. *)
Definition BindValueFromJS (e : BindEnv) (handle : Vdbe) (index : Z) (value : js_value) : option (Vdbe * Z) :=
  match value with
  | JNumber r => sqlite3_bind_double handle index r
  | JBigInt i =>
      let '(v, lossless) := Int64Value i in
      if lossless then sqlite3_bind_int64 handle index v else Some (handle, SQLITE_TOOBIG)
  | JString z => sqlite3_bind_text (be_malloc e index) (be_limit e) handle index (Some z) (i32 (Zlen z))
  | JBuffer z => sqlite3_bind_blob (be_malloc e index) (be_limit e) handle index (Some z) (i32 (Zlen z))
  | JNull | JUndefined => sqlite3_bind_null handle index
  | _ => Some (handle, -1)
  end.

(** The result of a user-defined function: a value, or the kind of error
    [ThrowDataConversionError] throws. *)
Inductive data_error := BigIntTooBig | InvalidValue.

Definition ResultValueFromJS (value : js_value) : sqlite3_value + data_error :=
  match value with
  | JNumber r => inl (sqlite3VdbeMemSetDouble r)
  | JBigInt i =>
      let '(v, lossless) := Int64Value i in
      if lossless then inl (VInt v) else inr BigIntTooBig
  | JString z => inl (VText z)
  | JBuffer z => inl (VBlob z)
  | JNull | JUndefined => inl VNull
  | _ => inr InvalidValue
  end.

(** ** From SQLite to JavaScript *)

(** [Data::GetValueJS]; without [safe_ints] an integer falls through to the
    case of a double. *)
Definition GetValueJS (v : sqlite3_value) (safe_ints : bool) : js_value :=
  let type := sqlite3_value_type v in
  if (type =? SQLITE_INTEGER) && safe_ints then JBigInt (sqlite3_value_int64 v)
  else if (type =? SQLITE_INTEGER) || (type =? SQLITE_FLOAT) then JNumber (sqlite3_value_double v)
  else if type =? SQLITE_TEXT then JString (default [] (sqlite3_value_text v))
  else if type =? SQLITE_BLOB then JBuffer (default [] (sqlite3_value_blob v))
  else JNull.

Definition GetArgumentsJS (values : list sqlite3_value) (safe_ints : bool) : list js_value :=
  (fun v => GetValueJS v safe_ints) <$> values.

(** The columns of a row: the name of the table (null for an expression), the
    name of the column and its value. *)
Record column := mkColumn {
  cl_table : option (list Z);
  cl_name : list Z;
  cl_value : sqlite3_value
}.

Definition FLAT : Z := 0.
Definition PLUCK : Z := 1.
Definition EXPAND : Z := 2.
Definition RAW : Z := 3.

Definition GetFlatRowJS (row : list column) (safe_ints : bool) : js_value :=
  fold_left (fun o c => set_property o (cl_name c) (GetValueJS (cl_value c) safe_ints)) row (JObject true []).

Definition GetRawRowJS (row : list column) (safe_ints : bool) : js_value :=
  JArray ((fun c => Some (GetValueJS (cl_value c) safe_ints)) <$> row).

(** One column of an expanded row: [row->HasOwnProperty(ctx, table)] tells if
    the object of the table is there; a new one is set on the row and then
    gets the column.  Once the prototype of the row is replaced (by the object of
    a table named [__proto__]), the column is only recorded. *)
Definition expand_column (row : js_value) (table column : list Z) (value : js_value) : js_value :=
  match row with
  | JObject plain props =>
      match own_property props table with
      | Some (Some nested) => JObject plain (define_property props table (set_property nested column value))
      | _ => set_property row table (set_property (JObject true []) column value)
      end
  | _ => set_property row table (set_property (JObject true []) column value)
  end.

Definition GetExpandedRowJS (row : list column) (safe_ints : bool) : js_value :=
  fold_left (fun o c => expand_column o (default (str "$") (cl_table c)) (cl_name c) (GetValueJS (cl_value c) safe_ints))
    row (JObject true []).

(** The same two from Node 22 on, where the names and the values are collected
    before the object is made: [Object::New] with the prototype of a new object
    and an array of each defines own properties, whatever their names. *)
Definition Object_New (keys : list (list Z)) (values : list js_value) : js_value :=
  JObject true (fold_left (fun o kv => define_property o kv.1 kv.2) (zip keys values) []).

Definition GetFlatRowJS_v22 (row : list column) (safe_ints : bool) : js_value :=
  let keys := cl_name <$> row in
  let values := (fun c => GetValueJS (cl_value c) safe_ints) <$> row in
  Object_New keys values.

Definition GetRawRowJS_v22 (row : list column) (safe_ints : bool) : js_value :=
  let row := (fun c => GetValueJS (cl_value c) safe_ints) <$> row in
  JArray (Some <$> row).

(** [Data::GetRowJS]; [PLUCK] reads the first column. *)
Definition GetRowJS (row : list column) (safe_ints : bool) (mode : Z) : option js_value :=
  if mode =? FLAT then Some (GetFlatRowJS row safe_ints)
  else if mode =? PLUCK then c ← head row; Some (GetValueJS (cl_value c) safe_ints)
  else if mode =? EXPAND then Some (GetExpandedRowJS row safe_ints)
  else if mode =? RAW then Some (GetRawRowJS row safe_ints)
  else None.

Definition GetRowJS_v22 (row : list column) (safe_ints : bool) (mode : Z) : option js_value :=
  if mode =? FLAT then Some (GetFlatRowJS_v22 row safe_ints)
  else if mode =? PLUCK then c ← head row; Some (GetValueJS (cl_value c) safe_ints)
  else if mode =? EXPAND then Some (GetExpandedRowJS row safe_ints)
  else if mode =? RAW then Some (GetRawRowJS_v22 row safe_ints)
  else None.

(** ** Rows with the names read once (row-builder.cpp)

    [rb_keys] is [None] while [column_count] is negative. *)
Record RowBuilder := mkRowBuilder {
  rb_keys : option (list (list Z));
  rb_safe_ints : bool
}.

Definition RowBuilder_new (safe_ints : bool) : RowBuilder := mkRowBuilder None safe_ints.

Definition RowBuilder_GetRowJS (b : RowBuilder) (row : list column) : RowBuilder * js_value :=
  let keys := match rb_keys b with Some keys => keys | None => cl_name <$> row end in
  let values := (fun c => GetValueJS (cl_value c) (rb_safe_ints b)) <$> take (length keys) row in
  (mkRowBuilder (Some keys) (rb_safe_ints b), Object_New keys values).

(** The rows of a result, one after the other. *)
Fixpoint build_rows (b : RowBuilder) (rows : list (list column)) : list js_value :=
  match rows with
  | [] => []
  | row :: rows => let '(b, v) := RowBuilder_GetRowJS b row in v :: build_rows b rows
  end.

(** ** Laws *)

Lemma own_define_same o key v : own_property (define_property o key v) key = Some (Some v).
Proof.
  induction o as [|[k w] o IH]; cbn [define_property own_property].
  - rewrite bool_decide_true by reflexivity. reflexivity.
  - destruct (bool_decide_reflect (k = key)) as [->|N]; cbn [own_property].
    + rewrite bool_decide_true by reflexivity. reflexivity.
    + rewrite bool_decide_false by exact N. exact IH.
Qed.

Lemma own_define_other o key key' v : key <> key' -> own_property (define_property o key v) key' = own_property o key'.
Proof.
  intros N. induction o as [|[k w] o IH]; cbn [define_property own_property].
  - rewrite bool_decide_false by exact N. reflexivity.
  - destruct (bool_decide_reflect (k = key)) as [->|Nk]; cbn [own_property].
    + rewrite bool_decide_false by exact N. reflexivity.
    + rewrite IH. reflexivity.
Qed.

Lemma zip_columns (f : column -> js_value) row o :
  fold_left (fun o kv => define_property o kv.1 kv.2) (zip (cl_name <$> row) (f <$> row)) o =
  fold_left (fun o c => define_property o (cl_name c) (f c)) row o.
Proof. revert o. induction row as [|c row IH]; intros o; [reflexivity|apply IH]. Qed.

(** Without a column named [__proto__] setting defines own properties. *)
Lemma set_defines (f : column -> js_value) row o : proto_key ∉ (cl_name <$> row) ->
  fold_left (fun o c => set_property o (cl_name c) (f c)) row (JObject true o) =
  JObject true (fold_left (fun o c => define_property o (cl_name c) (f c)) row o).
Proof.
  revert o. induction row as [|c row IH]; intros o N; [reflexivity|]. rewrite fmap_cons, not_elem_of_cons in N. destruct N as [N1 N2].
  cbn [fold_left]. unfold set_property at 2. rewrite bool_decide_false by (intros E; apply N1; symmetry; exact E). apply IH, N2.
Qed.

Lemma flat_row_v22 row safe_ints : proto_key ∉ (cl_name <$> row) -> GetFlatRowJS_v22 row safe_ints = GetFlatRowJS row safe_ints.
Proof. intros N. unfold GetFlatRowJS_v22, GetFlatRowJS, Object_New. rewrite set_defines by exact N. f_equal. apply zip_columns. Qed.

(** Setting [__proto__] on a new object never makes it an own property. *)
Lemma set_never_own (f : column -> js_value) row obj :
  match obj with JObject true o => own_property o proto_key = None | JHeir _ _ _ => True | _ => False end ->
  match fold_left (fun o c => set_property o (cl_name c) (f c)) row obj with
  | JObject true o => own_property o proto_key = None | JHeir _ _ _ => True | _ => False end.
Proof.
  revert obj. induction row as [|c row IH]; intros obj Ho; [exact Ho|]. cbn [fold_left]. apply IH.
  destruct obj as [| | | | | | | |[] o|]; try contradiction; [|exact I]. unfold set_property.
  destruct (bool_decide_reflect (cl_name c = proto_key)) as [->|N]; cbn [andb].
  - rewrite Ho, bool_decide_false by (intros [? ?]; discriminate). cbn [negb]. unfold set_proto.
    destruct (IsNull (f c) || IsObject (f c)); [exact I|exact Ho].
  - rewrite own_define_other by exact N. exact Ho.
Qed.

Lemma raw_row_v22 row safe_ints : GetRawRowJS_v22 row safe_ints = GetRawRowJS row safe_ints.
Proof. unfold GetRawRowJS_v22, GetRawRowJS. rewrite <- list_fmap_compose. reflexivity. Qed.

(** A column whose name is used once keeps its value; a repeated name has the
    value of its last column. *)
Lemma flat_fold_notin (f : column -> js_value) row o key :
  key ∉ (cl_name <$> row) ->
  own_property (fold_left (fun o c => define_property o (cl_name c) (f c)) row o) key = own_property o key.
Proof.
  revert o. induction row as [|c row IH]; intros o N; [reflexivity|].
  cbn [fold_left]. rewrite fmap_cons, not_elem_of_cons in N. rewrite IH by apply N.
  apply own_define_other. intros E. apply (proj1 N). symmetry. exact E.
Qed.

Lemma flat_last (f : column -> js_value) row1 c row2 o :
  cl_name c ∉ (cl_name <$> row2) ->
  own_property (fold_left (fun o c => define_property o (cl_name c) (f c)) (row1 ++ c :: row2) o) (cl_name c)
  = Some (Some (f c)).
Proof.
  intros N. rewrite fold_left_app. cbn [fold_left]. rewrite flat_fold_notin by exact N. apply own_define_same.
Qed.

Lemma flat_some (f : column -> js_value) row o key : key ∈ (cl_name <$> row) ->
  exists v, own_property (fold_left (fun o c => define_property o (cl_name c) (f c)) row o) key = Some v.
Proof.
  revert o. induction row as [|c row IH] using rev_ind; intros o Hk; [inversion Hk|]. rewrite fold_left_app. cbn [fold_left].
  destruct (decide (cl_name c = key)) as [<-|N]; [rewrite own_define_same; eauto|]. rewrite own_define_other by exact N. apply IH.
  rewrite fmap_app, elem_of_app in Hk. destruct Hk as [Hk|Hk]; [exact Hk|]. apply list_elem_of_singleton in Hk. congruence.
Qed.

(** *** Binding *)

Definition is_bigint (v : js_value) : bool := match v with JBigInt _ => true | _ => false end.

(** The values that can be bound, under a length limit. *)
Definition bindable (limit : Z) (v : js_value) : Prop :=
  match v with
  | JUndefined | JNull | JNumber _ => True
  | JBigInt i => - 2 ^ 63 <= i < 2 ^ 63
  | JString z | JBuffer z => Zlen z <= limit
  | _ => False
  end.

(** What SQLite stores for a bindable value. *)
Definition bound_value (v : js_value) : sqlite3_value :=
  match v with
  | JNumber r => sqlite3VdbeMemSetDouble r
  | JBigInt i => VInt i
  | JString z => VText z
  | JBuffer z => VBlob z
  | _ => VNull
  end.

(** What reading a bound value gives back: undefined and NaN come back null. *)
Definition read_back (v : js_value) : js_value :=
  match v with
  | JUndefined => JNull
  | JNumber r => if IsNaN r then JNull else v
  | _ => v
  end.

Lemma set_str_spec limit z blob : is_i32 (Zlen z) -> Zlen z <= limit ->
  sqlite3VdbeMemSetStr true limit (Some z) (i32 (Zlen z)) blob = Some (SQLITE_OK, if blob then VBlob z else VText z).
Proof.
  intros Hz Hl. unfold sqlite3VdbeMemSetStr. rewrite i32_id by exact Hz.
  pose proof (Zlen_nonneg z). rewrite (proj2 (Z.ltb_ge (Zlen z) 0)) by lia. cbn [mbind option_bind].
  rewrite (proj2 (Z.ltb_ge limit (Zlen z))) by lia. cbn [negb]. rewrite read_n_all. reflexivity.
Qed.

Lemma bind_text_spec limit p i z blob : vdbe_ok p -> 1 <= i <= vd_nVar p -> is_i32 (Zlen z) -> Zlen z <= limit ->
  exists p', bindText true limit p i (Some z) (i32 (Zlen z)) blob = Some (p', SQLITE_OK) /\
    binds p p' i (if blob then VBlob z else VText z).
Proof.
  intros Hp Hi Hz Hl. destruct (unbind_in p i Hp Hi) as (p1 & E1 & B1). unfold bindText. rewrite E1.
  cbn [mbind option_bind Z.eqb SQLITE_OK negb]. rewrite set_str_spec by assumption. cbn [mbind option_bind].
  destruct (unbind_then p p1 i (if blob then VBlob z else VText z) Hp Hi B1) as (p2 & E2 & B2).
  rewrite E2. cbn [mbind option_bind]. eauto.
Qed.

(** A bindable value is stored at its parameter and nothing else changes. *)
Lemma bind_value_spec e p i v : vdbe_ok p -> 1 <= i <= vd_nVar p -> be_malloc e i = true -> be_limit e < 2 ^ 31 ->
  bindable (be_limit e) v ->
  exists p', BindValueFromJS e p i v = Some (p', SQLITE_OK) /\ binds p p' i (bound_value v).
Proof.
  intros Hp Hi Hm Hlim Hv. destruct (unbind_in p i Hp Hi) as (p1 & E1 & B1).
  assert (L : forall z, Zlen z <= be_limit e -> is_i32 (Zlen (z : list Z)))
    by (intros z Hz; pose proof (Zlen_nonneg z); unfold is_i32; lia).
  assert (S : forall w, exists p', put_var p1 (i - 1) w = Some p' /\ binds p p' i w)
    by (intros w; exact (unbind_then p p1 i w Hp Hi B1)).
  destruct v as [| | |r|n|z|z| | |]; cbn [bindable BindValueFromJS bound_value] in *; try (exfalso; exact Hv).
  - exists p1. auto.
  - exists p1. auto.
  - destruct (S (sqlite3VdbeMemSetDouble r)) as (p2 & E2 & B2). exists p2. unfold sqlite3_bind_double.
    rewrite E1. cbn [mbind option_bind Z.eqb SQLITE_OK negb]. rewrite E2. auto.
  - destruct (S (VInt n)) as (p2 & E2 & B2). exists p2. unfold Int64Value, sqlite3_bind_int64.
    rewrite (proj2 (Z.leb_le _ _)), (proj2 (Z.ltb_lt _ _)) by lia. cbn [andb].
    rewrite E1. cbn [mbind option_bind Z.eqb SQLITE_OK negb].
    rewrite i64_id by (unfold is_i64; lia). unfold sqlite3VdbeMemSetInt64. rewrite E2. auto.
  - unfold sqlite3_bind_text. rewrite Hm. apply bind_text_spec; auto.
  - unfold sqlite3_bind_blob. rewrite Hm. apply bind_text_spec; auto.
Qed.

Lemma value_read_back limit v : bindable limit v -> GetValueJS (bound_value v) (is_bigint v) = read_back v.
Proof.
  destruct v as [| | |r|n|z|z| | |]; cbn [bindable]; intros Hv; try (exfalso; exact Hv); try reflexivity.
  - cbn [bound_value read_back]. unfold sqlite3VdbeMemSetDouble. destruct (IsNaN r); reflexivity.
  - cbn. destruct z as [|c z]; reflexivity.
Qed.
