(* ===== verification/Binder.v ===== *)
(** * Binding the arguments of a call to a statement (binder.cpp, bind-map.cpp)

    [Statement::GetBindMap] collects the named parameters of a statement; a
    [Binder] assigns the arguments of [run], [get], [all], [iterate] and [bind]
    to its parameters. *)
From stdpp Require Import strings.
From S2P Require Import Prelude Double Value Codes Strings Bind Js.

Local Open Scope Z_scope.

(** ** The map of the named parameters (bind-map.cpp) *)

Record BindMap := mkBindMap {
  bm_pairs : list (list Z * Z);     (* name without its prefix, index *)
  bm_capacity : Z;
  bm_length : Z
}.

Definition BindMap_new : BindMap := mkBindMap [] 0 0.

Definition BindMap_Grow (m : BindMap) : option BindMap :=
  if negb (bm_capacity m =? bm_length m) then None
  else
    capacity ← int_ok (Z.lor (Z.shiftl (bm_capacity m) 1) 2);
    Some (mkBindMap (bm_pairs m) capacity (bm_length m)).

(** A slot past the capacity is out of bounds. *)
Definition BindMap_Add (m : BindMap) (name : list Z) (index : Z) : option BindMap :=
  m ← (if bm_capacity m =? bm_length m then BindMap_Grow m else Some m);
  if bm_capacity m <=? bm_length m then None
  else Some (mkBindMap (bm_pairs m ++ [(name, index)]) (bm_capacity m) (bm_length m + 1)).

(** The loop of [Statement::GetBindMap] from parameter [i] on; [name + 1] skips
    the prefix of the name. *)
Fixpoint bind_map_loop (fuel : nat) (handle : Vdbe) (i : Z) (m : BindMap) : option BindMap :=
  match fuel with
  | O => Some m
  | S fuel =>
      m ← match sqlite3_bind_parameter_name (Some handle) i with
          | Some name => key ← advance 1 name; BindMap_Add m key i
          | None => Some m
          end;
      bind_map_loop fuel handle (i + 1) m
  end.

(** [st_map] is [None] while [has_bind_map] is false. *)
Definition GetBindMap (st_map : option BindMap) (handle : Vdbe) : option BindMap :=
  match st_map with
  | Some m => Some m
  | None =>
      let param_count := sqlite3_bind_parameter_count (Some handle) in
      bind_map_loop (Z.to_nat param_count) handle 1 BindMap_new
  end.

(** ** The binder *)

(** [bd_error] is the error [Fail] has thrown: [success] is its absence. *)
Record Binder := mkBinder {
  bd_handle : Vdbe;
  bd_param_count : Z;
  bd_anon_index : Z;
  bd_error : option js_error;
  bd_map : option BindMap
}.

Definition Binder_new (handle : Vdbe) (st_map : option BindMap) : Binder :=
  mkBinder handle (sqlite3_bind_parameter_count (Some handle)) 0 None st_map.

Definition success (b : Binder) : bool := match bd_error b with None => true | Some _ => false end.

Definition Fail (b : Binder) (err : js_error) : option Binder :=
  if success b
  then Some (mkBinder (bd_handle b) (bd_param_count b) (bd_anon_index b) (Some err) (bd_map b))
  else None.

Definition set_handle (b : Binder) (p : Vdbe) : Binder :=
  mkBinder p (bd_param_count b) (bd_anon_index b) (bd_error b) (bd_map b).
Definition set_anon (b : Binder) (i : Z) : Binder :=
  mkBinder (bd_handle b) (bd_param_count b) i (bd_error b) (bd_map b).

(** [stmt->GetBindMap(isolate)], which the statement keeps. *)
Definition binder_map (b : Binder) : option (Binder * BindMap) :=
  m ← GetBindMap (bd_map b) (bd_handle b);
  Some (mkBinder (bd_handle b) (bd_param_count b) (bd_anon_index b) (bd_error b) (Some m), m).

(** The loop of [NextAnonIndex]. *)
Fixpoint next_anon (fuel : nat) (handle : Vdbe) (anon_index : Z) : option Z :=
  match fuel with
  | O => None
  | S fuel =>
      anon_index ← int_ok (anon_index + 1);
      match sqlite3_bind_parameter_name (Some handle) anon_index with
      | Some _ => next_anon fuel handle anon_index
      | None => Some anon_index
      end
  end.

(** No parameter after the last one has a name. *)
Definition NextAnonIndex (b : Binder) : option (Binder * Z) :=
  i ← next_anon (S (Z.to_nat (bd_param_count b - bd_anon_index b))) (bd_handle b) (bd_anon_index b);
  Some (set_anon b i, i).

Definition bind_error (status : Z) : js_error :=
  if status =? -1 then TypeError "SQLite3 can only bind numbers, strings, bigints, buffers, and null"
  else if status =? SQLITE_TOOBIG then RangeError "The bound string, buffer, or bigint is too big"
  else if status =? SQLITE_RANGE then RangeError "Too many parameter values were provided"
  else if status =? SQLITE_NOMEM then PlainError "Out of memory"
  else PlainError "An unexpected error occured while trying to bind parameters".

Definition BindValue (e : BindEnv) (b : Binder) (value : js_value) (index : Z) : option Binder :=
  '(p, status) ← BindValueFromJS e (bd_handle b) index value;
  let b := set_handle b p in
  if negb (status =? SQLITE_OK) then Fail b (bind_error status) else Some b.

(** The loop of [BindArray]: an element that throws when it is read is [None]. *)
Fixpoint array_loop (e : BindEnv) (b : Binder) (i : Z) (arr : list (option js_value)) : option (Binder * Z) :=
  match arr with
  | [] => Some (b, i)
  | None :: _ => b ← Fail b UserError; Some (b, i)
  | Some value :: arr =>
      '(b, index) ← NextAnonIndex b;
      b ← BindValue e b value index;
      if negb (success b) then Some (b, i) else array_loop e b (i + 1) arr
  end.

Definition INT_MAX : Z := 2 ^ 31 - 1.

Definition BindArray (e : BindEnv) (b : Binder) (arr : list (option js_value)) : option (Binder * Z) :=
  if INT_MAX <? Zlen arr
  then b ← Fail b (RangeError "Too many parameter values were provided"); Some (b, 0)
  else array_loop e b 0 arr.

(** The loop of [BindObject] over the pairs of the map. *)
Fixpoint object_loop (e : BindEnv) (b : Binder) (i : Z) (obj : list (list Z * option js_value))
    (pairs : list (list Z * Z)) : option (Binder * Z) :=
  match pairs with
  | [] => Some (b, i)
  | (key, index) :: pairs =>
      match own_property obj key with
      | None => b ← Fail b (MissingNamed key); Some (b, i)
      | Some None => b ← Fail b UserError; Some (b, i)
      | Some (Some value) =>
          b ← BindValue e b value index;
          if negb (success b) then Some (b, i) else object_loop e b (i + 1) obj pairs
      end
  end.

Definition BindObject (e : BindEnv) (b : Binder) (obj : list (list Z * option js_value)) : option (Binder * Z) :=
  '(b, m) ← binder_map b;
  object_loop e b 0 obj (bm_pairs m).

(** The loop of [BindArgs]; the result is [Result]: the count and
    [bound_object]. *)
Fixpoint BindArgs (e : BindEnv) (b : Binder) (count : Z) (bound_object : bool) (args : list js_value)
    : option (Binder * (Z * bool)) :=
  match args with
  | [] => Some (b, (count, bound_object))
  | arg :: args =>
      let direct b :=
        '(b, index) ← NextAnonIndex b;
        b ← BindValue e b arg index;
        if negb (success b) then Some (b, (count, bound_object))
        else BindArgs e b (count + 1) bound_object args in
      match arg with
      | JArray arr =>
          '(b, n) ← BindArray e b arr;
          if negb (success b) then Some (b, (count + n, bound_object))
          else BindArgs e b (count + n) bound_object args
      | JObject true obj =>
          if bound_object
          then b ← Fail b (TypeError "You cannot specify named parameters in two different objects");
               Some (b, (count, bound_object))
          else
            '(b, n) ← BindObject e b obj;
            if negb (success b) then Some (b, (count + n, true))
            else BindArgs e b (count + n) true args
      | JObject false _ | JHeir _ _ _ =>
          '(b, m) ← binder_map b;
          if truth (bm_length m)
          then b ← Fail b (TypeError "Named parameters can only be passed within plain objects");
               Some (b, (count, bound_object))
          else direct b
      | _ => direct b
      end
  end.

(** [Binder::Bind]: the binder after the call; it succeeds if no error is set. *)
Definition Bind_ (e : BindEnv) (b : Binder) (args : list js_value) : option Binder :=
  if negb (bd_anon_index b =? 0) then None
  else
    '(b, (count, bound_object)) ← BindArgs e b 0 false args;
    if success b && negb (count =? bd_param_count b)
    then if count <? bd_param_count b
         then
           '(b, m) ← (if bound_object then Some (b, BindMap_new) else binder_map b);
           if negb bound_object && truth (bm_length m)
           then Fail b (TypeError "Missing named parameters")
           else Fail b (RangeError "Too few parameter values were provided")
         else Fail b (RangeError "Too many parameter values were provided")
    else Some b.
