(* ===== verification/BinderCorrect.v ===== *)
(** * Correctness of the binder

    [Bind] never faults, and it succeeds exactly when the arguments supply
    every parameter of the statement once: the anonymous parameters, in order,
    from the plain arguments and the elements of the arrays, and the named
    ones from the one plain object. *)
From stdpp Require Import strings.
From S2P Require Import Prelude Double Value Codes Strings Bind Js Binder.

Local Open Scope Z_scope.

(** ** Well-formed statements and the reference assignment *)

Definition pname (p : Vdbe) (i : Z) : option (list Z) := sqlite3_bind_parameter_name (Some p) i.

(** A statement whose names belong to its parameters and have a prefix. *)
Record stmt_ok (p : Vdbe) : Prop := {
  so_vdbe : vdbe_ok p;
  so_count : vd_nVar p <= 32766;
  so_names : forall i n, pname p i = Some n -> 1 <= i <= vd_nVar p /\ n <> []
}.

(** Same parameters, maybe other values. *)
Definition same_params (p p' : Vdbe) : Prop := vd_nVar p' = vd_nVar p /\ vd_pVList p' = vd_pVList p.

Lemma pname_same p p' i : same_params p p' -> pname p' i = pname p i.
Proof. intros [_ E]. unfold pname, sqlite3_bind_parameter_name. cbn. rewrite E. reflexivity. Qed.

(** The anonymous parameters after [a]. *)
Definition anon_from (p : Vdbe) (a : Z) : list Z :=
  filter (fun i => pname p i = None) (seqZ (a + 1) (vd_nVar p - a)).

(** The named parameters from [a] on, with their keys. *)
Definition named_from (p : Vdbe) (a : Z) : list (list Z * Z) :=
  omap (fun i => n ← pname p i; Some (drop 1 n, i)) (seqZ a (vd_nVar p + 1 - a)).

Definition anon_params (p : Vdbe) : list Z := anon_from p 0.
Definition named_params (p : Vdbe) : list (list Z * Z) := named_from p 1.

Lemma seqZ_next a n : a <= n -> seqZ a (n + 1 - a) = a :: seqZ (a + 1) (n - a).
Proof. intros H. rewrite seqZ_cons by lia. f_equal; f_equal; lia. Qed.

Lemma omap_step {A B} (f : A -> option B) x l :
  omap f (x :: l) = match f x with Some y => y :: omap f l | None => omap f l end.
Proof. reflexivity. Qed.

Lemma params_split p a : a <= vd_nVar p + 1 ->
  Zlen (anon_from p (a - 1)) + Zlen (named_from p a) = vd_nVar p + 1 - a.
Proof.
  intros Ha. unfold anon_from, named_from. replace (a - 1 + 1) with a by lia.
  replace (vd_nVar p - (a - 1)) with (vd_nVar p + 1 - a) by lia.
  assert (Hn : 0 <= vd_nVar p + 1 - a) by lia. remember (vd_nVar p + 1 - a) as n eqn:En. clear En Ha.
  assert (L : forall l, Zlen (filter (fun i => pname p i = None) l) +
      Zlen (omap (fun i => n ← pname p i; Some (drop 1 n, i)) l) = Zlen l).
  { induction l as [|i l IH]; [reflexivity|]. rewrite filter_cons, omap_step.
    destruct (pname p i) as [z|] eqn:E; cbn [mbind option_bind].
    - rewrite decide_False by discriminate. rewrite !Zlen_cons. lia.
    - rewrite decide_True by reflexivity. rewrite !Zlen_cons. lia. }
  rewrite L. unfold Zlen. rewrite length_seqZ. lia.
Qed.

(** ** The bind map *)

Record map_ok (m : BindMap) : Prop := {
  mo_length : bm_length m = Zlen (bm_pairs m);
  mo_capacity : bm_length m <= bm_capacity m <= 2 * bm_length m + 2
}.

Lemma lor2 c : 0 <= c -> 2 * c <= Z.lor (Z.shiftl c 1) 2 <= 2 * c + 2 /\ (c = 0 -> Z.lor (Z.shiftl c 1) 2 = 2).
Proof.
  intros Hc. rewrite Z.shiftl_mul_pow2 by lia. change (2 ^ 1) with 2.
  assert (E : Z.lor (c * 2) 2 = 2 * Z.lor c 1).
  { replace (c * 2) with (Z.shiftl c 1) by (rewrite Z.shiftl_mul_pow2 by lia; lia).
    change 2 with (Z.shiftl 1 1) at 1. rewrite <- Z.shiftl_lor, Z.shiftl_mul_pow2 by lia. lia. }
  rewrite E. assert (L : c <= Z.lor c 1 <= c + 1).
  { destruct (Z.Even_or_Odd c) as [[k ->]|[k ->]].
    - replace (Z.lor (2 * k) 1) with (2 * k + 1); [lia|]. symmetry.
      destruct k as [|q|q]; try reflexivity. lia.
    - replace (Z.lor (2 * k + 1) 1) with (2 * k + 1); [lia|]. symmetry. destruct k as [|q|q]; try reflexivity. lia. }
  split; [lia|]. intros ->. reflexivity.
Qed.

Lemma map_add m name i : map_ok m -> bm_length m <= 32766 ->
  exists m', BindMap_Add m name i = Some m' /\ map_ok m' /\ bm_pairs m' = bm_pairs m ++ [(name, i)].
Proof.
  intros [H1 H2] Hl. pose proof (Zlen_nonneg (bm_pairs m)). unfold BindMap_Add.
  destruct (Z.eqb_spec (bm_capacity m) (bm_length m)) as [E|N].
  - unfold BindMap_Grow. rewrite (proj2 (Z.eqb_eq _ _) E). cbn [negb].
    destruct (lor2 (bm_capacity m)) as [L1 L2]; [lia|].
    rewrite int_ok_id by (unfold is_i32; lia). cbn [mbind option_bind bm_capacity bm_length bm_pairs].
    rewrite (proj2 (Z.leb_gt _ _)) by lia. eexists. split; [reflexivity|]. split; [|reflexivity].
    split; cbn; [unfold Zlen in *; rewrite length_app; cbn; lia|lia].
  - cbn [mbind option_bind]. rewrite (proj2 (Z.leb_gt _ _)) by lia. eexists. split; [reflexivity|].
    split; [|reflexivity]. split; cbn; [unfold Zlen in *; rewrite length_app; cbn; lia|lia].
Qed.

Lemma bind_map_loop_spec fuel p i m :
  (forall j n, pname p j = Some n -> n <> []) -> map_ok m -> bm_length m + Z.of_nat fuel <= 32767 ->
  vd_nVar p + 1 - i = Z.of_nat fuel ->
  exists m', bind_map_loop fuel p i m = Some m' /\ map_ok m' /\ bm_pairs m' = bm_pairs m ++ named_from p i.
Proof.
  intros Hn. revert i m. induction fuel as [|fuel IH]; intros i m Hm Hl Hf.
  - exists m. split; [reflexivity|]. split; [exact Hm|]. unfold named_from. rewrite Hf. cbn. rewrite app_nil_r. reflexivity.
  - cbn [bind_map_loop].
    assert (En : named_from p i = match pname p i with Some n => (drop 1 n, i) :: named_from p (i + 1) | None => named_from p (i + 1) end).
    { unfold named_from. rewrite seqZ_next by lia. rewrite omap_step.
      replace (vd_nVar p + 1 - (i + 1)) with (vd_nVar p - i) by lia. destruct (pname p i); reflexivity. }
    rewrite En. fold (pname p i). destruct (pname p i) as [n|] eqn:E; cbn [mbind option_bind].
    + pose proof (Hn _ _ E) as Hne. destruct n as [|c n]; [congruence|]. change (c :: n) with ([c] ++ n). rewrite (advance_app' 1 [c] n) by reflexivity. cbn [mbind option_bind].
      destruct (map_add m n i Hm) as (m1 & E1 & Hm1 & P1); [lia|]. rewrite E1. cbn [mbind option_bind].
      destruct (IH (i + 1) m1 Hm1) as (m2 & E2 & Hm2 & P2); [|lia|].
      * destruct Hm, Hm1. rewrite mo_length1, P1, Zlen_app, Zlen_cons, Zlen_nil. lia.
      * exists m2. split; [exact E2|]. split; [exact Hm2|]. rewrite P2, P1, <- app_assoc. reflexivity.
    + apply IH; [exact Hm|lia|lia].
Qed.

(** The bind map of a statement holds its named parameters. *)
Definition map_of (p : Vdbe) (m : BindMap) : Prop := map_ok m /\ bm_pairs m = named_params p.

Lemma get_bind_map p st_map : stmt_ok p -> (forall m, st_map = Some m -> map_of p m) ->
  exists m, GetBindMap st_map p = Some m /\ map_of p m.
Proof.
  intros [Hv Hc Hn] Hm. destruct st_map as [m|]; [exists m; auto|]. unfold GetBindMap, sqlite3_bind_parameter_count.
  pose proof (Zlen_nonneg (vd_aVar p)). destruct Hv as [_ _ Hz _].
  destruct (bind_map_loop_spec (Z.to_nat (vd_nVar p)) p 1 BindMap_new) as (m & E & H1 & H2); cbn [bm_length BindMap_new]; try lia.
  - intros j n Ej. exact (proj2 (Hn _ _ Ej)).
  - split; cbn; [reflexivity|lia].
  - exists m. split; [exact E|]. split; [exact H1|exact H2].
Qed.

(** ** Anonymous parameters *)

Lemma anon_from_step p a : a < vd_nVar p ->
  anon_from p a = match pname p (a + 1) with Some _ => anon_from p (a + 1) | None => (a + 1) :: anon_from p (a + 1) end.
Proof.
  intros H. unfold anon_from. replace (vd_nVar p - a) with (vd_nVar p + 1 - (a + 1)) by lia.
  rewrite seqZ_next by lia. rewrite filter_cons. replace (vd_nVar p - (a + 1)) with (vd_nVar p - (a + 1)) by lia.
  destruct (pname p (a + 1)) eqn:E; [rewrite decide_False by discriminate|rewrite decide_True by reflexivity]; reflexivity.
Qed.

Lemma anon_from_end p a : vd_nVar p <= a -> anon_from p a = [].
Proof. intros H. unfold anon_from. rewrite seqZ_nil by lia. reflexivity. Qed.

(** The index [NextAnonIndex] finds: the next anonymous parameter, or one past
    the last parameter. *)
Lemma next_anon_spec fuel p a : (forall i n, pname p i = Some n -> i <= vd_nVar p) -> 0 <= a -> vd_nVar p <= 32766 -> a <= vd_nVar p ->
  (Z.to_nat (vd_nVar p - a) < fuel)%nat ->
  exists j, next_anon fuel p a = Some j /\ a < j <= vd_nVar p + 1 /\ pname p j = None /\
    anon_from p a = (if j <=? vd_nVar p then j :: anon_from p j else []).
Proof.
  intros Hn Ha Hm. revert a Ha. induction fuel as [|fuel IH]; intros a Ha Hle Hf; [lia|].
  cbn [next_anon]. rewrite int_ok_id by (unfold is_i32; lia). cbn [mbind option_bind]. fold (pname p (a + 1)).
  destruct (pname p (a + 1)) as [n|] eqn:E.
  - pose proof (Hn _ _ E). destruct (IH (a + 1)) as (j & Ej & Hj & Nj & Fj); [lia|lia|lia|].
    exists j. split; [exact Ej|]. split; [lia|]. split; [exact Nj|]. rewrite anon_from_step by lia. rewrite E. exact Fj.
  - exists (a + 1). split; [reflexivity|]. split; [lia|]. split; [exact E|].
    destruct (Z.leb_spec (a + 1) (vd_nVar p)).
    + rewrite anon_from_step by lia. rewrite E. reflexivity.
    + apply anon_from_end. lia.
Qed.

Lemma anon_in p a i : i ∈ anon_from p a -> a < i <= vd_nVar p /\ pname p i = None.
Proof. unfold anon_from. rewrite list_elem_of_filter, elem_of_seqZ. intros [H1 H2]. split; [lia|exact H1]. Qed.

Lemma anon_nodup p a : NoDup (anon_from p a).
Proof. apply NoDup_filter, NoDup_seqZ. Qed.

Lemma named_in p a key i : (key, i) ∈ named_from p a -> exists n, pname p i = Some n /\ key = drop 1 n /\ a <= i <= vd_nVar p.
Proof.
  unfold named_from. rewrite list_elem_of_omap. intros (x & Hx & E). destruct (pname p x) as [n|] eqn:Ex; [|discriminate].
  cbn in E. injection E as <- <-. rewrite elem_of_seqZ in Hx. exists n. split; [exact Ex|]. split; [reflexivity|lia].
Qed.

Lemma named_nodup p a : NoDup (named_from p a).*2.
Proof.
  unfold named_from. pose proof (NoDup_seqZ a (vd_nVar p + 1 - a)) as N. revert N.
  generalize (seqZ a (vd_nVar p + 1 - a)) as l. induction l as [|x l IH]; intros N; [constructor|].
  rewrite NoDup_cons in N. destruct N as [Nx N]. rewrite omap_step. destruct (pname p x) as [n|]; cbn [mbind option_bind]; [|auto].
  rewrite fmap_cons, NoDup_cons. split; [|auto]. intros Hx. apply Nx. rewrite list_elem_of_fmap in Hx.
  destruct Hx as ([k i] & Ei & Hi). cbn in Ei. subst i. rewrite list_elem_of_omap in Hi.
  destruct Hi as (y & Hy & Ey). destruct (pname p y); [|discriminate]. cbn in Ey. congruence.
Qed.

(** ** One value *)

(** A string or buffer whose length is an [int]. *)
Definition small (v : js_value) : Prop :=
  match v with JString z | JBuffer z => Zlen z < 2 ^ 31 | _ => True end.

Definition env_ok (e : BindEnv) : Prop := (forall i, be_malloc e i = true) /\ be_limit e < 2 ^ 31.

Lemma set_str_long limit z blob : Zlen z < 2 ^ 31 -> limit < Zlen z ->
  sqlite3VdbeMemSetStr true limit (Some z) (i32 (Zlen z)) blob = Some (SQLITE_TOOBIG, VNull).
Proof.
  intros Hz Hl. pose proof (Zlen_nonneg z). unfold sqlite3VdbeMemSetStr. rewrite i32_id by (unfold is_i32; lia).
  rewrite (proj2 (Z.ltb_ge (Zlen z) 0)) by lia. cbn [mbind option_bind].
  rewrite (proj2 (Z.ltb_lt limit (Zlen z))) by lia. reflexivity.
Qed.

Lemma binds_same p p' i v : binds p p' i v -> same_params p p'.
Proof. intros (_ & _ & _ & E1 & E2). split; assumption. Qed.

Lemma bind_text_long limit p i z blob : vdbe_ok p -> 1 <= i <= vd_nVar p -> Zlen z < 2 ^ 31 -> limit < Zlen z ->
  exists p', bindText true limit p i (Some z) (i32 (Zlen z)) blob = Some (p', SQLITE_TOOBIG) /\ binds p p' i VNull.
Proof.
  intros Hp Hi Hz Hl. destruct (unbind_in p i Hp Hi) as (p1 & E1 & B1). unfold bindText. rewrite E1.
  cbn [mbind option_bind Z.eqb SQLITE_OK negb]. rewrite set_str_long by assumption. cbn [mbind option_bind].
  destruct (unbind_then p p1 i VNull Hp Hi B1) as (p2 & E2 & B2). rewrite E2. cbn [mbind option_bind]. eauto.
Qed.

(** A value that cannot be bound gives an error and at most clears the
    parameter. *)
Lemma bind_value_bad e p i v : env_ok e -> vdbe_ok p -> is_i32 i -> small v ->
  ~ (1 <= i <= vd_nVar p /\ bindable (be_limit e) v) ->
  exists p' rc, BindValueFromJS e p i v = Some (p', rc) /\ rc <> SQLITE_OK /\ (p' = p \/ binds p p' i VNull).
Proof.
  intros [Hm Hl] Hp Hi Hs Hbad.
  destruct (decide (1 <= i <= vd_nVar p)) as [Hin|Hout].
  - assert (Hv : ~ bindable (be_limit e) v) by tauto.
    destruct v as [| | |r|n|z|z| | |]; cbn [bindable small BindValueFromJS] in *; try tauto;
      try (exists p, (-1); split; [reflexivity|split; [discriminate|auto]]).
    + unfold Int64Value. exists p, SQLITE_TOOBIG. split; [|split; [discriminate|auto]].
      destruct ((_ <=? _) && _) eqn:E; [|reflexivity]. apply andb_true_iff in E. lia.
    + unfold sqlite3_bind_text. rewrite Hm. destruct (bind_text_long (be_limit e) p i z false) as (p' & E & B); [auto|auto|auto|lia|].
      exists p', SQLITE_TOOBIG. split; [exact E|]. split; [discriminate|auto].
    + unfold sqlite3_bind_blob. rewrite Hm. destruct (bind_text_long (be_limit e) p i z true) as (p' & E & B); [auto|auto|auto|lia|].
      exists p', SQLITE_TOOBIG. split; [exact E|]. split; [discriminate|auto].
  - assert (U : vdbeUnbind p (u32 (i - 1)) = Some (p, SQLITE_RANGE)) by (apply unbind_out; [auto|lia|auto]).
    destruct v as [| | |r|n|z|z| | |]; cbn [BindValueFromJS]; unfold sqlite3_bind_null, sqlite3_bind_double, sqlite3_bind_int64,
      sqlite3_bind_text, sqlite3_bind_blob, bindText, Int64Value; rewrite ?U; cbn [mbind option_bind Z.eqb SQLITE_OK SQLITE_RANGE negb];
      try (eexists p, _; split; [reflexivity|split; [discriminate|auto]]).
    destruct ((_ <=? _) && _); rewrite ?U; cbn [mbind option_bind]; eexists p, _; (split; [reflexivity|split; [discriminate|auto]]).
Qed.

Lemma same_ok p p' : stmt_ok p -> vdbe_ok p' -> same_params p p' -> stmt_ok p'.
Proof.
  intros [H1 H2 H3] Hv Hs. split; [exact Hv|destruct Hs; lia|]. intros i n. rewrite (pname_same p p' i Hs). intros E.
  destruct (H3 i n E) as [A B]. destruct Hs as [Hs _]. rewrite Hs. auto.
Qed.

Lemma params_refl p : same_params p p.
Proof. split; reflexivity. Qed.
Lemma params_trans p q r : same_params p q -> same_params q r -> same_params p r.
Proof. intros [A B] [C D]. split; congruence. Qed.
#[local] Hint Resolve params_refl params_trans binds_same same_ok : noria.

(** ** The state of a binder that has not failed *)

Definition slot (p : Vdbe) (i : Z) : option sqlite3_value := vd_aVar p !! Z.to_nat (i - 1).

(** [vals] are the anonymous values bound so far, [named] the named ones. *)
Record Inv (p0 : Vdbe) (b : Binder) (vals : list js_value) (named : list (Z * js_value)) : Prop := {
  in_err : bd_error b = None;
  in_count : bd_param_count b = vd_nVar p0;
  in_same : same_params p0 (bd_handle b);
  in_vdbe : vdbe_ok (bd_handle b);
  in_map : forall m, bd_map b = Some m -> map_of p0 m;
  in_index : 0 <= bd_anon_index b <= vd_nVar p0;
  in_anon : anon_from p0 (bd_anon_index b) = drop (length vals) (anon_params p0);
  in_fit : (length vals <= length (anon_params p0))%nat;
  in_vals : forall j i v, anon_params p0 !! j = Some i -> vals !! j = Some v -> slot (bd_handle b) i = Some (bound_value v);
  in_named : forall i v, (i, v) ∈ named -> (exists n, pname p0 i = Some n) /\ slot (bd_handle b) i = Some (bound_value v)
}.

(** A binder that has failed leaves the statement well formed. *)
Record failed (p0 : Vdbe) (b : Binder) : Prop := {
  fa_error : success b = false;
  fa_ok : stmt_ok (bd_handle b);
  fa_same : same_params p0 (bd_handle b);
  fa_map : forall m, bd_map b = Some m -> map_of p0 m
}.

Lemma slot_bound p p' i v : vdbe_ok p -> 1 <= i <= vd_nVar p -> binds p p' i v -> slot p' i = Some v.
Proof.
  intros [_ _ Hn _] Hi (E & _). unfold slot. rewrite E. apply list_lookup_insert_eq. unfold Zlen in Hn. lia.
Qed.

Lemma slot_other p p' i j v : 1 <= i -> 1 <= j -> i <> j -> binds p p' i v -> slot p' j = slot p j.
Proof. intros Hi Hj N (E & _). unfold slot. rewrite E. apply list_lookup_insert_ne. lia. Qed.

Lemma handle_ok p0 b vals named : stmt_ok p0 -> Inv p0 b vals named -> stmt_ok (bd_handle b).
Proof. intros H []. eapply same_ok; eauto. Qed.

#[export] Instance bindable_dec limit v : Decision (bindable limit v).
Proof. destruct v; cbn; apply _. Defined.

(** Storing a value. *)
Lemma bind_step e p0 b v i : env_ok e -> stmt_ok p0 -> bd_error b = None -> same_params p0 (bd_handle b) ->
  vdbe_ok (bd_handle b) -> (forall m, bd_map b = Some m -> map_of p0 m) -> is_i32 i -> small v ->
  exists b', BindValue e b v i = Some b' /\
    ((1 <= i <= vd_nVar p0 /\ bindable (be_limit e) v /\
        exists p', b' = set_handle b p' /\ binds (bd_handle b) p' i (bound_value v))
     \/ (failed p0 b' /\ ~ (1 <= i <= vd_nVar p0 /\ bindable (be_limit e) v))).
Proof.
  intros He Hp X1 X3 X4 X5 Hi Hs. pose proof (same_ok _ _ Hp X4 X3) as Hh. pose proof X3 as [Xn _].
  unfold BindValue. destruct (decide (1 <= i <= vd_nVar p0 /\ bindable (be_limit e) v)) as [[G1 G2]|B].
  - destruct (bind_value_spec e (bd_handle b) i v) as (p' & E & Bd); [exact X4|lia|apply He|apply He|exact G2|].
    rewrite E. cbn [mbind option_bind]. cbn. exists (set_handle b p'). split; [reflexivity|]. left. eauto.
  - destruct (bind_value_bad e (bd_handle b) i v) as (p' & rc & E & Nz & K); [exact He|exact X4|exact Hi|exact Hs|rewrite Xn; exact B|].
    rewrite E. cbn [mbind option_bind]. rewrite (proj2 (Z.eqb_neq _ _) Nz). cbn [negb].
    unfold Fail, success. cbn. rewrite X1. eexists. split; [reflexivity|]. right. split; [|exact B].
    split; cbn; [reflexivity| | |exact X5]; destruct K as [->|K]; eauto with noria.
Qed.

Lemma drop_cons_lookup {A} (l : list A) k x r : drop k l = x :: r -> l !! k = Some x /\ drop (S k) l = r /\ (k < length l)%nat.
Proof.
  intros E. assert (L : l !! k = Some x) by (rewrite <- (Nat.add_0_r k), <- lookup_drop, E; reflexivity).
  split; [exact L|]. split; [|eapply lookup_lt_Some; eauto]. rewrite (drop_S l x k L) in E. congruence.
Qed.

(** The invariant after a new anonymous or named value. *)
Lemma inv_anon p0 b p' j vals named v : stmt_ok p0 -> Inv p0 b vals named ->
  drop (length vals) (anon_params p0) = j :: anon_from p0 j -> binds (bd_handle b) p' j (bound_value v) ->
  Inv p0 (set_handle (set_anon b j) p') (vals ++ [v]) named.
Proof.
  intros Hp [X1 X2 X3 X4 X5 X6 X7 X8 X9 X10] Fj Bd. destruct (drop_cons_lookup _ _ _ _ Fj) as (L1 & L2 & L3).
  destruct (anon_in p0 0 j (list_elem_of_lookup_2 _ _ _ L1)) as [Hj Nj]. pose proof X3 as [Xn _].
  split; cbn; try assumption; try lia.
  - eauto with noria.
  - eapply binds_ok; eauto.
  - rewrite length_app. cbn. rewrite Nat.add_1_r, L2. reflexivity.
  - rewrite length_app. cbn. lia.
  - intros k i w Hk Hw. destruct (decide (k = length vals)) as [->|Nk].
    + rewrite L1 in Hk. injection Hk as <-. rewrite lookup_app_r, Nat.sub_diag in Hw by lia. injection Hw as <-.
      apply (slot_bound (bd_handle b)); [exact X4|lia|exact Bd].
    + assert (Hl : (k < length vals)%nat).
      { apply lookup_lt_Some in Hw. rewrite length_app in Hw. cbn in Hw. lia. }
      rewrite lookup_app_l in Hw by exact Hl.
      destruct (anon_in p0 0 i (list_elem_of_lookup_2 _ _ _ Hk)) as [Hi _].
      rewrite (slot_other (bd_handle b) p' j i (bound_value v)); [eauto|lia|lia| |exact Bd].
      intros ->. apply Nk. exact (NoDup_lookup _ _ _ _ (anon_nodup p0 0) Hk L1).
  - intros i w Hw. destruct (X10 i w Hw) as [(n & En) Hs]. split; [eauto|]. destruct (so_names _ Hp _ _ En) as [Hi _].
    rewrite (slot_other (bd_handle b) p' j i (bound_value v)); [exact Hs|lia|lia|congruence|exact Bd].
Qed.

Lemma inv_named p0 b p' i n vals named v : stmt_ok p0 -> Inv p0 b vals named ->
  pname p0 i = Some n -> i ∉ named.*1 -> binds (bd_handle b) p' i (bound_value v) ->
  Inv p0 (set_handle b p') vals (named ++ [(i, v)]).
Proof.
  intros Hp [X1 X2 X3 X4 X5 X6 X7 X8 X9 X10] En Ni Bd. destruct (so_names _ Hp _ _ En) as [Hi _]. pose proof X3 as [Xn _].
  split; cbn; try assumption; try lia.
  - eauto with noria.
  - eapply binds_ok; eauto.
  - intros k a w Hk Hw. destruct (anon_in p0 0 a (list_elem_of_lookup_2 _ _ _ Hk)) as [Ha Na].
    rewrite (slot_other (bd_handle b) p' i a (bound_value v)); [eauto|lia|lia|congruence|exact Bd].
  - intros a w Hw. rewrite elem_of_app, list_elem_of_singleton in Hw. destruct Hw as [Hw|[= -> ->]].
    + destruct (X10 a w Hw) as [(m & Em) Hs]. split; [eauto|]. destruct (so_names _ Hp _ _ Em) as [Ha _].
      rewrite (slot_other (bd_handle b) p' i a (bound_value v)); [exact Hs|lia|lia| |exact Bd].
      intros ->. apply Ni. apply list_elem_of_fmap. exists (a, w). auto.
    + split; [eauto|]. apply (slot_bound (bd_handle b)); [exact X4|lia|exact Bd].
Qed.

Lemma anon_step e p0 b vals named v : env_ok e -> stmt_ok p0 -> Inv p0 b vals named -> small v ->
  exists b1 i b', NextAnonIndex b = Some (b1, i) /\ BindValue e b1 v i = Some b' /\
    ((bindable (be_limit e) v /\ (length vals < length (anon_params p0))%nat /\ Inv p0 b' (vals ++ [v]) named)
     \/ (failed p0 b' /\ ~ (bindable (be_limit e) v /\ (length vals < length (anon_params p0))%nat))).
Proof.
  intros He Hp HI Hs. pose proof HI as [X1 X2 X3 X4 X5 X6 X7 X8 X9 X10].
  assert (Hb : forall i, pname (bd_handle b) i = pname p0 i) by (intros; apply pname_same; exact X3).
  assert (Ha : forall a, anon_from (bd_handle b) a = anon_from p0 a).
  { intros a. unfold anon_from. rewrite (proj1 X3). apply list_filter_iff. intros i. rewrite Hb. reflexivity. }
  destruct (next_anon_spec (S (Z.to_nat (bd_param_count b - bd_anon_index b))) (bd_handle b) (bd_anon_index b)) as (j & Ej & Hj & Nj & Fj);
    [intros i n; rewrite Hb, (proj1 X3); intros E; apply (so_names _ Hp _ _ E)|lia|rewrite (proj1 X3); apply Hp|rewrite (proj1 X3); lia|rewrite (proj1 X3); lia|].
  rewrite (proj1 X3) in Hj, Fj. rewrite !Ha in Fj. rewrite Hb in Nj. pose proof (so_count _ Hp).
  unfold NextAnonIndex. rewrite Ej. cbn [mbind option_bind].
  destruct (bind_step e p0 (set_anon b j) v j He Hp X1 X3 X4 X5) as (b' & E & K); [unfold is_i32; lia|exact Hs|].
  exists (set_anon b j), j, b'. split; [reflexivity|]. split; [exact E|]. rewrite X7 in Fj.
  destruct K as [(G1 & G2 & p' & -> & Bd)|[F B]].
  - left. rewrite (proj2 (Z.leb_le _ _)) in Fj by lia. split; [exact G2|]. split; [apply (drop_cons_lookup _ _ _ _ Fj)|].
    eapply inv_anon; eauto.
  - right. split; [exact F|]. intros [G1 G2]. apply B. split; [|exact G1]. split; [lia|].
    destruct (Z.leb_spec j (vd_nVar p0)) as [|Gt]; [assumption|]. exfalso.
    apply (f_equal length) in Fj. rewrite length_drop in Fj. cbn in Fj. lia.
Qed.

Lemma inv_success p0 b vals named : Inv p0 b vals named -> success b = true.
Proof. intros []. unfold success. rewrite in_err0. reflexivity. Qed.

Lemma fail_spec p0 b vals named err : stmt_ok p0 -> Inv p0 b vals named ->
  exists b', Fail b err = Some b' /\ failed p0 b'.
Proof.
  intros Hp HI. unfold Fail. rewrite (inv_success _ _ _ _ HI). eexists. split; [reflexivity|].
  split; [reflexivity|exact (handle_ok _ _ _ _ Hp HI)|apply HI|apply HI].
Qed.

(** ** Arrays and objects *)

(** The elements of an array that all can be read. *)
Definition elements (arr : list (option js_value)) : option (list js_value) := mapM id arr.

(** What an anonymous part of the arguments needs. *)
Definition fits (limit : Z) (p : Vdbe) (n : nat) (vs : list js_value) : Prop :=
  Forall (bindable limit) vs /\ (n + length vs <= length (anon_params p))%nat.

Lemma elements_cons x arr vs : elements (x :: arr) = Some vs <-> exists v ws, x = Some v /\ elements arr = Some ws /\ vs = v :: ws.
Proof.
  unfold elements. cbn. destruct x as [v|]; cbn.
  - destruct (mapM id arr) as [ws|]; cbn; split.
    + intros [= <-]. eauto.
    + intros (? & ? & [= <-] & [= <-] & ->). reflexivity.
    + discriminate.
    + intros (? & ? & _ & ? & _). discriminate.
  - split; [discriminate|]. intros (? & ? & ? & _). discriminate.
Qed.

Lemma array_spec e p0 named arr : env_ok e -> stmt_ok p0 ->
  Forall (fun x => forall v, x = Some v -> small v) arr -> forall i b vals, Inv p0 b vals named ->
  exists b' n, array_loop e b i arr = Some (b', n) /\
    ((exists vs, elements arr = Some vs /\ fits (be_limit e) p0 (length vals) vs /\ n = i + Zlen vs /\ Inv p0 b' (vals ++ vs) named)
     \/ (failed p0 b' /\ ~ exists vs, elements arr = Some vs /\ fits (be_limit e) p0 (length vals) vs)).
Proof.
  intros He Hp Hs. induction Hs as [|x arr Hx Hs IH]; intros i b vals HI; cbn [array_loop].
  - exists b, i. split; [reflexivity|]. left. exists []. split; [reflexivity|]. split; [split; [constructor|cbn; pose proof (in_fit _ _ _ _ HI); lia]|].
    split; [rewrite Zlen_nil; lia|rewrite app_nil_r; exact HI].
  - destruct x as [v|].
    + destruct (anon_step e p0 b vals named v He Hp HI (Hx v eq_refl)) as (b1 & idx & b' & E1 & E2 & K).
      rewrite E1. cbn [mbind option_bind]. rewrite E2. cbn [mbind option_bind].
      destruct K as [(G1 & G2 & HI')|[F B]].
      * rewrite (inv_success _ _ _ _ HI'). cbn [negb]. destruct (IH (i + 1) b' _ HI') as (b2 & n & E & K). exists b2, n. split; [exact E|].
        destruct K as [(vs & V1 & [V2 V3] & V4 & V5)|[F B]].
        -- left. exists (v :: vs). rewrite elements_cons. split; [eauto 6|]. rewrite length_app in V3. cbn in V3.
           split; [split; [constructor; assumption|cbn; lia]|]. split; [rewrite Zlen_cons; lia|].
           rewrite <- app_assoc in V5. exact V5.
        -- right. split; [exact F|]. intros (vs & V1 & [V2 V3]). apply B. rewrite elements_cons in V1.
           destruct V1 as (w & ws & [= <-] & V1 & ->). exists ws. split; [exact V1|]. rewrite Forall_cons in V2. cbn in V3.
           split; [apply V2|rewrite length_app; cbn; lia].
      * rewrite (fa_error _ _ F). cbn [negb]. exists b', i. split; [reflexivity|]. right. split; [exact F|].
        intros (vs & V1 & [V2 V3]). rewrite elements_cons in V1. destruct V1 as (w & ws & [= <-] & V1 & ->).
        rewrite Forall_cons in V2. cbn in V3. apply B. split; [apply V2|lia].
    + destruct (fail_spec p0 b vals named UserError Hp HI) as (b' & E & F). rewrite E. cbn [mbind option_bind].
      exists b', i. split; [reflexivity|]. right. split; [exact F|]. intros (vs & V1 & _). rewrite elements_cons in V1. destruct V1 as (? & ? & ? & _). discriminate.
Qed.

(** The object gives a bindable value to every one of [pairs]. *)
Definition serves (limit : Z) (obj : list (list Z * option js_value)) (pairs : list (list Z * Z)) : Prop :=
  Forall (fun kv => exists v, own_property obj kv.1 = Some (Some v) /\ bindable limit v) pairs.

(** The values it gives. *)
Definition served (obj : list (list Z * option js_value)) (pairs : list (list Z * Z)) : list (Z * js_value) :=
  omap (fun kv => match own_property obj kv.1 with Some (Some v) => Some (kv.2, v) | _ => None end) pairs.

Lemma served_cons obj key i v pairs : own_property obj key = Some (Some v) -> served obj ((key, i) :: pairs) = (i, v) :: served obj pairs.
Proof. intros E. unfold served. rewrite omap_step. cbn. rewrite E. reflexivity. Qed.

Lemma object_spec e p0 obj vals pairs : env_ok e -> stmt_ok p0 ->
  (forall key v, own_property obj key = Some (Some v) -> small v) ->
  forall i b named, Inv p0 b vals named -> NoDup pairs.*2 -> (forall k, k ∈ pairs.*2 -> k ∉ named.*1) ->
  (forall key k, (key, k) ∈ pairs -> exists n, pname p0 k = Some n) ->
  exists b' n, object_loop e b i obj pairs = Some (b', n) /\
    ((serves (be_limit e) obj pairs /\ n = i + Zlen pairs /\ Inv p0 b' vals (named ++ served obj pairs))
     \/ (failed p0 b' /\ ~ serves (be_limit e) obj pairs)).
Proof.
  intros He Hp Hs. induction pairs as [|[key k] pairs IH]; intros i b named HI Nd Nn Hk; cbn [object_loop].
  - exists b, i. split; [reflexivity|]. left. split; [constructor|]. split; [rewrite Zlen_nil; lia|]. rewrite app_nil_r. exact HI.
  - destruct (own_property obj key) as [[v|]|] eqn:Ek.
    2,3: edestruct (fail_spec p0 b vals named) as (b' & E & F); [exact Hp|exact HI|]; rewrite E; cbn [mbind option_bind];
      exists b', i; (split; [reflexivity|]); right; (split; [exact F|]); unfold serves; rewrite Forall_cons; cbn; rewrite Ek; intros [(? & ? & _) _]; discriminate.
    destruct (Hk key k) as (n & En); [left|]. destruct (so_names _ Hp _ _ En) as [Hr _]. pose proof (so_count _ Hp).
    destruct (bind_step e p0 b v k He Hp) as (b' & E & K); [apply HI|apply HI|apply HI|apply HI|unfold is_i32; lia|eauto|].
    rewrite E. cbn [mbind option_bind]. destruct K as [(G1 & G2 & p' & -> & Bd)|[F B]].
    + rewrite fmap_cons, NoDup_cons in Nd. destruct Nd as [N1 N2]. cbn in N1.
      assert (HI' : Inv p0 (set_handle b p') vals (named ++ [(k, v)])) by (eapply inv_named; eauto; apply Nn; left).
      rewrite (inv_success _ _ _ _ HI'). cbn [negb].
      destruct (IH (i + 1) _ _ HI' N2) as (b2 & m & E2 & K).
      { intros a Ha. rewrite fmap_app, not_elem_of_app. split; [apply Nn; right; exact Ha|]. cbn. rewrite list_elem_of_singleton. intros ->. auto. }
      { intros a c Ha. apply (Hk a). right. exact Ha. }
      exists b2, m. split; [exact E2|]. unfold serves. rewrite Forall_cons, (served_cons _ _ _ _ _ Ek), Zlen_cons. cbn [fst snd]. rewrite Ek.
      destruct K as [(V1 & V2 & V3)|[F B]]; [left|right]; [|split; [exact F|intros [_ V]; exact (B V)]].
      split; [eauto|]. split; [lia|]. rewrite <- app_assoc in V3. exact V3.
    + rewrite (fa_error _ _ F). cbn [negb]. exists b', i. split; [reflexivity|]. right. split; [exact F|].
      unfold serves. rewrite Forall_cons. cbn. rewrite Ek. intros [(w & [= <-] & W) _]. apply B. split; [lia|exact W].
Qed.

(** ** The arguments *)

(** The anonymous values and the object that the arguments supply, or [None]
    if they contain what can never be bound. *)
Fixpoint supply (args : list js_value) : option (list js_value * option (list (list Z * option js_value))) :=
  match args with
  | [] => Some ([], None)
  | JArray arr :: args => vs ← elements arr; '(ws, o) ← supply args; Some (vs ++ ws, o)
  | JObject true obj :: args =>
      '(ws, o) ← supply args;
      match o with None => Some (ws, Some obj) | Some _ => None end
  | (JObject false _ | JHeir _ _ _) :: _ => None
  | v :: args => '(ws, o) ← supply args; Some (v :: ws, o)
  end.

(** The arguments go on from [n] anonymous values; [bound] tells if the object
    has been used. *)
Definition supplies (limit : Z) (p : Vdbe) (n : nat) (bound : bool) (args : list js_value)
    (vs : list js_value) (o : option (list (list Z * option js_value))) : Prop :=
  supply args = Some (vs, o) /\ fits limit p n vs /\
  (forall obj, o = Some obj -> bound = false /\ serves limit obj (named_params p)).

(** Every string and buffer of the arguments has an [int] length. *)
Definition small_arg (v : js_value) : Prop :=
  small v /\
  match v with
  | JArray arr => Forall (fun x => forall v, x = Some v -> small v) arr
  | JObject _ obj => forall key v, own_property obj key = Some (Some v) -> small v
  | _ => True
  end.

Definition named_of (p : Vdbe) (o : option (list (list Z * option js_value))) : list (Z * js_value) :=
  match o with Some obj => served obj (named_params p) | None => [] end.

Definition object_count (p : Vdbe) (o : option (list (list Z * option js_value))) : Z :=
  match o with Some _ => Zlen (named_params p) | None => 0 end.

Lemma map_of_same p p' m : same_params p p' -> map_of p' m <-> map_of p m.
Proof.
  intros Hs. unfold map_of, named_params, named_from. rewrite (proj1 Hs).
  rewrite (list_omap_ext (fun i => n ← pname p' i; Some (drop 1 n, i)) (fun i => n ← pname p i; Some (drop 1 n, i)) _
    (seqZ 1 (vd_nVar p + 1 - 1))); [reflexivity|].
  apply Forall_Forall2_diag, Forall_forall. intros i _. rewrite (pname_same p p' i Hs). reflexivity.
Qed.

Lemma binder_map_spec p0 b vals named : stmt_ok p0 -> Inv p0 b vals named ->
  exists b' m, binder_map b = Some (b', m) /\ map_of p0 m /\ Inv p0 b' vals named.
Proof.
  intros Hp HI. pose proof HI as [X1 X2 X3 X4 X5 X6 X7 X8 X9 X10]. unfold binder_map.
  assert (Em : forall m, map_of (bd_handle b) m <-> map_of p0 m) by (intros m; apply map_of_same, X3).
  destruct (get_bind_map (bd_handle b) (bd_map b)) as (m & E & Hm).
  - eapply same_ok; eauto.
  - intros m E. apply Em. auto.
  - rewrite E. cbn [mbind option_bind]. eexists _, m. split; [reflexivity|]. apply Em in Hm. split; [exact Hm|].
    split; cbn; try assumption. intros m' [= <-]. exact Hm.
Qed.

Lemma fits_nil limit p n : (n <= length (anon_params p))%nat -> fits limit p n [].
Proof. intros H. split; [constructor|cbn; lia]. Qed.

Lemma fits_app limit p n vs ws : fits limit p n (vs ++ ws) <-> fits limit p n vs /\ fits limit p (n + length vs) ws.
Proof. unfold fits. rewrite Forall_app, length_app. intuition lia. Qed.

(** The outcome of binding the arguments [args] to a binder in the state
    [vals], [named]. *)
Definition args_outcome (limit : Z) (p0 : Vdbe) (args : list js_value) (vals : list js_value) (named : list (Z * js_value))
    (count : Z) (bound : bool) (r : Binder * (Z * bool)) : Prop :=
  let '(b', (count', bound')) := r in
  (exists vs o, supplies limit p0 (length vals) bound args vs o /\ count' = count + Zlen vs + object_count p0 o /\
     bound' = bound || bool_decide (is_Some o) /\ Inv p0 b' (vals ++ vs) (named ++ named_of p0 o))
  \/ (failed p0 b' /\ ~ exists vs o, supplies limit p0 (length vals) bound args vs o).

Section args.
Context (e : BindEnv) (p0 : Vdbe) (He : env_ok e) (Hp : stmt_ok p0).

(** The rest of the arguments binds as [args_outcome] says. *)
Definition args_bind (args : list js_value) : Prop :=
  forall b count bound vals named, Inv p0 b vals named -> (bound = false -> named = []) ->
  exists r, BindArgs e b count bound args = Some r /\ args_outcome (be_limit e) p0 args vals named count bound r.

(** A part of the arguments that supplies the anonymous values [vs]. *)
Lemma outcome_anon arg args vs vals named count bound r :
  (forall ws o, supply (arg :: args) = Some (ws, o) <-> exists ws', supply args = Some (ws', o) /\ ws = vs ++ ws') ->
  fits (be_limit e) p0 (length vals) vs ->
  args_outcome (be_limit e) p0 args (vals ++ vs) named (count + Zlen vs) bound r ->
  args_outcome (be_limit e) p0 (arg :: args) vals named count bound r.
Proof.
  intros Hsup Hf. destruct r as [b' [count' bound']]. intros [(ws & o & (S1 & S2 & S3) & C & B & HI)|[F N]].
  - left. exists (vs ++ ws), o. rewrite length_app in S2. rewrite Zlen_app, app_assoc. split_and!; [|lia|exact B|exact HI].
    split; [|split; [apply fits_app; auto|exact S3]]. apply Hsup. eauto.
  - right. split; [exact F|]. intros (ws & o & S1 & S2 & S3). apply N. apply Hsup in S1. destruct S1 as (ws' & S1 & ->).
    exists ws', o. rewrite length_app. apply fits_app in S2. split; [exact S1|]. split; [apply S2|exact S3].
Qed.

Lemma direct_spec arg args b count bound vals named : args_bind args -> Inv p0 b vals named -> (bound = false -> named = []) -> small arg ->
  supply (arg :: args) = ('(ws, o) ← supply args; Some (arg :: ws, o)) \/ (~ bindable (be_limit e) arg /\ supply (arg :: args) = None) ->
  exists r,
    ('(b, index) ← NextAnonIndex b;
     b ← BindValue e b arg index;
     if negb (success b) then Some (b, (count, bound)) else BindArgs e b (count + 1) bound args) = Some r /\
    args_outcome (be_limit e) p0 (arg :: args) vals named count bound r.
Proof.
  intros IH HI Hn Hs Hsup. destruct (anon_step e p0 b vals named arg He Hp HI Hs) as (b1 & idx & b' & E1 & E2 & K).
  rewrite E1. cbn [mbind option_bind]. rewrite E2. cbn [mbind option_bind]. destruct K as [(G1 & G2 & HI')|[F B]].
  - destruct Hsup as [Hsup|[Nb _]]; [|contradiction]. rewrite (inv_success _ _ _ _ HI'). cbn [negb].
    destruct (IH b' (count + 1) bound _ _ HI' Hn) as (r & E & O). exists r. split; [exact E|].
    apply outcome_anon with (vs := [arg]).
    + intros ws o. rewrite Hsup. destruct (supply args) as [[ws' o']|]; cbn; split.
      * intros [= <- <-]. eauto.
      * intros (? & [= <- <-] & ->). reflexivity.
      * discriminate.
      * intros (? & ? & _). discriminate.
    + split; [constructor; [exact G1|constructor]|cbn; lia].
    + exact O.
  - rewrite (fa_error _ _ F). cbn [negb]. eexists. split; [reflexivity|]. right. split; [exact F|].
    intros (ws & o & S1 & [S2 S3] & _). destruct Hsup as [Hsup|[_ Hsup]]; rewrite Hsup in S1; [|discriminate].
    destruct (supply args) as [[ws' o']|]; [|discriminate]. injection S1 as <- <-. rewrite Forall_cons in S2. cbn in S3.
    apply B. split; [apply S2|lia].
Qed.

Lemma array_arg arr args b count bound vals named : args_bind args -> Inv p0 b vals named -> (bound = false -> named = []) ->
  Forall (fun x => forall v, x = Some v -> small v) arr ->
  exists r, BindArgs e b count bound (JArray arr :: args) = Some r /\
    args_outcome (be_limit e) p0 (JArray arr :: args) vals named count bound r.
Proof.
  intros IH HI Hn Hs. cbn [BindArgs]. unfold BindArray. pose proof (so_count _ Hp) as Hc. pose proof (params_split p0 1) as Hps.
  destruct (Z.ltb_spec INT_MAX (Zlen arr)) as [Big|Small].
  - edestruct (fail_spec p0 b vals named) as (b' & E & F); [exact Hp|exact HI|]. rewrite E. cbn [mbind option_bind].
    rewrite (fa_error _ _ F). cbn [negb]. eexists. split; [reflexivity|]. right. split; [exact F|].
    intros (ws & o & S1 & [_ S3] & _). cbn [supply] in S1. destruct (elements arr) as [vs|] eqn:Ev; [|discriminate].
    destruct (supply args) as [[ws' o']|]; [|discriminate]. injection S1 as <- <-. rewrite length_app in S3.
    apply mapM_Some, Forall2_length in Ev. unfold INT_MAX, Zlen in *. fold (anon_params p0) in Hps.
    change (1 - 1) with 0 in Hps. fold (anon_params p0) in Hps. pose proof (vk_nVar _ (so_vdbe _ Hp)). unfold Zlen in *. lia.
  - destruct (array_spec e p0 named arr He Hp Hs 0 b vals HI) as (b' & n & E & K). rewrite E. cbn [mbind option_bind].
    destruct K as [(vs & V1 & V2 & -> & V4)|[F B]].
    + rewrite (inv_success _ _ _ _ V4). cbn [negb]. destruct (IH b' (count + (0 + Zlen vs)) bound _ _ V4 Hn) as (r & Er & O).
      exists r. split; [exact Er|]. apply outcome_anon with (vs := vs); [|exact V2|exact O].
      intros ws o. cbn [supply]. rewrite V1. cbn [mbind option_bind]. destruct (supply args) as [[ws' o']|]; cbn; split.
      * intros [= <- <-]. eauto.
      * intros (? & [= <- <-] & ->). reflexivity.
      * discriminate.
      * intros (? & ? & _). discriminate.
    + rewrite (fa_error _ _ F). cbn [negb]. eexists. split; [reflexivity|]. right. split; [exact F|].
      intros (ws & o & S1 & S2 & _). cbn [supply] in S1. destruct (elements arr) as [vs|]; [|discriminate].
      destruct (supply args) as [[ws' o']|]; [|discriminate]. injection S1 as <- <-. apply fits_app in S2. apply B. exists vs. split; [reflexivity|apply S2].
Qed.

Lemma object_arg obj args b count bound vals named : args_bind args -> Inv p0 b vals named -> (bound = false -> named = []) ->
  (forall key v, own_property obj key = Some (Some v) -> small v) ->
  exists r, BindArgs e b count bound (JObject true obj :: args) = Some r /\
    args_outcome (be_limit e) p0 (JObject true obj :: args) vals named count bound r.
Proof.
  intros IH HI Hn Hs. cbn [BindArgs]. destruct bound.
  - edestruct (fail_spec p0 b vals named) as (b' & E & F); [exact Hp|exact HI|]. rewrite E. cbn [mbind option_bind].
    eexists. split; [reflexivity|]. right. split; [exact F|]. intros (ws & o & S1 & _ & S3). cbn [supply] in S1.
    destruct (supply args) as [[ws' [o'|]]|]; try discriminate. injection S1 as <- <-. destruct (S3 obj eq_refl). discriminate.
  - destruct (binder_map_spec p0 b vals named Hp HI) as (b1 & m & Em & [_ Hm] & HI1). unfold BindObject. rewrite Em. cbn [mbind option_bind].
    rewrite (Hn eq_refl) in HI1. rewrite (Hn eq_refl). rewrite Hm.
    destruct (object_spec e p0 obj vals (named_params p0) He Hp Hs 0 b1 [] HI1) as (b' & n & E & K).
    { apply named_nodup. } { intros k _ X. inversion X. }
    { intros key k Hk. destruct (named_in _ _ _ _ Hk) as (nm & E & _). eauto. }
    rewrite E. cbn [mbind option_bind]. destruct K as [(V1 & -> & V3)|[F B]].
    + rewrite (inv_success _ _ _ _ V3). cbn [negb]. destruct (IH b' (count + (0 + Zlen (named_params p0))) true _ _ V3) as ([b2 [c2 bo2]] & Er & O); [discriminate|].
      exists (b2, (c2, bo2)). split; [exact Er|]. destruct O as [(ws & o & (S1 & S2 & S3) & C & B & HI2)|[F N]].
      * assert (o = None) as -> by (destruct o as [o|]; [destruct (S3 o eq_refl); discriminate|reflexivity]).
        left. exists ws, (Some obj). split_and!; [split_and!; [cbn [supply]; rewrite S1; reflexivity|exact S2|]|cbn in *; lia|exact B|].
        { intros o [= <-]. auto. } cbn [named_of app] in *. rewrite app_nil_r in HI2. exact HI2.
      * right. split; [exact F|]. intros (ws & o & S1 & S2 & _). cbn [supply] in S1.
        destruct (supply args) as [[ws' [o'|]]|] eqn:Es; try discriminate. injection S1 as <- <-. apply N. exists ws', None.
        split; [exact Es|]. split; [exact S2|discriminate].
    + rewrite (fa_error _ _ F). cbn [negb]. eexists. split; [reflexivity|]. right. split; [exact F|].
      intros (ws & o & S1 & _ & S3). cbn [supply] in S1. destruct (supply args) as [[ws' [o'|]]|]; try discriminate.
      injection S1 as <- <-. apply B. apply (S3 obj eq_refl).
Qed.

Lemma args_spec args : Forall small_arg args -> args_bind args.
Proof.
  intros Hs. induction Hs as [|arg args [Hs1 Hs2] Hs IH]; intros b count bound vals named HI Hn.
  - exists (b, (count, bound)). split; [reflexivity|]. left. exists [], None. split_and!.
    + split; [reflexivity|]. split; [apply fits_nil, HI|discriminate].
    + rewrite Zlen_nil. cbn. lia.
    + rewrite orb_false_r. reflexivity.
    + cbn. rewrite !app_nil_r. exact HI.
  - destruct arg as [| | | | | | |arr|[] obj|]; try (apply array_arg; assumption); try (apply object_arg; assumption);
      try (apply direct_spec; [exact IH|exact HI|exact Hn|exact Hs1|left; reflexivity]).
    all: cbn [BindArgs]; destruct (binder_map_spec p0 b vals named Hp HI) as (b1 & m & Em & _ & HI1); rewrite Em; cbn [mbind option_bind];
      destruct (truth (bm_length m));
      [edestruct (fail_spec p0 b1 vals named) as (b' & E & F); [exact Hp|exact HI1|]; rewrite E; cbn [mbind option_bind];
       eexists; split; [reflexivity|]; right; split; [exact F|]; intros (ws & o & S1 & _); discriminate
      |apply direct_spec; [exact IH|exact HI1|exact Hn|exact Hs1|right; split; [intros []|reflexivity]]].
Qed.
End args.

(** ** The whole call *)

(** The arguments give every parameter a value that can be bound. *)
Definition accepts (limit : Z) (p : Vdbe) (args : list js_value) : Prop :=
  exists vs o, supply args = Some (vs, o) /\ Forall (bindable limit) vs /\ length vs = length (anon_params p) /\
    match o with Some obj => serves limit obj (named_params p) | None => named_params p = [] end.

(** Every parameter of [p'] has the value the arguments give it. *)
Definition assigned (p : Vdbe) (args : list js_value) (p' : Vdbe) : Prop :=
  exists vs o, supply args = Some (vs, o) /\
    (forall j i, anon_params p !! j = Some i -> exists v, vs !! j = Some v /\ slot p' i = Some (bound_value v)) /\
    (forall key i, (key, i) ∈ named_params p -> exists obj v, o = Some obj /\ own_property obj key = Some (Some v) /\
       slot p' i = Some (bound_value v)).

Lemma inv_new p st_map : stmt_ok p -> (forall m, st_map = Some m -> map_of p m) -> Inv p (Binder_new p st_map) [] [].
Proof.
  intros Hp Hm. pose proof (vk_nVar _ (so_vdbe _ Hp)). pose proof (Zlen_nonneg (vd_aVar p)).
  split; cbn; auto with noria; try lia; try discriminate.
  - apply Hp.
  - intros i v Hv. inversion Hv.
Qed.

Lemma param_counts p : stmt_ok p -> vd_nVar p = Zlen (anon_params p) + Zlen (named_params p).
Proof.
  intros Hp. pose proof (vk_nVar _ (so_vdbe _ Hp)). pose proof (Zlen_nonneg (vd_aVar p)).
  pose proof (params_split p 1). unfold anon_params, named_params. change (1 - 1) with 0 in *. lia.
Qed.

Lemma served_in obj pairs key i : (key, i) ∈ pairs ->
  forall limit, serves limit obj pairs -> exists v, own_property obj key = Some (Some v) /\ (i, v) ∈ served obj pairs.
Proof.
  intros Hin limit Hs. unfold serves in Hs. rewrite Forall_forall in Hs. destruct (Hs _ Hin) as (v & E & _). cbn in E.
  exists v. split; [exact E|]. unfold served. apply list_elem_of_omap. exists (key, i). split; [exact Hin|]. cbn. rewrite E. reflexivity.
Qed.

(** All parameters are bound when the counts agree. *)
Lemma counted_accepts e p args vs o b : stmt_ok p -> supplies (be_limit e) p 0 false args vs o ->
  Inv p b vs (named_of p o) -> Zlen vs + object_count p o = vd_nVar p ->
  accepts (be_limit e) p args /\ assigned p args (bd_handle b).
Proof.
  intros Hp (S1 & [S2 S3] & S4) HI Hc. pose proof (param_counts p Hp) as Hn. cbn in S3. unfold object_count, Zlen in *.
  assert (L : length vs = length (anon_params p) /\ match o with None => named_params p = [] | Some _ => True end).
  { destruct o; [split; [lia|exact I]|]. split; [lia|]. apply length_zero_iff_nil. lia. }
  destruct L as [L1 L2]. split.
  - exists vs, o. split_and!; auto. destruct o as [obj|]; [apply (S4 obj eq_refl)|exact L2].
  - exists vs, o. split; [exact S1|]. split.
    + intros j i Hj. destruct (lookup_lt_is_Some_2 vs j) as [v Hv]; [apply lookup_lt_Some in Hj; lia|].
      exists v. split; [exact Hv|]. exact (in_vals _ _ _ _ HI j i v Hj Hv).
    + intros key i Hin. destruct o as [obj|]; [|rewrite L2 in Hin; inversion Hin].
      destruct (served_in obj (named_params p) key i Hin _ (proj2 (S4 obj eq_refl))) as (v & E & Hv).
      exists obj, v. split; [reflexivity|]. split; [exact E|]. exact (proj2 (in_named _ _ _ _ HI i v Hv)).
Qed.

Lemma accepts_counted e p args : stmt_ok p -> accepts (be_limit e) p args ->
  exists vs o, supplies (be_limit e) p 0 false args vs o /\ Zlen vs + object_count p o = vd_nVar p.
Proof.
  intros Hp (vs & o & A1 & A2 & A3 & A4). exists vs, o. rewrite (param_counts p Hp). split.
  - split; [exact A1|]. split; [split; [exact A2|cbn; lia]|]. intros obj ->. auto.
  - unfold object_count, Zlen in *. destruct o; [lia|]. rewrite A4. cbn. lia.
Qed.

(** The end of [Bind]: the counts decide. *)
Lemma bind_end e p args st_map : env_ok e -> stmt_ok p -> (forall m, st_map = Some m -> map_of p m) -> Forall small_arg args ->
  exists b, Bind_ e (Binder_new p st_map) args = Some b /\
    ((failed p b /\ ~ accepts (be_limit e) p args) \/
     (success b = true /\ exists vs o, supplies (be_limit e) p 0 false args vs o /\ Inv p b vs (named_of p o) /\
        Zlen vs + object_count p o = vd_nVar p)).
Proof.
  intros He Hp Hm Hs. pose proof (inv_new p st_map Hp Hm) as HI.
  destruct (args_spec e p He Hp args Hs (Binder_new p st_map) 0 false [] [] HI (fun _ => eq_refl)) as ([b [count bo]] & E & O).
  unfold Bind_. cbn [bd_anon_index Binder_new Z.eqb negb]. rewrite E. cbn [mbind option_bind].
  destruct O as [(vs & o & S & C & B & HI2)|[F N]].
  - rewrite (inv_success _ _ _ _ HI2), (in_count _ _ _ _ HI2). cbn [andb app] in *.
    destruct (Z.eqb_spec count (vd_nVar p)) as [Eq|Ne]; cbn [negb].
    + exists b. split; [reflexivity|]. right. split; [exact (inv_success _ _ _ _ HI2)|]. exists vs, o. split; [exact S|]. split; [exact HI2|lia].
    + assert (Na : ~ accepts (be_limit e) p args).
      { intros A. destruct (accepts_counted e p args Hp A) as (ws & o' & S' & C'). destruct S as [S _], S' as [S' _].
        rewrite S in S'. injection S' as <- <-. lia. }
      assert (K : forall err, exists b', Fail b err = Some b' /\ failed p b') by (intros err; exact (fail_spec p b vs _ err Hp HI2)).
      destruct (count <? vd_nVar p); [|destruct (K (RangeError "Too many parameter values were provided")) as (b' & E' & F'); rewrite E'; eauto].
      destruct bo; cbn [mbind option_bind negb andb].
      * destruct (K (RangeError "Too few parameter values were provided")) as (b' & E' & F'). rewrite E'. eauto.
      * destruct (binder_map_spec p b vs _ Hp HI2) as (b1 & m & Em & _ & HI3). rewrite Em. cbn [mbind option_bind].
        destruct (truth (bm_length m)); edestruct (fail_spec p b1 vs) as (b' & E' & F'); [exact Hp|exact HI3| |exact Hp|exact HI3|]; rewrite E'; eauto.
  - rewrite (fa_error _ _ F). cbn [andb]. exists b. split; [reflexivity|]. left. split; [exact F|]. intros A. apply N.
    destruct (accepts_counted e p args Hp A) as (ws & o' & S' & _). eauto.
Qed.

(** Whatever the arguments, the statement keeps its parameters. *)
Lemma bind_keeps e p args st_map : env_ok e -> stmt_ok p -> (forall m, st_map = Some m -> map_of p m) -> Forall small_arg args ->
  exists b, Bind_ e (Binder_new p st_map) args = Some b /\ stmt_ok (bd_handle b) /\ same_params p (bd_handle b) /\
    (forall m, bd_map b = Some m -> map_of p m).
Proof.
  intros He Hp Hm Hs. destruct (bind_end e p args st_map He Hp Hm Hs) as (b & E & [[F _]|(S & vs & o & _ & HI & _)]);
    exists b; (split; [exact E|]).
  - destruct F. auto.
  - split; [exact (handle_ok _ _ _ _ Hp HI)|]. split; apply HI.
Qed.

(** C12: binding the arguments of a call.  [Binder::Bind] on a prepared
    statement never faults; it succeeds exactly when the arguments give every
    parameter one value that can be bound (the anonymous parameters in order
    from the plain arguments and the elements of arrays, the named ones from
    the single plain object), and then every parameter holds the value that is
    its own.  After an error the statement is still well formed. *)
Theorem bind_assigns_parameters e p st_map args :
  env_ok e -> stmt_ok p -> (forall m, st_map = Some m -> map_of p m) -> Forall small_arg args ->
  exists b, Bind_ e (Binder_new p st_map) args = Some b /\ stmt_ok (bd_handle b) /\
    (success b = true <-> accepts (be_limit e) p args) /\
    (success b = true -> assigned p args (bd_handle b)).
Proof.
  intros He Hp Hm Hs. destruct (bind_end e p args st_map He Hp Hm Hs) as (b & E & [[F N]|(S & vs & o & S1 & HI & C)]).
  - exists b. split; [exact E|]. split; [apply F|]. rewrite (fa_error _ _ F). split; [split; [discriminate|contradiction]|discriminate].
  - destruct (counted_accepts e p args vs o b Hp S1 HI C) as [A1 A2]. exists b. split; [exact E|].
    split; [exact (handle_ok _ _ _ _ Hp HI)|]. split; [split; auto|auto].
Qed.

(** A statement with parameters [?, :name, ?] and three arguments. *)
Definition demo_env : BindEnv := mkBindEnv (fun _ => true) 1000000.
Definition demo_vdbe : Vdbe := mkVdbe true true 3 [VNull; VNull; VNull] (Some [(2, str ":name")]) 0 false.
Definition demo_args : list js_value :=
  [JArray [Some (JBigInt 7)]; JObject true [(str "name", Some (JString (str "x")))]; JNull].

Lemma demo_vdbe_ok : stmt_ok demo_vdbe.
Proof.
  split; [split; reflexivity || (cbn; lia)|cbn; lia|]. intros i n. unfold pname, sqlite3_bind_parameter_name, sqlite3VListNumToName.
  cbn [vd_pVList demo_vdbe mbind option_bind vlist_name].
  destruct (Z.eqb_spec 2 i) as [<-|]; [|discriminate]. intros [= <-]. split; [cbn; lia|discriminate].
Qed.

Lemma bind_assigns_parameters_witness :
  exists b, Bind_ demo_env (Binder_new demo_vdbe None) demo_args = Some b /\ stmt_ok (bd_handle b) /\
    (success b = true <-> accepts (be_limit demo_env) demo_vdbe demo_args) /\
    (success b = true -> assigned demo_vdbe demo_args (bd_handle b)).
Proof.
  apply (bind_assigns_parameters demo_env demo_vdbe None demo_args).
  - split; [reflexivity|cbn; lia].
  - exact demo_vdbe_ok.
  - discriminate.
  - constructor; [split; [exact I|]|constructor; [split; [exact I|]|constructor; [split; exact I|constructor]]].
    + constructor; [|constructor]. intros v [= <-]. exact I.
    + intros key v. cbn [own_property]. destruct (bool_decide _); [|discriminate]. intros [= <-]. reflexivity.
Defined.

(** The values the call above leaves in the statement. *)
Example demo_bound :
  (fun b => vd_aVar (bd_handle b)) <$> Bind_ demo_env (Binder_new demo_vdbe None) demo_args =
  Some [VInt 7; VText (str "x"); VNull].
Proof. vm_compute. reflexivity. Qed.
