(* ===== verification/JsCorrect.v ===== *)
(** * Correctness of the conversions between JavaScript and SQLite values

    A value that is bound reads back, integers are exact within their bounds, and
    the ways of building a row give the same object. *)
From stdpp Require Import strings.
From S2P Require Import Prelude Double Value Strings Bind Js.

Local Open Scope Z_scope.

(** C25: a bound value reads back.  Binding a value of a type SQLite can hold,
    within the length limit, to a parameter of a statement succeeds, changes
    that parameter and no other, and the value SQLite then holds converts back
    to the value that was bound; only undefined and NaN come back as null, and a
    bigint needs the safe-integer mode. *)
Theorem bound_value_reads_back e p i v :
  vdbe_ok p -> 1 <= i <= vd_nVar p -> be_malloc e i = true -> be_limit e < 2 ^ 31 -> bindable (be_limit e) v ->
  exists p' w, BindValueFromJS e p i v = Some (p', SQLITE_OK) /\ vdbe_ok p' /\
    vd_aVar p' = <[Z.to_nat (i - 1) := w]> (vd_aVar p) /\
    GetValueJS w (is_bigint v) = read_back v.
Proof.
  intros Hp Hi Hm Hl Hv. destruct (bind_value_spec e p i v Hp Hi Hm Hl Hv) as (p' & E & B).
  exists p', (bound_value v). split; [exact E|]. split; [exact (binds_ok _ _ _ _ Hp B)|]. split; [apply B|].
  exact (value_read_back _ _ Hv).
Qed.

Lemma bound_value_reads_back_witness :
  exists p' w, BindValueFromJS (mkBindEnv (fun _ => true) 100) (mkVdbe true true 2 [VNull; VNull] None 0 false) 2 (JString [104; 105])
      = Some (p', SQLITE_OK) /\ vdbe_ok p' /\
    vd_aVar p' = <[Z.to_nat (2 - 1) := w]> [VNull; VNull] /\
    GetValueJS w false = JString [104; 105].
Proof.
  apply (bound_value_reads_back (mkBindEnv (fun _ => true) 100) (mkVdbe true true 2 [VNull; VNull] None 0 false) 2 (JString [104; 105]));
    [split; reflexivity|cbn; lia|reflexivity|cbn; lia|cbn; unfold Zlen; cbn; lia].
Defined.

(** C26: integer columns.  In the safe-integer mode every 64-bit integer column
    becomes the bigint with its value.  Without it the column becomes a number,
    which converts back to the integer when its absolute value is below 2^53;
    the bigint converts back without loss. *)
Theorem integer_column_exact i :
  is_i64 i ->
  GetValueJS (VInt i) true = JBigInt i /\ Int64Value i = (i, true) /\
  exists r, GetValueJS (VInt i) false = JNumber r /\ (- 2 ^ 53 < i < 2 ^ 53 -> int_of_double r = Some i).
Proof.
  intros Hi. split_and!; try reflexivity.
  - unfold Int64Value. rewrite i64_id by exact Hi. unfold is_i64 in Hi.
    rewrite (proj2 (Z.leb_le _ _)), (proj2 (Z.ltb_lt _ _)) by lia. reflexivity.
  - exists (double_of_int i). split; [reflexivity|]. intros Hs. apply int_double_exact. lia.
Qed.

Lemma integer_column_exact_witness :
  GetValueJS (VInt (2 ^ 63 - 1)) true = JBigInt (2 ^ 63 - 1) /\
  Int64Value (2 ^ 63 - 1) = (2 ^ 63 - 1, true) /\
  exists r, GetValueJS (VInt (2 ^ 63 - 1)) false = JNumber r /\ (- 2 ^ 53 < 2 ^ 63 - 1 < 2 ^ 53 -> int_of_double r = Some (2 ^ 63 - 1)).
Proof. apply (integer_column_exact (2 ^ 63 - 1)). unfold is_i64. lia. Defined.

(** The bound is tight. *)
Example integer_column_rounds : GetValueJS (VInt (2 ^ 53 + 1)) false = GetValueJS (VInt (2 ^ 53)) false.
Proof. vm_compute. reflexivity. Qed.

(** ** Rows *)

(** Rows of one statement have the same column names. *)
Definition same_names (names : list (list Z)) (row : list column) : Prop := cl_name <$> row = names.

Lemma builder_row names b row : same_names names row -> rb_keys b = Some names \/ rb_keys b = None ->
  RowBuilder_GetRowJS b row = (mkRowBuilder (Some names) (rb_safe_ints b), GetFlatRowJS_v22 row (rb_safe_ints b)).
Proof.
  intros <- Hb. unfold RowBuilder_GetRowJS.
  assert (Ek : match rb_keys b with Some keys => keys | None => cl_name <$> row end = cl_name <$> row) by (destruct Hb as [-> | ->]; reflexivity).
  rewrite Ek. rewrite take_ge by (rewrite length_fmap; lia). reflexivity.
Qed.

Lemma builder_rows names b rows : Forall (same_names names) rows -> rb_keys b = Some names \/ rb_keys b = None ->
  build_rows b rows = (fun row => GetFlatRowJS_v22 row (rb_safe_ints b)) <$> rows.
Proof.
  intros Hr. revert b. induction Hr as [|row rows H Hr IH]; intros b Hb; [reflexivity|].
  cbn [build_rows]. rewrite (builder_row names b row H Hb), IH by (left; reflexivity). reflexivity.
Qed.

(** Two ways of building a row part on a column named [__proto__]. *)
Lemma proto_row_differs row safe_ints : proto_key ∈ (cl_name <$> row) -> GetFlatRowJS_v22 row safe_ints <> GetFlatRowJS row safe_ints.
Proof.
  intros Hin E. apply list_elem_of_fmap in Hin as (c & Ec & Hc).
  set (f := fun c => GetValueJS (cl_value c) safe_ints).
  pose proof (set_never_own f row (JObject true []) eq_refl) as Hn.
  unfold GetFlatRowJS in E. change (fun (o : js_value) (c : column) => _) with (fun o c => set_property o (cl_name c) (f c)) in E.
  rewrite <- E in Hn. unfold GetFlatRowJS_v22, Object_New in Hn. change (fun c : column => GetValueJS (cl_value c) safe_ints) with f in Hn.
  rewrite zip_columns in Hn. destruct (flat_some f row [] proto_key) as [v Ev]; [apply list_elem_of_fmap; eauto|]. congruence.
Qed.

(** C28: one row, one object.  The rows that [all()] builds from Node 22 on with
    the column names read once are the rows that [get()] and the iterators
    build one by one there; such a row has, for the name of each column, the
    value of the last column with that name as an own property.  Older versions
    set the properties one by one: they build the same rows in every mode, except
    flat rows with a column named [__proto__], which always differ, since
    setting that name changes the prototype or is ignored. *)
Theorem rows_agree names rows safe_ints :
  Forall (same_names names) rows ->
  build_rows (RowBuilder_new safe_ints) rows = (fun row => GetFlatRowJS_v22 row safe_ints) <$> rows /\
  (forall row mode, GetRowJS_v22 row safe_ints mode = GetRowJS row safe_ints mode <-> ~ (mode = FLAT /\ proto_key ∈ (cl_name <$> row))) /\
  (forall row1 c row2, cl_name c ∉ (cl_name <$> row2) ->
     exists o, GetFlatRowJS_v22 (row1 ++ c :: row2) safe_ints = JObject true o /\
       own_property o (cl_name c) = Some (Some (GetValueJS (cl_value c) safe_ints))).
Proof.
  intros Hr. split_and!.
  - apply (builder_rows names); [exact Hr|right; reflexivity].
  - intros row mode. unfold GetRowJS_v22, GetRowJS. rewrite raw_row_v22.
    destruct (Z.eqb_spec mode FLAT) as [->|N]; [|split; [intros _ [E _]; exact (N E)|reflexivity]].
    split; [intros [= E] [_ Hp]; exact (proto_row_differs row safe_ints Hp E)|].
    intros Hn. f_equal. apply flat_row_v22. intros Hp. apply Hn. auto.
  - intros row1 c row2 N. eexists. split; [reflexivity|]. rewrite zip_columns.
    exact (flat_last (fun c => GetValueJS (cl_value c) safe_ints) row1 c row2 [] N).
Qed.

Lemma rows_agree_witness :
  let row v := [mkColumn None [97] (VInt v); mkColumn None [98] VNull] in
  build_rows (RowBuilder_new true) [row 1; row 2] = (fun r => GetFlatRowJS_v22 r true) <$> [row 1; row 2].
Proof. apply (rows_agree [[97]; [98]] _ true). repeat constructor. Defined.
