(* ===== verification/StmtText.v ===== *)
(** * Scanning the text of a statement (statement.cpp, helpers.cpp)

    [Statement::JS_new] checks that nothing but blanks, semicolons and comments
    follows the statement; [DetectStatementType] reads the kind of a write
    statement and the table it names from its text.  A C string is the list of
    its bytes before the terminator. *)
From stdpp Require Import strings.
From S2P Require Import Prelude Value Strings NoriaSql.

Local Open Scope Z_scope.

(** ** The tail of the SQL text *)

Definition IS_SKIPPED (c : Z) : bool := (c =? 32) || (c =? 59) || ((9 <=? c) && (c <=? 13)).

(** What [tail] points to, the terminator at the end. *)
Definition char_at (s : list Z) (i : nat) : Z := nth i s 0.

(** The inner loops, from the character after the opening of the comment. *)
Fixpoint skip_block (s : list Z) : list Z :=
  match s with
  | [] => []
  | c :: s' => if (c =? 42) && (char_at s' 0 =? 47) then drop 1 s' else skip_block s'
  end.

Fixpoint skip_line (s : list Z) : list Z :=
  match s with
  | [] => []
  | c :: s' => if c =? 10 then s' else skip_line s'
  end.

(** The outer loop: false if there is a second statement.  Every round consumes a
    character. *)
Fixpoint scan_tail (fuel : nat) (tail : list Z) : option bool :=
  match fuel with
  | O => None
  | S fuel =>
      match tail with
      | [] => Some true
      | c :: s =>
          if IS_SKIPPED c then scan_tail fuel s
          else if (c =? 47) && (char_at s 0 =? 42) then scan_tail fuel (skip_block (drop 1 s))
          else if (c =? 45) && (char_at s 0 =? 45) then scan_tail fuel (skip_line (drop 1 s))
          else Some false
      end
  end.

Definition tail_is_empty (tail : list Z) : option bool := scan_tail (S (length tail)) tail.

(** ** The kind of a statement *)

Definition STMT_SELECT : Z := 0.
Definition STMT_INSERT : Z := 1.
Definition STMT_UPDATE : Z := 2.
Definition STMT_DELETE : Z := 3.
Definition STMT_OTHER : Z := 4.

(** [strncasecmp(s, kw, strlen(kw)) == 0], for a keyword in upper case. *)
Definition has_prefix (kw s : list Z) : bool := starts_with kw (toupper <$> s).

(** The text from the first occurrence of [needle] on. *)
Fixpoint FindCaseInsensitive (haystack needle : list Z) : option (list Z) :=
  match haystack with
  | [] => None
  | _ :: s => if has_prefix needle haystack then Some haystack else FindCaseInsensitive s needle
  end.

Definition is_blank (c : Z) : bool := (c =? 32) || (c =? 9).
Definition is_leading (c : Z) : bool := (c =? 32) || (c =? 9) || (c =? 10) || (c =? 13).

Fixpoint drop_while (f : Z -> bool) (s : list Z) : list Z :=
  match s with c :: s' => if f c then drop_while f s' else s | [] => [] end.
Fixpoint take_while (f : Z -> bool) (s : list Z) : list Z :=
  match s with c :: s' => if f c then c :: take_while f s' else [] | [] => [] end.

(** The name that starts at [s], up to one of the characters in [stop]. *)
Definition name_until (stop : list Z) (s : list Z) : list Z :=
  take_while (fun c => negb (bool_decide (c ∈ stop))) (drop_while is_blank s).

(** [DetectStatementType]: the type and the name of the table, from
    [sqlite3_sql(handle)]; [None] leaves the name as it was. *)
Definition DetectStatementType (sql : option (list Z)) : Z * option (list Z) :=
  match sql with
  | None => (STMT_OTHER, None)
  | Some sql =>
      let sql := drop_while is_leading sql in
      if has_prefix (str "INSERT") sql then
        (STMT_INSERT, into ← FindCaseInsensitive sql (str "INTO"); Some (name_until [32; 9; 40; 10] (drop 4 into)))
      else if has_prefix (str "UPDATE") sql then
        (STMT_UPDATE, Some (name_until [32; 9; 10] (drop 6 sql)))
      else if has_prefix (str "DELETE") sql then
        (STMT_DELETE, from ← FindCaseInsensitive sql (str "FROM"); Some (name_until [32; 9; 10; 59] (drop 4 from)))
      else if has_prefix (str "SELECT") sql then (STMT_SELECT, None)
      else (STMT_OTHER, None)
  end.

(** ** What may follow a statement *)

Definition no_close (body : list Z) : Prop := forall a b, body <> a ++ 42 :: 47 :: b.
Definition no_newline (body : list Z) : Prop := 10 ∉ body.

(** Blanks, semicolons and comments; the last comment may be left open. *)
Inductive trivia : list Z -> Prop :=
  | trivia_nil : trivia []
  | trivia_skip c s : IS_SKIPPED c = true -> trivia s -> trivia (c :: s)
  | trivia_block body s : no_close body -> trivia s -> trivia (47 :: 42 :: body ++ 42 :: 47 :: s)
  | trivia_open body : no_close body -> trivia (47 :: 42 :: body)
  | trivia_line body s : no_newline body -> trivia s -> trivia (45 :: 45 :: body ++ 10 :: s)
  | trivia_last body : no_newline body -> trivia (45 :: 45 :: body).

Lemma no_close_tail c body : no_close (c :: body) -> no_close body.
Proof. intros H a b ->. exact (H (c :: a) b eq_refl). Qed.

Lemma skip_block_cases s :
  (exists body s', s = body ++ 42 :: 47 :: s' /\ no_close body /\ skip_block s = s') \/ (no_close s /\ skip_block s = []).
Proof.
  induction s as [|c s IH]; [right; split; [intros [|? ?] ?; discriminate|reflexivity]|]. cbn [skip_block].
  destruct ((c =? 42) && (char_at s 0 =? 47)) eqn:E.
  - apply andb_true_iff in E as [E1 E2]. apply Z.eqb_eq in E1, E2. destruct s as [|d s]; [discriminate|]. cbn in E2. subst.
    left. exists [], s. split; [reflexivity|]. split; [intros [|? ?] ?; discriminate|reflexivity].
  - assert (Hc : forall s', s = 47 :: s' -> c <> 42) by (intros s' -> ->; discriminate E).
    destruct IH as [(body & s' & -> & Hb & ->)|[Hn ->]].
    + left. exists (c :: body), s'. split; [reflexivity|]. split; [|reflexivity].
      intros [|a0 a] b Eb; injection Eb as -> Eb; [|exact (Hb _ _ Eb)]. subst body. exact (Hc _ eq_refl eq_refl).
    + right. split; [|reflexivity]. intros [|a0 a] b Eb; injection Eb as -> Eb; [|exact (Hn _ _ Eb)]. exact (Hc _ Eb eq_refl).
Qed.

Lemma skip_block_closed body s : no_close body -> skip_block (body ++ 42 :: 47 :: s) = s.
Proof.
  induction body as [|c body IH]; intros H; [reflexivity|]. cbn [app skip_block].
  destruct ((c =? 42) && (char_at (body ++ 42 :: 47 :: s) 0 =? 47)) eqn:E; [|apply IH, (no_close_tail _ _ H)].
  exfalso. apply andb_true_iff in E as [E1 E2]. apply Z.eqb_eq in E1, E2. destruct body as [|d body]; [discriminate|]. cbn in E2. subst.
  exact (H [] body eq_refl).
Qed.

Lemma skip_block_open body : no_close body -> skip_block body = [].
Proof. intros H. destruct (skip_block_cases body) as [(b & s' & -> & _ & _)|[_ E]]; [destruct (H b s' eq_refl)|exact E]. Qed.

Lemma skip_line_cases s :
  (exists body s', s = body ++ 10 :: s' /\ no_newline body /\ skip_line s = s') \/ (no_newline s /\ skip_line s = []).
Proof.
  induction s as [|c s IH]; [right; split; [intros H; inversion H|reflexivity]|]. cbn [skip_line].
  destruct (Z.eqb_spec c 10) as [->|N]; [left; exists [], s; split; [reflexivity|split; [intros H; inversion H|reflexivity]]|].
  destruct IH as [(body & s' & -> & Hb & ->)|[Hn ->]]; [left; exists (c :: body), s'|right];
    (split; [reflexivity || (unfold no_newline; rewrite not_elem_of_cons; auto)|]); [split|]; try reflexivity.
  unfold no_newline. rewrite not_elem_of_cons. auto.
Qed.

Lemma skip_line_closed body s : no_newline body -> skip_line (body ++ 10 :: s) = s.
Proof.
  induction body as [|c body IH]; intros H; [reflexivity|]. unfold no_newline in H. rewrite not_elem_of_cons in H.
  cbn [app skip_line]. rewrite (proj2 (Z.eqb_neq _ _)) by (intros ->; apply (proj1 H); reflexivity). apply IH, H.
Qed.

Lemma skip_line_open body : no_newline body -> skip_line body = [].
Proof.
  intros H. destruct (skip_line_cases body) as [(b & s' & -> & _ & _)|[_ E]]; [|exact E].
  destruct H. apply elem_of_app. right. left.
Qed.

Lemma skip_block_length s : (length (skip_block s) <= length s)%nat.
Proof.
  destruct (skip_block_cases s) as [(b & s' & -> & _ & ->)|[_ ->]]; [rewrite length_app|]; cbn; lia.
Qed.
Lemma skip_line_length s : (length (skip_line s) <= length s)%nat.
Proof.
  destruct (skip_line_cases s) as [(b & s' & -> & _ & ->)|[_ ->]]; [rewrite length_app|]; cbn; lia.
Qed.

(** The scan ends, and accepts exactly the trivia. *)
Lemma scan_tail_spec fuel s : (length s < fuel)%nat ->
  exists b, scan_tail fuel s = Some b /\ (b = true <-> trivia s).
Proof.
  revert s. induction fuel as [|fuel IH]; intros s Hf; [lia|]. destruct s as [|c s]; cbn [scan_tail].
  { exists true. split; [reflexivity|]. split; [constructor|reflexivity]. }
  cbn in Hf. destruct (IS_SKIPPED c) eqn:Es.
  { destruct (IH s) as (b & E & Hb); [lia|]. exists b. split; [exact E|]. rewrite Hb. split; [apply trivia_skip, Es|].
    intros T. inversion T; subst; try assumption; discriminate. }
  destruct ((c =? 47) && (char_at s 0 =? 42)) eqn:E1.
  { apply andb_true_iff in E1 as [A B]. apply Z.eqb_eq in A, B. destruct s as [|d s]; [discriminate|]. cbn in B. subst.
    cbn [drop] in *. pose proof (skip_block_length s). destruct (IH (skip_block s)) as (b & E & Hb); [cbn in Hf; lia|].
    exists b. split; [exact E|]. rewrite Hb. split.
    - intros T. destruct (skip_block_cases s) as [(body & s' & -> & Hn & Es')|[Hn Es']]; rewrite Es' in T;
        [apply trivia_block|apply trivia_open]; assumption.
    - intros T. inversion T; subst; try discriminate; [rewrite skip_block_closed by assumption; assumption|].
      rewrite skip_block_open by assumption. constructor. }
  destruct ((c =? 45) && (char_at s 0 =? 45)) eqn:E2.
  { apply andb_true_iff in E2 as [A B]. apply Z.eqb_eq in A, B. destruct s as [|d s]; [discriminate|]. cbn in B. subst.
    cbn [drop] in *. pose proof (skip_line_length s). destruct (IH (skip_line s)) as (b & E & Hb); [cbn in Hf; lia|].
    exists b. split; [exact E|]. rewrite Hb. split.
    - intros T. destruct (skip_line_cases s) as [(body & s' & -> & Hn & Es')|[Hn Es']]; rewrite Es' in T;
        [apply trivia_line|apply trivia_last]; assumption.
    - intros T. inversion T; subst; try discriminate; [rewrite skip_line_closed by assumption; assumption|].
      rewrite skip_line_open by assumption. constructor. }
  exists false. split; [reflexivity|]. split; [discriminate|]. intros T. exfalso.
  inversion T; subst; cbn in *; congruence.
Qed.

Lemma tail_scan_total tail : exists b, tail_is_empty tail = Some b.
Proof. destruct (scan_tail_spec (S (length tail)) tail) as (b & E & _); [lia|eauto]. Qed.

(** C30: the check that SQL text holds one statement.  The scan of the text
    after the first statement ends for every text, and it accepts exactly blanks,
    semicolons and comments, where the last comment may be unterminated. *)
Theorem tail_scan_exact tail : exists b, tail_is_empty tail = Some b /\ (b = true <-> trivia tail).
Proof. apply scan_tail_spec. lia. Qed.
