(* ===== verification/NoriaJs.v ===== *)
(** * JavaScript values and the cache (noria.cpp, statement.cpp)

    The keys [get()] looks up in the cache, and the rows it builds from what
    the cache returns. *)
From stdpp Require Import gmap strings.
From S2P Require Import Prelude Double Value Record Strings Bind Js Noria.

Local Open Scope Z_scope.

(** [static_cast<int64_t>(d)] followed by the comparison with [d]; the cast of
    a value outside the type is undefined behaviour. *)
Definition number_key (d : Z) : option NoriaValue :=
  i ← int_of_double d;
  Some (if double_eq d (double_of_int i) then nv_integer i else nv_real d).

(** [V8ToNoriaKey(isolate, value, str_storage)]. *)
Definition V8ToNoriaKey (value : js_value) : option NoriaValue :=
  match value with
  | JNull | JUndefined => Some nv_zero
  | JNumber d => number_key d
  | JBigInt i => Some (nv_integer (fst (Int64Value i)))
  | JString z => Some (mkNV NORIA_TEXT 0 0 (Some z) (i32 (Zlen z)) None 0)
  | JBuffer z => Some (mkNV NORIA_BLOB 0 0 None 0 (Some z) (i32 (Zlen z)))
  | _ => Some nv_zero
  end.

(** The inner loop over an array argument; an element that throws is
    [ToLocalChecked] on an empty value, which ends the process. *)
Fixpoint array_keys (room : nat) (arr : list (option js_value)) : option (list NoriaValue) :=
  match room, arr with
  | O, _ | _, [] => Some []
  | S room, x :: arr =>
      elem ← x;
      k ← V8ToNoriaKey elem;
      ks ← array_keys room arr;
      Some (k :: ks)
  end.

(** The loop over the arguments: the keys set, with [room] positions left. *)
Fixpoint arg_keys (room : nat) (args : list js_value) : option (list NoriaValue) :=
  match room, args with
  | O, _ | _, [] => Some []
  | S room', arg :: args =>
      match arg with
      | JArray arr =>
          ks ← array_keys room arr;
          rest ← arg_keys (room - length ks) args;
          Some (ks ++ rest)
      | _ =>
          k ← V8ToNoriaKey arg;
          rest ← arg_keys room' args;
          Some (k :: rest)
      end
  end.

(** The vector [keys], zeroed where no argument sets it. *)
Definition noria_keys (param_count : Z) (args : list js_value) : option (list NoriaValue) :=
  let n := Z.to_nat param_count in
  ks ← arg_keys n args;
  Some (ks ++ replicate (n - length ks) nv_zero).

(** [NoriaValueToV8]: a text or blob reads [len] bytes of its pointer. *)
Definition NoriaValueToV8 (nv : NoriaValue) (safe_ints : bool) : option js_value :=
  let bytes (p : option (list Z)) (n : Z) :=
    match p with Some z => read_n n z | None => if n =? 0 then Some [] else None end in
  if nv_type nv =? NORIA_NULL then Some JNull
  else if nv_type nv =? NORIA_INTEGER then
    Some (if safe_ints then JBigInt (nv_int nv) else JNumber (double_of_int (nv_int nv)))
  else if nv_type nv =? NORIA_FLOAT then Some (JNumber (nv_float nv))
  else if nv_type nv =? NORIA_TEXT then z ← bytes (nv_text nv) (nv_text_len nv); Some (JString z)
  else if nv_type nv =? NORIA_BLOB then z ← bytes (nv_blob nv) (nv_blob_len nv); Some (JBuffer z)
  else Some JNull.

Fixpoint row_values (row : list NoriaValue) (safe_ints : bool) : option (list js_value) :=
  match row with
  | [] => Some []
  | nv :: row => v ← NoriaValueToV8 nv safe_ints; vs ← row_values row safe_ints; Some (v :: vs)
  end.

(** [NoriaRowToJS]: the row [row_index] of the container, which has the
    columns [row]; only as many columns as names are used.  Before Node 22 the
    properties are set one by one, from then on the object is made with them. *)
Definition NoriaRowToJS (rows : list (list NoriaValue)) (row_index : nat) (column_names : list (list Z))
    (safe_ints : bool) : option js_value :=
  let row := default [] (rows !! row_index) in
  if Zlen row <=? 0 then Some JNull
  else
    values ← row_values (take (length column_names) row) safe_ints;
    Some (fold_left (fun o kv => set_property o kv.1 kv.2) (zip column_names values) (JObject true [])).

Definition NoriaRowToJS_v22 (rows : list (list NoriaValue)) (row_index : nat) (column_names : list (list Z))
    (safe_ints : bool) : option js_value :=
  let row := default [] (rows !! row_index) in
  if Zlen row <=? 0 then Some JNull
  else
    values ← row_values row safe_ints;
    let n := Nat.min (length row) (length column_names) in
    Some (Object_New (take n column_names) (take n values)).

(** ** Laws *)

(** A value of the interface that reads as a value of SQLite. *)
Definition reads_as (v : sqlite3_value) (nv : NoriaValue) : Prop :=
  forall safe_ints, NoriaValueToV8 nv safe_ints = Some (GetValueJS v safe_ints).

Lemma column_reads v : reads_as v (SqliteColumnToNoriaValue v).
Proof.
  intros safe_ints. destruct v as [|i|r|z|z]; try reflexivity.
  - unfold NoriaValueToV8. cbn -[read_n Zlen]. rewrite read_n_all. reflexivity.
  - unfold NoriaValueToV8, SqliteColumnToNoriaValue. cbn -[read_n Zlen]. destruct z as [|c z]; [reflexivity|].
    change (truth (Zlen (c :: z))) with true. cbv iota. rewrite read_n_all. reflexivity.
Qed.

Lemma row_values_read vs nvs safe_ints : Forall2 reads_as vs nvs -> row_values nvs safe_ints = Some ((fun v => GetValueJS v safe_ints) <$> vs).
Proof.
  induction 1 as [|v nv vs nvs Hv _ IH]; [reflexivity|]. cbn [fmap list_fmap row_values].
  rewrite (Hv safe_ints). cbn [mbind option_bind]. rewrite IH. reflexivity.
Qed.

Lemma zip_set (f : column -> js_value) row o :
  fold_left (fun o kv => set_property o kv.1 kv.2) (zip (cl_name <$> row) (f <$> row)) o =
  fold_left (fun o c => set_property o (cl_name c) (f c)) row o.
Proof. revert o. induction row as [|c row IH]; intros o; [reflexivity|apply IH]. Qed.

(** A row whose values read as those of SQLite, under the statement's column
    names, becomes the object that the row of SQLite becomes. *)
Lemma row_to_js row nvs others safe_ints : row <> [] -> Forall2 reads_as (cl_value <$> row) nvs ->
  NoriaRowToJS (nvs :: others) 0 (cl_name <$> row) safe_ints = Some (GetFlatRowJS row safe_ints) /\
  NoriaRowToJS_v22 (nvs :: others) 0 (cl_name <$> row) safe_ints = Some (GetFlatRowJS_v22 row safe_ints).
Proof.
  intros Hr Hv. pose proof (row_values_read _ _ safe_ints Hv) as Hs. apply Forall2_length in Hv. rewrite length_fmap in Hv.
  unfold NoriaRowToJS, NoriaRowToJS_v22. cbn [lookup list_lookup default option_bind from_option]. unfold id. unfold Zlen.
  rewrite (proj2 (Z.leb_gt _ _)) by (destruct row, nvs; cbn in *; congruence || lia).
  rewrite take_ge by (rewrite length_fmap; lia). rewrite Hs. cbn [mbind option_bind]. rewrite <- list_fmap_compose. split; f_equal.
  - apply (zip_set (fun c => GetValueJS (cl_value c) safe_ints)).
  - rewrite length_fmap, Hv, Nat.min_id. rewrite !take_ge by (rewrite length_fmap; lia). reflexivity.
Qed.
