(* ===== verification/Addon.v ===== *)
(** * The objects of the addon (statement.hpp, database.hpp, statement-iterator.hpp, backup.hpp)

    One database connection with its statements, iterators and backups, the
    guards every method starts with (macros.cpp), and the protocol of a
    statement call (query-macros.cpp).

    A pointer to an object is its position in the list of its kind.  The handle
    of a statement is [None] once it is finalized; the use of a finalized
    statement or of a closed connection, and an [assert] that fails, are [None].
    User code can run inside a call at two places: before the connection is
    marked busy (a getter of an argument, the factory of a virtual table), and
    while SQLite executes (a logger, a user-defined function); what it does to
    the objects is a function of the call's [Reentry]. *)
From stdpp Require Import gmap strings.
From S2P Require Import Prelude Double Value Record Strings Bind Js Binder Noria NoriaSql NoriaJs StmtText.

Local Open Scope Z_scope.

Definition USHRT_MAX : Z := 2 ^ 16 - 1.

(** What a method gives back to its caller. *)
Inductive result :=
  | Returned (v : js_value)
  | ReturnedThis
  | ReturnedObject (ptr : nat)
  | Thrown (err : js_error).

(** ** Objects *)

(** [st_view], [st_columns], [st_type], [st_table] and [st_table_id] are the
    fields of [Extras]; [st_map] is [None] while [has_bind_map] is false. *)
Record Statement := mkStatement {
  st_handle : option Vdbe;
  st_id : Z;
  st_sql : list Z;
  st_alive : bool;
  st_locked : bool;
  st_bound : bool;
  st_map : option BindMap;
  st_safe_ints : bool;
  st_mode : Z;
  st_returns_data : bool;
  st_view : Z;
  st_columns : list (list Z);
  st_type : Z;
  st_table : list Z;
  st_table_id : Z
}.

Record StatementIterator := mkIter {
  si_stmt : nat;
  si_bound : bool;
  si_safe_ints : bool;
  si_mode : Z;
  si_alive : bool;
  si_logged : bool
}.

(** [bk_open] tells if the handle of the destination is open, [bk_file] if its
    file is there. *)
Record Backup := mkBackup {
  bk_id : Z;
  bk_alive : bool;
  bk_unlink : bool;
  bk_open : bool;
  bk_file : bool
}.

Section Objects.

Context {H : Type} `{NoriaFfi H}.

(** [db_handle] tells if the connection is open. *)
Record Database := mkDatabase {
  db_handle : bool;
  db_open : bool;
  db_busy : bool;
  db_safe_ints : bool;
  db_unsafe_mode : bool;
  db_was_js_error : bool;
  db_has_logger : bool;
  db_iterators : Z;
  db_stmts : list nat;
  db_backups : list nat;
  db_noria : option (Noria H)
}.

(** [w_registered]: the database is in [addon->dbs]. *)
Record World := mkWorld {
  w_db : Database;
  w_registered : bool;
  w_next_id : Z;
  w_stmts : list Statement;
  w_iters : list StatementIterator;
  w_backups : list Backup
}.

Definition set_db (w : World) (d : Database) : World :=
  mkWorld d (w_registered w) (w_next_id w) (w_stmts w) (w_iters w) (w_backups w).
Definition set_stmts (w : World) (l : list Statement) : World :=
  mkWorld (w_db w) (w_registered w) (w_next_id w) l (w_iters w) (w_backups w).
Definition set_iters (w : World) (l : list StatementIterator) : World :=
  mkWorld (w_db w) (w_registered w) (w_next_id w) (w_stmts w) l (w_backups w).
Definition set_backups (w : World) (l : list Backup) : World :=
  mkWorld (w_db w) (w_registered w) (w_next_id w) (w_stmts w) (w_iters w) l.

Definition set_busy (w : World) (b : bool) : World :=
  let d := w_db w in
  set_db w (mkDatabase (db_handle d) (db_open d) b (db_safe_ints d) (db_unsafe_mode d) (db_was_js_error d)
              (db_has_logger d) (db_iterators d) (db_stmts d) (db_backups d) (db_noria d)).
Definition set_js_error (w : World) (b : bool) : World :=
  let d := w_db w in
  set_db w (mkDatabase (db_handle d) (db_open d) (db_busy d) (db_safe_ints d) (db_unsafe_mode d) b
              (db_has_logger d) (db_iterators d) (db_stmts d) (db_backups d) (db_noria d)).
Definition set_iterators (w : World) (n : Z) : World :=
  let d := w_db w in
  set_db w (mkDatabase (db_handle d) (db_open d) (db_busy d) (db_safe_ints d) (db_unsafe_mode d) (db_was_js_error d)
              (db_has_logger d) n (db_stmts d) (db_backups d) (db_noria d)).
Definition set_noria (w : World) (n : option (Noria H)) : World :=
  let d := w_db w in
  set_db w (mkDatabase (db_handle d) (db_open d) (db_busy d) (db_safe_ints d) (db_unsafe_mode d) (db_was_js_error d)
              (db_has_logger d) (db_iterators d) (db_stmts d) (db_backups d) n).
Definition set_options (w : World) (safe_ints unsafe_mode : bool) : World :=
  let d := w_db w in
  set_db w (mkDatabase (db_handle d) (db_open d) (db_busy d) safe_ints unsafe_mode (db_was_js_error d)
              (db_has_logger d) (db_iterators d) (db_stmts d) (db_backups d) (db_noria d)).
Definition set_lists (w : World) (stmts backups : list nat) : World :=
  let d := w_db w in
  set_db w (mkDatabase (db_handle d) (db_open d) (db_busy d) (db_safe_ints d) (db_unsafe_mode d) (db_was_js_error d)
              (db_has_logger d) (db_iterators d) stmts backups (db_noria d)).

Definition put_stmt (w : World) (i : nat) (st : Statement) : World := set_stmts w (<[i := st]> (w_stmts w)).
Definition put_iter (w : World) (i : nat) (it : StatementIterator) : World := set_iters w (<[i := it]> (w_iters w)).

Definition with_handle (st : Statement) (h : option Vdbe) : Statement :=
  mkStatement h (st_id st) (st_sql st) (st_alive st) (st_locked st) (st_bound st) (st_map st) (st_safe_ints st)
    (st_mode st) (st_returns_data st) (st_view st) (st_columns st) (st_type st) (st_table st) (st_table_id st).
Definition with_map (st : Statement) (m : option BindMap) : Statement :=
  mkStatement (st_handle st) (st_id st) (st_sql st) (st_alive st) (st_locked st) (st_bound st) m (st_safe_ints st)
    (st_mode st) (st_returns_data st) (st_view st) (st_columns st) (st_type st) (st_table st) (st_table_id st).
Definition with_flags (st : Statement) (alive locked bound : bool) : Statement :=
  mkStatement (st_handle st) (st_id st) (st_sql st) alive locked bound (st_map st) (st_safe_ints st)
    (st_mode st) (st_returns_data st) (st_view st) (st_columns st) (st_type st) (st_table st) (st_table_id st).
Definition with_options (st : Statement) (safe_ints : bool) (mode : Z) : Statement :=
  mkStatement (st_handle st) (st_id st) (st_sql st) (st_alive st) (st_locked st) (st_bound st) (st_map st) safe_ints
    mode (st_returns_data st) (st_view st) (st_columns st) (st_type st) (st_table st) (st_table_id st).
Definition with_view (st : Statement) (view : Z) (columns : list (list Z)) : Statement :=
  mkStatement (st_handle st) (st_id st) (st_sql st) (st_alive st) (st_locked st) (st_bound st) (st_map st) (st_safe_ints st)
    (st_mode st) (st_returns_data st) view columns (st_type st) (st_table st) (st_table_id st).
Definition with_type (st : Statement) (type : Z) (table : list Z) : Statement :=
  mkStatement (st_handle st) (st_id st) (st_sql st) (st_alive st) (st_locked st) (st_bound st) (st_map st) (st_safe_ints st)
    (st_mode st) (st_returns_data st) (st_view st) (st_columns st) type table (st_table_id st).

(** ** Guards (macros.cpp) *)

Definition not_open : js_error := TypeError "The database connection is not open".
Definition db_is_busy : js_error := TypeError "This database connection is busy executing a query".
Definition stmt_is_busy : js_error := TypeError "This statement is busy executing a query".

(** Each guard is the error it throws, or [None]; the first error counts. *)
Definition REQUIRE_DATABASE_OPEN (w : World) : option js_error := if db_open (w_db w) then None else Some not_open.
Definition REQUIRE_DATABASE_NOT_BUSY (w : World) : option js_error := if db_busy (w_db w) then Some db_is_busy else None.
Definition REQUIRE_DATABASE_NO_ITERATORS (w : World) : option js_error :=
  if truth (db_iterators (w_db w)) then Some db_is_busy else None.
Definition REQUIRE_DATABASE_NO_ITERATORS_UNLESS_UNSAFE (w : World) : option js_error :=
  if negb (db_unsafe_mode (w_db w)) then REQUIRE_DATABASE_NO_ITERATORS w else None.
Definition REQUIRE_STATEMENT_NOT_LOCKED (st : Statement) : option js_error :=
  if st_locked st then Some stmt_is_busy else None.

Definition first_error (gs : list (option js_error)) : option js_error := head (omap id gs).

(** An optional boolean argument, [true] if there is none. *)
Definition flag_argument (args : list js_value) : bool + js_error :=
  match args with
  | [] => inl true
  | JBoolean b :: _ => inl b
  | _ => inr (TypeError "Expected first argument to be a boolean")
  end.

(** ** What the outside decides about a call *)

(** What user code does while the arguments are read or SQL text is compiled,
    and what it does and the hooks record while SQLite executes. *)
Record Reentry := mkReentry {
  re_reads : World -> option World;
  re_engine : World -> option World
}.

Record CallEnv := mkCallEnv {
  cv_bind : BindEnv;
  cv_log_throws : bool;             (* the logger throws *)
  cv_js_error : bool;               (* a user-defined function has thrown *)
  cv_rows : list (list column);     (* the rows sqlite3_step delivers *)
  cv_status : Z;                    (* what ends them, and sqlite3_reset *)
  cv_errcode : Z;                   (* sqlite3_extended_errcode *)
  cv_changed : bool;                (* sqlite3_total_changes has changed *)
  cv_changes : Z;                   (* sqlite3_changes *)
  cv_rowid : Z;                     (* sqlite3_last_insert_rowid *)
  cv_auto_before : bool;            (* sqlite3_get_autocommit before *)
  cv_auto_after : bool;             (* and after the execution *)
  cv_cdc : CdcEnv
}.

(** ** Errors (database.cpp) *)

(** [ThrowSqliteError(addon, message, code)] *)
Definition ThrowSqliteError (code : Z) : option js_error :=
  let c := Z.land code 0xff in
  if (c =? SQLITE_OK) || (c =? SQLITE_ROW) || (c =? SQLITE_DONE) then None else Some (SqliteError code).

(** [ThrowDatabaseError]; the message is read from the connection. *)
Definition ThrowDatabaseError (e : CallEnv) (w : World) : option (World * js_error) :=
  if db_was_js_error (w_db w) then Some (set_js_error w false, UserError)
  else if negb (db_handle (w_db w)) then None
  else err ← ThrowSqliteError (cv_errcode e); Some (w, err).

(** [Database::Log] of a statement whose handle is [live] or not: whether the
    logger, which [throws] or not, has thrown. *)
Definition Log (throws : bool) (re : Reentry) (w : World) (live : bool) : option (World * bool) :=
  if db_was_js_error (w_db w) then None
  else if negb (db_has_logger (w_db w)) then Some (w, false)
  else if negb live then None
  else w ← re_engine re w; Some (set_js_error w throws, throws).

(** [db->Log(isolate, handle)] of a statement. *)
Definition Log_stmt (e : CallEnv) (re : Reentry) (w : World) (this : nat) : option (World * bool) :=
  st ← w_stmts w !! this;
  Log (cv_log_throws e) re w (bool_decide (is_Some (st_handle st))).

(** ** The protocol of a statement call (query-macros.cpp) *)

(** [sqlite3_clear_bindings(handle)]. *)
Definition clear_bindings (w : World) (this : nat) : option World :=
  st ← w_stmts w !! this;
  p ← st_handle st;
  Some (put_stmt w this (with_handle st (Some (sqlite3_clear_bindings p)))).

(** [STATEMENT_BIND]: the error the binder has thrown, if any.  The user code
    that the reads of the arguments run comes before the values are bound. *)
Definition STATEMENT_BIND (e : CallEnv) (re : Reentry) (w : World) (this : nat) (args : list js_value)
    : option (World * option js_error) :=
  w ← re_reads re w;
  st ← w_stmts w !! this;
  p ← st_handle st;
  b ← Bind_ (cv_bind e) (Binder_new p (st_map st)) args;
  let w := put_stmt w this (with_map (with_handle st (Some (bd_handle b))) (bd_map b)) in
  match bd_error b with
  | None => Some (w, None)
  | Some err => w ← clear_bindings w this; Some (w, Some err)
  end.

Inductive mutate_check := DOES_NOT_MUTATE | DOES_MUTATE | DOES_ADD_ITERATOR.

Definition check_mutate (m : mutate_check) (w : World) (st : Statement) : option js_error :=
  match m with
  | DOES_NOT_MUTATE => REQUIRE_STATEMENT_NOT_LOCKED st
  | DOES_MUTATE => first_error [REQUIRE_STATEMENT_NOT_LOCKED st; REQUIRE_DATABASE_NO_ITERATORS_UNLESS_UNSAFE w]
  | DOES_ADD_ITERATOR =>
      first_error [REQUIRE_STATEMENT_NOT_LOCKED st;
                   if db_iterators (w_db w) =? USHRT_MAX then Some (RangeError "Too many active database iterators") else None]
  end.

(** [REQUIRE_STATEMENT_RETURNS_DATA] or [ALLOW_ANY_STATEMENT]. *)
Definition check_data (needs_data : bool) (st : Statement) : option js_error :=
  if needs_data && negb (st_returns_data st)
  then Some (TypeError "This statement does not return data. Use run() instead") else None.

(** [STATEMENT_START_LOGIC]: the local [bound], or the error. *)
Definition STATEMENT_START_LOGIC (needs_data : bool) (m : mutate_check) (e : CallEnv) (re : Reentry) (w : World)
    (this : nat) (args : list js_value) : option (World * (bool + js_error)) :=
  st ← w_stmts w !! this;
  match first_error [check_data needs_data st; REQUIRE_DATABASE_OPEN w; REQUIRE_DATABASE_NOT_BUSY w; check_mutate m w st] with
  | Some err => Some (w, inr err)
  | None =>
      let bound := st_bound st in
      if negb bound then
        '(w, err) ← STATEMENT_BIND e re w this args;
        Some (w, match err with Some err => inr err | None => inl bound end)
      else if 0 <? Zlen args then Some (w, inr (TypeError "This statement already has bound parameters"))
      else Some (w, inl bound)
  end.

Definition unless_bound (w : World) (this : nat) (bound : bool) : option World :=
  if bound then Some w else clear_bindings w this.

Definition STATEMENT_THROW_LOGIC (e : CallEnv) (w : World) (this : nat) (bound : bool) : option (World * js_error) :=
  '(w, err) ← ThrowDatabaseError e w;
  w ← unless_bound w this bound;
  Some (w, err).

Definition STATEMENT_THROW (e : CallEnv) (w : World) (this : nat) (bound : bool) : option (World * js_error) :=
  STATEMENT_THROW_LOGIC e (set_busy w false) this bound.

Definition STATEMENT_RETURN (w : World) (this : nat) (bound : bool) (v : js_value) : option (World * result) :=
  w ← unless_bound (set_busy w false) this bound;
  Some (w, Returned v).

Definition STATEMENT_START (needs_data : bool) (m : mutate_check) (e : CallEnv) (re : Reentry) (w : World)
    (this : nat) (args : list js_value) : option (World * (bool + js_error)) :=
  '(w, r) ← STATEMENT_START_LOGIC needs_data m e re w this args;
  match r with
  | inr err => Some (w, inr err)
  | inl bound =>
      '(w, threw) ← Log_stmt e re (set_busy w true) this;
      if threw : bool
      then '(w, err) ← STATEMENT_THROW e w this bound; Some (w, inr err)
      else Some (w, inl bound)
  end.

(** [sqlite3_step(handle)]: the statement runs, and user code with it. *)
Definition set_ready (p : Vdbe) (b : bool) : Vdbe :=
  mkVdbe (vd_db p) b (vd_nVar p) (vd_aVar p) (vd_pVList p) (vd_expmask p) (vd_expired p).

Definition mark_ready (w : World) (this : nat) (b : bool) : option World :=
  st ← w_stmts w !! this;
  p ← st_handle st;
  Some (put_stmt w this (with_handle st (Some (set_ready p b)))).

Definition step_stmt (e : CallEnv) (re : Reentry) (w : World) (this : nat) : option World :=
  w ← mark_ready w this false;
  w ← re_engine re w;
  Some (set_js_error w (db_was_js_error (w_db w) || cv_js_error e)).

(** [sqlite3_reset(handle)]. *)
Definition reset_stmt (w : World) (this : nat) : option World := mark_ready w this true.

End Objects.

Arguments World : clear implicits.
Arguments Database : clear implicits.
Arguments Reentry : clear implicits.
