(* ===== verification/StatementOps.v ===== *)
(** * The methods of statements and iterators (statement.cpp, statement-iterator.cpp)

    Each method is a function of the world of objects and of what SQLite and user
    code do during the call; its result is the value returned or thrown. *)
From stdpp Require Import gmap strings.
From S2P Require Import Prelude Double Value Record Strings Bind Js Binder Noria NoriaSql NoriaJs StmtText Addon.

Local Open Scope Z_scope.

(** What the outside decides when a statement is prepared. *)
Record PrepareEnv := mkPrepareEnv {
  pe_status : Z;                    (* sqlite3_prepare_v3 *)
  pe_handle : option Vdbe;          (* the statement, none for empty text *)
  pe_sql : list Z;                  (* its text *)
  pe_tail : list Z;                 (* the text after it *)
  pe_columns : list (list Z);       (* the names of its columns *)
  pe_errcode : Z;
  pe_schema : SchemaEnv;
  pe_malloc : option Z
}.

(** What [sqlite3_column_*name] and [sqlite3_column_decltype] give. *)
Record ColumnInfo := mkColumnInfo {
  ci_name : option (list Z);
  ci_origin : option (list Z);
  ci_table : option (list Z);
  ci_database : option (list Z);
  ci_decltype : option (list Z)
}.

Section Methods.

Context {H : Type} `{NoriaFfi H}.

(** ** Construction *)

(** [CacheColumnNames] and [TryRegisterNoriaView], for the connection's cache. *)
Definition CacheColumnNames (pe : PrepareEnv) (st : Statement) (view : Z) : Statement := with_view st view (pe_columns pe).

Definition TryRegisterNoriaView (pe : PrepareEnv) (w : World H) (st : Statement) : World H * Statement :=
  if negb (st_returns_data st) then (w, st)
  else if 0 <=? st_view st then (w, st)
  else
    match db_noria (w_db w) with
    | None => (w, st)
    | Some n =>
        if negb (IsEnabled n) then (w, st)
        else
          let '(n, view_id) := RegisterView (pe_schema pe) (pe_malloc pe) n (st_sql st) in
          let w := set_noria w (Some n) in
          if 0 <=? view_id then (w, CacheColumnNames pe st view_id) else (w, st)
    end.

(** The constructor and [db->AddStatement(this)], with its [assert]s; [Extras]
    starts without a view, as [STMT_OTHER], with the table unchecked. *)
Definition Statement_new (w : World H) (handle : Vdbe) (sql : list Z) (returns_data : bool) : option (World H * nat) :=
  let d := w_db w in
  if negb (db_open d) || db_busy d then None
  else
    let this := length (w_stmts w) in
    let st := mkStatement (Some handle) (w_next_id w) sql true false false None (db_safe_ints d) FLAT returns_data
                (-1) [] STMT_OTHER [] (-1) in
    let w := mkWorld (w_db w) (w_registered w) (w_next_id w + 1) (w_stmts w ++ [st]) (w_iters w) (w_backups w) in
    Some (set_lists w (db_stmts d ++ [this]) (db_backups d), this).

(** [Statement::JS_new], which [db.prepare(source, database, pragmaMode)] calls;
    compiling the text can run the factory of a virtual table. *)
Definition Statement_JS_new (pe : PrepareEnv) (re : Reentry H) (w : World H) (pragmaMode : bool) : option (World H * result) :=
  match first_error [REQUIRE_DATABASE_OPEN w; REQUIRE_DATABASE_NOT_BUSY w;
                     if pragmaMode then REQUIRE_DATABASE_NO_ITERATORS_UNLESS_UNSAFE w else None] with
  | Some err => Some (w, Thrown err)
  | None =>
      w ← re_reads re w;
      if negb (db_handle (w_db w)) then None
      else if negb (pe_status pe =? SQLITE_OK) then
        (if db_was_js_error (w_db w) then Some (set_js_error w false, Thrown UserError)
         else err ← ThrowSqliteError (pe_errcode pe); Some (w, Thrown err))
      else
        match pe_handle pe with
        | None => Some (w, Thrown (RangeError "The supplied SQL string contains no statements"))
        | Some handle =>
            ok ← tail_is_empty (pe_tail pe);
            if negb ok then Some (w, Thrown (RangeError "The supplied SQL string contains more than one statement"))
            else
              let returns_data := (1 <=? Zlen (pe_columns pe)) || pragmaMode in
              '(w, this) ← Statement_new w handle (pe_sql pe) returns_data;
              st ← w_stmts w !! this;
              let '(w, st) := if returns_data && negb pragmaMode then TryRegisterNoriaView pe w st else (w, st) in
              let st :=
                if negb returns_data
                then let '(type, table) := DetectStatementType (Some (st_sql st)) in
                     with_type st type (default (st_table st) table)
                else st in
              Some (put_stmt w this st, ReturnedObject this)
        end
  end.

(** ** Closing *)

(** [Statement::CloseHandles]. *)
Definition Statement_CloseHandles (st : Statement) : Statement :=
  if st_alive st then with_flags (with_handle st None) false (st_locked st) (st_bound st) else st.

(** The destructor. *)
Definition Statement_destroy (w : World H) (this : nat) : option (World H) :=
  st ← w_stmts w !! this;
  let w := if st_alive st
           then set_lists w (filter (fun i => i <> this) (db_stmts (w_db w))) (db_backups (w_db w)) else w in
  Some (put_stmt w this (Statement_CloseHandles st)).

(** ** Notification *)

(** [Statement::NotifyCdc], built with the session extension. *)
Definition NotifyCdc (e : CallEnv) (w : World H) : option (World H) :=
  match db_noria (w_db w) with
  | None => Some w
  | Some n =>
      if negb (HasAnyViews n) then Some w
      else n ← NotifyChange (cv_cdc e) n; Some (set_noria w (Some n))
  end.

(** ** run *)

(** Whether [run] notifies the cache after a successful execution. *)
Definition run_notifies (e : CallEnv) (st : Statement) (changes : Z) : bool :=
  if (0 <? changes) && negb (st_table_id st =? -2) && (STMT_INSERT <=? st_type st) && (st_type st <=? STMT_DELETE)
  then true
  else negb (cv_auto_before e) && cv_auto_after e.

Definition run_info (changes id : Z) (safe_ints : bool) : js_value :=
  JObject true
    [(str "changes", Some (JNumber (double_of_int changes)));
     (str "lastInsertRowid", Some (if safe_ints then JBigInt id else JNumber (double_of_int id)))].

Definition JS_run (e : CallEnv) (re : Reentry H) (w : World H) (this : nat) (args : list js_value)
    : option (World H * result) :=
  '(w, r) ← STATEMENT_START false DOES_MUTATE e re w this args;
  match r with
  | inr err => Some (w, Thrown err)
  | inl bound =>
      if negb (db_handle (w_db w)) then None
      else
        w ← step_stmt e re w this;
        w ← reset_stmt w this;
        if cv_status e =? SQLITE_OK then
          let changes := if cv_changed e then cv_changes e else 0 in
          st ← w_stmts w !! this;
          w ← (if run_notifies e st changes then NotifyCdc e w else Some w);
          STATEMENT_RETURN w this bound (run_info changes (cv_rowid e) (st_safe_ints st))
        else '(w, err) ← STATEMENT_THROW e w this bound; Some (w, Thrown err)
  end.

(** ** get *)

(** [TryNoriaGet]: the value it returned to the caller, if it served the call. *)
Definition TryNoriaGet (e : CallEnv) (w : World H) (this : nat) (args : list js_value) (consistent_read : bool)
    : option (World H * option js_value) :=
  st ← w_stmts w !! this;
  if st_view st <? 0 then Some (w, None)
  else if negb (st_mode st =? FLAT) then Some (w, None)
  else
    match db_noria (w_db w) with
    | None => Some (w, None)
    | Some n =>
        if negb (IsEnabled n) then Some (w, None)
        else
          n ← (if consistent_read then '(n, _) ← Flush (cv_cdc e) n; Some n else Some n);
          p ← st_handle st;
          keys ← noria_keys (sqlite3_bind_parameter_count (Some p)) args;
          let '(n, r) := LookupOrUpquery n (st_view st) keys in
          let w := set_noria w (Some n) in
          if (lr_found r =? 0) && (lr_row_count r =? 0) then Some (w, None)
          else if lr_row_count r =? 0 then Some (w, Some JUndefined)
          else
            rows ← lr_rows r;
            v ← NoriaRowToJS rows 0 (st_columns st) (st_safe_ints st);
            Some (w, Some v)
    end.

Definition JS_get (e : CallEnv) (re : Reentry H) (w : World H) (this : nat) (args : list js_value)
    : option (World H * result) :=
  '(w, r) ← STATEMENT_START true DOES_NOT_MUTATE e re w this args;
  match r with
  | inr err => Some (w, Thrown err)
  | inl bound =>
      '(w, served) ← TryNoriaGet e w this args false;
      match served with
      | Some v => w ← unless_bound w this bound; Some (set_busy w false, Returned v)
      | None =>
          w ← step_stmt e re w this;
          st ← w_stmts w !! this;
          match cv_rows e with
          | row :: _ =>
              v ← GetRowJS row (st_safe_ints st) (st_mode st);
              w ← reset_stmt w this;
              STATEMENT_RETURN w this bound v
          | [] =>
              w ← reset_stmt w this;
              if cv_status e =? SQLITE_DONE then STATEMENT_RETURN w this bound JUndefined
              else '(w, err) ← STATEMENT_THROW e w this bound; Some (w, Thrown err)
          end
      end
  end.

(** ** all *)

Definition ARRAY_MAX : Z := 0xffffffff.

Fixpoint rows_js (rows : list (list column)) (safe_ints : bool) (mode : Z) : option (list js_value) :=
  match rows with
  | [] => Some []
  | row :: rows => v ← GetRowJS_v22 row safe_ints mode; vs ← rows_js rows safe_ints mode; Some (v :: vs)
  end.

(** The loop before Node 22: the rows set in the array, and [js_error]. *)
Fixpoint all_rows (rows : list (list column)) (row_count : Z) (safe_ints : bool) (mode : Z) : option (list js_value * bool) :=
  match rows with
  | [] => Some ([], false)
  | row :: rows =>
      if row_count =? ARRAY_MAX then Some ([], true)
      else
        v ← GetRowJS row safe_ints mode;
        '(vs, js_error) ← all_rows rows (row_count + 1) safe_ints mode;
        Some (v :: vs, js_error)
  end.

Definition js_array (vs : list js_value) : js_value := JArray (Some <$> vs).

Definition too_many_rows : js_error := RangeError "Array overflow (too many rows returned)".

Definition JS_all (e : CallEnv) (re : Reentry H) (w : World H) (this : nat) (args : list js_value)
    : option (World H * result) :=
  '(w, r) ← STATEMENT_START true DOES_NOT_MUTATE e re w this args;
  match r with
  | inr err => Some (w, Thrown err)
  | inl bound =>
      st ← w_stmts w !! this;
      w ← step_stmt e re w this;
      '(vs, js_error) ← all_rows (cv_rows e) 0 (st_safe_ints st) (st_mode st);
      w ← reset_stmt w this;
      if (cv_status e =? SQLITE_OK) && negb js_error then STATEMENT_RETURN w this bound (js_array vs)
      else
        let w := if js_error : bool then set_js_error w true else w in
        '(w, err) ← STATEMENT_THROW e w this bound;
        Some (w, Thrown (if js_error then too_many_rows else err))
  end.

(** The same from Node 22 on. *)
Definition JS_all_v22 (e : CallEnv) (re : Reentry H) (w : World H) (this : nat) (args : list js_value)
    : option (World H * result) :=
  '(w, r) ← STATEMENT_START true DOES_NOT_MUTATE e re w this args;
  match r with
  | inr err => Some (w, Thrown err)
  | inl bound =>
      st ← w_stmts w !! this;
      w ← step_stmt e re w this;
      vs ← (if st_mode st =? FLAT then Some (build_rows (RowBuilder_new (st_safe_ints st)) (cv_rows e))
            else rows_js (cv_rows e) (st_safe_ints st) (st_mode st));
      w ← reset_stmt w this;
      if cv_status e =? SQLITE_OK then
        if ARRAY_MAX <? Zlen vs then
          '(w, err) ← STATEMENT_THROW e (set_js_error w true) this bound;
          Some (w, Thrown too_many_rows)
        else STATEMENT_RETURN w this bound (js_array vs)
      else '(w, err) ← STATEMENT_THROW e w this bound; Some (w, Thrown err)
  end.

(** ** bind, pluck, expand, raw, safeIntegers, columns, busy *)

Definition JS_bind (e : CallEnv) (re : Reentry H) (w : World H) (this : nat) (args : list js_value)
    : option (World H * result) :=
  st ← w_stmts w !! this;
  match first_error [if st_bound st
                     then Some (TypeError "The bind() method can only be invoked once per statement object") else None;
                     REQUIRE_DATABASE_OPEN w; REQUIRE_DATABASE_NOT_BUSY w; REQUIRE_STATEMENT_NOT_LOCKED st] with
  | Some err => Some (w, Thrown err)
  | None =>
      '(w, err) ← STATEMENT_BIND e re w this args;
      match err with
      | Some err => Some (w, Thrown err)
      | None =>
          st ← w_stmts w !! this;
          Some (put_stmt w this (with_flags st (st_alive st) (st_locked st) true), ReturnedThis)
      end
  end.

(** The three methods that set the mode of the rows. *)
Definition set_mode (mode : Z) (name : string) (w : World H) (this : nat) (args : list js_value) : option (World H * result) :=
  st ← w_stmts w !! this;
  match first_error [if st_returns_data st then None else Some (TypeError name);
                     REQUIRE_DATABASE_NOT_BUSY w; REQUIRE_STATEMENT_NOT_LOCKED st] with
  | Some err => Some (w, Thrown err)
  | None =>
      match flag_argument args with
      | inr err => Some (w, Thrown err)
      | inl use =>
          let m := if use : bool then mode else if st_mode st =? mode then FLAT else st_mode st in
          Some (put_stmt w this (with_options st (st_safe_ints st) m), ReturnedThis)
      end
  end.

Definition JS_pluck : World H -> nat -> list js_value -> option (World H * result) :=
  set_mode PLUCK "The pluck() method is only for statements that return data".
Definition JS_expand : World H -> nat -> list js_value -> option (World H * result) :=
  set_mode EXPAND "The expand() method is only for statements that return data".
Definition JS_raw : World H -> nat -> list js_value -> option (World H * result) :=
  set_mode RAW "The raw() method is only for statements that return data".

Definition JS_safeIntegers (w : World H) (this : nat) (args : list js_value) : option (World H * result) :=
  st ← w_stmts w !! this;
  match first_error [REQUIRE_DATABASE_NOT_BUSY w; REQUIRE_STATEMENT_NOT_LOCKED st] with
  | Some err => Some (w, Thrown err)
  | None =>
      match flag_argument args with
      | inr err => Some (w, Thrown err)
      | inl b => Some (put_stmt w this (with_options st b (st_mode st)), ReturnedThis)
      end
  end.

Definition InternalizedFromUtf8OrNull (data : option (list Z)) : js_value :=
  match data with None => JNull | Some z => JString z end.

Definition column_object (c : ColumnInfo) : js_value :=
  Object_New [str "name"; str "column"; str "table"; str "database"; str "type"]
    [InternalizedFromUtf8OrNull (ci_name c); InternalizedFromUtf8OrNull (ci_origin c);
     InternalizedFromUtf8OrNull (ci_table c); InternalizedFromUtf8OrNull (ci_database c);
     InternalizedFromUtf8OrNull (ci_decltype c)].

Definition JS_columns (infos : list ColumnInfo) (w : World H) (this : nat) : option (World H * result) :=
  st ← w_stmts w !! this;
  match first_error [if st_returns_data st then None
                     else Some (TypeError "The columns() method is only for statements that return data");
                     REQUIRE_DATABASE_OPEN w; REQUIRE_DATABASE_NOT_BUSY w] with
  | Some err => Some (w, Thrown err)
  | None => _ ← st_handle st; Some (w, Returned (js_array (column_object <$> infos)))
  end.

Definition JS_busy (w : World H) (this : nat) : option bool :=
  st ← w_stmts w !! this; Some (st_alive st && st_locked st).

(** ** Iterators (statement-iterator.cpp) *)

(** The constructor, with its [assert]s. *)
Definition StatementIterator_new (w : World H) (stmt : nat) (bound : bool) : option (World H * nat) :=
  st ← w_stmts w !! stmt;
  let d := w_db w in
  if negb (eqb (st_bound st) bound) || negb (st_alive st) || st_locked st || negb (db_iterators d <? USHRT_MAX) then None
  else
    let this := length (w_iters w) in
    let it := mkIter stmt bound (st_safe_ints st) (st_mode st) true (negb (db_has_logger d)) in
    let w := put_stmt w stmt (with_flags st (st_alive st) true (st_bound st)) in
    let w := set_iterators w (u16 (db_iterators d + 1)) in
    Some (set_iters w (w_iters w ++ [it]), this).

(** [JS_iterate], which calls [StatementIterator::JS_new]. *)
Definition JS_iterate (e : CallEnv) (re : Reentry H) (w : World H) (this : nat) (args : list js_value)
    : option (World H * result) :=
  '(w, r) ← STATEMENT_START_LOGIC true DOES_ADD_ITERATOR e re w this args;
  match r with
  | inr err => Some (w, Thrown err)
  | inl bound => '(w, it) ← StatementIterator_new w this bound; Some (w, ReturnedObject it)
  end.

Definition NewRecord (value : js_value) (done : bool) : js_value :=
  JObject true [(str "value", Some value); (str "done", Some (JBoolean done))].

Definition DoneRecord : js_value := NewRecord JUndefined true.

Definition Cleanup (w : World H) (this : nat) : option (World H) :=
  it ← w_iters w !! this;
  if negb (si_alive it) then None
  else
    let w := put_iter w this (mkIter (si_stmt it) (si_bound it) (si_safe_ints it) (si_mode it) false (si_logged it)) in
    st ← w_stmts w !! si_stmt it;
    let w := put_stmt w (si_stmt it) (with_flags st (st_alive st) false (st_bound st)) in
    let w := set_iterators w (u16 (db_iterators (w_db w) - 1)) in
    reset_stmt w (si_stmt it).

Definition Iterator_Return (w : World H) (this : nat) : option (World H * result) :=
  it ← w_iters w !! this;
  w ← Cleanup w this;
  w ← unless_bound w (si_stmt it) (si_bound it);
  Some (w, Returned DoneRecord).

Definition Iterator_Throw (e : CallEnv) (w : World H) (this : nat) : option (World H * result) :=
  it ← w_iters w !! this;
  w ← Cleanup w this;
  '(w, err) ← STATEMENT_THROW_LOGIC e w (si_stmt it) (si_bound it);
  Some (w, Thrown err).

(** [sqlite3_step] delivers the first of [cv_rows], or ends with [cv_status]. *)
Definition Iterator_Next (e : CallEnv) (re : Reentry H) (w : World H) (this : nat) : option (World H * result) :=
  it ← w_iters w !! this;
  if negb (si_alive it) then None
  else
    let w := set_busy w true in
    '(w, threw) ←
      (if si_logged it then Some (w, false)
       else
         let w := put_iter w this (mkIter (si_stmt it) (si_bound it) (si_safe_ints it) (si_mode it) (si_alive it) true) in
         Log_stmt e re w (si_stmt it));
    if threw : bool then Iterator_Throw e (set_busy w false) this
    else
      w ← step_stmt e re w (si_stmt it);
      let w := set_busy w false in
      match cv_rows e with
      | row :: _ =>
          v ← GetRowJS row (si_safe_ints it) (si_mode it);
          Some (w, Returned (NewRecord v false))
      | [] => if cv_status e =? SQLITE_DONE then Iterator_Return w this else Iterator_Throw e w this
      end.

Definition JS_next (e : CallEnv) (re : Reentry H) (w : World H) (this : nat) : option (World H * result) :=
  it ← w_iters w !! this;
  match REQUIRE_DATABASE_NOT_BUSY w with
  | Some err => Some (w, Thrown err)
  | None => if si_alive it then Iterator_Next e re w this else Some (w, Returned DoneRecord)
  end.

Definition JS_return (w : World H) (this : nat) : option (World H * result) :=
  it ← w_iters w !! this;
  match REQUIRE_DATABASE_NOT_BUSY w with
  | Some err => Some (w, Thrown err)
  | None => if si_alive it then Iterator_Return w this else Some (w, Returned DoneRecord)
  end.

Definition JS_symbolIterator (w : World H) (this : nat) : option (World H * result) := Some (w, ReturnedThis).

End Methods.
