(* ===== verification/DatabaseOps.v ===== *)
(** * The methods of the database and of backups (database.cpp, backup.cpp, addon.cpp)

    Opening and closing a connection, running SQL text, registering user-defined
    functions, the options, and backups. *)
From stdpp Require Import gmap strings.
From S2P Require Import Prelude Double Value Codes Record Strings Session Bind Js Binder Noria NoriaSql NoriaJs StmtText Addon StatementOps.

Local Open Scope Z_scope.

(** ** Constants *)

Definition SQLITE_OPEN_READONLY : Z := 1.
Definition SQLITE_OPEN_READWRITE : Z := 2.
Definition SQLITE_OPEN_CREATE : Z := 4.
Definition SQLITE_DESERIALIZE_FREEONCLOSE : Z := 1.
Definition SQLITE_DESERIALIZE_RESIZEABLE : Z := 2.
Definition SQLITE_DESERIALIZE_READONLY : Z := 4.
Definition SQLITE_UTF8 : Z := 1.
Definition SQLITE_DETERMINISTIC : Z := 0x800.
Definition SQLITE_DIRECTONLY : Z := 0x80000.

(** [MAX_BUFFER_SIZE] and [MAX_STRING_SIZE] for given limits of the platform. *)
Definition clamp_int (kMaxLength : Z) : Z := if INT_MAX <? kMaxLength then INT_MAX else kMaxLength.

(** ** Arguments (macros.cpp) *)

Definition arg_string (args : list js_value) (i : nat) (m : string) : list Z + js_error :=
  match args !! i with Some (JString z) => inl z | _ => inr (TypeError m) end.
Definition arg_boolean (args : list js_value) (i : nat) (m : string) : bool + js_error :=
  match args !! i with Some (JBoolean b) => inl b | _ => inr (TypeError m) end.
Definition arg_object (args : list js_value) (i : nat) (m : string) : js_value + js_error :=
  match args !! i with
  | Some v => if IsObject v then inl v else inr (TypeError m)
  | None => inr (TypeError m)
  end.

(** A number is an [Int32] if it is the double of a 32-bit integer; negative zero
    is not. *)
Definition arg_int32 (args : list js_value) (i : nat) (m : string) : Z + js_error :=
  match args !! i with
  | Some (JNumber r) =>
      match int_of_double r with
      | Some n => if (- 2 ^ 31 <=? n) && (n <? 2 ^ 31) && (double_of_int n =? r) then inl n else inr (TypeError m)
      | None => inr (TypeError m)
      end
  | _ => inr (TypeError m)
  end.

Section Methods.

Context {H : Type} `{NoriaFfi H}.

(** ** Opening *)

(** [mask] of [Database::JS_new]. *)
Definition open_mask (readonly must_exist : bool) : Z :=
  if readonly then SQLITE_OPEN_READONLY
  else if must_exist then SQLITE_OPEN_READWRITE
  else Z.lor SQLITE_OPEN_READWRITE SQLITE_OPEN_CREATE.

(** The constructor; [create] is the outcome of [noria_create]. *)
Definition Database_new (has_logger : bool) (create : option H) : Database H :=
  mkDatabase true true false false false false has_logger 0 [] [] (Some (Noria_new create true [])).

(** [Database::Deserialize]: the error, if any. *)
Definition Deserialize (malloc : bool) (deserialize : Z -> Z) (buffer : list Z) (readonly : bool) : option (option js_error) :=
  let flags := Z.lor SQLITE_DESERIALIZE_FREEONCLOSE SQLITE_DESERIALIZE_RESIZEABLE in
  let flags := if readonly then Z.lor flags SQLITE_DESERIALIZE_READONLY else flags in
  if truth (Zlen buffer) && negb malloc then Some (Some (PlainError "Out of memory"))
  else
    let status := deserialize flags in
    if negb (status =? SQLITE_OK) then err ← ThrowSqliteError status; Some (Some err) else Some None.

(** What opening a connection gives. *)
Record OpenEnv := mkOpenEnv {
  oe_open : Z -> Z;                 (* sqlite3_open_v2 with a mask *)
  oe_errcode : Z;
  oe_malloc : bool;
  oe_deserialize : Z -> Z;
  oe_create : option H
}.

(** [Database::JS_new] after its arguments are checked: the world with the new
    database, or the error; a connection that failed is closed. *)
Definition Database_JS_new (e : OpenEnv) (readonly must_exist has_logger : bool) (buffer : option (list Z))
    : option (World H + js_error) :=
  let mask := open_mask readonly must_exist in
  if negb (oe_open e mask =? SQLITE_OK) then err ← ThrowSqliteError (oe_errcode e); Some (inr err)
  else
    failed ← match buffer with
             | Some z => Deserialize (oe_malloc e) (oe_deserialize e) z readonly
             | None => Some None
             end;
    match failed with
    | Some err => Some (inr err)
    | None => Some (inl (mkWorld (Database_new has_logger (oe_create e)) true 0 [] [] []))
    end.

(** [db.prepare(source, database, pragmaMode)]. *)
Definition Database_JS_prepare (pe : PrepareEnv) (re : Reentry H) (w : World H) (args : list js_value) : option (World H * result) :=
  match arg_string args 0 "Expected first argument to be a string",
        arg_object args 1 "Expected second argument to be an object",
        arg_boolean args 2 "Expected third argument to be a boolean" with
  | inr err, _, _ | _, inr err, _ | _, _, inr err => Some (w, Thrown err)
  | inl _, inl _, inl pragmaMode => Statement_JS_new pe re w pragmaMode
  end.

(** ** Closing *)

(** [Backup::CloseHandles]: an unfinished copy can be removed. *)
Definition Backup_CloseHandles (b : Backup) : Backup :=
  if bk_alive b then mkBackup (bk_id b) false (bk_unlink b) false (bk_file b && negb (bk_unlink b)) else b.

(** [sqlite3_close] succeeds on a connection without statements and backups. *)
Definition nothing_open (w : World H) : bool :=
  forallb (fun st => negb (bool_decide (is_Some (st_handle st)))) (w_stmts w) && forallb (fun b => negb (bk_open b)) (w_backups w).

(** [Database::CloseHandles]. *)
Definition Database_CloseHandles (w : World H) : option (World H) :=
  let d := w_db w in
  if negb (db_open d) then Some w
  else
    let stmts := imap (fun i st => if bool_decide (i ∈ db_stmts d) then Statement_CloseHandles st else st) (w_stmts w) in
    let backups := imap (fun i b => if bool_decide (i ∈ db_backups d) then Backup_CloseHandles b else b) (w_backups w) in
    let d := mkDatabase false false (db_busy d) (db_safe_ints d) (db_unsafe_mode d) (db_was_js_error d)
               (db_has_logger d) (db_iterators d) [] [] None in
    let w := mkWorld d (w_registered w) (w_next_id w) stmts (w_iters w) backups in
    if nothing_open w then Some w else None.

Definition unregister (w : World H) : World H :=
  mkWorld (w_db w) false (w_next_id w) (w_stmts w) (w_iters w) (w_backups w).

(** The destructor, and [Addon::Cleanup] for this database. *)
Definition Database_destroy (w : World H) : option (World H) :=
  Database_CloseHandles (if db_open (w_db w) then unregister w else w).

Definition Addon_Cleanup (w : World H) : option (World H) :=
  if w_registered w then w ← Database_CloseHandles w; Some (unregister w) else Some w.

Definition Database_JS_close (w : World H) : option (World H * result) :=
  if db_open (w_db w) then
    match first_error [REQUIRE_DATABASE_NOT_BUSY w; REQUIRE_DATABASE_NO_ITERATORS w] with
    | Some err => Some (w, Thrown err)
    | None => w ← Database_CloseHandles (unregister w); Some (w, Returned JUndefined)
    end
  else Some (w, Returned JUndefined).

(** ** exec *)

(** What the connection does with SQL text: the status of preparing it, whether
    there is a statement and the text after it; the status [sqlite3_finalize]
    gives after running it; whether the logger throws on it. *)
Record ExecEnv := mkExecEnv {
  xe_prepare : list Z -> Z * bool * list Z;
  xe_finalize : list Z -> Z;
  xe_log_throws : list Z -> bool;
  xe_js_error : list Z -> bool;
  xe_errcode : Z;
  xe_cdc : CdcEnv
}.

(** The loop: the status it ends with. *)
Fixpoint exec_loop (fuel : nat) (e : ExecEnv) (re : Reentry H) (w : World H) (sql : list Z) : option (World H * Z) :=
  match fuel with
  | O => None
  | S fuel =>
      let sql := drop_while IS_SKIPPED sql in
      if negb (db_handle (w_db w)) then None
      else
        let '(status, handle, tail) := xe_prepare e sql in
        if negb handle then Some (w, status)
        else
          '(w, threw) ← (if db_has_logger (w_db w) then Log (xe_log_throws e sql) re w true else Some (w, false));
          if threw : bool then Some (w, -1)
          else
            w ← re_engine re w;
            let w := set_js_error w (db_was_js_error (w_db w) || xe_js_error e sql) in
            let status := xe_finalize e sql in
            if negb (status =? SQLITE_OK) then Some (w, status) else exec_loop fuel e re w tail
  end.

Definition Database_JS_exec (e : ExecEnv) (re : Reentry H) (w : World H) (args : list js_value) : option (World H * result) :=
  match arg_string args 0 "Expected first argument to be a string" with
  | inr err => Some (w, Thrown err)
  | inl sql =>
      match first_error [REQUIRE_DATABASE_OPEN w; REQUIRE_DATABASE_NOT_BUSY w; REQUIRE_DATABASE_NO_ITERATORS_UNLESS_UNSAFE w] with
      | Some err => Some (w, Thrown err)
      | None =>
          '(w, status) ← exec_loop (S (length sql)) e re (set_busy w true) sql;
          let w := set_busy w false in
          if status =? SQLITE_OK then
            w ← match db_noria (w_db w) with
                | Some n => n ← NotifyChange (xe_cdc e) n; Some (set_noria w (Some n))
                | None => Some w
                end;
            Some (w, Returned JUndefined)
          else if db_was_js_error (w_db w) then Some (set_js_error w false, Thrown UserError)
          else if negb (db_handle (w_db w)) then None
          else err ← ThrowSqliteError (xe_errcode e); Some (w, Thrown err)
      end
  end.

(** ** Functions, modules, extensions, serialization

    The four methods share their guards; the call they then make on the
    connection returns [status], and its error is [errcode]. *)

Definition call_connection (busy : bool) (status errcode : Z) (re : Reentry H) (w : World H) : option (World H * result) :=
  match first_error [REQUIRE_DATABASE_OPEN w; REQUIRE_DATABASE_NOT_BUSY w; REQUIRE_DATABASE_NO_ITERATORS w] with
  | Some err => Some (w, Thrown err)
  | None =>
      if negb (db_handle (w_db w)) then None
      else
        let w := if busy then set_busy w true else w in
        w ← (if busy then re_engine re w else Some w);
        let done w := if busy then set_busy w false else w in
        if status =? SQLITE_OK then Some (done w, Returned JUndefined)
        else if db_was_js_error (w_db w) then Some (done (set_js_error w false), Thrown UserError)
        else err ← ThrowSqliteError errcode; Some (done w, Thrown err)
  end.

(** The flags of a new function, and its integer mode: 0 and 1 are explicit,
    2 takes the default of the database. *)
Definition function_mask (deterministic direct_only : bool) : Z :=
  let mask := SQLITE_UTF8 in
  let mask := if deterministic then Z.lor mask SQLITE_DETERMINISTIC else mask in
  if direct_only then Z.lor mask SQLITE_DIRECTONLY else mask.

Definition function_safe_ints (w : World H) (safe_ints : Z) : bool :=
  truth (if safe_ints <? 2 then safe_ints else if db_safe_ints (w_db w) then 1 else 0).

(** [db.function], [db.aggregate]: [create] is [sqlite3_create_function_v2] or
    [sqlite3_create_window_function] for given flags. *)
Definition Database_JS_function (create : Z -> Z) (errcode : Z) (re : Reentry H) (w : World H)
    (deterministic direct_only : bool) : option (World H * result) :=
  call_connection false (create (function_mask deterministic direct_only)) errcode re w.

Definition Database_JS_aggregate (create : Z -> bool -> Z) (errcode : Z) (re : Reentry H) (w : World H)
    (deterministic direct_only has_inverse : bool) : option (World H * result) :=
  call_connection false (create (function_mask deterministic direct_only) has_inverse) errcode re w.

(** [db.table]: registering an eponymous module can run its factory. *)
Definition Database_JS_table (status errcode : Z) (re : Reentry H) (w : World H) : option (World H * result) :=
  call_connection true status errcode re w.

(** [db.loadExtension]: the error is the status itself. *)
Definition Database_JS_loadExtension (status : Z) (w : World H) : option (World H * result) :=
  match first_error [REQUIRE_DATABASE_OPEN w; REQUIRE_DATABASE_NOT_BUSY w; REQUIRE_DATABASE_NO_ITERATORS w] with
  | Some err => Some (w, Thrown err)
  | None =>
      if negb (db_handle (w_db w)) then None
      else if status =? SQLITE_OK then Some (w, Returned JUndefined)
      else err ← ThrowSqliteError status; Some (w, Thrown err)
  end.

(** [db.serialize]: the data and the length [sqlite3_serialize] gives. *)
Definition Database_JS_serialize (data : option (list Z)) (length : Z) (w : World H) : option (World H * result) :=
  match first_error [REQUIRE_DATABASE_OPEN w; REQUIRE_DATABASE_NOT_BUSY w; REQUIRE_DATABASE_NO_ITERATORS w] with
  | Some err => Some (w, Thrown err)
  | None =>
      if negb (db_handle (w_db w)) then None
      else
        match data with
        | None => if truth length then Some (w, Thrown (PlainError "Out of memory")) else Some (w, Returned (JBuffer []))
        | Some z => z ← read_n length z; Some (w, Returned (JBuffer z))
        end
  end.

(** ** Options and getters *)

Definition Database_JS_defaultSafeIntegers (w : World H) (args : list js_value) : option (World H * result) :=
  match flag_argument args with
  | inr err => Some (w, Thrown err)
  | inl b => Some (set_options w b (db_unsafe_mode (w_db w)), Returned JUndefined)
  end.

(** [sqlite3_db_config] is called on the connection, open or not. *)
Definition Database_JS_unsafeMode (w : World H) (args : list js_value) : option (World H * result) :=
  match flag_argument args with
  | inr err => Some (w, Thrown err)
  | inl b =>
      let w := set_options w (db_safe_ints (w_db w)) b in
      if negb (db_handle (w_db w)) then None else Some (w, Returned JUndefined)
  end.

Definition Database_JS_open (w : World H) : bool := db_open (w_db w).

Definition Database_JS_inTransaction (autocommit : bool) (w : World H) : option bool :=
  if db_open (w_db w) then if negb (db_handle (w_db w)) then None else Some (negb autocommit) else Some false.

(** [db.cacheStats()] and [db.flushCache()]. *)
Definition stats_object (s : NoriaCacheStats) : js_value :=
  JObject true
    [(str "cacheHits", Some (JNumber (double_of_int (st_cache_hits s))));
     (str "cacheMisses", Some (JNumber (double_of_int (st_cache_misses s))));
     (str "totalRows", Some (JNumber (double_of_int (st_total_rows s))));
     (str "viewCount", Some (JNumber (double_of_int (st_view_count s))));
     (str "nodeCount", Some (JNumber (double_of_int (st_node_count s))))].

Definition Database_JS_cacheStats (w : World H) : option (World H * result) :=
  match REQUIRE_DATABASE_OPEN w with
  | Some err => Some (w, Thrown err)
  | None => n ← db_noria (w_db w); Some (w, Returned (stats_object (GetStats n)))
  end.

Definition Database_JS_flushCache (e : CdcEnv) (w : World H) : option (World H * result) :=
  match first_error [REQUIRE_DATABASE_OPEN w; REQUIRE_DATABASE_NOT_BUSY w] with
  | Some err => Some (w, Thrown err)
  | None =>
      n ← db_noria (w_db w);
      '(n, _) ← Flush e n;
      Some (set_noria w (Some n), Returned JUndefined)
  end.

(** ** Backups (backup.cpp) *)

(** The outcome of opening the destination and of [sqlite3_backup_init]. *)
Definition Backup_JS_new (open_status open_errcode : Z) (init : bool) (init_errcode : Z) (w : World H) (unlink : bool)
    : option (World H * result) :=
  match first_error [REQUIRE_DATABASE_OPEN w; REQUIRE_DATABASE_NOT_BUSY w] with
  | Some err => Some (w, Thrown err)
  | None =>
      if negb (open_status =? SQLITE_OK) then err ← ThrowSqliteError open_errcode; Some (w, Thrown err)
      else if negb (db_handle (w_db w)) then None
      else if negb init then err ← ThrowSqliteError init_errcode; Some (w, Thrown err)
      else
        let this := length (w_backups w) in
        let w' := mkWorld (w_db w) (w_registered w) (w_next_id w + 1) (w_stmts w) (w_iters w)
                    (w_backups w ++ [mkBackup (w_next_id w) true unlink true true]) in
        Some (set_lists w' (db_stmts (w_db w)) (db_backups (w_db w) ++ [this]), ReturnedObject this)
  end.

Definition Database_JS_backup (open_status open_errcode : Z) (init : bool) (init_errcode : Z) (w : World H)
    (args : list js_value) : option (World H * result) :=
  match arg_object args 0 "Expected first argument to be an object",
        arg_string args 1 "Expected second argument to be a string",
        arg_string args 2 "Expected third argument to be a string",
        arg_boolean args 3 "Expected fourth argument to be a boolean" with
  | inr err, _, _, _ | _, inr err, _, _ | _, _, inr err, _ | _, _, _, inr err => Some (w, Thrown err)
  | inl _, inl _, inl _, inl unlink => Backup_JS_new open_status open_errcode init init_errcode w unlink
  end.

(** [backup.transfer(pages)]: [step] is the result of [sqlite3_backup_step] for a
    number of pages. *)
Definition Backup_JS_transfer (step : Z -> Z) (total remaining : Z) (w : World H) (this : nat) (args : list js_value)
    : option (World H * result) :=
  b ← w_backups w !! this;
  match arg_int32 args 0 "Expected first argument to be a 32-bit signed integer" with
  | inr err => Some (w, Thrown err)
  | inl pages =>
      match REQUIRE_DATABASE_OPEN w with
      | Some err => Some (w, Thrown err)
      | None =>
          if db_busy (w_db w) || negb (bk_alive b) then None
          else
            let status := Z.land (step pages) 0xff in
            if (status =? SQLITE_OK) || (status =? SQLITE_DONE) || (status =? SQLITE_BUSY) then
              let b := if status =? SQLITE_DONE then mkBackup (bk_id b) (bk_alive b) false (bk_open b) (bk_file b) else b in
              Some (set_backups w (<[this := b]> (w_backups w)),
                    Returned (JObject true [(str "totalPages", Some (JNumber (double_of_int total)));
                                            (str "remainingPages", Some (JNumber (double_of_int remaining)))]))
            else err ← ThrowSqliteError status; Some (w, Thrown err)
      end
  end.

(** [backup.close()]; also the destructor. *)
Definition Backup_JS_close (w : World H) (this : nat) : option (World H * result) :=
  b ← w_backups w !! this;
  if db_busy (w_db w) then None
  else
    let w := if bk_alive b
             then set_lists w (db_stmts (w_db w)) (filter (fun i => i <> this) (db_backups (w_db w))) else w in
    Some (set_backups w (<[this := Backup_CloseHandles b]> (w_backups w)), ReturnedThis).

End Methods.
