(* ===== verification/AddonInv.v ===== *)
(** * The invariant of the objects

    What holds of a connection and its statements, iterators and backups
    between calls, and how the steps of a call preserve it. *)
From stdpp Require Import gmap strings.
From S2P Require Import Prelude Double Value Record Strings Bind Js Binder BinderCorrect Noria NoriaSql NoriaJs StmtText Addon StatementOps DatabaseOps.

Local Open Scope Z_scope.

(** ** Statements *)

Definition mode_ok (m : Z) : Prop := m = FLAT \/ m = PLUCK \/ m = EXPAND \/ m = RAW.

(** The handle of a statement that is not finalized; [ready] tells that it is
    not executing. *)
Definition handle_good (st : Statement) (p : Vdbe) : Prop :=
  stmt_ok (set_ready p true) /\ (forall m, st_map st = Some m -> map_of p m).

Definition stmt_good (running : bool) (st : Statement) : Prop :=
  mode_ok (st_mode st) /\
  match st_handle st with
  | None => st_alive st = false
  | Some p => st_alive st = true /\ handle_good st p /\ (st_locked st = false -> running = false -> vd_ready p = true)
  end.

Definition alive_iters (l : list StatementIterator) : Z := Zlen (filter (fun it => si_alive it = true) l).

Section Invariant.

Context {H : Type} `{NoriaFfi H}.

(** What the statements of the addon need of the cache. *)
Context (I : Noria H -> Prop).

(** [X] is the statement being executed, if any; [err] the value of
    [was_js_error]. *)
Record winv (X : option nat) (err : bool) (w : World H) : Prop := {
  wi_handle : db_handle (w_db w) = db_open (w_db w);
  wi_noria : db_open (w_db w) = true -> exists n, db_noria (w_db w) = Some n /\ I n;
  wi_closed : db_open (w_db w) = false -> db_stmts (w_db w) = [] /\ db_backups (w_db w) = [];
  wi_stmt : forall i st, w_stmts w !! i = Some st ->
    stmt_good (bool_decide (X = Some i)) st /\ st_alive st = db_open (w_db w) /\
    (db_open (w_db w) = true -> i ∈ db_stmts (w_db w));
  wi_iter : forall k it, w_iters w !! k = Some it -> mode_ok (si_mode it) /\
    (si_alive it = true -> exists st, w_stmts w !! si_stmt it = Some st /\ st_alive st = true /\ st_locked st = true);
  wi_unique : forall k k' it it', w_iters w !! k = Some it -> w_iters w !! k' = Some it' ->
    si_alive it = true -> si_alive it' = true -> si_stmt it = si_stmt it' -> k = k';
  wi_locked : forall i st, w_stmts w !! i = Some st -> st_locked st = true ->
    exists k it, w_iters w !! k = Some it /\ si_alive it = true /\ si_stmt it = i;
  wi_count : db_iterators (w_db w) = alive_iters (w_iters w);
  wi_range : db_iterators (w_db w) <= USHRT_MAX;
  wi_error : db_was_js_error (w_db w) = err;
  wi_backup : forall i b, w_backups w !! i = Some b -> bk_open b = bk_alive b /\ (bk_alive b = true <-> i ∈ db_backups (w_db w))
}.

(** ** Preservation by the elementary steps *)

(** A statement changes, but not whether it is alive or locked. *)
Lemma winv_put X err w i st st' : winv X err w -> w_stmts w !! i = Some st ->
  st_alive st' = st_alive st -> st_locked st' = st_locked st ->
  stmt_good (bool_decide (X = Some i)) st' -> winv X err (put_stmt w i st').
Proof.
  intros [W1 W2 W3 W4 W5 W6 W7 W8 W9 W10 W11] Hi Ha Hl Hg. pose proof (lookup_lt_Some _ _ _ Hi) as Hlt.
  assert (L : forall j s, <[i := st']> (w_stmts w) !! j = Some s -> (j = i /\ s = st') \/ w_stmts w !! j = Some s).
  { intros j s. rewrite list_lookup_insert_Some. intros [(-> & -> & _)|[_ E]]; auto. }
  split; cbn; auto.
  - intros j s Hj. destruct (L j s Hj) as [[-> ->]|E]; [|auto]. split; [exact Hg|]. rewrite Ha. apply (W4 _ _ Hi).
  - intros k it Hk. destruct (W5 k it Hk) as [M A]. split; [exact M|]. intros Hal. destruct (A Hal) as (s & Es & A1 & A2).
    destruct (decide (si_stmt it = i)) as [E|N].
    + rewrite E in *. rewrite Hi in Es. injection Es as <-. exists st'. rewrite list_lookup_insert_eq by exact Hlt. split; [reflexivity|]. rewrite Ha, Hl. auto.
    + exists s. rewrite list_lookup_insert_ne by auto. auto.
  - intros j s Hj Hlk. destruct (L j s Hj) as [[-> ->]|E]; [|eauto]. rewrite Hl in Hlk. eauto.
Qed.

(** The options and the cache of the database change. *)
Definition quiet (w w' : World H) : Prop :=
  exists a b n, w' = set_noria (set_options w a b) n /\
    (db_open (w_db w) = true -> exists n', n = Some n' /\ I n').

Lemma quiet_winv X err w w' : winv X err w -> quiet w w' -> winv X err w'.
Proof. intros [] (a & b & n & -> & Hn). split; cbn; auto. Qed.

Lemma quiet_refl X err w : winv X err w -> quiet w w.
Proof.
  intros [_ W2 _ _ _ _ _ _ _ _ _]. exists (db_safe_ints (w_db w)), (db_unsafe_mode (w_db w)), (db_noria (w_db w)).
  split; [destruct w as [[] ? ? ? ? ?]; reflexivity|exact W2].
Qed.

Lemma quiet_trans w w' w'' : quiet w w' -> quiet w' w'' -> quiet w w''.
Proof.
  intros (a & b & n & -> & Hn) (a' & b' & n' & -> & Hn'). exists a', b', n'. split; [reflexivity|exact Hn'].
Qed.

Lemma winv_busy X err w b : winv X err w -> winv X err (set_busy w b).
Proof. intros []. split; cbn; auto. Qed.

Lemma winv_error X err err' w : winv X err w -> winv X err' (set_js_error w err').
Proof. intros []. split; cbn; auto. Qed.

Lemma winv_set_noria X err w n : winv X err w -> I n -> winv X err (set_noria w (Some n)).
Proof. intros [] Hn. split; cbn; eauto. Qed.

(** A statement that is not locked starts or stops executing. *)
Lemma winv_run X err w i : winv X err w -> (forall j, X = Some j -> j = i) -> winv (Some i) err w.
Proof.
  intros [W1 W2 W3 W4 W5 W6 W7 W8 W9 W10 W11] HX. split; auto. intros j st Hj. destruct (W4 j st Hj) as [[M G] A]. split; [|exact A].
  split; [exact M|]. destruct (st_handle st) as [p|]; [|exact G]. destruct G as (G1 & G2 & G3). split_and!; auto.
  intros Hl Hr. apply G3; [exact Hl|]. apply bool_decide_eq_false in Hr. apply bool_decide_eq_false. intros ->. apply Hr. f_equal. symmetry. apply HX. reflexivity.
Qed.

Lemma winv_stop err w i st p : winv (Some i) err w -> w_stmts w !! i = Some st -> st_handle st = Some p -> vd_ready p = true -> winv None err w.
Proof.
  intros [W1 W2 W3 W4 W5 W6 W7 W8 W9 W10 W11] Hi Hp Hr. split; auto. intros j s Hj. destruct (W4 j s Hj) as [[M G] A]. split; [|exact A].
  split; [exact M|]. destruct (st_handle s) as [q|] eqn:Eq; [|exact G]. destruct G as (G1 & G2 & G3). split_and!; auto.
  intros Hl _. destruct (decide (i = j)) as [->|N]; [congruence|]. apply G3; [exact Hl|]. apply bool_decide_eq_false. congruence.
Qed.

(** A locked statement may be executing. *)
Lemma winv_stop_locked err w i st : winv (Some i) err w -> w_stmts w !! i = Some st -> st_locked st = true -> winv None err w.
Proof.
  intros [W1 W2 W3 W4 W5 W6 W7 W8 W9 W10 W11] Hi Hk. split; auto. intros j s Hj. destruct (W4 j s Hj) as [[M G] A]. split; [|exact A].
  split; [exact M|]. destruct (st_handle s) as [q|] eqn:Eq; [|exact G]. destruct G as (G1 & G2 & G3). split_and!; auto.
  intros Hl _. destruct (decide (i = j)) as [->|N]; [congruence|]. apply G3; [exact Hl|]. apply bool_decide_eq_false. congruence.
Qed.

End Invariant.
