(* ===== verification/AddonSafe.v ===== *)
(** * Calls preserve the invariant

    Every method, called between calls, ends without a fault and with the
    invariant; called while the connection is busy it changes nothing but the
    options of the database. *)
From stdpp Require Import gmap strings.
From S2P Require Import Prelude Double Value Record Strings Bind Js Binder BinderCorrect Noria NoriaSql NoriaJs StmtText Addon StatementOps DatabaseOps AddonInv.

Local Open Scope Z_scope.

Definition code_fine (c : Z) : Prop := ThrowSqliteError c = Some (SqliteError c).

(** A lookup result that can be read. *)
Definition lookup_fine (r : NoriaLookupResult) : Prop :=
  lr_row_count r <> 0 -> exists rows, lr_rows r = Some rows /\
    forall columns safe_ints, exists v, NoriaRowToJS rows 0 columns safe_ints = Some v.

Create HintDb addon.

Section Safe.

Context {H : Type} `{NoriaFfi H}.
Context (I : Noria H -> Prop).

(** ** What is assumed of the cache and of SQLite *)

(** The cache keeps its own invariant. *)
Record cache_safe : Prop := {
  cs_register : forall se m n sql, I n -> I (fst (RegisterView se m n sql));
  cs_lookup : forall n view keys, I n ->
    I (fst (LookupOrUpquery n view keys)) /\ lookup_fine (snd (LookupOrUpquery n view keys))
}.

Definition notify_total (e : CdcEnv) : Prop := forall n, I n -> exists n', NotifyChange e n = Some n' /\ I n'.
Definition flush_total (e : CdcEnv) : Prop := forall n, I n -> exists n' rc, Flush e n = Some (n', rc) /\ I n'.

(** A failed user-defined function fails the execution; an execution that fails
    sets an error code; a row has a column. *)
Record call_ok (e : CallEnv) : Prop := {
  co_bind : env_ok (cv_bind e);
  co_code : code_fine (cv_errcode e);
  co_error : cv_js_error e = true -> cv_status e <> SQLITE_OK /\ cv_status e <> SQLITE_DONE /\ cv_rows e = [];
  co_rows : Forall (fun row => row <> []) (cv_rows e);
  co_cdc : notify_total (cv_cdc e)
}.

(** The code run before the connection is busy does nothing, and the code run
    while it is busy changes nothing but options and the cache. *)
Record reentry_ok (re : Reentry H) : Prop := {
  ro_reads : forall w, re_reads re w = Some w;
  ro_engine : forall X w, winv I X false w -> db_open (w_db w) = true -> db_busy (w_db w) = true ->
    exists w', re_engine re w = Some w' /\ quiet I w w'
}.

(** ** Steps of a call *)

(** The statement [i] and the iterators are as before. *)
Record keeps (i : nat) (w w' : World H) : Prop := {
  ke_open : db_open (w_db w') = db_open (w_db w);
  ke_count : db_iterators (w_db w') = db_iterators (w_db w);
  ke_iters : w_iters w' = w_iters w;
  ke_stmt : forall st, w_stmts w !! i = Some st -> exists st', w_stmts w' !! i = Some st' /\
    st_alive st' = st_alive st /\ st_locked st' = st_locked st /\ st_bound st' = st_bound st
}.

Lemma keeps_refl i w : keeps i w w.
Proof. split; auto. intros st E. exists st. auto. Qed.

Lemma keeps_trans i w w' w'' : keeps i w w' -> keeps i w' w'' -> keeps i w w''.
Proof.
  intros [A1 A2 A3 A4] [B1 B2 B3 B4]. split; try congruence. intros st E. destruct (A4 st E) as (s1 & E1 & X1 & X2 & X3).
  destruct (B4 s1 E1) as (s2 & E2 & Y1 & Y2 & Y3). exists s2. split_and!; congruence.
Qed.

Lemma keeps_put i w st st' : w_stmts w !! i = Some st -> st_alive st' = st_alive st -> st_locked st' = st_locked st ->
  st_bound st' = st_bound st -> keeps i w (put_stmt w i st').
Proof.
  intros Hi A B C. split; auto. intros s E. exists st'. cbn. rewrite list_lookup_insert_eq by (eapply lookup_lt_Some; eauto).
  rewrite Hi in E. injection E as <-. auto.
Qed.

Lemma keeps_quiet i w w' : quiet I w w' -> keeps i w w'.
Proof. intros (a & b & n & -> & _). split; cbn; auto. intros st E. exists st. auto. Qed.

Lemma keeps_busy i w b : keeps i w (set_busy w b).
Proof. split; cbn; auto. intros st E. exists st. auto. Qed.
Lemma keeps_error i w b : keeps i w (set_js_error w b).
Proof. split; cbn; auto. intros st E. exists st. auto. Qed.
Lemma keeps_noria i w n : keeps i w (set_noria w n).
Proof. split; cbn; auto. intros st E. exists st. auto. Qed.

Hint Resolve keeps_refl keeps_quiet keeps_busy keeps_error keeps_noria winv_busy winv_error winv_set_noria quiet_winv : addon.

(** The handle of a live statement. *)
Lemma live_handle X err w i st : winv I X err w -> w_stmts w !! i = Some st -> st_alive st = true ->
  exists p, st_handle st = Some p /\ handle_good st p /\ (st_locked st = false -> X <> Some i -> vd_ready p = true) /\ mode_ok (st_mode st).
Proof.
  intros W Hi Ha. destruct (wi_stmt _ _ _ _ W i st Hi) as [[M G] _]. destruct (st_handle st) as [p|]; [|congruence].
  destruct G as (_ & G2 & G3). exists p. split_and!; auto. intros Hl N. apply G3; [exact Hl|]. apply bool_decide_eq_false. exact N.
Qed.

(** Replacing the handle of a statement. *)
Lemma winv_handle X err w i st p : winv I X err w -> w_stmts w !! i = Some st -> st_alive st = true ->
  handle_good st p -> (st_locked st = false -> X <> Some i -> vd_ready p = true) ->
  winv I X err (put_stmt w i (with_handle st (Some p))) /\ keeps i w (put_stmt w i (with_handle st (Some p))).
Proof.
  intros W Hi Ha G R. split; [|apply (keeps_put i w st); auto]. apply (winv_put I X err w i st); auto.
  destruct (wi_stmt _ _ _ _ W i st Hi) as [[M _] _]. split; [exact M|]. cbn. split_and!; auto.
  intros Hl Hb. apply R; [exact Hl|]. apply bool_decide_eq_false in Hb. exact Hb.
Qed.

Lemma clear_good st p : handle_good st p -> handle_good st (sqlite3_clear_bindings p) /\ vd_ready (sqlite3_clear_bindings p) = vd_ready p.
Proof.
  intros [[[V1 V2 V3 V4] V5 V6] M].
  assert (S : same_params (set_ready p true) (set_ready (sqlite3_clear_bindings p) true)).
  { unfold sqlite3_clear_bindings. destruct (truth _); split; reflexivity. }
  split; [split|unfold sqlite3_clear_bindings; destruct (truth _); reflexivity].
  - apply (same_ok (set_ready p true)); [split; auto; split; auto| |exact S].
    unfold sqlite3_clear_bindings. destruct (truth _); split; cbn in *; auto; unfold Zlen in *; rewrite length_fmap; auto.
  - intros m Em. apply (map_of_same p); [|auto]. unfold sqlite3_clear_bindings. destruct (truth _); split; reflexivity.
Qed.

Lemma clear_spec X err w i st : winv I X err w -> w_stmts w !! i = Some st -> st_alive st = true ->
  exists w', clear_bindings w i = Some w' /\ winv I X err w' /\ keeps i w w' /\ db_busy (w_db w') = db_busy (w_db w).
Proof.
  intros W Hi Ha. destruct (live_handle _ _ _ _ _ W Hi Ha) as (p & Ep & G & R & _). unfold clear_bindings.
  rewrite Hi. cbn [mbind option_bind]. rewrite Ep. cbn [mbind option_bind]. destruct (clear_good st p G) as [G' R'].
  edestruct (winv_handle X err w i st) as [W' K']; [exact W|exact Hi|exact Ha|exact G'|rewrite R'; exact R|].
  eexists. split; [reflexivity|]. auto.
Qed.

Lemma unless_bound_spec X err w i st bound : winv I X err w -> w_stmts w !! i = Some st -> st_alive st = true ->
  exists w', unless_bound w i bound = Some w' /\ winv I X err w' /\ keeps i w w' /\ db_busy (w_db w') = db_busy (w_db w).
Proof.
  intros W Hi Ha. destruct bound; [|eapply clear_spec; eauto]. exists w. split_and!; auto with addon.
Qed.

(** The marking of a statement as executing or not. *)
Lemma ready_id p : vd_ready p = true -> set_ready p true = p.
Proof. destruct p. cbn. intros ->. reflexivity. Qed.

Lemma ready_good st p b : handle_good st p -> handle_good st (set_ready p b).
Proof. intros [G M]. split; [exact G|]. intros m Em. apply (map_of_same p); [split; reflexivity|auto]. Qed.

Lemma step_spec e re w i st : call_ok e -> reentry_ok re -> winv I None false w -> db_open (w_db w) = true -> db_busy (w_db w) = true ->
  w_stmts w !! i = Some st -> st_alive st = true ->
  exists w', step_stmt e re w i = Some w' /\ winv I (Some i) (cv_js_error e) w' /\ keeps i w w' /\ db_busy (w_db w') = true.
Proof.
  intros He Hre W Ho Hb Hi Ha. destruct (live_handle _ _ _ _ _ W Hi Ha) as (p & Ep & G & R & _). unfold step_stmt, mark_ready.
  rewrite Hi. cbn [mbind option_bind]. rewrite Ep. cbn [mbind option_bind].
  assert (W1 : winv I (Some i) false w) by (apply (winv_run I None); [exact W|discriminate]).
  destruct (winv_handle (Some i) false w i st (set_ready p false) W1 Hi Ha (ready_good _ _ _ G)) as [W2 K2]; [congruence|].
  destruct (ro_engine _ Hre (Some i) _ W2) as (w3 & E3 & Q3); [exact Ho|exact Hb|]. rewrite E3. cbn [mbind option_bind].
  pose proof (quiet_winv I _ _ _ _ W2 Q3) as W3. rewrite (wi_error _ _ _ _ W3). cbn [orb].
  eexists. split; [reflexivity|]. split_and!.
  - eapply winv_error. exact W3.
  - eapply keeps_trans; [exact K2|]. eapply keeps_trans; [eapply keeps_quiet; exact Q3|apply keeps_error].
  - destruct Q3 as (a & b & n & -> & _). exact Hb.
Qed.

Lemma reset_spec err w i st : winv I (Some i) err w -> w_stmts w !! i = Some st -> st_alive st = true ->
  exists w', reset_stmt w i = Some w' /\ winv I None err w' /\ keeps i w w' /\ db_busy (w_db w') = db_busy (w_db w).
Proof.
  intros W Hi Ha. destruct (live_handle _ _ _ _ _ W Hi Ha) as (p & Ep & G & _ & _). unfold reset_stmt, mark_ready.
  rewrite Hi. cbn [mbind option_bind]. rewrite Ep. cbn [mbind option_bind].
  destruct (winv_handle (Some i) err w i st (set_ready p true) W Hi Ha (ready_good _ _ _ G)) as [W2 K2]; [reflexivity|].
  eexists. split; [reflexivity|]. split_and!; auto.
  eapply (winv_stop I err _ i); [exact W2| | |]; [cbn; apply list_lookup_insert_eq; eapply lookup_lt_Some; eauto|reflexivity|reflexivity].
Qed.

(** ** Ends of a call *)

(** A call that ends well. *)
Definition ends_well (r : option (World H * result)) : Prop :=
  exists w' res, r = Some (w', res) /\ winv I None false w' /\ db_busy (w_db w') = false.

(** The statement [i] of [w], alive and not locked. *)
Definition free_stmt (w : World H) (i : nat) (bound : bool) : Prop :=
  exists st, w_stmts w !! i = Some st /\ st_alive st = true /\ st_locked st = false /\ st_bound st = bound.

Lemma free_keeps w w' i b : free_stmt w i b -> keeps i w w' -> free_stmt w' i b.
Proof.
  intros (st & E & A & B & C) K. destruct (ke_stmt _ _ _ K st E) as (st' & E' & X & Y & Z). exists st'. split_and!; congruence.
Qed.

Lemma throw_error_spec e err w : call_ok e -> winv I None err w -> db_open (w_db w) = true ->
  exists w' er, ThrowDatabaseError e w = Some (w', er) /\ winv I None false w' /\ (w' = w \/ w' = set_js_error w false).
Proof.
  intros He W Ho. unfold ThrowDatabaseError. rewrite (wi_error _ _ _ _ W). destruct err.
  - eexists _, _. split; [reflexivity|]. split; [eapply winv_error; exact W|auto].
  - rewrite (wi_handle _ _ _ _ W), Ho. cbn [negb]. rewrite (co_code _ He). cbn [mbind option_bind]. eauto 6.
Qed.

Lemma throw_logic_spec e err w i st bound : call_ok e -> winv I None err w -> db_open (w_db w) = true ->
  w_stmts w !! i = Some st -> st_alive st = true ->
  exists w' er, STATEMENT_THROW_LOGIC e w i bound = Some (w', er) /\ winv I None false w' /\ keeps i w w' /\ db_busy (w_db w') = db_busy (w_db w).
Proof.
  intros He W Ho Hi Ha. unfold STATEMENT_THROW_LOGIC. destruct (throw_error_spec e err w He W Ho) as (w1 & er & -> & W1 & K).
  cbn [mbind option_bind].
  assert (Hi1 : w_stmts w1 !! i = Some st) by (destruct K as [-> | ->]; exact Hi).
  destruct (unless_bound_spec None false w1 i st bound W1 Hi1 Ha) as (w2 & -> & W2 & K2 & B2). cbn [mbind option_bind].
  exists w2, er. split; [reflexivity|]. split; [exact W2|]. split; destruct K as [-> | ->]; auto.
  eapply keeps_trans; [apply keeps_error|exact K2].
Qed.

Lemma throw_spec e err w i bound b : call_ok e -> winv I None err w -> db_open (w_db w) = true -> free_stmt w i b ->
  exists w' er, STATEMENT_THROW e w i bound = Some (w', er) /\ winv I None false w' /\ keeps i w w' /\ db_busy (w_db w') = false.
Proof.
  intros He W Ho (st & Hi & Ha & _). unfold STATEMENT_THROW.
  destruct (throw_logic_spec e err (set_busy w false) i st bound He) as (w' & er & E & W' & K & B); auto with addon.
  exists w', er. split_and!; auto. eapply keeps_trans; [apply keeps_busy|exact K].
Qed.

Lemma thrown_ends e err w i bound b f : call_ok e -> winv I None err w -> db_open (w_db w) = true -> free_stmt w i b ->
  ends_well ('(w, er) ← STATEMENT_THROW e w i bound; Some (w, Thrown (f er))).
Proof.
  intros He W Ho F. destruct (throw_spec e err w i bound b He W Ho F) as (w' & er & -> & W' & _ & B). cbn [mbind option_bind].
  exists w', (Thrown (f er)). auto.
Qed.

Lemma return_ends w i bound b v : winv I None false w -> free_stmt w i b -> ends_well (STATEMENT_RETURN w i bound v).
Proof.
  intros W (st & Hi & Ha & _). unfold STATEMENT_RETURN.
  destruct (unless_bound_spec None false (set_busy w false) i st bound) as (w' & -> & W' & K & B); auto with addon.
  cbn [mbind option_bind]. exists w', (Returned v). auto.
Qed.

Lemma same_ends w res : winv I None false w -> db_busy (w_db w) = false -> ends_well (Some (w, res)).
Proof. intros W B. exists w, res. auto. Qed.

(** ** The start of a call *)

Lemma bind_spec e re w i st args : call_ok e -> reentry_ok re -> Forall small_arg args -> winv I None false w ->
  w_stmts w !! i = Some st -> st_alive st = true -> st_locked st = false ->
  exists w' er, STATEMENT_BIND e re w i args = Some (w', er) /\ winv I None false w' /\ keeps i w w' /\ db_busy (w_db w') = db_busy (w_db w).
Proof.
  intros He Hre Hs W Hi Ha Hl. unfold STATEMENT_BIND. rewrite (ro_reads _ Hre). cbn [mbind option_bind].
  destruct (live_handle _ _ _ _ _ W Hi Ha) as (p & Ep & G & R & M). rewrite Hi. cbn [mbind option_bind]. rewrite Ep. cbn [mbind option_bind].
  assert (Ep' : set_ready p true = p) by (apply ready_id, R; [exact Hl|discriminate]).
  destruct G as [G1 G2]. rewrite Ep' in G1.
  destruct (bind_keeps (cv_bind e) p args (st_map st) (co_bind _ He) G1 G2 Hs) as (b & -> & B1 & B2 & B3). cbn [mbind option_bind].
  set (st1 := with_map (with_handle st (Some (bd_handle b))) (bd_map b)).
  assert (Er : set_ready (bd_handle b) true = bd_handle b) by apply ready_id, B1.
  assert (W1 : winv I None false (put_stmt w i st1)).
  { apply (winv_put I None false w i st); auto. split; [exact M|]. cbn. split; [exact Ha|]. split.
    - split; [rewrite Er; exact B1|]. intros m Em. apply (map_of_same p); auto.
    - intros _ _. apply B1. }
  assert (K1 : keeps i w (put_stmt w i st1)) by (apply (keeps_put i w st); auto).
  destruct (bd_error b) as [er|]; [|exists (put_stmt w i st1), None; auto].
  destruct (clear_spec None false (put_stmt w i st1) i st1 W1) as (w2 & -> & W2 & K2 & Bz);
    [cbn; apply list_lookup_insert_eq; eapply lookup_lt_Some; eauto|exact Ha|]. cbn [mbind option_bind].
  exists w2, (Some er). split_and!; auto. eapply keeps_trans; eauto.
Qed.

Lemma first_error_none a l : first_error (a :: l) = None <-> a = None /\ first_error l = None.
Proof. unfold first_error. destruct a; cbn; [split; [discriminate|intros [? _]; discriminate]|]. split; [auto|intros [_ E]; exact E]. Qed.

Lemma not_locked st : REQUIRE_STATEMENT_NOT_LOCKED st = None <-> st_locked st = false.
Proof. unfold REQUIRE_STATEMENT_NOT_LOCKED. destruct (st_locked st); split; congruence. Qed.
Lemma is_open (w : World H) : REQUIRE_DATABASE_OPEN w = None <-> db_open (w_db w) = true.
Proof. unfold REQUIRE_DATABASE_OPEN. destruct (db_open (w_db w)); split; congruence. Qed.
Lemma not_busy (w : World H) : REQUIRE_DATABASE_NOT_BUSY w = None <-> db_busy (w_db w) = false.
Proof. unfold REQUIRE_DATABASE_NOT_BUSY. destruct (db_busy (w_db w)); split; congruence. Qed.

Lemma check_unlocked m (w : World H) st : check_mutate m w st = None ->
  st_locked st = false /\ (m = DOES_ADD_ITERATOR -> db_iterators (w_db w) <> USHRT_MAX).
Proof.
  destruct m; cbn [check_mutate].
  - rewrite not_locked. intros ->. split; [reflexivity|discriminate].
  - rewrite first_error_none, not_locked. intros [-> _]. split; [reflexivity|discriminate].
  - rewrite !first_error_none, not_locked. intros (-> & E & _). split; [reflexivity|]. intros _ Eq. rewrite Eq in E. discriminate.
Qed.

(** A live statement of an open connection. *)
Lemma open_alive X err w i st : winv I X err w -> w_stmts w !! i = Some st -> st_alive st = db_open (w_db w).
Proof. intros W Hi. apply (wi_stmt _ _ _ _ W i st Hi). Qed.

(** The start of a call: either it throws, or the statement may be used. *)
Lemma start_logic_spec needs m e re w i args : call_ok e -> reentry_ok re -> Forall small_arg args -> winv I None false w ->
  db_busy (w_db w) = false -> (i < length (w_stmts w))%nat ->
  exists w' r, STATEMENT_START_LOGIC needs m e re w i args = Some (w', r) /\ winv I None false w' /\ db_busy (w_db w') = false /\
    keeps i w w' /\
    match r with
    | inr _ => True
    | inl bound => db_open (w_db w') = true /\ free_stmt w' i bound /\
        (m = DOES_ADD_ITERATOR -> db_iterators (w_db w') <> USHRT_MAX)
    end.
Proof.
  intros He Hre Hs W Hb Hlt. destruct (lookup_lt_is_Some_2 _ _ Hlt) as [st Hi]. unfold STATEMENT_START_LOGIC. rewrite Hi. cbn [mbind option_bind].
  destruct (first_error _) as [err|] eqn:E; [exists w, (inr err); auto with addon|].
  rewrite !first_error_none in E. destruct E as (_ & Eo & _ & Em & _). apply is_open in Eo. destruct (check_unlocked _ _ _ Em) as [Hl Hm].
  pose proof (open_alive _ _ _ _ _ W Hi) as Ha. rewrite Eo in Ha.
  destruct (st_bound st) eqn:Ebd; cbn [negb].
  - destruct (0 <? Zlen args); [eexists _, (inr _); split; [reflexivity|]; auto with addon|].
    eexists _, (inl true). split; [reflexivity|]. split_and!; auto with addon. exists st. auto.
  - destruct (bind_spec e re w i st args He Hre Hs W Hi Ha Hl) as (w' & er & -> & W' & K & B). cbn [mbind option_bind].
    destruct er as [er|]; [exists w', (inr er); rewrite B; auto 6|].
    exists w', (inl false). split; [reflexivity|]. split_and!; auto; [congruence|rewrite (ke_open _ _ _ K); exact Eo| |].
    + eapply free_keeps; [exists st; split_and!; eauto|exact K].
    + rewrite (ke_count _ _ _ K). exact Hm.
Qed.

Lemma log_stmt_spec e re w i b : call_ok e -> reentry_ok re -> winv I None false w -> db_open (w_db w) = true -> db_busy (w_db w) = true ->
  free_stmt w i b \/ (exists st, w_stmts w !! i = Some st /\ st_alive st = true) ->
  exists w' t, Log_stmt e re w i = Some (w', t) /\ winv I None t w' /\ keeps i w w' /\ db_busy (w_db w') = true.
Proof.
  intros He Hre W Ho Hb Hf. assert (exists st, w_stmts w !! i = Some st /\ st_alive st = true) as (st & Hi & Ha).
  { destruct Hf as [(st & Hi & Ha & _)|Hf]; eauto. }
  unfold Log_stmt, Log. rewrite Hi. cbn [mbind option_bind]. rewrite (wi_error _ _ _ _ W).
  destruct (db_has_logger (w_db w)); cbn [negb]; [|exists w, false; auto with addon].
  destruct (live_handle _ _ _ _ _ W Hi Ha) as (p & -> & _). rewrite bool_decide_true by eauto. cbn [negb].
  destruct (ro_engine _ Hre None w W Ho Hb) as (w1 & -> & Q). cbn [mbind option_bind].
  eexists _, _. split; [reflexivity|]. split_and!.
  - eapply winv_error, quiet_winv; eauto.
  - eapply keeps_trans; [eapply keeps_quiet; exact Q|apply keeps_error].
  - destruct Q as (a & c & n & -> & _). exact Hb.
Qed.

Lemma start_spec needs m e re w i args : call_ok e -> reentry_ok re -> Forall small_arg args -> winv I None false w ->
  db_busy (w_db w) = false -> (i < length (w_stmts w))%nat ->
  exists w' r, STATEMENT_START needs m e re w i args = Some (w', r) /\ winv I None false w' /\
    match r with
    | inr _ => db_busy (w_db w') = false
    | inl bound => db_busy (w_db w') = true /\ db_open (w_db w') = true /\ free_stmt w' i bound
    end.
Proof.
  intros He Hre Hs W Hb Hlt. unfold STATEMENT_START.
  destruct (start_logic_spec needs m e re w i args He Hre Hs W Hb Hlt) as (w1 & r & -> & W1 & B1 & K1 & Hr). cbn [mbind option_bind].
  destruct r as [bound|er]; [|exists w1, (inr er); auto]. destruct Hr as (Ho & F & _).
  assert (F1 : free_stmt (set_busy w1 true) i bound) by (eapply free_keeps; [exact F|apply keeps_busy]).
  destruct (log_stmt_spec e re (set_busy w1 true) i bound He Hre) as (w2 & t & -> & W2 & K2 & B2); auto with addon.
  cbn [mbind option_bind]. assert (F2 : free_stmt w2 i bound) by (eapply free_keeps; eauto).
  assert (O2 : db_open (w_db w2) = true) by (rewrite (ke_open _ _ _ K2); exact Ho). destruct t.
  - destruct (throw_spec e true w2 i bound bound He W2 O2 F2) as (w3 & er & -> & W3 & K3 & B3). cbn [mbind option_bind].
    exists w3, (inr er). auto.
  - exists w2, (inl bound). auto.
Qed.

End Safe.
