(* ===== verification/AddonMethods.v ===== *)
(** * The methods preserve the invariant

    The methods of statements (run, get, all, bind, the modes and columns) and of statement
    iterators. *)
From stdpp Require Import gmap strings.
From S2P Require Import Prelude Double Value Record Strings Noria NoriaSql Bind Js Binder BinderCorrect JsCorrect StmtText NoriaJs Addon StatementOps DatabaseOps AddonInv AddonSafe.

Local Open Scope Z_scope.

(** The numbers that can be cast to [int64_t], in the positions of keys. *)
Definition key_ok (v : js_value) : Prop :=
  match v with
  | JNumber d => is_Some (int_of_double d)
  | JArray arr => Forall (fun x => exists v, x = Some v /\ match v with JNumber d => is_Some (int_of_double d) | _ => True end) arr
  | _ => True
  end.

Lemma key_defined v : match v with JNumber d => is_Some (int_of_double d) | _ => True end -> exists k, V8ToNoriaKey v = Some k.
Proof. destruct v; cbn; try eauto. intros [i E]. unfold number_key. rewrite E. cbn. eauto. Qed.

Lemma array_keys_defined room arr :
  Forall (fun x => exists v, x = Some v /\ match v with JNumber d => is_Some (int_of_double d) | _ => True end) arr ->
  exists ks, array_keys room arr = Some ks.
Proof.
  intros Ha. revert room. induction Ha as [|x arr (v & -> & Hv) Ha IH]; intros [|room]; cbn [array_keys]; eauto.
  cbn [mbind option_bind]. destruct (key_defined v Hv) as [k ->]. cbn [mbind option_bind].
  destruct (IH room) as [ks ->]. cbn. eauto.
Qed.

Lemma arg_keys_defined room args : Forall key_ok args -> exists ks, arg_keys room args = Some ks.
Proof.
  intros Ha. revert room. induction Ha as [|v args Hv Ha IH]; intros [|room]; cbn [arg_keys]; eauto.
  assert (D : exists ks, (k ← V8ToNoriaKey v; rest ← arg_keys room args; Some (k :: rest)) = Some ks \/ exists arr, v = JArray arr).
  { destruct v as [| | | | | | |arr| | ]; try (exists []; right; eauto; fail).
    all: match goal with |- context [V8ToNoriaKey ?v] => destruct (key_defined v Hv) as [k ->] end; destruct (IH room) as [ks ->]; cbn; eauto. }
  destruct v; try (destruct D as (ks & [E|[? ?]]); [exists ks; exact E|discriminate]).
  destruct (array_keys_defined (S room) l Hv) as [ks ->]. cbn [mbind option_bind].
  destruct (IH (S room - length ks)%nat) as [rs ->]. cbn. eauto.
Qed.

Lemma noria_keys_defined n args : Forall key_ok args -> exists ks, noria_keys n args = Some ks.
Proof. intros Ha. unfold noria_keys. destruct (arg_keys_defined (Z.to_nat n) args Ha) as [ks ->]. cbn. eauto. Qed.

Lemma row_defined row safe_ints mode : row <> [] -> mode_ok mode -> exists v, GetRowJS row safe_ints mode = Some v.
Proof.
  intros Hr [-> | [-> | [-> | ->]]]; cbn; eauto. destruct row as [|c row]; [congruence|]. cbn. eauto.
Qed.

Lemma row_defined_v22 row safe_ints mode : row <> [] -> mode_ok mode -> exists v, GetRowJS_v22 row safe_ints mode = Some v.
Proof.
  intros Hr [-> | [-> | [-> | ->]]]; cbn; eauto. destruct row as [|c row]; [congruence|]. cbn. eauto.
Qed.

Lemma rows_defined rows safe_ints mode : Forall (fun row => row <> []) rows -> mode_ok mode ->
  exists vs, rows_js rows safe_ints mode = Some vs.
Proof.
  intros Hr Hm. induction Hr as [|row rows Hn Hr [vs IH]]; cbn [rows_js]; [eauto|].
  destruct (row_defined_v22 row safe_ints mode Hn Hm) as [v ->]. cbn [mbind option_bind]. rewrite IH. cbn. eauto.
Qed.

Lemma all_rows_defined rows n safe_ints mode : Forall (fun row => row <> []) rows -> mode_ok mode ->
  exists vs b, all_rows rows n safe_ints mode = Some (vs, b).
Proof.
  intros Hr Hm. revert n. induction Hr as [|row rows Hn Hr IH]; intros n; cbn [all_rows]; [eauto|].
  destruct (n =? ARRAY_MAX); [eauto|]. destruct (row_defined row safe_ints mode Hn Hm) as [v ->]. cbn [mbind option_bind].
  destruct (IH (n + 1)) as (vs & b & ->). cbn. eauto.
Qed.

Section Methods.

Context {H : Type} `{NoriaFfi H}.
Context (I : Noria H -> Prop) (Hcache : cache_safe I).

(** A call on a statement, between calls. *)
Record calling (e : CallEnv) (re : Reentry H) (w : World H) (i : nat) (args : list js_value) : Prop := {
  ca_env : call_ok I e;
  ca_re : reentry_ok I re;
  ca_args : Forall small_arg args;
  ca_inv : winv I None false w;
  ca_busy : db_busy (w_db w) = false;
  ca_this : (i < length (w_stmts w))%nat
}.

Lemma notify_cdc_spec e w : call_ok I e -> winv I None false w -> db_open (w_db w) = true ->
  exists w', NotifyCdc e w = Some w' /\ winv I None false w' /\ (forall i, keeps i w w') /\ db_busy (w_db w') = db_busy (w_db w).
Proof.
  intros He W Ho. unfold NotifyCdc. destruct (wi_noria _ _ _ _ W Ho) as (n & -> & Hn).
  destruct (HasAnyViews n); cbn [negb]; [|exists w; split_and!; auto; intros; apply keeps_refl].
  destruct (co_cdc _ _ He n Hn) as (n' & -> & Hn'). cbn [mbind option_bind].
  eexists. split; [reflexivity|]. split_and!; [apply winv_set_noria; assumption|intros; apply keeps_noria|reflexivity].
Qed.

(** Execution and reset of a statement that may be used. *)
Lemma execute_spec e re w i b : call_ok I e -> reentry_ok I re -> winv I None false w -> db_open (w_db w) = true ->
  db_busy (w_db w) = true -> free_stmt w i b ->
  exists w1, step_stmt e re w i = Some w1 /\ keeps i w w1 /\ winv I (Some i) (cv_js_error e) w1 /\
    exists w2, reset_stmt w1 i = Some w2 /\ winv I None (cv_js_error e) w2 /\ db_open (w_db w2) = true /\ free_stmt w2 i b.
Proof.
  intros He Hre W Ho Hb F. pose proof F as (st & Hi & Ha & _).
  destruct (step_spec I e re w i st He Hre W Ho Hb Hi Ha) as (w1 & E1 & W1 & K1 & B1).
  destruct (ke_stmt _ _ _ K1 st Hi) as (st1 & Hi1 & Ha1 & _). rewrite Ha in Ha1.
  destruct (reset_spec I _ w1 i st1 W1 Hi1 Ha1) as (w2 & E2 & W2 & K2 & _).
  exists w1. split; [exact E1|]. split; [exact K1|]. split; [exact W1|]. exists w2. split_and!; auto.
  - rewrite (ke_open _ _ _ K2), (ke_open _ _ _ K1). exact Ho.
  - eapply free_keeps; [|exact K2]. eapply free_keeps; eauto.
Qed.

(** Where a call throws, or goes on with a statement it may use. *)
Lemma started needs m e re w i args k :
  calling e re w i args ->
  (forall w1 bound, winv I None false w1 -> db_busy (w_db w1) = true -> db_open (w_db w1) = true -> free_stmt w1 i bound ->
     ends_well I (k w1 bound)) ->
  ends_well I ('(w, r) ← STATEMENT_START needs m e re w i args;
               match r with inr err => Some (w, Thrown err) | inl bound => k w bound end).
Proof.
  intros [C1 C2 C3 C4 C5 C6] Hk. destruct (start_spec I needs m e re w i args C1 C2 C3 C4 C5 C6) as (w1 & r & -> & W1 & Hr).
  cbn [mbind option_bind]. destruct r as [bound|er]; [|apply same_ends; auto]. destruct Hr as (B & O & F). auto.
Qed.

Lemma run_safe e re w i args : calling e re w i args -> ends_well I (JS_run e re w i args).
Proof.
  intros C. unfold JS_run. apply (started false DOES_MUTATE e re w i args _ C). intros w1 bound W1 B1 O1 F1.
  pose proof (ca_env _ _ _ _ _ C) as He. rewrite (wi_handle _ _ _ _ W1), O1. cbn [negb].
  destruct (execute_spec e re w1 i bound He (ca_re _ _ _ _ _ C) W1 O1 B1 F1) as (w2 & -> & _ & _ & w3 & E3 & W3 & O3 & F3).
  cbn [mbind option_bind]. rewrite E3. cbn [mbind option_bind].
  destruct (Z.eqb_spec (cv_status e) SQLITE_OK) as [Es|Ns]; [|exact (thrown_ends I e _ w3 i bound bound (fun x => x) He W3 O3 F3)].
  assert (Ej : cv_js_error e = false) by (destruct (cv_js_error e) eqn:Ej; [destruct (co_error _ _ He Ej); contradiction|reflexivity]).
  rewrite Ej in W3. pose proof F3 as (st & Hi & _). rewrite Hi. cbn [mbind option_bind].
  destruct (run_notifies _ _ _).
  - destruct (notify_cdc_spec e w3 He W3 O3) as (w4 & -> & W4 & K4 & _). cbn [mbind option_bind].
    eapply return_ends; [exact W4|]. eapply free_keeps; [exact F3|apply K4].
  - cbn [mbind option_bind]. eapply return_ends; eauto.
Qed.

Lemma try_get_spec e w i args consistent b : call_ok I e -> Forall key_ok args -> winv I None false w -> db_open (w_db w) = true ->
  free_stmt w i b -> consistent = false ->
  exists w' v, TryNoriaGet e w i args consistent = Some (w', v) /\ winv I None false w' /\ keeps i w w' /\ db_busy (w_db w') = db_busy (w_db w).
Proof.
  intros He Hk W Ho (st & Hi & Ha & _) ->. unfold TryNoriaGet. rewrite Hi. cbn [mbind option_bind].
  assert (R : exists w' v, Some (w, None) = Some (w', v : option js_value) /\ winv I None false w' /\ keeps i w w' /\ db_busy (w_db w') = db_busy (w_db w))
    by (exists w, None; split_and!; auto; apply keeps_refl).
  destruct (st_view st <? 0); [exact R|]. destruct (st_mode st =? FLAT); cbn [negb]; [|exact R].
  destruct (wi_noria _ _ _ _ W Ho) as (n & -> & Hn). destruct (IsEnabled n); cbn [negb]; [|exact R]. cbn [mbind option_bind].
  destruct (live_handle I _ _ _ _ _ W Hi Ha) as (p & -> & _). cbn [mbind option_bind].
  destruct (noria_keys_defined (sqlite3_bind_parameter_count (Some p)) args Hk) as [keys ->]. cbn [mbind option_bind].
  destruct (cs_lookup _ Hcache n (st_view st) keys Hn) as [L1 L2].
  destruct (LookupOrUpquery n (st_view st) keys) as [n' r]. cbn [fst snd] in L1, L2.
  assert (W' : winv I None false (set_noria w (Some n'))) by (apply winv_set_noria; assumption).
  assert (K' : keeps i w (set_noria w (Some n'))) by apply keeps_noria.
  destruct ((lr_found r =? 0) && (lr_row_count r =? 0)); [eexists _, _; split_and!; eauto|].
  destruct (Z.eqb_spec (lr_row_count r) 0) as [|N]; [eexists _, _; split_and!; eauto|].
  destruct (L2 N) as (rows & -> & Hv). cbn [mbind option_bind].
  destruct (Hv (st_columns st) (st_safe_ints st)) as [v ->]. cbn [mbind option_bind]. eexists _, _. split_and!; eauto.
Qed.

Lemma get_safe e re w i args : calling e re w i args -> Forall key_ok args -> ends_well I (JS_get e re w i args).
Proof.
  intros C Hk. unfold JS_get. apply (started true DOES_NOT_MUTATE e re w i args _ C). intros w1 bound W1 B1 O1 F1.
  pose proof (ca_env _ _ _ _ _ C) as He.
  destruct (try_get_spec e w1 i args false bound He Hk W1 O1 F1 eq_refl) as (w2 & served & -> & W2 & K2 & B2). cbn [mbind option_bind].
  pose proof (free_keeps _ _ _ _ F1 K2) as F2. assert (O2 : db_open (w_db w2) = true) by (rewrite (ke_open _ _ _ K2); exact O1).
  destruct served as [v|].
  - pose proof F2 as (st & Hi & Ha & _). destruct (unless_bound_spec I None false w2 i st bound W2 Hi Ha) as (w3 & -> & W3 & _ & _).
    cbn [mbind option_bind]. apply same_ends; [apply winv_busy, W3|reflexivity].
  - destruct (execute_spec e re w2 i bound He (ca_re _ _ _ _ _ C) W2 O2) as (w3 & -> & K3 & WX & w4 & E4 & W4 & O4 & F4); [congruence|exact F2|].
    cbn [mbind option_bind]. pose proof F2 as (st & Hi & _). destruct (ke_stmt _ _ _ K3 st Hi) as (st3 & Hi3 & _).
    rewrite Hi3. cbn [mbind option_bind].
    destruct (wi_stmt _ _ _ _ WX i st3 Hi3) as [[Hm _] _].
    destruct (cv_rows e) as [|row rows] eqn:Er.
    + rewrite E4. cbn [mbind option_bind]. destruct (Z.eqb_spec (cv_status e) SQLITE_DONE) as [Es|Ns].
      * assert (Ej : cv_js_error e = false) by (destruct (cv_js_error e) eqn:Ej; [destruct (co_error _ _ He Ej) as (_ & ? & _); contradiction|reflexivity]).
        rewrite Ej in W4. eapply return_ends; eauto.
      * exact (thrown_ends I e _ w4 i bound bound (fun x => x) He W4 O4 F4).
    + assert (Ej : cv_js_error e = false) by (destruct (cv_js_error e) eqn:Ej; [destruct (co_error _ _ He Ej) as (_ & _ & ?); congruence|reflexivity]).
      rewrite Ej in W4. pose proof (co_rows _ _ He) as Hrow. rewrite Er in Hrow. apply Forall_cons in Hrow as [Hrow _].
      destruct (row_defined row (st_safe_ints st3) (st_mode st3) Hrow Hm) as [v ->]. cbn [mbind option_bind].
      rewrite E4. cbn [mbind option_bind]. eapply return_ends; eauto.
Qed.

Lemma all_safe e re w i args : calling e re w i args -> ends_well I (JS_all e re w i args).
Proof.
  intros C. unfold JS_all. apply (started true DOES_NOT_MUTATE e re w i args _ C). intros w1 bound W1 B1 O1 F1.
  pose proof (ca_env _ _ _ _ _ C) as He. pose proof F1 as (st & Hi & _). rewrite Hi. cbn [mbind option_bind].
  destruct (wi_stmt _ _ _ _ W1 i st Hi) as [[Hm _] _].
  destruct (execute_spec e re w1 i bound He (ca_re _ _ _ _ _ C) W1 O1 B1 F1) as (w2 & -> & _ & _ & w3 & E3 & W3 & O3 & F3).
  cbn [mbind option_bind]. destruct (all_rows_defined (cv_rows e) 0 (st_safe_ints st) (st_mode st) (co_rows _ _ He) Hm) as (vs & js & ->).
  cbn [mbind option_bind]. rewrite E3. cbn [mbind option_bind].
  destruct ((cv_status e =? SQLITE_OK) && negb js) eqn:Es.
  - apply andb_true_iff in Es as [Es _]. apply Z.eqb_eq in Es.
    assert (Ej : cv_js_error e = false) by (destruct (cv_js_error e) eqn:Ej; [destruct (co_error _ _ He Ej); contradiction|reflexivity]).
    rewrite Ej in W3. eapply return_ends; eauto.
  - destruct js.
    + apply (thrown_ends I e true _ i bound bound (fun _ => too_many_rows) He); [eapply winv_error; exact W3|exact O3|].
      eapply free_keeps; [exact F3|apply keeps_error].
    + exact (thrown_ends I e _ w3 i bound bound (fun x => x) He W3 O3 F3).
Qed.

Lemma all_v22_safe e re w i args : calling e re w i args -> ends_well I (JS_all_v22 e re w i args).
Proof.
  intros C. unfold JS_all_v22. apply (started true DOES_NOT_MUTATE e re w i args _ C). intros w1 bound W1 B1 O1 F1.
  pose proof (ca_env _ _ _ _ _ C) as He. pose proof F1 as (st & Hi & _). rewrite Hi. cbn [mbind option_bind].
  destruct (wi_stmt _ _ _ _ W1 i st Hi) as [[Hm _] _].
  destruct (execute_spec e re w1 i bound He (ca_re _ _ _ _ _ C) W1 O1 B1 F1) as (w2 & -> & _ & _ & w3 & E3 & W3 & O3 & F3).
  cbn [mbind option_bind].
  assert (D : exists vs, (if st_mode st =? FLAT then Some (build_rows (RowBuilder_new (st_safe_ints st)) (cv_rows e))
            else rows_js (cv_rows e) (st_safe_ints st) (st_mode st)) = Some vs).
  { destruct (st_mode st =? FLAT); [eauto|]. apply rows_defined; [apply He|exact Hm]. }
  destruct D as [vs ->]. cbn [mbind option_bind]. rewrite E3. cbn [mbind option_bind].
  destruct (Z.eqb_spec (cv_status e) SQLITE_OK) as [Es|Ns]; [|exact (thrown_ends I e _ w3 i bound bound (fun x => x) He W3 O3 F3)].
  assert (Ej : cv_js_error e = false) by (destruct (cv_js_error e) eqn:Ej; [destruct (co_error _ _ He Ej); contradiction|reflexivity]).
  rewrite Ej in W3. destruct (ARRAY_MAX <? Zlen vs); [|eapply return_ends; eauto].
  apply (thrown_ends I e true _ i bound bound (fun _ => too_many_rows) He); [eapply winv_error; exact W3|exact O3|].
  eapply free_keeps; [exact F3|apply keeps_error].
Qed.

Lemma bind_safe e re w i args : calling e re w i args -> ends_well I (JS_bind e re w i args).
Proof.
  intros [He Hre Hs W Hb Hlt]. destruct (lookup_lt_is_Some_2 _ _ Hlt) as [st Hi]. unfold JS_bind. rewrite Hi. cbn [mbind option_bind].
  destruct (first_error _) as [err|] eqn:E; [apply same_ends; auto|].
  rewrite !first_error_none in E. destruct E as (_ & Eo & _ & El & _). apply is_open in Eo. apply not_locked in El.
  pose proof (open_alive I _ _ _ _ _ W Hi) as Ha. rewrite Eo in Ha.
  destruct (bind_spec I e re w i st args He Hre Hs W Hi Ha El) as (w1 & er & -> & W1 & K1 & B1). cbn [mbind option_bind].
  destruct er as [er|]; [apply same_ends; congruence|]. destruct (ke_stmt _ _ _ K1 st Hi) as (st1 & Hi1 & A1 & L1 & _).
  rewrite Hi1. cbn [mbind option_bind]. apply same_ends; [|cbn; congruence].
  apply (winv_put I None false w1 i st1); auto. apply (wi_stmt _ _ _ _ W1 i st1 Hi1).
Qed.

Lemma options_safe w i st safe_ints mode res : winv I None false w -> db_busy (w_db w) = false -> w_stmts w !! i = Some st ->
  mode_ok mode -> ends_well I (Some (put_stmt w i (with_options st safe_ints mode), res)).
Proof.
  intros W B Hi Hm. apply same_ends; [|exact B]. apply (winv_put I None false w i st); auto.
  destruct (wi_stmt _ _ _ _ W i st Hi) as [[_ G] _]. split; [exact Hm|exact G].
Qed.

Lemma set_mode_safe mode name w i args : mode_ok mode -> winv I None false w -> db_busy (w_db w) = false ->
  (i < length (w_stmts w))%nat -> ends_well I (set_mode mode name w i args).
Proof.
  intros Hm W B Hlt. destruct (lookup_lt_is_Some_2 _ _ Hlt) as [st Hi]. unfold set_mode. rewrite Hi. cbn [mbind option_bind].
  destruct (first_error _) as [err|]; [apply same_ends; auto|]. destruct (flag_argument args) as [use|err]; [|apply same_ends; auto].
  apply options_safe; auto. destruct (wi_stmt _ _ _ _ W i st Hi) as [[Hm' _] _].
  destruct use; [exact Hm|]. destruct (_ =? _); [left; reflexivity|exact Hm'].
Qed.

Lemma safe_integers_safe w i args : winv I None false w -> db_busy (w_db w) = false ->
  (i < length (w_stmts w))%nat -> ends_well I (JS_safeIntegers w i args).
Proof.
  intros W B Hlt. destruct (lookup_lt_is_Some_2 _ _ Hlt) as [st Hi]. unfold JS_safeIntegers. rewrite Hi. cbn [mbind option_bind].
  destruct (first_error _) as [err|]; [apply same_ends; auto|]. destruct (flag_argument args) as [b|err]; [|apply same_ends; auto].
  apply options_safe; auto. apply (wi_stmt _ _ _ _ W i st Hi).
Qed.

Lemma columns_safe infos w i : winv I None false w -> db_busy (w_db w) = false ->
  (i < length (w_stmts w))%nat -> ends_well I (JS_columns infos w i).
Proof.
  intros W B Hlt. destruct (lookup_lt_is_Some_2 _ _ Hlt) as [st Hi]. unfold JS_columns. rewrite Hi. cbn [mbind option_bind].
  destruct (first_error _) as [err|] eqn:E; [apply same_ends; auto|]. rewrite !first_error_none in E.
  destruct E as (_ & Eo & _). apply is_open in Eo. pose proof (open_alive I _ _ _ _ _ W Hi) as Ha. rewrite Eo in Ha.
  destruct (live_handle I _ _ _ _ _ W Hi Ha) as (p & -> & _). cbn [mbind option_bind]. apply same_ends; auto.
Qed.

End Methods.

(** ** Counting iterators *)

Lemma alive_app l it : alive_iters (l ++ [it]) = alive_iters l + (if si_alive it then 1 else 0).
Proof.
  unfold alive_iters. rewrite filter_app, Zlen_app. f_equal. rewrite filter_cons, filter_nil.
  destruct (si_alive it); [rewrite decide_True by reflexivity|rewrite decide_False by discriminate]; reflexivity.
Qed.

Lemma alive_insert l k it it' : l !! k = Some it -> si_alive it = true -> si_alive it' = false ->
  alive_iters (<[k := it']> l) = alive_iters l - 1.
Proof.
  revert k. induction l as [|x l IH]; intros [|k] Hk Ha Ha'; try discriminate; unfold alive_iters in *.
  - injection Hk as ->. change (<[0%nat := it']> (it :: l)) with (it' :: l). rewrite !filter_cons.
    rewrite decide_False by congruence. rewrite decide_True by exact Ha. rewrite Zlen_cons. lia.
  - change (<[S k := it']> (x :: l)) with (x :: <[k := it']> l). rewrite !filter_cons. specialize (IH k Hk Ha Ha').
    destruct (decide _); rewrite ?Zlen_cons; lia.
Qed.

Lemma alive_same l k it it' : l !! k = Some it -> si_alive it' = si_alive it -> alive_iters (<[k := it']> l) = alive_iters l.
Proof.
  revert k. induction l as [|x l IH]; intros [|k] Hk Ha; try discriminate; unfold alive_iters in *.
  - injection Hk as ->. change (<[0%nat := it']> (it :: l)) with (it' :: l). rewrite !filter_cons. rewrite Ha. destruct (decide _); rewrite ?Zlen_cons; reflexivity.
  - change (<[S k := it']> (x :: l)) with (x :: <[k := it']> l). rewrite !filter_cons. specialize (IH k Hk Ha).
    destruct (decide _); rewrite ?Zlen_cons; lia.
Qed.

Lemma alive_pos l k it : l !! k = Some it -> si_alive it = true -> 1 <= alive_iters l.
Proof.
  intros Hk Ha. unfold alive_iters. assert (Hin : it ∈ filter (fun it => si_alive it = true) l).
  { apply list_elem_of_filter. split; [exact Ha|]. eapply list_elem_of_lookup_2; eauto. }
  destruct (filter _ l); [inversion Hin|]. rewrite Zlen_cons. pose proof (Zlen_nonneg l0). lia.
Qed.

Section Methods.

Context {H : Type} `{NoriaFfi H}.
Context (I : Noria H -> Prop) (Hcache : cache_safe I).

(** ** iterate *)

Lemma iterator_new_spec w i bound : winv I None false w -> db_open (w_db w) = true -> free_stmt w i bound ->
  db_iterators (w_db w) <> USHRT_MAX ->
  exists w' k, StatementIterator_new w i bound = Some (w', k) /\ winv I None false w' /\ db_busy (w_db w') = db_busy (w_db w).
Proof.
  intros W Ho (st & Hi & Ha & Hl & Hb) Hn. pose proof W as [W1 W2 W3 W4 W5 W6 W7 W8 W9 W10 W11]. unfold StatementIterator_new.
  rewrite Hi. cbn [mbind option_bind]. rewrite Ha, Hl, Hb, eqb_reflx. cbn [negb orb].
  rewrite (proj2 (Z.ltb_lt _ _)) by lia. cbn [negb].
  assert (Hc : 0 <= db_iterators (w_db w)) by (rewrite W8; unfold alive_iters; apply Zlen_nonneg).
  assert (Hu : u16 (db_iterators (w_db w) + 1) = db_iterators (w_db w) + 1) by (unfold u16, USHRT_MAX in *; apply Z.mod_small; lia).
  rewrite Hu. eexists _, _. split; [reflexivity|]. split; [|reflexivity].
  set (it := mkIter i bound (st_safe_ints st) (st_mode st) true (negb (db_has_logger (w_db w)))).
  set (st' := with_flags st true true bound). pose proof (lookup_lt_Some _ _ _ Hi) as Hlt.
  destruct (W4 i st Hi) as [[M G] [A1 A2]].
  assert (L : forall j s, <[i := st']> (w_stmts w) !! j = Some s -> (j = i /\ s = st') \/ w_stmts w !! j = Some s).
  { intros j s. rewrite list_lookup_insert_Some. intros [(-> & -> & _)|[_ E]]; auto. }
  assert (T : forall k x, (w_iters w ++ [it]) !! k = Some x -> w_iters w !! k = Some x \/ (k = length (w_iters w) /\ x = it)).
  { intros k x. rewrite lookup_app_Some. intros [E|[Hk E]]; [auto|]. apply list_lookup_singleton_Some in E as [E <-]. right. split; [lia|reflexivity]. }
  split; cbn; auto.
  - intros j s Hj. destruct (L j s Hj) as [[-> ->]|E]; [|auto]. split; [|split; [cbn; congruence|exact A2]].
    split; [exact M|]. cbn. destruct (st_handle st) as [p|]; [|congruence]. destruct G as (G1 & G2 & _). split_and!; auto. discriminate.
  - intros k x Hk. destruct (T k x Hk) as [E|[-> ->]].
    + destruct (W5 k x E) as [Mx Ax]. split; [exact Mx|]. intros Hal. destruct (Ax Hal) as (s & Es & B1 & B2).
      exists s. rewrite list_lookup_insert_ne by congruence. auto.
    + split; [exact M|]. intros _. exists st'. rewrite list_lookup_insert_eq by exact Hlt. split; [reflexivity|]. auto.
  - intros k k' x x' Hk Hk' Hx Hx' E. destruct (T k x Hk) as [Ek|[-> ->]], (T k' x' Hk') as [Ek'|[-> ->]]; eauto.
    + destruct (W5 k x Ek) as [_ Ax]. destruct (Ax Hx) as (s & Es & _ & B2). cbn in E. rewrite E in Es. congruence.
    + destruct (W5 k' x' Ek') as [_ Ax]. destruct (Ax Hx') as (s & Es & _ & B2). cbn in E. rewrite <- E in Es. congruence.
  - intros j s Hj Hlk. destruct (L j s Hj) as [[-> ->]|E].
    + exists (length (w_iters w)), it. rewrite lookup_app_r, Nat.sub_diag by lia. auto.
    + destruct (W7 j s E Hlk) as (k & x & Ek & Ax & Ex). exists k, x. rewrite lookup_app_l by (eapply lookup_lt_Some; eauto). auto.
  - rewrite alive_app. cbn. lia.
  - unfold USHRT_MAX in *. lia.
Qed.

Lemma iterate_safe e re w i args : calling I e re w i args -> ends_well I (JS_iterate e re w i args).
Proof.
  intros [He Hre Hs W Hb Hlt]. unfold JS_iterate.
  destruct (start_logic_spec I true DOES_ADD_ITERATOR e re w i args He Hre Hs W Hb Hlt) as (w1 & r & -> & W1 & B1 & K1 & Hr).
  cbn [mbind option_bind]. destruct r as [bound|er]; [|apply same_ends; auto]. destruct Hr as (O1 & F1 & N1).
  destruct (iterator_new_spec w1 i bound W1 O1 F1 (N1 eq_refl)) as (w2 & k & -> & W2 & B2). cbn [mbind option_bind].
  apply same_ends; congruence.
Qed.

(** ** next and return *)

(** A call on an iterator, between calls. *)
Definition live_iter (w : World H) (k i : nat) : Prop := exists it, w_iters w !! k = Some it /\ si_alive it = true /\ si_stmt it = i.

Lemma iter_stmt err w k i : winv I None err w -> live_iter w k i ->
  exists st, w_stmts w !! i = Some st /\ st_alive st = true /\ st_locked st = true /\ db_open (w_db w) = true.
Proof.
  intros W (it & Hk & Ha & <-). destruct (wi_iter _ _ _ _ W k it Hk) as [_ A]. destruct (A Ha) as (st & Hi & A1 & A2).
  exists st. split_and!; auto. rewrite <- (open_alive I _ _ _ _ _ W Hi). exact A1.
Qed.

Lemma cleanup_spec err w k i : winv I None err w -> live_iter w k i ->
  exists w', Cleanup w k = Some w' /\ winv I None err w' /\ db_busy (w_db w') = db_busy (w_db w) /\ db_open (w_db w') = true /\
    (exists st', w_stmts w' !! i = Some st' /\ st_alive st' = true) /\
    length (w_iters w') = length (w_iters w) /\
    (forall j x, w_iters w' !! j = Some x -> si_alive x = true -> j <> k /\ w_iters w !! j = Some x).
Proof.
  intros W Hl. destruct (iter_stmt err w k i W Hl) as (st & Hi & A1 & A2 & Ho). destruct Hl as (it & Hk & Ha & <-).
  pose proof W as [W1 W2 W3 W4 W5 W6 W7 W8 W9 W10 W11]. set (i := si_stmt it) in *. unfold Cleanup. rewrite Hk. cbn [mbind option_bind]. rewrite Ha. cbn [negb].
  cbn [put_iter set_iters w_stmts]. fold i. rewrite Hi. cbn [mbind option_bind].
  set (it' := mkIter i (si_bound it) (si_safe_ints it) (si_mode it) false (si_logged it)). set (st' := with_flags st (st_alive st) false (st_bound st)).
  pose proof (alive_pos _ _ _ Hk Ha) as Hpos. pose proof (lookup_lt_Some _ _ _ Hi) as Hlt.
  assert (Hu : u16 (db_iterators (w_db w) - 1) = db_iterators (w_db w) - 1).
  { unfold u16, USHRT_MAX in *. apply Z.mod_small. rewrite W8 in *. lia. }
  assert (L : forall j s, <[i := st']> (w_stmts w) !! j = Some s -> (j = i /\ s = st') \/ (j <> i /\ w_stmts w !! j = Some s)).
  { intros j s. rewrite list_lookup_insert_Some. intros [(-> & -> & _)|[N E]]; auto. }
  assert (T : forall j x, <[k := it']> (w_iters w) !! j = Some x -> si_alive x = true -> j <> k /\ w_iters w !! j = Some x).
  { intros j x. rewrite list_lookup_insert_Some. intros [(-> & Ex & _)|[N E]] Hx; [rewrite <- Ex in Hx; discriminate Hx|]. auto. }
  destruct (W4 i st Hi) as [[M G] [B1 B2]].
  assert (WR : winv I (Some i) err (set_iterators (put_stmt (put_iter w k it') i st') (u16 (db_iterators (w_db w) - 1)))).
  { split; cbn; auto.
    - intros j s Hj. destruct (L j s Hj) as [[-> ->]|[N E]].
      + split; [|split; auto]. split; [exact M|]. cbn. destruct (st_handle st) as [p|]; [|exact G]. destruct G as (G1 & G2 & G3). split_and!; auto.
        intros _ Hf. apply bool_decide_eq_false in Hf. congruence.
      + destruct (W4 j s E) as [[Mj Gj] Bj]. split; [|exact Bj]. split; [exact Mj|]. rewrite bool_decide_false by congruence.
        rewrite bool_decide_false in Gj by discriminate. exact Gj.
    - intros j x Hj. split.
      + rewrite list_lookup_insert_Some in Hj. destruct Hj as [(_ & <- & _)|[_ E]]; [apply (W5 _ _ Hk)|apply (W5 _ _ E)].
      + intros Hx. destruct (T j x Hj Hx) as [N E]. destruct (W5 j x E) as [_ Ax]. destruct (Ax Hx) as (s & Es & C1 & C2). exists s.
        rewrite list_lookup_insert_ne; [auto|]. intros Eq. apply N. exact (W6 j k x it E Hk Hx Ha (eq_sym Eq)).
    - intros j j' x x' Hj Hj' Hx Hx' E. destruct (T j x Hj Hx) as [_ Ej], (T j' x' Hj' Hx') as [_ Ej']. eauto.
    - intros j s Hj Hlk. destruct (L j s Hj) as [[-> ->]|[N E]]; [discriminate|]. destruct (W7 j s E Hlk) as (q & x & Eq & Ax & Ex).
      exists q, x. split; [|auto]. rewrite list_lookup_insert_ne; [exact Eq|]. intros <-. rewrite Hk in Eq. injection Eq as <-. auto.
    - rewrite Hu, W8. symmetry. apply (alive_insert _ _ it); auto.
    - rewrite Hu. lia. }
  edestruct (reset_spec I err _ i st' WR) as (w' & E' & W' & K' & B').
  { cbn. apply list_lookup_insert_eq. exact Hlt. } { exact A1. }
  cbn [put_stmt set_stmts set_iterators set_db w_db] in *. exists w'. split; [exact E'|]. split; [exact W'|]. split; [exact B'|].
  split; [rewrite (ke_open _ _ _ K'); exact Ho|].
  destruct (ke_stmt _ _ _ K' st') as (s2 & Es2 & X & _); [cbn; apply list_lookup_insert_eq; exact Hlt|].
  split; [exists s2; split; [exact Es2|]; rewrite X; exact A1|]. rewrite (ke_iters _ _ _ K'). cbn.
  split; [apply length_insert|exact T].
Qed.

Lemma iter_return_ends w k i : winv I None false w -> db_busy (w_db w) = false -> live_iter w k i -> ends_well I (Iterator_Return w k).
Proof.
  intros W B Hl. unfold Iterator_Return. destruct (cleanup_spec false w k i W Hl) as (w1 & E1 & W1 & B1 & O1 & (st' & Hi & Ha) & _).
  destruct Hl as (it & Hk & _ & <-). rewrite Hk. cbn [mbind option_bind]. rewrite E1. cbn [mbind option_bind].
  destruct (unless_bound_spec I None false w1 (si_stmt it) st' (si_bound it) W1 Hi Ha) as (w2 & -> & W2 & _ & B2). cbn [mbind option_bind].
  apply same_ends; congruence.
Qed.

(** Ending an iterator leaves the others. *)
Lemma return_effect w k : winv I None false w -> db_busy (w_db w) = false -> (k < length (w_iters w))%nat ->
  exists w' res, JS_return w k = Some (w', res) /\ winv I None false w' /\ db_busy (w_db w') = false /\
    length (w_iters w') = length (w_iters w) /\
    (forall j x, w_iters w' !! j = Some x -> si_alive x = true -> j <> k /\ w_iters w !! j = Some x).
Proof.
  intros W B Hlt. destruct (lookup_lt_is_Some_2 _ _ Hlt) as [it Hk]. unfold JS_return. rewrite Hk. cbn [mbind option_bind].
  unfold REQUIRE_DATABASE_NOT_BUSY. rewrite B. destruct (si_alive it) eqn:Ha.
  - assert (Hl : live_iter w k (si_stmt it)) by (exists it; auto). unfold Iterator_Return.
    destruct (cleanup_spec false w k _ W Hl) as (w1 & E1 & W1 & B1 & O1 & (st' & Hi & Hs) & L1 & T1).
    rewrite Hk. cbn [mbind option_bind]. rewrite E1. cbn [mbind option_bind].
    destruct (unless_bound_spec I None false w1 (si_stmt it) st' (si_bound it) W1 Hi Hs) as (w2 & -> & W2 & K2 & B2). cbn [mbind option_bind].
    eexists _, _. split; [reflexivity|]. rewrite (ke_iters _ _ _ K2). split_and!; auto. congruence.
  - eexists _, _. split; [reflexivity|]. split_and!; auto. intros j x Hj Hx. split; [|exact Hj]. intros ->. congruence.
Qed.

Lemma iter_throw_ends e err w k i : call_ok I e -> winv I None err w -> db_busy (w_db w) = false -> live_iter w k i ->
  ends_well I (Iterator_Throw e w k).
Proof.
  intros He W B Hl. unfold Iterator_Throw. destruct (cleanup_spec err w k i W Hl) as (w1 & E1 & W1 & B1 & O1 & (st' & Hi & Ha) & _).
  destruct Hl as (it & Hk & _ & <-). rewrite Hk. cbn [mbind option_bind]. rewrite E1. cbn [mbind option_bind].
  destruct (throw_logic_spec I e err w1 (si_stmt it) st' (si_bound it) He W1 O1 Hi Ha) as (w2 & er & -> & W2 & _ & B2). cbn [mbind option_bind].
  apply same_ends; congruence.
Qed.

Lemma keeps_iter i w w' k j : keeps i w w' -> live_iter w k j -> live_iter w' k j.
Proof. intros K (it & Hk & R). exists it. rewrite (ke_iters _ _ _ K). auto. Qed.

(** Marking an iterator as logged. *)
Lemma logged_spec err w k it : winv I None err w -> w_iters w !! k = Some it ->
  winv I None err (put_iter w k (mkIter (si_stmt it) (si_bound it) (si_safe_ints it) (si_mode it) (si_alive it) true)).
Proof.
  intros [W1 W2 W3 W4 W5 W6 W7 W8 W9 W10 W11] Hk. set (it' := mkIter _ _ _ _ _ _).
  assert (T : forall j x, <[k := it']> (w_iters w) !! j = Some x -> exists y, w_iters w !! j = Some y /\ si_alive x = si_alive y /\ si_stmt x = si_stmt y /\ si_mode x = si_mode y).
  { intros j x. rewrite list_lookup_insert_Some. intros [(<- & <- & _)|[N E]]; [exists it|exists x]; auto. }
  split; cbn; auto.
  - intros j x Hj. destruct (T j x Hj) as (y & Ey & A & B & C). rewrite A, B, C. exact (W5 j y Ey).
  - intros j j' x x' Hj Hj'. destruct (T j x Hj) as (y & Ey & A & B & C), (T j' x' Hj') as (y' & Ey' & A' & B' & C'). rewrite A, A', B, B'. exact (W6 j j' y y' Ey Ey').
  - intros j s Hj Hlk. destruct (W7 j s Hj Hlk) as (q & x & Eq & Ax & Ex). destruct (decide (q = k)) as [->|N].
    + rewrite Hk in Eq. injection Eq as <-. exists k, it'. rewrite list_lookup_insert_eq by (eapply lookup_lt_Some; eauto). auto.
    + exists q, x. rewrite list_lookup_insert_ne by auto. auto.
  - rewrite W8. symmetry. apply (alive_same _ _ it); auto.
Qed.

Lemma log_iter_spec e re w k it i : call_ok I e -> reentry_ok I re -> winv I None false w -> db_busy (w_db w) = true ->
  w_iters w !! k = Some it -> si_alive it = true -> si_stmt it = i ->
  exists w' t,
    (if si_logged it then Some (w, false)
     else let w := put_iter w k (mkIter (si_stmt it) (si_bound it) (si_safe_ints it) (si_mode it) (si_alive it) true) in
          Log_stmt e re w (si_stmt it)) = Some (w', t) /\
    winv I None t w' /\ db_busy (w_db w') = true /\ live_iter w' k i.
Proof.
  intros He Hre W B Hk Ha Hi. destruct (si_logged it); [exists w, false; split_and!; auto; exists it; auto|]. cbv zeta.
  pose proof (logged_spec false w k it W Hk) as W1. set (w1 := put_iter _ _ _) in *.
  assert (L1 : live_iter w1 k i).
  { eexists. split; [cbn; apply list_lookup_insert_eq; eapply lookup_lt_Some; eauto|]. auto. }
  destruct (iter_stmt false w1 k i W1 L1) as (st & Hst & A1 & A2 & Ho). rewrite Hi.
  destruct (log_stmt_spec I e re w1 i false He Hre W1 Ho) as (w2 & t & E2 & W2 & K2 & B2); [exact B|right; eauto|].
  exists w2, t. split; [exact E2|]. split; [exact W2|]. split; [exact B2|]. eapply keeps_iter; eauto.
Qed.

Lemma next_safe e re w k : call_ok I e -> reentry_ok I re -> winv I None false w -> db_busy (w_db w) = false ->
  (k < length (w_iters w))%nat -> ends_well I (JS_next e re w k).
Proof.
  intros He Hre W B Hlt. destruct (lookup_lt_is_Some_2 _ _ Hlt) as [it Hk]. unfold JS_next. rewrite Hk. cbn [mbind option_bind].
  destruct (REQUIRE_DATABASE_NOT_BUSY w); [apply same_ends; auto|]. destruct (si_alive it) eqn:Ha; [|apply same_ends; auto].
  unfold Iterator_Next. rewrite Hk. cbn [mbind option_bind]. rewrite Ha. cbn [negb].
  destruct (wi_iter _ _ _ _ W k it Hk) as [Hm _].
  destruct (log_iter_spec e re (set_busy w true) k it (si_stmt it) He Hre) as (w1 & t & E1 & W1 & B1 & L1); auto; [apply winv_busy, W|].
  rewrite Ha in E1. cbv zeta in E1. rewrite E1. cbn [mbind option_bind].
  destruct t; [apply (iter_throw_ends e true _ k (si_stmt it)); [exact He|apply winv_busy, W1|reflexivity|exact L1]|].
  destruct (iter_stmt false w1 k _ W1 L1) as (st & Hst & A1 & A2 & Ho).
  destruct (step_spec I e re w1 (si_stmt it) st He Hre W1 Ho B1 Hst A1) as (w2 & -> & W2 & K2 & B2). cbn [mbind option_bind].
  destruct (ke_stmt _ _ _ K2 st Hst) as (st2 & Hst2 & _ & Lk & _). rewrite A2 in Lk.
  pose proof (winv_stop_locked I _ _ _ _ W2 Hst2 Lk) as W3. pose proof (keeps_iter _ _ _ _ _ K2 L1) as L2.
  destruct (cv_rows e) as [|row rows] eqn:Er.
  - destruct (Z.eqb_spec (cv_status e) SQLITE_DONE) as [Es|Ns].
    + assert (Ej : cv_js_error e = false) by (destruct (cv_js_error e) eqn:Ej; [destruct (co_error _ _ He Ej) as (_ & ? & _); contradiction|reflexivity]).
      rewrite Ej in W3. apply (iter_return_ends _ k (si_stmt it)); [apply winv_busy, W3|reflexivity|exact L2].
    + apply (iter_throw_ends e (cv_js_error e) _ k (si_stmt it)); [exact He|apply winv_busy, W3|reflexivity|exact L2].
  - assert (Ej : cv_js_error e = false) by (destruct (cv_js_error e) eqn:Ej; [destruct (co_error _ _ He Ej) as (_ & _ & ?); congruence|reflexivity]).
    rewrite Ej in W3. pose proof (co_rows _ _ He) as Hrow. rewrite Er in Hrow. apply Forall_cons in Hrow as [Hrow _].
    destruct (row_defined row (si_safe_ints it) (si_mode it) Hrow Hm) as [v ->]. cbn [mbind option_bind].
    apply same_ends; [apply winv_busy, W3|reflexivity].
Qed.

Lemma return_safe w k : winv I None false w -> db_busy (w_db w) = false -> (k < length (w_iters w))%nat -> ends_well I (JS_return w k).
Proof.
  intros W B Hlt. destruct (lookup_lt_is_Some_2 _ _ Hlt) as [it Hk]. unfold JS_return. rewrite Hk. cbn [mbind option_bind].
  destruct (REQUIRE_DATABASE_NOT_BUSY w); [apply same_ends; auto|]. destruct (si_alive it) eqn:Ha; [|apply same_ends; auto].
  apply (iter_return_ends w k (si_stmt it)); auto. exists it. auto.
Qed.

End Methods.
