(* ===== verification/AddonMachine.v ===== *)
(** * Programs that use a connection

    The methods of the database, and the machine that runs a program: a list of
    calls, each with the calls that user code makes inside it.  Every program
    keeps the invariant. *)
From stdpp Require Import gmap strings.
From S2P Require Import Prelude Double Value Codes Record Strings Bind Js Binder BinderCorrect Noria NoriaSql NoriaJs StmtText Addon StatementOps DatabaseOps AddonInv AddonSafe AddonMethods.

Local Open Scope Z_scope.

Section Methods.

Context {H : Type} `{NoriaFfi H}.
Context (I : Noria H -> Prop) (Hcache : cache_safe I).

(** ** prepare *)

Record prepare_ok (pe : PrepareEnv) : Prop := {
  po_handle : forall p, pe_handle pe = Some p -> stmt_ok p;
  po_code : code_fine (pe_errcode pe)
}.

Lemma statement_new_spec w p sql returns_data : winv I None false w -> db_open (w_db w) = true -> db_busy (w_db w) = false -> stmt_ok p ->
  exists w' st, Statement_new w p sql returns_data = Some (w', length (w_stmts w)) /\ winv I None false w' /\ db_busy (w_db w') = false /\
    db_open (w_db w') = true /\ w_stmts w' !! length (w_stmts w) = Some st /\ st_alive st = true /\ st_locked st = false.
Proof.
  intros W Ho Hb Hp. pose proof W as [W1 W2 W3 W4 W5 W6 W7 W8 W9 W10 W11]. unfold Statement_new. rewrite Ho, Hb. cbn [negb orb].
  set (st := mkStatement _ _ _ _ _ _ _ _ _ _ _ _ _ _ _). eexists _, st. split; [reflexivity|].
  assert (L : forall j s, (w_stmts w ++ [st]) !! j = Some s -> w_stmts w !! j = Some s \/ (j = length (w_stmts w) /\ s = st)).
  { intros j s. rewrite lookup_app_Some. intros [E|[Hj E]]; [auto|]. apply list_lookup_singleton_Some in E as [E <-]. right. split; [lia|reflexivity]. }
  split; [|split_and!; auto; cbn; rewrite lookup_app_r, Nat.sub_diag by lia; reflexivity].
  split; cbn; auto.
  - congruence.
  - intros j s Hj. destruct (L j s Hj) as [E|[-> ->]].
    + destruct (W4 j s E) as (G & A & B). split; [exact G|]. split; [exact A|]. intros Eo. apply elem_of_app. left. auto.
    + split; [|split; [auto|intros _; apply elem_of_app; right; left]]. split; [left; reflexivity|]. cbn. split; [reflexivity|].
      pose proof (vk_ready _ (so_vdbe _ Hp)) as Hr. split; [split; [rewrite ready_id by exact Hr; exact Hp|discriminate]|auto].
  - intros k it Hk. destruct (W5 k it Hk) as [M A]. split; [exact M|]. intros Ha. destruct (A Ha) as (s & Es & X). exists s.
    rewrite lookup_app_l by (eapply lookup_lt_Some; eauto). auto.
  - intros j s Hj Hl. destruct (L j s Hj) as [E|[-> ->]]; [eauto|discriminate].
Qed.

Lemma put_ends w i st st' res : winv I None false w -> db_busy (w_db w) = false -> w_stmts w !! i = Some st ->
  st_alive st' = st_alive st -> st_locked st' = st_locked st -> stmt_good false st' -> ends_well I (Some (put_stmt w i st', res)).
Proof. intros W B Hi A L G. apply same_ends; [|exact B]. apply (winv_put I None false w i st); auto. Qed.

(** The statement after the attempt to register a view. *)
Lemma register_view_spec pe w st i : winv I None false w -> db_open (w_db w) = true -> db_busy (w_db w) = false -> w_stmts w !! i = Some st ->
  exists w' st', TryRegisterNoriaView pe w st = (w', st') /\ winv I None false w' /\ db_busy (w_db w') = false /\
    w_stmts w' !! i = Some st /\ st_alive st' = st_alive st /\ st_locked st' = st_locked st /\ (stmt_good false st -> stmt_good false st').
Proof.
  intros W Ho Hb Hi. unfold TryRegisterNoriaView.
  destruct (st_returns_data st); cbn [negb]; [|exists w, st; auto 8]. destruct (0 <=? st_view st); [exists w, st; auto 8|].
  destruct (wi_noria _ _ _ _ W Ho) as (n & -> & Hn). destruct (IsEnabled n); cbn [negb]; [|exists w, st; auto 8].
  pose proof (cs_register _ Hcache (pe_schema pe) (pe_malloc pe) n (st_sql st) Hn) as Hr.
  destruct (RegisterView (pe_schema pe) (pe_malloc pe) n (st_sql st)) as [n' view]. cbn [fst] in Hr.
  pose proof (winv_set_noria I _ _ _ _ W Hr) as W'.
  destruct (0 <=? view); [exists (set_noria w (Some n')), (CacheColumnNames pe st view)|exists (set_noria w (Some n')), st]; auto 8.
Qed.

Lemma prepare_safe pe re w pragma : prepare_ok pe -> reentry_ok I re -> winv I None false w -> db_busy (w_db w) = false ->
  ends_well I (Statement_JS_new pe re w pragma).
Proof.
  intros [Hh Hc] Hre W B. unfold Statement_JS_new. destruct (first_error _) as [err|] eqn:E; [apply same_ends; auto|].
  apply first_error_none in E as [Eo _]. apply is_open in Eo. rewrite (ro_reads _ _ Hre). cbn [mbind option_bind].
  rewrite (wi_handle _ _ _ _ W), Eo, (wi_error _ _ _ _ W). cbn [negb].
  destruct (pe_status pe =? SQLITE_OK); cbn [negb]; [|rewrite Hc; cbn [mbind option_bind]; apply same_ends; auto].
  destruct (pe_handle pe) as [p|]; [|apply same_ends; auto]. destruct (tail_scan_total (pe_tail pe)) as [ok ->]. cbn [mbind option_bind].
  destruct ok; cbn [negb]; [|apply same_ends; auto].
  edestruct (statement_new_spec w p (pe_sql pe)) as (w1 & st & -> & W1 & B1 & O1 & Hi & A1 & L1); [exact W|exact Eo|exact B|apply Hh; reflexivity|].
  cbn [mbind option_bind]. rewrite Hi. cbn [mbind option_bind]. set (rd := _ || _).
  pose proof (proj1 (wi_stmt _ _ _ _ W1 _ _ Hi)) as G1. rewrite bool_decide_false in G1 by discriminate.
  destruct (rd && negb pragma).
  - destruct (register_view_spec pe w1 st _ W1 O1 B1 Hi) as (w2 & st2 & -> & W2 & B2 & Hi2 & A2 & L2 & G2).
    apply (put_ends w2 _ st); auto; destruct (negb rd); auto; destruct (DetectStatementType _); cbn; auto.
  - apply (put_ends w1 _ st); auto; destruct (negb rd); auto; destruct (DetectStatementType _); auto.
Qed.

(** ** exec *)

Record exec_ok (e : ExecEnv) : Prop := {
  xo_tail : forall sql, snd (fst (xe_prepare e sql)) = true -> (length (snd (xe_prepare e sql)) < length sql)%nat;
  xo_error : forall sql, xe_js_error e sql = true -> xe_finalize e sql <> SQLITE_OK;
  xo_code : code_fine (xe_errcode e);
  xo_cdc : notify_total I (xe_cdc e)
}.

Lemma drop_while_length f s : (length (drop_while f s) <= length s)%nat.
Proof. induction s as [|c s IH]; cbn; [lia|]. destruct (f c); cbn; lia. Qed.

Lemma exec_loop_spec e re : exec_ok e -> reentry_ok I re -> forall fuel w sql, (length sql < fuel)%nat -> winv I None false w ->
  db_open (w_db w) = true -> db_busy (w_db w) = true ->
  exists w' s err, exec_loop fuel e re w sql = Some (w', s) /\ winv I None err w' /\ db_open (w_db w') = true /\ (s = SQLITE_OK -> err = false).
Proof.
  intros He Hre fuel. induction fuel as [|fuel IH]; intros w sql Hf W Ho Hb; [lia|]. cbn [exec_loop].
  pose proof (drop_while_length IS_SKIPPED sql). set (s0 := drop_while IS_SKIPPED sql) in *. rewrite (wi_handle _ _ _ _ W), Ho. cbn [negb].
  pose proof (xo_tail _ He s0) as Ht. destruct (xe_prepare e s0) as [[status handle] tail]. cbn [fst snd] in Ht.
  destruct handle; cbn [negb]; [|exists w, status, false; auto]. specialize (Ht eq_refl).
  assert (L : exists w1 t, (if db_has_logger (w_db w) then Log (xe_log_throws e s0) re w true else Some (w, false)) = Some (w1, t) /\
    winv I None t w1 /\ db_open (w_db w1) = true /\ db_busy (w_db w1) = true).
  { destruct (db_has_logger (w_db w)) eqn:El; [|exists w, false; auto]. unfold Log. rewrite (wi_error _ _ _ _ W), El. cbn [negb].
    destruct (ro_engine _ _ Hre None w W Ho Hb) as (w1 & -> & Q). cbn [mbind option_bind]. eexists _, _. split; [reflexivity|].
    split; [eapply winv_error, quiet_winv; eauto|]. destruct Q as (a & c & n & -> & _). auto. }
  destruct L as (w1 & t & -> & W1 & O1 & B1). cbn [mbind option_bind].
  destruct t; [exists w1, (-1), true; split_and!; auto; discriminate|].
  destruct (ro_engine _ _ Hre None w1 W1 O1 B1) as (w2 & -> & Q). cbn [mbind option_bind].
  pose proof (quiet_winv I _ _ _ _ W1 Q) as W2. rewrite (wi_error _ _ _ _ W2). cbn [orb].
  assert (O2 : db_open (w_db w2) = true /\ db_busy (w_db w2) = true) by (destruct Q as (a & c & n & -> & _); auto).
  destruct (Z.eqb_spec (xe_finalize e s0) SQLITE_OK) as [Es|Ns]; cbn [negb].
  - assert (Ej : xe_js_error e s0 = false) by (destruct (xe_js_error e s0) eqn:Ej; [destruct (xo_error _ He _ Ej Es)|reflexivity]).
    rewrite Ej. apply IH; [lia|eapply winv_error; exact W2|apply O2|apply O2].
  - eexists _, _, (xe_js_error e s0). split; [reflexivity|]. split; [eapply winv_error; exact W2|]. split; [apply O2|contradiction].
Qed.

Lemma exec_safe e re w args : exec_ok e -> reentry_ok I re -> winv I None false w -> db_busy (w_db w) = false ->
  ends_well I (Database_JS_exec e re w args).
Proof.
  intros He Hre W B. unfold Database_JS_exec. destruct (arg_string _ _ _) as [sql|err]; [|apply same_ends; auto].
  destruct (first_error _) as [err|] eqn:E; [apply same_ends; auto|]. apply first_error_none in E as [Eo _]. apply is_open in Eo.
  destruct (exec_loop_spec e re He Hre (S (length sql)) (set_busy w true) sql) as (w1 & s & er & -> & W1 & O1 & Hs); [lia|apply winv_busy, W|exact Eo|reflexivity|].
  cbn [mbind option_bind]. destruct (Z.eqb_spec s SQLITE_OK) as [->|N].
  - rewrite (Hs eq_refl) in W1. cbn [set_busy set_db w_db db_noria]. destruct (wi_noria _ _ _ _ W1 O1) as (n & -> & Hn).
    destruct (xo_cdc _ He n Hn) as (n' & -> & Hn'). cbn [mbind option_bind].
    apply same_ends; [apply winv_set_noria; [apply winv_busy, W1|exact Hn']|reflexivity].
  - cbn [set_busy set_db w_db db_was_js_error db_handle]. rewrite (wi_error _ _ _ _ W1), (wi_handle _ _ _ _ W1), O1. cbn [negb].
    destruct er; [apply same_ends; [eapply winv_error, winv_busy; exact W1|reflexivity]|].
    rewrite (xo_code _ He). cbn [mbind option_bind]. apply same_ends; [apply winv_busy, W1|reflexivity].
Qed.

(** ** Closing *)

Lemma close_stmt_dead st : st_handle (Statement_CloseHandles st) = None \/ st_alive st = false.
Proof. unfold Statement_CloseHandles. destruct (st_alive st); auto. Qed.

Lemma no_alive_iter l : alive_iters l = 0 -> forall k it, l !! k = Some it -> si_alive it = false.
Proof.
  intros E k it Hk. destruct (si_alive it) eqn:Ha; [|reflexivity]. pose proof (alive_pos _ _ _ Hk Ha). lia.
Qed.

Lemma close_handles_spec w : winv I None false w -> alive_iters (w_iters w) = 0 ->
  exists w', Database_CloseHandles w = Some w' /\ winv I None false w' /\ db_busy (w_db w') = db_busy (w_db w) /\ db_open (w_db w') = false.
Proof.
  intros W Hz. pose proof W as [W1 W2 W3 W4 W5 W6 W7 W8 W9 W10 W11]. unfold Database_CloseHandles.
  destruct (db_open (w_db w)) eqn:Ho; cbn [negb]; [|exists w; auto].
  set (w' := mkWorld _ _ _ _ _ _).
  assert (S : forall i s, w_stmts w' !! i = Some s -> exists st, w_stmts w !! i = Some st /\ s = Statement_CloseHandles st).
  { intros i s. cbn. rewrite list_lookup_imap. destruct (w_stmts w !! i) as [st|] eqn:Hi; [|discriminate]. cbn. intros [= <-].
    exists st. split; [reflexivity|]. rewrite bool_decide_true; [reflexivity|]. apply (W4 i st Hi). reflexivity. }
  assert (K : forall i b, w_backups w' !! i = Some b -> bk_open b = false /\ bk_alive b = false).
  { intros i b. cbn. rewrite list_lookup_imap. destruct (w_backups w !! i) as [b0|] eqn:Hi; [|discriminate]. cbn. intros [= <-].
    destruct (W11 i b0 Hi) as [E1 E2]. destruct (bool_decide_reflect (i ∈ db_backups (w_db w))) as [Hin|N].
    - unfold Backup_CloseHandles. destruct (bk_alive b0) eqn:Ea; [auto|]. auto.
    - destruct (bk_alive b0) eqn:Ea; [destruct N; apply E2; reflexivity|auto]. }
  assert (D : forall i s, w_stmts w' !! i = Some s -> mode_ok (st_mode s) /\ st_handle s = None /\ st_alive s = false /\ st_locked s = false).
  { intros i s Hs. destruct (S i s Hs) as (st & Hi & ->). destruct (W4 i st Hi) as [[M G] [A _]].
    assert (Hl : st_locked st = false).
    { destruct (st_locked st) eqn:Hl; [|reflexivity]. destruct (W7 i st Hi Hl) as (k & it & Hk & Ha & _).
      rewrite (no_alive_iter _ Hz k it Hk) in Ha. discriminate. }
    unfold Statement_CloseHandles. rewrite A. cbn. auto. }
  assert (N : nothing_open w' = true).
  { unfold nothing_open. apply andb_true_iff. split; apply forallb_forall; intros x Hx; apply list_elem_of_In, list_elem_of_lookup_1 in Hx as [i Hx].
    - destruct (D i x Hx) as (_ & -> & _). rewrite bool_decide_false; [reflexivity|]. intros [? ?]. discriminate.
    - destruct (K i x Hx) as [-> _]. reflexivity. }
  rewrite N. exists w'. split; [reflexivity|]. split; [|split; reflexivity]. split; cbn; auto; try discriminate.
  - intros i s Hs. destruct (D i s Hs) as (M & Eh & Ea & El). split; [|split; [exact Ea|discriminate]]. split; [exact M|]. rewrite Eh. exact Ea.
  - intros k it Hk. split; [apply (W5 k it Hk)|]. intros Ha. rewrite (no_alive_iter _ Hz k it Hk) in Ha. discriminate.
  - intros i s Hs Hl. destruct (D i s Hs) as (_ & _ & _ & El). congruence.
  - intros i b Hb. destruct (K i b Hb) as [-> ->]. split; [reflexivity|]. split; [discriminate|]. intros Hin. inversion Hin.
Qed.

Lemma winv_unregister X err w : winv I X err w -> winv I X err (unregister w).
Proof. intros []. split; cbn; auto. Qed.

Lemma close_safe w : winv I None false w -> db_busy (w_db w) = false -> ends_well I (Database_JS_close w).
Proof.
  intros W B. unfold Database_JS_close. destruct (db_open (w_db w)) eqn:Ho; [|apply same_ends; auto].
  destruct (first_error _) as [err|] eqn:E; [apply same_ends; auto|]. rewrite !first_error_none in E. destruct E as (_ & En & _).
  assert (Hz : alive_iters (w_iters w) = 0).
  { rewrite <- (wi_count _ _ _ _ W). unfold REQUIRE_DATABASE_NO_ITERATORS in En. destruct (truth _) eqn:Et; [discriminate|].
    unfold truth in Et. apply negb_false_iff, Z.eqb_eq in Et. exact Et. }
  destruct (close_handles_spec (unregister w) (winv_unregister _ _ _ W) Hz) as (w1 & -> & W1 & B1 & _). cbn [mbind option_bind].
  apply same_ends; [exact W1|]. rewrite B1. exact B.
Qed.

(** ** The other methods of the database *)

Lemma call_connection_safe busy status errcode re w : code_fine errcode -> reentry_ok I re -> winv I None false w ->
  db_busy (w_db w) = false -> ends_well I (call_connection busy status errcode re w).
Proof.
  intros Hc Hre W B. unfold call_connection. destruct (first_error _) as [err|] eqn:E; [apply same_ends; auto|].
  apply first_error_none in E as [Eo _]. apply is_open in Eo. rewrite (wi_handle _ _ _ _ W), Eo. cbn [negb].
  assert (L : exists w1, (if busy then re_engine re (if busy then set_busy w true else w) else Some (if busy then set_busy w true else w)) = Some w1 /\
    winv I None false w1 /\ db_busy (w_db (if busy then set_busy w1 false else w1)) = false).
  { destruct busy; [|exists w; auto]. destruct (ro_engine _ _ Hre None (set_busy w true)) as (w1 & E1 & Q); [apply winv_busy, W|exact Eo|reflexivity|].
    exists w1. split; [exact E1|]. split; [eapply quiet_winv; [apply winv_busy, W|exact Q]|reflexivity]. }
  destruct L as (w1 & -> & W1 & B1). cbn [mbind option_bind].
  assert (W2 : winv I None false (if busy then set_busy w1 false else w1)) by (destruct busy; [apply winv_busy|]; exact W1).
  destruct (status =? SQLITE_OK); [apply same_ends; auto|]. rewrite (wi_error _ _ _ _ W1), Hc. cbn [mbind option_bind]. apply same_ends; auto.
Qed.

Lemma flush_safe e w : flush_total I e -> winv I None false w -> db_busy (w_db w) = false -> ends_well I (Database_JS_flushCache e w).
Proof.
  intros Hf W B. unfold Database_JS_flushCache. destruct (first_error _) as [err|] eqn:E; [apply same_ends; auto|].
  apply first_error_none in E as [Eo _]. apply is_open in Eo. destruct (wi_noria _ _ _ _ W Eo) as (n & -> & Hn). cbn [mbind option_bind].
  destruct (Hf n Hn) as (n' & rc & -> & Hn'). cbn [mbind option_bind]. apply same_ends; [apply winv_set_noria; auto|exact B].
Qed.

Lemma stats_safe w : winv I None false w -> db_busy (w_db w) = false -> ends_well I (Database_JS_cacheStats w).
Proof.
  intros W B. unfold Database_JS_cacheStats. destruct (REQUIRE_DATABASE_OPEN w) as [err|] eqn:E; [apply same_ends; auto|].
  apply is_open in E. destruct (wi_noria _ _ _ _ W E) as (n & -> & Hn). cbn [mbind option_bind]. apply same_ends; auto.
Qed.

Lemma default_ints_safe w args : winv I None false w -> db_busy (w_db w) = false -> ends_well I (Database_JS_defaultSafeIntegers w args).
Proof.
  intros W B. unfold Database_JS_defaultSafeIntegers. destruct (flag_argument args); apply same_ends; auto. destruct W. split; cbn; auto.
Qed.

Lemma serialize_safe data len w : match data with Some z => len = Zlen z | None => True end ->
  winv I None false w -> db_busy (w_db w) = false -> ends_well I (Database_JS_serialize data len w).
Proof.
  intros Hd W B. unfold Database_JS_serialize. destruct (first_error _) as [err|] eqn:E; [apply same_ends; auto|].
  apply first_error_none in E as [Eo _]. apply is_open in Eo. rewrite (wi_handle _ _ _ _ W), Eo. cbn [negb].
  destruct data as [z|]; [rewrite Hd, read_n_all; cbn [mbind option_bind]|destruct (truth len)]; apply same_ends; auto.
Qed.

Lemma load_extension_safe status w : (status <> SQLITE_OK -> code_fine status) -> winv I None false w -> db_busy (w_db w) = false ->
  ends_well I (Database_JS_loadExtension status w).
Proof.
  intros Hs W B. unfold Database_JS_loadExtension. destruct (first_error _) as [err|] eqn:E; [apply same_ends; auto|].
  apply first_error_none in E as [Eo _]. apply is_open in Eo. rewrite (wi_handle _ _ _ _ W), Eo. cbn [negb].
  destruct (Z.eqb_spec status SQLITE_OK) as [|N]; [apply same_ends; auto|]. rewrite (Hs N). cbn [mbind option_bind]. apply same_ends; auto.
Qed.

(** ** Backups *)

Lemma backup_new_safe so oc init ic w unlink : code_fine oc -> code_fine ic -> winv I None false w -> db_busy (w_db w) = false ->
  ends_well I (Backup_JS_new so oc init ic w unlink).
Proof.
  intros Hoc Hic W B. unfold Backup_JS_new. destruct (first_error _) as [err|] eqn:E; [apply same_ends; auto|].
  apply first_error_none in E as [Eo _]. apply is_open in Eo. rewrite (wi_handle _ _ _ _ W), Eo. cbn [negb].
  destruct (so =? SQLITE_OK); cbn [negb]; [|rewrite Hoc; cbn [mbind option_bind]; apply same_ends; auto].
  destruct init; cbn [negb]; [|rewrite Hic; cbn [mbind option_bind]; apply same_ends; auto].
  apply same_ends; [|exact B]. destruct W as [W1 W2 W3 W4 W5 W6 W7 W8 W9 W10 W11]. split; cbn; auto; [congruence|].
  intros i b. rewrite lookup_app_Some. intros [Hi|[Hi Hb]].
  - destruct (W11 i b Hi) as [E1 E2]. split; [exact E1|]. rewrite elem_of_app, list_elem_of_singleton, E2. split; [auto|].
    intros [Hin| ->]; [exact Hin|]. apply lookup_lt_Some in Hi. lia.
  - apply list_lookup_singleton_Some in Hb as [Hb <-]. split; [reflexivity|]. rewrite elem_of_app, list_elem_of_singleton. split; [|reflexivity].
    intros _. right. lia.
Qed.

Lemma winv_backup w i b b' l : winv I None false w -> w_backups w !! i = Some b -> bk_open b' = bk_alive b' ->
  (bk_alive b' = true <-> i ∈ l) -> (forall j, j <> i -> j ∈ l <-> j ∈ db_backups (w_db w)) ->
  (db_open (w_db w) = false -> l = []) ->
  winv I None false (set_backups (set_lists w (db_stmts (w_db w)) l) (<[i := b']> (w_backups w))).
Proof.
  intros [W1 W2 W3 W4 W5 W6 W7 W8 W9 W10 W11] Hi E1 E2 Hl Hc. split; cbn; auto.
  - intros Eo. split; [apply (W3 Eo)|auto].
  - intros j x. rewrite list_lookup_insert_Some. intros [(<- & <- & _)|[N Hj]]; [auto|]. rewrite Hl by auto. auto.
Qed.

Lemma backup_close_safe w i : winv I None false w -> db_busy (w_db w) = false -> (i < length (w_backups w))%nat ->
  ends_well I (Backup_JS_close w i).
Proof.
  intros W B Hlt. destruct (lookup_lt_is_Some_2 _ _ Hlt) as [b Hi]. unfold Backup_JS_close. rewrite Hi, B. cbn [mbind option_bind].
  destruct (wi_backup _ _ _ _ W i b Hi) as [E1 E2]. unfold Backup_CloseHandles. destruct (bk_alive b) eqn:Ea.
  - apply same_ends; [|exact B]. refine (winv_backup w i b _ _ W Hi _ _ _ _); cbn; [reflexivity| | |].
    + split; [discriminate|]. rewrite list_elem_of_filter. intros [N _]. destruct N. reflexivity.
    + intros j Nj. rewrite list_elem_of_filter. tauto.
    + intros Eo. destruct (wi_closed _ _ _ _ W Eo) as [_ ->]. reflexivity.
  - apply same_ends; [|exact B]. destruct W as [W1 W2 W3 W4 W5 W6 W7 W8 W9 W10 W11]. split; cbn; auto.
    intros j x. rewrite list_lookup_insert_Some. intros [(<- & <- & _)|[N Hj]]; auto.
Qed.

(** The status of a step is a code, never [SQLITE_ROW]. *)
Definition step_ok (step : Z -> Z) : Prop := forall pages, Z.land (step pages) 0xff <> SQLITE_ROW.

Lemma backup_transfer_safe step total remaining w i b args : step_ok step -> winv I None false w -> db_busy (w_db w) = false ->
  w_backups w !! i = Some b -> (db_open (w_db w) = true -> bk_alive b = true) ->
  ends_well I (Backup_JS_transfer step total remaining w i args).
Proof.
  intros Hs W B Hi Ha. unfold Backup_JS_transfer. rewrite Hi. cbn [mbind option_bind]. destruct (arg_int32 _ _ _) as [pages|err]; [|apply same_ends; auto].
  unfold REQUIRE_DATABASE_OPEN. destruct (db_open (w_db w)) eqn:Eo; [|apply same_ends; auto]. rewrite B, (Ha eq_refl). cbn [orb negb].
  pose proof (Hs pages) as Hp. set (status := Z.land (step pages) 0xff) in *.
  destruct ((status =? SQLITE_OK) || (status =? SQLITE_DONE) || (status =? SQLITE_BUSY)) eqn:E.
  - apply same_ends; [|exact B]. destruct (wi_backup _ _ _ _ W i b Hi) as [E1 E2]. destruct W as [W1 W2 W3 W4 W5 W6 W7 W8 W9 W10 W11]. split; cbn; auto.
    intros j x. rewrite list_lookup_insert_Some. intros [(<- & <- & _)|[N Hj]]; [|auto]. pose proof (Ha eq_refl) as Hal. destruct (status =? SQLITE_DONE); cbn; rewrite ?Hal in *; auto.
  - assert (Hl : Z.land status 0xff = status) by (unfold status; rewrite <- Z.land_assoc, Z.land_diag; reflexivity).
    apply orb_false_iff in E as [E _]. apply orb_false_iff in E as [Ek Ed]. unfold ThrowSqliteError. rewrite Hl, Ek, Ed, (proj2 (Z.eqb_neq _ _) Hp).
    cbn [orb mbind option_bind]. apply same_ends; auto.
Qed.

Lemma unsafe_mode_safe w args : winv I None false w -> db_busy (w_db w) = false -> db_open (w_db w) = true -> ends_well I (Database_JS_unsafeMode w args).
Proof.
  intros W B Ho. unfold Database_JS_unsafeMode. destruct (flag_argument args); [|apply same_ends; auto].
  cbn [set_options set_db w_db db_handle]. rewrite (wi_handle _ _ _ _ W), Ho. cbn [negb]. apply same_ends; [|exact B]. destruct W. split; cbn; auto.
Qed.

(** ** Programs *)

(** A call of a method with its arguments and what SQLite answers. *)
Inductive method :=
  | MRun (e : CallEnv) (this : nat) (args : list js_value)
  | MGet (e : CallEnv) (this : nat) (args : list js_value)
  | MAll (e : CallEnv) (this : nat) (args : list js_value)
  | MAll22 (e : CallEnv) (this : nat) (args : list js_value)
  | MIterate (e : CallEnv) (this : nat) (args : list js_value)
  | MBind (e : CallEnv) (this : nat) (args : list js_value)
  | MPluck (this : nat) (args : list js_value)
  | MExpand (this : nat) (args : list js_value)
  | MRaw (this : nat) (args : list js_value)
  | MSafeIntegers (this : nat) (args : list js_value)
  | MColumns (infos : list ColumnInfo) (this : nat)
  | MNext (e : CallEnv) (this : nat)
  | MReturn (this : nat)
  | MPrepare (pe : PrepareEnv) (args : list js_value)
  | MExec (e : ExecEnv) (args : list js_value)
  | MClose
  | MFunction (create : Z -> Z) (errcode : Z) (deterministic direct_only : bool)
  | MAggregate (create : Z -> bool -> Z) (errcode : Z) (deterministic direct_only has_inverse : bool)
  | MTable (status errcode : Z)
  | MLoadExtension (status : Z)
  | MSerialize (data : option (list Z)) (length : Z)
  | MDefaultSafeIntegers (args : list js_value)
  | MUnsafeMode (args : list js_value)
  | MCacheStats
  | MFlushCache (e : CdcEnv)
  | MBackup (open_status open_errcode : Z) (init : bool) (init_errcode : Z) (args : list js_value)
  | MBackupTransfer (step : Z -> Z) (total remaining : Z) (this : nat) (args : list js_value)
  | MBackupClose (this : nat).

(** There is no object behind a pointer that was never returned. *)
Definition on (n this : nat) (w : World H) (r : option (World H * result)) : option (World H * result) :=
  if (this <? n)%nat then r else Some (w, Returned JUndefined).

Definition invoke (m : method) (re : Reentry H) (w : World H) : option (World H * result) :=
  let stmts := length (w_stmts w) in
  match m with
  | MRun e this args => on stmts this w (JS_run e re w this args)
  | MGet e this args => on stmts this w (JS_get e re w this args)
  | MAll e this args => on stmts this w (JS_all e re w this args)
  | MAll22 e this args => on stmts this w (JS_all_v22 e re w this args)
  | MIterate e this args => on stmts this w (JS_iterate e re w this args)
  | MBind e this args => on stmts this w (JS_bind e re w this args)
  | MPluck this args => on stmts this w (JS_pluck w this args)
  | MExpand this args => on stmts this w (JS_expand w this args)
  | MRaw this args => on stmts this w (JS_raw w this args)
  | MSafeIntegers this args => on stmts this w (JS_safeIntegers w this args)
  | MColumns infos this => on stmts this w (JS_columns infos w this)
  | MNext e this => on (length (w_iters w)) this w (JS_next e re w this)
  | MReturn this => on (length (w_iters w)) this w (JS_return w this)
  | MPrepare pe args => Database_JS_prepare pe re w args
  | MExec e args => Database_JS_exec e re w args
  | MClose => Database_JS_close w
  | MFunction create errcode d o => Database_JS_function create errcode re w d o
  | MAggregate create errcode d o i => Database_JS_aggregate create errcode re w d o i
  | MTable status errcode => Database_JS_table status errcode re w
  | MLoadExtension status => Database_JS_loadExtension status w
  | MSerialize data len => Database_JS_serialize data len w
  | MDefaultSafeIntegers args => Database_JS_defaultSafeIntegers w args
  | MUnsafeMode args => Database_JS_unsafeMode w args
  | MCacheStats => Database_JS_cacheStats w
  | MFlushCache e => Database_JS_flushCache e w
  | MBackup so oc init ic args => Database_JS_backup so oc init ic w args
  | MBackupTransfer step total remaining this args =>
      on (length (w_backups w)) this w (Backup_JS_transfer step total remaining w this args)
  | MBackupClose this => on (length (w_backups w)) this w (Backup_JS_close w this)
  end.

(** A call with the calls user code makes inside it, before the connection is
    busy ([reads]) and while it is ([engine]), and with what the hooks record. *)
Inductive call := Call (m : method) (reads engine : list call) (hook : Noria H -> Noria H).

Definition run_hook (hook : Noria H -> Noria H) (w : World H) : World H := set_noria w (hook <$> db_noria (w_db w)).

Fixpoint exec_call (c : call) (w : World H) : option (World H) :=
  let run := fix run (l : list call) (w : World H) : option (World H) :=
    match l with [] => Some w | c :: l => w ← exec_call c w; run l w end in
  match c with
  | Call m reads engine hook =>
      '(w, _) ← invoke m (mkReentry (run reads) (fun w => w ← run engine w; Some (run_hook hook w))) w;
      Some w
  end.

Fixpoint exec_calls (l : list call) (w : World H) : option (World H) :=
  match l with [] => Some w | c :: l => w ← exec_call c w; exec_calls l w end.

End Methods.
