(* ===== verification/AddonCorrect.v ===== *)
(** * Correctness of the addon

    Programs of calls, with the calls user code makes inside them, are safe; a
    busy connection is left alone. *)
From stdpp Require Import gmap strings.
From S2P Require Import Prelude Double Value Record Strings Bind Js Binder BinderCorrect Noria NoriaSql NoriaJs StmtText Addon StatementOps DatabaseOps AddonInv AddonSafe AddonMethods AddonMachine.

Local Open Scope Z_scope.

Section Programs.

Context {H : Type} `{NoriaFfi H}.
Context (I : Noria H -> Prop) (Hcache : cache_safe I).

(** What is assumed of a call: SQLite answers as documented, strings have an
    [int] length, and the keys of a lookup fit their type. *)
Definition method_ok (m : method) : Prop :=
  match m with
  | MRun e _ args | MAll e _ args | MAll22 e _ args | MIterate e _ args | MBind e _ args => call_ok I e /\ Forall small_arg args
  | MGet e _ args => call_ok I e /\ Forall small_arg args /\ Forall key_ok args
  | MNext e _ => call_ok I e
  | MPrepare pe _ => prepare_ok pe
  | MExec e _ => exec_ok I e
  | MFunction _ c _ _ | MAggregate _ c _ _ _ | MTable _ c => code_fine c
  | MLoadExtension status => status <> SQLITE_OK -> code_fine status
  | MSerialize data len => match data with Some z => len = Zlen z | None => True end
  | MFlushCache e => flush_total I e
  | MBackup _ oc _ ic _ => code_fine oc /\ code_fine ic
  | MBackupTransfer step _ _ _ _ => step_ok step
  | _ => True
  end.

(** The three methods that lack a guard: [unsafeMode] needs an open connection,
    [transfer] one that is not busy and a backup that is not closed, [close] of a
    backup a connection that is not busy. *)
Definition proper (m : method) (w : World H) : bool :=
  match m with
  | MUnsafeMode _ => db_open (w_db w)
  | MBackupTransfer _ _ _ this _ =>
      negb (db_open (w_db w)) || (negb (db_busy (w_db w)) && match w_backups w !! this with Some b => bk_alive b | None => true end)
  | MBackupClose _ => negb (db_busy (w_db w))
  | _ => true
  end.

(** While a query runs, code it calls does not use backups. *)
Definition nested_ok (m : method) : Prop := match m with MBackupClose _ | MBackupTransfer _ _ _ _ _ => False | _ => True end.

(** ** While the connection is busy *)

Definition stays_quiet (w : World H) (r : option (World H * result)) : Prop :=
  exists a b res, r = Some (set_options w a b, res).

Lemma quiet_same w res : stays_quiet w (Some (w, res)).
Proof. exists (db_safe_ints (w_db w)), (db_unsafe_mode (w_db w)), res. destruct w as [[] ? ? ? ? ?]. reflexivity. Qed.

Lemma options_quiet X w a b : winv I X false w -> quiet I w (set_options w a b).
Proof. intros W. exists a, b, (db_noria (w_db w)). split; [destruct w as [[] ? ? ? ? ?]; reflexivity|apply W]. Qed.

Lemma busy_error (w : World H) l1 l2 : db_busy (w_db w) = true -> exists err, first_error (l1 ++ REQUIRE_DATABASE_NOT_BUSY w :: l2) = Some err.
Proof.
  intros B. destruct (first_error _) eqn:E; [eauto|]. exfalso. induction l1 as [|a l1 IH]; cbn [app] in E; apply first_error_none in E as [E1 E2]; [|auto].
  apply not_busy in E1. congruence.
Qed.

Lemma busy_logic needs m e re X w i args st : winv I X false w -> db_busy (w_db w) = true -> w_stmts w !! i = Some st ->
  exists err, STATEMENT_START_LOGIC needs m e re w i args = Some (w, inr err).
Proof.
  intros W B Hi. unfold STATEMENT_START_LOGIC. rewrite Hi. cbn [mbind option_bind].
  destruct (busy_error w [check_data needs st; REQUIRE_DATABASE_OPEN w] [check_mutate m w st] B) as [err E].
  cbn [app] in E. rewrite E. eauto.
Qed.

Lemma busy_start needs m e re X w i args st : winv I X false w -> db_busy (w_db w) = true -> w_stmts w !! i = Some st ->
  exists err, STATEMENT_START needs m e re w i args = Some (w, inr err).
Proof.
  intros W B Hi. unfold STATEMENT_START. destruct (busy_logic needs m e re X w i args st W B Hi) as [err ->]. cbn. eauto.
Qed.

Lemma busy_guard w l1 l2 k res : db_busy (w_db w) = true ->
  (forall err, res err = Some (w, Thrown err)) ->
  stays_quiet w (match first_error (l1 ++ REQUIRE_DATABASE_NOT_BUSY w :: l2) with Some err => res err | None => k end).
Proof. intros B Hr. destruct (busy_error w l1 l2 B) as [err ->]. rewrite Hr. apply quiet_same. Qed.

Lemma quiet_on n this w r : ((this < n)%nat -> stays_quiet w r) -> stays_quiet w (on n this w r).
Proof. intros Hr. unfold on. destruct (Nat.ltb_spec this n) as [L|L]; [auto|]. apply quiet_same. Qed.

Lemma busy_statement m re X w i st : winv I X false w -> db_busy (w_db w) = true -> w_stmts w !! i = Some st ->
  stays_quiet w (match m with
    | MRun e _ args => JS_run e re w i args | MGet e _ args => JS_get e re w i args | MAll e _ args => JS_all e re w i args
    | MAll22 e _ args => JS_all_v22 e re w i args | MIterate e _ args => JS_iterate e re w i args | MBind e _ args => JS_bind e re w i args
    | MPluck _ args => JS_pluck w i args | MExpand _ args => JS_expand w i args | MRaw _ args => JS_raw w i args
    | MSafeIntegers _ args => JS_safeIntegers w i args | MColumns infos _ => JS_columns infos w i | _ => Some (w, ReturnedThis) end).
Proof.
  intros W B Hi.
  destruct m; try (apply quiet_same);
    try (unfold JS_run, JS_get, JS_all, JS_all_v22;
         match goal with |- context [STATEMENT_START ?n ?c ?e ?r ?w ?i ?a] => destruct (busy_start n c e r X w i a st W B Hi) as [err ->] end;
         cbn [mbind option_bind]; apply quiet_same).
  - unfold JS_iterate. destruct (busy_logic true DOES_ADD_ITERATOR e re X w i args st W B Hi) as [err ->]. cbn [mbind option_bind]. apply quiet_same.
  - unfold JS_bind. rewrite Hi. cbn [mbind option_bind].
    match goal with |- context [first_error [?a; ?b; ?c; ?d]] => eapply (busy_guard w [a; b] [d]) end; eauto.
  - unfold JS_pluck, set_mode. rewrite Hi. cbn [mbind option_bind].
    match goal with |- context [first_error [?a; ?b; ?c]] => eapply (busy_guard w [a] [c]) end; eauto.
  - unfold JS_expand, set_mode. rewrite Hi. cbn [mbind option_bind].
    match goal with |- context [first_error [?a; ?b; ?c]] => eapply (busy_guard w [a] [c]) end; eauto.
  - unfold JS_raw, set_mode. rewrite Hi. cbn [mbind option_bind].
    match goal with |- context [first_error [?a; ?b; ?c]] => eapply (busy_guard w [a] [c]) end; eauto.
  - unfold JS_safeIntegers. rewrite Hi. cbn [mbind option_bind].
    match goal with |- context [first_error [?a; ?b]] => eapply (busy_guard w [] [b]) end; eauto.
  - unfold JS_columns. rewrite Hi. cbn [mbind option_bind].
    match goal with |- context [first_error [?a; ?b; ?c]] => eapply (busy_guard w [a; b] []) end; eauto.
Qed.

(** Any call, made while the connection is busy. *)
Lemma busy_quiet m re X w : method_ok m -> nested_ok m -> winv I X false w -> db_open (w_db w) = true -> db_busy (w_db w) = true ->
  stays_quiet w (invoke m re w).
Proof.
  intros Hm Hn W Ho B.
  destruct m; cbn [invoke nested_ok] in *; try contradiction;
    try (apply quiet_on; intros Hlt; destruct (lookup_lt_is_Some_2 _ _ Hlt) as [st Hi]).
  - exact (busy_statement (MRun e this args) re X w this st W B Hi).
  - exact (busy_statement (MGet e this args) re X w this st W B Hi).
  - exact (busy_statement (MAll e this args) re X w this st W B Hi).
  - exact (busy_statement (MAll22 e this args) re X w this st W B Hi).
  - exact (busy_statement (MIterate e this args) re X w this st W B Hi).
  - exact (busy_statement (MBind e this args) re X w this st W B Hi).
  - exact (busy_statement (MPluck this args) re X w this st W B Hi).
  - exact (busy_statement (MExpand this args) re X w this st W B Hi).
  - exact (busy_statement (MRaw this args) re X w this st W B Hi).
  - exact (busy_statement (MSafeIntegers this args) re X w this st W B Hi).
  - exact (busy_statement (MColumns infos this) re X w this st W B Hi).
  - unfold JS_next. rewrite Hi. cbn [mbind option_bind]. unfold REQUIRE_DATABASE_NOT_BUSY. rewrite B. apply quiet_same.
  - unfold JS_return. rewrite Hi. cbn [mbind option_bind]. unfold REQUIRE_DATABASE_NOT_BUSY. rewrite B. apply quiet_same.
  - unfold Database_JS_prepare. destruct (arg_string _ _ _); [|apply quiet_same]. destruct (arg_object _ _ _); [|apply quiet_same].
    destruct (arg_boolean _ _ _); [|apply quiet_same]. unfold Statement_JS_new. eapply (busy_guard w [_]); eauto.
  - unfold Database_JS_exec. destruct (arg_string _ _ _); [|apply quiet_same]. eapply (busy_guard w [_]); eauto.
  - unfold Database_JS_close. rewrite Ho. eapply (busy_guard w []); eauto.
  - unfold Database_JS_function, call_connection. eapply (busy_guard w [_]); eauto.
  - unfold Database_JS_aggregate, call_connection. eapply (busy_guard w [_]); eauto.
  - unfold Database_JS_table, call_connection. eapply (busy_guard w [_]); eauto.
  - unfold Database_JS_loadExtension. eapply (busy_guard w [_]); eauto.
  - unfold Database_JS_serialize. eapply (busy_guard w [_]); eauto.
  - unfold Database_JS_defaultSafeIntegers. destruct (flag_argument args) as [b|]; [|apply quiet_same].
    exists b, (db_unsafe_mode (w_db w)), (Returned JUndefined). reflexivity.
  - unfold Database_JS_unsafeMode. destruct (flag_argument args) as [b|]; [|apply quiet_same].
    cbn [set_options set_db w_db db_handle]. rewrite (wi_handle _ _ _ _ W), Ho. cbn [negb].
    exists (db_safe_ints (w_db w)), b, (Returned JUndefined). reflexivity.
  - unfold Database_JS_cacheStats. unfold REQUIRE_DATABASE_OPEN. rewrite Ho. destruct (wi_noria _ _ _ _ W Ho) as (n & -> & _).
    cbn [mbind option_bind]. apply quiet_same.
  - unfold Database_JS_flushCache. eapply (busy_guard w [_]); eauto.
  - unfold Database_JS_backup. destruct (arg_object _ _ _); [|apply quiet_same]. destruct (arg_string _ 1 _); [|apply quiet_same].
    destruct (arg_string _ 2 _); [|apply quiet_same]. destruct (arg_boolean _ _ _); [|apply quiet_same].
    unfold Backup_JS_new. eapply (busy_guard w [_]); eauto.
Qed.

(** ** Between calls *)

Lemma ends_on n this w r : winv I None false w -> db_busy (w_db w) = false -> ((this < n)%nat -> ends_well I r) -> ends_well I (on n this w r).
Proof. intros W B Hr. unfold on. destruct (Nat.ltb_spec this n) as [L|L]; [auto|]. apply same_ends; auto. Qed.

Lemma invoke_safe m re w : method_ok m -> proper m w = true -> reentry_ok I re -> winv I None false w -> db_busy (w_db w) = false ->
  ends_well I (invoke m re w).
Proof.
  intros Hm Ht Hre W B. destruct m; cbn [invoke method_ok proper] in *;
    try (apply ends_on; [exact W|exact B|]; intros Hlt).
  - apply run_safe. destruct Hm. split; auto.
  - destruct Hm as (A1 & A2 & A3). apply get_safe; [exact Hcache| |exact A3]. split; auto.
  - apply all_safe. destruct Hm. split; auto.
  - apply all_v22_safe. destruct Hm. split; auto.
  - apply iterate_safe. destruct Hm. split; auto.
  - apply bind_safe. destruct Hm. split; auto.
  - apply set_mode_safe; auto. unfold mode_ok. auto.
  - apply set_mode_safe; auto. unfold mode_ok. auto.
  - apply set_mode_safe; auto. unfold mode_ok. auto.
  - apply safe_integers_safe; auto.
  - apply columns_safe; auto.
  - apply next_safe; auto.
  - apply return_safe; auto.
  - unfold Database_JS_prepare. destruct (arg_string _ _ _); [|apply same_ends; auto]. destruct (arg_object _ _ _); [|apply same_ends; auto].
    destruct (arg_boolean _ _ _); [|apply same_ends; auto]. apply prepare_safe; auto.
  - apply exec_safe; auto.
  - apply close_safe; auto.
  - apply call_connection_safe; auto.
  - apply call_connection_safe; auto.
  - apply call_connection_safe; auto.
  - apply load_extension_safe; auto.
  - apply serialize_safe; auto.
  - apply default_ints_safe; auto.
  - apply unsafe_mode_safe; auto.
  - apply stats_safe; auto.
  - apply flush_safe; auto.
  - unfold Database_JS_backup. destruct Hm. destruct (arg_object _ _ _); [|apply same_ends; auto]. destruct (arg_string _ 1 _); [|apply same_ends; auto].
    destruct (arg_string _ 2 _); [|apply same_ends; auto]. destruct (arg_boolean _ _ _); [|apply same_ends; auto]. apply backup_new_safe; auto.
  - destruct (lookup_lt_is_Some_2 _ _ Hlt) as [b Hb]. rewrite Hb in Ht. apply (backup_transfer_safe I _ _ _ w this b); auto.
    intros Ho. rewrite Ho, B in Ht. exact Ht.
  - apply backup_close_safe; auto.
Qed.

(** ** Programs *)

(** A call that user code makes while the connection is busy; what is inside it
    is never reached. *)
Inductive nested_call : call (H := H) -> Prop :=
  | nested_intro m reads engine hook : method_ok m -> nested_ok m -> nested_call (Call m reads engine hook).

(** A call of the program: the reads of its arguments run no code, and the hooks
    keep the invariant of the cache. *)
Inductive careful : call (H := H) -> Prop :=
  | careful_intro m engine hook : method_ok m -> Forall nested_call engine -> (forall n, I n -> I (hook n)) ->
      careful (Call m [] engine hook).

Lemma exec_call_eq m reads engine hook w :
  exec_call (Call m reads engine hook) w =
  ('(w, _) ← invoke m (mkReentry (exec_calls reads) (fun w => w ← exec_calls engine w; Some (run_hook hook w))) w; Some w).
Proof. reflexivity. Qed.

Lemma nested_quiet l X w : Forall nested_call l -> winv I X false w -> db_open (w_db w) = true -> db_busy (w_db w) = true ->
  exists w', exec_calls l w = Some w' /\ quiet I w w'.
Proof.
  intros Hl. revert w. induction Hl as [|c l Hc Hl IH]; intros w W Ho B; cbn [exec_calls].
  - exists w. split; [reflexivity|exact (quiet_refl I X false w W)].
  - destruct Hc as [m reads engine hook Hm Hn]. rewrite exec_call_eq.
    match goal with |- context [invoke m ?re w] => destruct (busy_quiet m re X w Hm Hn W Ho B) as (a & b & res & ->) end. cbn [mbind option_bind].
    pose proof (options_quiet X w a b W) as Q. destruct (IH (set_options w a b)) as (w2 & -> & Q2); [exact (quiet_winv I _ _ _ _ W Q)|exact Ho|exact B|].
    exists w2. split; [reflexivity|]. exact (quiet_trans I _ _ _ Q Q2).
Qed.

Lemma reentry_of engine hook : Forall nested_call engine -> (forall n, I n -> I (hook n)) ->
  reentry_ok I (mkReentry (exec_calls []) (fun w => w ← exec_calls engine w; Some (run_hook hook w))).
Proof.
  intros He Hh. split; cbn [re_reads re_engine]; [reflexivity|]. intros X w W Ho B.
  destruct (nested_quiet engine X w He W Ho B) as (w1 & -> & Q). cbn [mbind option_bind]. exists (run_hook hook w1). split; [reflexivity|].
  eapply quiet_trans; [exact Q|]. pose proof (quiet_winv I _ _ _ _ W Q) as W1. exists (db_safe_ints (w_db w1)), (db_unsafe_mode (w_db w1)), (hook <$> db_noria (w_db w1)).
  split; [destruct w1 as [[] ? ? ? ? ?]; reflexivity|]. intros Ho1. destruct (wi_noria _ _ _ _ W1 Ho1) as (n & -> & Hn). cbn. eauto.
Qed.

(** Each call of the program is proper in the state in which it is made. *)
Fixpoint proper_run (script : list (call (H := H))) (w : World H) : bool :=
  match script with
  | [] => true
  | Call m reads engine hook :: script =>
      proper m w && match exec_call (Call m reads engine hook) w with Some w => proper_run script w | None => true end
  end.

Lemma careful_safe script w : Forall careful script -> proper_run script w = true -> winv I None false w -> db_busy (w_db w) = false ->
  exists w', exec_calls script w = Some w' /\ winv I None false w' /\ db_busy (w_db w') = false.
Proof.
  intros Hs. revert w. induction Hs as [|c script Hc Hs IH]; intros w Hp W B; cbn [exec_calls]; [exists w; auto|].
  destruct Hc as [m engine hook Hm He Hh]. cbn [proper_run] in Hp. apply andb_true_iff in Hp as [Ht Hp]. rewrite exec_call_eq in *.
  destruct (invoke_safe m _ w Hm Ht (reentry_of engine hook He Hh) W B) as (w1 & res & E & W1 & B1).
  rewrite E in *. cbn [mbind option_bind] in *. auto.
Qed.

Lemma new_database_inv e readonly must_exist has_logger buffer w : I (Noria_new (oe_create e) true []) ->
  Database_JS_new e readonly must_exist has_logger buffer = Some (inl w) -> winv I None false w /\ db_busy (w_db w) = false.
Proof.
  intros Hn. unfold Database_JS_new. destruct (oe_open e _ =? SQLITE_OK); cbn [negb]; [|destruct (ThrowSqliteError _); discriminate].
  destruct (match buffer with Some z => _ | None => _ end) as [[err|]|]; cbn [mbind option_bind]; try discriminate.
  intros [= <-]. split; [|reflexivity]. split; cbn; auto; try discriminate; try lia; try (intros; discriminate); eauto.
Qed.

End Programs.


(** C11: a busy connection can only be configured.  While a statement executes,
    whatever method user code calls on the connection or one of its statements and
    iterators, the call returns or throws and changes nothing except the two options
    of the database; in particular nothing is finalized, bound, closed or reset
    under the running statement.  The same holds of making a backup; but [transfer]
    and [close] of an existing backup fail an assertion instead of throwing. *)
Theorem busy_connection_quiet {H} `{NoriaFfi H} (I : Noria H -> Prop) m re running w :
  method_ok I m -> winv I running false w -> db_open (w_db w) = true -> db_busy (w_db w) = true ->
  match m with
  | MBackupTransfer _ _ _ this args =>
      (this < length (w_backups w))%nat -> forall pages, arg_int32 args 0 "Expected first argument to be a 32-bit signed integer" = inl pages -> invoke m re w = None
  | MBackupClose this => (this < length (w_backups w))%nat -> invoke m re w = None
  | _ => exists a b res, invoke m re w = Some (set_options w a b, res)
  end.
Proof.
  intros Hm W Ho B. destruct m; try exact (busy_quiet I _ re running w Hm Logic.I W Ho B).
  - intros Hlt pages Hp. cbn [invoke]. unfold on. rewrite (proj2 (Nat.ltb_lt _ _) Hlt). destruct (lookup_lt_is_Some_2 _ _ Hlt) as [b Hb].
    unfold Backup_JS_transfer. rewrite Hb. cbn [mbind option_bind]. rewrite Hp. unfold REQUIRE_DATABASE_OPEN. rewrite Ho, B. reflexivity.
  - intros Hlt. cbn [invoke]. unfold on. rewrite (proj2 (Nat.ltb_lt _ _) Hlt). destruct (lookup_lt_is_Some_2 _ _ Hlt) as [b Hb].
    unfold Backup_JS_close. rewrite Hb. cbn [mbind option_bind]. rewrite B. reflexivity.
Qed.

(** C34: arguments are read before the connection is marked busy.  In every state
    in which the connection is open, not busy and without live iterators, take a
    statement that returns data and has no bound parameters, and call [get] with an
    array whose first element has a getter that closes the connection: the getter's
    [close] succeeds, and the binder then uses the finalized statement. *)
Theorem getter_can_close_connection {H} `{NoriaFfi H} (I : Noria H -> Prop) w i st e x arr args engine hook :
  winv I None false w -> db_open (w_db w) = true -> db_busy (w_db w) = false -> alive_iters (w_iters w) = 0 ->
  w_stmts w !! i = Some st -> st_returns_data st = true -> st_bound st = false ->
  (exists w', exec_call (Call MClose [] [] id) w = Some w' /\ db_open (w_db w') = false) /\
  exec_call (Call (MGet e i (JArray (x :: arr) :: args)) [Call MClose [] [] id] engine hook) w = None.
Proof.
  intros W Ho B Hz Hi Hd Hb.
  destruct (close_handles_spec I (unregister w) (winv_unregister _ _ _ _ W) Hz) as (w1 & Ec & W1 & _ & O1).
  assert (C : exec_call (Call MClose [] [] id) w = Some w1).
  { rewrite exec_call_eq. cbn [invoke]. unfold Database_JS_close. rewrite Ho. unfold REQUIRE_DATABASE_NOT_BUSY, REQUIRE_DATABASE_NO_ITERATORS.
    rewrite B, (wi_count _ _ _ _ W), Hz. cbn [first_error truth Z.eqb negb]. cbn. rewrite Ec. reflexivity. }
  split; [eauto|]. rewrite exec_call_eq. cbn [invoke]. unfold on. rewrite (proj2 (Nat.ltb_lt _ _) (lookup_lt_Some _ _ _ Hi)).
  assert (L : st_locked st = false).
  { destruct (st_locked st) eqn:El; [|reflexivity]. destruct (wi_locked _ _ _ _ W i st Hi El) as (k & it & Hk & Ha & _).
    rewrite (no_alive_iter _ Hz k it Hk) in Ha. discriminate. }
  unfold JS_get, STATEMENT_START, STATEMENT_START_LOGIC. rewrite Hi. cbn [mbind option_bind].
  unfold check_data, check_mutate, REQUIRE_DATABASE_OPEN, REQUIRE_DATABASE_NOT_BUSY, REQUIRE_STATEMENT_NOT_LOCKED. rewrite Hd, Ho, B, L, Hb. cbn [first_error negb andb head omap list_omap].
  unfold STATEMENT_BIND. cbn [re_reads exec_calls]. rewrite C. cbn [mbind option_bind].
  destruct (w_stmts w1 !! i) as [st1|] eqn:Hi1; [|reflexivity]. cbn [mbind option_bind].
  destruct (wi_stmt _ _ _ _ W1 i st1 Hi1) as ((_ & G) & Al & _). rewrite O1 in Al.
  destruct (st_handle st1); [destruct G; congruence|reflexivity].
Qed.
