(* ===== verification/AddonDemo.v ===== *)
(** * A connection to run the addon on

    An engine that accepts no view, answers for a small table, and a program:
    the objects of the examples and witnesses. *)
From stdpp Require Import gmap strings.
From S2P Require Import Prelude Double Value Record Strings Session SelectSql Changeset Iterator Bind Js Binder BinderCorrect Noria NoriaSql NoriaJs StmtText Scenario IteratorCorrect CdcCorrect Addon StatementOps DatabaseOps AddonInv AddonSafe AddonMethods AddonMachine AddonCorrect NoriaSqlCorrect.

Local Open Scope Z_scope.

#[export] Instance refusing : NoriaFfi unit := {
  noria_register_table_schema h _ _ := h;
  noria_register_view h _ := (h, -1);
  noria_has_view _ _ := 0;
  noria_table_has_views _ _ := 0;
  noria_get_table_id _ _ := -1;
  noria_queue_invalidate_by_id h _ := (h, 0);
  noria_lookup h _ _ := (h, not_found);
  noria_lookup_or_upquery h _ _ := (h, not_found);
  noria_apply h _ := (h, 0);
  noria_queue h _ := (h, 0);
  noria_flush h := (h, 0);
  noria_get_stats _ := mkStats 0 0 0 0 0 0 0 0 0
}.

Definition no_views (n : Noria unit) : Prop := n_has_any_views n = false.

Lemma no_views_safe : cache_safe no_views.
Proof.
  split.
  - intros se m n sql Hn. unfold RegisterView. destruct (IsEnabled n); [|exact Hn]. cbn [negb].
    destruct (register_tables_same se sql n) as (_ & _ & _ & Ev & _). destruct (n_handle _); cbn; unfold no_views; cbn; congruence.
  - intros n view keys Hn. unfold LookupOrUpquery. destruct (n_handle n) as [[]|]; [destruct (n_enabled n)|]; cbn; (split; [exact Hn|]);
      intros N; contradiction N; reflexivity.
Qed.

Lemma no_views_notify e : notify_total no_views e.
Proof.
  intros n Hn. exists n. split; [|exact Hn]. unfold NotifyChange, ProcessSessionChangeset. rewrite Hn. destruct (n_session n); reflexivity.
Qed.

(** ** What SQLite answers *)

Definition ex_open : OpenEnv := mkOpenEnv (fun _ => SQLITE_OK) SQLITE_ERROR true (fun _ => SQLITE_OK) (Some tt).

(** A statement with one anonymous parameter and one column. *)
Definition ex_vdbe : Vdbe := mkVdbe true true 1 [VNull] None 0 false.

Definition ex_prepare : PrepareEnv :=
  mkPrepareEnv SQLITE_OK (Some ex_vdbe) (str "SELECT ?") (str " ; -- end") [str "a"] SQLITE_ERROR demo_schema_env (Some 7).

Definition ex_env (rows : list (list column)) (status : Z) : CallEnv :=
  mkCallEnv (mkBindEnv (fun _ => true) 1000000) false false rows status SQLITE_ERROR false 0 0 true true (demo_cdc demo_D0).

Definition ex_row : list column := [mkColumn None (str "a") (VInt 5)].

Definition ex_world : World unit := mkWorld (Database_new false (Some tt)) true 0 [] [] [].

Definition ex_call (m : method) (engine : list call) : call (H := unit) := Call m [] engine id.

(** Prepare, iterate one row (user code inside tries to close the connection),
    try to close, end the iterator, close. *)
Definition ex_script : list call :=
  [ex_call (MPrepare ex_prepare [JString (str "SELECT ?"); JObject true []; JBoolean false]) [];
   ex_call (MIterate (ex_env [] SQLITE_OK) 0 [JBigInt 3]) [];
   ex_call (MNext (ex_env [ex_row] SQLITE_OK) 0) [ex_call MClose []];
   ex_call MClose [];
   ex_call (MReturn 0) [];
   ex_call MClose []].

Lemma ex_vdbe_ok : stmt_ok ex_vdbe.
Proof. split; [split; reflexivity|cbn; lia|]. intros i n. discriminate. Qed.

Lemma ex_env_ok rows status : Forall (fun row => row <> []) rows -> call_ok no_views (ex_env rows status).
Proof. intros Hr. split; [split; [reflexivity|cbn; lia]|reflexivity|discriminate|exact Hr|apply no_views_notify]. Qed.

Lemma ex_careful m engine : method_ok no_views m -> Forall (nested_call no_views) engine -> careful no_views (ex_call m engine).
Proof. intros A B. constructor; auto. Qed.

Lemma ex_script_careful : Forall (careful no_views) ex_script.
Proof.
  repeat (apply Forall_cons; split); [..|constructor]; apply ex_careful; cbn; auto.
  - split; [|reflexivity]. intros p [= <-]. exact ex_vdbe_ok.
  - split; [apply ex_env_ok; constructor|]. constructor; [split; exact Logic.I|constructor].
  - apply ex_env_ok. constructor; [discriminate|constructor].
  - constructor; [|constructor]. constructor; exact Logic.I.
Qed.

(** The state after the script: the connection is closed, the statement
    finalized, and no iterator is left. *)
Example ex_script_result :
  (fun w => (db_open (w_db w), db_iterators (w_db w), (fun st => bool_decide (is_Some (st_handle st))) <$> w_stmts w, si_alive <$> w_iters w))
    <$> exec_calls ex_script ex_world
  = Some (false, 0, [false], [false]).
Proof. vm_compute. reflexivity. Qed.

(** ** Witnesses *)


(** The world while the statement of the script executes. *)
Definition ex_busy : World unit :=
  default ex_world (w ← exec_calls (take 2 ex_script) ex_world; Some (set_busy w true)).

Lemma ex_busy_inv : winv no_views None false ex_busy.
Proof.
  destruct (careful_safe no_views no_views_safe (take 2 ex_script) ex_world) as (w' & E & W & _).
  - apply Forall_take, ex_script_careful.
  - vm_compute. reflexivity.
  - apply (new_database_inv no_views ex_open false false false None); reflexivity.
  - reflexivity.
  - unfold ex_busy. rewrite E. apply winv_busy, W.
Qed.

Lemma busy_connection_quiet_witness :
  exists a b res, invoke MClose (mkReentry Some Some) ex_busy = Some (set_options ex_busy a b, res).
Proof.
  apply (busy_connection_quiet no_views MClose (mkReentry Some Some) None ex_busy); [exact Logic.I|exact ex_busy_inv|reflexivity|reflexivity].
Defined.

(** The world after the statement is prepared. *)
Definition ex_prepared : World unit := default ex_world (exec_calls (take 1 ex_script) ex_world).

Lemma ex_prepared_inv : winv no_views None false ex_prepared.
Proof.
  destruct (careful_safe no_views no_views_safe (take 1 ex_script) ex_world) as (w' & E & W & _).
  - apply Forall_take, ex_script_careful.
  - vm_compute. reflexivity.
  - apply (new_database_inv no_views ex_open false false false None); reflexivity.
  - reflexivity.
  - unfold ex_prepared. rewrite E. exact W.
Qed.

Definition ex_stmt : Statement := Eval vm_compute in default (mkStatement None 0 [] false false false None false 0 false 0 [] 0 [] 0) (w_stmts ex_prepared !! 0%nat).

Lemma getter_can_close_connection_witness :
  (exists w', exec_call (Call MClose [] [] id) ex_prepared = Some w' /\ db_open (w_db w') = false) /\
  exec_call (Call (MGet (ex_env [ex_row] SQLITE_OK) 0 [JArray [Some (JBigInt 3)]]) [Call MClose [] [] id] [] id) ex_prepared = None.
Proof.
  apply (getter_can_close_connection no_views ex_prepared 0 ex_stmt (ex_env [ex_row] SQLITE_OK) (Some (JBigInt 3)) [] [] [] id);
    [exact ex_prepared_inv|vm_compute; reflexivity..].
Defined.
