(* ===== verification/AddonProps.v ===== *)
(** * Calls and the cache

    What the methods of a statement do with the cache, and the end of an
    iteration. *)
From stdpp Require Import gmap strings.
From S2P Require Import Prelude Double Value Record Strings Session Tracking SelectSql Changeset Generate Scenario Iterator IteratorSpec IteratorCorrect Bind Js Binder BinderCorrect Noria NoriaSql NoriaJs StmtText Cdc CdcMachine CdcCorrect Addon StatementOps DatabaseOps AddonInv AddonSafe AddonMethods AddonMachine AddonCorrect AddonDemo.

Local Open Scope Z_scope.

(** ** run *)

(** [run] up to the reset of the statement. *)
Definition run_executes {H} `{NoriaFfi H} (e : CallEnv) (re : Reentry H) (w : World H) (i : nat) (args : list js_value)
    : option (World H * bool) :=
  '(w, r) ← STATEMENT_START false DOES_MUTATE e re w i args;
  match r with
  | inr _ => None
  | inl bound =>
      if negb (db_handle (w_db w)) then None
      else w ← step_stmt e re w i; w ← reset_stmt w i; Some (w, bound)
  end.

Lemma run_executed {H} `{NoriaFfi H} e (re : Reentry H) w i args w3 bound st :
  run_executes e re w i args = Some (w3, bound) -> cv_status e = SQLITE_OK -> w_stmts w3 !! i = Some st ->
  JS_run e re w i args =
    (let changes := if cv_changed e then cv_changes e else 0 in
     w ← (if run_notifies e st changes then NotifyCdc e w3 else Some w3);
     STATEMENT_RETURN w i bound (run_info changes (cv_rowid e) (st_safe_ints st))).
Proof.
  intros E Es Hi. unfold run_executes in E. unfold JS_run. destruct (STATEMENT_START _ _ _ _ _ _ _) as [[w1 [b|er]]|]; [|discriminate|discriminate].
  cbn [mbind option_bind] in *. destruct (db_handle (w_db w1)); cbn [negb] in *; [|discriminate].
  destruct (step_stmt e re w1 i) as [w2|]; [|discriminate]. cbn [mbind option_bind] in *.
  destruct (reset_stmt w2 i) as [w3'|]; [|discriminate]. cbn [mbind option_bind] in *. injection E as -> ->.
  rewrite Es, Hi. reflexivity.
Qed.

(** Returning does not touch the cache. *)
Lemma return_noria {H} `{NoriaFfi H} (w : World H) i bound v st p : w_stmts w !! i = Some st -> st_handle st = Some p ->
  exists w', STATEMENT_RETURN w i bound v = Some (w', Returned v) /\ db_noria (w_db w') = db_noria (w_db w).
Proof.
  intros Hi Hp. unfold STATEMENT_RETURN, unless_bound, clear_bindings. destruct bound; [cbn; eauto|].
  cbn [set_busy set_db w_stmts]. rewrite Hi. cbn [mbind option_bind]. rewrite Hp. cbn. eauto.
Qed.


(** A connection with the session of [Scenario] and an INSERT statement. *)
Definition ex_insert : Statement :=
  mkStatement (Some (mkVdbe true true 0 [] None 0 false)) 0 (str "INSERT INTO t VALUES (1, 'a')") true false false None false FLAT false (-1) []
    (fst (DetectStatementType (Some (str "INSERT INTO t VALUES (1, 'a')")))) (str "t") (-1).
Definition ex_writer : World Transcript :=
  mkWorld (mkDatabase true true false false false false false 0 [0%nat] [] (Some (y_noria demo_y0))) true 1 [ex_insert] [] [].
Definition ex_written : Reentry Transcript := mkReentry Some (fun w => Some (set_noria w (Some (y_noria demo_y1)))).
Definition ex_write : CallEnv :=
  mkCallEnv (mkBindEnv (fun _ => true) 1000000) false false [] SQLITE_OK SQLITE_ERROR true 1 1 true true (demo_cdc (st_db demo_st1)).
Definition ex_after : option (World Transcript * bool) := Eval vm_compute in run_executes ex_write ex_written ex_writer 0 [].


(** ** Closing *)

Section Closing.
Context {H : Type} `{NoriaFfi H} (I : Noria H -> Prop).

Definition plain_call (m : method) : call (H := H) := Call m [] [] id.

(** Ends every iterator, from the last to the first. *)
Fixpoint return_all (n : nat) : list (call (H := H)) :=
  match n with O => [] | S n => plain_call (MReturn n) :: return_all n end.

Lemma exec_calls_app (l l' : list (call (H := H))) w : exec_calls (l ++ l') w = exec_calls l w ≫= exec_calls l'.
Proof. revert w. induction l as [|c l IH]; intros w; [reflexivity|]. cbn [exec_calls app]. destruct (exec_call c w); cbn; [apply IH|reflexivity]. Qed.

Lemma return_all_spec n (w : World H) : winv I None false w -> db_busy (w_db w) = false -> (n <= length (w_iters w))%nat ->
  (forall j x, w_iters w !! j = Some x -> si_alive x = true -> (j < n)%nat) ->
  exists w', exec_calls (return_all n) w = Some w' /\ winv I None false w' /\ db_busy (w_db w') = false /\
    (forall j x, w_iters w' !! j = Some x -> si_alive x = false).
Proof.
  revert w. induction n as [|n IH]; intros w W B Hl Ha.
  - exists w. split_and!; auto. intros j x Hj. destruct (si_alive x) eqn:E; [|reflexivity]. pose proof (Ha j x Hj E). lia.
  - destruct (return_effect I w n W B ltac:(lia)) as (w1 & res & E1 & W1 & B1 & L1 & A1).
    cbn [return_all exec_calls]. unfold plain_call at 1. cbn [exec_call invoke]. unfold on.
    rewrite (proj2 (Nat.ltb_lt _ _) Hl), E1. cbn [mbind option_bind]. apply IH; auto; [lia|].
    intros j x Hj Hx. destruct (A1 j x Hj Hx) as [Hne Hj']. pose proof (Ha j x Hj' Hx). lia.
Qed.

Lemma all_ended its : (forall j x, its !! j = Some x -> si_alive x = false) -> alive_iters its = 0.
Proof.
  unfold alive_iters. induction its as [|it its IH]; intros A; [reflexivity|]. rewrite filter_cons_False.
  - apply IH. intros j x Hj. exact (A (S j) x Hj).
  - rewrite (A 0%nat it eq_refl). discriminate.
Qed.

(** A connection that is not busy and has no iterator closes. *)
Lemma close_done (w : World H) : winv I None false w -> db_busy (w_db w) = false -> alive_iters (w_iters w) = 0 ->
  exists w', exec_calls [plain_call MClose] w = Some w' /\ winv I None false w' /\ db_busy (w_db w') = false /\ db_open (w_db w') = false.
Proof.
  intros W B Z0. unfold plain_call. cbn [exec_calls exec_call invoke]. unfold Database_JS_close.
  destruct (db_open (w_db w)) eqn:O; [|exists w; auto].
  unfold REQUIRE_DATABASE_NOT_BUSY, REQUIRE_DATABASE_NO_ITERATORS. rewrite B, (wi_count _ _ _ _ W), Z0. cbn [first_error truth Z.eqb negb].
  destruct (close_handles_spec I (unregister w) (winv_unregister _ _ _ _ W) Z0) as (w1 & E & W1 & B1 & O1).
  cbn. rewrite E. cbn. exists w1. split_and!; auto. rewrite B1. exact B.
Qed.

End Closing.

(** A program, its iterators ended, the connection closed. *)
Lemma closes {H} `{NoriaFfi H} (I : Noria H -> Prop) (w : World H) : winv I None false w -> db_busy (w_db w) = false ->
  exists w', exec_calls (return_all (length (w_iters w)) ++ [plain_call MClose]) w = Some w' /\ winv I None false w' /\ db_busy (w_db w') = false /\ db_open (w_db w') = false.
Proof.
  intros W B. destruct (return_all_spec I (length (w_iters w)) w W B) as (w1 & E1 & W1 & B1 & A1); [lia|intros j x Hj _; eapply lookup_lt_Some, Hj|].
  destruct (close_done I w1 W1 B1 (all_ended _ A1)) as (w2 & E2 & W2 & B2 & O2). exists w2. rewrite exec_calls_app, E1. auto.
Qed.

(** C13: a connection can always be closed.  Whatever program ran on it, ending its
    iterators and calling [close] closes it, with every statement finalized and no
    statement left locked.  The programs are those of the theorem on safety: SQLite
    answers as documented, notifications and flushes are defined, getters of
    arguments do not call back, [unsafeMode] is called on the open connection,
    [transfer] on backups that are not closed, and no backup is used from code inside
    a query. *)
Theorem connection_can_always_be_closed {H} `{NoriaFfi H} (I : Noria H -> Prop) e readonly must_exist has_logger buffer w0 script :
  cache_safe I -> I (Noria_new (oe_create e) true []) ->
  Database_JS_new e readonly must_exist has_logger buffer = Some (inl w0) -> Forall (careful I) script -> proper_run script w0 = true ->
  exists w w', exec_calls script w0 = Some w /\
    exec_calls (return_all (length (w_iters w)) ++ [plain_call MClose]) w = Some w' /\ db_open (w_db w') = false /\
    forall i st, w_stmts w' !! i = Some st -> st_handle st = None /\ st_locked st = false.
Proof.
  intros Hc Hn Hw Hs Hp. destruct (new_database_inv I e readonly must_exist has_logger buffer w0 Hn Hw) as [W0 B0].
  destruct (careful_safe I Hc script w0 Hs Hp W0 B0) as (w & E & W & B). destruct (closes I w W B) as (w2 & E2 & W2 & _ & O2).
  exists w, w2. split_and!; auto. intros i st Hi.
  destruct (wi_stmt _ _ _ _ W2 i st Hi) as (G & Al & _). rewrite O2 in Al. split.
  - destruct G as [_ G]. destruct (st_handle st); [|reflexivity]. destruct G as [G _]. congruence.
  - destruct (st_locked st) eqn:L; [|reflexivity]. destruct (wi_locked _ _ _ _ W2 i st Hi L) as (k & it & Hk & Ha & Es).
    destruct (wi_iter _ _ _ _ W2 k it Hk) as [_ Hl]. destruct (Hl Ha) as (st' & Hi' & Al' & _). congruence.
Qed.

Lemma connection_can_always_be_closed_witness :
  exists w w', exec_calls (take 3 ex_script) ex_world = Some w /\
    exec_calls (return_all (length (w_iters w)) ++ [plain_call MClose]) w = Some w' /\ db_open (w_db w') = false /\
    forall i st, w_stmts w' !! i = Some st -> st_handle st = None /\ st_locked st = false.
Proof.
  apply (connection_can_always_be_closed no_views ex_open false false false None ex_world (take 3 ex_script) no_views_safe);
    [reflexivity|reflexivity|apply Forall_take, ex_script_careful|vm_compute; reflexivity].
Defined.

(** C35: [unsafeMode] does not check that the connection is open.  After whatever
    program of the theorem above, ending the iterators, closing the connection and
    calling [unsafeMode] with any argument it accepts configures the closed
    connection, a use after free; no other method faults on the closed connection. *)
Theorem unsafe_mode_after_close_faults {H} `{NoriaFfi H} (I : Noria H -> Prop) e readonly must_exist has_logger buffer w0 script args flag :
  cache_safe I -> I (Noria_new (oe_create e) true []) ->
  Database_JS_new e readonly must_exist has_logger buffer = Some (inl w0) -> Forall (careful I) script -> proper_run script w0 = true ->
  flag_argument args = inl flag ->
  exists w w', exec_calls script w0 = Some w /\ exec_calls (return_all (length (w_iters w)) ++ [plain_call MClose]) w = Some w' /\
    exec_call (plain_call (MUnsafeMode args)) w' = None /\
    forall m, method_ok I m -> (forall args, m <> MUnsafeMode args) -> is_Some (exec_call (plain_call m) w').
Proof.
  intros Hc Hn Hw Hs Hp Hf. destruct (new_database_inv I e readonly must_exist has_logger buffer w0 Hn Hw) as [W0 B0].
  destruct (careful_safe I Hc script w0 Hs Hp W0 B0) as (w & E & W & B). destruct (closes I w W B) as (w2 & E2 & W2 & B2 & O2).
  exists w, w2. split_and!; auto.
  - unfold plain_call. cbn [exec_call invoke]. unfold Database_JS_unsafeMode. rewrite Hf. cbn [set_options set_db w_db db_handle].
    rewrite (wi_handle _ _ _ _ W2), O2. reflexivity.
  - intros m Hm Nm. destruct (careful_safe I Hc [plain_call m] w2) as (w3 & E3 & _).
    + repeat constructor; auto.
    + unfold plain_call. cbn [proper_run]. rewrite andb_true_iff. split; [|destruct (exec_call _ _); reflexivity].
      destruct m; cbn [proper]; rewrite ?O2, ?B2; try reflexivity. destruct (Nm args0 eq_refl).
    + exact W2.
    + exact B2.
    + cbn [exec_calls] in E3. destruct (exec_call (plain_call m) w2); [eauto|discriminate].
Qed.

Lemma unsafe_mode_after_close_faults_witness :
  exists w w', exec_calls (take 3 ex_script) ex_world = Some w /\ exec_calls (return_all (length (w_iters w)) ++ [plain_call MClose]) w = Some w' /\
    exec_call (plain_call (MUnsafeMode [])) w' = None /\
    forall m, method_ok no_views m -> (forall args, m <> MUnsafeMode args) -> is_Some (exec_call (plain_call m) w').
Proof.
  apply (unsafe_mode_after_close_faults no_views ex_open false false false None ex_world (take 3 ex_script) [] true no_views_safe);
    [reflexivity|reflexivity|apply Forall_take, ex_script_careful|vm_compute; reflexivity|reflexivity].
Defined.

(** ** What is not recognised *)

(** Writes that [DetectStatementType] does not take for writes: [run] does not
    notify the cache of them outside a transaction. *)
Theorem write_not_notified e st changes sql :
  sql ∈ [str "REPLACE INTO t VALUES (1, 'a')"; str "WITH x AS (SELECT 1) DELETE FROM t"; str "/* c */ UPDATE t SET b = 1"] ->
  st_type st = fst (DetectStatementType (Some sql)) -> cv_auto_before e = true -> run_notifies e st changes = false.
Proof.
  intros Hs Ht Ha. assert (Eo : st_type st = STMT_OTHER).
  { rewrite Ht. rewrite !elem_of_cons, elem_of_nil in Hs. destruct Hs as [->|[->|[->|[]]]]; vm_compute; reflexivity. }
  unfold run_notifies. rewrite Eo, Ha. cbn. rewrite !andb_false_r. reflexivity.
Qed.

(** The keys are taken from the arguments of the call only: values bound before
    with [bind] and named parameters in an object give NULL keys. *)
Theorem keys_ignore_bindings : (forall n, noria_keys n [] = Some (replicate (Z.to_nat n) nv_zero)) /\
  forall plain props, noria_keys 1 [JObject plain props] = Some [nv_zero].
Proof. split; [|reflexivity]. intros n. unfold noria_keys. cbn [arg_keys]. destruct (Z.to_nat n); reflexivity. Qed.
