(* ===== verification/CustomFunction.v ===== *)
(** * User-defined functions and aggregates (custom-function.cpp, custom-aggregate.cpp)

    The callbacks SQLite calls and the accumulator of an aggregate.  User code is
    a function on a state of its own, [U], that returns a value or throws. *)
From stdpp Require Import gmap strings.
From S2P Require Import Prelude Double Value Record Strings Bind Js.

Local Open Scope Z_scope.

Section Callbacks.
Context {U : Type}.

Definition js_function := U -> list js_value -> U * option js_value.

(** [Accumulator], zeroed when SQLite allocates it; [None] is an empty handle. *)
Record Accumulator := mkAccumulator {
  ac_value : option js_value;
  ac_initialized : bool;
  ac_is_window : bool
}.

(** What a callback works on: the flag [was_js_error] of the database, the
    memory of the aggregate (none before its first use) and whether it can be
    allocated, the result set in the context and the state of user code. *)
Record Invocation := mkInvocation {
  iv_error : bool;
  iv_acc : option Accumulator;
  iv_malloc : bool;
  iv_result : sqlite3_value + unit;
  iv_user : U
}.

Definition set_error inv b := mkInvocation b (iv_acc inv) (iv_malloc inv) (iv_result inv) (iv_user inv).
Definition set_acc inv a := mkInvocation (iv_error inv) (Some a) (iv_malloc inv) (iv_result inv) (iv_user inv).
Definition set_result inv r := mkInvocation (iv_error inv) (iv_acc inv) (iv_malloc inv) r (iv_user inv).
Definition set_user inv u := mkInvocation (iv_error inv) (iv_acc inv) (iv_malloc inv) (iv_result inv) u.

(** [CustomFunction::PropagateJSError], with its assertion. *)
Definition Function_PropagateJSError (inv : Invocation) : option Invocation :=
  if iv_error inv then None
  else Some (set_result (set_error inv true) (inr tt)).

Record CustomFunction := mkCustomFunction {
  cf_fn : js_function;
  cf_safe_ints : bool
}.

(** A call of user code in an invocation. *)
Definition call_user (f : js_function) (inv : Invocation) (args : list js_value) : Invocation * option js_value :=
  let '(u, r) := f (iv_user inv) args in (set_user inv u, r).

Definition xFunc (self : CustomFunction) (inv : Invocation) (argv : list sqlite3_value) : option Invocation :=
  let args := GetArgumentsJS argv (cf_safe_ints self) in
  let '(inv, maybeReturnValue) := call_user (cf_fn self) inv args in
  match maybeReturnValue with
  | None => Function_PropagateJSError inv
  | Some v =>
      match ResultValueFromJS v with
      | inl x => Some (set_result inv (inl x))
      | inr _ => Function_PropagateJSError inv
      end
  end.

(** ** Aggregates *)

(** [ag_start] is the value given, or the function that makes it
    ([invoke_start]); [ag_result] is present with [invoke_result]. *)
Record CustomAggregate := mkCustomAggregate {
  ag_step : js_function;
  ag_inverse : js_function;
  ag_start : js_value + js_function;
  ag_result : option js_function;
  ag_safe_ints : bool
}.

(** [sqlite3_aggregate_context]: zeroed memory on the first call; using a null
    pointer is undefined. *)
Definition aggregate_context (inv : Invocation) : option Accumulator :=
  match iv_acc inv with
  | Some acc => Some acc
  | None => if iv_malloc inv then Some (mkAccumulator None false false) else None
  end.

Definition DestroyAccumulator (inv : Invocation) : option Invocation :=
  acc ← aggregate_context inv;
  if ac_initialized acc then Some (set_acc inv (mkAccumulator None true (ac_is_window acc))) else None.

(** [CustomAggregate::PropagateJSError]. *)
Definition Aggregate_PropagateJSError (inv : Invocation) : option Invocation :=
  inv ← DestroyAccumulator inv;
  Function_PropagateJSError inv.

Definition GetAccumulator (self : CustomAggregate) (inv : Invocation) : option Invocation :=
  acc ← aggregate_context inv;
  if ac_initialized acc then Some (set_acc inv acc)
  else match ac_value acc with
  | Some _ => None
  | None =>
      let inv := set_acc inv (mkAccumulator None true (ac_is_window acc)) in
      match ag_start self with
      | inr start =>
          let '(inv, maybeSeed) := call_user start inv [] in
          match maybeSeed with
          | None => Aggregate_PropagateJSError inv
          | Some seed => Some (set_acc inv (mkAccumulator (Some seed) true (ac_is_window acc)))
          end
      | inl start => Some (set_acc inv (mkAccumulator (Some start) true (ac_is_window acc)))
      end
  end.

(** [AGGREGATE_START]: the body runs with the value of the accumulator, unless
    it is empty. *)
Definition AGGREGATE_START (self : CustomAggregate) (inv : Invocation)
    (body : Invocation -> Accumulator -> js_value -> option Invocation) : option Invocation :=
  inv ← GetAccumulator self inv;
  acc ← iv_acc inv;
  match ac_value acc with
  | None => Some inv
  | Some v => body inv acc v
  end.

Definition xStepBase (self : CustomAggregate) (fn : js_function) (inv : Invocation) (argv : list sqlite3_value) : option Invocation :=
  AGGREGATE_START self inv (fun inv acc value =>
    let args := value :: GetArgumentsJS argv (ag_safe_ints self) in
    let '(inv, maybeReturnValue) := call_user fn inv args in
    match maybeReturnValue with
    | None => Aggregate_PropagateJSError inv
    | Some JUndefined => Some inv
    | Some v => Some (set_acc inv (mkAccumulator (Some v) (ac_initialized acc) (ac_is_window acc)))
    end).

Definition xStep (self : CustomAggregate) := xStepBase self (ag_step self).
Definition xInverse (self : CustomAggregate) := xStepBase self (ag_inverse self).

(** The end of [xValueBase]: the result is converted. *)
Definition value_result (is_final : bool) (inv : Invocation) (result : js_value) : option Invocation :=
  inv ← match ResultValueFromJS result with
        | inl x => Some (set_result inv (inl x))
        | inr _ => Aggregate_PropagateJSError inv
        end;
  if is_final then DestroyAccumulator inv else Some inv.

Definition xValueBase (self : CustomAggregate) (is_final : bool) (inv : Invocation) : option Invocation :=
  AGGREGATE_START self inv (fun inv acc value =>
    if is_final && ac_is_window acc then DestroyAccumulator inv
    else
      let inv := if is_final then inv else set_acc inv (mkAccumulator (Some value) (ac_initialized acc) true) in
      match ag_result self with
      | None => value_result is_final inv value
      | Some f =>
          let '(inv, maybeResult) := call_user f inv [value] in
          match maybeResult with
          | None => Aggregate_PropagateJSError inv
          | Some result => value_result is_final inv result
          end
      end).

Definition xValue (self : CustomAggregate) := xValueBase self false.
Definition xFinal (self : CustomAggregate) := xValueBase self true.

(** ** The use SQLite makes of an aggregate *)

(** Rows entering and leaving the window, and requests for the value; [xFinal]
    ends it.  SQLite gives each call a context whose result is NULL. *)
Inductive agg_event := EStep (argv : list sqlite3_value) | EInverse (argv : list sqlite3_value) | EValue.

Definition agg_invoke (self : CustomAggregate) (e : agg_event) (inv : Invocation) : option Invocation :=
  let inv := set_result inv (inl VNull) in
  match e with
  | EStep argv => xStep self inv argv
  | EInverse argv => xInverse self inv argv
  | EValue => xValue self inv
  end.

Fixpoint agg_events (self : CustomAggregate) (evs : list agg_event) (inv : Invocation)
    : option (Invocation * list (sqlite3_value + unit)) :=
  match evs with
  | [] => Some (inv, [])
  | e :: evs =>
      inv ← agg_invoke self e inv;
      '(inv', outs) ← agg_events self evs inv;
      Some (inv', iv_result inv :: outs)
  end.

Definition agg_run (self : CustomAggregate) (evs : list agg_event) (inv : Invocation)
    : option (Invocation * list (sqlite3_value + unit)) :=
  '(inv, outs) ← agg_events self evs inv;
  inv ← xFinal self (set_result inv (inl VNull));
  Some (inv, outs ++ [iv_result inv]).

(** ** Reference: a fold *)

(** The next value of the fold: [undefined] keeps the old one, [None] is an
    exception. *)
Definition ref_step (f : js_function) (safe_ints : bool) (argv : list sqlite3_value) (u : U) (a : js_value) : U * option js_value :=
  let '(u, r) := f u (a :: GetArgumentsJS argv safe_ints) in
  (u, match r with Some JUndefined => Some a | _ => r end).

(** The value of the fold as SQLite gets it. *)
Definition ref_value (self : CustomAggregate) (u : U) (a : js_value) : U * (sqlite3_value + unit) :=
  let '(u, r) := match ag_result self with Some f => f u [a] | None => (u, Some a) end in
  (u, match r with
      | Some v => match ResultValueFromJS v with inl x => inl x | inr _ => inr tt end
      | None => inr tt
      end).

Definition ref_seed (self : CustomAggregate) (u : U) : U * option js_value :=
  match ag_start self with inl v => (u, Some v) | inr f => f u [] end.

(** What is left after one event, and the result SQLite sees; nothing happens
    after an exception. *)
Definition ref_event (self : CustomAggregate) (e : agg_event) (u : U) (a : js_value) : (U * option js_value) * (sqlite3_value + unit) :=
  let stepped (p : U * option js_value) := (p, if p.2 is Some _ then inl VNull else inr tt) in
  match e with
  | EStep argv => stepped (ref_step (ag_step self) (ag_safe_ints self) argv u a)
  | EInverse argv => stepped (ref_step (ag_inverse self) (ag_safe_ints self) argv u a)
  | EValue => let '(u, r) := ref_value self u a in ((u, match r with inl _ => Some a | inr _ => None end), r)
  end.

Fixpoint ref_events (self : CustomAggregate) (evs : list agg_event) (u : U) (a : option js_value)
    : (U * option js_value) * list (sqlite3_value + unit) :=
  match evs with
  | [] => ((u, a), [])
  | e :: evs =>
      let '((u, a), out) := match a with Some a => ref_event self e u a | None => ((u, None), inl VNull) end in
      let '(p, outs) := ref_events self evs u a in (p, out :: outs)
  end.

Definition is_value (e : agg_event) : bool := match e with EValue => true | _ => false end.

(** The value of the whole aggregate; SQLite ignores it after [xValue]. *)
Definition ref_final (self : CustomAggregate) (window : bool) (u : U) (a : js_value) : U * (sqlite3_value + unit) :=
  if window then (u, inl VNull) else ref_value self u a.

(** The results of all calls, that of [xFinal] last. *)
Definition ref_run (self : CustomAggregate) (evs : list agg_event) (u : U) : U * list (sqlite3_value + unit) :=
  match ref_seed self u with
  | (u, None) => (u, inr tt :: replicate (length evs) (inl VNull))
  | (u, Some a) =>
      let '((u, a), outs) := ref_events self evs u (Some a) in
      let '(u, out) := match a with Some a => ref_final self (existsb is_value evs) u a | None => (u, inl VNull) end in
      (u, outs ++ [out])
  end.

(** ** The callbacks compute the fold *)

(** A live accumulator holds the value of the fold; an empty one means that
    the exception has been noted. *)
Definition holds (inv : Invocation) (u : U) (a : option js_value) (w : bool) : Prop :=
  iv_user inv = u /\ iv_acc inv = Some (mkAccumulator a true w) /\ iv_error inv = match a with Some _ => false | None => true end.

Lemma get_holds self inv u a w : holds inv u a w -> GetAccumulator self inv = Some inv.
Proof. intros (_ & E & _). unfold GetAccumulator, aggregate_context. rewrite E. destruct inv. cbn in *. subst. reflexivity. Qed.

Lemma propagate_holds inv u w a : holds inv u (Some a) w ->
  exists inv', Aggregate_PropagateJSError inv = Some inv' /\ holds inv' u None w /\ iv_result inv' = inr tt.
Proof.
  intros (Eu & Ea & Ee). unfold Aggregate_PropagateJSError, DestroyAccumulator, aggregate_context. rewrite Ea. cbn.
  unfold Function_PropagateJSError. cbn. rewrite Ee. eexists. split; [reflexivity|]. split; [split_and!; [exact Eu|reflexivity..]|reflexivity].
Qed.

Lemma step_holds self f inv u a w argv : holds inv u (Some a) w -> iv_result inv = inl VNull ->
  let '(u', r) := ref_step f (ag_safe_ints self) argv u a in
  exists inv', xStepBase self f inv argv = Some inv' /\ holds inv' u' r w /\ iv_result inv' = if r is Some _ then inl VNull else inr tt.
Proof.
  intros Hh Hr. unfold xStepBase, AGGREGATE_START. rewrite (get_holds self inv u _ w Hh). cbn [mbind option_bind].
  pose proof Hh as (Eu & Ea & Ee). rewrite Ea. cbn [mbind option_bind ac_value ac_initialized ac_is_window]. unfold call_user, ref_step. rewrite Eu.
  destruct (f u (a :: GetArgumentsJS argv (ag_safe_ints self))) as [u' r].
  assert (Hu : holds (set_user inv u') u' (Some a) w) by (split_and!; [reflexivity|exact Ea|exact Ee]).
  destruct r as [v|]; [|destruct (propagate_holds _ u' w a Hu) as (inv' & ? & ? & ?); eauto].
  destruct v; (eexists; split; [reflexivity|]); (split; [|exact Hr]); first [exact Hu|split_and!; [reflexivity|reflexivity|exact Ee]].
Qed.

Lemma value_result_holds inv u a w v : holds inv u (Some a) w ->
  let r := match ResultValueFromJS v with inl x => inl x | inr _ => inr tt end in
  exists inv', value_result false inv v = Some inv' /\ iv_result inv' = r /\
    holds inv' u (match r with inl _ => Some a | inr _ => None end) w.
Proof.
  intros Hh. unfold value_result. destruct (ResultValueFromJS v) as [x|er].
  - eexists. split; [reflexivity|]. split; [reflexivity|]. exact Hh.
  - destruct (propagate_holds _ u w a Hh) as (inv' & E & Hi & Er). rewrite E. cbn. eauto.
Qed.

Lemma value_holds self inv u a w : holds inv u (Some a) w ->
  let '(u', r) := ref_value self u a in
  exists inv', xValueBase self false inv = Some inv' /\ iv_result inv' = r /\
    holds inv' u' (match r with inl _ => Some a | inr _ => None end) true.
Proof.
  intros Hh. unfold xValueBase, AGGREGATE_START. rewrite (get_holds self inv u _ w Hh). cbn [mbind option_bind].
  pose proof Hh as (Eu & Ea & Ee). rewrite Ea. cbn [mbind option_bind ac_value ac_initialized ac_is_window andb]. unfold ref_value.
  destruct (ag_result self) as [f|].
  - unfold call_user. cbn [set_acc iv_user]. rewrite Eu. destruct (f u [a]) as [u' [v|]].
    + apply value_result_holds. split_and!; [reflexivity|reflexivity|exact Ee].
    + destruct (propagate_holds (set_user (set_acc inv (mkAccumulator (Some a) true true)) u') u' true a) as (inv' & E & Hi & Er);
        [split_and!; [reflexivity|reflexivity|exact Ee]|]. eauto.
  - apply value_result_holds. split_and!; [exact Eu|reflexivity|exact Ee].
Qed.

Lemma event_holds self e inv u a w : holds inv u (Some a) w ->
  let '((u', a'), out) := ref_event self e u a in
  exists inv', agg_invoke self e inv = Some inv' /\ iv_result inv' = out /\ holds inv' u' a' (w || is_value e).
Proof.
  intros Hh. assert (Hs : holds (set_result inv (inl VNull)) u (Some a) w) by exact Hh. destruct e as [argv|argv|]; cbn [ref_event agg_invoke is_value].
  1,2: rewrite orb_false_r; unfold xStep, xInverse;
    match goal with |- context [ref_step ?f _ _ _ _] => pose proof (step_holds self f _ u a w argv Hs eq_refl) as Hx end;
    destruct (ref_step _ _ _ _ _) as [u' r]; destruct Hx as (inv' & E & Hh' & Er); exists inv'; auto.
  rewrite orb_true_r. pose proof (value_holds self _ u a w Hs) as Hx. destruct (ref_value self u a) as [u' r]. exact Hx.
Qed.

(** An empty accumulator stays empty: no callback runs user code or notes an
    exception again. *)
Lemma event_empty self e inv u w : holds inv u None w ->
  exists inv', agg_invoke self e inv = Some inv' /\ iv_result inv' = inl VNull /\ holds inv' u None w.
Proof.
  intros Hh. assert (Hs : holds (set_result inv (inl VNull)) u None w) by exact Hh.
  exists (set_result inv (inl VNull)). split; [|split; [reflexivity|exact Hs]]. pose proof Hs as (_ & Ea & _).
  destruct e; unfold agg_invoke, xStep, xInverse, xValue, xStepBase, xValueBase, AGGREGATE_START;
    rewrite (get_holds self _ u None w Hs); cbn [mbind option_bind]; rewrite Ea; reflexivity.
Qed.

Lemma ref_events_empty self evs u : ref_events self evs u None = ((u, None), replicate (length evs) (inl VNull)).
Proof. induction evs as [|e evs IH]; [reflexivity|]. cbn. rewrite IH. reflexivity. Qed.

Lemma events_hold self evs inv u a w : holds inv u a w ->
  let '((u', a'), outs) := ref_events self evs u a in
  exists inv' w', agg_events self evs inv = Some (inv', outs) /\ holds inv' u' a' w' /\ (a' <> None -> w' = w || existsb is_value evs).
Proof.
  revert inv u a w. induction evs as [|e evs IH]; intros inv u a w Hh; cbn [ref_events agg_events existsb].
  - exists inv, w. rewrite orb_false_r. auto.
  - assert (Hx : let '((u', a'), out) := match a with Some a => ref_event self e u a | None => ((u, None), inl VNull) end in
      exists inv' w', agg_invoke self e inv = Some inv' /\ iv_result inv' = out /\ holds inv' u' a' w' /\ (a' <> None -> w' = w || is_value e)).
    { destruct a as [a|].
      - pose proof (event_holds self e inv u a w Hh) as Hx. destruct (ref_event self e u a) as [[u' a'] out]. destruct Hx as (inv' & ? & ? & ?). eauto 7.
      - destruct (event_empty self e inv u w Hh) as (inv' & ? & ? & ?). exists inv', w. split_and!; auto. contradiction. }
    destruct (match a with Some a => _ | None => _ end) as [[u1 a1] out]. destruct Hx as (inv1 & w1 & E1 & Er & H1 & Hw1).
    specialize (IH inv1 u1 a1 w1 H1). destruct a1 as [a1|].
    + destruct (ref_events self evs u1 (Some a1)) as [[u2 a2] outs]. destruct IH as (inv2 & w2 & E2 & H2 & Hw2). exists inv2, w2.
      rewrite E1. cbn [mbind option_bind]. rewrite E2. cbn [mbind option_bind]. rewrite Er. split_and!; auto. intros N.
      rewrite (Hw2 N), (Hw1 ltac:(discriminate)), orb_assoc. reflexivity.
    + rewrite ref_events_empty in *. destruct IH as (inv2 & w2 & E2 & H2 & _). exists inv2, w2.
      rewrite E1. cbn [mbind option_bind]. rewrite E2. cbn [mbind option_bind]. rewrite Er. split_and!; auto. contradiction.
Qed.

(** [xFinal] releases the value. *)
Definition released (inv : Invocation) : Prop := exists w, iv_acc inv = Some (mkAccumulator None true w).

Lemma destroy_held inv a w : iv_acc inv = Some (mkAccumulator a true w) ->
  exists inv', DestroyAccumulator inv = Some inv' /\ released inv' /\ iv_user inv' = iv_user inv /\
    iv_result inv' = iv_result inv /\ iv_error inv' = iv_error inv.
Proof.
  intros Ea. unfold DestroyAccumulator, aggregate_context. rewrite Ea. eexists. split; [reflexivity|]. split_and!; try reflexivity.
  exists w. reflexivity.
Qed.

Lemma final_result_spec inv u a w v : holds inv u (Some a) w ->
  let r := match ResultValueFromJS v with inl x => inl x | inr _ => inr tt end in
  exists inv', value_result true inv v = Some inv' /\ released inv' /\ iv_user inv' = u /\ iv_result inv' = r /\
    iv_error inv' = if r is inl _ then false else true.
Proof.
  intros Hh. pose proof Hh as (Eu & Ea & Ee). unfold value_result. destruct (ResultValueFromJS v) as [x|er].
  - cbn [mbind option_bind]. destruct (destroy_held (set_result inv (inl x)) (Some a) w Ea) as (inv' & E & Hr & Eu' & Er & Ee').
    exists inv'. split_and!; auto; cbn in *; congruence.
  - destruct (propagate_holds _ u w a Hh) as (inv1 & -> & (Eu1 & Ea1 & Ee1) & Er1). cbn [mbind option_bind].
    destruct (destroy_held inv1 None w Ea1) as (inv' & E & Hr & Eu' & Er & Ee'). exists inv'. split_and!; auto; congruence.
Qed.

Lemma final_spec self inv u a w : holds inv u (Some a) w -> iv_result inv = inl VNull ->
  let '(u', r) := ref_final self w u a in
  exists inv', xFinal self inv = Some inv' /\ released inv' /\ iv_user inv' = u' /\ iv_result inv' = r /\
    iv_error inv' = if r is inl _ then false else true.
Proof.
  intros Hh Hn. pose proof Hh as (Eu & Ea & Ee). unfold xFinal, xValueBase, AGGREGATE_START, ref_final.
  rewrite (get_holds self inv u _ w Hh). cbn [mbind option_bind]. rewrite Ea. cbn [mbind option_bind ac_value ac_is_window andb]. destruct w.
  - destruct (destroy_held inv _ _ Ea) as (inv' & E & Hr & Eu' & Er & Ee'). exists inv'. split_and!; auto; congruence.
  - unfold ref_value. destruct (ag_result self) as [f|]; [|exact (final_result_spec inv u a false a Hh)].
    unfold call_user. rewrite Eu. destruct (f u [a]) as [u' [v|]].
    + apply (final_result_spec _ u' a false v). split_and!; [reflexivity|exact Ea|exact Ee].
    + destruct (propagate_holds (set_user inv u') u' false a) as (inv' & E & (Eu' & Ea' & Ee') & Er); [split_and!; [reflexivity|exact Ea|exact Ee]|].
      exists inv'. split_and!; auto. exists false. exact Ea'.
Qed.

Lemma final_empty self inv u w : holds inv u None w -> xFinal self inv = Some inv.
Proof.
  intros Hh. unfold xFinal, xValueBase, AGGREGATE_START. rewrite (get_holds self _ u None w Hh). destruct Hh as (_ & Ea & _). cbn. rewrite Ea. reflexivity.
Qed.

(** The first callback makes the accumulator. *)
Lemma first_get self inv : iv_acc inv = None -> iv_error inv = false -> iv_malloc inv = true ->
  let '(u, seed) := ref_seed self (iv_user inv) in
  exists inv1, holds inv1 u seed false /\
    forall r, GetAccumulator self (set_result inv r) = Some (set_result inv1 (if seed is Some _ then r else inr tt)).
Proof.
  intros Ea Ee Em. unfold ref_seed, GetAccumulator, aggregate_context. cbn [set_result iv_acc iv_malloc]. rewrite Ea, Em. cbn [mbind option_bind ac_initialized ac_value ac_is_window].
  destruct (ag_start self) as [v|f].
  - exists (set_acc inv (mkAccumulator (Some v) true false)). split; [split_and!; auto|reflexivity].
  - unfold call_user. cbn [set_acc set_result iv_user]. destruct (f (iv_user inv) []) as [u [v|]].
    + exists (set_acc (set_user inv u) (mkAccumulator (Some v) true false)). split; [split_and!; auto|reflexivity].
    + exists (set_error (set_acc (set_user inv u) (mkAccumulator None true false)) true). split; [split_and!; auto|]. intros r.
      unfold Aggregate_PropagateJSError, DestroyAccumulator, Function_PropagateJSError. cbn. rewrite Ee. reflexivity.
Qed.

Lemma invoke_from self inv inv1 : (forall r, GetAccumulator self (set_result inv r) = Some (set_result inv1 r)) ->
  (forall r, GetAccumulator self (set_result inv1 r) = Some (set_result inv1 r)) -> forall evs, agg_run self evs inv = agg_run self evs inv1.
Proof.
  intros G G1 evs. destruct evs as [|e evs]; unfold agg_run; cbn [agg_events mbind option_bind].
  - unfold xFinal, xValueBase, AGGREGATE_START. rewrite G, G1. reflexivity.
  - enough (agg_invoke self e inv = agg_invoke self e inv1) as -> by reflexivity.
    destruct e; unfold agg_invoke, xStep, xInverse, xValue, xStepBase, xValueBase, AGGREGATE_START; rewrite G, G1; reflexivity.
Qed.

(** When the first callback fails to make the accumulator, the others do nothing. *)
Lemma run_unseeded self inv inv1 u evs : holds inv1 u None false ->
  (forall r, GetAccumulator self (set_result inv r) = Some (set_result inv1 (inr tt))) ->
  exists inv', agg_run self evs inv = Some (inv', inr tt :: replicate (length evs) (inl VNull)) /\
    iv_user inv' = u /\ released inv' /\ iv_error inv' = true.
Proof.
  intros Hh G. pose proof Hh as (Eu & Ea & Ee). destruct evs as [|e evs]; unfold agg_run; cbn [agg_events mbind option_bind].
  - unfold xFinal, xValueBase, AGGREGATE_START. rewrite G. cbn [mbind option_bind set_result iv_acc]. rewrite Ea. cbn.
    eexists. split; [reflexivity|]. split_and!; auto. exists false. exact Ea.
  - assert (E : agg_invoke self e inv = Some (set_result inv1 (inr tt))).
    { destruct e; unfold agg_invoke, xStep, xInverse, xValue, xStepBase, xValueBase, AGGREGATE_START;
        rewrite G; cbn [mbind option_bind set_result iv_acc]; rewrite Ea; reflexivity. }
    rewrite E. cbn [mbind option_bind]. assert (Hs : holds (set_result inv1 (inr tt)) u None false) by exact Hh.
    pose proof (events_hold self evs _ u None false Hs) as Hx. rewrite ref_events_empty in Hx. destruct Hx as (inv2 & w & -> & Hh2 & _).
    cbn [mbind option_bind]. rewrite (final_empty self (set_result inv2 (inl VNull)) u w Hh2). cbn [mbind option_bind].
    exists (set_result inv2 (inl VNull)). destruct Hh2 as (Eu2 & Ea2 & Ee2). split_and!; auto; [|exists w; exact Ea2].
    cbn [set_result iv_result app length]. rewrite <- replicate_cons_app. reflexivity.
Qed.

(** An exception shows in the results. *)
Lemma ref_event_error self e u a : let '((_, a'), out) := ref_event self e u a in a' = None <-> out = inr tt.
Proof.
  destruct e as [argv|argv|]; cbn [ref_event].
  1,2: destruct (ref_step _ _ _ _ _) as [u' [r|]]; cbn; split; congruence.
  destruct (ref_value self u a) as [u' [x|[]]]; split; congruence.
Qed.

Lemma ref_events_error self evs u a : let '((_, a'), outs) := ref_events self evs u (Some a) in a' = None <-> inr tt ∈ outs.
Proof.
  revert u a. induction evs as [|e evs IH]; intros u a; cbn [ref_events].
  - rewrite elem_of_nil. split; [discriminate|intros []].
  - pose proof (ref_event_error self e u a) as He. destruct (ref_event self e u a) as [[u1 [a1|]] out].
    + specialize (IH u1 a1). destruct (ref_events self evs u1 (Some a1)) as [[u2 a2] outs]. rewrite elem_of_cons, IH.
      split; [tauto|]. intros [<-|]; [|assumption]. destruct He as [_ He]. discriminate (He eq_refl).
    + rewrite ref_events_empty. destruct He as [He _]. rewrite (He eq_refl). split; [left|reflexivity].
Qed.

End Callbacks.

(** C16: a user-defined aggregate computes the fold of its functions.  For every
    sequence of rows entering and leaving a window and of requests for its value,
    [xStep], [xInverse], [xValue] and the final [xFinal] give the
    results of the reference fold, which runs no user code after the first
    exception; no assertion fails, an exception is noted if and only if one
    of the calls reported an error, and the held value is released. *)
Theorem aggregate_computes_fold {U} (self : CustomAggregate) evs (inv : Invocation (U := U)) :
  iv_acc inv = None -> iv_error inv = false -> iv_malloc inv = true ->
  exists inv' outs, ref_run self evs (iv_user inv) = (iv_user inv', outs) /\ agg_run self evs inv = Some (inv', outs) /\
    released inv' /\ (iv_error inv' = true <-> inr tt ∈ outs).
Proof.
  intros Ea Ee Em. pose proof (first_get self inv Ea Ee Em) as Hf. unfold ref_run. destruct (ref_seed self (iv_user inv)) as [u [a|]].
  - destruct Hf as (inv1 & Hh & G). rewrite (invoke_from self inv inv1 G) by (intros r; exact (get_holds self (set_result inv1 r) u _ _ Hh)).
    pose proof (events_hold self evs inv1 u _ _ Hh) as Hx. pose proof (ref_events_error self evs u a) as Her.
    destruct (ref_events self evs u (Some a)) as [[u1 [a1|]] outs]; destruct Hx as (inv2 & w & E & H2 & Hw); unfold agg_run; rewrite E; cbn [mbind option_bind].
    + pose proof (final_spec self (set_result inv2 (inl VNull)) u1 a1 w H2 eq_refl) as Hx. rewrite (Hw ltac:(discriminate)) in Hx. cbn [orb] in Hx.
      destruct (ref_final self (existsb is_value evs) u1 a1) as [u2 out]. destruct Hx as (inv' & -> & Hr & Eu & Er & Eer). cbn [mbind option_bind].
      exists inv', (outs ++ [out]). rewrite Eu, Er, Eer. split_and!; auto. rewrite elem_of_app, list_elem_of_singleton, <- Her.
      destruct out as [x|[]]; split; try tauto; try discriminate. intros [?|?]; discriminate.
    + rewrite (final_empty self (set_result inv2 (inl VNull)) u1 w H2). cbn [mbind option_bind].
      exists (set_result inv2 (inl VNull)), (outs ++ [inl VNull]). destruct H2 as (Eu2 & Ea2 & Ee2). cbn [set_result iv_user iv_error iv_result] in *. rewrite Eu2, Ee2.
      split_and!; auto; [exists w; exact Ea2|]. split; [|reflexivity]. intros _. apply elem_of_app. left. apply Her. reflexivity.
  - destruct Hf as (inv1 & Hh & G). destruct (run_unseeded self inv inv1 u evs Hh G) as (inv' & E & Eu & Hr & Eer).
    exists inv', (inr tt :: replicate (length evs) (inl VNull)). rewrite Eu. split_and!; auto. rewrite Eer. split; [left|reflexivity].
Qed.

(** A sum that counts in the state of user code how often it was called. *)
Definition ex_sum : CustomAggregate (U := Z) :=
  mkCustomAggregate
    (fun u args => match args with [JBigInt a; JBigInt b] => (u + 1, Some (JBigInt (a + b))) | _ => (u + 1, None) end)
    (fun u args => match args with [JBigInt a; JBigInt b] => (u + 1, Some (JBigInt (a - b))) | _ => (u + 1, None) end)
    (inl (JBigInt 0)) None true.

Definition ex_window : list agg_event := [EStep [VInt 1]; EValue; EStep [VInt 2]; EInverse [VInt 1]; EValue; EStep [VNull]; EStep [VInt 3]; EValue].

Lemma aggregate_computes_fold_witness :
  exists inv' outs, ref_run ex_sum ex_window 0 = (iv_user inv', outs) /\
    agg_run ex_sum ex_window (mkInvocation false None true (inl VNull) 0) = Some (inv', outs) /\
    released inv' /\ (iv_error inv' = true <-> inr tt ∈ outs).
Proof. apply (aggregate_computes_fold ex_sum ex_window (mkInvocation false None true (inl VNull) 0)); reflexivity. Defined.

Example ex_window_results : snd (ref_run ex_sum ex_window 0)
  = [inl VNull; inl (VInt 1); inl VNull; inl VNull; inl (VInt 2); inr tt; inl VNull; inl VNull; inl VNull].
Proof. vm_compute. reflexivity. Qed.
