(* ===== verification/CustomTable.v ===== *)
(** * User-defined virtual tables (custom-table.cpp)

    The callbacks of a virtual table whose rows a JavaScript generator yields.  User
    code is functions on a state of its own, [U]; an iterator the generator
    returned is a value of [It]. *)
From stdpp Require Import gmap strings sorting.
From S2P Require Import Prelude Double Value Codes Record Strings Bind Js.

Local Open Scope Z_scope.

Definition SQLITE_INDEX_CONSTRAINT_EQ : Z := 2.
Definition SQLITE_INDEX_CONSTRAINT_LIMIT : Z := 73.
Definition SQLITE_INDEX_CONSTRAINT_OFFSET : Z := 74.

(** ** Planning *)

Record index_constraint := mkConstraint {
  ic_iColumn : Z;
  ic_op : Z;
  ic_usable : bool
}.

(** [sqlite3_index_info]: the constraints and, of each, [argvIndex] and [omit]. *)
Record index_info := mkIndexInfo {
  ii_aConstraint : list index_constraint;
  ii_aConstraintUsage : list (Z * bool);
  ii_idxNum : Z;
  ii_estimatedCost : Z
}.

(** The first loop of [xBestIndex]: the pairs forwarded, or the code returned
    and the parameter the error message names. *)
Fixpoint forwarded (names : list (list Z)) (i : nat) (cs : list index_constraint) : option (list (Z * nat) + Z * option (list Z)) :=
  match cs with
  | [] => Some (inl [])
  | item :: cs =>
      if (ic_op item =? SQLITE_INDEX_CONSTRAINT_LIMIT) || (ic_op item =? SQLITE_INDEX_CONSTRAINT_OFFSET)
      then forwarded names (S i) cs
      else if (0 <=? ic_iColumn item) && (ic_iColumn item <? Zlen names) then
        if negb (ic_op item =? SQLITE_INDEX_CONSTRAINT_EQ) then
          name ← names !! Z.to_nat (ic_iColumn item);
          Some (inr (SQLITE_ERROR, Some name))
        else if negb (ic_usable item) then Some (inr (SQLITE_CONSTRAINT, None))
        else
          r ← forwarded names (S i) cs;
          Some (match r with inl l => inl ((ic_iColumn item, i) :: l) | inr err => inr err end)
      else forwarded names (S i) cs
  end.

(** The order of [std::pair]. *)
Definition pair_le (p q : Z * nat) : Prop := p.1 < q.1 \/ (p.1 = q.1 /\ (p.2 <= q.2)%nat).

#[export] Instance pair_le_dec : RelDecision pair_le.
Proof. intros p q. unfold pair_le. apply _. Defined.

(** [1 << n] of an [int]; the shift count must be less than its width. *)
Definition shift_one (n : Z) : option Z := if (0 <=? n) && (n <? 32) then Some (i32 (Z.shiftl 1 n)) else None.

(** The second loop. *)
Fixpoint assign (l : list (Z * nat)) (idxNum argument_count : Z) (usage : list (Z * bool)) : option (Z * Z * list (Z * bool)) :=
  match l with
  | [] => Some (idxNum, argument_count, usage)
  | (column, i) :: l =>
      bit ← shift_one column;
      if Z.land idxNum bit =? 0 then
        if (i <? length usage)%nat
        then assign l (Z.lor idxNum bit) (argument_count + 1) (<[i := (argument_count + 1, true)]> usage)
        else None
      else assign l idxNum argument_count usage
  end.

Definition xBestIndex (names : list (list Z)) (output : index_info) : option (index_info * (Z * option (list Z))) :=
  r ← forwarded names 0 (ii_aConstraint output);
  match r with
  | inr err => Some (output, err)
  | inl l =>
      '(idxNum, argument_count, usage) ← assign (merge_sort pair_le l) (ii_idxNum output) 0 (ii_aConstraintUsage output);
      Some (mkIndexInfo (ii_aConstraint output) usage idxNum (1000000000 / (argument_count + 1)), (SQLITE_OK, None))
  end.

(** ** Scanning *)

Section Tables.
Context {U It : Type}.

(** The iterator's [next()]: the new state of user code, and the record unless
    it throws: [done], and the array [value] with elements whose getters may
    throw. *)
Record VTab := mkVTab {
  vt_parameter_names : list (list Z);
  vt_safe_ints : bool;
  vt_generator : U -> list js_value -> U * option It;
  vt_next : It -> U -> U * option (bool * list (option js_value))
}.

(** The state the callbacks share: the flag [was_js_error] and user code. *)
Record Shared := mkShared { sh_error : bool; sh_user : U }.

Record Cursor := mkCursor {
  cu_iterator : option It;
  cu_row : list (option js_value);
  cu_done : bool;
  cu_rowid : Z
}.

Definition xOpen : Cursor := mkCursor None [] false 0.

Definition Table_PropagateJSError (s : Shared) : option Shared :=
  if sh_error s then None else Some (mkShared true (sh_user s)).

(** *** Connecting *)

(** What the factory function returns. *)
Record TableDefinition := mkTableDefinition {
  td_sql : list Z;
  td_generator : U -> list js_value -> U * option It;
  td_next : It -> U -> U * option (bool * list (option js_value));
  td_parameters : list (list Z);
  td_safe_ints : Z;
  td_direct_only : bool
}.

Definition xConnect (factory : U -> list (list Z) -> U * option TableDefinition) (declare_vtab : list Z -> Z) (vtab_config : Z)
    (db_safe_ints : bool) (argv : list (list Z)) (s : Shared) : option (Shared * (VTab + Z * string)) :=
  let '(u, maybeReturnValue) := factory (sh_user s) argv in
  let s := mkShared (sh_error s) u in
  match maybeReturnValue with
  | None => s ← Table_PropagateJSError s; Some (s, inr (SQLITE_ERROR, EmptyString))
  | Some def =>
      let safe_ints := if td_safe_ints def <? 2 then negb (td_safe_ints def =? 0) else db_safe_ints in
      if negb (declare_vtab (td_sql def) =? SQLITE_OK) then Some (s, inr (SQLITE_ERROR, "failed to declare virtual table"%string))
      else if td_direct_only def && negb (vtab_config =? SQLITE_OK) then Some (s, inr (SQLITE_ERROR, "failed to configure virtual table"%string))
      else Some (s, inl (mkVTab (td_parameters def) safe_ints (td_generator def) (td_next def)))
  end.

(** *** The cursor *)

Definition xNext (vtab : VTab) (cursor : Cursor) (s : Shared) : option (Cursor * Shared * Z) :=
  iterator ← cu_iterator cursor;
  let '(u, maybeRecord) := vt_next vtab iterator (sh_user s) in
  let s := mkShared (sh_error s) u in
  match maybeRecord with
  | None => s ← Table_PropagateJSError s; Some (cursor, s, SQLITE_ERROR)
  | Some (is_done, value) =>
      if cu_rowid cursor =? 2 ^ 63 - 1 then None
      else Some (mkCursor (Some iterator) (if is_done then cu_row cursor else value) is_done (cu_rowid cursor + 1), s, SQLITE_OK)
  end.

(** The arguments of the generator from position [i], with [n] to go, or none
    when one of them is NULL. *)
Fixpoint filter_args (safe_ints : bool) (idxNum : Z) (i : Z) (n : nat) (argv : list sqlite3_value) : option (option (list js_value)) :=
  match n with
  | O => Some (Some [])
  | S n =>
      bit ← shift_one i;
      if negb (Z.land idxNum bit =? 0) then
        match argv with
        | [] => None
        | v :: argv =>
            let x := GetValueJS v safe_ints in
            if IsNull x then Some None
            else r ← filter_args safe_ints idxNum (i + 1) n argv; Some (option_map (cons x) r)
        end
      else r ← filter_args safe_ints idxNum (i + 1) n argv; Some (option_map (cons JUndefined) r)
  end.

Definition xFilter (vtab : VTab) (cursor : Cursor) (idxNum : Z) (argv : list sqlite3_value) (s : Shared) : option (Cursor * Shared * Z) :=
  r ← filter_args (vt_safe_ints vtab) idxNum 0 (length (vt_parameter_names vtab)) argv;
  match r with
  | None => Some (mkCursor (cu_iterator cursor) (cu_row cursor) true (cu_rowid cursor), s, SQLITE_OK)
  | Some args =>
      let '(u, maybeIterator) := vt_generator vtab (sh_user s) args in
      let s := mkShared (sh_error s) u in
      match maybeIterator with
      | None => s ← Table_PropagateJSError s; Some (cursor, s, SQLITE_ERROR)
      | Some iterator => xNext vtab (mkCursor (Some iterator) (cu_row cursor) (cu_done cursor) 0) s
      end
  end.

Definition xEof (cursor : Cursor) : bool := cu_done cursor.
Definition xRowid (cursor : Cursor) : Z := cu_rowid cursor.

(** [xColumn]: reading past the end of the array gives [undefined]. *)
Definition xColumn (cursor : Cursor) (column : nat) (s : Shared) : option (Shared * (sqlite3_value + Z)) :=
  match default (Some JUndefined) (cu_row cursor !! column) with
  | None => s ← Table_PropagateJSError s; Some (s, inr SQLITE_ERROR)
  | Some v =>
      match ResultValueFromJS v with
      | inl x => Some (s, inl x)
      | inr _ => s ← Table_PropagateJSError s; Some (s, inr SQLITE_ERROR)
      end
  end.

End Tables.
