(* ===== verification/TableCorrect.v ===== *)
(** * A virtual table receives its arguments

    From the plan [xBestIndex] makes to the rows a scan reads. *)
From stdpp Require Import gmap strings sorting.
From S2P Require Import Prelude Double Value Record Strings Bind Js CustomTable.

Local Open Scope Z_scope.

(** ** Bits of an [int] *)

(** The bits above the width repeat the sign. *)
Definition sign_extended (x : Z) : Prop := forall j, 31 <= j -> Z.testbit x j = Z.testbit x 31.

Lemma shift_one_bits n : 0 <= n < 32 -> exists bit, shift_one n = Some bit /\
  forall j, 0 <= j -> Z.testbit bit j = if n =? 31 then 31 <=? j else n =? j.
Proof.
  intros Hn. unfold shift_one. rewrite (proj2 (Z.leb_le _ _) (proj1 Hn)), (proj2 (Z.ltb_lt _ _) (proj2 Hn)). eexists. split; [reflexivity|].
  intros j Hj. rewrite Z.shiftl_1_l. destruct (Z.eqb_spec n 31) as [->|N].
  - change (i32 (2 ^ 31)) with (Z.lnot (Z.ones 31)). rewrite Z.lnot_spec, Z.testbit_ones by lia.
    rewrite (proj2 (Z.leb_le _ _) Hj). cbn. rewrite Z.leb_antisym. reflexivity.
  - rewrite i32_id; [apply Z.pow2_bits_eqb; lia|]. split; [lia|]. apply Z.pow_lt_mono_r; lia.
Qed.

Lemma land_bit x n bit : sign_extended x -> 0 <= n < 32 -> shift_one n = Some bit -> (Z.land x bit =? 0) = negb (Z.testbit x n).
Proof.
  intros Hx Hn Eb. destruct (shift_one_bits n Hn) as (b & Eb' & Hb). rewrite Eb in Eb'. injection Eb' as <-.
  destruct (Z.testbit x n) eqn:Et; cbn [negb].
  - apply Z.eqb_neq. intros E. assert (Z.testbit (Z.land x bit) n = false) as F by (rewrite E; apply Z.bits_0).
    rewrite Z.land_spec, Et, Hb in F by lia. destruct (Z.eqb_spec n 31); cbn in F; [apply Z.leb_gt in F|apply Z.eqb_neq in F]; lia.
  - apply Z.eqb_eq, Z.bits_inj'. intros j Hj. rewrite Z.bits_0, Z.land_spec, (Hb j Hj). destruct (Z.eqb_spec n 31) as [->|N].
    + destruct (Z.leb_spec 31 j); [|apply andb_false_r]. rewrite (Hx j), Et by lia. reflexivity.
    + destruct (Z.eqb_spec n j) as [<-|]; [rewrite Et; reflexivity|apply andb_false_r].
Qed.

Lemma lor_bit x n bit : sign_extended x -> 0 <= n < 32 -> shift_one n = Some bit ->
  sign_extended (Z.lor x bit) /\ forall j, 0 <= j < 32 -> Z.testbit (Z.lor x bit) j = Z.testbit x j || (n =? j).
Proof.
  intros Hx Hn Eb. destruct (shift_one_bits n Hn) as (b & Eb' & Hb). rewrite Eb in Eb'. injection Eb' as <-. split.
  - intros j Hj. rewrite !Z.lor_spec, (Hx j Hj), !Hb by lia. f_equal. destruct (Z.eqb_spec n 31).
    + apply eq_bool_prop_intro. rewrite !Is_true_true, !Z.leb_le. lia.
    + rewrite !(proj2 (Z.eqb_neq _ _)); [reflexivity|lia..].
  - intros j Hj. rewrite Z.lor_spec, Hb by lia. f_equal. destruct (Z.eqb_spec n 31) as [->|]; [|reflexivity].
    apply eq_bool_prop_intro. rewrite !Is_true_true, Z.leb_le, Z.eqb_eq. lia.
Qed.

(** ** The constraints that are used *)

(** Of a sorted list, the first pair of each column. *)
Fixpoint kept (l : list (Z * nat)) (last : Z) : list (Z * nat) :=
  match l with
  | [] => []
  | (c, i) :: l => if c =? last then kept l last else (c, i) :: kept l c
  end.

Fixpoint number (K : list (Z * nat)) (n : Z) (usage : list (Z * bool)) : list (Z * bool) :=
  match K with [] => usage | (_, i) :: K => number K (n + 1) (<[i := (n + 1, true)]> usage) end.

Lemma assign_kept l idx n usage last : StronglySorted pair_le l -> Forall (fun p => 0 <= p.1 < 32 /\ (p.2 < length usage)%nat /\ last <= p.1) l ->
  sign_extended idx -> (forall c, 0 <= c < 32 -> Z.testbit idx c = true -> c <= last) -> (0 <= last -> Z.testbit idx last = true) ->
  exists idx', assign l idx n usage = Some (idx', n + Zlen (kept l last), number (kept l last) n usage) /\ sign_extended idx' /\
    forall c, 0 <= c < 32 -> Z.testbit idx' c = Z.testbit idx c || existsb (fun p => p.1 =? c) (kept l last).
Proof.
  revert idx n usage last. induction l as [|[c i] l IH]; intros idx n usage last Hs Hf Hx Hle Hlast; cbn [assign kept].
  - exists idx. rewrite Zlen_nil, Z.add_0_r. split_and!; auto. intros c _. cbn. rewrite orb_false_r. reflexivity.
  - inversion Hs as [|? ? Hs' Hall]; subst. inversion Hf as [|? ? (Hc & Hi & Hl) Hf']; subst. cbn [fst snd] in *.
    destruct (shift_one_bits c Hc) as (bit & Eb & _). rewrite Eb. cbn [mbind option_bind]. rewrite (land_bit idx c bit Hx Hc Eb).
    destruct (Z.eqb_spec c last) as [->|N].
    + rewrite (Hlast ltac:(lia)). cbn [negb]. apply IH; auto.
    + assert (Et : Z.testbit idx c = false). { destruct (Z.testbit idx c) eqn:E; [|reflexivity]. specialize (Hle c Hc E). lia. }
      rewrite Et, (proj2 (Nat.ltb_lt _ _) Hi). cbn [negb]. destruct (lor_bit idx c bit Hx Hc Eb) as [Hx' Hb].
      destruct (IH (Z.lor idx bit) (n + 1) (<[i := (n + 1, true)]> usage) c Hs') as (idx' & E & Hx'' & Hb'').
      * rewrite length_insert. rewrite Forall_forall in Hall, Hf' |- *. intros q Hq. destruct (Hf' q Hq) as (? & ? & ?).
        specialize (Hall q Hq). unfold pair_le in Hall. cbn in Hall. split_and!; auto; lia.
      * exact Hx'.
      * intros c' Hc' E. rewrite (Hb c' Hc') in E. apply orb_prop in E as [E|E]; [specialize (Hle c' Hc' E); lia|apply Z.eqb_eq in E; lia].
      * intros _. rewrite (Hb c Hc), Z.eqb_refl. apply orb_true_r.
      * exists idx'. rewrite E. cbn [number]. split; [f_equal; f_equal; f_equal; rewrite Zlen_cons; lia|]. split; [exact Hx''|].
        intros c' Hc'. rewrite (Hb'' c' Hc'), (Hb c' Hc'). cbn [existsb fst]. rewrite orb_assoc. reflexivity.
Qed.

Lemma kept_sub l last p : p ∈ kept l last -> p ∈ l.
Proof.
  revert last. induction l as [|[c i] l IH]; intros last; cbn [kept]; [auto|]. rewrite elem_of_cons. destruct (c =? last); [eauto|].
  rewrite elem_of_cons. intros [->|]; eauto.
Qed.

(** The columns kept increase, and each is kept with its least index. *)
Lemma kept_spec l last : StronglySorted pair_le l -> (forall p, p ∈ l -> last <= p.1) ->
  StronglySorted (fun p q => p.1 < q.1) (kept l last) /\ (forall p, p ∈ kept l last -> last < p.1) /\
  forall p, p ∈ l -> p.1 <> last -> exists i, (p.1, i) ∈ kept l last /\ (i <= p.2)%nat.
Proof.
  revert last. induction l as [|[c i] l IH]; intros last Hs Hl; cbn [kept].
  - split_and!; [constructor|intros p Hp; inversion Hp..].
  - inversion Hs as [|? ? Hs' Hall]; subst. rewrite Forall_forall in Hall. destruct (Z.eqb_spec c last) as [->|N].
    + destruct (IH last Hs') as (S1 & S2 & S3); [intros p Hp; apply Hl; right; exact Hp|]. split_and!; auto.
      intros p. rewrite elem_of_cons. intros [->|Hp]; [intros E; contradiction E; reflexivity|apply S3, Hp].
    + assert (Hlc : last < c) by (specialize (Hl (c, i) (list_elem_of_here _ _)); cbn in Hl; lia).
      destruct (IH c Hs') as (S1 & S2 & S3); [intros p Hp; specialize (Hall p Hp); unfold pair_le in Hall; cbn in Hall; lia|]. split_and!.
      * constructor; [exact S1|]. apply Forall_forall. exact S2.
      * intros p. rewrite elem_of_cons. intros [->|Hp]; [exact Hlc|]. specialize (S2 p Hp). lia.
      * intros p. rewrite elem_of_cons. intros [->|Hp] Hne; [exists i; split; [left|cbn; lia]|].
        destruct (Z.eq_dec p.1 c) as [Ec|Nc].
        -- exists i. rewrite Ec. split; [left|]. specialize (Hall p Hp). unfold pair_le in Hall. cbn in Hall. lia.
        -- destruct (S3 p Hp Nc) as (k & Hk & Hle). exists k. split; [right; exact Hk|exact Hle].
Qed.

Lemma number_other K n usage j : (forall p, p ∈ K -> p.2 <> j) -> number K n usage !! j = usage !! j.
Proof.
  revert n usage. induction K as [|[c i] K IH]; intros n usage Hj; [reflexivity|]. cbn [number]. rewrite IH by (intros p Hp; apply Hj; right; exact Hp).
  apply list_lookup_insert_ne. exact (Hj (c, i) (list_elem_of_here _ _)).
Qed.

Lemma number_lookup K n usage m p : NoDup (K.*2) -> (forall q, q ∈ K -> (q.2 < length usage)%nat) -> K !! m = Some p ->
  number K n usage !! p.2 = Some (n + 1 + Z.of_nat m, true).
Proof.
  revert n usage m. induction K as [|[c i] K IH]; intros n usage m Hn Hr Hm; [discriminate|]. cbn [number fmap list_fmap snd] in *.
  inversion Hn as [|? ? Hi Hn']; subst. destruct m as [|m].
  - injection Hm as <-. cbn [snd]. rewrite number_other.
    + rewrite list_lookup_insert_eq; [f_equal; f_equal; lia|]. exact (Hr (c, i) (list_elem_of_here _ _)).
    + intros p Hp E. apply Hi. rewrite <- E. apply list_elem_of_fmap. eauto.
  - rewrite (IH (n + 1) _ m Hn'); [f_equal; f_equal; lia| |exact Hm]. intros q Hq. rewrite length_insert. apply Hr. right. exact Hq.
Qed.

(** ** The constraints that are forwarded *)

(** A constraint on the parameter in column [c]. *)
Definition on_parameter (c : Z) (item : index_constraint) : Prop :=
  ic_op item <> SQLITE_INDEX_CONSTRAINT_LIMIT /\ ic_op item <> SQLITE_INDEX_CONSTRAINT_OFFSET /\ ic_iColumn item = c.

#[export] Instance on_parameter_dec c item : Decision (on_parameter c item).
Proof. unfold on_parameter. apply _. Defined.

Lemma forwarded_spec names cs i l : forwarded names i cs = Some (inl l) ->
  (forall c k, (c, k) ∈ l <-> 0 <= c < Zlen names /\ (i <= k)%nat /\ exists item, cs !! (k - i)%nat = Some item /\ on_parameter c item) /\
  NoDup (l.*2).
Proof.
  revert i l. induction cs as [|item cs IH]; intros i l; cbn [forwarded].
  { intros [= <-]. split; [|constructor]. intros c k. split; [intros Hk; inversion Hk|]. intros (_ & _ & item & E & _). discriminate. }
  assert (Skip : forall c, ~ (0 <= c < Zlen names /\ on_parameter c item) -> forall k,
    ((i <= k)%nat /\ exists it, (item :: cs) !! (k - i)%nat = Some it /\ 0 <= c < Zlen names /\ on_parameter c it) <->
    ((S i <= k)%nat /\ exists it, cs !! (k - S i)%nat = Some it /\ 0 <= c < Zlen names /\ on_parameter c it)).
  { intros c N k. split.
    - intros (Hk & it & E & Hp). destruct (k - i)%nat as [|j] eqn:Ej; [cbn in E; injection E as <-; contradiction|].
      split; [lia|]. exists it. replace (k - S i)%nat with j by lia. auto.
    - intros (Hk & it & E & Hp). split; [lia|]. exists it. replace (k - i)%nat with (S (k - S i)) by lia. auto. }
  destruct (_ || _) eqn:Eop; [|destruct (_ && _) eqn:Ec].
  - intros E. destruct (IH _ _ E) as [A B]. split; [|exact B]. intros c k. rewrite A. 
    assert (N : ~ (0 <= c < Zlen names /\ on_parameter c item)).
    { intros (_ & N1 & N2 & _). apply orb_prop in Eop as [E'|E']; apply Z.eqb_eq in E'; contradiction. }
    specialize (Skip c N k). firstorder.
  - apply andb_prop in Ec as [C1 C2]. apply Z.leb_le in C1. apply Z.ltb_lt in C2. apply orb_false_elim in Eop as [O1 O2].
    destruct (negb _). { destruct (names !! _); discriminate. } destruct (negb _); [discriminate|].
    destruct (forwarded names (S i) cs) as [[l'|err]|] eqn:E; [|discriminate..]. intros [= <-]. destruct (IH _ _ E) as [A B]. split.
    + intros c k. rewrite elem_of_cons, A. split.
      * intros [[= -> ->]|(Hc & Hk & it & Ek & Hp)].
        -- split; [auto|]. split; [lia|]. exists item. rewrite Nat.sub_diag. split; [reflexivity|]. split_and!; auto; apply Z.eqb_neq; assumption.
        -- split; [exact Hc|]. split; [lia|]. exists it. replace (k - i)%nat with (S (k - S i)) by lia. auto.
      * intros (Hc & Hk & it & Ek & Hp). destruct (k - i)%nat as [|j] eqn:Ej.
        -- left. cbn in Ek. injection Ek as <-. destruct Hp as (_ & _ & <-). f_equal. lia.
        -- right. split; [exact Hc|]. split; [lia|]. exists it. replace (k - S i)%nat with j by lia. auto.
    + cbn [fmap list_fmap snd]. constructor; [|exact B]. rewrite list_elem_of_fmap. intros ([c k] & Ek & Hk). cbn in Ek. subst k.
      apply A in Hk. lia.
  - intros E. destruct (IH _ _ E) as [A B]. split; [|exact B]. intros c k. rewrite A.
    assert (N : ~ (0 <= c < Zlen names /\ on_parameter c item)).
    { intros (Hc & _ & _ & <-). apply andb_false_elim in Ec as [E'|E']; [apply Z.leb_gt in E'|apply Z.ltb_ge in E']; lia. }
    specialize (Skip c N k). firstorder.
Qed.

(** ** The arguments *)

(** What the query gives for the parameter in column [c]: the right-hand side
    of the first constraint on it. *)
Definition argument (safe_ints : bool) (cs : list index_constraint) (rhs : list sqlite3_value) (c : Z) : js_value :=
  match list_find (on_parameter c) cs with
  | Some (k, _) => GetValueJS (default VNull (rhs !! k)) safe_ints
  | None => JUndefined
  end.

Definition arguments (safe_ints : bool) (n : nat) (cs : list index_constraint) (rhs : list sqlite3_value) : list js_value :=
  argument safe_ints cs rhs <$> seqZ 0 (Z.of_nat n).

Lemma filter_args_spec safe_ints cs rhs idx i n K argv : 0 <= i -> i + Z.of_nat n <= 32 -> sign_extended idx ->
  StronglySorted (fun p q => p.1 < q.1) K -> (forall p, p ∈ K -> i <= p.1) ->
  (forall c, i <= c < i + Z.of_nat n -> Z.testbit idx c = existsb (fun p => p.1 =? c) K) ->
  (forall m p, K !! m = Some p -> argv !! m = rhs !! p.2 /\ (p.2 < length rhs)%nat) ->
  (forall c k, i <= c < i + Z.of_nat n -> (c, k) ∈ K -> exists item, list_find (on_parameter c) cs = Some (k, item)) ->
  (forall c, i <= c < i + Z.of_nat n -> (forall k, (c, k) ∉ K) -> list_find (on_parameter c) cs = None) ->
  let args := argument safe_ints cs rhs <$> seqZ i (Z.of_nat n) in
  filter_args safe_ints idx i n argv = Some (if existsb IsNull args then None else Some args).
Proof.
  revert i K argv. induction n as [|n IH]; intros i K argv Hi Hn Hx Hs Hge Hbit Hargv Hin Hout; [reflexivity|]. cbn zeta.
  rewrite Nat2Z.inj_succ in *. rewrite seqZ_cons by lia. cbn [fmap list_fmap filter_args]. rewrite Z.pred_succ. change (list_fmap _ _ ?f ?l) with (f <$> l).
  destruct (shift_one_bits i ltac:(lia)) as (bit & Eb & _). rewrite Eb. cbn [mbind option_bind].
  rewrite (land_bit idx i bit Hx ltac:(lia) Eb), negb_involutive, Hbit by lia. rewrite <- (Z.add_1_r i). cbn [existsb].
  destruct K as [|[c k] K]; [|destruct (Z.eqb_spec c i) as [->|N]].
  - cbn [existsb]. rewrite (IH (i + 1) [] argv); try lia; auto.
    + replace (argument safe_ints cs rhs i) with JUndefined by (unfold argument; rewrite (Hout i) by (try lia; intros k Hk; inversion Hk); reflexivity).
      cbn. destruct (existsb _ _); reflexivity.
    + intros p Hp. inversion Hp.
    + intros c Hc. apply Hbit. lia.
    + intros c k Hc Hk. inversion Hk.
    + intros c Hc Hnot. apply Hout; [lia|exact Hnot].
  - cbn [existsb fst]. rewrite Z.eqb_refl. cbn [orb]. inversion Hs as [|? ? Hs' Hall]; subst. rewrite Forall_forall in Hall.
    destruct (Hargv 0%nat (i, k) eq_refl) as [Ea Hk]. cbn [snd] in *. destruct (lookup_lt_is_Some_2 _ _ Hk) as [v Ev]. rewrite Ev in Ea.
    destruct argv as [|v' argv]; [discriminate|]. cbn in Ea. injection Ea as ->.
    destruct (Hin i k ltac:(lia) (list_elem_of_here _ _)) as [item Ef]. replace (argument safe_ints cs rhs i) with (GetValueJS v safe_ints) by (unfold argument; rewrite Ef, Ev; reflexivity).
    destruct (IsNull (GetValueJS v safe_ints)); [reflexivity|]. cbn [orb].
    rewrite (IH (i + 1) K argv); auto; try lia.
    + cbn. destruct (existsb _ _); reflexivity.
    + intros p Hp. specialize (Hall p Hp). cbn in Hall. lia.
    + intros c Hc. rewrite Hbit by lia. cbn [existsb fst]. destruct (Z.eqb_spec i c); [lia|reflexivity].
    + intros m p Hm. exact (Hargv (S m) p Hm).
    + intros c k' Hc Hp. apply Hin; [lia|right; exact Hp].
    + intros c Hc Hnot. apply Hout; [lia|]. intros k'. rewrite elem_of_cons. intros [[= -> ->]|Hp]; [lia|exact (Hnot k' Hp)].
  - assert (Hc : i < c) by (specialize (Hge (c, k) (list_elem_of_here _ _)); cbn in Hge; lia).
    inversion Hs as [|? ? Hs' Hall]; subst. rewrite Forall_forall in Hall.
    assert (Hgt : forall p, p ∈ (c, k) :: K -> i < p.1). { intros p. rewrite elem_of_cons. intros [->|Hp]; [exact Hc|]. specialize (Hall p Hp). cbn in Hall. lia. }
    replace (existsb (fun p => p.1 =? i) ((c, k) :: K)) with false.
    2: { symmetry. apply not_true_iff_false. intros E. apply existsb_exists in E as (p & Hp & Ep). apply Z.eqb_eq in Ep.
         specialize (Hgt p (proj2 (list_elem_of_In _ _) Hp)). lia. }
    rewrite (IH (i + 1) ((c, k) :: K) argv); auto; try lia.
    + replace (argument safe_ints cs rhs i) with JUndefined by (unfold argument; rewrite (Hout i) by (try lia; intros k' Hk; specialize (Hgt _ Hk); cbn in Hgt; lia); reflexivity).
      cbn. destruct (existsb _ _); reflexivity.
    + intros p Hp. specialize (Hgt p Hp). lia.
    + intros c' Hc'. apply Hbit. lia.
    + intros c' k' Hc' Hp. apply Hin; [lia|exact Hp].
    + intros c' Hc' Hnot. apply Hout; [lia|exact Hnot].
Qed.

(** ** A query *)

(** What SQLite passes to [xFilter]: at position [argvIndex - 1], the value of
    the constraint. *)
Definition passes (usage : list (Z * bool)) (rhs argv : list sqlite3_value) : Prop :=
  forall j k omit, usage !! j = Some (k, omit) -> 0 < k -> argv !! Z.to_nat (k - 1) = rhs !! j.

Definition unplanned (info : index_info) : Prop :=
  ii_idxNum info = 0 /\ ii_aConstraintUsage info = replicate (length (ii_aConstraint info)) (0, false).

Lemma sorted_strongly l : StronglySorted pair_le (merge_sort pair_le l).
Proof.
  apply Sorted_StronglySorted; [|apply Sorted_merge_sort].
  - intros p q r. unfold pair_le. lia.
  - intros p q. unfold pair_le. lia.
Qed.

Lemma forwarded_error names cs i code message : forwarded names i cs = Some (inr (code, message)) -> code <> SQLITE_OK.
Proof.
  revert i. induction cs as [|it cs IH]; intros i; cbn [forwarded]; [discriminate|].
  destruct (_ || _); [apply IH|]. destruct (_ && _); [|apply IH]. destruct (negb _).
  - destruct (names !! _); [|discriminate]. cbn. intros [= <- _]. discriminate.
  - destruct (negb _); [intros [= <- _]; discriminate|]. destruct (forwarded names (S i) cs) as [[?|?]|] eqn:E; try discriminate.
    intros [= ->]. exact (IH _ E).
Qed.

(** The pairs kept, the bits set and the positions passed agree. *)
Lemma plan_kept names info info' message : (length names <= 32)%nat -> unplanned info ->
  xBestIndex names info = Some (info', (SQLITE_OK, message)) -> exists l,
    forwarded names 0 (ii_aConstraint info) = Some (inl l) /\
    let K := kept (merge_sort pair_le l) (-1) in
    sign_extended (ii_idxNum info') /\ (forall c, 0 <= c < 32 -> Z.testbit (ii_idxNum info') c = existsb (fun p => p.1 =? c) K) /\
    (forall m p, K !! m = Some p -> ii_aConstraintUsage info' !! p.2 = Some (1 + Z.of_nat m, true) /\ (p.2 < length (ii_aConstraint info))%nat) /\
    StronglySorted (fun p q => p.1 < q.1) K /\ (forall p, p ∈ K -> p ∈ l) /\
    (forall p, p ∈ l -> exists i, (p.1, i) ∈ K /\ (i <= p.2)%nat).
Proof.
  intros Hn [E0 Eu] Hx. unfold xBestIndex in Hx. destruct (forwarded names 0 (ii_aConstraint info)) as [[l|[c m]]|] eqn:Ef; [| |discriminate].
  2: { cbn in Hx. injection Hx as _ -> _. destruct (forwarded_error _ _ _ _ _ Ef eq_refl). }
  exists l. split; [reflexivity|]. cbn zeta. cbn [mbind option_bind] in Hx. rewrite E0, Eu in Hx. destruct (forwarded_spec _ _ _ _ Ef) as [A B].
  pose proof (sorted_strongly l) as Hs. assert (P : merge_sort pair_le l ≡ₚ l) by apply merge_sort_Permutation. set (l' := merge_sort pair_le l) in *.
  assert (R : forall p, p ∈ l' -> 0 <= p.1 < 32 /\ (p.2 < length (ii_aConstraint info))%nat /\ -1 <= p.1).
  { intros [c k] Hp. rewrite P in Hp. apply A in Hp as (Hc & _ & it & Ek & _). apply lookup_lt_Some in Ek. unfold Zlen in Hc. cbn. lia. }
  destruct (assign_kept l' 0 0 (replicate (length (ii_aConstraint info)) (0, false)) (-1) Hs) as (idx' & Ea & X & Bt).
  { apply Forall_forall. intros p Hp. rewrite length_replicate. apply R, Hp. }
  { intros j _. rewrite !Z.bits_0. reflexivity. } { intros c _. rewrite Z.bits_0. discriminate. } { lia. }
  rewrite Ea in Hx. cbn [mbind option_bind] in Hx. injection Hx as <- _. cbn [ii_idxNum ii_aConstraintUsage].
  destruct (kept_spec l' (-1) Hs) as (S1 & S2 & S3); [intros p Hp; apply R, Hp|]. split_and!; auto.
  - intros c Hc. rewrite (Bt c Hc), Z.bits_0. reflexivity.
  - intros m p Hm. pose proof (kept_sub _ _ _ (list_elem_of_lookup_2 _ _ _ Hm)) as Hp. split; [|apply R, Hp].
    apply (number_lookup _ 0); [|intros q Hq; rewrite length_replicate; apply R, (kept_sub _ _ _ Hq)|exact Hm].
    rewrite <- P in B. clear -B. revert B. generalize (-1). induction l' as [|[c i] l' IH]; intros last B; cbn [kept]; [constructor|].
    inversion B as [|? ? Hi B']; subst. destruct (c =? last); [auto|]. cbn. constructor; [|auto].
    intros Hin. apply Hi. apply list_elem_of_fmap in Hin as (q & -> & Hq). apply list_elem_of_fmap. exists q. split; [reflexivity|]. apply (kept_sub _ _ _ Hq).
  - intros p Hp. rewrite <- P. apply (kept_sub _ _ _ Hp).
  - intros p Hp. rewrite <- P in Hp. apply S3; [exact Hp|]. destruct (R p Hp). lia.
Qed.

(** The plan tells [xFilter] which constraint each of its values comes from. *)
Lemma plan_arguments names info info' message safe_ints rhs argv : (length names <= 32)%nat -> unplanned info ->
  xBestIndex names info = Some (info', (SQLITE_OK, message)) -> length rhs = length (ii_aConstraint info) ->
  passes (ii_aConstraintUsage info') rhs argv ->
  let args := arguments safe_ints (length names) (ii_aConstraint info) rhs in
  filter_args safe_ints (ii_idxNum info') 0 (length names) argv = Some (if existsb IsNull args then None else Some args).
Proof.
  intros Hn Hu Hx Hl Hp. destruct (plan_kept names info info' message Hn Hu Hx) as (l & Ef & X & Bt & Us & S1 & Sub & Min). set (K := kept _ _) in *.
  destruct (forwarded_spec _ _ _ _ Ef) as [A _].
  apply (filter_args_spec safe_ints (ii_aConstraint info) rhs (ii_idxNum info') 0 (length names) K argv); auto; try lia.
  - intros [c k] Hk. apply Sub, A in Hk. cbn. lia.
  - intros c Hc. apply Bt. lia.
  - intros m p Hm. destruct (Us m p Hm) as [E R]. split; [|lia]. rewrite <- (Hp _ _ _ E) by lia. f_equal. lia.
  - intros c k Hc Hk. destruct (proj1 (A c k) (Sub _ Hk)) as (_ & _ & it & Ek & On). rewrite Nat.sub_0_r in Ek. exists it.
    apply list_find_Some. split_and!; auto. intros j y Ej Hlt Hy. assert (Hj : (c, j) ∈ l).
    { apply A. split; [unfold Zlen; lia|]. split; [lia|]. exists y. rewrite Nat.sub_0_r. auto. }
    destruct (Min _ Hj) as (i & Hi & Hle). cbn [fst snd] in *.
    assert (i = k); [|lia]. clear -S1 Hk Hi. induction S1 as [|q K' S1 IH Hall]; [inversion Hk|]. rewrite Forall_forall in Hall.
    rewrite elem_of_cons in Hk, Hi. destruct Hk as [Hk|Hk], Hi as [Hi|Hi]; [congruence| | |auto].
    + specialize (Hall _ Hi). rewrite <- Hk in Hall. cbn in Hall. lia.
    + specialize (Hall _ Hk). rewrite <- Hi in Hall. cbn in Hall. lia.
  - intros c Hc Hnot. apply list_find_None, Forall_forall. intros it Hit On. apply list_elem_of_lookup in Hit as [k Ek].
    assert (Hk : (c, k) ∈ l). { apply A. split; [unfold Zlen; lia|]. split; [lia|]. exists it. rewrite Nat.sub_0_r. auto. }
    destruct (Min _ Hk) as (i & Hi & _). exact (Hnot i Hi).
Qed.

(** ** A scan *)

Section Scan.
Context {U It : Type}.

(** SQLite reads the columns of a row in turn ... *)
Fixpoint read_columns (cursor : Cursor (It := It)) (columns : list nat) (s : Shared (U := U)) : option (Shared * (list sqlite3_value + Z)) :=
  match columns with
  | [] => Some (s, inl [])
  | c :: columns =>
      '(s, r) ← xColumn cursor c s;
      match r with
      | inr code => Some (s, inr code)
      | inl x =>
          '(s, r) ← read_columns cursor columns s;
          Some (s, match r with inl xs => inl (x :: xs) | inr code => inr code end)
      end
  end.

(** ... and the rows until [xEof], with their rowids. *)
Fixpoint read_rows (fuel : nat) (vtab : VTab (U := U) (It := It)) (n : nat) (cursor : Cursor) (s : Shared)
    : option (Shared * (list (Z * list sqlite3_value) + Z)) :=
  if xEof cursor then Some (s, inl [])
  else match fuel with
  | O => None
  | S fuel =>
      '(s, r) ← read_columns cursor (seq 0 n) s;
      match r with
      | inr code => Some (s, inr code)
      | inl xs =>
          '(cursor', s, code) ← xNext vtab cursor s;
          if negb (code =? SQLITE_OK) then Some (s, inr code)
          else
            '(s, r) ← read_rows fuel vtab n cursor' s;
            Some (s, match r with inl rows => inl ((xRowid cursor, xs) :: rows) | inr code => inr code end)
      end
  end.

Definition scan (fuel : nat) (vtab : VTab) (n : nat) (idxNum : Z) (argv : list sqlite3_value) (s : Shared)
    : option (Shared * (list (Z * list sqlite3_value) + Z)) :=
  '(cursor, s, code) ← xFilter vtab xOpen idxNum argv s;
  if negb (code =? SQLITE_OK) then Some (s, inr code) else read_rows fuel vtab n cursor s.

(** The rows an iterator yields, from one state of user code to another. *)
Inductive yields (vtab : VTab (U := U) (It := It)) (it : It) : U -> list (list (option js_value)) -> U -> Prop :=
  | yields_end u u' v : vt_next vtab it u = (u', Some (true, v)) -> yields vtab it u [] u'
  | yields_row u u1 row rows u' : vt_next vtab it u = (u1, Some (false, row)) -> yields vtab it u1 rows u' ->
      yields vtab it u (row :: rows) u'.

(** The values of the first [n] elements of a yielded array, if all convert. *)
Definition column_value (row : list (option js_value)) (c : nat) : option sqlite3_value :=
  v ← default (Some JUndefined) (row !! c);
  match ResultValueFromJS v with inl x => Some x | inr _ => None end.

Definition column_values (n : nat) (row : list (option js_value)) : option (list sqlite3_value) := mapM (column_value row) (seq 0 n).

Fixpoint with_rowids (k : Z) (rows : list (list sqlite3_value)) : list (Z * list sqlite3_value) :=
  match rows with [] => [] | r :: rows => (k, r) :: with_rowids (k + 1) rows end.

Lemma read_columns_values cursor columns (s : Shared (U := U)) xs : mapM (column_value (cu_row cursor)) columns = Some xs ->
  read_columns cursor columns s = Some (s, inl xs).
Proof.
  revert xs. induction columns as [|c columns IH]; intros xs; cbn; [intros [= <-]; reflexivity|].
  destruct (column_value (cu_row cursor) c) as [x|] eqn:Ex; [|discriminate]. cbn. destruct (mapM _ columns) as [xs'|]; [|discriminate].
  cbn. intros [= <-]. unfold column_value in Ex. unfold xColumn. destruct (default _ _) as [v|]; [|discriminate]. cbn in Ex.
  destruct (ResultValueFromJS v) as [y|]; [|discriminate]. injection Ex as ->. cbn. rewrite (IH xs' eq_refl). reflexivity.
Qed.

Lemma read_rows_yielded vtab it n u rows u' vals row k : yields vtab it u rows u' ->
  mapM (column_values n) (row :: rows) = Some vals -> 0 < k -> k + Zlen rows < 2 ^ 63 - 1 -> forall fuel, (length rows < fuel)%nat ->
  read_rows fuel vtab n (mkCursor (Some it) row false k) (mkShared false u) = Some (mkShared false u', inl (with_rowids k vals)).
Proof.
  intros Hy. revert vals row k. induction Hy as [u u' v E|u u1 row1 rows u' E Hy IH]; intros vals row k Hv Hk Hlt fuel Hf;
    (destruct fuel as [|fuel]; [cbn in Hf; lia|]); cbn [read_rows xEof cu_done]; cbn [mapM] in Hv;
    destruct (column_values n row) as [xs|] eqn:Ex; [|discriminate| |discriminate]; cbn [mbind option_bind] in Hv;
    rewrite (read_columns_values (mkCursor (Some it) row false k) _ _ _ Ex); cbn [mbind option_bind]; unfold xNext; cbn [cu_iterator mbind option_bind sh_user sh_error cu_rowid cu_row];
    rewrite E; cbn [mbind option_bind].
  - rewrite (proj2 (Z.eqb_neq _ _)) by (rewrite Zlen_nil in Hlt; lia). cbn. injection Hv as <-. destruct fuel; reflexivity.
  - rewrite Zlen_cons in Hlt. pose proof (Zlen_nonneg rows). rewrite (proj2 (Z.eqb_neq _ _)) by lia. cbn [negb SQLITE_OK Z.eqb mbind option_bind].
    change (0 =? SQLITE_OK) with true. cbn [negb].
    destruct (mapM (column_values n) (row1 :: rows)) as [vals'|] eqn:Ev; [|cbn [mapM] in Ev; rewrite Ev in Hv; discriminate].
    cbn [mapM] in Ev. rewrite Ev in Hv. cbn in Hv. injection Hv as <-.
    rewrite (IH vals' row1 (k + 1) Ev ltac:(lia) ltac:(lia) fuel ltac:(cbn in Hf; lia)). reflexivity.
Qed.

End Scan.

(** C15: a query of a virtual table.  When [xBestIndex] accepts the constraints of a
    query and SQLite passes the values it asked for, the generator is called
    with the value of the first constraint on each parameter at the position of
    that parameter, and [undefined] at the others, and the scan reads the
    rows the generator yields, with rowids from 1; when one of these values is
    NULL the scan is empty and no user code runs. *)
Theorem virtual_table_query {U It} (vtab : VTab (U := U) (It := It)) info info' message rhs argv n fuel u :
  (length (vt_parameter_names vtab) <= 32)%nat -> unplanned info ->
  xBestIndex (vt_parameter_names vtab) info = Some (info', (SQLITE_OK, message)) ->
  length rhs = length (ii_aConstraint info) -> passes (ii_aConstraintUsage info') rhs argv ->
  let args := arguments (vt_safe_ints vtab) (length (vt_parameter_names vtab)) (ii_aConstraint info) rhs in
  let result := scan fuel vtab n (ii_idxNum info') argv (mkShared false u) in
  if existsb IsNull args then result = Some (mkShared false u, inl [])
  else forall u1 it rows u2 vals, vt_generator vtab u args = (u1, Some it) -> yields vtab it u1 rows u2 ->
    mapM (column_values n) rows = Some vals -> Zlen rows < 2 ^ 63 - 1 -> (length rows <= fuel)%nat ->
    result = Some (mkShared false u2, inl (with_rowids 1 vals)).
Proof.
  intros Hn Hu Hx Hl Hp. cbn zeta. pose proof (plan_arguments _ _ _ _ (vt_safe_ints vtab) _ _ Hn Hu Hx Hl Hp) as Ea. cbn zeta in Ea.
  unfold scan, xFilter. rewrite Ea. cbn [mbind option_bind]. set (args := arguments _ _ _ _) in *. destruct (existsb IsNull args).
  - cbn. destruct fuel; reflexivity.
  - intros u1 it rows u2 vals Eg Hy Hv Hlt Hf. cbn [sh_user sh_error]. rewrite Eg. cbn [cu_row cu_done xOpen]. unfold xNext.
    cbn [cu_iterator mbind option_bind sh_user sh_error cu_rowid cu_row]. destruct Hy as [u1 u2 v E|u1 u' row rows u2 E Hy]; rewrite E; cbn.
    + injection Hv as <-. destruct fuel; reflexivity.
    + rewrite Zlen_cons in Hlt. cbn in Hf. apply (read_rows_yielded vtab it n u' rows u2 vals row 1 Hy Hv); lia.
Qed.

(** A table with the parameters a and b that yields b and a; a query with
    constraints in the other order, and two on b. *)
Definition ex_vtab : VTab (U := Z) (It := list js_value) :=
  mkVTab [str "a"; str "b"] true
    (fun u args => (u, Some args))
    (fun it u => if u =? 0 then (1, Some (false, Some <$> it)) else (2, Some (true, []))).

Definition ex_info : index_info :=
  mkIndexInfo [mkConstraint 1 SQLITE_INDEX_CONSTRAINT_EQ true; mkConstraint 2 66 true; mkConstraint 0 SQLITE_INDEX_CONSTRAINT_EQ true;
               mkConstraint 1 SQLITE_INDEX_CONSTRAINT_EQ true]
    (replicate 4 (0, false)) 0 0.

Definition ex_plan : index_info := mkIndexInfo (ii_aConstraint ex_info) [(2, true); (0, false); (1, true); (0, false)] 3 333333333.

Lemma virtual_table_query_witness :
  scan 1 ex_vtab 2 3 [VInt 10; VInt 20] (mkShared false 0) = Some (mkShared false 2, inl [(1, [VInt 10; VInt 20])]).
Proof.
  refine (virtual_table_query ex_vtab ex_info ex_plan None [VInt 20; VInt 5; VInt 10; VInt 30] [VInt 10; VInt 20] 2 1 0 _ _ _ _ _
    0 [JBigInt 10; JBigInt 20] [[Some (JBigInt 10); Some (JBigInt 20)]] 2 [[VInt 10; VInt 20]] _ _ _ _ _).
  - cbn. lia.
  - split; reflexivity.
  - vm_compute. reflexivity.
  - reflexivity.
  - intros j k omit. cbn [ex_plan ii_aConstraintUsage]. destruct j as [|[|[|[|j]]]]; cbn; intros [= <- <-] Hk; first [reflexivity|lia].
  - vm_compute. reflexivity.
  - apply (yields_row _ _ 0 1); [reflexivity|]. apply (yields_end _ _ 1 2 []). reflexivity.
  - vm_compute. reflexivity.
  - reflexivity.
  - cbn. lia.
Defined.
