(* ===== verification/DataType.v ===== *)
(** * The values of the dataflow engine (noria/src/data.rs, noria-ffi/src/lib.rs)

    [DataType], its equality and order, its conversions from and to the values
    of the C interface.  A Rust panic is [None]: the functions of the C
    interface let it end the process. *)
From stdpp Require Import strings.
From S2P Require Import Prelude Double Value Strings Noria.

Local Open Scope Z_scope.

(** ** Strings of the standard library *)

Definition is_cont (b : option Z) : bool := match b with Some c => (128 <=? c) && (c <=? 191) | None => false end.
Definition within (lo hi : Z) (b : option Z) : bool := match b with Some c => (lo <=? c) && (c <=? hi) | None => false end.

(** The sequence at the start of [c :: rest]: whether it is a character, and
    how many bytes it takes. *)
Definition utf8_char (c : Z) (rest : list Z) : bool * nat :=
  if c <? 128 then (true, 1%nat)
  else if (0xC2 <=? c) && (c <=? 0xDF) then
    if is_cont (rest !! 0%nat) then (true, 2%nat) else (false, 1%nat)
  else if (0xE0 <=? c) && (c <=? 0xEF) then
    let lo := if c =? 0xE0 then 0xA0 else 0x80 in
    let hi := if c =? 0xED then 0x9F else 0xBF in
    if negb (within lo hi (rest !! 0%nat)) then (false, 1%nat)
    else if is_cont (rest !! 1%nat) then (true, 3%nat) else (false, 2%nat)
  else if (0xF0 <=? c) && (c <=? 0xF4) then
    let lo := if c =? 0xF0 then 0x90 else 0x80 in
    let hi := if c =? 0xF4 then 0x8F else 0xBF in
    if negb (within lo hi (rest !! 0%nat)) then (false, 1%nat)
    else if negb (is_cont (rest !! 1%nat)) then (false, 2%nat)
    else if is_cont (rest !! 2%nat) then (true, 4%nat) else (false, 3%nat)
  else (false, 1%nat).

Definition REPLACEMENT : list Z := [0xEF; 0xBF; 0xBD].

Fixpoint lossy_loop (fuel : nat) (bytes : list Z) : list Z :=
  match fuel, bytes with
  | S fuel, c :: rest =>
      let '(valid, n) := utf8_char c rest in
      (if valid then take n bytes else REPLACEMENT) ++ lossy_loop fuel (drop n bytes)
  | _, _ => []
  end.

(** [String::from_utf8_lossy]. *)
Definition from_utf8_lossy (bytes : list Z) : list Z := lossy_loop (length bytes) bytes.

Fixpoint utf8_loop (fuel : nat) (bytes : list Z) : bool :=
  match fuel, bytes with
  | S fuel, c :: rest =>
      let '(valid, n) := utf8_char c rest in valid && utf8_loop fuel (drop n bytes)
  | _, _ => true
  end.

Definition valid_utf8 (bytes : list Z) : bool := utf8_loop (length bytes) bytes.

Lemma utf8_char_pos c rest : (1 <= (utf8_char c rest).2)%nat.
Proof. unfold utf8_char. repeat case_match; cbn; lia. Qed.

Lemma lossy_valid bytes : valid_utf8 bytes = true -> from_utf8_lossy bytes = bytes.
Proof.
  unfold valid_utf8, from_utf8_lossy. assert (G : forall fuel b, (length b <= fuel)%nat -> utf8_loop fuel b = true -> lossy_loop fuel b = b); [|intros H; apply G; [lia|exact H]].
  induction fuel as [|fuel IH]; intros b Hl; [destruct b; [reflexivity|cbn in Hl; lia]|].
  destruct b as [|c rest]; [reflexivity|]. cbn [utf8_loop lossy_loop]. pose proof (utf8_char_pos c rest) as Hp.
  destruct (utf8_char c rest) as [valid n]. cbn [snd] in Hp. intros Hv. apply andb_prop in Hv as [-> Hv].
  rewrite IH; [apply take_drop| |exact Hv]. rewrite length_drop. cbn in *. lia.
Qed.

(** ** DataType *)

Inductive DataType :=
  | DNone
  | DInt (n : Z)
  | DUnsignedInt (n : Z)
  | DBigInt (n : Z)
  | DUnsignedBigInt (n : Z)
  | DReal (i frac : Z)
  | DText (s : list Z)
  | DTinyText (bytes : list Z)
  | DTimestamp (ts : Z).

#[export] Instance DataType_eq_dec : EqDecision DataType.
Proof. solve_decision. Defined.

Definition TINYTEXT_WIDTH : Z := 15.

(** [<&str>::from(&DataType)] of a text; the fifteen bytes of a [TinyText] are
    its string padded with zeros. *)
Fixpoint before_nul (bytes : list Z) : list Z :=
  match bytes with [] => [] | b :: bytes => if b =? 0 then [] else b :: before_nul bytes end.

Definition as_str (d : DataType) : option (list Z) :=
  match d with
  | DText s => Some s
  | DTinyText bts =>
      if default 0 (bts !! Z.to_nat (TINYTEXT_WIDTH - 1)) =? 0 then Some (before_nul bts)
      else if valid_utf8 bts then Some bts else None
  | _ => None
  end.

(** [i128::from(&DataType)]. *)
Definition as_i128 (d : DataType) : option Z :=
  match d with DBigInt n | DUnsignedBigInt n | DInt n | DUnsignedInt n => Some n | _ => None end.

(** [PartialEq]; identical bytes are equal in every arm below. *)
Definition dt_eq (a b : DataType) : bool :=
  match a, b with
  | DText a, DText b => bool_decide (a = b)
  | DTinyText a, DTinyText b => bool_decide (a = b)
  | DText _, DTinyText _ | DTinyText _, DText _ => bool_decide (as_str a = as_str b)
  | DReal ai af, DReal bi bf => (ai =? bi) && (af =? bf)
  | DTimestamp a, DTimestamp b => a =? b
  | DNone, DNone => true
  | _, _ =>
      match as_i128 a, as_i128 b with
      | Some a, Some b => a =? b
      | _, _ => false
      end
  end.

(** Lexicographic order of bytes. *)
Fixpoint bytes_cmp (a b : list Z) : comparison :=
  match a, b with
  | [], [] => Eq
  | [], _ => Lt
  | _, [] => Gt
  | x :: a, y :: b => match Z.compare x y with Eq => bytes_cmp a b | c => c end
  end.

(** [Ord]: values of different kinds compare as [Greater], whichever comes first. *)
Definition dt_cmp (a b : DataType) : comparison :=
  match a, b with
  | DText a, DText b => bytes_cmp a b
  | DTinyText a, DTinyText b => bytes_cmp a b
  | DText _, DTinyText _ | DTinyText _, DText _ => bytes_cmp (default [] (as_str a)) (default [] (as_str b))
  | DReal ai af, DReal bi bf => match Z.compare ai bi with Eq => Z.compare af bf | c => c end
  | DTimestamp a, DTimestamp b => Z.compare a b
  | DNone, DNone => Eq
  | _, _ =>
      match as_i128 a, as_i128 b with
      | Some a, Some b => Z.compare a b
      | _, _ => Gt
      end
  end.

(** ** Conversions *)

(** [DataType::from(&str)]: a string of up to fifteen bytes is stored in place;
    a longer one becomes an [ArcCStr], which cannot hold a zero byte. *)
Definition from_str (s : list Z) : option DataType :=
  if Zlen s <=? TINYTEXT_WIDTH then Some (DTinyText (s ++ replicate (Z.to_nat (TINYTEXT_WIDTH - Zlen s)) 0))
  else if existsb (fun c => c =? 0) s then None
  else Some (DText s).

(** The significand and exponent of a finite double. *)
Definition d_parts (r : Z) : Z * Z := if d_exp r =? 0 then (d_man r, -1074) else (2 ^ 52 + d_man r, d_exp r - 1075).

(** [f.fract() * 1e9] of the absolute value, rounded to 53 bits: a numerator over
    [2 ^ k]. *)
Definition fract_scaled (r : Z) : Z * Z :=
  let '(m, e) := d_parts r in
  if 0 <=? e then (0, 0)
  else
    let k := - e in
    let p := (m mod 2 ^ k) * 1000000000 in
    let s := Z.log2 p - 52 in
    (if s <=? 0 then p else round_shift p s * 2 ^ s, k).

(** Its [round()], halves away from zero. *)
Definition fract_nanos (r : Z) : Z := let '(v, k) := fract_scaled r in (2 * v + 2 ^ k) / 2 ^ (k + 1).

(** [f.trunc() as i64]: the cast saturates. *)
Definition trunc_i64 (r : Z) : Z :=
  let i := if d_sign r then - d_trunc_abs r else d_trunc_abs r in
  if i <? - 2 ^ 63 then - 2 ^ 63 else if 2 ^ 63 - 1 <? i then 2 ^ 63 - 1 else i.

(** [DataType::from(f64)]. *)
Definition from_f64 (r : Z) : option DataType :=
  if negb (d_finite r) then None
  else
    let i := trunc_i64 r in
    let frac := if d_sign r then - fract_nanos r else fract_nanos r in
    Some (if frac =? 1000000000 then DReal (i + 1) 0
          else if frac =? -1000000000 then DReal (i - 1) 0
          else DReal i frac).

(** The two hexadecimal digits of [{:02x}]. *)
Definition hex_digit (n : Z) : Z := if n <? 10 then 48 + n else 87 + n.
Definition hex (bytes : list Z) : list Z := bytes ≫= fun b => [hex_digit (b / 16); hex_digit (b mod 16)].

(** [noria_value_to_datatype]. *)
Definition noria_value_to_datatype (nv : NoriaValue) : option DataType :=
  if nv_type nv =? NORIA_NULL then Some DNone
  else if nv_type nv =? NORIA_INTEGER then Some (DBigInt (nv_int nv))
  else if nv_type nv =? NORIA_FLOAT then from_f64 (nv_float nv)
  else if nv_type nv =? NORIA_TEXT then
    match nv_text nv with
    | Some p => if nv_text_len nv <=? 0 then from_str [] else s ← read_n (nv_text_len nv) p; from_str (from_utf8_lossy s)
    | None => from_str []
    end
  else if nv_type nv =? NORIA_BLOB then
    match nv_blob nv with
    | Some p => if nv_blob_len nv <=? 0 then Some DNone else s ← read_n (nv_blob_len nv) p; from_str (hex s)
    | None => Some DNone
    end
  else Some DNone.

(** [convert_values]. *)
Definition convert_values (values : list NoriaValue) : option (list DataType) := mapM noria_value_to_datatype values.

(** ** Values returned to C *)

Inductive FfiValue :=
  | FNull
  | FInt (i : Z)
  | FFloat (f : Z)
  | FText (s : list Z)
  | FBlob (b : list Z).

(** [n / d] rounded to nearest, ties to even. *)
Definition round_div (n d : Z) : Z :=
  let q := n / d in
  let r := n mod d in
  if (d <? 2 * r) || ((2 * r =? d) && Z.odd q) then q + 1 else q.

(** The pattern of the positive rational [n / d], in the range of normal
    doubles. *)
Definition double_of_ratio (n d : Z) : Z :=
  let e0 := Z.log2 n - Z.log2 d in
  let below := if 0 <=? e0 then n <? d * 2 ^ e0 else n * 2 ^ (- e0) <? d in
  let e := if below then e0 - 1 else e0 in
  let sig := if e <=? 52 then round_div (n * 2 ^ (52 - e)) d else round_div n (d * 2 ^ (e - 52)) in
  (e + 1022) * 2 ^ 52 + sig.

(** The sum of two finite doubles. *)
Definition double_add (x y : Z) : Z :=
  let '(mx, ex) := d_parts x in
  let '(my, ey) := d_parts y in
  let e := Z.min ex ey in
  let sx := (if d_sign x then - mx else mx) * 2 ^ (ex - e) in
  let sy := (if d_sign y then - my else my) * 2 ^ (ey - e) in
  let s := sx + sy in
  if s =? 0 then 0
  else
    (if s <? 0 then 2 ^ 63 else 0) +
    (if e <=? 0 then double_of_ratio (Z.abs s) (2 ^ (- e)) else double_of_ratio (Z.abs s * 2 ^ e) 1).

(** [int_part as f64 + (frac_part as f64 / 1e9)]. *)
Definition real_to_f64 (i frac : Z) : Z :=
  let q := if frac =? 0 then 0
           else (if frac <? 0 then 2 ^ 63 else 0) + double_of_ratio (Z.abs frac) 1000000000 in
  double_add (double_of_int i) q.

(** [Value::from_datatype]; a [u64] is reinterpreted. *)
Definition from_datatype (d : DataType) : option FfiValue :=
  match d with
  | DNone => Some FNull
  | DInt i | DBigInt i | DUnsignedInt i => Some (FInt i)
  | DUnsignedBigInt u => Some (FInt (i64 u))
  | DReal i f => Some (FFloat (real_to_f64 i f))
  | DText _ | DTinyText _ => s ← as_str d; Some (FText s)
  | DTimestamp _ => Some FNull
  end.

(** [Value::to_noria_value]: pointers into the value. *)
Definition to_noria_value (v : FfiValue) : NoriaValue :=
  match v with
  | FNull => nv_zero
  | FInt i => nv_integer i
  | FFloat f => nv_real f
  | FText s => mkNV NORIA_TEXT 0 0 (Some s) (i32 (Zlen s)) None 0
  | FBlob b => mkNV NORIA_BLOB 0 0 None 0 (Some b) (i32 (Zlen b))
  end.
