(* ===== verification/EngineState.v ===== *)
(** * Materialized state (noria-sqlite/src/dataflow/mod.rs, state.rs)

    Signed records, and the hash index a materialized node keeps of its rows.
    The hash map is the list of its entries, in any order, with distinct keys. *)
From stdpp Require Import strings.
From S2P Require Import Prelude Double Value Strings Noria DataType.

Local Open Scope Z_scope.

Notation row := (list DataType).

Inductive Record := Positive (r : row) | Negative (r : row).

Definition record_row (x : Record) : row := match x with Positive r | Negative r => r end.
Definition is_positive (x : Record) : bool := match x with Positive _ => true | Negative _ => false end.

Definition Records := list Record.

(** ** Keys *)

Inductive StateKey := Single (d : DataType) | Multi (ds : list DataType).

(** Equality of vectors. *)
Fixpoint row_eq (a b : row) : bool :=
  match a, b with
  | [], [] => true
  | x :: a, y :: b => dt_eq x y && row_eq a b
  | _, _ => false
  end.

Definition key_eq (a b : StateKey) : bool :=
  match a, b with
  | Single a, Single b => dt_eq a b
  | Multi a, Multi b => row_eq a b
  | _, _ => false
  end.

(** [StateKey::from_row]; indexing past the end of a row panics. *)
Definition from_row (r : row) (key_columns : list nat) : option StateKey :=
  match key_columns with
  | [c] => d ← r !! c; Some (Single d)
  | _ => ds ← mapM (fun c => r !! c) key_columns; Some (Multi ds)
  end.

Definition from_slice (key : list DataType) : StateKey :=
  match key with [d] => Single d | _ => Multi key end.

(** ** MemoryState *)

Definition Index := list (StateKey * list row).

Record MemoryState := mkState {
  ms_key_columns : list nat;
  ms_data : Index;
  ms_row_count : Z
}.

Definition MemoryState_new (key_columns : list nat) : MemoryState := mkState key_columns [] 0.

Fixpoint get_entry (key : StateKey) (data : Index) : option (list row) :=
  match data with
  | [] => None
  | (k, rows) :: data => if key_eq key k then Some rows else get_entry key data
  end.

(** [entry(key).or_insert_with(Vec::new).push(row)]. *)
Fixpoint push_entry (key : StateKey) (r : row) (data : Index) : Index :=
  match data with
  | [] => [(key, [r])]
  | (k, rows) :: data => if key_eq key k then (k, rows ++ [r]) :: data else (k, rows) :: push_entry key r data
  end.

(** The entry of a key after its rows changed; an empty one is removed. *)
Fixpoint put_entry (key : StateKey) (rows' : list row) (data : Index) : Index :=
  match data with
  | [] => []
  | (k, rows) :: data =>
      if key_eq key k then match rows' with [] => data | _ => (k, rows') :: data end
      else (k, rows) :: put_entry key rows' data
  end.

(** A stored row matches a negative one if it agrees where that is not NULL. *)
Fixpoint wildcard_match (stored new : row) : bool :=
  match stored, new with
  | [], [] => true
  | s :: stored, n :: new => (dt_eq s n || dt_eq n DNone) && wildcard_match stored new
  | _, _ => false
  end.

Definition position {A} (p : A -> bool) (l : list A) : option nat := fst <$> list_find (fun x => p x = true) l.

(** The rows of an entry after a negative record, and whether one was removed. *)
Definition remove_row (r : row) (rows : list row) : list row * bool :=
  match position (fun s => row_eq s r) rows with
  | Some pos => (delete pos rows, true)
  | None =>
      match position (fun s => wildcard_match s r) rows with
      | Some pos => (delete pos rows, true)
      | None => (rows, false)
      end
  end.

(** One iteration of [process_records]. *)
Definition process_record (st : MemoryState) (x : Record) : option MemoryState :=
  key ← from_row (record_row x) (ms_key_columns st);
  match x with
  | Positive r => Some (mkState (ms_key_columns st) (push_entry key r (ms_data st)) (ms_row_count st + 1))
  | Negative r =>
      match get_entry key (ms_data st) with
      | None => Some st
      | Some rows =>
          let '(rows, removed) := remove_row r rows in
          if removed && (ms_row_count st =? 0) then None
          else Some (mkState (ms_key_columns st) (put_entry key rows (ms_data st))
                      (if removed then ms_row_count st - 1 else ms_row_count st))
      end
  end.

Fixpoint process_records (st : MemoryState) (rs : Records) : option MemoryState :=
  match rs with [] => Some st | x :: rs => st ← process_record st x; process_records st rs end.

Inductive LookupResult := Found (rows : list row) | EmptyRows | Missing.

Definition state_lookup (st : MemoryState) (key : list DataType) : LookupResult :=
  match get_entry (from_slice key) (ms_data st) with
  | Some [] => EmptyRows
  | Some rows => Found rows
  | None => Missing
  end.

(** ** Values made by the engine

    The conversions from C and the operators only make these; on them the
    equality of the code is equality. *)
Definition plain (d : DataType) : Prop :=
  match d with
  | DNone | DBigInt _ | DReal _ _ => True
  | DText s => TINYTEXT_WIDTH < Zlen s
  | DTinyText b => Zlen b = TINYTEXT_WIDTH
  | _ => False
  end.

Definition plain_row (r : row) : Prop := Forall plain r.

Lemma before_nul_length b : (length (before_nul b) <= length b)%nat.
Proof. induction b as [|c b IH]; cbn; [lia|]. case_match; cbn; lia. Qed.

Lemma tiny_str_short b s : Zlen b = TINYTEXT_WIDTH -> as_str (DTinyText b) = Some s -> Zlen s <= TINYTEXT_WIDTH.
Proof.
  unfold as_str. intros Hb. pose proof (before_nul_length b). unfold Zlen in *.
  case_match; [intros [= <-]; lia|]. case_match; [intros [= <-]; lia|discriminate].
Qed.

Lemma dt_eq_plain a b : plain a -> plain b -> dt_eq a b = bool_decide (a = b).
Proof.
  intros Ha Hb. apply eq_bool_prop_intro. rewrite bool_decide_spec, Is_true_true.
  assert (X : forall s t, TINYTEXT_WIDTH < Zlen s -> Zlen t = TINYTEXT_WIDTH -> as_str (DText s) <> as_str (DTinyText t)).
  { intros s t Hs Ht E. cbn [as_str] in E. symmetry in E. apply (tiny_str_short t s Ht) in E. lia. }
  destruct a, b; cbn [plain] in Ha, Hb; try contradiction; cbn [dt_eq as_i128]; try (split; [discriminate|intros E; discriminate E]);
    try (rewrite bool_decide_eq_true; split; [congruence|intros [= ->]; reflexivity]).
  - split; reflexivity.
  - rewrite Z.eqb_eq. split; congruence.
  - rewrite andb_true_iff, !Z.eqb_eq. split; [intros [-> ->]; reflexivity|intros [= -> ->]; auto].
  - rewrite bool_decide_eq_true. split; [intros E; destruct (X s bytes Ha Hb E)|discriminate].
  - rewrite bool_decide_eq_true. split; [intros E; destruct (X s bytes Hb Ha (eq_sym E))|discriminate].
Qed.

Lemma row_eq_plain a b : plain_row a -> plain_row b -> row_eq a b = bool_decide (a = b).
Proof.
  intros Ha. revert b. induction Ha as [|x a Hx Ha IH]; intros b Hb; destruct Hb as [|y b Hy Hb]; cbn [row_eq]; try reflexivity.
  rewrite (dt_eq_plain x y Hx Hy), (IH b Hb). apply eq_bool_prop_intro. rewrite Is_true_true, andb_true_iff, !bool_decide_eq_true, bool_decide_spec.
  split; [intros [-> ->]; reflexivity|intros [= -> ->]; auto].
Qed.

Definition plain_key (k : StateKey) : Prop := match k with Single d => plain d | Multi ds => plain_row ds end.

Lemma key_eq_plain a b : plain_key a -> plain_key b -> (key_eq a b = true) <-> a = b.
Proof.
  destruct a, b; cbn; intros Ha Hb; try (split; [discriminate|intros E; discriminate E]).
  - rewrite (dt_eq_plain _ _ Ha Hb), bool_decide_eq_true. split; congruence.
  - rewrite (row_eq_plain _ _ Ha Hb), bool_decide_eq_true. split; congruence.
Qed.

Lemma from_row_plain r cols k : plain_row r -> from_row r cols = Some k -> plain_key k.
Proof.
  intros Hr. assert (G : forall cs ds, mapM (fun c => r !! c) cs = Some ds -> plain_row ds).
  { intros cs ds E. apply mapM_Some_1 in E. induction E as [|c d cs ds E _ IH]; constructor; [|exact IH].
    exact (Forall_lookup_1 _ _ _ _ Hr E). }
  unfold from_row. destruct cols as [|c [|c' cols]].
  - intros [= <-]. constructor.
  - destruct (r !! c) as [d|] eqn:E; [|discriminate]. intros [= <-]. exact (Forall_lookup_1 _ _ _ _ Hr E).
  - destruct (mapM _ _) as [ds|] eqn:E; [|discriminate]. intros [= <-]. exact (G _ _ E).
Qed.

#[export] Instance StateKey_eq_dec : EqDecision StateKey.
Proof. solve_decision. Defined.

(** ** The state is a multiset of rows, indexed *)

Lemma filter_none {A} (P : A -> Prop) `{forall x, Decision (P x)} (l : list A) : (forall x, x ∈ l -> ~ P x) -> filter P l = [].
Proof.
  induction l as [|x l IH]; intros N; [reflexivity|]. rewrite filter_cons_False by (apply N; left). apply IH. intros y Hy. apply N. right. exact Hy.
Qed.

Lemma filter_every {A} (P : A -> Prop) `{forall x, Decision (P x)} (l : list A) : (forall x, x ∈ l -> P x) -> filter P l = l.
Proof.
  induction l as [|x l IH]; intros E; [reflexivity|]. rewrite filter_cons_True by (apply E; left). f_equal. apply IH. intros y Hy. apply E. right. exact Hy.
Qed.

Definition index_rows (data : Index) : list row := data ≫= snd.

(** [st] stores the rows [M]. *)
Record stores (st : MemoryState) (M : list row) : Prop := {
  so_rows : index_rows (ms_data st) ≡ₚ M;
  so_keys : NoDup ((ms_data st).*1);
  so_entry : forall k rows, (k, rows) ∈ ms_data st -> rows <> [] /\ forall r, r ∈ rows -> from_row r (ms_key_columns st) = Some k;
  so_plain : Forall plain_row M;
  so_count : ms_row_count st = Zlen M
}.

(** The rows of [M] with a key. *)
Definition with_key (cols : list nat) (k : StateKey) (M : list row) : list row := filter (fun r => from_row r cols = Some k) M.

#[export] Instance with_key_proper cols k : Proper (Permutation ==> Permutation) (with_key cols k).
Proof. intros M N E. unfold with_key. rewrite E. reflexivity. Qed.

Lemma elem_of_index r data : r ∈ index_rows data <-> exists k rows, (k, rows) ∈ data /\ r ∈ rows.
Proof.
  unfold index_rows. rewrite list_elem_of_bind. split.
  - intros ([k rows] & Hr & Hin). eauto.
  - intros (k & rows & Hin & Hr). exists (k, rows). auto.
Qed.

Section Stored.
Context (cols : list nat).

(** The conditions of [stores] on an index. *)
Definition index_ok (data : Index) : Prop :=
  NoDup (data.*1) /\ Forall plain_row (index_rows data) /\
  forall k rows, (k, rows) ∈ data -> rows <> [] /\ forall r, r ∈ rows -> from_row r cols = Some k.

Lemma index_ok_cons k rows data : index_ok ((k, rows) :: data) <->
  index_ok data /\ (k ∉ data.*1) /\ Forall plain_row rows /\ rows <> [] /\ forall r, r ∈ rows -> from_row r cols = Some k.
Proof.
  unfold index_ok, index_rows. cbn. rewrite NoDup_cons, Forall_app. split.
  - intros ((Hk & Hn) & (Hp & Hp') & He). destruct (He k rows (list_elem_of_here _ _)) as [Hr Hf]. split_and!; auto.
    intros k' rows' Hin. apply He. right. exact Hin.
  - intros ((Hn & Hp' & He) & Hk & Hp & Hr & Hf). split_and!; auto. intros k' rows'. rewrite elem_of_cons. intros [[= -> ->]|Hin]; auto.
Qed.

Lemma entry_key_plain k rows data : index_ok ((k, rows) :: data) -> plain_key k.
Proof.
  rewrite index_ok_cons. intros (_ & _ & Hp & Hr & Hf). destruct rows as [|r rows]; [contradiction|].
  apply (from_row_plain r cols); [exact (Forall_inv Hp)|apply Hf; left].
Qed.

Lemma index_key_other k data : k ∉ (data.*1) -> index_ok data -> with_key cols k (index_rows data) = [].
Proof.
  intros Hk (_ & _ & He). unfold with_key. apply filter_none. intros r Hin Hr.
  apply elem_of_index in Hin as (k' & rows & Hin & Hr'). destruct (He _ _ Hin) as [_ Hf]. rewrite (Hf r Hr') in Hr. injection Hr as ->.
  apply Hk. apply list_elem_of_fmap. exists (k, rows). auto.
Qed.

Lemma with_key_all k rows : (forall r, r ∈ rows -> from_row r cols = Some k) -> with_key cols k rows = rows.
Proof. intros Hf. unfold with_key. apply filter_every. exact Hf. Qed.

Lemma with_key_none k k' rows : k <> k' -> (forall r, r ∈ rows -> from_row r cols = Some k) -> with_key cols k' rows = [].
Proof. intros N Hf. unfold with_key. apply filter_none. intros r Hin Hr. rewrite (Hf r Hin) in Hr. congruence. Qed.

(** An entry holds exactly the rows with its key. *)
Lemma get_entry_spec k data : plain_key k -> index_ok data ->
  default [] (get_entry k data) = with_key cols k (index_rows data) /\ get_entry k data <> Some [].
Proof.
  intros Hk. induction data as [|[k' rows] data IH]; intros Hok; [split; [reflexivity|discriminate]|].
  pose proof (entry_key_plain _ _ _ Hok) as Hk'. apply index_ok_cons in Hok as (Hd & Hnot & Hp & Hr & Hf). destruct (IH Hd) as [E N].
  cbn [get_entry]. unfold index_rows. cbn [mbind list_bind fst snd]. fold (index_rows data). unfold with_key. rewrite filter_app.
  fold (with_key cols k rows) (with_key cols k (index_rows data)). destruct (key_eq k k') eqn:Ek.
  - apply (key_eq_plain k k' Hk Hk') in Ek as <-. rewrite (index_key_other k data Hnot Hd), app_nil_r, (with_key_all k rows Hf).
    split; [reflexivity|intros [= ->]; contradiction].
  - rewrite (with_key_none k' k rows); [split; [exact E|exact N]| |exact Hf]. intros <-. rewrite (proj2 (key_eq_plain k' k' Hk Hk) eq_refl) in Ek. discriminate.
Qed.

Lemma push_entry_keys k r data k' : k' ∈ (push_entry k r data).*1 -> k' = k \/ k' ∈ data.*1.
Proof.
  induction data as [|[k0 rows] data IH]; cbn; [rewrite list_elem_of_singleton; auto|]. destruct (key_eq k k0); cbn; [auto|].
  rewrite !elem_of_cons. intros [->|Hin]; [auto|]. destruct (IH Hin); auto.
Qed.

Lemma push_entry_spec k r data : plain_row r -> from_row r cols = Some k -> index_ok data ->
  index_ok (push_entry k r data) /\ index_rows (push_entry k r data) ≡ₚ r :: index_rows data.
Proof.
  intros Hr Hk. pose proof (from_row_plain _ _ _ Hr Hk) as Hpk. induction data as [|[k' rows] data IH]; intros Hok.
  - split; [|reflexivity]. apply index_ok_cons. split; [exact Hok|]. split; [apply not_elem_of_nil|]. split; [constructor; [exact Hr|constructor]|].
    split; [discriminate|]. intros r'. rewrite list_elem_of_singleton. intros ->. exact Hk.
  - pose proof (entry_key_plain _ _ _ Hok) as Hk'. apply index_ok_cons in Hok as (Hd & Hnot & Hp & Hne & Hf). cbn [push_entry].
    destruct (key_eq k k') eqn:Ek.
    + apply (key_eq_plain k k' Hpk Hk') in Ek as <-. split.
      * apply index_ok_cons. split_and!; auto; [apply Forall_app; auto|destruct rows; discriminate|].
        intros r'. rewrite elem_of_app, list_elem_of_singleton. intros [H| ->]; auto.
      * unfold index_rows. cbn. rewrite <- app_assoc. cbn. rewrite Permutation_middle. reflexivity.
    + destruct (IH Hd) as [I1 I2]. split.
      * apply index_ok_cons. split_and!; auto. intros Hin. apply push_entry_keys in Hin as [->|Hin]; [|contradiction].
        rewrite (proj2 (key_eq_plain k k Hpk Hpk) eq_refl) in Ek. discriminate.
      * unfold index_rows in *. cbn. rewrite I2. rewrite Permutation_middle. reflexivity.
Qed.

Lemma put_entry_keys k rows' data k' : k' ∈ (put_entry k rows' data).*1 -> k' ∈ data.*1.
Proof.
  induction data as [|[k0 rows] data IH]; cbn; [auto|]. destruct (key_eq k k0); [destruct rows'; cbn|cbn]; rewrite ?elem_of_cons; tauto.
Qed.

Lemma put_entry_spec k data rows rows' : plain_key k -> index_ok data -> get_entry k data = Some rows ->
  Forall plain_row rows' -> (forall r, r ∈ rows' -> r ∈ rows) ->
  index_ok (put_entry k rows' data) /\ exists rest, index_rows data ≡ₚ rows ++ rest /\ index_rows (put_entry k rows' data) ≡ₚ rows' ++ rest.
Proof.
  intros Hpk Hok Hg Hp' Hsub. induction data as [|[k' rows0] data IH]; [discriminate|].
  pose proof (entry_key_plain _ _ _ Hok) as Hk'. apply index_ok_cons in Hok as (Hd & Hnot & Hp & Hne & Hf). cbn [get_entry put_entry] in *.
  destruct (key_eq k k') eqn:Ek.
  - injection Hg as ->. split.
    + destruct rows' as [|r rows']; [exact Hd|]. apply index_ok_cons. split_and!; auto.
    + exists (index_rows data). split; [reflexivity|]. destruct rows'; reflexivity.
  - destruct (IH Hd Hg) as [I1 (rest & R1 & R2)]. split.
    + apply index_ok_cons. split_and!; auto. intros Hin. apply put_entry_keys in Hin. contradiction.
    + exists (rows0 ++ rest). unfold index_rows in *. cbn. rewrite R1, R2. split; apply Permutation_app_swap_app.
Qed.

End Stored.

(** ** Records applied to a multiset *)

Fixpoint remove_one (r : row) (M : list row) : option (list row) :=
  match M with
  | [] => None
  | x :: M => if decide (x = r) then Some M else M' ← remove_one r M; Some (x :: M')
  end.

Lemma remove_one_perm r M M' : remove_one r M = Some M' -> M ≡ₚ r :: M'.
Proof.
  revert M'. induction M as [|x M IH]; intros M'; cbn; [discriminate|]. destruct (decide (x = r)) as [->|N]; [intros [= ->]; reflexivity|].
  destruct (remove_one r M) as [N'|]; [|discriminate]. cbn. intros [= <-]. rewrite (IH N' eq_refl). apply perm_swap.
Qed.

Lemma remove_one_in r M : r ∈ M -> is_Some (remove_one r M).
Proof.
  induction 1 as [x l|x y l Hin IH]; cbn; [rewrite decide_True by reflexivity; eauto|]. case_decide; [eauto|].
  destruct IH as [M' ->]. cbn. eauto.
Qed.

(** The rows after the records, when every negative one removes a row that is
    there. *)
Fixpoint apply_all (M : list row) (rs : Records) : option (list row) :=
  match rs with
  | [] => Some M
  | Positive r :: rs => apply_all (r :: M) rs
  | Negative r :: rs => M' ← remove_one r M; apply_all M' rs
  end.

Definition record_ok (cols : list nat) (x : Record) : Prop :=
  plain_row (record_row x) /\ is_Some (from_row (record_row x) cols).

Lemma position_plain r rows : plain_row r -> Forall plain_row rows -> r ∈ rows ->
  exists pos, position (fun s => row_eq s r) rows = Some pos /\ rows !! pos = Some r.
Proof.
  intros Hr Hp Hin. unfold position. apply list_elem_of_lookup in Hin as [i Hi].
  destruct (list_find_elem_of (fun s => row_eq s r = true) rows r) as [[pos s] E].
  - exact (list_elem_of_lookup_2 _ _ _ Hi).
  - rewrite (row_eq_plain r r Hr Hr). apply bool_decide_eq_true. reflexivity.
  - rewrite E. exists pos. split; [reflexivity|]. apply list_find_Some in E as (Hs & Es & _).
    rewrite (row_eq_plain s r (Forall_lookup_1 _ _ _ _ Hp Hs) Hr), bool_decide_eq_true in Es. subst s. exact Hs.
Qed.

Lemma remove_row_spec r rows : plain_row r -> Forall plain_row rows -> r ∈ rows ->
  exists rows', remove_row r rows = (rows', true) /\ rows ≡ₚ r :: rows'.
Proof.
  intros Hr Hp Hin. destruct (position_plain r rows Hr Hp Hin) as (pos & E & Hpos). unfold remove_row. rewrite E.
  exists (delete pos rows). split; [reflexivity|]. apply delete_Permutation, Hpos.
Qed.

Lemma stores_index st M : stores st M <->
  index_ok (ms_key_columns st) (ms_data st) /\ index_rows (ms_data st) ≡ₚ M /\ ms_row_count st = Zlen M.
Proof.
  split.
  - intros [A B C D E]. split_and!; auto. split_and!; auto. rewrite A. exact D.
  - intros ((B & D & C) & A & E). split; auto. rewrite <- A. exact D.
Qed.

Lemma stores_perm st M N : M ≡ₚ N -> stores st M -> stores st N.
Proof.
  rewrite !stores_index. intros E (A & B & C). split_and!; [exact A|rewrite B; exact E|]. rewrite C. unfold Zlen. rewrite E. reflexivity.
Qed.

Lemma positive_stored st M r : stores st M -> record_ok (ms_key_columns st) (Positive r) ->
  exists st', process_record st (Positive r) = Some st' /\ stores st' (r :: M) /\ ms_key_columns st' = ms_key_columns st.
Proof.
  rewrite stores_index. intros (Hi & Hm & Hc) [Hp [k Hk]]. cbn [record_row] in *. unfold process_record. cbn [record_row]. rewrite Hk. cbn.
  destruct (push_entry_spec _ k r _ Hp Hk Hi) as [I1 I2]. eexists. split; [reflexivity|]. split; [|reflexivity]. apply stores_index. cbn.
  split_and!; [exact I1|rewrite I2, Hm; reflexivity|]. rewrite Hc, Zlen_cons. lia.
Qed.

Lemma negative_stored st M M' r : stores st M -> record_ok (ms_key_columns st) (Negative r) -> remove_one r M = Some M' ->
  exists st', process_record st (Negative r) = Some st' /\ stores st' M' /\ ms_key_columns st' = ms_key_columns st.
Proof.
  rewrite stores_index. intros (Hi & Hm & Hc) [Hp [k Hk]] Hrem. cbn [record_row] in *. apply remove_one_perm in Hrem.
  pose proof (from_row_plain _ _ _ Hp Hk) as Hpk. destruct (get_entry_spec _ k _ Hpk Hi) as [Eg _].
  assert (Hin : r ∈ with_key (ms_key_columns st) k (index_rows (ms_data st))).
  { apply list_elem_of_filter. split; [exact Hk|]. rewrite Hm, Hrem. left. }
  rewrite <- Eg in Hin. destruct (get_entry k (ms_data st)) as [rows|] eqn:Er; [|inversion Hin]. cbn [default] in Hin.
  assert (Hpr : Forall plain_row rows).
  { cbn in Eg. rewrite Eg. apply Forall_forall. intros x Hx. apply list_elem_of_filter in Hx as [_ Hx]. destruct Hi as (_ & Hf & _). rewrite Forall_forall in Hf. auto. }
  destruct (remove_row_spec r rows Hp Hpr Hin) as (rows' & E & P). unfold process_record. cbn [record_row]. rewrite Hk. cbn [mbind option_bind]. rewrite Er, E.
  assert (El : Zlen M = Zlen M' + 1) by (unfold Zlen; rewrite Hrem; cbn; lia). pose proof (Zlen_nonneg M').
  rewrite Hc, El, (proj2 (Z.eqb_neq _ _)) by lia. cbn [andb].
  destruct (put_entry_spec _ k _ rows rows' Hpk Hi Er) as (I1 & rest & R1 & R2).
  - rewrite P in Hpr. exact (Forall_inv_tail Hpr).
  - intros x Hx. rewrite P. right. exact Hx.
  - eexists. split; [reflexivity|]. split; [|reflexivity]. apply stores_index. cbn. split_and!; [exact I1| |lia].
    rewrite R2. rewrite Hm, Hrem, P in R1. cbn in R1. apply Permutation_cons_inv in R1. symmetry. exact R1.
Qed.

Lemma stored_records st M rs M' : stores st M -> Forall (record_ok (ms_key_columns st)) rs -> apply_all M rs = Some M' ->
  exists st', process_records st rs = Some st' /\ stores st' M' /\ ms_key_columns st' = ms_key_columns st.
Proof.
  revert st M. induction rs as [|x rs IH]; intros st M Hst Hok Ha; [cbn in *; injection Ha as <-; eauto|].
  inversion Hok as [|? ? Hx Hrs]; subst. cbn [process_records]. destruct x as [r|r]; cbn [apply_all] in Ha.
  - destruct (positive_stored st M r Hst Hx) as (st1 & -> & H1 & K1). cbn [mbind option_bind].
    rewrite <- K1 in Hrs. destruct (IH st1 _ H1 Hrs Ha) as (st' & E & H' & K'). exists st'. split_and!; auto. congruence.
  - destruct (remove_one r M) as [M1|] eqn:E1; [|discriminate]. cbn in Ha.
    destruct (negative_stored st M M1 r Hst Hx E1) as (st1 & -> & H1 & K1). cbn [mbind option_bind].
    rewrite <- K1 in Hrs. destruct (IH st1 _ H1 Hrs Ha) as (st' & E & H' & K'). exists st'. split_and!; auto. congruence.
Qed.

Lemma new_stores cols : stores (MemoryState_new cols) [].
Proof. apply stores_index. split_and!; [|reflexivity|reflexivity]. split_and!; [constructor|constructor|]. intros k rows Hin. inversion Hin. Qed.

(** What a lookup finds. *)
Lemma stored_lookup st M key : stores st M -> plain_row key ->
  match state_lookup st key with
  | Found rows => rows <> [] /\ rows ≡ₚ with_key (ms_key_columns st) (from_slice key) M
  | EmptyRows => False
  | Missing => with_key (ms_key_columns st) (from_slice key) M = []
  end.
Proof.
  rewrite stores_index. intros (Hi & Hm & _) Hk. assert (Hpk : plain_key (from_slice key)).
  { unfold from_slice. destruct key as [|d [|d' key]]; cbn; auto. exact (Forall_inv Hk). }
  destruct (get_entry_spec _ _ _ Hpk Hi) as [E N]. unfold state_lookup. rewrite Hm in E || idtac.
  destruct (get_entry (from_slice key) (ms_data st)) as [[|r rows]|]; [contradiction| |]; cbn [default] in E.
  - split; [discriminate|]. cbn in E. rewrite E, Hm. reflexivity.
  - assert (P : with_key (ms_key_columns st) (from_slice key) (index_rows (ms_data st)) ≡ₚ with_key (ms_key_columns st) (from_slice key) M) by (rewrite Hm; reflexivity).
    rewrite <- E in P. apply Permutation_nil in P. exact P.
Qed.
