(* ===== verification/EngineOps.v ===== *)
(** * Dataflow operators (noria-sqlite/src/dataflow/ops.rs)

    Each operator turns the records of a parent into records for its children. *)
From stdpp Require Import strings.
From S2P Require Import Prelude Double Value Strings Noria DataType EngineState.

Local Open Scope Z_scope.

(** ** Filter *)

Inductive FilterCondition :=
  | FEq (col : nat) (val : DataType)
  | FNe (col : nat) (val : DataType)
  | FGt (col : nat) (val : DataType)
  | FLt (col : nat) (val : DataType)
  | FIsNull (col : nat)
  | FIsNotNull (col : nat)
  | FAnd (conds : list FilterCondition)
  | FOr (conds : list FilterCondition)
  | FAlwaysTrue.

(** [evaluate]; [all] and [any] stop at the first condition that decides. *)
Fixpoint evaluate (c : FilterCondition) (r : row) : option bool :=
  match c with
  | FEq col val => d ← r !! col; Some (dt_eq d val)
  | FNe col val => d ← r !! col; Some (negb (dt_eq d val))
  | FGt col val => d ← r !! col; Some (match dt_cmp d val with Gt => true | _ => false end)
  | FLt col val => d ← r !! col; Some (match dt_cmp d val with Lt => true | _ => false end)
  | FIsNull col => d ← r !! col; Some (dt_eq d DNone)
  | FIsNotNull col => d ← r !! col; Some (negb (dt_eq d DNone))
  | FAnd conds =>
      (fix all (cs : list FilterCondition) : option bool :=
         match cs with
         | [] => Some true
         | c :: cs => b ← evaluate c r; if b : bool then all cs else Some false
         end) conds
  | FOr conds =>
      (fix any (cs : list FilterCondition) : option bool :=
         match cs with
         | [] => Some false
         | c :: cs => b ← evaluate c r; if b : bool then Some true else any cs
         end) conds
  | FAlwaysTrue => Some true
  end.

(** [FilterOp::process]. *)
Fixpoint filter_process (c : FilterCondition) (rs : Records) : option Records :=
  match rs with
  | [] => Some []
  | x :: rs =>
      b ← evaluate c (record_row x);
      out ← filter_process c rs;
      Some (if b : bool then x :: out else out)
  end.

(** ** Project *)

Definition map_record (r' : row) (x : Record) : Record := match x with Positive _ => Positive r' | Negative _ => Negative r' end.

Definition project_row (emit : list nat) (r : row) : option row := mapM (fun col => r !! col) emit.

Fixpoint project_process (emit : list nat) (rs : Records) : option Records :=
  match rs with
  | [] => Some []
  | x :: rs =>
      r ← project_row emit (record_row x);
      out ← project_process emit rs;
      Some (map_record r x :: out)
  end.

(** ** Join *)

Inductive JoinType := Inner | LeftJoin | RightJoin.

Record JoinOp := mkJoin {
  jo_type : JoinType;
  jo_left_key : nat;
  jo_right_key : nat;
  jo_emit : list (bool * nat)
}.

Definition combine_rows (emit : list (bool * nat)) (left right : row) : option row :=
  mapM (fun p : bool * nat => if p.1 then left !! p.2 else right !! p.2) emit.

(** The row of a left join without a match. *)
Definition pad_row (emit : list (bool * nat)) (left : row) : option row :=
  mapM (fun p : bool * nat => if p.1 then left !! p.2 else Some DNone) emit.

(** The output for one record, and whether a lookup upstream is needed. *)
Definition join_record (j : JoinOp) (from_parent : nat) (state : MemoryState) (x : Record) : option (Records * bool) :=
  key ← record_row x !! (if (from_parent =? 0)%nat then jo_left_key j else jo_right_key j);
  match state_lookup state [key] with
  | Found others =>
      rows ← mapM (fun other => if (from_parent =? 0)%nat then combine_rows (jo_emit j) (record_row x) other
                                else combine_rows (jo_emit j) other (record_row x)) others;
      Some ((fun r => map_record r x) <$> rows, false)
  | res =>
      out ← (match jo_type j with
             | LeftJoin => if (from_parent =? 0)%nat then r ← pad_row (jo_emit j) (record_row x); Some [map_record r x] else Some []
             | _ => Some []
             end);
      Some (out, match res with Missing => true | _ => false end)
  end.

Fixpoint join_loop (j : JoinOp) (from_parent : nat) (state : MemoryState) (rs : Records) : option Records :=
  match rs with
  | [] => Some []
  | x :: rs =>
      '(out, _) ← join_record j from_parent state x;
      rest ← join_loop j from_parent state rs;
      Some (out ++ rest)
  end.

(** [JoinOp::process]: without the other parent's state there is no output. *)
Definition join_process (j : JoinOp) (from_parent : nat) (rs : Records) (state : option MemoryState) : option Records :=
  match state with None => Some [] | Some st => join_loop j from_parent st rs end.

(** ** Aggregate *)

Inductive AggregateFunc := Count | Sum (col : nat) | Avg (col : nat) | Min (col : nat) | Max (col : nat).

(** Groups with their count and sum. *)
Definition Groups := list (StateKey * (Z * Z)).

Record AggregateOp := mkAggregate {
  ag_group_by : list nat;
  ag_func : AggregateFunc;
  ag_internal : Groups
}.

Fixpoint get_group (k : StateKey) (g : Groups) : option (Z * Z) :=
  match g with [] => None | (k', v) :: g => if key_eq k k' then Some v else get_group k g end.

Fixpoint put_group (k : StateKey) (v : Z * Z) (g : Groups) : Groups :=
  match g with
  | [] => [(k, v)]
  | (k', v') :: g => if key_eq k k' then (k', v) :: g else (k', v') :: put_group k v g
  end.

Fixpoint remove_group (k : StateKey) (g : Groups) : Groups :=
  match g with [] => [] | (k', v') :: g => if key_eq k k' then g else (k', v') :: remove_group k g end.

(** The contribution of a row to the sum; sums wrap at 64 bits. *)
Definition value_of (f : AggregateFunc) (r : row) : option Z :=
  match f with
  | Sum col | Avg col => d ← r !! col; Some (match d with DInt v | DBigInt v => v | _ => 0 end)
  | _ => Some 0
  end.

Fixpoint group_changes (op : AggregateOp) (rs : Records) (g : Groups) : option Groups :=
  match rs with
  | [] => Some g
  | x :: rs =>
      k ← from_row (record_row x) (ag_group_by op);
      v ← value_of (ag_func op) (record_row x);
      let delta := if is_positive x then 1 else -1 in
      let '(c, s) := default (0, 0) (get_group k g) in
      group_changes op rs (put_group k (i64 (c + delta), i64 (s + i64 (v * delta))) g)
  end.

Definition group_values (k : StateKey) : row := match k with Single v => [v] | Multi vs => vs end.

(** The row of a group. *)
Definition group_row (f : AggregateFunc) (k : StateKey) (count sum : Z) : row :=
  group_values k ++
  [DBigInt (match f with
            | Count => count
            | Sum _ => sum
            | Avg _ => i64 (sum `quot` count)
            | Min _ | Max _ => sum
            end)].

(** One iteration of the loop over the changed groups. *)
Definition group_step (f : AggregateFunc) (k : StateKey) (change : Z * Z) (internal : Groups) : Groups * Records :=
  let '(old_count, old_sum) := default (0, 0) (get_group k internal) in
  let new_count := i64 (old_count + change.1) in
  let new_sum := i64 (old_sum + change.2) in
  let internal := put_group k (new_count, new_sum) internal in
  let out := (if 0 <? old_count then [Negative (group_row f k old_count old_sum)] else []) ++
             (if 0 <? new_count then [Positive (group_row f k new_count new_sum)] else []) in
  (if new_count <=? 0 then remove_group k internal else internal, out).

Fixpoint group_results (f : AggregateFunc) (changes internal : Groups) : Groups * Records :=
  match changes with
  | [] => (internal, [])
  | (k, change) :: changes =>
      let '(internal, out) := group_step f k change internal in
      let '(internal, rest) := group_results f changes internal in
      (internal, out ++ rest)
  end.

(** [AggregateOp::process]; [order] is the order in which the hash map of the
    changes is traversed. *)
Definition aggregate_process (order : Groups -> Groups) (op : AggregateOp) (rs : Records) : option (AggregateOp * Records) :=
  changes ← group_changes op rs [];
  let '(internal, out) := group_results (ag_func op) (order changes) (ag_internal op) in
  Some (mkAggregate (ag_group_by op) (ag_func op) internal, out).

(** ** Operators *)

Inductive OperatorType :=
  | OFilter (c : FilterCondition)
  | OProject (emit : list nat)
  | OJoin (j : JoinOp)
  | OAggregate (a : AggregateOp)
  | OIdentity.

Definition operator_process (order : Groups -> Groups) (op : OperatorType) (from_parent : nat) (rs : Records) (state : option MemoryState)
    : option (OperatorType * Records) :=
  match op with
  | OFilter c => out ← filter_process c rs; Some (op, out)
  | OProject emit => out ← project_process emit rs; Some (op, out)
  | OJoin j => out ← join_process j from_parent rs state; Some (op, out)
  | OAggregate a => '(a, out) ← aggregate_process order a rs; Some (OAggregate a, out)
  | OIdentity => Some (op, rs)
  end.
