(* ===== verification/Executor.v ===== *)
(** * The dataflow executor (noria-sqlite/src/dataflow/executor.rs)

    The graph of operators, materialization, lookups and the propagation of
    records from a base table. *)
From stdpp Require Import strings.
From S2P Require Import Prelude Double Value Strings Noria DataType EngineState EngineOps.

Local Open Scope Z_scope.

(** A node; its name and column names are kept only for printing. *)
Record Node := mkNode {
  nd_operator : option OperatorType;
  nd_parents : list nat;
  nd_children : list nat;
  nd_state : option MemoryState
}.

Record ViewHandle := mkView {
  vh_node : nat;
  vh_key_columns : list nat
}.

(** [base_tables] in the order of insertion, a later entry first. *)
Record LocalExecutor := mkExecutor {
  ex_nodes : list Node;
  ex_base_tables : list (list Z * nat)
}.

Definition LocalExecutor_new : LocalExecutor := mkExecutor [] [].

Definition with_nodes (ex : LocalExecutor) (nodes : list Node) : LocalExecutor := mkExecutor nodes (ex_base_tables ex).

Fixpoint table_entry (name : list Z) (l : list (list Z * nat)) : option nat :=
  match l with [] => None | (n, i) :: l => if decide (n = name) then Some i else table_entry name l end.

Definition get_base_table (ex : LocalExecutor) (name : list Z) : option nat := table_entry name (ex_base_tables ex).

(** [add_base_table]: a table added again gets a new node. *)
Definition add_base_table (ex : LocalExecutor) (name : list Z) : LocalExecutor * nat :=
  let idx := length (ex_nodes ex) in
  (mkExecutor (ex_nodes ex ++ [mkNode None [] [] None]) ((name, idx) :: ex_base_tables ex), idx).

Definition get_or_add_base_table (ex : LocalExecutor) (name : list Z) : LocalExecutor * nat :=
  match get_base_table ex name with
  | Some idx => (ex, idx)
  | None => add_base_table ex name
  end.

Definition add_child (idx : nat) (n : Node) : Node := mkNode (nd_operator n) (nd_parents n) (nd_children n ++ [idx]) (nd_state n).
Definition set_state (st : option MemoryState) (n : Node) : Node := mkNode (nd_operator n) (nd_parents n) (nd_children n) st.
Definition set_operator (op : OperatorType) (n : Node) : Node := mkNode (Some op) (nd_parents n) (nd_children n) (nd_state n).

(** Registration with the parents; an index out of range panics. *)
Fixpoint register_child (idx : nat) (parents : list nat) (nodes : list Node) : option (list Node) :=
  match parents with
  | [] => Some nodes
  | p :: parents => n ← nodes !! p; register_child idx parents (<[p := add_child idx n]> nodes)
  end.

Definition add_operator (ex : LocalExecutor) (op : OperatorType) (parents : list nat) : option (LocalExecutor * nat) :=
  let idx := length (ex_nodes ex) in
  nodes ← register_child idx parents (ex_nodes ex);
  Some (with_nodes ex (nodes ++ [mkNode (Some op) parents [] None]), idx).

(** [materialize]: the state starts empty, also if the node had one. *)
Definition materialize (ex : LocalExecutor) (node : nat) (key_columns : list nat) : option (LocalExecutor * ViewHandle) :=
  n ← ex_nodes ex !! node;
  Some (with_nodes ex (<[node := set_state (Some (MemoryState_new key_columns)) n]> (ex_nodes ex)), mkView node key_columns).

(** [lookup]: the outer option is a panic, the inner the miss. *)
Definition executor_lookup (ex : LocalExecutor) (view : ViewHandle) (key : list DataType) : option (option (list row)) :=
  n ← ex_nodes ex !! vh_node view;
  Some (match nd_state n with
        | Some st => match state_lookup st key with Found rows => Some rows | EmptyRows => Some [] | Missing => None end
        | None => None
        end).

Definition inject_into_view (ex : LocalExecutor) (view : ViewHandle) (rs : Records) : option LocalExecutor :=
  n ← ex_nodes ex !! vh_node view;
  match nd_state n with
  | None => Some ex
  | Some st => st ← process_records st rs; Some (with_nodes ex (<[vh_node view := set_state (Some st) n]> (ex_nodes ex)))
  end.

Section Propagation.
Context (order : Groups -> Groups).

(** The source node stores the records, if it is materialized. *)
Definition store_records (nodes : list Node) (from : nat) (rs : Records) : option (list Node) :=
  n ← nodes !! from;
  match nd_state n with
  | None => Some nodes
  | Some st => st ← process_records st rs; Some (<[from := set_state (Some st) n]> nodes)
  end.

(** The state an operator sees: that of the other parent, or its own. *)
Definition state_for (nodes : list Node) (n : Node) (parent_idx : nat) : option (option MemoryState) :=
  if (1 <? length (nd_parents n))%nat then
    if (1 <? parent_idx)%nat then None
    else other ← nd_parents n !! (1 - parent_idx)%nat; o ← nodes !! other; Some (nd_state o)
  else Some (nd_state n).

(** A child's output, with the operator's new internal state stored. *)
Definition run_child (nodes : list Node) (from child : nat) (rs : Records) : option (list Node * Records) :=
  n ← nodes !! child;
  let parent_idx := default 0%nat (position (fun p => (p =? from)%nat) (nd_parents n)) in
  st ← state_for nodes n parent_idx;
  match nd_operator n with
  | None => Some (nodes, rs)
  | Some op =>
      '(op, out) ← operator_process order op parent_idx rs st;
      Some (<[child := set_operator op n]> nodes, out)
  end.

(** The loop over the children. *)
Fixpoint over_children (visit : list Node -> nat -> option (list Node)) (children : list nat) (nodes : list Node) : option (list Node) :=
  match children with
  | [] => Some nodes
  | child :: children => nodes ← visit nodes child; over_children visit children nodes
  end.

(** [propagate]; the fuel bounds the depth of the calls. *)
Fixpoint propagate (fuel : nat) (nodes : list Node) (from : nat) (rs : Records) : option (list Node) :=
  match fuel with
  | O => None
  | S fuel =>
      match rs with
      | [] => Some nodes
      | _ =>
          nodes ← store_records nodes from rs;
          n ← nodes !! from;
          over_children (fun nodes child => '(nodes, out) ← run_child nodes from child rs; propagate fuel nodes child out) (nd_children n) nodes
      end
  end.

(** A child is added after its parents, so no path is longer than the list of
    nodes. *)
Definition apply_write (ex : LocalExecutor) (table : list Z) (rs : Records) : option LocalExecutor :=
  match get_base_table ex table with
  | None => Some ex
  | Some idx => nodes ← propagate (S (length (ex_nodes ex))) (ex_nodes ex) idx rs; Some (with_nodes ex nodes)
  end.

End Propagation.

(** [stats]: nodes, materialized nodes and rows. *)
Definition executor_stats (ex : LocalExecutor) : Z * Z * Z :=
  (Zlen (ex_nodes ex),
   Zlen (filter (fun n => is_Some (nd_state n)) (ex_nodes ex)),
   foldr (fun n s => match nd_state n with Some st => ms_row_count st + s | None => s end) 0 (ex_nodes ex)).
