(* ===== verification/EngineGraph.v ===== *)
(** * The shape of the dataflow graph (noria-sqlite/src/dataflow/executor.rs)

    Children are added after their parents: the graph has no cycle, propagation
    terminates, and it changes operators and states but never the edges. *)
From stdpp Require Import strings.
From S2P Require Import Prelude Double Value Strings Noria DataType EngineState EngineOps Executor.

Local Open Scope Z_scope.

(** ** Edges *)

Definition edges (n : Node) : list nat * list nat := (nd_parents n, nd_children n).
Definition shape (nodes : list Node) : list (list nat * list nat) := edges <$> nodes.

Record graph_ok (nodes : list Node) : Prop := {
  go_children : forall i n c, nodes !! i = Some n -> c ∈ nd_children n -> (i < c < length nodes)%nat;
  go_parents : forall i n p, nodes !! i = Some n -> p ∈ nd_parents n -> (p < i)%nat;
  go_edge : forall i c n m, nodes !! i = Some n -> nodes !! c = Some m -> c ∈ nd_children n <-> i ∈ nd_parents m
}.

Lemma shape_lookup nodes nodes' i n' : shape nodes' = shape nodes -> nodes' !! i = Some n' -> exists n, nodes !! i = Some n /\ edges n = edges n'.
Proof.
  intros E H. assert (S : shape nodes !! i = Some (edges n')) by (rewrite <- E; unfold shape; rewrite list_lookup_fmap, H; reflexivity).
  unfold shape in S. rewrite list_lookup_fmap in S. destruct (nodes !! i) as [n|]; [|discriminate]. injection S as S. exists n. split; [reflexivity|]. unfold edges. congruence.
Qed.

Lemma shape_length nodes nodes' : shape nodes' = shape nodes -> length nodes' = length nodes.
Proof. intros E. apply (f_equal length) in E. unfold shape in E. rewrite !length_fmap in E. exact E. Qed.

Lemma shape_graph_ok nodes nodes' : shape nodes' = shape nodes -> graph_ok nodes -> graph_ok nodes'.
Proof.
  intros E [A B C]. split.
  - intros i n c H Hc. destruct (shape_lookup _ _ _ _ E H) as (m & Hm & [= _ Ec]). rewrite (shape_length _ _ E). rewrite <- Ec in Hc. eauto.
  - intros i n p H Hp. destruct (shape_lookup _ _ _ _ E H) as (m & Hm & [= Ep _]). rewrite <- Ep in Hp. eauto.
  - intros i c n m H Hm. destruct (shape_lookup _ _ _ _ E H) as (n0 & H0 & [= _ Ec]). destruct (shape_lookup _ _ _ _ E Hm) as (m0 & M0 & [= Ep _]).
    rewrite <- Ec, <- Ep. eauto.
Qed.

Lemma shape_insert nodes i n n' : nodes !! i = Some n -> edges n' = edges n -> shape (<[i := n']> nodes) = shape nodes.
Proof.
  intros H E. unfold shape. rewrite list_fmap_insert, E. apply list_insert_id. rewrite list_lookup_fmap, H. reflexivity.
Qed.

(** ** Propagation keeps the edges *)

Section Shape.
Context (order : Groups -> Groups).

Lemma store_records_shape nodes from rs nodes' : store_records nodes from rs = Some nodes' -> shape nodes' = shape nodes.
Proof.
  unfold store_records. destruct (nodes !! from) as [n|] eqn:E; [|discriminate]. cbn [mbind option_bind].
  destruct (nd_state n) as [st|]; [|intros [= ->]; reflexivity]. destruct (process_records st rs); [|discriminate]. intros [= <-].
  apply (shape_insert _ _ n); [exact E|reflexivity].
Qed.

Lemma run_child_shape nodes from c rs nodes' out : run_child order nodes from c rs = Some (nodes', out) -> shape nodes' = shape nodes.
Proof.
  unfold run_child. destruct (nodes !! c) as [n|] eqn:E; [|discriminate]. cbn [mbind option_bind].
  destruct (state_for nodes n _); [|discriminate]. cbn [mbind option_bind]. destruct (nd_operator n) as [op|]; [|intros [= -> _]; reflexivity].
  destruct (operator_process _ _ _ _ _) as [[op' out']|]; [|discriminate]. intros [= <- _]. apply (shape_insert _ _ n); [exact E|reflexivity].
Qed.

Lemma over_children_shape visit cs nodes nodes' :
  (forall nodes c nodes', c ∈ cs -> visit nodes c = Some nodes' -> shape nodes' = shape nodes) ->
  over_children visit cs nodes = Some nodes' -> shape nodes' = shape nodes.
Proof.
  intros V. revert nodes. induction cs as [|c cs IH]; intros nodes; cbn [over_children]; [intros [= ->]; reflexivity|].
  destruct (visit nodes c) as [n1|] eqn:E; [|discriminate]. cbn [mbind option_bind]. intros E'. rewrite (IH ltac:(intros; eapply V; [right; eassumption|eassumption]) n1 E').
  eapply V; [left|exact E].
Qed.

Lemma propagate_shape fuel nodes from rs nodes' : propagate order fuel nodes from rs = Some nodes' -> shape nodes' = shape nodes.
Proof.
  revert nodes from rs nodes'. induction fuel as [|fuel IH]; intros nodes from rs nodes'; cbn [propagate]; [discriminate|].
  destruct rs as [|x rs]; [intros [= ->]; reflexivity|]. destruct (store_records nodes from _) as [n1|] eqn:E1; [|discriminate]. cbn [mbind option_bind].
  destruct (n1 !! from); [|discriminate]. cbn [mbind option_bind]. intros E. apply store_records_shape in E1. rewrite <- E1. revert E. apply over_children_shape.
  intros m c m' _. destruct (run_child order m from c _) as [[m1 out]|] eqn:Er; [|discriminate]. cbn [mbind option_bind]. intros Ep.
  rewrite (IH _ _ _ _ Ep). exact (run_child_shape _ _ _ _ _ _ Er).
Qed.

(** ** Propagation terminates: more fuel changes nothing *)

Lemma over_children_ext v1 v2 cs nodes (P : list Node -> Prop) :
  P nodes -> (forall m c, c ∈ cs -> P m -> v1 m c = v2 m c /\ forall m', v1 m c = Some m' -> P m') ->
  over_children v1 cs nodes = over_children v2 cs nodes.
Proof.
  intros HP V. revert nodes HP. induction cs as [|c cs IH]; intros nodes HP; cbn [over_children]; [reflexivity|].
  destruct (V nodes c (list_elem_of_here _ _) HP) as [E1 E2]. rewrite <- E1. destruct (v1 nodes c) as [m|]; [|reflexivity]. cbn [mbind option_bind].
  apply IH; [|auto]. intros m0 c0 H0. apply V. right. exact H0.
Qed.

Lemma propagate_fuel f1 f2 nodes from rs : graph_ok nodes -> (length nodes - from < f1)%nat -> (length nodes - from < f2)%nat ->
  propagate order f1 nodes from rs = propagate order f2 nodes from rs.
Proof.
  revert f2 nodes from rs. induction f1 as [|f1 IH]; intros f2 nodes from rs Hok H1 H2; [lia|]. destruct f2 as [|f2]; [lia|]. cbn [propagate].
  destruct rs as [|x rs]; [reflexivity|]. destruct (store_records nodes from _) as [n1|] eqn:E1; [|reflexivity]. cbn [mbind option_bind].
  destruct (n1 !! from) as [n|] eqn:En; [|reflexivity]. cbn [mbind option_bind]. apply store_records_shape in E1.
  pose proof (shape_graph_ok _ _ E1 Hok) as Hok1. pose proof (shape_length _ _ E1) as L1.
  apply (over_children_ext _ _ _ _ (fun m => shape m = shape n1)); [reflexivity|]. intros m c Hc Hm.
  destruct (go_children _ Hok1 from n c En Hc) as [B1 B2]. pose proof (shape_length _ _ Hm) as L2.
  destruct (run_child order m from c _) as [[m1 out]|] eqn:Er; [|split; [reflexivity|discriminate]]. cbn [mbind option_bind].
  apply run_child_shape in Er. pose proof (shape_length _ _ Er) as L3. split.
  - apply IH; [|lia..]. apply (shape_graph_ok n1); [congruence|exact Hok1].
  - intros m' Ep. apply propagate_shape in Ep. congruence.
Qed.

End Shape.

(** ** The nodes a write reaches *)

Fixpoint visits (fuel : nat) (nodes : list Node) (i : nat) : list nat :=
  match fuel with
  | O => []
  | S fuel => i :: (n ← option_list (nodes !! i); c ← nd_children n; visits fuel nodes c)
  end.

Lemma NoDup_bind_elem {A B} (g : A -> list B) l x : NoDup (l ≫= g) -> x ∈ l -> NoDup (g x).
Proof.
  intros H Hx. revert H. induction Hx as [x l|x y l Hx IH]; cbn; intros H; apply NoDup_app in H as (H1 & _ & H2); auto.
Qed.

Lemma NoDup_bind_disjoint {A B} (g : A -> list B) l x y z : NoDup (l ≫= g) -> x ∈ l -> y ∈ l -> z ∈ g x -> z ∈ g y -> x = y.
Proof.
  induction l as [|a l IH]; [intros _ H; inversion H|]. cbn. intros H. apply NoDup_app in H as (_ & Hd & H2). rewrite !elem_of_cons.
  intros [->|Hx] [->|Hy] Zx Zy; auto.
  - destruct (Hd z Zx). apply list_elem_of_bind. eauto.
  - destruct (Hd z Zy). apply list_elem_of_bind. eauto.
Qed.

Section Visits.
Context (nodes : list Node) (Hok : graph_ok nodes).

Lemma visits_step fuel i n : nodes !! i = Some n -> visits (S fuel) nodes i = i :: (c ← nd_children n; visits fuel nodes c).
Proof. intros E. cbn [visits]. rewrite E. cbn. rewrite app_nil_r. reflexivity. Qed.

Lemma visits_cases fuel i j : j ∈ visits fuel nodes i -> j = i \/
  exists f n c, fuel = S f /\ nodes !! i = Some n /\ c ∈ nd_children n /\ j ∈ visits f nodes c.
Proof.
  destruct fuel as [|f]; cbn [visits]; [intros H; inversion H|]. rewrite elem_of_cons. intros [H|H]; [auto|]. right.
  destruct (nodes !! i) as [n|]; [|inversion H]. cbn in H. rewrite app_nil_r in H. apply list_elem_of_bind in H as (c & Hj & Hc). exists f, n, c. auto.
Qed.

Lemma visits_sub f i n c j : nodes !! i = Some n -> c ∈ nd_children n -> j ∈ visits f nodes c -> j ∈ visits (S f) nodes i.
Proof. intros E Hc Hj. rewrite (visits_step f i n E). right. apply list_elem_of_bind. eauto. Qed.

Lemma visits_ge fuel i j : j ∈ visits fuel nodes i -> j = i \/ (i < j)%nat.
Proof.
  revert i. induction fuel as [|fuel IH]; intros i H; [inversion H|]. destruct (visits_cases _ _ _ H) as [->|(f & n & c & [= <-] & E & Hc & Hj)]; [auto|]. right.
  destruct (go_children _ Hok i n c E Hc). destruct (IH c Hj); lia.
Qed.

Lemma visits_self fuel i : (0 < fuel)%nat -> i ∈ visits fuel nodes i.
Proof. destruct fuel; [lia|]. intros _. left. Qed.

Lemma visits_closed fuel i q m c : (length nodes - i < fuel)%nat -> q ∈ visits fuel nodes i -> nodes !! q = Some m -> c ∈ nd_children m -> c ∈ visits fuel nodes i.
Proof.
  revert i. induction fuel as [|fuel IH]; intros i L Hq Em Hc; [lia|]. destruct (visits_cases _ _ _ Hq) as [->|(f & n & d & [= <-] & E & Hd & Hj)].
  - destruct (go_children _ Hok i m c Em Hc). apply (visits_sub fuel i m c c Em Hc), visits_self. lia.
  - destruct (go_children _ Hok i n d E Hd). apply (visits_sub fuel i n d c E Hd), (IH d); auto. lia.
Qed.

Lemma visits_parent fuel i j : j ∈ visits fuel nodes i -> j <> i -> exists p n, p ∈ visits fuel nodes i /\ nodes !! p = Some n /\ j ∈ nd_children n.
Proof.
  revert i. induction fuel as [|fuel IH]; intros i H N; [inversion H|]. destruct (visits_cases _ _ _ H) as [->|(f & n & c & [= <-] & E & Hc & Hj)]; [contradiction|].
  destruct (decide (j = c)) as [->|Nc]; [exists i, n; split; [left|auto]|]. destruct (IH c Hj Nc) as (p & m & Hp & Em & Hm). exists p, m. split; [|auto].
  exact (visits_sub fuel i n c p E Hc Hp).
Qed.

Lemma only_parent fuel i p q m m' c : NoDup (visits fuel nodes i) -> (length nodes - i < fuel)%nat -> p ∈ visits fuel nodes i -> q ∈ visits fuel nodes i ->
  nodes !! p = Some m -> c ∈ nd_children m -> nodes !! q = Some m' -> c ∈ nd_children m' -> p = q.
Proof.
  revert i. induction fuel as [|fuel IH]; intros i ND L Hp Hq Em Hc Em' Hc'; [lia|].
  assert (top : forall n d x mx, nodes !! i = Some n -> c ∈ nd_children n -> d ∈ nd_children n -> x ∈ visits fuel nodes d -> nodes !! x = Some mx -> c ∈ nd_children mx -> False).
  { intros n d x mx En Hcn Hd Hx Ex Hcx. rewrite (visits_step fuel i n En) in ND. apply NoDup_cons in ND as [_ ND]. destruct (go_children _ Hok i n d En Hd). destruct (go_children _ Hok i n c En Hcn).
    assert (Hcd : c ∈ visits fuel nodes d) by (apply (visits_closed fuel d x mx c); auto; lia).
    pose proof (NoDup_bind_disjoint _ _ c d c ND Hcn Hd (visits_self fuel c ltac:(lia)) Hcd) as <-. pose proof (go_children _ Hok x mx c Ex Hcx). destruct (visits_ge _ _ _ Hx); lia. }
  destruct (visits_cases _ _ _ Hp) as [->|(f & n & d & [= <-] & E & Hd & Hj)]; destruct (visits_cases _ _ _ Hq) as [->|(f & n' & d' & [= <-] & E' & Hd' & Hj')]; [reflexivity|exfalso..|].
  - rewrite Em in E'. injection E' as <-. exact (top m d' q m' Em Hc Hd' Hj' Em' Hc').
  - rewrite Em' in E. injection E as <-. exact (top m' d p m Em' Hc' Hd Hj Em Hc).
  - rewrite E in E'. injection E' as <-. rewrite (visits_step fuel i n E) in ND. apply NoDup_cons in ND as [_ ND]. destruct (go_children _ Hok i n d E Hd). destruct (go_children _ Hok i n d' E Hd').
    assert (Hcd : c ∈ visits fuel nodes d) by (apply (visits_closed fuel d p m c); auto; lia). assert (Hcd' : c ∈ visits fuel nodes d') by (apply (visits_closed fuel d' q m' c); auto; lia).
    pose proof (NoDup_bind_disjoint _ _ d d' c ND Hd Hd' Hcd Hcd') as <-. apply (IH d); auto; [exact (NoDup_bind_elem _ _ _ ND Hd)|lia].
Qed.

End Visits.
