(* ===== verification/EngineSql.v ===== *)
(** * From SQL to a dataflow graph (noria-sqlite/src/dataflow/sql.rs)

    [SqlConverter] builds the operators of a SELECT.  The syntax trees are those of
    the crate sqlite3-parser, with the constructors the converter looks at; the
    parser is an argument. *)
From stdpp Require Import strings.
From S2P Require Import Prelude Double Value Strings Noria DataType EngineState EngineOps Executor.

Local Open Scope Z_scope.

(** ** Syntax trees *)

Inductive Literal :=
  | LNumeric (n : list Z)
  | LString (s : list Z)
  | LNull
  | LCurrent (now : list Z)
  | LBlob
  | LKeyword (kw : list Z).

Inductive Operator := OpAnd | OpOr | OpEquals | OpNotEquals | OpGreater | OpGreaterEquals | OpLess | OpLessEquals | OpOther.

Inductive Expr :=
  | EId (name : list Z)
  | EQualified (table col : list Z)
  | EVariable
  | ELiteral (l : Literal)
  | ENegative (e : Expr)
  | EBinary (l : Expr) (op : Operator) (r : Expr)
  | EParenthesized (es : list Expr)
  | EFunctionCall (name : list Z) (args : option (list Expr))
  | EFunctionCallStar (name : list Z)
  | EOther.

Inductive ResultColumn := RStar | RTableStar | RExpr (e : Expr) (alias : option (list Z)).

Inductive SelectTable := STable (name : list Z) | SOtherTable.

Inductive JoinConstraint := JOn (e : Expr) | JUsing (cols : list (list Z)).

(** A join with its operator: the left and right flags of a typed join. *)
Record JoinedTable := mkJoined {
  jt_left : bool;
  jt_right : bool;
  jt_table : SelectTable;
  jt_constraint : option JoinConstraint
}.

Record FromClause := mkFrom {
  fc_select : option SelectTable;
  fc_joins : list JoinedTable
}.

Record Select := mkSelect {
  se_columns : list ResultColumn;
  se_from : option FromClause;
  se_where : option Expr;
  se_group_by : option (list Expr)
}.

(** What the parser returns: an error, the end of input, a SELECT statement whose
    first body is a SELECT or a VALUES list, or another command.  The converter
    looks at the first body only: the arms of a compound, and DISTINCT, HAVING,
    ORDER BY and LIMIT, are not part of what it reads. *)
Inductive Command := CError | CEmpty | CSelect (s : Select) | CValues | COther.

(** The messages are not kept. *)
Inductive SqlError := ParseError | UnsupportedQuery | TableNotFound (name : list Z) | ColumnNotFound (name : list Z).

(** ** Results

    The executor is changed in place: the nodes added before an error stay.  The
    option is a panic. *)
Definition Build A := LocalExecutor -> option (LocalExecutor * (A + SqlError)).

Definition ret {A} (a : A) : Build A := fun ex => Some (ex, inl a).
Definition throw {A} (e : SqlError) : Build A := fun ex => Some (ex, inr e).
Definition bindB {A B} (m : Build A) (f : A -> Build B) : Build B := fun ex =>
  '(ex, r) ← m ex; match r with inl a => f a ex | inr e => Some (ex, inr e) end.
Definition lift {A} (r : A + SqlError) : Build A := match r with inl a => ret a | inr e => throw e end.
Definition unsupported {A} (o : option A) : A + SqlError := match o with Some a => inl a | None => inr UnsupportedQuery end.

Declare Scope build_scope.
Delimit Scope build_scope with build.
Notation "'let!' x := m 'in' k" := (bindB m (fun x => k)) (at level 10, x name, k at level 200) : build_scope.

(** ** Columns *)

(** [eq_ignore_ascii_case]. *)
Definition eq_ignore_ascii_case (a b : list Z) : bool := bool_decide (sqlite3UpperToLower <$> a = sqlite3UpperToLower <$> b).

(** [to_uppercase], as far as a comparison with COUNT, SUM, AVG, MIN, MAX, TRUE or
    FALSE can tell: besides the ASCII letters, the long s (C5 BF) and the dotless i
    (C4 B1) become ASCII letters of these words. *)
Fixpoint to_uppercase (s : list Z) : list Z :=
  match s with
  | 197 :: 191 :: s => 83 :: to_uppercase s
  | 196 :: 177 :: s => 73 :: to_uppercase s
  | c :: s => (if (97 <=? c) && (c <=? 122) then c - 32 else c) :: to_uppercase s
  | [] => []
  end.

Definition upper_is (s : list Z) (word : string) : bool := bool_decide (to_uppercase s = str word).

Definition column_position (name : list Z) (columns : list (list Z)) : option nat :=
  position (fun c => eq_ignore_ascii_case c name) columns.

Definition get_column_index_from_expr (e : Expr) (columns : list (list Z)) : option nat :=
  match e with
  | EId name => column_position name columns
  | EQualified table col =>
      match column_position (table ++ [46] ++ col) columns with
      | Some i => Some i
      | None => column_position col columns
      end
  | _ => None
  end.

(** ** Literals *)

(** [str::parse::<i64>]. *)
Fixpoint parse_digits (acc : Z) (s : list Z) : option Z :=
  match s with
  | [] => Some acc
  | c :: s => if (48 <=? c) && (c <=? 57) then parse_digits (10 * acc + (c - 48)) s else None
  end.

Definition parse_i64 (s : list Z) : option Z :=
  let '(neg, digits) := match s with 45 :: s => (true, s) | 43 :: s => (false, s) | _ => (false, s) end in
  match digits with
  | [] => None
  | _ =>
      n ← parse_digits 0 digits;
      let n := if neg then - n else n in
      if (- 2 ^ 63 <=? n) && (n <? 2 ^ 63) then Some n else None
  end.

Section Converter.
Context (parse_f64 : list Z -> option Z).

(** [(f.fract().abs() * 1e9) as i32], truncated. *)
Definition fract_trunc (r : Z) : Z := let '(v, k) := fract_scaled r in v / 2 ^ k.

(** [convert_literal]; the outer option is a panic of [DataType::from]. *)
Definition convert_literal (l : Literal) : option (DataType + SqlError) :=
  match l with
  | LNumeric n =>
      Some (match parse_i64 n with
            | Some i => inl (DBigInt i)
            | None => match parse_f64 n with Some f => inl (DReal (trunc_i64 f) (fract_trunc f)) | None => inr UnsupportedQuery end
            end)
  | LString s | LCurrent s => d ← from_str s; Some (inl d)
  | LNull => Some (inl DNone)
  | LBlob => Some (inr UnsupportedQuery)
  | LKeyword kw =>
      Some (if upper_is kw "TRUE" then inl (DInt 1)
            else if upper_is kw "FALSE" then inl (DInt 0)
            else inr UnsupportedQuery)
  end.

(** [convert_expr_to_datatype]; negating the least integer wraps. *)
Definition convert_expr_to_datatype (e : Expr) : option (DataType + SqlError) :=
  match e with
  | ELiteral l => convert_literal l
  | ENegative (ELiteral (LNumeric n)) => Some (inl (DBigInt (i64 (- default 0 (parse_i64 n)))))
  | _ => Some (inr UnsupportedQuery)
  end.

(** ** Conditions *)

Definition convert_comparison (l : Expr) (op : Operator) (r : Expr) (columns : list (list Z)) : option (FilterCondition + SqlError) :=
  match get_column_index_from_expr l columns with
  | None => Some (inr UnsupportedQuery)
  | Some col =>
      match r with
      | EVariable => Some (inl FAlwaysTrue)
      | _ =>
          v ← convert_expr_to_datatype r;
          Some (match v with
                | inr e => inr e
                | inl v =>
                    match op with
                    | OpEquals => inl (FEq col v)
                    | OpNotEquals => inl (FNe col v)
                    | OpGreater => inl (FGt col v)
                    | OpLess => inl (FLt col v)
                    | OpGreaterEquals => inl (FOr [FGt col v; FEq col v])
                    | OpLessEquals => inl (FOr [FLt col v; FEq col v])
                    | _ => inr UnsupportedQuery
                    end
                end)
      end
  end.

Fixpoint convert_expr_to_filter (e : Expr) (columns : list (list Z)) : option (FilterCondition + SqlError) :=
  match e with
  | EBinary l op r =>
      match op with
      | OpAnd | OpOr =>
          a ← convert_expr_to_filter l columns;
          match a with
          | inr err => Some (inr err)
          | inl a =>
              b ← convert_expr_to_filter r columns;
              Some (match b with
                    | inr err => inr err
                    | inl b => inl (match op with OpAnd => FAnd [a; b] | _ => FOr [a; b] end)
                    end)
          end
      | OpOther => Some (inr UnsupportedQuery)
      | _ => convert_comparison l op r columns
      end
  | EParenthesized [e] => convert_expr_to_filter e columns
  | _ => Some (inr UnsupportedQuery)
  end.

(** [extract_equality_column], [extract_key_columns]. *)
Fixpoint extract_equality_column (e : Expr) (columns : list (list Z)) : option nat :=
  match e with
  | EBinary l OpEquals _ => get_column_index_from_expr l columns
  | EBinary l OpAnd r =>
      match extract_equality_column l columns with
      | Some i => Some i
      | None => extract_equality_column r columns
      end
  | EParenthesized [e] => extract_equality_column e columns
  | _ => None
  end.

Definition extract_key_columns (where_clause : option Expr) (columns : list (list Z)) : list nat :=
  match e ← where_clause; extract_equality_column e columns with
  | Some i => [i]
  | None => match columns with [] => [] | _ => [0%nat] end
  end.

(** ** Aggregates *)

Definition first_column (args : option (list Expr)) (columns : list (list Z)) : nat :=
  default 0%nat (args ← args; e ← head args; get_column_index_from_expr e columns).

Definition extract_aggregate_from_expr (e : Expr) (columns : list (list Z)) : option AggregateFunc :=
  match e with
  | EFunctionCall name args =>
      let i := first_column args columns in
      if upper_is name "COUNT" then Some Count
      else if upper_is name "SUM" then Some (Sum i)
      else if upper_is name "AVG" then Some (Avg i)
      else if upper_is name "MIN" then Some (Min i)
      else if upper_is name "MAX" then Some (Max i)
      else None
  | EFunctionCallStar name => if upper_is name "COUNT" then Some Count else None
  | _ => None
  end.

(** The first aggregate of the result columns, with its name. *)
Fixpoint extract_aggregate (cols : list ResultColumn) (columns : list (list Z)) : option (AggregateFunc * list Z) :=
  match cols with
  | [] => None
  | RExpr e alias :: cols =>
      match extract_aggregate_from_expr e columns with
      | Some f => Some (f, default (str "agg") alias)
      | None => extract_aggregate cols columns
      end
  | _ :: cols => extract_aggregate cols columns
  end.

(** ** Projections *)

(** The columns listed, none if one of them is a star or an expression. *)
Fixpoint projection_loop (cols : list ResultColumn) (columns : list (list Z)) : option (list nat * list (list Z)) :=
  match cols with
  | [] => Some ([], [])
  | RExpr e alias :: cols =>
      i ← get_column_index_from_expr e columns;
      name ← columns !! i;
      '(idxs, names) ← projection_loop cols columns;
      Some (i :: idxs, default name alias :: names)
  | _ => None
  end.

Definition get_projection (cols : list ResultColumn) (columns : list (list Z)) : option (list nat * list (list Z)) :=
  match projection_loop cols columns with
  | Some ([], _) => None
  | r => r
  end.

(** Key columns in the projected row; those not listed are appended. *)
Fixpoint place_keys (keys : list nat) (emit : list nat) (names : list (list Z)) (columns : list (list Z))
    : option (list nat * list (list Z) * list nat) :=
  match keys with
  | [] => Some (emit, names, [])
  | key :: keys =>
      match position (fun i => (i =? key)%nat) emit with
      | Some pos => '(emit, names, ks) ← place_keys keys emit names columns; Some (emit, names, pos :: ks)
      | None =>
          name ← columns !! key;
          '(emit', names', ks) ← place_keys keys (emit ++ [key]) (names ++ [name]) columns;
          Some (emit', names', length emit :: ks)
      end
  end.

(** ** FROM *)

(** Schemas in the order of registration. *)
Definition Schemas := list (list Z * list (list Z)).

Fixpoint get_schema (table : list Z) (s : Schemas) : option (list (list Z)) :=
  match s with
  | [] => None
  | (name, columns) :: s => if eq_ignore_ascii_case name table then Some columns else get_schema table s
  end.

Definition build_select_table (schemas : Schemas) (t : SelectTable) : Build (nat * list (list Z)) :=
  match t with
  | STable name =>
      match get_schema name schemas with
      | None => throw (TableNotFound name)
      | Some columns => fun ex => let '(ex, node) := get_or_add_base_table ex name in Some (ex, inl (node, columns))
      end
  | SOtherTable => throw UnsupportedQuery
  end.

Definition extract_join_keys (c : option JoinConstraint) (left_columns right_columns : list (list Z)) : nat * nat + SqlError :=
  match c with
  | Some (JOn (EBinary l OpEquals r)) =>
      match get_column_index_from_expr l left_columns, get_column_index_from_expr r right_columns with
      | Some i, Some j => inl (i, j)
      | _, _ =>
          match get_column_index_from_expr l right_columns, get_column_index_from_expr r left_columns with
          | Some j, Some i => inl (i, j)
          | _, _ => inr UnsupportedQuery
          end
      end
  | Some (JOn _) => inr UnsupportedQuery
  | Some (JUsing (name :: _)) =>
      match column_position name left_columns, column_position name right_columns with
      | Some i, Some j => inl (i, j)
      | _, _ => inr UnsupportedQuery
      end
  | Some (JUsing []) => inr UnsupportedQuery
  | None => inl (0%nat, 0%nat)
  end.

Definition materialize_node (node : nat) (keys : list nat) : Build ViewHandle := fun ex =>
  '(ex, v) ← materialize ex node keys; Some (ex, inl v).

Definition operator_node (op : OperatorType) (parents : list nat) : Build nat := fun ex =>
  '(ex, n) ← add_operator ex op parents; Some (ex, inl n).

(** The columns of a join: all on the left, and on the right all but the key. *)
Definition other_columns (key n : nat) : list nat := filter (fun i => i <> key) (seq 0 n).

Local Open Scope build_scope.

Fixpoint build_joins (schemas : Schemas) (joins : list JoinedTable) (node : nat) (columns : list (list Z)) : Build (nat * list (list Z)) :=
  match joins with
  | [] => ret (node, columns)
  | j :: joins =>
      let! right := build_select_table schemas (jt_table j) in
      let! keys := lift (extract_join_keys (jt_constraint j) columns right.2) in
      let! _ := materialize_node node [keys.1] in
      let! _ := materialize_node right.1 [keys.2] in
      let others := other_columns keys.2 (length right.2) in
      let joined := columns ++ omap (fun i => right.2 !! i) others in
      let emit := ((fun i => (true, i)) <$> seq 0 (length columns)) ++ ((fun i => (false, i)) <$> others) in
      let type := if jt_left j then LeftJoin else if jt_right j then RightJoin else Inner in
      let! node := operator_node (OJoin (mkJoin type keys.1 keys.2 emit)) [node; right.1] in
      build_joins schemas joins node joined
  end.

Definition build_from_clause (schemas : Schemas) (from : FromClause) : Build (nat * list (list Z)) :=
  let! t := lift (unsupported (fc_select from)) in
  let! start := build_select_table schemas t in
  build_joins schemas (fc_joins from) start.1 start.2.

(** ** SELECT *)

Definition lift_panic {A} (r : option (A + SqlError)) : Build A := fun ex => x ← r; Some (ex, x).

Definition build_where (where_clause : option Expr) (node : nat) (columns : list (list Z)) : Build nat :=
  match where_clause with
  | None => ret node
  | Some e => let! c := lift_panic (convert_expr_to_filter e columns) in operator_node (OFilter c) [node]
  end.

(** The group columns: those of GROUP BY, or the key of the WHERE clause. *)
Definition group_indices (s : Select) (columns : list (list Z)) : list nat :=
  match se_group_by s with
  | Some es => omap (fun e => get_column_index_from_expr e columns) es
  | None => extract_key_columns (se_where s) columns
  end.

Definition build_aggregate (s : Select) (agg : option (AggregateFunc * list Z)) (node : nat) (columns : list (list Z)) : Build (nat * list (list Z)) :=
  match agg with
  | None => ret (node, columns)
  | Some (f, alias) =>
      let groups := group_indices s columns in
      let! names := lift_panic (inl <$> mapM (fun i => columns !! i) groups) in
      let! node := operator_node (OAggregate (mkAggregate groups f [])) [node] in
      ret (node, names ++ [alias])
  end.

Definition is_star (c : ResultColumn) : bool := match c with RStar => true | _ => false end.

(** The projection and the key columns of the view. *)
Definition build_projection (s : Select) (has_aggregate : bool) (node : nat) (columns : list (list Z)) : Build (nat * list nat) :=
  let keys := extract_key_columns (se_where s) columns in
  if negb (existsb is_star (se_columns s)) && negb has_aggregate then
    match get_projection (se_columns s) columns with
    | None => ret (node, keys)
    | Some (emit, names) =>
        let! placed := lift_panic (inl <$> place_keys keys emit names columns) in
        let emit := placed.1.1 in
        if decide (emit = seq 0 (length columns)) then ret (node, placed.2)
        else let! node := operator_node (OProject emit) [node] in ret (node, placed.2)
    end
  else ret (node, keys).

Definition build_select (schemas : Schemas) (s : Select) : Build ViewHandle :=
  let! from := lift (unsupported (se_from s)) in
  let! start := build_from_clause schemas from in
  let! node := build_where (se_where s) start.1 start.2 in
  let agg := extract_aggregate (se_columns s) start.2 in
  let! top := build_aggregate s agg node start.2 in
  let! view := build_projection s (if agg is Some _ then true else false) top.1 top.2 in
  materialize_node view.1 view.2.

(** [convert_select]. *)
Definition convert_select (parse : list Z -> Command) (schemas : Schemas) (sql : list Z) : Build ViewHandle :=
  match parse sql with
  | CError | CEmpty => throw ParseError
  | CSelect s => build_select schemas s
  | CValues | COther => throw UnsupportedQuery
  end.

End Converter.
