(* ===== verification/EngineCorrect.v ===== *)
(** * The operators are incremental (noria-sqlite/src/dataflow/ops.rs)

    An operator that is given the change of a table returns the change of its
    result: filters, projections and inner joins here, aggregates in the file that
    follows. *)
From stdpp Require Import strings.
From S2P Require Import Prelude Double Value Strings Noria DataType EngineState EngineOps.

Local Open Scope Z_scope.

(** ** Records and permutations *)

Lemma remove_one_compat r M M' N : M ≡ₚ N -> remove_one r M = Some M' -> exists N', remove_one r N = Some N' /\ M' ≡ₚ N'.
Proof.
  intros P E. apply remove_one_perm in E. destruct (remove_one_in r N) as [N' EN]; [rewrite <- P, E; left|].
  exists N'. split; [exact EN|]. apply remove_one_perm in EN. rewrite E, EN in P. exact (Permutation_cons_inv P).
Qed.

Lemma apply_all_compat rs M M' N : M ≡ₚ N -> apply_all M rs = Some M' -> exists N', apply_all N rs = Some N' /\ M' ≡ₚ N'.
Proof.
  revert M N. induction rs as [|[r|r] rs IH]; intros M N P E; cbn [apply_all] in *.
  - injection E as <-. eauto.
  - apply (IH (r :: M)); [rewrite P; reflexivity|exact E].
  - destruct (remove_one r M) as [M1|] eqn:E1; [|discriminate]. cbn in E.
    destruct (remove_one_compat r M M1 N P E1) as (N1 & -> & P1). cbn. exact (IH M1 N1 P1 E).
Qed.

Lemma apply_all_app M rs1 rs2 : apply_all M (rs1 ++ rs2) = (M' ← apply_all M rs1; apply_all M' rs2).
Proof.
  revert M. induction rs1 as [|[r|r] rs1 IH]; intros M; cbn; [reflexivity|apply IH|]. destruct (remove_one r M); cbn; [apply IH|reflexivity].
Qed.

Lemma apply_positives l M : exists M', apply_all M (Positive <$> l) = Some M' /\ M' ≡ₚ l ++ M.
Proof.
  revert M. induction l as [|r l IH]; intros M; cbn; [eauto|]. destruct (IH (r :: M)) as (M' & E & P). exists M'. split; [exact E|].
  rewrite P. symmetry. apply Permutation_middle.
Qed.

Lemma apply_negatives l M N : M ≡ₚ l ++ N -> exists M', apply_all M (Negative <$> l) = Some M' /\ M' ≡ₚ N.
Proof.
  revert M. induction l as [|r l IH]; intros M P; cbn in *; [eauto|].
  destruct (remove_one_in r M) as [M1 E1]; [rewrite P; left|]. rewrite E1. cbn. apply IH. apply remove_one_perm in E1. rewrite E1 in P.
  exact (Permutation_cons_inv P).
Qed.

(** ** Operators that act row by row *)

Section Rowwise.
Context (f : row -> list row).

Definition delta_of (x : Record) : Records := (fun r => map_record r x) <$> f (record_row x).

Lemma delta_applies M rs M' : apply_all M rs = Some M' ->
  exists V', apply_all (M ≫= f) (rs ≫= delta_of) = Some V' /\ V' ≡ₚ M' ≫= f.
Proof.
  enough (G : forall V, V ≡ₚ M ≫= f -> apply_all M rs = Some M' -> exists V', apply_all V (rs ≫= delta_of) = Some V' /\ V' ≡ₚ M' ≫= f) by auto.
  revert M. induction rs as [|[r|r] rs IH]; intros M V P E; cbn [apply_all mbind list_bind] in *.
  - injection E as <-. eauto.
  - rewrite apply_all_app. change (delta_of (Positive r)) with (Positive <$> f r).
    destruct (apply_positives (f r) V) as (V1 & -> & P1). cbn [mbind option_bind]. apply (IH (r :: M)); [|exact E]. rewrite P1, P. reflexivity.
  - rewrite apply_all_app. destruct (remove_one r M) as [M1|] eqn:E1; [|discriminate]. cbn [mbind option_bind] in E.
    change (delta_of (Negative r)) with (Negative <$> f r). destruct (apply_negatives (f r) V (M1 ≫= f)) as (V1 & -> & P1).
    { rewrite P, (remove_one_perm r M M1 E1). reflexivity. }
    cbn [mbind option_bind]. exact (IH M1 V1 P1 E).
Qed.

End Rowwise.

(** ** The queries *)

Definition select_rows (c : FilterCondition) (M : list row) : list row := filter (fun r => evaluate c r = Some true) M.

Definition project_rows (emit : list nat) (M : list row) : list row := omap (project_row emit) M.

(** The row two rows make: equal keys, the columns being there. *)
Definition match_rows (j : JoinOp) (l r : row) : list row :=
  match l !! jo_left_key j, r !! jo_right_key j with
  | Some a, Some b => if decide (a = b) then option_list (combine_rows (jo_emit j) l r) else []
  | _, _ => []
  end.

Definition join_rows (j : JoinOp) (L R : list row) : list row := l ← L; r ← R; match_rows j l r.

Lemma filter_process_delta c rs out : filter_process c rs = Some out ->
  out = rs ≫= delta_of (fun r => if decide (evaluate c r = Some true) then [r] else []).
Proof.
  revert out. induction rs as [|x rs IH]; intros out; cbn [filter_process mbind list_bind option_bind]; [intros [= <-]; reflexivity|].
  destruct (evaluate c (record_row x)) as [b|] eqn:E; [|discriminate]. cbn [mbind option_bind]. destruct (filter_process c rs) as [out'|]; [|discriminate]. cbn [mbind option_bind].
  intros [= <-]. rewrite (IH out' eq_refl). set (g := fun r => if decide _ then _ else _).
  assert (D : delta_of g x = if b then [x] else []) by (unfold delta_of, g; rewrite E; destruct b, x; reflexivity).
  rewrite D. destruct b; reflexivity.
Qed.

Lemma select_rows_bind c M : M ≫= (fun r => if decide (evaluate c r = Some true) then [r] else []) = select_rows c M.
Proof.
  induction M as [|r M IH]; [reflexivity|]. unfold select_rows. rewrite filter_cons. cbn. rewrite IH. case_decide; reflexivity.
Qed.

Lemma project_process_delta emit rs out : project_process emit rs = Some out -> out = rs ≫= delta_of (fun r => option_list (project_row emit r)).
Proof.
  revert out. induction rs as [|x rs IH]; intros out; cbn [project_process mbind list_bind option_bind]; [intros [= <-]; reflexivity|].
  destruct (project_row emit (record_row x)) as [r|] eqn:E; [|discriminate]. cbn [mbind option_bind]. destruct (project_process emit rs) as [out'|]; [|discriminate]. cbn [mbind option_bind].
  intros [= <-]. rewrite (IH out' eq_refl). set (g := fun r => option_list _).
  assert (D : delta_of g x = [map_record r x]) by (unfold delta_of, g; rewrite E; reflexivity).
  rewrite D. reflexivity.
Qed.

Lemma project_rows_bind emit M : M ≫= (fun r => option_list (project_row emit r)) = project_rows emit M.
Proof. induction M as [|r M IH]; [reflexivity|]. unfold project_rows in *. cbn. rewrite IH. destruct (project_row emit r); reflexivity. Qed.

Lemma select_incremental c M rs M' out : apply_all M rs = Some M' -> filter_process c rs = Some out ->
  exists V', apply_all (select_rows c M) out = Some V' /\ V' ≡ₚ select_rows c M'.
Proof.
  intros E F. rewrite (filter_process_delta c rs out F), <- !select_rows_bind. exact (delta_applies _ M rs M' E).
Qed.

Lemma project_incremental emit M rs M' out : apply_all M rs = Some M' -> project_process emit rs = Some out ->
  exists V', apply_all (project_rows emit M) out = Some V' /\ V' ≡ₚ project_rows emit M'.
Proof.
  intros E F. rewrite (project_process_delta emit rs out F), <- !project_rows_bind. exact (delta_applies _ M rs M' E).
Qed.

(** ** Inner joins *)

Lemma mapM_omap {A B} (f : A -> option B) (l : list A) (k : list B) : mapM f l = Some k -> omap f l = k.
Proof.
  revert k. induction l as [|x l IH]; intros k; cbn; [intros [= <-]; reflexivity|]. destruct (f x); [|discriminate]. cbn.
  destruct (mapM f l) as [k'|]; [|discriminate]. cbn. intros [= <-]. rewrite (IH k' eq_refl). reflexivity.
Qed.

Lemma bind_swap {A B C} (h : A -> B -> list C) (L : list A) (R : list B) : (l ← L; r ← R; h l r) ≡ₚ (r ← R; l ← L; h l r).
Proof.
  induction L as [|l L IH]; cbn [mbind list_bind].
  - induction R as [|r R IHR]; [reflexivity|exact IHR].
  - rewrite IH. clear IH. induction R as [|r R IHR]; [reflexivity|]. cbn [mbind list_bind]. rewrite <- IHR, <- !app_assoc. apply Permutation_app_head.
    rewrite !app_assoc. apply Permutation_app_tail, Permutation_app_comm.
Qed.

Lemma bind_compat {A B} (f g : A -> list B) (l : list A) : (forall x, x ∈ l -> f x ≡ₚ g x) -> l ≫= f ≡ₚ l ≫= g.
Proof.
  induction l as [|x l IH]; intros H; [reflexivity|]. cbn [mbind list_bind]. rewrite (H x) by left. rewrite IH; [reflexivity|].
  intros y Hy. apply H. right. exact Hy.
Qed.

Lemma apply_all_plain M rs M' : apply_all M rs = Some M' -> Forall plain_row M -> Forall (fun x => plain_row (record_row x)) rs -> Forall plain_row M'.
Proof.
  revert M. induction rs as [|[r|r] rs IH]; intros M E HM Hrs; cbn [apply_all] in E; [injection E as <-; exact HM| |];
    inversion Hrs as [|? ? Hr Hrs']; subst.
  - exact (IH (r :: M) E (Forall_cons_2 _ _ _ Hr HM) Hrs').
  - destruct (remove_one r M) as [M1|] eqn:E1; [|discriminate]. cbn in E. apply (IH M1 E); [|exact Hrs'].
    rewrite (remove_one_perm r M M1 E1) in HM. exact (Forall_inv_tail HM).
Qed.

Section Join.
Context (j : JoinOp) (p : nat) (st : MemoryState) (S : list row).

Definition our_key : nat := if (p =? 0)%nat then jo_left_key j else jo_right_key j.
Definition other_key : nat := if (p =? 0)%nat then jo_right_key j else jo_left_key j.

Definition combine_side (x y : row) : option row := if (p =? 0)%nat then combine_rows (jo_emit j) x y else combine_rows (jo_emit j) y x.
Definition match_side (x y : row) : list row := if (p =? 0)%nat then match_rows j x y else match_rows j y x.

(** The rows the operator makes of [x]. *)
Definition joined (x : row) : list row :=
  match x !! our_key with
  | Some a => match state_lookup st [a] with Found others => omap (combine_side x) others | _ => [] end
  | None => []
  end.

Lemma join_record_joined x out b : jo_type j <> LeftJoin -> join_record j p st x = Some (out, b) -> out = delta_of joined x.
Proof.
  intros Ht. unfold join_record, delta_of, joined, our_key. destruct (record_row x !! _) as [a|]; [|discriminate]. cbn [mbind option_bind].
  destruct (state_lookup st [a]) as [others| |].
  - change (fun other => if (p =? 0)%nat then _ else _) with (combine_side (record_row x)).
    destruct (mapM _ others) as [rows|] eqn:E; [|discriminate]. intros [= <- _]. rewrite (mapM_omap _ _ _ E). reflexivity.
  - destruct (jo_type j); [|contradiction|]; intros [= <- _]; reflexivity.
  - destruct (jo_type j); [|contradiction|]; intros [= <- _]; reflexivity.
Qed.

Lemma join_loop_joined rs out : jo_type j <> LeftJoin -> join_loop j p st rs = Some out -> out = rs ≫= delta_of joined.
Proof.
  intros Ht. revert out. induction rs as [|x rs IH]; intros out; cbn [join_loop mbind list_bind option_bind]; [intros [= <-]; reflexivity|].
  destruct (join_record j p st x) as [[o b]|] eqn:E; [|discriminate]. cbn [mbind option_bind].
  destruct (join_loop j p st rs) as [out'|]; [|discriminate]. cbn [mbind option_bind]. intros [= <-].
  rewrite (join_record_joined x o b Ht E), (IH out' eq_refl). reflexivity.
Qed.

Lemma match_side_spec x y a : x !! our_key = Some a ->
  match_side x y = if decide (y !! other_key = Some a) then option_list (combine_side x y) else [].
Proof.
  unfold match_side, match_rows, combine_side, our_key, other_key. destruct (p =? 0)%nat; intros ->.
  - destruct (y !! jo_right_key j) as [b|]; repeat case_decide; try congruence; reflexivity.
  - destruct (y !! jo_left_key j) as [b|]; repeat case_decide; try congruence; reflexivity.
Qed.

Lemma match_side_none x y : x !! our_key = None -> match_side x y = [].
Proof. unfold match_side, match_rows, our_key. destruct (p =? 0)%nat; intros ->; [reflexivity|]. destruct (y !! _); reflexivity. Qed.

Lemma single_key y a : from_row y [other_key] = Some (Single a) <-> y !! other_key = Some a.
Proof. cbn. destruct (y !! other_key); cbn; split; congruence. Qed.

Lemma with_key_match x a : x !! our_key = Some a -> omap (combine_side x) (with_key [other_key] (Single a) S) = S ≫= match_side x.
Proof.
  intros Ha. induction S as [|y T IH]; [reflexivity|]. cbn [mbind list_bind]. rewrite (match_side_spec x y a Ha), <- IH. unfold with_key. rewrite filter_cons.
  destruct (decide (y !! other_key = Some a)) as [E|E].
  - rewrite decide_True by (apply single_key, E). cbn. destruct (combine_side x y); reflexivity.
  - rewrite decide_False by (rewrite single_key; exact E). reflexivity.
Qed.

Lemma joined_matches x : stores st S -> ms_key_columns st = [other_key] -> plain_row x -> joined x ≡ₚ S ≫= match_side x.
Proof.
  intros Hst Hk Hx. unfold joined. destruct (x !! our_key) as [a|] eqn:Ea.
  - assert (Ha : plain_row [a]) by (constructor; [exact (Forall_lookup_1 _ _ _ _ Hx Ea)|constructor]).
    pose proof (stored_lookup st S [a] Hst Ha) as L. rewrite Hk in L. rewrite <- (with_key_match x a Ea). cbn [from_slice] in L.
    destruct (state_lookup st [a]); [|contradiction|rewrite L; reflexivity]. destruct L as [_ L]. rewrite L. reflexivity.
  - assert (G : S ≫= match_side x = []); [|rewrite G; reflexivity].
    clear Hst. induction S as [|y T IH]; [reflexivity|]. cbn. rewrite (match_side_none x y Ea). exact IH.
Qed.

(** The join of the changed side [M] with the stored side. *)
Definition join_result (M : list row) : list row := if (p =? 0)%nat then join_rows j M S else join_rows j S M.

Lemma join_result_joined M : stores st S -> ms_key_columns st = [other_key] -> Forall plain_row M -> join_result M ≡ₚ M ≫= joined.
Proof.
  intros Hst Hk HM. transitivity (M ≫= fun x => S ≫= match_side x).
  - unfold join_result, join_rows, match_side. destruct (p =? 0)%nat; [reflexivity|apply bind_swap].
  - apply bind_compat. intros x Hx. symmetry. apply joined_matches; auto. rewrite Forall_forall in HM. auto.
Qed.

Lemma join_incremental M rs M' out : stores st S -> ms_key_columns st = [other_key] -> jo_type j <> LeftJoin ->
  Forall plain_row M -> Forall (fun x => plain_row (record_row x)) rs ->
  apply_all M rs = Some M' -> join_process j p rs (Some st) = Some out ->
  exists V', apply_all (join_result M) out = Some V' /\ V' ≡ₚ join_result M'.
Proof.
  intros Hst Hk Ht HM Hrs E F. pose proof (apply_all_plain M rs M' E HM Hrs) as HM'. cbn [join_process] in F.
  rewrite (join_loop_joined rs out Ht F). destruct (delta_applies joined M rs M' E) as (V & EV & PV).
  destruct (apply_all_compat _ _ _ (join_result M) (symmetry (join_result_joined M Hst Hk HM)) EV) as (V' & EV' & PV').
  exists V'. split; [exact EV'|]. rewrite <- PV', PV. symmetry. apply join_result_joined; auto.
Qed.

End Join.
