(* ===== verification/EngineAggregate.v ===== *)
(** * Aggregates are incremental (noria-sqlite/src/dataflow/ops.rs)

    The groups an aggregate keeps count and add up the rows of its parent, and the
    records it returns change the rows of the groups accordingly, in whatever order
    the changed groups are visited. *)
From stdpp Require Import strings.
From S2P Require Import Prelude Double Value Strings Noria DataType EngineState EngineOps EngineCorrect.

Local Open Scope Z_scope.

(** ** Sums that wrap *)

Lemma i64_cong x y k : x = y + k * 2 ^ 64 -> i64 x = i64 y.
Proof. intros ->. unfold i64, signed. rewrite Z_mod_plus_full. reflexivity. Qed.

Lemma i64_cong_of x : exists k, i64 x = x + k * 2 ^ 64.
Proof.
  unfold i64, signed. pose proof (Z.div_mod x (2 ^ 64) ltac:(lia)).
  case_match; [exists (- (x / 2 ^ 64))|exists (- (x / 2 ^ 64) - 1)]; lia.
Qed.

Lemma i64_add_l x y : i64 (i64 x + y) = i64 (x + y).
Proof. destruct (i64_cong_of x) as [k E]. apply (i64_cong _ _ k). lia. Qed.

Lemma i64_add_r x y : i64 (x + i64 y) = i64 (x + y).
Proof. rewrite Z.add_comm, i64_add_l, Z.add_comm. reflexivity. Qed.

Lemma i64_add_shift x y z : i64 (x + i64 y + z) = i64 (x + y + z).
Proof. destruct (i64_cong_of y) as [k E]. apply (i64_cong _ _ k). lia. Qed.

(** ** Groups as maps *)

Definition groups_ok (g : Groups) : Prop := NoDup (g.*1) /\ Forall plain_key (g.*1).

Lemma key_eq_refl k : plain_key k -> key_eq k k = true.
Proof. intros Hk. apply (key_eq_plain k k Hk Hk). reflexivity. Qed.

Lemma groups_ok_cons k v g : groups_ok ((k, v) :: g) <-> plain_key k /\ (k ∉ g.*1) /\ groups_ok g.
Proof. unfold groups_ok. cbn. rewrite NoDup_cons, Forall_cons. tauto. Qed.

#[export] Instance groups_ok_proper : Proper (Permutation ==> iff) groups_ok.
Proof. intros g h E. unfold groups_ok. rewrite E. reflexivity. Qed.

Lemma get_group_in k v g : plain_key k -> groups_ok g -> get_group k g = Some v <-> (k, v) ∈ g.
Proof.
  intros Hk. induction g as [|[k' v'] g IH]; intros Hg; cbn [get_group]; [split; [discriminate|intros H; inversion H]|].
  apply groups_ok_cons in Hg as (Hk' & Hnot & Hg). rewrite elem_of_cons. destruct (key_eq k k') eqn:E.
  - apply (key_eq_plain k k' Hk Hk') in E as <-. split; [intros [= ->]; auto|]. intros [[= ->]|H]; [reflexivity|].
    destruct Hnot. apply list_elem_of_fmap. exists (k, v). auto.
  - rewrite (IH Hg). split; [auto|]. intros [[= -> ->]|H]; [|exact H]. rewrite (key_eq_refl k' Hk) in E. discriminate.
Qed.

Lemma get_group_perm k g h : plain_key k -> groups_ok g -> g ≡ₚ h -> get_group k g = get_group k h.
Proof.
  intros Hk Hg P. assert (Hh : groups_ok h) by (rewrite <- P; exact Hg). apply option_eq. intros v.
  rewrite !get_group_in by auto. rewrite P. reflexivity.
Qed.

Lemma get_group_none k g : plain_key k -> groups_ok g -> get_group k g = None <-> k ∉ g.*1.
Proof.
  intros Hk Hg. split.
  - intros E H. apply list_elem_of_fmap in H as ([k' v] & -> & H). apply (get_group_in _ _ _ Hk Hg) in H. cbn in *. congruence.
  - intros N. destruct (get_group k g) as [v|] eqn:E; [|reflexivity]. apply (get_group_in _ _ _ Hk Hg) in E.
    destruct N. apply list_elem_of_fmap. exists (k, v). auto.
Qed.

(** The entry of a key, if any, and the others. *)
Lemma group_split k v g : plain_key k -> groups_ok g ->
  exists rest, (k ∉ rest.*1) /\ groups_ok rest /\ g ≡ₚ option_list (pair k <$> get_group k g) ++ rest /\
    put_group k v g ≡ₚ (k, v) :: rest /\ remove_group k (put_group k v g) ≡ₚ rest.
Proof.
  intros Hk. induction g as [|[k' v'] g IH]; intros Hg.
  - exists []. cbn. rewrite (key_eq_refl k Hk). split_and!; auto. apply not_elem_of_nil.
  - apply groups_ok_cons in Hg as (Hk' & Hnot & Hg). cbn [get_group put_group]. destruct (key_eq k k') eqn:E.
    + pose proof E as E'. apply (key_eq_plain k k' Hk Hk') in E as <-. exists g. cbn. rewrite E'. auto.
    + destruct (IH Hg) as (rest & N & Hr & P1 & P2 & P3). exists ((k', v') :: rest).
      assert (Hn : k <> k') by (intros <-; rewrite (key_eq_refl k Hk) in E; discriminate).
      split_and!.
      * cbn. rewrite not_elem_of_cons. auto.
      * apply groups_ok_cons. split_and!; auto. intros H. apply Hnot. rewrite P1, fmap_app, elem_of_app. auto.
      * rewrite P1 at 1. apply Permutation_middle.
      * rewrite P2. apply perm_swap.
      * cbn [remove_group]. rewrite E, P3. reflexivity.
Qed.

Lemma get_put_group k k' v g : plain_key k -> plain_key k' -> groups_ok g ->
  groups_ok (put_group k v g) /\ get_group k' (put_group k v g) = if decide (k' = k) then Some v else get_group k' g.
Proof.
  intros Hk Hk' Hg. destruct (group_split k v g Hk Hg) as (rest & N & Hr & P1 & P2 & _).
  assert (Hp : groups_ok ((k, v) :: rest)) by (apply groups_ok_cons; auto).
  split; [rewrite P2; exact Hp|]. rewrite (get_group_perm k' _ _ Hk') with (2 := P2) by (rewrite P2; exact Hp).
  rewrite (get_group_perm k' _ _ Hk' Hg P1). cbn [get_group]. case_decide as D.
  - subst k'. rewrite (key_eq_refl k Hk). reflexivity.
  - destruct (key_eq k' k) eqn:E; [apply (key_eq_plain k' k Hk' Hk) in E; contradiction|].
    destruct (get_group k g); cbn; [rewrite E|]; reflexivity.
Qed.

(** ** Weights

    The sum over the rows of a weight, and its change by records. *)
Definition weigh (w : row -> Z) (M : list row) : Z := foldr (fun r s => w r + s) 0 M.

Definition weigh_records (w : row -> Z) (rs : Records) : Z :=
  foldr (fun x s => (if is_positive x then w (record_row x) else - w (record_row x)) + s) 0 rs.

Lemma weigh_cons w r M : weigh w (r :: M) = w r + weigh w M.
Proof. reflexivity. Qed.

#[export] Instance weigh_proper w : Proper (Permutation ==> eq) (weigh w).
Proof. unfold weigh. induction 1; cbn [foldr]; lia. Qed.

Lemma weigh_records_cons w x rs :
  weigh_records w (x :: rs) = (if is_positive x then w (record_row x) else - w (record_row x)) + weigh_records w rs.
Proof. reflexivity. Qed.

Lemma weigh_apply w M rs M' : apply_all M rs = Some M' -> weigh w M' = weigh w M + weigh_records w rs.
Proof.
  revert M. induction rs as [|[r|r] rs IH]; intros M E; cbn [apply_all] in E; [injection E as <-; cbn; lia| |]; rewrite weigh_records_cons; cbn [is_positive record_row].
  - rewrite (IH _ E), weigh_cons. lia.
  - destruct (remove_one r M) as [M1|] eqn:E1; [|discriminate]. cbn in E. rewrite (IH _ E), (remove_one_perm r M M1 E1), weigh_cons. lia.
Qed.

(** ** What the groups say of the rows *)

Section Aggregate.
Context (gb : list nat) (f : AggregateFunc).

Definition count_weight (k : StateKey) (r : row) : Z := if decide (from_row r gb = Some k) then 1 else 0.
Definition sum_weight (k : StateKey) (r : row) : Z := if decide (from_row r gb = Some k) then default 0 (value_of f r) else 0.

Definition group_count (k : StateKey) (M : list row) : Z := weigh (count_weight k) M.
Definition group_sum (k : StateKey) (M : list row) : Z := weigh (sum_weight k) M.

(** The count and the sum, modulo [2 ^ 64], of every group that has rows. *)
Definition group_of (M : list row) (k : StateKey) : option (Z * Z) :=
  if 0 <? group_count k M then Some (group_count k M, i64 (group_sum k M)) else None.

Definition represents (g : Groups) (M : list row) : Prop :=
  groups_ok g /\ forall k, plain_key k -> get_group k g = group_of M k.

(** A record the operator can read. *)
Definition readable (x : Record) : Prop :=
  plain_row (record_row x) /\ is_Some (from_row (record_row x) gb) /\ is_Some (value_of f (record_row x)).


Lemma readable_group x k : readable x -> from_row (record_row x) gb = Some k -> plain_key k.
Proof. intros (Hp & _). exact (from_row_plain _ _ _ Hp). Qed.

(** The changes of the groups add up the records. *)
Lemma group_changes_spec op rs g : ag_group_by op = gb -> ag_func op = f -> Forall readable rs -> groups_ok g ->
  exists g', group_changes op rs g = Some g' /\ groups_ok g' /\
    forall k, plain_key k ->
      (forall c s, default (0, 0) (get_group k g) = (c, s) ->
       i64 c = c -> i64 s = s ->
       default (0, 0) (get_group k g') = (i64 (c + weigh_records (count_weight k) rs), i64 (s + weigh_records (sum_weight k) rs))) /\
      (get_group k g' = None -> get_group k g = None /\ Forall (fun x => from_row (record_row x) gb <> Some k) rs).
Proof.
  intros Egb Ef Hrs. revert g. induction Hrs as [|x rs Hx Hrs IH]; intros g Hg; cbn [group_changes].
  - exists g. split_and!; auto. intros k Hk. split; [|auto]. intros c s E Hc Hs. cbn. rewrite !Z.add_0_r, Hc, Hs. exact E.
  - pose proof Hx as (Hp & [kx Ek] & [v Ev]). rewrite Egb, Ef, Ek, Ev. cbn [mbind option_bind].
    pose proof (readable_group x kx Hx Ek) as Hkx. destruct (default (0, 0) (get_group kx g)) as [cx sx] eqn:Ex.
    set (w := (_, _)). destruct (get_put_group kx kx w g Hkx Hkx Hg) as [Hg1 _]. destruct (IH _ Hg1) as (g' & E & Hg' & S). exists g'.
    split_and!; auto. intros k Hk. destruct (S k Hk) as [S1 S2]. destruct (get_put_group kx k w g Hkx Hk Hg) as [_ G]. rewrite G in S1, S2. clear S IH G.
    rewrite !weigh_records_cons. unfold count_weight at 1 2, sum_weight at 1 2. rewrite Ek, Ev. change (default 0 (Some v)) with v. destruct (decide (k = kx)) as [->|N].
    + rewrite !decide_True by reflexivity. split; [|intros Ng; apply S2 in Ng as [Ng _]; discriminate]. intros c s Ec _ _. rewrite Ex in Ec. injection Ec as -> ->.
      rewrite (S1 _ _ eq_refl) by (apply i64_id, i64_range). rewrite !i64_add_l, i64_add_shift. f_equal; f_equal; destruct (is_positive x); lia.
    + rewrite !decide_False by congruence. split.
      * intros c s Ec Hc Hs. rewrite (S1 c s Ec Hc Hs). f_equal; f_equal; destruct (is_positive x); lia.
      * intros Ng. destruct (S2 Ng) as [A B]. split; [exact A|]. constructor; [congruence|exact B].
Qed.

(** ** The rows of the groups *)

Definition groups_view (g : Groups) : list row := (fun e => group_row f e.1 e.2.1 e.2.2) <$> g.

Definition groups_pos (g : Groups) : Prop := Forall (fun e => 0 < e.2.1) g.

(** A group after a change. *)
Definition changed (old : option (Z * Z)) (change : Z * Z) : option (Z * Z) :=
  let '(c, s) := default (0, 0) old in
  if 0 <? i64 (c + change.1) then Some (i64 (c + change.1), i64 (s + change.2)) else None.

Lemma apply_all_perm_start V W out W' : V ≡ₚ W -> apply_all W out = Some W' -> exists V', apply_all V out = Some V' /\ V' ≡ₚ W'.
Proof. intros P E. destruct (apply_all_compat out W W' V (symmetry P) E) as (V' & EV & PV). exists V'. split; [exact EV|symmetry; exact PV]. Qed.

Lemma group_step_spec k ch g g1 out : plain_key k -> groups_ok g -> groups_pos g -> group_step f k ch g = (g1, out) ->
  (exists rest, (k ∉ rest.*1) /\ g ≡ₚ option_list (pair k <$> get_group k g) ++ rest /\ g1 ≡ₚ option_list (pair k <$> changed (get_group k g) ch) ++ rest) /\
  groups_ok g1 /\ groups_pos g1 /\
  out = (Negative <$> groups_view (option_list (pair k <$> get_group k g))) ++ (Positive <$> groups_view (option_list (pair k <$> changed (get_group k g) ch))).
Proof.
  intros Hk Hg Hpos. unfold group_step, changed. destruct (default (0, 0) (get_group k g)) as [c s] eqn:Ed. set (nc := i64 (c + ch.1)). set (ns := i64 (s + ch.2)).
  destruct (group_split k (nc, ns) g Hk Hg) as (rest & N & Hr & P1 & P2 & P3). intros [= <- <-].
  assert (Hpr : groups_pos rest) by (unfold groups_pos in *; rewrite P1, Forall_app in Hpos; tauto).
  assert (Eold : (if 0 <? c then [Negative (group_row f k c s)] else []) = Negative <$> groups_view (option_list (pair k <$> get_group k g))).
  { destruct (get_group k g) as [[c0 s0]|] eqn:E; cbn in Ed; injection Ed as <- <-; [|reflexivity].
    unfold groups_pos in Hpos. rewrite Forall_forall in Hpos. apply (get_group_in _ _ _ Hk Hg) in E. specialize (Hpos _ E). cbn in Hpos.
    rewrite (proj2 (Z.ltb_lt _ _) Hpos). reflexivity. }
  rewrite Eold. destruct (Z.ltb_spec 0 nc) as [L|L].
  - rewrite (proj2 (Z.leb_gt _ _) L). cbn [fmap option_fmap option_map option_list]. split_and!; [exists rest; auto| | |reflexivity].
    + rewrite P2. apply groups_ok_cons. auto.
    + unfold groups_pos. rewrite P2. constructor; [exact L|exact Hpr].
  - rewrite (proj2 (Z.leb_le _ _) L). cbn [fmap option_fmap option_map option_list]. split_and!; [exists rest; auto|rewrite P3; exact Hr| |reflexivity].
    unfold groups_pos. rewrite P3. exact Hpr.
Qed.

Lemma group_step_get k k' ch g g1 out : plain_key k -> plain_key k' -> groups_ok g -> groups_pos g -> group_step f k ch g = (g1, out) ->
  get_group k' g1 = if decide (k' = k) then changed (get_group k g) ch else get_group k' g.
Proof.
  intros Hk Hk' Hg Hpos E. destruct (group_step_spec k ch g g1 out Hk Hg Hpos E) as ((rest & N & P & P1) & Hg1 & _).
  assert (Ok : forall o : option (Z * Z), groups_ok (option_list (pair k <$> o) ++ rest) -> get_group k' (option_list (pair k <$> o) ++ rest) = if decide (k' = k) then o else get_group k' rest).
  { intros [v|] Ho.
    - change (option_list (pair k <$> Some v) ++ rest) with ((k, v) :: rest). cbn [get_group]. destruct (key_eq k' k) eqn:Ek; [apply (key_eq_plain k' k Hk' Hk) in Ek; rewrite decide_True by exact Ek; reflexivity|].
      rewrite decide_False; [reflexivity|]. intros ->. rewrite (key_eq_refl k Hk) in Ek. discriminate.
    - change (option_list (pair k <$> None) ++ rest) with rest in *. case_decide as D; [|reflexivity]. subst. apply get_group_none; auto. }
  rewrite (get_group_perm k' _ _ Hk' Hg1 P1), Ok by (rewrite <- P1; exact Hg1). case_decide as D; [reflexivity|].
  rewrite (get_group_perm k' _ _ Hk' Hg P), (Ok (get_group k g)) by (rewrite <- P; exact Hg). destruct (decide (k' = k)); [contradiction|reflexivity].
Qed.

Lemma group_step_view k ch g g1 out V : plain_key k -> groups_ok g -> groups_pos g -> group_step f k ch g = (g1, out) -> V ≡ₚ groups_view g ->
  exists V', apply_all V out = Some V' /\ V' ≡ₚ groups_view g1.
Proof.
  intros Hk Hg Hpos E PV. destruct (group_step_spec k ch g g1 out Hk Hg Hpos E) as ((rest & N & P & P1) & _ & _ & ->).
  rewrite apply_all_app. destruct (apply_negatives (groups_view (option_list (pair k <$> get_group k g))) V (groups_view rest)) as (V1 & -> & PV1).
  { rewrite PV. unfold groups_view. rewrite P at 1. rewrite fmap_app. reflexivity. }
  cbn [mbind option_bind]. destruct (apply_positives (groups_view (option_list (pair k <$> changed (get_group k g) ch))) V1) as (V2 & E2 & PV2).
  exists V2. split; [exact E2|]. rewrite PV2, PV1. unfold groups_view. rewrite P1, fmap_app. reflexivity.
Qed.

Lemma group_results_spec changes g g' out V : groups_ok changes -> groups_ok g -> groups_pos g -> group_results f changes g = (g', out) -> V ≡ₚ groups_view g ->
  groups_ok g' /\ groups_pos g' /\
  (forall k, plain_key k -> get_group k g' = match get_group k changes with Some ch => changed (get_group k g) ch | None => get_group k g end) /\
  exists V', apply_all V out = Some V' /\ V' ≡ₚ groups_view g'.
Proof.
  revert g out V. induction changes as [|[k ch] changes IH]; intros g out V Hc Hg Hpos; cbn [group_results].
  - intros [= <- <-] PV. split_and!; eauto.
  - apply groups_ok_cons in Hc as (Hk & Hnot & Hc). destruct (group_step f k ch g) as [g1 o1] eqn:E1. destruct (group_results f changes g1) as [g2 o2] eqn:E2.
    intros [= <- <-] PV. destruct (group_step_spec k ch g g1 o1 Hk Hg Hpos E1) as (_ & Hg1 & Hpos1 & _).
    destruct (group_step_view k ch g g1 o1 V Hk Hg Hpos E1 PV) as (V1 & EV1 & PV1).
    destruct (IH g1 o2 V1 Hc Hg1 Hpos1 E2 PV1) as (Hg2 & Hpos2 & G2 & V2 & EV2 & PV2). split_and!; auto.
    + intros k' Hk'. rewrite (G2 k' Hk'), (group_step_get k k' ch g g1 o1 Hk Hk' Hg Hpos E1). cbn [get_group].
      destruct (decide (k' = k)) as [->|N].
      * rewrite (key_eq_refl k Hk), (proj2 (get_group_none k changes Hk Hc) Hnot). reflexivity.
      * destruct (key_eq k' k) eqn:Ek; [apply (key_eq_plain k' k Hk' Hk) in Ek; contradiction|reflexivity].
    + exists V2. split; [|exact PV2]. rewrite apply_all_app, EV1. exact EV2.
Qed.

(** ** Counts *)

Lemma group_count_bounds k M : 0 <= group_count k M <= Zlen M.
Proof.
  unfold group_count. induction M as [|r M IH]; [unfold weigh, Zlen; cbn; lia|]. rewrite weigh_cons, Zlen_cons.
  assert (0 <= count_weight k r <= 1) by (unfold count_weight; case_decide; lia). lia.
Qed.

Lemma group_sum_empty k M : group_count k M = 0 -> group_sum k M = 0.
Proof.
  unfold group_sum. induction M as [|r M IH]; [reflexivity|]. intros E. pose proof (group_count_bounds k M) as B. unfold group_count in *.
  rewrite weigh_cons in *. unfold count_weight at 1 in E. unfold sum_weight at 1. case_decide; [lia|]. rewrite IH; lia.
Qed.

Lemma weigh_records_other (w : row -> Z) k rs : (forall r, from_row r gb <> Some k -> w r = 0) ->
  Forall (fun x => from_row (record_row x) gb <> Some k) rs -> weigh_records w rs = 0.
Proof.
  intros Hw. induction 1 as [|x rs Hx _ IH]; [reflexivity|]. rewrite weigh_records_cons, IH, (Hw _ Hx). destruct (is_positive x); lia.
Qed.

Lemma group_of_default M k : default (0, 0) (group_of M k) = (group_count k M, i64 (group_sum k M)).
Proof.
  unfold group_of. pose proof (group_count_bounds k M). destruct (Z.ltb_spec 0 (group_count k M)); [reflexivity|].
  assert (E : group_count k M = 0) by lia. rewrite E, (group_sum_empty k M E). reflexivity.
Qed.

Lemma changed_group M rs M' k : apply_all M rs = Some M' -> Zlen M' < 2 ^ 63 ->
  changed (group_of M k) (i64 (weigh_records (count_weight k) rs), i64 (weigh_records (sum_weight k) rs)) = group_of M' k.
Proof.
  intros E B. unfold changed. rewrite group_of_default. cbn [fst snd]. rewrite !i64_add_r, i64_add_l.
  unfold group_count, group_sum. rewrite <- !(weigh_apply _ M rs M' E). fold (group_count k M') (group_sum k M').
  pose proof (group_count_bounds k M'). rewrite (i64_id (group_count k M')) by (unfold is_i64; lia). reflexivity.
Qed.

Lemma represents_pos g M : represents g M -> groups_pos g.
Proof.
  intros [Hg R]. unfold groups_pos. apply Forall_forall. intros [k [c s]] Hin. cbn.
  assert (Hk : plain_key k). { destruct Hg as [_ Hp]. rewrite Forall_forall in Hp. apply Hp. apply list_elem_of_fmap. exists (k, (c, s)). auto. }
  pose proof (proj2 (get_group_in _ _ _ Hk Hg) Hin) as E. rewrite (R k Hk) in E. unfold group_of in E.
  destruct (Z.ltb_spec 0 (group_count k M)); [|discriminate]. injection E as <- _. lia.
Qed.

(** The operator keeps its groups, and its output changes their rows. *)
Lemma aggregate_spec order op rs M M' V :
  ag_group_by op = gb -> ag_func op = f -> (forall g, order g ≡ₚ g) ->
  represents (ag_internal op) M -> Forall readable rs -> apply_all M rs = Some M' -> Zlen M' < 2 ^ 63 -> V ≡ₚ groups_view (ag_internal op) ->
  exists op' out V', aggregate_process order op rs = Some (op', out) /\ ag_group_by op' = gb /\ ag_func op' = f /\
    represents (ag_internal op') M' /\ apply_all V out = Some V' /\ V' ≡ₚ groups_view (ag_internal op').
Proof.
  intros Egb Ef Hord HR Hrs E B PV. pose proof (represents_pos _ _ HR) as Hpos. destruct HR as [Hg R].
  destruct (group_changes_spec op rs [] Egb Ef Hrs) as (ch & Ech & Hch & S); [split; constructor|].
  unfold aggregate_process. rewrite Ech. cbn [mbind option_bind]. rewrite Ef. destruct (group_results f (order ch) (ag_internal op)) as [g' out] eqn:Er.
  assert (Hoch : groups_ok (order ch)) by (rewrite Hord; exact Hch).
  destruct (group_results_spec _ _ _ _ V Hoch Hg Hpos Er PV) as (Hg' & Hpos' & G & V' & EV & PV'). eexists _, _, V'. cbn. split_and!; eauto.
  split; [exact Hg'|]. intros k Hk. change (get_group k g' = group_of M' k). rewrite (G k Hk), (get_group_perm k _ _ Hk Hoch (Hord ch)), (R k Hk). destruct (S k Hk) as [S1 S2].
  destruct (get_group k ch) as [v|].
  - specialize (S1 0 0 eq_refl eq_refl eq_refl). cbn [default] in S1. unfold id in S1. rewrite !Z.add_0_l in S1. subst v. exact (changed_group M rs M' k E B).
  - destruct (S2 eq_refl) as [_ No]. unfold group_of, group_count, group_sum. rewrite !(weigh_apply _ M rs M' E).
    rewrite !(weigh_records_other _ k rs), !Z.add_0_r; [reflexivity|..]; try exact No; intros r Hr; [unfold sum_weight|unfold count_weight]; rewrite decide_False by exact Hr; reflexivity.
Qed.

(** ** The query: one row for every group key among the rows *)

Definition aggregate_rows (M : list row) : list row :=
  (fun k => group_row f k (group_count k M) (i64 (group_sum k M))) <$> remove_dups (omap (fun r => from_row r gb) M).

Lemma group_count_pos k M : 0 < group_count k M <-> k ∈ omap (fun r => from_row r gb) M.
Proof.
  unfold group_count. induction M as [|r M IH]; [split; [cbn; lia|intros H; inversion H]|]. rewrite weigh_cons. cbn.
  pose proof (group_count_bounds k M) as B. unfold group_count in B. unfold count_weight at 1. case_decide as D.
  - rewrite D. split; [left|lia].
  - rewrite Z.add_0_l, IH. destruct (from_row r gb) as [k'|]; [|reflexivity]. rewrite elem_of_cons. split; [auto|]. intros [->|H]; [contradiction|exact H].
Qed.

Lemma represents_view g M : Forall plain_row M -> represents g M -> groups_view g ≡ₚ aggregate_rows M.
Proof.
  intros HM [Hg R]. assert (Hplain : forall k, k ∈ omap (fun r => from_row r gb) M -> plain_key k).
  { intros k Hk. apply list_elem_of_omap in Hk as (r & Hr & E). apply (from_row_plain r gb); [|exact E]. rewrite Forall_forall in HM. auto. }
  assert (Hgk : forall k, k ∈ g.*1 -> plain_key k) by (destruct Hg as [_ Hp]; rewrite Forall_forall in Hp; exact Hp).
  transitivity ((fun k => group_row f k (group_count k M) (i64 (group_sum k M))) <$> g.*1).
  - unfold groups_view. rewrite <- list_fmap_compose. apply Permutation_refl', list_fmap_ext. intros i [k [c s]] Hin. cbn.
    apply list_elem_of_lookup_2 in Hin. assert (Hk : plain_key k) by (apply Hgk, list_elem_of_fmap; exists (k, (c, s)); auto).
    apply (get_group_in _ _ _ Hk Hg) in Hin. pose proof (group_of_default M k) as D. rewrite <- (R k Hk), Hin in D. cbn in D. injection D as -> ->. reflexivity.
  - unfold aggregate_rows. apply fmap_Permutation, NoDup_Permutation; [exact (proj1 Hg)|apply NoDup_remove_dups|]. intros k. rewrite elem_of_remove_dups, <- group_count_pos. split.
    + intros Hk. pose proof (Hgk k Hk) as Hp. destruct (Z.ltb_spec 0 (group_count k M)) as [L|L]; [exact L|].
      destruct (proj1 (get_group_none k g Hp Hg)); [|exact Hk]. rewrite (R k Hp). unfold group_of. rewrite (proj2 (Z.ltb_ge _ _) L). reflexivity.
    + intros L. assert (Hp : plain_key k) by (apply Hplain, group_count_pos, L). destruct (decide (k ∈ g.*1)) as [H|N]; [exact H|].
      apply (get_group_none k g Hp Hg) in N. rewrite (R k Hp) in N. unfold group_of in N. rewrite (proj2 (Z.ltb_lt _ _) L) in N. discriminate.
Qed.

Lemma represents_nil : represents [] [].
Proof. split; [split; constructor|]. intros k _. reflexivity. Qed.

End Aggregate.
