(* ===== verification/EngineNode.v ===== *)
(** * Columns and edges of the dataflow graph (noria-sqlite/src/dataflow/ops.rs, executor.rs)

    Every node has a number of columns.  An operator whose columns are there never
    indexes past the end of a row, and its rows have its number of columns.  What a node
    should hold is a query over its parents; the output of a child for the change of a
    parent is the change of the child's query. *)
From stdpp Require Import strings.
From S2P Require Import Prelude Double Value Strings Noria DataType EngineState EngineOps Executor EngineGraph EngineCorrect EngineAggregate.

Local Open Scope Z_scope.

Definition row_ok (w : nat) (r : row) : Prop := length r = w /\ plain_row r.
Definition records_ok (w : nat) (rs : Records) : Prop := Forall (fun x => row_ok w (record_row x)) rs.

Lemma row_lookup w r c : row_ok w r -> (c < w)%nat -> exists d, r !! c = Some d /\ plain d.
Proof.
  intros [L P] H. destruct (lookup_lt_is_Some_2 r c) as [d E]; [lia|]. exists d. split; [exact E|]. exact (Forall_lookup_1 _ _ _ _ P E).
Qed.

(** ** Conditions *)

Fixpoint cond_ok (w : nat) (c : FilterCondition) : Prop :=
  match c with
  | FEq col _ | FNe col _ | FGt col _ | FLt col _ | FIsNull col | FIsNotNull col => (col < w)%nat
  | FAnd cs | FOr cs => (fix all (cs : list FilterCondition) : Prop := match cs with [] => True | c :: cs => cond_ok w c /\ all cs end) cs
  | FAlwaysTrue => True
  end.

Lemma evaluate_total w c : forall r, row_ok w r -> cond_ok w c -> is_Some (evaluate c r).
Proof.
  revert c. fix IH 1. intros c r Hr. destruct c as [col v|col v|col v|col v|col|col|cs|cs|]; cbn [cond_ok evaluate]; intros Hc.
  1-6: destruct (row_lookup w r col Hr Hc) as (d & -> & _); cbn; eauto.
  - induction cs as [|c cs IHcs]; [eauto|]. destruct Hc as [H1 H2]. destruct (IH c r Hr H1) as [b ->]. cbn [mbind option_bind]. destruct b; [exact (IHcs H2)|eauto].
  - induction cs as [|c cs IHcs]; [eauto|]. destruct Hc as [H1 H2]. destruct (IH c r Hr H1) as [b ->]. cbn [mbind option_bind]. destruct b; [eauto|exact (IHcs H2)].
  - eauto.
Qed.

Lemma filter_process_ok w c rs : cond_ok w c -> records_ok w rs -> exists out, filter_process c rs = Some out /\ records_ok w out.
Proof.
  intros Hc. induction 1 as [|x rs Hx _ (out & E & Ho)]; cbn [filter_process]; [exists []; split; [reflexivity|constructor]|].
  destruct (evaluate_total w c (record_row x) Hx Hc) as [b ->]. cbn [mbind option_bind]. rewrite E. cbn [mbind option_bind]. eexists. split; [reflexivity|]. destruct b; [constructor|]; auto.
Qed.

(** ** Rows made of columns of other rows *)

Lemma mapM_columns {A} (g : A -> option DataType) l : (forall x, x ∈ l -> exists d, g x = Some d /\ plain d) ->
  exists r, mapM g l = Some r /\ row_ok (length l) r.
Proof.
  induction l as [|x l IH]; intros H; cbn [mapM]; [exists []; split; [reflexivity|split; [reflexivity|constructor]]|].
  destruct (H x (list_elem_of_here _ _)) as (d & E & P). destruct IH as (r & Er & L & Pr); [intros y Hy; apply H; right; exact Hy|].
  unfold mapM in Er |- *. cbn. rewrite E. cbn. rewrite Er. cbn. exists (d :: r). split; [reflexivity|]. split; [cbn; lia|constructor; auto].
Qed.

Definition columns_ok (w : nat) (cols : list nat) : Prop := Forall (fun c => (c < w)%nat) cols.

Lemma project_row_ok w emit r : columns_ok w emit -> row_ok w r -> exists r', project_row emit r = Some r' /\ row_ok (length emit) r'.
Proof. intros He Hr. apply mapM_columns. intros c Hc. apply (row_lookup w); [exact Hr|]. unfold columns_ok in He. rewrite Forall_forall in He. auto. Qed.

Lemma record_row_map r x : record_row (map_record r x) = r.
Proof. destruct x; reflexivity. Qed.

Lemma project_process_ok w emit rs : columns_ok w emit -> records_ok w rs -> exists out, project_process emit rs = Some out /\ records_ok (length emit) out.
Proof.
  intros He. induction 1 as [|x rs Hx _ (out & E & Ho)]; cbn [project_process]; [exists []; split; [reflexivity|constructor]|].
  destruct (project_row_ok w emit _ He Hx) as (r' & -> & Hr'). cbn [mbind option_bind]. rewrite E. cbn [mbind option_bind]. eexists. split; [reflexivity|].
  constructor; [rewrite record_row_map|]; auto.
Qed.

(** ** Joins *)

Definition emit_ok (wl wr : nat) (emit : list (bool * nat)) : Prop := Forall (fun p : bool * nat => (p.2 < if p.1 then wl else wr)%nat) emit.

Definition join_ok (wl wr : nat) (j : JoinOp) : Prop := (jo_left_key j < wl)%nat /\ (jo_right_key j < wr)%nat /\ emit_ok wl wr (jo_emit j).

Lemma combine_rows_ok wl wr emit l r : emit_ok wl wr emit -> row_ok wl l -> row_ok wr r -> exists x, combine_rows emit l r = Some x /\ row_ok (length emit) x.
Proof.
  intros He Hl Hr. apply mapM_columns. intros [b c] Hc. unfold emit_ok in He. rewrite Forall_forall in He. specialize (He _ Hc). cbn in *.
  destruct b; eapply row_lookup; eauto.
Qed.

Lemma mapM_rows (g : row -> option row) w l : (forall x, x ∈ l -> exists r, g x = Some r /\ row_ok w r) -> exists rows, mapM g l = Some rows /\ Forall (row_ok w) rows.
Proof.
  induction l as [|x l IH]; intros H; [exists []; split; [reflexivity|constructor]|].
  destruct (H x (list_elem_of_here _ _)) as (d & E & P). destruct IH as (r & Er & Pr); [intros y Hy; apply H; right; exact Hy|].
  unfold mapM in Er |- *. cbn. rewrite E. cbn. rewrite Er. cbn. exists (d :: r). split; [reflexivity|]. constructor; auto.
Qed.

Lemma join_record_ok wl wr j p st S x : join_ok wl wr j -> jo_type j = Inner -> stores st S -> ms_key_columns st = [other_key j p] ->
  Forall (row_ok (if (p =? 0)%nat then wr else wl)) S -> row_ok (if (p =? 0)%nat then wl else wr) (record_row x) ->
  exists out b, join_record j p st x = Some (out, b) /\ records_ok (length (jo_emit j)) out.
Proof.
  intros (Hlk & Hrk & He) Ht Hst Hk HS Hx. unfold join_record.
  assert (K : exists a, record_row x !! (if (p =? 0)%nat then jo_left_key j else jo_right_key j) = Some a /\ plain a) by (apply (row_lookup _ _ _ Hx); destruct (p =? 0)%nat; auto).
  destruct K as (a & -> & Ha). cbn [mbind option_bind]. pose proof (stored_lookup st S [a] Hst (Forall_cons_2 _ _ _ Ha (Forall_nil_2 _))) as L.
  rewrite Ht. destruct (state_lookup st [a]) as [others| |]; [|contradiction|eexists _, _; split; [reflexivity|constructor]].
  destruct L as [_ P]. assert (Ho : forall o, o ∈ others -> row_ok (if (p =? 0)%nat then wr else wl) o).
  { intros o Ho. rewrite P in Ho. apply list_elem_of_filter in Ho as [_ Ho]. rewrite Forall_forall in HS. auto. }
  destruct (mapM_rows (fun other => if (p =? 0)%nat then combine_rows (jo_emit j) (record_row x) other else combine_rows (jo_emit j) other (record_row x)) (length (jo_emit j)) others) as (rows & -> & Hrows).
  { intros o Hin. specialize (Ho o Hin). destruct (p =? 0)%nat; eapply combine_rows_ok; eauto. }
  cbn [mbind option_bind]. eexists _, _. split; [reflexivity|]. unfold records_ok. apply Forall_fmap. eapply Forall_impl; [exact Hrows|]. intros r Hr. cbn. rewrite record_row_map. exact Hr.
Qed.

Lemma join_process_ok wl wr j p st S rs : join_ok wl wr j -> jo_type j = Inner -> stores st S -> ms_key_columns st = [other_key j p] ->
  Forall (row_ok (if (p =? 0)%nat then wr else wl)) S -> records_ok (if (p =? 0)%nat then wl else wr) rs ->
  exists out, join_process j p rs (Some st) = Some out /\ records_ok (length (jo_emit j)) out.
Proof.
  intros Hj Ht Hst Hk HS. cbn [join_process]. induction 1 as [|x rs Hx _ (out & E & Ho)]; cbn [join_loop]; [exists []; split; [reflexivity|constructor]|].
  destruct (join_record_ok wl wr j p st S x Hj Ht Hst Hk HS Hx) as (o & b & -> & Ho'). cbn [mbind option_bind]. rewrite E. cbn [mbind option_bind].
  eexists. split; [reflexivity|]. apply Forall_app. auto.
Qed.

(** ** Aggregates *)

Definition func_ok (w : nat) (f : AggregateFunc) : Prop :=
  match f with Sum col | Avg col => (col < w)%nat | _ => True end.

Lemma from_row_ok w cols r : columns_ok w cols -> row_ok w r ->
  exists k, from_row r cols = Some k /\ row_ok (length cols) (group_values k).
Proof.
  intros Hc Hr. unfold columns_ok in Hc. unfold from_row. destruct cols as [|c [|c' cols]].
  - exists (Multi []). split; [reflexivity|]. split; [reflexivity|constructor].
  - destruct (row_lookup w r c Hr (Forall_inv Hc)) as (d & -> & Hd). exists (Single d). split; [reflexivity|]. split; [reflexivity|]. constructor; [exact Hd|constructor].
  - destruct (project_row_ok w (c :: c' :: cols) r Hc Hr) as (ds & E & Hds). unfold project_row in E. rewrite E. exists (Multi ds). split; [reflexivity|exact Hds].
Qed.

Lemma readable_ok w gb f rs : columns_ok w gb -> func_ok w f -> records_ok w rs -> Forall (readable gb f) rs.
Proof.
  intros Hgb Hf Hrs. eapply Forall_impl; [exact Hrs|]. intros x Hx. split; [exact (proj2 Hx)|]. destruct (from_row_ok w gb _ Hgb Hx) as (k & -> & _). split; [eauto|].
  destruct f as [|col|col|col|col]; cbn in *; eauto; destruct (row_lookup w _ col Hx Hf) as (d & -> & _); cbn; eauto.
Qed.

Lemma put_group_keys k v g k' : k' ∈ (put_group k v g).*1 -> k' = k \/ k' ∈ g.*1.
Proof.
  induction g as [|[k0 v0] g IH]; cbn; [rewrite list_elem_of_singleton; auto|]. destruct (key_eq k k0); cbn; [auto|].
  rewrite !elem_of_cons. intros [->|Hin]; [auto|]. destruct (IH Hin); auto.
Qed.

Lemma group_changes_keys op rs g g' k : group_changes op rs g = Some g' -> k ∈ g'.*1 ->
  k ∈ g.*1 \/ exists x, x ∈ rs /\ from_row (record_row x) (ag_group_by op) = Some k.
Proof.
  revert g. induction rs as [|x rs IH]; intros g; cbn [group_changes]; [intros [= ->]; auto|].
  destruct (from_row (record_row x) _) as [kx|] eqn:Ek; [|discriminate]. destruct (value_of _ _) as [v|]; [|discriminate]. cbn [mbind option_bind].
  destruct (default _ _) as [c s]. intros E Hk. destruct (IH _ E Hk) as [H|(y & Hy & Ey)].
  - apply put_group_keys in H as [->|H]; [|auto]. right. exists x. split; [left|exact Ek].
  - right. exists y. split; [right; exact Hy|exact Ey].
Qed.

Lemma group_results_rows f changes g g' out : group_results f changes g = (g', out) ->
  Forall (fun x => exists k c s, k ∈ changes.*1 /\ record_row x = group_row f k c s) out.
Proof.
  revert g out. induction changes as [|[k ch] changes IH]; intros g out; cbn [group_results]; [intros [= _ <-]; constructor|].
  destruct (group_step f k ch g) as [g1 o1] eqn:E1. destruct (group_results f changes g1) as [g2 o2] eqn:E2. intros [= -> <-]. apply Forall_app. split.
  - unfold group_step in E1. destruct (default _ _) as [c s]. injection E1 as _ <-. apply Forall_app.
    split; case_match; constructor; try constructor; eexists _, _, _; (split; [left|reflexivity]).
  - eapply Forall_impl; [exact (IH _ _ E2)|]. intros x (k' & c & s & Hk & E). exists k', c, s. split; [right; exact Hk|exact E].
Qed.

Lemma aggregate_process_ok order w op rs op' out : (forall g, order g ≡ₚ g) -> columns_ok w (ag_group_by op) -> records_ok w rs ->
  aggregate_process order op rs = Some (op', out) -> records_ok (S (length (ag_group_by op))) out.
Proof.
  intros Hord Hgb Hrs. unfold aggregate_process. destruct (group_changes op rs []) as [ch|] eqn:E; [|discriminate]. cbn [mbind option_bind].
  destruct (group_results _ _ _) as [g' o] eqn:Er. intros [= _ <-]. unfold records_ok. eapply Forall_impl; [exact (group_results_rows _ _ _ _ _ Er)|].
  intros x (k & c & s & Hk & ->). rewrite Hord in Hk. destruct (group_changes_keys op rs [] ch k E Hk) as [H|(y & Hy & Ey)]; [inversion H|].
  unfold records_ok in Hrs. rewrite Forall_forall in Hrs. destruct (from_row_ok w _ _ Hgb (Hrs y Hy)) as (k' & Ek & L & P). rewrite Ey in Ek. injection Ek as <-.
  unfold group_row. split; [rewrite length_app; cbn; lia|]. apply Forall_app. split; [exact P|]. constructor; [exact I|constructor].
Qed.

(** ** Queries respect permutations *)

#[export] Instance select_rows_proper c : Proper (Permutation ==> Permutation) (select_rows c).
Proof. intros M N E. unfold select_rows. rewrite E. reflexivity. Qed.

#[export] Instance project_rows_proper emit : Proper (Permutation ==> Permutation) (project_rows emit).
Proof. intros M N E. unfold project_rows. rewrite E. reflexivity. Qed.

#[export] Instance join_rows_proper j : Proper (Permutation ==> Permutation ==> Permutation) (join_rows j).
Proof.
  intros L L' EL R R' ER. unfold join_rows. rewrite EL. apply bind_compat. intros l _. rewrite ER. reflexivity.
Qed.

Lemma group_count_perm gb k M N : M ≡ₚ N -> group_count gb k M = group_count gb k N.
Proof. intros E. unfold group_count. rewrite E. reflexivity. Qed.

Lemma group_sum_perm gb f k M N : M ≡ₚ N -> group_sum gb f k M = group_sum gb f k N.
Proof. intros E. unfold group_sum. rewrite E. reflexivity. Qed.

#[export] Instance aggregate_rows_proper gb f : Proper (Permutation ==> Permutation) (aggregate_rows gb f).
Proof.
  intros M N E. unfold aggregate_rows. transitivity ((fun k => group_row f k (group_count gb k N) (i64 (group_sum gb f k N))) <$> remove_dups (omap (fun r => from_row r gb) M)).
  - apply Permutation_refl', list_fmap_ext. intros i k _. rewrite (group_count_perm gb k M N E), (group_sum_perm gb f k M N E). reflexivity.
  - apply fmap_Permutation, NoDup_Permutation; [apply NoDup_remove_dups..|]. intros k. rewrite !elem_of_remove_dups, E. reflexivity.
Qed.

Lemma represents_perm gb f g M N : M ≡ₚ N -> represents gb f g M -> represents gb f g N.
Proof.
  intros E [Hg R]. split; [exact Hg|]. intros k Hk. rewrite (R k Hk). unfold group_of. rewrite (group_count_perm gb k M N E), (group_sum_perm gb f k M N E). reflexivity.
Qed.

(** ** What a node holds *)

(** The query of a node over the rows [D] of the others; base tables have none. *)
Definition node_query (n : Node) (D : nat -> list row) : option (list row) :=
  match nd_operator n, nd_parents n with
  | Some (OFilter c), [p] => Some (select_rows c (D p))
  | Some (OProject emit), [p] => Some (project_rows emit (D p))
  | Some (OAggregate a), [p] => Some (aggregate_rows (ag_group_by a) (ag_func a) (D p))
  | Some OIdentity, [p] => Some (D p)
  | Some (OJoin j), [l; r] => Some (join_rows j (D l) (D r))
  | _, _ => None
  end.

(** The columns an operator reads are there, [W] giving the number of columns of
    every node. *)
Definition operator_typed (W : nat -> nat) (i : nat) (n : Node) : Prop :=
  match nd_operator n, nd_parents n with
  | None, [] => True
  | Some (OFilter c), [p] => cond_ok (W p) c /\ W i = W p
  | Some (OProject emit), [p] => columns_ok (W p) emit /\ W i = length emit
  | Some (OAggregate a), [p] => columns_ok (W p) (ag_group_by a) /\ func_ok (W p) (ag_func a) /\ W i = S (length (ag_group_by a))
  | Some OIdentity, [p] => W i = W p
  | Some (OJoin j), [l; r] => join_ok (W l) (W r) j /\ W i = length (jo_emit j)
  | _, _ => False
  end.

Definition state_typed (w : nat) (n : Node) : Prop := forall st, nd_state n = Some st -> columns_ok w (ms_key_columns st).

Definition key_columns_of (nodes : list Node) (i : nat) : option (list nat) := n ← nodes !! i; ms_key_columns <$> nd_state n.

(** A join is an inner join of two nodes materialized on its keys. *)
Definition join_ready (nodes : list Node) (n : Node) : Prop :=
  match nd_operator n, nd_parents n with
  | Some (OJoin j), [l; r] => l <> r /\ jo_type j = Inner /\ key_columns_of nodes l = Some [jo_left_key j] /\ key_columns_of nodes r = Some [jo_right_key j]
  | _, _ => True
  end.

Definition state_tracks (n : Node) (M : list row) : Prop := forall st, nd_state n = Some st -> stores st M.

Definition groups_track (n : Node) (D : nat -> list row) : Prop :=
  match nd_operator n, nd_parents n with
  | Some (OAggregate a), [p] => represents (ag_group_by a) (ag_func a) (ag_internal a) (D p)
  | _, _ => True
  end.

(** ** A child's output *)

Section Child.
Context (order : Groups -> Groups) (order_perm : forall g, order g ≡ₚ g).
Context (W : nat -> nat) (D E : nat -> list row).

(** What is known of the other parents: they do not change. *)
Definition other_parent (nodes : list Node) (q : nat) : Prop :=
  D q ≡ₚ E q /\ Forall (row_ok (W q)) (D q) /\ exists m, nodes !! q = Some m /\ state_tracks m (D q).

(** An operator's output for the change of the parent [from]. *)
Definition outputs (n : Node) (c : nat) (op' : OperatorType) (out : Records) : Prop :=
  groups_track (set_operator op' n) E /\ records_ok (W c) out /\ exists M, apply_all (D c) out = Some M /\ M ≡ₚ E c.

Lemma outputs_by n c op' out q q' V : groups_track (set_operator op' n) E -> records_ok (W c) out ->
  D c ≡ₚ q -> apply_all q out = Some V -> V ≡ₚ q' -> E c ≡ₚ q' -> outputs n c op' out.
Proof.
  intros Hg Hr HD Ha HV HE. split_and!; auto. destruct (apply_all_perm_start (D c) q out V HD Ha) as (M & EM & PM). exists M. split; [exact EM|].
  rewrite PM, HV, HE. reflexivity.
Qed.

Context (nodes : list Node) (from : nat) (rs : Records) (M' : list row).
Context (Hrs : records_ok (W from) rs) (Happ : apply_all (D from) rs = Some M') (HM : M' ≡ₚ E from).
Context (Hrows : Forall (row_ok (W from)) (D from)) (Hlen : Zlen (E from) < 2 ^ 63).
Context (c : nat) (n : Node).
Context (HD : forall q, node_query n D = Some q -> D c ≡ₚ q) (HE : forall q, node_query n E = Some q -> E c ≡ₚ q).

Lemma rows_plain : Forall plain_row (D from).
Proof. eapply Forall_impl; [exact Hrows|]. intros r [_ H]. exact H. Qed.

Lemma records_plain : Forall (fun x => plain_row (record_row x)) rs.
Proof. eapply Forall_impl; [exact Hrs|]. intros r [_ H]. exact H. Qed.

Lemma filter_outputs cond st : nd_operator n = Some (OFilter cond) -> nd_parents n = [from] -> operator_typed W c n ->
  exists op' out, operator_process order (OFilter cond) 0 rs st = Some (op', out) /\ op' = OFilter cond /\ outputs n c op' out.
Proof.
  intros Ho Hp Ht. unfold operator_typed, node_query in *. rewrite Ho, Hp in *. destruct Ht as [Hc HW]. destruct (filter_process_ok _ cond rs Hc Hrs) as (out & Ef & Hout).
  destruct (select_incremental cond _ _ _ _ Happ Ef) as (V & EV & PV). exists (OFilter cond), out. cbn [operator_process]. rewrite Ef. split_and!; auto.
  eapply outputs_by; [exact I|rewrite HW; exact Hout|exact (HD _ eq_refl)|exact EV|exact PV|]. rewrite (HE _ eq_refl), HM. reflexivity.
Qed.

Lemma project_outputs emit st : nd_operator n = Some (OProject emit) -> nd_parents n = [from] -> operator_typed W c n ->
  exists op' out, operator_process order (OProject emit) 0 rs st = Some (op', out) /\ op' = OProject emit /\ outputs n c op' out.
Proof.
  intros Ho Hp Ht. unfold operator_typed, node_query in *. rewrite Ho, Hp in *. destruct Ht as [Hc HW]. destruct (project_process_ok _ emit rs Hc Hrs) as (out & Ef & Hout).
  destruct (project_incremental emit _ _ _ _ Happ Ef) as (V & EV & PV). exists (OProject emit), out. cbn [operator_process]. rewrite Ef. split_and!; auto.
  eapply outputs_by; [exact I|rewrite HW; exact Hout|exact (HD _ eq_refl)|exact EV|exact PV|]. rewrite (HE _ eq_refl), HM. reflexivity.
Qed.

Lemma identity_outputs st : nd_operator n = Some OIdentity -> nd_parents n = [from] -> operator_typed W c n ->
  exists op' out, operator_process order OIdentity 0 rs st = Some (op', out) /\ op' = OIdentity /\ outputs n c op' out.
Proof.
  intros Ho Hp Ht. unfold operator_typed, node_query in *. rewrite Ho, Hp in *. exists OIdentity, rs. split_and!; auto.
  eapply outputs_by; [exact I|rewrite Ht; exact Hrs|exact (HD _ eq_refl)|exact Happ|exact HM|exact (HE _ eq_refl)].
Qed.

Lemma aggregate_outputs a st : nd_operator n = Some (OAggregate a) -> nd_parents n = [from] -> operator_typed W c n -> groups_track n D ->
  exists op' out, operator_process order (OAggregate a) 0 rs st = Some (op', out) /\
    (exists g, op' = OAggregate (mkAggregate (ag_group_by a) (ag_func a) g)) /\ outputs n c op' out.
Proof.
  intros Ho Hp Ht Hg. unfold operator_typed, node_query, groups_track in *. rewrite Ho, Hp in *. destruct Ht as (Hgb & Hf & HW).
  assert (HM' : Forall plain_row M') by exact (apply_all_plain _ _ _ Happ rows_plain records_plain).
  destruct (aggregate_spec _ _ order a rs (D from) M' (groups_view (ag_func a) (ag_internal a)) eq_refl eq_refl order_perm Hg (readable_ok _ _ _ _ Hgb Hf Hrs) Happ)
    as (a' & out & V & Ea & Egb & Ef & R & EV & PV); [unfold Zlen in *; rewrite HM; exact Hlen|reflexivity|].
  exists (OAggregate a'), out. cbn [operator_process]. rewrite Ea. split_and!; [reflexivity| |].
  - exists (ag_internal a'). destruct a'. cbn in *. subst. reflexivity.
  - eapply outputs_by; [|rewrite HW; exact (aggregate_process_ok order _ a rs a' out order_perm Hgb Hrs Ea)| |exact EV|exact PV|].
    + unfold groups_track. cbn. rewrite Hp, Egb, Ef. exact (represents_perm _ _ _ _ _ HM R).
    + rewrite (HD _ eq_refl). symmetry. exact (represents_view _ _ _ _ rows_plain Hg).
    + rewrite (HE _ eq_refl), <- HM. symmetry. exact (represents_view _ _ _ _ HM' R).
Qed.

Lemma join_outputs j p q m st : nd_operator n = Some (OJoin j) ->
  (p = 0%nat /\ nd_parents n = [from; q] \/ p = 1%nat /\ nd_parents n = [q; from]) ->
  operator_typed W c n -> join_ready nodes n -> other_parent nodes q -> nodes !! q = Some m -> nd_state m = Some st ->
  exists op' out, operator_process order (OJoin j) p rs (Some st) = Some (op', out) /\ op' = OJoin j /\ outputs n c op' out.
Proof.
  intros Ho Hp Ht Hj (Hq & Hqrows & m' & Em & Htr) Em' Est. rewrite Em in Em'. injection Em' as ->.
  assert (X : jo_type j = Inner /\ join_ok (W (if (p =? 0)%nat then from else q)) (W (if (p =? 0)%nat then q else from)) j /\ W c = length (jo_emit j) /\ ms_key_columns st = [other_key j p] /\
    node_query n D = Some (join_result j p (D q) (D from)) /\ node_query n E = Some (join_result j p (E q) (E from))).
  { unfold operator_typed, join_ready, node_query, key_columns_of, other_key, join_result in *.
    destruct Hp as [[-> Hp]|[-> Hp]]; rewrite Ho, Hp in *; destruct Ht as (? & ?), Hj as (_ & ? & K1 & K2); rewrite Em in *; cbn in *; rewrite Est in *; cbn in *; split_and!; auto; congruence. }
  destruct X as (Hin & Hok & HW & Hk & QD & QE).
  assert (Y : exists out, join_process j p rs (Some st) = Some out /\ records_ok (length (jo_emit j)) out).
  { eapply (join_process_ok _ _ j p st (D q) rs Hok Hin (Htr st Est) Hk); destruct (p =? 0)%nat; assumption. }
  destruct Y as (out & Ej & Hout). exists (OJoin j), out. cbn [operator_process]. rewrite Ej. split_and!; auto.
  destruct (join_incremental j p st (D q) (D from) rs M' out (Htr st Est) Hk) as (V & EV & PV); [congruence|exact rows_plain|exact records_plain|exact Happ|exact Ej|].
  eapply outputs_by; [exact I|rewrite HW; exact Hout|exact (HD _ QD)|exact EV|exact PV|]. rewrite (HE _ QE). unfold join_result.
  destruct (p =? 0)%nat; rewrite Hq, HM; reflexivity.
Qed.

End Child.
