(* ===== verification/EngineViews.v ===== *)
(** * Views follow their tables (noria-sqlite/src/dataflow/executor.rs)

    A write to a base table brings every materialized node below it from the rows
    of its query over the old tables to the rows of its query over the new ones,
    when no node is reached twice. *)
From stdpp Require Import strings.
From S2P Require Import Prelude Double Value Strings Noria DataType EngineState EngineOps Executor EngineGraph EngineCorrect EngineAggregate EngineNode.

Local Open Scope Z_scope.

(** ** What propagation does not change *)

Definition op_static (op : OperatorType) : OperatorType :=
  match op with OAggregate a => OAggregate (mkAggregate (ag_group_by a) (ag_func a) []) | _ => op end.

Definition static (n : Node) : option OperatorType * list nat * list nat * option (list nat) :=
  (op_static <$> nd_operator n, nd_parents n, nd_children n, ms_key_columns <$> nd_state n).

Lemma static_edges n n' : static n' = static n -> edges n' = edges n.
Proof. unfold static, edges. congruence. Qed.

Lemma op_static_cases op op' : op_static op' = op_static op ->
  op' = op \/ exists a g, op = OAggregate a /\ op' = OAggregate (mkAggregate (ag_group_by a) (ag_func a) g).
Proof.
  destruct op, op'; cbn; intros [= ]; subst; auto. right. match goal with a : AggregateOp, b : AggregateOp |- _ => destruct a, b end. cbn in *. subst. eauto.
Qed.

Lemma static_query n n' D : static n' = static n -> node_query n' D = node_query n D.
Proof.
  intros E. unfold node_query, static in *. injection E as Eo Ep _ _. rewrite Ep. destruct (nd_operator n) as [op|], (nd_operator n') as [op'|]; try discriminate; [|auto].
  injection Eo as Eo. destruct (op_static_cases _ _ Eo) as [->|(a & g & -> & ->)]; auto.
Qed.

Lemma static_typed W i n n' : static n' = static n -> operator_typed W i n -> operator_typed W i n'.
Proof.
  intros E. unfold operator_typed, static in *. injection E as Eo Ep _ _. rewrite Ep. destruct (nd_operator n) as [op|], (nd_operator n') as [op'|]; try discriminate; [|auto].
  injection Eo as Eo. destruct (op_static_cases _ _ Eo) as [->|(a & g & -> & ->)]; auto.
Qed.

Lemma static_state_typed w n n' : static n' = static n -> state_typed w n -> state_typed w n'.
Proof.
  intros E H st Hs. unfold static in E. injection E as _ _ _ Ek. rewrite Hs in Ek. cbn in Ek. destruct (nd_state n) as [st0|] eqn:E0; [|discriminate].
  injection Ek as ->. exact (H st0 E0).
Qed.

Definition statics (nodes : list Node) := static <$> nodes.

Lemma statics_lookup nodes nodes' i n' : statics nodes' = statics nodes -> nodes' !! i = Some n' -> exists n, nodes !! i = Some n /\ static n' = static n.
Proof.
  intros E H. assert (S : statics nodes !! i = Some (static n')) by (rewrite <- E; unfold statics; rewrite list_lookup_fmap, H; reflexivity).
  unfold statics in S. rewrite list_lookup_fmap in S. destruct (nodes !! i) as [n|]; [|discriminate]. apply (inj Some) in S. exists n. split; [reflexivity|exact (eq_sym S)].
Qed.

Lemma statics_insert nodes i n n' : nodes !! i = Some n -> static n' = static n -> statics (<[i := n']> nodes) = statics nodes.
Proof.
  intros H E. unfold statics. rewrite list_fmap_insert, E. apply list_insert_id. rewrite list_lookup_fmap, H. reflexivity.
Qed.

Lemma statics_shape nodes nodes' : statics nodes' = statics nodes -> shape nodes' = shape nodes.
Proof.
  intros E. assert (F : forall l : list Node, shape l = (fun x : option OperatorType * list nat * list nat * option (list nat) => (x.1.1.2, x.1.2)) <$> statics l).
  { intros l. unfold shape, statics. rewrite <- list_fmap_compose. reflexivity. }
  rewrite !F, E. reflexivity.
Qed.

Lemma statics_keys nodes nodes' i : statics nodes' = statics nodes -> key_columns_of nodes' i = key_columns_of nodes i.
Proof.
  intros E. assert (F : forall l, key_columns_of l i = s ← statics l !! i; s.2).
  { intros l. unfold key_columns_of, statics. rewrite list_lookup_fmap. destruct (l !! i); reflexivity. }
  rewrite !F, E. reflexivity.
Qed.

Lemma static_join_ready nodes nodes' n n' : statics nodes' = statics nodes -> static n' = static n -> join_ready nodes n -> join_ready nodes' n'.
Proof.
  intros En E. unfold join_ready, static in *. injection E as Eo Ep _ _. rewrite Ep. destruct (nd_operator n) as [op|], (nd_operator n') as [op'|]; try discriminate; [|auto].
  injection Eo as Eo. destruct (op_static_cases _ _ Eo) as [->|(a & g & -> & ->)]; [|auto]. destruct op; auto. destruct (nd_parents n) as [|l [|r [|]]]; auto.
  rewrite !(statics_keys _ _ _ En). auto.
Qed.

(** ** One child *)

Lemma position_cons {A} (f : A -> bool) x l : position f (x :: l) = if f x then Some 0%nat else S <$> position f l.
Proof.
  unfold position. cbn [list_find]. destruct (f x) eqn:E; [rewrite decide_True by reflexivity; reflexivity|]. rewrite decide_False by discriminate.
  destruct (list_find _ l) as [[]|]; reflexivity.
Qed.

Section Step.
Context (order : Groups -> Groups) (order_perm : forall g, order g ≡ₚ g).
Context (W : nat -> nat) (D E : nat -> list row).

Definition solves (nodes : list Node) (X : nat -> list row) : Prop :=
  forall i n, nodes !! i = Some n -> (forall q, node_query n X = Some q -> X i ≡ₚ q) /\ Forall (row_ok (W i)) (X i) /\ Zlen (X i) < 2 ^ 63.

Lemma operator_outputs nodes from c n rs M' op : nodes !! c = Some n -> nd_operator n = Some op -> from ∈ nd_parents n ->
  operator_typed W c n -> join_ready nodes n -> groups_track n D ->
  (forall q, q ∈ nd_parents n -> q <> from -> other_parent W D E nodes q) ->
  (forall q, node_query n D = Some q -> D c ≡ₚ q) -> (forall q, node_query n E = Some q -> E c ≡ₚ q) ->
  Forall (row_ok (W from)) (D from) -> Zlen (E from) < 2 ^ 63 ->
  records_ok (W from) rs -> apply_all (D from) rs = Some M' -> M' ≡ₚ E from ->
  exists st op' out, state_for nodes n (default 0%nat (position (fun p => (p =? from)%nat) (nd_parents n))) = Some st /\
    operator_process order op (default 0%nat (position (fun p => (p =? from)%nat) (nd_parents n))) rs st = Some (op', out) /\
    op_static op' = op_static op /\ outputs W D E n c op' out.
Proof.
  intros En Eo Hf Ht Hj Hg Ho HD HE Hrows Hlen Hrs Happ HM. pose proof Ht as Ht'. unfold operator_typed in Ht'. rewrite Eo in Ht'.
  assert (single : forall p, nd_parents n = [p] -> p = from /\ default 0%nat (position (fun p => (p =? from)%nat) [p]) = 0%nat).
  { intros p Hp. rewrite Hp, list_elem_of_singleton in Hf. subst p. rewrite position_cons, Nat.eqb_refl. auto. }
  assert (join : forall j, op = OJoin j -> exists p q m st, (p = 0%nat /\ nd_parents n = [from; q] \/ p = 1%nat /\ nd_parents n = [q; from]) /\
    default 0%nat (position (fun p => (p =? from)%nat) (nd_parents n)) = p /\ state_for nodes n p = Some (Some st) /\ other_parent W D E nodes q /\ nodes !! q = Some m /\ nd_state m = Some st).
  { intros j ->. unfold join_ready in Hj. rewrite Eo in Hj. destruct (nd_parents n) as [|l [|r [|]]] eqn:Ep; try contradiction. destruct Hj as (N & _ & Kl & Kr).
    unfold key_columns_of in Kl, Kr. rewrite !elem_of_cons in Hf. destruct Hf as [->|[->|Hf]]; [| |inversion Hf].
    - destruct (nodes !! r) as [m|] eqn:Er; [|discriminate]. cbn in Kr. destruct (nd_state m) as [st|] eqn:Es; [|discriminate].
      exists 0%nat, r, m, st. rewrite position_cons, Nat.eqb_refl. unfold state_for. rewrite Ep. cbn. rewrite Er. cbn. rewrite Es. split_and!; auto. apply Ho; [right; left|congruence].
    - destruct (nodes !! l) as [m|] eqn:El; [|discriminate]. cbn in Kl. destruct (nd_state m) as [st|] eqn:Es; [|discriminate].
      exists 1%nat, l, m, st. rewrite !position_cons, Nat.eqb_refl, (proj2 (Nat.eqb_neq l r) N). unfold state_for. rewrite Ep. cbn. rewrite El. cbn. rewrite Es. split_and!; auto. apply Ho; [left|exact N]. }
  destruct op as [cond|emit|j|a|].
  3: { destruct (join j eq_refl) as (p & q & m & st & Hp & -> & Es & Hq & Em & Est). exists (Some st).
       destruct (join_outputs order W D E nodes from rs M' Hrs Happ HM Hrows c n HD HE j p q m st Eo Hp Ht Hj Hq Em Est) as (op' & out & Eop & -> & Hout). eauto 8. }
  all: destruct (nd_parents n) as [|p [|p' ps]] eqn:Ep; try contradiction; destruct (single p eq_refl) as [-> ->]; unfold state_for; rewrite Ep; cbn [length Nat.ltb Nat.leb]; exists (nd_state n).
  - destruct (filter_outputs order W D E from rs M' Hrs Happ HM c n HD HE cond (nd_state n) Eo Ep Ht) as (op' & out & Eop & -> & Hout). eauto 8.
  - destruct (project_outputs order W D E from rs M' Hrs Happ HM c n HD HE emit (nd_state n) Eo Ep Ht) as (op' & out & Eop & -> & Hout). eauto 8.
  - destruct (aggregate_outputs order order_perm W D E from rs M' Hrs Happ HM Hrows Hlen c n HD HE a (nd_state n) Eo Ep Ht Hg) as (op' & out & Eop & (g & ->) & Hout). eauto 8.
  - destruct (identity_outputs order W D E from rs M' Hrs Happ HM c n HD HE (nd_state n) Eo Ep Ht) as (op' & out & Eop & -> & Hout). eauto 8.
Qed.

Lemma run_child_step nodes from c n rs M' : nodes !! c = Some n -> from ∈ nd_parents n ->
  operator_typed W c n -> join_ready nodes n -> groups_track n D ->
  (forall q, q ∈ nd_parents n -> q <> from -> other_parent W D E nodes q) ->
  (forall q, node_query n D = Some q -> D c ≡ₚ q) -> (forall q, node_query n E = Some q -> E c ≡ₚ q) ->
  Forall (row_ok (W from)) (D from) -> Zlen (E from) < 2 ^ 63 ->
  records_ok (W from) rs -> apply_all (D from) rs = Some M' -> M' ≡ₚ E from ->
  exists op' out, run_child order nodes from c rs = Some (<[c := set_operator op' n]> nodes, out) /\
    static (set_operator op' n) = static n /\ outputs W D E n c op' out.
Proof.
  intros En Hf Ht Hj Hg Ho HD HE Hrows Hlen Hrs Happ HM. destruct (nd_operator n) as [op|] eqn:Eo.
  - destruct (operator_outputs nodes from c n rs M' op En Eo Hf Ht Hj Hg Ho HD HE Hrows Hlen Hrs Happ HM) as (st & op' & out & Es & Ep & Est & Hout).
    exists op', out. unfold run_child. rewrite En. cbn [mbind option_bind]. rewrite Es. cbn [mbind option_bind]. rewrite Eo, Ep. split_and!; auto.
    unfold static. cbn. rewrite Eo. cbn. rewrite Est. reflexivity.
  - unfold operator_typed in Ht. rewrite Eo in Ht. destruct (nd_parents n); [inversion Hf|contradiction].
Qed.

End Step.

(** ** Propagation *)

Section Propagate.
Context (order : Groups -> Groups) (order_perm : forall g, order g ≡ₚ g).
Context (W : nat -> nat) (D E : nat -> list row) (nodes0 : list Node) (root : nat).

(** The nodes reached. *)
Definition reached : list nat := visits (S (length nodes0)) nodes0 root.

Record setting : Prop := {
  se_graph : graph_ok nodes0;
  se_typed : forall i n, nodes0 !! i = Some n -> operator_typed W i n /\ state_typed (W i) n /\ join_ready nodes0 n;
  se_old : solves W nodes0 D;
  se_new : solves W nodes0 E;
  se_once : NoDup reached;
  se_other : forall i, i ∉ reached -> D i ≡ₚ E i
}.
Context (HS : setting).

Definition tracks (X : nat -> list row) (i : nat) (nodes : list Node) : Prop :=
  forall n, nodes !! i = Some n -> state_tracks n (X i) /\ groups_track n X.

Definition state_at (X : nat -> list row) (i : nat) (nodes : list Node) : Prop := forall n, nodes !! i = Some n -> state_tracks n (X i).

Lemma query_perm n a b : (forall q, q ∈ nd_parents n -> D q ≡ₚ E q) -> node_query n D = Some a -> node_query n E = Some b -> a ≡ₚ b.
Proof.
  intros H. unfold node_query. destruct (nd_operator n) as [op|]; [|discriminate]. destruct op as [c|emit|j|g|]; destruct (nd_parents n) as [|p [|r [|]]]; try discriminate;
    intros [= <-] [= <-]; rewrite (H p) by left; try reflexivity. rewrite (H r) by (right; left). reflexivity.
Qed.

Lemma typed_query W' i n p X : operator_typed W' i n -> p ∈ nd_parents n -> is_Some (node_query n X).
Proof.
  unfold operator_typed, node_query. destruct (nd_operator n) as [op|]; [|destruct (nd_parents n); [intros _ H; inversion H|contradiction]].
  destruct op as [?|?|?|?|]; destruct (nd_parents n) as [|a' [|b' [|]]]; try contradiction; eauto.
Qed.

(** The other parents of a reached node are not reached. *)
Lemma other_unreached p n c m q : p ∈ reached -> nodes0 !! p = Some n -> c ∈ nd_children n -> nodes0 !! c = Some m -> q ∈ nd_parents m -> q <> p -> q ∉ reached.
Proof.
  intros Hp En Hc Em Hq N Hr. pose proof (se_graph HS) as Hok. destruct (lookup_lt_is_Some_2 nodes0 q) as [nq Eq].
  { pose proof (go_parents _ Hok c m q Em Hq). apply lookup_lt_Some in Em. lia. }
  apply N. symmetry. apply (only_parent nodes0 Hok (S (length nodes0)) root p q n nq c); auto; [exact (se_once HS)|lia|]. apply (go_edge _ Hok q c nq m Eq Em). exact Hq.
Qed.

(** Below a node that does not change nothing does. *)
Lemma unchanged_below fuel from : (forall j, j ∈ visits fuel nodes0 from -> j ∈ reached) -> D from ≡ₚ E from ->
  forall j, j ∈ visits fuel nodes0 from -> D j ≡ₚ E j.
Proof.
  intros Hsub Hf j. induction j as [j IH] using lt_wf_ind. intros Hj. destruct (decide (j = from)) as [->|N]; [exact Hf|].
  pose proof (se_graph HS) as Hok. destruct (visits_parent nodes0 fuel from j Hj N) as (p & n & Hp & En & Hc). destruct (go_children _ Hok p n j En Hc) as [L L'].
  destruct (lookup_lt_is_Some_2 nodes0 j L') as [m Em]. pose proof (proj1 (go_edge _ Hok p j n m En Em) Hc) as Hpm.
  destruct (se_typed HS j m Em) as (Ht & _). destruct (typed_query W j m p D Ht Hpm) as [a Ea]. destruct (typed_query W j m p E Ht Hpm) as [b Eb].
  rewrite (proj1 (se_old HS j m Em) a Ea), (proj1 (se_new HS j m Em) b Eb). apply (query_perm m); auto. intros q Hq.
  destruct (decide (q = p)) as [->|Nq]; [exact (IH p L Hp)|]. apply (se_other HS). exact (other_unreached p n j m q (Hsub p Hp) En Hc Em Hq Nq).
Qed.

Lemma tracks_perm j nodes : statics nodes = statics nodes0 -> D j ≡ₚ E j -> (forall n q, nodes0 !! j = Some n -> q ∈ nd_parents n -> D q ≡ₚ E q) -> tracks D j nodes -> tracks E j nodes.
Proof.
  intros Hs Hj Hq H n En. destruct (H n En) as [H1 H2]. split.
  - intros st Es. exact (stores_perm _ _ _ Hj (H1 st Es)).
  - destruct (statics_lookup _ _ _ _ Hs En) as (n0 & E0 & S0). unfold groups_track in *. assert (Ep : nd_parents n = nd_parents n0) by (unfold static in S0; congruence).
    destruct (nd_operator n) as [[| | |a|]|]; auto. destruct (nd_parents n) as [|p [|]] eqn:Epn; auto. apply (represents_perm _ _ _ (D p)); [|exact H2].
    apply (Hq n0); [exact E0|]. rewrite <- Ep. left.
Qed.

(** The source's own state. *)
Lemma store_step nodes from n rs M' : statics nodes = statics nodes0 -> nodes !! from = Some n -> state_tracks n (D from) ->
  records_ok (W from) rs -> apply_all (D from) rs = Some M' -> M' ≡ₚ E from ->
  exists n1, store_records nodes from rs = Some (<[from := n1]> nodes) /\ static n1 = static n /\ nd_operator n1 = nd_operator n /\ state_tracks n1 (E from).
Proof.
  intros Hs En Ht Hrs Happ HM. unfold store_records. rewrite En. cbn [mbind option_bind]. destruct (nd_state n) as [st|] eqn:Es.
  - destruct (statics_lookup _ _ _ _ Hs En) as (n0 & E0 & S0). pose proof (static_state_typed _ _ _ S0 (proj1 (proj2 (se_typed HS from n0 E0))) st Es) as Hk.
    destruct (stored_records st (D from) rs M' (Ht st Es)) as (st' & -> & Hst' & Hk'); [|exact Happ|].
    { eapply Forall_impl; [exact Hrs|]. intros x Hx. split; [exact (proj2 Hx)|]. destruct (from_row_ok _ _ _ Hk Hx) as (k & -> & _). eauto. }
    eexists. split; [reflexivity|]. split_and!; [unfold static; cbn; rewrite Es; cbn; rewrite Hk'; reflexivity|reflexivity|]. intros st2 [= <-]. exact (stores_perm _ _ _ HM Hst').
  - exists n. split; [rewrite list_insert_id by exact En; reflexivity|]. split_and!; auto. intros st. rewrite Es. discriminate.
Qed.

(** Before and after the propagation from a node: its own operator has already run. *)
Record before (fuel from : nat) (nodes : list Node) : Prop := {
  be_static : statics nodes = statics nodes0;
  be_from : state_at D from nodes;
  be_below : forall j, j ∈ visits fuel nodes0 from -> j <> from -> tracks D j nodes;
  be_other : forall j, j ∉ reached -> state_at D j nodes
}.

Record after (fuel from : nat) (nodes nodes' : list Node) : Prop := {
  af_static : statics nodes' = statics nodes0;
  af_frame : forall j, j ∉ visits fuel nodes0 from -> nodes' !! j = nodes !! j;
  af_from : state_at E from nodes';
  af_operator : forall n n', nodes !! from = Some n -> nodes' !! from = Some n' -> nd_operator n' = nd_operator n;
  af_below : forall j, j ∈ visits fuel nodes0 from -> j <> from -> tracks E j nodes'
}.

Definition within (fuel from : nat) : Prop :=
  (from < length nodes0)%nat /\ (length nodes0 - from < fuel)%nat /\ NoDup (visits fuel nodes0 from) /\ forall j, j ∈ visits fuel nodes0 from -> j ∈ reached.

Definition propagates (fuel : nat) : Prop := forall from nodes rs M', within fuel from -> before fuel from nodes ->
  records_ok (W from) rs -> apply_all (D from) rs = Some M' -> M' ≡ₚ E from ->
  exists nodes', propagate order fuel nodes from rs = Some nodes' /\ after fuel from nodes nodes'.

(** Nothing to propagate. *)
Lemma no_records fuel from nodes : within fuel from -> before fuel from nodes -> D from ≡ₚ E from -> after fuel from nodes nodes.
Proof.
  intros (_ & _ & _ & Hsub) [B1 B2 B3 B4] Hf. pose proof (unchanged_below fuel from Hsub Hf) as U. split; auto; [|congruence|].
  - intros n En st Es. exact (stores_perm _ _ _ Hf (B2 n En st Es)).
  - intros j Hj N. apply (tracks_perm j nodes B1 (U j Hj)); [|exact (B3 j Hj N)]. intros n q En Hq. pose proof (se_graph HS) as Hok.
    destruct (visits_parent nodes0 fuel from j Hj N) as (p & m & Hp & Em & Hc). destruct (decide (q = p)) as [->|Nq]; [exact (U p Hp)|].
    apply (se_other HS). exact (other_unreached p m j n q (Hsub p Hp) Em Hc En Hq Nq).
Qed.

(** One child and all below it. *)
Lemma child_propagates fuel from n0 c nodes rs M' : propagates fuel -> from ∈ reached -> nodes0 !! from = Some n0 -> c ∈ nd_children n0 -> within fuel c ->
  statics nodes = statics nodes0 -> (forall j, j ∈ visits fuel nodes0 c -> tracks D j nodes) -> (forall j, j ∉ reached -> state_at D j nodes) ->
  records_ok (W from) rs -> apply_all (D from) rs = Some M' -> M' ≡ₚ E from ->
  exists nodes', ('(nodes, out) ← run_child order nodes from c rs; propagate order fuel nodes c out) = Some nodes' /\
    statics nodes' = statics nodes0 /\ (forall j, j ∉ visits fuel nodes0 c -> nodes' !! j = nodes !! j) /\ forall j, j ∈ visits fuel nodes0 c -> tracks E j nodes'.
Proof.
  intros IH Hfr En0 Hc Hw Hs Hbelow Hother Hrs Happ HM. pose proof (se_graph HS) as Hok. destruct (lookup_lt_is_Some_2 nodes0 c (proj1 Hw)) as [m0 Em0].
  assert (Hin : c ∈ visits fuel nodes0 c) by (apply visits_self; unfold within in Hw; lia).
  destruct (statics_lookup nodes nodes0 c m0 (eq_sym Hs) Em0) as (m & Em & Sm). destruct (se_typed HS c m0 Em0) as (Ht & _ & Hj).
  pose proof (static_typed _ _ _ _ (eq_sym Sm) Ht) as Ht'. pose proof (static_join_ready _ _ _ _ Hs (eq_sym Sm) Hj) as Hj'.
  assert (Ep : nd_parents m = nd_parents m0) by (unfold static in Sm; congruence).
  pose proof (proj1 (go_edge _ Hok from c n0 m0 En0 Em0) Hc) as Hpm. destruct (Hbelow c Hin m Em) as [Hst Hgr].
  destruct (run_child_step order order_perm W D E nodes from c m rs M' Em) as (op' & out & Er & Sop & Hg' & Hout & M2 & EM2 & PM2); auto.
  - rewrite Ep. exact Hpm.
  - intros q Hq Nq. rewrite Ep in Hq. pose proof (other_unreached from n0 c m0 q Hfr En0 Hc Em0 Hq Nq) as Hun. destruct (lookup_lt_is_Some_2 nodes0 q) as [q0 Eq0].
    { pose proof (go_parents _ Hok c m0 q Em0 Hq). apply lookup_lt_Some in Em0. lia. }
    destruct (statics_lookup nodes nodes0 q q0 (eq_sym Hs) Eq0) as (q1 & Eq1 & _). split_and!; [exact (se_other HS q Hun)|exact (proj1 (proj2 (se_old HS q q0 Eq0)))|]. exists q1. split; [exact Eq1|exact (Hother q Hun q1 Eq1)].
  - intros q. rewrite (static_query m0 m D (eq_sym Sm)). apply (se_old HS c m0 Em0).
  - intros q. rewrite (static_query m0 m E (eq_sym Sm)). apply (se_new HS c m0 Em0).
  - exact (proj1 (proj2 (se_old HS from n0 En0))).
  - exact (proj2 (proj2 (se_new HS from n0 En0))).
  - rewrite Er. cbn [mbind option_bind]. set (nodes1 := <[c := set_operator op' m]> nodes) in *.
    assert (Ec : nodes1 !! c = Some (set_operator op' m)) by (apply list_lookup_insert_eq; apply lookup_lt_Some in Em; exact Em).
    assert (Eo : forall j, j <> c -> nodes1 !! j = nodes !! j) by (intros j N; apply list_lookup_insert_ne; congruence).
    destruct (IH c nodes1 out M2 Hw) as (nodes' & Epr & [A1 A2 A3 A4 A5]); auto.
    + split; [unfold nodes1; rewrite (statics_insert nodes c m); auto| | |].
      * intros n En. rewrite Ec in En. injection En as <-. exact Hst.
      * intros j Hj0 N n. rewrite (Eo j N). exact (Hbelow j Hj0 n).
      * intros j Hun n. rewrite Eo; [exact (Hother j Hun n)|]. intros ->. exact (Hun (proj2 (proj2 (proj2 Hw)) c Hin)).
    + exists nodes'. split_and!; auto.
      * intros j Hn. rewrite (A2 j Hn). apply Eo. intros ->. contradiction.
      * intros j Hj0. destruct (decide (j = c)) as [->|N]; [|exact (A5 j Hj0 N)]. intros n En. split; [exact (A3 n En)|].
        assert (Epn : nd_parents n = nd_parents m) by (destruct (statics_lookup _ _ _ _ A1 En) as (n1 & En1 & Sn); rewrite Em0 in En1; injection En1 as <-; unfold static in Sn, Sm; congruence).
        unfold groups_track in *. rewrite (A4 _ n Ec En), Epn. exact Hg'.
Qed.

(** The loop over the children. *)
Lemma children_propagate fuel from n0 rs M' cs nodes : propagates fuel -> from ∈ reached -> nodes0 !! from = Some n0 ->
  (forall c, c ∈ cs -> c ∈ nd_children n0 /\ within fuel c) -> NoDup (cs ≫= visits fuel nodes0) ->
  statics nodes = statics nodes0 -> (forall j, j ∈ cs ≫= visits fuel nodes0 -> tracks D j nodes) -> (forall j, j ∉ reached -> state_at D j nodes) ->
  records_ok (W from) rs -> apply_all (D from) rs = Some M' -> M' ≡ₚ E from ->
  exists nodes', over_children (fun nodes c => '(nodes, out) ← run_child order nodes from c rs; propagate order fuel nodes c out) cs nodes = Some nodes' /\
    statics nodes' = statics nodes0 /\ (forall j, j ∉ cs ≫= visits fuel nodes0 -> nodes' !! j = nodes !! j) /\ forall j, j ∈ cs ≫= visits fuel nodes0 -> tracks E j nodes'.
Proof.
  intros IH Hfr En0 Hcs ND Hs Hbelow Hother Hrs Happ HM. revert nodes Hcs ND Hs Hbelow Hother. induction cs as [|c cs IHcs]; intros nodes Hcs ND Hs Hbelow Hother; cbn [over_children].
  - exists nodes. split_and!; auto. intros j Hj. inversion Hj.
  - cbn [mbind list_bind] in ND, Hbelow |- *. apply NoDup_app in ND as (_ & Hdis & ND). destruct (Hcs c (list_elem_of_here _ _)) as [Hc Hw].
    destruct (child_propagates fuel from n0 c nodes rs M' IH Hfr En0 Hc Hw Hs) as (n1 & E1 & S1 & F1 & T1); auto; [intros j Hj; apply Hbelow, elem_of_app; auto|].
    cbn [mbind option_bind] in E1. rewrite E1. cbn [mbind option_bind].
    destruct (IHcs n1) as (n2 & E2 & S2 & F2 & T2); auto.
    + intros c' Hc'. apply Hcs. right. exact Hc'.
    + intros j Hj n. rewrite F1; [apply Hbelow, elem_of_app; auto|]. intros Hj'. exact (Hdis j Hj' Hj).
    + intros j Hun n. rewrite F1; [exact (Hother j Hun n)|]. intros Hj. exact (Hun (proj2 (proj2 (proj2 Hw)) j Hj)).
    + exists n2. split_and!; auto.
      * intros j. rewrite not_elem_of_app. intros [N1 N2]. rewrite (F2 j N2). exact (F1 j N1).
      * intros j. rewrite elem_of_app. intros [Hj|Hj]; [|exact (T2 j Hj)]. intros n. rewrite (F2 j (Hdis j Hj)). exact (T1 j Hj n).
Qed.

Lemma within_child fuel from n0 c : nodes0 !! from = Some n0 -> within (S fuel) from -> c ∈ nd_children n0 -> within fuel c.
Proof.
  intros En (L1 & L2 & ND & Hsub) Hc. destruct (go_children _ (se_graph HS) from n0 c En Hc) as [B1 B2]. split_and!; [exact B2|lia| |].
  - rewrite (visits_step nodes0 fuel from n0 En) in ND. apply NoDup_cons in ND as [_ ND]. exact (NoDup_bind_elem _ _ _ ND Hc).
  - intros j Hj. apply Hsub. exact (visits_sub nodes0 fuel from n0 c j En Hc Hj).
Qed.

Lemma propagate_tracks fuel : propagates fuel.
Proof.
  induction fuel as [|fuel IH]; intros from nodes rs M' Hw Hb Hrs Happ HM; [destruct Hw as (_ & L & _); lia|].
  cbn [propagate]. destruct rs as [|x rs].
  - cbn in Happ. injection Happ as <-. exists nodes. split; [reflexivity|]. exact (no_records _ _ _ Hw Hb HM).
  - destruct Hb as [B1 B2 B3 B4]. destruct (lookup_lt_is_Some_2 nodes0 from (proj1 Hw)) as [n0 En0]. destruct (statics_lookup nodes nodes0 from n0 (eq_sym B1) En0) as (n & En & Sn).
    destruct (store_step nodes from n (x :: rs) M' B1 En (B2 n En) Hrs Happ HM) as (n1 & -> & S1 & O1 & T1). cbn [mbind option_bind].
    set (nodes1 := <[from := n1]> nodes). assert (E1 : nodes1 !! from = Some n1) by exact (list_lookup_insert_eq _ _ _ (lookup_lt_Some _ _ _ En)).
    assert (Eo : forall j, j <> from -> nodes1 !! j = nodes !! j) by (intros j N; apply list_lookup_insert_ne; congruence).
    assert (Hst1 : statics nodes1 = statics nodes0) by (unfold nodes1; rewrite (statics_insert nodes from n); auto).
    rewrite E1. cbn [mbind option_bind]. assert (Ec : nd_children n1 = nd_children n0) by (unfold static in *; congruence). rewrite Ec.
    pose proof Hw as (_ & _ & ND & Hsub). pose proof (visits_step nodes0 fuel from n0 En0) as Ev. rewrite Ev in ND. apply NoDup_cons in ND as [Hnot ND].
    assert (Hfrom : from ∈ reached) by (apply Hsub; left).
    destruct (children_propagate fuel from n0 (x :: rs) M' (nd_children n0) nodes1 IH Hfrom En0) as (nodes' & -> & S' & F' & T'); auto.
    + intros c Hc. split; [exact Hc|exact (within_child fuel from n0 c En0 Hw Hc)].
    + intros j Hj m. assert (N : j <> from) by (intros ->; contradiction). rewrite (Eo j N). apply B3; [rewrite Ev; right; exact Hj|exact N].
    + intros j Hun m. rewrite Eo; [exact (B4 j Hun m)|intros ->; contradiction].
    + exists nodes'. split; [reflexivity|]. split; auto.
      * intros j Hj. rewrite Ev, not_elem_of_cons in Hj. destruct Hj as [N Hj]. rewrite (F' j Hj). exact (Eo j N).
      * intros m. rewrite (F' from Hnot), E1. intros [= <-]. exact T1.
      * intros m m'. rewrite (F' from Hnot), E1, En. intros [= <-] [= <-]. exact O1.
      * intros j Hj N. rewrite Ev, elem_of_cons in Hj. destruct Hj as [->|Hj]; [contradiction|exact (T' j Hj)].
Qed.

End Propagate.
