(* ===== verification/EngineProps.v ===== *)
(** * Correctness of the dataflow engine (noria-sqlite/src/dataflow/executor.rs)

    The meaning of the operators in SQL, writes, termination and lookups, and the
    graph they are checked on. *)
From stdpp Require Import strings.
From S2P Require Import Prelude Double Value Strings Noria DataType EngineState EngineOps Executor EngineGraph EngineCorrect EngineAggregate EngineNode EngineViews.

Local Open Scope Z_scope.

(** ** The meaning of the operators in SQL

    Values, comparisons, conditions and queries as SQL has them, apart from the
    code: NULL is not comparable, a condition has three truth values, and a query
    keeps the rows for which it is true. *)

Inductive SqlValue :=
  | SNull
  | SInteger (n : Z)
  | SReal (nanos : Z)
  | SText (s : list Z).

#[export] Instance SqlValue_eq_dec : EqDecision SqlValue.
Proof. solve_decision. Defined.

Definition sql_value (d : DataType) : SqlValue :=
  match d with
  | DNone | DTimestamp _ => SNull
  | DInt n | DUnsignedInt n | DBigInt n | DUnsignedBigInt n => SInteger n
  | DReal i frac => SReal (i * 1000000000 + frac)
  | DText _ | DTinyText _ => SText (default [] (as_str d))
  end.

(** Numbers come before texts; texts are compared byte by byte. *)
Definition sql_compare (a b : SqlValue) : option comparison :=
  match a, b with
  | SNull, _ | _, SNull => None
  | SText s, SText t => Some (bytes_cmp s t)
  | SText _, _ => Some Gt
  | _, SText _ => Some Lt
  | SInteger m, SInteger n => Some (Z.compare m n)
  | SInteger m, SReal y => Some (Z.compare (m * 1000000000) y)
  | SReal x, SInteger n => Some (Z.compare x (n * 1000000000))
  | SReal x, SReal y => Some (Z.compare x y)
  end.

Definition cell (r : row) (col : nat) : DataType := default DNone (r !! col).

Definition sql_test (test : comparison -> bool) (a b : DataType) : option bool := test <$> sql_compare (sql_value a) (sql_value b).

Definition sql_and (l : list (option bool)) : option bool :=
  if bool_decide (Some false ∈ l) then Some false else if bool_decide (None ∈ l) then None else Some true.
Definition sql_or (l : list (option bool)) : option bool :=
  if bool_decide (Some true ∈ l) then Some true else if bool_decide (None ∈ l) then None else Some false.

Fixpoint sql_condition (c : FilterCondition) (r : row) : option bool :=
  match c with
  | FEq col v => sql_test (fun o => match o with Eq => true | _ => false end) (cell r col) v
  | FNe col v => sql_test (fun o => match o with Eq => false | _ => true end) (cell r col) v
  | FGt col v => sql_test (fun o => match o with Gt => true | _ => false end) (cell r col) v
  | FLt col v => sql_test (fun o => match o with Lt => true | _ => false end) (cell r col) v
  | FIsNull col => Some (bool_decide (sql_value (cell r col) = SNull))
  | FIsNotNull col => Some (negb (bool_decide (sql_value (cell r col) = SNull)))
  | FAnd cs => sql_and (map (fun c => sql_condition c r) cs)
  | FOr cs => sql_or (map (fun c => sql_condition c r) cs)
  | FAlwaysTrue => Some true
  end.

(** WHERE, the list of columns, an inner join on equal columns, and GROUP BY with
    COUNT( * ) or SUM; a sum skips what is not an integer. *)
Definition sql_where (c : FilterCondition) (M : list row) : list row := filter (fun r => sql_condition c r = Some true) M.

Definition sql_columns (cols : list nat) (r : row) : row := cell r <$> cols.

Definition sql_join (j : JoinOp) (L R : list row) : list row :=
  l ← L; r ← R;
  if decide (sql_compare (sql_value (cell l (jo_left_key j))) (sql_value (cell r (jo_right_key j))) = Some Eq)
  then [(fun p : bool * nat => cell (if p.1 then l else r) p.2) <$> jo_emit j] else [].

Definition sql_sum (col : nat) (G : list row) : Z :=
  foldr (fun r s => (match sql_value (cell r col) with SInteger n => n | _ => 0 end) + s) 0 G.

Definition sql_group (gb : list nat) (f : AggregateFunc) (M : list row) : list row :=
  (fun k => let G := filter (fun r => sql_columns gb r = k) M in
            k ++ [match f with Count => DBigInt (Zlen G) | Sum col => DBigInt (sql_sum col G) | _ => DNone end])
    <$> remove_dups (sql_columns gb <$> M).

(** The query of a node; base tables have none. *)
Definition sql_query (n : Node) (X : nat -> list row) : option (list row) :=
  match nd_operator n, nd_parents n with
  | Some (OFilter c), [p] => Some (sql_where c (X p))
  | Some (OProject emit), [p] => Some (sql_columns emit <$> X p)
  | Some (OAggregate a), [p] => Some (sql_group (ag_group_by a) (ag_func a) (X p))
  | Some OIdentity, [p] => Some (X p)
  | Some (OJoin j), [l; r] => Some (sql_join j (X l) (X r))
  | _, _ => None
  end.

(** WHERE of the columns of a key, as a lookup asks. *)
Definition sql_key (cols : list nat) (key : list DataType) (r : row) : Prop :=
  Forall2 (fun c d => sql_compare (sql_value (cell r c)) (sql_value d) = Some Eq) cols key.

#[export] Instance sql_key_dec cols key r : Decision (sql_key cols key r).
Proof. apply Forall2_dec. intros c d. solve_decision. Defined.

(** *** Where the operators have this meaning

    Comparisons are between integers or between texts; a NULL in the column is
    allowed for [=] and [<], which then do not hold.  Join keys are integers or
    texts.  There is a GROUP BY, on columns without reals and blobs; the function is COUNT, or
    SUM of a column of integers whose sums fit 64 bits. *)

Definition is_integer (d : DataType) : Prop := match d with DBigInt _ => True | _ => False end.
Definition is_text (d : DataType) : Prop := exists s, from_str s = Some d /\ valid_utf8 s = true /\ Forall (fun c => 0 < c) s.
Definition same_class (a b : DataType) : Prop := (is_integer a /\ is_integer b) \/ (is_text a /\ is_text b).
Definition key_value (d : DataType) : Prop := is_integer d \/ is_text d.
Definition discrete (d : DataType) : Prop := d = DNone \/ key_value d.

Fixpoint comparable (c : FilterCondition) (r : row) : Prop :=
  match c with
  | FEq col v | FLt col v => same_class (cell r col) v \/ (cell r col = DNone /\ v <> DNone)
  | FNe col v | FGt col v => same_class (cell r col) v
  | FAnd cs | FOr cs => (fix all (cs : list FilterCondition) : Prop := match cs with [] => True | c :: cs => comparable c r /\ all cs end) cs
  | _ => True
  end.

Definition supported (n : Node) (X : nat -> list row) : Prop :=
  match nd_operator n, nd_parents n with
  | Some (OFilter c), [p] => Forall (comparable c) (X p)
  | Some (OJoin j), [l; r] =>
      Forall (fun x => key_value (cell x (jo_left_key j))) (X l) /\ Forall (fun x => key_value (cell x (jo_right_key j))) (X r)
  | Some (OAggregate a), [p] =>
      ag_group_by a <> [] /\ Forall (fun x => Forall (fun c => discrete (cell x c)) (ag_group_by a)) (X p) /\
      match ag_func a with
      | Count => True
      | Sum col => Forall (fun x => is_integer (cell x col)) (X p) /\
                   forall k, is_i64 (sql_sum col (filter (fun x => sql_columns (ag_group_by a) x = k) (X p)))
      | _ => False
      end
  | _, _ => True
  end.

(** *** Texts *)

Lemma before_nul_pad s n : Forall (fun c => c <> 0) s -> before_nul (s ++ replicate n 0) = s.
Proof.
  induction 1 as [|c s Hc _ IH]; [destruct n; reflexivity|]. cbn. rewrite (proj2 (Z.eqb_neq _ _) Hc), IH. reflexivity.
Qed.

Lemma no_nul s : Forall (fun c => c <> 0) s -> existsb (fun c => c =? 0) s = false.
Proof. induction 1 as [|c s Hc _ IH]; [reflexivity|]. cbn. rewrite (proj2 (Z.eqb_neq _ _) Hc). exact IH. Qed.

Lemma text_stored s : valid_utf8 s = true -> Forall (fun c => c <> 0) s -> exists d, from_str s = Some d /\ as_str d = Some s /\ plain d /\ from_datatype d = Some (FText s).
Proof.
  intros Hv Hn. unfold from_str. destruct (Z.leb_spec (Zlen s) TINYTEXT_WIDTH) as [L|L].
  - eexists. split; [reflexivity|]. set (b := s ++ _). unfold TINYTEXT_WIDTH in *.
    assert (Lb : Zlen b = 15) by (unfold b, Zlen in *; rewrite length_app, length_replicate; lia).
    assert (A : as_str (DTinyText b) = Some s).
    { cbn [as_str]. destruct (Z.eqb_spec (default 0 (b !! Z.to_nat (TINYTEXT_WIDTH - 1))) 0) as [E0|E0]; [unfold b; rewrite (before_nul_pad s _ Hn); reflexivity|].
      destruct (decide (Zlen s = 15)) as [E|E]; [unfold b; rewrite E; cbn; rewrite app_nil_r, Hv; reflexivity|]. destruct E0. unfold b, TINYTEXT_WIDTH.
      rewrite lookup_app_r by (unfold Zlen in *; lia). rewrite lookup_replicate_2 by (unfold Zlen in *; lia). reflexivity. }
    split_and!; [exact A|exact Lb|]. cbn [from_datatype]. rewrite A. reflexivity.
  - rewrite (no_nul s Hn). eexists. split; [reflexivity|]. split_and!; [reflexivity|exact L|reflexivity].
Qed.

Lemma cmp_pad s t n m : Forall (fun c => 0 < c) s -> Forall (fun c => 0 < c) t -> (length s + n = length t + m)%nat ->
  bytes_cmp (s ++ replicate n 0) (t ++ replicate m 0) = bytes_cmp s t.
Proof.
  intros Hs. revert t n m. induction Hs as [|c s Hc _ IH]; intros t n m Ht L.
  - destruct Ht as [|d t Hd _]; cbn in L.
    + replace m with n by lia. cbn. clear L. induction n as [|n IHn]; [reflexivity|exact IHn].
    + destruct n as [|n]; [lia|]. cbn [replicate app bytes_cmp]. rewrite (proj2 (Z.compare_lt_iff 0 d)) by lia. reflexivity.
  - destruct Ht as [|d t Hd Ht]; cbn in L.
    + destruct m as [|m]; [lia|]. cbn [replicate app bytes_cmp]. rewrite (proj2 (Z.compare_gt_iff c 0)) by lia. reflexivity.
    + cbn. destruct (c ?= d); try reflexivity. apply IH; [exact Ht|lia].
Qed.

Lemma text_reads s d : from_str s = Some d -> valid_utf8 s = true -> Forall (fun c => 0 < c) s -> plain d /\ as_str d = Some s /\ sql_value d = SText s.
Proof.
  intros E V P. destruct (text_stored s V) as (d' & E' & As & Hp & _); [eapply Forall_impl; [exact P|cbn; lia]|]. rewrite E in E'. injection E' as <-. split_and!; [exact Hp|exact As|].
  unfold from_str in E. destruct (Zlen s <=? TINYTEXT_WIDTH); [injection E as <-|destruct (existsb _ s); [discriminate|injection E as <-]]; unfold sql_value; rewrite As; reflexivity.
Qed.

Lemma text_cmp a b : is_text a -> is_text b -> exists s t, sql_value a = SText s /\ sql_value b = SText t /\ dt_cmp a b = bytes_cmp s t.
Proof.
  intros (s & Es & Vs & Ps) (t & Et & Vt & Pt). exists s, t.
  destruct (text_reads s a Es Vs Ps) as (_ & As & Ss), (text_reads t b Et Vt Pt) as (_ & At & St). split; [exact Ss|]. split; [exact St|].
  unfold from_str in Es, Et. destruct (Z.leb_spec (Zlen s) TINYTEXT_WIDTH) as [L1|L1], (Z.leb_spec (Zlen t) TINYTEXT_WIDTH) as [L2|L2];
    try (destruct (existsb _ s); [discriminate|]); try (destruct (existsb _ t); [discriminate|]); injection Es as <-; injection Et as <-.
  - cbn [dt_cmp]. apply cmp_pad; auto. unfold Zlen, TINYTEXT_WIDTH in *. lia.
  - unfold dt_cmp. rewrite As, At. reflexivity.
  - unfold dt_cmp. rewrite As, At. reflexivity.
  - reflexivity.
Qed.

Lemma bytes_cmp_eq s t : bytes_cmp s t = Eq <-> s = t.
Proof.
  revert t. induction s as [|c s IH]; intros [|d t]; cbn; try (split; [discriminate|intros E; discriminate E]); [split; reflexivity|].
  destruct (Z.compare_spec c d) as [->|N|N]; [rewrite IH; split; congruence|split; [discriminate|intros [= ->]; lia]..].
Qed.

Lemma text_shape d : is_text d -> plain d /\ (exists s, as_str d = Some s /\ sql_value d = SText s) /\ forall e, is_text e -> sql_value e = sql_value d -> e = d.
Proof.
  intros (s & E & V & P). destruct (text_reads s d E V P) as (Hp & As & Sv). split_and!; eauto.
  intros e (t & Et & Vt & Pt) Ee. destruct (text_reads t e Et Vt Pt) as (_ & _ & St). rewrite St, Sv in Ee. congruence.
Qed.

(** *** Comparisons *)

Lemma same_class_plain a b : same_class a b -> plain a /\ plain b.
Proof. intros [[Ha Hb]|[Ha Hb]]; [destruct a, b; try contradiction; split; exact I|split; apply text_shape; assumption]. Qed.

Lemma same_class_cmp a b : same_class a b -> sql_compare (sql_value a) (sql_value b) = Some (dt_cmp a b).
Proof.
  intros [[Ha Hb]|[Ha Hb]]; [destruct a, b; try contradiction; reflexivity|]. destruct (text_cmp a b Ha Hb) as (s & t & -> & -> & ->). reflexivity.
Qed.

(** A key's value equals a cell exactly when they are the same value. *)
Lemma sql_equal a b : discrete a -> key_value b -> sql_compare (sql_value a) (sql_value b) = Some Eq <-> a = b.
Proof.
  intros [->|[Ha|Ha]] [Hb|Hb].
  - destruct b; try contradiction. split; discriminate.
  - destruct (text_shape b Hb) as (_ & (s & As & _) & _). split; [discriminate|]. intros <-. discriminate.
  - destruct a, b; try contradiction. cbn. split; [intros [= E]; apply Z.compare_eq in E; congruence|intros [= ->]; rewrite Z.compare_refl; reflexivity].
  - destruct (text_shape b Hb) as (_ & (s & As & ->) & _). destruct a; try contradiction. split; [discriminate|intros <-; discriminate].
  - destruct (text_shape a Ha) as (_ & (s & As & ->) & _). destruct b; try contradiction. split; [discriminate|intros ->; discriminate].
  - destruct (text_shape b Hb) as (_ & (t & _ & Et) & Inj). destruct (text_shape a Ha) as (_ & (s & _ & Es) & _). split; [|intros ->; rewrite Et; cbn; rewrite (proj2 (bytes_cmp_eq t t)); reflexivity].
    rewrite Es, Et. cbn. intros [= E%bytes_cmp_eq]. apply Inj; [exact Ha|congruence].
Qed.

Lemma same_class_eq a b : same_class a b -> dt_eq a b = match dt_cmp a b with Eq => true | _ => false end.
Proof.
  intros H. destruct (same_class_plain a b H) as [Pa Pb]. rewrite (dt_eq_plain a b Pa Pb).
  assert (E : dt_cmp a b = Eq <-> a = b).
  { rewrite <- (sql_equal a b); [rewrite (same_class_cmp a b H); split; congruence|destruct H as [[]|[]]; unfold discrete, key_value; auto..]. }
  destruct (dt_cmp a b) in E |- *; [apply bool_decide_eq_true; tauto|apply bool_decide_eq_false; intros Eab; apply E in Eab; discriminate..].
Qed.

(** *** Conditions *)

Lemma row_cell w r c : row_ok w r -> (c < w)%nat -> r !! c = Some (cell r c) /\ plain (cell r c).
Proof. intros Hr Hc. destruct (row_lookup w r c Hr Hc) as (d & E & Hd). unfold cell. rewrite E. auto. Qed.

Lemma null_cell d : plain d -> dt_eq d DNone = bool_decide (sql_value d = SNull).
Proof. destruct d; cbn; try contradiction; intros _; symmetry; try (apply bool_decide_eq_false; discriminate). reflexivity. Qed.

Lemma sql_and_true l : sql_and l = Some true <-> Forall (fun b => b = Some true) l.
Proof.
  unfold sql_and. rewrite Forall_forall. destruct (bool_decide_reflect (Some false ∈ l)) as [F|F]; [split; [discriminate|intros H; discriminate (H _ F)]|].
  destruct (bool_decide_reflect (None ∈ l)) as [N|N]; [split; [discriminate|intros H; discriminate (H _ N)]|]. split; [|reflexivity]. intros _ [[]|] Hb; [reflexivity|contradiction..].
Qed.

Lemma sql_or_true l : sql_or l = Some true <-> Exists (fun b => b = Some true) l.
Proof.
  unfold sql_or. rewrite Exists_exists. destruct (bool_decide_reflect (Some true ∈ l)) as [F|F]; [split; [eauto|reflexivity]|].
  destruct (bool_decide (None ∈ l)); (split; [discriminate|intros (b & Hb & ->); contradiction]).
Qed.

Lemma evaluate_sql w c : forall r, row_ok w r -> cond_ok w c -> comparable c r -> evaluate c r = Some true <-> sql_condition c r = Some true.
Proof.
  revert c. fix IH 1. intros c r Hr. destruct c as [col v|col v|col v|col v|col|col|cs|cs|]; cbn [cond_ok evaluate sql_condition comparable]; intros Hc Hcmp; [..|tauto].
  1-6: destruct (row_cell w r col Hr Hc) as [-> Hp]; cbn [mbind option_bind]; unfold sql_test.
  - destruct Hcmp as [H|[E N]]; [rewrite (same_class_cmp _ _ H), (same_class_eq _ _ H); reflexivity|]. rewrite E. destruct v; try congruence; split; discriminate.
  - rewrite (same_class_cmp _ _ Hcmp), (same_class_eq _ _ Hcmp). destruct (dt_cmp _ _); reflexivity.
  - rewrite (same_class_cmp _ _ Hcmp). reflexivity.
  - destruct Hcmp as [H|[E N]]; [rewrite (same_class_cmp _ _ H); reflexivity|]. rewrite E. destruct v; try congruence; split; discriminate.
  - rewrite (null_cell _ Hp). reflexivity.
  - rewrite (null_cell _ Hp). reflexivity.
  - rewrite sql_and_true. induction cs as [|c cs IHcs]; [split; [constructor|reflexivity]|]. destruct Hc as [H1 H2], Hcmp as [C1 C2]. cbn [map]. rewrite Forall_cons, <- (IHcs H2 C2), <- (IH c r Hr H1 C1).
    destruct (evaluate c r) as [[]|]; cbn; split; try tauto; try discriminate; intros [? ?]; discriminate.
  - rewrite sql_or_true. induction cs as [|c cs IHcs]; [split; [discriminate|intros H; inversion H]|]. destruct Hc as [H1 H2], Hcmp as [C1 C2]. cbn [map]. rewrite Exists_cons, <- (IHcs H2 C2), <- (IH c r Hr H1 C1).
    destruct (evaluate_total w c r Hr H1) as [[] ->]; cbn; split; auto; intros [E|E]; [discriminate|exact E].
Qed.

(** *** Queries *)

Lemma filter_ext_rows (P Q : row -> Prop) `{!forall r, Decision (P r), !forall r, Decision (Q r)} (M : list row) : (forall r, r ∈ M -> P r <-> Q r) -> filter P M = filter Q M.
Proof.
  induction M as [|r M IH]; intros Hpq; [reflexivity|]. rewrite !filter_cons, IH by (intros; apply Hpq; right; assumption).
  pose proof (Hpq r ltac:(left)). repeat case_decide; tauto.
Qed.

Lemma select_sql w c M : Forall (row_ok w) M -> cond_ok w c -> Forall (comparable c) M -> select_rows c M = sql_where c M.
Proof. intros HM Hc Hs. rewrite Forall_forall in HM, Hs. apply filter_ext_rows. intros r Hr. apply (evaluate_sql w); auto. Qed.

Lemma columns_sql w r cols : row_ok w r -> columns_ok w cols -> mapM (fun c => r !! c) cols = Some (sql_columns cols r).
Proof.
  intros Hr. induction 1 as [|c cols Hc _ IH]; [reflexivity|]. cbn. rewrite (proj1 (row_cell w r c Hr Hc)). cbn. rewrite IH. reflexivity.
Qed.

Lemma project_sql w cols M : Forall (row_ok w) M -> columns_ok w cols -> project_rows cols M = sql_columns cols <$> M.
Proof.
  intros HM Hc. induction HM as [|r M Hr _ IH]; [reflexivity|]. unfold project_rows in *. cbn. unfold project_row at 1. rewrite (columns_sql w r cols Hr Hc), IH. reflexivity.
Qed.

Lemma bind_ext_rows {A} (f g : row -> list A) (M : list row) : (forall r, r ∈ M -> f r = g r) -> M ≫= f = M ≫= g.
Proof. induction M as [|r M IH]; intros H; [reflexivity|]. cbn. rewrite (H r) by left. f_equal. apply IH. intros; apply H; right; assumption. Qed.

Lemma combine_sql wl wr emit l r : row_ok wl l -> row_ok wr r -> emit_ok wl wr emit ->
  combine_rows emit l r = Some ((fun p : bool * nat => cell (if p.1 then l else r) p.2) <$> emit).
Proof.
  intros Hl Hr. induction 1 as [|[b c] emit Hc _ IH]; [reflexivity|]. unfold combine_rows, mapM in *. cbn in *.
  destruct b; [rewrite (proj1 (row_cell wl l c Hl Hc))|rewrite (proj1 (row_cell wr r c Hr Hc))]; cbn; rewrite IH; reflexivity.
Qed.

Lemma join_sql wl wr j L R : Forall (row_ok wl) L -> Forall (row_ok wr) R -> join_ok wl wr j ->
  Forall (fun x => key_value (cell x (jo_left_key j))) L -> Forall (fun x => key_value (cell x (jo_right_key j))) R -> join_rows j L R = sql_join j L R.
Proof.
  rewrite !Forall_forall. intros HL HR (Hlk & Hrk & He) KL KR. unfold join_rows, sql_join. apply bind_ext_rows. intros l Hl. apply bind_ext_rows. intros r Hr. unfold match_rows.
  rewrite (proj1 (row_cell wl l _ (HL l Hl) Hlk)), (proj1 (row_cell wr r _ (HR r Hr) Hrk)), (combine_sql wl wr _ l r (HL l Hl) (HR r Hr) He).
  pose proof (sql_equal (cell l (jo_left_key j)) (cell r (jo_right_key j)) (or_intror (KL l Hl)) (KR r Hr)). repeat case_decide; tauto.
Qed.

(** *** Groups *)

Lemma from_slice_values k : group_values (from_slice k) = k.
Proof. destruct k as [|? [|]]; reflexivity. Qed.

#[export] Instance from_slice_inj : Inj (=) (=) from_slice.
Proof. intros k k' E. rewrite <- (from_slice_values k), <- (from_slice_values k'), E. reflexivity. Qed.

Lemma from_row_sql w r cols : row_ok w r -> columns_ok w cols -> from_row r cols = Some (from_slice (sql_columns cols r)).
Proof.
  intros Hr Hc. unfold from_row. destruct cols as [|c [|c' cols]]; [reflexivity| |rewrite (columns_sql w r _ Hr Hc); reflexivity].
  rewrite (proj1 (row_cell w r c Hr (Forall_inv Hc))). reflexivity.
Qed.

Lemma remove_dups_inj {A B} `{EqDecision A, EqDecision B} (f : A -> B) `{!Inj (=) (=) f} (l : list A) : remove_dups (f <$> l) = f <$> remove_dups l.
Proof.
  induction l as [|x l IH]; [reflexivity|]. cbn. rewrite IH. assert (E : f x ∈ f <$> l <-> x ∈ l).
  { rewrite list_elem_of_fmap. split; [intros (y & Ey%(inj f) & Hy); subst y; exact Hy|eauto]. }
  repeat case_match; first [reflexivity|exfalso; firstorder].
Qed.

Section GroupSql.
Context (w : nat) (gb : list nat) (Hgb : columns_ok w gb).

Lemma keys_sql M : Forall (row_ok w) M -> omap (fun r => from_row r gb) M = from_slice <$> (sql_columns gb <$> M).
Proof. induction 1 as [|r M Hr _ IH]; [reflexivity|]. cbn. rewrite (from_row_sql w r gb Hr Hgb), IH. reflexivity. Qed.

Lemma weigh_sql (g : row -> Z) k M : Forall (row_ok w) M ->
  weigh (fun r => if decide (from_row r gb = Some (from_slice k)) then g r else 0) M = weigh g (filter (fun r => sql_columns gb r = k) M).
Proof.
  induction 1 as [|r M Hr _ IH]; [reflexivity|]. rewrite weigh_cons, filter_cons, IH, (from_row_sql w r gb Hr Hgb).
  destruct (decide (sql_columns gb r = k)) as [->|N]; [rewrite decide_True by reflexivity; reflexivity|]. rewrite decide_False by (intros [= E%(inj from_slice)]; contradiction). lia.
Qed.

Lemma count_sql k M : Forall (row_ok w) M -> group_count gb (from_slice k) M = Zlen (filter (fun r => sql_columns gb r = k) M).
Proof.
  intros HM. unfold group_count, count_weight. rewrite (weigh_sql (fun _ => 1) k M HM). generalize (filter (fun r => sql_columns gb r = k) M). intros G. induction G as [|r G IH]; [reflexivity|]. rewrite weigh_cons, Zlen_cons, IH. lia.
Qed.

Lemma sum_sql col k M : Forall (row_ok w) M -> (col < w)%nat -> Forall (fun x => is_integer (cell x col)) M ->
  group_sum gb (Sum col) (from_slice k) M = sql_sum col (filter (fun r => sql_columns gb r = k) M).
Proof.
  intros HM Hc Hi. unfold group_sum, sum_weight. rewrite (weigh_sql (fun r => default 0 (value_of (Sum col) r)) k M HM). unfold sql_sum, weigh.
  assert (HG : forall r, r ∈ filter (fun r => sql_columns gb r = k) M -> r ∈ M) by (intros r Hr; apply list_elem_of_filter in Hr; tauto).
  rewrite Forall_forall in HM, Hi. revert HG. generalize (filter (fun r => sql_columns gb r = k) M). induction l as [|r G IH]; intros HG; [reflexivity|]. cbn [foldr].
  rewrite IH by (intros; apply HG; right; assumption). f_equal. assert (Hr : r ∈ M) by (apply HG; left). unfold value_of. rewrite (proj1 (row_cell w r col (HM r Hr) Hc)).
  specialize (Hi r Hr). destruct (cell r col); try contradiction. reflexivity.
Qed.

Lemma group_sql f M : Forall (row_ok w) M -> func_ok w f ->
  match f with
  | Count => True
  | Sum col => Forall (fun x => is_integer (cell x col)) M /\ forall k, is_i64 (sql_sum col (filter (fun x => sql_columns gb x = k) M))
  | _ => False
  end -> aggregate_rows gb f M = sql_group gb f M.
Proof.
  intros HM Hf Hs. unfold aggregate_rows, sql_group. rewrite (keys_sql M HM), (remove_dups_inj from_slice), <- list_fmap_compose. apply list_fmap_ext. intros i k _. cbn.
  unfold group_row. rewrite from_slice_values. f_equal. f_equal. destruct f as [|col|col|col|col]; try contradiction.
  - rewrite (count_sql k M HM). reflexivity.
  - destruct Hs as [Hi Hb]. rewrite (sum_sql col k M HM Hf Hi), (i64_id _ (Hb k)). reflexivity.
Qed.
End GroupSql.

(** *** The nodes of a graph *)

Section Meaning.
Context (W : nat -> nat) (nodes : list Node).

(** [X] gives every node the rows of its query, with values the operators support. *)
Definition answers (X : nat -> list row) : Prop :=
  forall i n, nodes !! i = Some n -> (forall q, sql_query n X = Some q -> X i ≡ₚ q) /\ supported n X /\ Forall (row_ok (W i)) (X i) /\ Zlen (X i) < 2 ^ 63.

Lemma query_sql i n X : operator_typed W i n -> supported n X -> (forall p, p ∈ nd_parents n -> Forall (row_ok (W p)) (X p)) -> node_query n X = sql_query n X.
Proof.
  unfold operator_typed, supported, node_query, sql_query. destruct (nd_operator n) as [op|]; [|reflexivity].
  destruct op as [c|emit|j|a|]; destruct (nd_parents n) as [|p [|r [|]]]; try reflexivity; intros Ht Hs HM; f_equal.
  - apply (select_sql (W p)); [apply HM; left|apply Ht|exact Hs].
  - apply (project_sql (W p)); [apply HM; left|apply Ht].
  - apply (join_sql (W p) (W r)); [apply HM; left|apply HM; right; left|apply Ht|apply Hs|apply Hs].
  - apply (group_sql (W p)); [apply Ht|apply HM; left|apply Ht|apply Hs].
Qed.

Lemma answers_solves X : graph_ok nodes -> (forall i n, nodes !! i = Some n -> operator_typed W i n) -> answers X -> solves W nodes X.
Proof.
  intros Hg Ht HX i n En. destruct (HX i n En) as (Hq & Hs & Hr & Hl). split_and!; [|exact Hr|exact Hl]. rewrite (query_sql i n X (Ht i n En) Hs); [exact Hq|].
  intros p Hp. pose proof (go_parents _ Hg i n p En Hp) as L. apply lookup_lt_Some in En. destruct (lookup_lt_is_Some_2 nodes p) as [m Em]; [lia|]. apply (HX p m Em).
Qed.
End Meaning.

Lemma with_key_sql w cols key M : Forall (row_ok w) M -> columns_ok w cols -> length key = length cols -> Forall key_value key ->
  Forall (fun r => Forall (fun c => discrete (cell r c)) cols) M -> with_key cols (from_slice key) M = filter (sql_key cols key) M.
Proof.
  rewrite !Forall_forall. intros HM Hc Hl Hk Hd. apply filter_ext_rows. intros r Hr. rewrite (from_row_sql w r cols (HM r Hr) Hc).
  transitivity (sql_columns cols r = key); [split; [intros [= E%(inj from_slice)]; exact E|congruence]|]. specialize (Hd r Hr). unfold sql_key, sql_columns. rewrite Forall_forall in Hd.
  clear -Hl Hk Hd. revert key Hl Hk. induction cols as [|c cols IH]; intros [|d key] L Hk; try discriminate; [split; [constructor|reflexivity]|].
  cbn. rewrite Forall2_cons, <- (IH ltac:(intros; apply Hd; right; assumption) key) by (first [injection L as L; exact L|intros; apply Hk; right; assumption]).
  rewrite (sql_equal (cell r c) d) by (first [apply Hd; left|apply Hk; left]). split; [intros [= -> ->]; auto|intros [-> ->]; reflexivity].
Qed.

Section Writes.
Context (order : Groups -> Groups) (W : nat -> nat).

(** Every node holds the rows [X] gives it. *)
Definition holds (ex : LocalExecutor) (X : nat -> list row) : Prop := forall i, tracks X i (ex_nodes ex).

Lemma write_tracks D E ex table base rs M' : (forall g, order g ≡ₚ g) -> get_base_table ex table = Some base -> (base < length (ex_nodes ex))%nat ->
  setting W D E (ex_nodes ex) base -> holds ex D -> records_ok (W base) rs -> apply_all (D base) rs = Some M' -> M' ≡ₚ E base ->
  exists ex', apply_write order ex table rs = Some ex' /\ statics (ex_nodes ex') = statics (ex_nodes ex) /\ holds ex' E.
Proof.
  intros Hord Eb Lb HS Hh Hrs Happ HM. unfold apply_write. rewrite Eb. destruct (propagate_tracks order Hord W D E (ex_nodes ex) base HS (S (length (ex_nodes ex))) base (ex_nodes ex) rs M') as (nodes' & -> & [A1 A2 A3 A4 A5]); auto.
  - split_and!; [exact Lb|lia|exact (se_once _ _ _ _ _ HS)|auto].
  - split; [reflexivity|intros n En; exact (proj1 (Hh base n En))|intros j _ _; exact (Hh j)|intros j _ n En; exact (proj1 (Hh j n En))].
  - eexists. split; [reflexivity|]. split; [exact A1|]. intros j. cbn. destruct (decide (j ∈ reached (ex_nodes ex) base)) as [Hj|Hj].
    + destruct (decide (j = base)) as [->|N]; [|exact (A5 j Hj N)]. intros n En. split; [exact (A3 n En)|]. destruct (statics_lookup _ _ _ _ A1 En) as (n0 & E0 & S0).
      pose proof (A4 n0 n E0 En) as Eo. assert (Ep : nd_parents n = nd_parents n0) by (unfold static in S0; congruence).
      destruct (se_typed _ _ _ _ _ HS base n0 E0) as (Ht & _). unfold groups_track. rewrite Eo, Ep. destruct (nd_operator n0) as [[| | |a|]|] eqn:Eop; auto.
      destruct (nd_parents n0) as [|p [|]] eqn:Epp; auto. pose proof (proj2 (Hh base n0 E0)) as Hg. unfold groups_track in Hg. rewrite Eop, Epp in Hg.
      apply (represents_perm _ _ _ (D p)); [|exact Hg]. apply (se_other _ _ _ _ _ HS). intros Hr.
      pose proof (go_parents _ (se_graph _ _ _ _ _ HS) base n0 p E0 ltac:(rewrite Epp; left)). destruct (visits_ge _ (se_graph _ _ _ _ _ HS) _ _ _ Hr); lia.
    + apply (tracks_perm D E (ex_nodes ex) j nodes' A1 (se_other _ _ _ _ _ HS j Hj)).
      * intros n q En Hq. apply (se_other _ _ _ _ _ HS). intros Hr. apply Hj. pose proof (se_graph _ _ _ _ _ HS) as Hok. destruct (lookup_lt_is_Some_2 (ex_nodes ex) q) as [m Em].
        { pose proof (go_parents _ Hok j n q En Hq). apply lookup_lt_Some in En. lia. }
        apply (visits_closed _ Hok _ _ q m j); auto; [lia|]. apply (go_edge _ Hok q j m n Em En). exact Hq.
      * intros n. rewrite (A2 j Hj). exact (Hh j n).
Qed.

(** What a lookup of a view returns. *)
Lemma lookup_holds ex X view key n st : holds ex X -> ex_nodes ex !! vh_node view = Some n -> nd_state n = Some st -> ms_key_columns st = vh_key_columns view -> plain_row key ->
  exists r, executor_lookup ex view key = Some r /\ default [] r ≡ₚ with_key (vh_key_columns view) (from_slice key) (X (vh_node view)).
Proof.
  intros Hh En Es Ek Hk. unfold executor_lookup. rewrite En. cbn [mbind option_bind]. rewrite Es. eexists. split; [reflexivity|].
  pose proof (stored_lookup st _ key (proj1 (Hh _ n En) st Es) Hk) as L. rewrite Ek in L. destruct (state_lookup st key); [exact (proj2 L)|contradiction|]. cbn. rewrite L. reflexivity.
Qed.
End Writes.

(** What the theorems on writes ask of a graph: edges lead from older to newer
    nodes; operators read columns their parents have, and joins are inner joins of
    two nodes materialized on the join's keys; [D] and [E] answer every node's query
    in SQL; the write reaches no node by two paths; and what it does not reach has
    the same rows in [D] and [E]. *)
Record sql_setting (W : nat -> nat) (D E : nat -> list row) (nodes : list Node) (root : nat) : Prop := {
  ss_graph : graph_ok nodes;
  ss_typed : forall i n, nodes !! i = Some n -> operator_typed W i n /\ state_typed (W i) n /\ join_ready nodes n;
  ss_old : answers W nodes D;
  ss_new : answers W nodes E;
  ss_once : NoDup (reached nodes root);
  ss_other : forall i, i ∉ reached nodes root -> D i ≡ₚ E i
}.

Lemma sql_setting_solves W D E nodes root : sql_setting W D E nodes root -> setting W D E nodes root.
Proof.
  intros [Hg Ht HD HE Ho Hu]. assert (T : forall i n, nodes !! i = Some n -> operator_typed W i n) by (intros i n En; apply (Ht i n En)).
  split; auto using answers_solves.
Qed.

(** Writes change neither the types of the nodes nor those of their rows. *)
Lemma written_typed W D E nodes root nodes' i n : sql_setting W D E nodes root -> statics nodes' = statics nodes -> nodes' !! i = Some n ->
  state_typed (W i) n /\ Forall (row_ok (W i)) (E i).
Proof.
  intros HS Es En. destruct (statics_lookup _ _ _ _ Es En) as (n0 & E0 & S0). destruct (ss_typed _ _ _ _ _ HS i n0 E0) as (_ & Ht & _). split; [|apply (ss_new _ _ _ _ _ HS i n0 E0)].
  intros st Est. assert (Ek : key_columns_of nodes' i = key_columns_of nodes i) by exact (statics_keys _ _ _ Es). unfold key_columns_of in Ek. rewrite En, E0 in Ek. cbn in Ek. rewrite Est in Ek.
  destruct (nd_state n0) as [st0|] eqn:Est0; [|discriminate]. injection Ek as ->. exact (Ht st0 Est0).
Qed.

(** A key to look up: one value for every key column of the view, none of them NULL,
    a real or a blob, and neither are the rows' values in these columns, NULL apart. *)
Definition key_asked (cols : list nat) (key : list DataType) (M : list row) : Prop :=
  length key = length cols /\ Forall key_value key /\ Forall (fun r => Forall (fun c => discrete (cell r c)) cols) M.

Lemma key_value_plain d : key_value d -> plain d.
Proof. intros [H|H]; [destruct d; try contradiction; exact I|apply text_shape, H]. Qed.

Lemma lookup_sql ex X W view key : holds ex X -> (forall i n, ex_nodes ex !! i = Some n -> state_typed (W i) n /\ Forall (row_ok (W i)) (X i)) ->
  key_columns_of (ex_nodes ex) (vh_node view) = Some (vh_key_columns view) -> key_asked (vh_key_columns view) key (X (vh_node view)) ->
  exists r, executor_lookup ex view key = Some r /\ default [] r ≡ₚ filter (sql_key (vh_key_columns view) key) (X (vh_node view)).
Proof.
  intros Hh Ht Hview (Hl & Hk & Hd). unfold key_columns_of in Hview. destruct (ex_nodes ex !! vh_node view) as [n|] eqn:En; [|discriminate]. cbn in Hview.
  destruct (nd_state n) as [st|] eqn:Est; [|discriminate]. injection Hview as Hview. destruct (Ht _ n En) as [Hst Hrows].
  destruct (lookup_holds ex X view key n st Hh En Est Hview) as (r & Er & Pr); [eapply Forall_impl; [exact Hk|exact key_value_plain]|].
  exists r. split; [exact Er|]. rewrite Pr, (with_key_sql (W (vh_node view))); auto. rewrite <- Hview. exact (Hst st Est).
Qed.

(** C3: a write to a base table brings the views below it up to date, in the graphs
    and states the hypotheses describe.  Let [D] give the rows of every node before
    the write and [E] the rows after it; both answer every node's query as SQL
    defines it (WHERE with three truth values, the list of columns, inner joins,
    GROUP BY with COUNT or SUM of integers; see [supported] for the values).  When
    joins are inner joins, the write reaches no node by two paths, and every
    materialized node and aggregate holds all its rows of [D], [apply_write]
    succeeds whatever the order in which hash maps are traversed, afterwards every
    materialized node and every aggregate holds its rows of [E], and a lookup of a
    view by a key of integers and texts (see [key_asked]) returns exactly the rows of
    [E] whose key columns equal the key. *)
Theorem views_follow_writes order W D E ex table base rs M' view key :
  (forall g, order g ≡ₚ g) -> get_base_table ex table = Some base -> (base < length (ex_nodes ex))%nat ->
  sql_setting W D E (ex_nodes ex) base -> holds ex D -> records_ok (W base) rs -> apply_all (D base) rs = Some M' -> M' ≡ₚ E base ->
  key_columns_of (ex_nodes ex) (vh_node view) = Some (vh_key_columns view) -> key_asked (vh_key_columns view) key (E (vh_node view)) ->
  exists ex' r, apply_write order ex table rs = Some ex' /\ holds ex' E /\
    executor_lookup ex' view key = Some r /\ default [] r ≡ₚ filter (sql_key (vh_key_columns view) key) (E (vh_node view)).
Proof.
  intros Hord Eb Lb HS Hh Hrs Happ HM Hview Hkey. destruct (write_tracks order W D E ex table base rs M') as (ex' & Ew & Es & Hh'); auto using sql_setting_solves.
  destruct (lookup_sql ex' E W view key Hh') as (r & Er & Pr); [|rewrite (statics_keys _ _ _ Es); exact Hview|exact Hkey|exists ex', r; auto].
  intros i n En. exact (written_typed W D E (ex_nodes ex) base (ex_nodes ex') i n HS Es En).
Qed.

(** C17: propagation terminates.  The fuel [apply_write] starts with is enough in
    every graph whose edges lead from older to newer nodes: any larger fuel gives
    the same result, so running out of fuel is never the reason for a failure. *)
Theorem propagation_terminates order ex base rs fuel :
  graph_ok (ex_nodes ex) -> (S (length (ex_nodes ex)) <= fuel)%nat ->
  propagate order fuel (ex_nodes ex) base rs = propagate order (S (length (ex_nodes ex))) (ex_nodes ex) base rs.
Proof. intros Hok Hf. apply propagate_fuel; [exact Hok|lia..]. Qed.

(** ** A graph: votes joined with articles, counted by article *)

Definition demo_join : JoinOp := mkJoin Inner 0 0 [(true, 0%nat); (true, 1%nat); (false, 1%nat)].
Definition demo_article : row := [DBigInt 1; DBigInt 40].
Definition demo_vote : row := [DBigInt 1; DBigInt 7].

Definition demo_executor : option LocalExecutor :=
  let '(ex, votes) := add_base_table LocalExecutor_new (str "votes") in
  let '(ex, articles) := add_base_table ex (str "articles") in
  '(ex, _) ← materialize ex votes [0%nat];
  '(ex, _) ← materialize ex articles [0%nat];
  '(ex, joined) ← add_operator ex (OJoin demo_join) [votes; articles];
  '(ex, counted) ← add_operator ex (OAggregate (mkAggregate [0%nat] Count [])) [joined];
  '(ex, _) ← materialize ex counted [0%nat];
  apply_write (fun g => g) ex (str "articles") [Positive demo_article].

Definition demo_ex : LocalExecutor := Eval vm_compute in default LocalExecutor_new demo_executor.

Definition demo_width (i : nat) : nat := match i with 2%nat => 3%nat | _ => 2%nat end.
Definition demo_before (i : nat) : list row := match i with 1%nat => [demo_article] | _ => [] end.
Definition demo_after (i : nat) : list row :=
  match i with
  | 0%nat => [demo_vote]
  | 1%nat => [demo_article]
  | 2%nat => [[DBigInt 1; DBigInt 7; DBigInt 40]]
  | 3%nat => [[DBigInt 1; DBigInt 1]]
  | _ => []
  end.

(** The four nodes. *)
Ltac demo_node i := destruct i as [|[|[|[|i]]]]; [| | | |intros; exfalso; match goal with H : context [_ !! _ = Some _] |- _ => discriminate H end].

Lemma stores_of cols rs st M : process_records (MemoryState_new cols) rs = Some st -> Forall (record_ok cols) rs -> apply_all [] rs = Some M -> stores st M.
Proof. intros E H A. destruct (stored_records (MemoryState_new cols) [] rs M (new_stores cols) H A) as (st' & E' & Hst & _). congruence. Qed.

Lemma demo_graph_ok : graph_ok (ex_nodes demo_ex).
Proof.
  split.
  - intros i n c. demo_node i; intros [= <-]; cbn [nd_children length ex_nodes demo_ex]; rewrite ?elem_of_cons, ?elem_of_nil; lia.
  - intros i n p. demo_node i; intros [= <-]; cbn [nd_parents]; rewrite ?elem_of_cons, ?elem_of_nil; lia.
  - intros i c n m. demo_node i; demo_node c; intros [= <-] [= <-]; cbn [nd_children nd_parents]; rewrite ?elem_of_cons, ?elem_of_nil; lia.
Qed.

Ltac plain_rows := repeat (first [constructor | split | exact I | reflexivity]).

Lemma demo_holds : holds demo_ex demo_before.
Proof.
  intros i n. demo_node i; intros [= <-]; (split; [|try exact I; exact (represents_nil _ _)]); intros st; cbn; intros [= <-] || discriminate; try apply new_stores.
  apply (stores_of [0%nat] [Positive demo_article]); [reflexivity| |reflexivity]. constructor; [|constructor]. split; [plain_rows|vm_compute; eauto].
Qed.

Lemma demo_answers X : X = demo_before \/ X = demo_after -> answers demo_width (ex_nodes demo_ex) X.
Proof.
  intros HX i n. demo_node i; intros [= <-]; destruct HX as [-> | ->]; (split; [intros q; cbn; intros [= <-] || intros; try discriminate; vm_compute; reflexivity|split; [|split; [plain_rows|reflexivity]]]);
    cbn; unfold key_value, discrete, is_integer; repeat (first [exact I | left; exact I | right; left; exact I | constructor | discriminate]).
Qed.

Lemma demo_setting : sql_setting demo_width demo_before demo_after (ex_nodes demo_ex) 0.
Proof.
  split; [exact demo_graph_ok| |apply demo_answers; auto|apply demo_answers; auto|exact (bool_decide_unpack (NoDup (reached (ex_nodes demo_ex) 0)) I)|].
  - intros i n. demo_node i; intros [= <-]; (split; [|split]); try exact I; try (intros st; cbn; intros [= <-] || discriminate); cbn; unfold columns_ok, join_ok, emit_ok; cbn; repeat (first [split | constructor | lia | discriminate]).
  - intros i Hi. destruct i as [|[|[|[|i]]]]; try reflexivity; destruct Hi; match goal with |- ?P => exact (bool_decide_unpack P I) end.
Qed.

Lemma demo_key : key_asked [0%nat] [DBigInt 1] (demo_after 3).
Proof. split; [reflexivity|]. split; [constructor; [left; exact I|constructor]|]. constructor; [constructor; [right; left; exact I|constructor]|constructor]. Qed.

Lemma views_follow_writes_witness : exists ex' r, apply_write (fun g => g) demo_ex (str "votes") [Positive demo_vote] = Some ex' /\ holds ex' demo_after /\
  executor_lookup ex' (mkView 3 [0%nat]) [DBigInt 1] = Some r /\ default [] r ≡ₚ filter (sql_key [0%nat] [DBigInt 1]) (demo_after 3).
Proof.
  apply (views_follow_writes (fun g => g) demo_width demo_before demo_after demo_ex (str "votes") 0 [Positive demo_vote] [demo_vote] (mkView 3 [0%nat]) [DBigInt 1]);
    [reflexivity|vm_compute; reflexivity|cbn; lia|exact demo_setting|exact demo_holds|plain_rows|reflexivity|reflexivity|vm_compute; reflexivity|exact demo_key].
Defined.

Lemma propagation_terminates_witness :
  propagate (fun g => g) 1000 (ex_nodes demo_ex) 0 [Positive demo_vote] = propagate (fun g => g) 5 (ex_nodes demo_ex) 0 [Positive demo_vote].
Proof. apply (propagation_terminates (fun g => g) demo_ex 0 [Positive demo_vote] 1000); [exact demo_graph_ok|cbn; lia]. Defined.
