(* ===== verification/EngineBuild.v ===== *)
(** * Building the dataflow graph (noria-sqlite/src/dataflow/executor.rs)

    Adding tables and operators and materializing nodes keeps the graph acyclic and
    every operator within the columns of its parents. *)
From stdpp Require Import strings.
From S2P Require Import Prelude Double Value Strings Noria DataType EngineState EngineOps Executor EngineGraph EngineCorrect EngineAggregate EngineNode.

Local Open Scope Z_scope.

(** ** Registration with the parents *)

(** The same node with other children. *)
Definition same_but_children (n n' : Node) : Prop :=
  nd_operator n' = nd_operator n /\ nd_parents n' = nd_parents n /\ nd_state n' = nd_state n.

Lemma register_child_spec idx parents nodes : Forall (fun p => (p < length nodes)%nat) parents ->
  exists nodes', register_child idx parents nodes = Some nodes' /\ length nodes' = length nodes /\
    forall i n', nodes' !! i = Some n' -> exists n, nodes !! i = Some n /\ same_but_children n n' /\ forall c, c ∈ nd_children n' <-> c ∈ nd_children n \/ (c = idx /\ i ∈ parents).
Proof.
  revert nodes. induction parents as [|p parents IH]; intros nodes H; cbn [register_child].
  - exists nodes. split_and!; auto. intros i n' E. exists n'. split_and!; [exact E|split_and!; reflexivity|]. intros c. rewrite elem_of_nil. tauto.
  - inversion H as [|? ? Hp Hps]; subst. destruct (lookup_lt_is_Some_2 nodes p Hp) as [n En]. rewrite En. cbn [mbind option_bind].
    destruct (IH (<[p := add_child idx n]> nodes)) as (nodes' & E' & L' & S'); [rewrite length_insert; exact Hps|]. exists nodes'. rewrite length_insert in L'. split_and!; auto.
    intros i n' Ei. destruct (S' i n' Ei) as (m & Em & (O & P & T) & C). destruct (decide (i = p)) as [->|N].
    + rewrite list_lookup_insert_eq in Em by exact Hp. injection Em as <-. exists n. split_and!; [exact En|split_and!; auto|]. intros c. rewrite C. cbn [nd_children add_child]. rewrite elem_of_app, list_elem_of_singleton, elem_of_cons. tauto.
    + rewrite list_lookup_insert_ne in Em by congruence. exists m. split_and!; [exact Em|split_and!; auto|]. intros c. rewrite C, elem_of_cons. tauto.
Qed.

(** ** Executors whose operators fit *)

Record well_built (W : nat -> nat) (nodes : list Node) : Prop := {
  wb_graph : graph_ok nodes;
  wb_typed : forall i n, nodes !! i = Some n -> operator_typed W i n /\ state_typed (W i) n
}.

Definition extends (k : nat) (W W' : nat -> nat) : Prop := forall i, (i < k)%nat -> W' i = W i.

Definition set_width (W : nat -> nat) (k w : nat) (i : nat) : nat := if decide (i = k) then w else W i.

Lemma set_width_same W k w : set_width W k w k = w.
Proof. unfold set_width. rewrite decide_True; reflexivity. Qed.

Lemma set_width_extends W k w : extends k W (set_width W k w).
Proof. intros i H. unfold set_width. rewrite decide_False; [reflexivity|lia]. Qed.

Lemma extends_trans k k' W W' W'' : (k <= k')%nat -> extends k W W' -> extends k' W' W'' -> extends k W W''.
Proof. intros L H H' i Hi. rewrite H', H; [reflexivity|lia..]. Qed.

Lemma operator_typed_ext W W' i n : (forall p, p ∈ nd_parents n -> W' p = W p) -> W' i = W i -> operator_typed W i n -> operator_typed W' i n.
Proof.
  intros Hp Hi. unfold operator_typed. rewrite Hi. destruct (nd_operator n) as [op|]; [|auto]. destruct op as [?|?|?|?|]; destruct (nd_parents n) as [|p [|r [|]]]; auto;
    rewrite (Hp p) by left; auto. rewrite (Hp r) by (right; left). auto.
Qed.

(** A node added at the end. *)
Lemma add_node_built W nodes nodes' n w : well_built W nodes -> length nodes' = length nodes ->
  (forall i n', nodes' !! i = Some n' -> exists m, nodes !! i = Some m /\ same_but_children m n' /\ forall c, c ∈ nd_children n' <-> c ∈ nd_children m \/ (c = length nodes /\ i ∈ nd_parents n)) ->
  Forall (fun p => (p < length nodes)%nat) (nd_parents n) -> nd_children n = [] -> nd_state n = None ->
  operator_typed (set_width W (length nodes) w) (length nodes) n ->
  well_built (set_width W (length nodes) w) (nodes' ++ [n]).
Proof.
  intros [[G1 G2 G3] T] L S Hp Hc Hs Ht. remember (length nodes) as k eqn:Hk in *. rewrite Forall_forall in Hp.
  assert (cases : forall i x, (nodes' ++ [n]) !! i = Some x -> (nodes' !! i = Some x /\ (i < k)%nat) \/ (i = k /\ x = n)).
  { intros i x E. apply lookup_app_Some in E as [E|[Li E]]; [left; split; [exact E|apply lookup_lt_Some in E; lia]|]. right.
    apply list_lookup_singleton_Some in E as [E <-]. split; [lia|reflexivity]. }
  split; [split|].
  - intros i x c E Hx. rewrite length_app, L. cbn. destruct (cases i x E) as [[E' Li]|[-> ->]]; [|rewrite Hc in Hx; inversion Hx].
    destruct (S i x E') as (m & Em & _ & C). apply C in Hx as [Hx|[-> _]]; [pose proof (G1 i m c Em Hx)|]; lia.
  - intros i x p E Hx. destruct (cases i x E) as [[E' Li]|[-> ->]]; [|exact (Hp p Hx)]. destruct (S i x E') as (m & Em & (_ & P & _) & _). rewrite P in Hx. exact (G2 i m p Em Hx).
  - intros i c x y E E'. destruct (cases i x E) as [[Ei Li]|[-> ->]], (cases c y E') as [[Ec Lc]|[-> ->]].
    + destruct (S i x Ei) as (m & Em & _ & C). destruct (S c y Ec) as (m' & Em' & (_ & P & _) & _). rewrite C, P, (G3 i c m m' Em Em'). split; [intros [H|[-> _]]; [exact H|lia]|auto].
    + destruct (S i x Ei) as (m & Em & _ & C). rewrite C. split; [intros [H|[_ H]]; [pose proof (G1 i m k Em H); lia|exact H]|auto].
    + rewrite Hc, elem_of_nil. destruct (S c y Ec) as (m' & Em' & (_ & P & _) & _). rewrite P. split; [contradiction|]. intros H. pose proof (G2 c m' k Em' H). lia.
    + rewrite Hc, elem_of_nil. split; [contradiction|]. intros H. specialize (Hp k H). lia.
  - intros i x E. destruct (cases i x E) as [[E' Li]|[-> ->]]; [|split; [exact Ht|intros st; rewrite Hs; discriminate]].
    destruct (S i x E') as (m & Em & (O & P & St) & _). destruct (T i m Em) as [T1 T2]. split.
    + apply (operator_typed_ext W); [|apply set_width_extends; exact Li|].
      * intros p Hx. rewrite P in Hx. pose proof (G2 i m p Em Hx). apply set_width_extends. lia.
      * unfold operator_typed in *. rewrite O, P. exact T1.
    + intros st. rewrite St, (set_width_extends W k w i Li). exact (T2 st).
Qed.

Lemma materialize_built W ex i keys : well_built W (ex_nodes ex) -> (i < length (ex_nodes ex))%nat -> columns_ok (W i) keys ->
  exists ex', materialize ex i keys = Some (ex', mkView i keys) /\ well_built W (ex_nodes ex') /\ length (ex_nodes ex') = length (ex_nodes ex) /\ ex_base_tables ex' = ex_base_tables ex.
Proof.
  intros [G T] L Hk. destruct (lookup_lt_is_Some_2 _ _ L) as [n En]. unfold materialize. rewrite En. cbn [mbind option_bind]. eexists. split; [reflexivity|]. cbn.
  split_and!; [|apply length_insert|reflexivity]. split.
  - apply (shape_graph_ok (ex_nodes ex)); [|exact G]. apply (shape_insert _ _ n); [exact En|reflexivity].
  - intros j m Em. destruct (decide (j = i)) as [->|N].
    + rewrite list_lookup_insert_eq in Em by exact L. injection Em as <-. split; [exact (proj1 (T i n En))|]. intros st [= <-]. exact Hk.
    + rewrite list_lookup_insert_ne in Em by congruence. exact (T j m Em).
Qed.

Lemma add_operator_built W ex op parents w : well_built W (ex_nodes ex) -> Forall (fun p => (p < length (ex_nodes ex))%nat) parents ->
  operator_typed (set_width W (length (ex_nodes ex)) w) (length (ex_nodes ex)) (mkNode (Some op) parents [] None) ->
  exists ex', add_operator ex op parents = Some (ex', length (ex_nodes ex)) /\ well_built (set_width W (length (ex_nodes ex)) w) (ex_nodes ex') /\
    length (ex_nodes ex') = S (length (ex_nodes ex)) /\ ex_base_tables ex' = ex_base_tables ex.
Proof.
  intros Hb Hp Ht. unfold add_operator. destruct (register_child_spec (length (ex_nodes ex)) parents (ex_nodes ex) Hp) as (nodes' & -> & L & S). cbn [mbind option_bind].
  eexists. split; [reflexivity|]. cbn. split_and!; [|rewrite length_app, L; cbn; lia|reflexivity]. eapply add_node_built; eauto.
Qed.

Lemma add_base_built W ex name w : well_built W (ex_nodes ex) ->
  well_built (set_width W (length (ex_nodes ex)) w) (ex_nodes (add_base_table ex name).1).
Proof.
  intros Hb. cbn. apply add_node_built; auto; [|exact I]. intros i n En. exists n. split_and!; [exact En|split_and!; reflexivity|].
  intros c. cbn. rewrite elem_of_nil. tauto.
Qed.
