(* ===== verification/EngineSqlCorrect.v ===== *)
(** * The graphs of SELECT statements (noria-sqlite/src/dataflow/sql.rs)

    Whatever the statement, the converter either fails with an error or returns a
    view, it never indexes past the end of a list, and the graph stays well built:
    the columns of every operator and of every key are columns of the rows they
    are read from. *)
From stdpp Require Import strings.
From S2P Require Import Prelude Double Value Strings Noria DataType EngineState EngineOps Executor EngineGraph EngineCorrect EngineAggregate EngineNode EngineBuild EngineSql.

Local Open Scope Z_scope.

(** ** Columns found are there *)

Lemma position_bound {A} (f : A -> bool) l i : position f l = Some i -> (i < length l)%nat /\ exists x, l !! i = Some x /\ f x = true.
Proof.
  unfold position. destruct (list_find _ l) as [[j x]|] eqn:E; [|discriminate]. intros [= <-]. apply list_find_Some in E as (Ej & Hx & _).
  split; [exact (lookup_lt_Some _ _ _ Ej)|eauto].
Qed.

Lemma column_index_bound e columns i : get_column_index_from_expr e columns = Some i -> (i < length columns)%nat.
Proof.
  unfold get_column_index_from_expr, column_position. destruct e; try discriminate; [apply position_bound|]. case_match eqn:E; [intros [= <-]|]; eapply position_bound; eauto.
Qed.

Lemma equality_column_bound e columns : forall i, extract_equality_column e columns = Some i -> (i < length columns)%nat.
Proof.
  revert e. fix IH 1. intros e i. destruct e as [| | | | |l op r|es| | |]; cbn [extract_equality_column]; try discriminate.
  - destruct op; try discriminate.
    + destruct (extract_equality_column l columns) as [k|] eqn:El; [intros [= <-]; exact (IH l k El)|exact (IH r i)].
    + apply column_index_bound.
  - destruct es as [|e [|]]; try discriminate. exact (IH e i).
Qed.

Lemma key_columns_ok w columns : columns_ok (length columns) (extract_key_columns w columns).
Proof.
  unfold extract_key_columns. destruct w as [e|]; cbn [mbind option_bind].
  - destruct (extract_equality_column e columns) as [i|] eqn:E; [constructor; [exact (equality_column_bound _ _ _ E)|constructor]|].
    destruct columns; constructor; [cbn; lia|constructor].
  - destruct columns; constructor; [cbn; lia|constructor].
Qed.

(** ** Conditions *)

Section Conditions.
Context (parse_f64 : list Z -> option Z).

(** The text literals of an expression are texts [DataType] can hold. *)
Fixpoint expr_clean (e : Expr) : Prop :=
  match e with
  | ELiteral (LString s) | ELiteral (LCurrent s) => is_Some (from_str s)
  | EBinary l _ r => expr_clean l /\ expr_clean r
  | EParenthesized es => (fix all (es : list Expr) : Prop := match es with [] => True | e :: es => expr_clean e /\ all es end) es
  | _ => True
  end.

Lemma convert_datatype_total e : expr_clean e -> is_Some (convert_expr_to_datatype parse_f64 e).
Proof.
  intros H. destruct e as [| | |l|e'| | | | |]; cbn in *; eauto.
  - destruct l; cbn in *; eauto; destruct H as [d ->]; cbn; eauto.
  - destruct e' as [| | |l| | | | | |]; eauto. destruct l; eauto.
Qed.

Lemma comparison_ok l op r columns : expr_clean r ->
  exists c, convert_comparison parse_f64 l op r columns = Some c /\ match c with inl c => cond_ok (length columns) c | inr _ => True end.
Proof.
  intros Hr. unfold convert_comparison. destruct (get_column_index_from_expr l columns) as [i|] eqn:E; [|eexists; split; [reflexivity|exact I]]. apply column_index_bound in E.
  destruct (convert_datatype_total r Hr) as [v Ev]. assert (G : exists c, (v ← convert_expr_to_datatype parse_f64 r; Some (match v with inr e => inr e | inl v =>
    match op with OpEquals => inl (FEq i v) | OpNotEquals => inl (FNe i v) | OpGreater => inl (FGt i v) | OpLess => inl (FLt i v)
    | OpGreaterEquals => inl (FOr [FGt i v; FEq i v]) | OpLessEquals => inl (FOr [FLt i v; FEq i v]) | _ => inr UnsupportedQuery end end)) = Some c /\
    match c with inl c => cond_ok (length columns) c | inr _ => True end).
  { rewrite Ev. cbn [mbind option_bind]. eexists. split; [reflexivity|]. destruct v as [v|]; [|exact I]. destruct op; cbn; auto. }
  destruct r; try exact G. exists (inl FAlwaysTrue). split; [reflexivity|exact I].
Qed.

Lemma filter_ok e columns : expr_clean e ->
  exists c, convert_expr_to_filter parse_f64 e columns = Some c /\ match c with inl c => cond_ok (length columns) c | inr _ => True end.
Proof.
  revert e. fix IH 1. intros e He. destruct e as [| | | | |l op r|es| | |]; cbn [convert_expr_to_filter]; try (eexists; split; [reflexivity|exact I]).
  - destruct He as [Hl Hr]. destruct op; try (exact (comparison_ok l _ r columns Hr)); try (eexists; split; [reflexivity|exact I]);
      (destruct (IH l Hl) as (a & -> & Ha); cbn [mbind option_bind]; destruct a as [a|]; [|eexists; split; [reflexivity|exact I]];
       destruct (IH r Hr) as (b & -> & Hb); cbn [mbind option_bind]; eexists; split; [reflexivity|]; destruct b; cbn; auto).
  - destruct es as [|e [|]]; try (eexists; split; [reflexivity|exact I]). exact (IH e (proj1 He)).
Qed.

End Conditions.

(** ** Steps of the converter *)

Section Steps.
Context (schemas : Schemas) (nonempty : forall t columns, get_schema t schemas = Some columns -> columns <> []).

(** The graph is well built, and a base table has the columns of its schema. *)
Record fits (W : nat -> nat) (ex : LocalExecutor) : Prop := {
  ft_built : well_built W (ex_nodes ex);
  ft_base : forall name i, table_entry name (ex_base_tables ex) = Some i ->
    (i < length (ex_nodes ex))%nat /\ exists columns, get_schema name schemas = Some columns /\ W i = length columns
}.

Definition grows (W : nat -> nat) (ex : LocalExecutor) (W' : nat -> nat) (ex' : LocalExecutor) : Prop :=
  (length (ex_nodes ex) <= length (ex_nodes ex'))%nat /\ extends (length (ex_nodes ex)) W W'.

(** [m] does not panic, and if it returns a value then [Q] holds of it. *)
Definition yields {A} (W : nat -> nat) (ex : LocalExecutor) (m : Build A) (Q : (nat -> nat) -> LocalExecutor -> A -> Prop) : Prop :=
  exists ex' r W', m ex = Some (ex', r) /\ fits W' ex' /\ grows W ex W' ex' /\ match r with inl a => Q W' ex' a | inr _ => True end.

Lemma grows_refl W ex : grows W ex W ex.
Proof. split; [lia|intros i _; reflexivity]. Qed.

Lemma yields_ret {A} W ex (a : A) (Q : (nat -> nat) -> LocalExecutor -> A -> Prop) : fits W ex -> Q W ex a -> yields W ex (ret a) Q.
Proof. intros Hf Hq. exists ex, (inl a), W. split_and!; [reflexivity|exact Hf|apply grows_refl|exact Hq]. Qed.

Lemma yields_throw {A} W ex e (Q : (nat -> nat) -> LocalExecutor -> A -> Prop) : fits W ex -> yields W ex (throw e) Q.
Proof. intros Hf. exists ex, (inr e), W. split_and!; [reflexivity|exact Hf|apply grows_refl|exact I]. Qed.

Lemma yields_lift {A} W ex (r : A + SqlError) (Q : (nat -> nat) -> LocalExecutor -> A -> Prop) : fits W ex -> (forall a, r = inl a -> Q W ex a) -> yields W ex (lift r) Q.
Proof. intros Hf Hq. destruct r as [a|e]; [apply yields_ret; auto|apply yields_throw; exact Hf]. Qed.

Lemma yields_panic {A} W ex r (Q : (nat -> nat) -> LocalExecutor -> A -> Prop) : fits W ex -> (exists x, r = Some x /\ match x with inl a => Q W ex a | inr _ => True end) -> yields W ex (lift_panic r) Q.
Proof. intros Hf (x & -> & Hq). exists ex, x, W. split_and!; [reflexivity|exact Hf|apply grows_refl|exact Hq]. Qed.

Lemma yields_bind {A B} W ex (m : Build A) (f : A -> Build B) Q R : yields W ex m Q ->
  (forall W' ex' a, fits W' ex' -> grows W ex W' ex' -> Q W' ex' a -> yields W' ex' (f a) R) -> yields W ex (bindB m f) R.
Proof.
  intros (ex1 & r & W1 & E1 & F1 & (L1 & X1) & H1) K. unfold yields, bindB. rewrite E1. cbn [mbind option_bind]. destruct r as [a|e].
  - destruct (K W1 ex1 a F1 (conj L1 X1) H1) as (ex2 & r2 & W2 & E2 & F2 & (L2 & X2) & H2). exists ex2, r2, W2. split_and!; auto.
    split; [lia|exact (extends_trans _ _ _ _ _ L1 X1 X2)].
  - exists ex1, (inr e), W1. split_and!; auto. split; auto.
Qed.

Lemma yields_weaken {A} W ex (m : Build A) Q R : yields W ex m Q -> (forall W' ex' a, Q W' ex' a -> R W' ex' a) -> yields W ex m R.
Proof. intros (ex1 & r & W1 & E1 & F1 & G1 & H1) K. exists ex1, r, W1. split_and!; auto. destruct r; auto. Qed.

(** A node with the columns [columns]. *)
Definition good (W : nat -> nat) (ex : LocalExecutor) (p : nat * list (list Z)) : Prop :=
  (p.1 < length (ex_nodes ex))%nat /\ W p.1 = length p.2 /\ p.2 <> [].

Lemma good_grows W ex W' ex' p : grows W ex W' ex' -> good W ex p -> good W' ex' p.
Proof. intros [L X] (H1 & H2 & H3). split_and!; [lia|rewrite X; auto|exact H3]. Qed.

Lemma fits_same_tables W W' ex ex' : fits W ex -> well_built W' (ex_nodes ex') -> grows W ex W' ex' -> ex_base_tables ex' = ex_base_tables ex -> fits W' ex'.
Proof.
  intros [Hb Ht] Hb' [L X] E. split; [exact Hb'|]. intros name i Hi. rewrite E in Hi. destruct (Ht name i Hi) as (Li & columns & Ec & Ew).
  split; [lia|]. exists columns. rewrite X; auto.
Qed.

Lemma select_table_yields W ex t : fits W ex -> yields W ex (build_select_table schemas t) good.
Proof.
  intros Hf. destruct t as [name|]; cbn [build_select_table]; [|apply yields_throw; exact Hf].
  destruct (get_schema name schemas) as [columns|] eqn:Es; [|apply yields_throw; exact Hf].
  unfold yields, get_or_add_base_table, get_base_table. destruct (table_entry name (ex_base_tables ex)) as [i|] eqn:Ei.
  - exists ex, (inl (i, columns)), W. destruct (ft_base _ _ Hf name i Ei) as (Li & c' & Ec & Ew). rewrite Es in Ec. injection Ec as <-.
    split_and!; [reflexivity|exact Hf|apply grows_refl|]. split_and!; [exact Li|exact Ew|exact (nonempty _ _ Es)].
  - pose proof (add_base_built W ex name (length columns) (ft_built _ _ Hf)) as Hb. pose proof (set_width_extends W (length (ex_nodes ex)) (length columns)) as X.
    eexists _, _, (set_width W (length (ex_nodes ex)) (length columns)). split_and!; [reflexivity| |split|].
    + split; [exact Hb|]. cbn. intros nm j. rewrite length_app. cbn. case_decide as D.
      * intros [= <-]. subst nm. split; [lia|]. exists columns. split; [exact Es|apply set_width_same].
      * intros Hj. destruct (ft_base _ _ Hf nm j Hj) as (Lj & c' & Ec & Ew). split; [lia|]. exists c'. rewrite X; auto.
    + cbn. rewrite length_app. lia.
    + exact X.
    + split_and!; [cbn; rewrite length_app; cbn; lia|apply set_width_same|exact (nonempty _ _ Es)].
Qed.

Lemma materialize_yields W ex i keys : fits W ex -> (i < length (ex_nodes ex))%nat -> columns_ok (W i) keys ->
  yields W ex (materialize_node i keys) (fun W' ex' v => v = mkView i keys /\ key_columns_of (ex_nodes ex') i = Some keys /\ columns_ok (W' i) keys).
Proof.
  intros Hf L Hk. unfold yields, materialize_node. destruct (materialize_built W ex i keys (ft_built _ _ Hf) L Hk) as (ex' & Em & Hb & Ln & Et). rewrite Em. cbn [mbind option_bind].
  assert (G : grows W ex W ex') by (split; [lia|intros j _; reflexivity]). exists ex', (inl (mkView i keys)), W. split_and!; [reflexivity|eapply fits_same_tables; eauto|exact G|reflexivity| |exact Hk].
  unfold materialize in Em. destruct (ex_nodes ex !! i) as [n|]; [|discriminate]. injection Em as <-. unfold key_columns_of. cbn. rewrite list_lookup_insert_eq by exact L. reflexivity.
Qed.

Lemma operator_yields W ex op parents w : fits W ex -> Forall (fun p => (p < length (ex_nodes ex))%nat) parents ->
  operator_typed (set_width W (length (ex_nodes ex)) w) (length (ex_nodes ex)) (mkNode (Some op) parents [] None) ->
  yields W ex (operator_node op parents) (fun W' ex' i => (i < length (ex_nodes ex'))%nat /\ W' i = w).
Proof.
  intros Hf Hp Ht. unfold yields, operator_node. destruct (add_operator_built W ex op parents w (ft_built _ _ Hf) Hp Ht) as (ex' & -> & Hb & Ln & Et). cbn [mbind option_bind].
  assert (G : grows W ex (set_width W (length (ex_nodes ex)) w) ex') by (split; [lia|apply set_width_extends]).
  exists ex', (inl (length (ex_nodes ex))), (set_width W (length (ex_nodes ex)) w). split_and!; [reflexivity|eapply fits_same_tables; eauto|exact G|rewrite Ln; lia|apply set_width_same].
Qed.

(** ** FROM *)

Lemma join_keys_bound c l r i j : l <> [] -> r <> [] -> extract_join_keys c l r = inl (i, j) -> (i < length l)%nat /\ (j < length r)%nat.
Proof.
  intros Hl Hr. destruct c as [[e|cols]|]; cbn.
  - destruct e; try discriminate. destruct op; try discriminate. repeat case_match; try discriminate; intros [= <- <-];
      repeat match goal with H : get_column_index_from_expr _ _ = Some _ |- _ => apply column_index_bound in H end; auto.
  - destruct cols as [|name cols]; [discriminate|]. unfold column_position. repeat case_match; try discriminate. intros [= <- <-].
    repeat match goal with H : position _ _ = Some _ |- _ => apply position_bound in H as [H _] end. auto.
  - intros [= <- <-]. destruct l, r; try contradiction; cbn; lia.
Qed.

Lemma other_columns_bound k n i : i ∈ other_columns k n -> (i < n)%nat.
Proof. unfold other_columns. rewrite list_elem_of_filter, elem_of_seq. lia. Qed.

Lemma omap_all {A B} (f : A -> option B) l : (forall x, x ∈ l -> is_Some (f x)) -> length (omap f l) = length l.
Proof.
  induction l as [|x l IH]; intros H; [reflexivity|]. cbn. destruct (H x (list_elem_of_here _ _)) as [b ->]. cbn. rewrite IH; [reflexivity|]. intros y Hy. apply H. right. exact Hy.
Qed.

Definition join_emit (columns right : list (list Z)) (key : nat) : list (bool * nat) :=
  ((fun i => (true, i)) <$> seq 0 (length columns)) ++ ((fun i => (false, i)) <$> other_columns key (length right)).

Lemma join_emit_ok columns right key : emit_ok (length columns) (length right) (join_emit columns right key).
Proof.
  unfold emit_ok, join_emit. apply Forall_app. split; apply Forall_fmap, Forall_forall; intros i Hi; cbn; [apply elem_of_seq in Hi; lia|exact (other_columns_bound _ _ _ Hi)].
Qed.

Lemma join_emit_length columns right key : length (join_emit columns right key) = length (columns ++ omap (fun i => right !! i) (other_columns key (length right))).
Proof.
  unfold join_emit. rewrite !length_app, !length_fmap, length_seq. f_equal. symmetry. apply omap_all. intros i Hi. apply lookup_lt_is_Some_2. exact (other_columns_bound _ _ _ Hi).
Qed.

Lemma joins_yield joins W ex node columns : fits W ex -> good W ex (node, columns) -> yields W ex (build_joins schemas joins node columns) good.
Proof.
  revert W ex node columns. induction joins as [|j joins IH]; intros W ex node columns Hf Hg; cbn [build_joins]; [apply yields_ret; auto|].
  eapply yields_bind; [exact (select_table_yields W ex (jt_table j) Hf)|]. intros W1 ex1 right F1 G1 Hr. apply (good_grows _ _ _ _ _ G1) in Hg.
  eapply yields_bind; [apply yields_lift with (Q := fun _ _ keys => (keys.1 < length columns)%nat /\ (keys.2 < length right.2)%nat); [exact F1|]|].
  { intros [a b] E. exact (join_keys_bound _ _ _ _ _ (proj2 (proj2 Hg)) (proj2 (proj2 Hr)) E). }
  intros W2 ex2 keys F2 G2 [K1 K2]. apply (good_grows _ _ _ _ _ G2) in Hg, Hr.
  eapply yields_bind; [apply (materialize_yields W2 ex2 node [keys.1] F2 (proj1 Hg))|]; [constructor; [pose proof (proj1 (proj2 Hg)) as X; cbn in X; rewrite X; exact K1|constructor]|].
  intros W3 ex3 _ F3 G3 _. apply (good_grows _ _ _ _ _ G3) in Hg, Hr.
  eapply yields_bind; [apply (materialize_yields W3 ex3 right.1 [keys.2] F3 (proj1 Hr))|]; [constructor; [rewrite (proj1 (proj2 Hr)); exact K2|constructor]|].
  intros W4 ex4 _ F4 G4 _. apply (good_grows _ _ _ _ _ G4) in Hg, Hr. fold (join_emit columns right.2 keys.2). destruct Hg as (L1 & E1 & N1), Hr as (L2 & E2 & N2). cbn [fst snd] in *.
  eapply yields_bind; [apply (operator_yields W4 ex4 _ [node; right.1] (length (join_emit columns right.2 keys.2)) F4)|].
  - constructor; [exact L1|constructor; [exact L2|constructor]].
  - unfold operator_typed. cbn. rewrite set_width_same, !set_width_extends, E1, E2 by assumption. split; [|reflexivity]. split_and!; [exact K1|exact K2|apply join_emit_ok].
  - intros W5 ex5 node' F5 G5 [L5 E5]. apply IH; [exact F5|]. split_and!; cbn; [exact L5|rewrite E5; apply join_emit_length|]. destruct columns; [contradiction|discriminate].
Qed.

Lemma from_yields W ex from : fits W ex -> yields W ex (build_from_clause schemas from) good.
Proof.
  intros Hf. unfold build_from_clause. eapply yields_bind; [apply (yields_lift _ _ _ (fun _ _ _ => True) Hf); auto|]. intros W1 ex1 t F1 _ _.
  eapply yields_bind; [exact (select_table_yields W1 ex1 t F1)|]. intros W2 ex2 [node columns] F2 _ Hg. exact (joins_yield _ W2 ex2 node columns F2 Hg).
Qed.

(** ** WHERE, aggregates *)

Context (parse_f64 : list Z -> option Z).

Lemma where_yields W ex w node columns : fits W ex -> (forall e, w = Some e -> expr_clean e) -> good W ex (node, columns) ->
  yields W ex (build_where parse_f64 w node columns) (fun W' ex' n => good W' ex' (n, columns)).
Proof.
  intros Hf Hw Hg. destruct w as [e|]; cbn [build_where]; [|apply yields_ret; auto]. destruct (filter_ok parse_f64 e columns (Hw e eq_refl)) as (c & Ec & Hc).
  eapply yields_bind; [apply (yields_panic W ex _ (fun _ _ c => cond_ok (length columns) c) Hf); eauto|]. intros W1 ex1 c1 F1 G1 H1.
  apply (good_grows _ _ _ _ _ G1) in Hg. destruct Hg as (L & E & N). cbn [fst snd] in *. eapply yields_weaken; [apply (operator_yields W1 ex1 (OFilter c1) [node] (length columns) F1)|].
  - constructor; [exact L|constructor].
  - unfold operator_typed. cbn. rewrite set_width_same, set_width_extends, E by exact L. auto.
  - intros W2 ex2 n [L2 E2]. split_and!; auto.
Qed.

Lemma aggregate_expr_ok e columns f : columns <> [] -> extract_aggregate_from_expr e columns = Some f -> func_ok (length columns) f.
Proof.
  intros N. assert (F : forall args, (first_column args columns < length columns)%nat).
  { intros args. unfold first_column. destruct (args ← args; e ← head args; get_column_index_from_expr e columns) as [i|] eqn:E; cbn; [|destruct columns; [contradiction|cbn; lia]].
    destruct args as [args|]; [|discriminate]. cbn in E. destruct (head args) as [a|]; [|discriminate]. exact (column_index_bound _ _ _ E). }
  destruct e; cbn; try discriminate; repeat case_match; try discriminate; intros [= <-]; cbn; auto.
Qed.

Lemma extract_aggregate_ok cols columns f alias : columns <> [] -> extract_aggregate cols columns = Some (f, alias) -> func_ok (length columns) f.
Proof.
  intros N. induction cols as [|c cols IH]; cbn; [discriminate|]. destruct c; auto. destruct (extract_aggregate_from_expr e columns) as [f'|] eqn:E; [|exact IH].
  intros [= <- _]. exact (aggregate_expr_ok _ _ _ N E).
Qed.

Lemma group_indices_ok s columns : columns_ok (length columns) (group_indices s columns).
Proof.
  unfold group_indices. destruct (se_group_by s) as [es|]; [|apply key_columns_ok]. unfold columns_ok. apply Forall_forall. intros i Hi.
  apply list_elem_of_omap in Hi as (e & _ & E). exact (column_index_bound _ _ _ E).
Qed.

Lemma names_total columns idxs : columns_ok (length columns) idxs -> exists names : list (list Z), mapM (fun i => columns !! i) idxs = Some names /\ length names = length idxs.
Proof.
  intros H. destruct (mapM (fun i => columns !! i) idxs) as [names|] eqn:E; [exists names; split; [reflexivity|apply mapM_Some_1, Forall2_length in E; lia]|].
  exfalso. apply eq_None_not_Some in E. apply E, mapM_is_Some. eapply Forall_impl; [exact H|]. intros i Hi. apply lookup_lt_is_Some_2. exact Hi.
Qed.

Lemma aggregate_yields W ex s cols node columns : fits W ex -> good W ex (node, columns) ->
  yields W ex (build_aggregate s (extract_aggregate cols columns) node columns) good.
Proof.
  intros Hf Hg. unfold build_aggregate. destruct (extract_aggregate cols columns) as [[f alias]|] eqn:Ea; [|apply yields_ret; auto].
  pose proof (extract_aggregate_ok _ _ _ _ (proj2 (proj2 Hg)) Ea) as Hfn. pose proof (group_indices_ok s columns) as Hgi. destruct (names_total _ _ Hgi) as (names & En & Ln).
  eapply yields_bind; [apply (yields_panic W ex _ (fun _ _ x => x = names) Hf)|]; [rewrite En; eexists; split; reflexivity|]. intros W1 ex1 ? F1 G1 ->.
  apply (good_grows _ _ _ _ _ G1) in Hg. destruct Hg as (L & E & N). cbn [fst snd] in *.
  eapply yields_bind; [apply (operator_yields W1 ex1 (OAggregate (mkAggregate (group_indices s columns) f [])) [node] (S (length (group_indices s columns))) F1)|].
  - constructor; [exact L|constructor].
  - unfold operator_typed. cbn. rewrite set_width_same, set_width_extends, E by exact L. auto.
  - intros W2 ex2 n F2 G2 [L2 E2]. apply yields_ret; [exact F2|]. split_and!; cbn; [exact L2|rewrite E2, length_app, Ln; cbn; lia|]. destruct names; discriminate.
Qed.

(** ** Projections *)

Lemma projection_loop_ok cols columns idxs names : projection_loop cols columns = Some (idxs, names) -> columns_ok (length columns) idxs.
Proof.
  revert idxs names. induction cols as [|c cols IH]; intros idxs names; cbn; [intros [= <- _]; constructor|]. destruct c; try discriminate.
  destruct (get_column_index_from_expr e columns) as [i|] eqn:E; [|discriminate]. cbn. destruct (columns !! i); [|discriminate]. cbn.
  destruct (projection_loop cols columns) as [[idxs' names']|]; [|discriminate]. cbn. intros [= <- _]. constructor; [exact (column_index_bound _ _ _ E)|exact (IH _ _ eq_refl)].
Qed.

Lemma get_projection_ok cols columns idxs names : get_projection cols columns = Some (idxs, names) -> columns_ok (length columns) idxs.
Proof. unfold get_projection. repeat case_match; try discriminate. intros [= <- _]. eapply projection_loop_ok. eassumption. Qed.

(** The keys are found where they were placed. *)
Lemma place_keys_spec keys emit names columns : columns_ok (length columns) keys -> columns_ok (length columns) emit ->
  exists emit' names' placed, place_keys keys emit names columns = Some (emit', names', placed) /\ columns_ok (length columns) emit' /\
    (exists tail, emit' = emit ++ tail) /\ Forall2 (fun key pos => emit' !! pos = Some key) keys placed.
Proof.
  intros Hk. revert emit names. induction Hk as [|key keys Hkey Hk IH]; intros emit names He; cbn [place_keys].
  - exists emit, names, []. split_and!; auto. exists []. rewrite app_nil_r. reflexivity.
  - destruct (position (fun i => (i =? key)%nat) emit) as [pos|] eqn:Ep.
    + destruct (IH emit names He) as (emit' & names' & placed & -> & He' & (tail & ->) & Hp). cbn [mbind option_bind]. eexists _, _, _. split_and!; eauto.
      constructor; [|exact Hp]. apply position_bound in Ep as [_ (x & Ex & E)]. apply Nat.eqb_eq in E as ->. exact (lookup_app_l_Some _ _ _ _ Ex).
    + destruct (lookup_lt_is_Some_2 columns key Hkey) as [name ->]. cbn [mbind option_bind].
      destruct (IH (emit ++ [key]) (names ++ [name])) as (emit' & names' & placed & -> & He' & (tail & ->) & Hp); [apply Forall_app; split; [exact He|constructor; [exact Hkey|constructor]]|].
      cbn [mbind option_bind]. eexists _, _, _. split_and!; eauto; [exists ([key] ++ tail); rewrite app_assoc; reflexivity|].
      constructor; [|exact Hp]. rewrite <- app_assoc, lookup_app_r, Nat.sub_diag by lia. reflexivity.
Qed.

Lemma placed_bound (emit keys placed : list nat) : Forall2 (fun key pos => emit !! pos = Some key) keys placed -> columns_ok (length emit) placed.
Proof. induction 1 as [|k p ks ps E _ IH]; constructor; [exact (lookup_lt_Some _ _ _ E)|exact IH]. Qed.

Lemma projection_yields W ex s agg node columns : fits W ex -> good W ex (node, columns) ->
  yields W ex (build_projection s agg node columns) (fun W' ex' v => (v.1 < length (ex_nodes ex'))%nat /\ columns_ok (W' v.1) v.2).
Proof.
  intros Hf Hg. unfold build_projection. pose proof (key_columns_ok (se_where s) columns) as Hk. destruct Hg as (L & E & N). cbn [fst snd] in *.
  assert (plain_view : yields W ex (ret (node, extract_key_columns (se_where s) columns)) (fun W' ex' v => (v.1 < length (ex_nodes ex'))%nat /\ columns_ok (W' v.1) v.2)).
  { apply yields_ret; [exact Hf|]. cbn. rewrite E. auto. }
  destruct (negb _ && negb agg); [|exact plain_view]. destruct (get_projection (se_columns s) columns) as [[emit names]|] eqn:Ep; [|exact plain_view].
  destruct (place_keys_spec _ emit names columns Hk (get_projection_ok _ _ _ _ Ep)) as (emit' & names' & placed & Epl & He' & _ & Hp). apply placed_bound in Hp.
  eapply yields_bind; [apply (yields_panic W ex _ (fun _ _ x => x = (emit', names', placed)) Hf)|]; [rewrite Epl; eexists; split; reflexivity|].
  intros W1 ex1 ? F1 [G1 X1] ->. cbn [fst snd]. rewrite <- (X1 node L) in E. assert (L1 : (node < length (ex_nodes ex1))%nat) by lia. case_decide as D.
  - apply yields_ret; [exact F1|]. cbn. split; [exact L1|]. rewrite E. rewrite D, length_seq in Hp. exact Hp.
  - eapply yields_bind; [apply (operator_yields W1 ex1 (OProject emit') [node] (length emit') F1)|].
    + constructor; [exact L1|constructor].
    + unfold operator_typed. cbn. rewrite set_width_same, set_width_extends, E by exact L1. auto.
    + intros W2 ex2 n F2 G2 [L2 E2]. apply yields_ret; [exact F2|]. cbn. rewrite E2. auto.
Qed.

(** ** SELECT *)

(** What is known of a view that was registered. *)
Definition view_ok (W : nat -> nat) (ex : LocalExecutor) (v : ViewHandle) : Prop :=
  key_columns_of (ex_nodes ex) (vh_node v) = Some (vh_key_columns v) /\ columns_ok (W (vh_node v)) (vh_key_columns v).

Lemma select_yields W ex s : fits W ex -> (forall e, se_where s = Some e -> expr_clean e) -> yields W ex (build_select parse_f64 schemas s) view_ok.
Proof.
  intros Hf Hw. unfold build_select. eapply yields_bind; [apply (yields_lift _ _ _ (fun _ _ _ => True) Hf); auto|]. intros W1 ex1 from F1 _ _.
  eapply yields_bind; [exact (from_yields W1 ex1 from F1)|]. intros W2 ex2 [n2 c2] F2 _ H2. cbn [fst snd].
  eapply yields_bind; [exact (where_yields W2 ex2 (se_where s) n2 c2 F2 Hw H2)|]. intros W3 ex3 n3 F3 _ H3.
  eapply yields_bind; [exact (aggregate_yields W3 ex3 s (se_columns s) n3 c2 F3 H3)|]. intros W4 ex4 [n4 c4] F4 _ H4. cbn [fst snd].
  eapply yields_bind; [exact (projection_yields W4 ex4 s _ n4 c4 F4 H4)|]. intros W5 ex5 [n5 k5] F5 _ [L5 K5]. cbn [fst snd] in *.
  eapply yields_weaken; [exact (materialize_yields W5 ex5 n5 k5 F5 L5 K5)|]. intros W6 ex6 v (-> & H & H'). split; auto.
Qed.

End Steps.

(** ** Properties *)

(** C14: the graph a SELECT is converted to is well typed.  From an executor that
    fits the registered schemas, the converter neither panics nor leaves a graph
    that does not fit: it returns an error or a view, the graph stays acyclic, every
    operator it added reads only columns its parents have, earlier nodes keep their
    columns, and a view's key columns are columns of its rows. *)
Theorem convert_select_well_typed parse_f64 parse schemas W ex sql :
  (forall t columns, get_schema t schemas = Some columns -> columns <> []) ->
  (forall s e, parse sql = CSelect s -> se_where s = Some e -> expr_clean e) ->
  fits schemas W ex ->
  exists ex' r W', convert_select parse_f64 parse schemas sql ex = Some (ex', r) /\
    fits schemas W' ex' /\ grows W ex W' ex' /\ match r with inl v => view_ok W' ex' v | inr _ => True end.
Proof.
  intros Hn Hc Hf. change (yields schemas W ex (convert_select parse_f64 parse schemas sql) view_ok). unfold convert_select.
  destruct (parse sql) as [| |s| |] eqn:E; try (apply yields_throw; exact Hf). apply select_yields; auto. intros e. exact (Hc s e eq_refl).
Qed.

(** C18: projecting keeps the keys addressable.  The key columns of the WHERE clause
    are placed in the projected row, appended when the SELECT list leaves them out,
    so that the key read from the projected row is the key of the row. *)
Theorem projection_keeps_keys keys emit names columns r :
  columns_ok (length columns) keys -> columns_ok (length columns) emit -> row_ok (length columns) r ->
  exists emit' names' placed r', place_keys keys emit names columns = Some (emit', names', placed) /\
    (exists tail, emit' = emit ++ tail) /\ project_row emit' r = Some r' /\ from_row r' placed = from_row r keys.
Proof.
  intros Hk He Hr. destruct (place_keys_spec keys emit names columns Hk He) as (emit' & names' & placed & Ep & He' & Ht & Hp).
  destruct (project_row_ok _ emit' r He' Hr) as (r' & Er & _). exists emit', names', placed, r'. split_and!; auto.
  assert (L : forall key pos, emit' !! pos = Some key -> r' !! pos = r !! key).
  { intros key pos E. apply mapM_Some_1 in Er. destruct (Forall2_lookup_l _ _ _ _ _ Er E) as (d & -> & Ed). symmetry. exact Ed. }
  assert (M : mapM (fun c => r' !! c) placed = mapM (fun c => r !! c) keys).
  { clear Ep Ht. induction Hp as [|key pos keys placed E Hp IH]; [reflexivity|]. inversion Hk; subst. cbn. rewrite (L _ _ E). destruct (r !! key); [|reflexivity]. cbn.
    rewrite IH by assumption. reflexivity. }
  unfold from_row. destruct Hp as [|k p ks ps E Hp]; [rewrite M; reflexivity|]. destruct Hp as [|k2 p2 ks ps E2 Hp]; [rewrite (L _ _ E); reflexivity|rewrite M; reflexivity].
Qed.

(** ** SELECT name FROM users WHERE id = ? *)

Definition users_schemas : Schemas := [(str "users", [str "id"; str "name"; str "age"])].

Definition users_select : Select :=
  mkSelect [RExpr (EId (str "name")) None] (Some (mkFrom (Some (STable (str "users"))) []))
    (Some (EBinary (EId (str "id")) OpEquals EVariable)) None.

Definition users_parse (sql : list Z) : Command := if decide (sql = str "SELECT name FROM users WHERE id = ?") then CSelect users_select else COther.

Lemma fits_new schemas W : fits schemas W LocalExecutor_new.
Proof. split; [split; [split|]|]; try (intros; discriminate). Qed.

Lemma users_nonempty t columns : get_schema t users_schemas = Some columns -> columns <> [].
Proof. cbn. case_match; [intros [= <-]; discriminate|discriminate]. Qed.

Lemma convert_select_well_typed_witness : exists ex' r W',
  convert_select (fun _ => None) users_parse users_schemas (str "SELECT name FROM users WHERE id = ?") LocalExecutor_new = Some (ex', r) /\
  fits users_schemas W' ex' /\ grows (fun _ => 0%nat) LocalExecutor_new W' ex' /\ match r with inl v => view_ok W' ex' v | inr _ => True end.
Proof.
  apply (convert_select_well_typed (fun _ => None) users_parse users_schemas (fun _ => 0%nat) LocalExecutor_new); [exact users_nonempty| |exact (fits_new _ _)].
  intros s e [= <-] [= <-]. split; exact I.
Defined.

Lemma projection_keeps_keys_witness : exists emit' names' placed r',
  place_keys [0%nat] [1%nat] [str "name"] [str "id"; str "name"; str "age"] = Some (emit', names', placed) /\
  (exists tail, emit' = [1%nat] ++ tail) /\ project_row emit' [DBigInt 7; DNone; DBigInt 30] = Some r' /\ from_row r' placed = from_row [DBigInt 7; DNone; DBigInt 30] [0%nat].
Proof.
  apply (projection_keeps_keys [0%nat] [1%nat] [str "name"] [str "id"; str "name"; str "age"] [DBigInt 7; DNone; DBigInt 30]);
    [repeat constructor|repeat constructor|split; [reflexivity|repeat constructor]].
Defined.

(** ** Limits

    Closed computations on the same table. *)

Definition registered (s : Select) (ex : LocalExecutor) : option (LocalExecutor * (ViewHandle + SqlError)) := build_select (fun _ => None) users_schemas s ex.

Definition by_age : Select :=
  mkSelect [RStar] (Some (mkFrom (Some (STable (str "users"))) [])) (Some (EBinary (EId (str "age")) OpEquals EVariable)) None.

Definition alice : row := [DBigInt 1; DBigInt 100; DBigInt 30].
Definition bob : row := [DBigInt 2; DBigInt 200; DBigInt 30].

(** A view that does not hold a key yet: a write fills the hole with the new row
    alone, and the lookup that follows is a hit without the rows the table already
    had for that key. *)
Lemma write_fills_hole :
  ('(ex, v) ← registered by_age LocalExecutor_new;
   match v with
   | inl v => before ← executor_lookup ex v [DBigInt 30]; ex ← apply_write (fun g => g) ex (str "users") [Positive bob]; after ← executor_lookup ex v [DBigInt 30]; Some (before, after)
   | inr _ => None
   end) = Some (None, Some [bob]).
Proof. vm_compute. reflexivity. Qed.

(** A table named in another case gets a base node of its own, which the writes to
    the table never reach. *)
Lemma other_case_not_reached :
  ('(ex, v) ← registered (mkSelect [RStar] (Some (mkFrom (Some (STable (str "Users"))) [])) (Some (EBinary (EId (str "id")) OpEquals EVariable)) None) LocalExecutor_new;
   match v with
   | inl v => ex ← inject_into_view ex v [Positive alice]; ex ← apply_write (fun g => g) ex (str "users") [Negative alice]; executor_lookup ex v [DBigInt 1]
   | inr _ => None
   end) = Some (Some [alice]).
Proof. vm_compute. reflexivity. Qed.

(** Registering a join empties the states of its tables: a view that is its base
    table loses its rows, and is keyed by the column of the join from then on. *)
Lemma join_resets_view :
  ('(ex, v) ← registered (mkSelect [RStar] (Some (mkFrom (Some (STable (str "users"))) [])) None None) LocalExecutor_new;
   match v with
   | inl v =>
       ex ← inject_into_view ex v [Positive alice];
       held ← executor_lookup ex v [DBigInt 1];
       '(ex, _) ← registered (mkSelect [RStar] (Some (mkFrom (Some (STable (str "users")))
                    [mkJoined false false (STable (str "users")) (Some (JUsing [str "age"]))])) None None) ex;
       lost ← executor_lookup ex v [DBigInt 1];
       ex ← apply_write (fun g => g) ex (str "users") [Positive bob];
       by_key ← executor_lookup ex v [DBigInt 2];
       by_join ← executor_lookup ex v [DBigInt 30];
       Some (held, lost, by_key, by_join)
   | inr _ => None
   end) = Some (Some [alice], None, None, Some [bob]).
Proof. vm_compute. reflexivity. Qed.

(** MIN is the sum the operator never adds to. *)
Lemma min_is_zero :
  ('(_, out) ← aggregate_process (fun g => g) (mkAggregate [0%nat] (Min 2) []) [Positive alice]; Some out) = Some [Positive [DBigInt 1; DBigInt 0]].
Proof. vm_compute. reflexivity. Qed.

(** NULL and a number compare as greater in both directions, so that a row whose
    column is NULL passes [col > 5]. *)
Lemma null_is_greater : dt_cmp DNone (DBigInt 5) = Gt /\ dt_cmp (DBigInt 5) DNone = Gt /\ evaluate (FGt 0 (DBigInt 5)) [DNone] = Some true.
Proof. split_and!; reflexivity. Qed.

(** A row without a match is padded with NULL in a left join; when the match arrives
    later, the padded row is not taken back. *)
Lemma left_join_keeps_padding :
  let j := mkJoin LeftJoin 0 0 [(true, 0%nat); (false, 1%nat)] in
  ('(out, _) ← join_record j 0 (MemoryState_new [0%nat]) (Positive [DBigInt 1]);
   left ← process_records (MemoryState_new [0%nat]) [Positive [DBigInt 1]];
   '(out', _) ← join_record j 1 left (Positive [DBigInt 1; DBigInt 9]);
   Some (out ++ out')) = Some [Positive [DBigInt 1; DNone]; Positive [DBigInt 1; DBigInt 9]].
Proof. vm_compute. reflexivity. Qed.
