(* ===== verification/EngineFfi.v ===== *)
(** * The C interface of the engine (noria-better-sqlite3/noria-ffi/src/lib.rs)

    The handle behind noria.h: views by SQL text, lookups with upqueries, and the
    change events the executor propagates.  It is an instance of the class the
    C++ side is verified against. *)
From stdpp Require Import strings.
From S2P Require Import Prelude Bits Double Value Strings Noria NoriaSql DataType EngineState EngineOps Executor EngineSql.

Local Open Scope Z_scope.

(** ** Strings of Rust *)

(** Bytes of the white-space character at the head of a string, 0 if none. *)
Definition space_len (s : list Z) : nat :=
  match s with
  | 0xC2 :: 0x85 :: _ | 0xC2 :: 0xA0 :: _ => 2%nat
  | 0xE1 :: 0x9A :: 0x80 :: _ | 0xE2 :: 0x81 :: 0x9F :: _ | 0xE3 :: 0x80 :: 0x80 :: _ => 3%nat
  | 0xE2 :: 0x80 :: c :: _ => if ((0x80 <=? c) && (c <=? 0x8A)) || (c =? 0xA8) || (c =? 0xA9) || (c =? 0xAF) then 3%nat else 0%nat
  | c :: _ => if (c =? 32) || ((9 <=? c) && (c <=? 13)) then 1%nat else 0%nat
  | [] => 0%nat
  end.

(** [split_whitespace]; [cur] is the word read so far. *)
Fixpoint split_words (fuel : nat) (cur s : list Z) : list (list Z) :=
  match fuel with
  | O => []
  | S fuel =>
      let word := match cur with [] => [] | _ => [cur] end in
      match s with
      | [] => word
      | c :: rest =>
          match space_len s with
          | O => split_words fuel (cur ++ [c]) rest
          | n => word ++ split_words fuel [] (drop n s)
          end
      end
  end.

Definition split_whitespace (s : list Z) : list (list Z) := split_words (S (length s)) [] s.

Definition join_space (l : list (list Z)) : list Z := concat (match l with [] => [] | w :: l => w :: ((fun w => 32 :: w) <$> l) end).

Fixpoint trim_start (fuel : nat) (s : list Z) : list Z :=
  match fuel with O => s | S fuel => match space_len s with O => s | n => trim_start fuel (drop n s) end end.

Fixpoint trim_end (s : list Z) : list Z :=
  match trim_start (length s) s with
  | [] => []
  | _ => match s with [] => [] | c :: s => c :: trim_end s end
  end.

Definition trim (s : list Z) : list Z := trim_end (trim_start (length s) s).

Fixpoint split_comma (cur s : list Z) : list (list Z) :=
  match s with [] => [cur] | c :: s => if c =? 44 then cur :: split_comma [] s else split_comma (cur ++ [c]) s end.

Fixpoint drop_chars (f : Z -> bool) (s : list Z) : list Z := match s with c :: t => if f c then drop_chars f t else s | [] => [] end.
Definition trim_matches (f : Z -> bool) (s : list Z) : list Z := reverse (drop_chars f (reverse (drop_chars f s))).

(** A slice panics unless it is cut between characters. *)
Definition is_boundary (s : list Z) (pos : nat) : bool :=
  (pos =? length s)%nat || match s !! pos with Some c => negb ((0x80 <=? c) && (c <? 0xC0)) | None => false end.
Definition slice_from (s : list Z) (pos : nat) : option (list Z) := if is_boundary s pos then Some (drop pos s) else None.
Definition slice_to (s : list Z) (pos : nat) : option (list Z) := if is_boundary s pos then Some (take pos s) else None.

(** ** Parameters

    The parser and the decimal conversion of the converter, the order in which a
    hash map is traversed, and the case tables of Unicode beyond ASCII. *)
Record Params := mkParams {
  pa_parse : list Z -> Command;
  pa_parse_f64 : list Z -> option Z;
  pa_order : Groups -> Groups;
  pa_upper : list Z -> list Z;
  pa_lower : list Z -> list Z
}.

(** ** Rows passed over the interface *)

Definition RowsContainer : Type := list (list FfiValue).

(** [noria_rows_add_row] copies each value. *)
Definition copy_value (nv : NoriaValue) : option FfiValue :=
  let bytes (p : option (list Z)) (n : Z) := match p with Some p => if n <=? 0 then Some [] else read_n n p | None => Some [] end in
  if nv_type nv =? NORIA_NULL then Some FNull
  else if nv_type nv =? NORIA_INTEGER then Some (FInt (nv_int nv))
  else if nv_type nv =? NORIA_FLOAT then Some (FFloat (nv_float nv))
  else if nv_type nv =? NORIA_TEXT then s ← bytes (nv_text nv) (nv_text_len nv); Some (FText (from_utf8_lossy s))
  else if nv_type nv =? NORIA_BLOB then b ← bytes (nv_blob nv) (nv_blob_len nv); Some (FBlob b)
  else Some FNull.

Definition noria_rows_add_row (rows : RowsContainer) (values : list NoriaValue) : option (RowsContainer * Z) :=
  match values with
  | [] => Some (rows, -1)
  | _ => row ← mapM copy_value values; Some (rows ++ [row], 0)
  end.

(** The result and [*out_value]. *)
Definition noria_get_value (rows : option RowsContainer) (row_index col_index : Z) : Z * option NoriaValue :=
  match rows with
  | None => (-1, None)
  | Some rows =>
      if (row_index <? 0) || (col_index <? 0) then (-1, None)
      else match rows !! Z.to_nat row_index with
           | None => (-1, None)
           | Some row => match row !! Z.to_nat col_index with None => (-1, None) | Some v => (0, Some (to_noria_value v)) end
           end
  end.

Definition noria_row_column_count (rows : option RowsContainer) (row_index : Z) : Z :=
  match rows with
  | None => 0
  | Some rows => if row_index <? 0 then 0 else match rows !! Z.to_nat row_index with None => 0 | Some row => i32 (Zlen row) end
  end.

(** The callback's result with [*out_rows] and [*out_row_count]. *)
Definition UpqueryCallback : Type := list Z -> list NoriaValue -> option (Z * option (RowsContainer * Z)).

Record NoriaViewEntry := mkEntry {
  ve_handle : ViewHandle;
  ve_sql : list Z;
  ve_tables : list (list Z)
}.

(** The maps as lists; [nh_panicked] is set when a call panicked, which aborts the
    process. *)
Record NoriaHandle := mkHandle {
  nh_executor : LocalExecutor;
  nh_schemas : Schemas;
  nh_views : list (Z * NoriaViewEntry);
  nh_sql_to_view_id : list (list Z * Z);
  nh_table_to_views : list (list Z * list Z);
  nh_tables : list (list Z);
  nh_next_view_id : Z;
  nh_cache_hits : Z;
  nh_cache_misses : Z;
  nh_max_memory : Z;
  nh_dirty_tables : Z;
  nh_upquery_callback : option UpqueryCallback;
  nh_panicked : bool
}.

Definition DEFAULT_MAX_MEMORY_BYTES : Z := 100 * 1024 * 1024.

(** [noria_create]. *)
Definition handle_new : NoriaHandle := mkHandle LocalExecutor_new [] [] [] [] [] 0 0 0 DEFAULT_MAX_MEMORY_BYTES 0 None false.

Definition set_executor (h : NoriaHandle) (ex : LocalExecutor) : NoriaHandle :=
  mkHandle ex (nh_schemas h) (nh_views h) (nh_sql_to_view_id h) (nh_table_to_views h) (nh_tables h) (nh_next_view_id h) (nh_cache_hits h) (nh_cache_misses h) (nh_max_memory h) (nh_dirty_tables h) (nh_upquery_callback h) (nh_panicked h).
Definition set_panicked (h : NoriaHandle) : NoriaHandle :=
  mkHandle (nh_executor h) (nh_schemas h) (nh_views h) (nh_sql_to_view_id h) (nh_table_to_views h) (nh_tables h) (nh_next_view_id h) (nh_cache_hits h) (nh_cache_misses h) (nh_max_memory h) (nh_dirty_tables h) (nh_upquery_callback h) true.
Definition set_counts (h : NoriaHandle) (hits misses : Z) : NoriaHandle :=
  mkHandle (nh_executor h) (nh_schemas h) (nh_views h) (nh_sql_to_view_id h) (nh_table_to_views h) (nh_tables h) (nh_next_view_id h) hits misses (nh_max_memory h) (nh_dirty_tables h) (nh_upquery_callback h) (nh_panicked h).
Definition set_dirty (h : NoriaHandle) (bits : Z) : NoriaHandle :=
  mkHandle (nh_executor h) (nh_schemas h) (nh_views h) (nh_sql_to_view_id h) (nh_table_to_views h) (nh_tables h) (nh_next_view_id h) (nh_cache_hits h) (nh_cache_misses h) (nh_max_memory h) bits (nh_upquery_callback h) (nh_panicked h).

Definition noria_set_upquery_callback (h : NoriaHandle) (callback : UpqueryCallback) : NoriaHandle :=
  mkHandle (nh_executor h) (nh_schemas h) (nh_views h) (nh_sql_to_view_id h) (nh_table_to_views h) (nh_tables h) (nh_next_view_id h) (nh_cache_hits h) (nh_cache_misses h) (nh_max_memory h) (nh_dirty_tables h) (Some callback) (nh_panicked h).
Definition noria_set_max_memory (h : NoriaHandle) (max_bytes : Z) : NoriaHandle :=
  mkHandle (nh_executor h) (nh_schemas h) (nh_views h) (nh_sql_to_view_id h) (nh_table_to_views h) (nh_tables h) (nh_next_view_id h) (nh_cache_hits h) (nh_cache_misses h) max_bytes (nh_dirty_tables h) (nh_upquery_callback h) (nh_panicked h).

Fixpoint assoc {A B} `{EqDecision A} (k : A) (l : list (A * B)) : option B :=
  match l with [] => None | (k', v) :: l => if decide (k' = k) then Some v else assoc k l end.

Section Interface.
Context (P : Params).

Definition is_ascii (s : list Z) : bool := forallb (fun c => c <? 128) s.
Definition upper (s : list Z) : list Z := if is_ascii s then toupper <$> s else pa_upper P s.
Definition lower (s : list Z) : list Z := if is_ascii s then sqlite3UpperToLower <$> s else pa_lower P s.

Definition normalize_sql (sql : list Z) : list Z := upper (join_space (split_whitespace sql)).

(** ** Table names of a statement *)

Definition end_keywords : list (list Z) := [str " WHERE "; str " JOIN "; str " ORDER "; str " GROUP "; str " LIMIT "; str " HAVING "; str ";"].

Definition is_quote (c : Z) : bool := (c =? 96) || (c =? 34) || (c =? 91) || (c =? 93).

Definition extract_from (sql : list Z) : option (list (list Z)) :=
  match find_text (str " FROM ") (upper sql) with
  | None => Some []
  | Some from_pos =>
      after_from ← slice_from sql (from_pos + 6);
      let end_pos := foldl (fun e kw => match find_text kw (upper after_from) with Some pos => Nat.min pos e | None => e end) (length after_from) end_keywords in
      part ← slice_to after_from end_pos;
      Some (omap (fun table =>
              let table := trim table in
              let clean := trim_matches is_quote (default table (head (split_whitespace table))) in
              match clean with [] => None | _ => Some (lower clean) end)
            (split_comma [] (trim part)))
  end.

(** The loop over the occurrences of a keyword. *)
Fixpoint extract_join (fuel : nat) (kw sql up : list Z) (pos : nat) (tables : list (list Z)) : option (list (list Z)) :=
  match fuel with
  | O => None
  | S fuel =>
      rest ← slice_from up pos;
      match find_text kw rest with
      | None => Some tables
      | Some join_pos =>
          let actual_pos := (pos + join_pos + length kw)%nat in
          tables ← (if (actual_pos <? length sql)%nat then
                      after_join ← slice_from sql actual_pos;
                      Some (match head (split_whitespace after_join) with
                            | None => tables
                            | Some name =>
                                let l := lower (trim_matches (fun c => is_quote c || (c =? 44)) name) in
                                if bool_decide (l = []) || bool_decide (l = str "on") || bool_decide (l ∈ tables) then tables else tables ++ [l]
                            end)
                    else Some tables);
          extract_join fuel kw sql up actual_pos tables
      end
  end.

Definition extract_tables (sql : list Z) : option (list (list Z)) :=
  tables ← extract_from sql;
  foldl (fun acc kw => tables ← acc; extract_join (S (length (upper sql))) kw sql (upper sql) 0 tables) (Some tables)
    [str " JOIN "; str " INNER JOIN "; str " LEFT JOIN "; str " RIGHT JOIN "; str " CROSS JOIN "].

(** ** Registration *)

Definition add_table_id (table : list Z) (tables : list (list Z)) : list (list Z) := if bool_decide (table ∈ tables) then tables else tables ++ [table].

Definition ffi_register_table_schema (h : NoriaHandle) (table : list Z) (columns : list (list Z)) : NoriaHandle :=
  if negb (valid_utf8 table) then h
  else
    let table := lower table in
    let columns := filter (fun c => valid_utf8 c = true) columns in
    mkHandle (add_base_table (nh_executor h) table).1 (nh_schemas h ++ [(table, columns)]) (nh_views h) (nh_sql_to_view_id h) (nh_table_to_views h)
      (add_table_id table (nh_tables h)) (nh_next_view_id h) (nh_cache_hits h) (nh_cache_misses h) (nh_max_memory h) (nh_dirty_tables h) (nh_upquery_callback h) (nh_panicked h).

(** [table_to_views.entry(table).or_insert_with(Vec::new).push(view_id)]. *)
Fixpoint add_view (table : list Z) (id : Z) (m : list (list Z * list Z)) : list (list Z * list Z) :=
  match m with
  | [] => [(table, [id])]
  | (t, ids) :: m => if decide (t = table) then (t, ids ++ [id]) :: m else (t, ids) :: add_view table id m
  end.

Definition ffi_register_view (h : NoriaHandle) (sql : list Z) : NoriaHandle * Z :=
  if negb (valid_utf8 sql) then (h, -1)
  else
    match assoc (normalize_sql sql) (nh_sql_to_view_id h) with
    | Some id => (h, id)
    | None =>
        match (tables ← extract_tables sql; r ← convert_select (pa_parse_f64 P) (pa_parse P) (nh_schemas h) sql (nh_executor h); Some (tables, r)) with
        | None => (set_panicked h, -1)
        | Some (_, (ex, inr _)) => (set_executor h ex, -1)
        | Some (tables, (ex, inl view)) =>
            let id := nh_next_view_id h in
            (mkHandle ex (nh_schemas h) ((id, mkEntry view sql tables) :: nh_views h) ((normalize_sql sql, id) :: nh_sql_to_view_id h)
               (foldl (fun m t => add_view t id m) (nh_table_to_views h) tables) (foldl (fun l t => add_table_id t l) (nh_tables h) tables)
               (i32 (id + 1)) (nh_cache_hits h) (nh_cache_misses h) (nh_max_memory h) (nh_dirty_tables h) (nh_upquery_callback h) (nh_panicked h), id)
        end
    end.

Definition ffi_has_view (h : NoriaHandle) (sql : list Z) : Z :=
  if negb (valid_utf8 sql) then 0 else if assoc (normalize_sql sql) (nh_sql_to_view_id h) is Some _ then 1 else 0.

Definition ffi_has_any_views (h : NoriaHandle) : Z := match nh_views h with [] => 0 | _ => 1 end.

Definition ffi_table_has_views (h : NoriaHandle) (table : list Z) : Z :=
  if negb (valid_utf8 table) then 0 else if assoc (lower table) (nh_table_to_views h) is Some _ then 1 else 0.

Definition ffi_get_table_id (h : NoriaHandle) (table : list Z) : Z :=
  if negb (valid_utf8 table) then -1
  else match position (fun t => bool_decide (t = lower table)) (nh_tables h) with Some i => i32 (Z.of_nat i) | None => -1 end.

Definition ffi_queue_invalidate_by_id (h : NoriaHandle) (table_id : Z) : NoriaHandle * Z :=
  if (table_id <? 0) || (64 <=? table_id) then (h, -1) else (set_dirty h (Z.lor (nh_dirty_tables h) (Z.shiftl 1 table_id)), 0).

(** ** Lookups *)

(** An upquery's value as it is stored. *)
Definition value_to_datatype (v : FfiValue) : option DataType :=
  match v with
  | FNull => Some DNone
  | FInt i => Some (DBigInt i)
  | FFloat f => from_f64 f
  | FText s => from_str s
  | FBlob _ => Some DNone
  end.

Definition found_rows (rows : RowsContainer) (count : Z) : NoriaLookupResult := mkLookup 1 count (Some (map (map to_noria_value) rows)).

(** The miss: the rows of the upquery are stored in the view and returned. The text
    of a view came from a C string and has no zero byte. *)
Definition ffi_upquery (h : NoriaHandle) (view : NoriaViewEntry) (keys : list NoriaValue) : option (NoriaHandle * NoriaLookupResult) :=
  match nh_upquery_callback h with
  | None => Some (h, not_found)
  | Some cb =>
      r ← cb (ve_sql view) keys;
      match r with
      | (0, Some (rows, count)) =>
          if count <=? 0 then Some (h, not_found)
          else
            rs ← mapM (fun r : list FfiValue => Positive <$> mapM value_to_datatype r) rows;
            ex ← (match rs with [] => Some (nh_executor h) | _ => inject_into_view (nh_executor h) (ve_handle view) rs end);
            Some (set_executor h ex, found_rows rows count)
      | _ => Some (h, not_found)
      end
  end.

(** The hit. *)
Definition ffi_hit (h : NoriaHandle) (rows : list row) : option (NoriaHandle * NoriaLookupResult) :=
  match rows with
  | [] => Some (h, mkLookup 1 0 None)
  | _ => values ← mapM (mapM from_datatype) rows; Some (h, found_rows values (i32 (Zlen rows)))
  end.

Definition lookup_view (h : NoriaHandle) (view : NoriaViewEntry) (keys : list NoriaValue) : option (NoriaHandle * NoriaLookupResult) :=
  key ← convert_values keys;
  r ← executor_lookup (nh_executor h) (ve_handle view) key;
  match r with
  | Some rows => ffi_hit (set_counts h (u64 (nh_cache_hits h + 1)) (nh_cache_misses h)) rows
  | None => ffi_upquery (set_counts h (nh_cache_hits h) (u64 (nh_cache_misses h + 1))) view keys
  end.

Definition ffi_lookup (h : NoriaHandle) (view_id : Z) (keys : list NoriaValue) : NoriaHandle * NoriaLookupResult :=
  if view_id <? 0 then (h, not_found)
  else match assoc view_id (nh_views h) with
       | None => (h, not_found)
       | Some view => match lookup_view h view keys with Some r => r | None => (set_panicked h, not_found) end
       end.

(** [noria_store_rows]: a row of no values is a null pointer or a count of 0, and is
    skipped. *)
Definition ffi_store_rows (h : NoriaHandle) (view_id : Z) (rows : list (list NoriaValue)) : NoriaHandle * Z :=
  if view_id <? 0 then (h, -1)
  else match assoc view_id (nh_views h) with
       | None => (h, -1)
       | Some view =>
           match (rs ← mapM (fun r => Positive <$> convert_values r) (filter (fun r => r <> []) rows); inject_into_view (nh_executor h) (ve_handle view) rs) with
           | Some ex => (set_executor h ex, 0)
           | None => (set_panicked h, 0)
           end
       end.

(** ** Changes *)

(** The records of a call. *)
Definition call_records (c : cdc_call) : option (list Z * Records) :=
  match c with
  | ApplyInsert table values => r ← convert_values values; Some (table, [Positive r])
  | ApplyDelete table old => r ← convert_values old; Some (table, [Negative r])
  | ApplyUpdate table old new => o ← convert_values old; n ← convert_values new; Some (table, [Negative o; Positive n])
  end.

Definition call_table (c : cdc_call) : list Z := match c with ApplyInsert t _ | ApplyDelete t _ | ApplyUpdate t _ _ => t end.

Definition ffi_apply (h : NoriaHandle) (c : cdc_call) : NoriaHandle * Z :=
  if negb (valid_utf8 (call_table c)) then (h, -1)
  else
    match ('(table, rs) ← call_records c; apply_write (pa_order P) (nh_executor h) (lower table) rs) with
    | Some ex => (set_executor h ex, 0)
    | None => (set_panicked h, 0)
    end.

Definition ffi_flush (h : NoriaHandle) : NoriaHandle * Z := (set_dirty h 0, 0).

(** Nothing is ever evicted. *)
Definition ffi_get_stats (h : NoriaHandle) : NoriaCacheStats :=
  let '(node_count, _, total_rows) := executor_stats (nh_executor h) in
  mkStats (nh_cache_hits h) (nh_cache_misses h) (u64 total_rows) (i32 (Zlen (nh_views h))) (i32 node_count) (u64 (total_rows * 100)) (nh_max_memory h) 0 0.

End Interface.

(** ** The callback of noria.cpp *)

Fixpoint add_rows (rows : RowsContainer) (l : list (list NoriaValue)) : option RowsContainer :=
  match l with [] => Some rows | r :: l => '(rows, _) ← noria_rows_add_row rows r; add_rows rows l end.

(** [UpqueryCallbackImpl] on a non-null object: [ExecuteUpquery], whose rows go
    into a container of the engine. *)
Definition UpqueryCallbackImpl (e : UpqueryEnv) (db : bool) : UpqueryCallback := fun sql params =>
  '(rc, out) ← ExecuteUpquery e db (Some sql) params;
  match out with
  | None => Some (rc, None)
  | Some (rows, n) => rows ← add_rows [] rows; Some (rc, Some (rows, n))
  end.

(** The constructor of [class Noria] creates an engine and installs the callback. *)
Definition engine_of (e : UpqueryEnv) : NoriaHandle := noria_set_upquery_callback handle_new (UpqueryCallbackImpl e true).

(** ** The engine as seen from noria.cpp *)

Definition Engine (P : Params) : Type := NoriaHandle.

#[export] Instance engine_ffi P : NoriaFfi (Engine P) := {
  noria_register_table_schema := ffi_register_table_schema P;
  noria_register_view := ffi_register_view P;
  noria_has_view := ffi_has_view P;
  noria_table_has_views := ffi_table_has_views P;
  noria_get_table_id := ffi_get_table_id P;
  noria_queue_invalidate_by_id := ffi_queue_invalidate_by_id;
  noria_lookup := ffi_lookup;
  noria_lookup_or_upquery := ffi_lookup;
  noria_apply := ffi_apply P;
  noria_queue := ffi_apply P;
  noria_flush := ffi_flush;
  noria_get_stats := ffi_get_stats
}.
