(* ===== verification/EngineFfiCorrect.v ===== *)
(** * The engine behind its C interface (noria-better-sqlite3/noria-ffi/src/lib.rs)

    The engine keeps the law the C++ side relies on; a change event brings the views
    up to date, as lookups show; and a miss stores what its upquery returned. *)
From stdpp Require Import strings.
From S2P Require Import Prelude Bits Varint Double Value Record Strings Buffer Session Recorder Tracking SelectSql Changeset Generate Iterator IteratorSpec Bind Js Noria NoriaSql NoriaJs Cdc NoriaSqlCorrect DataType EngineState EngineOps Executor EngineGraph EngineCorrect EngineAggregate EngineNode EngineViews EngineProps EngineSql EngineSqlCorrect EngineFfi.

Local Open Scope Z_scope.

#[export] Instance engine_laws P : NoriaFfiLaws (Engine P).
Proof.
  split. intros h c t. change (ffi_table_has_views P (ffi_apply P h c).1 t = ffi_table_has_views P h t).
  unfold ffi_apply. case_match; [reflexivity|]. destruct (_ ≫= _); reflexivity.
Qed.

(** ** Values in the cache *)

(** Values that can be stored: finite floats, and texts without a zero byte. *)
Definition storable (v : FfiValue) : Prop :=
  match v with
  | FNull | FInt _ | FBlob _ => True
  | FFloat f => d_finite f = true
  | FText s => valid_utf8 s = true /\ Forall (fun c => c <> 0) s
  end.

(** What is read again: a float went through its decimal expansion to nine
    places, and a blob is dropped. *)
Definition reread (v : FfiValue) : FfiValue :=
  match v with
  | FFloat f => match from_f64 f with Some (DReal i frac) => FFloat (real_to_f64 i frac) | _ => v end
  | FBlob _ => FNull
  | _ => v
  end.

Lemma value_stored v : storable v -> exists d, value_to_datatype v = Some d /\ plain d /\ from_datatype d = Some (reread v).
Proof.
  destruct v as [| |f|s|]; cbn; intros H; try (eexists; split_and!; [reflexivity|exact I|reflexivity]).
  - unfold from_f64. rewrite H. cbn [negb]. set (i := trunc_i64 f). set (frac := if d_sign f then _ else _).
    eexists. split; [reflexivity|]. destruct (frac =? 1000000000); [split; [exact I|reflexivity]|]. destruct (frac =? -1000000000); (split; [exact I|reflexivity]).
  - destruct H as [Hv Hn]. destruct (text_stored s Hv Hn) as (d & E & _ & Hp & Hf). eauto.
Qed.

Lemma row_stored r : Forall storable r -> exists ds, mapM value_to_datatype r = Some ds /\ plain_row ds /\ mapM from_datatype ds = Some (reread <$> r).
Proof.
  induction 1 as [|v r Hv _ (ds & E & Hp & Ef)]; [exists []; split_and!; [reflexivity|constructor|reflexivity]|].
  destruct (value_stored v Hv) as (d & Ed & Hd & Efd). exists (d :: ds). unfold mapM in *. cbn. rewrite Ed. cbn. rewrite E. cbn. rewrite Efd. cbn. rewrite Ef. split_and!; [reflexivity|constructor; auto|reflexivity].
Qed.

Definition reread_rows (rows : RowsContainer) : RowsContainer := (fun r : list FfiValue => reread <$> r) <$> rows.

Lemma rows_stored rows : Forall (Forall storable) rows -> exists dss, mapM (fun r : list FfiValue => Positive <$> mapM value_to_datatype r) rows = Some (Positive <$> dss) /\
  mapM (mapM value_to_datatype) rows = Some dss /\ Forall plain_row dss /\ mapM (mapM from_datatype) dss = Some (reread_rows rows).
Proof.
  induction 1 as [|r rows Hr _ (dss & E & E' & Hp & Ef)]; [exists []; split_and!; [reflexivity|reflexivity|constructor|reflexivity]|].
  destruct (row_stored r Hr) as (ds & Ed & Hd & Efd). exists (ds :: dss). cbn [mapM]. rewrite Ed. cbn. rewrite E, E'. cbn. rewrite Efd. cbn. rewrite Ef. split_and!; [reflexivity|reflexivity|constructor; auto|reflexivity].
Qed.

(** ** Rows pushed under one key *)

Lemma get_push k r data : key_eq k k = true -> get_entry k (push_entry k r data) = Some (default [] (get_entry k data) ++ [r]).
Proof.
  intros Hk. induction data as [|[k' rows] data IH]; cbn; [rewrite Hk; reflexivity|]. destruct (key_eq k k') eqn:E; cbn; rewrite E; [reflexivity|exact IH].
Qed.

Lemma push_rows st k rows : key_eq k k = true -> Forall (fun r => from_row r (ms_key_columns st) = Some k) rows ->
  exists st', process_records st (Positive <$> rows) = Some st' /\ ms_key_columns st' = ms_key_columns st /\
    (rows <> [] -> get_entry k (ms_data st') = Some (default [] (get_entry k (ms_data st)) ++ rows)).
Proof.
  intros Hk. revert st. induction rows as [|r rows IH]; intros st H; cbn [fmap list_fmap process_records]; [exists st; split_and!; auto; contradiction|].
  inversion H as [|? ? Hr Hrows]; subst. unfold process_record at 1. cbn [record_row]. rewrite Hr. cbn [mbind option_bind].
  destruct (IH (mkState (ms_key_columns st) (push_entry k r (ms_data st)) (ms_row_count st + 1)) Hrows) as (st' & E & Ek & G). exists st'. split_and!; auto. intros _.
  destruct rows as [|r' rows]; [cbn in E; injection E as <-; exact (get_push k r _ Hk)|]. rewrite (G ltac:(discriminate)). cbn [ms_data]. rewrite (get_push k r _ Hk). cbn. rewrite <- app_assoc. reflexivity.
Qed.

(** ** Properties *)

Lemma plain_slice key : plain_row key -> key_eq (from_slice key) (from_slice key) = true.
Proof. intros H. apply key_eq_refl. destruct key as [|d [|d' key]]; cbn; auto. exact (Forall_inv H). Qed.

(** A miss stores the rows of the callback, and the next lookup is a hit with them. *)
Lemma miss_then_hit P (h : Engine P) id view keys key n st f rows :
  0 <= id -> assoc id (nh_views h) = Some view ->
  ex_nodes (nh_executor h) !! vh_node (ve_handle view) = Some n -> nd_state n = Some st ->
  convert_values keys = Some key -> plain_row key -> state_lookup st key = Missing ->
  nh_upquery_callback h = Some f -> f (ve_sql view) keys = Some (0, Some (rows, Zlen rows)) -> rows <> [] -> Zlen rows < 2 ^ 31 ->
  Forall (Forall storable) rows ->
  (forall ds, mapM (mapM value_to_datatype) rows = Some ds -> Forall (fun r => from_row r (ms_key_columns st) = Some (from_slice key)) ds) ->
  let first := noria_lookup h id keys in
  let second := noria_lookup first.1 id keys in
  first.2 = found_rows rows (Zlen rows) /\ second.2 = found_rows (reread_rows rows) (Zlen rows) /\
  nh_cache_hits second.1 = u64 (nh_cache_hits h + 1) /\ nh_cache_misses second.1 = u64 (nh_cache_misses h + 1) /\
  nh_panicked second.1 = nh_panicked h.
Proof.
  intros Hid Hv En Es Hk Hp Hm Hu Hf Hne Hlen Hst Hkey. destruct (rows_stored rows Hst) as (dss & E1 & E2 & Hpl & E3).
  assert (Hne' : dss <> []) by (intros ->; destruct rows; [contradiction|]; cbn in E3; discriminate).
  assert (Hl : length dss = length rows) by (apply mapM_Some_1, Forall2_length in E2; lia).
  destruct (push_rows st (from_slice key) dss (plain_slice key Hp) (Hkey dss E2)) as (st' & Ep & Ek & Eg).
  assert (Em : get_entry (from_slice key) (ms_data st) = None) by (unfold state_lookup in Hm; destruct (get_entry _ _) as [[|]|]; try discriminate; reflexivity).
  assert (Pos : (Zlen rows <=? 0) = false) by (apply Z.leb_gt; unfold Zlen; destruct rows; [contradiction|cbn; lia]).
  set (ex' := with_nodes (nh_executor h) (<[vh_node (ve_handle view) := set_state (Some st') n]> (ex_nodes (nh_executor h)))).
  set (h1 := (set_executor (set_counts h (nh_cache_hits h) (u64 (nh_cache_misses h + 1))) ex' : Engine P)).
  assert (First : noria_lookup h id keys = (h1, found_rows rows (Zlen rows))).
  { cbn. unfold ffi_lookup. rewrite (proj2 (Z.ltb_ge _ _) Hid), Hv. unfold lookup_view. rewrite Hk. cbn [mbind option_bind]. unfold executor_lookup. rewrite En. cbn [mbind option_bind]. rewrite Es, Hm.
    unfold ffi_upquery. cbn [nh_upquery_callback set_counts mbind option_bind]. rewrite Hu, Hf. cbn [mbind option_bind]. rewrite Pos, E1. cbn [mbind option_bind].
    replace (match Positive <$> dss with [] => _ | _ => _ end) with (inject_into_view (nh_executor h) (ve_handle view) (Positive <$> dss)) by (destruct dss; [contradiction|reflexivity]). unfold inject_into_view. rewrite En. cbn [mbind option_bind]. rewrite Es, Ep. reflexivity. }
  assert (L : executor_lookup ex' (ve_handle view) key = Some (Some dss)).
  { unfold executor_lookup, ex'. cbn [ex_nodes with_nodes]. rewrite list_lookup_insert_eq by exact (lookup_lt_Some _ _ _ En). cbn. unfold state_lookup. rewrite (Eg Hne'), Em. cbn. destruct dss; [contradiction|reflexivity]. }
  rewrite First. cbn [fst snd]. assert (Second : noria_lookup h1 id keys = (set_counts h1 (u64 (nh_cache_hits h + 1)) (nh_cache_misses h1), found_rows (reread_rows rows) (Zlen rows))).
  { cbn. unfold ffi_lookup. rewrite (proj2 (Z.ltb_ge _ _) Hid). cbn [nh_views h1 set_executor set_counts]. rewrite Hv. unfold lookup_view. rewrite Hk. cbn [mbind option_bind nh_executor h1 set_executor]. rewrite L. cbn [mbind option_bind].
    unfold ffi_hit. destruct dss as [|d dss]; [contradiction|]. rewrite E3. cbn [mbind option_bind]. unfold Zlen in *. rewrite Hl, i32_id by (unfold is_i32; lia). reflexivity. }
  rewrite Second. cbn. auto.
Qed.

(** A miss without rows stores nothing: the next lookup misses again. *)
Lemma miss_then_miss P (h : Engine P) id view keys key n st f count :
  0 <= id -> assoc id (nh_views h) = Some view ->
  ex_nodes (nh_executor h) !! vh_node (ve_handle view) = Some n -> nd_state n = Some st ->
  convert_values keys = Some key -> state_lookup st key = Missing ->
  nh_upquery_callback h = Some f -> f (ve_sql view) keys = Some (0, Some ([], count)) -> count <= 0 ->
  noria_lookup h id keys = ((set_counts h (nh_cache_hits h) (u64 (nh_cache_misses h + 1)) : Engine P), not_found).
Proof.
  intros Hid Hv En Es Hk Hm Hu Hf Hc. cbn. unfold ffi_lookup. rewrite (proj2 (Z.ltb_ge _ _) Hid), Hv. unfold lookup_view. rewrite Hk. cbn [mbind option_bind].
  unfold executor_lookup. rewrite En. cbn [mbind option_bind]. rewrite Es, Hm. unfold ffi_upquery. cbn [nh_upquery_callback set_counts mbind option_bind].
  rewrite Hu, Hf. cbn [mbind option_bind]. rewrite (proj2 (Z.leb_le _ _) Hc). reflexivity.
Qed.

(** ** Values of SQLite in the engine *)

(** What the cache can hold: reals are finite, texts are valid UTF-8 without a
    zero byte, and lengths fit an [int]. *)
Definition cacheable (v : sqlite3_value) : Prop :=
  match v with
  | VNull | VInt _ => True
  | VReal r => d_finite r = true
  | VText s => valid_utf8 s = true /\ Forall (fun c => c <> 0) s /\ Zlen s < 2 ^ 31
  | VBlob b => Zlen b < 2 ^ 31
  end.

(** What the cache gives back for a value: a real in decimal with nine places,
    and NULL for a blob. *)
Definition kept (v : sqlite3_value) : sqlite3_value :=
  match v with
  | VReal r => match from_f64 r with Some (DReal i frac) => VReal (real_to_f64 i frac) | _ => v end
  | VBlob _ => VNull
  | _ => v
  end.

Definition is_blob (v : sqlite3_value) : bool := match v with VBlob _ => true | _ => false end.

Definition ffi_of (v : sqlite3_value) : FfiValue :=
  match v with VNull => FNull | VInt i => FInt i | VReal r => FFloat r | VText s => FText s | VBlob b => FBlob b end.

Lemma reread_kept v : reread (ffi_of v) = ffi_of (kept v).
Proof. destruct v as [| |r| |]; try reflexivity. cbn. destruct (from_f64 r) as [[]|]; reflexivity. Qed.

(** The value as the interface returns it. *)
Definition noria_of (v : sqlite3_value) : NoriaValue := to_noria_value (ffi_of v).

Lemma text_len_nonpos (s : list Z) : (Zlen s <=? 0) = true -> s = [].
Proof. rewrite Z.leb_le. destruct s; [reflexivity|unfold Zlen; cbn; lia]. Qed.

Lemma read_all (s : list Z) : (if Zlen s <=? 0 then Some [] else read_n (Zlen s) s) = Some s.
Proof. destruct (Zlen s <=? 0) eqn:E; [rewrite (text_len_nonpos s E); reflexivity|apply read_n_all]. Qed.

Lemma cell_copied v : cacheable v -> copy_value (SqliteColumnToNoriaValue v) = Some (ffi_of v) /\ storable (ffi_of v) /\
  (is_blob v = false -> value_to_datatype (ffi_of v) = noria_value_to_datatype (SqliteColumnToNoriaValue v)).
Proof.
  destruct v as [|n|r|s|b]; cbn [cacheable]; intros H; try (split_and!; reflexivity || exact I || exact H || discriminate).
  - destruct H as (Hv & Hn & Hl). assert (T : SqliteColumnToNoriaValue (VText s) = mkNV NORIA_TEXT 0 0 (Some s) (Zlen s) None 0) by reflexivity.
    rewrite T. unfold copy_value, noria_value_to_datatype. cbn [nv_type nv_text nv_text_len NORIA_TEXT NORIA_NULL NORIA_INTEGER NORIA_FLOAT Z.eqb Pos.eqb].
    split_and!; [|split; auto|intros _].
    + rewrite read_all. cbn [mbind option_bind]. rewrite (lossy_valid s Hv). reflexivity.
    + cbn [value_to_datatype ffi_of]. destruct (Zlen s <=? 0) eqn:E; [rewrite (text_len_nonpos s E); reflexivity|]. rewrite read_n_all. cbn [mbind option_bind]. rewrite (lossy_valid s Hv). reflexivity.
  - split_and!; [|exact I|discriminate]. unfold SqliteColumnToNoriaValue. cbn -[Zlen read_n]. unfold copy_value. cbn -[Zlen read_n].
    destruct b as [|c b]; [reflexivity|]. change (truth (Zlen (c :: b))) with true. cbv iota. rewrite read_all. reflexivity.
Qed.

Lemma row_copied r : Forall cacheable r -> mapM copy_value (SqliteColumnToNoriaValue <$> r) = Some (ffi_of <$> r) /\ Forall storable (ffi_of <$> r).
Proof.
  induction 1 as [|v r Hv _ (E1 & E2)]; [split_and!; auto|]. destruct (cell_copied v Hv) as (C1 & C2 & _).
  cbn [fmap list_fmap mapM]. change (list_fmap _ _ ?f ?l) with (f <$> l). rewrite C1, E1. split; [reflexivity|constructor; auto].
Qed.

Lemma key_copied vs : Forall cacheable vs -> Forall (fun v => is_blob v = false) vs ->
  mapM value_to_datatype (ffi_of <$> vs) = convert_values (SqliteColumnToNoriaValue <$> vs).
Proof.
  unfold convert_values. induction 1 as [|v r Hv _ IH]; [auto|]. intros Hb. inversion Hb as [|? ? B1 B2]; subst. destruct (cell_copied v Hv) as (_ & _ & C).
  cbn [fmap list_fmap mapM]. change (list_fmap _ _ ?f ?l) with (f <$> l). rewrite (C B1), (IH B2). reflexivity.
Qed.

Definition container_of (rows : list (list sqlite3_value)) : RowsContainer := (fun r : list sqlite3_value => ffi_of <$> r) <$> rows.

Lemma rows_added acc rows : Forall (fun r => r <> [] /\ Forall cacheable r) rows ->
  add_rows acc (map (map SqliteColumnToNoriaValue) rows) = Some (acc ++ container_of rows).
Proof.
  revert acc. induction rows as [|r rows IH]; intros acc H; cbn [map add_rows]; [rewrite app_nil_r; reflexivity|].
  inversion H as [|? ? [Hne Hr] Hrows]; subst. unfold noria_rows_add_row. destruct (row_copied r Hr) as (E & _).
  change (map SqliteColumnToNoriaValue r) with (SqliteColumnToNoriaValue <$> r). destruct r as [|v r]; [contradiction|]. cbn [fmap list_fmap].
  cbn [fmap list_fmap] in E. rewrite E. cbn [mbind option_bind]. rewrite IH by exact Hrows. cbn. rewrite <- app_assoc. reflexivity.
Qed.

(** The key read from a converted row is the converted key. *)
Lemma key_converted (r vs : list sqlite3_value) ds key cols : Forall cacheable vs -> Forall (fun v => is_blob v = false) vs -> mapM (fun c => r !! c) cols = Some vs ->
  mapM value_to_datatype (ffi_of <$> r) = Some ds -> convert_values (SqliteColumnToNoriaValue <$> vs) = Some key ->
  from_row ds cols = Some (from_slice key).
Proof.
  intros Hvs Hb Hc Hd Hk. assert (G : mapM (fun c => ds !! c) cols = Some key).
  { rewrite <- (key_copied vs Hvs Hb) in Hk. clear Hvs Hb. apply mapM_Some_1 in Hd. revert vs key Hc Hk. induction cols as [|c cols IH]; intros vs key Hc Hk; [cbn in Hc; injection Hc as <-; exact Hk|].
    cbn in Hc. destruct (r !! c) as [v|] eqn:E; [|discriminate]. cbn in Hc. destruct (mapM _ cols) as [vs'|] eqn:Ec; [|discriminate]. cbn in Hc. injection Hc as <-.
    cbn [fmap list_fmap mapM] in Hk. change (list_fmap _ _ ?f ?l) with (f <$> l) in Hk. destruct (value_to_datatype _) as [d|] eqn:Ed in Hk; [|discriminate]. cbn in Hk. destruct (mapM value_to_datatype _) as [key'|] eqn:Ek in Hk; [|discriminate].
    cbn in Hk. injection Hk as <-. pose proof (list_lookup_fmap ffi_of r c) as El. rewrite E in El. cbn in El. destruct (Forall2_lookup_l _ _ _ _ _ Hd El) as (d' & Ed' & Ev).
    rewrite Ed in Ev. injection Ev as <-. cbn. rewrite Ed'. cbn. rewrite (IH vs' key' eq_refl Ek). reflexivity. }
  unfold from_row, from_slice. destruct cols as [|c [|c' cols]]; [injection G as <-; reflexivity| |].
  - cbn in G. destruct (ds !! c); [|discriminate]. injection G as <-. reflexivity.
  - rewrite G. cbn [mbind option_bind]. apply mapM_Some_1, Forall2_length in G. destruct key as [|? [|? key]]; cbn in G; try discriminate. reflexivity.
Qed.

(** Rows as a lookup returns them. *)
Definition result_of (rows : list (list sqlite3_value)) : NoriaLookupResult :=
  mkLookup 1 (Zlen rows) (Some ((fun r : list sqlite3_value => noria_of <$> r) <$> rows)).

Lemma found_container rows : found_rows (container_of rows) (Zlen rows) = result_of rows.
Proof.
  unfold found_rows, result_of, container_of, noria_of. f_equal. f_equal. change (map (map to_noria_value)) with (fmap (M := list) (fmap (M := list) to_noria_value)).
  rewrite <- list_fmap_compose. apply list_fmap_ext. intros _ r _. unfold compose. rewrite <- list_fmap_compose. reflexivity.
Qed.

Lemma reread_container rows : reread_rows (container_of rows) = container_of ((fun r : list sqlite3_value => kept <$> r) <$> rows).
Proof.
  unfold reread_rows, container_of. rewrite <- !list_fmap_compose. apply list_fmap_ext. intros _ r _. unfold compose.
  rewrite <- !list_fmap_compose. apply list_fmap_ext. intros _ v _. apply reread_kept.
Qed.


(** ** Rows served to JavaScript *)

(** A row on its way through the cache: copied into the engine's container,
    stored, read again and passed back. *)
Definition cached_row (row : list sqlite3_value) : option (list NoriaValue) :=
  values ← mapM copy_value (SqliteColumnToNoriaValue <$> row);
  ds ← mapM value_to_datatype values;
  values ← mapM from_datatype ds;
  Some (to_noria_value <$> values).

Definition small_value (v : sqlite3_value) : Prop := match v with VText s | VBlob s => Zlen s < 2 ^ 31 | _ => True end.

Lemma noria_of_reads v : small_value v -> reads_as v (noria_of v).
Proof.
  intros Hv safe_ints. unfold noria_of. destruct v as [|i|r|z|z]; try reflexivity; cbn in Hv;
    unfold NoriaValueToV8; cbn -[read_n Zlen i32]; unfold i32; rewrite i32_id by (unfold is_i32, Zlen in *; lia); rewrite read_n_all; [reflexivity|].
  destruct z; reflexivity.
Qed.

Lemma cacheable_small v : cacheable v -> small_value v /\ small_value (kept v).
Proof. destruct v as [| |r| |]; cbn; try tauto. intros _. destruct (from_f64 r) as [[]|]; cbn; auto. Qed.

Definition kept_column (c : column) : column := mkColumn (cl_table c) (cl_name c) (kept (cl_value c)).


(** What an event says of its table: a row was added, a row was removed, or one row
    replaced another.  The values convert to rows of [w] columns. *)
Definition event_changes (w : nat) (c : cdc_call) (M M' : list row) : Prop :=
  match c with
  | ApplyInsert _ values => exists r, convert_values values = Some r /\ row_ok w r /\ M' ≡ₚ r :: M
  | ApplyDelete _ old => exists r, convert_values old = Some r /\ row_ok w r /\ M ≡ₚ r :: M'
  | ApplyUpdate _ old new =>
      exists o n rest, convert_values old = Some o /\ convert_values new = Some n /\ row_ok w o /\ row_ok w n /\ M ≡ₚ o :: rest /\ M' ≡ₚ n :: rest
  end.

Lemma remove_listed r M rest : M ≡ₚ r :: rest -> exists M', remove_one r M = Some M' /\ M' ≡ₚ rest.
Proof.
  intros E. destruct (remove_one_in r M) as [M' Em]; [rewrite E; left|]. exists M'. split; [exact Em|].
  apply (Permutation_cons_inv (a := r)). rewrite <- (remove_one_perm r M M' Em). exact E.
Qed.

Lemma event_records w c M M' : event_changes w c M M' ->
  exists rs M2, call_records c = Some (call_table c, rs) /\ records_ok w rs /\ apply_all M rs = Some M2 /\ M2 ≡ₚ M'.
Proof.
  destruct c as [t values|t old|t old new]; cbn.
  - intros (r & E & Hr & P). rewrite E. exists [Positive r], (r :: M). split_and!; [reflexivity|constructor; [exact Hr|constructor]|reflexivity|symmetry; exact P].
  - intros (r & E & Hr & P). rewrite E. destruct (remove_listed r M M' P) as (M1 & E1 & P1).
    exists [Negative r], M1. split_and!; [reflexivity|constructor; [exact Hr|constructor]| |exact P1]. cbn. rewrite E1. reflexivity.
  - intros (o & n & rest & Eo & En & Ho & Hn & P & P'). rewrite Eo, En. destruct (remove_listed o M rest P) as (M1 & E1 & P1).
    exists [Negative o; Positive n], (n :: M1). split_and!; [reflexivity|constructor; [exact Ho|constructor; [exact Hn|constructor]]| |rewrite P1, P'; reflexivity]. cbn. rewrite E1. reflexivity.
Qed.

(** C6: a change event brings the engine's views up to date, in the graphs and
    states of the theorem on writes: joins are inner joins, the event's table reaches
    no node by two paths, every materialized node and aggregate holds all its rows of
    [D], and [D] and [E] answer every node's query in SQL before and after the change;
    [E] has the table's rows as the event says.  Then applying the event does not
    panic, every materialized node and aggregate holds its rows of [E], and a lookup
    of a registered view by a key of integers and texts that has rows in [E] is a hit
    with exactly the rows of [E] whose key columns equal the key. *)
Theorem event_updates_views P W D E (h : Engine P) c base id view keys key :
  (forall g, pa_order P g ≡ₚ g) -> valid_utf8 (call_table c) = true ->
  get_base_table (nh_executor h) (lower P (call_table c)) = Some base -> (base < length (ex_nodes (nh_executor h)))%nat ->
  sql_setting W D E (ex_nodes (nh_executor h)) base -> holds (nh_executor h) D -> event_changes (W base) c (D base) (E base) ->
  0 <= id -> assoc id (nh_views h) = Some view ->
  key_columns_of (ex_nodes (nh_executor h)) (vh_node (ve_handle view)) = Some (vh_key_columns (ve_handle view)) ->
  convert_values keys = Some key -> key_asked (vh_key_columns (ve_handle view)) key (E (vh_node (ve_handle view))) ->
  filter (sql_key (vh_key_columns (ve_handle view)) key) (E (vh_node (ve_handle view))) <> [] ->
  Forall (fun r => is_Some (mapM from_datatype r)) (E (vh_node (ve_handle view))) ->
  let h' := (noria_apply h c).1 in
  nh_panicked h' = nh_panicked h /\ holds (nh_executor h') E /\
  exists rows values, rows ≡ₚ filter (sql_key (vh_key_columns (ve_handle view)) key) (E (vh_node (ve_handle view))) /\
    mapM (mapM from_datatype) rows = Some values /\ (noria_lookup h' id keys).2 = found_rows values (i32 (Zlen rows)).
Proof.
  intros Hord Hutf Eb Lb HS Hh Hev Hid Hv Hkc Hk Hp Hsome Hconv. destruct (event_records _ c _ _ Hev) as (rs & M' & Hcr & Hrs & Happ & HM).
  destruct (write_tracks (pa_order P) W D E (nh_executor h) (lower P (call_table c)) base rs M') as (ex' & Ew & Est & Hh'); auto using sql_setting_solves.
  assert (Ea : noria_apply h c = (set_executor h ex' : Engine P, 0)). { cbn. unfold ffi_apply. rewrite Hutf. cbn [negb]. rewrite Hcr. cbn [mbind option_bind]. rewrite Ew. reflexivity. }
  rewrite Ea. cbn [fst]. split_and!; [reflexivity|exact Hh'|].
  destruct (lookup_sql ex' E W (ve_handle view) key Hh') as (r & Er & Pr); [|rewrite (statics_keys _ _ _ Est); exact Hkc|exact Hp|].
  { intros i n En. exact (written_typed W D E _ base (ex_nodes ex') i n HS Est En). }
  destruct r as [rows|]; [|cbn in Pr; apply Permutation_nil in Pr; rewrite Pr in Hsome; contradiction].
  cbn in Pr. assert (Cv : is_Some (mapM (mapM from_datatype) rows)).
  { apply mapM_is_Some. apply Forall_forall. intros x Hx. rewrite Pr in Hx. apply list_elem_of_filter in Hx as [_ Hx]. rewrite Forall_forall in Hconv. auto. }
  destruct Cv as [values Ev]. exists rows, values. split_and!; [exact Pr|exact Ev|]. cbn. unfold ffi_lookup. rewrite (proj2 (Z.ltb_ge _ _) Hid). cbn [nh_views set_executor]. rewrite Hv.
  unfold lookup_view. rewrite Hk. cbn [mbind option_bind nh_executor set_executor]. rewrite Er. cbn [mbind option_bind]. unfold ffi_hit.
  destruct rows as [|x rows]; [apply Permutation_nil in Pr; rewrite Pr in Hsome; contradiction|]. rewrite Ev. reflexivity.
Qed.

(** ** Concrete engines *)

Definition select_by (col : string) (list_ : list ResultColumn) : Select :=
  mkSelect list_ (Some (mkFrom (Some (STable (str "users"))) [])) (Some (EBinary (EId (str col)) OpEquals EVariable)) None.

Definition sql_all : list Z := str "SELECT * FROM users WHERE id = ?".
Definition sql_name : list Z := str "SELECT name FROM users WHERE id = ?".

(** The parser on these texts, and an upquery that finds one user. *)
Definition demo_parse (sql : list Z) : Command :=
  if decide (sql = sql_all) then CSelect (select_by "id" [RStar])
  else if decide (sql = sql_name) then CSelect (select_by "id" [RExpr (EId (str "name")) None])
  else if decide (sql = str "SELECT * FROM users WHERE name = 'ann'") then
    CSelect (mkSelect [RStar] (Some (mkFrom (Some (STable (str "users"))) [])) (Some (EBinary (EId (str "name")) OpEquals (ELiteral (LString (str "ann"))))) None)
  else COther.

Definition demo_answer : list (list sqlite3_value) := [[VInt 1; VText (str "Ann"); VInt 30]].

Definition demo_sqlite : UpqueryEnv :=
  mkUpqueryEnv (fun _ => SQLITE_OK) true (fun sql _ => (if decide (sql = sql_all) then demo_answer else [[VText (str "Ann")]], SQLITE_DONE)).

Definition demo_params : Params := mkParams demo_parse (fun _ => None) (fun g => g) (fun s => s) (fun s => s).

Definition demo_users : NoriaHandle := ffi_register_table_schema demo_params (engine_of demo_sqlite) (str "users") [str "id"; str "name"; str "age"].

Definition demo_engine : NoriaHandle := (ffi_register_view demo_params demo_users sql_all).1.

Definition demo_view : NoriaViewEntry := mkEntry (mkView 1 [0%nat]) sql_all [str "users"].


Definition demo_row : list column := [mkColumn None (str "id") (VInt 1); mkColumn None (str "data") (VBlob [1; 2])].


(** The graph of the votes, with its count as view 0. *)
Definition demo_votes : NoriaHandle :=
  mkHandle demo_ex [] [(0, mkEntry (mkView 3 [0%nat]) (str "SELECT") [str "votes"])] [] [(str "votes", [0])] [str "votes"] 1 0 0 DEFAULT_MAX_MEMORY_BYTES 0 None false.

Lemma event_updates_views_witness :
  let h' := (noria_apply (demo_votes : Engine demo_params) (ApplyInsert (str "votes") [nv_integer 1; nv_integer 7])).1 in
  nh_panicked h' = nh_panicked demo_votes /\ holds (nh_executor h') demo_after /\
  exists rows values, rows ≡ₚ filter (sql_key [0%nat] [DBigInt 1]) (demo_after 3) /\
    mapM (mapM from_datatype) rows = Some values /\ (noria_lookup h' 0 [nv_integer 1]).2 = found_rows values (i32 (Zlen rows)).
Proof.
  apply (event_updates_views demo_params demo_width demo_before demo_after demo_votes (ApplyInsert (str "votes") [nv_integer 1; nv_integer 7]) 0 0
    (mkEntry (mkView 3 [0%nat]) (str "SELECT") [str "votes"]) [nv_integer 1] [DBigInt 1]);
    [reflexivity|vm_compute; reflexivity|vm_compute; reflexivity|cbn; lia|exact demo_setting|exact demo_holds|exists demo_vote; split; [reflexivity|split; [plain_rows|reflexivity]]|lia|reflexivity|reflexivity|reflexivity|exact demo_key|vm_compute; discriminate|].
  constructor; [vm_compute; eauto|constructor].
Defined.

(** ** Limits *)

(** The text of a statement is compared in upper case, its literals included: the
    second statement is answered by the view of the first. *)
Lemma literals_collide :
  let '(h, first) := ffi_register_view demo_params demo_users (str "SELECT * FROM users WHERE name = 'ann'") in
  let '(_, second) := ffi_register_view demo_params h (str "SELECT * FROM users WHERE name = 'ANN'") in
  (first, second) = (0, 0).
Proof. vm_compute. reflexivity. Qed.

(** The key column a projection leaves out is appended to the rows of the view but
    not to those of the upquery: storing them indexes past the end of the row. *)
Lemma upquery_of_projection_panics :
  let '(h, id) := ffi_register_view demo_params demo_users sql_name in
  (id, nh_panicked h, nh_panicked (ffi_lookup h id [nv_integer 1]).1) = (0, false, true).
Proof. vm_compute. reflexivity. Qed.

(** A table registered again gets a new base node: the views on the old one are not
    reached by the changes that follow, and a deleted row is still a hit. *)
Lemma table_registered_again :
  let h := (ffi_lookup demo_engine 0 [nv_integer 1]).1 in
  let h := ffi_register_table_schema demo_params h (str "users") [str "id"; str "name"; str "age"] in
  let old := [nv_integer 1; mkNV NORIA_TEXT 0 0 (Some (str "Ann")) 3 None 0; nv_integer 30] in
  let h := (ffi_apply demo_params h (ApplyDelete (str "users") old)).1 in
  let '(h, result) := ffi_lookup h 0 [nv_integer 1] in
  (result, nh_cache_hits h, nh_cache_misses h) = (mkLookup 1 1 (Some (map (map SqliteColumnToNoriaValue) demo_answer)), 1, 1).
Proof. vm_compute. reflexivity. Qed.
