(* ===== verification/Savepoint.v ===== *)
(** * Transactions and savepoints of a connection (vdbe.c, vdbeaux.c, main.c in sqlite3.c)

    The opcodes that begin, commit and roll back transactions and savepoints, and the
    way a statement ends.  The database files are behind a class: what the virtual
    machine asks of the B-tree layer, and what that layer promises. *)
From stdpp Require Import strings.
From S2P Require Import Prelude Value Codes Record Strings.

Local Open Scope Z_scope.

Definition SAVEPOINT_BEGIN : Z := 0.
Definition SAVEPOINT_RELEASE : Z := 1.
Definition SAVEPOINT_ROLLBACK : Z := 2.
Definition OE_Rollback : Z := 1.
Definition OE_Abort : Z := 2.
Definition OE_Fail : Z := 3.
Definition SQLITE_IOERR : Z := 10.
Definition SQLITE_READONLY : Z := 8.
Definition SQLITE_INTERRUPT : Z := 9.
Definition SQLITE_FULL : Z := 13.
Definition SQLITE_IOERR_CORRUPTFS : Z := Z.lor SQLITE_IOERR (Z.shiftl 33 8).
Definition SQLITE_CONSTRAINT_FOREIGNKEY : Z := Z.lor SQLITE_CONSTRAINT (Z.shiftl 3 8).

(** ** The files *)

(** The calls on the B-tree of one file; [sqlite3BtreeBeginTrans] and
    [sqlite3BtreeBeginStmt] take the number of savepoints that shall be open;
    [vdbeCommit] takes all files. *)
Class Storage (S : Type) := {
  sqlite3BtreeBeginTrans : S -> Z -> S * Z;
  sqlite3BtreeBeginStmt : S -> Z -> S * Z;
  sqlite3BtreeSavepoint : S -> Z -> Z -> S * Z;
  sqlite3BtreeRollback : S -> S;
  vdbeCommit : list S -> list S * Z
}.

(** ** State *)

Record Savepoint := mkSavepoint {
  sp_zName : list Z;
  sp_nDeferredCons : Z;
  sp_nDeferredImmCons : Z
}.

(** The fields of [sqlite3]; the head of [pSavepoint] is the innermost one, [aDb] has the
    files that have a B-tree. *)
Record Conn {S : Type} := mkConn {
  autoCommit : bool;
  isTransactionSavepoint : bool;
  pSavepoint : list Savepoint;
  nSavepoint : Z;
  nStatement : Z;
  nDeferredCons : Z;
  nDeferredImmCons : Z;
  nVdbeActive : Z;
  nVdbeRead : Z;
  nVdbeWrite : Z;
  corruptRdOnly : bool;
  aDb : list S
}.

(** The fields of [Vdbe]. *)
Record VM := mkVM {
  vm_rc : Z;
  vm_errorAction : Z;
  vm_readOnly : bool;
  vm_bIsReader : bool;
  vm_usesStmtJournal : bool;
  vm_iStatement : Z;
  vm_nStmtDefCons : Z;
  vm_nStmtDefImmCons : Z;
  vm_nFkConstraint : Z;
  vm_halted : bool
}.

(** What the rest of the library decides: [db->mallocFailed], [sqlite3VtabInSync],
    the flag [SQLITE_QueryOnly], the codes of [sqlite3VtabSavepoint] and
    [sqlite3BtreeTripAllCursors], the allocation of a savepoint. *)
Record VdbeEnv := mkVdbeEnv {
  ve_mallocFailed : bool;
  ve_VtabInSync : bool;
  ve_queryOnly : bool;
  ve_VtabSavepoint : Z -> Z -> Z;
  ve_TripAllCursors : Z;
  ve_malloc : bool
}.

Definition set_rc (p : VM) (rc : Z) : VM :=
  mkVM rc (vm_errorAction p) (vm_readOnly p) (vm_bIsReader p) (vm_usesStmtJournal p) (vm_iStatement p) (vm_nStmtDefCons p) (vm_nStmtDefImmCons p) (vm_nFkConstraint p) (vm_halted p).
Definition set_error (p : VM) (rc action : Z) : VM :=
  mkVM rc action (vm_readOnly p) (vm_bIsReader p) (vm_usesStmtJournal p) (vm_iStatement p) (vm_nStmtDefCons p) (vm_nStmtDefImmCons p) (vm_nFkConstraint p) (vm_halted p).
Definition set_statement (p : VM) (i cons imm : Z) : VM :=
  mkVM (vm_rc p) (vm_errorAction p) (vm_readOnly p) (vm_bIsReader p) (vm_usesStmtJournal p) i cons imm (vm_nFkConstraint p) (vm_halted p).
Definition set_halted (p : VM) : VM :=
  mkVM (vm_rc p) (vm_errorAction p) (vm_readOnly p) (vm_bIsReader p) (vm_usesStmtJournal p) (vm_iStatement p) (vm_nStmtDefCons p) (vm_nStmtDefImmCons p) (vm_nFkConstraint p) true.

(** How an opcode ends: the next one, [vdbe_return] or [abort_due_to_error]. *)
Inductive after := Next | VdbeReturn (rc : Z) | AbortDueToError (rc : Z).

Section Machine.
Context {S : Type} `{Storage S}.
Notation Conn := (Conn (S := S)).

Definition set_autoCommit (db : Conn) (b : bool) : Conn :=
  mkConn S b (isTransactionSavepoint db) (pSavepoint db) (nSavepoint db) (nStatement db) (nDeferredCons db) (nDeferredImmCons db) (nVdbeActive db) (nVdbeRead db) (nVdbeWrite db) (corruptRdOnly db) (aDb db).
Definition set_savepoints (db : Conn) (t : bool) (l : list Savepoint) (n : Z) : Conn :=
  mkConn S (autoCommit db) t l n (nStatement db) (nDeferredCons db) (nDeferredImmCons db) (nVdbeActive db) (nVdbeRead db) (nVdbeWrite db) (corruptRdOnly db) (aDb db).
Definition set_nStatement (db : Conn) (n : Z) : Conn :=
  mkConn S (autoCommit db) (isTransactionSavepoint db) (pSavepoint db) (nSavepoint db) n (nDeferredCons db) (nDeferredImmCons db) (nVdbeActive db) (nVdbeRead db) (nVdbeWrite db) (corruptRdOnly db) (aDb db).
Definition set_deferred (db : Conn) (cons imm : Z) : Conn :=
  mkConn S (autoCommit db) (isTransactionSavepoint db) (pSavepoint db) (nSavepoint db) (nStatement db) cons imm (nVdbeActive db) (nVdbeRead db) (nVdbeWrite db) (corruptRdOnly db) (aDb db).
Definition set_active (db : Conn) (a r w : Z) : Conn :=
  mkConn S (autoCommit db) (isTransactionSavepoint db) (pSavepoint db) (nSavepoint db) (nStatement db) (nDeferredCons db) (nDeferredImmCons db) a r w (corruptRdOnly db) (aDb db).
Definition set_aDb (db : Conn) (l : list S) : Conn :=
  mkConn S (autoCommit db) (isTransactionSavepoint db) (pSavepoint db) (nSavepoint db) (nStatement db) (nDeferredCons db) (nDeferredImmCons db) (nVdbeActive db) (nVdbeRead db) (nVdbeWrite db) (corruptRdOnly db) l.
Definition set_corruptRdOnly (db : Conn) (b : bool) : Conn :=
  mkConn S (autoCommit db) (isTransactionSavepoint db) (pSavepoint db) (nSavepoint db) (nStatement db) (nDeferredCons db) (nDeferredImmCons db) (nVdbeActive db) (nVdbeRead db) (nVdbeWrite db) b (aDb db).

(** ** Rolling back everything *)

(** The hooks and the schema are not part of the state. *)
Definition sqlite3RollbackAll (db : Conn) : Conn :=
  set_corruptRdOnly (set_deferred (set_aDb db (sqlite3BtreeRollback <$> aDb db)) 0 0) false.

Definition sqlite3CloseSavepoints (db : Conn) : Conn := set_nStatement (set_savepoints db false [] 0) 0.

(** Rolling back with the transaction. *)
Definition rollback_transaction (db : Conn) : Conn := set_autoCommit (sqlite3CloseSavepoints (sqlite3RollbackAll db)) true.

(** ** The end of a statement *)

(** A file is released after it was rolled back. *)
Definition close_file (eOp iSavepoint : Z) (s : S) : S * Z :=
  let '(s, rc2) := if eOp =? SAVEPOINT_ROLLBACK then sqlite3BtreeSavepoint s SAVEPOINT_ROLLBACK iSavepoint else (s, SQLITE_OK) in
  if rc2 =? SQLITE_OK then sqlite3BtreeSavepoint s SAVEPOINT_RELEASE iSavepoint else (s, rc2).

(** The loop over the files; the first error is kept. *)
Fixpoint close_files (eOp iSavepoint rc : Z) (l : list S) : list S * Z :=
  match l with
  | [] => ([], rc)
  | s :: l =>
      let '(s, rc2) := close_file eOp iSavepoint s in
      let '(l, rc) := close_files eOp iSavepoint (if rc =? SQLITE_OK then rc2 else rc) l in
      (s :: l, rc)
  end.

Definition vdbeCloseStatement (e : VdbeEnv) (db : Conn) (p : VM) (eOp : Z) : Conn * VM * Z :=
  let iSavepoint := vm_iStatement p - 1 in
  let '(files, rc) := close_files eOp iSavepoint SQLITE_OK (aDb db) in
  let db := set_nStatement (set_aDb db files) (nStatement db - 1) in
  let cons := vm_nStmtDefCons p in
  let imm := vm_nStmtDefImmCons p in
  let p := set_statement p 0 cons imm in
  let rc := if rc =? SQLITE_OK then (if eOp =? SAVEPOINT_ROLLBACK then ve_VtabSavepoint e SAVEPOINT_ROLLBACK iSavepoint else rc) else rc in
  let rc := if rc =? SQLITE_OK then ve_VtabSavepoint e SAVEPOINT_RELEASE iSavepoint else rc in
  (if eOp =? SAVEPOINT_ROLLBACK then set_deferred db cons imm else db, p, rc).

Definition sqlite3VdbeCloseStatement (e : VdbeEnv) (db : Conn) (p : VM) (eOp : Z) : Conn * VM * Z :=
  if truth (nStatement db) && truth (vm_iStatement p) then vdbeCloseStatement e db p eOp else (db, p, SQLITE_OK).

(** [vdbeFkError] of a statement prepared with its text. *)
Definition vdbeFkError (p : VM) : VM * Z := (set_error p SQLITE_CONSTRAINT_FOREIGNKEY OE_Abort, SQLITE_CONSTRAINT_FOREIGNKEY).
Definition sqlite3VdbeCheckFkImmediate (p : VM) : VM * Z := if vm_nFkConstraint p =? 0 then (p, SQLITE_OK) else vdbeFkError p.
Definition sqlite3VdbeCheckFkDeferred (db : Conn) (p : VM) : VM * Z :=
  if nDeferredCons db + nDeferredImmCons db =? 0 then (p, SQLITE_OK) else vdbeFkError p.

Definition is_special (rc : Z) : bool :=
  let mrc := Z.land rc 0xff in truth rc && ((mrc =? SQLITE_NOMEM) || (mrc =? SQLITE_IOERR) || (mrc =? SQLITE_INTERRUPT) || (mrc =? SQLITE_FULL)).

(** The special errors: the new state and [eStatementOp]. *)
Definition halt_special (db : Conn) (p : VM) : Conn * Z :=
  let mrc := Z.land (vm_rc p) 0xff in
  if is_special (vm_rc p) && (negb (vm_readOnly p) || negb (mrc =? SQLITE_INTERRUPT)) then
    if ((mrc =? SQLITE_NOMEM) || (mrc =? SQLITE_FULL)) && vm_usesStmtJournal p then (db, SAVEPOINT_ROLLBACK)
    else (rollback_transaction db, 0)
  else (db, 0).

Definition succeeded (p : VM) : bool := (vm_rc p =? SQLITE_OK) || ((vm_errorAction p =? OE_Fail) && negb (is_special (vm_rc p))).

(** Committing or rolling back in auto-commit mode, and whether the commit has to be
    repeated.  The branch marked [NEVER], a reader with deferred violations, is that of
    any other statement. *)
Definition halt_commit (e : VdbeEnv) (db : Conn) (p : VM) : Conn * VM * bool :=
  if succeeded p then
    let '(p', rc) := sqlite3VdbeCheckFkDeferred db p in
    let '(db, rc) :=
      if negb (rc =? SQLITE_OK) then (db, SQLITE_CONSTRAINT_FOREIGNKEY)
      else if corruptRdOnly db then (set_corruptRdOnly db false, SQLITE_CORRUPT)
      else let '(files, rc) := vdbeCommit (aDb db) in (set_aDb db files, rc) in
    if (rc =? SQLITE_BUSY) && vm_readOnly p' then (db, p', true)
    else if negb (rc =? SQLITE_OK) then (sqlite3RollbackAll db, set_rc p' rc, false)
    else (set_deferred db 0 0, p', false)
  else if (vm_rc p =? SQLITE_SCHEMA) && (1 <? nVdbeActive db) then (db, p, false)
  else (sqlite3RollbackAll db, p, false).

(** The choice between releasing and rolling back a statement's savepoint. *)
Definition halt_statement (db : Conn) (p : VM) : Conn * Z :=
  if (vm_rc p =? SQLITE_OK) || (vm_errorAction p =? OE_Fail) then (db, SAVEPOINT_RELEASE)
  else if vm_errorAction p =? OE_Abort then (db, SAVEPOINT_ROLLBACK)
  else (rollback_transaction db, 0).

Definition halt_close (e : VdbeEnv) (db : Conn) (p : VM) (eStatementOp : Z) : Conn * VM :=
  if negb (truth eStatementOp) then (db, p)
  else
    let '(db, p, rc) := sqlite3VdbeCloseStatement e db p eStatementOp in
    if truth rc then
      (rollback_transaction db, if (vm_rc p =? SQLITE_OK) || (Z.land (vm_rc p) 0xff =? SQLITE_CONSTRAINT) then set_rc p rc else p)
    else (db, p).

(** The part for statements that read or write a file. *)
Definition halt_reader (e : VdbeEnv) (db : Conn) (p : VM) : Conn * VM * bool :=
  let '(db, eStatementOp) := halt_special db p in
  let p := if succeeded p then (sqlite3VdbeCheckFkImmediate p).1 else p in
  if negb (ve_VtabInSync e) && autoCommit db && (nVdbeWrite db =? (if vm_readOnly p then 0 else 1)) then
    let '(db, p, busy) := halt_commit e db p in
    if busy : bool then (db, p, true) else (halt_close e (set_nStatement db 0) p eStatementOp, false)
  else
    let '(db, eStatementOp) := if eStatementOp =? 0 then halt_statement db p else (db, eStatementOp) in
    (halt_close e db p eStatementOp, false).

(** [sqlite3VdbeHalt]: [SQLITE_BUSY] leaves the machine running. *)
Definition sqlite3VdbeHalt (e : VdbeEnv) (db : Conn) (p : VM) : Conn * VM * Z :=
  let p := if ve_mallocFailed e then set_rc p SQLITE_NOMEM else p in
  let '(db, p, busy) := if vm_bIsReader p then halt_reader e db p else (db, p, false) in
  if busy : bool then (db, p, SQLITE_BUSY)
  else
    let db := set_active db (nVdbeActive db - 1) (if vm_bIsReader p then nVdbeRead db - 1 else nVdbeRead db) (if vm_readOnly p then nVdbeWrite db else nVdbeWrite db - 1) in
    let p := set_halted (if ve_mallocFailed e then set_rc p SQLITE_NOMEM else p) in
    (db, p, if vm_rc p =? SQLITE_BUSY then SQLITE_BUSY else SQLITE_OK).

(** ** Opcodes *)

(** The search for a name: the savepoints inside it, itself, those around it. *)
Fixpoint find_savepoint (zName : list Z) (l : list Savepoint) : option (list Savepoint * Savepoint * list Savepoint) :=
  match l with
  | [] => None
  | s :: l =>
      if sqlite3StrICmp (sp_zName s) zName =? 0 then Some ([], s, l)
      else '(inner, s', outer) ← find_savepoint zName l; Some (s :: inner, s', outer)
  end.

(** The loop over the files stops at the first error. *)
Fixpoint savepoint_files (op iSavepoint : Z) (l : list S) : list S * Z :=
  match l with
  | [] => ([], SQLITE_OK)
  | s :: l =>
      let '(s, rc) := sqlite3BtreeSavepoint s op iSavepoint in
      if negb (rc =? SQLITE_OK) then (s :: l, rc) else let '(l, rc) := savepoint_files op iSavepoint l in (s :: l, rc)
  end.

Definition savepoint_begin (e : VdbeEnv) (zName : list Z) (db : Conn) : Conn * after :=
  if 0 <? nVdbeWrite db then (db, AbortDueToError SQLITE_BUSY)
  else
    let rc := ve_VtabSavepoint e SAVEPOINT_BEGIN (nStatement db + nSavepoint db) in
    if negb (rc =? SQLITE_OK) then (db, AbortDueToError rc)
    else if negb (ve_malloc e) then (db, Next)
    else
      let pNew := mkSavepoint zName (nDeferredCons db) (nDeferredImmCons db) in
      (if autoCommit db then set_savepoints (set_autoCommit db false) true (pNew :: pSavepoint db) (nSavepoint db)
       else set_savepoints db (isTransactionSavepoint db) (pNew :: pSavepoint db) (nSavepoint db + 1), Next).

(** Releasing the transaction savepoint commits. *)
Definition release_transaction (e : VdbeEnv) (db : Conn) (p : VM) : Conn * VM * after :=
  let '(p, rc) := sqlite3VdbeCheckFkDeferred db p in
  if negb (rc =? SQLITE_OK) then (db, p, VdbeReturn rc)
  else
    let '(db, p, rc) := sqlite3VdbeHalt e (set_autoCommit db true) p in
    if rc =? SQLITE_BUSY then (set_autoCommit db false, set_rc p SQLITE_BUSY, VdbeReturn SQLITE_BUSY)
    else if truth (vm_rc p) then (set_autoCommit db false, p, AbortDueToError (vm_rc p))
    else (set_savepoints db false (pSavepoint db) (nSavepoint db), p, Next).

(** Savepoints of the files. *)
Definition savepoint_storage (e : VdbeEnv) (p1 iSavepoint : Z) (db : Conn) : Conn * after :=
  if (p1 =? SAVEPOINT_ROLLBACK) && negb (ve_TripAllCursors e =? SQLITE_OK) then (db, AbortDueToError (ve_TripAllCursors e))
  else
    let '(files, rc) := savepoint_files p1 iSavepoint (aDb db) in
    (set_aDb db files, if rc =? SQLITE_OK then Next else AbortDueToError rc).

Definition savepoint_end (e : VdbeEnv) (p1 : Z) (zName : list Z) (db : Conn) (p : VM) : Conn * VM * after :=
  match find_savepoint zName (pSavepoint db) with
  | None => (db, p, AbortDueToError SQLITE_ERROR)
  | Some (inner, s, outer) =>
      if (0 <? nVdbeWrite db) && (p1 =? SAVEPOINT_RELEASE) then (db, p, AbortDueToError SQLITE_BUSY)
      else
        let isTransaction := bool_decide (outer = []) && isTransactionSavepoint db in
        let iSavepoint := nSavepoint db - Zlen inner - 1 in
        let '(db, p, a) :=
          if isTransaction && (p1 =? SAVEPOINT_RELEASE) then release_transaction e db p
          else let '(db, a) := savepoint_storage e p1 iSavepoint db in (db, p, a) in
        match a with
        | Next =>
            let db := set_savepoints db (isTransactionSavepoint db) (s :: outer) (nSavepoint db - Zlen inner) in
            let db :=
              if p1 =? SAVEPOINT_RELEASE then set_savepoints db (isTransactionSavepoint db) outer (if isTransaction then nSavepoint db else nSavepoint db - 1)
              else set_deferred db (sp_nDeferredCons s) (sp_nDeferredImmCons s) in
            let rc := if negb isTransaction || (p1 =? SAVEPOINT_ROLLBACK) then ve_VtabSavepoint e p1 iSavepoint else SQLITE_OK in
            if negb (rc =? SQLITE_OK) then (db, p, AbortDueToError rc)
            else if vm_halted p then (db, p, VdbeReturn SQLITE_DONE) else (db, p, Next)
        | _ => (db, p, a)
        end
  end.

(** The assertions hold without transaction and savepoint alike. *)
Definition OP_Savepoint (e : VdbeEnv) (p1 : Z) (zName : list Z) (db : Conn) (p : VM) : option (Conn * VM * after) :=
  if negb (bool_decide (pSavepoint db = []) || negb (autoCommit db)) then None
  else if bool_decide (pSavepoint db = []) && isTransactionSavepoint db then None
  else if p1 =? SAVEPOINT_BEGIN then let '(db, a) := savepoint_begin e zName db in Some (db, p, a)
  else Some (savepoint_end e p1 zName db p).

Definition OP_AutoCommit (e : VdbeEnv) (desiredAutoCommit iRollback : bool) (db : Conn) (p : VM) : Conn * VM * after :=
  if negb (eqb desiredAutoCommit (autoCommit db)) then
    let '(db, p, a) :=
      if iRollback then (set_autoCommit (sqlite3RollbackAll db) true, p, Next)
      else if desiredAutoCommit && (0 <? nVdbeWrite db) then (db, p, AbortDueToError SQLITE_BUSY)
      else
        let '(p, rc) := sqlite3VdbeCheckFkDeferred db p in
        if negb (rc =? SQLITE_OK) then (db, p, VdbeReturn rc) else (set_autoCommit db desiredAutoCommit, p, Next) in
    match a with
    | Next =>
        let '(db, p, rc) := sqlite3VdbeHalt e db p in
        if rc =? SQLITE_BUSY then (set_autoCommit db (negb desiredAutoCommit), set_rc p SQLITE_BUSY, VdbeReturn SQLITE_BUSY)
        else (sqlite3CloseSavepoints db, p, VdbeReturn (if vm_rc p =? SQLITE_OK then SQLITE_DONE else SQLITE_ERROR))
    | _ => (db, p, a)
    end
  else (db, p, AbortDueToError SQLITE_ERROR).

(** [OP_Transaction] with a write transaction on file [i], and no change of the
    schema. *)
Definition OP_Transaction (e : VdbeEnv) (i : nat) (db : Conn) (p : VM) : option (Conn * VM * after) :=
  if ve_queryOnly e || corruptRdOnly db then Some (db, p, AbortDueToError (if ve_queryOnly e then SQLITE_READONLY else SQLITE_CORRUPT))
  else
  s ← aDb db !! i;
  let '(s, rc) := sqlite3BtreeBeginTrans s (nSavepoint db) in
  let db := set_aDb db (<[i := s]> (aDb db)) in
  if negb (rc =? SQLITE_OK) then
    if Z.land rc 0xff =? SQLITE_BUSY then Some (db, set_rc p rc, VdbeReturn rc) else Some (db, p, AbortDueToError rc)
  else if vm_usesStmtJournal p && (negb (autoCommit db) || (1 <? nVdbeRead db)) then
    let '(db, iStatement) := if vm_iStatement p =? 0 then (set_nStatement db (nStatement db + 1), nSavepoint db + (nStatement db + 1)) else (db, vm_iStatement p) in
    let rc := ve_VtabSavepoint e SAVEPOINT_BEGIN (iStatement - 1) in
    let '(s, rc) := if rc =? SQLITE_OK then sqlite3BtreeBeginStmt s iStatement else (s, rc) in
    let db := set_aDb db (<[i := s]> (aDb db)) in
    let p := set_statement p iStatement (nDeferredCons db) (nDeferredImmCons db) in
    Some (db, p, if rc =? SQLITE_OK then Next else AbortDueToError rc)
  else Some (db, p, Next).

(** ** Statements *)

(** [sqlite3Step] starts the machine. *)
Definition start (db : Conn) (p : VM) : Conn :=
  set_active db (nVdbeActive db + 1) (if vm_bIsReader p then nVdbeRead db + 1 else nVdbeRead db) (if vm_readOnly p then nVdbeWrite db else nVdbeWrite db + 1).

(** The label [abort_due_to_error]. *)
Definition abort_due_to_error (e : VdbeEnv) (db : Conn) (p : VM) (rc : Z) : Conn * VM :=
  let rc := if ve_mallocFailed e then SQLITE_NOMEM else if rc =? SQLITE_IOERR_CORRUPTFS then SQLITE_CORRUPT else rc in
  let p := set_rc p rc in
  let '(db, p) := if vm_halted p then (db, p) else (sqlite3VdbeHalt e db p).1 in
  (if (rc =? SQLITE_CORRUPT) && negb (autoCommit db) then set_corruptRdOnly db true else db, p).

(** A program ends in [OP_Halt].  A machine that is left running is halted by [sqlite3VdbeReset]; the code of the
    statement is its [rc]. *)
Definition sqlite3VdbeReset (e : VdbeEnv) (db : Conn) (p : VM) : Conn * Z :=
  if vm_halted p then (db, vm_rc p) else let '(db, p, _) := sqlite3VdbeHalt e db p in (db, vm_rc p).

Definition finish (e : VdbeEnv) (r : Conn * VM * after) : Conn * Z :=
  let '(db, p, a) := r in
  match a with
  | Next => if vm_halted p then (db, vm_rc p) else let '(db, p, rc) := sqlite3VdbeHalt e db p in sqlite3VdbeReset e db (if rc =? SQLITE_BUSY then set_rc p SQLITE_BUSY else p)
  | VdbeReturn _ => sqlite3VdbeReset e db p
  | AbortDueToError rc => let '(db, p) := abort_due_to_error e db p rc in sqlite3VdbeReset e db p
  end.

(** The machine of a transaction statement: a reader that writes nothing itself. *)
Definition control_vm : VM := mkVM SQLITE_OK OE_Abort true true false 0 0 0 0 false.

Definition sql_savepoint (e : VdbeEnv) (p1 : Z) (zName : list Z) (db : Conn) : option (Conn * Z) :=
  r ← OP_Savepoint e p1 zName (start db control_vm) control_vm; Some (finish e r).

Definition sql_autocommit (e : VdbeEnv) (desired rollback : bool) (db : Conn) : Conn * Z :=
  finish e (OP_AutoCommit e desired rollback (start db control_vm) control_vm).

(** The way a program ends: [OP_Halt] with a code and an action, or an opcode that
    fails. *)
Inductive ending := Halts (rc action : Z) | Fails (rc : Z).

(** A statement that changes a file: whether it uses a statement journal, the file and
    the change, what it adds to the counters of deferred and immediate foreign key
    violations, and how it ends. *)
Record WriteStmt := mkWriteStmt {
  wr_usesStmtJournal : bool;
  wr_file : nat;
  wr_change : S -> S;
  wr_cons : Z;
  wr_immcons : Z;
  wr_fk : Z;
  wr_ending : ending
}.

Definition body (w : WriteStmt) (db : Conn) : Conn :=
  set_deferred (set_aDb db (alter (wr_change w) (wr_file w) (aDb db))) (nDeferredCons db + wr_cons w) (nDeferredImmCons db + wr_immcons w).

Definition write_vm (w : WriteStmt) : VM := mkVM SQLITE_OK OE_Abort false true (wr_usesStmtJournal w) 0 0 0 (wr_fk w) false.

Definition sql_write (e : VdbeEnv) (w : WriteStmt) (db : Conn) : option (Conn * Z) :=
  let p := write_vm w in
  '(db, p, a) ← OP_Transaction e (wr_file w) (start db p) p;
  match a with
  | Next =>
      match wr_ending w with
      | Halts rc action => Some (finish e (body w db, set_error p rc action, Next))
      | Fails rc => Some (finish e (body w db, p, AbortDueToError rc))
      end
  | _ => Some (finish e (db, p, a))
  end.

(** [BEGIN IMMEDIATE] and [BEGIN EXCLUSIVE] of a connection whose files may be written:
    a write transaction on each file, then [OP_AutoCommit]. *)
Fixpoint begin_files (e : VdbeEnv) (files : list nat) (db : Conn) (p : VM) : option (Conn * VM * after) :=
  match files with
  | [] => Some (db, p, Next)
  | i :: files =>
      '(db, p, a) ← OP_Transaction e i db p;
      match a with Next => begin_files e files db p | _ => Some (db, p, a) end
  end.

Definition begin_vm : VM := mkVM SQLITE_OK OE_Abort false true false 0 0 0 0 false.

Definition sql_begin_now (e : VdbeEnv) (db : Conn) : option (Conn * Z) :=
  '(db, p, a) ← begin_files e (seq 0 (length (aDb db))) (start db begin_vm) begin_vm;
  Some (finish e (match a with Next => OP_AutoCommit e false false db p | _ => (db, p, a) end)).

End Machine.
