(* ===== verification/SavepointCorrect.v ===== *)
(** * Transactions and savepoints: correctness

    What the B-tree layer promises, transactions and savepoints as stacks of saved
    contents, and that the virtual machine implements them. *)
From stdpp Require Import strings.
From S2P Require Import Prelude Value Codes Record Strings Savepoint.

Local Open Scope Z_scope.

(** Evaluates the machine on a connection whose fields are known. *)
Ltac vm := repeat first
  [ progress cbn -[is_special Z.sub Z.add Z.land Zlen rollback_transaction sqlite3RollbackAll]
  | match goal with E : ?x = true |- context [?x] => rewrite E | E : ?x = false |- context [?x] => rewrite E end ].

(** Reads the fields of an updated connection or machine. *)
Ltac fields := cbn [autoCommit isTransactionSavepoint pSavepoint nSavepoint nStatement nDeferredCons nDeferredImmCons nVdbeActive nVdbeRead nVdbeWrite
  corruptRdOnly aDb set_autoCommit set_savepoints set_nStatement set_deferred set_active set_aDb set_corruptRdOnly start
  vm_rc vm_errorAction vm_readOnly vm_bIsReader vm_usesStmtJournal vm_iStatement vm_nStmtDefCons vm_nStmtDefImmCons vm_nFkConstraint vm_halted
  set_rc set_error set_statement set_halted control_vm].

(** ** What a file promises

    A file has contents and, inside a write transaction, the contents it had at the
    start and those saved for its open savepoints, outermost first. *)
Definition txn (C : Type) : Type := option (C * list C).

Section Views.
Context {C : Type}.

Definition origin (c : C) (t : txn C) : C := match t with None => c | Some (c0, _) => c0 end.
Definition saved (t : txn C) : list C := match t with None => [] | Some (_, l) => l end.

(** Savepoints are opened up to a number of [n], with the present contents. *)
Definition opened (n : Z) (c : C) (t : txn C) : txn C := Some (origin c t, saved t ++ replicate (Z.to_nat n - length (saved t)) c).

(** Going back to savepoint [i], or to the start for [-1]; a savepoint that is not
    open has seen no change. *)
Definition back (i : Z) (c : C) (t : txn C) : C := if i <? 0 then origin c t else default c (saved t !! Z.to_nat i).

Definition keep (n : Z) (t : txn C) : txn C := (fun x => (x.1, take (Z.to_nat n) x.2)) <$> t.

End Views.

Class StorageLaws (S C : Type) `{Storage S} := {
  holds : S -> C -> txn C -> Prop;
  law_begin s c t n : 0 <= n -> holds s c t ->
    let '(s', rc) := sqlite3BtreeBeginTrans s n in
    holds s' c (if rc =? SQLITE_OK then opened n c t else t) /\ rc <> SQLITE_SCHEMA;
  law_stmt s c t n : 0 <= n -> is_Some t -> holds s c t -> exists s', sqlite3BtreeBeginStmt s n = (s', SQLITE_OK) /\ holds s' c (opened n c t);
  law_release s c t i : 0 <= i -> holds s c t -> exists s', sqlite3BtreeSavepoint s SAVEPOINT_RELEASE i = (s', SQLITE_OK) /\ holds s' c (keep i t);
  law_back s c t i : -1 <= i -> holds s c t ->
    exists s', sqlite3BtreeSavepoint s SAVEPOINT_ROLLBACK i = (s', SQLITE_OK) /\ holds s' (back i c t) (keep (i + 1) t);
  law_rollback s c t : holds s c t -> holds (sqlite3BtreeRollback s) (origin c t) None;
  law_commit ss (cs : list C) ts : Forall3 holds ss cs ts ->
    let '(ss', rc) := vdbeCommit ss in
    if rc =? SQLITE_OK then Forall2 (fun s c => holds s c None) ss' cs
    else Forall3 holds ss' cs ts /\ Exists is_Some ts
}.

(** ** Transactions as the documentation describes them *)

(** [t_outer] is the savepoint that opened the transaction, if one did; the savepoints
    inside the transaction are those of [t_saves], innermost first. *)
Record Txn {C : Type} := mkTxn {
  t_start : list C;
  t_outer : option Savepoint;
  t_saves : list (Savepoint * list C)
}.

Record Tx {C : Type} := mkTx {
  x_now : list C;
  x_cons : Z * Z;
  x_txn : option (Txn (C := C))
}.

(** The statements; [g] is what a write does to the contents of its file. *)
Inductive stmt {S C : Type} :=
  | Begin
  | BeginNow
  | Commit
  | Rollback
  | SetSavepoint (zName : list Z)
  | Release (zName : list Z)
  | RollbackTo (zName : list Z)
  | Write (w : WriteStmt (S := S)) (g : C -> C).

Section Spec.
Context {S C : Type}.
Notation Tx := (Tx (C := C)).
Notation Txn := (Txn (C := C)).
Notation WriteStmt := (WriteStmt (S := S)).

Definition spec_savepoint (zName : list Z) (a : Tx) : Tx :=
  let s := mkSavepoint zName (x_cons a).1 (x_cons a).2 in
  match x_txn a with
  | None => mkTx C (x_now a) (x_cons a) (Some (mkTxn C (x_now a) (Some s) []))
  | Some T => mkTx C (x_now a) (x_cons a) (Some (mkTxn C (t_start T) (t_outer T) ((s, x_now a) :: t_saves T)))
  end.

(** The innermost savepoint of a name and those around it. *)
Fixpoint find_save (zName : list Z) (l : list (Savepoint * list C)) : option (Savepoint * list C * list (Savepoint * list C)) :=
  match l with
  | [] => None
  | (s, c) :: l => if sqlite3StrICmp (sp_zName s) zName =? 0 then Some (s, c, l) else find_save zName l
  end.

Definition names_outer (zName : list Z) (T : Txn) : option Savepoint :=
  match t_outer T with Some s => if sqlite3StrICmp (sp_zName s) zName =? 0 then Some s else None | None => None end.

Definition spec_rollback (T : Txn) : Tx := mkTx C (t_start T) (0, 0) None.

(** The code a write ends with: an immediate violation makes it fail. *)
Definition end_rc (w : WriteStmt) : Z :=
  match wr_ending w with Halts rc _ => rc | Fails rc => if rc =? SQLITE_IOERR_CORRUPTFS then SQLITE_CORRUPT else rc end.
Definition end_action (w : WriteStmt) : Z := match wr_ending w with Halts _ action => action | Fails _ => OE_Abort end.
Definition write_fails (w : WriteStmt) : bool :=
  ((end_rc w =? SQLITE_OK) || ((end_action w =? OE_Fail) && negb (is_special (end_rc w)))) && negb (wr_fk w =? 0).
Definition write_rc (w : WriteStmt) : Z := if write_fails w then SQLITE_CONSTRAINT_FOREIGNKEY else end_rc w.
Definition write_action (w : WriteStmt) : Z := if write_fails w then OE_Abort else end_action w.

(** What that does to its changes.  After one of the special errors the cache may be
    inconsistent, so at least the statement has to be undone. *)
Inductive effect := Kept | Undone | AllUndone.

Definition special_effect (journal : bool) (rc : Z) : effect :=
  if ((Z.land rc 0xff =? SQLITE_NOMEM) || (Z.land rc 0xff =? SQLITE_FULL)) && journal then Undone else AllUndone.

Definition write_effect (w : WriteStmt) : effect :=
  let rc := write_rc w in
  if rc =? SQLITE_OK then Kept
  else if is_special rc then special_effect (wr_usesStmtJournal w) rc
  else if write_action w =? OE_Fail then Kept else if write_action w =? OE_Abort then Undone else AllUndone.

(** A statement that cannot begin to write. *)
Definition spec_refused (journal : bool) (rc : Z) (a : Tx) : Tx :=
  match x_txn a with
  | Some T => if is_special rc then match special_effect journal rc with AllUndone => spec_rollback T | _ => a end else a
  | None => a
  end.

(** Inside a transaction. *)
Definition spec_write (w : WriteStmt) (g : C -> C) (a : Tx) (T : Txn) : Tx :=
  match write_effect w with
  | Kept => mkTx C (alter g (wr_file w) (x_now a)) ((x_cons a).1 + wr_cons w, (x_cons a).2 + wr_immcons w) (Some T)
  | Undone => a
  | AllUndone => spec_rollback T
  end.

(** A commit succeeds, has to be repeated, is refused, or fails; then [failed] tells
    what is left. *)
Inductive commits (a failed : Tx) : Tx -> Z -> Prop :=
  | commit_ok : (x_cons a).1 + (x_cons a).2 = 0 -> commits a failed (mkTx C (x_now a) (0, 0) None) SQLITE_OK
  | commit_busy : commits a failed a SQLITE_BUSY
  | commit_violation : (x_cons a).1 + (x_cons a).2 <> 0 -> commits a failed a SQLITE_CONSTRAINT_FOREIGNKEY
  | commit_failed rc : rc <> SQLITE_OK -> rc <> SQLITE_BUSY -> commits a failed failed rc.

(** A failed commit of a savepoint leaves the transaction open, rolled back. *)
Definition spec_emptied (T : Txn) : Tx :=
  mkTx C (t_start T) (0, 0) (Some (mkTxn C (t_start T) (t_outer T) ((fun sv => (sv.1, t_start T)) <$> t_saves T))).

Inductive spec_step : stmt (S := S) (C := C) -> Tx -> Tx -> Z -> Prop :=
  | sp_begin a : x_txn a = None -> spec_step Begin a (mkTx C (x_now a) (x_cons a) (Some (mkTxn C (x_now a) None []))) SQLITE_OK
  | sp_begin_twice a T : x_txn a = Some T -> spec_step Begin a a SQLITE_ERROR
  | sp_begin_now a : x_txn a = None -> spec_step BeginNow a (mkTx C (x_now a) (x_cons a) (Some (mkTxn C (x_now a) None []))) SQLITE_OK
  | sp_begin_now_twice a T : x_txn a = Some T -> spec_step BeginNow a a SQLITE_ERROR
  | sp_begin_refused a rc : rc <> SQLITE_OK -> spec_step BeginNow a (spec_refused false rc a) rc
  | sp_commit a T a' rc : x_txn a = Some T -> commits a (spec_rollback T) a' rc -> spec_step Commit a a' rc
  | sp_commit_none a : x_txn a = None -> spec_step Commit a a SQLITE_ERROR
  | sp_rollback a T : x_txn a = Some T -> spec_step Rollback a (spec_rollback T) SQLITE_OK
  | sp_rollback_none a : x_txn a = None -> spec_step Rollback a a SQLITE_ERROR
  | sp_savepoint a zName : spec_step (SetSavepoint zName) a (spec_savepoint zName a) SQLITE_OK
  | sp_release a T zName s c outer : x_txn a = Some T -> find_save zName (t_saves T) = Some (s, c, outer) ->
      spec_step (Release zName) a (mkTx C (x_now a) (x_cons a) (Some (mkTxn C (t_start T) (t_outer T) outer))) SQLITE_OK
  | sp_release_outer a T zName s a' rc : x_txn a = Some T -> find_save zName (t_saves T) = None -> names_outer zName T = Some s ->
      commits a (spec_emptied T) a' rc -> spec_step (Release zName) a a' rc
  | sp_release_none a zName : match x_txn a with None => True | Some T => find_save zName (t_saves T) = None /\ names_outer zName T = None end ->
      spec_step (Release zName) a a SQLITE_ERROR
  | sp_back a T zName s c outer : x_txn a = Some T -> find_save zName (t_saves T) = Some (s, c, outer) ->
      spec_step (RollbackTo zName) a
        (mkTx C c (sp_nDeferredCons s, sp_nDeferredImmCons s) (Some (mkTxn C (t_start T) (t_outer T) ((s, c) :: outer)))) SQLITE_OK
  | sp_back_outer a T zName s : x_txn a = Some T -> find_save zName (t_saves T) = None -> names_outer zName T = Some s ->
      spec_step (RollbackTo zName) a
        (mkTx C (t_start T) (sp_nDeferredCons s, sp_nDeferredImmCons s) (Some (mkTxn C (t_start T) (t_outer T) []))) SQLITE_OK
  | sp_back_none a zName : match x_txn a with None => True | Some T => find_save zName (t_saves T) = None /\ names_outer zName T = None end ->
      spec_step (RollbackTo zName) a a SQLITE_ERROR
  | sp_write_refused w g a rc : rc <> SQLITE_OK -> spec_step (Write w g) a (spec_refused (wr_usesStmtJournal w) rc a) rc
  | sp_write a T w g : x_txn a = Some T -> spec_step (Write w g) a (spec_write w g a T) (write_rc w)
  | sp_write_commits a w g : x_txn a = None -> write_effect w = Kept -> wr_cons w + wr_immcons w = 0 ->
      spec_step (Write w g) a (mkTx C (alter g (wr_file w) (x_now a)) (0, 0) None) (write_rc w)
  | sp_write_fails a w g rc : x_txn a = None -> rc <> SQLITE_OK -> spec_step (Write w g) a a rc.

End Spec.

(** ** The relation *)

Section Refinement.
Context {S C : Type} `{StorageLaws S C}.
Notation Conn := (Conn (S := S)).
Notation Tx := (Tx (C := C)).
Notation Txn := (Txn (C := C)).
Notation stmt := (stmt (S := S) (C := C)).

(** The contents of file [j] saved for the savepoints of a transaction, outermost first. *)
Definition column (j : nat) (saves : list (Savepoint * list C)) : list (option C) := (fun sv => sv.2 !! j) <$> reverse saves.

(** The innermost savepoints may not be open in the file yet: then it has not changed
    since. *)
Definition file_ok (T : option Txn) (j : nat) (c : C) (t : txn C) : Prop :=
  match T with
  | None => t = None
  | Some T => t_start T !! j = Some (origin c t) /\ exists n, column j (t_saves T) = Some <$> (saved t ++ replicate n c)
  end.

Definition agrees (T : option Txn) (now : list C) (ss : list S) : Prop :=
  length ss = length now /\ forall j s c, ss !! j = Some s -> now !! j = Some c -> exists t, holds s c t /\ file_ok T j c t.

Definition txn_ok (db : Conn) (a : Tx) : Prop :=
  match x_txn a with
  | None =>
      autoCommit db = true /\ x_cons a = (0, 0) /\ isTransactionSavepoint db = false /\ pSavepoint db = [] /\ nSavepoint db = 0 /\ corruptRdOnly db = false
  | Some T =>
      autoCommit db = false /\ isTransactionSavepoint db = bool_decide (is_Some (t_outer T)) /\
      pSavepoint db = (t_saves T).*1 ++ option_list (t_outer T) /\ nSavepoint db = Zlen (t_saves T) /\
      Forall (fun c => length c = length (x_now a)) (t_start T :: (t_saves T).*2)
  end.

Record refines (db : Conn) (a : Tx) : Prop := {
  rf_write : nVdbeWrite db = 0;
  rf_read : 0 <= nVdbeRead db;
  rf_statement : nStatement db = 0;
  rf_cons : x_cons a = (nDeferredCons db, nDeferredImmCons db);
  rf_txn : txn_ok db a;
  rf_files : agrees (x_txn a) (x_now a) (aDb db)
}.

(** ** The files *)

Lemma column_cons j s c saves : column j ((s, c) :: saves) = column j saves ++ [c !! j].
Proof. unfold column. by rewrite reverse_cons, fmap_app. Qed.

Lemma column_length j saves : length (column j saves) = length saves.
Proof. unfold column. by rewrite length_fmap, length_reverse. Qed.

Lemma column_take j inner outer : column j outer = take (length outer) (column j (inner ++ outer)).
Proof.
  unfold column. rewrite reverse_app, fmap_app, take_app_le by (by rewrite length_fmap, length_reverse).
  by rewrite take_ge by (by rewrite length_fmap, length_reverse).
Qed.

Lemma take_saved {A} k n (l : list A) c : take k (l ++ replicate n c) = take k l ++ replicate (Nat.min (k - length l) n) c.
Proof. by rewrite take_app, take_replicate. Qed.

Lemma agrees_lookup T now ss j s : agrees T now ss -> ss !! j = Some s -> exists c t, now !! j = Some c /\ holds s c t /\ file_ok T j c t.
Proof.
  intros [Hl Ha] Hs. assert (is_Some (now !! j)) as [c Hc] by (apply lookup_lt_is_Some; rewrite <- Hl; by eapply lookup_lt_Some).
  destruct (Ha j s c Hs Hc) as (t & ?). eauto.
Qed.

(** An operation on every file. *)
Lemma agrees_map T T' now now' f ss :
  agrees T now ss -> length now' = length now ->
  (forall j s c c' t, now !! j = Some c -> now' !! j = Some c' -> holds s c t -> file_ok T j c t -> exists t', holds (f s) c' t' /\ file_ok T' j c' t') ->
  agrees T' now' (f <$> ss).
Proof.
  intros Ha Hl' Hf. split; [by rewrite length_fmap, Hl', (proj1 Ha)|]. intros j s c' Hs Hc'.
  apply list_lookup_fmap_Some in Hs as (s0 & -> & Hs). destruct (agrees_lookup _ _ _ _ _ Ha Hs) as (c & t & Hc & Ht & Hok). eauto.
Qed.

Lemma agrees_same T T' now ss :
  agrees T now ss -> (forall j c t, now !! j = Some c -> file_ok T j c t -> file_ok T' j c t) -> agrees T' now ss.
Proof. intros Ha Hf. rewrite <- (list_fmap_id ss). eapply agrees_map; [done|done|]. intros. simplify_eq. eauto. Qed.

Lemma agrees_open o now ss : agrees None now ss -> agrees (Some (mkTxn C now o [])) now ss.
Proof. intros Ha. apply (agrees_same _ _ _ _ Ha). cbn. intros j c t Hc ->. split; [done|]. by exists 0%nat. Qed.

Lemma agrees_save v T now ss : agrees (Some T) now ss -> agrees (Some (mkTxn C (t_start T) (t_outer T) ((v, now) :: t_saves T))) now ss.
Proof.
  intros Ha. apply (agrees_same _ _ _ _ Ha). intros j c t Hc [Hst [n Hn]]. cbn [file_ok t_saves t_start]. split; [done|]. exists (n + 1)%nat.
  rewrite column_cons, Hn, Hc, replicate_add. by rewrite !fmap_app, assoc_L by apply _.
Qed.

Definition release_file (i : Z) (s : S) : S := (sqlite3BtreeSavepoint s SAVEPOINT_RELEASE i).1.
Definition rollback_file (i : Z) (s : S) : S := (sqlite3BtreeSavepoint s SAVEPOINT_ROLLBACK i).1.

(** The savepoints inside [outer] are dropped. *)
Lemma agrees_release T inner outer now ss :
  t_saves T = inner ++ outer -> agrees (Some T) now ss ->
  agrees (Some (mkTxn C (t_start T) (t_outer T) outer)) now (release_file (Zlen outer) <$> ss).
Proof.
  intros HT Ha. eapply agrees_map; [done|done|]. intros j s c ? t Hc Hc' Ht [Hst [n Hn]]. simplify_eq. unfold release_file.
  destruct (law_release s c t (Zlen outer)) as (s' & -> & Hs'); [unfold Zlen; lia|done|].
  exists (keep (Zlen outer) t); split; [done|]. split; [by destruct t|].
  rewrite HT in Hn. cbn [t_saves]. rewrite (column_take j inner outer), Hn, <- fmap_take, take_saved.
  eexists. f_equal. f_equal. destruct t as [[? l]|]; cbn; [|by rewrite take_nil]. unfold Zlen. by rewrite Nat2Z.id.
Qed.

(** Going back to the innermost savepoint of [outer]. *)
Lemma agrees_back T inner v c0 outer now ss :
  t_saves T = inner ++ (v, c0) :: outer -> length c0 = length now -> agrees (Some T) now ss ->
  agrees (Some (mkTxn C (t_start T) (t_outer T) ((v, c0) :: outer))) c0 (rollback_file (Zlen outer) <$> ss).
Proof.
  intros HT Hl Ha. eapply agrees_map; [done|done|]. intros j s c c' t Hc Hc' Ht [Hst [n Hn]]. unfold rollback_file.
  destruct (law_back s c t (Zlen outer)) as (s' & -> & Hs'); [unfold Zlen; lia|done|].
  rewrite HT in Hn. pose proof (column_take j inner ((v, c0) :: outer)) as Hk. rewrite Hn, <- fmap_take, take_saved in Hk.
  assert ((saved t ++ replicate n c) !! length outer = Some c') as Hi.
  { apply (f_equal (fun l => l !! length outer)) in Hk as Hk'. rewrite column_cons, lookup_app_r in Hk' by (rewrite column_length; lia).
    rewrite column_length, Nat.sub_diag, Hc', <- take_saved, list_lookup_fmap, lookup_take_lt in Hk' by (cbn; lia).
    cbn in Hk'. by destruct ((saved t ++ replicate n c) !! length outer); simplify_eq/=. }
  assert (back (Zlen outer) c t = c') as Hb.
  { unfold back, Zlen. rewrite (proj2 (Z.ltb_ge _ _)), Nat2Z.id by lia. apply lookup_app_Some in Hi as [Hi|[Hlt Hi]]; [by rewrite Hi|].
    apply lookup_replicate in Hi as [-> _]. by rewrite lookup_ge_None_2 by done. }
  rewrite Hb in Hs'. eexists; split; [exact Hs'|]. split.
  { destruct t as [[? l]|]; [done|]. cbn in *. apply lookup_replicate in Hi as [-> _]. done. }
  cbn [t_saves]. exists (Nat.min (Datatypes.S (length outer) - length (saved t)) n). rewrite Hk. f_equal. f_equal.
  - replace (Zlen outer + 1) with (Z.of_nat (Datatypes.S (length outer))) by (unfold Zlen; lia).
    destruct t as [[? l]|]; cbn [saved keep fmap option_fmap option_map fst snd]; [|by rewrite take_nil]. by rewrite Nat2Z.id.
  - apply lookup_app_Some in Hi as [Hi|[Hlt Hi]]; [|by apply lookup_replicate in Hi as [-> _]].
    apply lookup_lt_Some in Hi. cbn [length]. by replace (Datatypes.S (length outer) - length (saved t))%nat with 0%nat by lia.
Qed.

(** Going back to the start, with the transaction open. *)
Lemma agrees_back_all T now ss :
  length (t_start T) = length now -> agrees (Some T) now ss ->
  agrees (Some (mkTxn C (t_start T) (t_outer T) [])) (t_start T) (rollback_file (-1) <$> ss).
Proof.
  intros Hl Ha. eapply agrees_map; [done|done|]. intros j s c c' t Hc Hc' Ht [Hst _]. unfold rollback_file. simplify_eq.
  destruct (law_back s c t (-1)) as (s' & -> & Hs'); [lia|done|]. eexists; split; [exact Hs'|]. split; [by destruct t as [[]|]|].
  exists 0%nat. by destruct t as [[? l]|].
Qed.

Lemma agrees_rollback T now ss : length (t_start T) = length now -> agrees (Some T) now ss -> agrees None (t_start T) (sqlite3BtreeRollback <$> ss).
Proof.
  intros Hl Ha. eapply agrees_map; [done|done|]. intros j s c c' t Hc Hc' Ht [Hst _]. simplify_eq. eexists. split; [by apply law_rollback|done].
Qed.

Lemma agrees_rollback_none now ss : agrees None now ss -> agrees None now (sqlite3BtreeRollback <$> ss).
Proof.
  intros Ha. eapply agrees_map; [done|done|]. intros j s c c' t Hc Hc' Ht ->. simplify_eq.
  eexists. split; [by eapply (law_rollback s _ None)|done].
Qed.

Lemma agrees_emptied T ss : agrees None (t_start T) ss -> agrees (x_txn (spec_emptied T)) (t_start T) ss.
Proof.
  intros Ha. apply (agrees_same _ _ _ _ Ha). intros j c t Hc ->. split; [done|]. exists (length (t_saves T)).
  cbn [t_saves saved app]. unfold column. rewrite <- fmap_reverse, <- list_fmap_compose. cbn.
  rewrite fmap_replicate, <- (length_reverse (t_saves T)). generalize (reverse (t_saves T)). clear -Hc.
  intros l. induction l as [|x l IH]; [done|]. cbn. by rewrite IH, Hc.
Qed.

Lemma choose_views (P : nat -> C -> txn C -> Prop) ss now :
  length ss = length now -> (forall j s c, ss !! j = Some s -> now !! j = Some c -> exists t, holds s c t /\ P j c t) ->
  exists ts, Forall3 holds ss now ts /\ forall j c t, now !! j = Some c -> ts !! j = Some t -> P j c t.
Proof.
  revert P now. induction ss as [|s ss IH]; intros P [|c now] Hl Ha; try done; [by exists []; split; [constructor|]|].
  destruct (Ha 0%nat s c eq_refl eq_refl) as (t & Ht & HP).
  destruct (IH (fun j => P (Datatypes.S j)) now ltac:(cbn in Hl; lia) (fun j => Ha (Datatypes.S j))) as (ts & Hts & HPs).
  exists (t :: ts). split; [by constructor|]. intros [|j]; cbn; [intros; by simplify_eq|eauto].
Qed.

Lemma agrees_commit T now ss ss' rc : agrees T now ss -> vdbeCommit ss = (ss', rc) ->
  (rc = SQLITE_OK -> agrees None now ss') /\ (rc <> SQLITE_OK -> agrees T now ss' /\ is_Some T).
Proof.
  intros Ha Hc. destruct (choose_views (file_ok T) ss now (proj1 Ha) (proj2 Ha)) as (ts & H3 & Hok). pose proof (law_commit ss now ts H3) as Hlaw. rewrite Hc in Hlaw.
  split; intros Hrc.
  - rewrite Hrc in Hlaw. cbn in Hlaw. split; [by apply Forall2_length in Hlaw|]. intros j s c Hs Hn. exists None. split; [|done].
    by eapply (Forall2_lookup_lr _ _ _ _ _ _ Hlaw).
  - rewrite (proj2 (Z.eqb_neq _ _) Hrc) in Hlaw. destruct Hlaw as [H3' Hex]. split; [split|].
    + by apply Forall3_length_lm in H3'.
    + intros j s c Hs Hn. destruct (Forall3_lookup_l _ _ _ _ _ _ H3' Hs) as (c' & t & Hn' & Ht & Hh). simplify_eq. eauto.
    + apply Exists_exists in Hex as (t & [j Hj]%list_elem_of_lookup & Ht).
      destruct (Forall3_lookup_r _ _ _ _ _ _ H3' Hj) as (s & c & Hs & Hn & _). specialize (Hok j c t Hn Hj). destruct T; [eauto|]. cbn in Hok. subst t. by destruct Ht.
Qed.

(** An operation on one file. *)
Lemma agrees_insert T now ss i s c t : agrees T now ss -> holds s c t -> file_ok T i c t -> agrees T (<[i := c]> now) (<[i := s]> ss).
Proof.
  intros [Hl Ha] Hs Hok. split; [by rewrite !length_insert|]. intros j s' c' Hs' Hc'.
  apply list_lookup_insert_Some in Hs' as [(-> & -> & Hi)|[Hij Hs']].
  - rewrite list_lookup_insert_eq in Hc' by lia. simplify_eq. eauto.
  - rewrite list_lookup_insert_ne in Hc' by done. eauto.
Qed.

(** File [i] has all savepoints of the transaction open. *)
Definition open_at (T : Txn) (i : nat) (now : list C) (s : S) : Prop :=
  exists c t, now !! i = Some c /\ holds s c t /\ is_Some t /\ t_start T !! i = Some (origin c t) /\ column i (t_saves T) = Some <$> saved t.

Lemma agrees_begin T i now ss s s' rc :
  agrees (Some T) now ss -> ss !! i = Some s -> sqlite3BtreeBeginTrans s (Zlen (t_saves T)) = (s', rc) ->
  agrees (Some T) now (<[i := s']> ss) /\ (rc = SQLITE_OK -> open_at T i now s') /\ rc <> SQLITE_SCHEMA.
Proof.
  intros Ha Hs Hb. destruct (agrees_lookup _ _ _ _ _ Ha Hs) as (c & t & Hc & Ht & Hst & n & Hn).
  pose proof (law_begin s c t (Zlen (t_saves T)) ltac:(unfold Zlen; lia) Ht) as Hlaw. rewrite Hb in Hlaw. destruct Hlaw as [Hlaw Hsc].
  rewrite <- (list_insert_id now i c) at 1 by done. destruct (Z.eqb_spec rc SQLITE_OK).
  - assert (column i (t_saves T) = Some <$> saved (opened (Zlen (t_saves T)) c t)) as Hcol.
    { cbn. rewrite Hn. f_equal. f_equal. f_equal. apply (f_equal length) in Hn.
      rewrite column_length, length_fmap, length_app, length_replicate in Hn. unfold Zlen. lia. }
    split; [|split; [by exists c, (opened (Zlen (t_saves T)) c t)|done]]. eapply agrees_insert; [done|exact Hlaw|]. split; [done|].
    exists 0%nat. by rewrite app_nil_r.
  - split; [|done]. eapply agrees_insert; [done|exact Hlaw|]. split; [done|]. by exists n.
Qed.

(** The savepoint of a statement is one more savepoint. *)
Lemma agrees_stmt v T i now ss s :
  agrees (Some T) now ss -> open_at T i now s ->
  exists s', sqlite3BtreeBeginStmt s (Zlen (t_saves T) + 1) = (s', SQLITE_OK) /\
    let T' := mkTxn C (t_start T) (t_outer T) ((v, now) :: t_saves T) in
    agrees (Some T') now (<[i := s']> ss) /\ open_at T' i now s'.
Proof.
  intros Ha (c & t & Hc & Ht & Hop & Hst & Hcol).
  destruct (law_stmt s c t (Zlen (t_saves T) + 1)) as (s' & Hb & Hs'); [unfold Zlen; lia|done..|]. exists s'. split; [done|].
  assert (column i ((v, now) :: t_saves T) = Some <$> saved (opened (Zlen (t_saves T) + 1) c t)) as Hcol'.
  { rewrite column_cons, Hc, Hcol. cbn [opened saved]. rewrite fmap_app. f_equal. apply (f_equal length) in Hcol.
    rewrite column_length, length_fmap in Hcol. replace (Z.to_nat _ - _)%nat with 1%nat by (unfold Zlen; lia). done. }
  split.
  - rewrite <- (list_insert_id now i c) at 2 by done. eapply agrees_insert; [by apply agrees_save|exact Hs'|]. split; [done|].
    exists 0%nat. by rewrite app_nil_r.
  - by exists c, (opened (Zlen (t_saves T) + 1) c t).
Qed.

Lemma alter_as_insert {A} (f : A -> A) (i : nat) (l : list A) x : l !! i = Some x -> alter f i l = <[i := f x]> l.
Proof. revert i. induction l as [|y l IH]; intros [|i] Hi; simplify_eq/=; f_equal; eauto. Qed.

Lemma agrees_change T i f g now ss s :
  agrees (Some T) now ss -> ss !! i = Some s -> open_at T i now s ->
  (forall s c t, is_Some t -> holds s c t -> holds (f s) (g c) t) -> agrees (Some T) (alter g i now) (alter f i ss).
Proof.
  intros Ha Hs (c & t & Hc & Ht & Hop & Hst & Hcol) Hf.
  rewrite (alter_as_insert g i now c Hc), (alter_as_insert f i ss s Hs).
  eapply agrees_insert; [done|by apply Hf|]. split; [by destruct t|]. exists 0%nat. by rewrite app_nil_r.
Qed.

(** ** The virtual machine *)

(** Memory is available, virtual tables do not fail and cursors are saved. *)
Record env_ok (e : VdbeEnv) : Prop := {
  eo_malloc : ve_mallocFailed e = false;
  eo_sync : ve_VtabInSync e = false;
  eo_vtab : forall op i, ve_VtabSavepoint e op i = SQLITE_OK;
  eo_trip : ve_TripAllCursors e = SQLITE_OK;
  eo_new : ve_malloc e = true
}.

Definition run (e : VdbeEnv) (st : stmt) (db : Conn) : option (Conn * Z) :=
  match st with
  | Begin => Some (sql_autocommit e false false db)
  | BeginNow => sql_begin_now e db
  | Commit => Some (sql_autocommit e true false db)
  | Rollback => Some (sql_autocommit e true true db)
  | SetSavepoint zName => sql_savepoint e SAVEPOINT_BEGIN zName db
  | Release zName => sql_savepoint e SAVEPOINT_RELEASE zName db
  | RollbackTo zName => sql_savepoint e SAVEPOINT_ROLLBACK zName db
  | Write w _ => sql_write e w db
  end.

(** A write changes a file that is in a write transaction; it reports a change of the
    schema only by [OP_Transaction]; without a statement journal it changes nothing
    before it aborts. *)
Definition stmt_ok (n : nat) (st : stmt) : Prop :=
  match st with
  | Write w g =>
      (wr_file w < n)%nat /\ (forall s c t, is_Some t -> holds s c t -> holds (wr_change w s) (g c) t) /\
      match wr_ending w with Fails rc => rc <> SQLITE_OK | Halts _ _ => True end /\ end_rc w <> SQLITE_SCHEMA /\
      (wr_usesStmtJournal w = true \/ write_effect w <> Undone \/ ((forall c, g c = c) /\ wr_cons w = 0 /\ wr_immcons w = 0))
  | _ => True
  end.

Variable e : VdbeEnv.
Hypothesis He : env_ok e.

Definition stopped (db : Conn) : Conn := set_active db (nVdbeActive db - 1) (nVdbeRead db - 1) (nVdbeWrite db).

(** A transaction statement halts inside a transaction: nothing happens. *)
Lemma halt_inside db rc :
  autoCommit db = false -> nStatement db = 0 -> is_special rc = false ->
  sqlite3VdbeHalt e db (set_rc control_vm rc) = (stopped db, set_halted (set_rc control_vm rc), if rc =? SQLITE_BUSY then SQLITE_BUSY else SQLITE_OK).
Proof.
  intros Hau Hst Hsp. destruct db. cbn in Hau, Hst. subst. pose proof (eo_malloc e He). pose proof (eo_sync e He).
  unfold sqlite3VdbeHalt, halt_reader, halt_special, halt_statement, succeeded, sqlite3VdbeCheckFkImmediate.
  destruct (rc =? SQLITE_OK) eqn:E; by vm.
Qed.

Lemma halt_inside_ok db :
  autoCommit db = false -> nStatement db = 0 -> sqlite3VdbeHalt e db control_vm = (stopped db, set_halted control_vm, SQLITE_OK).
Proof. intros Ha Hs. by apply (halt_inside db SQLITE_OK). Qed.

(** A transaction statement fails in auto-commit mode: there is nothing to roll back. *)
Lemma halt_outside db rc :
  autoCommit db = true -> nVdbeWrite db = 0 -> is_special rc = false -> (rc =? SQLITE_OK) = false -> (rc =? SQLITE_SCHEMA) = false ->
  sqlite3VdbeHalt e db (set_rc control_vm rc) =
    (stopped (set_nStatement (sqlite3RollbackAll db) 0), set_halted (set_rc control_vm rc), if rc =? SQLITE_BUSY then SQLITE_BUSY else SQLITE_OK).
Proof.
  intros Hau Hw Hsp Hok Hsc. destruct db. cbn in Hau, Hw. subst. pose proof (eo_malloc e He). pose proof (eo_sync e He).
  unfold sqlite3VdbeHalt, halt_reader, halt_special, halt_commit, succeeded. by vm.
Qed.

Lemma txn_inside db a T : refines db a -> x_txn a = Some T ->
  autoCommit db = false /\ isTransactionSavepoint db = bool_decide (is_Some (t_outer T)) /\
  pSavepoint db = (t_saves T).*1 ++ option_list (t_outer T) /\ nSavepoint db = Zlen (t_saves T) /\
  Forall (fun c => length c = length (x_now a)) (t_start T :: (t_saves T).*2).
Proof. intros [_ _ _ _ Ht _] Ha. unfold txn_ok in Ht. by rewrite Ha in Ht. Qed.

Lemma txn_outside db a : refines db a -> x_txn a = None ->
  autoCommit db = true /\ x_cons a = (0, 0) /\ isTransactionSavepoint db = false /\ pSavepoint db = [] /\ nSavepoint db = 0 /\ corruptRdOnly db = false.
Proof. intros [_ _ _ _ Ht _] Ha. unfold txn_ok in Ht. by rewrite Ha in Ht. Qed.

Lemma run_error db a :
  refines db a -> exists db', finish e (start db control_vm, control_vm, AbortDueToError SQLITE_ERROR) = (db', SQLITE_ERROR) /\ refines db' a.
Proof.
  intros Hr. unfold finish, abort_due_to_error. rewrite (eo_malloc e He).
  change (SQLITE_ERROR =? SQLITE_IOERR_CORRUPTFS) with false. change (SQLITE_ERROR =? SQLITE_CORRUPT) with false. cbn [andb].
  destruct (x_txn a) as [T|] eqn:Ha.
  - destruct (txn_inside _ _ _ Hr Ha) as (Hau & Ht). rewrite halt_inside; [|exact Hau|apply (rf_statement _ _ Hr)|done].
    eexists; split; [done|]. destruct Hr. split; try done. cbn -[Z.add Z.sub]; lia.
  - destruct (txn_outside _ _ Hr Ha) as (Hau & Hc & Ht). rewrite halt_outside; [|exact Hau|apply (rf_write _ _ Hr)|done..].
    eexists; split; [done|]. destruct Hr as [? ? ? ? ? Hf]. split; try done; [cbn -[Z.add Z.sub]; lia| |].
    + unfold txn_ok. rewrite Ha. cbn. by destruct Ht as (? & ? & ? & ?).
    + rewrite Ha in Hf |- *. by apply agrees_rollback_none.
Qed.

(** A transaction statement halts after it set auto-commit mode: the commit. *)
Lemma halt_commits db :
  autoCommit db = true -> nVdbeWrite db = 0 -> nDeferredCons db + nDeferredImmCons db = 0 ->
  sqlite3VdbeHalt e db control_vm =
    let '(db, rc) :=
      if corruptRdOnly db then (set_corruptRdOnly db false, SQLITE_CORRUPT) else let '(files, rc) := vdbeCommit (aDb db) in (set_aDb db files, rc) in
    if rc =? SQLITE_BUSY then (db, control_vm, SQLITE_BUSY)
    else if rc =? SQLITE_OK then (stopped (set_nStatement (set_deferred db 0 0) 0), set_halted control_vm, SQLITE_OK)
    else (stopped (set_nStatement (sqlite3RollbackAll db) 0), set_halted (set_rc control_vm rc), SQLITE_OK).
Proof.
  intros Hau Hw Hc. destruct db. cbn -[Z.add] in Hau, Hw, Hc. subst. apply Z.eqb_eq in Hc. pose proof (eo_malloc e He). pose proof (eo_sync e He).
  unfold sqlite3VdbeHalt, halt_reader, halt_special, halt_commit, sqlite3VdbeCheckFkDeferred. assert (is_special SQLITE_OK = false) by done. vm.
  destruct corruptRdOnly; [by vm|]. destruct (vdbeCommit aDb) as [files rc].
  destruct (rc =? SQLITE_BUSY) eqn:Hb; [by vm|]. by destruct (rc =? SQLITE_OK) eqn:Ho; vm.
Qed.

Definition simulates (st : stmt) (db : Conn) (a : Tx) : Prop :=
  exists db' rc a', run e st db = Some (db', rc) /\ spec_step st a a' rc /\ refines db' a'.

Lemma run_begin db a : refines db a -> simulates Begin db a.
Proof.
  intros Hr. unfold simulates. cbn [run]. unfold sql_autocommit, OP_AutoCommit. change (autoCommit (start db control_vm)) with (autoCommit db).
  destruct (x_txn a) as [T|] eqn:Ha.
  - destruct (txn_inside _ _ _ Hr Ha) as (Hau & _). rewrite Hau.
    destruct (run_error db a Hr) as (db' & Hf & Hr'). cbn [eqb negb]. rewrite Hf. eauto 10 using spec_step.
  - destruct (txn_outside _ _ Hr Ha) as (Hau & Hc & Hits & Hps & Hns & Hcr). destruct Hr as [Hw Hrd Hst Hcons Htx Hf]. rewrite Hau. cbn [eqb negb andb].
    assert (sqlite3VdbeCheckFkDeferred (start db control_vm) control_vm = (control_vm, SQLITE_OK)) as ->.
    { unfold sqlite3VdbeCheckFkDeferred. cbn. rewrite Hc in Hcons. by injection Hcons as <- <-. }
    cbn [negb Z.eqb SQLITE_OK]. rewrite halt_inside_ok by done. cbn. eexists _, _, _. split; [done|]. split; [by apply sp_begin|].
    split; try done; [cbn -[Z.add Z.sub] in *; lia| |].
    + cbn. repeat split; auto.
    + cbn. apply agrees_open. by rewrite Ha in Hf.
Qed.

(** What a commit leaves of a connection: it has to be repeated, it is done, or all
    is rolled back. *)
Definition committed (db : Conn) (files : list S) : Conn := stopped (set_nStatement (set_deferred (set_aDb db files) 0 0) 0).

Inductive commit_case (T : option Txn) (now : list C) (db : Conn) : Conn * VM * Z -> Prop :=
  | case_busy files : is_Some T -> agrees T now files -> commit_case T now db (set_aDb db files, control_vm, SQLITE_BUSY)
  | case_ok files : corruptRdOnly db = false -> agrees None now files -> commit_case T now db (committed db files, set_halted control_vm, SQLITE_OK)
  | case_failed T' files rc : T = Some T' -> rc <> SQLITE_OK -> rc <> SQLITE_BUSY -> agrees None (t_start T') files ->
      commit_case T now db (set_corruptRdOnly (committed db files) false, set_halted (set_rc control_vm rc), SQLITE_OK).

Lemma halt_cases T now db :
  autoCommit db = true -> nVdbeWrite db = 0 -> nDeferredCons db + nDeferredImmCons db = 0 -> agrees T now (aDb db) ->
  match T with Some T => length (t_start T) = length now | None => corruptRdOnly db = false end ->
  commit_case T now db (sqlite3VdbeHalt e db control_vm).
Proof.
  intros Hau Hw Hc Ha Hl. rewrite halt_commits by done. destruct (corruptRdOnly db) eqn:Hcr.
  - destruct T as [T|]; [|done]. refine (case_failed (Some T) now db T (sqlite3BtreeRollback <$> aDb db) SQLITE_CORRUPT _ _ _ _); [done..|]. by eapply agrees_rollback.
  - destruct (vdbeCommit (aDb db)) as [files rc] eqn:Hv. destruct (agrees_commit _ _ _ _ _ Ha Hv) as [Hok Hno].
    destruct (Z.eqb_spec rc SQLITE_BUSY) as [->|Hb]; [destruct (Hno ltac:(done)); by apply (case_busy T now db files)|].
    destruct (Z.eqb_spec rc SQLITE_OK) as [->|Ho]; [refine (case_ok T now db files _ _); auto|].
    destruct (Hno Ho) as [Ha' [T' ->]]. refine (case_failed (Some T') now db T' (sqlite3BtreeRollback <$> files) rc _ _ _ _); [done..|]. by eapply agrees_rollback.
Qed.

(** A transaction statement that leaves its machine running inside a transaction. *)
Lemma reset_inside db rc :
  autoCommit db = false -> nStatement db = 0 -> is_special rc = false -> sqlite3VdbeReset e db (set_rc control_vm rc) = (stopped db, rc).
Proof. intros Ha Hs Hsp. unfold sqlite3VdbeReset. cbn [vm_halted set_rc control_vm]. by rewrite (halt_inside db rc). Qed.

Lemma finish_inside db :
  autoCommit db = false -> nStatement db = 0 -> finish e (db, control_vm, Next) = (stopped db, SQLITE_OK).
Proof. intros Ha Hs. unfold finish. cbn [vm_halted control_vm]. by rewrite halt_inside_ok. Qed.

(** The deferred violations of a transaction statement. *)
Lemma check_deferred (db : Conn) :
  sqlite3VdbeCheckFkDeferred db control_vm =
    if nDeferredCons db + nDeferredImmCons db =? 0 then (control_vm, SQLITE_OK)
    else (set_rc control_vm SQLITE_CONSTRAINT_FOREIGNKEY, SQLITE_CONSTRAINT_FOREIGNKEY).
Proof. done. Qed.

Lemma run_commit db a : refines db a -> simulates Commit db a.
Proof.
  intros Hr. unfold simulates. cbn [run]. unfold sql_autocommit, OP_AutoCommit. change (autoCommit (start db control_vm)) with (autoCommit db).
  destruct (x_txn a) as [T|] eqn:Ha.
  - destruct (txn_inside _ _ _ Hr Ha) as (Hau & Hits & Hps & Hns & Hls). destruct Hr as [Hw Hrd Hst Hcons Htx Hf]. rewrite Hau. cbn [eqb negb andb].
    change (nVdbeWrite (start db control_vm)) with (nVdbeWrite db). rewrite Hw. cbn [Z.ltb Z.compare]. rewrite check_deferred.
    change (nDeferredCons (start db control_vm) + _) with (nDeferredCons db + nDeferredImmCons db).
    destruct (Z.eqb_spec (nDeferredCons db + nDeferredImmCons db) 0) as [Hz|Hz].
    + cbn [negb Z.eqb SQLITE_OK]. rewrite Ha in Hf. 
      destruct (halt_cases (Some T) (x_now a) (set_autoCommit (start db control_vm) true)) as [files _ Hg|files Hcr Hg|T' files rc [= <-] Hno Hnb Hg]; try done.
      { by apply Forall_cons in Hls as [? _]. }
      * cbn [Z.eqb SQLITE_BUSY Pos.eqb finish]. rewrite reset_inside by done. eexists _, _, _. split; [done|].
        split; [eapply sp_commit; [done|apply commit_busy]|]. split; try done; [cbn -[Z.add Z.sub]; lia|by unfold txn_ok; rewrite Ha|by rewrite Ha].
      * cbn [Z.eqb SQLITE_BUSY SQLITE_OK finish]. eexists _, _, _. split; [done|].
        split; [eapply sp_commit; [done|apply commit_ok; by rewrite Hcons]|]. split; try done. cbn -[Z.add Z.sub]; lia.
      * cbn [Z.eqb SQLITE_BUSY SQLITE_OK finish]. eexists _, _, _. split; [done|].
        split; [eapply sp_commit; [done|by apply commit_failed]|]. split; try done. cbn -[Z.add Z.sub]; lia.
    + change (negb (SQLITE_CONSTRAINT_FOREIGNKEY =? SQLITE_OK)) with true. cbn [finish]. rewrite reset_inside by done.
      eexists _, _, _. split; [done|]. split; [eapply sp_commit; [done|apply commit_violation; by rewrite Hcons]|].
      split; try done. cbn -[Z.add Z.sub]; lia.
  - destruct (txn_outside _ _ Hr Ha) as (Hau & _). rewrite Hau.
    destruct (run_error db a Hr) as (db' & Hf & Hr'). cbn [eqb negb]. rewrite Hf. eauto 10 using spec_step.
Qed.

Lemma run_rollback db a : refines db a -> simulates Rollback db a.
Proof.
  intros Hr. unfold simulates. cbn [run]. unfold sql_autocommit, OP_AutoCommit. change (autoCommit (start db control_vm)) with (autoCommit db).
  destruct (x_txn a) as [T|] eqn:Ha.
  - destruct (txn_inside _ _ _ Hr Ha) as (Hau & Hits & Hps & Hns & Hls). destruct Hr as [Hw Hrd Hst Hcons Htx Hf]. rewrite Hau. cbn [eqb negb andb].
    rewrite Ha in Hf. apply Forall_cons in Hls as [Hl _]. pose proof (agrees_rollback _ _ _ Hl Hf) as Hg.
    destruct (halt_cases None (t_start T) (set_autoCommit (sqlite3RollbackAll (start db control_vm)) true)) as [files [? ?] _|files Hcr Hg'|]; try done.
    cbn [Z.eqb SQLITE_BUSY SQLITE_OK finish]. eexists _, _, _. split; [done|].
    split; [by eapply sp_rollback|]. split; try done. cbn -[Z.add Z.sub]; lia.
  - destruct (txn_outside _ _ Hr Ha) as (Hau & _). rewrite Hau.
    destruct (run_error db a Hr) as (db' & Hf & Hr'). cbn [eqb negb]. rewrite Hf. eauto 10 using spec_step.
Qed.

(** The assertions of [OP_Savepoint]. *)
Lemma asserts_hold p1 zName db a : refines db a ->
  OP_Savepoint e p1 zName (start db control_vm) control_vm =
    Some (if p1 =? SAVEPOINT_BEGIN then let '(db, a) := savepoint_begin e zName (start db control_vm) in (db, control_vm, a)
          else savepoint_end e p1 zName (start db control_vm) control_vm).
Proof.
  intros Hr. unfold OP_Savepoint. cbn [pSavepoint autoCommit isTransactionSavepoint start set_active].
  assert ((bool_decide (pSavepoint db = []) || negb (autoCommit db)) = true /\ (bool_decide (pSavepoint db = []) && isTransactionSavepoint db) = false) as [-> ->].
  { destruct (x_txn a) as [T|] eqn:Ha.
    - destruct (txn_inside _ _ _ Hr Ha) as (-> & -> & -> & _). split; [apply orb_true_r|].
      destruct (t_outer T); [|apply andb_false_r]. rewrite bool_decide_false; [done|]. by destruct (t_saves T).*1.
    - by destruct (txn_outside _ _ Hr Ha) as (-> & _ & -> & -> & _). }
  cbn [negb]. destruct (p1 =? SAVEPOINT_BEGIN); [|done]. by destruct (savepoint_begin _ _ _).
Qed.

Lemma run_set_savepoint db a zName : refines db a -> simulates (SetSavepoint zName) db a.
Proof.
  intros Hr. unfold simulates. cbn [run]. unfold sql_savepoint. rewrite (asserts_hold _ _ _ _ Hr). cbn [mbind option_bind Z.eqb SAVEPOINT_BEGIN].
  unfold savepoint_begin. cbn [nVdbeWrite start set_active vm_readOnly control_vm]. rewrite (rf_write _ _ Hr).
  rewrite (eo_vtab e He), (eo_new e He). cbn [Z.ltb Z.compare Z.eqb SQLITE_OK negb autoCommit].
  eexists _, _, _. split; [|split; [apply sp_savepoint|]].
  { f_equal. change (autoCommit (start db control_vm)) with (autoCommit db). apply finish_inside; [by destruct (autoCommit db) eqn:?|]. rewrite <- (rf_statement _ _ Hr). by destruct (autoCommit db). }
  change (autoCommit (start db control_vm)) with (autoCommit db). unfold spec_savepoint. destruct (x_txn a) as [T|] eqn:Ha.
  - destruct (txn_inside _ _ _ Hr Ha) as (Hau & Hits & Hps & Hns & Hls). destruct Hr as [Hw Hrd Hst Hcons Htx Hf]. rewrite Hau.
    rewrite Ha in Hf. split; try done; [cbn -[Z.add Z.sub]; lia| |by apply agrees_save].
    cbn -[Z.add Zlen]. rewrite Hps, Hns, Hcons. repeat split; try done; [unfold Zlen; cbn [length]; lia|].
    apply Forall_cons in Hls as [? ?]. by repeat constructor.
  - destruct (txn_outside _ _ Hr Ha) as (Hau & Hc & Hits & Hps & Hns & Hcr). destruct Hr as [Hw Hrd Hst Hcons Htx Hf]. rewrite Hau.
    rewrite Ha in Hf. split; try done; [cbn -[Z.add Z.sub]; lia| |by apply agrees_open].
    cbn. rewrite Hps, Hcons. repeat split; auto.
Qed.

Lemma find_save_spec zName (saves : list (Savepoint * list C)) o :
  match find_save zName saves with
  | Some (s, c, outer) => exists inner, saves = inner ++ (s, c) :: outer /\ find_savepoint zName (saves.*1 ++ o) = Some (inner.*1, s, outer.*1 ++ o)
  | None => find_savepoint zName (saves.*1 ++ o) = '(inner, s, outer) ← find_savepoint zName o; Some (saves.*1 ++ inner, s, outer)
  end.
Proof.
  induction saves as [|[s c] saves IH]; cbn [find_save fmap list_fmap fst app find_savepoint].
  - by destruct (find_savepoint zName o) as [[[? ?] ?]|].
  - destruct (sqlite3StrICmp (sp_zName s) zName =? 0); [by exists []|].
    destruct (find_save zName saves) as [[[s' c'] outer]|].
    + destruct IH as (inner & -> & ->). by exists ((s, c) :: inner).
    + rewrite IH. by destruct (find_savepoint zName o) as [[[? ?] ?]|].
Qed.

Lemma find_outer zName (T : Txn) :
  find_save zName (t_saves T) = None ->
  find_savepoint zName ((t_saves T).*1 ++ option_list (t_outer T)) = (fun s => ((t_saves T).*1, s, [])) <$> names_outer zName T.
Proof.
  intros Hf. pose proof (find_save_spec zName (t_saves T) (option_list (t_outer T))) as Hs. rewrite Hf in Hs. rewrite Hs. unfold names_outer.
  destruct (t_outer T) as [s|]; [|done]. cbn. destruct (sqlite3StrICmp (sp_zName s) zName =? 0); [|done]. cbn. by rewrite app_nil_r.
Qed.

Lemma savepoint_files_ok op i ss : Forall (fun s => (sqlite3BtreeSavepoint s op i).2 = SQLITE_OK) ss ->
  savepoint_files op i ss = ((fun s => (sqlite3BtreeSavepoint s op i).1) <$> ss, SQLITE_OK).
Proof.
  induction 1 as [|s ss Hs _ IH]; [done|]. cbn [savepoint_files fmap list_fmap]. destruct (sqlite3BtreeSavepoint s op i). cbn in Hs. subst. by rewrite IH.
Qed.

Lemma release_ok T now ss i : 0 <= i -> agrees T now ss -> savepoint_files SAVEPOINT_RELEASE i ss = (release_file i <$> ss, SQLITE_OK).
Proof.
  intros Hi Ha. apply savepoint_files_ok. apply Forall_lookup. intros j s Hs. destruct (agrees_lookup _ _ _ _ _ Ha Hs) as (c & t & _ & Ht & _).
  by destruct (law_release s c t i Hi Ht) as (s' & -> & _).
Qed.

Lemma rollback_ok T now ss i : -1 <= i -> agrees T now ss -> savepoint_files SAVEPOINT_ROLLBACK i ss = (rollback_file i <$> ss, SQLITE_OK).
Proof.
  intros Hi Ha. apply savepoint_files_ok. apply Forall_lookup. intros j s Hs. destruct (agrees_lookup _ _ _ _ _ Ha Hs) as (c & t & _ & Ht & _).
  by destruct (law_back s c t i Hi Ht) as (s' & -> & _).
Qed.

(** A savepoint inside the transaction is not the one that opened it. *)
Lemma not_transaction (T : Txn) (db : Conn) outer :
  isTransactionSavepoint db = bool_decide (is_Some (t_outer T)) ->
  bool_decide (outer ++ option_list (t_outer T) = []) && isTransactionSavepoint db = false.
Proof. intros ->. destruct (t_outer T); [|apply andb_false_r]. by rewrite bool_decide_false by (by destruct outer). Qed.

(** Neither [RELEASE] nor [ROLLBACK TO] finds the savepoint. *)
Lemma find_none db a zName : refines db a ->
  match x_txn a with None => True | Some T => find_save zName (t_saves T) = None /\ names_outer zName T = None end ->
  find_savepoint zName (pSavepoint db) = None.
Proof.
  intros Hr Hn. destruct (x_txn a) as [T|] eqn:Ha.
  - destruct (txn_inside _ _ _ Hr Ha) as (_ & _ & -> & _). destruct Hn as [Hs Ho]. by rewrite find_outer, Ho.
  - by destruct (txn_outside _ _ Hr Ha) as (_ & _ & _ & -> & _).
Qed.

Lemma end_none db a p1 zName : refines db a ->
  match x_txn a with None => True | Some T => find_save zName (t_saves T) = None /\ names_outer zName T = None end ->
  exists db', finish e (savepoint_end e p1 zName (start db control_vm) control_vm) = (db', SQLITE_ERROR) /\ refines db' a.
Proof. intros Hr Hn. unfold savepoint_end. cbn [pSavepoint start set_active]. rewrite (find_none _ _ _ Hr Hn). by apply run_error. Qed.

Lemma release_inner db a T zName s c outer :
  refines db a -> x_txn a = Some T -> find_save zName (t_saves T) = Some (s, c, outer) ->
  exists db', finish e (savepoint_end e SAVEPOINT_RELEASE zName (start db control_vm) control_vm) = (db', SQLITE_OK) /\
    refines db' (mkTx C (x_now a) (x_cons a) (Some (mkTxn C (t_start T) (t_outer T) outer))).
Proof.
  intros Hr Ha Hf. destruct (txn_inside _ _ _ Hr Ha) as (Hau & Hits & Hps & Hns & Hls). destruct Hr as [Hw Hrd Hst Hcons Htx Hag]. rewrite Ha in Hag.
  pose proof (find_save_spec zName (t_saves T) (option_list (t_outer T))) as Hs. rewrite Hf in Hs. destruct Hs as (inner & HT & Hs).
  unfold savepoint_end, savepoint_storage. fields. rewrite Hps, Hs, Hw.
  cbn [Z.ltb Z.compare andb]. rewrite (not_transaction T db) by done. cbn [andb SAVEPOINT_RELEASE SAVEPOINT_ROLLBACK Z.eqb Pos.eqb].
  replace (nSavepoint db - Zlen inner.*1 - 1) with (Zlen outer) by (rewrite Hns, HT; unfold Zlen; rewrite length_app, length_fmap; cbn; lia).
  rewrite (release_ok (Some T) (x_now a)) by (try done; unfold Zlen; lia).
  cbn [Z.eqb SQLITE_OK negb orb]. rewrite (eo_vtab e He). cbn [Z.eqb SQLITE_OK negb vm_halted control_vm].
  rewrite finish_inside by done. eexists; split; [done|].
  split; try done; [cbn -[Z.add Z.sub]; lia| |apply (agrees_release T (inner ++ [(s, c)]) outer); [by rewrite HT, <- app_assoc|done]].
  cbn -[Zlen Z.sub]. repeat split; try done.
  - rewrite Hns, HT. unfold Zlen. rewrite length_app, length_fmap. cbn [length]. lia.
  - apply Forall_cons in Hls as [? Hls]. constructor; [done|]. rewrite HT, fmap_app in Hls. apply Forall_app in Hls as [_ Hls]. by apply Forall_cons in Hls as [_ ?].
Qed.

Lemma back_inner db a T zName s c outer :
  refines db a -> x_txn a = Some T -> find_save zName (t_saves T) = Some (s, c, outer) ->
  exists db', finish e (savepoint_end e SAVEPOINT_ROLLBACK zName (start db control_vm) control_vm) = (db', SQLITE_OK) /\
    refines db' (mkTx C c (sp_nDeferredCons s, sp_nDeferredImmCons s) (Some (mkTxn C (t_start T) (t_outer T) ((s, c) :: outer)))).
Proof.
  intros Hr Ha Hf. destruct (txn_inside _ _ _ Hr Ha) as (Hau & Hits & Hps & Hns & Hls). destruct Hr as [Hw Hrd Hst Hcons Htx Hag]. rewrite Ha in Hag.
  pose proof (find_save_spec zName (t_saves T) (option_list (t_outer T))) as Hs. rewrite Hf in Hs. destruct Hs as (inner & HT & Hs).
  unfold savepoint_end, savepoint_storage. fields. rewrite Hps, Hs, Hw.
  cbn [Z.ltb Z.compare andb]. rewrite (not_transaction T db), (eo_trip e He) by done. cbn [andb SAVEPOINT_RELEASE SAVEPOINT_ROLLBACK Z.eqb Pos.eqb SQLITE_OK negb].
  replace (nSavepoint db - Zlen inner.*1 - 1) with (Zlen outer) by (rewrite Hns, HT; unfold Zlen; rewrite length_app, length_fmap; cbn; lia).
  rewrite (rollback_ok (Some T) (x_now a)) by (try done; unfold Zlen; lia).
  cbn [Z.eqb SQLITE_OK negb orb]. rewrite (eo_vtab e He). cbn [Z.eqb SQLITE_OK negb vm_halted control_vm].
  rewrite finish_inside by done. eexists; split; [done|].
  apply Forall_cons in Hls as [Hl Hls]. rewrite HT, fmap_app in Hls. apply Forall_app in Hls as [_ Hls]. apply Forall_cons in Hls as [Hlc Hls].
  split; try done; [cbn -[Z.add Z.sub]; lia| |by apply (agrees_back T inner s c outer (x_now a))].
  cbn -[Zlen Z.sub]. repeat split; try done.
  - rewrite Hns, HT. unfold Zlen. rewrite length_app, length_fmap. cbn [length]. lia.
  - cbn in Hlc. rewrite Hlc. by repeat constructor.
Qed.

Lemma back_outer db a T zName s :
  refines db a -> x_txn a = Some T -> find_save zName (t_saves T) = None -> names_outer zName T = Some s ->
  exists db', finish e (savepoint_end e SAVEPOINT_ROLLBACK zName (start db control_vm) control_vm) = (db', SQLITE_OK) /\
    refines db' (mkTx C (t_start T) (sp_nDeferredCons s, sp_nDeferredImmCons s) (Some (mkTxn C (t_start T) (t_outer T) []))).
Proof.
  intros Hr Ha Hf Ho. destruct (txn_inside _ _ _ Hr Ha) as (Hau & Hits & Hps & Hns & Hls). destruct Hr as [Hw Hrd Hst Hcons Htx Hag]. rewrite Ha in Hag.
  pose proof (find_outer _ _ Hf) as Hs. rewrite Ho in Hs. assert (t_outer T = Some s) as Hout.
  { unfold names_outer in Ho. destruct (t_outer T); [|done]. by destruct (sqlite3StrICmp _ _ =? 0); simplify_eq. }
  unfold savepoint_end, savepoint_storage. fields. rewrite Hps, Hs, Hw, (eo_trip e He).
  cbn [fmap option_fmap option_map Z.ltb Z.compare andb]. rewrite andb_false_r. cbn [SAVEPOINT_ROLLBACK Z.eqb Pos.eqb SQLITE_OK andb negb].
  replace (nSavepoint db - Zlen (t_saves T).*1 - 1) with (-1) by (rewrite Hns; unfold Zlen; rewrite length_fmap; lia).
  rewrite (rollback_ok (Some T) (x_now a)) by done.
  cbn [Z.eqb SQLITE_OK negb orb]. rewrite orb_true_r, (eo_vtab e He). cbn [Z.eqb SQLITE_OK negb vm_halted control_vm].
  rewrite finish_inside by done. eexists; split; [done|]. apply Forall_cons in Hls as [Hl Hls].
  split; try done; [cbn -[Z.add Z.sub]; lia| |by apply (agrees_back_all T (x_now a))].
  cbn -[Zlen Z.sub]. rewrite Hout in Hits |- *. repeat split; try done; [|by repeat constructor].
  rewrite Hns. unfold Zlen. rewrite length_fmap. cbn [length]. lia.
Qed.

(** The flag that a corrupt file was seen is free inside a transaction. *)
Lemma refines_corrupt db a (b : bool) : refines db a -> refines (if b && negb (autoCommit db) then set_corruptRdOnly db true else db) a.
Proof.
  intros Hr. destruct b; [|done]. destruct (autoCommit db) eqn:Hau; [done|]. destruct Hr as [? ? ? ? Ht ?]. split; try done. unfold txn_ok in Ht |- *.
  destruct (x_txn a); [done|]. destruct Ht as [? _]. congruence.
Qed.

Lemma release_outer db a T zName s :
  refines db a -> x_txn a = Some T -> find_save zName (t_saves T) = None -> names_outer zName T = Some s ->
  exists db' rc a', finish e (savepoint_end e SAVEPOINT_RELEASE zName (start db control_vm) control_vm) = (db', rc) /\
    commits a (spec_emptied T) a' rc /\ refines db' a'.
Proof.
  intros Hr Ha Hf Ho. destruct (txn_inside _ _ _ Hr Ha) as (Hau & Hits & Hps & Hns & Hls). destruct Hr as [Hw Hrd Hst Hcons Htx Hag]. rewrite Ha in Hag.
  pose proof (find_outer _ _ Hf) as Hs. rewrite Ho in Hs. assert (t_outer T = Some s) as Hout.
  { unfold names_outer in Ho. destruct (t_outer T); [|done]. by destruct (sqlite3StrICmp _ _ =? 0); simplify_eq. }
  unfold savepoint_end, release_transaction. cbn [pSavepoint start set_active]. rewrite Hps, Hs. change (nVdbeWrite (start db control_vm)) with (nVdbeWrite db). rewrite Hw.
  change (isTransactionSavepoint (start db control_vm)) with (isTransactionSavepoint db). rewrite Hits, Hout.
  cbn [fmap option_fmap option_map Z.ltb Z.compare andb]. rewrite !bool_decide_true by done.
  cbn [SAVEPOINT_RELEASE SAVEPOINT_ROLLBACK Z.eqb Pos.eqb andb negb orb]. rewrite check_deferred.
  change (nDeferredCons (start db control_vm) + _) with (nDeferredCons db + nDeferredImmCons db).
  destruct (Z.eqb_spec (nDeferredCons db + nDeferredImmCons db) 0) as [Hz|Hz].
  - cbn [negb Z.eqb SQLITE_OK].
    destruct (halt_cases (Some T) (x_now a) (set_autoCommit (start db control_vm) true)) as [files _ Hg|files Hcr Hg|T' files rc [= <-] Hno Hnb Hg]; try done.
    { by apply Forall_cons in Hls as [? _]. }
    + cbn [Z.eqb SQLITE_BUSY Pos.eqb finish]. rewrite reset_inside by done. eexists _, _, _. split; [done|].
      split; [apply commit_busy|]. split; try done; [cbn -[Z.add Z.sub]; lia|by unfold txn_ok; rewrite Ha|by rewrite Ha].
    + cbn. eexists _, _, _. split; [done|].
      split; [apply commit_ok; by rewrite Hcons|]. split; try done; [cbn -[Z.add Z.sub]; lia|].
      cbn -[Zlen Z.sub]. repeat split; try done. rewrite Hns. unfold Zlen. rewrite length_fmap. lia.
    + cbn [Z.eqb SQLITE_BUSY SQLITE_OK]. fields. unfold truth. rewrite (proj2 (Z.eqb_neq rc 0)) by done. cbn [negb finish]. unfold abort_due_to_error.
      rewrite (eo_malloc e He). fields. cbn [sqlite3VdbeReset]. eexists _, _, _. split; [done|]. split; [apply commit_failed; by destruct (rc =? SQLITE_IOERR_CORRUPTFS)|].
      match goal with |- refines (if ?b && _ then _ else ?d) _ => apply (refines_corrupt d _ b) end. split; try done; [cbn -[Z.add Z.sub]; lia| |by apply agrees_emptied].
      cbn -[Zlen]. rewrite <- !list_fmap_compose. repeat split; try done.
      * rewrite Hns. unfold Zlen. by rewrite length_fmap.
      * constructor; [done|]. by apply Forall_fmap, Forall_true.
  - change (negb (SQLITE_CONSTRAINT_FOREIGNKEY =? SQLITE_OK)) with true. cbn [finish]. rewrite reset_inside by done.
    eexists _, _, _. split; [done|]. split; [apply commit_violation; by rewrite Hcons|].
    split; try done; [cbn -[Z.add Z.sub]; lia|by rewrite Ha].
Qed.

Lemma run_release db a zName : refines db a -> simulates (Release zName) db a.
Proof.
  intros Hr. unfold simulates. cbn [run]. unfold sql_savepoint. rewrite (asserts_hold _ _ _ _ Hr). change (SAVEPOINT_RELEASE =? SAVEPOINT_BEGIN) with false. cbn [mbind option_bind].
  destruct (x_txn a) as [T|] eqn:Ha; [destruct (find_save zName (t_saves T)) as [[[s c] outer]|] eqn:Hf; [|destruct (names_outer zName T) as [s|] eqn:Ho]|].
  - destruct (release_inner db a T zName s c outer Hr Ha Hf) as (db' & -> & Hr'). eauto 10 using spec_step.
  - destruct (release_outer db a T zName s Hr Ha Hf Ho) as (db' & rc & a' & -> & Hc & Hr'). eauto 10 using spec_step.
  - destruct (end_none db a SAVEPOINT_RELEASE zName Hr) as (db' & -> & Hr'); [by rewrite Ha|].
    exists db', SQLITE_ERROR, a. split; [done|]. split; [apply sp_release_none; by rewrite Ha|done].
  - destruct (end_none db a SAVEPOINT_RELEASE zName Hr) as (db' & -> & Hr'); [by rewrite Ha|].
    exists db', SQLITE_ERROR, a. split; [done|]. split; [apply sp_release_none; by rewrite Ha|done].
Qed.

Lemma run_rollback_to db a zName : refines db a -> simulates (RollbackTo zName) db a.
Proof.
  intros Hr. unfold simulates. cbn [run]. unfold sql_savepoint. rewrite (asserts_hold _ _ _ _ Hr). change (SAVEPOINT_ROLLBACK =? SAVEPOINT_BEGIN) with false. cbn [mbind option_bind].
  destruct (x_txn a) as [T|] eqn:Ha; [destruct (find_save zName (t_saves T)) as [[[s c] outer]|] eqn:Hf; [|destruct (names_outer zName T) as [s|] eqn:Ho]|].
  - destruct (back_inner db a T zName s c outer Hr Ha Hf) as (db' & -> & Hr'). eauto 10 using spec_step.
  - destruct (back_outer db a T zName s Hr Ha Hf Ho) as (db' & -> & Hr'). eauto 10 using spec_step.
  - destruct (end_none db a SAVEPOINT_ROLLBACK zName Hr) as (db' & -> & Hr'); [by rewrite Ha|].
    exists db', SQLITE_ERROR, a. split; [done|]. split; [apply sp_back_none; by rewrite Ha|done].
  - destruct (end_none db a SAVEPOINT_ROLLBACK zName Hr) as (db' & -> & Hr'); [by rewrite Ha|].
    exists db', SQLITE_ERROR, a. split; [done|]. split; [apply sp_back_none; by rewrite Ha|done].
Qed.

End Refinement.
