(* ===== verification/SavepointWrite.v ===== *)
(** * Statements that write, and the refinement

    How a statement that changes a file ends, inside and outside a transaction, and
    that every statement does what the abstract transactions say. *)
From stdpp Require Import strings.
From S2P Require Import Prelude Value Codes Record Strings Savepoint SavepointCorrect.

Local Open Scope Z_scope.

Section Write.
Context {S C : Type} `{StorageLaws S C}.
Notation Conn := (Conn (S := S)).
Notation Tx := (Tx (C := C)).
Notation Txn := (Txn (C := C)).
Notation stmt := (stmt (S := S) (C := C)).
Notation WriteStmt := (WriteStmt (S := S)).
Variable e : VdbeEnv.
Hypothesis He : env_ok e.

(** ** How the machine of a write halts *)

(** The code of a machine that has halted. *)
Definition halt_code (rc : Z) : Z := if rc =? SQLITE_BUSY then SQLITE_BUSY else SQLITE_OK.

(** A machine that writes, after the check of its immediate foreign keys. *)
Record writer (p : VM) : Prop := {
  wt_readOnly : vm_readOnly p = false;
  wt_reader : vm_bIsReader p = true;
  wt_clean : succeeded p = true -> vm_nFkConstraint p = 0
}.

Definition done_writing (db : Conn) : Conn := set_active db (nVdbeActive db - 1) (nVdbeRead db - 1) (nVdbeWrite db - 1).

(** The check may come first. *)
Lemma check_first (db : Conn) p :
  vm_bIsReader p = true -> sqlite3VdbeHalt e db p = sqlite3VdbeHalt e db (if succeeded p then (sqlite3VdbeCheckFkImmediate p).1 else p).
Proof.
  intros Hb. unfold sqlite3VdbeHalt. rewrite (eo_malloc e He). unfold sqlite3VdbeCheckFkImmediate. destruct (succeeded p) eqn:Es; [|done].
  destruct (Z.eqb_spec (vm_nFkConstraint p) 0) as [|Hfk]; [done|]. destruct p as [rc act ro rd j i nc ni fk h]. cbn in Hb, Hfk |- *. subst rd.
  unfold halt_reader. rewrite Es. unfold sqlite3VdbeCheckFkImmediate. cbn [vm_nFkConstraint]. rewrite (proj2 (Z.eqb_neq fk 0)) by done. cbn [fst snd vdbeFkError set_error].
  assert (is_special rc = false) as Hsp.
  { unfold succeeded in Es. cbn [vm_rc vm_errorAction] in Es. destruct (rc =? SQLITE_OK) eqn:E; [apply Z.eqb_eq in E; by subst|].
    destruct (is_special rc); [|done]. by rewrite andb_false_r in Es. }
  unfold halt_special. cbn [vm_rc]. by rewrite Hsp.
Qed.

(** The end of the statement's savepoint, if it has one. *)
Definition ended (p : VM) : VM := set_statement p 0 (vm_nStmtDefCons p) (vm_nStmtDefImmCons p).
Definition closes (op : Z) (db : Conn) (p : VM) (db' : Conn) : Prop := sqlite3VdbeCloseStatement e db p op = (db', ended p, SQLITE_OK).

Lemma halt_close_ok op (db : Conn) p db' : op <> 0 -> closes op db p db' -> halt_close e db p op = (db', ended p).
Proof. intros Ho Hc. unfold halt_close, truth. rewrite (proj2 (Z.eqb_neq op 0)) by done. by rewrite Hc. Qed.

Lemma succeeded_plain p : succeeded p = true -> is_special (vm_rc p) = false.
Proof.
  unfold succeeded. destruct (Z.eqb_spec (vm_rc p) SQLITE_OK) as [->|]; [done|]. destruct (is_special (vm_rc p)); [|done]. by rewrite andb_false_r.
Qed.

Lemma check_clean p : writer p -> (if succeeded p then (sqlite3VdbeCheckFkImmediate p).1 else p) = p.
Proof. intros [_ _ Hc]. destruct (succeeded p); [|done]. unfold sqlite3VdbeCheckFkImmediate. by rewrite Hc. Qed.

Lemma halt_writer (db : Conn) p db' p' :
  writer p -> halt_reader e db p = (db', p', false) -> vm_readOnly p' = false -> vm_bIsReader p' = true ->
  sqlite3VdbeHalt e db p = (done_writing db', set_halted p', halt_code (vm_rc p')).
Proof. intros [_ Hrd _] Hh Hro' Hrd'. unfold sqlite3VdbeHalt. by rewrite (eo_malloc e He), Hrd, Hh, Hro', Hrd'. Qed.

(** The changes are kept in a transaction. *)
Lemma halt_kept (db : Conn) p db' :
  writer p -> autoCommit db = false -> succeeded p = true -> closes SAVEPOINT_RELEASE db p db' ->
  sqlite3VdbeHalt e db p = (done_writing db', set_halted (ended p), halt_code (vm_rc p)).
Proof.
  intros Hp Hau Hs Hc. apply (halt_writer db p db' (ended p)); [done| |apply Hp..]. unfold halt_reader, halt_special. rewrite (check_clean p Hp), (succeeded_plain p Hs).
  cbn [andb]. rewrite (eo_sync e He), Hau. cbn [negb andb Z.eqb]. unfold halt_statement.
  assert ((vm_rc p =? SQLITE_OK) || (vm_errorAction p =? OE_Fail) = true) as ->.
  { unfold succeeded in Hs. destruct (vm_rc p =? SQLITE_OK); [done|]. by apply andb_true_iff in Hs as [-> _]. }
  by rewrite (halt_close_ok _ _ _ db').
Qed.

(** The statement's changes are undone. *)
Lemma halt_undone (db : Conn) p db' :
  writer p -> autoCommit db = false -> succeeded p = false -> closes SAVEPOINT_ROLLBACK db p db' ->
  (if is_special (vm_rc p) then ((Z.land (vm_rc p) 0xff =? SQLITE_NOMEM) || (Z.land (vm_rc p) 0xff =? SQLITE_FULL)) && vm_usesStmtJournal p
   else vm_errorAction p =? OE_Abort) = true ->
  sqlite3VdbeHalt e db p = (done_writing db', set_halted (ended p), halt_code (vm_rc p)).
Proof.
  intros Hp Hau Hs Hc Hw. apply (halt_writer db p db' (ended p)); [done| |apply Hp..]. unfold halt_reader, halt_special. rewrite (check_clean p Hp), (wt_readOnly p Hp).
  cbn [negb orb]. rewrite andb_true_r, (eo_sync e He). unfold halt_statement. destruct (is_special (vm_rc p)) eqn:Hsp.
  - rewrite Hw, Hau. cbn [negb andb Z.eqb SAVEPOINT_ROLLBACK]. by rewrite (halt_close_ok _ _ _ db').
  - rewrite Hau. cbn [negb andb Z.eqb]. unfold succeeded in Hs. rewrite Hsp, andb_true_r in Hs. rewrite Hs, Hw. by rewrite (halt_close_ok _ _ _ db').
Qed.

(** The transaction is rolled back. *)
Definition all_undone (db db' : Conn) : Prop :=
  autoCommit db' = true /\ isTransactionSavepoint db' = false /\ pSavepoint db' = [] /\ nSavepoint db' = 0 /\ nStatement db' = 0 /\
  nDeferredCons db' = 0 /\ nDeferredImmCons db' = 0 /\ corruptRdOnly db' = false /\
  nVdbeRead db' = nVdbeRead db /\ nVdbeWrite db' = nVdbeWrite db /\
  (aDb db' = sqlite3BtreeRollback <$> aDb db \/ aDb db' = sqlite3BtreeRollback <$> (sqlite3BtreeRollback <$> aDb db)).

Lemma halt_all_undone (db : Conn) p :
  writer p -> nVdbeWrite db = 1 -> succeeded p = false -> vm_rc p <> SQLITE_SCHEMA ->
  (if is_special (vm_rc p) then ((Z.land (vm_rc p) 0xff =? SQLITE_NOMEM) || (Z.land (vm_rc p) 0xff =? SQLITE_FULL)) && vm_usesStmtJournal p = false \/ autoCommit db = true
   else autoCommit db = true \/ (vm_errorAction p =? OE_Fail) = false /\ (vm_errorAction p =? OE_Abort) = false) ->
  (autoCommit db = true -> isTransactionSavepoint db = false /\ pSavepoint db = [] /\ nSavepoint db = 0) ->
  exists db', sqlite3VdbeHalt e db p = (done_writing db', set_halted p, halt_code (vm_rc p)) /\ all_undone db db'.
Proof.
  intros Hp Hw Hs Hsc Hwhy Hout. apply Z.eqb_neq in Hsc.
  enough (exists db', halt_reader e db p = (db', p, false) /\ all_undone db db') as (db' & Hh & Hu).
  { exists db'. split; [|done]. apply halt_writer; [done..|apply Hp|apply Hp]. }
  unfold halt_reader, halt_special, halt_commit. rewrite (check_clean p Hp), (wt_readOnly p Hp), (eo_sync e He).
  cbn [negb orb]. rewrite andb_true_r. unfold halt_statement. rewrite Hs.
  destruct (is_special (vm_rc p)) eqn:Hsp.
  - destruct (((Z.land (vm_rc p) 255 =? SQLITE_NOMEM) || (Z.land (vm_rc p) 255 =? SQLITE_FULL)) && vm_usesStmtJournal p).
    + destruct Hwhy as [|Hau]; [done|]. destruct (Hout Hau) as (? & ? & ?). rewrite Hau, Hw, Hsc. cbn [andb Z.eqb Pos.eqb]. eexists. split; [done|].
      cbn. repeat split; auto.
    + cbn. rewrite Hw, Hsc. cbn. eexists. split; [done|]. cbn. repeat split; auto.
  - destruct (autoCommit db) eqn:Hau.
    + destruct (Hout eq_refl) as (? & ? & ?). rewrite Hw, Hsc. cbn [andb Z.eqb Pos.eqb]. eexists. split; [done|]. cbn. repeat split; auto.
    + destruct Hwhy as [|[Hf Ha]]; [done|]. cbn [andb Z.eqb]. unfold succeeded in Hs. rewrite Hsp, andb_true_r in Hs. rewrite Hs, Ha. eexists. split; [done|].
      cbn. repeat split; auto.
Qed.

(** A statement in auto-commit mode commits. *)
Lemma halt_commits_write (db : Conn) p :
  writer p -> autoCommit db = true -> nVdbeWrite db = 1 -> corruptRdOnly db = false -> succeeded p = true ->
  sqlite3VdbeHalt e db p =
    if nDeferredCons db + nDeferredImmCons db =? 0 then
      let '(files, rc) := vdbeCommit (aDb db) in
      if rc =? SQLITE_OK then (done_writing (set_nStatement (set_deferred (set_aDb db files) 0 0) 0), set_halted p, halt_code (vm_rc p))
      else (done_writing (set_nStatement (sqlite3RollbackAll (set_aDb db files)) 0), set_halted (set_rc p rc), halt_code rc)
    else (done_writing (set_nStatement (sqlite3RollbackAll db) 0), set_halted (set_error p SQLITE_CONSTRAINT_FOREIGNKEY OE_Abort), SQLITE_OK).
Proof.
  intros Hp Hau Hw Hcr Hs. unfold sqlite3VdbeHalt. rewrite (eo_malloc e He), (wt_reader p Hp). unfold halt_reader, halt_special, halt_commit.
  rewrite (check_clean p Hp), (succeeded_plain p Hs), (wt_readOnly p Hp), (eo_sync e He). cbn [andb negb]. rewrite Hau, Hw, Hs, Hcr.
  unfold sqlite3VdbeCheckFkDeferred. cbn [andb Z.eqb Pos.eqb]. destruct (nDeferredCons db + nDeferredImmCons db =? 0).
  - change (negb (SQLITE_OK =? SQLITE_OK)) with false. destruct (vdbeCommit (aDb db)) as [files rc]. rewrite (wt_readOnly p Hp), andb_false_r.
    destruct Hp as [Hro Hrd _]. destruct p. cbn in Hro, Hrd. subst. by destruct (rc =? SQLITE_OK).
  - destruct Hp as [Hro Hrd _]. destruct p. cbn in Hro, Hrd. by subst.
Qed.

(** ** The state of a statement that writes *)

(** A statement outside a transaction has one of its own. *)
Definition txn_of (a : Tx) : Txn := default (mkTxn C (x_now a) None []) (x_txn a).

Definition push (v : Savepoint) (now : list C) (T : Txn) : Txn := mkTxn C (t_start T) (t_outer T) ((v, now) :: t_saves T).

(** [T] has the statement's own savepoint, if it opened one; in a transaction it does so
    before it changes something. *)
Definition stmt_savepoint (a : Tx) (w : WriteStmt) (T : Txn) (now : list C) (cons : Z * Z) (db : Conn) (p : VM) : Prop :=
  (T = txn_of a /\ vm_iStatement p = 0 /\ nStatement db = 0 /\
     (is_Some (x_txn a) -> wr_usesStmtJournal w = true -> now = x_now a /\ cons = x_cons a)) \/
  (exists v, T = push v (x_now a) (txn_of a) /\ vm_iStatement p = Zlen (t_saves (txn_of a)) + 1 /\ nStatement db = 1 /\
     (vm_nStmtDefCons p, vm_nStmtDefImmCons p) = x_cons a).

Record writing (a : Tx) (w : WriteStmt) (T : Txn) (now : list C) (cons : Z * Z) (db : Conn) (p : VM) : Prop := {
  wg_write : nVdbeWrite db = 1;
  wg_read : 1 <= nVdbeRead db;
  wg_cons : (nDeferredCons db, nDeferredImmCons db) = cons;
  wg_txn : txn_ok db a;
  wg_len : length now = length (x_now a);
  wg_stmt : stmt_savepoint a w T now cons db p;
  wg_files : agrees (Some T) now (aDb db)
}.

Lemma close_files_ok op i f (ss : list S) : Forall (fun s => close_file op i s = (f s, SQLITE_OK)) ss -> close_files op i SQLITE_OK ss = (f <$> ss, SQLITE_OK).
Proof. induction 1 as [|s ss Hs _ IH]; [done|]. cbn [close_files]. rewrite Hs. change (if SQLITE_OK =? SQLITE_OK then SQLITE_OK else SQLITE_OK) with SQLITE_OK. by rewrite IH. Qed.

Lemma close_release T now ss i : 0 <= i -> agrees T now ss -> close_files SAVEPOINT_RELEASE i SQLITE_OK ss = (release_file i <$> ss, SQLITE_OK).
Proof.
  intros Hi Ha. apply close_files_ok, Forall_lookup. intros j s Hs. destruct (agrees_lookup _ _ _ _ _ Ha Hs) as (c & t & _ & Ht & _).
  unfold close_file, release_file. cbn. by destruct (law_release s c t i Hi Ht) as (s' & -> & _).
Qed.

Lemma close_rollback T now ss i :
  0 <= i -> agrees T now ss -> close_files SAVEPOINT_ROLLBACK i SQLITE_OK ss = (release_file i <$> (rollback_file i <$> ss), SQLITE_OK).
Proof.
  intros Hi Ha. rewrite <- list_fmap_compose. apply close_files_ok, Forall_lookup. intros j s Hs.
  destruct (agrees_lookup _ _ _ _ _ Ha Hs) as (c & t & _ & Ht & _). unfold close_file, compose, rollback_file, release_file. cbn.
  destruct (law_back s c t i ltac:(lia) Ht) as (s' & -> & Hs'). cbn. by destruct (law_release _ _ _ i Hi Hs') as (s'' & -> & _).
Qed.

Lemma txn_lengths (db : Conn) a : txn_ok db a -> length (t_start (txn_of a)) = length (x_now a).
Proof. unfold txn_ok, txn_of. destruct (x_txn a) as [T|]; [|done]. intros (_ & _ & _ & _ & Hl). by apply Forall_cons in Hl as [? _]. Qed.

Lemma agrees_drop v (T : Txn) now c ss : agrees (Some (push v c T)) now ss -> agrees (Some T) now (release_file (Zlen (t_saves T)) <$> ss).
Proof. intros Ha. destruct T as [st o sv]. exact (agrees_release (push v c (mkTxn C st o sv)) [(v, c)] sv now ss eq_refl Ha). Qed.

Lemma closes_release a w T now cons db p : writing a w T now cons db p ->
  exists ss, closes SAVEPOINT_RELEASE db p (set_nStatement (set_aDb db ss) 0) /\ agrees (Some (txn_of a)) now ss.
Proof.
  intros [Hw Hr Hc Ht Hl Hs Hf]. unfold closes, sqlite3VdbeCloseStatement, ended. destruct Hs as [(-> & Hi & Hn & _)|(v & -> & Hi & Hn & Hd)].
  - exists (aDb db). split; [|done]. rewrite Hn, Hi. destruct db, p. cbn in *. by subst.
  - exists (release_file (Zlen (t_saves (txn_of a))) <$> aDb db). split; [|by eapply agrees_drop]. rewrite Hn, Hi.
    unfold vdbeCloseStatement. rewrite Hi. replace (Zlen (t_saves (txn_of a)) + 1 - 1) with (Zlen (t_saves (txn_of a))) by lia.
    rewrite (close_release _ _ _ (Zlen (t_saves (txn_of a))) (Nat2Z.is_nonneg _) Hf), Hn. unfold truth. rewrite (proj2 (Z.eqb_neq (Zlen (t_saves (txn_of a)) + 1) 0)) by (unfold Zlen; lia).
    cbn. by rewrite (eo_vtab e He).
Qed.

Lemma closes_rollback a w T now cons db p : writing a w T now cons db p -> is_Some (x_txn a) ->
  wr_usesStmtJournal w = true \/ (now = x_now a /\ cons = x_cons a) ->
  exists ss, closes SAVEPOINT_ROLLBACK db p (set_deferred (set_nStatement (set_aDb db ss) 0) (x_cons a).1 (x_cons a).2) /\ agrees (Some (txn_of a)) (x_now a) ss.
Proof.
  intros [Hw Hr Hc Ht Hl Hs Hf] Hin Hun. unfold closes, sqlite3VdbeCloseStatement, ended. destruct Hs as [(-> & Hi & Hn & Hj)|(v & -> & Hi & Hn & Hd)].
  - assert (now = x_now a /\ cons = x_cons a) as [-> ->] by (destruct Hun; auto). exists (aDb db). split; [|done]. rewrite Hn, Hi, <- Hc. destruct db, p. cbn in *. by subst.
  - exists (release_file (Zlen (t_saves (txn_of a))) <$> (rollback_file (Zlen (t_saves (txn_of a))) <$> aDb db)). split.
    + rewrite Hn, Hi. unfold vdbeCloseStatement. rewrite Hi. replace (Zlen (t_saves (txn_of a)) + 1 - 1) with (Zlen (t_saves (txn_of a))) by lia.
      rewrite (close_rollback _ _ _ (Zlen (t_saves (txn_of a))) (Nat2Z.is_nonneg _) Hf), Hn, <- Hd. unfold truth. rewrite (proj2 (Z.eqb_neq (Zlen (t_saves (txn_of a)) + 1) 0)) by (unfold Zlen; lia).
      cbn. rewrite !(eo_vtab e He). done.
    + eapply agrees_drop. unfold push. eapply (agrees_back (push v (x_now a) (txn_of a)) []); [done|done|exact Hf].
Qed.

Lemma undone_files a w T now cons db p db' : writing a w T now cons db p -> all_undone db db' -> agrees None (t_start (txn_of a)) (aDb db').
Proof.
  intros [Hw Hr Hc Ht Hl Hs Hf] (_ & _ & _ & _ & _ & _ & _ & _ & _ & _ & Hfiles).
  assert (agrees None (t_start (txn_of a)) (sqlite3BtreeRollback <$> aDb db)) as Hg.
  { pose proof (txn_lengths db a Ht). apply agrees_rollback in Hf; destruct Hs as [(-> & _)|(v & -> & _)]; cbn in *; congruence || done. }
  destruct Hfiles as [->| ->]; [done|]. by apply agrees_rollback_none.
Qed.

(** ** How a write ends *)

Lemma effect_cases (w : WriteStmt) p :
  vm_rc p = write_rc w -> vm_errorAction p = write_action w -> vm_usesStmtJournal p = wr_usesStmtJournal w ->
  let full := ((Z.land (vm_rc p) 0xff =? SQLITE_NOMEM) || (Z.land (vm_rc p) 0xff =? SQLITE_FULL)) && vm_usesStmtJournal p in
  match write_effect w with
  | Kept => succeeded p = true
  | Undone => succeeded p = false /\ (if is_special (vm_rc p) then full else vm_errorAction p =? OE_Abort) = true
  | AllUndone => succeeded p = false /\ if is_special (vm_rc p) then full = false else (vm_errorAction p =? OE_Fail) = false /\ (vm_errorAction p =? OE_Abort) = false
  end.
Proof.
  intros Hrc Hac Hj full. unfold full, succeeded, write_effect, special_effect. rewrite Hrc, Hac, Hj. destruct (write_rc w =? SQLITE_OK) eqn:Ho; [done|].
  destruct (is_special (write_rc w)) eqn:Hs.
  - destruct (((Z.land (write_rc w) 255 =? SQLITE_NOMEM) || (Z.land (write_rc w) 255 =? SQLITE_FULL)) && wr_usesStmtJournal w); by rewrite andb_false_r.
  - destruct (write_action w =? OE_Fail) eqn:Hf; [done|]. by destruct (write_action w =? OE_Abort).
Qed.

Lemma refines_undone a w T now cons db p db' : writing a w T now cons db p -> all_undone db db' -> refines (done_writing db') (mkTx C (t_start (txn_of a)) (0, 0) None).
Proof.
  intros Hg Hu. pose proof (undone_files _ _ _ _ _ _ _ _ Hg Hu) as Hf. destruct Hu as (H1 & H2 & H3 & H4 & H5 & H6 & H7 & H8 & H9 & H10 & _).
  destruct Hg as [Hw Hr _ _ _ _ _]. split; try done; cbn -[Z.sub]; [lia|lia|congruence].
Qed.

Section Ending.
Context (a : Tx) (w : WriteStmt) (g : C -> C) (T : Txn) (db : Conn) (p : VM).
Let now : list C := alter g (wr_file w) (x_now a).
Let cons : Z * Z := ((x_cons a).1 + wr_cons w, (x_cons a).2 + wr_immcons w).
Hypothesis Hg : writing a w T now cons db p.
Hypothesis Hp : writer p.
Hypothesis Hrc : vm_rc p = write_rc w.
Hypothesis Hac : vm_errorAction p = write_action w.
Hypothesis Hj : vm_usesStmtJournal p = wr_usesStmtJournal w.
Hypothesis Hsc : write_rc w <> SQLITE_SCHEMA.

Definition ends : Prop :=
  exists db' p' a', sqlite3VdbeHalt e db p = (db', p', halt_code (vm_rc p')) /\ vm_halted p' = true /\
    spec_step (Write w g) a a' (vm_rc p') /\ refines db' a'.

Lemma ends_inside T0 :
  x_txn a = Some T0 -> wr_usesStmtJournal w = true \/ write_effect w <> Undone \/ ((forall c, g c = c) /\ wr_cons w = 0 /\ wr_immcons w = 0) -> ends.
Proof.
  intros Ha Hun. pose proof (wg_txn _ _ _ _ _ _ _ Hg) as Ht. unfold txn_ok in Ht. rewrite Ha in Ht. destruct Ht as (Hau & Hits & Hps & Hns & Hls).
  assert (txn_of a = T0) as HT by (unfold txn_of; by rewrite Ha). pose proof (effect_cases w p Hrc Hac Hj) as He'. unfold ends.
  pose proof (sp_write a T0 w g Ha) as Hstep. unfold spec_write in Hstep. rewrite <- Hrc in Hstep. destruct (write_effect w) eqn:Hef.
  - destruct (closes_release _ _ _ _ _ _ _ Hg) as (ss & Hc & Hf). rewrite HT in Hf. eexists _, (set_halted (ended p)), _. split; [exact (halt_kept _ _ _ Hp Hau He' Hc)|].
    split; [done|]. split; [exact Hstep|]. destruct Hg as [Hw Hr Hcons _ Hl _ _].
    split; [cbn -[Z.sub]; lia|cbn -[Z.sub]; lia|done|done| |done]. unfold now in Hl. cbn. rewrite Hl. by repeat split.
  - destruct He' as [Hsu Hwhy]. destruct (closes_rollback _ _ _ _ _ _ _ Hg) as (ss & Hc & Hf); [by rewrite Ha| |].
    { destruct Hun as [Hun|[|(Hid & Hz1 & Hz2)]]; [by left|done|right]. split; [|unfold cons; rewrite Hz1, Hz2, !Z.add_0_r; by destruct (x_cons a)].
      unfold now. clear -Hid. generalize (wr_file w) as i. induction (x_now a) as [|c l IH]; intros [|i]; cbn; [done..|by rewrite Hid|by f_equal]. }
    rewrite HT in Hf. eexists _, (set_halted (ended p)), _. split; [exact (halt_undone _ _ _ Hp Hau Hsu Hc Hwhy)|].
    split; [done|]. split; [exact Hstep|]. destruct Hg as [Hw Hr Hcons _ Hl _ _].
    split; [cbn -[Z.sub]; lia|cbn -[Z.sub]; lia|done|by destruct (x_cons a)|unfold txn_ok; by rewrite Ha|by rewrite Ha].
  - destruct He' as [Hsu Hwhy]. destruct (halt_all_undone db p Hp) as (db' & Hh & Hu); [apply Hg|done|by rewrite Hrc| |by rewrite Hau|].
    { destruct (is_special (vm_rc p)); [by left|by right]. }
    eexists _, (set_halted p), _. split; [exact Hh|]. split; [done|]. split; [exact Hstep|]. unfold spec_rollback. rewrite <- HT. by eapply refines_undone.
Qed.

Lemma undone_outside db' :
  x_txn a = None -> writing a w T now cons db' p -> refines (done_writing (set_nStatement (sqlite3RollbackAll db') 0)) a.
Proof.
  intros Ha Hg'. pose proof (wg_txn _ _ _ _ _ _ _ Hg') as Ht. unfold txn_ok in Ht. rewrite Ha in Ht. destruct Ht as (Hau & Hc & Hits & Hps & Hns & Hcr).
  assert (a = mkTx C (t_start (txn_of a)) (0, 0) None) as Ea by (unfold txn_of; rewrite Ha; destruct a; cbn in *; by subst).
  rewrite Ea. eapply (refines_undone _ _ _ _ _ db'); [exact Hg'|]. cbn. repeat split; auto.
Qed.

Lemma ends_outside : x_txn a = None -> ends.
Proof.
  intros Ha. pose proof (wg_txn _ _ _ _ _ _ _ Hg) as Ht. unfold txn_ok in Ht. rewrite Ha in Ht. destruct Ht as (Hau & Hcons & Hits & Hps & Hns & Hcr).
  pose proof (effect_cases w p Hrc Hac Hj) as He'. unfold ends.
  destruct (succeeded p) eqn:Hsu.
  - assert (write_effect w = Kept) as Hk by (destruct (write_effect w); [done|by destruct He'..]).
    rewrite (halt_commits_write db p Hp Hau (wg_write _ _ _ _ _ _ _ Hg) Hcr Hsu). pose proof (wg_cons _ _ _ _ _ _ _ Hg) as Hc.
    unfold cons in Hc. rewrite Hcons in Hc. injection Hc as Hc1 Hc2. cbn [fst snd Z.add] in Hc1, Hc2.
    destruct (Z.eqb_spec (nDeferredCons db + nDeferredImmCons db) 0) as [Hz|Hz].
    + destruct (vdbeCommit (aDb db)) as [files rc] eqn:Hv. destruct (agrees_commit _ _ _ _ _ (wg_files _ _ _ _ _ _ _ Hg) Hv) as [Hok Hbad].
      destruct (Z.eqb_spec rc SQLITE_OK) as [Ho|Ho].
      * eexists _, (set_halted p), _. split; [done|]. split; [done|]. split; [cbn [vm_rc set_halted]; rewrite Hrc; apply sp_write_commits; [done..|lia]|].
        specialize (Hok Ho). destruct Hg as [Hw Hr _ _ _ _ _]. split; try done; cbn -[Z.sub]; lia.
      * eexists _, (set_halted (set_rc p rc)), a. split; [done|]. split; [done|]. split; [by apply sp_write_fails|].
        apply undone_outside; [done|]. destruct (Hbad Ho) as [Hf _]. by destruct Hg as [? ? ? ? ? ? _].
    + eexists _, (set_halted (set_error p SQLITE_CONSTRAINT_FOREIGNKEY OE_Abort)), a. split; [done|]. split; [done|]. split; [by apply sp_write_fails|].
      by apply undone_outside.
  - assert (vm_rc p <> SQLITE_OK) as Hno by (intros E; unfold succeeded in Hsu; by rewrite E in Hsu).
    destruct (halt_all_undone db p Hp) as (db' & Hh & Hu); [apply Hg|done|by rewrite Hrc| |done|].
    { destruct (is_special (vm_rc p)); [by right|by left]. }
    eexists _, (set_halted p), a. split; [exact Hh|]. split; [done|]. split; [by apply sp_write_fails|].
    assert (a = mkTx C (t_start (txn_of a)) (0, 0) None) as Ea by (unfold txn_of; rewrite Ha; destruct a; cbn in *; by subst).
    rewrite Ea. by eapply refines_undone.
Qed.

End Ending.

(** ** How a write begins *)

Lemma refused_ends a w db rc :
  writing a w (txn_of a) (x_now a) (x_cons a) db (set_rc (write_vm w) rc) -> rc <> SQLITE_OK -> rc <> SQLITE_SCHEMA ->
  exists db' p', sqlite3VdbeHalt e db (set_rc (write_vm w) rc) = (db', p', halt_code rc) /\ vm_halted p' = true /\ vm_rc p' = rc /\
    refines db' (spec_refused (wr_usesStmtJournal w) rc a).
Proof.
  intros Hg Ho Hsc. set (p := set_rc (write_vm w) rc) in *. assert (succeeded p = false) as Hs.
  { unfold succeeded, p. cbn [vm_rc vm_errorAction set_rc write_vm]. by rewrite (proj2 (Z.eqb_neq rc SQLITE_OK)). }
  assert (writer p) as Hp by (split; [done..|by rewrite Hs]). unfold spec_refused. pose proof (wg_txn _ _ _ _ _ _ _ Hg) as Ht. unfold txn_ok in Ht.
  destruct (x_txn a) as [T|] eqn:Ha.
  - destruct Ht as (Hau & Hits & Hps & Hns & Hls). assert (txn_of a = T) as HT by (unfold txn_of; by rewrite Ha).
    assert ((if is_special rc then match special_effect (wr_usesStmtJournal w) rc with AllUndone => spec_rollback T | _ => a end else a) =
      (if (if is_special rc then ((Z.land rc 0xff =? SQLITE_NOMEM) || (Z.land rc 0xff =? SQLITE_FULL)) && wr_usesStmtJournal w else true) then a else spec_rollback T)) as ->.
    { unfold special_effect. destruct (is_special rc); [|done].
      by destruct (((Z.land rc 255 =? SQLITE_NOMEM) || (Z.land rc 255 =? SQLITE_FULL)) && wr_usesStmtJournal w). }
    destruct (if is_special rc then _ else true) eqn:Hwhy.
    + destruct (closes_rollback _ _ _ _ _ _ _ Hg) as (ss & Hc & Hf); [by rewrite Ha|by right|].
      exists (done_writing (set_deferred (set_nStatement (set_aDb db ss) 0) (x_cons a).1 (x_cons a).2)), (set_halted (ended p)).
      split; [exact (halt_undone _ _ _ Hp Hau Hs Hc Hwhy)|]. split; [done|]. split; [done|]. destruct Hg as [Hw Hr Hcons _ Hl _ _].
      split; [cbn -[Z.sub]; lia|cbn -[Z.sub]; lia|done|by destruct (x_cons a)|unfold txn_ok; by rewrite Ha|by rewrite Ha, <- HT].
    + destruct (halt_all_undone db p Hp) as (db' & Hh & Hu); [apply Hg|done..| |by rewrite Hau|].
      { cbn [vm_rc vm_usesStmtJournal set_rc p write_vm]. destruct (is_special rc); [by left|done]. }
      exists (done_writing db'), (set_halted p). split; [exact Hh|]. split; [done|]. split; [done|]. unfold spec_rollback. rewrite <- HT. by eapply refines_undone.
  - destruct Ht as (Hau & Hcons & Hits & Hps & Hns & Hcr).
    destruct (halt_all_undone db p Hp) as (db' & Hh & Hu); [apply Hg|done..| |done|].
    { destruct (is_special (vm_rc p)); [by right|by left]. }
    exists (done_writing db'), (set_halted p). split; [exact Hh|]. split; [done|]. split; [done|].
    assert (a = mkTx C (t_start (txn_of a)) (0, 0) None) as Ea by (unfold txn_of; rewrite Ha; destruct a; cbn in *; by subst).
    rewrite Ea at 1. by eapply refines_undone.
Qed.

(** A machine without a statement savepoint, on other files. *)
Lemma writing_files a w db p p' ss :
  writing a w (txn_of a) (x_now a) (x_cons a) db p -> vm_iStatement p = 0 -> vm_iStatement p' = 0 -> agrees (Some (txn_of a)) (x_now a) ss ->
  writing a w (txn_of a) (x_now a) (x_cons a) (set_aDb db ss) p'.
Proof.
  intros [Hw Hr Hc Ht Hl Hs _] Hi Hi' Hf. split; try done. destruct Hs as [(_ & _ & Hn & Hx)|(v & _ & Hi2 & _)]; [by left|].
  rewrite Hi in Hi2. unfold Zlen in Hi2. lia.
Qed.

Lemma writing_starts db a w : refines db a -> writing a w (txn_of a) (x_now a) (x_cons a) (start db (write_vm w)) (write_vm w).
Proof.
  intros [Hw Hr Hst Hcons Ht Hf]. split; try done; [cbn; by rewrite Hw|cbn -[Z.add]; lia|left; repeat split; auto|].
  unfold txn_of. destruct (x_txn a); [done|]. by apply agrees_open.
Qed.

Lemma saves_txn_of (db : Conn) a : txn_ok db a -> nSavepoint db = Zlen (t_saves (txn_of a)).
Proof. unfold txn_ok, txn_of. intros Ht. destruct (x_txn a); [by destruct Ht as (_ & _ & _ & -> & _)|by destruct Ht as (_ & _ & _ & _ & -> & _)]. Qed.

(** Either the statement may not begin, or file [i] is open. *)
Inductive begins (a : Tx) (w : WriteStmt) (i : nat) : Conn * VM * after -> Prop :=
  | begins_busy db rc : rc <> SQLITE_OK -> rc <> SQLITE_SCHEMA -> writing a w (txn_of a) (x_now a) (x_cons a) db (set_rc (write_vm w) rc) ->
      begins a w i (db, set_rc (write_vm w) rc, VdbeReturn rc)
  | begins_not db rc : rc <> SQLITE_OK -> rc <> SQLITE_SCHEMA ->
      (forall rc, writing a w (txn_of a) (x_now a) (x_cons a) db (set_rc (write_vm w) rc)) -> begins a w i (db, write_vm w, AbortDueToError rc)
  | begins_open db T s ist cons imm : aDb db !! i = Some s -> open_at T i (x_now a) s ->
      writing a w T (x_now a) (x_cons a) db (set_statement (write_vm w) ist cons imm) ->
      (forall now' cons', stmt_savepoint a w T now' cons' db (set_statement (write_vm w) ist cons imm)) ->
      (wr_usesStmtJournal w = false -> T = txn_of a /\ ist = 0 /\ cons = 0 /\ imm = 0) ->
      begins a w i (db, set_statement (write_vm w) ist cons imm, Next).

Lemma write_begins db a w i : writing a w (txn_of a) (x_now a) (x_cons a) db (write_vm w) -> (i < length (aDb db))%nat ->
  exists r, OP_Transaction e i db (write_vm w) = Some r /\ begins a w i r.
Proof.
  intros Hg [s Hs]%lookup_lt_is_Some. unfold OP_Transaction. pose proof (saves_txn_of db a (wg_txn _ _ _ _ _ _ _ Hg)) as Hn.
  destruct (ve_queryOnly e || corruptRdOnly db).
  { eexists. split; [done|]. apply begins_not; [by destruct (ve_queryOnly e)..|]. intros rc. destruct db. by apply (writing_files _ _ _ _ _ aDb Hg); [..|apply Hg]. }
  rewrite Hs, Hn. cbn [mbind option_bind]. destruct (sqlite3BtreeBeginTrans s (Zlen (t_saves (txn_of a)))) as [s' rc] eqn:Hb.
  destruct (agrees_begin _ _ _ _ _ _ _ (wg_files _ _ _ _ _ _ _ Hg) Hs Hb) as (Hf' & Hop & Hsc). destruct (Z.eqb_spec rc SQLITE_OK) as [Ho|Ho]; cbn [negb].
  - specialize (Hop Ho). assert (<[i := s']> (aDb db) !! i = Some s') as Hs' by (apply list_lookup_insert_eq; by eapply lookup_lt_Some).
    assert (nStatement db = 0) as Hst.
    { destruct Hg as [_ _ _ _ _ [(_ & _ & ? & _)|(v & _ & Hi & _)] _]; [done|]. cbn in Hi. unfold Zlen in Hi. lia. }
    cbn [vm_usesStmtJournal vm_iStatement write_vm Z.eqb]. fields.
    destruct (wr_usesStmtJournal w && (negb (autoCommit db) || (1 <? nVdbeRead db))) eqn:Hj.
    + rewrite Hst, (eo_vtab e He), Hn. change (0 + 1) with 1. cbn [Z.eqb SQLITE_OK].
      destruct (agrees_stmt (mkSavepoint [] 0 0) _ _ _ _ _ Hf' Hop) as (s'' & -> & Hf'' & Hop'').
      eexists. split; [done|]. destruct Hg as [Hw1 Hw2 Hw3 Hw4 Hw5 _ _].
      match goal with |- begins _ _ _ (?d, set_statement _ ?i ?x ?y, _) =>
        assert (forall now' cons', stmt_savepoint a w (push (mkSavepoint [] 0 0) (x_now a) (txn_of a)) now' cons' d (set_statement (write_vm w) i x y)) as Hss end.
      { intros. right. eexists. split; [done|]. split; [done|]. split; [done|]. exact Hw3. }
      eapply (begins_open a w i _ (push (mkSavepoint [] 0 0) (x_now a) (txn_of a))); [|exact Hop''|by split|exact Hss|].
      * apply list_lookup_insert_eq. by eapply lookup_lt_Some.
      * intros E. by rewrite E in Hj.
    + eexists. split; [done|]. apply (begins_open a w i _ (txn_of a) s' 0 0 0); [done|done|by apply (writing_files a w db (write_vm w))| |done].
      intros now' cons'. left. split; [done|]. split; [done|]. split; [done|].
      intros [T Ha] Hjt. pose proof (wg_txn _ _ _ _ _ _ _ Hg) as Ht. unfold txn_ok in Ht. rewrite Ha in Ht. destruct Ht as [Hau _]. by rewrite Hjt, Hau in Hj.
  - destruct (Z.land rc 255 =? SQLITE_BUSY); (eexists; split; [done|]); [apply begins_busy|apply begins_not]; try done; [|intros rc'];
      by apply (writing_files a w db (write_vm w)).
Qed.

(** ** A whole write *)

(** The machine when the program ends, after the check of immediate foreign keys. *)
Definition at_end (w : WriteStmt) (i cons imm : Z) : VM := set_error (set_statement (write_vm w) i cons imm) (write_rc w) (write_action w).

Lemma end_checked w i cons imm :
  let p := set_error (set_statement (write_vm w) i cons imm) (end_rc w) (end_action w) in
  (if succeeded p then (sqlite3VdbeCheckFkImmediate p).1 else p) = at_end w i cons imm.
Proof.
  unfold at_end, write_rc, write_action, write_fails, succeeded, sqlite3VdbeCheckFkImmediate. fields.
  destruct ((end_rc w =? SQLITE_OK) || (end_action w =? OE_Fail) && negb (is_special (end_rc w))); [|done].
  change (vm_nFkConstraint (write_vm w)) with (wr_fk w). by destruct (wr_fk w =? 0).
Qed.

Lemma end_writer w i cons imm : writer (at_end w i cons imm).
Proof.
  split; [done..|]. unfold at_end, write_rc, write_action, write_fails, succeeded. fields. change (vm_nFkConstraint (write_vm w)) with (wr_fk w).
  destruct ((end_rc w =? SQLITE_OK) || (end_action w =? OE_Fail) && negb (is_special (end_rc w))) eqn:Es; cbn [andb]; [|by rewrite Es].
  by destruct (Z.eqb_spec (wr_fk w) 0).
Qed.

Lemma write_ends n a w g db T i cons imm s :
  stmt_ok n (Write w g) -> aDb db !! wr_file w = Some s -> open_at T (wr_file w) (x_now a) s ->
  writing a w T (x_now a) (x_cons a) db (set_statement (write_vm w) i cons imm) ->
  (forall now' cons', stmt_savepoint a w T now' cons' db (set_statement (write_vm w) i cons imm)) ->
  ends a w g (body w db) (at_end w i cons imm).
Proof.
  intros (_ & Hch & _ & Hsc & Hun) Hs Hop [Hw Hr Hc Ht Hl _ Hf] Hst.
  assert (write_rc w <> SQLITE_SCHEMA) as Hsc' by (unfold write_rc; by destruct (write_fails w)).
  assert (writing a w T (alter g (wr_file w) (x_now a)) ((x_cons a).1 + wr_cons w, (x_cons a).2 + wr_immcons w) (body w db) (at_end w i cons imm)) as Hg.
  { split; [done|done|by rewrite <- Hc|done|by rewrite length_alter|apply Hst|by eapply agrees_change]. }
  destruct (x_txn a) as [T0|] eqn:Ha; [by eapply ends_inside; eauto using end_writer|by eapply ends_outside; eauto using end_writer].
Qed.

Lemma finish_refused a w i db p act :
  begins a w i (db, p, act) -> act <> Next ->
  exists db' rc, finish e (db, p, act) = (db', rc) /\ rc <> SQLITE_OK /\ refines db' (spec_refused (wr_usesStmtJournal w) rc a).
Proof.
  intros Hb Hn. remember (db, p, act) as r eqn:Er. destruct Hb as [db1 rc Ho Hsc Hg|db1 rc Ho Hsc Hg|]; injection Er as <- <- <-; [| |done].
  - destruct (refused_ends _ _ _ _ Hg Ho Hsc) as (db' & p' & Hh & Hhalt & Hrc & Hr'). unfold finish, sqlite3VdbeReset.
    cbn [vm_halted set_rc write_vm]. change (mkVM rc _ _ _ _ _ _ _ _ _) with (set_rc (write_vm w) rc). rewrite Hh, Hrc. eauto.
  - set (rc' := if rc =? SQLITE_IOERR_CORRUPTFS then SQLITE_CORRUPT else rc).
    assert (rc' <> SQLITE_OK) as Ho' by (by unfold rc'; destruct (rc =? _)).
    destruct (refused_ends _ _ _ rc' (Hg rc')) as (db' & p' & Hh & Hhalt & Hrc & Hr'); [done|by unfold rc'; destruct (rc =? _)|].
    unfold finish, abort_due_to_error. rewrite (eo_malloc e He). fold rc'. cbn [vm_halted set_rc write_vm].
    change (mkVM rc' _ _ _ _ _ _ _ _ _) with (set_rc (write_vm w) rc'). rewrite Hh. cbn [fst]. unfold sqlite3VdbeReset. rewrite Hhalt, Hrc.
    eexists _, _. split; [done|]. split; [done|]. by apply refines_corrupt.
Qed.

Lemma run_write db a w g : refines db a -> stmt_ok (length (aDb db)) (Write w g) -> simulates e (Write w g) db a.
Proof.
  intros Hr Hok. unfold simulates. cbn [run]. unfold sql_write.
  destruct (write_begins (start db (write_vm w)) a w (wr_file w) (writing_starts db a w Hr) (proj1 Hok)) as ([[db1 p1] act] & -> & Hb). cbn [mbind option_bind].
  assert (act = Next \/ act <> Next) as [->|Hact] by (destruct act; auto); [|destruct (finish_refused _ _ _ _ _ _ Hb Hact) as (db' & rc & Hf & Hrc & Hr');
    exists db', rc, (spec_refused (wr_usesStmtJournal w) rc a); split; [destruct act; [done|by rewrite Hf..]|by split; [apply sp_write_refused|]]].
  remember (db1, p1, Next) as r eqn:Er. destruct Hb as [| |db2 T s i cons imm Hs Hop Hg Hst _]; [done..|injection Er as <- <-].
  - destruct (write_ends (length (aDb db)) a w g db2 T i cons imm s) as (db' & p' & a' & Hh & Hhalt & Hstep & Hr'); [done..|].
    rewrite <- end_checked, <- check_first in Hh by done. unfold end_rc, end_action in Hh. destruct Hok as (_ & _ & Hne & _).
    destruct (wr_ending w) as [rc act|rc].
    + unfold finish. cbn [vm_halted set_error set_statement write_vm]. change (mkVM rc act _ _ _ _ _ _ _ _) with (set_error (set_statement (write_vm w) i cons imm) rc act).
      rewrite Hh. exists db', (vm_rc p'), a'. split; [|done]. unfold sqlite3VdbeReset, halt_code.
      destruct (Z.eqb_spec (vm_rc p') SQLITE_BUSY) as [E|]; cbn; [by rewrite Hhalt, E|by rewrite Hhalt].
    + unfold finish, abort_due_to_error. rewrite (eo_malloc e He). cbn [vm_halted set_rc set_statement write_vm].
      match goal with |- context [sqlite3VdbeHalt e (body w db2) ?q] => change q with (set_error (set_statement (write_vm w) i cons imm) (if rc =? SQLITE_IOERR_CORRUPTFS then SQLITE_CORRUPT else rc) OE_Abort) end.
      rewrite Hh. cbn [fst]. unfold sqlite3VdbeReset. rewrite Hhalt. eexists _, _, _. split; [done|]. split; [done|]. by apply refines_corrupt.
Qed.

(** ** [BEGIN IMMEDIATE] *)

(** It is the beginning of a write without changes, on every file. *)
Definition no_write : WriteStmt := mkWriteStmt false 0%nat (fun s => s) 0 0 0 (Halts SQLITE_OK OE_Abort).

Lemma begins_each a files : forall db,
  Forall (fun i => (i < length (x_now a))%nat) files -> writing a no_write (txn_of a) (x_now a) (x_cons a) db begin_vm ->
  exists db' p' act, begin_files e files db begin_vm = Some (db', p', act) /\
    (act <> Next /\ (exists i, begins a no_write i (db', p', act)) \/
     act = Next /\ p' = begin_vm /\ writing a no_write (txn_of a) (x_now a) (x_cons a) db' begin_vm).
Proof.
  induction files as [|i files IH]; intros db Hfs Hg; [by exists db, begin_vm, Next; eauto|]. apply Forall_cons in Hfs as [Hi Hfs].
  rewrite <- (proj1 (wg_files _ _ _ _ _ _ _ Hg)) in Hi. destruct (write_begins db a no_write i Hg Hi) as ([[db1 p1] act] & Hop & Hb). cbn [begin_files].
  change (write_vm no_write) with begin_vm in Hop. rewrite Hop. cbn [mbind option_bind].
  assert (act = Next \/ act <> Next) as [->|Hact] by (destruct act; auto); [|exists db1, p1, act; split; [by destruct act|eauto]].
  remember (db1, p1, Next) as r eqn:Er. destruct Hb as [| |db2 T s ist cons imm Hs Hopn Hg' Hst Hnj]; [done..|injection Er as <- <-].
  destruct (Hnj eq_refl) as (-> & -> & -> & ->). by apply IH.
Qed.

Lemma run_begin_now db a : refines db a -> simulates e BeginNow db a.
Proof.
  intros Hr. unfold simulates. cbn [run]. unfold sql_begin_now.
  destruct (begins_each a (seq 0 (length (aDb db))) (start db begin_vm)) as (db1 & p1 & act & -> & Hb); [|exact (writing_starts db a no_write Hr)|].
  { apply Forall_forall. intros i [_ Hi]%elem_of_seq. by rewrite <- (proj1 (rf_files _ _ Hr)). }
  cbn [mbind option_bind]. destruct Hb as [(Hact & i & Hb)|(-> & -> & Hg)].
  { destruct (finish_refused _ _ _ _ _ _ Hb Hact) as (db' & rc & Hf & Hrc & Hr'). exists db', rc, (spec_refused false rc a).
    split; [destruct act; [done|by rewrite Hf..]|by split; [apply sp_begin_refused|]]. }
  unfold OP_AutoCommit. pose proof (wg_txn _ _ _ _ _ _ _ Hg) as Ht. unfold txn_ok in Ht. destruct (x_txn a) as [T|] eqn:Ha.
  - destruct Ht as [-> _]. cbn [eqb negb].
    destruct (finish_refused a no_write 0 db1 begin_vm (AbortDueToError SQLITE_ERROR)) as (db' & rc & Hf & Hrc & Hr'); [|done|].
    { apply begins_not; [done..|]. intros rc. destruct db1. by apply (writing_files _ _ _ _ _ aDb Hg); [..|apply Hg]. }
    rewrite Hf. exists db', rc, (spec_refused false rc a). split; [done|]. by split; [apply sp_begin_refused|].
  - destruct Ht as (-> & Hc & Hits & Hps & Hns & Hcr). cbn [eqb negb andb].
    assert (sqlite3VdbeCheckFkDeferred db1 begin_vm = (begin_vm, SQLITE_OK)) as ->.
    { unfold sqlite3VdbeCheckFkDeferred. pose proof (wg_cons _ _ _ _ _ _ _ Hg) as Hd. rewrite Hc in Hd. by injection Hd as -> ->. }
    cbn [negb Z.eqb SQLITE_OK]. rewrite (halt_kept (set_autoCommit db1 false) begin_vm (set_autoCommit db1 false)); [|done..|].
    + cbn. eexists _, _, _. split; [done|]. split; [by apply sp_begin_now|]. destruct Hg as [Hw Hrd Hd _ _ _ Hf].
      split; [cbn -[Z.sub]; lia|cbn -[Z.sub]; lia|done|done|cbn; repeat split; auto|unfold txn_of in Hf; by rewrite Ha in Hf].
    + unfold closes, sqlite3VdbeCloseStatement. destruct Hg as [_ _ _ _ _ [(_ & _ & Hn & _)|(v & _ & Hi & _)] _]; [cbn; by rewrite Hn|]. cbn in Hi. unfold Zlen in Hi. lia.
Qed.

(** ** The refinement *)

Lemma statement_refines db a st : refines db a -> stmt_ok (length (aDb db)) st -> simulates e st db a.
Proof.
  intros Hr Hok. destruct st; [by apply run_begin|by apply run_begin_now|by apply run_commit|by apply run_rollback|by apply run_set_savepoint|by apply run_release|
    by apply run_rollback_to|by apply run_write].
Qed.

End Write.
