(* ===== verification/SavepointProps.v ===== *)
(** * Scripts of transactions

    A sequence of statements run by the virtual machine does what the abstract
    transactions say; a storage that keeps snapshots shows that the laws can hold. *)
From stdpp Require Import strings.
From S2P Require Import Prelude Value Codes Record Strings Savepoint SavepointCorrect SavepointWrite.

Local Open Scope Z_scope.

(** ** Scripts *)

Section Scripts.
Context {S C : Type} `{StorageLaws S C}.
Notation Conn := (Conn (S := S)).
Notation Tx := (Tx (C := C)).
Notation stmt := (stmt (S := S) (C := C)).

Fixpoint run_all (e : VdbeEnv) (sts : list stmt) (db : Conn) : option (Conn * list Z) :=
  match sts with
  | [] => Some (db, [])
  | st :: sts => '(db, rc) ← run e st db; '(db, rcs) ← run_all e sts db; Some (db, rc :: rcs)
  end.

Inductive spec_steps : list stmt -> Tx -> Tx -> list Z -> Prop :=
  | steps_nil a : spec_steps [] a a []
  | steps_cons st sts a a' a'' rc rcs : spec_step st a a' rc -> spec_steps sts a' a'' rcs -> spec_steps (st :: sts) a a'' (rc :: rcs).

Lemma saves_length (db : Conn) a T s : refines db a -> x_txn a = Some T ->
  length (t_start T) = length (x_now a) /\ (forall zName c outer, find_save zName (t_saves T) = Some (s, c, outer) -> length c = length (x_now a)).
Proof.
  intros Hr Ha. destruct (txn_inside _ _ _ Hr Ha) as (_ & _ & _ & _ & Hls). apply Forall_cons in Hls as [Hl Hls]. split; [done|].
  intros zName c outer Hf. pose proof (find_save_spec zName (t_saves T) []) as Hs. rewrite Hf in Hs. destruct Hs as (inner & HT & _).
  rewrite HT, fmap_app in Hls. apply Forall_app in Hls as [_ Hls]. by apply Forall_cons in Hls as [? _].
Qed.

(** The number of files does not change. *)
Lemma step_length (db : Conn) a (st : stmt) a' rc : refines db a -> spec_step st a a' rc -> length (x_now a') = length (x_now a).
Proof.
  intros Hr Hst. assert (forall T, x_txn a = Some T -> length (t_start T) = length (x_now a)) as HT.
  { intros T Ha. by apply (saves_length db a T (mkSavepoint [] 0 0) Hr Ha). }
  assert (forall b rc, length (x_now (spec_refused b rc a)) = length (x_now a)) as Href.
  { intros b rc'. unfold spec_refused. destruct (x_txn a) as [T|]; [|done]. destruct (is_special rc'); [|done]. by destruct (special_effect b rc'); cbn; auto. }
  assert (forall failed a'' rc'', commits a failed a'' rc'' -> length (x_now failed) = length (x_now a) -> length (x_now a'') = length (x_now a)) as Hcm.
  { by intros failed a'' rc'' []. }
  destruct Hst; cbn; try done; try (by eapply Hcm; [eassumption|cbn; eauto]); try (by eauto).
  - unfold spec_savepoint. by destruct (x_txn a).
  - by eapply (saves_length db a T s).
  - unfold spec_write. destruct (write_effect w); cbn; [by rewrite length_alter|done|eauto].
  - by rewrite length_alter.
Qed.

(** C7: any sequence of [BEGIN], [COMMIT], [ROLLBACK], [SAVEPOINT], [RELEASE], [ROLLBACK TO]
    and writing statements runs to its end, and the codes and the contents of the files
    are those of the abstract transactions. *)
Theorem scripts_refine e sts : forall (db : Conn) a,
  env_ok e -> refines db a -> Forall (stmt_ok (length (aDb db))) sts ->
  exists db' rcs a', run_all e sts db = Some (db', rcs) /\ spec_steps sts a a' rcs /\ refines db' a'.
Proof.
  induction sts as [|st sts IH]; intros db a He Hr Hok; [by exists db, [], a; eauto using spec_steps|]. apply Forall_cons in Hok as [Hst Hok].
  destruct (statement_refines e He db a st Hr Hst) as (db1 & rc & a1 & Hrun & Hstep & Hr1).
  rewrite (proj1 (rf_files _ _ Hr)), <- (step_length _ _ _ _ _ Hr Hstep), <- (proj1 (rf_files _ _ Hr1)) in Hok.
  destruct (IH db1 a1 He Hr1 Hok) as (db' & rcs & a' & Hall & Hsteps & Hr').
  exists db', (rc :: rcs), a'. cbn. rewrite Hrun. cbn. rewrite Hall. eauto using spec_steps.
Qed.

End Scripts.

(** ** Snapshots *)

(** A file as its contents and the snapshots of its transaction; [sn_busy] says that
    another connection has it locked. *)
Record Snap {C : Type} := mkSnap { sn_now : C; sn_txn : txn C; sn_busy : bool }.

#[export] Instance snap_storage {C} : Storage (Snap (C := C)) := {
  sqlite3BtreeBeginTrans s n := if sn_busy s then (s, SQLITE_BUSY) else (mkSnap C (sn_now s) (opened n (sn_now s) (sn_txn s)) false, SQLITE_OK);
  sqlite3BtreeBeginStmt s n := (mkSnap C (sn_now s) (opened n (sn_now s) (sn_txn s)) (sn_busy s), SQLITE_OK);
  sqlite3BtreeSavepoint s op i :=
    (if op =? SAVEPOINT_ROLLBACK then mkSnap C (back i (sn_now s) (sn_txn s)) (keep (i + 1) (sn_txn s)) (sn_busy s)
     else mkSnap C (sn_now s) (keep i (sn_txn s)) (sn_busy s), SQLITE_OK);
  sqlite3BtreeRollback s := mkSnap C (origin (sn_now s) (sn_txn s)) None (sn_busy s);
  vdbeCommit ss :=
    if existsb (fun s => sn_busy s && bool_decide (is_Some (sn_txn s))) ss then (ss, SQLITE_BUSY) else ((fun s => mkSnap C (sn_now s) None (sn_busy s)) <$> ss, SQLITE_OK)
}.

#[export] Program Instance snap_laws {C} : StorageLaws (Snap (C := C)) C := {
  holds s c t := sn_now s = c /\ sn_txn s = t
}.
Next Obligation. intros C s c t n _ [<- <-]. cbn. by destruct (sn_busy s). Qed.
Next Obligation. intros C s c t n _ _ [<- <-]. by eexists. Qed.
Next Obligation. intros C s c t i _ [<- <-]. by eexists. Qed.
Next Obligation. intros C s c t i _ [<- <-]. by eexists. Qed.
Next Obligation. by intros C s c t [<- <-]. Qed.
Next Obligation.
  intros C ss cs ts Hh. cbn. destruct (existsb _ ss) eqn:Eb; cbn.
  - split; [done|]. clear -Hh Eb. induction Hh as [|s c t ss cs ts [<- <-] _ IH]; [done|]. cbn in Eb. apply orb_true_iff in Eb as [Eb|Eb]; [left|right; auto].
    apply andb_true_iff in Eb as [_ Eb]. by apply bool_decide_eq_true in Eb.
  - clear Eb. induction Hh as [|s c t ss cs ts [<- <-] _ IH]; [constructor|]. by constructor.
Qed.

(** One file with a list of numbers, and a statement that appends one. *)
Definition demo_env : VdbeEnv := mkVdbeEnv false false false (fun _ _ => SQLITE_OK) SQLITE_OK true.
Definition demo_db (busy : bool) : Conn (S := Snap) := mkConn _ true false [] 0 0 0 0 0 0 0 false [mkSnap (list Z) [] None busy].
Definition demo_tx : Tx (C := list Z) := mkTx _ [[]] (0, 0) None.
Definition demo_write (x : Z) (rc : Z) : stmt (S := Snap) (C := list Z) :=
  Write (mkWriteStmt true 0%nat (fun s => mkSnap _ (sn_now s ++ [x]) (sn_txn s) (sn_busy s)) 0 0 0 (Halts rc OE_Abort)) (fun l => l ++ [x]).
Definition demo_script : list (stmt (S := Snap) (C := list Z)) :=
  [Begin; demo_write 1 SQLITE_OK; SetSavepoint [115]; demo_write 2 SQLITE_OK; demo_write 3 SQLITE_CONSTRAINT; RollbackTo [83]; Release [115];
   demo_write 4 SQLITE_OK; Commit].

Lemma demo_env_ok : env_ok demo_env.
Proof. done. Qed.

Lemma demo_refines busy : refines (demo_db busy) demo_tx.
Proof. split; try done. split; [done|]. intros [|j] s c Hs Hc; [|done]. cbn in Hs, Hc. simplify_eq. by exists None. Qed.

Lemma demo_write_ok x rc : rc <> SQLITE_SCHEMA -> stmt_ok 1 (demo_write x rc).
Proof. intros Hrc. split; [cbn; lia|]. split; [by intros s c t _ [<- <-]|]. split; [done|]. split; [done|by left]. Qed.

Lemma scripts_refine_witness :
  (exists db' rcs a', run_all demo_env demo_script (demo_db false) = Some (db', rcs) /\ spec_steps demo_script demo_tx a' rcs /\ refines db' a') /\
  (prod_map (fun db => sn_now <$> aDb db) id <$> run_all demo_env demo_script (demo_db false)) = Some ([[1; 4]], [0; 0; 0; 0; 19; 0; 0; 0; 0]).
Proof.
  split; [|vm_compute; reflexivity]. apply (scripts_refine demo_env demo_script (demo_db false) demo_tx demo_env_ok (demo_refines false)).
  repeat apply Forall_cons_2; try apply Forall_nil_2; try exact I; by apply demo_write_ok.
Defined.
