(* ===== verification/JsTransaction.v ===== *)
(** * Transaction functions (lib/methods/transaction.js)

    [db.transaction(fn)]: the wrapper that begins, commits and rolls back around a
    function, as a transaction of its own or as a savepoint of the one that is open,
    over the virtual machine's transactions. *)
From stdpp Require Import strings.
From S2P Require Import Prelude Value Codes Record Strings Savepoint SavepointCorrect SavepointWrite SavepointProps.

Local Open Scope Z_scope.

Declare Scope js_scope.

(** ** Code that uses the connection and may throw *)

(** The connection with the fields of the addon's [Database] that the guards of a
    method read. *)
Record JsDb {S : Type} := mkJs {
  js_conn : Conn (S := S);
  js_open : bool;
  js_busy : bool;
  js_unsafe : bool;
  js_iterators : Z
}.
Arguments JsDb : clear implicits.

Definition set_conn {S} (db : JsDb S) (c : Conn (S := S)) : JsDb S := mkJs S c (js_open db) (js_busy db) (js_unsafe db) (js_iterators db).
Definition set_unsafe {S} (db : JsDb S) (b : bool) : JsDb S := mkJs S (js_conn db) (js_open db) (js_busy db) b (js_iterators db).

Section Monad.
Context {S E : Type}.

Definition js (A : Type) : Type := JsDb S -> option (JsDb S * (A + E)).

Definition js_ret {A} (v : A) : js A := fun db => Some (db, inl v).
Definition js_throw {A} (ex : E) : js A := fun db => Some (db, inr ex).
Definition js_bind {A B} (m : js A) (k : A -> js B) : js B :=
  fun db => '(db, r) ← m db; match r with inl v => k v db | inr ex => Some (db, inr ex) end.

(** [try { m } catch (ex) { h }]. *)
Definition js_catch {A} (m : js A) (h : E -> js A) : js A :=
  fun db => '(db, r) ← m db; match r with inl v => Some (db, inl v) | inr ex => h ex db end.

(** The getter [db.inTransaction]. *)
Definition inTransaction : js bool := fun db => Some (db, inl (js_open db && negb (autoCommit (js_conn db)))).

End Monad.

Notation "'let!' x := m 'in' k" := (js_bind m (fun x => k)) (at level 200, x name, m at level 100, k at level 200) : js_scope.
Notation "m ;; k" := (js_bind m (fun _ => k)) (at level 100, k at level 200, right associativity) : js_scope.
Local Open Scope js_scope.

(** ** The wrapper *)

(** What surrounds the execution of a statement: the exceptions, the verbose logger
    (called with the statement and the option [unsafeMode], which it may change,
    while the connection is busy), whether the statement is a write that changes
    rows, and what [Statement::NotifyCdc] does to the connection when it reads the
    recorded changes. *)
Record RunEnv {S C E : Type} := mkRunEnv {
  re_not_open : E;
  re_is_busy : E;
  re_type_error : E;
  re_sqlite_error : Z -> E;
  re_logger : stmt (S := S) (C := C) -> bool -> bool * option E;
  re_writes : stmt (S := S) (C := C) -> bool;
  re_notify : Conn (S := S) -> Conn (S := S)
}.
Arguments RunEnv : clear implicits.

Section Transaction.
Context {S C : Type} `{Storage S}.
Context {V E : Type}.
Notation stmt := (stmt (S := S) (C := C)).
Notation js := (js (S := S) (E := E)).
Variable thenable : V -> bool.
Variable x : RunEnv S C E.
Variable e : VdbeEnv.

(** [run()] without arguments of a statement that returns no data: such a statement
    is never locked.  The guards come first; then the logger, which may throw; then
    the statement executes, and an error of [sqlite3_reset] is thrown.  After a write
    that changed rows, or when a transaction has ended, the cache is notified.  The
    connection is busy from the logger on to the end. *)
Definition stmt_run (st : stmt) : js unit :=
  fun db =>
    if negb (js_open db) then Some (db, inr (re_not_open x))
    else if js_busy db then Some (db, inr (re_is_busy x))
    else if negb (js_unsafe db) && negb (js_iterators db =? 0) then Some (db, inr (re_is_busy x))
    else
      let '(unsafe, threw) := re_logger x st (js_unsafe db) in
      let db := set_unsafe db unsafe in
      match threw with
      | Some ex => Some (db, inr ex)
      | None =>
          '(c, rc) ← run e st (js_conn db);
          if rc =? SQLITE_OK then
            let c := if re_writes x st || (negb (autoCommit (js_conn db)) && autoCommit c) then re_notify x c else c in
            Some (set_conn db c, inl tt)
          else Some (set_conn db c, inr (re_sqlite_error x rc))
      end.

Record Controller := mkController {
  begin : stmt;
  commit : stmt;
  rollback : stmt;
  savepoint : stmt;
  release : stmt;
  rollbackTo : stmt
}.

(** The name between backquotes: a tab, [_bs3.] and a tab. *)
Definition bs3 : list Z := [9; 95; 98; 115; 51; 46; 9].

(** The versions of the transaction function differ in the statement that begins. *)
Inductive version := Default | Deferred | Immediate | Exclusive.

Definition getController (v : version) : Controller :=
  mkController (match v with Default | Deferred => Begin | Immediate | Exclusive => BeginNow end)
    Commit Rollback (SetSavepoint bs3) (Release bs3) (RollbackTo bs3).

Definition wrapTransaction (c : Controller) (fn : js V) : js V :=
  let! nested := inTransaction in
  let '(before, after, undo) := if nested : bool then (savepoint c, release c, rollbackTo c) else (begin c, commit c, rollback c) in
  stmt_run before ;;
  js_catch
    (let! result := fn in
     if thenable result then js_throw (re_type_error x) else stmt_run after ;; js_ret result)
    (fun ex =>
       let! open := inTransaction in
       if open : bool then stmt_run undo ;; (if nested then stmt_run after else js_ret tt) ;; js_throw ex
       else js_throw ex).

(** [transaction(fn)]; an argument that is not a function is [None]. *)
Definition transaction (fn : option (js V)) : (version -> js V) + E :=
  match fn with None => inr (re_type_error x) | Some fn => inl (fun v => wrapTransaction (getController v) fn) end.

End Transaction.

(** ** Correctness *)

#[local] Arguments stmt_run : simpl never.

Section Correct.
Context {S C : Type} `{StorageLaws S C}.
Context {V E : Type}.
Notation Conn := (Conn (S := S)).
Notation Tx := (Tx (C := C)).
Notation stmt := (stmt (S := S) (C := C)).
Notation js := (js (S := S) (E := E)).
Variable thenable : V -> bool.
Variable x : RunEnv S C E.
Variable e : VdbeEnv.
Hypothesis He : env_ok e.

(** The logger never throws, and reading the recorded changes keeps the state of the
    transaction. *)
Record run_env_ok : Prop := {
  ro_logger : forall st u, snd (re_logger x st u) = None;
  ro_notify : forall c (a : Tx), refines c a -> refines (re_notify x c) a
}.
Hypothesis Henv : run_env_ok.
Notation stmt_run := (stmt_run x e).
Notation wrapTransaction := (wrapTransaction thenable x e).

(** A connection that can run statements: open, not busy, and without iterators. *)
Definition ready (db : JsDb S) : bool := js_open db && negb (js_busy db) && (js_iterators db =? 0).

Definition is_in (db : JsDb S) (a : Tx) : Prop := refines (js_conn db) a /\ ready db = true.

(** Code that leaves the transaction it runs in as it is.  SQLite may roll it back by
    itself; then the code throws, as the documentation asks for. *)
Definition leaves {A} (a a' : Tx) (r : A + E) : Prop :=
  match x_txn a with
  | Some T => x_txn a' = Some T \/ (a' = spec_rollback T /\ exists ex, r = inr ex)
  | None => x_txn a' = None
  end.

(** Such code that also ends, and leaves no iterator open; [n] is the number of
    files. *)
Definition behaved {A} (n : nat) (m : js A) : Prop := forall db a, is_in db a -> length (x_now a) = n ->
  exists db' r a', m db = Some (db', r) /\ is_in db' a' /\ length (x_now a') = n /\ leaves a a' r.

Lemma ready_open db : ready db = true -> js_open db = true /\ js_busy db = false /\ js_iterators db = 0.
Proof. unfold ready. destruct (js_open db), (js_busy db); cbn; try discriminate. intros E0. split_and!; auto. lia. Qed.

Lemma conn_open c (a : Tx) : refines c a -> negb (autoCommit c) = bool_decide (is_Some (x_txn a)).
Proof. intros [_ _ _ _ Ht _]. unfold txn_ok in Ht. by destruct (x_txn a); destruct Ht as [-> _]. Qed.

Lemma refines_open db (a : Tx) : is_in db a -> js_open db && negb (autoCommit (js_conn db)) = bool_decide (is_Some (x_txn a)).
Proof. intros [Hr Hd]. rewrite (proj1 (ready_open db Hd)). exact (conn_open _ _ Hr). Qed.

Lemma stmt_run_spec db (a : Tx) st : is_in db a -> stmt_ok (length (x_now a)) st ->
  exists db' rc a', stmt_run st db = Some (db', if rc =? SQLITE_OK then inl tt else inr (re_sqlite_error x rc)) /\
    spec_step st a a' rc /\ is_in db' a' /\ length (x_now a') = length (x_now a).
Proof.
  intros [Hr Hd] Hok. rewrite <- (proj1 (rf_files _ _ Hr)) in Hok. destruct (statement_refines e He (js_conn db) a st Hr Hok) as (c & rc & a' & Hrun & Hstep & Hr').
  destruct (ready_open db Hd) as (Ho & Hb & Hi). unfold JsTransaction.stmt_run. rewrite Ho, Hb, Hi. cbn [negb Z.eqb]. rewrite andb_false_r.
  pose proof (ro_logger Henv st (js_unsafe db)) as Hl. destruct (re_logger x st (js_unsafe db)) as [u thr]. cbn in Hl. subst thr.
  cbn [set_unsafe js_conn]. rewrite Hrun. cbn [mbind option_bind]. set (c' := if re_writes x st || _ then _ else _).
  assert (Hc : refines c' a') by (unfold c'; destruct (_ || _); [apply (ro_notify Henv)|]; exact Hr').
  assert (Hd' : forall c0, ready (set_conn (set_unsafe db u) c0) = true) by (intros; exact Hd).
  destruct (rc =? SQLITE_OK) eqn:Erc; (eexists _, rc, a'; rewrite Erc; split; [reflexivity|]; split; [done|]; split; [split; auto|]; by apply (step_length (js_conn db) a st a' rc)).
Qed.

(** *** What the statements of the wrapper do *)

Lemma step_begin v a a' rc : x_txn a = None -> spec_step (S := S) (begin (getController v)) a a' rc ->
  (rc = SQLITE_OK /\ a' = mkTx C (x_now a) (x_cons a) (Some (mkTxn C (x_now a) None []))) \/ (rc <> SQLITE_OK /\ a' = a).
Proof.
  intros Ha Hst. destruct v; inversion Hst; subst; try congruence; auto; right; (split; [done|]); unfold spec_refused; by rewrite Ha.
Qed.

(** The savepoint of the wrapper, innermost in its transaction. *)
Definition bs3_saved (a : Tx) : Savepoint := mkSavepoint bs3 (x_cons a).1 (x_cons a).2.

Lemma find_bs3 v (c : list C) saves : sp_zName v = bs3 -> find_save bs3 ((v, c) :: saves) = Some (v, c, saves).
Proof. intros Hv. cbn. by rewrite Hv. Qed.

Lemma step_release T v c saves a a' rc :
  x_txn a = Some T -> t_saves T = (v, c) :: saves -> sp_zName v = bs3 -> spec_step (S := S) (Release bs3) a a' rc ->
  rc = SQLITE_OK /\ a' = mkTx C (x_now a) (x_cons a) (Some (mkTxn C (t_start T) (t_outer T) saves)).
Proof.
  intros Ha HT Hv Hst. pose proof (find_bs3 v c saves Hv) as Hf. rewrite <- HT in Hf.
  inversion Hst; subst; rewrite Ha in *; simplify_eq; [done|]. by destruct_and!; simplify_eq.
Qed.

Lemma step_back T v c saves a a' rc :
  x_txn a = Some T -> t_saves T = (v, c) :: saves -> sp_zName v = bs3 -> spec_step (S := S) (RollbackTo bs3) a a' rc ->
  rc = SQLITE_OK /\ a' = mkTx C c (sp_nDeferredCons v, sp_nDeferredImmCons v) (Some (mkTxn C (t_start T) (t_outer T) ((v, c) :: saves))).
Proof.
  intros Ha HT Hv Hst. pose proof (find_bs3 v c saves Hv) as Hf. rewrite <- HT in Hf.
  inversion Hst; subst; rewrite Ha in *; simplify_eq; [done|]. by destruct_and!; simplify_eq.
Qed.

Lemma step_commit T (a a' : Tx) rc : x_txn a = Some T -> spec_step (S := S) Commit a a' rc -> commits a (spec_rollback T) a' rc.
Proof. intros Ha Hst. inversion Hst; subst; by simplify_eq. Qed.

Lemma step_rollback T (a a' : Tx) rc : x_txn a = Some T -> spec_step (S := S) Rollback a a' rc -> rc = SQLITE_OK /\ a' = spec_rollback T.
Proof. intros Ha Hst. inversion Hst; subst; by simplify_eq. Qed.

(** *** The wrapper as a savepoint *)

(** The function was run inside the savepoint and left it. *)
Definition returned (fn : js V) (a a' : Tx) (v : V) : Prop :=
  exists db1 a1 db2 a2, is_in db1 a1 /\ x_now a1 = x_now a /\ x_cons a1 = x_cons a /\ is_Some (x_txn a1) /\
    fn db1 = Some (db2, inl v) /\ is_in db2 a2 /\ thenable v = false /\ x_now a' = x_now a2 /\ x_txn a' = x_txn a.

Definition thrown (a a' : Tx) : Prop := a' = a \/ exists T, x_txn a = Some T /\ a' = spec_rollback T.

Definition outcome (fn : js V) (a a' : Tx) (r : V + E) : Prop :=
  match r with inl v => returned fn a a' v | inr _ => thrown a a' end.

(** The handler throws the exception again and leaves nothing of the transaction. *)
Definition handler (nested : bool) (ex : E) : js V :=
  let! open := inTransaction in
  if open : bool then
    stmt_run (if nested then RollbackTo bs3 else Rollback) ;; (if nested then stmt_run (Release bs3) else js_ret tt) ;; js_throw ex
  else js_throw ex.

#[local] Arguments handler : simpl never.

Lemma handler_nested ex T db1 a1 saves v c :
  is_in db1 a1 -> x_txn a1 = Some T -> t_saves T = (v, c) :: saves -> sp_zName v = bs3 ->
  exists db', handler true ex db1 = Some (db', inr ex) /\
    is_in db' (mkTx C c (sp_nDeferredCons v, sp_nDeferredImmCons v) (Some (mkTxn C (t_start T) (t_outer T) saves))).
Proof.
  intros Hr Ha HT Hv. destruct (stmt_run_spec db1 a1 (RollbackTo bs3) Hr I) as (db2 & rc2 & a2 & Hrun & Hst & Hr2 & _).
  destruct (step_back T v c saves a1 a2 rc2 Ha HT Hv Hst) as [-> ->].
  destruct (stmt_run_spec db2 _ (Release bs3) Hr2 I) as (db3 & rc3 & a3 & Hrun3 & Hst3 & Hr3 & _).
  eapply (step_release _ v c saves) in Hst3 as [Hrc3 Ha3]; [|reflexivity|reflexivity|done]. subst rc3 a3.
  exists db3. split; [|done]. unfold handler, js_bind, inTransaction. cbn [mbind option_bind]. rewrite (refines_open _ _ Hr), Ha.
  rewrite bool_decide_true by done. rewrite Hrun. cbn. by rewrite Hrun3.
Qed.

Lemma handler_outer ex T db1 a1 : is_in db1 a1 -> x_txn a1 = Some T -> exists db', handler false ex db1 = Some (db', inr ex) /\ is_in db' (spec_rollback T).
Proof.
  intros Hr Ha. destruct (stmt_run_spec db1 a1 Rollback Hr I) as (db2 & rc2 & a2 & Hrun & Hst & Hr2 & _).
  destruct (step_rollback T a1 a2 rc2 Ha Hst) as [-> ->]. exists db2. split; [|done].
  unfold handler, js_bind, inTransaction. cbn [mbind option_bind]. rewrite (refines_open _ _ Hr), Ha. rewrite bool_decide_true by done. by rewrite Hrun.
Qed.

Lemma handler_lost b ex db1 a1 : is_in db1 a1 -> x_txn a1 = None -> handler b ex db1 = Some (db1, inr ex).
Proof.
  intros Hr Ha. unfold handler, js_bind, inTransaction. cbn [mbind option_bind]. rewrite (refines_open _ _ Hr), Ha. by rewrite bool_decide_false by (by intros []).
Qed.

(** The function and the statement after it, then the handler. *)
Definition attempt (nested : bool) (fn : js V) : js V :=
  js_catch (let! result := fn in
            if thenable result then js_throw (re_type_error x) else stmt_run (if nested then Release bs3 else Commit) ;; js_ret result)
    (handler nested).

Lemma wrap_attempt v fn db a : is_in db a ->
  wrapTransaction (getController v) fn db =
    let nested := bool_decide (is_Some (x_txn a)) in
    (stmt_run (if nested then SetSavepoint bs3 else begin (getController v)) ;; attempt nested fn) db.
Proof.
  intros Hr. rewrite <- (refines_open _ _ Hr). unfold JsTransaction.wrapTransaction, attempt, handler.
  cbv [js_bind inTransaction mbind option_bind]. by destruct (js_open db && negb (autoCommit (js_conn db))).
Qed.

Lemma attempt_nested n fn T v c saves db1 a1 :
  behaved n fn -> is_in db1 a1 -> length (x_now a1) = n -> x_txn a1 = Some T -> t_saves T = (v, c) :: saves -> sp_zName v = bs3 ->
  exists db' r a', attempt true fn db1 = Some (db', r) /\ is_in db' a' /\
    match r with
    | inl y => thenable y = false /\ exists db2 a2, fn db1 = Some (db2, inl y) /\ is_in db2 a2 /\ a' = mkTx C (x_now a2) (x_cons a2) (Some (mkTxn C (t_start T) (t_outer T) saves))
    | inr _ => a' = mkTx C c (sp_nDeferredCons v, sp_nDeferredImmCons v) (Some (mkTxn C (t_start T) (t_outer T) saves)) \/ a' = spec_rollback T
    end.
Proof.
  intros Hfn Hr Hn Ha HT Hv. destruct (Hfn db1 a1 Hr Hn) as (db2 & r & a2 & Hrun & Hr2 & Hn2 & Hl). unfold leaves in Hl. rewrite Ha in Hl.
  unfold attempt, js_catch, js_bind. rewrite Hrun. cbn [mbind option_bind]. destruct Hl as [Ha2|[-> [ex ->]]].
  - destruct r as [y|ex].
    + destruct (thenable y) eqn:Hx.
      * destruct (handler_nested (re_type_error x) T db2 a2 saves v c Hr2 Ha2 HT Hv) as (db' & Hh & Hr'). cbn. rewrite Hh. eauto 10.
      * destruct (stmt_run_spec db2 a2 (Release bs3) Hr2 I) as (db3 & rc3 & a3 & Hrun3 & Hst3 & Hr3 & _).
        destruct (step_release T v c saves a2 a3 rc3 Ha2 HT Hv Hst3) as [-> ->]. rewrite Hrun3. cbn. eauto 12.
    + destruct (handler_nested ex T db2 a2 saves v c Hr2 Ha2 HT Hv) as (db' & Hh & Hr'). cbn. rewrite Hh. eauto 10.
  - cbn. rewrite (handler_lost _ _ _ _ Hr2) by done. eauto 10.
Qed.

Lemma attempt_outer n fn T db1 a1 :
  behaved n fn -> is_in db1 a1 -> length (x_now a1) = n -> x_txn a1 = Some T ->
  exists db' r a', attempt false fn db1 = Some (db', r) /\ is_in db' a' /\
    match r with
    | inl y => thenable y = false /\ exists db2 a2, fn db1 = Some (db2, inl y) /\ is_in db2 a2 /\ a' = mkTx C (x_now a2) (0, 0) None
    | inr _ => a' = spec_rollback T
    end.
Proof.
  intros Hfn Hr Hn Ha. destruct (Hfn db1 a1 Hr Hn) as (db2 & r & a2 & Hrun & Hr2 & Hn2 & Hl). unfold leaves in Hl. rewrite Ha in Hl.
  unfold attempt, js_catch, js_bind. rewrite Hrun. cbn [mbind option_bind]. destruct Hl as [Ha2|[-> [ex ->]]]; [|cbn; rewrite (handler_lost _ _ _ _ Hr2) by done; eauto 10].
  destruct r as [y|ex]; [|destruct (handler_outer ex T db2 a2 Hr2 Ha2) as (db' & Hh & Hr'); cbn; rewrite Hh; eauto 10].
  destruct (thenable y) eqn:Hx; [destruct (handler_outer (re_type_error x) T db2 a2 Hr2 Ha2) as (db' & Hh & Hr'); cbn; rewrite Hh; eauto 10|].
  destruct (stmt_run_spec db2 a2 Commit Hr2 I) as (db3 & rc3 & a3 & Hrun3 & Hst3 & Hr3 & _). rewrite Hrun3. cbn [mbind option_bind].
  destruct (step_commit T a2 a3 rc3 Ha2 Hst3) as [Hz| |Hz|rc Ho Hb].
  - cbn. eauto 12.
  - destruct (handler_outer (re_sqlite_error x SQLITE_BUSY) T db3 a2 Hr3 Ha2) as (db' & Hh & Hr'). cbn. rewrite Hh. eauto 10.
  - destruct (handler_outer (re_sqlite_error x SQLITE_CONSTRAINT_FOREIGNKEY) T db3 a2 Hr3 Ha2) as (db' & Hh & Hr').
    change (SQLITE_CONSTRAINT_FOREIGNKEY =? SQLITE_OK) with false. cbn. rewrite Hh. eauto 10.
  - rewrite (proj2 (Z.eqb_neq rc SQLITE_OK)) by done. cbn. rewrite (handler_lost _ _ _ _ Hr3) by done. eauto 10.
Qed.

Lemma wrap_nested n v fn db a T :
  behaved n fn -> is_in db a -> length (x_now a) = n -> x_txn a = Some T ->
  exists db' r a', wrapTransaction (getController v) fn db = Some (db', r) /\ is_in db' a' /\ outcome fn a a' r.
Proof.
  intros Hfn Hr Hn Ha. rewrite (wrap_attempt v fn db a Hr), Ha, bool_decide_true by done.
  destruct (stmt_run_spec db a (SetSavepoint bs3) Hr I) as (db1 & rc & a1 & Hrun & Hst & Hr1 & Hl1).
  assert (rc = SQLITE_OK /\ a1 = mkTx C (x_now a) (x_cons a) (Some (push (bs3_saved a) (x_now a) T))) as [-> ->].
  { inversion Hst. unfold spec_savepoint. by rewrite Ha. }
  cbn zeta. unfold js_bind. rewrite Hrun. cbn -[attempt].
  edestruct (attempt_nested n fn (push (bs3_saved a) (x_now a) T) (bs3_saved a) (x_now a) (t_saves T) db1) as (db' & r & a' & Hat & Hr' & Ho); try done.
  exists db', r, a'. split; [done|]. split; [done|]. destruct T as [st o saves]. destruct r as [y|ex]; cbn in *.
  - destruct Ho as (Hx & db2 & a2 & Hf & Hr2 & ->). by exists db1, (mkTx C (x_now a) (x_cons a) (Some (push (bs3_saved a) (x_now a) (mkTxn C st o saves)))), db2, a2.
  - destruct Ho as [->| ->]; [left|right; by eexists]. by destruct a as [? [? ?] ?]; cbn in *; subst.
Qed.

Lemma wrap_outer n v fn db a :
  behaved n fn -> is_in db a -> length (x_now a) = n -> x_txn a = None ->
  exists db' r a', wrapTransaction (getController v) fn db = Some (db', r) /\ is_in db' a' /\ outcome fn a a' r.
Proof.
  intros Hfn Hr Hn Ha. rewrite (wrap_attempt v fn db a Hr), Ha, bool_decide_false by (by intros []).
  destruct (stmt_run_spec db a (begin (getController v)) Hr ltac:(by destruct v)) as (db1 & rc & a1 & Hrun & Hst & Hr1 & Hl1).
  cbn zeta. unfold js_bind. rewrite Hrun. cbn [mbind option_bind]. destruct (txn_outside _ _ (proj1 Hr) Ha) as (_ & Hc & _).
  destruct (step_begin v a a1 rc Ha Hst) as [[-> ->]|[Hrc ->]].
  - cbn -[attempt]. edestruct (attempt_outer n fn (mkTxn C (x_now a) None []) db1) as (db' & r & a' & Hat & Hr' & Ho); try done.
    exists db', r, a'. split; [done|]. split; [done|]. destruct r as [y|ex]; cbn in *.
    + destruct Ho as (Hx & db2 & a2 & Hf & Hr2 & ->). unfold returned. rewrite Ha. by exists db1, (mkTx C (x_now a) (x_cons a) (Some (mkTxn C (x_now a) None []))), db2, a2.
    + left. rewrite Ho. by destruct a; cbn in *; subst.
  - rewrite (proj2 (Z.eqb_neq rc SQLITE_OK)) by done. exists db1, (inr (re_sqlite_error x rc)), a. split; [done|]. split; [done|]. by left.
Qed.

(** C8: transaction functions are atomic.  Let the connection be open, not busy and
    without iterators, let the verbose logger (if any) not throw, and let the function
    end without iterators left open and in the transaction it was called in, or throw
    if SQLite rolled that back.  Then the call ends.  When it returns, the contents are
    what the function left and the enclosing transaction is as before; when it throws,
    nothing has changed, unless SQLite itself rolled the enclosing transaction back. *)
Theorem transaction_atomic n v fn db a :
  behaved n fn -> is_in db a -> length (x_now a) = n ->
  exists db' r a', wrapTransaction (getController v) fn db = Some (db', r) /\ is_in db' a' /\ outcome fn a a' r.
Proof. intros Hfn Hr Hn. destruct (x_txn a) as [T|] eqn:Ha; [by eapply wrap_nested|by eapply wrap_outer]. Qed.

(** *** Functions that leave an iterator open *)

Definition leaky (fn : js V) : Prop := forall db a, is_in db a -> is_Some (x_txn a) ->
  exists db' r a', fn db = Some (db', r) /\ refines (js_conn db') a' /\ is_Some (x_txn a') /\
    js_open db' = true /\ js_busy db' = false /\ js_unsafe db' = false /\ js_iterators db' <> 0.

Lemma iterator_refuses st db : js_open db = true -> js_busy db = false -> js_unsafe db = false -> js_iterators db <> 0 ->
  stmt_run st db = Some (db, inr (re_is_busy x)).
Proof. intros Ho Hb Hu Hi. unfold JsTransaction.stmt_run. rewrite Ho, Hb, Hu, (proj2 (Z.eqb_neq _ _) Hi). reflexivity. Qed.

Lemma leaky_attempt nested fn db1 a1 : leaky fn -> is_in db1 a1 -> is_Some (x_txn a1) ->
  exists db' a', attempt nested fn db1 = Some (db', inr (re_is_busy x)) /\ refines (js_conn db') a' /\ is_Some (x_txn a') /\ js_iterators db' <> 0.
Proof.
  intros Hf Hr Ht. destruct (Hf db1 a1 Hr Ht) as (db2 & r & a2 & Hrun & Hr2 & Ht2 & Ho & Hb & Hu & Hi). exists db2, a2. split_and!; auto.
  assert (Hh : forall ex, handler nested ex db2 = Some (db2, inr (re_is_busy x))).
  { intros ex. unfold handler, js_bind, inTransaction. cbn [mbind option_bind]. rewrite (conn_open _ _ Hr2), Ho, bool_decide_true by exact Ht2. cbn [andb].
    rewrite iterator_refuses by assumption. reflexivity. }
  unfold attempt, js_catch, js_bind. rewrite Hrun. cbn [mbind option_bind]. destruct r as [y|ex]; [|apply Hh].
  destruct (thenable y); [apply Hh|]. rewrite iterator_refuses by assumption. apply Hh.
Qed.


(** *** Functions that behave *)

Lemma behaved_ret {A} n (v : A) : behaved n (js_ret v).
Proof. intros db a Hr Hn. exists db, (inl v), a. repeat split; auto; try apply Hr. unfold leaves. destruct (x_txn a); auto. Qed.

Lemma behaved_throw {A} n ex : behaved n (js_throw ex : js A).
Proof. intros db a Hr Hn. exists db, (inr ex), a. split; [done|]. split; [done|]. split; [done|]. unfold leaves. destruct (x_txn a); auto. Qed.

Lemma behaved_bind {A B} n (m : js A) (k : A -> js B) : behaved n m -> (forall v, behaved n (k v)) -> behaved n (js_bind m k).
Proof.
  intros Hm Hk db a Hr Hn. destruct (Hm db a Hr Hn) as (db1 & r & a1 & Hrun & Hr1 & Hn1 & Hl). unfold js_bind. rewrite Hrun. cbn. destruct r as [v|ex].
  - destruct (Hk v db1 a1 Hr1 Hn1) as (db2 & r2 & a2 & Hrun2 & Hr2 & Hn2 & Hl2). exists db2, r2, a2. split; [done|]. split; [done|]. split; [done|].
    unfold leaves in *. destruct (x_txn a) as [T|]; [|by rewrite Hl in Hl2]. destruct Hl as [Ha1|[_ [ex Hex]]]; [by rewrite Ha1 in Hl2|done].
  - exists db1, (inr ex), a1. split; [done|]. split; [done|]. split; [done|]. unfold leaves in *. destruct (x_txn a); [|done].
    destruct Hl as [|[? _]]; [by left|right]. eauto.
Qed.

(** The [catch] of the documentation: throw again when the transaction is gone. *)
Definition catch_inside {A} (m : js A) (h : E -> js A) : js A :=
  js_catch m (fun ex => let! open := inTransaction in if open : bool then h ex else js_throw ex).

Lemma behaved_catch {A} n (m : js A) h : behaved n m -> (forall ex, behaved n (h ex)) -> behaved n (catch_inside m h).
Proof.
  intros Hm Hh db a Hr Hn. destruct (Hm db a Hr Hn) as (db1 & r & a1 & Hrun & Hr1 & Hn1 & Hl). unfold catch_inside, js_catch, js_bind, inTransaction. rewrite Hrun. cbn.
  destruct r as [v|ex]; [exists db1, (inl v), a1; by repeat (split; [done|])|]. rewrite (refines_open _ _ Hr1). unfold leaves in *. destruct (x_txn a1) as [T1|] eqn:Ha1.
  - rewrite bool_decide_true by done. destruct (Hh ex db1 a1 Hr1 Hn1) as (db2 & r2 & a2 & Hrun2 & Hr2 & Hn2 & Hl2). exists db2, r2, a2.
    split; [done|]. split; [done|]. split; [done|]. unfold leaves in Hl2. rewrite Ha1 in Hl2. destruct (x_txn a) as [T|]; [|done].
    destruct Hl as [[= ->]|[-> _]]; [done|by cbn in Ha1].
  - rewrite bool_decide_false by (by intros []). exists db1, (inr ex), a1. split; [done|]. split; [done|]. split; [done|].
    destruct (x_txn a) as [T|]; [|done]. destruct Hl as [|[? _]]; [done|right]. eauto.
Qed.

Lemma behaved_write n w g : stmt_ok n (Write w g) -> behaved n (stmt_run (Write w g)).
Proof.
  intros Hok db a Hr Hn. rewrite <- Hn in Hok. destruct (stmt_run_spec db a (Write w g) Hr Hok) as (db1 & rc & a1 & Hrun & Hst & Hr1 & Hl1).
  eexists _, _, a1. split; [exact Hrun|]. split; [done|]. split; [congruence|]. unfold leaves. clear Hrun.
  inversion Hst as [| | | | | | | | | | | | | | | |? ? ? ? Hrc|? T ? ? Ha|? ? ? Ha Hk Hz|? ? ? ? Ha Hrc]; subst; try rewrite Ha; try done.
  - unfold spec_refused. destruct (x_txn a) as [T|] eqn:Ha; [|done]. rewrite (proj2 (Z.eqb_neq _ SQLITE_OK) Hrc).
    destruct (is_special rc); [|by left]. destruct (special_effect (wr_usesStmtJournal w) rc); [by left..|right; eauto].
  - unfold spec_write. destruct (write_effect w) eqn:Hef; [by left..|right]. split; [done|]. unfold write_effect in Hef.
    destruct (write_rc w =? SQLITE_OK); [done|eauto].
Qed.

(** Transaction functions may call transaction functions. *)
Lemma behaved_transaction n v fn : behaved n fn -> behaved n (wrapTransaction (getController v) fn).
Proof.
  intros Hfn db a Hr Hn. assert (exists db' r a', wrapTransaction (getController v) fn db = Some (db', r) /\ is_in db' a' /\ outcome fn a a' r)
    as (db' & r & a' & Hrun & Hr' & Ho) by (destruct (x_txn a) as [T|] eqn:Ha; [by eapply wrap_nested|by eapply wrap_outer]).
  exists db', r, a'. split; [done|]. split; [done|]. destruct r as [y|ex].
  - destruct Ho as (db1 & a1 & db2 & a2 & Hr1 & Hn1 & _ & [T1 Ha1] & Hf & Hr2 & _ & Hn' & Hx).
    destruct (Hfn db1 a1 Hr1 ltac:(congruence)) as (db3 & r3 & a3 & Hrun3 & Hr3 & Hn3 & _). simplify_eq.
    split; [by rewrite Hn', <- (proj1 (rf_files _ _ (proj1 Hr2))), (proj1 (rf_files _ _ (proj1 Hr3)))|]. unfold leaves. rewrite Hx. destruct (x_txn a); auto.
  - destruct Ho as [->|(T & Ha & ->)].
    + split; [done|]. unfold leaves. destruct (x_txn a); auto.
    + split; [by rewrite <- Hn; apply (saves_length (js_conn db) a T (mkSavepoint [] 0 0) (proj1 Hr) Ha)|]. unfold leaves. rewrite Ha. right. eauto.
Qed.

End Correct.

(** ** A nested transaction that fails inside one that goes on *)

Notation demo_storage := (Snap (C := list Z)).

(** Exceptions are numbers; no logger, no cache. *)
Definition demo_run_env : RunEnv demo_storage (list Z) Z := mkRunEnv demo_storage (list Z) Z (-3) (-2) (-1) id (fun _ u => (u, None)) (fun _ => false) id.

Lemma demo_run_ok : run_env_ok demo_run_env.
Proof. split; auto. Qed.

Definition demo_js : JsDb demo_storage := mkJs demo_storage (demo_db false) true false false 0.

Lemma demo_js_in : is_in demo_js demo_tx.
Proof. split; [exact (demo_refines false)|reflexivity]. Qed.

Definition demo_run (z : Z) : js (S := demo_storage) (E := Z) unit := stmt_run demo_run_env demo_env (demo_write z SQLITE_OK).
Definition demo_inner : js (S := demo_storage) (E := Z) unit :=
  wrapTransaction (fun _ => false) demo_run_env demo_env (getController Immediate) (demo_run 2 ;; js_throw (-7)).
Definition demo_outer : js (S := demo_storage) (E := Z) unit := demo_run 1 ;; catch_inside demo_inner (fun _ => js_ret tt) ;; demo_run 3.

Lemma demo_behaved : behaved (C := list Z) 1 demo_outer.
Proof.
  assert (forall z, behaved (C := list Z) 1 (demo_run z)) as Hw by (intros z; apply behaved_write; [done|exact demo_run_ok|by apply demo_write_ok]).
  apply behaved_bind; [done|intros _]. apply behaved_bind; [|done]. apply behaved_catch; [|intros; apply behaved_ret].
  apply behaved_transaction; [done|exact demo_run_ok|]. apply behaved_bind; [done|intros; apply behaved_throw].
Qed.

Lemma transaction_atomic_witness :
  (exists db' r a', wrapTransaction (fun _ => false) demo_run_env demo_env (getController Default) demo_outer demo_js = Some (db', r) /\
     is_in db' a' /\ outcome (fun _ => false) demo_outer demo_tx a' r) /\
  (prod_map (fun db => (sn_now <$> aDb (js_conn db), autoCommit (js_conn db))) id <$>
     wrapTransaction (fun _ => false) demo_run_env demo_env (getController Default) demo_outer demo_js) = Some (([[1; 3]], true), inl tt).
Proof.
  split; [|vm_compute; reflexivity].
  apply (transaction_atomic (fun _ => false) demo_run_env demo_env demo_env_ok demo_run_ok 1 Default demo_outer demo_js demo_tx demo_behaved demo_js_in).
  reflexivity.
Defined.

(** A function that starts an iteration and returns without ending it. *)
Definition demo_forgets : js (S := demo_storage) (E := Z) unit :=
  fun db => Some (mkJs demo_storage (js_conn db) (js_open db) (js_busy db) false 1, inl tt).

Lemma demo_leaky : leaky (C := list Z) demo_forgets.
Proof.
  intros db a [Hr Hd] Ht. destruct (ready_open db Hd) as (Ho & Hb & _). eexists _, _, a. split; [reflexivity|]. cbn. split_and!; auto.
Qed.

