(* ===== verification/Pager.v ===== *)
(** * The pager: files, cache and journals

    The state of [Pager] (pager.c in sqlite3.c) for a database file with a rollback
    journal: the page cache, the journal with its headers and records, the
    sub-journal of the savepoints and the locks.  The file system is part of the
    state; [log] lists what was done to the database file and the journal. *)
From stdpp Require Import gmap sorting.
From S2P Require Import Prelude Value Record Savepoint.

Local Open Scope Z_scope.

(** ** Files *)

(** A file: its size and its bytes, which are zero from the size on. *)
Record File := mkFile { f_size : Z; f_byte : Z -> Z }.

Definition empty_file : File := mkFile 0 (fun _ => 0).

(** The [n] bytes at [off]; bytes after the end are zero. *)
Definition file_bytes (f : File) (off n : Z) : list Z := (fun k => f_byte f (off + k)) <$> seqZ 0 n.

Definition file_write (f : File) (off : Z) (bs : list Z) : File :=
  match bs with
  | [] => f
  | _ => mkFile (Z.max (f_size f) (off + Zlen bs))
           (fun i => if (off <=? i) && (i <? off + Zlen bs) then default 0 (bs !! Z.to_nat (i - off)) else f_byte f i)
  end.

Definition file_truncate (f : File) (n : Z) : File :=
  if n <? f_size f then mkFile n (fun i => if i <? n then f_byte f i else 0) else f.

(** What happens to the database file and to the journal on disk. *)
Inductive file_id := Db | Jrnl.

Inductive event :=
  | EvWrite (f : file_id) (off : Z) (bs : list Z)
  | EvTruncate (f : file_id) (n : Z)
  | EvSync (f : file_id)
  | EvDelete (dirSync : bool).

(** ** State *)

(** [PgHdr], without the page number, which is its key in the cache. *)
Record PgHdr := mkPgHdr {
  pg_data : list Z;
  pg_dirty : bool;
  pg_needSync : bool;
  pg_writeable : bool;
  pg_dontWrite : bool
}.

Record Bitvec := mkBitvec { bv_iSize : Z; bv_bits : gset Z }.

Record PagerSavepoint := mkPagerSavepoint {
  iOffset : Z;
  iHdrOffset : Z;
  pInSavepoint : Bitvec;
  nOrig : Z;
  iSubRec : Z;
  bTruncateOnRelease : bool
}.

(** The configuration: a file that is not temporary, not in WAL mode, not memory
    mapped, without a super-journal.  [c_iDc] is the result of
    [sqlite3OsDeviceCharacteristics]; [c_sjInMemory] says that the sub-journal has not
    spilled to a file; [c_nBusy] is the number of times the busy handler has a lock tried again. *)
Record Config := mkConfig {
  c_journalMode : Z;
  c_exclusiveMode : bool;
  c_noSync : bool;
  c_fullSync : bool;
  c_extraSync : bool;
  c_iDc : Z;
  c_sectorSize : Z;
  c_journalSizeLimit : Z;
  c_mxPathname : Z;
  c_sjInMemory : bool;
  c_nBusy : nat
}.

(** Fields of [Pager]; [jfd] says whether the journal is open, [journal] and [jexists] are the
    file itself; fields that feed hints, statistics and backups are left out.  The calls of the
    system are numbered: a program takes the state and the number of the next call. *)
Record Pager := mkPager {
  pageSize : Z;
  sectorSize : Z;
  mxPgno : Z;
  eState : Z;
  eLock : Z;
  errCode : Z;
  changeCountDone : bool;
  hasHeldSharedLock : bool;
  doNotSpill : Z;
  dbSize : Z;
  dbOrigSize : Z;
  dbFileSize : Z;
  nRec : Z;
  cksumInit : Z;
  nSubRec : Z;
  pInJournal : option Bitvec;
  journalOff : Z;
  journalHdr : Z;
  aSavepoint : list PagerSavepoint;
  dbFileVers : list Z;
  pPCache : gmap Z PgHdr;
  fd : File;
  jfd : bool;
  journal : File;
  jexists : bool;
  sjfd : option File;
  log : list event
}.

Definition set_pageSize (x : Z) (p : Pager) : Pager :=
  mkPager x (sectorSize p) (mxPgno p) (eState p) (eLock p) (errCode p) (changeCountDone p) (hasHeldSharedLock p) (doNotSpill p) (dbSize p) (dbOrigSize p) (dbFileSize p) (nRec p) (cksumInit p) (nSubRec p) (pInJournal p) (journalOff p) (journalHdr p) (aSavepoint p) (dbFileVers p) (pPCache p) (fd p) (jfd p) (journal p) (jexists p) (sjfd p) (log p).
Definition set_sectorSize (x : Z) (p : Pager) : Pager :=
  mkPager (pageSize p) x (mxPgno p) (eState p) (eLock p) (errCode p) (changeCountDone p) (hasHeldSharedLock p) (doNotSpill p) (dbSize p) (dbOrigSize p) (dbFileSize p) (nRec p) (cksumInit p) (nSubRec p) (pInJournal p) (journalOff p) (journalHdr p) (aSavepoint p) (dbFileVers p) (pPCache p) (fd p) (jfd p) (journal p) (jexists p) (sjfd p) (log p).
Definition set_mxPgno (x : Z) (p : Pager) : Pager :=
  mkPager (pageSize p) (sectorSize p) x (eState p) (eLock p) (errCode p) (changeCountDone p) (hasHeldSharedLock p) (doNotSpill p) (dbSize p) (dbOrigSize p) (dbFileSize p) (nRec p) (cksumInit p) (nSubRec p) (pInJournal p) (journalOff p) (journalHdr p) (aSavepoint p) (dbFileVers p) (pPCache p) (fd p) (jfd p) (journal p) (jexists p) (sjfd p) (log p).
Definition set_eState (x : Z) (p : Pager) : Pager :=
  mkPager (pageSize p) (sectorSize p) (mxPgno p) x (eLock p) (errCode p) (changeCountDone p) (hasHeldSharedLock p) (doNotSpill p) (dbSize p) (dbOrigSize p) (dbFileSize p) (nRec p) (cksumInit p) (nSubRec p) (pInJournal p) (journalOff p) (journalHdr p) (aSavepoint p) (dbFileVers p) (pPCache p) (fd p) (jfd p) (journal p) (jexists p) (sjfd p) (log p).
Definition set_eLock (x : Z) (p : Pager) : Pager :=
  mkPager (pageSize p) (sectorSize p) (mxPgno p) (eState p) x (errCode p) (changeCountDone p) (hasHeldSharedLock p) (doNotSpill p) (dbSize p) (dbOrigSize p) (dbFileSize p) (nRec p) (cksumInit p) (nSubRec p) (pInJournal p) (journalOff p) (journalHdr p) (aSavepoint p) (dbFileVers p) (pPCache p) (fd p) (jfd p) (journal p) (jexists p) (sjfd p) (log p).
Definition set_errCode (x : Z) (p : Pager) : Pager :=
  mkPager (pageSize p) (sectorSize p) (mxPgno p) (eState p) (eLock p) x (changeCountDone p) (hasHeldSharedLock p) (doNotSpill p) (dbSize p) (dbOrigSize p) (dbFileSize p) (nRec p) (cksumInit p) (nSubRec p) (pInJournal p) (journalOff p) (journalHdr p) (aSavepoint p) (dbFileVers p) (pPCache p) (fd p) (jfd p) (journal p) (jexists p) (sjfd p) (log p).
Definition set_changeCountDone (x : bool) (p : Pager) : Pager :=
  mkPager (pageSize p) (sectorSize p) (mxPgno p) (eState p) (eLock p) (errCode p) x (hasHeldSharedLock p) (doNotSpill p) (dbSize p) (dbOrigSize p) (dbFileSize p) (nRec p) (cksumInit p) (nSubRec p) (pInJournal p) (journalOff p) (journalHdr p) (aSavepoint p) (dbFileVers p) (pPCache p) (fd p) (jfd p) (journal p) (jexists p) (sjfd p) (log p).
Definition set_hasHeldSharedLock (x : bool) (p : Pager) : Pager :=
  mkPager (pageSize p) (sectorSize p) (mxPgno p) (eState p) (eLock p) (errCode p) (changeCountDone p) x (doNotSpill p) (dbSize p) (dbOrigSize p) (dbFileSize p) (nRec p) (cksumInit p) (nSubRec p) (pInJournal p) (journalOff p) (journalHdr p) (aSavepoint p) (dbFileVers p) (pPCache p) (fd p) (jfd p) (journal p) (jexists p) (sjfd p) (log p).
Definition set_doNotSpill (x : Z) (p : Pager) : Pager :=
  mkPager (pageSize p) (sectorSize p) (mxPgno p) (eState p) (eLock p) (errCode p) (changeCountDone p) (hasHeldSharedLock p) x (dbSize p) (dbOrigSize p) (dbFileSize p) (nRec p) (cksumInit p) (nSubRec p) (pInJournal p) (journalOff p) (journalHdr p) (aSavepoint p) (dbFileVers p) (pPCache p) (fd p) (jfd p) (journal p) (jexists p) (sjfd p) (log p).
Definition set_dbSize (x : Z) (p : Pager) : Pager :=
  mkPager (pageSize p) (sectorSize p) (mxPgno p) (eState p) (eLock p) (errCode p) (changeCountDone p) (hasHeldSharedLock p) (doNotSpill p) x (dbOrigSize p) (dbFileSize p) (nRec p) (cksumInit p) (nSubRec p) (pInJournal p) (journalOff p) (journalHdr p) (aSavepoint p) (dbFileVers p) (pPCache p) (fd p) (jfd p) (journal p) (jexists p) (sjfd p) (log p).
Definition set_dbOrigSize (x : Z) (p : Pager) : Pager :=
  mkPager (pageSize p) (sectorSize p) (mxPgno p) (eState p) (eLock p) (errCode p) (changeCountDone p) (hasHeldSharedLock p) (doNotSpill p) (dbSize p) x (dbFileSize p) (nRec p) (cksumInit p) (nSubRec p) (pInJournal p) (journalOff p) (journalHdr p) (aSavepoint p) (dbFileVers p) (pPCache p) (fd p) (jfd p) (journal p) (jexists p) (sjfd p) (log p).
Definition set_dbFileSize (x : Z) (p : Pager) : Pager :=
  mkPager (pageSize p) (sectorSize p) (mxPgno p) (eState p) (eLock p) (errCode p) (changeCountDone p) (hasHeldSharedLock p) (doNotSpill p) (dbSize p) (dbOrigSize p) x (nRec p) (cksumInit p) (nSubRec p) (pInJournal p) (journalOff p) (journalHdr p) (aSavepoint p) (dbFileVers p) (pPCache p) (fd p) (jfd p) (journal p) (jexists p) (sjfd p) (log p).
Definition set_nRec (x : Z) (p : Pager) : Pager :=
  mkPager (pageSize p) (sectorSize p) (mxPgno p) (eState p) (eLock p) (errCode p) (changeCountDone p) (hasHeldSharedLock p) (doNotSpill p) (dbSize p) (dbOrigSize p) (dbFileSize p) x (cksumInit p) (nSubRec p) (pInJournal p) (journalOff p) (journalHdr p) (aSavepoint p) (dbFileVers p) (pPCache p) (fd p) (jfd p) (journal p) (jexists p) (sjfd p) (log p).
Definition set_cksumInit (x : Z) (p : Pager) : Pager :=
  mkPager (pageSize p) (sectorSize p) (mxPgno p) (eState p) (eLock p) (errCode p) (changeCountDone p) (hasHeldSharedLock p) (doNotSpill p) (dbSize p) (dbOrigSize p) (dbFileSize p) (nRec p) x (nSubRec p) (pInJournal p) (journalOff p) (journalHdr p) (aSavepoint p) (dbFileVers p) (pPCache p) (fd p) (jfd p) (journal p) (jexists p) (sjfd p) (log p).
Definition set_nSubRec (x : Z) (p : Pager) : Pager :=
  mkPager (pageSize p) (sectorSize p) (mxPgno p) (eState p) (eLock p) (errCode p) (changeCountDone p) (hasHeldSharedLock p) (doNotSpill p) (dbSize p) (dbOrigSize p) (dbFileSize p) (nRec p) (cksumInit p) x (pInJournal p) (journalOff p) (journalHdr p) (aSavepoint p) (dbFileVers p) (pPCache p) (fd p) (jfd p) (journal p) (jexists p) (sjfd p) (log p).
Definition set_pInJournal (x : option Bitvec) (p : Pager) : Pager :=
  mkPager (pageSize p) (sectorSize p) (mxPgno p) (eState p) (eLock p) (errCode p) (changeCountDone p) (hasHeldSharedLock p) (doNotSpill p) (dbSize p) (dbOrigSize p) (dbFileSize p) (nRec p) (cksumInit p) (nSubRec p) x (journalOff p) (journalHdr p) (aSavepoint p) (dbFileVers p) (pPCache p) (fd p) (jfd p) (journal p) (jexists p) (sjfd p) (log p).
Definition set_journalOff (x : Z) (p : Pager) : Pager :=
  mkPager (pageSize p) (sectorSize p) (mxPgno p) (eState p) (eLock p) (errCode p) (changeCountDone p) (hasHeldSharedLock p) (doNotSpill p) (dbSize p) (dbOrigSize p) (dbFileSize p) (nRec p) (cksumInit p) (nSubRec p) (pInJournal p) x (journalHdr p) (aSavepoint p) (dbFileVers p) (pPCache p) (fd p) (jfd p) (journal p) (jexists p) (sjfd p) (log p).
Definition set_journalHdr (x : Z) (p : Pager) : Pager :=
  mkPager (pageSize p) (sectorSize p) (mxPgno p) (eState p) (eLock p) (errCode p) (changeCountDone p) (hasHeldSharedLock p) (doNotSpill p) (dbSize p) (dbOrigSize p) (dbFileSize p) (nRec p) (cksumInit p) (nSubRec p) (pInJournal p) (journalOff p) x (aSavepoint p) (dbFileVers p) (pPCache p) (fd p) (jfd p) (journal p) (jexists p) (sjfd p) (log p).
Definition set_aSavepoint (x : list PagerSavepoint) (p : Pager) : Pager :=
  mkPager (pageSize p) (sectorSize p) (mxPgno p) (eState p) (eLock p) (errCode p) (changeCountDone p) (hasHeldSharedLock p) (doNotSpill p) (dbSize p) (dbOrigSize p) (dbFileSize p) (nRec p) (cksumInit p) (nSubRec p) (pInJournal p) (journalOff p) (journalHdr p) x (dbFileVers p) (pPCache p) (fd p) (jfd p) (journal p) (jexists p) (sjfd p) (log p).
Definition set_dbFileVers (x : list Z) (p : Pager) : Pager :=
  mkPager (pageSize p) (sectorSize p) (mxPgno p) (eState p) (eLock p) (errCode p) (changeCountDone p) (hasHeldSharedLock p) (doNotSpill p) (dbSize p) (dbOrigSize p) (dbFileSize p) (nRec p) (cksumInit p) (nSubRec p) (pInJournal p) (journalOff p) (journalHdr p) (aSavepoint p) x (pPCache p) (fd p) (jfd p) (journal p) (jexists p) (sjfd p) (log p).
Definition set_pPCache (x : gmap Z PgHdr) (p : Pager) : Pager :=
  mkPager (pageSize p) (sectorSize p) (mxPgno p) (eState p) (eLock p) (errCode p) (changeCountDone p) (hasHeldSharedLock p) (doNotSpill p) (dbSize p) (dbOrigSize p) (dbFileSize p) (nRec p) (cksumInit p) (nSubRec p) (pInJournal p) (journalOff p) (journalHdr p) (aSavepoint p) (dbFileVers p) x (fd p) (jfd p) (journal p) (jexists p) (sjfd p) (log p).
Definition set_fd (x : File) (p : Pager) : Pager :=
  mkPager (pageSize p) (sectorSize p) (mxPgno p) (eState p) (eLock p) (errCode p) (changeCountDone p) (hasHeldSharedLock p) (doNotSpill p) (dbSize p) (dbOrigSize p) (dbFileSize p) (nRec p) (cksumInit p) (nSubRec p) (pInJournal p) (journalOff p) (journalHdr p) (aSavepoint p) (dbFileVers p) (pPCache p) x (jfd p) (journal p) (jexists p) (sjfd p) (log p).
Definition set_jfd (x : bool) (p : Pager) : Pager :=
  mkPager (pageSize p) (sectorSize p) (mxPgno p) (eState p) (eLock p) (errCode p) (changeCountDone p) (hasHeldSharedLock p) (doNotSpill p) (dbSize p) (dbOrigSize p) (dbFileSize p) (nRec p) (cksumInit p) (nSubRec p) (pInJournal p) (journalOff p) (journalHdr p) (aSavepoint p) (dbFileVers p) (pPCache p) (fd p) x (journal p) (jexists p) (sjfd p) (log p).
Definition set_journal (x : File) (p : Pager) : Pager :=
  mkPager (pageSize p) (sectorSize p) (mxPgno p) (eState p) (eLock p) (errCode p) (changeCountDone p) (hasHeldSharedLock p) (doNotSpill p) (dbSize p) (dbOrigSize p) (dbFileSize p) (nRec p) (cksumInit p) (nSubRec p) (pInJournal p) (journalOff p) (journalHdr p) (aSavepoint p) (dbFileVers p) (pPCache p) (fd p) (jfd p) x (jexists p) (sjfd p) (log p).
Definition set_jexists (x : bool) (p : Pager) : Pager :=
  mkPager (pageSize p) (sectorSize p) (mxPgno p) (eState p) (eLock p) (errCode p) (changeCountDone p) (hasHeldSharedLock p) (doNotSpill p) (dbSize p) (dbOrigSize p) (dbFileSize p) (nRec p) (cksumInit p) (nSubRec p) (pInJournal p) (journalOff p) (journalHdr p) (aSavepoint p) (dbFileVers p) (pPCache p) (fd p) (jfd p) (journal p) x (sjfd p) (log p).
Definition set_sjfd (x : option File) (p : Pager) : Pager :=
  mkPager (pageSize p) (sectorSize p) (mxPgno p) (eState p) (eLock p) (errCode p) (changeCountDone p) (hasHeldSharedLock p) (doNotSpill p) (dbSize p) (dbOrigSize p) (dbFileSize p) (nRec p) (cksumInit p) (nSubRec p) (pInJournal p) (journalOff p) (journalHdr p) (aSavepoint p) (dbFileVers p) (pPCache p) (fd p) (jfd p) (journal p) (jexists p) x (log p).
Definition set_log (x : list event) (p : Pager) : Pager :=
  mkPager (pageSize p) (sectorSize p) (mxPgno p) (eState p) (eLock p) (errCode p) (changeCountDone p) (hasHeldSharedLock p) (doNotSpill p) (dbSize p) (dbOrigSize p) (dbFileSize p) (nRec p) (cksumInit p) (nSubRec p) (pInJournal p) (journalOff p) (journalHdr p) (aSavepoint p) (dbFileVers p) (pPCache p) (fd p) (jfd p) (journal p) (jexists p) (sjfd p) x.

Ltac pfields := cbn [pageSize sectorSize mxPgno eState eLock errCode changeCountDone hasHeldSharedLock doNotSpill dbSize dbOrigSize dbFileSize nRec cksumInit nSubRec pInJournal journalOff journalHdr aSavepoint dbFileVers pPCache fd jfd journal jexists sjfd log
  set_pageSize set_sectorSize set_mxPgno set_eState set_eLock set_errCode set_changeCountDone set_hasHeldSharedLock set_doNotSpill set_dbSize set_dbOrigSize set_dbFileSize set_nRec set_cksumInit set_nSubRec set_pInJournal set_journalOff set_journalHdr set_aSavepoint set_dbFileVers set_pPCache set_fd set_jfd set_journal set_jexists set_sjfd set_log].

(** ** The system *)

(** Outcome of the calls by number: of a file operation, the bytes a failed write has written,
    of a lock, whether another process holds a reserved lock, of an allocation, and the random
    numbers; [pe_exists] says which super-journals exist. *)
Record PagerEnv := mkPagerEnv {
  pe_cfg : Config;
  pe_io : nat -> Z;
  pe_part : nat -> nat;
  pe_lock : nat -> Z;
  pe_reserved : nat -> bool;
  pe_alloc : nat -> bool;
  pe_rand : nat -> Z;
  pe_exists : list Z -> bool
}.

Definition pg (A : Type) : Type := Pager -> nat -> option (A * Pager * nat).

#[export] Instance pg_ret : MRet pg := fun A a p c => Some (a, p, c).
#[export] Instance pg_bind : MBind pg := fun A B k m p c => match m p c with Some (a, p, c) => k a p c | None => None end.

Definition get {A} (f : Pager -> A) : pg A := fun p c => Some (f p, p, c).
Definition modify (f : Pager -> Pager) : pg unit := fun p c => Some (tt, f p, c).
Definition stuck {A} : pg A := fun _ _ => None.

(** [a], then [b] unless [a] has failed. *)
Notation "a ?; b" := (a ≫= fun rc_ : Z => if rc_ =? SQLITE_OK then b else mret rc_) (at level 100, right associativity, b at level 200).

Definition tick : pg nat := fun p c => Some (c, p, S c).

Definition SQLITE_IOERR_SHORT_READ : Z := 522.
Definition SQLITE_ABORT : Z := 4.

Section System.
Context (e : PagerEnv).

Definition log_event (ev : event) : pg unit := modify (fun p => set_log (log p ++ [ev]) p).

Definition the_file (f : file_id) (p : Pager) : File := match f with Db => fd p | Jrnl => journal p end.
Definition set_file (f : file_id) (x : File) (p : Pager) : Pager := match f with Db => set_fd x p | Jrnl => set_journal x p end.

Definition sqlite3OsWrite (f : file_id) (bs : list Z) (off : Z) : pg Z :=
  k ← tick;
  let bs := if pe_io e k =? SQLITE_OK then bs else take (pe_part e k) bs in
  modify (fun p => set_file f (file_write (the_file f p) off bs) p);;
  log_event (EvWrite f off bs);;
  mret (pe_io e k).

(** The bytes read, zero where the read fails or is short, and the code. *)
Definition sqlite3OsRead (f : file_id) (n off : Z) : pg (list Z * Z) :=
  k ← tick;
  x ← get (the_file f);
  if negb (pe_io e k =? SQLITE_OK) then mret (replicate (Z.to_nat n) 0, pe_io e k)
  else mret (file_bytes x off n, if off + n <=? f_size x then SQLITE_OK else SQLITE_IOERR_SHORT_READ).

Definition sqlite3OsSync (f : file_id) : pg Z :=
  k ← tick;
  (if pe_io e k =? SQLITE_OK then log_event (EvSync f) else mret tt);;
  mret (pe_io e k).

Definition sqlite3OsTruncate (f : file_id) (n : Z) : pg Z :=
  k ← tick;
  (if pe_io e k =? SQLITE_OK then
     modify (fun p => set_file f (file_truncate (the_file f p) n) p);; log_event (EvTruncate f n)
   else mret tt);;
  mret (pe_io e k).

Definition sqlite3OsFileSize (f : file_id) : pg (Z * Z) :=
  k ← tick; x ← get (the_file f); mret (f_size x, pe_io e k).

(** [sqlite3OsDelete] of the journal. *)
Definition sqlite3OsDelete (dirSync : bool) : pg Z :=
  k ← tick;
  (if pe_io e k =? SQLITE_OK then
     modify (fun p => set_jexists false (set_journal empty_file p));; log_event (EvDelete dirSync)
   else mret tt);;
  mret (pe_io e k).

(** Whether another process holds a RESERVED lock, and the code. *)
Definition sqlite3OsCheckReservedLock : pg (bool * Z) := k ← tick; mret (pe_reserved e k, pe_io e k).

(** A call of which only the result matters. *)
Definition os_call : pg Z := k ← tick; mret (pe_io e k).

Definition alloc : pg bool := k ← tick; mret (pe_alloc e k).

(** ** Numbers *)

Definition put32bits (v : Z) : list Z :=
  [Z.land (Z.shiftr v 24) 255; Z.land (Z.shiftr v 16) 255; Z.land (Z.shiftr v 8) 255; Z.land v 255].

Definition sqlite3Get4byte (l : list Z) : Z :=
  match l with
  | [a; b; c; d] => Z.lor (Z.lor (Z.shiftl a 24) (Z.shiftl b 16)) (Z.lor (Z.shiftl c 8) d)
  | _ => 0
  end.

Definition read32bits (f : file_id) (off : Z) : pg (Z * Z) :=
  '(ac, rc) ← sqlite3OsRead f 4 off; mret (sqlite3Get4byte ac, rc).

Definition write32bits (f : file_id) (off v : Z) : pg Z := sqlite3OsWrite f (put32bits v) off.

(** ** Bit vectors *)

(** [sqlite3BitvecTest]; a null pointer has no bit set. *)
Definition sqlite3BitvecTest (b : option Bitvec) (i : Z) : bool :=
  match b with Some b => (i <=? bv_iSize b) && bool_decide (i ∈ bv_bits b) | None => false end.

Definition bv_set (i : Z) (b : Bitvec) : Bitvec := mkBitvec (bv_iSize b) ({[i]} ∪ bv_bits b).

(** ** Cache *)

Definition is_open_sj (p : Pager) : bool := bool_decide (is_Some (sjfd p)).

Definition upd_page (pgno : Z) (f : PgHdr -> PgHdr) : pg unit := modify (fun p => set_pPCache (alter f pgno (pPCache p)) p).

Definition pg_set_data (d : list Z) (x : PgHdr) : PgHdr := mkPgHdr d (pg_dirty x) (pg_needSync x) (pg_writeable x) (pg_dontWrite x).
Definition pg_set_needSync (x : PgHdr) : PgHdr := mkPgHdr (pg_data x) (pg_dirty x) true (pg_writeable x) (pg_dontWrite x).
Definition pg_set_writeable (x : PgHdr) : PgHdr := mkPgHdr (pg_data x) (pg_dirty x) (pg_needSync x) true (pg_dontWrite x).

Definition sqlite3PcacheMakeDirty (x : PgHdr) : PgHdr := mkPgHdr (pg_data x) true (pg_needSync x) (pg_writeable x) false.
Definition sqlite3PcacheMakeClean (x : PgHdr) : PgHdr := mkPgHdr (pg_data x) false false false (pg_dontWrite x).

Definition on_dirty (f : PgHdr -> PgHdr) (c : gmap Z PgHdr) : gmap Z PgHdr := (fun x => if pg_dirty x then f x else x) <$> c.

Definition sqlite3PcacheCleanAll : gmap Z PgHdr -> gmap Z PgHdr := on_dirty sqlite3PcacheMakeClean.
Definition sqlite3PcacheClearSyncFlags : gmap Z PgHdr -> gmap Z PgHdr :=
  on_dirty (fun x => mkPgHdr (pg_data x) (pg_dirty x) false (pg_writeable x) (pg_dontWrite x)).

(** Page 1 is in use by the B-tree: it is zeroed and stays. *)
Definition sqlite3PcacheTruncate (szPage pgno : Z) (c : gmap Z PgHdr) : gmap Z PgHdr :=
  if pgno =? 0 then
    match c !! 1 with
    | Some x => {[ 1 := pg_set_data (replicate (Z.to_nat szPage) 0) (if pg_dirty x then sqlite3PcacheMakeClean x else x) ]}
    | None => ∅
    end
  else filter (fun kv => kv.1 <= pgno) c.

(** The dirty pages in the order of their numbers. *)
Definition sqlite3PcacheDirtyList (c : gmap Z PgHdr) : list Z :=
  merge_sort Z.le (map_to_list (filter (fun kv => pg_dirty kv.2 = true) c)).*1.

(** The page number of the locking page. *)
Definition PAGER_SJ_PGNO (p : Pager) : Z := 0x40000000 / pageSize p + 1.
End System.


(** Fields of changed states, without unfolding the states themselves. *)
Ltac field_of t := eval cbn [pageSize sectorSize mxPgno eState eLock errCode changeCountDone hasHeldSharedLock doNotSpill dbSize dbOrigSize dbFileSize nRec cksumInit nSubRec pInJournal journalOff journalHdr aSavepoint dbFileVers pPCache fd jfd journal jexists sjfd log
  set_pageSize set_sectorSize set_mxPgno set_eState set_eLock set_errCode set_changeCountDone set_hasHeldSharedLock set_doNotSpill set_dbSize set_dbOrigSize set_dbFileSize set_nRec set_cksumInit set_nSubRec set_pInJournal set_journalOff set_journalHdr set_aSavepoint set_dbFileVers set_pPCache set_fd set_jfd set_journal set_jexists set_sjfd set_log the_file set_file] in t.
Ltac psimp_one f :=
  repeat match goal with
    | |- context [f ?t] => lazymatch t with ?s ?x ?p => let r := field_of (f t) in tryif constr_eq r (f t) then fail else replace (f t) with r by reflexivity end
    end.
Ltac psimp :=
  psimp_one pageSize; psimp_one sectorSize; psimp_one mxPgno; psimp_one eState; psimp_one eLock; psimp_one errCode;
  psimp_one changeCountDone; psimp_one hasHeldSharedLock; psimp_one doNotSpill; psimp_one dbSize; psimp_one dbOrigSize; psimp_one dbFileSize; psimp_one nRec;
  psimp_one cksumInit; psimp_one nSubRec; psimp_one pInJournal; psimp_one journalOff; psimp_one journalHdr; psimp_one aSavepoint;
  psimp_one dbFileVers; psimp_one pPCache; psimp_one fd; psimp_one jfd; psimp_one journal; psimp_one jexists;
  psimp_one sjfd; psimp_one log.

Lemma pager_ext p q :
  pageSize p = pageSize q -> sectorSize p = sectorSize q -> mxPgno p = mxPgno q -> eState p = eState q ->
  eLock p = eLock q -> errCode p = errCode q -> changeCountDone p = changeCountDone q -> hasHeldSharedLock p = hasHeldSharedLock q -> doNotSpill p = doNotSpill q ->
  dbSize p = dbSize q -> dbOrigSize p = dbOrigSize q -> dbFileSize p = dbFileSize q -> nRec p = nRec q ->
  cksumInit p = cksumInit q -> nSubRec p = nSubRec q -> pInJournal p = pInJournal q -> journalOff p = journalOff q ->
  journalHdr p = journalHdr q -> aSavepoint p = aSavepoint q -> dbFileVers p = dbFileVers q -> pPCache p = pPCache q ->
  fd p = fd q -> jfd p = jfd q -> journal p = journal q -> jexists p = jexists q ->
  sjfd p = sjfd q -> log p = log q -> p = q.
Proof. destruct p, q. cbn. intros. subst. reflexivity. Qed.

(** Equal fields; what is left are the fields that differ in form. *)
Ltac pext := apply pager_ext; psimp; try (lazymatch goal with |- ?a = ?a => reflexivity end).
