(* ===== verification/PagerJournal.v ===== *)
(** * The pager: journals and playback

    Journal headers and records, the sub-journal, reading pages, and the playback of
    the journals that takes back a transaction or a savepoint. *)
From stdpp Require Import gmap sorting.
From S2P Require Import Prelude Value Record Savepoint Pager.

Local Open Scope Z_scope.

Definition PAGER_OPEN : Z := 0.
Definition PAGER_READER : Z := 1.
Definition PAGER_WRITER_LOCKED : Z := 2.
Definition PAGER_WRITER_CACHEMOD : Z := 3.
Definition PAGER_WRITER_DBMOD : Z := 4.
Definition PAGER_WRITER_FINISHED : Z := 5.
Definition PAGER_ERROR : Z := 6.

Definition PAGER_JOURNALMODE_DELETE : Z := 0.
Definition PAGER_JOURNALMODE_PERSIST : Z := 1.
Definition PAGER_JOURNALMODE_OFF : Z := 2.
Definition PAGER_JOURNALMODE_TRUNCATE : Z := 3.
Definition PAGER_JOURNALMODE_MEMORY : Z := 4.
Definition PAGER_JOURNALMODE_WAL : Z := 5.

Definition aJournalMagic : list Z := [0xd9; 0xd5; 0x05; 0xf9; 0x20; 0xa1; 0x63; 0xd7].

Definition JOURNAL_HDR_SZ (p : Pager) : Z := sectorSize p.
Definition JOURNAL_PG_SZ (p : Pager) : Z := pageSize p + 8.

Definition zeros (n : Z) : list Z := replicate (Z.to_nat n) 0.

Section Journal.
Context (e : PagerEnv).

Definition journalMode : Z := c_journalMode (pe_cfg e).
Definition noSync : bool := c_noSync (pe_cfg e).
Definition fullSync : bool := c_fullSync (pe_cfg e).
Definition exclusiveMode : bool := c_exclusiveMode (pe_cfg e).
Definition SAFE_APPEND : bool := negb (Z.land (c_iDc (pe_cfg e)) 0x200 =? 0).
Definition SEQUENTIAL : bool := negb (Z.land (c_iDc (pe_cfg e)) 0x400 =? 0).

(** ** Headers *)

Definition journalHdrOffset (p : Pager) : Z :=
  let c := journalOff p in
  if c =? 0 then 0 else ((c - 1) / JOURNAL_HDR_SZ p + 1) * JOURNAL_HDR_SZ p.

Definition set_hdrOffset (off : Z) (s : PagerSavepoint) : PagerSavepoint :=
  if iHdrOffset s =? 0
  then mkPagerSavepoint (iOffset s) off (pInSavepoint s) (nOrig s) (iSubRec s) (bTruncateOnRelease s) else s.

(** The loop that fills the header sector. *)
Fixpoint write_header (fuel : nat) (zHeader : list Z) (nWrite : Z) : pg Z :=
  match fuel with
  | O => stuck
  | S fuel =>
      n ← get JOURNAL_HDR_SZ;
      if nWrite <? n then
        off ← get journalOff;
        rc ← sqlite3OsWrite e Jrnl zHeader off;
        modify (set_journalOff (off + Zlen zHeader));;
        if rc =? SQLITE_OK then write_header fuel zHeader (nWrite + Zlen zHeader) else mret rc
      else mret SQLITE_OK
  end.

Definition writeJournalHdr : pg Z :=
  nHeader ← get (fun p => if JOURNAL_HDR_SZ p <? pageSize p then JOURNAL_HDR_SZ p else pageSize p);
  modify (fun p => set_aSavepoint (set_hdrOffset (journalOff p) <$> aSavepoint p) p);;
  modify (fun p => let off := journalHdrOffset p in set_journalHdr off (set_journalOff off p));;
  (if negb (journalMode =? PAGER_JOURNALMODE_MEMORY)
   then k ← tick; modify (set_cksumInit (pe_rand e k mod 2 ^ 32)) else mret tt);;
  zHeader ← get (fun p =>
    (if noSync || (journalMode =? PAGER_JOURNALMODE_MEMORY) || SAFE_APPEND
     then aJournalMagic ++ put32bits 0xffffffff else zeros 12)
    ++ put32bits (cksumInit p) ++ put32bits (dbOrigSize p) ++ put32bits (sectorSize p) ++ put32bits (pageSize p)
    ++ zeros (nHeader - 28));
  fuel ← get (fun p => S (Z.to_nat (JOURNAL_HDR_SZ p)));
  write_header fuel zHeader 0.

(** [pager_reset] *)
Definition pager_reset : pg unit := modify (set_pPCache ∅).

(** [sqlite3PagerSetPagesize]; the B-tree holds a page unless the cache is empty. *)
Definition sqlite3PagerSetPagesize (newSize : Z) : pg Z :=
  p ← get id;
  if bool_decide (pPCache p = ∅) && negb (newSize =? 0) && negb (newSize =? pageSize p) then
    '(nByte, rc) ← (if PAGER_OPEN <? eState p then sqlite3OsFileSize e Db else mret (0, SQLITE_OK));
    if negb (rc =? SQLITE_OK) then mret rc
    else
      ok ← alloc e;
      if negb ok then mret SQLITE_NOMEM
      else
        pager_reset;;
        modify (fun p => set_dbSize ((nByte + newSize - 1) / newSize) (set_pageSize newSize p));;
        mret SQLITE_OK
  else mret SQLITE_OK.

Definition power_of_two (n : Z) : bool := Z.land (n - 1) n =? 0.

(** The code, [*pNRec] and [*pDbSize]. *)
Definition readJournalHdr (isHot : bool) (journalSize : Z) : pg (Z * Z * Z) :=
  modify (fun p => set_journalOff (journalHdrOffset p) p);;
  p ← get id;
  let iHdrOff := journalOff p in
  if journalSize <? iHdrOff + JOURNAL_HDR_SZ p then mret (SQLITE_DONE, 0, 0)
  else
    rc ← (if isHot || negb (iHdrOff =? journalHdr p) then
            '(aMagic, rc) ← sqlite3OsRead e Jrnl 8 iHdrOff;
            if negb (rc =? SQLITE_OK) then mret rc
            else if bool_decide (aMagic = aJournalMagic) then mret SQLITE_OK else mret SQLITE_DONE
          else mret SQLITE_OK);
    if negb (rc =? SQLITE_OK) then mret (rc, 0, 0)
    else
      '(nRec, rc) ← read32bits e Jrnl (iHdrOff + 8);
      if negb (rc =? SQLITE_OK) then mret (rc, nRec, 0)
      else
        '(ck, rc) ← read32bits e Jrnl (iHdrOff + 12);
        if negb (rc =? SQLITE_OK) then mret (rc, nRec, 0)
        else
          modify (set_cksumInit ck);;
          '(nDb, rc) ← read32bits e Jrnl (iHdrOff + 16);
          if negb (rc =? SQLITE_OK) then mret (rc, nRec, nDb)
          else
            rc ← (if iHdrOff =? 0 then
                    '(iSectorSize, rc) ← read32bits e Jrnl (iHdrOff + 20);
                    if negb (rc =? SQLITE_OK) then mret rc
                    else
                      '(iPageSize, rc) ← read32bits e Jrnl (iHdrOff + 24);
                      if negb (rc =? SQLITE_OK) then mret rc
                      else
                        let iPageSize := if iPageSize =? 0 then pageSize p else iPageSize in
                        if (iPageSize <? 512) || (iSectorSize <? 32) || (65536 <? iPageSize) || (0x10000 <? iSectorSize)
                           || negb (power_of_two iPageSize) || negb (power_of_two iSectorSize)
                        then mret SQLITE_DONE
                        else
                          rc ← sqlite3PagerSetPagesize iPageSize;
                          modify (set_sectorSize iSectorSize);;
                          modify (fun p => set_journalOff (journalOff p + JOURNAL_HDR_SZ p) p);;
                          mret rc
                  else
                    modify (fun p => set_journalOff (journalOff p + JOURNAL_HDR_SZ p) p);;
                    mret SQLITE_OK);
            mret (rc, nRec, nDb).

(** The code and the name, empty if there is none. *)
Definition readSuperJournal : pg (Z * list Z) :=
  '(szJ, rc) ← sqlite3OsFileSize e Jrnl;
  if negb (rc =? SQLITE_OK) || (szJ <? 16) then mret (rc, [])
  else
    '(len, rc) ← read32bits e Jrnl (szJ - 16);
    if negb (rc =? SQLITE_OK) || (c_mxPathname (pe_cfg e) + 1 <=? len) || (szJ - 16 <? len) || (len =? 0) then mret (rc, [])
    else
      '(cksum, rc) ← read32bits e Jrnl (szJ - 12);
      if negb (rc =? SQLITE_OK) then mret (rc, [])
      else
        '(aMagic, rc) ← sqlite3OsRead e Jrnl 8 (szJ - 8);
        if negb (rc =? SQLITE_OK) || negb (bool_decide (aMagic = aJournalMagic)) then mret (rc, [])
        else
          '(zSuper, rc) ← sqlite3OsRead e Jrnl len (szJ - 16 - len);
          if negb (rc =? SQLITE_OK) then mret (rc, [])
          else
            let sum := foldr (fun c s => s + (if c <? 128 then c else c - 256)) 0 zSuper in
            mret (SQLITE_OK, if (cksum - sum) mod 2 ^ 32 =? 0 then zSuper else []).

(** ** Records *)

(** The bytes at [i], [i - 200], ... down to the first, which is left out. *)
Fixpoint cksum_loop (fuel : nat) (aData : list Z) (i cksum : Z) : Z :=
  match fuel with
  | O => cksum
  | S fuel =>
      if 0 <? i then cksum_loop fuel aData (i - 200) ((cksum + default 0 (aData !! Z.to_nat i)) mod 2 ^ 32) else cksum
  end.

Definition pager_cksum (p : Pager) (aData : list Z) : Z :=
  cksum_loop (Z.to_nat (pageSize p)) aData (pageSize p - 200) (cksumInit p).

(** [addToSavepointBitvecs]: the savepoints that were there when the page was. *)
Fixpoint addToSavepointBitvecs_loop (pgno : Z) (l : list PagerSavepoint) (rc : Z) : pg (list PagerSavepoint * Z) :=
  match l with
  | [] => mret ([], rc)
  | s :: l =>
      if pgno <=? nOrig s then
        ok ← alloc e;
        let s := if (ok : bool) then mkPagerSavepoint (iOffset s) (iHdrOffset s) (bv_set pgno (pInSavepoint s)) (nOrig s) (iSubRec s) (bTruncateOnRelease s) else s in
        '(l, rc) ← addToSavepointBitvecs_loop pgno l (if ok then rc else SQLITE_NOMEM);
        mret (s :: l, rc)
      else
        '(l, rc) ← addToSavepointBitvecs_loop pgno l rc;
        mret (s :: l, rc)
  end.

Definition addToSavepointBitvecs (pgno : Z) : pg Z :=
  l ← get aSavepoint;
  '(l, rc) ← addToSavepointBitvecs_loop pgno l SQLITE_OK;
  modify (set_aSavepoint l);;
  mret rc.

(** [sqlite3BitvecSet] on [pInJournal]. *)
Definition set_inJournal (pgno : Z) : pg Z :=
  b ← get pInJournal;
  ok ← match b with Some _ => alloc e | None => mret true end;
  if (ok : bool) then modify (fun p => set_pInJournal (bv_set pgno <$> pInJournal p) p);; mret SQLITE_OK
  else mret SQLITE_NOMEM.

Definition pagerAddPageToRollbackJournal (pgno : Z) : pg Z :=
  p ← get id;
  match pPCache p !! pgno with
  | None => stuck
  | Some pPg =>
      let iOff := journalOff p in
      upd_page pgno pg_set_needSync;;
      (write32bits e Jrnl iOff pgno ?;
       sqlite3OsWrite e Jrnl (pg_data pPg) (iOff + 4) ?;
       write32bits e Jrnl (iOff + pageSize p + 4) (pager_cksum p (pg_data pPg)) ?;
       (modify (fun p => set_journalOff (journalOff p + 8 + pageSize p) (set_nRec (nRec p + 1) p));;
        rc ← set_inJournal pgno;
        rc2 ← addToSavepointBitvecs pgno;
        mret (Z.lor rc rc2)))
  end.

(** ** The sub-journal *)

Definition sub_write (bs : list Z) (off : Z) : pg Z :=
  f ← get sjfd;
  match f with
  | None => stuck
  | Some f =>
      k ← tick;
      modify (set_sjfd (Some (file_write f off (if pe_io e k =? SQLITE_OK then bs else take (pe_part e k) bs))));;
      mret (pe_io e k)
  end.

Definition sub_read (n off : Z) : pg (list Z * Z) :=
  f ← get sjfd;
  match f with
  | None => stuck
  | Some f =>
      k ← tick;
      if negb (pe_io e k =? SQLITE_OK) then mret (zeros n, pe_io e k)
      else mret (file_bytes f off n, if off + n <=? f_size f then SQLITE_OK else SQLITE_IOERR_SHORT_READ)
  end.

Definition openSubJournal : pg Z :=
  b ← get is_open_sj;
  if (b : bool) then mret SQLITE_OK
  else
    rc ← os_call e;
    (if rc =? SQLITE_OK then modify (set_sjfd (Some empty_file)) else mret tt);;
    mret rc.

(** Whether a savepoint needs the page; those inside it keep their part of the sub-journal. *)
Fixpoint subj_requires (pgno : Z) (l : list PagerSavepoint) : bool * list PagerSavepoint :=
  match l with
  | [] => (false, [])
  | s :: l =>
      if (pgno <=? nOrig s) && negb (sqlite3BitvecTest (Some (pInSavepoint s)) pgno)
      then (true, s :: ((fun t => mkPagerSavepoint (iOffset t) (iHdrOffset t) (pInSavepoint t) (nOrig t) (iSubRec t) false) <$> l))
      else let '(b, l) := subj_requires pgno l in (b, s :: l)
  end.

Definition subjRequiresPage (pgno : Z) : pg bool :=
  l ← get aSavepoint;
  let '(b, l) := subj_requires pgno l in
  modify (set_aSavepoint l);; mret b.

Definition subjournalPage (pgno : Z) : pg Z :=
  p ← get id;
  match pPCache p !! pgno with
  | None => stuck
  | Some pPg =>
      rc ← (if negb (journalMode =? PAGER_JOURNALMODE_OFF) then
              let offset := nSubRec p * (4 + pageSize p) in
              (openSubJournal ?;
               sub_write (put32bits pgno) offset ?;
               sub_write (pg_data pPg) (offset + 4))
            else mret SQLITE_OK);
      if rc =? SQLITE_OK then
        modify (fun p => set_nSubRec (nSubRec p + 1) p);;
        addToSavepointBitvecs pgno
      else mret rc
  end.

Definition subjournalPageIfRequired (pgno : Z) : pg Z :=
  b ← subjRequiresPage pgno;
  if (b : bool) then subjournalPage pgno else mret SQLITE_OK.

(** ** Pages *)

Definition new_page (d : list Z) : PgHdr := mkPgHdr d false false false false.

Definition take_vers (d : list Z) : list Z := take 16 (drop 24 d).

(** The data and the code. *)
Definition readDbPage (pgno : Z) : pg (list Z * Z) :=
  p ← get id;
  '(d, rc) ← sqlite3OsRead e Db (pageSize p) ((pgno - 1) * pageSize p);
  let rc := if rc =? SQLITE_IOERR_SHORT_READ then SQLITE_OK else rc in
  (if pgno =? 1 then modify (set_dbFileVers (if rc =? SQLITE_OK then take_vers d else replicate 16 0xff)) else mret tt);;
  mret (d, rc).

(** [getPageNormal] and [getPageError]; the caller holds a reference to page 1. *)
Definition sqlite3PagerGet (pgno : Z) (noContent : bool) : pg Z :=
  p ← get id;
  if negb (errCode p =? SQLITE_OK) then mret (errCode p)
  else if pgno =? 0 then mret SQLITE_CORRUPT
  else
    let cached := pPCache p !! pgno in
    if bool_decide (is_Some cached) && negb noContent then mret SQLITE_OK
    else
      ok ← (if bool_decide (is_Some cached) then mret true else alloc e);
      if negb (ok : bool) then mret SQLITE_NOMEM
      else if pgno =? PAGER_SJ_PGNO p then modify (fun p => set_pPCache (delete pgno (pPCache p)) p);; mret SQLITE_CORRUPT
      else
        let x := default (new_page []) cached in
        if (dbSize p <? pgno) || noContent then
          if mxPgno p <? pgno then
            (if dbSize p <? pgno then modify (fun p => set_pPCache (delete pgno (pPCache p)) p) else mret tt);;
            mret SQLITE_FULL
          else
            (if noContent then
               (if pgno <=? dbOrigSize p then _ ← set_inJournal pgno; mret tt else mret tt);;
               _ ← addToSavepointBitvecs pgno; mret tt
             else mret tt);;
            modify (fun p => set_pPCache (<[pgno := pg_set_data (zeros (pageSize p)) x]> (pPCache p)) p);;
            mret SQLITE_OK
        else
          '(d, rc) ← readDbPage pgno;
          if rc =? SQLITE_OK then modify (fun p => set_pPCache (<[pgno := pg_set_data d x]> (pPCache p)) p);; mret SQLITE_OK
          else modify (fun p => set_pPCache (delete pgno (pPCache p)) p);; mret rc.

(** ** Playback *)

Definition read_journal (isMainJrnl : bool) (n off : Z) : pg (list Z * Z) :=
  if isMainJrnl then sqlite3OsRead e Jrnl n off else sub_read n off.

Definition SPILLFLAG_ROLLBACK : Z := 2.
Definition SPILLFLAG_OFF : Z := 1.

(** The record has been read and is to be restored. *)
Definition restore_page (isMainJrnl : bool) (off pgno : Z) (aData : list Z) : pg Z :=
  p ← get id;
  let pPg := pPCache p !! pgno in
  let isSynced := if isMainJrnl then noSync || (off <=? journalHdr p)
                  else match pPg with Some x => negb (pg_needSync x) | None => true end in
  rc ← (if ((PAGER_WRITER_DBMOD <=? eState p) || (eState p =? PAGER_OPEN)) && isSynced then
          rc ← sqlite3OsWrite e Db aData ((pgno - 1) * pageSize p);
          modify (fun p => if dbFileSize p <? pgno then set_dbFileSize pgno p else p);;
          mret rc
        else if negb isMainJrnl && bool_decide (pPg = None) then
          modify (fun p => set_doNotSpill (Z.lor (doNotSpill p) SPILLFLAG_ROLLBACK) p);;
          rc ← sqlite3PagerGet pgno true;
          modify (fun p => set_doNotSpill (Z.ldiff (doNotSpill p) SPILLFLAG_ROLLBACK) p);;
          (if rc =? SQLITE_OK then upd_page pgno sqlite3PcacheMakeDirty else mret tt);;
          mret rc
        else mret SQLITE_OK);
  b ← get (fun p => bool_decide (is_Some (pPCache p !! pgno)));
  (if (b : bool) then
     upd_page pgno (pg_set_data aData);;
     (if pgno =? 1 then modify (set_dbFileVers (take_vers aData)) else mret tt)
   else mret tt);;
  mret rc.

(** The code, the new offset and the pages done. *)
Definition pager_playback_one_page (off : Z) (pDone : option Bitvec) (isMainJrnl isSavepnt : bool)
    : pg (Z * Z * option Bitvec) :=
  p ← get id;
  '(ac, rc) ← read_journal isMainJrnl 4 off;
  let pgno := sqlite3Get4byte ac in
  if negb (rc =? SQLITE_OK) then mret (rc, off, pDone)
  else
    '(aData, rc) ← read_journal isMainJrnl (pageSize p) (off + 4);
    if negb (rc =? SQLITE_OK) then mret (rc, off, pDone)
    else
      let off := off + pageSize p + 4 + (if isMainJrnl then 4 else 0) in
      if (pgno =? 0) || (pgno =? PAGER_SJ_PGNO p) then mret (SQLITE_DONE, off, pDone)
      else if (dbSize p <? pgno) || sqlite3BitvecTest pDone pgno then mret (SQLITE_OK, off, pDone)
      else
        rc ← (if isMainJrnl then
                '(cksum, rc) ← read32bits e Jrnl (off - 4);
                if negb (rc =? SQLITE_OK) then mret rc
                else if negb isSavepnt && negb (pager_cksum p aData =? cksum) then mret SQLITE_DONE
                else mret SQLITE_OK
              else mret SQLITE_OK);
        if negb (rc =? SQLITE_OK) then mret (rc, off, pDone)
        else
          ok ← match pDone with Some _ => alloc e | None => mret true end;
          if negb ok then mret (SQLITE_NOMEM, off, pDone)
          else
            rc ← restore_page isMainJrnl off pgno aData;
            mret (rc, off, bv_set pgno <$> pDone).

(** One record of the main journal at [journalOff]. *)
Definition playback_main (pDone : option Bitvec) (isSavepnt : bool) : pg (Z * option Bitvec) :=
  off ← get journalOff;
  '(rc, off, pDone) ← pager_playback_one_page off pDone true isSavepnt;
  modify (set_journalOff off);;
  mret (rc, pDone).

(** Records up to the offset [limit]. *)
Fixpoint playback_until (fuel : nat) (limit : Z) (pDone : option Bitvec) : pg (Z * option Bitvec) :=
  match fuel with
  | O => stuck
  | S fuel =>
      off ← get journalOff;
      if off <? limit then
        '(rc, pDone) ← playback_main pDone true;
        if rc =? SQLITE_OK then playback_until fuel limit pDone else mret (rc, pDone)
      else mret (SQLITE_OK, pDone)
  end.

(** At most [n] records before [szJ]. *)
Fixpoint playback_count (n : nat) (szJ : Z) (pDone : option Bitvec) : pg (Z * option Bitvec) :=
  match n with
  | O => mret (SQLITE_OK, pDone)
  | S n =>
      off ← get journalOff;
      if off <? szJ then
        '(rc, pDone) ← playback_main pDone true;
        if rc =? SQLITE_OK then playback_count n szJ pDone else mret (rc, pDone)
      else mret (SQLITE_OK, pDone)
  end.

(** The segments from the next header on. *)
Fixpoint playback_segments (fuel : nat) (szJ : Z) (pDone : option Bitvec) : pg (Z * option Bitvec) :=
  match fuel with
  | O => stuck
  | S fuel =>
      off ← get journalOff;
      if off <? szJ then
        '(rc, nJRec, _) ← readJournalHdr false szJ;
        p ← get id;
        let nJRec := if (nJRec =? 0) && (journalHdr p + JOURNAL_HDR_SZ p =? journalOff p)
                     then (szJ - journalOff p) / JOURNAL_PG_SZ p else nJRec in
        if negb (rc =? SQLITE_OK) then mret (rc, pDone)
        else
          '(rc, pDone) ← playback_count (Z.to_nat nJRec) szJ pDone;
          if rc =? SQLITE_OK then playback_segments fuel szJ pDone else mret (rc, pDone)
      else mret (SQLITE_OK, pDone)
  end.

(** The records of the sub-journal. *)
Fixpoint playback_sub (n : nat) (offset : Z) (pDone : option Bitvec) : pg Z :=
  match n with
  | O => mret SQLITE_OK
  | S n =>
      '(rc, offset, pDone) ← pager_playback_one_page offset pDone false true;
      if rc =? SQLITE_OK then playback_sub n offset pDone else mret rc
  end.

Definition pagerPlaybackSavepoint (pSavepoint : option PagerSavepoint) : pg Z :=
  ok ← match pSavepoint with Some _ => alloc e | None => mret true end;
  if negb ok then mret SQLITE_NOMEM
  else
    let pDone := (fun s => mkBitvec (nOrig s) ∅) <$> pSavepoint in
    modify (fun p => set_changeCountDone false (set_dbSize (match pSavepoint with Some s => nOrig s | None => dbOrigSize p end) p));;
    szJ ← get journalOff;
    '(rc, pDone) ← match pSavepoint with
                   | Some s =>
                       let iHdrOff := if iHdrOffset s =? 0 then szJ else iHdrOffset s in
                       modify (set_journalOff (iOffset s));;
                       playback_until (S (Z.to_nat iHdrOff)) iHdrOff pDone
                   | None => modify (set_journalOff 0);; mret (SQLITE_OK, pDone)
                   end;
    '(rc, pDone) ← (if rc =? SQLITE_OK then playback_segments (S (Z.to_nat szJ)) szJ pDone else mret (rc, pDone));
    rc ← match pSavepoint with
         | Some s =>
             if rc =? SQLITE_OK then
               p ← get id;
               playback_sub (Z.to_nat (nSubRec p - iSubRec s)) (iSubRec s * (4 + pageSize p)) pDone
             else mret rc
         | None => mret rc
         end;
    (if rc =? SQLITE_OK then modify (set_journalOff szJ) else mret tt);;
    mret rc.

End Journal.
