(* ===== verification/PagerOps.v ===== *)
(** * The pager: transactions

    Locks, writing pages, spilling the cache, committing, rolling back, savepoints, and
    the recovery of a database whose journal was left behind. *)
From stdpp Require Import gmap sorting.
From S2P Require Import Prelude Value Codes Record Savepoint Pager PagerJournal.

Local Open Scope Z_scope.

Definition NO_LOCK : Z := 0.
Definition SHARED_LOCK : Z := 1.
Definition RESERVED_LOCK : Z := 2.
Definition EXCLUSIVE_LOCK : Z := 4.
Definition UNKNOWN_LOCK : Z := 5.

Section Ops.
Context (e : PagerEnv).

(** ** Locks *)

Definition pagerUnlockDb (lock : Z) : pg Z :=
  rc ← os_call e;
  modify (fun p => set_changeCountDone false (if negb (eLock p =? UNKNOWN_LOCK) then set_eLock lock p else p));;
  mret rc.

Definition pagerLockDb (lock : Z) : pg Z :=
  p ← get id;
  if (eLock p <? lock) || (eLock p =? UNKNOWN_LOCK) then
    k ← tick;
    (if (pe_lock e k =? SQLITE_OK) && (negb (eLock p =? UNKNOWN_LOCK) || (lock =? EXCLUSIVE_LOCK))
     then modify (set_eLock lock) else mret tt);;
    mret (pe_lock e k)
  else mret SQLITE_OK.

(** The busy handler asks for [n] more attempts; then the code of the last one is returned. *)
Fixpoint wait_loop (n : nat) (lock : Z) : pg Z :=
  rc ← pagerLockDb lock;
  if rc =? SQLITE_BUSY then match n with O => mret rc | S n => wait_loop n lock end else mret rc.

Definition pager_wait_on_lock (lock : Z) : pg Z := wait_loop (c_nBusy (pe_cfg e)) lock.

Definition pager_error (rc : Z) : pg Z :=
  let rc2 := Z.land rc 0xff in
  (if (rc2 =? SQLITE_FULL) || (rc2 =? SQLITE_IOERR)
   then modify (fun p => set_eState PAGER_ERROR (set_errCode rc p)) else mret tt);;
  mret rc.

Definition sqlite3PagerExclusiveLock : pg Z :=
  rc ← get errCode;
  if rc =? SQLITE_OK then pager_wait_on_lock EXCLUSIVE_LOCK else mret rc.

(** ** The end of a transaction *)

Definition releaseAllSavepoints : pg unit :=
  modify (fun p => set_nSubRec 0 (set_aSavepoint []
    (if negb (exclusiveMode e) || c_sjInMemory (pe_cfg e) then set_sjfd None p else p))).

Definition zeroJournalHdr (doTruncate : bool) : pg Z :=
  off ← get journalOff;
  if off =? 0 then mret SQLITE_OK
  else
    let iLimit := c_journalSizeLimit (pe_cfg e) in
    (if doTruncate || (iLimit =? 0) then sqlite3OsTruncate e Jrnl 0 else sqlite3OsWrite e Jrnl (zeros 28) 0) ?;
    (if noSync e then mret SQLITE_OK else sqlite3OsSync e Jrnl) ?;
    if 0 <? iLimit then
      '(sz, rc) ← sqlite3OsFileSize e Jrnl;
      if (rc =? SQLITE_OK) && (iLimit <? sz) then sqlite3OsTruncate e Jrnl iLimit else mret rc
    else mret SQLITE_OK.

Definition pager_truncate (nPage : Z) : pg Z :=
  p ← get id;
  if (PAGER_WRITER_DBMOD <=? eState p) || (eState p =? PAGER_OPEN) then
    '(currentSize, rc) ← sqlite3OsFileSize e Db;
    let szPage := pageSize p in
    let newSize := szPage * nPage in
    if (rc =? SQLITE_OK) && negb (currentSize =? newSize) then
      (if newSize <? currentSize then sqlite3OsTruncate e Db newSize
       else if currentSize + szPage <=? newSize then sqlite3OsWrite e Db (zeros szPage) (newSize - szPage)
       else mret SQLITE_OK) ?;
      (modify (set_dbFileSize nPage);; mret SQLITE_OK)
    else mret rc
  else mret SQLITE_OK.

(** How the journal is made useless. *)
Definition finalize_journal (hasSuper : bool) : pg Z :=
  if journalMode e =? PAGER_JOURNALMODE_MEMORY then
    modify (fun p => set_jfd false (set_journal empty_file p));; mret SQLITE_OK
  else if journalMode e =? PAGER_JOURNALMODE_TRUNCATE then
    off ← get journalOff;
    rc ← (if off =? 0 then mret SQLITE_OK
          else sqlite3OsTruncate e Jrnl 0 ?; if fullSync e then sqlite3OsSync e Jrnl else mret SQLITE_OK);
    modify (set_journalOff 0);; mret rc
  else if (journalMode e =? PAGER_JOURNALMODE_PERSIST) || (exclusiveMode e && (journalMode e <? PAGER_JOURNALMODE_WAL)) then
    rc ← zeroJournalHdr hasSuper;
    modify (set_journalOff 0);; mret rc
  else
    modify (set_jfd false);; sqlite3OsDelete e (c_extraSync (pe_cfg e)).

Definition pager_end_transaction (hasSuper bCommit : bool) : pg Z :=
  p ← get id;
  if (eState p <? PAGER_WRITER_LOCKED) && (eLock p <? RESERVED_LOCK) then mret SQLITE_OK
  else
    releaseAllSavepoints;;
    rc ← (if jfd p then finalize_journal hasSuper else mret SQLITE_OK);
    modify (fun p => set_nRec 0 (set_pInJournal None p));;
    (if rc =? SQLITE_OK then
       modify (fun p => set_pPCache (sqlite3PcacheTruncate (pageSize p) (dbSize p) (sqlite3PcacheCleanAll (pPCache p))) p)
     else mret tt);;
    p ← get id;
    rc ← (if (rc =? SQLITE_OK) && bCommit && (dbSize p <? dbFileSize p) then pager_truncate (dbSize p) else mret rc);
    rc ← (if (rc =? SQLITE_OK) && bCommit then
            rc ← os_call e; mret (if rc =? 12 then SQLITE_OK else rc)
          else mret rc);
    rc2 ← (if negb (exclusiveMode e) then pagerUnlockDb SHARED_LOCK else mret SQLITE_OK);
    modify (set_eState PAGER_READER);;
    mret (if rc =? SQLITE_OK then rc2 else rc).

Definition pager_unlock : pg unit :=
  modify (set_pInJournal None);;
  releaseAllSavepoints;;
  (if negb (exclusiveMode e) then
     modify (fun p => if (Z.land (c_iDc (pe_cfg e)) 0x800 =? 0) || negb (Z.land (journalMode e) 5 =? 1) then set_jfd false p else p);;
     rc ← pagerUnlockDb NO_LOCK;
     modify (fun p => set_eState PAGER_OPEN (if negb (rc =? SQLITE_OK) && (eState p =? PAGER_ERROR) then set_eLock UNKNOWN_LOCK p else p))
   else mret tt);;
  err ← get errCode;
  (if negb (err =? SQLITE_OK) then
     pager_reset;;
     modify (fun p => set_errCode SQLITE_OK (set_eState PAGER_OPEN (set_changeCountDone false p)))
   else mret tt);;
  modify (fun p => set_journalHdr 0 (set_journalOff 0 p)).

(** ** Rollback *)

Definition sqlite3PagerSync : pg Z :=
  rc ← os_call e;
  (mret (if rc =? 12 then SQLITE_OK else rc)) ?;
  if noSync e then mret SQLITE_OK else sqlite3OsSync e Db.

(** The records under one header: the code, whether the cache is still to be reset, and whether
    the playback goes on. *)
Fixpoint playback_records (n : nat) (szJ : Z) (needPagerReset : bool) : pg (Z * bool * bool) :=
  match n with
  | O => mret (SQLITE_OK, needPagerReset, true)
  | S n =>
      (if needPagerReset then pager_reset else mret tt);;
      '(rc, _) ← playback_main e None false;
      if rc =? SQLITE_OK then playback_records n szJ false
      else if rc =? SQLITE_DONE then modify (set_journalOff szJ);; mret (SQLITE_OK, false, true)
      else if rc =? SQLITE_IOERR_SHORT_READ then mret (SQLITE_OK, false, false)
      else mret (rc, false, false)
  end.

(** The loop of [pager_playback] over the headers. *)
Fixpoint playback_headers (fuel : nat) (isHot : bool) (szJ : Z) (needPagerReset : bool) : pg Z :=
  match fuel with
  | O => stuck
  | S fuel =>
      '(rc, nRec, mxPg) ← readJournalHdr e isHot szJ;
      if negb (rc =? SQLITE_OK) then mret (if rc =? SQLITE_DONE then SQLITE_OK else rc)
      else
        p ← get id;
        let nRec := if nRec =? 0xffffffff then (szJ - JOURNAL_HDR_SZ p) / JOURNAL_PG_SZ p else nRec in
        let nRec := if (nRec =? 0) && negb isHot && (journalHdr p + JOURNAL_HDR_SZ p =? journalOff p)
                    then (szJ - journalOff p) / JOURNAL_PG_SZ p else nRec in
        rc ← (if journalOff p =? JOURNAL_HDR_SZ p then
                pager_truncate mxPg ?;
                (modify (fun p => set_dbSize mxPg (if mxPgno p <? mxPg then set_mxPgno mxPg p else p));; mret SQLITE_OK)
              else mret SQLITE_OK);
        if negb (rc =? SQLITE_OK) then mret rc
        else
          '(rc, needPagerReset, more) ← playback_records (Z.to_nat nRec) szJ needPagerReset;
          if (more : bool) then playback_headers fuel isHot szJ needPagerReset else mret rc
  end.

(** What [pager_playback] does before its label [end_playback]: the code and [res]. *)
Definition playback_body (isHot : bool) : pg (Z * bool) :=
  '(szJ, rc) ← sqlite3OsFileSize e Jrnl;
  if negb (rc =? SQLITE_OK) then mret (rc, true)
  else
    '(rc, zSuper) ← readSuperJournal e;
    '(rc, res) ← (if (rc =? SQLITE_OK) && negb (bool_decide (zSuper = []))
                  then rc ← os_call e; mret (rc, pe_exists e zSuper) else mret (rc, true));
    if negb (rc =? SQLITE_OK) || negb res then mret (rc, res)
    else
      modify (set_journalOff 0);;
      rc ← playback_headers (S (S (Z.to_nat szJ))) isHot szJ isHot;
      mret (rc, true).

(** [pager_delsuper], which looks at the journals of other databases, is left out. *)
Definition pager_playback (isHot : bool) : pg Z :=
  savedPageSize ← get pageSize;
  '(rc, res) ← playback_body isHot;
  rc ← (if rc =? SQLITE_OK then sqlite3PagerSetPagesize e savedPageSize else mret rc);
  modify (set_changeCountDone false);;
  '(rc, zSuper) ← (if rc =? SQLITE_OK then readSuperJournal e else mret (rc, []));
  p ← get id;
  rc ← (if (rc =? SQLITE_OK) && ((PAGER_WRITER_DBMOD <=? eState p) || (eState p =? PAGER_OPEN)) then sqlite3PagerSync else mret rc);
  rc ← (if rc =? SQLITE_OK then pager_end_transaction (negb (bool_decide (zSuper = []))) false else mret rc);
  if (rc =? SQLITE_OK) && negb (bool_decide (zSuper = [])) && (res : bool) then stuck
  else
    modify (set_sectorSize (c_sectorSize (pe_cfg e)));;
    mret rc.

Definition sqlite3PagerRollback : pg Z :=
  p ← get id;
  if eState p =? PAGER_ERROR then mret (errCode p)
  else if eState p <=? PAGER_READER then mret SQLITE_OK
  else if negb (jfd p) || (eState p =? PAGER_WRITER_LOCKED) then
    rc ← pager_end_transaction false false;
    if PAGER_WRITER_LOCKED <? eState p then
      modify (fun p => set_eState PAGER_ERROR (set_errCode SQLITE_ABORT p));; mret rc
    else pager_error rc
  else
    rc ← pager_playback false;
    pager_error rc.

(** ** Writing pages *)

Definition sqlite3PagerBegin (exFlag : bool) : pg Z :=
  p ← get id;
  if negb (errCode p =? SQLITE_OK) then mret (errCode p)
  else if eState p =? PAGER_READER then
    pagerLockDb RESERVED_LOCK ?;
    (if exFlag then pager_wait_on_lock EXCLUSIVE_LOCK else mret SQLITE_OK) ?;
    (modify (fun p => set_journalOff 0 (set_dbOrigSize (dbSize p) (set_dbFileSize (dbSize p) (set_eState PAGER_WRITER_LOCKED p))));;
     mret SQLITE_OK)
  else mret SQLITE_OK.

Definition pager_open_journal : pg Z :=
  p ← get id;
  let off := journalMode e =? PAGER_JOURNALMODE_OFF in
  if negb (errCode p =? SQLITE_OK) then mret (errCode p)
  else
    ok ← (if off then mret true else alloc e);
    if negb ok then modify (set_pInJournal None);; mret SQLITE_NOMEM
    else
      rc ← (if off then mret SQLITE_OK
            else
              modify (set_pInJournal (Some (mkBitvec (dbSize p) ∅)));;
              rc ← (if jfd p then mret SQLITE_OK
                    else if journalMode e =? PAGER_JOURNALMODE_MEMORY then
                      modify (fun p => set_jfd true (set_journal empty_file p));; mret SQLITE_OK
                    else
                      os_call e ?;
                      os_call e ?;
                      (modify (fun p => set_jexists true (set_jfd true p));; mret SQLITE_OK));
              if rc =? SQLITE_OK then
                modify (fun p => set_journalHdr 0 (set_journalOff 0 (set_nRec 0 p)));;
                writeJournalHdr e
              else mret rc);
      (if negb (rc =? SQLITE_OK) then modify (fun p => set_journalOff 0 (set_pInJournal None p))
       else modify (set_eState PAGER_WRITER_CACHEMOD));;
      mret rc.

Definition pager_write (pgno : Z) : pg Z :=
  p ← get id;
  (if eState p =? PAGER_WRITER_LOCKED then pager_open_journal else mret SQLITE_OK) ?;
  (upd_page pgno sqlite3PcacheMakeDirty;;
   p ← get id;
   (if bool_decide (is_Some (pInJournal p)) && negb (sqlite3BitvecTest (pInJournal p) pgno) then
      if pgno <=? dbOrigSize p then pagerAddPageToRollbackJournal e pgno
      else (if negb (eState p =? PAGER_WRITER_DBMOD) then upd_page pgno pg_set_needSync else mret tt);; mret SQLITE_OK
    else mret SQLITE_OK) ?;
   (upd_page pgno pg_set_writeable;;
    n ← get (fun p => length (aSavepoint p));
    rc ← (if (0 <? n)%nat then subjournalPageIfRequired e pgno else mret SQLITE_OK);
    modify (fun p => if dbSize p <? pgno then set_dbSize pgno p else p);;
    mret rc)).

Definition page_needSync (p : Pager) (pgno : Z) : bool :=
  match pPCache p !! pgno with Some x => pg_needSync x | None => false end.

(** The loop of [pagerWriteLargeSector]; the result is the code and [needSync]. *)
Fixpoint write_sector (n : nat) (pg pgno : Z) (needSync : bool) : Pager.pg (Z * bool) :=
  match n with
  | O => mret (SQLITE_OK, needSync)
  | S n =>
      p ← get id;
      '(rc, needSync) ←
        (if (pg =? pgno) || negb (sqlite3BitvecTest (pInJournal p) pg) then
           if negb (pg =? PAGER_SJ_PGNO p) then
             rc ← sqlite3PagerGet e pg false;
             if rc =? SQLITE_OK then
               rc ← pager_write pg;
               p ← get id;
               mret (rc, needSync || page_needSync p pg)
             else mret (rc, needSync)
           else mret (SQLITE_OK, needSync)
         else mret (SQLITE_OK, needSync || page_needSync p pg));
      if rc =? SQLITE_OK then write_sector n (pg + 1) pgno needSync else mret (rc, needSync)
  end.

Definition pagerWriteLargeSector (pgno : Z) : pg Z :=
  modify (fun p => set_doNotSpill (Z.lor (doNotSpill p) 4) p);;
  p ← get id;
  let nPagePerSector := sectorSize p / pageSize p in
  let pg1 := (pgno - 1) / nPagePerSector * nPagePerSector + 1 in
  let nPage := if dbSize p <? pgno then pgno - pg1 + 1
               else if dbSize p <? pg1 + nPagePerSector - 1 then dbSize p + 1 - pg1 else nPagePerSector in
  '(rc, needSync) ← write_sector (Z.to_nat nPage) pg1 pgno false;
  (if (rc =? SQLITE_OK) && needSync then
     modify (fun p => set_pPCache (map_imap (fun k x => Some (if (pg1 <=? k) && (k <? pg1 + nPage) then pg_set_needSync x else x)) (pPCache p)) p)
   else mret tt);;
  modify (fun p => set_doNotSpill (Z.ldiff (doNotSpill p) 4) p);;
  mret rc.

(** The page is in the cache: the caller has a reference to it. *)
Definition sqlite3PagerWrite (pgno : Z) : pg Z :=
  p ← get id;
  match pPCache p !! pgno with
  | None => stuck
  | Some x =>
      if pg_writeable x && (pgno <=? dbSize p) then
        if (0 <? length (aSavepoint p))%nat then subjournalPageIfRequired e pgno else mret SQLITE_OK
      else if negb (errCode p =? SQLITE_OK) then mret (errCode p)
      else if pageSize p <? sectorSize p then pagerWriteLargeSector pgno
      else pager_write pgno
  end.

(** ** Writing to the database file *)

Definition syncJournal (newHdr : bool) : pg Z :=
  sqlite3PagerExclusiveLock ?;
  p ← get id;
  (if negb (noSync e) then
     if jfd p && negb (journalMode e =? PAGER_JOURNALMODE_MEMORY) then
       (if negb (SAFE_APPEND e) then
          let iNext := journalHdrOffset p in
          '(aMagic, rc) ← sqlite3OsRead e Jrnl 8 iNext;
          rc ← (if (rc =? SQLITE_OK) && bool_decide (aMagic = aJournalMagic) then sqlite3OsWrite e Jrnl [0] iNext else mret rc);
          if negb (rc =? SQLITE_OK) && negb (rc =? SQLITE_IOERR_SHORT_READ) then mret rc
          else
            (if fullSync e && negb (SEQUENTIAL e) then sqlite3OsSync e Jrnl else mret SQLITE_OK) ?;
            sqlite3OsWrite e Jrnl (aJournalMagic ++ put32bits (nRec p)) (journalHdr p)
        else mret SQLITE_OK) ?;
       (if negb (SEQUENTIAL e) then sqlite3OsSync e Jrnl else mret SQLITE_OK) ?;
       (modify (fun p => set_journalHdr (journalOff p) p);;
        if newHdr && negb (SAFE_APPEND e) then modify (set_nRec 0);; writeJournalHdr e else mret SQLITE_OK)
     else modify (fun p => set_journalHdr (journalOff p) p);; mret SQLITE_OK
   else mret SQLITE_OK) ?;
  (modify (fun p => set_eState PAGER_WRITER_DBMOD (set_pPCache (sqlite3PcacheClearSyncFlags (pPCache p)) p));; mret SQLITE_OK).

(** [bs] written over the bytes at [off]. *)
Definition put_at (off : nat) (bs d : list Z) : list Z := take off d ++ bs ++ drop (off + length bs) d.

Definition SQLITE_VERSION_NUMBER : Z := 3051001.

Definition pager_write_changecounter (vers d : list Z) : list Z :=
  let change_counter := (sqlite3Get4byte (take 4 vers) + 1) mod 2 ^ 32 in
  put_at 96 (put32bits SQLITE_VERSION_NUMBER) (put_at 92 (put32bits change_counter) (put_at 24 (put32bits change_counter) d)).

Fixpoint pager_write_pagelist (pList : list Z) : pg Z :=
  match pList with
  | [] => mret SQLITE_OK
  | pgno :: pList =>
      p ← get id;
      match pPCache p !! pgno with
      | None => stuck
      | Some x =>
          (if (pgno <=? dbSize p) && negb (pg_dontWrite x) then
             let d := if pgno =? 1 then pager_write_changecounter (dbFileVers p) (pg_data x) else pg_data x in
             upd_page pgno (pg_set_data d);;
             rc ← sqlite3OsWrite e Db d ((pgno - 1) * pageSize p);
             (if pgno =? 1 then modify (set_dbFileVers (take_vers d)) else mret tt);;
             modify (fun p => if dbFileSize p <? pgno then set_dbFileSize pgno p else p);;
             mret rc
           else mret SQLITE_OK) ?;
          pager_write_pagelist pList
      end
  end.

(** The cache asks for a dirty page to be written out. *)
Definition pagerStress (pgno : Z) : pg Z :=
  p ← get id;
  match pPCache p !! pgno with
  | None => stuck
  | Some x =>
      if negb (errCode p =? SQLITE_OK) then mret SQLITE_OK
      else if negb (doNotSpill p =? 0) && (negb (Z.land (doNotSpill p) (Z.lor SPILLFLAG_ROLLBACK SPILLFLAG_OFF) =? 0) || pg_needSync x)
      then mret SQLITE_OK
      else
        rc ← ((if pg_needSync x || (eState p =? PAGER_WRITER_CACHEMOD) then syncJournal true else mret SQLITE_OK) ?;
              pager_write_pagelist [pgno]);
        (if rc =? SQLITE_OK then upd_page pgno sqlite3PcacheMakeClean else mret tt);;
        pager_error rc
  end.

(** ** Commit *)

Definition pager_incr_changecounter : pg Z :=
  p ← get id;
  if negb (changeCountDone p) && (0 <? dbSize p) then
    sqlite3PagerGet e 1 false ?;
    sqlite3PagerWrite 1 ?;
    (modify (fun p => set_changeCountDone true
       (set_pPCache (alter (fun x => pg_set_data (pager_write_changecounter (dbFileVers p) (pg_data x)) x) 1 (pPCache p)) p));;
     mret SQLITE_OK)
  else mret SQLITE_OK.

(** Without a super-journal. *)
Definition sqlite3PagerCommitPhaseOne (noSyncDb : bool) : pg Z :=
  p ← get id;
  if negb (errCode p =? SQLITE_OK) then mret (errCode p)
  else if eState p <? PAGER_WRITER_CACHEMOD then mret SQLITE_OK
  else
    pager_incr_changecounter ?;
    syncJournal false ?;
    l ← get (fun p => sqlite3PcacheDirtyList (pPCache p));
    pager_write_pagelist l ?;
    (modify (fun p => set_pPCache (sqlite3PcacheCleanAll (pPCache p)) p);;
     p ← get id;
     (if dbFileSize p <? dbSize p then
        pager_truncate (dbSize p - (if dbSize p =? PAGER_SJ_PGNO p then 1 else 0))
      else mret SQLITE_OK) ?;
     (if noSyncDb then mret SQLITE_OK else sqlite3PagerSync) ?;
     (modify (set_eState PAGER_WRITER_FINISHED);; mret SQLITE_OK)).

Definition sqlite3PagerCommitPhaseTwo : pg Z :=
  p ← get id;
  if negb (errCode p =? SQLITE_OK) then mret (errCode p)
  else if (eState p =? PAGER_WRITER_LOCKED) && exclusiveMode e && (journalMode e =? PAGER_JOURNALMODE_PERSIST) then
    modify (set_eState PAGER_READER);; mret SQLITE_OK
  else
    rc ← pager_end_transaction false true;
    pager_error rc.

(** ** Savepoints *)

Fixpoint open_savepoints (n : nat) : pg Z :=
  match n with
  | O => mret SQLITE_OK
  | S n =>
      ok ← alloc e;
      if negb ok then mret SQLITE_NOMEM
      else
        modify (fun p => set_aSavepoint (aSavepoint p ++
          [mkPagerSavepoint (if jfd p && (0 <? journalOff p) then journalOff p else JOURNAL_HDR_SZ p) 0
             (mkBitvec (dbSize p) ∅) (dbSize p) (nSubRec p) true]) p);;
        open_savepoints n
  end.

Definition sqlite3PagerOpenSavepoint (nSavepoint : Z) : pg Z :=
  n ← get (fun p => Zlen (aSavepoint p));
  if n <? nSavepoint then
    ok ← alloc e;
    if negb ok then mret SQLITE_NOMEM else open_savepoints (Z.to_nat (nSavepoint - n))
  else mret SQLITE_OK.

Definition sqlite3PagerSavepoint (op iSavepoint : Z) : pg Z :=
  p ← get id;
  if (errCode p =? SQLITE_OK) && (iSavepoint <? Zlen (aSavepoint p)) then
    let nNew := iSavepoint + (if op =? SAVEPOINT_RELEASE then 0 else 1) in
    modify (set_aSavepoint (take (Z.to_nat nNew) (aSavepoint p)));;
    if op =? SAVEPOINT_RELEASE then
      match aSavepoint p !! Z.to_nat nNew, sjfd p with
      | Some pRel, Some f =>
          if bTruncateOnRelease pRel then
            modify (fun p => set_nSubRec (iSubRec pRel)
              (if c_sjInMemory (pe_cfg e) then set_sjfd (Some (file_truncate f ((pageSize p + 4) * iSubRec pRel))) p else p));;
            mret SQLITE_OK
          else mret SQLITE_OK
      | _, _ => mret SQLITE_OK
      end
    else if jfd p then
      pagerPlaybackSavepoint e (if nNew =? 0 then None else aSavepoint p !! Z.to_nat (nNew - 1))
    else mret SQLITE_OK
  else mret (errCode p).

(** ** Recovery *)

(** The code and [*pExists]. *)
Definition hasHotJournal : pg (Z * bool) :=
  p ← get id;
  rc ← (if jfd p then mret SQLITE_OK else os_call e);
  if negb (rc =? SQLITE_OK) then mret (rc, false)
  else if negb (jfd p || jexists p) then mret (SQLITE_OK, false)
  else
    '(locked, rc) ← sqlite3OsCheckReservedLock e;
    if negb (rc =? SQLITE_OK) || (locked : bool) then mret (rc, false)
    else
      '(n, rc) ← sqlite3OsFileSize e Db;
      if negb (rc =? SQLITE_OK) then mret (rc, false)
      else
        let nPage := (n + pageSize p - 1) / pageSize p in
        modify (fun p => if mxPgno p <? nPage then set_mxPgno nPage p else p);;
        if (nPage =? 0) && negb (jfd p) then
          rc ← pagerLockDb RESERVED_LOCK;
          (if rc =? SQLITE_OK then
             _ ← sqlite3OsDelete e false;
             if exclusiveMode e then mret SQLITE_OK else pagerUnlockDb SHARED_LOCK
           else mret SQLITE_OK);;
          mret (SQLITE_OK, false)
        else
          rc ← (if jfd p then mret SQLITE_OK else os_call e);
          if rc =? SQLITE_OK then
            '(first, rc) ← sqlite3OsRead e Jrnl 1 0;
            mret (if rc =? SQLITE_IOERR_SHORT_READ then SQLITE_OK else rc, negb (bool_decide (first = [0])))
          else if rc =? 14 then mret (SQLITE_OK, true)
          else mret (rc, false).

Definition pagerSyncHotJournal : pg Z :=
  (if noSync e then mret SQLITE_OK else sqlite3OsSync e Jrnl) ?;
  ('(n, rc) ← sqlite3OsFileSize e Jrnl;
   modify (set_journalHdr n);;
   mret rc).

(** A journal left by a process that has died is played back. *)
Definition recover_hot : pg Z :=
  p ← get id;
  rc ← (if negb (jfd p) && negb (journalMode e =? PAGER_JOURNALMODE_OFF) then
          os_call e ?;
          if jexists p then os_call e ?; (modify (set_jfd true);; mret SQLITE_OK) else mret SQLITE_OK
        else mret SQLITE_OK);
  p ← get id;
  if jfd p then
    pagerSyncHotJournal ?;
    (rc ← pager_playback true; modify (set_eState PAGER_OPEN);; mret rc)
  else (if exclusiveMode e then mret SQLITE_OK else pagerUnlockDb SHARED_LOCK);; mret rc.

(** [pagerPagecount] *)
Definition pagerPagecount : pg Z :=
  '(n, rc) ← sqlite3OsFileSize e Db;
  if negb (rc =? SQLITE_OK) then mret rc
  else
    modify (fun p => let nPage := (n + pageSize p - 1) / pageSize p in
      set_dbSize nPage (if mxPgno p <? nPage then set_mxPgno nPage p else p));;
    mret SQLITE_OK.

(** The cache of a process that has held the lock before is kept if the file has not changed. *)
Definition check_version : pg Z :=
  p ← get id;
  if hasHeldSharedLock p then
    '(vers, rc) ← sqlite3OsRead e Db 16 24;
    if negb (rc =? SQLITE_OK) && negb (rc =? SQLITE_IOERR_SHORT_READ) then mret rc
    else
      let vers := if rc =? SQLITE_OK then vers else zeros 16 in
      (if bool_decide (dbFileVers p = vers) then mret tt else pager_reset);;
      mret SQLITE_OK
  else mret SQLITE_OK.

Definition sqlite3PagerSharedLock : pg Z :=
  st ← get eState;
  rc ←
    (if st =? PAGER_OPEN then
       pager_wait_on_lock SHARED_LOCK ?;
       ('(rc, bHotJournal) ← (p ← get id; if eLock p <=? SHARED_LOCK then hasHotJournal else mret (SQLITE_OK, true));
        if negb (rc =? SQLITE_OK) then mret rc
        else if (bHotJournal : bool) then
          pagerLockDb EXCLUSIVE_LOCK ?;
          (rc ← recover_hot;
           if rc =? SQLITE_OK then mret SQLITE_OK else pager_error rc)
        else mret SQLITE_OK) ?;
       check_version ?;
       pagerPagecount
     else mret SQLITE_OK);
  (if negb (rc =? SQLITE_OK) then pager_unlock
   else modify (fun p => set_hasHeldSharedLock true (set_eState PAGER_READER p)));;
  mret rc.

End Ops.
