(* ===== verification/PagerRun.v ===== *)
(** * The pager: files as data and results of operations

    What bytes are stored in a file, the journal as a list of segments of records, the
    contents of the database a pager shows; and what the operations return when the system has
    no failures: reading and writing files, reading journal headers, playing back a record of
    the main journal. *)
From stdpp Require Import gmap sorting.
From S2P Require Import Prelude Value Record Savepoint Pager PagerJournal PagerOps.

Local Open Scope Z_scope.

(** ** Bytes of a file *)

(** No byte after the end. *)
Definition file_wf (f : File) : Prop := 0 <= f_size f /\ forall i, f_size f <= i -> f_byte f i = 0.

(** [bs] is in the file at [off]. *)
Definition stored (f : File) (off : Z) (bs : list Z) : Prop :=
  0 <= off /\ off + Zlen bs <= f_size f /\ forall k b, bs !! k = Some b -> f_byte f (off + Z.of_nat k) = b.

Lemma file_bytes_length f off n : length (file_bytes f off n) = Z.to_nat n.
Proof. unfold file_bytes. rewrite length_fmap, length_seqZ. reflexivity. Qed.

Lemma file_bytes_lookup f off n k : (k < Z.to_nat n)%nat -> file_bytes f off n !! k = Some (f_byte f (off + Z.of_nat k)).
Proof. intros Hk. unfold file_bytes. rewrite list_lookup_fmap, lookup_seqZ_lt by lia. cbn. do 2 f_equal. Qed.

Lemma stored_read f off bs : stored f off bs -> file_bytes f off (Zlen bs) = bs.
Proof.
  intros (_ & _ & H). apply list_eq. intros k. destruct (decide (k < length bs)%nat) as [Hk|Hk].
  - rewrite file_bytes_lookup by (unfold Zlen; lia). destruct (lookup_lt_is_Some_2 bs k Hk) as [b Hb].
    rewrite Hb. f_equal. apply H, Hb.
  - rewrite !lookup_ge_None_2; [reflexivity|lia|rewrite file_bytes_length; unfold Zlen; lia].
Qed.

Lemma stored_app f off bs bs' : stored f off (bs ++ bs') <-> stored f off bs /\ stored f (off + Zlen bs) bs'.
Proof.
  unfold stored. rewrite Zlen_app. pose proof (Zlen_nonneg bs). pose proof (Zlen_nonneg bs'). split.
  - intros (H1 & H2 & H3). split; (split_and!; [lia|lia|]).
    + intros k b Hb. apply H3, lookup_app_l_Some, Hb.
    + intros k b Hb. replace (off + Zlen bs + Z.of_nat k) with (off + Z.of_nat (length bs + k)) by (unfold Zlen; lia).
      apply H3. rewrite lookup_app_r by lia. rewrite <- Hb. f_equal. lia.
  - intros ((H1 & H2 & H3) & _ & H4 & H5). split_and!; [lia|lia|]. intros k b Hb.
    apply lookup_app_Some in Hb as [Hb|[Hk Hb]]; [auto|]. apply H5 in Hb. rewrite <- Hb. f_equal. unfold Zlen. lia.
Qed.

Lemma write_size f off bs : bs <> [] -> f_size (file_write f off bs) = Z.max (f_size f) (off + Zlen bs).
Proof. destruct bs; [contradiction|reflexivity]. Qed.

Lemma write_byte f off bs i : f_byte (file_write f off bs) i =
  if (off <=? i) && (i <? off + Zlen bs) then default 0 (bs !! Z.to_nat (i - off)) else f_byte f i.
Proof.
  destruct bs as [|b bs]; [|reflexivity]. cbn [file_write]. rewrite Zlen_nil, Z.add_0_r.
  destruct (Z.leb_spec off i), (Z.ltb_spec i off); try reflexivity. lia.
Qed.

Lemma write_byte_out f off bs i : i < off \/ off + Zlen bs <= i -> f_byte (file_write f off bs) i = f_byte f i.
Proof. intros H. rewrite write_byte. destruct (Z.leb_spec off i), (Z.ltb_spec i (off + Zlen bs)); try reflexivity. lia. Qed.

Lemma write_stored f off bs : 0 <= off -> bs <> [] -> stored (file_write f off bs) off bs.
Proof.
  intros Ho Hb. split_and!; [exact Ho|rewrite write_size by exact Hb; lia|]. intros k b Hk. rewrite write_byte.
  pose proof (lookup_lt_Some _ _ _ Hk). rewrite (proj2 (Z.leb_le _ _)), (proj2 (Z.ltb_lt _ _)) by (unfold Zlen; lia). cbn [andb].
  replace (Z.to_nat (off + Z.of_nat k - off)) with k by lia. rewrite Hk. reflexivity.
Qed.

(** A write elsewhere. *)
Lemma write_keeps f off bs off' bs' : stored f off bs -> off' + Zlen bs' <= off \/ off + Zlen bs <= off' ->
  stored (file_write f off' bs') off bs.
Proof.
  intros (H1 & H2 & H3) Hd. split_and!; [exact H1| |].
  - destruct bs' as [|b bs']; [exact H2|]. rewrite write_size by discriminate. lia.
  - intros k b Hk. pose proof (lookup_lt_Some _ _ _ Hk). rewrite write_byte_out by (unfold Zlen in *; lia). auto.
Qed.

Lemma write_wf f off bs : file_wf f -> 0 <= off -> file_wf (file_write f off bs).
Proof.
  intros [H1 H2] Ho. destruct bs as [|b bs]; [split; auto|]. split; [rewrite write_size by discriminate; lia|].
  intros i Hi. rewrite write_size in Hi by discriminate. rewrite write_byte_out by lia. apply H2. lia.
Qed.

Lemma truncate_wf f n : file_wf f -> 0 <= n -> file_wf (file_truncate f n).
Proof.
  intros [H1 H2] Hn. unfold file_truncate. destruct (Z.ltb_spec n (f_size f)); [|split; auto].
  split; cbn [f_size f_byte]; [exact Hn|]. intros i Hi. rewrite (proj2 (Z.ltb_ge _ _)) by lia. reflexivity.
Qed.

Lemma truncate_byte f n i : i < n -> f_byte (file_truncate f n) i = f_byte f i.
Proof.
  intros Hi. unfold file_truncate. destruct (Z.ltb_spec n (f_size f)); [|reflexivity]. cbn [f_byte].
  rewrite (proj2 (Z.ltb_lt _ _)) by lia. reflexivity.
Qed.

(** Equal bytes are read equally. *)
Lemma file_bytes_ext f f' off n : (forall i, off <= i < off + n -> f_byte f i = f_byte f' i) -> file_bytes f off n = file_bytes f' off n.
Proof.
  intros H. unfold file_bytes. apply list_fmap_ext. intros j k Hk. apply lookup_seqZ in Hk. apply H. lia.
Qed.

(** ** Numbers *)

Lemma put32_length v : Zlen (put32bits v) = 4.
Proof. reflexivity. Qed.

Lemma byte_bits v s n : 0 <= s -> 0 <= n ->
  Z.testbit (Z.shiftl (Z.land (Z.shiftr v s) 255) s) n = (s <=? n) && (n <? s + 8) && Z.testbit v n.
Proof.
  intros Hs Hn. rewrite Z.shiftl_spec by exact Hn. destruct (Z.leb_spec s n); cbn [andb].
  - rewrite Z.land_spec, Z.shiftr_spec by lia. change 255 with (Z.ones 8). rewrite Z.testbit_ones_nonneg by lia.
    replace (n - s + s) with n by lia. rewrite andb_comm. f_equal. destruct (Z.ltb_spec (n - s) 8), (Z.ltb_spec n (s + 8)); auto; lia.
  - apply Z.testbit_neg_r. lia.
Qed.

Lemma get4_put32 v : 0 <= v < 2 ^ 32 -> sqlite3Get4byte (put32bits v) = v.
Proof.
  intros Hv. unfold put32bits, sqlite3Get4byte. apply Z.bits_inj'. intros n Hn.
  replace (Z.land v 255) with (Z.shiftl (Z.land (Z.shiftr v 0) 255) 0) by (rewrite Z.shiftl_0_r, Z.shiftr_0_r; reflexivity).
  rewrite !Z.lor_spec, !byte_bits by lia. rewrite <- !andb_orb_distrib_l.
  destruct (Z.ltb_spec n 32) as [L|L].
  - assert ((24 <=? n) && (n <? 24 + 8) || (16 <=? n) && (n <? 16 + 8)
      || ((8 <=? n) && (n <? 8 + 8) || (0 <=? n) && (n <? 0 + 8)) = true) as ->; [|reflexivity].
    destruct (Z.leb_spec 24 n), (Z.ltb_spec n (24 + 8)), (Z.leb_spec 16 n), (Z.ltb_spec n (16 + 8)),
      (Z.leb_spec 8 n), (Z.ltb_spec n (8 + 8)), (Z.leb_spec 0 n), (Z.ltb_spec n (0 + 8)); cbn; try reflexivity; lia.
  - assert (Z.testbit v n = false) as ->; [|apply andb_false_r].
    apply Z.bits_above_log2; [lia|]. destruct (Z.eq_dec v 0) as [->|]; [cbn; lia|].
    apply Z.log2_lt_pow2; [lia|]. apply Z.lt_le_trans with (2 ^ 32); [lia|]. apply Z.pow_le_mono_r; lia.
Qed.

(** ** The journal as data *)

(** A header with its records: its offset, the start of the checksums, and page numbers with
    contents. *)
Record seg := mkSeg { sg_hdr : Z; sg_ck : Z; sg_recs : list (Z * list Z) }.

Definition seg_records (l : list seg) : list (Z * list Z) := concat (sg_recs <$> l).

(** The first record of a page. *)
Fixpoint first (n : Z) (l : list (Z * list Z)) : option (list Z) :=
  match l with
  | [] => None
  | (m, d) :: l => if m =? n then Some d else first n l
  end.

Section Layout.
Context (PS HS : Z).

Definition cksum (ck : Z) (d : list Z) : Z := cksum_loop (Z.to_nat PS) d (PS - 200) ck.

Definition rec_bytes (ck : Z) (r : Z * list Z) : list Z := put32bits r.1 ++ r.2 ++ put32bits (cksum ck r.2).

Definition hdr_bytes (first12 : list Z) (ck norig : Z) : list Z :=
  first12 ++ put32bits ck ++ put32bits norig ++ put32bits HS ++ put32bits PS ++ zeros (HS - 28).

Definition seg_bytes (first12 : list Z) (norig : Z) (s : seg) : list Z :=
  hdr_bytes first12 (sg_ck s) norig ++ concat (rec_bytes (sg_ck s) <$> sg_recs s).

Definition closed_mark (s : seg) : list Z := aJournalMagic ++ put32bits (Zlen (sg_recs s)).

Definition align (off : Z) : Z := if off =? 0 then 0 else ((off - 1) / HS + 1) * HS.

Definition seg_end (s : seg) : Z := sg_hdr s + HS + Zlen (sg_recs s) * (PS + 8).

Fixpoint chain (off : Z) (l : list seg) : Prop :=
  match l with
  | [] => True
  | s :: l => sg_hdr s = align off /\ chain (seg_end s) l
  end.

Fixpoint end_from (off : Z) (l : list seg) : Z :=
  match l with
  | [] => off
  | s :: l => end_from (seg_end s) l
  end.

Definition end_of (l : list seg) : Z := end_from 0 l.

(** ** Contents *)

(** The change counter and the version in page 1 are not part of the contents. *)
Definition norm (n : Z) (d : list Z) : list Z := if n =? 1 then put_at 24 (zeros 4) (put_at 92 (zeros 8) d) else d.

Definition file_page (f : File) (n : Z) : list Z := file_bytes f ((n - 1) * PS) PS.

Definition page_of (p : Pager) (n : Z) : list Z :=
  match pPCache p !! n with Some x => pg_data x | None => file_page (fd p) n end.

(** The contents after the records [l] have been played back on a database of [N] pages. *)
Definition undo (l : list (Z * list Z)) (N : Z) (p : Pager) : list (list Z) :=
  (fun n => norm n (default (page_of p n) (first n l))) <$> seqZ 1 N.

Definition view (p : Pager) : list (list Z) := undo [] (dbSize p) p.

(** The page that holds the locks. *)
Definition lock_page : Z := 0x40000000 / PS + 1.

End Layout.

Definition in_recs (n : Z) (l : list (Z * list Z)) : Prop := n ∈ l.*1.

#[export] Instance in_recs_dec n l : Decision (in_recs n l).
Proof. unfold in_recs. apply _. Defined.

(** No call fails. *)
Record quiet (e : PagerEnv) : Prop := {
  q_io : forall k, pe_io e k = SQLITE_OK;
  q_lock : forall k, pe_lock e k = SQLITE_OK;
  q_alloc : forall k, pe_alloc e k = true;
  q_reserved : forall k, pe_reserved e k = false
}.

(** ** Running a program *)

(** The result and the state at the end, whatever the number of the next call is. *)
Definition runs {A} (m : pg A) (p : Pager) (a : A) (p' : Pager) : Prop := forall c, exists c', m p c = Some (a, p', c').

Lemma runs_bind {A B} (m : pg A) (k : A -> pg B) p a p' b p'' :
  runs m p a p' -> runs (k a) p' b p'' -> runs (m ≫= k) p b p''.
Proof. intros H Hk c. destruct (H c) as [c1 E]. destruct (Hk c1) as [c2 E']. exists c2. unfold mbind, pg_bind. rewrite E. exact E'. Qed.

Lemma runs_assoc {A B C} (m : pg A) (k : A -> pg B) (k' : B -> pg C) p b p' :
  runs (m ≫= (fun a => k a ≫= k')) p b p' -> runs ((m ≫= k) ≫= k') p b p'.
Proof. intros H c. destruct (H c) as [c' E]. exists c'. rewrite <- E. unfold mbind, pg_bind. destruct (m p c) as [[[a q] c1]|]; reflexivity. Qed.

Lemma runs_get {A B} (f : Pager -> A) (k : A -> pg B) p b p' : runs (k (f p)) p b p' -> runs (get f ≫= k) p b p'.
Proof. exact id. Qed.

Lemma runs_modify {B} (f : Pager -> Pager) (k : unit -> pg B) p b p' : runs (k tt) (f p) b p' -> runs (modify f ≫= k) p b p'.
Proof. exact id. Qed.

Lemma runs_mret {A B} (a : A) (k : A -> pg B) p b p' : runs (k a) p b p' -> runs (mret a ≫= k) p b p'.
Proof. exact id. Qed.

Lemma runs_ret {A} (a : A) p p' : p = p' -> runs (mret a) p a p'.
Proof. intros <- c. exists c. reflexivity. Qed.

Lemma runs_last {A} (m : pg A) p a p1 p2 : runs m p a p1 -> p1 = p2 -> runs m p a p2.
Proof. intros H <-. exact H. Qed.

Lemma runs_modify_last (f : Pager -> Pager) p p' : f p = p' -> runs (modify f) p tt p'.
Proof. intros <- c. exists c. reflexivity. Qed.

(** Steps that need no lemma; [SQLITE_OK] goes on. *)
Ltac ok := change (SQLITE_OK =? SQLITE_OK) with true; cbn [negb andb orb id]; cbv beta iota.
Ltac silent_one := lazymatch goal with
  | |- runs (mbind _ (mbind _ _)) _ _ _ => apply runs_assoc
  | |- runs (mbind _ (get _)) _ _ _ => apply runs_get
  | |- runs (mbind _ (modify _)) _ _ _ => apply runs_modify
  | |- runs (mbind _ (mret _)) _ _ _ => apply runs_mret
  end; ok.
Ltac silent := ok; repeat silent_one.
Ltac step L := silent; eapply runs_bind; [eapply L|cbv beta iota; silent].
Ltac last L := silent; eapply runs_last; [eapply L|reflexivity].
Ltac ret := silent; apply runs_ret; first [lazymatch goal with |- ?a = ?a => reflexivity end | solve [pext] | reflexivity].

(** ** Postconditions

    For programs whose result depends on random numbers. *)

Definition wp {A} (m : pg A) (p : Pager) (P : A -> Pager -> Prop) : Prop := forall c, exists a p' c', m p c = Some (a, p', c') /\ P a p'.

Lemma wp_runs {A} (m : pg A) p a p' P : runs m p a p' -> P a p' -> wp m p P.
Proof. intros H HP c. destruct (H c) as [c' E]. exists a, p', c'. auto. Qed.

Lemma wp_step {A B} (m : pg A) (k : A -> pg B) p a p' P : runs m p a p' -> wp (k a) p' P -> wp (m ≫= k) p P.
Proof.
  intros H HP c. destruct (H c) as [c' E]. destruct (HP c') as (b & p'' & c'' & E' & Hb). exists b, p'', c''. split; [|exact Hb].
  unfold mbind, pg_bind. rewrite E. exact E'.
Qed.

Lemma wp_bind {A B} (m : pg A) (k : A -> pg B) p P : wp m p (fun a p' => wp (k a) p' P) -> wp (m ≫= k) p P.
Proof.
  intros H c. destruct (H c) as (a & p' & c' & E & Hk). destruct (Hk c') as (b & p'' & c'' & E' & Hb). exists b, p'', c''. split; [|exact Hb].
  unfold mbind, pg_bind. rewrite E. exact E'.
Qed.

Lemma wp_mono {A} (m : pg A) p (P P' : A -> Pager -> Prop) : wp m p P -> (forall a p', P a p' -> P' a p') -> wp m p P'.
Proof. intros H HP c. destruct (H c) as (a & p' & c' & E & Ha). exists a, p', c'. split; [exact E|apply HP, Ha]. Qed.

Lemma wp_assoc {A B C} (m : pg A) (k : A -> pg B) (k' : B -> pg C) p P : wp (m ≫= (fun a => k a ≫= k')) p P -> wp ((m ≫= k) ≫= k') p P.
Proof.
  intros H c. destruct (H c) as (a & p' & c' & E & Ha). exists a, p', c'. split; [|exact Ha]. rewrite <- E.
  unfold mbind, pg_bind. destruct (m p c) as [[[x q] c1]|]; reflexivity.
Qed.

Lemma wp_get {A B} (f : Pager -> A) (k : A -> pg B) p P : wp (k (f p)) p P -> wp (get f ≫= k) p P.
Proof. exact id. Qed.

Lemma wp_modify {B} (f : Pager -> Pager) (k : unit -> pg B) p P : wp (k tt) (f p) P -> wp (modify f ≫= k) p P.
Proof. exact id. Qed.

Lemma wp_mret {A B} (a : A) (k : A -> pg B) p P : wp (k a) p P -> wp (mret a ≫= k) p P.
Proof. exact id. Qed.

Lemma wp_ret {A} (a : A) p (P : A -> Pager -> Prop) : P a p -> wp (mret a) p P.
Proof. intros H c. exists a, p, c. auto. Qed.

Lemma wp_tick {B} (k : nat -> pg B) p P : (forall n, wp (k n) p P) -> wp (tick ≫= k) p P.
Proof. intros H c. exact (H c (S c)). Qed.

Ltac wsilent_one := lazymatch goal with
  | |- wp (mbind _ (mbind _ _)) _ _ => apply wp_assoc
  | |- wp (mbind _ (get _)) _ _ => apply wp_get
  | |- wp (mbind _ (modify _)) _ _ => apply wp_modify
  | |- wp (mbind _ (mret _)) _ _ => apply wp_mret
  end; ok.
Ltac wsilent := ok; repeat wsilent_one.
Ltac wstep L := wsilent; eapply wp_step; [eapply L|cbv beta iota; wsilent].

Section Quiet.
Context (e : PagerEnv) (Q : quiet e).

Lemma runs_tick {B} (k : nat -> pg B) p b p' : (forall n, runs (k n) p b p') -> runs (tick ≫= k) p b p'.
Proof. intros H c. exact (H c (S c)). Qed.

Definition wrote (f : file_id) (off : Z) (bs : list Z) (p : Pager) : Pager :=
  set_log (log p ++ [EvWrite f off bs]) (set_file f (file_write (the_file f p) off bs) p).

Lemma runs_write f bs off p : runs (sqlite3OsWrite e f bs off) p SQLITE_OK (wrote f off bs p).
Proof. destruct f; unfold sqlite3OsWrite, log_event; apply runs_tick; intros k; rewrite (q_io _ Q); ret. Qed.

Lemma runs_read f n off p : 0 <= n -> off + n <= f_size (the_file f p) ->
  runs (sqlite3OsRead e f n off) p (file_bytes (the_file f p) off n, SQLITE_OK) p.
Proof.
  intros Hn H. unfold sqlite3OsRead. apply runs_tick. intros k. rewrite (q_io _ Q). silent.
  rewrite (proj2 (Z.leb_le _ _) H). ret.
Qed.

Lemma runs_read_any f n off p :
  runs (sqlite3OsRead e f n off) p
    (file_bytes (the_file f p) off n, if off + n <=? f_size (the_file f p) then SQLITE_OK else SQLITE_IOERR_SHORT_READ) p.
Proof. unfold sqlite3OsRead. apply runs_tick. intros k. rewrite (q_io _ Q). ret. Qed.

Lemma runs_read_stored f n off bs p : stored (the_file f p) off bs -> n = Zlen bs -> runs (sqlite3OsRead e f n off) p (bs, SQLITE_OK) p.
Proof.
  intros Hs ->. pose proof (stored_read _ _ _ Hs) as He. rewrite <- He at 2. apply runs_read; [apply Zlen_nonneg|apply Hs].
Qed.

Lemma runs_read32 f off v p : stored (the_file f p) off (put32bits v) -> 0 <= v < 2 ^ 32 ->
  runs (read32bits e f off) p (v, SQLITE_OK) p.
Proof.
  intros Hs Hv. unfold read32bits. step runs_read_stored; [exact Hs|reflexivity|].
  rewrite get4_put32 by exact Hv. ret.
Qed.

Lemma runs_read32_any f off p : off + 4 <= f_size (the_file f p) ->
  runs (read32bits e f off) p (sqlite3Get4byte (file_bytes (the_file f p) off 4), SQLITE_OK) p.
Proof. intros H. unfold read32bits. step runs_read; [lia|exact H|]. ret. Qed.

Definition synced_log (f : file_id) (p : Pager) : Pager := set_log (log p ++ [EvSync f]) p.

Lemma runs_sync f p : runs (sqlite3OsSync e f) p SQLITE_OK (synced_log f p).
Proof. unfold sqlite3OsSync, log_event; apply runs_tick; intros k; rewrite (q_io _ Q); ret. Qed.

Definition truncated (f : file_id) (n : Z) (p : Pager) : Pager :=
  set_log (log p ++ [EvTruncate f n]) (set_file f (file_truncate (the_file f p) n) p).

Lemma runs_truncate f n p : runs (sqlite3OsTruncate e f n) p SQLITE_OK (truncated f n p).
Proof. destruct f; unfold sqlite3OsTruncate, log_event; apply runs_tick; intros k; rewrite (q_io _ Q); ret. Qed.

Lemma runs_size f p : runs (sqlite3OsFileSize e f) p (f_size (the_file f p), SQLITE_OK) p.
Proof. destruct f; unfold sqlite3OsFileSize; apply runs_tick; intros k; rewrite (q_io _ Q); ret. Qed.

Definition deleted (b : bool) (p : Pager) : Pager := set_log (log p ++ [EvDelete b]) (set_jexists false (set_journal empty_file p)).

Lemma runs_delete b p : runs (sqlite3OsDelete e b) p SQLITE_OK (deleted b p).
Proof. unfold sqlite3OsDelete, log_event; apply runs_tick; intros k; rewrite (q_io _ Q); ret. Qed.

Lemma runs_call p : runs (os_call e) p SQLITE_OK p.
Proof. unfold os_call; apply runs_tick; intros k; rewrite (q_io _ Q); ret. Qed.

Lemma runs_alloc p : runs (alloc e) p true p.
Proof. unfold alloc; apply runs_tick; intros k; rewrite (q_alloc _ Q); ret. Qed.

(** ** Journal headers *)

Context (PS HS : Z).

Lemma hdr_parts f off a b ck n : Zlen a = 8 -> stored f off (hdr_bytes PS HS (a ++ put32bits b) ck n) ->
  stored f off a /\ stored f (off + 8) (put32bits b) /\ stored f (off + 12) (put32bits ck) /\ stored f (off + 16) (put32bits n)
  /\ stored f (off + 20) (put32bits HS) /\ stored f (off + 24) (put32bits PS).
Proof.
  intros Ha. unfold hdr_bytes. rewrite !stored_app, !Zlen_app, !put32_length, Ha.
  replace (off + (8 + 4)) with (off + 12) by lia. replace (off + 12 + 4) with (off + 16) by lia.
  replace (off + 16 + 4) with (off + 20) by lia. replace (off + 20 + 4) with (off + 24) by lia. tauto.
Qed.

(** The page size becomes that of the journal. *)
Definition sized (p : Pager) : Pager :=
  let same := PS =? pageSize p in
  set_dbSize (if same then dbSize p else ((if PAGER_OPEN <? eState p then f_size (fd p) else 0) + PS - 1) / PS)
    (set_pageSize PS (set_pPCache (if same then pPCache p else ∅) p)).

Lemma runs_set_pagesize p : PS <> 0 -> pageSize p = PS \/ pPCache p = ∅ -> runs (sqlite3PagerSetPagesize e PS) p SQLITE_OK (sized p).
Proof.
  intros H0 Hp. unfold sqlite3PagerSetPagesize, sized. silent.
  rewrite (proj2 (Z.eqb_neq _ _) H0). cbn [negb]. rewrite andb_true_r.
  destruct (Z.eqb_spec PS (pageSize p)) as [He|He]; cbn [negb].
  - rewrite andb_false_r. apply runs_ret. pext. symmetry. exact He.
  - destruct Hp as [Hp|Hp]; [congruence|]. rewrite bool_decide_eq_true_2 by exact Hp. cbn [andb]. destruct (PAGER_OPEN <? eState p).
    + step (runs_size Db). step runs_alloc. unfold pager_reset. silent. apply runs_ret. pext.
    + silent. step runs_alloc. unfold pager_reset. silent. apply runs_ret. pext.
Qed.

Record sizes_ok : Prop := {
  so_PS : 512 <= PS <= 65536;
  so_HS : 32 <= HS <= 65536;
  so_PS2 : power_of_two PS = true;
  so_HS2 : power_of_two HS = true
}.
Context (S : sizes_ok).

(** A header is read. *)
Lemma runs_header isHot szJ p h m n ck N :
  sectorSize p = HS -> h = align HS (journalOff p) -> 0 <= h ->
  Zlen m = 8 -> stored (journal p) h (hdr_bytes PS HS (m ++ put32bits n) ck N) -> h + HS <= szJ ->
  (isHot || negb (h =? journalHdr p) = true -> m = aJournalMagic) ->
  0 <= n < 2 ^ 32 -> 0 <= ck < 2 ^ 32 -> 0 <= N < 2 ^ 32 ->
  pageSize p = PS \/ h = 0 /\ pPCache p = ∅ ->
  runs (readJournalHdr e isHot szJ) p (SQLITE_OK, n, N)
    (set_journalOff (h + HS) (set_cksumInit ck (if h =? 0 then set_sectorSize HS (sized p) else p))).
Proof.
  intros HSz Hh Hh0 Hm Hst Hsz Hmagic Hn Hck HN Hp. destruct S as [P1 P2 P3 P4].
  destruct (hdr_parts _ _ _ _ _ _ Hm Hst) as (S1 & S2 & S3 & S4 & S5 & S6).
  unfold readJournalHdr, journalHdrOffset, JOURNAL_HDR_SZ. silent. rewrite HSz. change (if journalOff p =? 0 then 0 else ((journalOff p - 1) / HS + 1) * HS) with (align HS (journalOff p)).
  rewrite <- Hh. psimp. rewrite HSz, (proj2 (Z.ltb_ge szJ _) Hsz). cbv iota.
  eapply runs_bind with (a := SQLITE_OK) (p' := set_journalOff h p).
  { psimp. destruct (isHot || negb (h =? journalHdr p)); [|ret].
    step runs_read_stored; [exact S1|symmetry; exact Hm|].
    rewrite bool_decide_eq_true_2 by (apply Hmagic; reflexivity). ret. }
  ok. step runs_read32; [exact S2|exact Hn|]. step runs_read32; [exact S3|exact Hck|].
  step runs_read32; [exact S4|exact HN|].
  destruct (Z.eqb_spec h 0) as [Hz|Hz].
  - step runs_read32; [exact S5|lia|]. step runs_read32; [exact S6|lia|].
    rewrite (proj2 (Z.eqb_neq PS 0)) by lia. rewrite (proj2 (Z.ltb_ge PS 512)), (proj2 (Z.ltb_ge HS 32)), (proj2 (Z.ltb_ge 65536 PS)), (proj2 (Z.ltb_ge 0x10000 HS)), P3, P4 by lia.
    cbn [negb orb]. step runs_set_pagesize; [lia|destruct Hp as [Hp|[_ Hp]]; auto|].
    apply runs_ret. unfold sized. pext.
  - apply runs_assoc, runs_modify. silent. apply runs_ret. psimp. rewrite HSz. reflexivity.
Qed.

(** There is no header. *)
Lemma runs_no_header isHot szJ p :
  sectorSize p = HS ->
  let h := align HS (journalOff p) in
  0 <= h -> szJ <= f_size (journal p) ->
  szJ < h + HS \/ isHot || negb (h =? journalHdr p) = true /\ file_bytes (journal p) h 8 <> aJournalMagic ->
  runs (readJournalHdr e isHot szJ) p (SQLITE_DONE, 0, 0) (set_journalOff h p).
Proof.
  intros HSz h Hh0 Hsz Hd. destruct S as [P1 P2 P3 P4]. unfold readJournalHdr, journalHdrOffset, JOURNAL_HDR_SZ. silent. rewrite HSz.
  change (if journalOff p =? 0 then 0 else ((journalOff p - 1) / HS + 1) * HS) with h. psimp. rewrite HSz.
  destruct (Z.ltb_spec szJ (h + HS)) as [Hlt|Hge]; [ret|].
  destruct Hd as [Hd|[Hm Hd]]; [lia|]. rewrite Hm. step runs_read; [lia|cbn; lia|].
  rewrite bool_decide_eq_false_2 by exact Hd. ret.
Qed.

(** ** Records of the main journal *)

Definition synced_at (off : Z) (p : Pager) : bool :=
  ((PAGER_WRITER_DBMOD <=? eState p) || (eState p =? PAGER_OPEN)) && (noSync e || (off <=? journalHdr p)).

Definition is_cached (n : Z) (p : Pager) : bool := bool_decide (is_Some (pPCache p !! n)).

(** The page is restored in the cache, and in the file if [sy]. *)
Definition put_main (sy : bool) (n : Z) (d : list Z) (p : Pager) : Pager :=
  set_dbFileVers (if is_cached n p && (n =? 1) then take_vers d else dbFileVers p)
  (set_pPCache (alter (pg_set_data d) n (pPCache p))
  (set_dbFileSize (if sy then Z.max (dbFileSize p) n else dbFileSize p)
  (set_log (if sy then log p ++ [EvWrite Db ((n - 1) * pageSize p) d] else log p)
  (set_fd (if sy then file_write (fd p) ((n - 1) * pageSize p) d else fd p) p)))).

Lemma alter_absent (f : PgHdr -> PgHdr) n (m : gmap Z PgHdr) : m !! n = None -> alter f n m = m.
Proof. intros H. apply map_eq. intros i. destruct (decide (i = n)) as [->|Hi]; [rewrite lookup_alter_eq, H; reflexivity|rewrite lookup_alter_ne by congruence; reflexivity]. Qed.

Lemma runs_restore_main off n d p : runs (restore_page e true off n d) p SQLITE_OK (put_main (synced_at off p) n d p).
Proof.
  unfold restore_page. silent. unfold synced_at. cbn [negb andb].
  eapply runs_bind with (a := SQLITE_OK) (p' :=
    set_dbFileSize (if synced_at off p then Z.max (dbFileSize p) n else dbFileSize p)
    (set_log (if synced_at off p then log p ++ [EvWrite Db ((n - 1) * pageSize p) d] else log p)
    (set_fd (if synced_at off p then file_write (fd p) ((n - 1) * pageSize p) d else fd p) p))).
  - unfold synced_at. destruct (((PAGER_WRITER_DBMOD <=? eState p) || (eState p =? PAGER_OPEN)) && (noSync e || (off <=? journalHdr p))).
    + step runs_write. destruct (Z.ltb_spec (dbFileSize p) n).
      * rewrite Z.max_r by lia. apply runs_ret. psimp. unfold wrote. psimp. rewrite (proj2 (Z.ltb_lt _ _)) by lia. reflexivity.
      * rewrite Z.max_l by lia. apply runs_ret. psimp. unfold wrote. psimp. rewrite (proj2 (Z.ltb_ge _ _)) by lia. reflexivity.
    + apply runs_ret. destruct p. reflexivity.
  - silent. psimp. fold (is_cached n p). unfold put_main. destruct (is_cached n p) eqn:Hc; cbn [andb].
    + silent. destruct (n =? 1); ret.
    + silent. rewrite alter_absent by (apply bool_decide_eq_false in Hc; apply eq_None_not_Some; exact Hc). ret.
Qed.

Lemma rec_parts f off ck n d : Zlen d = PS -> stored f off (rec_bytes PS ck (n, d)) ->
  stored f off (put32bits n) /\ stored f (off + 4) d /\ stored f (off + PS + 4) (put32bits (cksum PS ck d)).
Proof.
  intros Hd. unfold rec_bytes. cbn [fst snd]. rewrite !stored_app, put32_length, Hd.
  replace (off + 4 + PS) with (off + PS + 4) by lia. tauto.
Qed.

Lemma cksum_bound fuel d i ck : 0 <= ck < 2 ^ 32 -> 0 <= cksum_loop fuel d i ck < 2 ^ 32.
Proof.
  revert i ck. induction fuel as [|fuel IH]; intros i ck H; [exact H|]. cbn [cksum_loop].
  destruct (0 <? i); [|exact H]. apply IH. apply Z.mod_pos_bound. lia.
Qed.

Definition skips (pDone : option Bitvec) (n : Z) (p : Pager) : bool := (dbSize p <? n) || sqlite3BitvecTest pDone n.

(** One record is played back. *)
Definition play (pDone : option Bitvec) (n : Z) (d : list Z) (p : Pager) : Pager :=
  set_journalOff (journalOff p + PS + 8)
    (if skips pDone n p then p else put_main (synced_at (journalOff p + PS + 8) p) n d p).

Definition play_done (pDone : option Bitvec) (n : Z) (p : Pager) : option Bitvec :=
  if skips pDone n p then pDone else bv_set n <$> pDone.

Lemma runs_play pDone sv p n d :
  pageSize p = PS -> 0 <= cksumInit p < 2 ^ 32 -> 1 <= n < 2 ^ 32 -> n <> lock_page PS -> Zlen d = PS ->
  stored (journal p) (journalOff p) (rec_bytes PS (cksumInit p) (n, d)) ->
  runs (playback_main e pDone sv) p (SQLITE_OK, play_done pDone n p) (play pDone n d p).
Proof.
  intros HPS Hck Hn Hl Hd Hst. destruct (rec_parts _ _ _ _ _ Hd Hst) as (S1 & S2 & S3).
  unfold playback_main, pager_playback_one_page, read_journal. silent.
  step runs_read_stored; [exact S1|reflexivity|]. rewrite get4_put32 by lia.
  step runs_read_stored; [exact S2|rewrite Hd; exact HPS|]. unfold PAGER_SJ_PGNO. rewrite HPS. fold (lock_page PS).
  rewrite (proj2 (Z.eqb_neq n 0)), (proj2 (Z.eqb_neq n _)) by (exact Hl || lia). cbn [orb]. fold (skips pDone n p).
  unfold play, play_done. destruct (skips pDone n p).
  - apply runs_mret. cbv beta iota. silent. apply runs_ret. replace (journalOff p + PS + 4 + 4) with (journalOff p + PS + 8) by lia. reflexivity.
  - replace (journalOff p + PS + 4 + 4) with (journalOff p + PS + 8) by lia.
    step runs_read32; [replace (journalOff p + PS + 8 - 4) with (journalOff p + PS + 4) by lia; exact S3|apply cksum_bound, Hck|].
    unfold pager_cksum. rewrite HPS. fold (cksum PS (cksumInit p) d). rewrite Z.eqb_refl. cbn [negb]. rewrite andb_false_r. silent.
    eapply runs_bind with (a := true) (p' := p); [destruct pDone; [apply runs_alloc|ret]|]. silent.
    step runs_restore_main. ret.
Qed.
(** ** The size of the file *)

Lemma truncate_same f : file_truncate f (f_size f) = f.
Proof. unfold file_truncate. rewrite Z.ltb_irrefl. reflexivity. Qed.

(** The file is cut to [n] pages. *)
Definition cut (n : Z) (p : Pager) : Pager :=
  let same := f_size (fd p) =? PS * n in
  set_dbFileSize (if same then dbFileSize p else n)
    (set_log (if same then log p else log p ++ [EvTruncate Db (PS * n)]) (set_fd (file_truncate (fd p) (PS * n)) p)).

Lemma runs_cut n p : (PAGER_WRITER_DBMOD <=? eState p) || (eState p =? PAGER_OPEN) = true -> pageSize p = PS -> PS * n <= f_size (fd p) ->
  runs (pager_truncate e n) p SQLITE_OK (cut n p).
Proof.
  intros Hs HP Hn. unfold pager_truncate, cut. silent. rewrite Hs. step (runs_size Db). rewrite HP. cbn [the_file].
  destruct (Z.eqb_spec (f_size (fd p)) (PS * n)) as [He|He]; cbn [negb].
  - apply runs_ret. pext. rewrite <- He, truncate_same. reflexivity.
  - rewrite (proj2 (Z.ltb_lt _ _)) by lia. step (runs_truncate). unfold truncated. ret.
Qed.

(** ** Locks and the end of a transaction *)

Lemma runs_lock l p : eLock p < l < UNKNOWN_LOCK -> runs (pagerLockDb e l) p SQLITE_OK (set_eLock l p).
Proof.
  intros Hl. unfold pagerLockDb. silent. rewrite (proj2 (Z.ltb_lt _ _)) by lia. cbn [orb]. apply runs_tick. intros k.
  rewrite (q_lock _ Q), (proj2 (Z.eqb_neq (eLock p) _)) by (unfold UNKNOWN_LOCK in *; lia). ret.
Qed.

Lemma runs_wait l p p' : runs (pagerLockDb e l) p SQLITE_OK p' -> runs (pager_wait_on_lock e l) p SQLITE_OK p'.
Proof. intros H. unfold pager_wait_on_lock. destruct (c_nBusy (pe_cfg e)); cbn [wait_loop]; step H; apply runs_ret; reflexivity. Qed.

Lemma runs_reserved p : runs (sqlite3OsCheckReservedLock e) p (false, SQLITE_OK) p.
Proof. unfold sqlite3OsCheckReservedLock. apply runs_tick. intros k. rewrite (q_reserved _ Q), (q_io _ Q). ret. Qed.

Lemma runs_unlock l p : eLock p <> UNKNOWN_LOCK -> runs (pagerUnlockDb e l) p SQLITE_OK (set_changeCountDone false (set_eLock l p)).
Proof.
  intros Hl. unfold pagerUnlockDb. step runs_call. rewrite (proj2 (Z.eqb_neq _ _) Hl). ret.
Qed.

(** The journal is deleted or truncated at the end of a transaction. *)
Record mode_ok : Prop := {
  mo_mode : journalMode e = PAGER_JOURNALMODE_DELETE \/ journalMode e = PAGER_JOURNALMODE_TRUNCATE;
  mo_exclusive : exclusiveMode e = false
}.
Context (M : mode_ok).

Definition truncates : bool := journalMode e =? PAGER_JOURNALMODE_TRUNCATE.

Definition final_log (off : Z) : list event :=
  if truncates then if off =? 0 then [] else EvTruncate Jrnl 0 :: (if fullSync e then [EvSync Jrnl] else []) else [EvDelete (c_extraSync (pe_cfg e))].

Definition final_file (off : Z) (f : File) : File :=
  if truncates then if off =? 0 then f else file_truncate f 0 else empty_file.

Definition finalized (p : Pager) : Pager :=
  set_jfd (if truncates then jfd p else false) (set_jexists (if truncates then jexists p else false)
    (set_journalOff (if truncates then 0 else journalOff p)
      (set_log (log p ++ final_log (journalOff p)) (set_journal (final_file (journalOff p) (journal p)) p)))).

Lemma runs_finalize b p : runs (finalize_journal e b) p SQLITE_OK (finalized p).
Proof.
  unfold finalize_journal, finalized, final_log, final_file, truncates. destruct (mo_mode M) as [->| ->].
  - change (PAGER_JOURNALMODE_DELETE =? _) with false. rewrite (mo_exclusive M). cbn [andb orb]. silent.
    eapply runs_last; [apply runs_delete|]. unfold deleted. pext.
  - change (PAGER_JOURNALMODE_TRUNCATE =? PAGER_JOURNALMODE_MEMORY) with false.
    change (PAGER_JOURNALMODE_TRUNCATE =? PAGER_JOURNALMODE_TRUNCATE) with true. silent.
    destruct (journalOff p =? 0); [silent; apply runs_ret; pext; symmetry; apply app_nil_r|].
    step runs_truncate. unfold truncated. destruct (fullSync e).
    + step runs_sync. unfold synced_log. apply runs_ret. pext. rewrite <- app_assoc. reflexivity.
    + ret.
Qed.

Definition released (p : Pager) : Pager := set_nSubRec 0 (set_aSavepoint [] (set_sjfd None p)).

(** The pager after its transaction; [n] is the number of pages the file is cut to. *)
Definition ended (n : option Z) (p : Pager) : Pager :=
  let q := set_nRec 0 (set_pInJournal None (finalized (released p))) in
  let q := set_pPCache (sqlite3PcacheTruncate (pageSize p) (dbSize p) (sqlite3PcacheCleanAll (pPCache p))) q in
  let q := match n with Some n => cut n q | None => q end in
  set_eState PAGER_READER (set_changeCountDone false (set_eLock SHARED_LOCK q)).

Lemma runs_end (commit : bool) p : RESERVED_LOCK <= eLock p < UNKNOWN_LOCK -> jfd p = true -> pageSize p = PS ->
  (commit = true -> (PAGER_WRITER_DBMOD <=? eState p) || (eState p =? PAGER_OPEN) = true /\ PS * dbSize p <= f_size (fd p)) ->
  runs (pager_end_transaction e false commit) p SQLITE_OK
    (ended (if commit && (dbSize p <? dbFileSize p) then Some (dbSize p) else None) p).
Proof.
  intros Hl Hj HP Hc. unfold pager_end_transaction. silent.
  rewrite (proj2 (Z.ltb_ge (eLock p) RESERVED_LOCK)), andb_false_r by lia. unfold releaseAllSavepoints. rewrite (mo_exclusive M). cbn [negb orb].
  silent. rewrite Hj. step runs_finalize. unfold finalized. silent. psimp. unfold ended, finalized, released. psimp.
  lazymatch goal with |- runs _ ?q0 _ _ => set (q := q0) end.
  set (n := if commit && (dbSize p <? dbFileSize p) then Some (dbSize p) else None).
  eapply runs_bind with (a := SQLITE_OK) (p' := match n with Some n => cut n q | None => q end).
  { unfold n. destruct commit; [|apply runs_ret; reflexivity]. cbn [andb]. destruct (dbSize p <? dbFileSize p); [|apply runs_ret; reflexivity].
    destruct (Hc eq_refl) as [H1 H2]. apply runs_cut; [exact H1|exact HP|exact H2]. }
  ok. eapply runs_bind with (a := SQLITE_OK) (p' := match n with Some n => cut n q | None => q end).
  { destruct commit; [|apply runs_ret; reflexivity]. step runs_call. apply runs_ret. reflexivity. }
  assert (HL : eLock (match n with Some n => cut n q | None => q end) = eLock p) by (destruct n; reflexivity).
  step runs_unlock; [rewrite HL; lia|]. apply runs_ret. reflexivity.
Qed.

End Quiet.
