(* ===== verification/PagerRecovery.v ===== *)
(** * The pager: recovery

    A journal whose synced segments hold the original pages takes the database file back to
    them: the playback of a journal that was left behind, and the first lock of a process
    that finds one. *)
From stdpp Require Import gmap sorting.
From S2P Require Import Prelude Value Record Savepoint Pager PagerJournal PagerOps PagerRun.

Local Open Scope Z_scope.

Section Restore.
Context (PS : Z) (PS0 : 0 < PS).

(** ** Pages of a file *)

Lemma file_page_write_same f n d : Zlen d = PS -> file_page PS (file_write f ((n - 1) * PS) d) n = d.
Proof.
  intros Hd. unfold file_page. apply list_eq. intros k. destruct (decide (k < Z.to_nat PS)%nat) as [Hk|Hk].
  - rewrite file_bytes_lookup by exact Hk. rewrite write_byte, (proj2 (Z.leb_le _ _)), (proj2 (Z.ltb_lt _ _)) by lia. cbn [andb].
    replace (Z.to_nat _) with k by lia. destruct (lookup_lt_is_Some_2 d k) as [b Hb]; [unfold Zlen in Hd; lia|]. rewrite Hb. reflexivity.
  - rewrite !lookup_ge_None_2; [reflexivity|unfold Zlen in Hd; lia|rewrite file_bytes_length; lia].
Qed.

Lemma file_page_write_other f n m d : Zlen d = PS -> n <> m -> file_page PS (file_write f ((n - 1) * PS) d) m = file_page PS f m.
Proof. intros Hd Hn. apply file_bytes_ext. intros i Hi. apply write_byte_out. rewrite Hd. nia. Qed.

Lemma file_page_truncate f N m : m <= N -> file_page PS (file_truncate f (N * PS)) m = file_page PS f m.
Proof. intros Hm. apply file_bytes_ext. intros i Hi. apply truncate_byte. nia. Qed.

(** Records written over a file. *)
Definition restore_file (f : File) (l : list (Z * list Z)) : File :=
  foldl (fun f r => file_write f ((r.1 - 1) * PS) r.2) f l.

Definition write_ev (r : Z * list Z) : event := EvWrite Db ((r.1 - 1) * PS) r.2.

(** The pages of a database. *)
Definition page_at (orig : list (list Z)) (n : Z) (d : list Z) : Prop := 1 <= n /\ orig !! Z.to_nat (n - 1) = Some d.

Context (orig : list (list Z)) (lengths : Forall (fun d => Zlen d = PS) orig).

Definition from_orig (r : Z * list Z) : Prop := page_at orig r.1 r.2.

Lemma page_at_len n d : page_at orig n d -> Zlen d = PS.
Proof. intros [_ H]. exact (proj1 (Forall_lookup _ _) lengths _ _ H). Qed.

Lemma page_at_range n d : page_at orig n d -> 1 <= n <= Zlen orig.
Proof. intros [H1 H]. apply lookup_lt_Some in H. unfold Zlen. lia. Qed.

Lemma page_at_fun n d d' : page_at orig n d -> page_at orig n d' -> d = d'.
Proof. intros [_ H] [_ H']. congruence. Qed.

Lemma restore_page l f n d : Forall from_orig l -> page_at orig n d -> in_recs n l \/ file_page PS f n = d ->
  file_page PS (restore_file f l) n = d.
Proof.
  intros Hl Hn. revert f. induction Hl as [|[m d'] l Hm Hl IH]; intros f H.
  - destruct H as [H|H]; [|exact H]. apply elem_of_nil in H as [].
  - cbn [restore_file foldl fst snd]. apply IH. unfold from_orig in Hm. cbn [fst snd] in Hm. destruct (decide (m = n)) as [->|Hne].
    + right. rewrite file_page_write_same by exact (page_at_len _ _ Hm). exact (page_at_fun _ _ _ Hm Hn).
    + rewrite file_page_write_other by (exact Hne || exact (page_at_len _ _ Hm)).
      unfold in_recs in *. cbn [fmap list_fmap fst] in H. rewrite elem_of_cons in H. destruct H as [[->|H]|H]; [contradiction|left; exact H|right; exact H].
Qed.

Lemma restore_size l f : Forall from_orig l -> Zlen orig * PS <= f_size f -> f_size (restore_file f l) = f_size f.
Proof.
  intros Hl. revert f. induction Hl as [|[m d'] l Hm Hl IH]; intros f H; [reflexivity|]. cbn [restore_file foldl fst snd].
  unfold from_orig in Hm. cbn [fst snd] in Hm. pose proof (page_at_range _ _ Hm). pose proof (page_at_len _ _ Hm) as Hd.
  assert (Hs : f_size (file_write f ((m - 1) * PS) d') = f_size f).
  { rewrite write_size by (intros ->; rewrite Zlen_nil in Hd; lia). rewrite Hd. nia. }
  etransitivity; [apply IH; rewrite Hs; exact H|exact Hs].
Qed.

End Restore.

(** ** Offsets in a journal *)

Section Offsets.
Context (PS HS : Z) (PS0 : 0 < PS) (HS0 : 0 < HS).

Lemma align_ge off : 0 <= off -> off <= align HS off.
Proof.
  intros H. unfold align. destruct (Z.eqb_spec off 0); [lia|]. pose proof (Z.div_mod (off - 1) HS ltac:(lia)).
  pose proof (Z.mod_pos_bound (off - 1) HS HS0). nia.
Qed.

Lemma seg_end_ge s : 0 <= sg_hdr s -> sg_hdr s + HS <= seg_end PS HS s.
Proof. intros H. unfold seg_end. pose proof (Zlen_nonneg (sg_recs s)). nia. Qed.

Lemma seg_end_pos s : 0 <= sg_hdr s -> 0 < seg_end PS HS s.
Proof. intros H. pose proof (seg_end_ge s H). lia. Qed.

Lemma rec_bytes_length ck r : Zlen r.2 = PS -> Zlen (rec_bytes PS ck r) = PS + 8.
Proof. intros H. unfold rec_bytes. rewrite !Zlen_app, !put32_length, H. lia. Qed.

Lemma recs_bytes_length ck (l : list (Z * list Z)) : Forall (fun r => Zlen r.2 = PS) l ->
  Zlen (concat (rec_bytes PS ck <$> l)) = Zlen l * (PS + 8).
Proof.
  induction 1 as [|r l Hr Hl IH]; [reflexivity|]. rewrite fmap_cons. cbn [concat].
  rewrite Zlen_app, rec_bytes_length, IH, Zlen_cons by exact Hr. lia.
Qed.

End Offsets.

(** ** Records under a header *)

Section Records.
Context (e : PagerEnv) (Q : quiet e) (PS HS : Z) (SZ : sizes_ok PS HS).

(** A record that can be played back. *)
Definition rec_ok (r : Z * list Z) : Prop := 1 <= r.1 < 2 ^ 32 /\ r.1 <> lock_page PS /\ Zlen r.2 = PS.

Definition play_all (l : list (Z * list Z)) (p : Pager) : Pager := foldl (fun p r => play e PS None r.1 r.2 p) p l.

Lemma play_frame pd n d p : let q := play e PS pd n d p in
  pageSize q = pageSize p /\ cksumInit q = cksumInit p /\ journal q = journal p /\ journalOff q = journalOff p + PS + 8.
Proof. unfold play. cbv zeta. destruct (skips pd n p); split_and!; reflexivity. Qed.

Lemma reset_empty p : pPCache p = ∅ -> set_pPCache ∅ p = p.
Proof. destruct p. cbn. intros ->. reflexivity. Qed.

Lemma runs_records l szJ need p :
  (need = true -> pPCache p = ∅) -> pageSize p = PS -> 0 <= cksumInit p < 2 ^ 32 -> Forall rec_ok l ->
  stored (journal p) (journalOff p) (concat (rec_bytes PS (cksumInit p) <$> l)) ->
  runs (playback_records e (length l) szJ need) p (SQLITE_OK, need && bool_decide (l = []), true) (play_all l p).
Proof.
  intros Hneed HPS Hck Hl. revert p need Hneed HPS Hck. induction Hl as [|[n d] l (Hn & Hp & Hd) Hl IH]; intros p need Hneed HPS Hck Hst.
  - cbn. rewrite andb_true_r. apply runs_ret. reflexivity.
  - cbn [length playback_records]. eapply runs_bind with (p' := p).
    { destruct need; [|apply runs_ret; reflexivity]. apply runs_modify_last, reset_empty, Hneed. reflexivity. }
    cbn [fst snd] in Hn, Hp, Hd. cbn [play_all foldl fst snd]. fold (play_all l).
    rewrite fmap_cons in Hst. cbn [concat] in Hst. apply stored_app in Hst as [Hr Hst]. rewrite (rec_bytes_length PS) in Hst by exact Hd.
    step runs_play; [exact Q|exact HPS|exact Hck|exact Hn|exact Hp|exact Hd|exact Hr|].
    rewrite bool_decide_eq_false_2, andb_false_r by discriminate.
    destruct (play_frame None n d p) as (F1 & F2 & F3 & F4).
    replace false with (false && bool_decide (l = [])) at 2 by reflexivity. apply IH.
    + discriminate.
    + rewrite F1. exact HPS.
    + rewrite F2. exact Hck.
    + rewrite F2, F3, F4, <- Z.add_assoc. exact Hst.
Qed.

End Records.

(** ** Playback of a journal that was left behind *)

Section Hot.
Context (e : PagerEnv) (Q : quiet e) (PS HS : Z) (SZ : sizes_ok PS HS).
Context (orig : list (list Z)) (lengths : Forall (fun d => Zlen d = PS) orig) (small : Zlen orig < lock_page PS).

(** What playback changes. *)
Definition hupd (f : File) (lg : list event) (o ck z : Z) (p : Pager) : Pager :=
  set_journalOff o (set_cksumInit ck (set_dbFileSize z (set_log lg (set_fd f p)))).

Lemma hupd_same p o ck : o = journalOff p -> ck = cksumInit p -> hupd (fd p) (log p) o ck (dbFileSize p) p = p.
Proof. destruct p. cbn. intros -> ->. reflexivity. Qed.

Lemma hupd_twice f lg o ck z f' lg' o' ck' z' p : hupd f lg o ck z (hupd f' lg' o' ck' z' p) = hupd f lg o ck z p.
Proof. destruct p. reflexivity. Qed.

(** A process that recovers the database. *)
Record hot (p : Pager) : Prop := {
  h_eState : eState p = PAGER_OPEN;
  h_pageSize : pageSize p = PS;
  h_sectorSize : sectorSize p = HS;
  h_cache : pPCache p = ∅;
  h_dbSize : dbSize p = Zlen orig;
  h_hdr : journalHdr p = f_size (journal p)
}.

Lemma hot_hupd f lg o ck z p : hot p -> hot (hupd f lg o ck z p).
Proof. intros [H1 H2 H3 H4 H5 H6]. split; assumption. Qed.

Lemma lock_page_bound : lock_page PS <= 2 ^ 30 + 1.
Proof. destruct SZ as [H _ _ _]. unfold lock_page. pose proof (Z.div_le_upper_bound 0x40000000 PS 0x40000000 ltac:(lia) ltac:(lia)). lia. Qed.

Lemma lock_page_small : lock_page PS < 2 ^ 32.
Proof. pose proof lock_page_bound. lia. Qed.

Lemma from_orig_ok (l : list (Z * list Z)) : Forall (from_orig orig) l -> Forall (rec_ok PS) l.
Proof.
  pose proof lock_page_small. intros Hl. apply (Forall_impl _ _ _ Hl). intros [n d] Hr. unfold from_orig in Hr. cbn [fst snd] in Hr.
  pose proof (page_at_range _ _ _ Hr). pose proof (page_at_len _ _ lengths _ _ Hr). split_and!; cbn [fst snd]; [lia|lia|lia|assumption].
Qed.

Lemma play_hot n d p : hot p -> page_at orig n d -> journalOff p + PS + 8 <= journalHdr p ->
  exists z, play e PS None n d p =
    hupd (file_write (fd p) ((n - 1) * PS) d) (log p ++ [write_ev PS (n, d)]) (journalOff p + PS + 8) (cksumInit p) z p.
Proof.
  intros [H1 H2 H3 H4 H5 H6] Hn Ho. pose proof (page_at_range _ _ _ Hn). unfold play, skips, put_main, synced_at, is_cached.
  rewrite H5, H1, H2, (proj2 (Z.ltb_ge _ _)), (proj2 (Z.leb_le _ _) Ho), (orb_true_r (noSync e)) by lia. cbn [orb andb sqlite3BitvecTest].
  change ((PAGER_WRITER_DBMOD <=? PAGER_OPEN) || (PAGER_OPEN =? PAGER_OPEN)) with true. cbv iota.
  rewrite H4, alter_absent by apply lookup_empty. rewrite lookup_empty, bool_decide_eq_false_2 by (intros [? [=]]). cbn [andb].
  exists (Z.max (dbFileSize p) n). clear - H4. destruct p. cbn in H4 |- *. rewrite H4. reflexivity.
Qed.

Lemma play_all_hot l p : hot p -> Forall (from_orig orig) l -> journalOff p + Zlen l * (PS + 8) <= journalHdr p ->
  exists z, play_all e PS l p =
    hupd (restore_file PS (fd p) l) (log p ++ (write_ev PS <$> l)) (journalOff p + Zlen l * (PS + 8)) (cksumInit p) z p.
Proof.
  intros Hp Hl. destruct SZ as [HP _ _ _]. revert p Hp. induction Hl as [|[n d] l Hn Hl IH]; intros p Hp Ho.
  - exists (dbFileSize p). cbn [play_all restore_file foldl fmap list_fmap]. rewrite app_nil_r. symmetry. apply hupd_same; [unfold Zlen; cbn; lia|reflexivity].
  - rewrite Zlen_cons in Ho |- *. pose proof (Zlen_nonneg l).
    destruct (play_hot n d p Hp Hn) as [z Hz]; [nia|]. cbn [play_all foldl fst snd]. rewrite Hz.
    lazymatch goal with |- context [foldl _ ?q l] => destruct (IH q (hot_hupd _ _ _ _ _ _ Hp)) as [z' Hz'] end; [unfold hupd; psimp; nia|].
    unfold play_all in Hz'. rewrite Hz'. exists z'. rewrite hupd_twice. unfold hupd at 2 3 4 5. psimp.
    rewrite <- app_assoc. f_equal. lia.
Qed.

(** A synced segment. *)
Definition seg_ok (j : File) (s : seg) : Prop :=
  stored j (sg_hdr s) (seg_bytes PS HS (closed_mark s) (Zlen orig) s) /\ 0 <= sg_ck s < 2 ^ 32 /\ Forall (from_orig orig) (sg_recs s)
  /\ Zlen (sg_recs s) < 2 ^ 32 - 1.

Lemma orig_small : 0 <= Zlen orig < 2 ^ 32.
Proof. pose proof lock_page_small. pose proof (Zlen_nonneg orig). lia. Qed.

Lemma hdr_bytes_length m ck n : Zlen m = 12 -> Zlen (hdr_bytes PS HS m ck n) = HS.
Proof.
  intros Hm. destruct SZ as [_ H _ _]. unfold hdr_bytes. rewrite !Zlen_app, !put32_length, Hm. unfold zeros, Zlen. rewrite length_replicate. lia.
Qed.

Lemma seg_parts j s : seg_ok j s -> stored j (sg_hdr s) (hdr_bytes PS HS (closed_mark s) (sg_ck s) (Zlen orig)) /\
  stored j (sg_hdr s + HS) (concat (rec_bytes PS (sg_ck s) <$> sg_recs s)) /\ seg_end PS HS s <= f_size j /\ 0 <= sg_hdr s.
Proof.
  intros (H & _ & Hr & _). unfold seg_bytes in H. pose proof H as (H0 & Hs & _). rewrite Zlen_app in Hs. apply stored_app in H as [H1 H2].
  rewrite hdr_bytes_length in H2, Hs by reflexivity. split_and!; [exact H1|exact H2| |exact H0].
  rewrite (recs_bytes_length PS) in Hs by (apply (Forall_impl _ _ _ (from_orig_ok _ Hr)); intros r Hk; apply Hk). unfold seg_end. lia.
Qed.

Lemma runs_seg_header s szJ p : hot p \/ sg_hdr s = 0 /\ pPCache p = ∅ /\ sectorSize p = HS ->
  seg_ok (journal p) s -> sg_hdr s = align HS (journalOff p) -> szJ = f_size (journal p) ->
  runs (readJournalHdr e true szJ) p (SQLITE_OK, Zlen (sg_recs s), Zlen orig)
    (set_journalOff (sg_hdr s + HS) (set_cksumInit (sg_ck s) (if sg_hdr s =? 0 then set_sectorSize HS (sized PS p) else p))).
Proof.
  intros Hp Hs Ho ->. destruct (seg_parts _ _ Hs) as (P1 & P2 & P3 & P4). destruct Hs as (_ & Hck & _ & Hl).
  destruct SZ as [Z1 Z2 _ _]. pose proof (seg_end_ge PS HS ltac:(lia) s P4). pose proof (Zlen_nonneg (sg_recs s)).
  apply runs_header with (m := aJournalMagic); try assumption; try reflexivity; try lia.
  - destruct Hp as [Hp|(_ & _ & Hp)]; [apply Hp|exact Hp].
  - apply orig_small.
  - destruct Hp as [Hp|(Hp & Hc & _)]; [left; apply Hp|right; split; [exact Hp|exact Hc]].
Qed.

Lemma seg_records_cons s cs : seg_records (s :: cs) = sg_recs s ++ seg_records cs.
Proof. reflexivity. Qed.

Lemma runs_seg_records s szJ need p : hot p -> seg_ok (journal p) s -> journalOff p = sg_hdr s + HS -> cksumInit p = sg_ck s ->
  exists z, runs (playback_records e (Z.to_nat (Zlen (sg_recs s))) szJ need) p (SQLITE_OK, need && bool_decide (sg_recs s = []), true)
    (hupd (restore_file PS (fd p) (sg_recs s)) (log p ++ (write_ev PS <$> sg_recs s)) (seg_end PS HS s) (sg_ck s) z p).
Proof.
  intros Hp Hs Ho Hc. destruct (seg_parts _ _ Hs) as (P1 & P2 & P3 & P4). destruct Hs as (_ & Hck & Hr & Hl).
  destruct (play_all_hot (sg_recs s) p Hp Hr) as [z Hz].
  { rewrite Ho, (h_hdr _ Hp). exact P3. }
  exists z. rewrite Zlen_to_nat. unfold seg_end. rewrite <- Ho, <- Hc, <- Hz.
  apply runs_records; try assumption.
  - intros _. apply Hp.
  - apply Hp.
  - rewrite Hc. exact Hck.
  - apply from_orig_ok, Hr.
  - rewrite Ho, Hc. exact P2.
Qed.

(** Nothing more to play back at [h]. *)
Definition dead (j : File) (h : Z) : Prop := file_bytes j h 8 <> aJournalMagic.

Lemma runs_tail cs : forall p fuel need, hot p -> 0 < journalOff p -> chain PS HS (journalOff p) cs -> Forall (seg_ok (journal p)) cs ->
  dead (journal p) (align HS (end_from PS HS (journalOff p) cs)) -> (length cs < fuel)%nat ->
  exists o ck z, 0 < o /\ runs (playback_headers e fuel true (f_size (journal p)) need) p SQLITE_OK
    (hupd (restore_file PS (fd p) (seg_records cs)) (log p ++ (write_ev PS <$> seg_records cs)) o ck z p).
Proof.
  destruct SZ as [Z1 Z2 _ _]. induction cs as [|s cs IH]; intros p fuel need Hp Hpos Hch Hs Hd Hf.
  - destruct fuel as [|fuel]; [cbn in Hf; lia|]. cbn [playback_headers end_from] in *.
    pose proof (align_ge HS ltac:(lia) (journalOff p)).
    exists (align HS (journalOff p)), (cksumInit p), (dbFileSize p). split; [lia|]. step runs_no_header; [exact Q|exact SZ|apply Hp|..].
    + lia.
    + apply Z.le_refl.
    + right. split; [reflexivity|exact Hd].
    + apply runs_ret. cbn. rewrite app_nil_r. destruct p. reflexivity.
  - destruct fuel as [|fuel]; [cbn in Hf; lia|]. cbn [playback_headers end_from chain length] in *. destruct Hch as [Hh Hch].
    inversion_clear Hs as [|? ? Hs1 Hs2]. destruct (seg_parts _ _ Hs1) as (P1 & P2 & P3 & P4).
    pose proof (align_ge HS ltac:(lia) (journalOff p) ltac:(lia)).
    set (q := set_journalOff (sg_hdr s + HS) (set_cksumInit (sg_ck s) p)).
    assert (Hq : hot q) by exact (hot_hupd (fd p) (log p) _ _ (dbFileSize p) p Hp).
    destruct (runs_seg_records s (f_size (journal p)) need q Hq Hs1 eq_refl eq_refl) as [z Hz].
    lazymatch type of Hz with runs _ _ _ ?p' =>
      destruct (IH p' fuel (need && bool_decide (sg_recs s = [])) (hot_hupd _ _ _ _ _ _ Hq)) as (o & ck & z' & Hpo & Hr) end.
    + apply seg_end_pos; [lia|lia|exact P4].
    + exact Hch.
    + exact Hs2.
    + exact Hd.
    + lia.
    + exists o, ck, z'. split; [exact Hpo|]. step runs_seg_header; [left; exact Hp|exact Hs1|exact Hh|reflexivity|].
      rewrite (proj2 (Z.eqb_neq (sg_hdr s) 0)) by lia. fold q.
      rewrite (proj2 (Z.eqb_neq (Zlen (sg_recs s)) 0xffffffff)) by (destruct Hs1 as (_ & _ & _ & Hl); lia).
      rewrite andb_false_r. unfold JOURNAL_HDR_SZ. cbn [andb]. rewrite (h_sectorSize _ Hq).
      change (journalOff q) with (sg_hdr s + HS). rewrite (proj2 (Z.eqb_neq _ HS)) by lia. silent.
      eapply runs_bind; [exact Hz|]. eapply runs_last; [exact Hr|].
      rewrite hupd_twice. unfold q, hupd. psimp. rewrite <- app_assoc, seg_records_cons, fmap_app. unfold restore_file. rewrite foldl_app. destruct p. reflexivity.
Qed.

(** What recovery leaves alone. *)
Record kept (p p' : Pager) : Prop := {
  k_eState : eState p' = eState p;
  k_eLock : eLock p' = eLock p;
  k_errCode : errCode p' = errCode p;
  k_jfd : jfd p' = jfd p;
  k_journal : journal p' = journal p;
  k_jexists : jexists p' = jexists p;
  k_hdr : journalHdr p' = journalHdr p;
  k_cache : pPCache p' = pPCache p
}.

(** After the first header. *)
Definition opened_at (s : seg) (p : Pager) : Pager :=
  let q := cut PS (Zlen orig) (set_journalOff (sg_hdr s + HS) (set_cksumInit (sg_ck s) (set_sectorSize HS (sized PS p)))) in
  set_dbSize (Zlen orig) (set_mxPgno (Z.max (mxPgno p) (Zlen orig)) q).

Lemma opened_at_kept s p : pPCache p = ∅ -> kept p (opened_at s p).
Proof.
  intros Hc. unfold opened_at, cut, sized. split; psimp; try reflexivity. rewrite Hc. destruct (_ =? _); reflexivity.
Qed.

Lemma opened_at_fields s p : let q := opened_at s p in
  pageSize q = PS /\ sectorSize q = HS /\ dbSize q = Zlen orig /\ journalOff q = sg_hdr s + HS /\ cksumInit q = sg_ck s
  /\ fd q = file_truncate (fd p) (PS * Zlen orig)
  /\ log q = log p ++ (if f_size (fd p) =? PS * Zlen orig then [] else [EvTruncate Db (PS * Zlen orig)]).
Proof.
  unfold opened_at, cut, sized. cbv zeta. psimp. split_and!; try reflexivity. destruct (_ =? _); [rewrite app_nil_r|]; reflexivity.
Qed.

(** A journal from which the database can be restored: its synced segments hold every page of
    the file that is not the original one. *)
Record recoverable_by (cs : list seg) (f j : File) : Prop := {
  r_wf : file_wf f /\ file_wf j;
  r_chain : chain PS HS 0 cs;
  r_segs : Forall (seg_ok j) cs;
  r_dead : dead j (align HS (end_of PS HS cs));
  r_pages : forall n d, page_at orig n d -> ~ in_recs n (seg_records cs) -> file_page PS f n = d;
  r_size : PS * Zlen orig <= f_size f;
  r_none : cs = [] -> f_size f = PS * Zlen orig
}.

(** The file after recovery. *)
Definition recovered (cs : list seg) (f : File) : File :=
  match cs with [] => f | _ => restore_file PS (file_truncate f (PS * Zlen orig)) (seg_records cs) end.

(** What recovery does to the file. *)
Definition recovery_log (cs : list seg) (f : File) : list event :=
  match cs with
  | [] => []
  | _ => (if f_size f =? PS * Zlen orig then [] else [EvTruncate Db (PS * Zlen orig)]) ++ (write_ev PS <$> seg_records cs)
  end.

(** The first header. *)
Lemma runs_first s fuel need p b p'' : eState p = PAGER_OPEN -> sectorSize p = HS -> pPCache p = ∅ -> journalOff p = 0 ->
  sg_hdr s = 0 -> seg_ok (journal p) s -> PS * Zlen orig <= f_size (fd p) ->
  runs ('(rc, needPagerReset, more) ← playback_records e (Z.to_nat (Zlen (sg_recs s))) (f_size (journal p)) need;
        if (more : bool) then playback_headers e fuel true (f_size (journal p)) needPagerReset else mret rc) (opened_at s p) b p'' ->
  runs (playback_headers e (S fuel) true (f_size (journal p)) need) p b p''.
Proof.
  intros He Hss Hc Ho H0 Hs Hn Hr. cbn [playback_headers]. destruct Hs as (Hs0 & Hs1 & Hs2 & Hl). pose proof (conj Hs0 (conj Hs1 (conj Hs2 Hl))) as Hs.
  step runs_seg_header; [right; split_and!; [exact H0|exact Hc|exact Hss]|exact Hs|rewrite Ho; exact H0|reflexivity|].
  rewrite (proj2 (Z.eqb_neq (Zlen (sg_recs s)) 0xffffffff)), andb_false_r by lia. cbn [andb]. rewrite H0. cbn [Z.eqb]. unfold JOURNAL_HDR_SZ. psimp.
  rewrite Z.eqb_refl. step (runs_cut e Q PS).
  - psimp. unfold sized. psimp. rewrite He. reflexivity.
  - psimp. unfold sized. psimp. reflexivity.
  - psimp. unfold sized. psimp. exact Hn.
  - lazymatch goal with |- runs _ ?q _ _ => replace q with (opened_at s p) end; [exact Hr|].
    unfold opened_at, cut, sized. rewrite H0. psimp.
    destruct (Z.ltb_spec (mxPgno p) (Zlen orig)); [rewrite Z.max_r by lia|rewrite Z.max_l by lia]; pext.
Qed.

Lemma runs_headers cs fuel need p : eState p = PAGER_OPEN -> sectorSize p = HS -> pPCache p = ∅ -> journalHdr p = f_size (journal p) ->
  journalOff p = 0 -> recoverable_by cs (fd p) (journal p) -> (length cs < fuel)%nat ->
  exists p', runs (playback_headers e fuel true (f_size (journal p)) need) p SQLITE_OK p'
    /\ kept p p' /\ fd p' = recovered cs (fd p) /\ log p' = log p ++ recovery_log cs (fd p) /\ (cs <> [] -> 0 < journalOff p').
Proof.
  intros He Hss Hc Hh Ho [R1 R2 R3 R4 R5 R6 R7] Hf. destruct SZ as [Z1 Z2 _ _]. destruct fuel as [|fuel]; [lia|].
  destruct cs as [|s cs].
  - cbn [playback_headers]. exists (set_journalOff (align HS (journalOff p)) p). split.
    + step runs_no_header; [exact Q|exact SZ|exact Hss|..]; [rewrite Ho; reflexivity|apply Z.le_refl| |ret].
      rewrite Ho. right. split; [reflexivity|exact R4].
    + split; [split; reflexivity|]. split; [reflexivity|]. cbn [recovery_log]. psimp. rewrite app_nil_r. split; [reflexivity|]. intros []. reflexivity.
  - cbn [chain length] in R2, Hf. destruct R2 as [H0 R2]. change (align HS 0) with 0 in H0.
    inversion_clear R3 as [|? ? Hs1 Hs2]. pose proof (opened_at_kept s p Hc) as [K1 K2 K3 K4 K5 K6 K7 K8].
    pose proof (opened_at_fields s p) as (F1 & F2 & F3 & F4 & F5 & F6 & F7).
    pose proof (fun b p'' => runs_first s fuel need p b p'' He Hss Hc Ho H0 Hs1 R6) as Hfirst.
    generalize dependent (opened_at s p). intros q K1 K2 K3 K4 K5 K6 K7 K8 F1 F2 F3 F4 F5 F6 F7 Hfirst.
    assert (Hq : hot q) by (split; congruence).
    rewrite <- K5 in Hs1. destruct (runs_seg_records s (f_size (journal p)) need q Hq Hs1 F4 F5) as [z Hz].
    lazymatch type of Hz with runs _ _ _ ?p' =>
      destruct (runs_tail cs p' fuel (need && bool_decide (sg_recs s = [])) (hot_hupd _ _ _ _ _ _ Hq)) as (o & ck & z' & Hpo & Hr) end.
    1-5: unfold hupd; psimp; rewrite ?K5; first [apply seg_end_pos; lia|exact R2|exact Hs2|exact R4|lia].
    eexists. split; [|split].
    + apply Hfirst. eapply runs_bind; [exact Hz|]. cbv beta iota. rewrite <- K5. exact Hr.
    + rewrite hupd_twice. split; assumption.
    + unfold hupd. psimp. rewrite F6, F7. cbn [recovered recovery_log]. rewrite seg_records_cons, fmap_app. unfold restore_file. rewrite foldl_app, <- !app_assoc. split_and!; [reflexivity|reflexivity|intros _; exact Hpo].
Qed.

(** No name of a super-journal at the end of the journal. *)
Definition no_super (j : File) : Prop := f_size j < 16 \/ file_bytes j (f_size j - 8) 8 <> aJournalMagic.

Lemma runs_no_super p : no_super (journal p) -> runs (readSuperJournal e) p (SQLITE_OK, []) p.
Proof.
  intros Hn. unfold readSuperJournal. step (runs_size e Q Jrnl). cbn [the_file].
  destruct (Z.ltb_spec (f_size (journal p)) 16) as [H16|H16]; [ret|].
  step (runs_read32_any e Q Jrnl); [cbn [the_file]; lia|]. destruct (_ || _) eqn:Hb; [ret|].
  step (runs_read32_any e Q Jrnl); [cbn [the_file]; lia|].
  step (runs_read e Q Jrnl); [lia|cbn [the_file]; lia|]. destruct Hn as [Hn|Hn]; [lia|].
  rewrite bool_decide_eq_false_2 by exact Hn. ret.
Qed.

Lemma segs_length cs off j : 0 <= off -> chain PS HS off cs -> Forall (seg_ok j) cs -> off + Z.of_nat (length cs) <= Z.max off (f_size j).
Proof.
  destruct SZ as [Z1 Z2 _ _]. revert off. induction cs as [|s cs IH]; intros off Ho Hc Hs; [cbn; lia|].
  destruct Hc as [Hh Hc]. inversion_clear Hs as [|? ? H1 H2]. destruct (seg_parts _ _ H1) as (_ & _ & P3 & P4).
  pose proof (align_ge HS ltac:(lia) off Ho). pose proof (seg_end_ge PS HS ltac:(lia) s P4).
  specialize (IH (seg_end PS HS s) ltac:(lia) Hc H2). cbn [length]. lia.
Qed.

Lemma runs_body cs p : eState p = PAGER_OPEN -> sectorSize p = HS -> pPCache p = ∅ -> journalHdr p = f_size (journal p) ->
  no_super (journal p) -> recoverable_by cs (fd p) (journal p) ->
  exists p', runs (playback_body e true) p (SQLITE_OK, true) p'
    /\ kept p p' /\ fd p' = recovered cs (fd p) /\ log p' = log p ++ recovery_log cs (fd p) /\ (cs <> [] -> 0 < journalOff p').
Proof.
  intros He Hss Hc Hh Hn R.
  assert (Hlen : (length cs < S (S (Z.to_nat (f_size (journal p)))))%nat).
  { pose proof (segs_length cs 0 (journal p) ltac:(lia) (r_chain _ _ _ R) (r_segs _ _ _ R)).
    pose proof (proj1 (proj2 (r_wf _ _ _ R))). lia. }
  destruct (runs_headers cs _ true (set_journalOff 0 p) He Hss Hc Hh eq_refl R Hlen) as (p' & Hr & [K1 K2 K3 K4 K5 K6 K7 K8] & Hf & Hl & Hpo).
  exists p'. split_and!; [|split; assumption|exact Hf|exact Hl|exact Hpo].
  unfold playback_body. step (runs_size e Q Jrnl). step runs_no_super; [exact Hn|].
  rewrite bool_decide_eq_true_2 by reflexivity. step Hr. ret.
Qed.

Context (M : mode_ok e).

Definition sync_log (f : file_id) : list event := if noSync e then [] else [EvSync f].

Lemma runs_pager_sync p : runs (sqlite3PagerSync e) p SQLITE_OK (set_log (log p ++ sync_log Db) p).
Proof.
  unfold sqlite3PagerSync, sync_log. step (runs_call e Q). destruct (noSync e).
  - apply runs_ret. pext. rewrite app_nil_r. reflexivity.
  - apply runs_sync, Q.
Qed.

Lemma clean_empty sz n : sqlite3PcacheTruncate sz n (sqlite3PcacheCleanAll ∅) = ∅.
Proof.
  unfold sqlite3PcacheTruncate, sqlite3PcacheCleanAll, on_dirty. rewrite fmap_empty. destruct (n =? 0); [rewrite lookup_empty; reflexivity|apply map_filter_empty].
Qed.

(** What is known of the pager after the playback; [o] is where it stopped. *)
Record played (cs : list seg) (o : Z) (p p' : Pager) : Prop := {
  y_fd : fd p' = recovered cs (fd p);
  y_log : log p' = log p ++ recovery_log cs (fd p) ++ sync_log Db ++ final_log e o;
  y_off : cs <> [] -> 0 < o;
  y_journal : journal p' = final_file e o (journal p);
  y_errCode : errCode p' = errCode p;
  y_cache : pPCache p' = ∅;
  y_pageSize : pageSize p' = pageSize p;
  y_eLock : eLock p' = SHARED_LOCK
}.

Lemma runs_playback_hot cs p : eState p = PAGER_OPEN -> sectorSize p = HS -> pPCache p = ∅ -> journalHdr p = f_size (journal p) ->
  no_super (journal p) -> recoverable_by cs (fd p) (journal p) -> eLock p = EXCLUSIVE_LOCK -> jfd p = true -> 0 < pageSize p ->
  exists p' o, runs (pager_playback e true) p SQLITE_OK p' /\ played cs o p p'.
Proof.
  intros He Hss Hc Hh Hn R Hl Hj HP0. destruct (runs_body cs p He Hss Hc Hh Hn R) as (q & Hr & [K1 K2 K3 K4 K5 K6 K7 K8] & Hf & Hlog & Hpo).
  set (q1 := set_log (log q ++ sync_log Db) (set_changeCountDone false (sized (pageSize p) q))).
  assert (Hsz : eState (sized (pageSize p) q) = PAGER_OPEN /\ pPCache (sized (pageSize p) q) = ∅ /\ journal (sized (pageSize p) q) = journal p).
  { unfold sized. psimp. rewrite K1, K5, K8, Hc. split_and!; [exact He|destruct (_ =? _); reflexivity|reflexivity]. }
  destruct Hsz as (Z1 & Z2 & Z3).
  exists (set_sectorSize (c_sectorSize (pe_cfg e)) (ended e (pageSize p) None q1)), (journalOff q). split.
  - unfold pager_playback. silent. step Hr. step (runs_set_pagesize e Q); [lia|right; congruence|].
    step runs_no_super; [unfold sized; psimp; rewrite K5; exact Hn|]. psimp. rewrite Z1. change ((PAGER_WRITER_DBMOD <=? PAGER_OPEN) || (PAGER_OPEN =? PAGER_OPEN)) with true. ok.
    step runs_pager_sync. rewrite bool_decide_eq_true_2 by reflexivity. cbn [negb]. psimp.
    step (runs_end e Q (pageSize p) M false).
    + psimp. unfold sized. psimp. rewrite K2, Hl. split; reflexivity || discriminate.
    + psimp. unfold sized. psimp. congruence.
    + psimp. unfold sized. psimp. reflexivity.
    + discriminate.
    + apply runs_ret. reflexivity.
  - assert (Hfd : fd (sized (pageSize p) q) = fd q /\ journalOff (sized (pageSize p) q) = journalOff q /\ errCode (sized (pageSize p) q) = errCode q)
      by (split_and!; reflexivity).
    destruct Hfd as (E1 & E2 & E3). unfold ended, finalized, released, q1. split; psimp; rewrite ?E1, ?E2, ?E3, ?Z2, ?Z3; try assumption; try reflexivity.
    + rewrite Hlog, <- !app_assoc. reflexivity.
    + apply clean_empty.
Qed.

(** ** The first lock of a process *)

Record fresh (p : Pager) : Prop := {
  fr_eState : eState p = PAGER_OPEN;
  fr_eLock : eLock p = NO_LOCK;
  fr_errCode : errCode p = SQLITE_OK;
  fr_jfd : jfd p = false;
  fr_cache : pPCache p = ∅;
  fr_sectorSize : sectorSize p = HS;
  fr_pageSize : 0 < pageSize p;
  fr_journal : jexists p = false -> journal p = empty_file
}.

Lemma recovered_ok cs f j : recoverable_by cs f j ->
  f_size (recovered cs f) = PS * Zlen orig /\ forall n d, page_at orig n d -> file_page PS (recovered cs f) n = d.
Proof.
  intros [[R0 R1] R2 R3 R4 R5 R6 R7]. destruct SZ as [Z1 Z2 _ _].
  assert (Ht : f_size (file_truncate f (PS * Zlen orig)) = PS * Zlen orig).
  { unfold file_truncate. destruct (Z.ltb_spec (PS * Zlen orig) (f_size f)); [reflexivity|lia]. }
  assert (Hall : Forall (from_orig orig) (seg_records cs)).
  { unfold seg_records. apply Forall_concat, Forall_fmap, (Forall_impl _ _ _ R3). intros s Hs. apply Hs. }
  destruct cs as [|s cs].
  - split; [apply R7; reflexivity|]. intros n d Hn. apply R5; [exact Hn|]. apply not_elem_of_nil.
  - split.
    + cbn [recovered]. rewrite (restore_size PS ltac:(lia) orig lengths); [exact Ht|exact Hall|lia].
    + intros n d Hn. cbn [recovered]. apply (restore_page PS ltac:(lia) orig lengths); [exact Hall|exact Hn|].
      destruct (decide (n ∈ (seg_records (s :: cs)).*1)) as [Hi|Hi]; [left; exact Hi|right].
      rewrite (Z.mul_comm PS), file_page_truncate by (pose proof (page_at_range _ _ _ Hn); lia). apply R5; assumption.
Qed.

(** A segment starts with the magic bytes. *)
Lemma seg_first cs f j : recoverable_by cs f j -> cs <> [] -> file_bytes j 0 1 <> [0] /\ j <> empty_file.
Proof.
  intros R Hc. destruct cs as [|s cs]; [contradiction|]. pose proof (r_chain _ _ _ R) as [H0 _]. pose proof (r_segs _ _ _ R) as Hs.
  inversion_clear Hs as [|? ? Hs1 _]. change (align HS 0) with 0 in H0. destruct (seg_parts _ _ Hs1) as (P1 & _ & P3 & _).
  assert (Hb : f_byte j 0 = 0xd9).
  { destruct P1 as (_ & _ & P1). rewrite H0 in P1. apply (P1 0%nat). reflexivity. }
  split; [|intros ->; discriminate Hb]. intros H.
  assert (Hx : file_bytes j 0 1 !! 0%nat = Some (f_byte j (0 + Z.of_nat 0))) by (apply file_bytes_lookup; lia).
  change (0 + Z.of_nat 0) with 0 in Hx. rewrite H, Hb in Hx. discriminate.
Qed.


(** What the first lock has done: nothing, or it has deleted the journal of an empty file, or it
    has played back the journal. *)
Inductive outcome (cs : list seg) (p p' : Pager) : Prop :=
  | out_none : cs = [] -> fd p' = fd p -> log p' = log p -> journal p' = journal p -> outcome cs p p'
  | out_empty : f_size (fd p) = 0 -> fd p' = fd p -> log p' = log p ++ [EvDelete false] -> journal p' = empty_file -> outcome cs p p'
  | out_played o : fd p' = recovered cs (fd p) ->
      log p' = log p ++ sync_log Jrnl ++ recovery_log cs (fd p) ++ sync_log Db ++ final_log e o ->
      (cs <> [] -> 0 < o) -> journal p' = final_file e o (journal p) -> outcome cs p p'.

(** The page count, which may grow the limit. *)
Definition counted (p : Pager) : Pager :=
  let nPage := (f_size (fd p) + pageSize p - 1) / pageSize p in
  set_mxPgno (Z.max (mxPgno p) nPage) p.

Lemma grow_limit p n : (if mxPgno p <? n then set_mxPgno n p else p) = set_mxPgno (Z.max (mxPgno p) n) p.
Proof. destruct (Z.ltb_spec (mxPgno p) n); [rewrite Z.max_r by lia; reflexivity|rewrite Z.max_l by lia; destruct p; reflexivity]. Qed.

Lemma runs_pagecount p : runs (pagerPagecount e) p SQLITE_OK
  (set_dbSize ((f_size (fd p) + pageSize p - 1) / pageSize p) (counted p)).
Proof. unfold pagerPagecount, counted. step (runs_size e Q Db). apply runs_ret. cbn [the_file]. rewrite grow_limit. reflexivity. Qed.

Lemma runs_hasHot p : fresh p -> let q := set_eLock SHARED_LOCK p in
  exists hot q', runs (hasHotJournal e) q (SQLITE_OK, hot) q' /\
    (hot = false /\ jexists p = false /\ q' = q \/
     hot = false /\ f_size (fd p) <= 0 /\ q' = set_changeCountDone false (set_eLock SHARED_LOCK (deleted false (set_eLock RESERVED_LOCK (counted q)))) \/
     hot = negb (bool_decide (file_bytes (journal p) 0 1 = [0])) /\ jexists p = true /\ q' = counted q).
Proof.
  intros [F1 F2 F3 F4 F5 F6 F7 F8] q. destruct (jexists p) eqn:Hx.
  2: { exists false, q. split; [|left; auto]. unfold hasHotJournal. silent. unfold q. psimp. rewrite F4. step (runs_call e Q). psimp. rewrite Hx. cbn [orb negb]. ret. }
  destruct (Z.eqb_spec ((f_size (fd p) + pageSize p - 1) / pageSize p) 0) as [Hz|Hz].
  - exists false. eexists. split; [|right; left; split_and!; [reflexivity| |reflexivity]].
    + unfold hasHotJournal. silent. unfold q. psimp. rewrite F4. step (runs_call e Q). psimp. rewrite Hx. cbn [orb negb].
      step (runs_reserved e Q). step (runs_size e Q Db). cbn [the_file]. rewrite grow_limit. psimp. rewrite Hz. cbn [Z.eqb andb].
      step (runs_lock e Q); [psimp; split; reflexivity|]. step (runs_delete e Q). rewrite (mo_exclusive _ M).
      step (runs_unlock e Q); [unfold deleted; psimp; discriminate|]. unfold counted. psimp. rewrite Hz. ret.
    + apply Z.div_small_iff in Hz; lia.
  - exists (negb (bool_decide (file_bytes (journal p) 0 1 = [0]))), (counted q). split; [|right; right; auto].
    unfold hasHotJournal. silent. unfold q. psimp. rewrite F4. step (runs_call e Q). psimp. rewrite Hx. cbn [orb negb].
    step (runs_reserved e Q). step (runs_size e Q Db). cbn [the_file]. rewrite grow_limit. psimp. rewrite (proj2 (Z.eqb_neq _ _) Hz). cbn [andb].
    step (runs_call e Q). step (runs_read_any e Q). cbn [the_file]. psimp. unfold counted. psimp.
    destruct (_ <=? _); ret.
Qed.

Lemma runs_sync_hot p : runs (pagerSyncHotJournal e) p SQLITE_OK
  (set_journalHdr (f_size (journal p)) (set_log (log p ++ sync_log Jrnl) p)).
Proof.
  unfold pagerSyncHotJournal, sync_log. destruct (noSync e).
  - silent. step (runs_size e Q Jrnl). apply runs_ret. pext. rewrite app_nil_r. reflexivity.
  - step (runs_sync e Q). unfold synced_log. step (runs_size e Q Jrnl). ret.
Qed.

Lemma runs_recover_hot cs p : eState p = PAGER_OPEN -> sectorSize p = HS -> pPCache p = ∅ -> eLock p = EXCLUSIVE_LOCK -> jfd p = false ->
  jexists p = true -> no_super (journal p) -> recoverable_by cs (fd p) (journal p) -> 0 < pageSize p ->
  exists p' o, runs (recover_hot e) p SQLITE_OK p' /\ fd p' = recovered cs (fd p)
    /\ log p' = log p ++ sync_log Jrnl ++ recovery_log cs (fd p) ++ sync_log Db ++ final_log e o
    /\ (cs <> [] -> 0 < o) /\ journal p' = final_file e o (journal p) /\ errCode p' = errCode p /\ pPCache p' = ∅.
Proof.
  intros He Hss Hc Hl Hj Hx Hn R HP.
  set (q := set_journalHdr (f_size (journal p)) (set_log (log p ++ sync_log Jrnl) (set_jfd true p))).
  destruct (runs_playback_hot cs q He Hss Hc eq_refl Hn R Hl eq_refl HP) as (p' & o & Hr & [Y1 Y2 Y3 Y4 Y5 Y6 Y7 Y8]).
  exists (set_eState PAGER_OPEN p'), o. split; [|psimp; split_and!; try assumption].
  - unfold recover_hot. silent. rewrite Hj.
    assert (Ho : (journalMode e =? PAGER_JOURNALMODE_OFF) = false) by (destruct (mo_mode _ M) as [->| ->]; reflexivity).
    rewrite Ho. cbn [negb andb]. step (runs_call e Q). rewrite Hx. step (runs_call e Q). psimp.
    step runs_sync_hot. psimp. fold q. step Hr. ret.
  - rewrite Y2. unfold q. psimp. rewrite <- app_assoc. reflexivity.
Qed.

(** The pager with its first lock. *)
Definition locked (q : Pager) : Pager :=
  set_hasHeldSharedLock true (set_eState PAGER_READER (set_dbSize ((f_size (fd q) + pageSize q - 1) / pageSize q) (counted q))).

(** An empty cache is not affected. *)
Lemma runs_check q : pPCache q = ∅ -> runs (check_version e) q SQLITE_OK q.
Proof.
  intros Hc. unfold check_version. silent. destruct (hasHeldSharedLock q); [|ret]. step (runs_read_any e Q Db).
  assert (Hrc : forall b : bool, negb ((if b then SQLITE_OK else SQLITE_IOERR_SHORT_READ) =? SQLITE_OK) && negb ((if b then SQLITE_OK else SQLITE_IOERR_SHORT_READ) =? SQLITE_IOERR_SHORT_READ) = false)
    by (intros []; reflexivity).
  rewrite Hrc. destruct (bool_decide _); [ret|]. unfold pager_reset. silent. apply runs_ret. pext. symmetry. exact Hc.
Qed.

Lemma runs_locked q : pPCache q = ∅ ->
  runs (a ← check_version e;
        rc ← (if a =? SQLITE_OK then pagerPagecount e else mret a);
        (if negb (rc =? SQLITE_OK) then pager_unlock e else modify (fun p => set_hasHeldSharedLock true (set_eState PAGER_READER p)));; mret rc) q SQLITE_OK (locked q).
Proof. intros Hc. step runs_check; [exact Hc|]. step runs_pagecount. ret. Qed.

Lemma runs_shared_lock cs p : fresh p -> no_super (journal p) -> recoverable_by cs (fd p) (journal p) ->
  exists p', runs (sqlite3PagerSharedLock e) p SQLITE_OK p' /\ outcome cs p p' /\ eState p' = PAGER_READER.
Proof.
  intros Fr Hn R. pose proof Fr as [F1 F2 F3 F4 F5 F6 F7 F8].
  destruct (runs_hasHot p Fr) as (hot & q & Hq & Hcases). cbv zeta in Hq.
  destruct Hcases as [(-> & Hx & ->)|[(-> & Hs & ->)|(-> & Hx & ->)]].
  - exists (locked (set_eLock SHARED_LOCK p)). split; [|split; [|reflexivity]].
    + unfold sqlite3PagerSharedLock. silent. rewrite F1. change (PAGER_OPEN =? PAGER_OPEN) with true. cbv iota. step (runs_wait e); [apply (runs_lock e Q); rewrite F2; split; reflexivity|]. psimp. cbn [Z.leb]. step Hq. apply runs_locked, F5.
    + apply out_none; try reflexivity. destruct cs as [|s cs]; [reflexivity|].
      destruct (seg_first _ _ _ R) as [_ []]; [discriminate|apply F8, Hx].
  - exists (locked (set_changeCountDone false (set_eLock SHARED_LOCK (deleted false (set_eLock RESERVED_LOCK (counted (set_eLock SHARED_LOCK p))))))). split; [|split; [|reflexivity]].
    + unfold sqlite3PagerSharedLock. silent. rewrite F1. change (PAGER_OPEN =? PAGER_OPEN) with true. cbv iota. step (runs_wait e); [apply (runs_lock e Q); rewrite F2; split; reflexivity|]. psimp. cbn [Z.leb]. step Hq. apply runs_locked, F5.
    + pose proof (proj1 (proj1 (r_wf _ _ _ R))). apply out_empty; [lia|reflexivity..].
  - destruct (bool_decide (file_bytes (journal p) 0 1 = [0])) eqn:Hb; cbn [negb] in Hq.
    + exists (locked (counted (set_eLock SHARED_LOCK p))). split; [|split; [|reflexivity]].
      * unfold sqlite3PagerSharedLock. silent. rewrite F1. change (PAGER_OPEN =? PAGER_OPEN) with true. cbv iota. step (runs_wait e); [apply (runs_lock e Q); rewrite F2; split; reflexivity|]. psimp. cbn [Z.leb]. step Hq. apply runs_locked, F5.
      * apply out_none; try reflexivity. destruct cs as [|s cs]; [reflexivity|].
        destruct (seg_first _ _ _ R) as [[] _]; [discriminate|apply bool_decide_eq_true in Hb; exact Hb].
    + destruct (runs_recover_hot cs (set_eLock EXCLUSIVE_LOCK (counted (set_eLock SHARED_LOCK p))) F1 F6 F5 eq_refl F4 Hx Hn R F7) as (p' & o & Hr & Y1 & Y2 & Y3 & Y4 & Y5 & Y6).
      exists (locked p'). split; [|split; [|reflexivity]].
      * unfold sqlite3PagerSharedLock. silent. rewrite F1. change (PAGER_OPEN =? PAGER_OPEN) with true. cbv iota. step (runs_wait e); [apply (runs_lock e Q); rewrite F2; split; reflexivity|]. psimp. cbn [Z.leb]. step Hq.
        step (runs_lock e Q); [split; reflexivity|]. step Hr. apply runs_locked, Y6.
      * exact (out_played cs p (locked p') o Y1 Y2 Y3 Y4).
Qed.

(** A process that finds the journal gets the original pages. *)
Lemma shared_lock_recovers cs p : fresh p -> no_super (journal p) -> recoverable_by cs (fd p) (journal p) ->
  exists p', runs (sqlite3PagerSharedLock e) p SQLITE_OK p' /\ eState p' = PAGER_READER /\
    f_size (fd p') = PS * Zlen orig /\ forall n d, page_at orig n d -> file_page PS (fd p') n = d.
Proof.
  intros Fr Hn R. destruct (runs_shared_lock cs p Fr Hn R) as (p' & Hr & Ho & He). exists p'. split; [exact Hr|]. split; [exact He|].
  destruct (recovered_ok _ _ _ R) as [R1 R2]. destruct Ho as [-> Hf _ _|Hs Hf _ _|o Hf _ _ _]; rewrite Hf.
  - split; [exact R1|exact R2].
  - destruct SZ as [Z1 _ _ _]. pose proof (r_size _ _ _ R). pose proof (Zlen_nonneg orig). split; [nia|].
    intros n d Hn'. pose proof (page_at_range _ _ _ Hn'). nia.
  - split; [exact R1|exact R2].
Qed.

End Hot.
