(* ===== verification/PagerCrash.v ===== *)
(** * The pager: crashes

    The state of the disk after a list of events, the files that may be found when the system
    crashes, and when these can be recovered.  A journal is ended when it is deleted or
    truncated, after the database file was synced; a crash then finds the journal as it was,
    or none. *)
From stdpp Require Import gmap sorting.
From S2P Require Import Prelude Value Record Savepoint Pager PagerJournal PagerOps PagerRun PagerRecovery.

Local Open Scope Z_scope.

(** ** The disk *)

Inductive file_op :=
  | FWrite (off : Z) (bs : list Z)
  | FTruncate (n : Z).

(** A file on disk: what is durable, and what was done to it since the last sync. *)
Record disk_file := mkDiskFile { df_base : File; df_ops : list file_op }.

Record disk := mkDisk { d_db : disk_file; d_jrnl : disk_file }.

Definition apply_op (f : File) (o : file_op) : File :=
  match o with
  | FWrite off bs => file_write f off bs
  | FTruncate n => file_truncate f n
  end.

(** The file as the processes see it. *)
Definition current (x : disk_file) : File := foldl apply_op (df_base x) (df_ops x).

Definition add_op (o : file_op) (x : disk_file) : disk_file := mkDiskFile (df_base x) (df_ops x ++ [o]).
Definition sync_file (x : disk_file) : disk_file := mkDiskFile (current x) [].

Definition on_file (f : file_id) (k : disk_file -> disk_file) (d : disk) : disk :=
  match f with Db => mkDisk (k (d_db d)) (d_jrnl d) | Jrnl => mkDisk (d_db d) (k (d_jrnl d)) end.

Definition disk_step (d : disk) (ev : event) : disk :=
  match ev with
  | EvWrite f off bs => on_file f (add_op (FWrite off bs)) d
  | EvTruncate f n => on_file f (add_op (FTruncate n)) d
  | EvSync f => on_file f sync_file d
  | EvDelete dirSync => on_file Jrnl (fun x => if dirSync then mkDiskFile empty_file [] else add_op (FTruncate 0) x) d
  end.

Definition disk_after (d : disk) (l : list event) : disk := foldl disk_step d l.

(** ** Crashes

    The size of a file is what it was after some of the operations, in their order.  A sector
    of [HS] bytes holds what one of the writes since the last sync has left there, or what was
    there before; sectors are independent of each other. *)

Section Crash.
Context (HS : Z).

(** The operations from number [j] on, of which [k] have changed the size and [c b] the
    sector [b]. *)
Fixpoint torn (k : nat) (c : Z -> nat) (j : nat) (l : list file_op) (f : File) : File :=
  match l with
  | [] => f
  | FWrite off bs :: l =>
      torn k c (S j) l
        (mkFile (if (j <? k)%nat && negb (Zlen bs =? 0) then Z.max (f_size f) (off + Zlen bs) else f_size f)
           (fun i => if (off <=? i) && (i <? off + Zlen bs) && (j <? c (i / HS)%Z)%nat then default 0 (bs !! Z.to_nat (i - off)) else f_byte f i))
  | FTruncate n :: l =>
      torn k c (S j) l (if (j <? k)%nat then mkFile (Z.min n (f_size f)) (fun i => if i <? n then f_byte f i else 0) else f)
  end.

(** Nothing is read from after the end. *)
Definition clip (f : File) : File := mkFile (f_size f) (fun i => if i <? f_size f then f_byte f i else 0).

Definition crash_file (x : disk_file) (f : File) : Prop := exists k c, f = clip (torn k c 0 (df_ops x) (df_base x)).

Definition crashes (d : disk) (f j : File) : Prop := crash_file (d_db d) f /\ crash_file (d_jrnl d) j.

(** ** What survives *)

(** The operation leaves the byte alone. *)
Definition op_avoids (i : Z) (o : file_op) : Prop :=
  match o with FWrite off bs => i < off \/ off + Zlen bs <= i | FTruncate n => i < n end.

(** The operation leaves the first [n] bytes in the file. *)
Definition op_keeps (n : Z) (o : file_op) : Prop :=
  match o with FWrite off bs => True | FTruncate m => n <= m end.

Lemma torn_byte k c i l : forall j f, Forall (op_avoids i) l -> f_byte (torn k c j l f) i = f_byte f i.
Proof.
  induction l as [|[off bs|n] l IH]; intros j f H; [reflexivity| |]; inversion_clear H as [|? ? H1 H2]; cbn [torn]; rewrite IH by exact H2.
  - cbn [f_byte op_avoids] in *. destruct (Z.leb_spec off i), (Z.ltb_spec i (off + Zlen bs)); try reflexivity. lia.
  - cbn [op_avoids] in H1. destruct (j <? k)%nat; [|reflexivity]. cbn [f_byte]. rewrite (proj2 (Z.ltb_lt i n)) by exact H1. reflexivity.
Qed.

Lemma torn_size k c n l : forall j f, Forall (op_keeps n) l -> n <= f_size f -> n <= f_size (torn k c j l f).
Proof.
  induction l as [|[off bs|m] l IH]; intros j f H Hn; [exact Hn| |]; inversion_clear H as [|? ? H1 H2]; cbn [torn]; apply IH; try exact H2.
  - cbn [f_size]. destruct (_ && _); lia.
  - cbn [op_keeps] in H1. destruct (j <? k)%nat; [cbn [f_size]; lia|exact Hn].
Qed.

Lemma crash_stored x f off bs : stored (df_base x) off bs -> Forall (op_keeps (off + Zlen bs)) (df_ops x) ->
  (forall i, off <= i < off + Zlen bs -> Forall (op_avoids i) (df_ops x)) -> crash_file x f -> stored f off bs.
Proof.
  intros (H1 & H2 & H3) Hk Ha (k & c & ->). pose proof (torn_size k c _ _ 0 _ Hk H2) as Hs.
  split_and!; [exact H1|exact Hs|]. intros n b Hb. pose proof (lookup_lt_Some _ _ _ Hb). cbn [clip f_byte].
  rewrite (proj2 (Z.ltb_lt _ _)) by (unfold Zlen in *; lia). rewrite torn_byte by (apply Ha; unfold Zlen; lia). apply H3, Hb.
Qed.

Lemma crash_wf x f : 0 <= f_size (df_base x) -> Forall (op_keeps 0) (df_ops x) -> crash_file x f -> file_wf f.
Proof.
  intros H0 Hk (k & c & ->). split; [apply (torn_size k c 0 _ 0 _ Hk H0)|]. intros i Hi. cbn [clip f_byte f_size] in *.
  rewrite (proj2 (Z.ltb_ge _ _)) by exact Hi. reflexivity.
Qed.

Lemma crash_size x f n : n <= f_size (df_base x) -> Forall (op_keeps n) (df_ops x) -> crash_file x f -> n <= f_size f.
Proof. intros H0 Hk (k & c & ->). exact (torn_size k c n _ 0 _ Hk H0). Qed.

(** Bytes that no operation touches. *)
Lemma crash_bytes x f off n : file_wf (df_base x) -> off + n <= f_size (df_base x) -> Forall (op_keeps (off + n)) (df_ops x) ->
  (forall i, off <= i < off + n -> Forall (op_avoids i) (df_ops x)) -> crash_file x f -> file_bytes f off n = file_bytes (df_base x) off n.
Proof.
  intros Hw Hs Hk Ha (k & c & ->). apply file_bytes_ext. intros i Hi. cbn [clip f_byte].
  pose proof (torn_size k c _ _ 0 _ Hk Hs). rewrite (proj2 (Z.ltb_lt _ _)) by lia. apply torn_byte, Ha, Hi.
Qed.

(** ** The end of the journal *)

(** The operation does not make a header at [h]. *)
Definition op_dead (h : Z) (o : file_op) : Prop :=
  match o with
  | FWrite off bs => off + Zlen bs <= h \/ h + 8 <= off \/ off <= h < off + Zlen bs /\ bs !! Z.to_nat (h - off) = Some 0
  | FTruncate n => False
  end.

Definition magic_at (f : File) (h : Z) : Prop := forall k b, aJournalMagic !! k = Some b -> f_byte f (h + Z.of_nat k) = b.

Lemma magic_bytes f h : file_bytes f h 8 = aJournalMagic <-> magic_at f h.
Proof.
  split.
  - intros H k b Hk. pose proof (lookup_lt_Some _ _ _ Hk) as Hl. cbn in Hl. rewrite <- H, file_bytes_lookup in Hk by lia. congruence.
  - intros H. apply list_eq. intros k. destruct (decide (k < 8)%nat) as [Hk|Hk].
    + rewrite file_bytes_lookup by lia. destruct (lookup_lt_is_Some_2 aJournalMagic k Hk) as [b Hb]. rewrite Hb, (H _ _ Hb). reflexivity.
    + rewrite !lookup_ge_None_2; [reflexivity|cbn; lia|rewrite file_bytes_length; lia].
Qed.

Lemma magic_first f h : magic_at f h -> f_byte f h = 0xd9.
Proof. intros H. specialize (H 0%nat 0xd9 eq_refl). rewrite <- H. f_equal. lia. Qed.

Lemma same_sector h k : 0 < HS -> h mod HS = 0 -> 0 <= k < HS -> (h + k) / HS = h / HS.
Proof.
  intros H0 Hm Hk. pose proof (Z.div_mod h HS ltac:(lia)) as Hd. rewrite Hm, Z.add_0_r in Hd.
  rewrite Hd at 1. rewrite (Z.mul_comm HS), Z.add_comm, Z.div_add by lia. rewrite (Z.div_small k) by exact Hk. reflexivity.
Qed.

Lemma torn_dead k c h l : 8 <= HS -> h mod HS = 0 -> forall j f, Forall (op_dead h) l -> ~ magic_at f h -> ~ magic_at (torn k c j l f) h.
Proof.
  intros H8 Hm. induction l as [|[off bs|n] l IH]; intros j f H Hf; [exact Hf| |]; inversion_clear H as [|? ? H1 H2]; [|destruct H1].
  cbn [torn]. apply IH; [exact H2|]. clear IH H2. intros Hx.
  destruct H1 as [H1|[H1|[H1 H0]]].
  - apply Hf. intros i b Hb. rewrite <- (Hx _ _ Hb). cbn [f_byte]. rewrite (proj2 (Z.ltb_ge _ (off + Zlen bs))), andb_false_r by lia. reflexivity.
  - apply Hf. intros i b Hb. rewrite <- (Hx _ _ Hb). pose proof (lookup_lt_Some _ _ _ Hb) as Hl. cbn in Hl. cbn [f_byte].
    rewrite (proj2 (Z.leb_gt off _)) by lia. reflexivity.
  - destruct (j <? c (h / HS)%Z)%nat eqn:Hj.
    + apply magic_first in Hx. cbn [f_byte] in Hx. rewrite (proj2 (Z.leb_le off h)), (proj2 (Z.ltb_lt h _)), Hj, H0 in Hx by lia. discriminate.
    + apply Hf. intros i b Hb. rewrite <- (Hx _ _ Hb). pose proof (lookup_lt_Some _ _ _ Hb) as Hl. cbn in Hl. cbn [f_byte].
      rewrite same_sector, Hj, andb_false_r by lia. reflexivity.
Qed.

Lemma clip_dead f h : ~ magic_at f h -> ~ magic_at (clip f) h.
Proof.
  intros Hf Hx. destruct (Z.ltb_spec (h + 7) (f_size f)) as [Hs|Hs].
  - apply Hf. intros i b Hb. rewrite <- (Hx _ _ Hb). pose proof (lookup_lt_Some _ _ _ Hb) as Hl. cbn in Hl. cbn [clip f_byte].
    rewrite (proj2 (Z.ltb_lt _ _)) by lia. reflexivity.
  - specialize (Hx 7%nat 0xd7 eq_refl). cbn [clip f_byte] in Hx. rewrite (proj2 (Z.ltb_ge _ _)) in Hx by lia. discriminate.
Qed.

Lemma crash_dead x f h : 8 <= HS -> h mod HS = 0 -> ~ magic_at (df_base x) h -> Forall (op_dead h) (df_ops x) -> crash_file x f -> ~ magic_at f h.
Proof. intros H8 Hm Hb Ho (k & c & ->). apply clip_dead, torn_dead; assumption. Qed.

End Crash.

(** ** Crashes that can be recovered from *)

Section Durable.
Context (PS HS : Z) (SZ : sizes_ok PS HS) (orig : list (list Z)) (lengths : Forall (fun d => Zlen d = PS) orig) (small : Zlen orig < lock_page PS).

(** A change of the database file: of a page that is in the journal or new, or of the size. *)
Definition db_op (cs : list seg) (o : file_op) : Prop :=
  match o with
  | FWrite off bs => exists n, off = (n - 1) * PS /\ Zlen bs = PS /\ 1 <= n /\ (in_recs n (seg_records cs) \/ Zlen orig < n)
  | FTruncate n => PS * Zlen orig <= n
  end.

Definition jrnl_op (cs : list seg) (o : file_op) : Prop :=
  match o with FWrite off bs => end_of PS HS cs <= off | FTruncate n => False end.

(** The synced segments are durable, and hold the pages of the file that have changed. *)
Record durable (cs : list seg) (d : disk) : Prop := {
  du_jwf : file_wf (df_base (d_jrnl d));
  du_chain : chain PS HS 0 cs;
  du_segs : Forall (seg_ok PS HS orig (df_base (d_jrnl d))) cs;
  du_jops : Forall (jrnl_op cs) (df_ops (d_jrnl d));
  du_dead : ~ magic_at (df_base (d_jrnl d)) (align HS (end_of PS HS cs));
  du_deadops : Forall (op_dead (align HS (end_of PS HS cs))) (df_ops (d_jrnl d));
  du_fwf : file_wf (df_base (d_db d));
  du_pages : forall n b, page_at orig n b -> ~ in_recs n (seg_records cs) -> file_page PS (df_base (d_db d)) n = b;
  du_fops : Forall (db_op cs) (df_ops (d_db d));
  du_size : PS * Zlen orig <= f_size (df_base (d_db d));
  du_none : cs = [] -> df_ops (d_db d) = [] /\ f_size (df_base (d_db d)) = PS * Zlen orig
}.

Lemma align_mod off : align HS off mod HS = 0.
Proof. destruct SZ as [_ H _ _]. unfold align. destruct (off =? 0); [apply Z.mod_0_l; lia|apply Z.mod_mul; lia]. Qed.

(** A segment ends before the last one does. *)
Lemma seg_end_le cs off : 0 <= off -> chain PS HS off cs -> off <= end_from PS HS off cs /\ Forall (fun s => 0 <= sg_hdr s /\ seg_end PS HS s <= end_from PS HS off cs) cs.
Proof.
  destruct SZ as [H1 H2 _ _]. revert off. induction cs as [|s cs IH]; intros off Ho Hc; [split; [cbn; lia|constructor]|].
  destruct Hc as [Hh Hc]. pose proof (align_ge HS ltac:(lia) off Ho). pose proof (seg_end_ge PS HS ltac:(lia) s ltac:(lia)).
  destruct (IH (seg_end PS HS s) ltac:(lia) Hc) as [I1 I2]. cbn [end_from]. split; [lia|]. constructor; [lia|exact I2].
Qed.

Lemma seg_bytes_length m s : Zlen m = 12 -> Forall (from_orig orig) (sg_recs s) ->
  Zlen (seg_bytes PS HS m (Zlen orig) s) = seg_end PS HS s - sg_hdr s.
Proof.
  intros Hm Hr. unfold seg_bytes. rewrite Zlen_app, hdr_bytes_length, (recs_bytes_length PS); [unfold seg_end; lia| |exact SZ|exact Hm].
  apply (Forall_impl _ _ _ (from_orig_ok PS HS SZ orig lengths small _ Hr)). intros r Hk. apply Hk.
Qed.

Lemma jrnl_ops_keep cs l n : Forall (jrnl_op cs) l -> Forall (op_keeps n) l.
Proof. intros H. apply (Forall_impl _ _ _ H). intros [off bs|m]; [intros _; exact I|intros []]. Qed.

Lemma durable_recoverable cs d f j : durable cs d -> crashes HS d f j -> recoverable_by PS HS orig cs f j.
Proof.
  intros [D1 D2 D3 D4 D5 D6 D7 D8 D9 D10 D11] [Hf Hj]. destruct SZ as [Z1 Z2 _ _]. pose proof (Zlen_nonneg orig).
  assert (Hfk : forall n, n <= PS * Zlen orig -> Forall (op_keeps n) (df_ops (d_db d))).
  { intros n Hn. apply (Forall_impl _ _ _ D9). intros [off bs|m] Hm; [exact I|cbn in *; lia]. }
  split.
  - split; [apply (crash_wf HS (d_db d)); [apply D7|apply Hfk; nia|exact Hf]|].
    apply (crash_wf HS (d_jrnl d)); [apply D1|exact (jrnl_ops_keep _ _ _ D4)|exact Hj].
  - exact D2.
  - destruct (seg_end_le cs 0 ltac:(lia) D2) as [_ He]. apply Forall_forall. intros s Hs.
    pose proof (proj1 (Forall_forall _ _) D3 s Hs) as (S1 & S2 & S3 & S4). pose proof (proj1 (Forall_forall _ _) He s Hs) as [E1 E2].
    refine (conj _ (conj S2 (conj S3 S4))). apply (crash_stored HS (d_jrnl d)); [exact S1|exact (jrnl_ops_keep _ _ _ D4)| |exact Hj].
    intros i Hi. rewrite seg_bytes_length in Hi by (exact S3 || reflexivity). apply (Forall_impl _ _ _ D4).
    intros [off bs|m] Hm; [cbn in *; unfold end_of in Hm; lia|destruct Hm].
  - unfold dead. rewrite magic_bytes. apply (crash_dead HS (d_jrnl d)); [lia|apply align_mod|exact D5|exact D6|exact Hj].
  - intros n b Hn Hi. rewrite <- (D8 n b Hn Hi). pose proof (page_at_range _ _ _ Hn). unfold file_page.
    apply (crash_bytes HS (d_db d)); [exact D7|nia|apply Hfk; nia| |exact Hf].
    intros i Hx. apply (Forall_impl _ _ _ D9). intros [off bs|m] Hm; cbn in *; [|nia].
    destruct Hm as (n' & -> & Hl & Hn' & Hc). rewrite Hl. assert (n' <> n) by (destruct Hc; [intros ->; contradiction|lia]). nia.
  - apply (crash_size HS (d_db d)); [exact D10|apply Hfk; lia|exact Hf].
  - intros Hc. destruct (D11 Hc) as [E1 E2]. destruct Hf as (k & c & ->). rewrite E1. cbn. exact E2.
Qed.

(** ** Events *)

Lemma apply_dead h o f : op_dead h o -> ~ magic_at f h -> ~ magic_at (apply_op f o) h.
Proof.
  destruct o as [off bs|n]; [|intros []]. intros H Hf Hx. cbn [apply_op] in Hx. destruct H as [H|[H|[H H0]]].
  - apply Hf. intros i b Hb. rewrite <- (Hx _ _ Hb). symmetry. apply write_byte_out. lia.
  - apply Hf. intros i b Hb. rewrite <- (Hx _ _ Hb). pose proof (lookup_lt_Some _ _ _ Hb) as Hl. cbn in Hl. symmetry. apply write_byte_out. lia.
  - apply magic_first in Hx. rewrite write_byte, (proj2 (Z.leb_le off h)), (proj2 (Z.ltb_lt h _)), H0 in Hx by lia. discriminate.
Qed.

(** Facts that every operation keeps hold of the current file. *)
Lemma current_ind (P : File -> Prop) x : P (df_base x) -> (forall f o, o ∈ df_ops x -> P f -> P (apply_op f o)) -> P (current x).
Proof.
  intros H0 Hs. unfold current. revert H0 Hs. generalize (df_base x). induction (df_ops x) as [|o l IH]; intros f H0 Hs; [exact H0|].
  cbn [foldl]. apply IH; [apply Hs; [left|exact H0]|]. intros f' o' Ho. apply Hs. right. exact Ho.
Qed.

Lemma chain_end_nonneg cs : chain PS HS 0 cs -> 0 <= end_of PS HS cs.
Proof. intros H. apply (seg_end_le cs 0 ltac:(lia) H). Qed.

Lemma durable_jwrite cs d off bs : durable cs d -> end_of PS HS cs <= off -> op_dead (align HS (end_of PS HS cs)) (FWrite off bs) ->
  durable cs (disk_step d (EvWrite Jrnl off bs)).
Proof.
  intros [D1 D2 D3 D4 D5 D6 D7 D8 D9 D10 D11] Ho Hd. split; try assumption; cbn.
  - apply Forall_app. split; [exact D4|]. constructor; [exact Ho|constructor].
  - apply Forall_app. split; [exact D6|]. constructor; [exact Hd|constructor].
Qed.

Lemma seg_ok_write j s off bs : seg_ok PS HS orig j s -> seg_end PS HS s <= off -> seg_ok PS HS orig (file_write j off bs) s.
Proof.
  intros (S1 & S2 & S3 & S4) Ho. refine (conj _ (conj S2 (conj S3 S4))). apply write_keeps; [exact S1|].
  right. rewrite seg_bytes_length by (exact S3 || reflexivity). lia.
Qed.

Lemma durable_jsync cs d : durable cs d -> durable cs (disk_step d (EvSync Jrnl)).
Proof.
  intros [D1 D2 D3 D4 D5 D6 D7 D8 D9 D10 D11]. pose proof (chain_end_nonneg _ D2) as He. destruct (seg_end_le cs 0 ltac:(lia) D2) as [_ Hl].
  split; try assumption; cbn.
  - apply (current_ind file_wf); [exact D1|]. intros f o Ho Hf. pose proof (proj1 (Forall_forall _ _) D4 o Ho) as Hj.
    destruct o as [off bs|n]; [|destruct Hj]. apply write_wf; [exact Hf|]. cbn [jrnl_op] in Hj. lia.
  - apply (current_ind (fun f => Forall (seg_ok PS HS orig f) cs)); [exact D3|]. intros f o Ho Hf.
    pose proof (proj1 (Forall_forall _ _) D4 o Ho) as Hj. destruct o as [off bs|n]; [|destruct Hj]. cbn [jrnl_op] in Hj.
    apply Forall_forall. intros s Hs. apply seg_ok_write; [exact (proj1 (Forall_forall _ _) Hf s Hs)|].
    pose proof (proj1 (Forall_forall _ _) Hl s Hs) as [_ Hle]. unfold end_of in Hj. lia.
  - constructor.
  - apply (current_ind (fun f => ~ magic_at f _)); [exact D5|]. intros f o Ho. apply apply_dead. exact (proj1 (Forall_forall _ _) D6 o Ho).
  - constructor.
Qed.

Lemma durable_dwrite cs d n bs : durable cs d -> cs <> [] -> 1 <= n -> Zlen bs = PS -> in_recs n (seg_records cs) \/ Zlen orig < n ->
  durable cs (disk_step d (EvWrite Db ((n - 1) * PS) bs)).
Proof.
  intros [D1 D2 D3 D4 D5 D6 D7 D8 D9 D10 D11] Hc Hn Hl Hi. split; try assumption; cbn.
  - apply Forall_app. split; [exact D9|]. constructor; [|constructor]. exists n. auto.
  - contradiction.
Qed.

Lemma durable_dtruncate cs d n : durable cs d -> cs <> [] -> PS * Zlen orig <= n -> durable cs (disk_step d (EvTruncate Db n)).
Proof.
  intros [D1 D2 D3 D4 D5 D6 D7 D8 D9 D10 D11] Hc Hn. split; try assumption; cbn.
  - apply Forall_app. split; [exact D9|]. constructor; [exact Hn|constructor].
  - contradiction.
Qed.

Lemma durable_dsync cs d : durable cs d -> durable cs (disk_step d (EvSync Db)).
Proof.
  intros [D1 D2 D3 D4 D5 D6 D7 D8 D9 D10 D11]. destruct SZ as [Z1 Z2 _ _]. pose proof (Zlen_nonneg orig). split; try assumption; cbn.
  - apply (current_ind file_wf); [exact D7|]. intros f o Ho Hf. pose proof (proj1 (Forall_forall _ _) D9 o Ho) as Hj. destruct o as [off bs|n]; cbn in *.
    + destruct Hj as (n & -> & _ & Hn & _). apply write_wf; [exact Hf|]. nia.
    + apply truncate_wf; [exact Hf|nia].
  - intros n b Hn Hi. apply (current_ind (fun f => file_page PS f n = b)); [exact (D8 n b Hn Hi)|]. intros f o Ho <-.
    pose proof (proj1 (Forall_forall _ _) D9 o Ho) as Hj. pose proof (page_at_range _ _ _ Hn). destruct o as [off bs|m]; cbn in *.
    + destruct Hj as (n' & -> & Hl & Hn' & Hc). apply (file_page_write_other PS ltac:(lia)); [exact Hl|]. destruct Hc; [intros ->; contradiction|lia].
    + apply file_bytes_ext. intros i Hx. apply truncate_byte. nia.
  - constructor.
  - apply (current_ind (fun f => _ <= f_size f)); [exact D10|]. intros f o Ho Hf. pose proof (proj1 (Forall_forall _ _) D9 o Ho) as Hj.
    destruct o as [off bs|m]; cbn in *.
    + destruct Hj as (n' & -> & Hl & Hn' & Hc). rewrite write_size by (intros ->; rewrite Zlen_nil in Hl; lia). lia.
    + unfold file_truncate. destruct (m <? f_size f); [exact Hj|exact Hf].
  - intros Hc. destruct (D11 Hc) as [E1 E2]. split; [reflexivity|]. unfold current. rewrite E1. exact E2.
Qed.

(** ** A segment is closed *)

(** The same bytes. *)
Definition same_file (f g : File) : Prop := f_size f = f_size g /\ forall i, f_byte f i = f_byte g i.

Lemma same_stored f g off bs : same_file f g -> stored f off bs -> stored g off bs.
Proof. intros [H1 H2] (S1 & S2 & S3). split_and!; [exact S1|lia|]. intros k b Hb. rewrite <- H2. apply S3, Hb. Qed.

Lemma recoverable_same cs f j j' : same_file j j' -> recoverable_by PS HS orig cs f j -> recoverable_by PS HS orig cs f j'.
Proof.
  intros Hs [[R0 R1] R2 R3 R4 R5 R6 R7]. pose proof Hs as [H1 H2]. split; try assumption.
  - split; [exact R0|]. destruct R1 as [W1 W2]. split; [lia|]. intros i Hi. rewrite <- H2. apply W2. lia.
  - apply (Forall_impl _ _ _ R3). intros s (S1 & S2). split; [exact (same_stored _ _ _ _ Hs S1)|exact S2].
  - unfold dead in *. rewrite (file_bytes_ext j' j); [exact R4|]. intros i _. symmetry. apply H2.
Qed.

(** A write within a sector is there or not. *)
Lemma crash_one b h bs f : file_wf b -> 0 <= h -> h mod HS = 0 -> 0 < Zlen bs <= HS -> h + Zlen bs <= f_size b ->
  crash_file HS (mkDiskFile b [FWrite h bs]) f -> same_file b f \/ same_file (file_write b h bs) f.
Proof.
  intros [W1 W2] H0 Hm Hl Hs (k & c & ->). destruct SZ as [_ Z2 _ _]. cbn [df_ops df_base torn].
  assert (Hsz : (if (0 <? k)%nat && negb (Zlen bs =? 0) then f_size b `max` (h + Zlen bs) else f_size b) = f_size b) by (destruct (_ && _); lia).
  unfold same_file. destruct (0 <? c (h / HS)%Z)%nat eqn:Hc; [right|left]; cbn [clip f_size f_byte]; rewrite Hsz.
  - rewrite write_size by (intros He; rewrite He in Hl; unfold Zlen in Hl; cbn in Hl; lia). split; [lia|]. intros i. rewrite write_byte.
    destruct (Z.leb_spec h i), (Z.ltb_spec i (h + Zlen bs)); cbn [andb]; try (destruct (Z.ltb_spec i (f_size b)); [reflexivity|apply W2; lia]).
    rewrite (proj2 (Z.ltb_lt i _)) by lia. replace (i / HS) with (h / HS); [rewrite Hc; reflexivity|].
    replace i with (h + (i - h)) by lia. symmetry. apply same_sector; lia.
  - split; [reflexivity|]. intros i. destruct (Z.ltb_spec i (f_size b)) as [Hi|Hi]; [|apply W2; lia].
    destruct (Z.leb_spec h i), (Z.ltb_spec i (h + Zlen bs)); cbn [andb]; try reflexivity. replace (i / HS) with (h / HS); [rewrite Hc; reflexivity|].
    replace i with (h + (i - h)) by lia. symmetry. apply same_sector; lia.
Qed.

Lemma chain_app off cs s : chain PS HS off cs -> sg_hdr s = align HS (end_from PS HS off cs) -> chain PS HS off (cs ++ [s]).
Proof. revert off. induction cs as [|s' cs IH]; intros off Hc Hs; cbn in *; [auto|]. destruct Hc as [H1 H2]. split; [exact H1|]. apply IH; assumption. Qed.

Lemma end_app off cs s : end_from PS HS off (cs ++ [s]) = seg_end PS HS s.
Proof. revert off. induction cs as [|s' cs IH]; intros off; [reflexivity|]. apply IH. Qed.

(** The segment that is being written, before its header is completed. *)
Definition open_ok (j : File) (s : seg) : Prop :=
  stored j (sg_hdr s) (seg_bytes PS HS (zeros 12) (Zlen orig) s) /\ 0 <= sg_ck s < 2 ^ 32 /\ Forall (from_orig orig) (sg_recs s)
  /\ Zlen (sg_recs s) < 2 ^ 32 - 1.

(** The header is overwritten. *)
Lemma close_ok j s : open_ok j s -> seg_ok PS HS orig (file_write j (sg_hdr s) (closed_mark s)) s.
Proof.
  intros (S1 & S2 & S3 & S4). refine (conj _ (conj S2 (conj S3 S4))). destruct SZ as [_ Z2 _ _].
  unfold seg_bytes, hdr_bytes in *. rewrite <- app_assoc in *. apply stored_app in S1 as [Sa Sb]. apply stored_app.
  change (Zlen (zeros 12)) with 12 in Sb. change (Zlen (closed_mark s)) with 12. split.
  - apply write_stored; [apply Sa|discriminate].
  - apply write_keeps; [exact Sb|left; change (Zlen (closed_mark s)) with 12; lia].
Qed.

Lemma seg_records_app l l' : seg_records (l ++ l') = seg_records l ++ seg_records l'.
Proof. unfold seg_records. rewrite fmap_app. apply concat_app. Qed.

Lemma in_recs_app n l l' : in_recs n (l ++ l') <-> in_recs n l \/ in_recs n l'.
Proof. unfold in_recs. rewrite fmap_app. apply elem_of_app. Qed.

Lemma durable_close cs d s : durable cs d -> df_ops (d_jrnl d) = [] -> open_ok (df_base (d_jrnl d)) s ->
  sg_hdr s = align HS (end_of PS HS cs) -> ~ magic_at (df_base (d_jrnl d)) (align HS (seg_end PS HS s)) ->
  durable (cs ++ [s]) (disk_step (disk_step d (EvWrite Jrnl (sg_hdr s) (closed_mark s))) (EvSync Jrnl)).
Proof.
  intros [D1 D2 D3 D4 D5 D6 D7 D8 D9 D10 D11] Ho Hs Hh Hd. destruct SZ as [Z1 Z2 _ _].
  pose proof (chain_end_nonneg _ D2) as He. destruct (seg_end_le cs 0 ltac:(lia) D2) as [_ Hl].
  pose proof (align_ge HS ltac:(lia) _ He). pose proof (seg_end_ge PS HS ltac:(lia) s ltac:(lia)). pose proof (align_ge HS ltac:(lia) (seg_end PS HS s) ltac:(lia)).
  assert (Hcur : current (add_op (FWrite (sg_hdr s) (closed_mark s)) (d_jrnl d)) = file_write (df_base (d_jrnl d)) (sg_hdr s) (closed_mark s)).
  { unfold current, add_op. rewrite Ho. reflexivity. }
  assert (Hin : forall n, in_recs n (seg_records cs) -> in_recs n (seg_records (cs ++ [s]))).
  { intros n Hn. rewrite seg_records_app. apply in_recs_app. left. exact Hn. }
  unfold end_of in *. split; cbn [disk_step on_file d_jrnl d_db sync_file df_base df_ops]; rewrite ?Hcur; try assumption; try apply Forall_nil_2.
  - apply write_wf; [exact D1|lia].
  - apply chain_app; [exact D2|exact Hh].
  - apply Forall_app. split; [|constructor; [apply close_ok; exact Hs|constructor]].
    apply Forall_forall. intros s' Hs'. pose proof (proj1 (Forall_forall _ _) Hl s' Hs') as [_ Hle].
    apply seg_ok_write; [exact (proj1 (Forall_forall _ _) D3 s' Hs')|lia].
  - unfold end_of. rewrite end_app. apply (apply_dead _ (FWrite _ _)); [|exact Hd]. left. change (Zlen (closed_mark s)) with 12. lia.
  - intros n b Hn Hi. apply D8; [exact Hn|]. intros Hx. apply Hi, Hin, Hx.
  - apply (Forall_impl _ _ _ D9). intros [off bs|m] Hx; [|exact Hx]. destruct Hx as (n & H1' & H2' & H3' & H4'). exists n.
    refine (conj H1' (conj H2' (conj H3' _))). destruct H4' as [H4'|H4']; [left; apply Hin, H4'|right; exact H4'].
  - intros Hc. apply app_nil in Hc as [_ [=]].
Qed.

Lemma crash_close cs d s f j : durable cs d -> df_ops (d_jrnl d) = [] -> open_ok (df_base (d_jrnl d)) s ->
  sg_hdr s = align HS (end_of PS HS cs) -> ~ magic_at (df_base (d_jrnl d)) (align HS (seg_end PS HS s)) ->
  crashes HS (disk_step d (EvWrite Jrnl (sg_hdr s) (closed_mark s))) f j -> exists cs', recoverable_by PS HS orig cs' f j.
Proof.
  intros D Ho Hs Hh Hd [Hf Hj]. pose proof (durable_close cs d s D Ho Hs Hh Hd) as D'.
  assert (Hb : file_wf (df_base (d_jrnl d))) by apply D. pose proof Hs as (S1 & _ & S3 & _). destruct SZ as [Z1 Z2 _ _].
  assert (Hsz : sg_hdr s + HS <= f_size (df_base (d_jrnl d)) /\ 0 <= sg_hdr s).
  { pose proof S1 as (H0 & Hsz & _). rewrite seg_bytes_length in Hsz by (exact S3 || reflexivity). pose proof (seg_end_ge PS HS ltac:(lia) s H0). lia. }
  cbn [disk_step on_file d_jrnl d_db] in Hf, Hj. unfold add_op in Hj. rewrite Ho in Hj. cbn [app] in Hj.
  destruct (crash_one (df_base (d_jrnl d)) (sg_hdr s) (closed_mark s) j Hb) as [Hx|Hx].
  - lia.
  - rewrite Hh. apply align_mod.
  - change (Zlen (closed_mark s)) with 12. lia.
  - change (Zlen (closed_mark s)) with 12. lia.
  - exact Hj.
  - exists cs. apply (recoverable_same cs f (clip (df_base (d_jrnl d)))).
    + destruct Hx as [X1 X2]. split; [exact X1|]. intros i. rewrite <- X2. cbn. destruct (Z.ltb_spec i (f_size (df_base (d_jrnl d)))); [reflexivity|].
      symmetry. apply Hb. assumption.
    + apply (durable_recoverable cs d); [exact D|]. split; [exact Hf|]. exists 0%nat, (fun _ => 0%nat). rewrite Ho. reflexivity.
  - exists (cs ++ [s]). set (b := file_write (df_base (d_jrnl d)) (sg_hdr s) (closed_mark s)) in *.
    assert (Hbw : file_wf b) by (apply write_wf; [exact Hb|lia]). apply (recoverable_same _ f (clip b)).
    + destruct Hx as [X1 X2]. split; [exact X1|]. intros i. rewrite <- X2. cbn [clip f_byte]. destruct (Z.ltb_spec i (f_size b)); [reflexivity|].
      symmetry. apply Hbw. assumption.
    + apply (durable_recoverable _ _ f _ D'). split; [exact Hf|]. exists 0%nat, (fun _ => 0%nat).
      cbn [disk_step on_file d_jrnl sync_file df_base df_ops torn]. unfold current, add_op. rewrite Ho. reflexivity.
Qed.

End Durable.

(** Both files are on disk. *)
Definition settled (f j : File) : disk := mkDisk (mkDiskFile f []) (mkDiskFile j []).

(** An event that ends the journal. *)
Definition is_final (ev : event) : bool := match ev with EvDelete _ | EvTruncate Jrnl _ => true | _ => false end.

Section Final.
Context (e : PagerEnv) (HS : Z).

(** The end of the journal is synced. *)
Definition ends_durably : bool := if truncates e then fullSync e else c_extraSync (pe_cfg e).

Lemma final_log_first off k : off <> 0 -> (0 < k)%nat -> existsb is_final (take k (final_log e off)) = true.
Proof. intros Ho Hk. destruct k as [|k]; [lia|]. unfold final_log. rewrite (proj2 (Z.eqb_neq _ _) Ho). destruct (truncates e); reflexivity. Qed.

(** A file that is synced is what a crash leaves. *)
Lemma crash_synced f g : crash_file HS (mkDiskFile f []) g -> g = clip f.
Proof. intros (k & c & ->). reflexivity. Qed.

Lemma clip_wf f : 0 <= f_size f -> file_wf (clip f).
Proof. intros Hf. split; [exact Hf|]. intros i Hi. cbn in *. rewrite (proj2 (Z.ltb_ge _ _)) by exact Hi. reflexivity. Qed.

(** The journal is gone, or a crash brings it back. *)
Lemma crash_gone j g : 0 <= f_size j -> crash_file HS (mkDiskFile j [FTruncate 0]) g ->
  crash_file HS (mkDiskFile j []) g \/ file_wf g /\ f_size g = 0.
Proof.
  intros Hj (k & c & ->). cbn [df_ops df_base torn]. destruct (0 <? k)%nat; [right|left; exists 0%nat, c; reflexivity].
  assert (Hz : Z.min 0 (f_size j) = 0) by lia. split; [apply clip_wf; cbn; lia|cbn; exact Hz].
Qed.

Lemma crash_empty j g : f_size j = 0 -> crash_file HS (mkDiskFile j []) g -> file_wf g /\ f_size g = 0.
Proof. intros Hz Hc. apply crash_synced in Hc as ->. split; [apply clip_wf; lia|exact Hz]. Qed.

Lemma truncate_empty j : 0 <= f_size j -> f_size (file_truncate j 0) = 0.
Proof. intros Hj. unfold file_truncate. destruct (Z.ltb_spec 0 (f_size j)); [reflexivity|lia]. Qed.

(** A crash while the journal is ended: the database file is as it was, and the journal too, or it is empty. *)
Lemma final_crash F J k off f j : 0 <= f_size J -> crashes HS (disk_after (settled F J) (take k (final_log e off))) f j ->
  crash_file HS (mkDiskFile F []) f /\
  (crash_file HS (mkDiskFile J []) j /\ (off <> 0 -> (k < length (final_log e off))%nat \/ ends_durably = false) \/
   file_wf j /\ f_size j = 0 /\ (0 < k)%nat).
Proof.
  intros HJ. unfold final_log, ends_durably. destruct (truncates e).
  - destruct (Z.eqb_spec off 0) as [Ho|Ho]; [rewrite take_nil; intros [Hf Hj]; split; [exact Hf|left]; split; [exact Hj|contradiction]|].
    destruct k as [|k]; [intros [Hf Hj]; split; [exact Hf|left]; split; [exact Hj|left; cbn; lia]|]. destruct (fullSync e).
    + destruct k as [|k]; cbn [take length]; rewrite ?take_nil; intros [Hf Hj]; (split; [exact Hf|]); cbn [disk_after foldl disk_step on_file settled d_jrnl d_db add_op df_base df_ops app] in Hj.
      * destruct (crash_gone J j HJ Hj) as [H|[H1 H2]]; [left; split; [exact H|left; lia]|right; split_and!; [exact H1|exact H2|lia]].
      * right. destruct (crash_empty (file_truncate J 0) j (truncate_empty J HJ) Hj) as [H1 H2]. split_and!; [exact H1|exact H2|lia].
    + cbn [take length]. rewrite take_nil. intros [Hf Hj]. split; [exact Hf|]. destruct (crash_gone J j HJ Hj) as [H|[H1 H2]]; [left; split; [exact H|right; reflexivity]|right; split_and!; [exact H1|exact H2|lia]].
  - destruct k as [|k]; [intros [Hf Hj]; split; [exact Hf|left]; split; [exact Hj|left; cbn; lia]|]. cbn [take length]. rewrite take_nil. intros [Hf Hj]. split; [exact Hf|].
    cbn [disk_after foldl disk_step on_file settled d_jrnl d_db] in Hj. destruct (c_extraSync (pe_cfg e)).
    + right. destruct (crash_empty empty_file j eq_refl Hj) as [H1 H2]. split_and!; [exact H1|exact H2|lia].
    + destruct (crash_gone J j HJ Hj) as [H|[H1 H2]]; [left; split; [exact H|right; reflexivity]|right; split_and!; [exact H1|exact H2|lia]].
Qed.

(** ** Recovery without a journal *)

Context (PS : Z) (SZ : sizes_ok PS HS).

(** The file has these pages. *)
Definition holds (c : list (list Z)) (f : File) : Prop :=
  f_size f = PS * Zlen c /\ forall n d, page_at c n d -> file_page PS f n = d.

Lemma clip_page f n : n * PS <= f_size f -> 1 <= n -> file_page PS (clip f) n = file_page PS f n.
Proof. intros Hs Hn. destruct SZ. apply file_bytes_ext. intros i Hi. cbn. rewrite (proj2 (Z.ltb_lt _ _)) by nia. reflexivity. Qed.

Lemma recoverable_gone c F f j : holds c F -> crash_file HS (mkDiskFile F []) f -> file_wf j -> f_size j = 0 -> recoverable_by PS HS c [] f j.
Proof.
  intros [Hs Hp] Hf Hj Hz. apply crash_synced in Hf as ->. destruct SZ as [Z1 Z2 _ _]. pose proof (Zlen_nonneg c). split.
  - split; [apply clip_wf; nia|exact Hj].
  - exact I.
  - constructor.
  - unfold dead. rewrite magic_bytes. intros Hm. apply magic_first in Hm. rewrite (proj2 Hj) in Hm by (rewrite Hz; cbn; lia). discriminate Hm.
  - intros k d Hk _. rewrite <- (Hp k d Hk). pose proof (page_at_range _ _ _ Hk). apply clip_page; nia.
  - cbn. lia.
  - intros _. exact Hs.
Qed.

(** What can be recovered is durable. *)
Lemma recoverable_durable c cs f j : recoverable_by PS HS c cs f j -> durable PS HS c cs (settled f j).
Proof.
  intros [[R0 R1] R2 R3 R4 R5 R6 R7]. split; cbn; try assumption; try apply Forall_nil_2.
  - unfold dead in R4. rewrite magic_bytes in R4. exact R4.
  - intros Hc. split; [reflexivity|exact (R7 Hc)].
Qed.

End Final.
