(* ===== verification/PagerTxn.v ===== *)
(** * The pager: results of a write transaction

    What reading and writing pages, opening and syncing the journal, spilling pages and
    committing return when the system has no failures. *)
From stdpp Require Import gmap sorting.
From S2P Require Import Prelude Value Record Savepoint Pager PagerJournal PagerOps PagerRun.

Local Open Scope Z_scope.

Lemma alter_present (f : PgHdr -> PgHdr) n (m : gmap Z PgHdr) x : m !! n = Some x -> alter f n m = <[n := f x]> m.
Proof.
  intros H. apply map_eq. intros i. destruct (decide (i = n)) as [->|Hi].
  - rewrite lookup_alter_eq, lookup_insert_eq, H. reflexivity.
  - rewrite lookup_alter_ne, lookup_insert_ne by congruence. reflexivity.
Qed.

Section Txn.
Context (e : PagerEnv) (Q : quiet e).

(** ** Savepoints take note of a page *)

Definition mark (n : Z) (s : PagerSavepoint) : PagerSavepoint :=
  if n <=? nOrig s
  then mkPagerSavepoint (iOffset s) (iHdrOffset s) (bv_set n (pInSavepoint s)) (nOrig s) (iSubRec s) (bTruncateOnRelease s) else s.

Lemma runs_bitvecs_loop n l p : runs (addToSavepointBitvecs_loop e n l SQLITE_OK) p (mark n <$> l, SQLITE_OK) p.
Proof.
  induction l as [|s l IH]; [apply runs_ret; reflexivity|]. cbn [addToSavepointBitvecs_loop]. rewrite fmap_cons. unfold mark at 1.
  destruct (n <=? nOrig s).
  - step (runs_alloc e Q). step IH. ret.
  - step IH. ret.
Qed.

Lemma runs_bitvecs n p : runs (addToSavepointBitvecs e n) p SQLITE_OK (set_aSavepoint (mark n <$> aSavepoint p) p).
Proof. unfold addToSavepointBitvecs. silent. step runs_bitvecs_loop. ret. Qed.

(** ** A page goes to the journal *)

Definition rec_events (PS off n : Z) (d : list Z) (ck : Z) : list event :=
  [EvWrite Jrnl off (put32bits n); EvWrite Jrnl (off + 4) d; EvWrite Jrnl (off + PS + 4) (put32bits ck)].

Definition rec_file (PS : Z) (f : File) (off n : Z) (d : list Z) (ck : Z) : File :=
  file_write (file_write (file_write f off (put32bits n)) (off + 4) d) (off + PS + 4) (put32bits ck).

Definition added (n : Z) (d : list Z) (p : Pager) : Pager :=
  set_aSavepoint (mark n <$> aSavepoint p) (set_pInJournal (bv_set n <$> pInJournal p)
  (set_journalOff (journalOff p + 8 + pageSize p) (set_nRec (nRec p + 1)
  (set_log (log p ++ rec_events (pageSize p) (journalOff p) n d (pager_cksum p d))
  (set_journal (rec_file (pageSize p) (journal p) (journalOff p) n d (pager_cksum p d)) p))))).

Lemma runs_set_inJournal n p : runs (set_inJournal e n) p SQLITE_OK (set_pInJournal (bv_set n <$> pInJournal p) p).
Proof.
  unfold set_inJournal. silent. eapply runs_bind with (a := true) (p' := p).
  - destruct (pInJournal p); [apply (runs_alloc e Q)|apply runs_ret; reflexivity].
  - cbv iota. silent. ret.
Qed.

Lemma runs_added n x p : pPCache p !! n = Some x ->
  runs (pagerAddPageToRollbackJournal e n) p SQLITE_OK (added n (pg_data x) (set_pPCache (<[n := pg_set_needSync x]> (pPCache p)) p)).
Proof.
  intros Hx. unfold pagerAddPageToRollbackJournal, upd_page, write32bits. silent. rewrite Hx. silent.
  rewrite (alter_present _ _ _ _ Hx). step (runs_write e Q). step (runs_write e Q). step (runs_write e Q). unfold wrote. silent.
  step runs_set_inJournal. step runs_bitvecs. apply runs_ret. unfold added. pext.
  - reflexivity.
  - rewrite <- !app_assoc. reflexivity.
Qed.

(** ** The sub-journal *)

Definition sub_file (PS : Z) (f : option File) (k n : Z) (d : list Z) : File :=
  file_write (file_write (default empty_file f) (k * (4 + PS)) (put32bits n)) (k * (4 + PS) + 4) d.

(** The page is written to the sub-journal if a savepoint needs it. *)
Definition subbed (n : Z) (d : list Z) (p : Pager) : Pager :=
  let '(b, l) := subj_requires n (aSavepoint p) in
  if b then
    set_aSavepoint (mark n <$> l) (set_nSubRec (nSubRec p + 1)
      (set_sjfd (Some (sub_file (pageSize p) (sjfd p) (nSubRec p) n d)) p))
  else set_aSavepoint l p.

Lemma runs_open_sub p : runs (openSubJournal e) p SQLITE_OK (set_sjfd (Some (default empty_file (sjfd p))) p).
Proof.
  unfold openSubJournal, is_open_sj. silent. destruct (sjfd p) as [f|] eqn:Hf.
  - rewrite bool_decide_eq_true_2 by (eexists; reflexivity). apply runs_ret. cbn. destruct p. cbn in *. subst. reflexivity.
  - rewrite bool_decide_eq_false_2 by (intros [? [=]]). step (runs_call e Q). ret.
Qed.

Lemma runs_sub_write f bs off p : sjfd p = Some f -> runs (sub_write e bs off) p SQLITE_OK (set_sjfd (Some (file_write f off bs)) p).
Proof. intros Hf. unfold sub_write. silent. rewrite Hf. apply runs_tick. intros k. rewrite (q_io _ Q). ret. Qed.

Lemma runs_subbed n x p : pPCache p !! n = Some x -> journalMode e <> PAGER_JOURNALMODE_OFF ->
  runs (subjournalPageIfRequired e n) p SQLITE_OK (subbed n (pg_data x) p).
Proof.
  intros Hx Hm. unfold subjournalPageIfRequired, subjRequiresPage, subbed. silent. destruct (subj_requires n (aSavepoint p)) as [[] l]; silent; [|ret].
  unfold subjournalPage. silent. psimp. rewrite Hx, (proj2 (Z.eqb_neq _ _) Hm). step runs_open_sub.
  step runs_sub_write; [reflexivity|]. step runs_sub_write; [reflexivity|]. eapply runs_last; [apply runs_bitvecs|]. pext. reflexivity.
Qed.

(** ** Pages *)

Lemma runs_read_page n p : runs (readDbPage e n) p (file_page (pageSize p) (fd p) n, SQLITE_OK)
  (if n =? 1 then set_dbFileVers (take_vers (file_page (pageSize p) (fd p) n)) p else p).
Proof.
  unfold readDbPage. silent. step (runs_read_any e Q Db). cbn [the_file]. fold (file_page (pageSize p) (fd p) n).
  destruct (_ <=? _); destruct (n =? 1); ret.
Qed.

(** The page in the cache. *)
Definition gotten (n : Z) (p : Pager) : PgHdr :=
  match pPCache p !! n with
  | Some x => x
  | None => new_page (if dbSize p <? n then zeros (pageSize p) else file_page (pageSize p) (fd p) n)
  end.

Definition got (n : Z) (p : Pager) : Pager :=
  set_dbFileVers (if (n =? 1) && negb (bool_decide (is_Some (pPCache p !! n))) && (n <=? dbSize p) then take_vers (file_page (pageSize p) (fd p) n) else dbFileVers p)
    (set_pPCache (<[n := gotten n p]> (pPCache p)) p).

Lemma runs_got n p : errCode p = SQLITE_OK -> 1 <= n <= mxPgno p -> n <> PAGER_SJ_PGNO p ->
  runs (sqlite3PagerGet e n false) p SQLITE_OK (got n p).
Proof.
  intros He Hn Hl. unfold sqlite3PagerGet, got, gotten. silent. rewrite He. ok. rewrite (proj2 (Z.eqb_neq n 0)) by lia.
  destruct (pPCache p !! n) as [x|] eqn:Hx.
  - rewrite bool_decide_eq_true_2 by (eexists; reflexivity). cbn [negb andb]. rewrite andb_false_r. apply runs_ret. pext; [|rewrite insert_id by exact Hx]; reflexivity.
  - rewrite bool_decide_eq_false_2 by (intros [? [=]]). cbn [negb andb]. rewrite andb_true_r. step (runs_alloc e Q).
    rewrite (proj2 (Z.eqb_neq n _) Hl), orb_false_r, (proj2 (Z.ltb_ge (mxPgno p) n)) by lia.
    destruct (Z.ltb_spec (dbSize p) n) as [Hd|Hd].
    + rewrite (proj2 (Z.leb_gt n _)), andb_false_r by lia. ret.
    + rewrite (proj2 (Z.leb_le n _)), andb_true_r by lia. step runs_read_page. destruct (n =? 1); ret.
Qed.

(** ** Writing a page *)

Definition rec_new (n : Z) (p : Pager) : bool := negb (sqlite3BitvecTest (pInJournal p) n) && (n <=? dbOrigSize p).

Definition need_sync (n : Z) (x : PgHdr) (p : Pager) : bool :=
  if sqlite3BitvecTest (pInJournal p) n then pg_needSync x
  else if n <=? dbOrigSize p then true else pg_needSync x || negb (eState p =? PAGER_WRITER_DBMOD).

Definition dirty_page (ns : bool) (x : PgHdr) : PgHdr := mkPgHdr (pg_data x) true ns true false.

Definition journaled (n : Z) (d : list Z) (p : Pager) : Pager := if rec_new n p then added n d p else p.

Definition written (n : Z) (x : PgHdr) (p : Pager) : Pager :=
  set_dbSize (Z.max (dbSize p) n)
    (subbed n (pg_data x) (set_pPCache (<[n := dirty_page (need_sync n x p) x]> (pPCache p)) (journaled n (pg_data x) p))).

Lemma set_pPCache_twice c c' p : set_pPCache c (set_pPCache c' p) = set_pPCache c p.
Proof. reflexivity. Qed.

Lemma grow_db p n : (if dbSize p <? n then set_dbSize n p else p) = set_dbSize (Z.max (dbSize p) n) p.
Proof. destruct (Z.ltb_spec (dbSize p) n); [rewrite Z.max_r by lia; reflexivity|rewrite Z.max_l by lia; destruct p; reflexivity]. Qed.

Lemma subbed_dbSize n d p : dbSize (subbed n d p) = dbSize p.
Proof. unfold subbed. destruct (subj_requires n (aSavepoint p)) as [[] l]; reflexivity. Qed.

(** The page is in the cache and needs no record. *)
Lemma runs_subbed_if n x p : pPCache p !! n = Some x -> journalMode e <> PAGER_JOURNALMODE_OFF ->
  runs (if (0 <? length (aSavepoint p))%nat then subjournalPageIfRequired e n else mret SQLITE_OK) p SQLITE_OK (subbed n (pg_data x) p).
Proof.
  intros Hx Hm. destruct (aSavepoint p) as [|s l] eqn:Hs; [|apply runs_subbed; assumption].
  apply runs_ret. unfold subbed. rewrite Hs. cbn. destruct p. cbn in *. subst. reflexivity.
Qed.

Lemma runs_pager_write n x p b : pPCache p !! n = Some x -> pInJournal p = Some b -> eState p <> PAGER_WRITER_LOCKED ->
  journalMode e <> PAGER_JOURNALMODE_OFF -> runs (pager_write e n) p SQLITE_OK (written n x p).
Proof.
  intros Hx Hb He Hm. unfold pager_write, upd_page. silent. rewrite (proj2 (Z.eqb_neq _ _) He). silent. psimp.
  rewrite (alter_present _ _ _ _ Hx), Hb. rewrite (bool_decide_eq_true_2 (is_Some (Some b))) by (eexists; reflexivity). cbn [andb].
  eapply runs_bind with (a := SQLITE_OK)
    (p' := set_pPCache (<[n := mkPgHdr (pg_data x) true (need_sync n x p) (pg_writeable x) false]> (pPCache p)) (journaled n (pg_data x) p)).
  { unfold journaled, rec_new, need_sync. rewrite Hb. destruct (sqlite3BitvecTest (Some b) n); cbn [negb andb]; [apply runs_ret; reflexivity|].
    destruct (n <=? dbOrigSize p).
    - eapply runs_last; [apply runs_added; apply lookup_insert_eq|]. cbn [pg_data sqlite3PcacheMakeDirty]. unfold added. pext; [rewrite insert_insert_eq; reflexivity|reflexivity|reflexivity].
    - destruct (negb (eState p =? PAGER_WRITER_DBMOD)).
      + silent. apply runs_ret. pext. rewrite (alter_present _ _ _ _ (lookup_insert_eq _ _ _)), insert_insert_eq, orb_true_r. reflexivity.
      + silent. apply runs_ret. rewrite orb_false_r. reflexivity. }
  silent. psimp. rewrite (alter_present _ _ _ _ (lookup_insert_eq _ _ _)), insert_insert_eq.
  rewrite set_pPCache_twice. change (pg_set_writeable _) with (dirty_page (need_sync n x p) x).
  eapply runs_bind.
  - apply (runs_subbed_if n (dirty_page (need_sync n x p) x)
      (set_pPCache (<[n := dirty_page (need_sync n x p) x]> (pPCache p)) (journaled n (pg_data x) p))); [apply lookup_insert_eq|exact Hm].
  - silent. apply runs_ret. rewrite grow_db, subbed_dbSize. unfold written. f_equal. psimp. unfold journaled. destruct (rec_new n p); reflexivity.
Qed.

(** A page that was written before has only to be seen by new savepoints. *)
Definition touched (n : Z) (x : PgHdr) (p : Pager) : Pager :=
  if pg_writeable x && (n <=? dbSize p) then subbed n (pg_data x) p else written n x p.

Lemma runs_touched n x p b : pPCache p !! n = Some x -> pInJournal p = Some b -> eState p <> PAGER_WRITER_LOCKED ->
  journalMode e <> PAGER_JOURNALMODE_OFF -> errCode p = SQLITE_OK -> sectorSize p <= pageSize p ->
  runs (sqlite3PagerWrite e n) p SQLITE_OK (touched n x p).
Proof.
  intros Hx Hb He Hm Hr Hs. unfold sqlite3PagerWrite, touched. silent. rewrite Hx. destruct (pg_writeable x && (n <=? dbSize p)).
  - apply (runs_subbed_if n x); assumption.
  - rewrite Hr. ok. rewrite (proj2 (Z.ltb_ge _ _)) by lia. apply runs_pager_write with (b := b); assumption.
Qed.

(** ** Journal headers *)

(** The journal is synced before its header is, and after. *)
Record config_ok : Prop := {
  cf_mode : mode_ok e;
  cf_fullSync : fullSync e = true;
  cf_noSync : noSync e = false;
  cf_safeAppend : SAFE_APPEND e = false;
  cf_sequential : SEQUENTIAL e = false
}.
Context (C : config_ok).

Lemma cf_memory : (journalMode e =? PAGER_JOURNALMODE_MEMORY) = false.
Proof. destruct (mo_mode _ (cf_mode C)) as [->| ->]; reflexivity. Qed.

Lemma cf_off : journalMode e <> PAGER_JOURNALMODE_OFF.
Proof. destruct (mo_mode _ (cf_mode C)) as [->| ->]; discriminate. Qed.

Context (PS HS : Z) (SZ : sizes_ok PS HS) (HP : HS <= PS).

(** A header is written. *)
Definition headed (ck : Z) (p : Pager) : Pager :=
  let off := align HS (journalOff p) in
  let h := hdr_bytes PS HS (zeros 12) ck (dbOrigSize p) in
  set_journalOff (off + HS) (set_log (log p ++ [EvWrite Jrnl off h]) (set_journal (file_write (journal p) off h)
    (set_cksumInit ck (set_journalHdr off (set_aSavepoint (set_hdrOffset (journalOff p) <$> aSavepoint p) p))))).

Lemma hdr_length m ck n : Zlen m = 12 -> Zlen (hdr_bytes PS HS m ck n) = HS.
Proof.
  intros Hm. destruct SZ as [_ H _ _]. unfold hdr_bytes. rewrite !Zlen_app, !put32_length, Hm. unfold zeros, Zlen. rewrite length_replicate. lia.
Qed.

Lemma wp_headed p (P : Z -> Pager -> Prop) : pageSize p = PS -> sectorSize p = HS ->
  (forall ck, 0 <= ck < 2 ^ 32 -> P SQLITE_OK (headed ck p)) -> wp (writeJournalHdr e) p P.
Proof.
  intros H1 H2 Hk. unfold writeJournalHdr, journalHdrOffset, JOURNAL_HDR_SZ. wsilent. rewrite H1, H2. psimp. rewrite cf_memory. cbn [negb orb].
  apply wp_assoc, wp_tick. intros k. wsilent. rewrite (cf_noSync C), (cf_safeAppend C). cbn [orb]. psimp. rewrite H1, H2.
  specialize (Hk (pe_rand e k mod 2 ^ 32) (Z.mod_pos_bound _ (2 ^ 32) ltac:(lia))). set (ck := pe_rand e k mod 2 ^ 32) in *.
  replace (if HS <? PS then HS else PS) with HS by (destruct (Z.ltb_spec HS PS); lia).
  fold (hdr_bytes PS HS (zeros 12) ck (dbOrigSize p)). pose proof (hdr_length (zeros 12) ck (dbOrigSize p) eq_refl) as Hl.
  destruct SZ as [_ Z2 _ _]. cbn [write_header]. wsilent. unfold JOURNAL_HDR_SZ. psimp. rewrite H2, (proj2 (Z.ltb_lt 0 HS)) by lia.
  wstep (runs_write e Q). rewrite Hl. replace (Z.to_nat HS) with (S (Z.to_nat (HS - 1))) by lia. cbn [write_header]. wsilent. unfold JOURNAL_HDR_SZ.
  unfold wrote. psimp. rewrite H2, (proj2 (Z.ltb_ge (0 + HS) HS)) by lia. apply wp_ret.
  lazymatch goal with |- P _ ?q => replace q with (headed ck p); [exact Hk|] end.
  change (if journalOff p =? 0 then 0 else ((journalOff p - 1) / HS + 1) * HS) with (align HS (journalOff p)). unfold headed. pext.
Qed.

(** The journal is opened for a transaction. *)
Definition started (p : Pager) : Pager :=
  set_journalHdr 0 (set_journalOff 0 (set_nRec 0 (set_jexists (if jfd p then jexists p else true) (set_jfd true
    (set_pInJournal (Some (mkBitvec (dbSize p) ∅)) p))))).

Definition opened (ck : Z) (p : Pager) : Pager := set_eState PAGER_WRITER_CACHEMOD (headed ck (started p)).

Lemma wp_open_journal p (P : Z -> Pager -> Prop) : pageSize p = PS -> sectorSize p = HS -> errCode p = SQLITE_OK ->
  (forall ck, 0 <= ck < 2 ^ 32 -> P SQLITE_OK (opened ck p)) -> wp (pager_open_journal e) p P.
Proof.
  intros H1 H2 H3 Hk. unfold pager_open_journal. wsilent. rewrite H3, (proj2 (Z.eqb_neq _ _) cf_off). ok. wstep (runs_alloc e Q).
  eapply wp_step with (a := SQLITE_OK) (p' := set_jexists (if jfd p then jexists p else true) (set_jfd true (set_pInJournal (Some (mkBitvec (dbSize p) ∅)) p))).
  { psimp. destruct (jfd p) eqn:Hj; [apply runs_ret; pext; exact Hj|]. rewrite cf_memory. step (runs_call e Q). step (runs_call e Q). ret. }
  wsilent. apply wp_bind. apply wp_headed; [exact H1|exact H2|]. intros ck Hck. ok. wsilent. apply wp_ret. exact (Hk ck Hck).
Qed.

(** ** The journal is synced *)

(** There is a header of an earlier journal where the next one may come. *)
Definition stale (p : Pager) : bool :=
  let iNext := align HS (journalOff p) in
  (iNext + 8 <=? f_size (journal p)) && bool_decide (file_bytes (journal p) iNext 8 = aJournalMagic).

Definition unstale_log (p : Pager) : list event := if stale p then [EvWrite Jrnl (align HS (journalOff p)) [0]] else [].
Definition unstale_file (p : Pager) : File := if stale p then file_write (journal p) (align HS (journalOff p)) [0] else journal p.

Definition jsynced (p : Pager) : Pager :=
  let m := aJournalMagic ++ put32bits (nRec p) in
  set_journalHdr (journalOff p)
  (set_log (log p ++ unstale_log p ++ [EvSync Jrnl; EvWrite Jrnl (journalHdr p) m; EvSync Jrnl])
  (set_journal (file_write (unstale_file p) (journalHdr p) m)
  (set_eLock EXCLUSIVE_LOCK p))).

(** The pages may be written. *)
Definition unlocked_pages (p : Pager) : Pager := set_eState PAGER_WRITER_DBMOD (set_pPCache (sqlite3PcacheClearSyncFlags (pPCache p)) p).

Lemma runs_exclusive p : errCode p = SQLITE_OK -> eLock p <= EXCLUSIVE_LOCK ->
  runs (sqlite3PagerExclusiveLock e) p SQLITE_OK (set_eLock EXCLUSIVE_LOCK p).
Proof.
  intros He Hl. unfold sqlite3PagerExclusiveLock. silent. rewrite He. ok. apply runs_wait. destruct (Z.eq_dec (eLock p) EXCLUSIVE_LOCK) as [Hx|Hx].
  - unfold pagerLockDb. silent. rewrite Hx. change ((EXCLUSIVE_LOCK <? EXCLUSIVE_LOCK) || (EXCLUSIVE_LOCK =? UNKNOWN_LOCK)) with false.
    apply runs_ret. pext. exact Hx.
  - apply (runs_lock e Q). unfold EXCLUSIVE_LOCK, UNKNOWN_LOCK in *. lia.
Qed.

Lemma wp_sync_journal newHdr p (P : Z -> Pager -> Prop) : pageSize p = PS -> sectorSize p = HS -> errCode p = SQLITE_OK -> jfd p = true -> eLock p <= EXCLUSIVE_LOCK ->
  (newHdr = false -> P SQLITE_OK (unlocked_pages (jsynced p))) ->
  (newHdr = true -> forall ck, 0 <= ck < 2 ^ 32 -> P SQLITE_OK (unlocked_pages (headed ck (set_nRec 0 (jsynced p))))) ->
  wp (syncJournal e newHdr) p P.
Proof.
  intros H1 H2 H3 H4 H5 K1 K2. unfold syncJournal. wstep runs_exclusive; [exact H3|exact H5|]. psimp.
  rewrite (cf_noSync C), cf_memory, (cf_safeAppend C), H4. cbn [negb andb]. unfold journalHdrOffset, JOURNAL_HDR_SZ. psimp. rewrite H2.
  change (if journalOff p =? 0 then 0 else ((journalOff p - 1) / HS + 1) * HS) with (align HS (journalOff p)).
  wstep (runs_read_any e Q Jrnl). cbn [the_file]. psimp.
  eapply wp_step with (a := if align HS (journalOff p) + 8 <=? f_size (journal p) then SQLITE_OK else SQLITE_IOERR_SHORT_READ)
    (p' := set_log (log p ++ unstale_log p) (set_journal (unstale_file p) (set_eLock EXCLUSIVE_LOCK p))).
  { unfold unstale_log, unstale_file, stale. cbv zeta. destruct (_ <=? _); cbn [andb].
    - ok. destruct (bool_decide _); [eapply runs_last; [apply (runs_write e Q)|reflexivity]|]. apply runs_ret. pext. rewrite app_nil_r. reflexivity.
    - change (SQLITE_IOERR_SHORT_READ =? SQLITE_OK) with false. cbn [andb]. apply runs_ret. pext. rewrite app_nil_r. reflexivity. }
  assert (Hrc : forall b : bool, negb ((if b then SQLITE_OK else SQLITE_IOERR_SHORT_READ) =? SQLITE_OK) && negb ((if b then SQLITE_OK else SQLITE_IOERR_SHORT_READ) =? SQLITE_IOERR_SHORT_READ) = false)
    by (intros []; reflexivity).
  rewrite Hrc, (cf_fullSync C), (cf_sequential C). wstep (runs_sync e Q). wstep (runs_write e Q). wstep (runs_sync e Q). unfold synced_log, wrote. psimp.
  rewrite andb_true_r. lazymatch goal with |- wp _ ?q _ => replace q with (jsynced p) end.
  2: { unfold jsynced. pext. rewrite <- !app_assoc. reflexivity. }
  destruct newHdr.
  - wsilent. apply wp_bind. apply wp_headed; [exact H1|exact H2|]. intros ck Hck. ok. wsilent. apply wp_ret. exact (K2 eq_refl ck Hck).
  - wsilent. apply wp_ret. exact (K1 eq_refl).
Qed.

(** ** Pages are written to the file *)

(** What is written: page 1 gets a new change counter. *)
Definition out_data (n : Z) (x : PgHdr) (p : Pager) : list Z :=
  if n =? 1 then pager_write_changecounter (dbFileVers p) (pg_data x) else pg_data x.

Definition flushed (n : Z) (x : PgHdr) (p : Pager) : Pager :=
  let d := out_data n x p in
  set_dbFileSize (Z.max (dbFileSize p) n) (set_dbFileVers (if n =? 1 then take_vers d else dbFileVers p)
    (set_log (log p ++ [EvWrite Db ((n - 1) * pageSize p) d]) (set_fd (file_write (fd p) ((n - 1) * pageSize p) d)
      (set_pPCache (<[n := pg_set_data d x]> (pPCache p)) p)))).

Definition flush (p : Pager) (n : Z) : Pager :=
  match pPCache p !! n with
  | Some x => if (n <=? dbSize p) && negb (pg_dontWrite x) then flushed n x p else p
  | None => p
  end.

Lemma grow_file p n : (if dbFileSize p <? n then set_dbFileSize n p else p) = set_dbFileSize (Z.max (dbFileSize p) n) p.
Proof. destruct (Z.ltb_spec (dbFileSize p) n); [rewrite Z.max_r by lia; reflexivity|rewrite Z.max_l by lia; destruct p; reflexivity]. Qed.

Lemma flush_cached n m p : is_Some (pPCache p !! m) -> is_Some (pPCache (flush p n) !! m).
Proof.
  intros Hm. unfold flush. destruct (pPCache p !! n) as [x|] eqn:Hx; [|exact Hm]. destruct (_ && _); [|exact Hm]. unfold flushed. psimp.
  destruct (decide (n = m)) as [->|Hn]; [rewrite lookup_insert_eq; eexists; reflexivity|rewrite lookup_insert_ne by exact Hn; exact Hm].
Qed.

Lemma runs_pagelist l p : Forall (fun n => is_Some (pPCache p !! n)) l -> runs (pager_write_pagelist e l) p SQLITE_OK (foldl flush p l).
Proof.
  revert p. induction l as [|n l IH]; intros p Hl; [apply runs_ret; reflexivity|]. inversion_clear Hl as [|? ? [x Hx] Hl'].
  cbn [pager_write_pagelist foldl]. silent. rewrite Hx.
  eapply runs_bind with (a := SQLITE_OK) (p' := flush p n).
  - unfold flush. rewrite Hx. destruct ((n <=? dbSize p) && negb (pg_dontWrite x)); [|apply runs_ret; reflexivity].
    unfold upd_page. silent. rewrite (alter_present _ _ _ _ Hx). fold (out_data n x p). step (runs_write e Q). unfold wrote. psimp.
    unfold flushed. destruct (n =? 1); silent; rewrite grow_file; ret.
  - ok. apply IH. apply (Forall_impl _ _ _ Hl'). intros m Hm. apply flush_cached, Hm.
Qed.

(** ** Spilling *)

Definition cleaned (n : Z) (p : Pager) : Pager := set_pPCache (alter sqlite3PcacheMakeClean n (pPCache p)) p.

Definition spill_refused (x : PgHdr) (p : Pager) : bool :=
  negb (doNotSpill p =? 0) && (negb (Z.land (doNotSpill p) (Z.lor SPILLFLAG_ROLLBACK SPILLFLAG_OFF) =? 0) || pg_needSync x).

Lemma wp_stress n x p (P : Z -> Pager -> Prop) : pPCache p !! n = Some x ->
  pageSize p = PS -> sectorSize p = HS -> errCode p = SQLITE_OK -> jfd p = true -> eLock p <= EXCLUSIVE_LOCK ->
  P SQLITE_OK p ->
  (pg_needSync x = false -> eState p <> PAGER_WRITER_CACHEMOD -> P SQLITE_OK (cleaned n (flush p n))) ->
  (forall ck, 0 <= ck < 2 ^ 32 -> P SQLITE_OK (cleaned n (flush (unlocked_pages (headed ck (set_nRec 0 (jsynced p)))) n))) ->
  wp (pagerStress e n) p P.
Proof.
  intros Hx H1 H2 H3 H4 H5 K0 K1 K2. unfold pagerStress. wsilent. rewrite Hx, H3. ok. fold (spill_refused x p).
  destruct (spill_refused x p); [apply wp_ret; exact K0|].
  assert (Hend : forall q, is_Some (pPCache q !! n) -> P SQLITE_OK (cleaned n (flush q n)) ->
    wp (rc ← pager_write_pagelist e [n]; (if rc =? SQLITE_OK then upd_page n sqlite3PcacheMakeClean else mret tt);; pager_error rc) q P).
  { intros q Hq HP0. wstep runs_pagelist; [constructor; [exact Hq|constructor]|]. unfold upd_page. wsilent. unfold pager_error.
    change ((Z.land SQLITE_OK 255 =? SQLITE_FULL) || (Z.land SQLITE_OK 255 =? SQLITE_IOERR)) with false. wsilent. apply wp_ret. exact HP0. }
  destruct (pg_needSync x) eqn:Hns; cbn [orb].
  - apply wp_assoc, wp_bind. apply wp_sync_journal; try assumption; [discriminate|]. intros _ ck Hck. ok. apply Hend; [|exact (K2 ck Hck)].
    unfold unlocked_pages. psimp. unfold sqlite3PcacheClearSyncFlags, on_dirty. rewrite lookup_fmap. exists (if pg_dirty x then mkPgHdr (pg_data x) (pg_dirty x) false (pg_writeable x) (pg_dontWrite x) else x).
    unfold headed, jsynced. psimp. rewrite Hx. reflexivity.
  - destruct (Z.eqb_spec (eState p) PAGER_WRITER_CACHEMOD) as [Hs|Hs].
    + apply wp_assoc, wp_bind. apply wp_sync_journal; try assumption; [discriminate|]. intros _ ck Hck. ok. apply Hend; [|exact (K2 ck Hck)].
      unfold unlocked_pages. psimp. unfold sqlite3PcacheClearSyncFlags, on_dirty. rewrite lookup_fmap. exists (if pg_dirty x then mkPgHdr (pg_data x) (pg_dirty x) false (pg_writeable x) (pg_dontWrite x) else x).
      unfold headed, jsynced. psimp. rewrite Hx. reflexivity.
    + wsilent. apply Hend; [eexists; exact Hx|]. apply K1; [reflexivity|exact Hs].
Qed.

End Txn.
