(* ===== verification/PagerInv.v ===== *)
(** * The pager: the invariant of a write transaction

    The pages of the cache, the database file, the journal and the disk while a transaction
    writes: every page of the file that has changed is in a synced segment of the journal,
    so that a crash can be recovered from at any time. *)
From stdpp Require Import gmap sorting.
From S2P Require Import Prelude Value Record Savepoint Pager PagerJournal PagerOps PagerRun PagerRecovery PagerCrash PagerTxn.

Local Open Scope Z_scope.

(** The records of the segment that is being written. *)
Definition open_recs (o : option seg) : list (Z * list Z) := match o with Some s => sg_recs s | None => [] end.
Definition all_recs (cs : list seg) (o : option seg) : list (Z * list Z) := seg_records cs ++ open_recs o.

Section Inv.
Context (e : PagerEnv) (Q : quiet e) (C : config_ok e) (PS HS : Z) (SZ : sizes_ok PS HS) (HP : HS <= PS).
Context (orig : list (list Z)) (lengths : Forall (fun d => Zlen d = PS) orig) (small : Zlen orig < lock_page PS) (d0 : disk).

(** ** The disk *)

(** A crash after any of the events can be recovered from. *)
Definition safe (l : list event) : Prop :=
  forall k f j, crashes HS (disk_after d0 (take k l)) f j -> exists cs, recoverable_by PS HS orig cs f j.

Record logged (cs : list seg) (l : list event) (f j : File) : Prop := {
  lg_safe : safe l;
  lg_durable : durable PS HS orig cs (disk_after d0 l);
  lg_db : current (d_db (disk_after d0 l)) = f;
  lg_jrnl : current (d_jrnl (disk_after d0 l)) = j
}.

Lemma disk_after_snoc l ev : disk_after d0 (l ++ [ev]) = disk_step (disk_after d0 l) ev.
Proof. unfold disk_after. rewrite foldl_app. reflexivity. Qed.

Lemma safe_snoc l ev : safe l -> (forall f j, crashes HS (disk_after d0 (l ++ [ev])) f j -> exists cs, recoverable_by PS HS orig cs f j) ->
  safe (l ++ [ev]).
Proof.
  intros Hl He k f j Hc. destruct (decide (k <= length l)%nat) as [Hk|Hk].
  - rewrite take_app_le in Hc by exact Hk. exact (Hl k f j Hc).
  - rewrite take_ge in Hc by (rewrite length_app; cbn; lia). exact (He f j Hc).
Qed.

Lemma safe_durable l ev cs : safe l -> durable PS HS orig cs (disk_after d0 (l ++ [ev])) -> safe (l ++ [ev]).
Proof. intros Hl Hd. apply safe_snoc; [exact Hl|]. intros f j Hc. exists cs. apply (durable_recoverable PS HS SZ orig lengths small cs _ f j Hd Hc). Qed.

Lemma current_add o x : current (add_op o x) = apply_op (current x) o.
Proof. unfold current, add_op. cbn [df_base df_ops]. rewrite foldl_app. reflexivity. Qed.

Lemma current_sync x : current (sync_file x) = current x.
Proof. reflexivity. Qed.

Lemma logged_jwrite cs l f j off bs : logged cs l f j -> end_of PS HS cs <= off ->
  op_dead (align HS (end_of PS HS cs)) (FWrite off bs) -> logged cs (l ++ [EvWrite Jrnl off bs]) f (file_write j off bs).
Proof.
  intros [H1 H2 H3 H4] Ho Hd. pose proof (durable_jwrite PS HS orig cs _ off bs H2 Ho Hd) as D.
  rewrite <- disk_after_snoc in D. split; [exact (safe_durable _ _ _ H1 D)|exact D|..]; rewrite disk_after_snoc; cbn [disk_step on_file d_db d_jrnl]; [exact H3|].
  rewrite current_add, H4. reflexivity.
Qed.

Lemma logged_jsync cs l f j : logged cs l f j -> logged cs (l ++ [EvSync Jrnl]) f j.
Proof.
  intros [H1 H2 H3 H4]. pose proof (durable_jsync PS HS SZ orig lengths small cs _ H2) as D.
  rewrite <- disk_after_snoc in D. split; [exact (safe_durable _ _ _ H1 D)|exact D|..]; rewrite disk_after_snoc; cbn [disk_step on_file d_db d_jrnl]; assumption.
Qed.

Lemma logged_dwrite cs l f j n bs : logged cs l f j -> cs <> [] -> 1 <= n -> Zlen bs = PS -> in_recs n (seg_records cs) \/ Zlen orig < n ->
  logged cs (l ++ [EvWrite Db ((n - 1) * PS) bs]) (file_write f ((n - 1) * PS) bs) j.
Proof.
  intros [H1 H2 H3 H4] Hc Hn Hl Hi. pose proof (durable_dwrite PS HS orig cs _ n bs H2 Hc Hn Hl Hi) as D.
  rewrite <- disk_after_snoc in D. split; [exact (safe_durable _ _ _ H1 D)|exact D|..]; rewrite disk_after_snoc; cbn [disk_step on_file d_db d_jrnl]; [|exact H4].
  rewrite current_add, H3. reflexivity.
Qed.

Lemma logged_dtruncate cs l f j n : logged cs l f j -> cs <> [] -> PS * Zlen orig <= n ->
  logged cs (l ++ [EvTruncate Db n]) (file_truncate f n) j.
Proof.
  intros [H1 H2 H3 H4] Hc Hn. pose proof (durable_dtruncate PS HS orig cs _ n H2 Hc Hn) as D.
  rewrite <- disk_after_snoc in D. split; [exact (safe_durable _ _ _ H1 D)|exact D|..]; rewrite disk_after_snoc; cbn [disk_step on_file d_db d_jrnl]; [|exact H4].
  rewrite current_add, H3. reflexivity.
Qed.

Lemma logged_dsync cs l f j : logged cs l f j -> logged cs (l ++ [EvSync Db]) f j.
Proof.
  intros [H1 H2 H3 H4]. pose proof (durable_dsync PS HS SZ orig cs _ H2) as D.
  rewrite <- disk_after_snoc in D. split; [exact (safe_durable _ _ _ H1 D)|exact D|..]; rewrite disk_after_snoc; cbn [disk_step on_file d_db d_jrnl]; assumption.
Qed.

(** What the disk says of the files. *)
Lemma logged_files cs l f j : logged cs l f j ->
  file_wf j /\ chain PS HS 0 cs /\ Forall (seg_ok PS HS orig j) cs /\ ~ magic_at j (align HS (end_of PS HS cs)) /\
  file_wf f /\ PS * Zlen orig <= f_size f /\ (forall n b, page_at orig n b -> ~ in_recs n (seg_records cs) -> file_page PS f n = b).
Proof.
  intros [_ H2 H3 H4]. destruct (durable_jsync PS HS SZ orig lengths small cs _ H2) as [J1 J2 J3 _ J5 _ _ _ _ _ _].
  destruct (durable_dsync PS HS SZ orig cs _ H2) as [_ _ _ _ _ _ F1 F2 _ F3 _].
  cbn in J1, J3, J5, F1, F2, F3. rewrite H4 in J1, J3, J5. rewrite H3 in F1, F2, F3. split_and!; assumption || apply J1 || apply F1.
Qed.

(** The header of the segment is completed. *)
Lemma logged_close cs l f j s : logged cs l f j -> df_ops (d_jrnl (disk_after d0 l)) = [] -> open_ok PS HS orig j s ->
  sg_hdr s = align HS (end_of PS HS cs) -> ~ magic_at j (align HS (seg_end PS HS s)) ->
  logged (cs ++ [s]) (l ++ [EvWrite Jrnl (sg_hdr s) (closed_mark s); EvSync Jrnl]) f (file_write j (sg_hdr s) (closed_mark s)).
Proof.
  intros [H1 H2 H3 H4] Ho Hs Hh Hm. assert (Hb : df_base (d_jrnl (disk_after d0 l)) = j) by (rewrite <- H4; unfold current; rewrite Ho; reflexivity).
  rewrite <- Hb in Hs, Hm. pose proof (durable_close PS HS SZ orig lengths small cs _ s H2 Ho Hs Hh Hm) as D.
  change [EvWrite Jrnl (sg_hdr s) (closed_mark s); EvSync Jrnl] with ([EvWrite Jrnl (sg_hdr s) (closed_mark s)] ++ [EvSync Jrnl]).
  rewrite app_assoc. rewrite <- !disk_after_snoc in D.
  assert (Hs1 : safe (l ++ [EvWrite Jrnl (sg_hdr s) (closed_mark s)])).
  { apply safe_snoc; [exact H1|]. intros f' j' Hc. rewrite disk_after_snoc in Hc.
    exact (crash_close PS HS SZ orig lengths small cs _ s f' j' H2 Ho Hs Hh Hm Hc). }
  split; [exact (safe_durable _ _ _ Hs1 D)|exact D|..]; rewrite !disk_after_snoc; cbn [disk_step on_file d_db d_jrnl].
  - exact H3.
  - rewrite current_sync, current_add, H4. reflexivity.
Qed.

(** ** The pager *)

(** Where the journal is written. *)
Definition cursor (cs : list seg) (o : option seg) (p : Pager) : Prop :=
  match o with
  | Some s => sg_hdr s = align HS (end_of PS HS cs) /\ open_ok PS HS orig (journal p) s /\ journalOff p = seg_end PS HS s
              /\ journalHdr p = sg_hdr s /\ nRec p = Zlen (sg_recs s) /\ cksumInit p = sg_ck s
  | None => journalOff p = end_of PS HS cs /\ journalHdr p = end_of PS HS cs
  end.

Record base (cs : list seg) (o : option seg) (p : Pager) : Prop := {
  b_logged : logged cs (log p) (fd p) (journal p);
  b_cursor : cursor cs o p;
  b_nodup : NoDup (all_recs cs o).*1;
  b_bits : exists b, pInJournal p = Some b /\ bv_iSize b = Zlen orig /\ forall n, n ∈ bv_bits b <-> in_recs n (all_recs cs o);
  b_pageSize : pageSize p = PS;
  b_sectorSize : sectorSize p = HS;
  b_errCode : errCode p = SQLITE_OK;
  b_jfd : jfd p = true;
  b_eLock : RESERVED_LOCK <= eLock p <= EXCLUSIVE_LOCK;
  b_eState : eState p = PAGER_WRITER_CACHEMOD /\ cs = [] \/ (eState p = PAGER_WRITER_DBMOD \/ eState p = PAGER_WRITER_FINISHED) /\ cs <> [];
  b_origSize : dbOrigSize p = Zlen orig;
  b_dbSize : Zlen orig <= dbSize p < lock_page PS;
  b_fileSize : f_size (fd p) = PS * dbFileSize p /\ dbFileSize p <= dbSize p
}.

(** The cache [m] for a database of [ds] pages in the file [f], which has [fs] pages. *)
Record cache_ok (cs : list seg) (o : option seg) (ds fs : Z) (f : File) (m : gmap Z PgHdr) : Prop := {
  c_new : forall n, Zlen orig < n <= ds -> n <= fs \/ exists x, m !! n = Some x /\ pg_dirty x = true;
  c_cached : forall n x, m !! n = Some x -> Zlen (pg_data x) = PS /\ 1 <= n < lock_page PS /\ pg_dontWrite x = false;
  c_clean : forall n x, m !! n = Some x -> pg_dirty x = false -> n <= ds -> pg_data x = file_page PS f n;
  c_dirty : forall n x, m !! n = Some x -> pg_dirty x = true -> n <= Zlen orig -> in_recs n (all_recs cs o);
  c_unsynced : forall n, in_recs n (open_recs o) -> exists x, m !! n = Some x /\ pg_dirty x = true /\ pg_needSync x = true;
  c_writeable : forall n x, m !! n = Some x -> pg_writeable x = true -> pg_dirty x = true
}.

Definition cache_inv (cs : list seg) (o : option seg) (p : Pager) : Prop := cache_ok cs o (dbSize p) (dbFileSize p) (fd p) (pPCache p).

Definition inv (cs : list seg) (o : option seg) (p : Pager) : Prop := base cs o p /\ cache_inv cs o p.

(** Records hold original pages. *)
Lemma base_from_orig cs o p : base cs o p -> Forall (from_orig orig) (all_recs cs o).
Proof.
  intros [L K _ _ _ _ _ _ _ _ _ _ _]. destruct (logged_files _ _ _ _ L) as (_ & _ & Hs & _). unfold all_recs. apply Forall_app. split.
  - unfold seg_records. apply Forall_concat, Forall_fmap, (Forall_impl _ _ _ Hs). intros s Hk. apply Hk.
  - destruct o as [s|]; [|constructor]. destruct K as (_ & (_ & _ & Hr & _) & _). exact Hr.
Qed.

(** The bits of [pInJournal] are the pages of the journal. *)
Lemma base_test cs o p n : base cs o p -> 1 <= n <= Zlen orig -> sqlite3BitvecTest (pInJournal p) n = bool_decide (in_recs n (all_recs cs o)).
Proof.
  intros I Hn. destruct (b_bits _ _ _ I) as (b & -> & Hs & Hb). cbn. rewrite Hs, (proj2 (Z.leb_le _ _)) by lia. cbn [andb].
  apply bool_decide_ext, Hb.
Qed.

(** There are no more records than pages. *)
Lemma recs_count (l : list (Z * list Z)) : NoDup l.*1 -> Forall (from_orig orig) l -> Zlen l <= Zlen orig.
Proof.
  intros Hn Hl. assert (Hs : l.*1 ⊆ seqZ 1 (Zlen orig)).
  { intros n Hi. apply list_elem_of_fmap in Hi as ([m d] & -> & Hi). pose proof (proj1 (Forall_forall _ _) Hl _ Hi) as Hm.
    apply page_at_range in Hm. cbn [fst] in *. apply elem_of_seqZ. lia. }
  pose proof (NoDup_submseteq _ _ Hn Hs) as Hm. apply submseteq_length in Hm. rewrite length_fmap, length_seqZ in Hm. unfold Zlen in *. lia.
Qed.

(** ** Changes of the cache *)

Lemma cache_read cs o ds fs f m n d : cache_ok cs o ds fs f m -> m !! n = None -> Zlen d = PS -> 1 <= n < lock_page PS ->
  (n <= ds -> d = file_page PS f n) -> cache_ok cs o ds fs f (<[n := new_page d]> m).
Proof.
  intros [K1 K2 K3 K4 K5 K6] Hm Hd Hn Hf. split.
  - intros k Hk. destruct (K1 k Hk) as [H|(x & Hx & Hdx)]; [left; exact H|right]. exists x. split; [|exact Hdx].
    rewrite lookup_insert_ne by congruence. exact Hx.
  - intros k x Hx. apply lookup_insert_Some in Hx as [[<- <-]|[_ Hx]]; [auto|exact (K2 k x Hx)].
  - intros k x Hx. apply lookup_insert_Some in Hx as [[<- <-]|[_ Hx]]; [intros _; exact Hf|exact (K3 k x Hx)].
  - intros k x Hx. apply lookup_insert_Some in Hx as [[<- <-]|[_ Hx]]; [discriminate|exact (K4 k x Hx)].
  - intros k Hk. destruct (K5 k Hk) as (x & Hx & H). exists x. split; [|exact H]. rewrite lookup_insert_ne by congruence. exact Hx.
  - intros k x Hx. apply lookup_insert_Some in Hx as [[<- <-]|[_ Hx]]; [discriminate|exact (K6 k x Hx)].
Qed.

(** A page becomes dirty; the journal may get a record of it. *)
Lemma cache_write cs o o' ds fs f m n y : cache_ok cs o ds fs f m -> pg_dirty y = true -> Zlen (pg_data y) = PS -> pg_dontWrite y = false ->
  1 <= n < lock_page PS -> n <= ds + 1 ->
  (forall k, in_recs k (all_recs cs o) -> in_recs k (all_recs cs o')) -> (n <= Zlen orig -> in_recs n (all_recs cs o')) ->
  (forall k, in_recs k (open_recs o') -> k = n \/ in_recs k (open_recs o)) -> (in_recs n (open_recs o') -> pg_needSync y = true) ->
  cache_ok cs o' (Z.max ds n) fs f (<[n := y]> m).
Proof.
  intros [K1 K2 K3 K4 K5 K6] Hy Hl Hw Hn Hds Ha Hr Ho Hs. split.
  - intros k Hk. destruct (decide (k = n)) as [->|Hkn]; [right; exists y; rewrite lookup_insert_eq; auto|].
    destruct (K1 k ltac:(lia)) as [H|(x & Hx & Hdx)]; [left; exact H|right]. exists x. rewrite lookup_insert_ne by congruence. auto.
  - intros k x Hx. apply lookup_insert_Some in Hx as [[<- <-]|[_ Hx]]; [auto|exact (K2 k x Hx)].
  - intros k x Hx. apply lookup_insert_Some in Hx as [[<- <-]|[Hkn Hx]]; [congruence|]. intros Hd Hk. apply (K3 k x Hx Hd). lia.
  - intros k x Hx. apply lookup_insert_Some in Hx as [[<- <-]|[_ Hx]]; [intros _; exact Hr|]. intros Hd Hk. apply Ha, (K4 k x Hx Hd Hk).
  - intros k Hk. destruct (decide (k = n)) as [->|Hkn]; [exists y; rewrite lookup_insert_eq; auto|].
    destruct (Ho k Hk) as [->|Hk']; [contradiction|]. destruct (K5 k Hk') as (x & Hx & H). exists x. rewrite lookup_insert_ne by congruence. auto.
  - intros k x Hx. apply lookup_insert_Some in Hx as [[<- <-]|[_ Hx]]; [auto|exact (K6 k x Hx)].
Qed.

(** The segment is closed, and another may be opened. *)
Lemma cache_sync cs s ds fs f m o : open_recs o = [] -> cache_ok cs (Some s) ds fs f m ->
  cache_ok (cs ++ [s]) o ds fs f (sqlite3PcacheClearSyncFlags m).
Proof.
  intros Ho [K1 K2 K3 K4 K5 K6].
  assert (Hall : all_recs (cs ++ [s]) o = all_recs cs (Some s)).
  { unfold all_recs. rewrite Ho, app_nil_r, seg_records_app. cbn [open_recs]. unfold seg_records at 2. cbn. rewrite app_nil_r. reflexivity. }
  assert (Hm : forall k y, sqlite3PcacheClearSyncFlags m !! k = Some y ->
    exists x, m !! k = Some x /\ pg_data y = pg_data x /\ pg_dirty y = pg_dirty x /\ pg_writeable y = pg_writeable x /\ pg_dontWrite y = pg_dontWrite x).
  { intros k y Hy. unfold sqlite3PcacheClearSyncFlags, on_dirty in Hy. rewrite lookup_fmap in Hy. destruct (m !! k) as [x|]; [|discriminate].
    exists x. cbn in Hy. destruct (pg_dirty x) eqn:Hd; injection Hy as <-; cbn; auto. }
  split.
  - intros k Hk. destruct (K1 k Hk) as [H|(x & Hx & Hdx)]; [left; exact H|right]. unfold sqlite3PcacheClearSyncFlags, on_dirty.
    rewrite lookup_fmap, Hx. cbn. rewrite Hdx. eexists. split; [reflexivity|reflexivity].
  - intros k y Hy. destruct (Hm k y Hy) as (x & Hx & -> & _ & _ & ->). exact (K2 k x Hx).
  - intros k y Hy. destruct (Hm k y Hy) as (x & Hx & -> & -> & _ & _). exact (K3 k x Hx).
  - intros k y Hy. destruct (Hm k y Hy) as (x & Hx & _ & -> & _ & _). rewrite Hall. exact (K4 k x Hx).
  - intros k Hk. rewrite Ho in Hk. apply elem_of_nil in Hk as [].
  - intros k y Hy. destruct (Hm k y Hy) as (x & Hx & _ & -> & -> & _). exact (K6 k x Hx).
Qed.

(** ** A record is added *)

Definition add_rec (s : seg) (n : Z) (d : list Z) : seg := mkSeg (sg_hdr s) (sg_ck s) (sg_recs s ++ [(n, d)]).

Lemma add_rec_end s n d : seg_end PS HS (add_rec s n d) = seg_end PS HS s + PS + 8.
Proof. unfold seg_end, add_rec. cbn [sg_hdr sg_recs]. rewrite Zlen_app. unfold Zlen at 2. cbn. lia. Qed.

Lemma rec_file_stored f off n d ck : 0 <= off -> Zlen d = PS -> stored (rec_file PS f off n d ck) off (put32bits n ++ d ++ put32bits ck).
Proof.
  intros Ho Hd. destruct SZ as [Z1 _ _ _]. unfold rec_file. rewrite !stored_app, put32_length, Hd. split_and!.
  - do 2 (apply write_keeps; [|right; rewrite put32_length; lia]). apply write_stored; [exact Ho|discriminate].
  - apply write_keeps; [|right; lia]. apply write_stored; [lia|]. intros ->. unfold Zlen in Hd. cbn in Hd. lia.
  - replace (off + 4 + PS) with (off + PS + 4) by lia. apply write_stored; [lia|discriminate].
Qed.

Lemma rec_file_keeps f off n d ck off' bs : stored f off' bs -> off' + Zlen bs <= off -> 0 < PS -> stored (rec_file PS f off n d ck) off' bs.
Proof. intros H Ho Hp. unfold rec_file. repeat (apply write_keeps; [|right; lia]). exact H. Qed.

Lemma logged_rec cs l f j s n d ck : logged cs l f j -> sg_hdr s = align HS (end_of PS HS cs) -> Zlen d = PS ->
  logged cs (l ++ rec_events PS (seg_end PS HS s) n d ck) f (rec_file PS j (seg_end PS HS s) n d ck).
Proof.
  intros L Hh Hd. destruct SZ as [Z1 Z2 _ _]. pose proof (logged_files _ _ _ _ L) as (_ & Hc & _).
  pose proof (chain_end_nonneg PS HS SZ _ Hc) as He. pose proof (align_ge HS ltac:(lia) _ He). pose proof (seg_end_ge PS HS ltac:(lia) s ltac:(lia)).
  assert (Hw : forall l j off bs, logged cs l f j -> seg_end PS HS s <= off -> logged cs (l ++ [EvWrite Jrnl off bs]) f (file_write j off bs)).
  { intros l' j' off bs L' Ho. apply logged_jwrite; [exact L'|lia|]. right. left. lia. }
  unfold rec_events, rec_file. rewrite (cons_middle _ l), app_assoc, (cons_middle _ (l ++ [_])), app_assoc.
  repeat (apply Hw; [|lia]). exact L.
Qed.

Lemma open_added j s n d : open_ok PS HS orig j s -> page_at orig n d -> Zlen (sg_recs s) + 1 < 2 ^ 32 - 1 ->
  open_ok PS HS orig (rec_file PS j (seg_end PS HS s) n d (cksum PS (sg_ck s) d)) (add_rec s n d).
Proof.
  intros (S1 & S2 & S3 & S4) Hn Hc. destruct SZ as [Z1 Z2 _ _]. pose proof (page_at_len _ _ lengths _ _ Hn) as Hd. pose proof S1 as (H0 & _).
  pose proof (seg_end_ge PS HS ltac:(lia) s H0). split_and!; [|apply S2|apply S2|apply Forall_app; split; [exact S3|constructor; [exact Hn|constructor]]|].
  - assert (Hb : seg_bytes PS HS (zeros 12) (Zlen orig) (add_rec s n d) = seg_bytes PS HS (zeros 12) (Zlen orig) s ++ rec_bytes PS (sg_ck s) (n, d)).
    { unfold seg_bytes, add_rec. cbn [sg_ck sg_recs]. rewrite fmap_app, concat_app, <- app_assoc. cbn. rewrite app_nil_r. reflexivity. }
    rewrite Hb. apply stored_app. cbn [add_rec sg_hdr]. rewrite (seg_bytes_length PS HS SZ orig lengths small) by (exact S3 || reflexivity).
    replace (sg_hdr s + (seg_end PS HS s - sg_hdr s)) with (seg_end PS HS s) by lia. split.
    + apply rec_file_keeps; [exact S1| |lia]. rewrite (seg_bytes_length PS HS SZ orig lengths small) by (exact S3 || reflexivity). lia.
    + apply rec_file_stored; [lia|exact Hd].
  - cbn [add_rec sg_recs]. rewrite Zlen_app. unfold Zlen at 2. cbn. lia.
Qed.

Lemma base_added cs s n d p : base cs (Some s) p -> page_at orig n d -> ~ in_recs n (all_recs cs (Some s)) ->
  base cs (Some (add_rec s n d)) (added n d p).
Proof.
  intros B Hn Hi. pose proof (base_from_orig _ _ _ B) as Hall. destruct B as [B1 B2 B3 B4 B5 B6 B7 B8 B9 B10 B11 B12 B13].
  destruct B2 as (C1 & (C2 & C3 & C4 & C5) & C6 & C7 & C8 & C9). pose proof (page_at_len _ _ lengths _ _ Hn) as Hd. destruct SZ as [Z1 Z2 _ _].
  pose proof (logged_files _ _ _ _ B1) as (_ & Hc & _). pose proof (chain_end_nonneg PS HS SZ _ Hc) as He. pose proof (align_ge HS ltac:(lia) _ He).
  pose proof (seg_end_ge PS HS ltac:(lia) s ltac:(lia)).
  assert (Hrecs : all_recs cs (Some (add_rec s n d)) = all_recs cs (Some s) ++ [(n, d)]) by (unfold all_recs; cbn; rewrite app_assoc; reflexivity).
  assert (Hnd : NoDup (all_recs cs (Some (add_rec s n d))).*1).
  { rewrite Hrecs, fmap_app. apply NoDup_app. split_and!; [exact B3| |apply NoDup_singleton].
    intros x Hx Hx'. apply list_elem_of_singleton in Hx'. subst x. exact (Hi Hx). }
  assert (Hck : pager_cksum p d = cksum PS (sg_ck s) d) by (unfold pager_cksum; rewrite B5, C9; reflexivity).
  split; try assumption; unfold added; psimp.
  - rewrite B5, C6. apply logged_rec; assumption.
  - assert (Hcnt : Zlen (sg_recs s) + 1 < 2 ^ 32 - 1).
    { pose proof (recs_count _ B3 Hall) as Hk. unfold all_recs in Hk. rewrite Zlen_app in Hk. pose proof (Zlen_nonneg (seg_records cs)).
      pose proof (lock_page_bound PS HS SZ). cbn [open_recs] in Hk. lia. }
    split; [exact C1|]. psimp. rewrite B5, C6, Hck, add_rec_end. split; [apply open_added; [split_and!; assumption || apply C3|assumption|assumption]|].
    cbn [add_rec sg_hdr sg_ck sg_recs]. rewrite Zlen_app. unfold Zlen at 2. cbn [length]. split_and!; [lia|exact C7|lia|exact C9].
  - destruct B4 as (b & -> & Hb1 & Hb2). exists (bv_set n b). split_and!; [reflexivity|exact Hb1|]. intros k. cbn [bv_set bv_bits].
    rewrite Hrecs, in_recs_app, elem_of_union, Hb2, elem_of_singleton. unfold in_recs at 3. cbn. rewrite list_elem_of_singleton. tauto.
Qed.


(** ** Pages are read and written *)

Lemma file_page_length f n : Zlen (file_page PS f n) = PS.
Proof. destruct SZ as [Z1 _ _ _]. unfold file_page, Zlen. rewrite file_bytes_length. lia. Qed.

Lemma inv_got cs o p n : inv cs o p -> 1 <= n < lock_page PS -> inv cs o (got n p).
Proof.
  intros [[B1 B2 B3 B4 B5 B6 B7 B8 B9 B10 B11 B12 B13] K] Hn. split; [split; assumption|]. unfold cache_inv, got, gotten. psimp.
  destruct (pPCache p !! n) as [x|] eqn:Hx; [rewrite insert_id by exact Hx; exact K|]. destruct SZ as [Z1 _ _ _].
  apply cache_read; [exact K|exact Hx| |exact Hn|].
  - destruct (dbSize p <? n); [unfold zeros, Zlen; rewrite length_replicate; lia|rewrite B5; apply file_page_length].
  - intros Hd. rewrite (proj2 (Z.ltb_ge _ _)), B5 by lia. reflexivity.
Qed.

Lemma got_cache n p : pPCache (got n p) = <[n := gotten n p]> (pPCache p).
Proof. reflexivity. Qed.

Lemma base_subbed cs o n d p : base cs o p -> base cs o (subbed n d p).
Proof.
  intros [B1 B2 B3 B4 B5 B6 B7 B8 B9 B10 B11 B12 B13]. unfold subbed. destruct (subj_requires n (aSavepoint p)) as [[] l]; split; assumption.
Qed.

Lemma subbed_frame n d p : let q := subbed n d p in
  pPCache q = pPCache p /\ fd q = fd p /\ dbSize q = dbSize p /\ dbFileSize q = dbFileSize p /\ mxPgno q = mxPgno p /\ changeCountDone q = changeCountDone p.
Proof. unfold subbed. destruct (subj_requires n (aSavepoint p)) as [[] l]; split_and!; reflexivity. Qed.

(** The segment with the record of a page, if it is new there. *)
Definition with_rec (n : Z) (d : list Z) (p : Pager) (s : seg) : seg := if rec_new n p then add_rec s n d else s.

Lemma base_journaled cs s n x p : inv cs (Some s) p -> pPCache p !! n = Some x -> n <= dbSize p + 1 ->
  base cs (Some (with_rec n (pg_data x) p s)) (journaled n (pg_data x) p) /\
  (n <= Zlen orig -> in_recs n (all_recs cs (Some (with_rec n (pg_data x) p s)))).
Proof.
  intros [B K] Hx Hd. unfold with_rec, journaled, rec_new. destruct (c_cached _ _ _ _ _ _ K n x Hx) as (Hl & Hn & _). rewrite (b_origSize _ _ _ B).
  destruct (Z.leb_spec n (Zlen orig)) as [Ho|Ho]; [|rewrite andb_false_r; split; [exact B|lia]].
  rewrite (base_test _ _ _ _ B) by lia. destruct (bool_decide _) eqn:Hi; cbn [negb andb]; [apply bool_decide_eq_true in Hi; split; [exact B|intros _; exact Hi]|].
  apply bool_decide_eq_false in Hi.
  assert (Hp : page_at orig n (pg_data x)).
  { destruct (lookup_lt_is_Some_2 orig (Z.to_nat (n - 1))) as [b Hb]; [unfold Zlen in Ho; lia|].
    assert (Hpb : page_at orig n b) by (split; [lia|exact Hb]). replace (pg_data x) with b; [exact Hpb|].
    destruct (pg_dirty x) eqn:Hdx; [contradict Hi; exact (c_dirty _ _ _ _ _ _ K n x Hx Hdx Ho)|].
    rewrite (c_clean _ _ _ _ _ _ K n x Hx Hdx) by (pose proof (b_dbSize _ _ _ B); lia).
    symmetry. apply (logged_files _ _ _ _ (b_logged _ _ _ B)); [exact Hpb|]. intros Hy. apply Hi, in_recs_app. left. exact Hy. }
  split; [apply base_added; assumption|]. intros _. unfold all_recs. cbn. rewrite app_assoc. apply in_recs_app. right. apply list_elem_of_singleton. reflexivity.
Qed.

Lemma need_sync_open cs s n x p : inv cs (Some s) p -> pPCache p !! n = Some x ->
  in_recs n (sg_recs (with_rec n (pg_data x) p s)) -> need_sync n x p = true.
Proof.
  intros [B K] Hx Hi. unfold need_sync, with_rec, rec_new in *. rewrite (b_origSize _ _ _ B) in *.
  assert (Hopen : in_recs n (sg_recs s) -> sqlite3BitvecTest (pInJournal p) n = true /\ pg_needSync x = true).
  { intros Hs. assert (Ha : in_recs n (all_recs cs (Some s))) by (apply in_recs_app; right; exact Hs). split.
    - rewrite (base_test _ _ _ _ B); [apply bool_decide_eq_true_2; exact Ha|].
      unfold in_recs in Ha. apply list_elem_of_fmap in Ha as ([m d] & -> & Ha). exact (page_at_range _ _ _ (proj1 (Forall_forall _ _) (base_from_orig _ _ _ B) _ Ha)).
    - destruct (c_unsynced _ _ _ _ _ _ K n Hs) as (y & Hy & _ & Hn). congruence. }
  destruct (sqlite3BitvecTest (pInJournal p) n) eqn:Ht; cbn [negb andb] in Hi; [exact (proj2 (Hopen Hi))|].
  destruct (n <=? Zlen orig); [reflexivity|]. destruct (Hopen Hi) as [[=] _].
Qed.

Lemma inv_written cs s n x p : inv cs (Some s) p -> pPCache p !! n = Some x -> n <= dbSize p + 1 ->
  inv cs (Some (with_rec n (pg_data x) p s)) (written n x p).
Proof.
  intros I Hx Hd. destruct (base_journaled _ _ _ _ _ I Hx Hd) as [B' Hr]. pose proof (need_sync_open _ _ _ _ _ I Hx) as Hns.
  destruct I as [B K]. destruct (c_cached _ _ _ _ _ _ K n x Hx) as (Hl & Hn & _). unfold written.
  set (s' := with_rec n (pg_data x) p s) in *. set (y := dirty_page (need_sync n x p) x). pose proof (b_dbSize _ _ _ B).
  assert (Hf : let q := subbed n (pg_data x) (set_pPCache (<[n := y]> (pPCache p)) (journaled n (pg_data x) p)) in
    pPCache q = <[n := y]> (pPCache p) /\ fd q = fd p /\ dbFileSize q = dbFileSize p).
  { destruct (subbed_frame n (pg_data x) (set_pPCache (<[n := y]> (pPCache p)) (journaled n (pg_data x) p))) as (F1 & F2 & _ & F4 & _ & _).
    cbv zeta. rewrite F1, F2, F4. unfold journaled. destruct (rec_new n p); split_and!; reflexivity. }
  split.
  - assert (B2 : base cs (Some s') (subbed n (pg_data x) (set_pPCache (<[n := y]> (pPCache p)) (journaled n (pg_data x) p)))).
    { apply base_subbed. destruct B' as [B1 B2 B3 B4 B5 B6 B7 B8 B9 B10 B11 B12 B13]. split; assumption. }
    destruct B2 as [B1 B2 B3 B4 B5 B6 B7 B8 B9 B10 B11 B12 B13]. split; try assumption; psimp; [lia|]. split; [apply B13|]. destruct Hf as (_ & _ & ->). pose proof (proj2 (b_fileSize _ _ _ B)). lia.
  - destruct Hf as (F1 & F2 & F3). unfold cache_inv. psimp. rewrite F1, F2, F3.
    apply cache_write with (o := Some s); try assumption; try reflexivity.
    + intros k Hk. unfold s', with_rec. destruct (rec_new n p); [|exact Hk]. unfold all_recs in *. cbn. rewrite app_assoc. apply in_recs_app. left. exact Hk.
    + intros k. unfold s', with_rec. destruct (rec_new n p); [|auto]. cbn [open_recs add_rec sg_recs]. rewrite in_recs_app. intros [Hk|Hk]; [auto|].
      apply list_elem_of_singleton in Hk. auto.
Qed.

(** The segment after a page was made writeable. *)
Definition touch_seg (n : Z) (x : PgHdr) (p : Pager) (s : seg) : seg :=
  if pg_writeable x && (n <=? dbSize p) then s else with_rec n (pg_data x) p s.

Lemma inv_touched cs s n x p : inv cs (Some s) p -> pPCache p !! n = Some x -> n <= dbSize p + 1 ->
  inv cs (Some (touch_seg n x p s)) (touched n x p).
Proof.
  intros I Hx Hd. unfold touch_seg, touched. destruct (_ && _); [|apply inv_written; assumption].
  destruct I as [B K]. split; [apply base_subbed, B|]. unfold cache_inv.
  destruct (subbed_frame n (pg_data x) p) as (-> & -> & -> & -> & _ & _). exact K.
Qed.

(** The page is dirty then, with the same data. *)
Lemma touched_page cs s n x p : inv cs (Some s) p -> pPCache p !! n = Some x ->
  exists y, pPCache (touched n x p) = <[n := y]> (pPCache p) /\ pg_dirty y = true /\ pg_data y = pg_data x /\ pg_dontWrite y = false
    /\ fd (touched n x p) = fd p /\ dbSize (touched n x p) = Z.max (dbSize p) n /\ dbFileSize (touched n x p) = dbFileSize p
    /\ mxPgno (touched n x p) = mxPgno p /\ changeCountDone (touched n x p) = changeCountDone p.
Proof.
  intros [B K] Hx. destruct (c_cached _ _ _ _ _ _ K n x Hx) as (_ & _ & Hw). unfold touched. destruct (pg_writeable x && (n <=? dbSize p)) eqn:Hb.
  - apply andb_true_iff in Hb as [Hb1 Hb2]. apply Z.leb_le in Hb2. exists x.
    destruct (subbed_frame n (pg_data x) p) as (-> & -> & -> & -> & -> & ->). rewrite insert_id by exact Hx.
    split_and!; try reflexivity; [exact (c_writeable _ _ _ _ _ _ K n x Hx Hb1)|exact Hw|lia].
  - exists (dirty_page (need_sync n x p) x). unfold written. psimp.
    lazymatch goal with |- context [subbed n (pg_data x) ?q] => destruct (subbed_frame n (pg_data x) q) as (-> & -> & _ & -> & -> & ->) end.
    unfold journaled. destruct (rec_new n p); split_and!; reflexivity.
Qed.

(** The contents of a dirty page change. *)
Definition put_data (n : Z) (d : list Z) (p : Pager) : Pager := set_pPCache (alter (pg_set_data d) n (pPCache p)) p.

Lemma inv_put cs o n d p x : inv cs o p -> pPCache p !! n = Some x -> pg_dirty x = true -> n <= dbSize p -> Zlen d = PS -> inv cs o (put_data n d p).
Proof.
  intros [[B1 B2 B3 B4 B5 B6 B7 B8 B9 B10 B11 B12 B13] K] Hx Hd Hn Hl. split; [split; assumption|]. unfold cache_inv, put_data. psimp.
  destruct (c_cached _ _ _ _ _ _ K n x Hx) as (_ & Hr & Hw). rewrite (alter_present _ _ _ _ Hx). rewrite <- (Z.max_l (dbSize p) n) by lia.
  apply cache_write with (o := o); auto; [lia|exact (c_dirty _ _ _ _ _ _ K n x Hx Hd)|].
  intros Ho. destruct (c_unsynced _ _ _ _ _ _ K n Ho) as (y & Hy & _ & Hs). cbn. congruence.
Qed.

(** ** The journal is synced *)

Lemma not_magic_short f h : file_wf f -> f_size f < h + 8 -> ~ magic_at f h.
Proof. intros [_ Hw] Hs Hm. specialize (Hm 7%nat 0xd7 eq_refl). rewrite Hw in Hm by lia. discriminate. Qed.

Lemma unstale_dead p : file_wf (journal p) -> ~ magic_at (unstale_file HS p) (align HS (journalOff p)).
Proof.
  intros Hw. unfold unstale_file, stale. cbv zeta. destruct (Z.leb_spec (align HS (journalOff p) + 8) (f_size (journal p))) as [Hs|Hs]; cbn [andb].
  - destruct (bool_decide _) eqn:Hb.
    + intros Hm. apply magic_first in Hm. rewrite write_byte, (proj2 (Z.leb_le _ _)), (proj2 (Z.ltb_lt _ _)), Z.sub_diag in Hm by (unfold Zlen; cbn; lia). discriminate.
    + apply bool_decide_eq_false in Hb. rewrite <- magic_bytes. exact Hb.
  - apply not_magic_short; [exact Hw|lia].
Qed.

Lemma open_ok_write j s off bs : open_ok PS HS orig j s -> seg_end PS HS s <= off -> open_ok PS HS orig (file_write j off bs) s.
Proof.
  intros (S1 & S2 & S3 & S4) Ho. refine (conj _ (conj S2 (conj S3 S4))). apply write_keeps; [exact S1|].
  right. rewrite (seg_bytes_length PS HS SZ orig lengths small) by (exact S3 || reflexivity). lia.
Qed.

Lemma logged_synced cs s p : base cs (Some s) p -> logged (cs ++ [s]) (log (jsynced HS p)) (fd p) (journal (jsynced HS p)).
Proof.
  intros [B1 B2 _ _ _ _ _ _ _ _ _ _ _]. destruct B2 as (C1 & C2 & C6 & C7 & C8 & C9). destruct SZ as [Z1 Z2 _ _].
  pose proof (logged_files _ _ _ _ B1) as (Hw & Hc & _). pose proof (chain_end_nonneg PS HS SZ _ Hc) as He. pose proof (align_ge HS ltac:(lia) _ He).
  pose proof (seg_end_ge PS HS ltac:(lia) s ltac:(lia)). pose proof (align_ge HS ltac:(lia) (seg_end PS HS s) ltac:(lia)).
  assert (L1 : logged cs (log p ++ unstale_log HS p) (fd p) (unstale_file HS p) /\ open_ok PS HS orig (unstale_file HS p) s).
  { unfold unstale_log, unstale_file. destruct (stale HS p); [|rewrite app_nil_r; auto]. rewrite C6.
    split; [apply logged_jwrite; [exact B1|lia|right; left; lia]|apply open_ok_write; [exact C2|lia]]. }
  destruct L1 as [L1 Hopen]. apply logged_jsync in L1.
  pose proof (unstale_dead p Hw) as Hd. rewrite C6 in Hd.
  assert (Hops : df_ops (d_jrnl (disk_after d0 ((log p ++ unstale_log HS p) ++ [EvSync Jrnl]))) = []) by (rewrite disk_after_snoc; reflexivity).
  pose proof (logged_close _ _ _ _ s L1 Hops Hopen C1 Hd) as L2.
  unfold jsynced. psimp. rewrite C7, C8. rewrite <- !app_assoc in L2. exact L2.
Qed.

(** The header of a new segment. *)
Definition new_seg (cs : list seg) (ck : Z) : seg := mkSeg (align HS (end_of PS HS cs)) ck [].

Lemma logged_headed cs l f j ck : logged cs l f j -> 0 <= ck < 2 ^ 32 ->
  let h := hdr_bytes PS HS (zeros 12) ck (Zlen orig) in let off := align HS (end_of PS HS cs) in
  logged cs (l ++ [EvWrite Jrnl off h]) f (file_write j off h) /\ open_ok PS HS orig (file_write j off h) (new_seg cs ck).
Proof.
  intros L Hck h off. destruct SZ as [Z1 Z2 _ _]. pose proof (logged_files _ _ _ _ L) as (Hw & Hc & _).
  pose proof (chain_end_nonneg PS HS SZ _ Hc) as He. pose proof (align_ge HS ltac:(lia) _ He). fold off in H.
  assert (Hl : Zlen h = HS) by (apply (hdr_length PS HS SZ); reflexivity). split.
  - apply logged_jwrite; [exact L|exact H|]. right. right. fold off. rewrite Hl. split; [lia|]. rewrite Z.sub_diag. reflexivity.
  - split_and!; [|exact (proj1 Hck)|exact (proj2 Hck)|constructor|reflexivity]. unfold new_seg, seg_bytes. cbn [sg_hdr sg_ck sg_recs fmap list_fmap concat].
    rewrite app_nil_r. apply write_stored; [lia|]. intros Hn. unfold h in Hl. rewrite Hn in Hl. unfold Zlen in Hl. cbn in Hl. lia.
Qed.

Lemma all_recs_close cs s o : open_recs o = [] -> all_recs (cs ++ [s]) o = all_recs cs (Some s).
Proof. intros Ho. unfold all_recs. rewrite Ho, app_nil_r, seg_records_app. unfold seg_records at 2. cbn. rewrite app_nil_r. reflexivity. Qed.

Lemma end_of_app cs s : end_of PS HS (cs ++ [s]) = seg_end PS HS s.
Proof. apply end_app. Qed.

Lemma inv_synced cs s p : inv cs (Some s) p -> inv (cs ++ [s]) None (unlocked_pages (jsynced HS p)).
Proof.
  intros [B K]. pose proof (logged_synced _ _ _ B) as L. destruct B as [B1 B2 B3 B4 B5 B6 B7 B8 B9 B10 B11 B12 B13].
  destruct B2 as (C1 & C2 & C6 & C7 & C8 & C9). pose proof (all_recs_close cs s None eq_refl) as Ha. split.
  - split; rewrite ?Ha; [exact L|..]; unfold cursor, unlocked_pages, jsynced; psimp; try assumption.
    + rewrite end_of_app. split; exact C6.
    + split; discriminate.
    + right. split; [left; reflexivity|]. intros Hx. apply app_nil in Hx as [_ [=]].
  - unfold cache_inv, unlocked_pages, jsynced. psimp. apply cache_sync; [reflexivity|exact K].
Qed.

Lemma inv_resynced cs s p ck : inv cs (Some s) p -> 0 <= ck < 2 ^ 32 ->
  inv (cs ++ [s]) (Some (new_seg (cs ++ [s]) ck)) (unlocked_pages (headed PS HS ck (set_nRec 0 (jsynced HS p)))).
Proof.
  intros [B K] Hck. pose proof (logged_synced _ _ _ B) as L. destruct B as [B1 B2 B3 B4 B5 B6 B7 B8 B9 B10 B11 B12 B13].
  destruct B2 as (C1 & C2 & C6 & C7 & C8 & C9). pose proof (all_recs_close cs s (Some (new_seg (cs ++ [s]) ck)) eq_refl) as Ha.
  destruct (logged_headed _ _ _ _ ck L Hck) as [L' Ho]. cbv zeta in L', Ho. rewrite end_of_app, <- C6, <- B11 in L', Ho. split.
  - split; rewrite ?Ha; [exact L'|..]; unfold cursor, unlocked_pages, headed; psimp; [|unfold jsynced; psimp; try assumption..].
    + change (journalOff (jsynced HS p)) with (journalOff p). refine (conj eq_refl (conj Ho _)).
      unfold new_seg, seg_end. cbn [sg_hdr sg_recs sg_ck]. rewrite end_of_app, <- C6. unfold Zlen. cbn. split_and!; reflexivity || lia.
    + split; discriminate.
    + right. split; [left; reflexivity|]. intros Hx. apply app_nil in Hx as [_ [=]].
  - unfold cache_inv, unlocked_pages, headed, jsynced. psimp. apply cache_sync; [reflexivity|exact K].
Qed.

(** ** Pages are written to the file *)

Lemma cache_flush cs o ds fs f m n x d : cache_ok cs o ds fs f m -> m !! n = Some x -> Zlen d = PS ->
  cache_ok cs o ds (Z.max fs n) (file_write f ((n - 1) * PS) d) (<[n := pg_set_data d x]> m).
Proof.
  intros [K1 K2 K3 K4 K5 K6] Hx Hd. destruct SZ as [Z1 _ _ _]. destruct (K2 n x Hx) as (_ & Hr & Hw). split.
  - intros k Hk. destruct (K1 k Hk) as [H|(y & Hy & Hdy)]; [left; lia|]. destruct (decide (k = n)) as [->|Hkn]; [left; lia|right].
    exists y. rewrite lookup_insert_ne by congruence. auto.
  - intros k y Hy. apply lookup_insert_Some in Hy as [[<- <-]|[_ Hy]]; [auto|exact (K2 k y Hy)].
  - intros k y Hy. apply lookup_insert_Some in Hy as [[<- <-]|[Hkn Hy]]; intros Hc Hk.
    + symmetry. apply file_page_write_same; [lia|exact Hd].
    + rewrite file_page_write_other by (congruence || lia). exact (K3 k y Hy Hc Hk).
  - intros k y Hy. apply lookup_insert_Some in Hy as [[<- <-]|[_ Hy]]; [exact (K4 n x Hx)|exact (K4 k y Hy)].
  - intros k Hk. destruct (K5 k Hk) as (y & Hy & H). destruct (decide (k = n)) as [->|Hkn].
    + exists (pg_set_data d x). rewrite lookup_insert_eq. split; [reflexivity|]. cbn. congruence.
    + exists y. rewrite lookup_insert_ne by congruence. auto.
  - intros k y Hy. apply lookup_insert_Some in Hy as [[<- <-]|[_ Hy]]; [exact (K6 n x Hx)|exact (K6 k y Hy)].
Qed.

Lemma cache_made_clean cs o ds fs f m n x : cache_ok cs o ds fs f m -> m !! n = Some x -> (n <= ds -> pg_data x = file_page PS f n /\ n <= fs) ->
  ~ in_recs n (open_recs o) -> cache_ok cs o ds fs f (<[n := sqlite3PcacheMakeClean x]> m).
Proof.
  intros [K1 K2 K3 K4 K5 K6] Hx Hf Ho. destruct (K2 n x Hx) as (Hl & Hr & Hw). split.
  - intros k Hk. destruct (K1 k Hk) as [H|(y & Hy & Hdy)]; [left; lia|]. destruct (decide (k = n)) as [->|Hkn]; [left; apply Hf; lia|right].
    exists y. rewrite lookup_insert_ne by congruence. auto.
  - intros k y Hy. apply lookup_insert_Some in Hy as [[<- <-]|[_ Hy]]; [auto|exact (K2 k y Hy)].
  - intros k y Hy. apply lookup_insert_Some in Hy as [[<- <-]|[Hkn Hy]]; [intros _ Hk; apply Hf, Hk|exact (K3 k y Hy)].
  - intros k y Hy. apply lookup_insert_Some in Hy as [[<- <-]|[_ Hy]]; [discriminate|exact (K4 k y Hy)].
  - intros k Hk. destruct (K5 k Hk) as (y & Hy & H). exists y. rewrite lookup_insert_ne by congruence. auto.
  - intros k y Hy. apply lookup_insert_Some in Hy as [[<- <-]|[_ Hy]]; [discriminate|exact (K6 k y Hy)].
Qed.

Lemma put_at_length off bs d : (off + length bs <= length d)%nat -> length (put_at off bs d) = length d.
Proof. intros H. unfold put_at. rewrite !length_app, length_take, length_drop. lia. Qed.

Lemma changecounter_length v d : Zlen d = PS -> Zlen (pager_write_changecounter v d) = PS.
Proof.
  intros Hd. destruct SZ as [Z1 _ _ _]. unfold pager_write_changecounter, Zlen in *.
  assert (H1 : forall v, length (put_at 24 (put32bits v) d) = length d) by (intros; apply put_at_length; cbn; lia).
  assert (H2 : forall v v', length (put_at 92 (put32bits v') (put_at 24 (put32bits v) d)) = length d)
    by (intros; rewrite put_at_length; rewrite H1; cbn; lia).
  rewrite put_at_length; rewrite H2; cbn; lia.
Qed.

Lemma out_data_length n x p : Zlen (pg_data x) = PS -> Zlen (out_data n x p) = PS.
Proof. intros H. unfold out_data. destruct (n =? 1); [apply changecounter_length, H|exact H]. Qed.

Lemma inv_flushed cs o p n x : inv cs o p -> cs <> [] -> pPCache p !! n = Some x -> pg_dirty x = true -> ~ in_recs n (open_recs o) -> n <= dbSize p ->
  inv cs o (flushed n x p).
Proof.
  intros [[B1 B2 B3 B4 B5 B6 B7 B8 B9 B10 B11 B12 B13] K] Hc Hx Hdx Ho Hds. destruct (c_cached _ _ _ _ _ _ K n x Hx) as (Hl & Hr & Hw).
  pose proof (out_data_length n x p Hl) as Hd. destruct SZ as [Z1 _ _ _]. split.
  - split; try exact B2; unfold flushed; psimp; try assumption; rewrite B5.
    + apply logged_dwrite; [exact B1|exact Hc|lia|exact Hd|]. destruct (Z.le_gt_cases n (Zlen orig)) as [Hn|Hn]; [left|right; lia].
      pose proof (c_dirty _ _ _ _ _ _ K n x Hx Hdx Hn) as Hi. apply in_recs_app in Hi as [Hi|Hi]; [exact Hi|contradiction].
    + destruct B13 as [B13 B14]. split; [|lia]. rewrite write_size by (intros He; rewrite He in Hd; unfold Zlen in Hd; cbn in Hd; lia). rewrite Hd, B13. nia.
  - unfold cache_inv, flushed. psimp. rewrite B5. apply cache_flush; assumption.
Qed.

(** A page is spilled. *)
Lemma inv_spilled cs o p n x : inv cs o p -> cs <> [] -> pPCache p !! n = Some x -> pg_dirty x = true -> ~ in_recs n (open_recs o) ->
  inv cs o (cleaned n (flush p n)).
Proof.
  intros I Hc Hx Hdx Ho. assert (Hw : pg_dontWrite x = false) by apply (c_cached _ _ _ _ _ _ (proj2 I) n x Hx).
  assert (Hpsz : pageSize p = PS) by apply (proj1 I).
  destruct SZ as [Z1 _ _ _]. pose proof (c_cached _ _ _ _ _ _ (proj2 I) n x Hx) as (Hl & Hr & _). pose proof (out_data_length n x p Hl) as Hlo.
  unfold flush. rewrite Hx, Hw. cbn [negb]. rewrite andb_true_r. destruct (Z.leb_spec n (dbSize p)) as [Hn|Hn].
  - pose proof (inv_flushed _ _ _ _ _ I Hc Hx Hdx Ho Hn) as [[B1 B2 B3 B4 B5 B6 B7 B8 B9 B10 B11 B12 B13] K].
    assert (Hy : pPCache (flushed n x p) !! n = Some (pg_set_data (out_data n x p) x)) by apply lookup_insert_eq.
    split; [split; assumption|]. unfold cache_inv, cleaned. psimp. rewrite (alter_present _ _ _ _ Hy).
    apply cache_made_clean; [exact K|exact Hy| |exact Ho]. intros _. unfold flushed. psimp. rewrite Hpsz. split; [|lia]. symmetry.
    apply file_page_write_same; [lia|exact Hlo].
  - destruct I as [[B1 B2 B3 B4 B5 B6 B7 B8 B9 B10 B11 B12 B13] K]. split; [split; assumption|]. unfold cache_inv, cleaned. psimp. rewrite (alter_present _ _ _ _ Hx).
    apply cache_made_clean; [exact K|exact Hx|lia|exact Ho].
Qed.

End Inv.
