(* ===== verification/PagerCommit.v ===== *)
(** * The pager: the operations of a transaction and its commit

    A transaction reads and writes pages, and its cache spills and drops pages; the contents it
    shows are those of the pages written last.  A transaction that commits writes its pages to
    the file, syncs them, and makes the journal useless: until then a crash leads back to
    the original pages, and after it to the new ones. *)
From stdpp Require Import gmap sorting.
From S2P Require Import Prelude Value Record Savepoint Pager PagerJournal PagerOps PagerRun PagerRecovery PagerCrash PagerTxn PagerInv.

Local Open Scope Z_scope.

(** ** Contents *)

Section View.
Context (PS : Z) (PS0 : 512 <= PS).

Lemma lookup_put_at off bs d i : (off + length bs <= length d)%nat ->
  put_at off bs d !! i = if decide (off <= i < off + length bs)%nat then bs !! (i - off)%nat else d !! i.
Proof.
  intros H. unfold put_at. destruct (decide (i < off)%nat) as [Hi|Hi].
  - rewrite lookup_app_l by (rewrite length_take; lia). rewrite lookup_take_lt by exact Hi. rewrite decide_False by lia. reflexivity.
  - rewrite lookup_app_r by (rewrite length_take; lia). rewrite length_take, Nat.min_l by lia. destruct (decide (i < off + length bs)%nat) as [Hb|Hb].
    + rewrite lookup_app_l by lia. rewrite decide_True by lia. reflexivity.
    + rewrite lookup_app_r, lookup_drop by lia. rewrite decide_False by lia. f_equal. lia.
Qed.

Lemma lookup_norm d i : (100 <= length d)%nat -> norm 1 d !! i =
  if decide (24 <= i < 28)%nat then zeros 4 !! (i - 24)%nat else if decide (92 <= i < 100)%nat then zeros 8 !! (i - 92)%nat else d !! i.
Proof.
  intros Hd. unfold norm. change (1 =? 1) with true. cbv iota. pose proof (eq_refl : length (zeros 8) = 8%nat) as H8. pose proof (eq_refl : length (zeros 4) = 4%nat) as H4.
  rewrite lookup_put_at by (rewrite put_at_length; lia). rewrite lookup_put_at by lia. rewrite H8, H4. reflexivity.
Qed.

(** The change counter is not part of the contents. *)
Lemma norm_changecounter v d : Zlen d = PS -> norm 1 (pager_write_changecounter v d) = norm 1 d.
Proof.
  intros Hd. unfold pager_write_changecounter, Zlen in *. set (b := put32bits SQLITE_VERSION_NUMBER). set (a := put32bits _).
  assert (La : length a = 4%nat) by reflexivity. assert (Lb : length b = 4%nat) by reflexivity. clearbody a b.
  assert (L1 : length (put_at 24 a d) = length d) by (apply put_at_length; lia).
  assert (L2 : length (put_at 92 a (put_at 24 a d)) = length d) by (rewrite put_at_length; lia).
  assert (L3 : length (put_at 96 b (put_at 92 a (put_at 24 a d))) = length d) by (rewrite put_at_length; lia).
  apply list_eq. intros i. rewrite !lookup_norm by lia.
  destruct (decide (24 <= i < 28)%nat); [reflexivity|]. destruct (decide (92 <= i < 100)%nat); [reflexivity|].
  rewrite !lookup_put_at by lia. rewrite La, Lb, !decide_False by lia. reflexivity.
Qed.

Lemma page_of_ext p q n : pPCache p !! n = pPCache q !! n -> fd p = fd q -> page_of PS p n = page_of PS q n.
Proof. intros H1 H2. unfold page_of. rewrite H1, H2. reflexivity. Qed.

(** Two pagers show the same. *)
Lemma view_ext p q : dbSize p = dbSize q -> (forall n, 1 <= n <= dbSize p -> norm n (page_of PS p n) = norm n (page_of PS q n)) -> view PS p = view PS q.
Proof.
  intros Hs H. unfold view, undo. rewrite <- Hs. apply list_fmap_ext. intros i n Hi. apply lookup_seqZ in Hi as [-> Hi]. cbn [first default]. apply H. lia.
Qed.

(** A page of the contents is replaced, or added at the end. *)
Definition put_page (n : Z) (d : list Z) (c : list (list Z)) : list (list Z) :=
  if n <=? Zlen c then <[Z.to_nat (n - 1) := d]> c else c ++ [d].

Lemma view_length p : 0 <= dbSize p -> Zlen (view PS p) = dbSize p.
Proof. intros H. unfold view, undo, Zlen. rewrite length_fmap, length_seqZ. lia. Qed.

Lemma view_lookup p n : 1 <= n <= dbSize p -> view PS p !! Z.to_nat (n - 1) = Some (norm n (page_of PS p n)).
Proof.
  intros H. unfold view, undo. rewrite list_lookup_fmap, lookup_seqZ_lt by lia. cbn [fmap option_fmap option_map first default].
  replace (1 + Z.of_nat (Z.to_nat (n - 1))) with n by lia. reflexivity.
Qed.

Lemma view_put p q n d : 0 <= dbSize p -> 1 <= n <= dbSize p + 1 -> dbSize q = Z.max (dbSize p) n -> page_of PS q n = d ->
  (forall k, 1 <= k <= dbSize p -> k <> n -> norm k (page_of PS q k) = norm k (page_of PS p k)) ->
  view PS q = put_page n (norm n d) (view PS p).
Proof.
  intros H0 Hn Hs Hd Hk. unfold put_page. rewrite view_length by exact H0. pose proof (view_length p H0) as Hlp. pose proof (view_length q ltac:(lia)) as Hlq.
  unfold Zlen in Hlp, Hlq. apply list_eq. intros i. destruct (decide (i < length (view PS q))%nat) as [Hi|Hi].
  - replace i with (Z.to_nat ((Z.of_nat i + 1) - 1)) at 1 by lia. rewrite view_lookup by lia.
    destruct (Z.leb_spec n (dbSize p)) as [Hle|Hle].
    + destruct (decide (Z.to_nat (n - 1) = i)) as [He|He].
      * rewrite He, list_lookup_insert_eq by lia. replace (Z.of_nat i + 1) with n by lia. rewrite Hd. reflexivity.
      * rewrite list_lookup_insert_ne by exact He. replace i with (Z.to_nat ((Z.of_nat i + 1) - 1)) at 3 by lia. rewrite view_lookup by lia. f_equal. apply Hk; lia.
    + destruct (decide (Z.of_nat i = dbSize p)) as [He|He].
      * rewrite lookup_app_r by lia. replace (i - length (view PS p))%nat with 0%nat by lia. replace (Z.of_nat i + 1) with n by lia. rewrite Hd. reflexivity.
      * rewrite lookup_app_l by lia. replace i with (Z.to_nat ((Z.of_nat i + 1) - 1)) at 3 by lia. rewrite view_lookup by lia. f_equal. apply Hk; lia.
  - rewrite !lookup_ge_None_2; [reflexivity| |lia]. destruct (n <=? dbSize p) eqn:Hle.
    + apply Z.leb_le in Hle. rewrite length_insert. lia.
    + apply Z.leb_gt in Hle. rewrite length_app. cbn. lia.
Qed.

End View.

Section Script.
Context (e : PagerEnv) (Q : quiet e) (C : config_ok e) (PS HS : Z) (SZ : sizes_ok PS HS) (HP : HS <= PS).
Context (orig : list (list Z)) (lengths : Forall (fun d => Zlen d = PS) orig) (small : Zlen orig < lock_page PS) (d0 : disk).

Local Abbreviation inv := (inv PS HS orig d0).
Local Abbreviation logged := (logged PS HS orig d0).

(** ** Operations *)

(** A page is read, made writeable and changed. *)
Definition write_page (n : Z) (d : list Z) : pg Z :=
  sqlite3PagerGet e n false ?; sqlite3PagerWrite e n ?; (modify (put_data n d);; mret SQLITE_OK).

(** A page of the cache is needed for something else: a dirty one is spilled, a clean one dropped. *)
Definition recycle_page (n : Z) : pg Z :=
  p ← get id;
  match pPCache p !! n with
  | Some x => if pg_dirty x then pagerStress e n else modify (fun p => set_pPCache (delete n (pPCache p)) p);; mret SQLITE_OK
  | None => mret SQLITE_OK
  end.

(** ** The size of the journal *)

(** Nothing is left in the journal of earlier transactions. *)
Definition tight (p : Pager) : Prop := f_size (journal p) = journalOff p.

Lemma rec_file_size f off n d ck : Zlen d = PS -> f_size f <= off -> f_size (rec_file PS f off n d ck) = off + PS + 8.
Proof.
  intros Hd Hf. destruct SZ as [Z1 _ _ _]. unfold rec_file. rewrite !write_size; [rewrite !put32_length; lia|discriminate| |discriminate].
  intros ->. unfold Zlen in Hd. cbn in Hd. lia.
Qed.

Lemma tight_subbed n d p : tight (subbed n d p) <-> tight p.
Proof. unfold tight, subbed. destruct (subj_requires n (aSavepoint p)) as [[] l]; reflexivity. Qed.

Lemma tight_touched n x p : pageSize p = PS -> Zlen (pg_data x) = PS -> tight p -> tight (touched n x p).
Proof.
  intros Hp Hx Ht. unfold touched. destruct (_ && _); [apply tight_subbed, Ht|]. unfold written.
  change (tight (subbed n (pg_data x) (set_pPCache (<[n := dirty_page (need_sync n x p) x]> (pPCache p)) (journaled n (pg_data x) p)))).
  apply tight_subbed. unfold tight, journaled in *. destruct (rec_new n p); [|exact Ht]. unfold added. psimp. rewrite Hp, rec_file_size by (assumption || lia). lia.
Qed.

Lemma tight_headed ck p : f_size (journal p) <= align HS (journalOff p) -> tight (headed PS HS ck p).
Proof.
  intros Ht. unfold tight, headed. psimp. pose proof (hdr_length PS HS SZ (zeros 12) ck (dbOrigSize p) eq_refl) as Hl. destruct SZ as [Z1 Z2 _ _].
  rewrite write_size; [rewrite Hl; lia|]. intros He. rewrite He in Hl. unfold Zlen in Hl. cbn in Hl. lia.
Qed.

Lemma tight_unlocked p : tight p -> tight (unlocked_pages p).
Proof. unfold tight, unlocked_pages. psimp. exact id. Qed.

Lemma tight_opened ck p : f_size (journal p) = 0 -> tight (opened PS HS ck p).
Proof.
  intros Hz. unfold tight, opened, headed, started. psimp. change (align HS 0) with 0. pose proof (hdr_length PS HS SZ (zeros 12) ck (dbOrigSize p) eq_refl) as Hl.
  destruct SZ as [Z1 Z2 _ _]. rewrite write_size; [rewrite Hl; lia|]. intros He. rewrite He in Hl. unfold Zlen in Hl. cbn in Hl. lia.
Qed.

Lemma tight_put n d p : tight p -> tight (put_data n d p).
Proof. unfold tight, put_data. psimp. exact id. Qed.

Lemma tight_got n p : tight p -> tight (got n p).
Proof. unfold tight, got. psimp. exact id. Qed.

Lemma tight_synced p : tight p -> 0 <= journalOff p -> 0 <= journalHdr p -> journalHdr p + HS <= journalOff p -> f_size (journal (jsynced HS p)) = journalOff p.
Proof.
  intros Ht H0 H1 H2. destruct SZ as [Z1 Z2 _ _]. pose proof (align_ge HS ltac:(lia) _ H0). unfold tight in Ht. unfold jsynced. psimp. unfold unstale_file, stale.
  rewrite (proj2 (Z.leb_gt _ _)) by lia. cbn [andb]. rewrite write_size by discriminate. rewrite Zlen_app, put32_length. change (Zlen aJournalMagic) with 8. lia.
Qed.

(** ** A transaction that has written *)

Lemma got_view n p : pageSize p = PS -> view PS (got n p) = view PS p.
Proof.
  intros Hp. apply view_ext; [reflexivity|]. change (dbSize (got n p)) with (dbSize p). intros k Hk. f_equal. unfold page_of. change (fd (got n p)) with (fd p).
  rewrite got_cache. destruct (decide (k = n)) as [->|Hkn]; [|rewrite lookup_insert_ne by congruence; reflexivity].
  rewrite lookup_insert_eq. unfold gotten. destruct (pPCache p !! n); [reflexivity|]. rewrite (proj2 (Z.ltb_ge _ _)), Hp by lia. reflexivity.
Qed.

(** The contents after a page was written. *)
Lemma put_view cs s n x d p : inv cs (Some s) p -> pPCache p !! n = Some x -> 1 <= n <= dbSize p + 1 ->
  view PS (put_data n d (touched n x p)) = put_page n (norm n d) (view PS p).
Proof.
  intros I Hx Hn. destruct (touched_page PS HS orig d0 cs s n x p I Hx) as (y & T1 & T2 & T3 & T4 & T5 & T6 & _).
  pose proof (b_dbSize _ _ _ _ _ _ _ (proj1 I)). pose proof (Zlen_nonneg orig).
  assert (Hc : pPCache (put_data n d (touched n x p)) = <[n := pg_set_data d y]> (pPCache p)).
  { unfold put_data. psimp. rewrite T1, (alter_present _ _ _ _ (lookup_insert_eq _ _ _)), insert_insert_eq. reflexivity. }
  apply view_put; [lia|exact Hn|exact T6|unfold page_of; rewrite Hc, lookup_insert_eq; reflexivity|].
  intros k Hk Hkn. f_equal. apply page_of_ext; [rewrite Hc; apply lookup_insert_ne; congruence|exact T5].
Qed.

Lemma runs_write_page cs s n d p : inv cs (Some s) p -> 1 <= n <= dbSize p + 1 -> n < lock_page PS -> n <= mxPgno p ->
  runs (write_page n d) p SQLITE_OK (put_data n d (touched n (gotten n p) (got n p))).
Proof.
  intros I Hn Hl Hm. pose proof I as [[B1 B2 B3 B4 B5 B6 B7 B8 B9 B10 B11 B12 B13] K]. destruct B4 as (b & Hb & _). unfold write_page.
  step (runs_got e Q); [exact B7|lia|unfold PAGER_SJ_PGNO; rewrite B5; fold (lock_page PS); lia|].
  step (runs_touched e Q).
  - rewrite got_cache. apply lookup_insert_eq.
  - exact Hb.
  - change (eState (got n p)) with (eState p). destruct B10 as [[-> _]|[[->| ->] _]]; discriminate.
  - apply (cf_off e C).
  - exact B7.
  - change (sectorSize (got n p)) with (sectorSize p). change (pageSize (got n p)) with (pageSize p). lia.
  - ret.
Qed.

Lemma write_page_inv cs s n d p : inv cs (Some s) p -> 1 <= n <= dbSize p + 1 -> n < lock_page PS -> n <= mxPgno p -> Zlen d = PS ->
  wp (write_page n d) p (fun rc p' => rc = SQLITE_OK /\ (exists s', inv cs (Some s') p') /\ view PS p' = put_page n (norm n d) (view PS p) /\ mxPgno p' = mxPgno p
    /\ (tight p -> tight p')).
Proof.
  intros I Hn Hl Hm Hd. eapply wp_runs; [exact (runs_write_page _ _ _ _ _ I Hn Hl Hm)|].
  pose proof (inv_got PS HS SZ orig d0 _ _ _ n I ltac:(lia)) as Ig. assert (Hx : pPCache (got n p) !! n = Some (gotten n p)) by apply lookup_insert_eq.
  pose proof (inv_touched PS HS SZ orig lengths small d0 _ _ _ _ _ Ig Hx (proj2 Hn)) as It.
  destruct (touched_page PS HS orig d0 _ _ _ _ _ Ig Hx) as (y & T1 & T2 & T3 & T4 & T5 & T6 & T7 & T8 & _).
  split; [reflexivity|]. split; [|split; [|split]].
  - eexists. eapply inv_put; [exact It|rewrite T1; apply lookup_insert_eq|exact T2|rewrite T6; lia|exact Hd].
  - rewrite (put_view _ _ _ _ _ _ Ig Hx) by exact Hn. rewrite got_view by apply I. reflexivity.
  - exact T8.
  - intros Ht. apply tight_put, tight_touched; [apply Ig|apply (c_cached _ _ _ _ _ _ _ _ (proj2 Ig) _ _ Hx)|apply tight_got, Ht].
Qed.

Lemma cleared_view p q : dbSize q = dbSize p -> fd q = fd p -> pPCache q = sqlite3PcacheClearSyncFlags (pPCache p) -> view PS q = view PS p.
Proof.
  intros H1 H2 H3. apply view_ext; [exact H1|]. intros k _. f_equal. unfold page_of. rewrite H2, H3. unfold sqlite3PcacheClearSyncFlags, on_dirty.
  rewrite lookup_fmap. destruct (pPCache p !! k) as [x|]; [|reflexivity]. cbn. destruct (pg_dirty x); reflexivity.
Qed.

Lemma spilled_view cs o n x p : inv cs o p -> pPCache p !! n = Some x -> view PS (cleaned n (flush p n)) = view PS p.
Proof.
  intros I Hx. pose proof (c_cached _ _ _ _ _ _ _ _ (proj2 I) n x Hx) as (Hl & Hr & Hw). assert (Hps : pageSize p = PS) by apply I. destruct SZ as [Z1 _ _ _].
  unfold flush. rewrite Hx, Hw. cbn [negb]. rewrite andb_true_r. destruct (n <=? dbSize p).
  - apply view_ext; [reflexivity|]. intros k Hk. unfold page_of, cleaned, flushed. psimp. rewrite Hps.
    rewrite (alter_present _ _ _ _ (lookup_insert_eq _ _ _)), insert_insert_eq. destruct (decide (k = n)) as [->|Hkn].
    + rewrite lookup_insert_eq, Hx. cbn. unfold out_data. destruct (Z.eqb_spec n 1) as [->|_]; [|reflexivity]. apply (norm_changecounter PS); [lia|exact Hl].
    + rewrite lookup_insert_ne by congruence. destruct (pPCache p !! k); [reflexivity|].
      rewrite (file_page_write_other PS); [reflexivity|lia|eapply out_data_length; eassumption|congruence].
  - apply view_ext; [reflexivity|]. intros k Hk. f_equal. unfold page_of, cleaned. psimp. rewrite (alter_present _ _ _ _ Hx).
    destruct (decide (k = n)) as [->|Hkn]; [rewrite lookup_insert_eq, Hx; reflexivity|rewrite lookup_insert_ne by congruence; reflexivity].
Qed.

Lemma tight_spilled n p : tight (cleaned n (flush p n)) <-> tight p.
Proof. unfold tight, cleaned, flush. destruct (pPCache p !! n) as [x|]; [destruct (_ && _)|]; reflexivity. Qed.

Lemma open_needs cs s n x p : inv cs (Some s) p -> pPCache p !! n = Some x -> pg_needSync x = false -> ~ in_recs n (open_recs (Some s)).
Proof. intros I Hx Hn Hi. destruct (c_unsynced _ _ _ _ _ _ _ _ (proj2 I) n Hi) as (y & Hy & _ & Hs). congruence. Qed.

Lemma dropped_inv cs o n x p : inv cs o p -> pPCache p !! n = Some x -> pg_dirty x = false ->
  inv cs o (set_pPCache (delete n (pPCache p)) p) /\ view PS (set_pPCache (delete n (pPCache p)) p) = view PS p.
Proof.
  intros [[B1 B2 B3 B4 B5 B6 B7 B8 B9 B10 B11 B12 B13] [K1 K2 K3 K4 K5 K6]] Hx Hd. split.
  - split; [split; assumption|]. split; psimp.
    + intros k Hk. destruct (K1 k Hk) as [H|(y & Hy & Hdy)]; [left; exact H|right]. exists y. rewrite lookup_delete_ne by congruence. auto.
    + intros k y Hy. apply lookup_delete_Some in Hy as [_ Hy]. exact (K2 k y Hy).
    + intros k y Hy. apply lookup_delete_Some in Hy as [_ Hy]. exact (K3 k y Hy).
    + intros k y Hy. apply lookup_delete_Some in Hy as [_ Hy]. exact (K4 k y Hy).
    + intros k Hk. destruct (K5 k Hk) as (y & Hy & Hdy & Hs). exists y. rewrite lookup_delete_ne by congruence. auto.
    + intros k y Hy. apply lookup_delete_Some in Hy as [_ Hy]. exact (K6 k y Hy).
  - apply view_ext; [reflexivity|]. intros k Hk. f_equal. unfold page_of. psimp. destruct (decide (k = n)) as [->|Hkn].
    + rewrite lookup_delete_eq, Hx. symmetry. apply (K3 n x Hx Hd). exact (proj2 Hk).
    + rewrite lookup_delete_ne by congruence. reflexivity.
Qed.

Lemma recycle_inv cs s n p : inv cs (Some s) p ->
  wp (recycle_page n) p (fun rc p' => rc = SQLITE_OK /\ (exists cs' s', inv cs' (Some s') p') /\ view PS p' = view PS p /\ mxPgno p' = mxPgno p /\ (tight p -> tight p')).
Proof.
  intros I. unfold recycle_page. wsilent. destruct (pPCache p !! n) as [x|] eqn:Hx; [|apply wp_ret; split_and!; [reflexivity|eauto|reflexivity|reflexivity|auto]].
  destruct (pg_dirty x) eqn:Hd.
  2: { wsilent. apply wp_ret. destruct (dropped_inv _ _ _ _ _ I Hx Hd) as [D1 D2]. split_and!; [reflexivity|eauto|exact D2|reflexivity|auto]. }
  pose proof I as [[B1 B2 B3 B4 B5 B6 B7 B8 B9 B10 B11 B12 B13] K].
  apply (wp_stress e Q C PS HS SZ HP n x p); try assumption; try lia.
  - split_and!; [reflexivity|eauto|reflexivity|reflexivity|auto].
  - intros Hns Hst. split_and!; [reflexivity| | |unfold cleaned, flush; rewrite Hx; destruct (_ && _); reflexivity|rewrite tight_spilled; auto].
    + exists cs, s. eapply (inv_spilled PS HS SZ orig lengths small d0); [exact I| |exact Hx|exact Hd|exact (open_needs _ _ _ _ _ I Hx Hns)].
      destruct B10 as [[H _]|[_ H]]; [contradiction|exact H].
    + exact (spilled_view _ _ _ _ _ I Hx).
  - intros ck Hck. pose proof (inv_resynced PS HS SZ orig lengths small d0 cs s p ck I Hck) as I'.
    set (q := unlocked_pages (headed PS HS ck (set_nRec 0 (jsynced HS p)))) in *.
    assert (Hq : pPCache q !! n = Some (mkPgHdr (pg_data x) true false (pg_writeable x) (pg_dontWrite x))).
    { unfold q, unlocked_pages, headed, jsynced. psimp. unfold sqlite3PcacheClearSyncFlags, on_dirty. rewrite lookup_fmap, Hx. cbn. rewrite Hd. reflexivity. }
    split_and!; [reflexivity| | | |].
    + exists (cs ++ [s]), (new_seg PS HS (cs ++ [s]) ck). eapply (inv_spilled PS HS SZ orig lengths small d0); [exact I'| |exact Hq|reflexivity|apply not_elem_of_nil].
      intros Hn. apply app_nil in Hn as [_ [=]].
    + rewrite (spilled_view _ _ _ _ _ I' Hq). unfold q, unlocked_pages, headed, jsynced. apply cleared_view; psimp; reflexivity.
    + unfold cleaned, flush. rewrite Hq. unfold flushed. destruct (_ && _); reflexivity.
    + intros Ht. apply tight_spilled. unfold q. apply tight_unlocked, tight_headed. destruct SZ as [Z1 Z2 _ _].
      destruct B2 as (C1 & (C2 & _) & C6 & C7 & _). destruct C2 as [C2 _]. pose proof (seg_end_ge PS HS ltac:(lia) s C2).
      psimp. rewrite tight_synced by (assumption || lia). change (journalOff (jsynced HS p)) with (journalOff p). apply align_ge; lia.
Qed.

(** ** A transaction that has not written yet *)

Record ready (p : Pager) : Prop := {
  rd_logged : logged [] (log p) (fd p) (journal p);
  rd_pageSize : pageSize p = PS;
  rd_sectorSize : sectorSize p = HS;
  rd_errCode : errCode p = SQLITE_OK;
  rd_eLock : RESERVED_LOCK <= eLock p <= EXCLUSIVE_LOCK;
  rd_eState : eState p = PAGER_WRITER_LOCKED;
  rd_jfd : jfd p = true -> truncates e = true;
  rd_journalOff : journalOff p = 0;
  rd_dbSize : dbSize p = Zlen orig;
  rd_origSize : dbOrigSize p = Zlen orig;
  rd_fileSize : dbFileSize p = Zlen orig;
  rd_cache : cache_ok PS orig [] None (Zlen orig) (Zlen orig) (fd p) (pPCache p);
  rd_clean : forall n x, pPCache p !! n = Some x -> pg_dirty x = false
}.

Lemma logged_none l f j : logged [] l f j -> f_size f = PS * Zlen orig.
Proof. intros [_ H2 H3 _]. destruct (du_none _ _ _ _ _ H2 eq_refl) as [H4 H5]. rewrite <- H3. unfold current. rewrite H4. exact H5. Qed.

Lemma inv_opened p ck : ready p -> 0 <= ck < 2 ^ 32 -> inv [] (Some (new_seg PS HS [] ck)) (opened PS HS ck p).
Proof.
  intros [R1 R2 R3 R4 R5 R6 RJ RO R7 R8 R9 R10 R11] Hck. destruct (logged_headed PS HS SZ orig lengths small d0 _ _ _ _ ck R1 Hck) as [L Ho].
  cbv zeta in L, Ho. change (end_of PS HS []) with 0 in L, Ho. change (align HS 0) with 0 in L, Ho. pose proof (logged_none _ _ _ R1) as Hsz. split.
  - split; unfold opened, headed, started, cursor; psimp; change (align HS 0) with 0; rewrite ?R8; try assumption; try reflexivity.
    + refine (conj eq_refl (conj Ho _)). unfold new_seg, seg_end. cbn [sg_hdr sg_recs sg_ck].
      change (end_of PS HS []) with 0. change (align HS 0) with 0. unfold Zlen. cbn [length]. split_and!; reflexivity || lia.
    + constructor.
    + exists (mkBitvec (dbSize p) ∅). split_and!; [reflexivity|exact R7|]. intros n. split; [intros Hn; apply elem_of_empty in Hn as []|intros Hn; apply elem_of_nil in Hn as []].
    + left. auto.
    + rewrite R7. lia.
    + rewrite R9. split; [exact Hsz|lia].
  - unfold cache_inv, opened, headed, started. psimp. rewrite R7, R9. destruct R10 as [K1 K2 K3 K4 K5 K6]. split; assumption.
Qed.

Lemma ready_got p n : ready p -> 1 <= n < lock_page PS -> ready (got n p).
Proof.
  intros [R1 R2 R3 R4 R5 R6 RJ RO R7 R8 R9 R10 R11] Hn. destruct SZ as [Z1 _ _ _]. split; try assumption; rewrite got_cache; unfold gotten.
  - destruct (pPCache p !! n) as [x|] eqn:Hx; [rewrite insert_id by exact Hx; exact R10|]. change (fd (got n p)) with (fd p).
    apply cache_read; [exact R10|exact Hx| |exact Hn|].
    + destruct (dbSize p <? n); [unfold zeros, Zlen; rewrite length_replicate; lia|rewrite R2; eapply file_page_length; eassumption].
    + intros Hd. rewrite R7, (proj2 (Z.ltb_ge _ _)), R2 by lia. reflexivity.
  - intros k x Hx. apply lookup_insert_Some in Hx as [[<- <-]|[_ Hx]]; [|exact (R11 k x Hx)]. destruct (pPCache p !! n) eqn:Hn'; [exact (R11 _ _ Hn')|reflexivity].
Qed.

Lemma wp_skip (m k : pg Z) q P : eState q <> PAGER_WRITER_LOCKED ->
  wp (p ← get id; (if eState p =? PAGER_WRITER_LOCKED then m else mret SQLITE_OK) ?; k) q P -> wp k q P.
Proof.
  intros Hq H c. specialize (H c). unfold mbind, pg_bind, get, id in H. rewrite (proj2 (Z.eqb_neq _ _) Hq) in H. exact H.
Qed.

Lemma wp_write_locked n p P : eState p = PAGER_WRITER_LOCKED -> pageSize p = PS -> sectorSize p = HS -> errCode p = SQLITE_OK ->
  (forall ck, 0 <= ck < 2 ^ 32 -> wp (pager_write e n) (opened PS HS ck p) P) -> wp (pager_write e n) p P.
Proof.
  intros H1 H2 H3 H4 Hk. unfold pager_write. wsilent. rewrite H1. change (PAGER_WRITER_LOCKED =? PAGER_WRITER_LOCKED) with true. cbv iota.
  apply wp_bind. apply (wp_open_journal e Q C PS HS SZ HP); [exact H2|exact H3|exact H4|]. intros ck Hck. specialize (Hk ck Hck).
  unfold pager_write in Hk. ok. eapply (wp_skip (pager_open_journal e)); [|exact Hk]. discriminate.
Qed.

Lemma write_page_ready n d p : ready p -> 1 <= n <= dbSize p + 1 -> n < lock_page PS -> n <= mxPgno p -> Zlen d = PS ->
  wp (write_page n d) p (fun rc p' => rc = SQLITE_OK /\ (exists s', inv [] (Some s') p') /\ view PS p' = put_page n (norm n d) (view PS p) /\ mxPgno p' = mxPgno p
    /\ (f_size (journal p) = 0 -> tight p')).
Proof.
  intros R Hn Hl Hm Hd. pose proof (ready_got p n R ltac:(lia)) as Rg. pose proof R as [R1 R2 R3 R4 R5 R6 RJ RO R7 R8 R9 R10 R11]. unfold write_page.
  wstep (runs_got e Q); [exact R4|lia|unfold PAGER_SJ_PGNO; rewrite R2; fold (lock_page PS); lia|].
  assert (Hx : pPCache (got n p) !! n = Some (gotten n p)) by apply lookup_insert_eq.
  assert (Hw : pg_writeable (gotten n p) = false).
  { destruct (pg_writeable (gotten n p)) eqn:Hw; [|reflexivity]. rewrite <- (rd_clean _ Rg _ _ Hx). symmetry. exact (c_writeable _ _ _ _ _ _ _ _ (rd_cache _ Rg) _ _ Hx Hw). }
  apply wp_bind. unfold sqlite3PagerWrite. wsilent. rewrite Hx, Hw. cbn [andb]. change (errCode (got n p)) with (errCode p). rewrite R4. ok.
  change (sectorSize (got n p)) with (sectorSize p). change (pageSize (got n p)) with (pageSize p). rewrite (proj2 (Z.ltb_ge _ _)) by lia.
  apply wp_write_locked; [apply Rg..|]. intros ck Hck. pose proof (inv_opened _ ck Rg Hck) as I.
  assert (Hx' : pPCache (opened PS HS ck (got n p)) !! n = Some (gotten n p)) by exact Hx.
  eapply wp_runs; [eapply (runs_pager_write e Q); [exact Hx'|reflexivity|discriminate|exact (cf_off e C)]|]. ok. wsilent. apply wp_ret.
  assert (Hwt : written n (gotten n p) (opened PS HS ck (got n p)) = touched n (gotten n p) (opened PS HS ck (got n p))) by (unfold touched; rewrite Hw; reflexivity).
  rewrite Hwt. pose proof (inv_touched PS HS SZ orig lengths small d0 _ _ _ _ _ I Hx' (proj2 Hn)) as It.
  destruct (touched_page PS HS orig d0 _ _ _ _ _ I Hx') as (y & T1 & T2 & T3 & T4 & T5 & T6 & T7 & T8 & _).
  split; [reflexivity|]. split; [|split; [|split]].
  - eexists. eapply inv_put; [exact It|rewrite T1; apply lookup_insert_eq|exact T2|rewrite T6; lia|exact Hd].
  - rewrite (put_view _ _ _ _ _ _ I Hx') by exact Hn. rewrite <- (got_view n p R2). reflexivity.
  - exact T8.
  - intros Hz. apply tight_put, tight_touched; [apply I|apply (c_cached _ _ _ _ _ _ _ _ (proj2 I) _ _ Hx')|apply tight_opened, Hz].
Qed.

End Script.

Section Commit.
Context (e : PagerEnv) (Q : quiet e) (C : config_ok e) (PS HS : Z) (SZ : sizes_ok PS HS) (HP : HS <= PS).
Context (orig : list (list Z)) (lengths : Forall (fun d => Zlen d = PS) orig) (small : Zlen orig < lock_page PS) (d0 : disk).

Local Abbreviation inv := (inv PS HS orig d0).
Local Abbreviation logged := (logged PS HS orig d0).

(** ** The change counter *)

Lemma inv_counted cs o p b : inv cs o p -> inv cs o (set_changeCountDone b p).
Proof. intros [[B1 B2 B3 B4 B5 B6 B7 B8 B9 B10 B11 B12 B13] K]. split; [split; assumption|exact K]. Qed.

Lemma incr_inv cs s p : inv cs (Some s) p -> 1 <= mxPgno p ->
  wp (pager_incr_changecounter e) p (fun rc p' => rc = SQLITE_OK /\ (exists s', inv cs (Some s') p') /\ view PS p' = view PS p).
Proof.
  intros I Hm. unfold pager_incr_changecounter. wsilent. destruct (negb (changeCountDone p) && (0 <? dbSize p)) eqn:Hc; [|apply wp_ret; eauto].
  apply andb_true_iff in Hc as [_ Hs]. apply Z.ltb_lt in Hs. pose proof I as [[B1 B2 B3 B4 B5 B6 B7 B8 B9 B10 B11 B12 B13] K]. destruct B4 as (b & Hb & _).
  wstep (runs_got e Q); [exact B7|lia|unfold PAGER_SJ_PGNO; rewrite B5; fold (lock_page PS); lia|].
  pose proof (inv_got PS HS SZ orig d0 _ _ _ 1 I ltac:(lia)) as Ig. assert (Hx : pPCache (got 1 p) !! 1 = Some (gotten 1 p)) by apply lookup_insert_eq.
  wstep (runs_touched e Q).
  - exact Hx.
  - exact Hb.
  - change (eState (got 1 p)) with (eState p). destruct B10 as [[-> _]|[[->| ->] _]]; discriminate.
  - apply (cf_off e C).
  - exact B7.
  - change (sectorSize (got 1 p)) with (sectorSize p). change (pageSize (got 1 p)) with (pageSize p). lia.
  - pose proof (inv_touched PS HS SZ orig lengths small d0 _ _ _ _ _ Ig Hx ltac:(change (dbSize (got 1 p)) with (dbSize p); lia)) as It.
    destruct (touched_page PS HS orig d0 _ _ _ _ _ Ig Hx) as (y & T1 & T2 & T3 & T4 & T5 & T6 & T7 & T8 & _).
    rewrite <- (got_view PS 1 p B5). change (dbSize (got 1 p)) with (dbSize p) in T6.
    set (q := touched 1 (gotten 1 p) (got 1 p)) in *. set (D := pager_write_changecounter (dbFileVers q) (pg_data y)).
    assert (Hq : pPCache q !! 1 = Some y) by (rewrite T1; apply lookup_insert_eq).
    assert (E : set_pPCache (alter (fun x => pg_set_data (pager_write_changecounter (dbFileVers q) (pg_data x)) x) 1 (pPCache q)) q = put_data 1 D q)
      by (unfold put_data; rewrite !(alter_present _ _ _ _ Hq); reflexivity).
    rewrite E. apply wp_ret. pose proof (c_cached _ _ _ _ _ _ _ _ (proj2 It) 1 y Hq) as (Hl & _).
    split; [reflexivity|]. split.
    + eexists. apply inv_counted. eapply inv_put; [exact It|exact Hq|exact T2|lia|]. apply (changecounter_length PS HS SZ orig), Hl.
    + apply view_ext; [unfold put_data; psimp; rewrite T6; change (dbSize (got 1 p)) with (dbSize p); lia|]. intros k Hk. unfold page_of, put_data. psimp. rewrite (alter_present _ _ _ _ Hq), T1, T5, insert_insert_eq.
      destruct (decide (k = 1)) as [->|Hk1]; [|rewrite lookup_insert_ne by congruence; reflexivity]. rewrite lookup_insert_eq, Hx. cbn [pg_set_data pg_data].
      unfold D. destruct SZ. rewrite (norm_changecounter PS), T3 by (lia || exact Hl). reflexivity.
Qed.

(** ** The pages are written *)

Lemma cleaned_view n p : view PS (cleaned n p) = view PS p.
Proof.
  apply view_ext; [reflexivity|]. intros k _. f_equal. unfold page_of, cleaned. psimp. rewrite lookup_alter. destruct (decide (n = k)) as [<-|_]; [|reflexivity].
  destruct (pPCache p !! n); reflexivity.
Qed.

Definition journal_synced (p : Pager) : Prop := df_ops (d_jrnl (disk_after d0 (log p))) = [].

(** The dirty pages are written but for those in [l]. *)
Record flushing (cs : list seg) (l : list Z) (v : list (list Z)) (p : Pager) : Prop := {
  fl_inv : inv cs None p;
  fl_synced : journal_synced p;
  fl_view : view PS p = v;
  fl_dirty : Forall (fun n => exists x, pPCache p !! n = Some x /\ pg_dirty x = true) l;
  fl_rest : forall n x, pPCache p !! n = Some x -> pg_dirty x = true -> n <= dbSize p -> n ∈ l \/ pg_data x = file_page PS (fd p) n /\ n <= dbFileSize p
}.

Lemma flush_one cs n l v p : cs <> [] -> flushing cs (n :: l) v p -> flushing cs l v (flush p n).
Proof.
  intros Hc [F1 F2 F3 F4 F5]. inversion_clear F4 as [|? ? (x & Hx & Hd) F4']. destruct SZ as [Z1 _ _ _].
  pose proof (c_cached _ _ _ _ _ _ _ _ (proj2 F1) n x Hx) as (Hl & Hr & Hw). assert (Hps : pageSize p = PS) by apply F1.
  rewrite <- (spilled_view PS HS SZ orig d0 _ _ _ _ _ F1 Hx), cleaned_view in F3.
  pose proof (out_data_length PS HS SZ orig n x p Hl) as Ho.
  unfold flush in *. rewrite Hx, Hw in *. cbn [negb] in *. rewrite andb_true_r in *. destruct (Z.leb_spec n (dbSize p)) as [Hn|Hn].
  2: { split; try assumption. intros k y Hy Hdy Hk. destruct (F5 k y Hy Hdy Hk) as [Hi|Hi]; [|right; exact Hi].
       apply elem_of_cons in Hi as [->|Hi]; [lia|left; exact Hi]. }
  split.
  - apply (inv_flushed PS HS SZ orig lengths small d0); try assumption. apply not_elem_of_nil.
  - unfold journal_synced, flushed. psimp. rewrite disk_after_snoc. exact F2.
  - exact F3.
  - unfold flushed. psimp. apply (Forall_impl _ _ _ F4'). intros k (y & Hy & Hdy). destruct (decide (k = n)) as [->|Hk].
    + rewrite lookup_insert_eq. eexists. split; [reflexivity|exact Hd].
    + rewrite lookup_insert_ne by congruence. eauto.
  - unfold flushed. psimp. rewrite Hps. intros k y Hy Hdy Hk. apply lookup_insert_Some in Hy as [[<- <-]|[Hkn Hy]].
    + right. split; [symmetry; apply file_page_write_same; [lia|exact Ho]|lia].
    + destruct (F5 k y Hy Hdy Hk) as [Hi|[H1 H2]].
      * apply elem_of_cons in Hi as [->|Hi]; [contradiction|left; exact Hi].
      * right. rewrite (file_page_write_other PS) by (assumption || congruence || lia). split; [exact H1|lia].
Qed.

Lemma flush_all cs l v p : cs <> [] -> flushing cs l v p -> flushing cs [] v (foldl flush p l).
Proof. intros Hc. revert p. induction l as [|n l IH]; intros p F; [exact F|]. cbn [foldl]. apply IH, flush_one, F. exact Hc. Qed.


Lemma clean_all_lookup m k y : sqlite3PcacheCleanAll m !! k = Some y ->
  exists x, m !! k = Some x /\ pg_data y = pg_data x /\ pg_dontWrite y = pg_dontWrite x /\ pg_dirty y = false /\ (pg_dirty x = false -> y = x) /\ (pg_writeable y = true -> pg_dirty x = false).
Proof.
  unfold sqlite3PcacheCleanAll, on_dirty. rewrite lookup_fmap. destruct (m !! k) as [x|]; [|discriminate]. cbn. intros H. exists x.
  destruct (pg_dirty x) eqn:Hd; injection H as <-; split_and!; try reflexivity; try assumption; try discriminate; auto.
Qed.

Lemma cleaned_all cs v p : cs <> [] -> flushing cs [] v p -> let q := set_pPCache (sqlite3PcacheCleanAll (pPCache p)) p in
  inv cs None q /\ view PS q = v /\ dbFileSize q = dbSize q.
Proof.
  intros Hc [F1 F2 F3 _ F5] q. destruct F1 as [B K]. destruct K as [K1 K2 K3 K4 K5 K6].
  assert (Hv : view PS q = v).
  { rewrite <- F3. apply view_ext; [reflexivity|]. intros k _. f_equal. unfold page_of, q. psimp. unfold sqlite3PcacheCleanAll, on_dirty. rewrite lookup_fmap.
    destruct (pPCache p !! k) as [x|]; [|reflexivity]. cbn. destruct (pg_dirty x); reflexivity. }
  assert (Hnew : forall n, Zlen orig < n <= dbSize p -> n <= dbFileSize p).
  { intros n Hn. destruct (K1 n Hn) as [H|(x & Hx & Hd)]; [exact H|]. destruct (F5 n x Hx Hd (proj2 Hn)) as [Hi|[_ H]]; [apply elem_of_nil in Hi as []|exact H]. }
  destruct B as [B1 B2 B3 B4 B5 B6 B7 B8 B9 B10 B11 B12 B13]. split; [split; [split; assumption|]|split; [exact Hv|]].
  - unfold cache_inv, q. psimp. split.
    + intros n Hn. left. apply Hnew, Hn.
    + intros n y Hy. destruct (clean_all_lookup _ _ _ Hy) as (x & Hx & -> & -> & _). exact (K2 n x Hx).
    + intros n y Hy _ Hn. destruct (clean_all_lookup _ _ _ Hy) as (x & Hx & -> & _ & _). destruct (pg_dirty x) eqn:Hd; [|exact (K3 n x Hx Hd Hn)].
      destruct (F5 n x Hx Hd Hn) as [Hi|[H _]]; [apply elem_of_nil in Hi as []|exact H].
    + intros n y Hy Hd. destruct (clean_all_lookup _ _ _ Hy) as (x & _ & _ & _ & Hd' & _). congruence.
    + intros n Hn. apply elem_of_nil in Hn as [].
    + intros n y Hy Hw. destruct (clean_all_lookup _ _ _ Hy) as (x & Hx & _ & _ & _ & Hyx & Hwx). rewrite (Hyx (Hwx Hw)). apply (K6 n x Hx).
      rewrite <- (Hyx (Hwx Hw)). exact Hw.
  - unfold q. psimp. destruct B13 as [S1 S2]. destruct (Z.eq_dec (Zlen orig) (dbSize p)) as [He|He]; [|pose proof (Hnew (dbSize p) ltac:(lia)); lia].
    destruct (logged_files PS HS SZ orig lengths small d0 _ _ _ _ B1) as (_ & _ & _ & _ & _ & Hs & _). destruct SZ as [Z1 _ _ _]. nia.
Qed.

(** ** The first phase *)

(** Everything is on disk; the journal is still there. *)
Record finished (v : list (list Z)) (p : Pager) : Prop := {
  fn_inv : exists cs, cs <> [] /\ inv cs None p;
  fn_jsync : journal_synced p;
  fn_dsync : df_ops (d_db (disk_after d0 (log p))) = [];
  fn_view : view PS p = v;
  fn_clean : forall n x, pPCache p !! n = Some x -> pg_dirty x = false;
  fn_size : dbFileSize p = dbSize p;
  fn_eState : eState p = PAGER_WRITER_FINISHED
}.

Lemma dirty_list_spec m n : n ∈ sqlite3PcacheDirtyList m <-> exists x, m !! n = Some x /\ pg_dirty x = true.
Proof.
  unfold sqlite3PcacheDirtyList. rewrite (merge_sort_Permutation Z.le). rewrite list_elem_of_fmap. split.
  - intros ([k x] & -> & H). apply elem_of_map_to_list, map_lookup_filter_Some in H. cbn. eauto.
  - intros (x & Hx & Hd). exists (n, x). split; [reflexivity|]. apply elem_of_map_to_list, map_lookup_filter_Some. auto.
Qed.


Lemma synced_flushing cs s p : inv cs (Some s) p -> let q := unlocked_pages (jsynced HS p) in
  flushing (cs ++ [s]) (sqlite3PcacheDirtyList (pPCache q)) (view PS p) q.
Proof.
  intros I q. split.
  - exact (inv_synced PS HS SZ orig lengths small d0 cs s p I).
  - unfold journal_synced, q, unlocked_pages, jsynced. psimp. unfold disk_after. rewrite !foldl_app. reflexivity.
  - apply cleared_view; reflexivity.
  - apply Forall_forall. intros n. apply dirty_list_spec.
  - intros n x Hx Hd _. left. apply dirty_list_spec. eauto.
Qed.

Lemma finished_sync cs v p : cs <> [] -> flushing cs [] v p ->
  let q := set_pPCache (sqlite3PcacheCleanAll (pPCache p)) p in
  finished v (set_eState PAGER_WRITER_FINISHED (set_log (log q ++ [EvSync Db]) q)).
Proof.
  intros Hc F q. pose proof (cleaned_all cs v p Hc F) as (I & Hv & Hs). fold q in I, Hv, Hs.
  assert (Hj : journal_synced q) by apply F. split; try assumption.
  - exists cs. split; [exact Hc|]. destruct I as [[B1 B2 B3 B4 B5 B6 B7 B8 B9 B10 B11 B12 B13] K]. split; [split; psimp; try assumption|exact K].
    + apply (logged_dsync PS HS SZ orig lengths small d0), B1.
    + right. split; [right; reflexivity|exact Hc].
  - unfold journal_synced. psimp. rewrite disk_after_snoc. exact Hj.
  - psimp. rewrite disk_after_snoc. reflexivity.
  - intros n y Hy. destruct (clean_all_lookup _ _ _ Hy) as (x & _ & _ & _ & Hd & _). exact Hd.
  - reflexivity.
Qed.

Lemma commit_one cs s p : inv cs (Some s) p -> 1 <= mxPgno p ->
  wp (sqlite3PagerCommitPhaseOne e false) p (fun rc p' => rc = SQLITE_OK /\ finished (view PS p) p').
Proof.
  intros I Hm. pose proof I as [[B1 B2 B3 B4 B5 B6 B7 B8 B9 B10 B11 B12 B13] K]. unfold sqlite3PagerCommitPhaseOne. wsilent. rewrite B7. ok.
  assert (Hst : (eState p <? PAGER_WRITER_CACHEMOD) = false) by (destruct B10 as [[-> _]|[[->| ->] _]]; reflexivity). rewrite Hst.
  apply wp_bind. eapply wp_mono; [exact (incr_inv cs s p I Hm)|]. intros rc q (-> & (s' & Iq) & Hv). ok.
  pose proof (synced_flushing cs s' q Iq) as F. destruct Iq as [[Q1 Q2 Q3 Q4 Q5 Q6 Q7 Q8 Q9 Q10 Q11 Q12 Q13] _].
  apply wp_bind. apply (wp_sync_journal e Q C PS HS SZ HP); try assumption; [lia| |discriminate]. intros _. ok. cbv zeta in F. rewrite Hv in F.
  assert (Hc : cs ++ [s'] <> []) by (intros Hx; apply app_nil in Hx as [_ [=]]).
  set (u := unlocked_pages (jsynced HS q)) in *. clearbody u. wsilent.
  wstep (runs_pagelist e Q). { apply (Forall_impl _ _ _ (fl_dirty _ _ _ _ F)). intros n (x & Hx & _). eexists. exact Hx. }
  pose proof (flush_all _ _ _ _ Hc F) as F'. set (w := foldl flush u (sqlite3PcacheDirtyList (pPCache u))) in *. clearbody w.
  pose proof (cleaned_all _ _ _ Hc F') as (_ & _ & Hs). cbv zeta in Hs. pose proof (finished_sync _ _ _ Hc F') as G. cbv zeta in G.
  set (z := set_pPCache (sqlite3PcacheCleanAll (pPCache w)) w) in *. clearbody z. wsilent. rewrite Hs, Z.ltb_irrefl. wsilent.
  wstep (runs_pager_sync e Q). unfold sync_log. rewrite (cf_noSync e C). wsilent. apply wp_ret. split; [reflexivity|exact G].
Qed.


(** ** The second phase *)

(** The pages of the database file. *)
Definition file_pages (f : File) (n : Z) : list (list Z) := file_page PS f <$> seqZ 1 n.

(** Pages without their change counters. *)
Definition contents (c : list (list Z)) : list (list Z) := zip_with norm (seqZ 1 (Zlen c)) c.

Lemma file_pages_length f n : 0 <= n -> Zlen (file_pages f n) = n.
Proof. intros H. unfold file_pages, Zlen. rewrite length_fmap, length_seqZ. lia. Qed.

Lemma file_pages_at f m n d : page_at (file_pages f m) n d -> file_page PS f n = d.
Proof.
  intros [H1 H2]. unfold file_pages in H2. rewrite list_lookup_fmap in H2. destruct (seqZ 1 m !! Z.to_nat (n - 1)) as [k|] eqn:Hk; [|discriminate].
  apply lookup_seqZ in Hk as [-> Hk]. injection H2 as <-. f_equal. lia.
Qed.

Lemma file_pages_contents f n : 0 <= n -> contents (file_pages f n) = (fun k => norm k (file_page PS f k)) <$> seqZ 1 n.
Proof.
  intros Hn. unfold contents. rewrite file_pages_length by exact Hn. unfold file_pages. rewrite zip_with_fmap_r, zip_with_diag. reflexivity.
Qed.

Lemma finished_contents v p : finished v p -> contents (file_pages (fd p) (dbSize p)) = v.
Proof.
  intros [(cs & _ & [B K]) _ _ <- F3 _ _]. pose proof (b_dbSize _ _ _ _ _ _ _ B). pose proof (Zlen_nonneg orig). rewrite file_pages_contents by lia.
  unfold view, undo. apply list_fmap_ext. intros i n Hi. apply lookup_seqZ in Hi as [-> Hi]. cbn [first default]. f_equal. unfold page_of.
  destruct (pPCache p !! _) as [x|] eqn:Hx; [|reflexivity]. symmetry. apply (c_clean _ _ _ _ _ _ _ _ K _ _ Hx); [exact (F3 _ _ Hx)|lia].
Qed.

Lemma finished_disk v p : finished v p -> disk_after d0 (log p) = settled (fd p) (journal p).
Proof.
  intros [(cs & _ & [[[_ _ L3 L4] _ _ _ _ _ _ _ _ _ _ _ _] _]) F2 F3 _ _ _ _]. unfold journal_synced in F2.
  destruct (disk_after d0 (log p)) as [[b1 o1] [b2 o2]]. cbn in *. subst o1 o2. cbn in L3, L4. rewrite L3, L4. reflexivity.
Qed.

Section Finished.
Context (v : list (list Z)) (p : Pager) (F : finished v p).

Let new := file_pages (fd p) (dbSize p).

Lemma finished_size : 0 <= dbSize p /\ file_wf (fd p) /\ f_size (fd p) = PS * dbSize p /\ file_wf (journal p).
Proof.
  destruct F as [(cs & _ & [[B1 _ _ _ _ _ _ _ _ _ _ B12 B13] _]) _ _ _ _ Hs _]. pose proof (Zlen_nonneg orig).
  destruct (logged_files PS HS SZ orig lengths small d0 _ _ _ _ B1) as (H1 & _ & _ & _ & H2 & _). split_and!; try lia; try apply H1; apply H2.
Qed.

Lemma crash_before f j : crashes HS (disk_after d0 (log p)) f j -> exists cs, recoverable_by PS HS orig cs f j.
Proof.
  intros Hc. destruct (fn_inv _ _ F) as (cs & _ & [B _]). exists cs.
  apply (durable_recoverable PS HS SZ orig lengths small cs (disk_after d0 (log p))); [apply B|exact Hc].
Qed.

Lemma finished_holds : holds PS new (fd p).
Proof.
  destruct finished_size as (S1 & _ & S3 & _). unfold new. split; [rewrite file_pages_length by exact S1; exact S3|]. intros n d. apply file_pages_at.
Qed.

Lemma crash_final k off f j : off <> 0 -> crashes HS (disk_after d0 (log p ++ take k (final_log e off))) f j ->
  (exists cs, recoverable_by PS HS orig cs f j) /\ ((k < length (final_log e off))%nat \/ ends_durably e = false) \/
  recoverable_by PS HS new [] f j /\ (0 < k)%nat.
Proof.
  intros Hoff. unfold disk_after. rewrite foldl_app. change (foldl disk_step d0 (log p)) with (disk_after d0 (log p)). rewrite (finished_disk v p F). intros Hc.
  destruct finished_size as (_ & _ & _ & S4). destruct (final_crash e HS (fd p) (journal p) k off f j (proj1 S4) Hc) as [Hf [[Hj Hk]|(H1 & H2 & H3)]].
  - left. split; [|exact (Hk Hoff)]. apply crash_before. rewrite (finished_disk v p F). split; assumption.
  - right. split; [|exact H3]. exact (recoverable_gone HS PS SZ new (fd p) f j finished_holds Hf H1 H2).
Qed.

End Finished.


(** ** Commit *)

Lemma end_of_pos cs : cs <> [] -> chain PS HS 0 cs -> 0 < end_of PS HS cs.
Proof.
  intros Hc H. destruct SZ as [Z1 Z2 _ _]. destruct (exists_last Hc) as (cs' & s & ->). rewrite end_of_app.
  destruct (seg_end_le PS HS SZ _ 0 ltac:(lia) H) as [_ Hs]. apply Forall_app in Hs as [_ Hs]. inversion_clear Hs as [|? ? [H1 _] _].
  pose proof (seg_end_ge PS HS ltac:(lia) s H1). lia.
Qed.

(** What a crash during the events [l] leads to: the original pages, or the new ones once the journal was ended. *)
Definition fate (new : list (list Z)) (l : list event) : Prop :=
  forall k f j, crashes HS (disk_after d0 (take k l)) f j ->
    (exists cs, recoverable_by PS HS orig cs f j) /\ ((k < length l)%nat \/ ends_durably e = false) \/
    recoverable_by PS HS new [] f j /\ existsb is_final (take k l) = true.

Lemma finished_fate v p : finished v p -> journalOff p <> 0 -> fate (file_pages (fd p) (dbSize p)) (log p ++ final_log e (journalOff p)).
Proof.
  intros F Ho k f j Hc. pose proof F as [(cs & _ & [[L _ _ _ _ _ _ _ _ _ _ _ _] _]) _ _ _ _ _ _].
  assert (Hl : (0 < length (final_log e (journalOff p)))%nat) by (unfold final_log; rewrite (proj2 (Z.eqb_neq _ _) Ho); destruct (truncates e); cbn; lia).
  destruct (decide (k <= length (log p))%nat) as [Hk|Hk].
  - rewrite take_app_le in Hc by exact Hk. left. split; [exact (lg_safe _ _ _ _ _ _ _ _ L k f j Hc)|]. left. rewrite length_app. lia.
  - rewrite take_app_ge in Hc |- * by lia. destruct (crash_final v p F _ _ _ _ Ho Hc) as [[H1 H2]|[H1 H2]].
    + left. split; [exact H1|]. rewrite length_app. destruct H2 as [H2|H2]; [left; lia|right; exact H2].
    + right. split; [exact H1|]. rewrite existsb_app, (final_log_first e _ _ Ho H2). apply orb_true_r.
Qed.

Lemma truncate_lookup sz n m k : n <> 0 -> k <= n -> sqlite3PcacheTruncate sz n m !! k = m !! k.
Proof.
  intros Hn Hk. unfold sqlite3PcacheTruncate. rewrite (proj2 (Z.eqb_neq _ _) Hn). destruct (m !! k) as [x|] eqn:Hx.
  - apply map_lookup_filter_Some. auto.
  - apply map_lookup_filter_None. auto.
Qed.

Lemma end_view sz p q : dbSize q = dbSize p -> fd q = fd p -> pPCache q = sqlite3PcacheTruncate sz (dbSize p) (sqlite3PcacheCleanAll (pPCache p)) -> view PS q = view PS p.
Proof.
  intros H1 H2 H3. apply view_ext; [exact H1|]. rewrite H1. intros k Hk. f_equal. unfold page_of. rewrite H2, H3.
  rewrite truncate_lookup by lia. unfold sqlite3PcacheCleanAll, on_dirty. rewrite lookup_fmap. destruct (pPCache p !! k) as [x|]; [|reflexivity]. cbn. destruct (pg_dirty x); reflexivity.
Qed.

Lemma commit_two v p : finished v p -> runs (sqlite3PagerCommitPhaseTwo e) p SQLITE_OK (ended e PS None p).
Proof.
  intros F. pose proof (finished_size v p F) as (_ & _ & Hsz & _).
  pose proof F as [(cs & Hc & [[B1 B2 B3 B4 B5 B6 B7 B8 B9 B10 B11 B12 B13] K]) _ _ _ _ Hs Hst].
  unfold sqlite3PagerCommitPhaseTwo. silent. rewrite B7, Hst. ok. change (PAGER_WRITER_FINISHED =? PAGER_WRITER_LOCKED) with false. cbn [andb].
  step (runs_end e Q PS (cf_mode e C) true).
  - unfold EXCLUSIVE_LOCK, UNKNOWN_LOCK in *. lia.
  - exact B8.
  - exact B5.
  - intros _. rewrite Hst. split; [reflexivity|lia].
  - rewrite Hs, Z.ltb_irrefl. cbn [andb]. ret.
Qed.

(** The transaction is on disk as a whole, or not at all. *)
Lemma commit_inv cs s p : inv cs (Some s) p -> 1 <= mxPgno p ->
  wp (sqlite3PagerCommitPhaseOne e false ?; sqlite3PagerCommitPhaseTwo e) p (fun rc p' => rc = SQLITE_OK /\ eState p' = PAGER_READER /\ view PS p' = view PS p /\
    exists new, Forall (fun d => Zlen d = PS) new /\ Zlen new < lock_page PS /\ contents new = view PS p /\ fate new (log p')).
Proof.
  intros I Hm. apply wp_bind. eapply wp_mono; [exact (commit_one cs s p I Hm)|]. intros rc q (-> & F). ok. eapply wp_runs; [exact (commit_two _ q F)|].
  split; [reflexivity|]. split; [reflexivity|]. split; [rewrite (end_view (pageSize q) q) by reflexivity; apply F|]. pose proof (finished_size _ q F) as (S1 & _).
  destruct (fn_inv _ _ F) as (cs' & Hc & [B _]). exists (file_pages (fd q) (dbSize q)). split; [|split; [|split]].
  - unfold file_pages. apply Forall_fmap, Forall_forall. intros n _. apply (file_page_length PS HS SZ).
  - rewrite file_pages_length by exact S1. apply (b_dbSize _ _ _ _ _ _ _ B).
  - exact (finished_contents _ q F).
  - apply (finished_fate _ q F). destruct (b_cursor _ _ _ _ _ _ _ B) as [-> _].
    destruct (logged_files PS HS SZ orig lengths small d0 _ _ _ _ (b_logged _ _ _ _ _ _ _ B)) as (_ & Hch & _). pose proof (end_of_pos _ Hc Hch). lia.
Qed.


End Commit.
