(* ===== verification/PagerActive.v ===== *)
(** * The pager: transactions as scripts

    A transaction reads and writes pages, opens and releases savepoints, and its cache spills and
    drops pages.  It behaves as on a list of pages. *)
From stdpp Require Import gmap sorting.
From S2P Require Import Prelude Value Record Savepoint Pager PagerJournal PagerOps PagerRun PagerRecovery PagerCrash PagerTxn PagerInv PagerCommit.

Local Open Scope Z_scope.

(** What a transaction does; [Recycle] is the page cache that needs memory. *)
Inductive op :=
  | Read (n : Z)
  | Write (n : Z) (d : list Z)
  | Recycle (n : Z)
  | Savepoint (n : Z)
  | Release (i : Z).

(** ** On a list of pages *)

Definition op_contents (o : op) (c : list (list Z)) : list (list Z) :=
  match o with Write n d => put_page n (norm n d) c | _ => c end.

Definition op_reads (o : op) (c : list (list Z)) : list (list Z) :=
  match o with Read n => option_list (c !! Z.to_nat (n - 1)) | _ => [] end.

Fixpoint script_contents (l : list op) (c : list (list Z)) : list (list Z) :=
  match l with [] => c | o :: l => script_contents l (op_contents o c) end.

Fixpoint script_reads (l : list op) (c : list (list Z)) : list (list Z) :=
  match l with [] => [] | o :: l => op_reads o c ++ script_reads l (op_contents o c) end.

(** Pages are [PS] bytes; pages are numbered from 1, up to [mx], and a write may append one. *)
Definition op_ok (PS mx : Z) (o : op) (c : list (list Z)) : Prop :=
  match o with
  | Read n => 1 <= n <= Zlen c /\ n <= mx
  | Write n d => 1 <= n <= Zlen c + 1 /\ n < lock_page PS /\ n <= mx /\ Zlen d = PS
  | _ => True
  end.

Fixpoint script_ok (PS mx : Z) (l : list op) (c : list (list Z)) : Prop :=
  match l with [] => True | o :: l => op_ok PS mx o c /\ script_ok PS mx l (op_contents o c) end.

(** ** On the pager *)

Section Script.
Context (e : PagerEnv).

(** The code and the pages that were read. *)
Definition run_op (o : op) : pg (Z * list (Z * list Z)) :=
  match o with
  | Read n =>
      rc ← sqlite3PagerGet e n false;
      p ← get id;
      mret (rc, (fun x => (n, pg_data x)) <$> option_list (pPCache p !! n))
  | Write n d => rc ← write_page e n d; mret (rc, [])
  | Recycle n => rc ← recycle_page e n; mret (rc, [])
  | Savepoint n => rc ← sqlite3PagerOpenSavepoint e n; mret (rc, [])
  | Release i => rc ← sqlite3PagerSavepoint e SAVEPOINT_RELEASE i; mret (rc, [])
  end.

Fixpoint run_ops (l : list op) : pg (Z * list (Z * list Z)) :=
  match l with
  | [] => mret (SQLITE_OK, [])
  | o :: l =>
      '(rc, r) ← run_op o;
      if rc =? SQLITE_OK then '(rc, rs) ← run_ops l; mret (rc, r ++ rs) else mret (rc, r)
  end.

Definition commit : pg Z := sqlite3PagerCommitPhaseOne e false ?; sqlite3PagerCommitPhaseTwo e.

(** A transaction, from its first lock to its commit. *)
Definition run_transaction (exFlag : bool) (l : list op) : pg (Z * list (Z * list Z)) :=
  rc ← sqlite3PagerBegin e exFlag;
  if rc =? SQLITE_OK then
    '(rc, rs) ← run_ops l;
    if rc =? SQLITE_OK then rc ← commit; mret (rc, rs) else mret (rc, rs)
  else mret (rc, []).

End Script.

Section Active.
Context (e : PagerEnv) (Q : quiet e) (C : config_ok e) (PS HS : Z) (SZ : sizes_ok PS HS) (HP : HS <= PS).
Context (orig : list (list Z)) (lengths : Forall (fun d => Zlen d = PS) orig) (small : Zlen orig < lock_page PS) (d0 : disk).
(** Whether nothing is left in the journal of earlier transactions. *)
Context (t : Prop).

Local Abbreviation inv := (inv PS HS orig d0).
Local Abbreviation ready := (ready e PS HS orig d0).

(** A transaction that has the contents [c]. *)
Definition active (mx : Z) (c : list (list Z)) (p : Pager) : Prop :=
  (ready p /\ (t -> f_size (journal p) = 0) \/ exists cs s, inv cs (Some s) p /\ (t -> tight p)) /\ view PS p = c /\ mxPgno p = mx.

Lemma active_size mx c p : active mx c p -> Zlen c = dbSize p /\ dbSize p < lock_page PS.
Proof.
  pose proof (Zlen_nonneg orig). intros [[[R _]|(cs & s & [B _] & _)] [<- _]].
  - pose proof (rd_dbSize _ _ _ _ _ _ R). rewrite view_length by lia. lia.
  - pose proof (b_dbSize _ _ _ _ _ _ _ B). rewrite view_length by lia. lia.
Qed.

Lemma active_errCode mx c p : active mx c p -> errCode p = SQLITE_OK /\ pageSize p = PS.
Proof. intros [[[R _]|(cs & s & [B _] & _)] _]; split; apply R || apply B. Qed.

(** ** The original pages *)

Lemma orig_page n : 1 <= n <= Zlen orig -> exists d, page_at orig n d.
Proof.
  intros Hn. destruct (lookup_lt_is_Some_2 orig (Z.to_nat (n - 1))) as [d Hd]; [unfold Zlen in Hn; lia|]. exists d. split; [lia|exact Hd].
Qed.

Lemma orig_view q : dbSize q = Zlen orig -> (forall n d, page_at orig n d -> page_of PS q n = d) -> view PS q = contents orig.
Proof.
  intros H1 H2. unfold contents, view, undo. rewrite H1. apply list_eq. intros i.
  rewrite list_lookup_fmap, lookup_zip_with. destruct (seqZ 1 (Zlen orig) !! i) as [n|] eqn:Hn; [|reflexivity]. apply lookup_seqZ in Hn as [-> Hi].
  destruct (orig_page (1 + Z.of_nat i) ltac:(lia)) as [d Hd]. cbn. rewrite (H2 _ _ Hd). destruct Hd as [_ Hd].
  replace (Z.to_nat (1 + Z.of_nat i - 1)) with i in Hd by lia. rewrite Hd. reflexivity.
Qed.

Lemma ready_view p : ready p -> view PS p = contents orig.
Proof.
  intros [R1 R2 R3 R4 R5 R6 RJ RO R7 R8 R9 R10 R11]. apply orig_view; [exact R7|]. intros n d Hd.
  destruct (logged_files PS HS SZ orig lengths small d0 _ _ _ _ R1) as (_ & _ & _ & _ & _ & _ & Hp). pose proof (Hp n d Hd (not_elem_of_nil _)) as Hf.
  unfold page_of. destruct (pPCache p !! n) as [x|] eqn:Hx; [|exact Hf]. rewrite <- Hf. apply page_at_range in Hd.
  apply (c_clean _ _ _ _ _ _ _ _ R10 n x Hx); [exact (R11 _ _ Hx)|lia].
Qed.

(** ** Reads *)

Lemma read_active mx c p n : active mx c p -> 1 <= n <= Zlen c -> n <= mx ->
  runs (sqlite3PagerGet e n false) p SQLITE_OK (got n p) /\ active mx c (got n p) /\ norm n (pg_data (gotten n p)) :: [] = option_list (c !! Z.to_nat (n - 1)).
Proof.
  intros A Hn Hm. pose proof (active_size _ _ _ A) as [A1 A2]. pose proof (active_errCode _ _ _ A) as [A3 A4]. destruct A as [A [Hv Hx]]. split; [|split].
  - apply (runs_got e Q); [exact A3|lia|]. unfold PAGER_SJ_PGNO. rewrite A4. fold (lock_page PS). lia.
  - split; [|split; [rewrite got_view by exact A4; exact Hv|exact Hx]]. destruct A as [[R T]|(cs & s & I & T)].
    + left. split; [apply (ready_got e PS HS SZ orig d0); [exact R|lia]|exact T].
    + right. exists cs, s. split; [apply (inv_got PS HS SZ orig d0); [exact I|lia]|exact T].
  - rewrite <- Hv, view_lookup by lia. cbn. unfold page_of, gotten. destruct (pPCache p !! n); [reflexivity|]. rewrite (proj2 (Z.ltb_ge _ _)) by lia. rewrite A4. reflexivity.
Qed.

(** ** Savepoints *)

Definition saved (l : list PagerSavepoint) (n : Z) (f : option File) (p : Pager) : Pager := set_sjfd f (set_nSubRec n (set_aSavepoint l p)).

Lemma saved_same l p : set_aSavepoint l p = saved l (nSubRec p) (sjfd p) p.
Proof. unfold saved. pext. Qed.

Lemma active_saved mx c l n f p : active mx c p -> active mx c (saved l n f p).
Proof.
  intros [A [Hv Hm]]. split; [|split; [exact Hv|exact Hm]]. destruct A as [[[R1 R2 R3 R4 R5 R6 RJ RO R7 R8 R9 R10 R11] T]|(cs & s & [[B1 B2 B3 B4 B5 B6 B7 B8 B9 B10 B11 B12 B13] K] & T)].
  - left. split; [split; assumption|exact T].
  - right. exists cs, s. split; [split; [split; assumption|exact K]|exact T].
Qed.

Lemma runs_open_savepoints n p : exists l, runs (open_savepoints e n) p SQLITE_OK (set_aSavepoint l p).
Proof.
  revert p. induction n as [|n IH]; intros p; [exists (aSavepoint p); cbn; apply runs_ret; pext|]. cbn [open_savepoints].
  edestruct IH as [l Hl]. exists l. step (runs_alloc e Q). eapply runs_last; [exact Hl|]. pext.
Qed.

Lemma open_active mx c p n : active mx c p -> exists p', runs (sqlite3PagerOpenSavepoint e n) p SQLITE_OK p' /\ active mx c p'.
Proof.
  intros A. unfold sqlite3PagerOpenSavepoint. destruct (Zlen (aSavepoint p) <? n) eqn:Hn.
  - destruct (runs_open_savepoints (Z.to_nat (n - Zlen (aSavepoint p))) p) as [l Hl]. exists (set_aSavepoint l p). split.
    + silent. rewrite Hn. step (runs_alloc e Q). exact Hl.
    + rewrite saved_same. apply active_saved, A.
  - exists p. split; [|exact A]. silent. rewrite Hn. ret.
Qed.

Lemma release_active mx c p i : active mx c p -> exists p', runs (sqlite3PagerSavepoint e SAVEPOINT_RELEASE i) p SQLITE_OK p' /\ active mx c p'.
Proof.
  intros A. pose proof (active_errCode _ _ _ A) as [A3 A4]. unfold sqlite3PagerSavepoint. destruct (i <? Zlen (aSavepoint p)) eqn:Hi.
  - set (l := take (Z.to_nat (i + 0)) (aSavepoint p)).
    assert (A' : active mx c (set_aSavepoint l p)) by (rewrite saved_same; apply active_saved, A).
    destruct (aSavepoint p !! Z.to_nat (i + 0)) as [r|] eqn:Hr, (sjfd p) as [f|] eqn:Hf; [destruct (bTruncateOnRelease r) eqn:Ht|..].
    1: exists (saved l (iSubRec r) (if c_sjInMemory (pe_cfg e) then Some (file_truncate f ((pageSize p + 4) * iSubRec r)) else sjfd p) p); split; [|apply active_saved, A].
    2-5: exists (set_aSavepoint l p); split; [|exact A'].
    all: silent; rewrite A3, Hi; ok; change (SAVEPOINT_RELEASE =? SAVEPOINT_RELEASE) with true; cbv iota zeta; silent; fold l; rewrite Hr, ?Hf, ?Ht.
    1: silent; destruct (c_sjInMemory (pe_cfg e)); apply runs_ret; unfold saved; pext; exact Hf.
    all: ret.
  - exists p. split; [|exact A]. silent. rewrite A3, Hi. ok. ret.
Qed.


(** ** The operations of a script *)

Lemma recycle_ready p n : ready p -> exists p', runs (recycle_page e n) p SQLITE_OK p' /\ ready p' /\ view PS p' = view PS p /\ mxPgno p' = mxPgno p /\ journal p' = journal p.
Proof.
  intros R. pose proof R as [R1 R2 R3 R4 R5 R6 RJ RO R7 R8 R9 R10 R11]. destruct (pPCache p !! n) as [x|] eqn:Hx.
  2: { exists p. split; [|auto 6]. unfold recycle_page. silent. rewrite Hx. ret. }
  exists (set_pPCache (delete n (pPCache p)) p). split; [|split; [|split; [|split; reflexivity]]].
  - unfold recycle_page. silent. rewrite Hx, (R11 _ _ Hx). ret.
  - split; try assumption; psimp; [|intros k y Hy; apply lookup_delete_Some in Hy as [_ Hy]; exact (R11 _ _ Hy)].
    destruct R10 as [K1 K2 K3 K4 K5 K6]. split.
    + intros k Hk. lia.
    + intros k y Hy. apply lookup_delete_Some in Hy as [_ Hy]. exact (K2 k y Hy).
    + intros k y Hy. apply lookup_delete_Some in Hy as [_ Hy]. exact (K3 k y Hy).
    + intros k y Hy. apply lookup_delete_Some in Hy as [_ Hy]. exact (K4 k y Hy).
    + intros k Hk. apply elem_of_nil in Hk as [].
    + intros k y Hy. apply lookup_delete_Some in Hy as [_ Hy]. exact (K6 k y Hy).
  - apply view_ext; [reflexivity|]. intros k Hk. f_equal. unfold page_of. psimp. destruct (decide (k = n)) as [->|Hkn]; [|rewrite lookup_delete_ne by congruence; reflexivity].
    rewrite lookup_delete_eq, Hx. symmetry. apply (c_clean _ _ _ _ _ _ _ _ R10 n x Hx (R11 _ _ Hx)). cbn in Hk. lia.
Qed.

Lemma recycle_active mx c p n : active mx c p -> wp (recycle_page e n) p (fun rc p' => rc = SQLITE_OK /\ active mx c p').
Proof.
  intros [[[R T]|(cs & s & I & T)] [Hv Hm]].
  - destruct (recycle_ready p n R) as (p' & Hr & R' & Hv' & Hm' & Hj). eapply wp_runs; [exact Hr|]. split; [reflexivity|]. split; [left; split; [exact R'|rewrite Hj; exact T]|split; congruence].
  - eapply wp_mono; [exact (recycle_inv e Q C PS HS SZ HP orig lengths small d0 cs s n p I)|]. intros rc p' (-> & (cs' & s' & I') & Hv' & Hm' & T').
    split; [reflexivity|]. split; [right; exists cs', s'; auto|split; congruence].
Qed.

Lemma write_active mx c p n d : active mx c p -> 1 <= n <= Zlen c + 1 -> n < lock_page PS -> n <= mx -> Zlen d = PS ->
  wp (write_page e n d) p (fun rc p' => rc = SQLITE_OK /\ active mx (put_page n (norm n d) c) p').
Proof.
  intros A Hn Hl Hmx Hd. pose proof (active_size _ _ _ A) as [A1 _]. destruct A as [A [Hv Hm]].
  assert (H : wp (write_page e n d) p (fun rc p' => rc = SQLITE_OK /\ (exists cs s', inv cs (Some s') p' /\ (t -> tight p')) /\ view PS p' = put_page n (norm n d) (view PS p) /\ mxPgno p' = mxPgno p)).
  { destruct A as [[R T]|(cs & s & I & T)].
    - eapply wp_mono; [apply (write_page_ready e Q C PS HS SZ HP orig lengths small d0 n d p R); lia|]. intros rc p' (-> & (s & I) & H1 & H2 & H3). eauto 9.
    - eapply wp_mono; [apply (write_page_inv e Q C PS HS SZ HP orig lengths small d0 cs s n d p I); lia|]. intros rc p' (-> & (s' & I') & H1 & H2 & H3). eauto 9. }
  eapply wp_mono; [exact H|]. intros rc p' (-> & I & Hv' & Hm'). split; [reflexivity|]. split; [right; exact I|split; congruence].
Qed.

Definition normal (r : Z * list Z) : list Z := norm (fst r) (snd r).

Lemma op_active mx c p o : active mx c p -> op_ok PS mx o c ->
  wp (run_op e o) p (fun a p' => fst a = SQLITE_OK /\ normal <$> snd a = op_reads o c /\ active mx (op_contents o c) p').
Proof.
  intros A Ho. destruct o as [n|n d|n|n|i]; cbn [run_op op_ok op_reads op_contents] in *.
  - destruct (read_active mx c p n A (proj1 Ho) (proj2 Ho)) as (H1 & H2 & H3). wstep H1. apply wp_ret. cbn [fst snd]. split; [reflexivity|]. split; [|exact H2].
    rewrite got_cache, lookup_insert_eq. exact H3.
  - destruct Ho as (H1 & H2 & H3 & H4). apply wp_bind. eapply wp_mono; [exact (write_active mx c p n d A H1 H2 H3 H4)|]. intros rc p' [-> A']. apply wp_ret. auto.
  - apply wp_bind. eapply wp_mono; [exact (recycle_active mx c p n A)|]. intros rc p' [-> A']. apply wp_ret. auto.
  - destruct (open_active mx c p n A) as (p' & H & A'). wstep H. apply wp_ret. auto.
  - destruct (release_active mx c p i A) as (p' & H & A'). wstep H. apply wp_ret. auto.
Qed.

Lemma ops_active mx l : forall c p, active mx c p -> script_ok PS mx l c ->
  wp (run_ops e l) p (fun a p' => fst a = SQLITE_OK /\ normal <$> snd a = script_reads l c /\ active mx (script_contents l c) p').
Proof.
  induction l as [|o l IH]; intros c p A Hl; cbn [run_ops script_ok script_reads script_contents] in *; [apply wp_ret; auto|].
  destruct Hl as [Ho Hl]. apply wp_bind. eapply wp_mono; [exact (op_active mx c p o A Ho)|]. intros [rc r] p1 (H1 & H2 & A1). cbn [fst snd] in H1, H2. subst rc. ok.
  apply wp_bind. eapply wp_mono; [exact (IH _ _ A1 Hl)|]. intros [rc rs] p2 (H3 & H4 & A2). cbn [fst snd] in H3, H4. apply wp_ret. cbn [fst snd].
  rewrite fmap_app, H2, H4. auto.
Qed.


(** ** The start of a transaction *)

(** A process that reads: nothing has changed since the last transaction, and all of it is on disk. *)
Record reading (p : Pager) : Prop := {
  rg_eState : eState p = PAGER_READER;
  rg_eLock : eLock p = SHARED_LOCK;
  rg_errCode : errCode p = SQLITE_OK;
  rg_pageSize : pageSize p = PS;
  rg_sectorSize : sectorSize p = HS;
  rg_jfd : jfd p = true -> truncates e = true;
  rg_dbSize : dbSize p = Zlen orig;
  rg_fd : file_wf (fd p) /\ f_size (fd p) = PS * Zlen orig;
  rg_pages : forall n d, page_at orig n d -> file_page PS (fd p) n = d;
  rg_journal : file_wf (journal p) /\ ~ magic_at (journal p) 0;
  rg_cache : forall n x, pPCache p !! n = Some x -> 1 <= n <= Zlen orig /\ x = new_page (file_page PS (fd p) n);
  rg_log : log p = []
}.

Definition on_disk (p : Pager) : disk := mkDisk (mkDiskFile (fd p) []) (mkDiskFile (journal p) []).

Lemma reading_durable p : reading p -> durable PS HS orig [] (on_disk p).
Proof.
  intros [G1 G2 G3 G4 G5 G6 G7 [G8 G8'] G9 [G10 G10'] G11 G12]. split; cbn; try assumption; try constructor; try apply Forall_nil; try reflexivity; try assumption.
  - intros n b Hn _. exact (G9 n b Hn).
  - lia.
Qed.

Lemma reading_logged p : reading p -> d0 = on_disk p -> logged PS HS orig d0 [] (log p) (fd p) (journal p).
Proof.
  intros G Hd. pose proof (reading_durable p G) as D. rewrite (rg_log _ G). rewrite Hd. split; try reflexivity; [|exact D].
  intros k f j Hc. rewrite take_nil in Hc. exists []. exact (durable_recoverable PS HS SZ orig lengths small [] _ f j D Hc).
Qed.

Lemma reading_view p q : reading p -> dbSize q = dbSize p -> fd q = fd p -> pPCache q = pPCache p -> view PS q = contents orig.
Proof.
  intros G H1 H2 H3. apply orig_view; [rewrite H1; apply G|]. intros n d Hd. unfold page_of. rewrite H2, H3.
  destruct (pPCache p !! n) as [x|] eqn:Hx; [|exact (rg_pages _ G _ _ Hd)]. destruct (rg_cache _ G _ _ Hx) as [_ ->]. exact (rg_pages _ G _ _ Hd).
Qed.

Lemma begin_active ex p : reading p -> (t -> f_size (journal p) = 0) -> d0 = on_disk p -> exists p', runs (sqlite3PagerBegin e ex) p SQLITE_OK p' /\ active (mxPgno p) (contents orig) p'.
Proof.
  intros G HT Hd. pose proof (reading_logged p G Hd) as L. pose proof G as [G1 G2 G3 G4 G5 G6 G7 G8 G9 G10 G11 G12].
  exists (set_journalOff 0 (set_dbOrigSize (dbSize p) (set_dbFileSize (dbSize p) (set_eState PAGER_WRITER_LOCKED (set_eLock (if ex then EXCLUSIVE_LOCK else RESERVED_LOCK) p))))). split.
  - unfold sqlite3PagerBegin. silent. rewrite G3, G1. ok. change (PAGER_READER =? PAGER_READER) with true. cbv iota.
    step (runs_lock e Q); [rewrite G2; split; reflexivity|]. destruct ex; [step (runs_wait e); [apply (runs_lock e Q); psimp; split; reflexivity|]|]; ret.
  - split; [left; split; [|exact HT]|split; [apply (reading_view p); (exact G || reflexivity)|reflexivity]].
    split; psimp; try assumption; try reflexivity.
    + destruct ex; split; discriminate.
    + split; [intros n Hn; lia| | |..]; try (intros n x Hx; destruct (G11 n x Hx) as [Hr ->]; discriminate).
      * intros n x Hx. destruct (G11 n x Hx) as [Hr ->]. split; [apply (file_page_length PS HS SZ)|]. split; [lia|reflexivity].
      * intros n x Hx _ _. destruct (G11 n x Hx) as [_ ->]. reflexivity.
      * intros n Hn. apply elem_of_nil in Hn as [].
    + intros n x Hx. destruct (G11 n x Hx) as [_ ->]. reflexivity.
Qed.


End Active.
