(* ===== verification/PagerAtomic.v ===== *)
(** * The pager: transactions are atomic

    A transaction behaves as on a list of pages; a crash at any time, followed by the recovery of
    the next process, leads to the pages before the transaction or to those it has left.  The
    recovery may itself be stopped by a crash; the files it leaves can be recovered again, with
    the same result. *)
From stdpp Require Import gmap sorting.
From S2P Require Import Prelude Value Record Savepoint Pager PagerJournal PagerOps PagerRun PagerRecovery PagerCrash PagerTxn PagerInv PagerCommit PagerActive.

Local Open Scope Z_scope.

Section Resume.
Context (e : PagerEnv) (PS HS : Z) (SZ : sizes_ok PS HS) (SY : noSync e = false).
Context (c : list (list Z)) (lengths : Forall (fun d => Zlen d = PS) c) (small : Zlen c < lock_page PS).

Lemma settled_logged cs f j : recoverable_by PS HS c cs f j -> logged PS HS c (settled f j) cs [] f j.
Proof.
  intros R. pose proof (recoverable_durable HS PS c cs f j R) as D. split; try reflexivity; [|exact D].
  intros k f' j' Hc. rewrite take_nil in Hc. exists cs. exact (durable_recoverable PS HS SZ c lengths small cs _ f' j' D Hc).
Qed.

Lemma logged_restore d0 cs rs : cs <> [] -> forall l f j, Forall (fun r => 1 <= fst r /\ Zlen (snd r) = PS /\ in_recs (fst r) (seg_records cs)) rs ->
  logged PS HS c d0 cs l f j -> logged PS HS c d0 cs (l ++ (write_ev PS <$> rs)) (restore_file PS f rs) j.
Proof.
  intros Hc. induction rs as [|r rs IH]; intros l f j Hr L; [rewrite app_nil_r; exact L|]. inversion_clear Hr as [|? ? (H1 & H2 & H3) Hr'].
  cbn [fmap list_fmap]. rewrite (cons_middle (write_ev PS r) l), app_assoc. apply IH; [exact Hr'|].
  apply (logged_dwrite PS HS SZ c lengths small); try assumption. left. exact H3.
Qed.

Lemma recs_restorable cs f j : recoverable_by PS HS c cs f j ->
  Forall (fun r => 1 <= fst r /\ Zlen (snd r) = PS /\ in_recs (fst r) (seg_records cs)) (seg_records cs).
Proof.
  intros R. assert (Hall : Forall (from_orig c) (seg_records cs)).
  { unfold seg_records. apply Forall_concat, Forall_fmap, (Forall_impl _ _ _ (r_segs _ _ _ _ _ _ R)). intros s Hs. apply Hs. }
  apply Forall_forall. intros r Hr. pose proof (proj1 (Forall_forall _ _) Hall r Hr) as Hp. pose proof (page_at_range _ _ _ Hp). split_and!; [lia| |].
  - destruct Hp as [_ Hp]. exact (proj1 (Forall_lookup _ _) lengths _ _ Hp).
  - unfold in_recs. apply list_elem_of_fmap. eauto.
Qed.

(** The database file is restored and synced. *)
Lemma recovery_logged cs f j : recoverable_by PS HS c cs f j ->
  logged PS HS c (settled f j) cs (sync_log e Jrnl ++ recovery_log PS c cs f ++ sync_log e Db) (recovered PS c cs f) j.
Proof.
  intros R. pose proof (settled_logged cs f j R) as L. apply (logged_jsync PS HS SZ c lengths small) in L. unfold sync_log. rewrite SY. rewrite app_assoc.
  apply (logged_dsync PS HS SZ c lengths small). unfold recovery_log, recovered. destruct cs as [|s cs]; [rewrite app_nil_r; exact L|].
  rewrite app_assoc. apply logged_restore; [discriminate|exact (recs_restorable _ _ _ R)|]. destruct (Z.eqb_spec (f_size f) (PS * Zlen c)) as [He|He].
  - rewrite app_nil_r, <- He, truncate_same. exact L.
  - apply (logged_dtruncate PS HS SZ c lengths small); [exact L|discriminate|lia].
Qed.

Definition db_event (ev : event) : Prop := match ev with EvWrite Db _ _ | EvTruncate Db _ | EvSync Db => True | _ => False end.

Lemma db_events l : forall d, Forall db_event l -> d_jrnl (disk_after d l) = d_jrnl d.
Proof. induction l as [|ev l IH]; intros d H; [reflexivity|]. inversion_clear H as [|? ? H1 H2]. cbn. rewrite IH by exact H2. destruct ev as [[] | [] | [] |]; reflexivity || destruct H1. Qed.

Lemma recovery_events cs f : Forall db_event (recovery_log PS c cs f).
Proof.
  unfold recovery_log. destruct cs as [|s cs]; [constructor|]. apply Forall_app. split; [destruct (_ =? _); repeat constructor|].
  apply Forall_fmap, Forall_forall. intros r _. exact I.
Qed.

Lemma recovery_settled cs f j : recoverable_by PS HS c cs f j ->
  disk_after (settled f j) (sync_log e Jrnl ++ recovery_log PS c cs f ++ sync_log e Db) = settled (recovered PS c cs f) j.
Proof.
  intros R. pose proof (recovery_logged cs f j R) as [_ _ L3 L4]. revert L3 L4. unfold sync_log. rewrite SY. rewrite app_assoc, disk_after_snoc.
  pose proof (db_events (recovery_log PS c cs f) (settled f j) (recovery_events cs f)) as Hj. unfold disk_after at 1 2. rewrite foldl_app.
  change (foldl disk_step (settled f j) [EvSync Jrnl]) with (settled f j). fold (disk_after (settled f j) (recovery_log PS c cs f)).
  intros L3 _. destruct (disk_after _ _) as [x y]. cbn in *. rewrite Hj. unfold sync_file, settled. f_equal. f_equal. exact L3.
Qed.

(** The recovery of [p] has led to [p']; a crash while it did so. *)
Lemma resume cs p p' k f j : recoverable_by PS HS c cs (fd p) (journal p) -> log p = [] -> outcome e PS c cs p p' ->
  crashes HS (disk_after (settled (fd p) (journal p)) (take k (log p'))) f j -> exists cs', recoverable_by PS HS c cs' f j.
Proof.
  intros R Hl Ho Hc. pose proof (settled_logged cs _ _ R) as L. pose proof (proj2 (r_wf _ _ _ _ _ _ R)) as Hj.
  destruct Ho as [-> _ Hlog _|Hz _ Hlog _|o _ Hlog _ _]; rewrite Hlog, Hl in Hc; cbn [app] in Hc.
  - exact (lg_safe _ _ _ _ _ _ _ _ L k f j Hc).
  - destruct k as [|k]; [exact (lg_safe _ _ _ _ _ _ _ _ L 0%nat f j Hc)|]. cbn [take] in Hc. rewrite take_nil in Hc. destruct Hc as [Hf Hj'].
    destruct (crash_gone HS (journal p) j (proj1 Hj) Hj') as [H|[H1 H2]]; [exact (lg_safe _ _ _ _ _ _ _ _ L 0%nat f j (conj Hf H))|].
    exists []. apply (recoverable_gone HS PS SZ c (fd p)); try assumption. pose proof (r_size _ _ _ _ _ _ R). pose proof (Zlen_nonneg c). destruct SZ. split; [nia|].
    intros n d Hn. pose proof (page_at_range _ _ _ Hn). nia.
  - pose proof (recovery_logged cs _ _ R) as L'. rewrite !app_assoc in Hc. rewrite <- (app_assoc _ _ (sync_log e Db)) in Hc.
    set (l := sync_log e Jrnl ++ recovery_log PS c cs (fd p) ++ sync_log e Db) in *. destruct (decide (k <= length l)%nat) as [Hk|Hk].
    + rewrite take_app_le in Hc by exact Hk. exact (lg_safe _ _ _ _ _ _ _ _ L' k f j Hc).
    + rewrite take_app_ge in Hc by lia. unfold disk_after in Hc. rewrite foldl_app in Hc. fold (disk_after (settled (fd p) (journal p)) l) in Hc.
      unfold l in Hc at 1. rewrite (recovery_settled cs _ _ R) in Hc. destruct (final_crash e HS _ _ _ _ _ _ (proj1 Hj) Hc) as [Hf [[Hj' _]|(H1 & H2 & _)]].
      * apply (lg_safe _ _ _ _ _ _ _ _ L' (length l)). rewrite take_ge by lia. unfold l. rewrite (recovery_settled cs _ _ R). split; assumption.
      * exists []. apply (recoverable_gone HS PS SZ c (recovered PS c cs (fd p))); try assumption. exact (recovered_ok PS HS SZ c lengths cs _ _ R).
Qed.


End Resume.

Section Unwritten.
Context (e : PagerEnv) (Q : quiet e) (C : config_ok e) (PS HS : Z) (orig : list (list Z)) (d0 : disk).

Local Abbreviation ready := (ready e PS HS orig d0).

(** ** The end of a transaction *)

Definition unwritten (p : Pager) : Pager :=
  let q := if jfd p then finalized e (released p) else released p in
  set_eState PAGER_READER (set_changeCountDone false (set_eLock SHARED_LOCK
    (set_pPCache (sqlite3PcacheTruncate (pageSize p) (dbSize p) (sqlite3PcacheCleanAll (pPCache p))) (set_nRec 0 (set_pInJournal None q))))).

Lemma runs_unwritten p : ready p -> runs (commit e) p SQLITE_OK (unwritten p).
Proof.
  intros [R1 R2 R3 R4 R5 R6 RJ RO R7 R8 R9 R10 R11]. unfold commit, sqlite3PagerCommitPhaseOne, sqlite3PagerCommitPhaseTwo. silent. rewrite R4, R6. ok.
  change (PAGER_WRITER_LOCKED <? PAGER_WRITER_CACHEMOD) with true. silent. rewrite R4, R6. ok. rewrite (mo_exclusive _ (cf_mode e C)), andb_false_r. cbn [andb].
  unfold pager_end_transaction. silent. rewrite (proj2 (Z.ltb_ge (eLock p) RESERVED_LOCK)), andb_false_r by lia.
  unfold releaseAllSavepoints. rewrite (mo_exclusive _ (cf_mode e C)). cbn [negb orb]. silent. fold (released p).
  eapply runs_bind with (a := SQLITE_OK) (p' := if jfd p then finalized e (released p) else released p).
  { destruct (jfd p); [apply (runs_finalize e Q (cf_mode e C))|apply runs_ret; reflexivity]. }
  set (q := if jfd p then finalized e (released p) else released p).
  assert (Hq : dbSize q = dbSize p /\ dbFileSize q = dbFileSize p /\ eLock q = eLock p /\ pageSize q = pageSize p /\ pPCache q = pPCache p).
  { unfold q. destruct (jfd p); split_and!; reflexivity. }
  destruct Hq as (Q1 & Q2 & Q3 & Q4 & Q5). unfold unwritten. fold q. clearbody q. silent. psimp. rewrite Q1, Q2, Q4, Q5, R7, R9, Z.ltb_irrefl. cbn [andb]. ok. silent.
  step (runs_call e Q). step (runs_unlock e Q); [psimp; rewrite Q3; unfold EXCLUSIVE_LOCK, UNKNOWN_LOCK in *; lia|]. ret.
Qed.

Lemma unwritten_frame p : ready p -> log (unwritten p) = log p /\ view PS (unwritten p) = view PS p.
Proof.
  intros R. split.
  - unfold unwritten. destruct (jfd p) eqn:Hj; [|reflexivity]. cbv zeta. unfold finalized, final_log. psimp. rewrite (rd_jfd _ _ _ _ _ _ R Hj). change (journalOff (released p)) with (journalOff p).
    rewrite (rd_journalOff _ _ _ _ _ _ R). apply app_nil_r.
  - apply (end_view PS (pageSize p)); unfold unwritten; destruct (jfd p); reflexivity.
Qed.


End Unwritten.


(** ** Atomicity *)

Section Main.
Context (e : PagerEnv) (Q : quiet e) (C : config_ok e) (PS HS : Z) (SZ : sizes_ok PS HS) (HP : HS <= PS).

(** A process that starts with these files, of which the journal names no super-journal, gets its first lock, and has made the file satisfy [P]. *)
Definition recovers (f j : File) (P : File -> Prop) : Prop :=
  forall e' q, quiet e' -> mode_ok e' -> fresh HS q -> fd q = f -> journal q = j -> no_super j ->
    exists q', runs (sqlite3PagerSharedLock e') q SQLITE_OK q' /\ eState q' = PAGER_READER /\ P (fd q').

(** The recovery of the files [x] is stopped by a crash, which leaves the files [y]. *)
Definition interrupted (x y : File * File) : Prop :=
  exists e' q q' k, quiet e' /\ mode_ok e' /\ noSync e' = false /\ fresh HS q /\ (fd q, journal q) = x /\ log q = [] /\ no_super (journal q) /\
    runs (sqlite3PagerSharedLock e') q SQLITE_OK q' /\ crashes HS (disk_after (settled (fd q) (journal q)) (take k (log q'))) (fst y) (snd y).

Section Recoverable.
Context (c : list (list Z)) (lengths : Forall (fun d => Zlen d = PS) c) (small : Zlen c < lock_page PS).

Lemma interrupted_recoverable cs x y : recoverable_by PS HS c cs (fst x) (snd x) -> interrupted x y -> exists cs', recoverable_by PS HS c cs' (fst y) (snd y).
Proof.
  intros R (e' & q & q' & k & Q' & M' & S' & Fr & <- & Hl & Hn & Hr & Hc). cbn [fst snd] in R.
  destruct (runs_shared_lock e' Q' PS HS SZ c lengths small M' cs q Fr Hn R) as (q2 & Hr2 & Ho & _).
  destruct (Hr 0%nat) as [c1 E1], (Hr2 0%nat) as [c2 E2]. rewrite E1 in E2. injection E2 as <- _.
  exact (resume e' PS HS SZ S' c lengths small cs q q' k _ _ R Hl Ho Hc).
Qed.

Lemma interrupted_often x y : rtc interrupted x y -> forall cs, recoverable_by PS HS c cs (fst x) (snd x) -> exists cs', recoverable_by PS HS c cs' (fst y) (snd y).
Proof. induction 1 as [x|x y z H _ IH]; intros cs R; [eauto|]. destruct (interrupted_recoverable cs x y R H) as [cs' R']. exact (IH cs' R'). Qed.

Lemma recoverable_recovers cs f j f' j' (P : File -> Prop) : recoverable_by PS HS c cs f j -> rtc interrupted (f, j) (f', j') ->
  (forall g, holds PS c g -> P g) -> recovers f' j' P.
Proof.
  intros R0 Hi HP0 e' q Q' M' Fr <- <- Hn. destruct (interrupted_often _ _ Hi cs R0) as [cs' R].
  destruct (shared_lock_recovers e' Q' PS HS SZ c lengths small M' cs' q Fr Hn R) as (q' & H1 & H2 & H3).
  exists q'. split; [exact H1|]. split; [exact H2|]. apply HP0, H3.
Qed.

End Recoverable.

(** What a crash after [k] of the events [l] of a transaction leads to, if the recovery is stopped by any number of other
    crashes before it succeeds. *)
Definition atomic (d0 : disk) (orig new : list (list Z)) (l : list event) : Prop :=
  forall k f j f' j', crashes HS (disk_after d0 (take k l)) f j -> rtc interrupted (f, j) (f', j') ->
    recovers f' j' (fun g =>
      (holds PS orig g \/ holds PS new g) /\
      (existsb is_final (take k l) = false -> holds PS orig g) /\
      ((length l <= k)%nat -> ends_durably e = true -> holds PS new g)).

Context (orig : list (list Z)) (lengths : Forall (fun d => Zlen d = PS) orig) (small : Zlen orig < lock_page PS).

Lemma fate_atomic d0 new l : Forall (fun d => Zlen d = PS) new -> Zlen new < lock_page PS -> fate e PS HS orig d0 new l -> atomic d0 orig new l.
Proof.
  intros Hl Hs F k f j f' j' Hc Hi. destruct (F k f j Hc) as [[(cs & R) Hk]|[R Hk]].
  - apply (recoverable_recovers orig lengths small cs f j f' j'); try assumption. intros g Hg. split; [left; exact Hg|]. split; [auto|]. intros Hk1 Hk2. destruct Hk; [lia|congruence].
  - apply (recoverable_recovers new Hl Hs [] f j f' j'); try assumption. intros g Hg. split; [right; exact Hg|]. split; [congruence|auto].
Qed.

Lemma commit_active d0 t mx c p : active e PS HS orig d0 t mx c p -> 1 <= mx ->
  wp (commit e) p (fun rc p' => rc = SQLITE_OK /\ view PS p' = c /\ exists new, contents new = c /\ atomic d0 orig new (log p')).
Proof.
  intros [[[R _]|(cs & s & I & _)] [Hv Hm]] H1.
  - eapply wp_runs; [exact (runs_unwritten e Q C PS HS orig d0 p R)|]. destruct (unwritten_frame e PS HS orig d0 p R) as [Hl Hv'].
    split; [reflexivity|]. split; [congruence|]. exists orig. split; [rewrite <- Hv; symmetry; exact (ready_view e PS HS SZ orig lengths small d0 p R)|].
    rewrite Hl. intros k f j f' j' Hc Hi. destruct (lg_safe _ _ _ _ _ _ _ _ (rd_logged _ _ _ _ _ _ R) k f j Hc) as [cs Hr].
    apply (recoverable_recovers orig lengths small cs f j f' j'); auto.
  - eapply wp_mono; [exact (commit_inv e Q C PS HS SZ HP orig lengths small d0 cs s p I ltac:(lia))|]. intros rc p' (-> & _ & Hv' & new & N1 & N2 & N3 & N4).
    split; [reflexivity|]. split; [congruence|]. exists new. split; [congruence|]. apply fate_atomic; assumption.
Qed.

(** C1: A transaction that is committed behaves as on a list of pages, and it is atomic: a crash after any
    of its writes and syncs leaves files from which the next process to lock the database gets all
    the original pages, or all the new ones, also if recoveries before it were stopped by crashes of their own;
    the original pages until the journal is ended, and
    the new ones after the last event if the end of the journal is synced.  This holds for pages not smaller than
    sectors, journals that are deleted or truncated, full syncs, a system without errors until the crash, and a
    journal found after it that does not end with the mark of a super-journal name. *)
Theorem pager_transaction_atomic exFlag l p : reading e PS HS orig p -> 1 <= mxPgno p -> script_ok PS (mxPgno p) l (contents orig) ->
  wp (run_transaction e exFlag l) p (fun a p' =>
    fst a = SQLITE_OK /\ normal <$> snd a = script_reads l (contents orig) /\ view PS p' = script_contents l (contents orig) /\
    exists new, contents new = script_contents l (contents orig) /\ atomic (on_disk p) orig new (log p')).
Proof.
  intros G H1 Hl. destruct (begin_active e Q PS HS SZ orig lengths small (on_disk p) False exFlag p G (False_ind _) eq_refl) as (p1 & Hb & A1). unfold run_transaction. wstep Hb.
  apply wp_bind. eapply wp_mono; [exact (ops_active e Q C PS HS SZ HP orig lengths small (on_disk p) False _ l _ _ A1 Hl)|]. intros [rc rs] p2 (E1 & E2 & A2).
  cbn [fst snd] in E1, E2. subst rc. ok. apply wp_bind. eapply wp_mono; [exact (commit_active _ _ _ _ _ A2 H1)|]. intros rc p3 (-> & E3 & N).
  apply wp_ret. cbn [fst snd]. auto.
Qed.

(** The journal of a transaction that has written: complete segments [cs] and the
    one that is being written, [s].  Each record is an original page, no page has
    two, and the records are in the file, those of complete segments also on the disk.
    An original page that is not marked as journaled reads as it was; one that has
    changed in the database file has its record in a complete segment. *)
Definition write_ahead (d0 : disk) (cs : list seg) (s : seg) (p : Pager) : Prop :=
  NoDup (all_recs cs (Some s)).*1 /\ Forall (from_orig orig) (all_recs cs (Some s)) /\ Zlen (all_recs cs (Some s)) <= Zlen orig /\
  Forall (seg_ok PS HS orig (df_base (d_jrnl (disk_after d0 (log p))))) cs /\ Forall (seg_ok PS HS orig (journal p)) cs /\
  open_ok PS HS orig (journal p) s /\ journalOff p = seg_end PS HS s /\ nRec p = Zlen (sg_recs s) /\
  exists b, pInJournal p = Some b /\ (forall n, n ∈ bv_bits b <-> in_recs n (all_recs cs (Some s))) /\
    forall n d, page_at orig n d -> (n ∉ bv_bits b -> page_of PS p n = d) /\ (file_page PS (fd p) n <> d -> in_recs n (seg_records cs)).

Lemma active_write_ahead d0 t mx c p : active e PS HS orig d0 t mx c p ->
  (eState p = PAGER_WRITER_LOCKED /\ c = contents orig) \/ exists cs s, write_ahead d0 cs s p.
Proof.
  intros [[[R _]|(cs & s & [B K] & _)] [Hv _]].
  - left. split; [apply R|]. rewrite <- Hv. exact (ready_view e PS HS SZ orig lengths small d0 p R).
  - right. exists cs, s. pose proof (base_from_orig PS HS SZ orig lengths small d0 _ _ _ B) as Hf.
    pose proof (logged_files PS HS SZ orig lengths small d0 _ _ _ _ (b_logged _ _ _ _ _ _ _ B)) as (_ & _ & Hs & _ & _ & _ & Hp).
    pose proof B as [[_ [_ _ Hd _ _ _ _ _ _ _ _] _ _] (_ & Ho & Hj & _ & Hn & _) Hnd (b & Hb & _ & Hbits) _ _ _ _ _ _ _ Hds _].
    split; [exact Hnd|]. split; [exact Hf|]. split; [exact (recs_count orig _ Hnd Hf)|]. split_and!; auto. exists b. split; [exact Hb|]. split; [exact Hbits|].
    intros n d Hpn. pose proof (page_at_range orig n d Hpn) as Hr. split.
    + intros Hnb. rewrite Hbits in Hnb. assert (Hc : ~ in_recs n (seg_records cs)).
      { intros Hi. apply Hnb. unfold all_recs, in_recs in *. rewrite fmap_app. apply elem_of_app. left. exact Hi. }
      rewrite <- (Hp n d Hpn Hc). unfold page_of. destruct (pPCache p !! n) as [x|] eqn:Hx; [|reflexivity].
      apply (c_clean _ _ _ _ _ _ _ _ K n x Hx); [|lia]. destruct (pg_dirty x) eqn:Hdx; [|reflexivity]. destruct Hnb. exact (c_dirty _ _ _ _ _ _ _ _ K n x Hx Hdx ltac:(lia)).
    + intros Hne. destruct (decide (in_recs n (seg_records cs))) as [|Hc]; [assumption|]. destruct Hne. exact (Hp n d Hpn Hc).
Qed.

(** C20: the write-ahead rule.  At every point between the operations of a
    transaction as above (no errors, a database that ends before the page that holds
    the locks, at 1 GiB) either nothing was written, or the journal is as follows.
    Every record of it is an original page with its original data, no page is
    journaled twice, and so there are at most as many records as original pages; the
    record count and the end of the journal are those of the segment being written.
    An original page that is not marked as journaled still reads as it was, and one
    that has changed in the database file has its record in a complete segment that
    is synced to the disk. *)
Theorem journal_holds_originals exFlag l p : reading e PS HS orig p -> script_ok PS (mxPgno p) l (contents orig) ->
  wp (sqlite3PagerBegin e exFlag ?; ('(rc, _) ← run_ops e l; mret rc)) p (fun rc p' => rc = SQLITE_OK /\
    ((eState p' = PAGER_WRITER_LOCKED /\ script_contents l (contents orig) = contents orig) \/ exists cs s, write_ahead (on_disk p) cs s p')).
Proof.
  intros G Hl. destruct (begin_active e Q PS HS SZ orig lengths small (on_disk p) False exFlag p G (False_ind _) eq_refl) as (p1 & Hb & A1). wstep Hb.
  apply wp_bind. eapply wp_mono; [exact (ops_active e Q C PS HS SZ HP orig lengths small (on_disk p) False _ l _ _ A1 Hl)|]. intros [rc rs] p2 (E1 & _ & A2).
  cbn [fst] in E1. subst rc. apply wp_ret. split; [reflexivity|exact (active_write_ahead _ _ _ _ _ A2)].
Qed.

End Main.

(** ** An example *)

(** Pages and sectors of 512 bytes, a journal that is deleted, no errors. *)
Definition sample_env : PagerEnv :=
  mkPagerEnv (mkConfig PAGER_JOURNALMODE_DELETE false false true false 0 512 (-1) 512 false 0)
    (fun _ => SQLITE_OK) (fun _ => 0%nat) (fun _ => SQLITE_OK) (fun _ => false) (fun _ => true) (fun k => Z.of_nat k) (fun _ => false).

(** Two pages of zeros. *)
Definition sample_pager : Pager :=
  mkPager 512 512 1000 PAGER_READER SHARED_LOCK SQLITE_OK false true 0 2 2 2 0 0 0 None 0 0 [] (zeros 16) ∅
    (mkFile 1024 (fun _ => 0)) false empty_file false None [].

Definition sample_script : list op :=
  [Write 1 (replicate 512 7); Savepoint 1; Write 3 (replicate 512 9); Recycle 1; Release 0; Read 3].

Lemma sample_quiet : quiet sample_env.
Proof. split; reflexivity. Qed.

Lemma sample_config : config_ok sample_env.
Proof. split; try reflexivity. split; [left|]; reflexivity. Qed.

Lemma sample_sizes : sizes_ok 512 512.
Proof. split; reflexivity || (split; discriminate). Qed.

Lemma sample_reading : reading sample_env 512 512 [zeros 512; zeros 512] sample_pager.
Proof.
  split; try reflexivity; try discriminate.
  - split; [|reflexivity]. split; [discriminate|reflexivity].
  - intros n d [H1 H2]. destruct (Z.to_nat (n - 1)) as [|[|k]]; [injection H2 as <-..|discriminate]; reflexivity.
  - split; [split; [cbn; lia|reflexivity]|]. intros H. discriminate (H 0%nat 0xd9 eq_refl).
Qed.

Lemma pager_transaction_atomic_witness :
  let c := contents [zeros 512; zeros 512] in
  wp (run_transaction sample_env true sample_script) sample_pager (fun a p' =>
    fst a = SQLITE_OK /\ normal <$> snd a = script_reads sample_script c /\ view 512 p' = script_contents sample_script c /\
    exists new, contents new = script_contents sample_script c /\ atomic sample_env 512 512 (on_disk sample_pager) [zeros 512; zeros 512] new (log p')).
Proof.
  apply (pager_transaction_atomic sample_env sample_quiet sample_config 512 512 sample_sizes).
  - lia.
  - repeat constructor.
  - reflexivity.
  - exact sample_reading.
  - discriminate.
  - vm_compute. repeat split; discriminate.
Defined.

Lemma journal_holds_originals_witness :
  wp (sqlite3PagerBegin sample_env false ?; ('(rc, _) ← run_ops sample_env sample_script; mret rc)) sample_pager
    (fun rc p' => rc = SQLITE_OK /\
      ((eState p' = PAGER_WRITER_LOCKED /\ script_contents sample_script (contents [zeros 512; zeros 512]) = contents [zeros 512; zeros 512]) \/
       exists cs s, write_ahead 512 512 [zeros 512; zeros 512] (on_disk sample_pager) cs s p')).
Proof.
  apply (journal_holds_originals sample_env sample_quiet sample_config 512 512 sample_sizes).
  - lia.
  - repeat constructor.
  - reflexivity.
  - exact sample_reading.
  - vm_compute. repeat split; discriminate.
Defined.
